(* ===== verification/_CoqProject ===== *)
-Q . S2P
Prelude.v
Sha256.v
Json.v
StructuredJson.v
JsonUnmarshal.v
SemanticEqual.v
JsonPath.v
GoValue.v
Durations.v
CanonicalJson.v
JsonStrings.v
Domain.v
CleanupEvidence.v
GoPath.v
GoStrings.v
CleanupInventory.v
PortEvidence.v
Verdicts.v
Verification.v
HostFiles.v
MonotonicState.v
TrustState.v
ReleaseState.v
TrustChainState.v
TrustRotationState.v
Base64.v
GoStruct.v
Dsse.v
TrustPolicy.v
TransitionWalk.v
AuthorityTransition.v
ReleaseIndex.v
ReleaseTransition.v
Freshness.v
Regex.v
Privacy.v
AcceptanceRegistry.v
AcceptanceEvaluation.v
Url.v
HttpContract.v
PlanTypes.v
Manifest.v
ManifestValidate.v
ManifestSafety.v
SchemaPolicy.v
SchemaInstance.v
RuntimePolicy.v
SchemaFeatures.v
SchemaSource.v
PlanDocument.v
PlanContract.v
Planner.v
PlannerSafety.v
ExecutionPlan.v
ExecutionTexts.v
ExecutionAccept.v
ExecutionContract.v
ExecutionRequests.v
ExecutionHttp.v
ExecutionJourney.v
ExecutionRuns.v
Engine.v
Backend.v
Negotiation.v
HelperControl.v
JourneyAssertions.v
JourneyRun.v
JourneySafety.v
CommandAssertions.v
