(* ===== verification/Prelude.v ===== *)
(** * RepoPassport in Rocq

    RepoPassport takes a source tree and a manifest, resolves one scenario into
    a plan, runs the plan in a container, evaluates what was observed, and signs
    the result.  This development models the decision-making code of its Go
    packages (src/internal/) as executable functions and proves what a user of
    the results relies on.  File names below are those of src/internal/ and of
    this directory; a definition keeps the name of the Go function it models.

    ** The program and its parts

    - A manifest is validated ([Manifest], [ManifestValidate]); the planner
      resolves a scenario of it against a source snapshot into a plan with a
      digest ([Planner]); the runner executes the plan and collects evidence;
      the verification core turns the evidence into a result with verdicts and
      digests and recomputes all of it when a result is read ([Verification]).
    - The result is published through a privacy gate ([Privacy]), attested under
      an offline trust policy ([TrustPolicy]) whose authority may rotate
      ([AuthorityTransition]); what a verifier has accepted before is kept in
      monotonic records on disk ([TrustState] and its siblings), and releases
      are described by a signed index ([ReleaseIndex], [ReleaseTransition]).
    - Every document passes through strict JSON decoding ([StructuredJson],
      [JsonUnmarshal], [GoStruct]) and is identified by the SHA-256 digest of
      its canonical bytes ([CanonicalJson], [Sha256]).

    ** Files and sources

    Shared: [Prelude] (this file: results, error monad, generic lemmas, tactics).

    The Go standard library, as far as the program uses it: [Sha256]
    (crypto/sha256, encoding/hex), [Json] and [JsonUnmarshal] and [GoStruct]
    (encoding/json: text, tokens, decoding into structs), [GoValue] (values of
    type any, binary64, times), [Durations] (time.ParseDuration and
    Duration.String), [GoPath] (path), [GoStrings] (strings), [Base64]
    (encoding/base64), [Regex] (regexp), [Url] (net/url).

    Documents: [StructuredJson], [JsonStrings], [SemanticEqual], [JsonPath]
    (structuredjson: decode.go, number_limits.go, equal.go, path.go),
    [SchemaPolicy] and [SchemaInstance] (structuredjson: schema.go, errors.go),
    [CanonicalJson] (canonicaljson/canonical.go), [Domain] and [PlanTypes]
    (domain/types.go, error.go), [PlanDocument] (the document of a plan, and
    digestPlan and OverrideRepeats of planner.go), [HttpContract]
    (domain/http_contract.go).

    Manifest and plan: [Manifest], [ManifestValidate], [ManifestSafety]
    (manifest/types.go, validate.go), [RuntimePolicy] (runtimepolicy/policy.go),
    [SchemaFeatures] (planner/schema_features.go), [SchemaSource]
    (planner/structured_json.go), [PlanContract], [Planner], [PlannerSafety]
    (planner/planner.go).

    Execution: [ExecutionPlan] (what runner.go, http_plan.go, http_driver.go,
    structured_json.go and http_file_assertion.go require of a plan before it
    runs), [ExecutionTexts] (why the runner's byte tests agree with the
    validator's), [ExecutionAccept], [ExecutionContract], [ExecutionRequests],
    [ExecutionHttp], [ExecutionJourney] and [ExecutionRuns] (the comparison of
    the runner's checks with the planner's, one part of the plan each); [Engine]
    (the interfaces of backend.go: what the container engine, the clock and a
    context answer, call by call), [Backend] (backend.go, features.go),
    [Negotiation] (a resolved plan's features), [HelperControl] (how the answers
    of the helpers are read: http_driver.go, http_file_assertion.go),
    [JourneyAssertions] (http_assertions.go, assertions.go), [JourneyRun]
    (executeHTTPJourney and all it calls: http_driver.go, http_driver_cleanup.go,
    http_file_assertion.go, http_json_file_assertion.go) [JourneySafety]
    (what a run of it establishes) and [CommandAssertions] (assertions.go: the
    assertions of a command journey).

    Evidence: [CleanupInventory] (execution/cleanup_inventory.go and the cleanup
    stage of runner.go), [CleanupEvidence], [PortEvidence], [Verdicts],
    [Verification] (verification/verification.go).

    Trust: [Dsse], [TrustPolicy], [TransitionWalk], [AuthorityTransition],
    [Freshness] (attestation/), [ReleaseIndex], [ReleaseTransition]
    (releaseindex/), [HostFiles] and [MonotonicState] (what the four state
    packages share) with their instances [TrustState] (truststate/),
    [ReleaseState] (releasestate/), [TrustChainState] (trustchainstate/) and
    [TrustRotationState] (trustrotationstate/).

    Publication: [Privacy] (privacy/privacy.go), [AcceptanceRegistry] and
    [AcceptanceEvaluation] (acceptanceregistry/).

    ** How the model relates to the code

    - A Go function that returns [(value, error)] is a function to [result] (or to
      [option] where the caller only tests the error); early returns are written
      with [fail_if ... with ... ;;], in the order of the code.
    - Integers are [Z] with their wrap-around written out ([wrap64], [wrap_u64])
      where the code can overflow; floats are exact binary64 ([GoValue]).
    - A slice that the code compares with nil is a [slice] ([None] is nil); a map
      is an association list when its order of visit shows, else a [gmap].
    - Code that talks to the operating system is a function of a world that
      answers every call, failures included ([HostFiles.world], [SchemaSource.Host],
      the two scans of [ReleaseIndex], and [Engine], whose calls are counted by a
      small state monad, [Engine.io]); the theorems hold for every world.
    - Third-party code and primitives are type classes: [Ed25519] with
      [Ed25519Laws] (a signature made with a key verifies under its public key;
      nothing about forgery is assumed), [SchemaEngine] (which documents a named
      schema accepts), [SchemaCompiler] (which schemas compile), [RegexpSyntax]
      (which user patterns compile), [Platform] (url.Parse on malformed hosts and
      the entropy comparison), [Engine] (what each call of the container engine
      returns, whatever it did before), [HelperScripts] (the scripts' texts),
      [RunFiles] (os.Lstat and EvalSymlinks on what a run left) and [Expressions]
      (what a user pattern matches). Collisions of SHA-256 are never assumed away:
      a theorem that needs it has a collision as an alternative of its conclusion.

    ** Recursion and fuel

    Almost all functions are structural.  The others carry fuel, with a theorem
    that the fuel they are started with is enough: [StructuredJson.decodeToken]
    (twice the length of the text plus two: a value consumes a byte, and its
    depth is bounded; [decode_total]), [JsonUnmarshal.read_value] (the same argument),
    [HelperControl.read_fields] (one round more than there are names: a name that
    comes twice is refused), [SchemaPolicy.scanSchema]
    (the nodes of the document, once for every reference target;
    [SchemaPolicy.schema_scan_terminates]), [JsonPath.compile_loop] (the length
    of the expression), [Durations.components], [GoStrings.trim_while] and
    [Privacy.windows] (the length of the text), [Regex.iterate] and
    [Regex.find_all_from] (the length of the text: an iteration that consumes
    nothing ends the loop), [GoValue.shortest_digits] (17 digits are enough for
    a binary64), [Json.dec_digits] (the number of digits).

    ** What is proved

    - The result.  What [Build] writes, [VerifyIntegrity] accepts
      ([build_verifies]); an accepted result cannot be changed without changing
      its digest ([verify_tamper_evident]); an accepted success was earned by
      every repeat ([accepted_success_is_earned]); the guards of [Build] refuse in
      order, each with its message, and what passes them is sealed
      ([build_rejects]); each overall verdict is given by exactly the component
      verdicts that call for it ([aggregate_exact]).
    - Cleanup.  The producer's observation is what the verifier accepts
      ([cleanup_evidence_accepted], a refinement between two packages), and
      outputs are exported only after a trusted cleanup ([export_only_trusted]).
    - Documents.  Equal digests mean equal documents or a collision
      ([canonical_digest_injective]); decoding is bounded
      ([structured_decode_bounded]); semantic equality is equality of values
      ([semantic_equal_exact]); the schema policy terminates and accepts exactly
      the bounded profile ([schema_accepted_exact]).
    - Manifest and plan.  An accepted manifest is safe ([manifest_accepted_safe],
      [http_journey_sound]); a resolved plan carries only pinned, contained and
      bounded work ([resolved_plan_sound], [resolved_http_closed],
      [resolved_limits_bounded]), is bound by its digest ([plan_digest_binds]),
      and its schemas are the files of the snapshot ([schema_binding_sound]).
    - Execution.  The runner and the planner, written apart, agree: a resolved
      plan is run exactly when it stays within the runner's ceilings, its ids
      differ, its signals leave the helper time and its JSON files lie below
      /outputs ([resolved_plan_runs]). Its features are
      negotiated with every Linux engine ([resolved_features_negotiated]).  A
      journey that ends without an error has every assertion of the plan passed
      on evidence ([journey_success_sound]), whatever the engine answers and
      when; one that stops reports nothing after the step that stopped it
      ([journey_stops_in_order]); a response assertion means what its predicates
      say ([response_assertion_exact]), and the helper's answer is one exact
      document ([helper_response_exact]); the assertions
      of a command journey are decided exactly by its last step, and by files that
      are reached through no link ([command_assertions_exact]).
    - Trust.  The signed policies that parse are exactly the canonical envelopes of
      canonical payloads within their limits, signed by the authority
      ([signed_policy_acceptance_exact]), and issued ones are accepted
      ([issued_policy_verifies]); a chain of transitions authorises its terminal
      key by signatures only ([chain_authorizes_terminal],
      [release_chain_authorizes_terminal]); recorded state only advances, under
      every schedule of failing system calls ([trust_state_monotone]); a release
      that is accepted is the signed one, artifact by artifact
      ([release_acceptance_sound], [artifacts_match_index]).
    - Publication.  A document that passes the privacy gate has none of the
      forbidden contents ([privacy_pass_exact]), a refusal discloses nothing of
      it ([privacy_refusal_discloses]); acceptance evaluations are re-derived
      from their evidence ([accepted_evaluation_derived], [evaluation_roundtrip]).

    ** What is not modelled

    Processes and sockets (in execution/: service.go, the journeys of a command,
    the preparation and the removal of containers in runner.go, the observers of
    processes, ports and resources, and the text of the helper scripts): they are
    the source of the evidence, which the model takes as given.  YAML decoding
    (gopkg.in/yaml.v3): [Manifest] starts from the decoded structs.  Compiling and
    evaluating JSON Schemas (github.com/santhosh-tekuri/jsonschema).  The Windows
    builds, and timing (waits for locks, deadlines).  The tar bundle of the
    attestation package and the publication of files.  The command line (cli/),
    which parses flags and wires the packages, the reports (rendering/), source
    acquisition and run storage, and the release-engineering harnesses
    (sourcequalification/, releasequalification/), which drive external tools. *)

From stdpp Require Export base strings list numbers.
From stdpp Require Export gmap.
From Stdlib Require Export Lia ZArith NArith Ascii.
From Stdlib Require String.

(** ** Results: a value or a typed error, as Go's [(value, error)] pairs *)

Inductive result (E A : Type) : Type :=
  | Ok (a : A)
  | Err (e : E).
Arguments Ok {E A} a.
Arguments Err {E A} e.

Definition bind_result {E A B} (c : result E A) (k : A → result E B) : result E B :=
  match c with
  | Ok a => k a
  | Err e => Err e
  end.

Definition map_err {E F A} (f : E → F) (c : result E A) : result F A :=
  match c with
  | Ok a => Ok a
  | Err e => Err (f e)
  end.

(** [of_option e o]: a missing value is the error [e]. *)
Definition of_option {E A} (e : E) (o : option A) : result E A :=
  match o with
  | Some a => Ok a
  | None => Err e
  end.

Declare Scope go_scope.
Delimit Scope go_scope with go.
Open Scope go_scope.

Notation "'let!' x ':=' c 'in' k" := (bind_result c (λ x, k))
  (at level 10, x pattern, c at level 100, k at level 200) : go_scope.
Notation "'let?' x ':=' c 'in' k" := (mbind (λ x, k) c)
  (at level 10, x pattern, c at level 100, k at level 200) : go_scope.

(** Go's early return [if cond { return err }; rest]. *)
Notation "'fail_if' b 'with' e ';;' k" := (if b then Err e else k)
  (at level 10, b at level 99, e at level 99, k at level 200) : go_scope.

(** String equality as Go's [==] on strings. *)
Infix "=s" := String.eqb (at level 70, no associativity) : go_scope.
Notation "a '!=s' b" := (negb (String.eqb a b)) (at level 70, no associativity) : go_scope.

(** A loop that stops at its first error. *)
Fixpoint check_from {E A} (i : nat) (f : nat → A → result E unit) (l : list A) : result E unit :=
  match l with
  | [] => Ok tt
  | x :: rest => let! _ := f i x in check_from (S i) f rest
  end.
Definition check_each {E A} (f : nat → A → result E unit) (l : list A) : result E unit := check_from 0 f l.

(** ** Automation *)

Create HintDb gohints.
Create Rewrite HintDb gorewrite.

(** Case analysis on the tests of a translated function, in the hypotheses and
    then the goal; impossible branches are closed by [simplify_eq]. *)
Ltac case_test :=
  match goal with
  | H : context [if ?b then _ else _] |- _ => destruct b eqn:?
  | |- context [if ?b then _ else _] => destruct b eqn:?
  end.

Ltac case_tests := repeat (case_test; simplify_eq/=).

(** Booleans to propositions in the whole context. *)
Ltac to_prop :=
  repeat match goal with
  | H : _ && _ = true |- _ => apply andb_prop in H; destruct H
  | H : _ || _ = false |- _ => apply orb_false_elim in H; destruct H
  | H : negb _ = true |- _ => apply negb_true_iff in H
  | H : negb _ = false |- _ => apply negb_false_iff in H
  | H : String.eqb _ _ = true |- _ => apply String.eqb_eq in H
  | H : String.eqb _ _ = false |- _ => apply String.eqb_neq in H
  | H : (_ =? _)%Z = true |- _ => apply Z.eqb_eq in H
  | H : (_ =? _)%Z = false |- _ => apply Z.eqb_neq in H
  | H : (_ <? _)%Z = true |- _ => apply Z.ltb_lt in H
  | H : (_ <? _)%Z = false |- _ => apply Z.ltb_ge in H
  | H : (_ <=? _)%Z = true |- _ => apply Z.leb_le in H
  | H : (_ <=? _)%Z = false |- _ => apply Z.leb_gt in H
  | H : bool_decide _ = true |- _ => apply bool_decide_eq_true in H
  | H : bool_decide _ = false |- _ => apply bool_decide_eq_false in H
  end.

(** Rewrite with the boolean tests known in the context. *)
Ltac use_tests :=
  repeat match goal with
  | E : ?b = true |- context [?b] => rewrite E
  | E : ?b = false |- context [?b] => rewrite E
  end.

(** Linear arithmetic over [N] with quotients and remainders as atoms. *)
Ltac lia_N :=
  repeat match goal with
  | |- context [N.modulo ?a ?b] => generalize dependent (N.modulo a b)
  | |- context [N.div ?a ?b] => generalize dependent (N.div a b)
  end; intros; lia.

Lemma bind_Ok {E A B} (c : result E A) (k : A → result E B) b :
  bind_result c k = Ok b → ∃ a, c = Ok a ∧ k a = Ok b.
Proof. destruct c; simpl; naive_solver. Qed.

Ltac inv_bind :=
  repeat match goal with
  | H : bind_result ?c _ = Ok _ |- _ =>
      apply bind_Ok in H; destruct H as (? & ? & H)
  | H : of_option _ ?o = Ok _ |- _ => destruct o eqn:?; simplify_eq/=
  | H : map_err _ ?c = Ok _ |- _ => destruct c eqn:?; simplify_eq/=
  end.

Lemma check_from_ok {E A} i (f : nat → A → result E unit) l :
  check_from i f l = Ok tt ↔ ∀ j x, l !! j = Some x → f (i + j)%nat x = Ok tt.
Proof.
  revert i. induction l as [|x l IH]; intros i; cbn [check_from]; [by split|]. split.
  - intros H [|j] y Hj; destruct (f i x) as [[]|e] eqn:E1; try discriminate H; cbn in Hj.
    + injection Hj as <-. by rewrite Nat.add_0_r.
    + rewrite <- Nat.add_succ_comm. by apply IH.
  - intros H. pose proof (H 0%nat x eq_refl) as H0. rewrite Nat.add_0_r in H0. rewrite H0. cbn [bind_result]. apply IH.
    intros j y Hj. rewrite Nat.add_succ_comm. by apply H.
Qed.
Lemma check_each_ok {E A} (f : nat → A → result E unit) l :
  check_each f l = Ok tt ↔ ∀ j x, l !! j = Some x → f j x = Ok tt.
Proof. apply check_from_ok. Qed.

Lemma string_eqb_refl (s : string) : (s =s s) = true.
Proof. apply String.eqb_refl. Qed.
Lemma string_eqb_spec (a b : string) : (a =s b) = bool_decide (a = b).
Proof. destruct (String.eqb_spec a b); symmetry; [by apply bool_decide_eq_true|by apply bool_decide_eq_false]. Qed.
#[export] Hint Rewrite string_eqb_refl : gorewrite.

(** ** Machine integers

    Go's [int] and [int64] are 64-bit two's complement; arithmetic wraps. *)

Definition wrap64 (z : Z) : Z := ((z + 2 ^ 63) mod 2 ^ 64 - 2 ^ 63)%Z.
Definition int_min : Z := (- 2 ^ 63)%Z.
Definition int_max : Z := (2 ^ 63 - 1)%Z.
Definition is_int64 (z : Z) : bool := ((int_min <=? z) && (z <=? int_max))%Z.

Lemma wrap64_range z : is_int64 (wrap64 z) = true.
Proof.
  unfold is_int64, wrap64, int_min, int_max.
  pose proof (Z.mod_pos_bound (z + 2 ^ 63) (2 ^ 64) ltac:(lia)).
  apply andb_true_intro; split; apply Z.leb_le; lia.
Qed.

Lemma wrap64_small z : is_int64 z = true → wrap64 z = z.
Proof.
  unfold is_int64, wrap64, int_min, int_max. intros H. to_prop.
  rewrite Z.mod_small; lia.
Qed.

(** ** Bytes

    A Go string is a sequence of bytes; [string] is a list of 8-bit [ascii]. *)

Definition byte_val (c : ascii) : N := N_of_ascii c.
Definition byte_of (n : N) : ascii := ascii_of_N n.

Definition in_range (lo hi : N) (c : ascii) : bool :=
  ((lo <=? byte_val c) && (byte_val c <=? hi))%N.

Definition is_digit (c : ascii) : bool := in_range 48 57 c.
Definition is_lower_hex (c : ascii) : bool := is_digit c || in_range 97 102 c.
Definition is_hex (c : ascii) : bool := is_lower_hex c || in_range 65 70 c.

Definition all_ascii : list ascii := byte_of <$> (N.of_nat <$> seq 0 256).

Lemma byte_of_val c : byte_of (byte_val c) = c.
Proof. apply ascii_N_embedding. Qed.
Lemma byte_val_of n : (n < 256)%N → byte_val (byte_of n) = n.
Proof. apply N_ascii_embedding. Qed.
Lemma byte_val_lt c : (byte_val c < 256)%N.
Proof. by destruct c as [[] [] [] [] [] [] [] []]. Qed.

(** A boolean property of bytes is decided by the 256 of them. *)
Lemma ascii_all (P : ascii → bool) : forallb P all_ascii = true → ∀ c, P c = true.
Proof.
  intros H c. rewrite forallb_forall in H. apply H.
  unfold all_ascii. apply list_elem_of_In, list_elem_of_fmap.
  exists (byte_val c). split; [by rewrite byte_of_val|].
  apply list_elem_of_fmap. exists (N.to_nat (byte_val c)).
  split; [by rewrite N2Nat.id|]. apply elem_of_seq.
  pose proof (byte_val_lt c). lia.
Qed.

(** ** Strings *)

Fixpoint string_forallb (P : ascii → bool) (s : string) : bool :=
  match s with
  | EmptyString => true
  | String c s' => P c && string_forallb P s'
  end.

Fixpoint string_concat (l : list string) : string :=
  match l with
  | [] => ""
  | s :: l' => s +:+ string_concat l'
  end.

Abbreviation slen := String.length.

Definition zlen (s : string) : Z := Z.of_nat (slen s).

Fixpoint has_prefix (p s : string) : bool :=
  match p, s with
  | EmptyString, _ => true
  | String a p', String b s' => Ascii.eqb a b && has_prefix p' s'
  | String _ _, EmptyString => false
  end.

Fixpoint drop_string (n : nat) (s : string) : string :=
  match n, s with
  | O, _ => s
  | S n', String _ s' => drop_string n' s'
  | S _, EmptyString => ""
  end.

(** [strings.TrimPrefix]. *)
Definition trim_prefix (p s : string) : string :=
  if has_prefix p s then drop_string (slen p) s else s.

Fixpoint string_contains_byte (c : ascii) (s : string) : bool :=
  match s with
  | EmptyString => false
  | String a s' => Ascii.eqb a c || string_contains_byte c s'
  end.

Lemma app_string_nil_r (s : string) : s +:+ "" = s.
Proof. induction s as [|a s IH]; [done|]. change (String a (s +:+ "") = String a s). by rewrite IH. Qed.
Lemma app_string_assoc (a b c : string) : (a +:+ b) +:+ c = a +:+ (b +:+ c).
Proof.
  induction a as [|x a IH]; [done|].
  change (String x ((a +:+ b) +:+ c) = String x (a +:+ (b +:+ c))). by rewrite IH.
Qed.
Lemma app_string_cons c (a b : string) : String c a +:+ b = String c (a +:+ b).
Proof. done. Qed.
Lemma app_string_nil_l (b : string) : "" +:+ b = b.
Proof. done. Qed.
Lemma slen_app (a b : string) : slen (a +:+ b) = slen a + slen b.
Proof. induction a as [|x a IH]; [done|]. rewrite app_string_cons. simpl. by rewrite IH. Qed.
Lemma app_string_inj_l (p a b : string) : p +:+ a = p +:+ b → a = b.
Proof. induction p as [|c p IH]; [done|]. rewrite !app_string_cons. intros [= ?]. by apply IH. Qed.

#[export] Hint Rewrite app_string_nil_r app_string_nil_l app_string_assoc app_string_cons slen_app : gorewrite.

Lemma string_concat_cons r l : string_concat (r :: l) = r +:+ string_concat l.
Proof. done. Qed.

Lemma string_forallb_app P (a b : string) :
  string_forallb P (a +:+ b) = string_forallb P a && string_forallb P b.
Proof. induction a as [|c a IH]; [done|]. rewrite app_string_cons. simpl. rewrite IH. by rewrite andb_assoc. Qed.

Lemma string_forallb_impl (P Q : ascii → bool) s :
  (∀ c, P c = true → Q c = true) → string_forallb P s = true → string_forallb Q s = true.
Proof. intros HPQ. induction s as [|c s IH]; simpl; [done|]. intros ?. to_prop. rewrite HPQ, IH; done. Qed.

Lemma has_prefix_app p s : has_prefix p s = true ↔ ∃ r, s = p +:+ r.
Proof.
  revert s. induction p as [|c p IH]; intros s; simpl.
  - split; [exists s; done|done].
  - destruct s as [|d s]; simpl.
    + split; [done|]. intros [r Hr]. by rewrite app_string_cons in Hr.
    + split.
      * intros H. to_prop. apply Ascii.eqb_eq in H as ->. apply IH in H0 as [r ->]. exists r. done.
      * intros [r Hr]. rewrite app_string_cons in Hr. injection Hr as -> ->.
        rewrite Ascii.eqb_refl. apply IH. eauto.
Qed.

Lemma drop_string_app p r : drop_string (slen p) (p +:+ r) = r.
Proof. induction p as [|c p IH]; [done|]. rewrite app_string_cons. simpl. apply IH. Qed.

(** A string with bytes only from a class. *)
Definition digest_string (prefix value : string) (n : nat) : bool :=
  (slen value =? slen prefix + n)%nat && has_prefix prefix value
  && string_forallb is_lower_hex (drop_string (slen prefix) value).

Lemma has_prefix_self p r : has_prefix p (p +:+ r) = true.
Proof. apply has_prefix_app. eauto. Qed.
#[export] Hint Rewrite drop_string_app has_prefix_self : gorewrite.

Lemma digest_string_iff p s n :
  digest_string p s n = true ↔
  ∃ h, s = p +:+ h ∧ slen h = n ∧ string_forallb is_lower_hex h = true.
Proof.
  unfold digest_string. split.
  - intros H. to_prop. apply has_prefix_app in H1 as [h ->].
    rewrite drop_string_app in H0. exists h. repeat split; [|done].
    apply Nat.eqb_eq in H. rewrite slen_app in H. lia.
  - intros (h & -> & <- & Hh). by rewrite slen_app, Nat.eqb_refl, has_prefix_self, drop_string_app.
Qed.

(** ** Association lists as Go maps

    A [map[string]T] value is a list of pairs without a repeated key; Go's
    [len(m)] is the length of the list. *)

Fixpoint assoc {A} (k : string) (l : list (string * A)) : option A :=
  match l with
  | [] => None
  | (k', v) :: l' => if k' =s k then Some v else assoc k l'
  end.

Definition has_key {A} (k : string) (l : list (string * A)) : bool :=
  match assoc k l with Some _ => true | None => false end.

(** [m[k] = v]. *)
Fixpoint assoc_set {A} (k : string) (v : A) (l : list (string * A)) : list (string * A) :=
  match l with
  | [] => [(k, v)]
  | (k', w) :: l' => if k' =s k then (k, v) :: l' else (k', w) :: assoc_set k v l'
  end.

(** [delete(m, k)]. *)
Definition assoc_delete {A} (k : string) (l : list (string * A)) : list (string * A) :=
  List.filter (λ p, p.1 !=s k) l.

(** [len(m) == len(keys)] and every key of [keys] is present: the exact-key
    tests the parsers of this repository share. *)
Definition exact_keys {A} (m : list (string * A)) (keys : list string) : bool :=
  (length m =? length keys)%nat && forallb (λ k, has_key k m) keys.

Lemma assoc_None_iff {A} k (l : list (string * A)) : assoc k l = None ↔ k ∉ l.*1.
Proof.
  induction l as [|[k' v] l IH]; simpl; [set_solver|].
  destruct (String.eqb_spec k' k) as [->|Hne].
  - split; [done|]. intros H. exfalso. apply H. left.
  - rewrite IH. rewrite not_elem_of_cons. naive_solver.
Qed.

Lemma assoc_In {A} k v (l : list (string * A)) : assoc k l = Some v → (k, v) ∈ l.
Proof.
  induction l as [|[k' w] l IH]; simpl; [done|].
  destruct (String.eqb_spec k' k) as [->|Hne]; intros; simplify_eq; [left|right; auto].
Qed.

Lemma assoc_NoDup {A} k v (l : list (string * A)) : NoDup l.*1 → (k, v) ∈ l → assoc k l = Some v.
Proof.
  induction l as [|[k' w] l IH]; simpl; [by intros _ ?%not_elem_of_nil|].
  intros [Hni Hnd]%NoDup_cons [Heq|Hin]%elem_of_cons.
  - simplify_eq. by rewrite string_eqb_refl.
  - destruct (String.eqb_spec k' k) as [->|Hne]; [|by apply IH].
    exfalso. apply Hni. apply list_elem_of_fmap. by exists (k, v).
Qed.

Lemma assoc_set_eq {A} k (v : A) l : assoc k (assoc_set k v l) = Some v.
Proof.
  induction l as [|[k' w] l IH]; simpl; [by rewrite string_eqb_refl|].
  destruct (String.eqb_spec k' k) as [->|Hne]; simpl; [by rewrite string_eqb_refl|].
  apply String.eqb_neq in Hne. by rewrite Hne.
Qed.

Lemma assoc_set_ne {A} k k' (v : A) l : k ≠ k' → assoc k (assoc_set k' v l) = assoc k l.
Proof.
  intros Hne. induction l as [|[j w] l IH]; simpl.
  - destruct (String.eqb_spec k' k); congruence.
  - destruct (String.eqb_spec j k') as [->|Hj]; simpl.
    + destruct (String.eqb_spec k' k); congruence.
    + by rewrite IH.
Qed.
#[export] Hint Rewrite @assoc_set_eq : gorewrite.

(** Membership in a fixed list of strings, as a chain of [==] or a [switch]. *)
Definition one_of (s : string) (l : list string) : bool := existsb (String.eqb s) l.

Lemma one_of_In s l : one_of s l = true ↔ s ∈ l.
Proof.
  unfold one_of. rewrite existsb_exists, list_elem_of_In. split.
  - intros (x & Hx & ->%String.eqb_eq). done.
  - intros H. exists s. split; [done|apply string_eqb_refl].
Qed.
