(* ===== verification/Sha256.v ===== *)
(** * SHA-256 (crypto/sha256) and lowercase hexadecimal (encoding/hex)

    The digests of the program are SHA-256 over canonical bytes, written
    [sha256:] followed by 64 lowercase hexadecimal digits.  The hash is an
    executable definition of FIPS 180-4 on 32-bit words held in [N]; nothing
    about its security is assumed: the theorems that use it state a collision
    as an alternative of their conclusion. *)

From S2P Require Import Prelude.

Local Open Scope N_scope.

Definition mask32 : N := 4294967295.
Definition add32 (a b : N) : N := N.land (a + b) mask32.
Definition rotr32 (x n : N) : N :=
  N.lor (N.shiftr x n) (N.land (N.shiftl x (32 - n)) mask32).
Definition not32 (x : N) : N := N.lxor x mask32.

Definition ch (x y z : N) : N := N.lxor (N.land x y) (N.land (not32 x) z).
Definition maj (x y z : N) : N :=
  N.lxor (N.lxor (N.land x y) (N.land x z)) (N.land y z).
Definition big_sigma0 x := N.lxor (N.lxor (rotr32 x 2) (rotr32 x 13)) (rotr32 x 22).
Definition big_sigma1 x := N.lxor (N.lxor (rotr32 x 6) (rotr32 x 11)) (rotr32 x 25).
Definition small_sigma0 x := N.lxor (N.lxor (rotr32 x 7) (rotr32 x 18)) (N.shiftr x 3).
Definition small_sigma1 x := N.lxor (N.lxor (rotr32 x 17) (rotr32 x 19)) (N.shiftr x 10).

(** The constants of FIPS 180-4: the first 32 bits of the fractional parts of the
    cube roots of the first 64 primes, and of the square roots of the first
    eight.  [cube_root n fuel] is the integer cube root of [n], bit by bit. *)
Definition is_prime (n : N) : bool :=
  (1 <? n) && forallb (λ d, negb (n mod N.of_nat d =? 0)) (seq 2 (N.to_nat n - 2)).
Definition primes : list N := List.filter is_prime (List.map N.of_nat (seq 0 312)).

Fixpoint cube_root (n root : N) (bit : nat) : N :=
  let candidate := N.lor root (N.shiftl 1 (N.of_nat bit)) in
  let next := if candidate * candidate * candidate <=? n then candidate else root in
  match bit with O => next | S bit' => cube_root n next bit' end.

Definition round_constant (p : N) : N := N.land (cube_root (N.shiftl p 96) 0 36) mask32.
Definition initial_word (p : N) : N := N.land (N.sqrt (N.shiftl p 64)) mask32.

Definition round_constants : list N := Eval vm_compute in List.map round_constant primes.

Record hash_state := { ha : N; hb : N; hc : N; hd : N; he : N; hf : N; hg : N; hh : N }.

Definition initial_words : list N := Eval vm_compute in List.map initial_word (firstn 8 primes).
Definition initial_hash : hash_state :=
  let word i := nth i initial_words 0 in
  {| ha := word 0%nat; hb := word 1%nat; hc := word 2%nat; hd := word 3%nat;
     he := word 4%nat; hf := word 5%nat; hg := word 6%nat; hh := word 7%nat |}.

Example constants_count : (length round_constants, length initial_words) = (64%nat, 8%nat).
Proof. reflexivity. Qed.

(** One of the 64 rounds, with schedule word [w] and constant [k]. *)
Definition sha_round (s : hash_state) (k w : N) : hash_state :=
  let t1 := add32 (add32 (add32 (add32 (hh s) (big_sigma1 (he s))) (ch (he s) (hf s) (hg s))) k) w in
  let t2 := add32 (big_sigma0 (ha s)) (maj (ha s) (hb s) (hc s)) in
  {| ha := add32 t1 t2; hb := ha s; hc := hb s; hd := hc s;
     he := add32 (hd s) t1; hf := he s; hg := hf s; hh := hg s |}.

(** The message schedule is consumed word by word: [window] holds the next
    sixteen words, and each round appends the word sixteen places ahead. *)
Definition next_word (window : list N) : N :=
  add32 (add32 (small_sigma1 (nth 14 window 0)) (nth 9 window 0))
        (add32 (small_sigma0 (nth 1 window 0)) (nth 0 window 0)).

Fixpoint sha_rounds (ks : list N) (window : list N) (s : hash_state) : hash_state :=
  match ks with
  | [] => s
  | k :: ks' =>
      let s' := sha_round s k (nth 0 window 0) in
      sha_rounds ks' (tl window ++ [next_word window]) s'
  end.

Definition sha_block (s : hash_state) (words : list N) : hash_state :=
  let r := sha_rounds round_constants words s in
  {| ha := add32 (ha s) (ha r); hb := add32 (hb s) (hb r); hc := add32 (hc s) (hc r);
     hd := add32 (hd s) (hd r); he := add32 (he s) (he r); hf := add32 (hf s) (hf r);
     hg := add32 (hg s) (hg r); hh := add32 (hh s) (hh r) |}.

Fixpoint string_bytes (s : string) : list N :=
  match s with
  | EmptyString => []
  | String c s' => byte_val c :: string_bytes s'
  end.

Definition be_bytes (n : nat) (v : N) : list N :=
  (λ i, N.land (N.shiftr v (8 * N.of_nat (n - 1 - i))) 255) <$> seq 0 n.

Definition sha_padding (len : nat) : list N :=
  let zeros := ((119 - len mod 64) mod 64)%nat in
  128 :: replicate zeros 0 ++ be_bytes 8 (8 * N.of_nat len).

Fixpoint be_words (l : list N) : list N :=
  match l with
  | b0 :: b1 :: b2 :: b3 :: l' =>
      N.lor (N.lor (N.shiftl b0 24) (N.shiftl b1 16)) (N.lor (N.shiftl b2 8) b3) :: be_words l'
  | _ => []
  end.

Fixpoint sha_blocks (n : nat) (words : list N) (s : hash_state) : hash_state :=
  match n with
  | O => s
  | S n' => sha_blocks n' (drop 16 words) (sha_block s (take 16 words))
  end.

(** [sha256.Sum256]: the 32 bytes of the digest. *)
Definition sha256 (message : string) : list N :=
  let bytes := string_bytes message in
  let words := be_words (bytes ++ sha_padding (length bytes)) in
  let s := sha_blocks (length words / 16)%nat words initial_hash in
  be_bytes 4 (ha s) ++ be_bytes 4 (hb s) ++ be_bytes 4 (hc s) ++ be_bytes 4 (hd s) ++
  be_bytes 4 (he s) ++ be_bytes 4 (hf s) ++ be_bytes 4 (hg s) ++ be_bytes 4 (hh s).

(** [hex.EncodeToString]. *)
Definition hex_digit (n : N) : ascii :=
  if n <? 10 then byte_of (48 + n) else byte_of (87 + n).

Fixpoint hex_encode (l : list N) : string :=
  match l with
  | [] => EmptyString
  | b :: l' => String (hex_digit (N.shiftr b 4)) (String (hex_digit (N.land b 15)) (hex_encode l'))
  end.

Definition sha256_hex (message : string) : string := hex_encode (sha256 message).

(** [hex.DecodeString] succeeds: an even number of hexadecimal digits. *)
Definition hex_decodes (s : string) : bool :=
  Nat.even (slen s) && string_forallb is_hex s.

(** The published test vectors. *)
Example sha256_empty : sha256_hex "" =
  "e3b0c44298fc1c149afbf4c8996fb92427ae41e4649b934ca495991b7852b855".
Proof. vm_compute. reflexivity. Qed.
Example sha256_abc : sha256_hex "abc" =
  "ba7816bf8f01cfea414140de5dae2223b00361a396177a9cb410ff61f20015ad".
Proof. vm_compute. reflexivity. Qed.
Example sha256_two_blocks :
  sha256_hex "abcdbcdecdefdefgefghfghighijhijkijkljklmklmnlmnomnopnopq" =
  "248d6a61d20638b8e5c026930c3e6039a33ce45964ff2167f6ecedd419db06c1".
Proof. vm_compute. reflexivity. Qed.

(** ** Shape of a digest *)

Lemma length_be_bytes n v : length (be_bytes n v) = n.
Proof. unfold be_bytes. by rewrite length_fmap, length_seq. Qed.

Lemma be_bytes_bounded n v : Forall (λ b, b < 256) (be_bytes n v).
Proof.
  unfold be_bytes. apply Forall_fmap, Forall_true. intros i. simpl.
  pose proof (N.land_ones (N.shiftr v (8 * N.of_nat (n - 1 - i))) 8) as H.
  change (N.ones 8) with 255 in H. rewrite H. by apply N.mod_lt.
Qed.

Lemma length_sha256 m : length (sha256 m) = 32%nat.
Proof. unfold sha256. cbv zeta. rewrite !length_app, !length_be_bytes. done. Qed.

Lemma sha256_bounded m : Forall (λ b, b < 256) (sha256 m).
Proof. unfold sha256. cbv zeta. repeat apply Forall_app_2; auto using be_bytes_bounded. Qed.

Lemma hex_digit_lower n : n < 16 → is_lower_hex (hex_digit n) = true.
Proof.
  intros H. assert (n ∈ (N.of_nat <$> seq 0 16)) as Hin.
  { apply list_elem_of_fmap. exists (N.to_nat n). rewrite N2Nat.id. split; [done|].
    apply elem_of_seq. lia. }
  repeat (apply elem_of_cons in Hin as [->|Hin]; [vm_compute; reflexivity|]).
  by apply not_elem_of_nil in Hin.
Qed.

Lemma hex_encode_lower l : Forall (λ b, b < 256) l → string_forallb is_lower_hex (hex_encode l) = true.
Proof.
  induction 1 as [|b l Hb Hl IH]; [done|]. simpl. rewrite IH, !hex_digit_lower; [done| |].
  - pose proof (N.land_ones b 4) as E. change (N.ones 4) with 15 in E. rewrite E.
    apply (N.mod_lt b 16). done.
  - rewrite N.shiftr_div_pow2. change (2 ^ 4) with 16. apply N.Div0.div_lt_upper_bound. lia.
Qed.

Lemma slen_hex_encode l : slen (hex_encode l) = (2 * length l)%nat.
Proof. induction l as [|b l IH]; [done|]. simpl. lia. Qed.

Lemma sha256_hex_shape m :
  slen (sha256_hex m) = 64%nat ∧ string_forallb is_lower_hex (sha256_hex m) = true.
Proof.
  unfold sha256_hex. rewrite slen_hex_encode, length_sha256. split; [done|].
  apply hex_encode_lower, sha256_bounded.
Qed.

(** [sha256:<hex>]: the digest text the program writes and its validators accept. *)
Definition digest_text (message : string) : string := "sha256:" +:+ sha256_hex message.

Lemma digest_text_shape m : digest_string "sha256:" (digest_text m) 64 = true.
Proof.
  destruct (sha256_hex_shape m) as [Hl Hh]. apply digest_string_iff. by exists (sha256_hex m).
Qed.
#[export] Hint Resolve digest_text_shape : gohints.

(** ** HMAC-SHA-256 (crypto/hmac) *)

Fixpoint bytes_string (l : list N) : string :=
  match l with
  | [] => EmptyString
  | b :: l' => String (byte_of b) (bytes_string l')
  end.

(** A key longer than a block is hashed first; the key is padded to 64 bytes. *)
Definition hmac_key (key : string) : list N :=
  let k := if (64 <? slen key)%nat then sha256 key else string_bytes key in
  k ++ replicate (64 - length k) 0.

Definition hmac_sha256 (key message : string) : list N :=
  let pad b := bytes_string (List.map (N.lxor b) (hmac_key key)) in
  sha256 (pad 92 +:+ bytes_string (sha256 (pad 54 +:+ message))).

(** The first test case of RFC 4231. *)
Example hmac_hi_there : hex_encode (hmac_sha256 (bytes_string (replicate 20 11)) "Hi There") =
  "b0344c61d8db38535ca8afceaf0bf12b881dc200c9833da726e9376c2e32cff7".
Proof. vm_compute. reflexivity. Qed.

Lemma hmac_hex_shape key m :
  slen (hex_encode (hmac_sha256 key m)) = 64%nat ∧ string_forallb is_lower_hex (hex_encode (hmac_sha256 key m)) = true.
Proof.
  unfold hmac_sha256. cbv zeta. rewrite slen_hex_encode, length_sha256. split; [done|].
  apply hex_encode_lower, sha256_bounded.
Qed.
