(* ===== verification/Json.v ===== *)
(** * JSON text as encoding/json reads and writes it

    The program treats JSON at two levels: the value ([json], a decoded
    document with numbers kept as lexemes, as [UseNumber] does) and the bytes.
    This file holds the value type, Go's string escaping and UTF-8 handling,
    the number grammar, the compact encoder with sorted keys, and the token
    reader of [json.Decoder] ([Token] and [More]) with its token states. *)

From S2P Require Import Prelude.
From Stdlib Require Import Sorting.Sorted.

Local Open Scope N_scope.

(** ** Values *)

Inductive json : Type :=
  | JNull
  | JBool (b : bool)
  | JNum (lexeme : string)
  | JStr (s : string)
  | JArr (l : list json)
  | JObj (l : list (string * json)).

Section json_induction.
Variable P : json → Prop.
Hypothesis Hnull : P JNull.
Hypothesis Hbool : ∀ b, P (JBool b).
Hypothesis Hnum : ∀ s, P (JNum s).
Hypothesis Hstr : ∀ s, P (JStr s).
Hypothesis Harr : ∀ l, Forall P l → P (JArr l).
Hypothesis Hobj : ∀ l, Forall (λ p, P p.2) l → P (JObj l).

Fixpoint json_nested_ind (j : json) : P j :=
  match j with
  | JNull => Hnull
  | JBool b => Hbool b
  | JNum s => Hnum s
  | JStr s => Hstr s
  | JArr l => Harr l ((fix go l : Forall P l :=
      match l with
      | [] => Forall_nil_2 P
      | x :: l' => Forall_cons_2 P x l' (json_nested_ind x) (go l')
      end) l)
  | JObj l => Hobj l ((fix go l : Forall (λ p, P p.2) l :=
      match l with
      | [] => Forall_nil_2 _
      | x :: l' => Forall_cons_2 (λ p, P p.2) x l' (json_nested_ind x.2) (go l')
      end) l)
  end.
End json_induction.

(** ** Reading [map[string]any] values: indexing and the type assertions *)

Definition field (value : list (string * json)) (key : string) : json := default JNull (assoc key value).

Definition as_string (j : json) : option string := match j with JStr s => Some s | _ => None end.
Definition as_bool (j : json) : option bool := match j with JBool b => Some b | _ => None end.
Definition as_array (j : json) : option (list json) := match j with JArr l => Some l | _ => None end.
Definition as_object (j : json) : option (list (string * json)) := match j with JObj l => Some l | _ => None end.

(** ** UTF-8

    [utf8.DecodeRune] splits a string into runes; a byte that starts no valid
    encoding is a rune of width one and decodes to U+FFFD. *)

Definition cont (c : ascii) : bool := in_range 128 191 c.

(** The byte classes of the second byte, by first byte (unicode/utf8's
    [first] and [acceptRanges] tables). *)
Definition lead2 (c : ascii) : bool := in_range 194 223 c.
Definition second3 (a b : ascii) : bool :=
  if byte_val a =? 224 then in_range 160 191 b
  else if byte_val a =? 237 then in_range 128 159 b
  else in_range 225 239 a && cont b.
Definition second4 (a b : ascii) : bool :=
  if byte_val a =? 240 then in_range 144 191 b
  else if byte_val a =? 244 then in_range 128 143 b
  else in_range 241 243 a && cont b.
Definition ascii7 (c : ascii) : bool := byte_val c <? 128.

(** The runes of a string: [Some bytes] for a valid rune, [None] for an
    invalid byte. *)
Fixpoint runes (s : string) : list (option string) :=
  match s with
  | EmptyString => []
  | String a s1 =>
      if ascii7 a then Some (String a "") :: runes s1
      else
        match s1 with
        | String b s2 =>
            if lead2 a && cont b then Some (String a (String b "")) :: runes s2
            else
              match s2 with
              | String c s3 =>
                  if second3 a b && cont c
                  then Some (String a (String b (String c ""))) :: runes s3
                  else
                    match s3 with
                    | String d s4 =>
                        if second4 a b && cont c && cont d
                        then Some (String a (String b (String c (String d "")))) :: runes s4
                        else None :: runes s1
                    | EmptyString => None :: runes s1
                    end
              | EmptyString => None :: runes s1
              end
        | EmptyString => [None]
        end
  end.

(** [utf8.ValidString]. *)
Definition utf8_valid (s : string) : bool :=
  forallb (λ r, match r with Some _ => true | None => false end) (runes s).

Definition replacement_char : string :=
  String (byte_of 239) (String (byte_of 191) (String (byte_of 189) "")).

(** What a string becomes by one [json.Marshal] and decode: invalid bytes are
    replaced by U+FFFD. *)
Definition sanitize (s : string) : string :=
  string_concat ((λ r, match r with Some b => b | None => replacement_char end) <$> runes s).

(** One rune of a valid string: the shapes [runes] accepts. *)
Definition rune_ok (r : string) : bool :=
  match r with
  | String a "" => ascii7 a
  | String a (String b "") => negb (ascii7 a) && (lead2 a && cont b)
  | String a (String b (String c "")) =>
      negb (ascii7 a) && negb (lead2 a && cont b) && (second3 a b && cont c)
  | String a (String b (String c (String d ""))) =>
      negb (ascii7 a) && negb (lead2 a && cont b) && negb (second3 a b && cont c)
      && (second4 a b && cont c && cont d)
  | _ => false
  end.

Lemma runes_app r s : rune_ok r = true → runes (r +:+ s) = Some r :: runes s.
Proof.
  destruct r as [|a [|b [|c [|d [|e r]]]]]; simpl; try done; intros H;
    repeat (apply andb_prop in H as [H ?]); to_prop;
    rewrite ?app_string_cons, ?app_string_nil_l; simpl; simplify_option_eq;
    repeat match goal with E : ?x = _ |- context [?x] => rewrite E; simpl end; done.
Qed.

Lemma runes_concat rs s :
  forallb rune_ok rs = true → runes (string_concat rs +:+ s) = (Some <$> rs) ++ runes s.
Proof.
  induction rs as [|r rs IH]; simpl; [done|]. intros H. to_prop.
  by rewrite app_string_assoc, runes_app, IH.
Qed.

(** A valid string is a sequence of runes. *)
Lemma utf8_valid_runes s :
  utf8_valid s = true → ∃ rs, forallb rune_ok rs = true ∧ s = string_concat rs.
Proof.
  remember (slen s) as n eqn:Hn. revert s Hn.
  induction (lt_wf n) as [n _ IH]. intros s -> Hv.
  assert (∀ r s', s = r +:+ s' → rune_ok r = true → utf8_valid s' = true →
    ∃ rs, forallb rune_ok rs = true ∧ s = string_concat rs) as Hstep.
  { intros r s' -> Hr Hs'. destruct (IH (slen s')) with (s := s') as (rs & Hrs & ->); try done.
    - rewrite slen_app. destruct r; simpl in *; [done|lia].
    - exists (r :: rs). simpl. by rewrite Hr. }
  unfold utf8_valid in Hv. destruct s as [|a s1]; [by exists []|].
  simpl in Hv. destruct (ascii7 a) eqn:Ha; [by apply (Hstep (String a "") s1)|].
  destruct s1 as [|b s2]; [done|]. destruct (lead2 a && cont b) eqn:H2.
  { apply (Hstep (String a (String b "")) s2); [done| |done]. simpl. by rewrite Ha, H2. }
  destruct s2 as [|c s3]; [done|]. destruct (second3 a b && cont c) eqn:H3.
  { apply (Hstep (String a (String b (String c ""))) s3); [done| |done].
    simpl. by rewrite Ha, H2, H3. }
  destruct s3 as [|d s4]; [done|]. destruct (second4 a b && cont c && cont d) eqn:H4; [|done].
  apply (Hstep (String a (String b (String c (String d "")))) s4); [done| |done].
  simpl. by rewrite Ha, H2, H3, H4.
Qed.

Lemma utf8_valid_concat rs : forallb rune_ok rs = true → utf8_valid (string_concat rs) = true.
Proof.
  intros H. rewrite <- (app_string_nil_r (string_concat rs)). unfold utf8_valid.
  rewrite runes_concat by done. rewrite app_nil_r. clear H. by induction rs.
Qed.

Lemma utf8_valid_ascii s : string_forallb ascii7 s = true → utf8_valid s = true.
Proof.
  unfold utf8_valid. induction s as [|a s IH]; simpl; [done|]. intros H. to_prop.
  rewrite H. simpl. auto.
Qed.

(** Sanitising is the identity on valid strings. *)
Lemma sanitize_valid s : utf8_valid s = true → sanitize s = s.
Proof.
  intros (rs & Hrs & ->)%utf8_valid_runes. unfold sanitize.
  rewrite <- (app_string_nil_r (string_concat rs)) at 1. rewrite runes_concat by done.
  rewrite app_nil_r. clear Hrs. induction rs as [|r rs IH]; simpl; [done|]. f_equal. exact IH.
Qed.

Lemma sanitize_is_valid s : utf8_valid (sanitize s) = true.
Proof.
  assert (∃ rs, forallb rune_ok rs = true ∧ sanitize s = string_concat rs) as (rs & Hrs & ->);
    [|by apply utf8_valid_concat].
  assert (∀ l, (∀ r, Some r ∈ l → rune_ok r = true) → ∃ rs, forallb rune_ok rs = true ∧
    string_concat ((λ r, match r with Some b => b | None => replacement_char end) <$> l)
      = string_concat rs) as Hgen.
  { induction l as [|[r|] l IH]; intros Hl.
    - by exists [].
    - destruct IH as (rs & Hrs & E). { intros r' Hr'. apply Hl. by right. }
      exists (r :: rs). simpl. rewrite (Hl r) by left. split; [done|]. f_equal. exact E.
    - destruct IH as (rs & Hrs & E). { intros r' Hr'. apply Hl. by right. }
      exists (replacement_char :: rs). simpl. split; [done|]. f_equal. exact E. }
  apply Hgen. clear Hgen. remember (slen s) as n eqn:Hn. revert s Hn.
  induction (lt_wf n) as [n _ IH]. intros s -> r.
  destruct s as [|a s1]; [by intros ?%not_elem_of_nil|]. simpl.
  assert (∀ s', slen s' < S (slen s1) → Some r ∈ runes s' → rune_ok r = true)%nat as Hrec
    by (intros s' Hlt; by apply (IH (slen s'))). clear IH.
  destruct (ascii7 a) eqn:Ha.
  { intros [?|?]%elem_of_cons; simplify_eq; [done|]. apply (Hrec s1); [lia|done]. }
  destruct s1 as [|b s2]; [by intros [?|?%not_elem_of_nil]%elem_of_cons|].
  assert (Some r ∈ None :: runes (String b s2) → rune_ok r = true) as Hbad.
  { intros [?|?]%elem_of_cons; [done|]. apply (Hrec (String b s2)); [lia|done]. }
  destruct (lead2 a && cont b) eqn:H2.
  { intros [?|?]%elem_of_cons; simplify_eq; [simpl; by rewrite Ha, H2|].
    apply (Hrec s2); [simpl; lia|done]. }
  destruct s2 as [|c s3]; [done|]. destruct (second3 a b && cont c) eqn:H3.
  { intros [?|?]%elem_of_cons; simplify_eq; [simpl; by rewrite Ha, H2, H3|].
    apply (Hrec s3); [simpl; lia|done]. }
  destruct s3 as [|d s4]; [done|]. destruct (second4 a b && cont c && cont d) eqn:H4; [|done].
  intros [?|?]%elem_of_cons; simplify_eq; [simpl; by rewrite Ha, H2, H3, H4|].
  apply (Hrec s4); [simpl; lia|done].
Qed.
#[export] Hint Resolve sanitize_is_valid : gohints.
#[export] Hint Rewrite sanitize_valid using done : gorewrite.

(** ** String literals *)

Definition dquote : ascii := byte_of 34.
Definition backslash : ascii := byte_of 92.

Definition hex_lower (n : N) : ascii := if n <? 10 then byte_of (48 + n) else byte_of (87 + n).

(** [\u00XY] for a control byte. *)
Definition u_escape (n : N) : string :=
  String backslash (String "u" (String "0" (String "0"
    (String (hex_lower (n / 16)) (String (hex_lower (n mod 16)) ""))))).

Definition esc (c : ascii) : string := String backslash (String c "").

(** encoding/json's [appendString] with HTML escaping off. *)
Definition escape_byte (c : ascii) : string :=
  let n := byte_val c in
  if n =? 34 then esc dquote
  else if n =? 92 then esc backslash
  else if n =? 8 then esc "b"
  else if n =? 12 then esc "f"
  else if n =? 10 then esc "n"
  else if n =? 13 then esc "r"
  else if n =? 9 then esc "t"
  else if n <? 32 then u_escape n
  else String c "".

Definition line_separator (r : string) : bool :=
  r =s String (byte_of 226) (String (byte_of 128) (String (byte_of 168) "")).
Definition paragraph_separator (r : string) : bool :=
  r =s String (byte_of 226) (String (byte_of 128) (String (byte_of 169) "")).

Definition escape_rune (r : option string) : string :=
  match r with
  | None => String backslash "ufffd"
  | Some (String c "") => escape_byte c
  | Some r =>
      if line_separator r then String backslash "u2028"
      else if paragraph_separator r then String backslash "u2029"
      else r
  end.

Definition encode_body (s : string) : string := string_concat (escape_rune <$> runes s).
Definition encode_string (s : string) : string :=
  String dquote (encode_body s +:+ String dquote "").

Definition hex_val (c : ascii) : option N :=
  let n := byte_val c in
  if in_range 48 57 c then Some (n - 48)
  else if in_range 97 102 c then Some (n - 87)
  else if in_range 65 70 c then Some (n - 55)
  else None.

Definition hex4 (a b c d : ascii) : option N :=
  match hex_val a, hex_val b, hex_val c, hex_val d with
  | Some x, Some y, Some z, Some w => Some (((x * 16 + y) * 16 + z) * 16 + w)
  | _, _, _, _ => None
  end.

(** [utf8.EncodeRune] for a code point that is not a surrogate. *)
Definition utf8_encode (n : N) : string :=
  if n <? 128 then String (byte_of n) ""
  else if n <? 2048 then String (byte_of (192 + n / 64)) (String (byte_of (128 + n mod 64)) "")
  else if n <? 65536 then
    String (byte_of (224 + n / 4096)) (String (byte_of (128 + n / 64 mod 64))
      (String (byte_of (128 + n mod 64)) ""))
  else
    String (byte_of (240 + n / 262144)) (String (byte_of (128 + n / 4096 mod 64))
      (String (byte_of (128 + n / 64 mod 64)) (String (byte_of (128 + n mod 64)) ""))).

Definition is_surrogate (n : N) : bool := (55296 <=? n) && (n <=? 57343).

(** [utf16.DecodeRune]; [None] for an invalid pair. *)
Definition surrogate_pair (hi lo : N) : option N :=
  if (55296 <=? hi) && (hi <=? 56319) && (56320 <=? lo) && (lo <=? 57343)
  then Some ((hi - 55296) * 1024 + (lo - 56320) + 65536) else None.

Definition simple_escape (e : ascii) : option ascii :=
  let n := byte_val e in
  if n =? 34 then Some dquote
  else if n =? 92 then Some backslash
  else if n =? 47 then Some e
  else if n =? 98 then Some (byte_of 8)
  else if n =? 102 then Some (byte_of 12)
  else if n =? 110 then Some (byte_of 10)
  else if n =? 114 then Some (byte_of 13)
  else if n =? 116 then Some (byte_of 9)
  else None.

Definition prepend (p : string) (r : option (string * string)) : option (string * string) :=
  match r with
  | Some (b, rest) => Some (p +:+ b, rest)
  | None => None
  end.

(** The body of a string literal after its opening quote: the decoded string
    and the text after the closing quote (the scanner's string states and
    [unquote]). *)
Fixpoint parse_str (s : string) : option (string * string) :=
  match s with
  | EmptyString => None
  | String c s1 =>
      if byte_val c =? 34 then Some ("", s1)
      else if byte_val c =? 92 then
        match s1 with
        | EmptyString => None
        | String e s2 =>
            match simple_escape e with
            | Some ch => prepend (String ch "") (parse_str s2)
            | None =>
                if byte_val e =? 117 then
                  match s2 with
                  | String h1 (String h2 (String h3 (String h4 s6))) =>
                      match hex4 h1 h2 h3 h4 with
                      | None => None
                      | Some v =>
                          if is_surrogate v then
                            match s6 with
                            | String b (String u (String g1 (String g2 (String g3 (String g4 s12))))) =>
                                let lo := if (byte_val b =? 92) && (byte_val u =? 117)
                                          then hex4 g1 g2 g3 g4 else None in
                                match (let? w := lo in surrogate_pair v w) with
                                | Some r => prepend (utf8_encode r) (parse_str s12)
                                | None => prepend replacement_char (parse_str s6)
                                end
                            | _ => prepend replacement_char (parse_str s6)
                            end
                          else prepend (utf8_encode v) (parse_str s6)
                      end
                  | _ => None
                  end
                else None
            end
        end
      else if byte_val c <? 32 then None
      else prepend (String c "") (parse_str s1)
  end.

Lemma prepend_app a b r : prepend a (prepend b r) = prepend (a +:+ b) r.
Proof. destruct r as [[x y]|]; simpl; [|done]. by rewrite app_string_assoc. Qed.

Lemma parse_str_high c s : ascii7 c = false → parse_str (String c s) = prepend (String c "") (parse_str s).
Proof. by destruct c as [[] [] [] [] [] [] [] []]. Qed.

Lemma parse_str_escape_byte c s :
  ascii7 c = true → parse_str (escape_byte c +:+ s) = prepend (String c "") (parse_str s).
Proof. by destruct c as [[] [] [] [] [] [] [] []]. Qed.

Lemma cont_high c : cont c = true → ascii7 c = false.
Proof. unfold cont, in_range, ascii7. intros. to_prop. apply N.ltb_ge. apply N.leb_le in H. lia. Qed.
Lemma second3_high a b : second3 a b = true → ascii7 b = false.
Proof.
  unfold second3, in_range. intros. apply cont_high. unfold cont, in_range.
  case_tests; to_prop; try done; rewrite andb_true_iff, !N.leb_le in *; lia.
Qed.
Lemma second4_high a b : second4 a b = true → ascii7 b = false.
Proof.
  unfold second4, in_range. intros. apply cont_high. unfold cont, in_range.
  case_tests; to_prop; try done; rewrite andb_true_iff, !N.leb_le in *; lia.
Qed.

Lemma rune_high a b r :
  rune_ok (String a (String b r)) = true → string_forallb (λ c, negb (ascii7 c)) (String a (String b r)) = true.
Proof.
  intros Hr. destruct r as [|c [|d [|e r]]]; simpl in *; to_prop; try done;
    repeat match goal with
    | H : cont _ = true |- _ => apply cont_high in H
    | H : second3 _ _ = true |- _ => apply second3_high in H
    | H : second4 _ _ = true |- _ => apply second4_high in H
    end; by repeat match goal with E : ascii7 _ = false |- _ => rewrite E; clear E end.
Qed.

Lemma parse_str_rune r s :
  rune_ok r = true → parse_str (escape_rune (Some r) +:+ s) = prepend r (parse_str s).
Proof.
  intros Hr. destruct r as [|a [|b r]]; [done|exact (parse_str_escape_byte a s Hr)|].
  unfold escape_rune.
  destruct (line_separator _) eqn:Hl.
  { apply String.eqb_eq in Hl. rewrite Hl. done. }
  destruct (paragraph_separator _) eqn:Hp.
  { apply String.eqb_eq in Hp. rewrite Hp. done. }
  clear Hl Hp.
  pose proof (rune_high a b r Hr) as Hh.
  clear Hr. revert Hh. generalize (String a (String b r)) as t. intros t Hh.
  induction t as [|c t IH]; simpl in Hh; [rewrite app_string_nil_l; by destruct (parse_str s) as [[]|]|].
  to_prop. rewrite app_string_cons, parse_str_high, IH, prepend_app; done.
Qed.

(** String round trip: the literal written for a valid string reads back as it. *)
Lemma parse_encode_string s rest :
  utf8_valid s = true →
  parse_str (encode_body s +:+ String dquote rest) = Some (s, rest).
Proof.
  intros (rs & Hrs & ->)%utf8_valid_runes. unfold encode_body.
  rewrite <- (app_string_nil_r (string_concat rs)) at 1.
  rewrite runes_concat, app_nil_r by done.
  induction rs as [|r rs IH]; [done|]. simpl in Hrs. to_prop.
  rewrite !fmap_cons, !string_concat_cons, app_string_assoc, parse_str_rune, IH by done. done.
Qed.

(** ** Numbers *)

(** The longest prefix of digits. *)
Fixpoint span_digits (s : string) : string * string :=
  match s with
  | EmptyString => ("", "")
  | String c s' =>
      if is_digit c then let '(d, r) := span_digits s' in (String c d, r) else ("", s)
  end.

Definition scan_fraction (s : string) : option (string * string) :=
  match s with
  | String c s' =>
      if byte_val c =? 46 then
        match span_digits s' with
        | (EmptyString, _) => None
        | (d, r) => Some (String c d, r)
        end
      else Some ("", s)
  | EmptyString => Some ("", s)
  end.

Definition scan_exponent (s : string) : option (string * string) :=
  match s with
  | String c s' =>
      if (byte_val c =? 101) || (byte_val c =? 69) then
        let '(sign, s'') :=
          match s' with
          | String g r => if (byte_val g =? 43) || (byte_val g =? 45) then (String g "", r) else ("", s')
          | EmptyString => ("", s')
          end in
        match span_digits s'' with
        | (EmptyString, _) => None
        | (d, r) => Some (String c (sign +:+ d), r)
        end
      else Some ("", s)
  | EmptyString => Some ("", s)
  end.

Definition scan_integer (s : string) : option (string * string) :=
  match s with
  | String c s' =>
      if byte_val c =? 48 then Some (String c "", s')
      else if is_digit c then Some (span_digits s)
      else None
  | EmptyString => None
  end.

(** The JSON number at the start of [s], as encoding/json's scanner reads it:
    the lexeme and what follows. *)
Definition scan_number (s : string) : option (string * string) :=
  let '(sign, s1) :=
    match s with
    | String c r => if byte_val c =? 45 then (String c "", r) else ("", s)
    | EmptyString => ("", s)
    end in
  let? (i, s2) := scan_integer s1 in
  let? (f, s3) := scan_fraction s2 in
  let? (e, s4) := scan_exponent s3 in
  Some (sign +:+ i +:+ f +:+ e, s4).

(** A complete number lexeme. *)
Definition number_lexeme (s : string) : bool :=
  match scan_number s with Some (_, "") => true | _ => false end.

(** Bytes that can continue a number. *)
Definition number_byte (c : ascii) : bool :=
  is_digit c || (byte_val c =? 46) || (byte_val c =? 101) || (byte_val c =? 69).
Definition number_stop (s : string) : bool :=
  match s with String c _ => negb (number_byte c) | EmptyString => true end.

Lemma span_digits_spec s d r : span_digits s = (d, r) → s = d +:+ r.
Proof.
  revert d r. induction s as [|c s IH]; simpl; intros d r.
  - by intros [= <- <-].
  - destruct (is_digit c); [|by intros [= <- <-]].
    destruct (span_digits s) as [d' r'] eqn:E. intros [= <- <-].
    rewrite app_string_cons. f_equal. by apply IH.
Qed.

(** Each scanner is local: text after a byte that cannot continue the number
    does not change what it reads. *)
Lemma span_digits_app s d r t :
  span_digits s = (d, r) → (r = "" → number_stop t = true) →
  span_digits (s +:+ t) = (d, r +:+ t).
Proof.
  intros H Ht. revert d r H Ht. induction s as [|c s IH]; simpl; intros d r H Ht.
  - injection H as <- <-. rewrite !app_string_nil_l. destruct t as [|c t]; [done|].
    specialize (Ht eq_refl). simpl in Ht. unfold number_byte in Ht. to_prop. simpl. by rewrite H.
  - destruct (is_digit c); [|by simplify_eq].
    destruct (span_digits s) as [d' r'] eqn:E. injection H as <- <-.
    by rewrite (IH d' r').
Qed.

Lemma scan_integer_app s d r t :
  scan_integer s = Some (d, r) → (r = "" → number_stop t = true) →
  scan_integer (s +:+ t) = Some (d, r +:+ t).
Proof.
  destruct s as [|c s]; [done|]. rewrite app_string_cons. unfold scan_integer.
  destruct (byte_val c =? 48); [by intros; simplify_eq|]. destruct (is_digit c); [|done].
  intros [= H] Hs. rewrite <- app_string_cons. f_equal. by apply span_digits_app.
Qed.

Lemma scan_fraction_app s d r t :
  scan_fraction s = Some (d, r) → (r = "" → number_stop t = true) →
  scan_fraction (s +:+ t) = Some (d, r +:+ t).
Proof.
  destruct s as [|c s].
  - intros [= <- <-] Ht. specialize (Ht eq_refl). rewrite !app_string_nil_l.
    destruct t as [|c t]; [done|]. simpl in *. unfold number_byte in Ht. to_prop.
    by use_tests.
  - rewrite app_string_cons. simpl. destruct (byte_val c =? 46); [|by intros; simplify_eq].
    destruct (span_digits s) as [d' r'] eqn:E. intros H Ht.
    destruct d'; simplify_eq. by rewrite (span_digits_app _ _ _ _ E).
Qed.

Lemma scan_exponent_app s d r t :
  scan_exponent s = Some (d, r) → (r = "" → number_stop t = true) →
  scan_exponent (s +:+ t) = Some (d, r +:+ t).
Proof.
  destruct s as [|c s].
  - intros [= <- <-] Ht. specialize (Ht eq_refl). rewrite !app_string_nil_l.
    destruct t as [|c t]; [done|]. simpl in *. unfold number_byte in Ht. to_prop.
    by use_tests.
  - rewrite app_string_cons. simpl. destruct (_ || _); [|by intros; simplify_eq].
    destruct s as [|g s]; [done|]. rewrite app_string_cons.
    destruct (_ || _).
    + destruct (span_digits s) as [d' r'] eqn:E. intros H Ht.
      destruct d'; simplify_eq. by rewrite (span_digits_app _ _ _ _ E).
    + destruct (span_digits (String g s)) as [d' r'] eqn:E. intros H Ht.
      destruct d'; simplify_eq. rewrite <- app_string_cons.
      by rewrite (span_digits_app _ _ _ _ E).
Qed.

Lemma scan_number_app s d r t :
  scan_number s = Some (d, r) → (r = "" → number_stop t = true) →
  scan_number (s +:+ t) = Some (d, r +:+ t).
Proof.
  intros H Ht. unfold scan_number in *.
  assert (∃ sign s1, (match s with
    | String c r => if byte_val c =? 45 then (String c "", r) else ("", s)
    | EmptyString => ("", s) end) = (sign, s1) ∧
    (match s +:+ t with
    | String c r => if byte_val c =? 45 then (String c "", r) else ("", s +:+ t)
    | EmptyString => ("", s +:+ t) end) = (sign, s1 +:+ t)) as (sign & s1 & E1 & E2).
  { destruct s as [|c s]; [done|]. rewrite app_string_cons.
    destruct (byte_val c =? 45); eauto. }
  rewrite E1 in H. rewrite E2. clear E1 E2.
  destruct (scan_integer s1) as [[i s2]|] eqn:Hi; [|done].
  simpl in H. destruct (scan_fraction s2) as [[f s3]|] eqn:Hf; [|done].
  simpl in H. destruct (scan_exponent s3) as [[e s4]|] eqn:He; [|done].
  simpl in H. injection H as <- <-.
  assert (s3 = "" → s4 = "") as H34.
  { intros ->. simpl in He. by simplify_eq. }
  assert (s2 = "" → s4 = "") as H24.
  { intros ->. simpl in Hf. simplify_eq. auto. }
  rewrite (scan_integer_app _ _ _ t Hi) by auto. simpl.
  rewrite (scan_fraction_app _ _ _ t Hf) by auto. simpl.
  by rewrite (scan_exponent_app _ _ _ t He) by auto.
Qed.

Lemma scan_integer_spec s d r : scan_integer s = Some (d, r) → s = d +:+ r.
Proof.
  destruct s as [|c s]; [done|]. unfold scan_integer.
  destruct (byte_val c =? 48); [by intros; simplify_eq|]. destruct (is_digit c); [|done].
  intros [= H]. by apply span_digits_spec.
Qed.
Lemma scan_fraction_spec s d r : scan_fraction s = Some (d, r) → s = d +:+ r.
Proof.
  destruct s as [|c s]; simpl; [by intros; simplify_eq|].
  destruct (byte_val c =? 46); [|by intros; simplify_eq].
  intros H. destruct (span_digits s) as [d' r'] eqn:E. destruct d'; simplify_eq.
  rewrite app_string_cons. f_equal. by apply span_digits_spec.
Qed.
Lemma scan_exponent_spec s d r : scan_exponent s = Some (d, r) → s = d +:+ r.
Proof.
  destruct s as [|c s]; simpl; [by intros; simplify_eq|].
  destruct (_ || _); [|by intros; simplify_eq].
  destruct s as [|g s]; [done|]. destruct (_ || _).
  - destruct (span_digits s) as [d' r'] eqn:E. destruct d'; intros; simplify_eq.
    rewrite !app_string_cons. do 2 f_equal. by apply span_digits_spec.
  - destruct (span_digits (String g s)) as [d' r'] eqn:E. destruct d'; intros; simplify_eq.
    rewrite !app_string_cons. f_equal. by apply span_digits_spec.
Qed.
Lemma scan_number_spec s d r : scan_number s = Some (d, r) → s = d +:+ r.
Proof.
  unfold scan_number. intros H.
  assert (∃ sign s1, (match s with
    | String c r => if byte_val c =? 45 then (String c "", r) else ("", s)
    | EmptyString => ("", s) end) = (sign, s1) ∧ s = sign +:+ s1) as (sign & s1 & E1 & ->).
  { destruct s as [|c s]; [eauto|]. destruct (byte_val c =? 45); eauto. }
  rewrite E1 in H. clear E1.
  destruct (scan_integer s1) as [[i s2]|] eqn:Hi; [|done]. apply scan_integer_spec in Hi as ->.
  simpl in H. destruct (scan_fraction s2) as [[f s3]|] eqn:Hf; [|done]. apply scan_fraction_spec in Hf as ->.
  simpl in H. destruct (scan_exponent s3) as [[e s4]|] eqn:He; [|done]. apply scan_exponent_spec in He as ->.
  simpl in H. simplify_eq. by rewrite !app_string_assoc.
Qed.

(** A lexeme followed by a byte that ends it reads back as itself. *)
Lemma scan_number_lexeme s t :
  number_lexeme s = true → number_stop t = true → scan_number (s +:+ t) = Some (s, t).
Proof.
  unfold number_lexeme. destruct (scan_number s) as [[d r]|] eqn:H; [|done].
  destruct r; [|done]. intros _ Ht. rewrite (scan_number_app _ _ _ t H) by done.
  apply scan_number_spec in H. by rewrite app_string_nil_r in H; subst.
Qed.

(** ** Integers: [strconv.FormatInt] and [strconv.ParseInt] in base 10 *)

Fixpoint dec_digits (fuel : nat) (n : N) (acc : string) : string :=
  match fuel with
  | O => acc
  | S f =>
      let acc' := String (byte_of (48 + n mod 10)) acc in
      if n <? 10 then acc' else dec_digits f (n / 10) acc'
  end.

(** [N.size_nat n] bits bound the number of decimal digits. *)
Definition dec_N (n : N) : string := dec_digits (S (N.size_nat n)) n "".
Definition dec_Z (z : Z) : string :=
  match z with
  | Zneg p => String "-" (dec_N (Npos p))
  | _ => dec_N (Z.to_N z)
  end.

Fixpoint digits_val (acc : N) (s : string) : N :=
  match s with
  | EmptyString => acc
  | String c s' => digits_val (acc * 10 + (byte_val c - 48)) s'
  end.

(** [strconv.ParseInt(s, 10, bits)]: sign, at least one digit, in range. *)
Definition parse_int (bits : Z) (s : string) : option Z :=
  let '(neg, d) :=
    match s with
    | String c r =>
        if byte_val c =? 45 then (true, r) else if byte_val c =? 43 then (false, r) else (false, s)
    | EmptyString => (false, s)
    end in
  if (d =s "") || negb (string_forallb is_digit d) then None
  else
    let m := Z.of_N (digits_val 0 d) in
    let z := if neg then (- m)%Z else m in
    if ((- 2 ^ (bits - 1) <=? z) && (z <=? 2 ^ (bits - 1) - 1))%Z then Some z else None.

(** [strconv.ParseUint(s, 10, bits)]. *)
Definition parse_uint (bits : Z) (s : string) : option Z :=
  if (s =s "") || negb (string_forallb is_digit s) then None
  else
    let m := Z.of_N (digits_val 0 s) in
    if (m <=? 2 ^ bits - 1)%Z then Some m else None.

Lemma digit_byte_val d : d < 10 → byte_val (byte_of (48 + d)) = 48 + d.
Proof. intros. apply byte_val_of. lia. Qed.

Lemma N_digit_step n : n / 10 * 10 + (48 + n mod 10 - 48) = n.
Proof.
  pose proof (N.div_mod n 10 ltac:(done)) as H. revert H.
  generalize (n / 10), (n mod 10). lia.
Qed.

Lemma N_div10_lt n f : n < 2 ^ N.of_nat (S f) → n / 10 < 2 ^ N.of_nat f.
Proof.
  rewrite Nat2N.inj_succ, N.pow_succ_r'. intros H.
  apply N.Div0.div_lt_upper_bound. revert H. generalize (2 ^ N.of_nat f). lia.
Qed.

Lemma digits_val_dec fuel n acc :
  n < 2 ^ N.of_nat fuel → digits_val 0 (dec_digits fuel n acc) = digits_val n acc.
Proof.
  revert n acc. induction fuel as [|f IH]; intros n acc Hn.
  - simpl. assert (n = 0) as -> by (change (2 ^ N.of_nat 0) with 1 in Hn; lia). done.
  - cbn [dec_digits]. pose proof (N.mod_lt n 10 ltac:(done)) as Hm.
    destruct (n <? 10) eqn:E.
    + apply N.ltb_lt in E. cbn [digits_val]. rewrite digit_byte_val by done.
      rewrite (N.mod_small n 10) by done. f_equal. lia.
    + rewrite IH.
      * cbn [digits_val]. by rewrite digit_byte_val, N_digit_step by done.
      * by apply N_div10_lt.
Qed.

Lemma dec_digits_digits fuel n acc :
  string_forallb is_digit acc = true → string_forallb is_digit (dec_digits fuel n acc) = true.
Proof.
  revert n acc. induction fuel as [|f IH]; intros n acc Ha; [done|]. cbn [dec_digits].
  assert (string_forallb is_digit (String (byte_of (48 + n mod 10)) acc) = true) as Ha'.
  { simpl. rewrite Ha. pose proof (N.mod_lt n 10 ltac:(done)).
    unfold is_digit, in_range. rewrite digit_byte_val by done.
    rewrite !andb_true_iff, !N.leb_le. lia_N. }
  destruct (n <? 10); [done|]. by apply IH.
Qed.

Lemma N_size_bound n : n < 2 ^ N.of_nat (S (N.size_nat n)).
Proof.
  destruct (decide (n = 0)) as [->|Hn]; [done|].
  assert (N.of_nat (N.size_nat n) = N.size n) as E.
  { destruct n as [|p]; [done|]. simpl. induction p; simpl; lia. }
  rewrite Nat2N.inj_succ, E. pose proof (N.size_gt n).
  eapply N.lt_le_trans; [done|]. apply N.pow_le_mono_r; lia.
Qed.

Lemma digits_val_dec_N n : digits_val 0 (dec_N n) = n.
Proof. unfold dec_N. rewrite digits_val_dec by apply N_size_bound. done. Qed.
Lemma dec_N_digits n : string_forallb is_digit (dec_N n) = true.
Proof. by apply dec_digits_digits. Qed.

(** The digits start with 0 only for the number 0. *)
Lemma dec_digits_head fuel n acc :
  0 < n → n < 2 ^ N.of_nat fuel →
  ∃ c s, dec_digits fuel n acc = String c s ∧ is_digit c = true ∧ byte_val c ≠ 48.
Proof.
  revert n acc. induction fuel as [|f IH]; intros n acc Hpos Hn.
  - change (2 ^ N.of_nat 0) with 1 in Hn. lia.
  - cbn [dec_digits]. destruct (n <? 10) eqn:E.
    + apply N.ltb_lt in E. rewrite (N.mod_small n 10) by done. eexists _, _. split; [done|].
      unfold is_digit, in_range. rewrite digit_byte_val by done.
      rewrite !andb_true_iff, !N.leb_le. lia.
    + apply N.ltb_ge in E. apply IH.
      * apply N.div_str_pos. lia.
      * by apply N_div10_lt.
Qed.

Lemma dec_N_head n :
  dec_N n = "0" ∨ ∃ c s, dec_N n = String c s ∧ is_digit c = true ∧ byte_val c ≠ 48.
Proof.
  destruct (decide (n = 0)) as [->|]; [by left|]. right.
  apply dec_digits_head; [lia|apply N_size_bound].
Qed.

Lemma span_digits_all s : string_forallb is_digit s = true → span_digits s = (s, "").
Proof. induction s as [|c s IH]; simpl; [done|]. intros. to_prop. by rewrite H, IH. Qed.

Lemma scan_integer_dec_N n : scan_integer (dec_N n) = Some (dec_N n, "").
Proof.
  destruct (dec_N_head n) as [->|(c & s & E & Hd & H0)]; [done|].
  pose proof (dec_N_digits n) as Hall. rewrite E in *. unfold scan_integer.
  apply N.eqb_neq in H0. rewrite H0, Hd. by rewrite span_digits_all.
Qed.

Lemma dec_N_not_minus n : match dec_N n with String c _ => byte_val c =? 45 | _ => false end = false.
Proof.
  destruct (dec_N_head n) as [->|(c & s & -> & Hd & _)]; [done|].
  unfold is_digit, in_range in Hd. to_prop. apply N.eqb_neq. apply N.leb_le in H. lia.
Qed.

Lemma number_lexeme_dec_Z z : number_lexeme (dec_Z z) = true.
Proof.
  assert (∀ n, number_lexeme (dec_N n) = true) as HN.
  { intros n. unfold number_lexeme, scan_number. pose proof (dec_N_not_minus n) as Hm.
    destruct (dec_N n) as [|c s] eqn:E; [by destruct (dec_N_head n) as [?|(?&?&?&_)]; congruence|].
    rewrite Hm, <- E, scan_integer_dec_N. done. }
  destruct z as [|p|p]; [apply HN..|]. unfold dec_Z, number_lexeme, scan_number.
  change (byte_val "-" =? 45) with true. cbv iota. by rewrite scan_integer_dec_N.
Qed.

Lemma parse_int_dec_Z z : is_int64 z = true → parse_int 64 (dec_Z z) = Some z.
Proof.
  intros Hr. unfold is_int64, int_min, int_max in Hr. to_prop.
  assert (∀ n, (dec_N n =s "") = false) as Hne.
  { intros n. destruct (dec_N_head n) as [->|(c & s & -> & _)]; done. }
  destruct z as [|p|p]; [done| |].
  - unfold dec_Z, parse_int. change (Z.to_N (Z.pos p)) with (N.pos p).
    pose proof (dec_N_not_minus (N.pos p)) as Hm. pose proof (dec_N_digits (N.pos p)) as Hd.
    pose proof (digits_val_dec_N (N.pos p)) as Hv. specialize (Hne (N.pos p)).
    destruct (dec_N (N.pos p)) as [|c s]; [done|]. rewrite Hm.
    assert ((byte_val c =? 43) = false) as ->.
    { simpl in Hd. unfold is_digit, in_range in Hd. to_prop. apply N.eqb_neq. apply N.leb_le in H1. lia. }
    rewrite Hne, Hd, Hv. simpl orb. cbv iota zeta. change (Z.of_N (N.pos p)) with (Z.pos p).
    destruct (_ && _)%Z eqn:E; [done|]. exfalso. apply andb_false_iff in E as [E|E];
      apply Z.leb_gt in E; lia.
  - unfold dec_Z, parse_int. change (byte_val "-" =? 45) with true. cbv iota beta.
    rewrite Hne, dec_N_digits, digits_val_dec_N. simpl orb. cbv iota zeta.
    change (- Z.of_N (N.pos p))%Z with (Z.neg p).
    destruct (_ && _)%Z eqn:E; [done|]. exfalso. apply andb_false_iff in E as [E|E];
      apply Z.leb_gt in E; lia.
Qed.

Lemma parse_uint_dec_Z bits z : (0 <= z < 2 ^ bits)%Z → parse_uint bits (dec_Z z) = Some z.
Proof.
  intros Hr. assert (dec_Z z = dec_N (Z.to_N z)) as -> by (destruct z; [done|done|lia]).
  unfold parse_uint. rewrite dec_N_digits, digits_val_dec_N, Z2N.id by lia.
  assert ((dec_N (Z.to_N z) =s "") = false) as ->.
  { destruct (dec_N_head (Z.to_N z)) as [->|(c & s & -> & _)]; done. }
  simpl. destruct (_ <=? _)%Z eqn:E; [done|]. apply Z.leb_gt in E. lia.
Qed.

(** ** The compact encoder

    Object keys are written in byte order, as [json.Marshal] orders map keys. *)

Definition key_lt (a b : string) : bool :=
  match String.compare a b with Lt => true | _ => false end.

Fixpoint insert_key {A} (p : string * A) (l : list (string * A)) : list (string * A) :=
  match l with
  | [] => [p]
  | q :: l' => if key_lt q.1 p.1 then q :: insert_key p l' else p :: l
  end.

Definition sort_keys {A} (l : list (string * A)) : list (string * A) := foldr insert_key [] l.

Fixpoint join (sep : string) (l : list string) : string :=
  match l with
  | [] => ""
  | [x] => x
  | x :: l' => x +:+ sep +:+ join sep l'
  end.

Definition encode_member (p : string * string) : string := encode_string p.1 +:+ ":" +:+ p.2.

Fixpoint encode (j : json) : string :=
  match j with
  | JNull => "null"
  | JBool b => if b then "true" else "false"
  | JNum s => s
  | JStr s => encode_string s
  | JArr l => "[" +:+ join "," (List.map encode l) +:+ "]"
  | JObj l =>
      "{" +:+ join "," (List.map encode_member
        (sort_keys (List.map (λ p, (p.1, encode p.2)) l))) +:+ "}"
  end.

(** Keys in strictly increasing byte order: sorted and without duplicates. *)
Fixpoint keys_sorted {A} (l : list (string * A)) : bool :=
  match l with
  | p :: (q :: _) as l' => key_lt p.1 q.1 && keys_sorted l'
  | _ => true
  end.

(** A document in the encoder's normal form: valid strings, complete number
    lexemes, sorted distinct keys. *)
Fixpoint canonical (j : json) : bool :=
  match j with
  | JNull | JBool _ => true
  | JNum s => number_lexeme s
  | JStr s => utf8_valid s
  | JArr l => forallb canonical l
  | JObj l => keys_sorted l && forallb (λ p, utf8_valid p.1 && canonical p.2) l
  end.

Lemma sort_keys_sorted {A} (l : list (string * A)) : keys_sorted l = true → sort_keys l = l.
Proof.
  induction l as [|p l IH]; [done|]. simpl. destruct l as [|q l]; [done|]. intros H. to_prop.
  unfold sort_keys in *. simpl in *. rewrite IH by done. simpl.
  unfold key_lt in *. rewrite (String.compare_antisym q.1 p.1).
  by destruct (String.compare p.1 q.1).
Qed.

Lemma keys_sorted_map {A B} (f : A → B) (l : list (string * A)) :
  keys_sorted (List.map (λ p, (p.1, f p.2)) l) = keys_sorted l.
Proof. induction l as [|p [|q l] IH]; simpl in *; [done..|]. by rewrite IH. Qed.

Lemma key_lt_spec a b : key_lt a b = true ↔ String.compare a b = Lt.
Proof. unfold key_lt. by destruct (String.compare a b). Qed.

Lemma ascii_compare_trans a b c : Ascii.compare a b = Lt → Ascii.compare b c = Lt → Ascii.compare a c = Lt.
Proof. unfold Ascii.compare. rewrite !N.compare_lt_iff. lia. Qed.

Lemma string_compare_trans a b c :
  String.compare a b = Lt → String.compare b c = Lt → String.compare a c = Lt.
Proof.
  revert b c. induction a as [|x a IH]; intros [|y b] [|z c]; simpl; try done.
  destruct (Ascii.compare x y) eqn:E1, (Ascii.compare y z) eqn:E2; try done; intros H1 H2.
  - apply Ascii.compare_eq_iff in E1 as ->. rewrite E2. eauto.
  - apply Ascii.compare_eq_iff in E1 as ->. by rewrite E2.
  - apply Ascii.compare_eq_iff in E2 as ->. by rewrite E1.
  - by rewrite (ascii_compare_trans x y z).
Qed.

Lemma keys_sorted_head {A} (p : string * A) l :
  keys_sorted (p :: l) = true → Forall (λ q, key_lt p.1 q.1 = true) l ∧ keys_sorted l = true.
Proof.
  revert p. induction l as [|q l IH]; intros p H; [done|].
  simpl in H. apply andb_prop in H as [Hpq H]. destruct (IH q H) as [Hq _]. split; [|done].
  constructor; [done|]. eapply Forall_impl; [exact Hq|]. intros r Hr. cbv beta in *.
  rewrite key_lt_spec in *. by eapply string_compare_trans.
Qed.

Lemma key_lt_irrefl a : key_lt a a = false.
Proof.
  unfold key_lt. induction a as [|c a IH]; [done|]. simpl.
  assert (Ascii.compare c c = Eq) as -> by apply N.compare_refl. exact IH.
Qed.

Lemma keys_sorted_NoDup {A} (l : list (string * A)) : keys_sorted l = true → NoDup l.*1.
Proof.
  induction l as [|p l IH]; [by constructor|]. intros [Hp Hl]%keys_sorted_head.
  rewrite fmap_cons. constructor; [|auto]. intros (q & E & Hq)%list_elem_of_fmap.
  rewrite Forall_forall in Hp. specialize (Hp q Hq). cbv beta in Hp.
  by rewrite <- E, key_lt_irrefl in Hp.
Qed.

(** On canonical documents the encoder writes members in the given order. *)
Lemma encode_obj_sorted l :
  keys_sorted l = true →
  encode (JObj l) =
    "{" +:+ join "," (List.map (λ p, encode_string p.1 +:+ ":" +:+ encode p.2) l) +:+ "}".
Proof.
  intros H. simpl. rewrite sort_keys_sorted by by rewrite keys_sorted_map.
  rewrite List.map_map. done.
Qed.

(** ** The token reader of [json.Decoder] *)

Inductive token_state :=
  | TopValue | ArrayStart | ArrayValue | ArrayComma
  | ObjectStart | ObjectKey | ObjectColon | ObjectValue | ObjectComma.

#[export] Instance token_state_eq_dec : EqDecision token_state.
Proof. solve_decision. Defined.

Inductive token :=
  | TDelim (c : ascii)
  | TNull
  | TBool (b : bool)
  | TStr (s : string)
  | TNum (lexeme : string).

Record decoder := mk_decoder {
  d_input : string;              (* bytes not yet read *)
  d_state : token_state;         (* dec.tokenState *)
  d_stack : list token_state     (* dec.tokenStack *)
}.

Definition new_decoder (raw : string) : decoder := mk_decoder raw TopValue [].

Definition is_space (c : ascii) : bool :=
  let n := byte_val c in (n =? 32) || (n =? 9) || (n =? 13) || (n =? 10).

Fixpoint skip_space (s : string) : string :=
  match s with
  | String c s' => if is_space c then skip_space s' else s
  | EmptyString => s
  end.

(** [dec.peek]: the next byte that is not space; [None] at the end of input. *)
Definition peek (d : decoder) : option (ascii * decoder) :=
  match skip_space (d_input d) with
  | String c s => Some (c, mk_decoder (String c s) (d_state d) (d_stack d))
  | EmptyString => None
  end.

(** [dec.More]. *)
Definition more (d : decoder) : bool :=
  match peek d with
  | Some (c, _) => negb ((byte_val c =? 93) || (byte_val c =? 125))
  | None => false
  end.

Definition token_value_allowed (st : token_state) : bool :=
  match st with TopValue | ArrayStart | ArrayValue | ObjectValue => true | _ => false end.

Definition value_end (st : token_state) : token_state :=
  match st with
  | ArrayStart | ArrayValue => ArrayComma
  | ObjectValue => ObjectComma
  | st => st
  end.

Definition strip_literal (p s : string) : option string :=
  if has_prefix p s then Some (drop_string (slen p) s) else None.

(** A scalar at the start of the input ([dec.Decode] of a non-container). *)
Definition lex_scalar (s : string) : option (token * string) :=
  match s with
  | EmptyString => None
  | String c s' =>
      let n := byte_val c in
      if n =? 34 then (let? (b, r) := parse_str s' in Some (TStr b, r))
      else if n =? 110 then (let? r := strip_literal "null" s in Some (TNull, r))
      else if n =? 116 then (let? r := strip_literal "true" s in Some (TBool true, r))
      else if n =? 102 then (let? r := strip_literal "false" s in Some (TBool false, r))
      else (let? (lex, r) := scan_number s in Some (TNum lex, r))
  end.

(** Open a container: push the state to return to, enter [inner]. *)
Definition open_delim (c : ascii) (s : string) (inner : token_state) (d : decoder)
  : option (token * decoder) :=
  if token_value_allowed (d_state d)
  then Some (TDelim c, mk_decoder s inner (d_state d :: d_stack d))
  else None.

(** Close a container: pop, and note that a value ended. *)
Definition close_delim (c : ascii) (s : string) (ok : bool) (d : decoder)
  : option (token * decoder) :=
  if ok then
    match d_stack d with
    | st :: stack => Some (TDelim c, mk_decoder s (value_end st) stack)
    | [] => None
    end
  else None.

Definition token_default (d : decoder) : option (token * decoder) :=
  if token_value_allowed (d_state d) then
    let? (t, r) := lex_scalar (d_input d) in
    Some (t, mk_decoder r (value_end (d_state d)) (d_stack d))
  else None.

(** [dec.Token], [None] for any error and for the end of input.  The loop goes
    round again only after a [':'] or a [','], and the state it then has
    admits neither, so [n = 2] rounds are all there are. *)
Fixpoint token_rounds (n : nat) (d : decoder) : option (token * decoder) :=
  match n with
  | O => None
  | S n' =>
      let? (c, d) := peek d in
      let s := drop_string 1 (d_input d) in
      let k := byte_val c in
      if k =? 91 then open_delim c s ArrayStart d
      else if k =? 93 then
        close_delim c s (bool_decide (d_state d = ArrayStart) || bool_decide (d_state d = ArrayComma)) d
      else if k =? 123 then open_delim c s ObjectStart d
      else if k =? 125 then
        close_delim c s (bool_decide (d_state d = ObjectStart) || bool_decide (d_state d = ObjectComma)) d
      else if k =? 58 then
        match d_state d with
        | ObjectColon => token_rounds n' (mk_decoder s ObjectValue (d_stack d))
        | _ => None
        end
      else if k =? 44 then
        match d_state d with
        | ArrayComma => token_rounds n' (mk_decoder s ArrayValue (d_stack d))
        | ObjectComma => token_rounds n' (mk_decoder s ObjectKey (d_stack d))
        | _ => None
        end
      else if k =? 34 then
        match d_state d with
        | ObjectStart | ObjectKey =>
            let? (b, r) := parse_str s in
            Some (TStr b, mk_decoder r ObjectColon (d_stack d))
        | _ => token_default d
        end
      else token_default d
  end.

Definition next_token (d : decoder) : option (token * decoder) := token_rounds 2 d.

(** ** Reading back what the encoder wrote *)

Definition elements_text (l : list json) : string := join "," (List.map encode l).
Definition members_text (l : list (string * json)) : string :=
  join "," (List.map (λ p, encode_string p.1 +:+ ":" +:+ encode p.2) l).

(** The first token of an encoded value, and the reader after it. *)
Definition first_token (j : json) : token :=
  match j with
  | JNull => TNull
  | JBool b => TBool b
  | JNum s => TNum s
  | JStr s => TStr s
  | JArr _ => TDelim "["
  | JObj _ => TDelim "{"
  end.

Definition after_first (j : json) (rest : string) (st : token_state) (stk : list token_state) : decoder :=
  match j with
  | JArr l => mk_decoder (elements_text l +:+ "]" +:+ rest) ArrayStart (st :: stk)
  | JObj l => mk_decoder (members_text l +:+ "}" +:+ rest) ObjectStart (st :: stk)
  | _ => mk_decoder rest (value_end st) stk
  end.

Lemma strip_literal_app p s : strip_literal p (p +:+ s) = Some s.
Proof. unfold strip_literal. by rewrite has_prefix_self, drop_string_app. Qed.

(** A byte that starts a number is neither space, punctuation nor a letter. *)
Definition number_start (c : ascii) : bool := (byte_val c =? 45) || is_digit c.
Definition other_start (c : ascii) : bool :=
  is_space c || (byte_val c =? 91) || (byte_val c =? 93) || (byte_val c =? 123)
  || (byte_val c =? 125) || (byte_val c =? 58) || (byte_val c =? 44)
  || (byte_val c =? 34) || (byte_val c =? 110) || (byte_val c =? 116) || (byte_val c =? 102).

Lemma number_start_other c : number_start c = true → other_start c = false.
Proof.
  pose proof (ascii_all (λ c, implb (number_start c) (negb (other_start c)))
    ltac:(vm_compute; reflexivity) c) as H. cbv beta in H.
  intros E. rewrite E in H. by apply negb_true_iff.
Qed.

Lemma number_first_byte lex :
  number_lexeme lex = true →
  ∃ c s, lex = String c s ∧ number_start c = true.
Proof.
  unfold number_lexeme, scan_number, number_start. destruct lex as [|c s]; [done|]. intros H.
  exists c, s. split; [done|]. destruct (byte_val c =? 45) eqn:E; [done|].
  destruct (is_digit c) eqn:Hd; [done|]. exfalso. unfold scan_integer in H.
  rewrite Hd in H. destruct (byte_val c =? 48) eqn:E48; [|done].
  apply N.eqb_eq in E48. unfold is_digit, in_range in Hd. rewrite E48 in Hd. done.
Qed.

Lemma token_number_byte c s st stk n :
  number_start c = true →
  token_rounds (S n) (mk_decoder (String c s) st stk) = token_default (mk_decoder (String c s) st stk).
Proof.
  intros H%number_start_other. unfold other_start in H. to_prop.
  unfold token_rounds, peek. cbn [d_input skip_space]. use_tests.
  cbn [mbind option_bind d_input d_state d_stack drop_string]. use_tests. done.
Qed.

Lemma lex_scalar_number lex rest :
  number_lexeme lex = true → number_stop rest = true →
  lex_scalar (lex +:+ rest) = Some (TNum lex, rest).
Proof.
  intros Hl Hs. pose proof (scan_number_lexeme lex rest Hl Hs) as Hscan.
  destruct (number_first_byte lex Hl) as (c & s & E & Hc).
  apply number_start_other in Hc. unfold other_start in Hc. to_prop.
  subst lex. rewrite app_string_cons in *. unfold lex_scalar. use_tests. by rewrite Hscan.
Qed.

(** The first token of a canonical value that is allowed here. *)
Lemma token_first j rest st stk n :
  canonical j = true → token_value_allowed st = true → number_stop rest = true →
  token_rounds (S n) (mk_decoder (encode j +:+ rest) st stk)
    = Some (first_token j, after_first j rest st stk).
Proof.
  intros Hj Hst Hrest. destruct j as [| |lex|s|l|l].
  - simpl. unfold token_default. simpl. by rewrite Hst.
  - destruct b; simpl; unfold token_default; simpl; by rewrite Hst.
  - simpl in Hj. destruct (number_first_byte lex Hj) as (c & s & E & Hc).
    simpl encode. rewrite E, app_string_cons, token_number_byte by done.
    rewrite <- app_string_cons, <- E. unfold token_default. cbn [d_state d_input d_stack].
    by rewrite Hst, lex_scalar_number.
  - simpl in Hj. simpl encode. unfold encode_string. rewrite app_string_cons, app_string_assoc.
    cbn [token_rounds]. unfold peek. cbn [d_input skip_space is_space].
    change (is_space dquote) with false. cbn [mbind option_bind d_input d_state d_stack drop_string].
    change (byte_val dquote) with 34. cbn [N.eqb Pos.eqb]. unfold token_default, lex_scalar.
    cbn [d_input d_state d_stack]. change (byte_val dquote) with 34. cbn [N.eqb Pos.eqb].
    rewrite app_string_cons, app_string_nil_l, parse_encode_string by done.
    by destruct st.
  - simpl. unfold open_delim. simpl. rewrite Hst. by rewrite !app_string_assoc.
  - simpl in Hj. to_prop. rewrite encode_obj_sorted by done. simpl. unfold open_delim. simpl.
    rewrite Hst. by rewrite !app_string_assoc.
Qed.

(** A member key is read in a key position. *)
Lemma token_key k rest st stk n :
  utf8_valid k = true → st = ObjectStart ∨ st = ObjectKey →
  token_rounds (S n) (mk_decoder (encode_string k +:+ rest) st stk)
    = Some (TStr k, mk_decoder rest ObjectColon stk).
Proof.
  intros Hk Hst. unfold encode_string. rewrite app_string_cons, app_string_assoc.
  cbn [token_rounds]. unfold peek. cbn [d_input skip_space].
  change (is_space dquote) with false. cbn [mbind option_bind d_input d_state d_stack drop_string].
  change (byte_val dquote) with 34. cbn [N.eqb Pos.eqb].
  rewrite app_string_cons, app_string_nil_l, parse_encode_string by done.
  by destruct Hst as [-> | ->].
Qed.

Lemma token_comma s stk n :
  token_rounds (S n) (mk_decoder ("," +:+ s) ArrayComma stk) = token_rounds n (mk_decoder s ArrayValue stk).
Proof. done. Qed.
Lemma token_comma_key s stk n :
  token_rounds (S n) (mk_decoder ("," +:+ s) ObjectComma stk) = token_rounds n (mk_decoder s ObjectKey stk).
Proof. done. Qed.
Lemma token_colon s stk n :
  token_rounds (S n) (mk_decoder (":" +:+ s) ObjectColon stk) = token_rounds n (mk_decoder s ObjectValue stk).
Proof. done. Qed.

(** ** Encoded sequences, element by element *)

Definition elements_tail (l : list json) : string :=
  string_concat (List.map (λ x, "," +:+ encode x) l).
Definition member_text (p : string * json) : string := encode_string p.1 +:+ ":" +:+ encode p.2.
Definition members_tail (l : list (string * json)) : string :=
  string_concat (List.map (λ p, "," +:+ member_text p) l).

Lemma join_cons x l : join "," (x :: l) = x +:+ string_concat (List.map (λ y, "," +:+ y) l).
Proof.
  revert x. induction l as [|y l IH]; intros x; [simpl; by rewrite app_string_nil_r|].
  change (join "," (x :: y :: l)) with (x +:+ "," +:+ join "," (y :: l)).
  rewrite IH. simpl. by rewrite app_string_assoc.
Qed.

Lemma elements_text_cons x l : elements_text (x :: l) = encode x +:+ elements_tail l.
Proof.
  unfold elements_text, elements_tail. simpl List.map. rewrite join_cons.
  by rewrite List.map_map.
Qed.

Lemma members_text_cons p l : members_text (p :: l) = member_text p +:+ members_tail l.
Proof.
  unfold members_text, members_tail. simpl List.map. rewrite join_cons.
  by rewrite List.map_map.
Qed.

(** An encoded value starts with a byte that is neither space nor a closer. *)
Definition opens_value (s : string) : bool :=
  match s with
  | String c _ => negb (is_space c) && negb ((byte_val c =? 93) || (byte_val c =? 125))
  | EmptyString => false
  end.

Lemma opens_value_app s t : opens_value s = true → opens_value (s +:+ t) = true.
Proof. by destruct s. Qed.

Lemma encode_opens j : canonical j = true → opens_value (encode j) = true.
Proof.
  destruct j as [|[]|lex|s|l|l]; intros H; try done.
  simpl in H. destruct (number_first_byte lex H) as (c & s & -> & Hc).
  apply number_start_other in Hc. unfold other_start in Hc. to_prop. simpl. by use_tests.
Qed.

Lemma more_opens s st stk : opens_value s = true → more (mk_decoder s st stk) = true.
Proof.
  destruct s as [|c s]; [done|]. unfold opens_value, more, peek. intros H.
  apply andb_prop in H as [Hs Hc]. apply negb_true_iff in Hs.
  cbn [d_input skip_space]. by rewrite Hs.
Qed.

(** ** The encoder writes valid UTF-8 *)

Lemma utf8_valid_app a b : utf8_valid a = true → utf8_valid b = true → utf8_valid (a +:+ b) = true.
Proof.
  intros (ra & Hra & ->)%utf8_valid_runes Hb. unfold utf8_valid in *.
  rewrite runes_concat, forallb_app, Hb, andb_true_r by done.
  apply forallb_forall. intros x Hx%list_elem_of_In%list_elem_of_fmap. by destruct Hx as (y & -> & _).
Qed.

(** Printable ASCII and DEL: what a number is written with. *)
Definition text7 (c : ascii) : bool := (32 <=? byte_val c) && (byte_val c <? 128).

Lemma byte_test_text7 c n : (byte_val c =? n) = true → ((32 <=? n) && (n <? 128)) = true → text7 c = true.
Proof. unfold text7. by intros ->%N.eqb_eq. Qed.
Lemma digit_text7 c : is_digit c = true → text7 c = true.
Proof.
  pose proof (ascii_all (λ c, implb (is_digit c) (text7 c)) ltac:(vm_compute; reflexivity) c) as H.
  cbv beta in H. by intros E; rewrite E in H.
Qed.

Lemma span_digits_digits s : string_forallb is_digit (span_digits s).1 = true.
Proof.
  induction s as [|c s IH]; [done|]. simpl. destruct (is_digit c) eqn:E; [|done].
  destruct (span_digits s) as [d r]. simpl in *. by rewrite E.
Qed.
Lemma span_digits_text7 s d r : span_digits s = (d, r) → string_forallb text7 d = true.
Proof.
  intros E. pose proof (span_digits_digits s) as H. rewrite E in H.
  by eapply string_forallb_impl; [apply digit_text7|].
Qed.

Lemma scan_number_text7 s d r : scan_number s = Some (d, r) → string_forallb text7 d = true.
Proof.
  assert (∀ s d r, scan_integer s = Some (d, r) → string_forallb text7 d = true) as Hi.
  { intros [|c t] d' r'; [done|]. unfold scan_integer. destruct (byte_val c =? 48) eqn:E.
    - intros [= <- <-]. simpl. by rewrite (byte_test_text7 c 48).
    - destruct (is_digit c); [|discriminate]. intros H. injection H as H. exact (span_digits_text7 (String c t) _ _ H). }
  assert (∀ s d r, scan_fraction s = Some (d, r) → string_forallb text7 d = true) as Hf.
  { intros [|c t] d' r'; [by intros [= <- <-]|]. simpl. destruct (byte_val c =? 46) eqn:E; [|by intros [= <- <-]].
    destruct (span_digits t) as [[|x y] z] eqn:Es; [done|]. intros [= <- <-].
    apply span_digits_text7 in Es. cbn [string_forallb] in *. by rewrite (byte_test_text7 c 46). }
  assert (∀ s d r, scan_exponent s = Some (d, r) → string_forallb text7 d = true) as He.
  { intros [|c t] d' r'; [by intros [= <- <-]|]. simpl. destruct (_ || _) eqn:E; [|by intros [= <- <-]].
    assert (text7 c = true) as Hc by (apply orb_prop in E as [E|E]; by eapply byte_test_text7).
    destruct t as [|g t]; [done|]. destruct ((byte_val g =? 43) || _) eqn:Eg.
    - assert (text7 g = true) as Hg by (apply orb_prop in Eg as [Eg|Eg]; by eapply byte_test_text7).
      destruct (span_digits t) as [[|x y] z] eqn:Es; [done|]. intros [= <- <-].
      apply span_digits_text7 in Es. rewrite ?app_string_cons in *; cbn [string_forallb] in *. by rewrite Hc, Hg.
    - destruct (span_digits (String g t)) as [[|x y] z] eqn:Es; [done|]. intros [= <- <-].
      apply span_digits_text7 in Es. rewrite ?app_string_cons in *; cbn [string_forallb] in *. by rewrite Hc. }
  unfold scan_number. destruct (match s with EmptyString => _ | String c _ => _ end) as [sign s1] eqn:Es.
  assert (string_forallb text7 sign = true) as Hs.
  { destruct s as [|c s]; [by injection Es as <- <-|]. destruct (byte_val c =? 45) eqn:E; injection Es as <- <-; [|done].
    simpl. by rewrite (byte_test_text7 c 45). }
  destruct (scan_integer s1) as [[i s2]|] eqn:E1; [|done]. cbn [mbind option_bind].
  destruct (scan_fraction s2) as [[f s3]|] eqn:E2; [|done]. cbn [mbind option_bind].
  destruct (scan_exponent s3) as [[e s4]|] eqn:E3; [|done]. cbn [mbind option_bind]. intros [= <- <-].
  rewrite !string_forallb_app, Hs, (Hi _ _ _ E1), (Hf _ _ _ E2), (He _ _ _ E3). done.
Qed.

Lemma number_lexeme_text7 s : number_lexeme s = true → string_forallb text7 s = true.
Proof.
  unfold number_lexeme. destruct (scan_number s) as [[d r]|] eqn:E; [|done]. destruct r; [|done].
  intros _. pose proof (scan_number_spec _ _ _ E) as ->. rewrite app_string_nil_r.
  by eapply scan_number_text7.
Qed.

Lemma text7_ascii7 c : text7 c = true → ascii7 c = true.
Proof. unfold text7, ascii7. by intros [_ H]%andb_prop. Qed.
Lemma number_lexeme_ascii7 s : number_lexeme s = true → string_forallb ascii7 s = true.
Proof. intros H. eapply string_forallb_impl; [apply text7_ascii7|by apply number_lexeme_text7]. Qed.

Lemma escape_rune_utf8 r : rune_ok r = true → utf8_valid (escape_rune (Some r)) = true.
Proof.
  intros H. destruct r as [|a [|b r]]; [done| |].
  - apply utf8_valid_ascii. simpl in H.
    pose proof (ascii_all (λ c, implb (ascii7 c) (string_forallb ascii7 (escape_byte c)))
      ltac:(vm_compute; reflexivity) a) as Ha. cbv beta in Ha. by rewrite H in Ha.
  - unfold escape_rune. destruct (line_separator _); [done|]. destruct (paragraph_separator _); [done|].
    rewrite <- (app_string_nil_r (String a (String b r))).
    exact (utf8_valid_concat [String a (String b r)] (andb_true_intro (conj H eq_refl))).
Qed.

Lemma encode_string_utf8 s : utf8_valid s = true → utf8_valid (encode_string s) = true.
Proof.
  intros (rs & Hrs & ->)%utf8_valid_runes. unfold encode_string.
  change (String dquote ?x) with (String dquote "" +:+ x). apply utf8_valid_app; [done|].
  apply utf8_valid_app; [|done]. unfold encode_body.
  rewrite <- (app_string_nil_r (string_concat rs)), runes_concat, app_nil_r by done.
  induction rs as [|r rs IH]; [done|]. simpl in Hrs. apply andb_prop in Hrs as [Hr Hrs].
  rewrite !fmap_cons, string_concat_cons. apply utf8_valid_app; [by apply escape_rune_utf8|by apply IH].
Qed.

Lemma join_utf8 l : Forall (λ s, utf8_valid s = true) l → utf8_valid (join "," l) = true.
Proof.
  destruct 1 as [|x l Hx Hl]; [done|]. rewrite join_cons. apply utf8_valid_app; [done|].
  induction Hl as [|y l Hy Hl IH]; [done|]. cbn [List.map]. rewrite string_concat_cons.
  by repeat apply utf8_valid_app.
Qed.

Lemma encode_utf8 j : canonical j = true → utf8_valid (encode j) = true.
Proof.
  induction j as [|[]|lex|s|l IH|l IH] using json_nested_ind; intros H; try done.
  - by apply utf8_valid_ascii, number_lexeme_ascii7.
  - by apply encode_string_utf8.
  - simpl in *. change ("[" +:+ ?x) with ("[" +:+ x). repeat apply utf8_valid_app; [done| |done].
    apply join_utf8. rewrite forallb_forall in H. rewrite List.Forall_forall in IH. apply List.Forall_forall.
    intros y (x & <- & Hx)%in_map_iff. apply IH; [done|auto].
  - simpl in H. apply andb_prop in H as [Hs H]. rewrite encode_obj_sorted by done.
    repeat apply utf8_valid_app; [done| |done].
    apply join_utf8. rewrite forallb_forall in H. rewrite List.Forall_forall in IH. apply List.Forall_forall.
    intros y (x & <- & Hx)%in_map_iff. specialize (H x Hx).
    apply andb_prop in H as [Hk Hv].
    apply utf8_valid_app; [by apply encode_string_utf8|].
    apply utf8_valid_app; [done|by apply IH].
Qed.

(** ** The encoder writes no control byte *)

Definition no_control (c : ascii) : bool := 32 <=? byte_val c.

Lemma rune_no_control r : rune_ok r = true → string_forallb no_control (escape_rune (Some r)) = true.
Proof.
  intros H. destruct r as [|a [|b r]]; [done| |].
  - exact (ascii_all (λ c, string_forallb no_control (escape_byte c)) ltac:(vm_compute; reflexivity) a).
  - unfold escape_rune. destruct (line_separator _); [done|]. destruct (paragraph_separator _); [done|].
    pose proof (rune_high a b r H) as Hh. eapply string_forallb_impl; [|exact Hh].
    intros c Hc. unfold no_control. apply N.leb_le. cbv beta in Hc. unfold ascii7 in Hc. apply negb_true_iff, N.ltb_ge in Hc. lia.
Qed.

Lemma encode_string_no_control s : utf8_valid s = true → string_forallb no_control (encode_string s) = true.
Proof.
  intros (rs & Hrs & ->)%utf8_valid_runes. unfold encode_string.
  change (String dquote ?x) with (String dquote "" +:+ x). rewrite !string_forallb_app.
  assert (string_forallb no_control (encode_body (string_concat rs)) = true) as ->; [|done].
  unfold encode_body. rewrite <- (app_string_nil_r (string_concat rs)), runes_concat, app_nil_r by done.
  induction rs as [|r rs IH]; [done|]. simpl in Hrs. apply andb_prop in Hrs as [Hr Hrs].
  rewrite !fmap_cons, string_concat_cons, string_forallb_app, rune_no_control by done. by apply IH.
Qed.

Lemma join_no_control l :
  Forall (λ s, string_forallb no_control s = true) l → string_forallb no_control (join "," l) = true.
Proof.
  destruct 1 as [|x l Hx Hl]; [done|]. rewrite join_cons, string_forallb_app, Hx. cbn [andb].
  induction Hl as [|y l Hy Hl IH]; [done|]. cbn [List.map]. rewrite string_concat_cons, !string_forallb_app, Hy, IH. done.
Qed.

Lemma encode_no_control j : canonical j = true → string_forallb no_control (encode j) = true.
Proof.
  induction j as [|[]|lex|s|l IH|l IH] using json_nested_ind; intros H; try done.
  - eapply string_forallb_impl; [|by apply number_lexeme_text7].
    intros c. unfold text7, no_control. by intros [Hc _]%andb_prop.
  - by apply encode_string_no_control.
  - simpl in H. cbn [encode]. rewrite !string_forallb_app. rewrite join_no_control; [done|].
    rewrite forallb_forall in H. rewrite List.Forall_forall in IH. apply List.Forall_forall.
    intros y (x & <- & Hx)%in_map_iff. apply IH; [done|auto].
  - simpl in H. apply andb_prop in H as [Hs H]. rewrite encode_obj_sorted by done.
    rewrite !string_forallb_app. rewrite join_no_control; [done|].
    rewrite forallb_forall in H. rewrite List.Forall_forall in IH. apply List.Forall_forall.
    intros y (x & <- & Hx)%in_map_iff. specialize (H x Hx). apply andb_prop in H as [Hk Hv].
    rewrite !string_forallb_app, encode_string_no_control, IH by done. done.
Qed.
