(* ===== verification/StructuredJson.v ===== *)
(** * Bounded strict JSON (internal/structuredjson)

    [decode.go], [number_limits.go], [equal.go] and [path.go]: the strict
    decoder with byte, depth, node and exponent limits, exact decimal
    comparison, semantic equality and the singular JSONPath profile.
    Compiled JSON Schemas ([schema.go]) are a third-party validator. *)

From S2P Require Import Prelude Json.

Local Open Scope Z_scope.

(** ** Error kinds (errors.go) *)

Inductive ErrorKind :=
  | ErrorInvalidLimits | ErrorTooLarge | ErrorInvalidUTF8 | ErrorInvalidJSON
  | ErrorDuplicateKey | ErrorDepthLimit | ErrorNodeLimit | ErrorNumberExponentLimit
  | ErrorInvalidPath | ErrorPathLimit | ErrorUnsupportedValue | ErrorSchemaPolicy
  | ErrorSchemaCompile | ErrorSchemaEvaluation | ErrorSchemaNotSatisfied.

#[export] Instance ErrorKind_eq_dec : EqDecision ErrorKind.
Proof. solve_decision. Defined.

(** ** Exponent limits (number_limits.go) *)

Definition MaxJSONNumberExponent : Z := 1000.
Definition isDecimalDigit (c : ascii) : bool := is_digit c.
Definition digit_val (c : ascii) : Z := Z.of_N (byte_val c) - 48.

(** The loop over the exponent digits: digits seen, magnitude, whether the
    limit was exceeded, and the remaining text. *)
Fixpoint exponent_loop (s : string) (digits magnitude : Z) (exceeds : bool)
  : Z * Z * bool * string :=
  match s with
  | String c s' =>
      if isDecimalDigit c then
        let digit := digit_val c in
        if (MaxJSONNumberExponent - digit) / 10 <? magnitude
        then exponent_loop s' (digits + 1) magnitude true
        else if exceeds then exponent_loop s' (digits + 1) magnitude exceeds
        else exponent_loop s' (digits + 1) (magnitude * 10 + digit) exceeds
      else (digits, magnitude, exceeds, s)
  | EmptyString => (digits, magnitude, exceeds, s)
  end.

(** The integer part: a single 0, or digits not starting with 0. *)
Definition limit_integer (s : string) : option string :=
  match s with
  | String c s' =>
      if (byte_val c =? 48)%N then
        match s' with
        | String d _ => if isDecimalDigit d then None else Some s'
        | EmptyString => Some s'
        end
      else if isDecimalDigit c then Some (span_digits s).2
      else None
  | EmptyString => None
  end.

(** The fraction: number of digits (0 without a point) and the rest. *)
Definition limit_fraction (s : string) : option (Z * string) :=
  match s with
  | String c s' =>
      if (byte_val c =? 46)%N then
        let '(d, r) := span_digits s' in
        if (zlen d =? 0) then None else Some (zlen d, r)
      else Some (0, s)
  | EmptyString => Some (0, s)
  end.

(** The result of the exponent part: invalid, over the limit, or a value. *)
Inductive exponent_part := ExpInvalid | ExpExceeds | ExpValue (e : Z).

Definition limit_exponent (s : string) : exponent_part :=
  match s with
  | String c s' =>
      if ((byte_val c =? 101)%N || (byte_val c =? 69)%N)%bool then
        let '(sign, s'') :=
          match s' with
          | String g r =>
              if (byte_val g =? 45)%N then (-1, r)
              else if (byte_val g =? 43)%N then (1, r) else (1, s')
          | EmptyString => (1, s')
          end in
        let '(digits, magnitude, exceeds, rest) := exponent_loop s'' 0 0 false in
        if digits =? 0 then ExpInvalid
        else if exceeds then (if rest =s "" then ExpExceeds else ExpInvalid)
        else if rest =s "" then ExpValue (sign * magnitude) else ExpInvalid
      else ExpInvalid
  | EmptyString => ExpValue 0
  end.

(** Returns ([withinLimit], [valid]). *)
Definition jsonNumberWithinExponentLimit (raw : string) : bool * bool :=
  let s := match raw with
           | String c r => if (byte_val c =? 45)%N then r else raw
           | EmptyString => raw
           end in
  match limit_integer s with
  | None => (false, false)
  | Some s2 =>
      match limit_fraction s2 with
      | None => (false, false)
      | Some (fractionDigits, s3) =>
          match limit_exponent s3 with
          | ExpInvalid => (false, false)
          | ExpExceeds => (false, true)
          | ExpValue explicitExponent =>
              let effectiveExponent := explicitExponent - fractionDigits in
              ((- MaxJSONNumberExponent <=? effectiveExponent)
               && (effectiveExponent <=? MaxJSONNumberExponent), true)
          end
      end
  end.

(** ** The strict decoder (decode.go) *)

Record DecodeLimits := { MaxBytes : Z; MaxDepth : Z; MaxNodes : Z }.

Definition DefaultInstanceDecodeLimits : DecodeLimits :=
  {| MaxBytes := 1048576; MaxDepth := 128; MaxNodes := 100000 |}.

Section Decode.
Variable limits : DecodeLimits.

(** [decodeState] is the token reader and the node counter.  The outer
    option is the fuel: [None] only when it runs out. *)
Fixpoint decodeToken (fuel : nat) (d : decoder) (nodes : Z) (tok : token) (depth : Z)
  : option (result ErrorKind (json * decoder * Z)) :=
  match fuel with
  | O => None
  | S fuel' =>
      let nodes := nodes + 1 in
      if MaxNodes limits <? nodes then Some (Err ErrorNodeLimit)
      else
        match tok with
        | TNull => Some (Ok (JNull, d, nodes))
        | TBool b => Some (Ok (JBool b, d, nodes))
        | TStr s => Some (Ok (JStr s, d, nodes))
        | TNum lex =>
            let '(withinLimit, valid) := jsonNumberWithinExponentLimit lex in
            if negb valid then Some (Err ErrorInvalidJSON)
            else if negb withinLimit then Some (Err ErrorNumberExponentLimit)
            else Some (Ok (JNum lex, d, nodes))
        | TDelim c =>
            if MaxDepth limits <? depth + 1 then Some (Err ErrorDepthLimit)
            else if Ascii.eqb c "{" then decodeObject fuel' d nodes (depth + 1) []
            else if Ascii.eqb c "[" then decodeArray fuel' d nodes (depth + 1) []
            else Some (Err ErrorInvalidJSON)
        end
  end
with decodeObject (fuel : nat) (d : decoder) (nodes depth : Z) (value : list (string * json))
  : option (result ErrorKind (json * decoder * Z)) :=
  match fuel with
  | O => None
  | S fuel' =>
      if more d then
        match next_token d with
        | Some (TStr key, d1) =>
            if has_key key value then Some (Err ErrorDuplicateKey)
            else
              match next_token d1 with
              | None => Some (Err ErrorInvalidJSON)
              | Some (itemToken, d2) =>
                  match decodeToken fuel' d2 nodes itemToken depth with
                  | Some (Ok (item, d3, nodes)) =>
                      decodeObject fuel' d3 nodes depth (value ++ [(key, item)])
                  | r => r
                  end
              end
        | _ => Some (Err ErrorInvalidJSON)
        end
      else
        match next_token d with
        | Some (TDelim c, d1) =>
            if Ascii.eqb c "}" then Some (Ok (JObj value, d1, nodes))
            else Some (Err ErrorInvalidJSON)
        | _ => Some (Err ErrorInvalidJSON)
        end
  end
with decodeArray (fuel : nat) (d : decoder) (nodes depth : Z) (value : list json)
  : option (result ErrorKind (json * decoder * Z)) :=
  match fuel with
  | O => None
  | S fuel' =>
      if more d then
        match next_token d with
        | None => Some (Err ErrorInvalidJSON)
        | Some (itemToken, d1) =>
            match decodeToken fuel' d1 nodes itemToken depth with
            | Some (Ok (item, d2, nodes)) =>
                decodeArray fuel' d2 nodes depth (value ++ [item])
            | r => r
            end
        end
      else
        match next_token d with
        | Some (TDelim c, d1) =>
            if Ascii.eqb c "]" then Some (Ok (JArr value, d1, nodes))
            else Some (Err ErrorInvalidJSON)
        | _ => Some (Err ErrorInvalidJSON)
        end
  end.
End Decode.

(** Enough fuel for any document of the input's length. *)
Definition decode_fuel (raw : string) : nat := (2 * slen raw + 2)%nat.

(** [dec.Token] reports [io.EOF] exactly when only space remains. *)
Definition at_eof (d : decoder) : bool :=
  match peek d with None => true | Some _ => false end.

Definition Decode (raw : string) (limits : DecodeLimits) : option (result ErrorKind json) :=
  if (MaxBytes limits <=? 0) || (MaxDepth limits <=? 0) || (MaxNodes limits <=? 0)
  then Some (Err ErrorInvalidLimits)
  else if MaxBytes limits <? zlen raw then Some (Err ErrorTooLarge)
  else if negb (utf8_valid raw) then Some (Err ErrorInvalidUTF8)
  else
    match next_token (new_decoder raw) with
    | None => Some (Err ErrorInvalidJSON)
    | Some (tok, d) =>
        match decodeToken limits (decode_fuel raw) d 0 tok 0 with
        | Some (Ok (value, d', _)) =>
            if at_eof d' then Some (Ok value) else Some (Err ErrorInvalidJSON)
        | Some (Err e) => Some (Err e)
        | None => None
        end
    end.

(** ** Termination: the fuel is enough

    Every token consumes input, so twice the remaining length bounds the calls. *)

Lemma slen_skip_space s : (slen (skip_space s) <= slen s)%nat.
Proof. induction s as [|c s IH]; simpl; [lia|]. destruct (is_space c); simpl; lia. Qed.

Lemma parse_str_shorter s b r : parse_str s = Some (b, r) → (slen r < slen s)%nat.
Proof.
  remember (slen s) as n eqn:Hn. revert s b r Hn.
  induction (lt_wf n) as [n _ IH]. intros s b r ->.
  assert (∀ p t b r, (slen t < slen s)%nat → prepend p (parse_str t) = Some (b, r) → (slen r < slen s)%nat) as Hrec.
  { intros p t b' r' Hlt. destruct (parse_str t) as [[b'' r'']|] eqn:E; [|done].
    simpl. intros [= _ <-]. specialize (IH _ Hlt _ _ _ eq_refl E). lia. }
  destruct s as [|c s]; [done|]. cbn [parse_str].
  destruct (byte_val c =? 34)%N; [intros [= <- <-]; simpl; lia|].
  destruct (byte_val c =? 92)%N.
  - destruct s as [|e s]; [done|]. destruct (simple_escape e); [apply Hrec; simpl; lia|].
    destruct (byte_val e =? 117)%N; [|done].
    destruct s as [|h1 [|h2 [|h3 [|h4 s]]]]; try done.
    destruct (hex4 h1 h2 h3 h4) as [v|]; [|done].
    destruct (is_surrogate v); [|apply Hrec; simpl; lia].
    destruct s as [|b0 [|u [|g1 [|g2 [|g3 [|g4 s]]]]]]; try (apply Hrec; simpl; lia).
    destruct (mbind _ _); apply Hrec; simpl; lia.
  - destruct (byte_val c <? 32)%N; [done|]. apply Hrec. simpl. lia.
Qed.

Lemma scan_number_shorter s d r : scan_number s = Some (d, r) → (slen r < slen s)%nat.
Proof.
  intros H. pose proof (scan_number_spec _ _ _ H) as E.
  assert (d ≠ "") as Hd.
  { intros ->. rewrite app_string_nil_l in E. subst r. unfold scan_number in H.
    destruct (match s with EmptyString => _ | String _ _ => _ end) as [sign s1].
    destruct s1 as [|c s1]; [done|]. unfold scan_integer in H.
    destruct (byte_val c =? 48)%N.
    - simpl in H. destruct (scan_fraction s1) as [[f s3]|]; [|done]. simpl in H.
      destruct (scan_exponent s3) as [[e s4]|]; [|done]. simpl in H. by destruct sign.
    - destruct (is_digit c) eqn:Hc; [|done]. cbn [span_digits] in H. rewrite Hc in H.
      destruct (span_digits s1) as [d' r']. simpl in H.
      destruct (scan_fraction r') as [[f s3]|]; [|done]. simpl in H.
      destruct (scan_exponent s3) as [[e s4]|]; [|done]. simpl in H. by destruct sign. }
  subst s. rewrite slen_app. destruct d; [done|]. simpl. lia.
Qed.

Lemma lex_scalar_shorter s t r : lex_scalar s = Some (t, r) → (slen r < slen s)%nat.
Proof.
  assert (∀ p s r, p ≠ "" → strip_literal p s = Some r → (slen r < slen s)%nat) as Hstrip.
  { intros p s' r' Hp. unfold strip_literal. destruct (has_prefix p s') eqn:E; [|done].
    apply has_prefix_app in E as [q ->]. rewrite drop_string_app. intros [= <-].
    rewrite slen_app. destruct p; [done|]. simpl. lia. }
  destruct s as [|c s]; [done|]. unfold lex_scalar.
  destruct (byte_val c =? 34)%N.
  { destruct (parse_str s) as [[b r']|] eqn:E; [|done]. intros [= _ <-].
    apply parse_str_shorter in E. simpl. lia. }
  destruct (byte_val c =? 110)%N.
  { destruct (strip_literal _ _) eqn:E; [|done]. intros [= _ <-]. by eapply Hstrip in E. }
  destruct (byte_val c =? 116)%N.
  { destruct (strip_literal _ _) eqn:E; [|done]. intros [= _ <-]. by eapply Hstrip in E. }
  destruct (byte_val c =? 102)%N.
  { destruct (strip_literal _ _) eqn:E; [|done]. intros [= _ <-]. by eapply Hstrip in E. }
  destruct (scan_number _) as [[lex r']|] eqn:E; [|done]. intros [= _ <-].
  by apply scan_number_shorter in E.
Qed.

Definition remaining (d : decoder) : nat := slen (d_input d).

Lemma next_token_shorter d t d' : next_token d = Some (t, d') → (remaining d' < remaining d)%nat.
Proof.
  unfold next_token. generalize 2%nat as n. intros n. revert d.
  induction n as [|n IH]; intros d; [done|]. cbn [token_rounds].
  unfold peek. pose proof (slen_skip_space (d_input d)) as Hsp. unfold remaining.
  destruct (skip_space (d_input d)) as [|c s] eqn:Es; [done|].
  cbn [mbind option_bind d_input d_state d_stack drop_string]. simpl slen in Hsp.
  assert (∀ st stk, token_rounds n (mk_decoder s st stk) = Some (t, d') → (slen (d_input d') < slen (d_input d))%nat) as Hn.
  { intros st stk H. apply IH in H. unfold remaining in H. simpl in H. lia. }
  assert (token_default (mk_decoder (String c s) (d_state d) (d_stack d)) = Some (t, d') →
    (slen (d_input d') < slen (d_input d))%nat) as Hdef.
  { unfold token_default. cbn [d_input d_state d_stack]. destruct (token_value_allowed _); [|done].
    destruct (lex_scalar _) as [[t' r]|] eqn:E; [|done]. intros [= <- <-].
    apply lex_scalar_shorter in E. simpl in *. lia. }
  unfold open_delim, close_delim. cbn [d_input d_state d_stack].
  destruct (byte_val c =? 91)%N; [destruct (token_value_allowed _); [intros [= <- <-]; simpl; lia|done]|].
  destruct (byte_val c =? 93)%N.
  { destruct (_ || _); [|done]. destruct (d_stack d); [done|]. intros [= <- <-]; simpl; lia. }
  destruct (byte_val c =? 123)%N; [destruct (token_value_allowed _); [intros [= <- <-]; simpl; lia|done]|].
  destruct (byte_val c =? 125)%N.
  { destruct (_ || _); [|done]. destruct (d_stack d); [done|]. intros [= <- <-]; simpl; lia. }
  destruct (byte_val c =? 58)%N; [destruct (d_state d); try done; apply Hn|].
  destruct (byte_val c =? 44)%N; [destruct (d_state d); try done; apply Hn|].
  destruct (byte_val c =? 34)%N; [|exact Hdef].
  destruct (d_state d); try exact Hdef;
    (destruct (parse_str s) as [[b r]|] eqn:E; [|done]; intros [= <- <-];
     apply parse_str_shorter in E; simpl in *; lia).
Qed.

Section DecodeTotal.
Variable limits : DecodeLimits.

(** A finished call: an answer, and no input gained. *)
Definition finishes (d : decoder) (o : option (result ErrorKind (json * decoder * Z))) : Prop :=
  match o with
  | None => False
  | Some (Ok (_, d', _)) => (remaining d' <= remaining d)%nat
  | Some (Err _) => True
  end.

Lemma decode_finishes fuel :
  (∀ d nodes tok depth, (2 * remaining d + 2 <= fuel)%nat →
     finishes d (decodeToken limits fuel d nodes tok depth))
  ∧ (∀ d nodes depth value, (2 * remaining d + 1 <= fuel)%nat →
     finishes d (decodeObject limits fuel d nodes depth value))
  ∧ (∀ d nodes depth value, (2 * remaining d + 1 <= fuel)%nat →
     finishes d (decodeArray limits fuel d nodes depth value)).
Proof.
  induction fuel as [|fuel (IHt & IHo & IHa)]; [repeat split; intros; lia|].
  assert (∀ d d' nodes tok depth k, (remaining d' < remaining d)%nat → (2 * remaining d <= fuel)%nat →
    (∀ item d3 nodes', (remaining d3 < remaining d)%nat → finishes d3 (k item d3 nodes')) →
    finishes d (match decodeToken limits fuel d' nodes tok depth with
                | Some (Ok (item, d3, nodes')) => k item d3 nodes' | r => r end)) as Hitem.
  { intros d d' nodes tok depth k Hd Hf Hk.
    specialize (IHt d' nodes tok depth ltac:(lia)).
    destruct (decodeToken limits fuel d' nodes tok depth) as [[[[item d3] nodes']|e]|]; [|done..].
    simpl in IHt. specialize (Hk item d3 nodes' ltac:(lia)).
    destruct (k item d3 nodes') as [[[[? d4] ?]|]|]; simpl in *; try done. lia. }
  repeat split; intros d nodes.
  - intros tok depth Hf. cbn [decodeToken]. destruct (_ <? _); [done|].
    destruct tok; try (simpl; lia); [|destruct (jsonNumberWithinExponentLimit _) as [w v];
      destruct (negb v); [done|]; destruct (negb w); simpl; [done|lia]].
    destruct (_ <? _); [done|]. destruct (Ascii.eqb c "{"); [apply IHo; lia|].
    destruct (Ascii.eqb c "["); [apply IHa; lia|done].
  - intros depth value Hf. cbn [decodeObject].
    destruct (next_token d) as [[tok d1]|] eqn:E1; [|by destruct (more d)].
    apply next_token_shorter in E1. destruct (more d).
    + destruct tok as [| | |key|]; try done. destruct (has_key key value); [done|].
      destruct (next_token d1) as [[itok d2]|] eqn:E2; [|done].
      apply next_token_shorter in E2. apply Hitem; [lia..|]. intros. apply IHo. lia.
    + destruct tok; try done. destruct (Ascii.eqb c "}"); simpl; [lia|done].
  - intros depth value Hf. cbn [decodeArray].
    destruct (next_token d) as [[tok d1]|] eqn:E1; [|by destruct (more d)].
    apply next_token_shorter in E1. destruct (more d).
    + apply Hitem; [lia..|]. intros. apply IHa. lia.
    + destruct tok; try done. destruct (Ascii.eqb c "]"); simpl; [lia|done].
Qed.

(** More fuel does not change an answer. *)
Lemma decode_fuel_mono fuel fuel' :
  (fuel <= fuel')%nat →
  (∀ d nodes tok depth r, decodeToken limits fuel d nodes tok depth = Some r →
     decodeToken limits fuel' d nodes tok depth = Some r)
  ∧ (∀ d nodes depth value r, decodeObject limits fuel d nodes depth value = Some r →
     decodeObject limits fuel' d nodes depth value = Some r)
  ∧ (∀ d nodes depth value r, decodeArray limits fuel d nodes depth value = Some r →
     decodeArray limits fuel' d nodes depth value = Some r).
Proof.
  revert fuel'. induction fuel as [|fuel IH]; [by repeat split|].
  intros [|fuel'] Hle; [lia|]. destruct (IH fuel' ltac:(lia)) as (IHt & IHo & IHa).
  assert (∀ d nodes tok depth k k' r,
    (∀ item d3 nodes' r, k item d3 nodes' = Some r → k' item d3 nodes' = Some r) →
    (match decodeToken limits fuel d nodes tok depth with
     | Some (Ok (item, d3, nodes')) => k item d3 nodes' | r => r end) = Some r →
    (match decodeToken limits fuel' d nodes tok depth with
     | Some (Ok (item, d3, nodes')) => k' item d3 nodes' | r => r end) = Some r) as Hitem.
  { intros d nodes tok depth k k' r Hk H.
    destruct (decodeToken limits fuel d nodes tok depth) as [x|] eqn:E; [|done].
    rewrite (IHt _ _ _ _ _ E). destruct x as [[[item d3] nodes']|]; auto. }
  repeat split; intros d nodes.
  - intros tok depth r. cbn [decodeToken]. destruct (_ <? _); [done|].
    destruct tok; try done. destruct (_ <? _); [done|].
    destruct (Ascii.eqb c "{"); [apply IHo|]. destruct (Ascii.eqb c "["); [apply IHa|done].
  - intros depth value r. cbn [decodeObject]. destruct (more d); [|done].
    destruct (next_token d) as [[tok d1]|]; [|done]. destruct tok; try done.
    destruct (has_key _ _); [done|]. destruct (next_token d1) as [[itok d2]|]; [|done].
    apply Hitem. auto.
  - intros depth value r. cbn [decodeArray]. destruct (more d); [|done].
    destruct (next_token d) as [[tok d1]|]; [|done]. apply Hitem. auto.
Qed.
End DecodeTotal.

(** The strict decoder always answers: the fuel never runs out. *)
Lemma Decode_total raw limits : ∃ r, Decode raw limits = Some r.
Proof.
  unfold Decode. destruct (_ || _); [eauto|]. destruct (_ <? _); [eauto|].
  destruct (negb _); [eauto|]. destruct (next_token (new_decoder raw)) as [[tok d]|] eqn:E; [|eauto].
  apply next_token_shorter in E. unfold remaining in E. simpl in E.
  destruct (decode_finishes limits (decode_fuel raw)) as (H & _ & _).
  specialize (H d 0 tok 0 ltac:(unfold remaining, decode_fuel; lia)).
  destruct (decodeToken _ _ _ _ _ _) as [[[[v d'] n]|e]|]; [|eauto|done].
  destruct (at_eof d'); eauto.
Qed.

(** ** Round trip with the encoder *)

Fixpoint nodes_of (j : json) : Z :=
  match j with
  | JArr l => 1 + foldr (λ x n, nodes_of x + n) 0 l
  | JObj l => 1 + foldr (λ p n, nodes_of p.2 + n) 0 l
  | _ => 1
  end.

Fixpoint depth_of (j : json) : Z :=
  match j with
  | JArr l => 1 + foldr (λ x n, Z.max (depth_of x) n) 0 l
  | JObj l => 1 + foldr (λ p n, Z.max (depth_of p.2) n) 0 l
  | _ => 0
  end.

(** Every number is a valid lexeme within the exponent limit. *)
Fixpoint numbers_ok (j : json) : bool :=
  match j with
  | JNum lex => let '(w, v) := jsonNumberWithinExponentLimit lex in w && v
  | JArr l => forallb numbers_ok l
  | JObj l => forallb (λ p, numbers_ok p.2) l
  | _ => true
  end.

Lemma nodes_of_pos j : 1 <= nodes_of j.
Proof.
  induction j as [| | | |l IH|l IH] using json_nested_ind; simpl; try lia.
  - assert (0 <= foldr (λ x n, nodes_of x + n) 0 l); [|lia].
    induction IH; simpl; lia.
  - assert (0 <= foldr (λ p n, nodes_of p.2 + n) 0 l); [|lia].
    induction IH; simpl; lia.
Qed.

Lemma next_token_close c s st stk st' :
  (c = "]"%char ∧ (st = ArrayStart ∨ st = ArrayComma))
  ∨ (c = "}"%char ∧ (st = ObjectStart ∨ st = ObjectComma)) →
  next_token (mk_decoder (String c s) st (st' :: stk))
    = Some (TDelim c, mk_decoder s (value_end st') stk)
  ∧ more (mk_decoder (String c s) st (st' :: stk)) = false.
Proof. intros [[-> [-> | ->]]|[-> [-> | ->]]]; done. Qed.

Lemma depth_of_nonneg j : 0 <= depth_of j.
Proof.
  destruct j as [| | | |l|l]; simpl; try lia.
  - assert (0 <= foldr (λ x n, Z.max (depth_of x) n) 0 l); [induction l; simpl; lia|lia].
  - assert (0 <= foldr (λ p n, Z.max (depth_of p.2) n) 0 l); [induction l; simpl; lia|lia].
Qed.

Section RoundTrip.
Variable limits : DecodeLimits.

(** Reading [j] back from any position that admits a value. *)
Definition reads (j : json) : Prop :=
  ∀ rest st stk nodes depth,
    token_value_allowed st = true → number_stop rest = true →
    depth + depth_of j <= MaxDepth limits → nodes + nodes_of j <= MaxNodes limits →
    ∃ fuel, decodeToken limits fuel (after_first j rest st stk) nodes (first_token j) depth
      = Some (Ok (j, mk_decoder rest (value_end st) stk, nodes + nodes_of j)).

Lemma decodeToken_mono fuel fuel' d nodes tok depth r :
  decodeToken limits fuel d nodes tok depth = Some r → (fuel <= fuel')%nat →
  decodeToken limits fuel' d nodes tok depth = Some r.
Proof. intros H Hle. by apply (decode_fuel_mono limits fuel fuel' Hle). Qed.
Lemma decodeArray_mono fuel fuel' d nodes depth value r :
  decodeArray limits fuel d nodes depth value = Some r → (fuel <= fuel')%nat →
  decodeArray limits fuel' d nodes depth value = Some r.
Proof. intros H Hle. by apply (decode_fuel_mono limits fuel fuel' Hle). Qed.
Lemma decodeObject_mono fuel fuel' d nodes depth value r :
  decodeObject limits fuel d nodes depth value = Some r → (fuel <= fuel')%nat →
  decodeObject limits fuel' d nodes depth value = Some r.
Proof. intros H Hle. by apply (decode_fuel_mono limits fuel fuel' Hle). Qed.

Definition array_nodes (l : list json) : Z := foldr (λ x n, nodes_of x + n) 0 l.
Definition array_depth (l : list json) : Z := foldr (λ x n, Z.max (depth_of x) n) 0 l.
Definition object_nodes (l : list (string * json)) : Z := foldr (λ p n, nodes_of p.2 + n) 0 l.
Definition object_depth (l : list (string * json)) : Z := foldr (λ p n, Z.max (depth_of p.2) n) 0 l.

Lemma array_nodes_cons x l : array_nodes (x :: l) = nodes_of x + array_nodes l.
Proof. done. Qed.
Lemma array_depth_cons x l : array_depth (x :: l) = Z.max (depth_of x) (array_depth l).
Proof. done. Qed.
Lemma object_nodes_cons p l : object_nodes (p :: l) = nodes_of p.2 + object_nodes l.
Proof. done. Qed.
Lemma object_depth_cons p l : object_depth (p :: l) = Z.max (depth_of p.2) (object_depth l).
Proof. done. Qed.
Lemma array_nodes_pos l : 0 <= array_nodes l.
Proof. induction l as [|x l IH]; simpl; [lia|]. pose proof (nodes_of_pos x). lia. Qed.
Lemma object_nodes_pos l : 0 <= object_nodes l.
Proof. induction l as [|x l IH]; simpl; [lia|]. pose proof (nodes_of_pos x.2). lia. Qed.
Lemma array_tail_stop l rest : number_stop (elements_tail l +:+ "]" +:+ rest) = true.
Proof. by destruct l. Qed.
Lemma object_tail_stop l rest : number_stop (members_tail l +:+ "}" +:+ rest) = true.
Proof. by destruct l. Qed.

Lemma array_depth_nonneg l : 0 <= array_depth l.
Proof. induction l; simpl; lia. Qed.
Lemma object_depth_nonneg l : 0 <= object_depth l.
Proof. induction l; simpl; lia. Qed.
Lemma array_nodes_app l k : array_nodes (l ++ k) = array_nodes l + array_nodes k.
Proof. induction l as [|x l IH]; [done|]. cbn [app]. rewrite !array_nodes_cons, IH. lia. Qed.
Lemma object_nodes_app l k : object_nodes (l ++ k) = object_nodes l + object_nodes k.
Proof. induction l as [|x l IH]; [done|]. cbn [app]. rewrite !object_nodes_cons, IH. lia. Qed.
Lemma array_depth_app l k : array_depth (l ++ k) = Z.max (array_depth l) (array_depth k).
Proof.
  induction l as [|x l IH]; cbn [app]; [|rewrite !array_depth_cons, IH; lia].
  pose proof (array_depth_nonneg k). cbn [array_depth foldr]. lia.
Qed.
Lemma object_depth_app l k : object_depth (l ++ k) = Z.max (object_depth l) (object_depth k).
Proof.
  induction l as [|x l IH]; cbn [app]; [|rewrite !object_depth_cons, IH; lia].
  pose proof (object_depth_nonneg k). cbn [object_depth foldr]. lia.
Qed.
Lemma NoDup_no_key (acc : list (string * json)) p l :
  NoDup (acc ++ p :: l).*1 → has_key p.1 acc = false.
Proof.
  rewrite fmap_app, fmap_cons. intros (_ & H & _)%NoDup_app.
  unfold has_key. destruct (assoc p.1 acc) as [v|] eqn:E; [|done].
  apply assoc_In in E. exfalso. apply (H p.1); [|left].
  apply list_elem_of_fmap. eexists; split; [|exact E]. done.
Qed.

(** One element of an array, at its first byte or after a comma. *)
Lemma array_step x text (first : bool) st' stk acc nodes depth f2 r :
  reads x → canonical x = true → number_stop text = true →
  depth + depth_of x <= MaxDepth limits → nodes + nodes_of x <= MaxNodes limits →
  decodeArray limits f2 (mk_decoder text ArrayComma (st' :: stk)) (nodes + nodes_of x) depth (acc ++ [x]) = Some r →
  ∃ fuel, decodeArray limits fuel
    (mk_decoder ((if first then "" else ",") +:+ encode x +:+ text)
       (if first then ArrayStart else ArrayComma) (st' :: stk)) nodes depth acc = Some r.
Proof.
  intros Hx Hc Hstop Hd Hn Hr. destruct first.
  - destruct (Hx text ArrayStart (st' :: stk) nodes depth) as [f1 H1]; [done..|].
    exists (S (f1 + f2)). cbn [decodeArray]. rewrite app_string_nil_l.
    rewrite more_opens by (apply opens_value_app, encode_opens; done).
    unfold next_token. rewrite token_first by done.
    rewrite (decodeToken_mono _ (f1 + f2) _ _ _ _ _ H1) by lia.
    by apply (decodeArray_mono f2); [|lia].
  - destruct (Hx text ArrayValue (st' :: stk) nodes depth) as [f1 H1]; [done..|].
    exists (S (f1 + f2)). cbn [decodeArray].
    change (more (mk_decoder ("," +:+ encode x +:+ text) ArrayComma (st' :: stk))) with true.
    unfold next_token. rewrite token_comma, token_first by done.
    rewrite (decodeToken_mono _ (f1 + f2) _ _ _ _ _ H1) by lia.
    by apply (decodeArray_mono f2); [|lia].
Qed.

Lemma array_tail l rest st' stk acc nodes depth :
  Forall reads l → forallb canonical l = true →
  depth + array_depth l <= MaxDepth limits → nodes + array_nodes l <= MaxNodes limits →
  ∃ fuel, decodeArray limits fuel (mk_decoder (elements_tail l +:+ "]" +:+ rest) ArrayComma (st' :: stk))
    nodes depth acc
    = Some (Ok (JArr (acc ++ l), mk_decoder rest (value_end st') stk, nodes + array_nodes l)).
Proof.
  intros Hl. revert acc nodes. induction Hl as [|x l Hx Hl IH]; intros acc nodes Hc Hd Hn.
  - exists 1%nat. rewrite app_nil_r. simpl in *. by rewrite Z.add_0_r.
  - simpl in Hc, Hd, Hn. apply andb_prop in Hc as [Hcx Hc].
    pose proof (array_nodes_pos l).
    destruct (IH (acc ++ [x]) (nodes + nodes_of x)) as [f Hf]; [done|lia|lia|].
    rewrite <- app_assoc, <- Z.add_assoc in Hf.
    destruct (array_step x _ false st' stk acc nodes depth f _ Hx Hcx (array_tail_stop l rest) ltac:(lia) ltac:(lia) Hf)
      as [f' Hf'].
    exists f'. unfold elements_tail in *. cbn [List.map string_concat].
    by rewrite !app_string_assoc in *.
Qed.

(** One member of an object, at its first byte or after a comma. *)
Lemma object_step p text (first : bool) st' stk acc nodes depth f2 r :
  reads p.2 → utf8_valid p.1 = true → canonical p.2 = true → number_stop text = true →
  has_key p.1 acc = false →
  depth + depth_of p.2 <= MaxDepth limits → nodes + nodes_of p.2 <= MaxNodes limits →
  decodeObject limits f2 (mk_decoder text ObjectComma (st' :: stk)) (nodes + nodes_of p.2) depth (acc ++ [p]) = Some r →
  ∃ fuel, decodeObject limits fuel
    (mk_decoder ((if first then "" else ",") +:+ member_text p +:+ text)
       (if first then ObjectStart else ObjectComma) (st' :: stk)) nodes depth acc = Some r.
Proof.
  intros Hp Hu Hc Hstop Hk Hd Hn Hr. destruct p as [k v]. cbn [fst snd] in *.
  destruct (Hp text ObjectValue (st' :: stk) nodes depth) as [f1 H1]; [done..|].
  exists (S (f1 + f2)). cbn [decodeObject]. unfold member_text. cbn [fst snd].
  assert (next_token (mk_decoder ((if first then "" else ",") +:+ (encode_string k +:+ ":" +:+ encode v) +:+ text)
       (if first then ObjectStart else ObjectComma) (st' :: stk))
    = Some (TStr k, mk_decoder (":" +:+ encode v +:+ text) ObjectColon (st' :: stk))) as Hkey.
  { rewrite !app_string_assoc. unfold next_token. destruct first.
    - rewrite app_string_nil_l. apply token_key; auto.
    - rewrite token_comma_key. apply token_key; auto. }
  rewrite Hkey, Hk.
  assert (more (mk_decoder ((if first then "" else ",") +:+ (encode_string k +:+ ":" +:+ encode v) +:+ text)
       (if first then ObjectStart else ObjectComma) (st' :: stk)) = true) as -> by by destruct first.
  unfold next_token. rewrite token_colon, token_first by done.
  rewrite (decodeToken_mono _ (f1 + f2) _ _ _ _ _ H1) by lia.
  by apply (decodeObject_mono f2); [|lia].
Qed.

Lemma object_tail l rest st' stk acc nodes depth :
  Forall (λ p, reads p.2) l → forallb (λ p, utf8_valid p.1 && canonical p.2) l = true →
  NoDup (acc ++ l).*1 →
  depth + object_depth l <= MaxDepth limits → nodes + object_nodes l <= MaxNodes limits →
  ∃ fuel, decodeObject limits fuel (mk_decoder (members_tail l +:+ "}" +:+ rest) ObjectComma (st' :: stk))
    nodes depth acc
    = Some (Ok (JObj (acc ++ l), mk_decoder rest (value_end st') stk, nodes + object_nodes l)).
Proof.
  intros Hl. revert acc nodes. induction Hl as [|p l Hx Hl IH]; intros acc nodes Hc Hdup Hd Hn.
  - exists 1%nat. rewrite app_nil_r. simpl in *. by rewrite Z.add_0_r.
  - simpl in Hc, Hd, Hn. apply andb_prop in Hc as [Hcx Hc]. apply andb_prop in Hcx as [Hu Hcx].
    pose proof (object_nodes_pos l).
    destruct (IH (acc ++ [p]) (nodes + nodes_of p.2)) as [f Hf]; [done|by rewrite <- app_assoc|lia|lia|].
    rewrite <- app_assoc, <- Z.add_assoc in Hf.
    destruct (object_step p _ false st' stk acc nodes depth f _ Hx Hu Hcx (object_tail_stop l rest)
      (NoDup_no_key _ _ _ Hdup) ltac:(lia) ltac:(lia) Hf) as [f' Hf'].
    exists f'. unfold members_tail in *. cbn [List.map string_concat].
    by rewrite !app_string_assoc in *.
Qed.

(** A whole array, and a whole object, after the opening delimiter. *)
Lemma array_body l rest st stk nodes depth :
  Forall reads l → forallb canonical l = true →
  depth + array_depth l <= MaxDepth limits → nodes + array_nodes l <= MaxNodes limits →
  ∃ f, decodeArray limits f (mk_decoder (elements_text l +:+ "]" +:+ rest) ArrayStart (st :: stk)) nodes depth []
    = Some (Ok (JArr l, mk_decoder rest (value_end st) stk, nodes + array_nodes l)).
Proof.
  intros Hl Hc Hd Hn. destruct Hl as [|x l Hx Hl]; [exists 1%nat; simpl; by rewrite Z.add_0_r|].
  cbn [forallb] in Hc. rewrite array_depth_cons in Hd. rewrite array_nodes_cons in Hn |- *.
  apply andb_prop in Hc as [Hcx Hc]. pose proof (array_nodes_pos l).
  destruct (array_tail l rest st stk [x] (nodes + nodes_of x) depth) as [f Hf]; [done|done|lia|lia|].
  destruct (array_step x _ true st stk [] nodes depth f _ Hx Hcx (array_tail_stop l rest) ltac:(lia) ltac:(lia) Hf)
    as [f' Hf'].
  exists f'. rewrite elements_text_cons, app_string_assoc. rewrite app_string_nil_l in Hf'.
  by rewrite Hf', <- !Z.add_assoc.
Qed.

Lemma object_body l rest st stk nodes depth :
  Forall (λ p, reads p.2) l → forallb (λ p, utf8_valid p.1 && canonical p.2) l = true → NoDup l.*1 →
  depth + object_depth l <= MaxDepth limits → nodes + object_nodes l <= MaxNodes limits →
  ∃ f, decodeObject limits f (mk_decoder (members_text l +:+ "}" +:+ rest) ObjectStart (st :: stk)) nodes depth []
    = Some (Ok (JObj l, mk_decoder rest (value_end st) stk, nodes + object_nodes l)).
Proof.
  intros Hl Hc Hdup Hd Hn. destruct Hl as [|x l Hx Hl]; [exists 1%nat; simpl; by rewrite Z.add_0_r|].
  cbn [forallb] in Hc. rewrite object_depth_cons in Hd. rewrite object_nodes_cons in Hn |- *.
  apply andb_prop in Hc as [Hcx Hc]. apply andb_prop in Hcx as [Hu Hcx]. pose proof (object_nodes_pos l).
  destruct (object_tail l rest st stk [x] (nodes + nodes_of x.2) depth) as [f Hf]; [done|done|done|lia|lia|].
  destruct (object_step x _ true st stk [] nodes depth f _ Hx Hu Hcx (object_tail_stop l rest) eq_refl ltac:(lia) ltac:(lia) Hf)
    as [f' Hf'].
  exists f'. rewrite members_text_cons, app_string_assoc. rewrite app_string_nil_l in Hf'.
  by rewrite Hf', <- !Z.add_assoc.
Qed.

Lemma decode_reads j : canonical j = true → numbers_ok j = true → reads j.
Proof.
  induction j as [|b|lex|s|l IH|l IH] using json_nested_ind; intros Hc Hnum rest st stk nodes depth Hst Hstop Hd Hn.
  1,2,4: (exists 1%nat; cbn [decodeToken first_token after_first]; simpl in Hn;
    by rewrite (proj2 (Z.ltb_ge _ _) Hn)).
  - exists 1%nat. cbn [decodeToken first_token after_first]. simpl in Hn, Hnum.
    rewrite (proj2 (Z.ltb_ge _ _) Hn). destruct (jsonNumberWithinExponentLimit lex) as [w v].
    by destruct w, v.
  - simpl in Hc, Hnum, Hd, Hn. fold (array_depth l) in Hd. fold (array_nodes l) in Hn.
    rewrite forallb_forall in Hnum. pose proof (array_nodes_pos l). pose proof (array_depth_nonneg l).
    destruct (array_body l rest st stk (nodes + 1) (depth + 1)) as [f Hf]; [|done|lia|lia|].
    { rewrite forallb_forall in Hc. rewrite Forall_forall in IH |- *.
      intros x Hx. pose proof Hx as Hx'. apply list_elem_of_In in Hx'. auto. }
    exists (S f). cbn [decodeToken first_token after_first].
    rewrite !(proj2 (Z.ltb_ge _ _)) by lia. rewrite <- Z.add_assoc in Hf. exact Hf.
  - simpl in Hc, Hnum, Hd, Hn. fold (object_depth l) in Hd. fold (object_nodes l) in Hn.
    rewrite forallb_forall in Hnum. pose proof (object_nodes_pos l). pose proof (object_depth_nonneg l).
    apply andb_prop in Hc as [Hs%keys_sorted_NoDup Hc].
    destruct (object_body l rest st stk (nodes + 1) (depth + 1)) as [f Hf]; [|done|done|lia|lia|].
    { rewrite forallb_forall in Hc. rewrite Forall_forall in IH |- *.
      intros x Hx. pose proof Hx as Hx'. apply list_elem_of_In in Hx'.
      specialize (Hc x Hx'). apply andb_prop in Hc as [_ Hc]. auto. }
    exists (S f). cbn [decodeToken first_token after_first].
    rewrite !(proj2 (Z.ltb_ge _ _)) by lia. rewrite <- Z.add_assoc in Hf. exact Hf.
Qed.
End RoundTrip.

Definition limits_positive (limits : DecodeLimits) : bool :=
  (0 <? MaxBytes limits) && (0 <? MaxDepth limits) && (0 <? MaxNodes limits).

Lemma limits_positive_spec limits :
  limits_positive limits = true →
  ((MaxBytes limits <=? 0) || (MaxDepth limits <=? 0) || (MaxNodes limits <=? 0)) = false.
Proof. unfold limits_positive. intros H. to_prop. by rewrite !orb_false_iff, !Z.leb_gt. Qed.

Lemma decode_encode j limits :
  limits_positive limits = true → canonical j = true → numbers_ok j = true →
  zlen (encode j) <= MaxBytes limits → depth_of j <= MaxDepth limits → nodes_of j <= MaxNodes limits →
  Decode (encode j) limits = Some (Ok j).
Proof.
  intros Hl Hc Hnum Hb Hd Hn. unfold Decode. rewrite limits_positive_spec by done.
  rewrite (proj2 (Z.ltb_ge _ _) Hb), encode_utf8 by done. cbn [negb].
  pose proof (token_first j "" TopValue [] 1 Hc eq_refl eq_refl) as Ht.
  rewrite app_string_nil_r in Ht. unfold new_decoder, next_token. rewrite Ht.
  destruct (decode_reads limits j Hc Hnum "" TopValue [] 0 0 eq_refl eq_refl ltac:(lia) ltac:(lia)) as [f Hf].
  apply next_token_shorter in Ht. unfold remaining in Ht. cbn [d_input] in Ht.
  destruct (decode_finishes limits (decode_fuel (encode j))) as (Hfin & _ & _).
  specialize (Hfin (after_first j "" TopValue []) 0 (first_token j) 0
    ltac:(unfold remaining, decode_fuel; lia)).
  destruct (decodeToken limits (decode_fuel (encode j)) _ _ _ _) as [r|] eqn:E; [|done].
  apply (decodeToken_mono _ _ (f + decode_fuel (encode j))) in E; [|lia].
  apply (decodeToken_mono _ _ (f + decode_fuel (encode j))) in Hf; [|lia].
  rewrite Hf in E. by injection E as <-.
Qed.

(** ** What an accepted document satisfies *)

Fixpoint distinct_keys (j : json) : bool :=
  match j with
  | JArr l => forallb distinct_keys l
  | JObj l => bool_decide (NoDup l.*1) && forallb (λ p, distinct_keys p.2) l
  | _ => true
  end.

Section DecodeSound.
Variable limits : DecodeLimits.

(** [j] was read at [depth] with the counter going from [nodes] to [nodes']. *)
Definition within (depth nodes nodes' : Z) (j : json) : Prop :=
  depth + depth_of j <= MaxDepth limits ∧ nodes' = nodes + nodes_of j
  ∧ nodes' <= MaxNodes limits ∧ numbers_ok j = true ∧ distinct_keys j = true.

(** The part of a container read so far. *)
Definition within_array (depth nodes0 nodes : Z) (l : list json) : Prop :=
  depth + array_depth l <= MaxDepth limits ∧ nodes = nodes0 + 1 + array_nodes l
  ∧ nodes <= MaxNodes limits ∧ forallb numbers_ok l = true ∧ forallb distinct_keys l = true.
Definition within_object (depth nodes0 nodes : Z) (l : list (string * json)) : Prop :=
  depth + object_depth l <= MaxDepth limits ∧ nodes = nodes0 + 1 + object_nodes l
  ∧ nodes <= MaxNodes limits ∧ forallb (λ p, numbers_ok p.2) l = true
  ∧ forallb (λ p, distinct_keys p.2) l = true ∧ NoDup l.*1.

Lemma within_array_snoc depth n0 n n' l x :
  within_array depth n0 n l → within depth n n' x → within_array depth n0 n' (l ++ [x]).
Proof.
  intros (H1 & -> & H3 & H4 & H5) (G1 & -> & G3 & G4 & G5). unfold within_array.
  rewrite !forallb_app, array_depth_app, array_nodes_app. cbn [forallb]. rewrite H4, H5, G4, G5.
  pose proof (array_depth_nonneg l). cbn [array_depth array_nodes foldr]. split_and!; try lia; done.
Qed.

Lemma within_object_snoc depth n0 n n' l k x :
  within_object depth n0 n l → has_key k l = false → within depth n n' x →
  within_object depth n0 n' (l ++ [(k, x)]).
Proof.
  intros (H1 & -> & H3 & H4 & H5 & H6) Hk (G1 & -> & G3 & G4 & G5). unfold within_object.
  rewrite !forallb_app, object_depth_app, object_nodes_app, fmap_app. cbn [forallb fst snd]. rewrite H4, H5, G4, G5.
  pose proof (object_depth_nonneg l). cbn [object_depth object_nodes foldr fst snd]. split_and!; try lia; try done.
  apply NoDup_app. repeat split; [done| |apply NoDup_singleton].
  intros y Hy ->%list_elem_of_singleton. unfold has_key in Hk.
  destruct (assoc k l) eqn:E; [done|]. by apply assoc_None_iff in E.
Qed.

Lemma decode_sound fuel :
  (∀ d nodes tok depth j d' nodes', depth <= MaxDepth limits →
     decodeToken limits fuel d nodes tok depth = Some (Ok (j, d', nodes')) → within depth nodes nodes' j)
  ∧ (∀ d n0 nodes depth value j d' nodes', within_object depth n0 nodes value →
     decodeObject limits fuel d nodes depth value = Some (Ok (j, d', nodes')) → within (depth - 1) n0 nodes' j)
  ∧ (∀ d n0 nodes depth value j d' nodes', within_array depth n0 nodes value →
     decodeArray limits fuel d nodes depth value = Some (Ok (j, d', nodes')) → within (depth - 1) n0 nodes' j).
Proof.
  induction fuel as [|fuel (IHt & IHo & IHa)]; [done|]. split; [|split].
  - intros d nodes tok depth j d' nodes' Hd. cbn [decodeToken].
    destruct (Z.ltb_spec (MaxNodes limits) (nodes + 1)) as [|Hn]; [done|].
    destruct tok as [c| | | |lex].
    + destruct (Z.ltb_spec (MaxDepth limits) (depth + 1)) as [|Hd1]; [done|].
      assert (within depth = within (depth + 1 - 1)) as -> by (f_equal; lia).
      destruct (Ascii.eqb c "{"); [|destruct (Ascii.eqb c "["); [|done]].
      * apply IHo. split_and!; simpl; try lia; try done. constructor.
      * apply IHa. split_and!; simpl; try lia; done.
    + intros [= <- <- <-]. split_and!; simpl; try lia; done.
    + intros [= <- <- <-]. split_and!; simpl; try lia; done.
    + intros [= <- <- <-]. split_and!; simpl; try lia; done.
    + destruct (jsonNumberWithinExponentLimit lex) as [[] []] eqn:E; try done.
      intros [= <- <- <-]. split_and!; simpl; try lia; try done. by rewrite E.
  - intros d n0 nodes depth value j d' nodes' Hv. cbn [decodeObject]. destruct (more d).
    + destruct (next_token d) as [[[| | |key|] d1]|]; try done.
      destruct (has_key key value) eqn:Hk; [done|]. destruct (next_token d1) as [[itok d2]|]; [|done].
      destruct (decodeToken limits fuel d2 nodes itok depth) as [[[[item d3] n3]|]|] eqn:E; try done.
      apply IHt in E; [|destruct Hv; pose proof (object_depth_nonneg value); lia].
      apply IHo. by eapply within_object_snoc.
    + destruct (next_token d) as [[[c| | | |] d1]|]; try done. destruct (Ascii.eqb c "}"); [|done].
      intros [= <- <- <-]. destruct Hv as (H1 & -> & H3 & H4 & H5 & H6).
      split_and!; simpl; fold (object_depth value) (object_nodes value); try lia; try done.
      by rewrite bool_decide_true.
  - intros d n0 nodes depth value j d' nodes' Hv. cbn [decodeArray]. destruct (more d).
    + destruct (next_token d) as [[itok d1]|]; [|done].
      destruct (decodeToken limits fuel d1 nodes itok depth) as [[[[item d3] n3]|]|] eqn:E; try done.
      apply IHt in E; [|destruct Hv; pose proof (array_depth_nonneg value); lia].
      apply IHa. by eapply within_array_snoc.
    + destruct (next_token d) as [[[c| | | |] d1]|]; try done. destruct (Ascii.eqb c "]"); [|done].
      intros [= <- <- <-]. destruct Hv as (H1 & -> & H3 & H4 & H5).
      split_and!; simpl; fold (array_depth value) (array_nodes value); try lia; done.
Qed.
End DecodeSound.

Lemma Decode_within raw limits j :
  Decode raw limits = Some (Ok j) →
  limits_positive limits = true ∧ zlen raw <= MaxBytes limits ∧ utf8_valid raw = true
  ∧ depth_of j <= MaxDepth limits ∧ nodes_of j <= MaxNodes limits
  ∧ numbers_ok j = true ∧ distinct_keys j = true.
Proof.
  unfold Decode, limits_positive.
  destruct (Z.leb_spec (MaxBytes limits) 0) as [|Hb]; [done|].
  destruct (Z.leb_spec (MaxDepth limits) 0) as [|Hd]; [done|].
  destruct (Z.leb_spec (MaxNodes limits) 0) as [|Hn]; [done|]. cbn [orb].
  destruct (Z.ltb_spec (MaxBytes limits) (zlen raw)); [done|].
  destruct (utf8_valid raw); [|done]. cbn [negb].
  destruct (next_token (new_decoder raw)) as [[tok d]|]; [|done].
  destruct (decodeToken _ _ _ _ _ _) as [[[[v d'] n]|]|] eqn:E; [|done..].
  destruct (at_eof d'); [|done]. intros [= <-].
  apply decode_sound in E as (H1 & H2 & H3 & H4 & H5); [|lia].
  rewrite !(proj2 (Z.ltb_lt _ _)) by lia. split_and!; try done; lia.
Qed.

(** ** Wider limits change no answer *)

Section Relax.
Variables narrow wide : DecodeLimits.
Hypothesis Hdepth : MaxDepth narrow <= MaxDepth wide.
Hypothesis Hnodes : MaxNodes narrow <= MaxNodes wide.

Lemma decode_relax fuel :
  (∀ d nodes tok depth r, decodeToken narrow fuel d nodes tok depth = Some (Ok r) →
     decodeToken wide fuel d nodes tok depth = Some (Ok r))
  ∧ (∀ d nodes depth value r, decodeObject narrow fuel d nodes depth value = Some (Ok r) →
     decodeObject wide fuel d nodes depth value = Some (Ok r))
  ∧ (∀ d nodes depth value r, decodeArray narrow fuel d nodes depth value = Some (Ok r) →
     decodeArray wide fuel d nodes depth value = Some (Ok r)).
Proof.
  induction fuel as [|fuel (IHt & IHo & IHa)]; [done|]. split_and!.
  - intros d nodes tok depth r. cbn [decodeToken]. destruct (Z.ltb_spec (MaxNodes narrow) (nodes + 1)); [done|].
    rewrite (proj2 (Z.ltb_ge (MaxNodes wide) _)) by lia. destruct tok as [c| | | |lex]; try done.
    destruct (Z.ltb_spec (MaxDepth narrow) (depth + 1)); [done|].
    rewrite (proj2 (Z.ltb_ge (MaxDepth wide) _)) by lia.
    destruct (Ascii.eqb c "{"); [apply IHo|]. destruct (Ascii.eqb c "["); [apply IHa|done].
  - intros d nodes depth value r. cbn [decodeObject]. destruct (more d); [|done].
    destruct (next_token d) as [[[| | |key|] d1]|]; try done. destruct (has_key key value); [done|].
    destruct (next_token d1) as [[itok d2]|]; [|done].
    destruct (decodeToken narrow fuel d2 nodes itok depth) as [[[[item d3] n3]|]|] eqn:E; try done.
    rewrite (IHt _ _ _ _ _ E). apply IHo.
  - intros d nodes depth value r. cbn [decodeArray]. destruct (more d); [|done].
    destruct (next_token d) as [[itok d1]|]; [|done].
    destruct (decodeToken narrow fuel d1 nodes itok depth) as [[[[item d2] n2]|]|] eqn:E; try done.
    rewrite (IHt _ _ _ _ _ E). apply IHa.
Qed.
End Relax.

Lemma Decode_relax raw narrow wide j :
  MaxBytes narrow <= MaxBytes wide → MaxDepth narrow <= MaxDepth wide → MaxNodes narrow <= MaxNodes wide →
  Decode raw narrow = Some (Ok j) → Decode raw wide = Some (Ok j).
Proof.
  intros Hb Hd Hn H. pose proof (Decode_within _ _ _ H) as (Hpos & Hsize & _ & _ & _ & _ & _).
  assert (limits_positive wide = true) as Hwide.
  { unfold limits_positive in *. to_prop. rewrite !andb_true_iff, !Z.ltb_lt. lia. }
  unfold Decode in *. rewrite limits_positive_spec in H by exact Hpos. rewrite limits_positive_spec by exact Hwide.
  rewrite (proj2 (Z.ltb_ge _ _) Hsize) in H. rewrite (proj2 (Z.ltb_ge (MaxBytes wide) _)) by lia.
  destruct (negb (utf8_valid raw)); [done|].
  destruct (next_token (new_decoder raw)) as [[tok d]|]; [|done].
  destruct (decodeToken narrow _ _ _ _ _) as [[r|]|] eqn:E; try done.
  by rewrite (proj1 (decode_relax narrow wide Hd Hn _) _ _ _ _ _ E).
Qed.

(** What the decoder reads from a written canonical document, and when. *)
Lemma Decode_written j limits j' :
  canonical j = true → numbers_ok j = true →
  Decode (encode j) limits = Some (Ok j') ↔
  limits_positive limits = true ∧ zlen (encode j) <= MaxBytes limits ∧ depth_of j <= MaxDepth limits
  ∧ nodes_of j <= MaxNodes limits ∧ j' = j.
Proof.
  intros Hc Hn. split; [|intros (? & ? & ? & ? & ->); by apply decode_encode]. intros H.
  pose proof (Decode_within _ _ _ H) as (Hpos & Hb & _ & Hd & Hno & _ & _).
  set (wide := {| MaxBytes := MaxBytes limits; MaxDepth := Z.max (MaxDepth limits) (depth_of j);
                  MaxNodes := Z.max (MaxNodes limits) (nodes_of j) |}).
  assert (Decode (encode j) wide = Some (Ok j')) as Hw.
  { apply (Decode_relax _ limits wide); [cbn; lia..|done]. }
  assert (limits_positive wide = true) as Hwp.
  { unfold limits_positive in *. to_prop. cbn. rewrite !andb_true_iff, !Z.ltb_lt. lia. }
  rewrite decode_encode in Hw by (done || (cbn; lia)). injection Hw as <-. by split_and!.
Qed.

(** ** Properties *)

(** Round trip: every canonical document within the limits (valid UTF-8 strings,
    complete numbers within the exponent limit, sorted distinct keys) is read back
    by the strict decoder exactly as it was encoded. *)
Theorem structured_decode_roundtrip j limits :
  limits_positive limits = true → canonical j = true → numbers_ok j = true →
  zlen (encode j) <= MaxBytes limits → depth_of j <= MaxDepth limits → nodes_of j <= MaxNodes limits →
  Decode (encode j) limits = Some (Ok j).
Proof. apply decode_encode. Qed.

Lemma structured_decode_roundtrip_witness :
  Decode (encode (JObj [("a", JArr [JNum "1e3"; JNull]); ("b", JStr "x")])) DefaultInstanceDecodeLimits
    = Some (Ok (JObj [("a", JArr [JNum "1e3"; JNull]); ("b", JStr "x")])).
Proof.
  apply structured_decode_roundtrip; [reflexivity|reflexivity|reflexivity|vm_compute; discriminate..].
Defined.

(** C8: The strict decoder answers on every input, and what it accepts is bounded by
    the limits: the input's bytes and UTF-8, the nesting depth, the node count, every
    number a valid lexeme within the exponent limit, no repeated key in any object. *)
Theorem structured_decode_bounded raw limits :
  (∃ r, Decode raw limits = Some r)
  ∧ ∀ j, Decode raw limits = Some (Ok j) →
      limits_positive limits = true ∧ zlen raw <= MaxBytes limits ∧ utf8_valid raw = true
      ∧ depth_of j <= MaxDepth limits ∧ nodes_of j <= MaxNodes limits
      ∧ numbers_ok j = true ∧ distinct_keys j = true.
Proof. split; [apply Decode_total|apply Decode_within]. Qed.

Lemma structured_decode_bounded_witness :
  distinct_keys (JObj [("a", JNum "1"); ("b", JNum "2")]) = true.
Proof.
  destruct (structured_decode_bounded (encode (JObj [("a", JNum "1"); ("b", JNum "2")])) DefaultInstanceDecodeLimits)
    as [_ H].
  apply H. vm_compute. reflexivity.
Defined.
