(* ===== verification/JsonUnmarshal.v ===== *)
(** * Reading a JSON document into a Go struct (encoding/json)

    The parsers of this repository read small records with [json.Decoder]:
    one value, unknown fields disallowed, then the end of the input.  This file
    has that reader (every member kept, repeated ones too), the assignment of
    members to struct fields, and the round trip with the encoder. *)

From S2P Require Import Prelude Json StructuredJson.

Local Open Scope Z_scope.

(** ** Assigning members to fields

    A member selects the field with its exact name, else the one with its
    case-folded name; a later member overrides an earlier one; [null] leaves a
    field alone; the first error is kept and decoding goes on. *)

Inductive field_kind := KInt | KUint64 | KString | KBool.

(** encoding/json's [foldName]: every rune to the least rune of its simple case
    folding; outside ASCII only the Kelvin sign and the long s fold into it. *)
Definition fold_rune (r : option string) : string :=
  match r with
  | Some (String c "") => if in_range 97 122 c then String (byte_of (byte_val c - 32)) "" else String c ""
  | Some r =>
      if r =s String (byte_of 226) (String (byte_of 132) (String (byte_of 170) "")) then "K"
      else if r =s String (byte_of 197) (String (byte_of 191) "") then "S"
      else r
  | None => replacement_char
  end.
Definition fold_name (s : string) : string := string_concat (fold_rune <$> runes s).

(** The value a member leaves in a field of its kind, over the old one. *)
Definition set_int (old : Z) (j : json) : Z :=
  match j with JNum s => match parse_int 64 s with Some z => z | None => old end | _ => old end.
Definition set_uint (old : Z) (j : json) : Z :=
  match j with JNum s => match parse_uint 64 s with Some z => z | None => old end | _ => old end.
Definition set_str (old : string) (j : json) : string := match j with JStr s => s | _ => old end.
Definition set_bool (old : bool) (j : json) : bool := match j with JBool b => b | _ => old end.

Definition fits (kind : field_kind) (j : json) : bool :=
  match kind, j with
  | _, JNull => true
  | KInt, JNum s => match parse_int 64 s with Some _ => true | None => false end
  | KUint64, JNum s => match parse_uint 64 s with Some _ => true | None => false end
  | KString, JStr _ => true
  | KBool, JBool _ => true
  | _, _ => false
  end.

Section Struct.
Variable fields : list (string * field_kind).

Definition select_field (key : string) : option (string * field_kind) :=
  match assoc key fields with
  | Some k => Some (key, k)
  | None => List.find (λ p, fold_name p.1 =s fold_name key) fields
  end.

Definition selects (key name : string) : bool :=
  match select_field key with Some (n, _) => n =s name | None => false end.

Definition decode_field {A} (set : A → json → A) (zero : A) (l : list (string * json)) (name : string) : A :=
  foldl (λ acc p, if selects p.1 name then set acc p.2 else acc) zero l.

(** The error a member causes: an unknown field, or a value of another type. *)
Definition member_error (p : string * json) : option string :=
  match select_field p.1 with
  | None => Some ("json: unknown field " +:+ p.1)
  | Some (name, kind) =>
      if fits kind p.2 then None else Some ("json: cannot unmarshal value into Go struct field " +:+ name)
  end.

Fixpoint first_error (l : list (string * json)) : option string :=
  match l with
  | [] => None
  | p :: l' => match member_error p with Some e => Some e | None => first_error l' end
  end.

Lemma selects_exact key name : is_Some (assoc key fields) → selects key name = (key =s name).
Proof. intros [k Hk]. unfold selects, select_field. by rewrite Hk. Qed.

Definition known (l : list (string * json)) : Prop := Forall (λ p : string * json, is_Some (assoc p.1 fields)) l.

Lemma decode_field_absent {A} (set : A → json → A) zero l name :
  known l → name ∉ l.*1 → decode_field set zero l name = zero.
Proof.
  unfold decode_field. intros Hall. revert zero. induction Hall as [|p l Hp Hl IH]; intros zero Hn; [done|].
  cbn [foldl]. rewrite fmap_cons in Hn. apply not_elem_of_cons in Hn as [Hne Hn]. rewrite selects_exact by done.
  rewrite (proj2 (String.eqb_neq _ _)) by congruence. by apply IH.
Qed.

(** Members with distinct exact names fill their fields. *)
Lemma decode_field_assoc {A} (set : A → json → A) zero l name :
  NoDup l.*1 → known l →
  decode_field set zero l name = match assoc name l with Some j => set zero j | None => zero end.
Proof.
  intros Hnd Hall. induction Hall as [|[k j] l Hp Hl IH]; [done|].
  rewrite fmap_cons in Hnd. apply NoDup_cons in Hnd as [Hni Hnd].
  unfold decode_field. cbn [foldl]. rewrite selects_exact by done. cbn [fst snd assoc].
  destruct (String.eqb_spec k name) as [->|Hne]; [by apply decode_field_absent|by apply IH].
Qed.

Lemma first_error_none l :
  Forall (λ p : string * json, ∃ k, assoc p.1 fields = Some k ∧ fits k p.2 = true) l → first_error l = None.
Proof.
  induction 1 as [|p l (k & Hk & Hf) _ IH]; [done|]. cbn [first_error]. unfold member_error, select_field.
  by rewrite Hk, Hf.
Qed.
End Struct.

(** ** Reading one value

    [json.Decoder.Decode] reads a value of at most [maxNestingDepth] levels.
    [None] is a syntax error; the fuel bounds the calls and never runs out
    ([read_fuel]). *)

Definition maxNestingDepth : Z := 10000.

Fixpoint read_value (fuel : nat) (d : decoder) (tok : token) (depth : Z) : option (json * decoder) :=
  match fuel with
  | O => None
  | S n =>
      match tok with
      | TNull => Some (JNull, d)
      | TBool b => Some (JBool b, d)
      | TStr s => Some (JStr s, d)
      | TNum lexeme => Some (JNum lexeme, d)
      | TDelim c =>
          if maxNestingDepth <? depth + 1 then None
          else if Ascii.eqb c "{" then let? (l, d') := read_members n d (depth + 1) in Some (JObj l, d')
          else if Ascii.eqb c "[" then let? (l, d') := read_elements n d (depth + 1) in Some (JArr l, d')
          else None
      end
  end
with read_members (fuel : nat) (d : decoder) (depth : Z) : option (list (string * json) * decoder) :=
  match fuel with
  | O => None
  | S n =>
      if more d then
        match next_token d with
        | Some (TStr key, d1) =>
            let? (tok, d2) := next_token d1 in
            let? (item, d3) := read_value n d2 tok depth in
            let? (l, d4) := read_members n d3 depth in
            Some ((key, item) :: l, d4)
        | _ => None
        end
      else
        match next_token d with
        | Some (TDelim c, d1) => if Ascii.eqb c "}" then Some ([], d1) else None
        | _ => None
        end
  end
with read_elements (fuel : nat) (d : decoder) (depth : Z) : option (list json * decoder) :=
  match fuel with
  | O => None
  | S n =>
      if more d then
        let? (tok, d1) := next_token d in
        let? (item, d2) := read_value n d1 tok depth in
        let? (l, d3) := read_elements n d2 depth in
        Some (item :: l, d3)
      else
        match next_token d with
        | Some (TDelim c, d1) => if Ascii.eqb c "]" then Some ([], d1) else None
        | _ => None
        end
  end.

(** The first value of the input and the reader after it. *)
Definition read_first (raw : string) : option (json * decoder) :=
  let? (tok, d) := next_token (new_decoder raw) in read_value (decode_fuel raw) d tok 0.

(** One value and then [io.EOF]. *)
Definition read_document (raw : string) : option json :=
  let? (j, d) := read_first raw in if at_eof d then Some j else None.

(** A value of a struct: an object's members, [null] leaving it as it is. *)
Definition struct_members (j : json) : option (list (string * json)) :=
  match j with JObj l => Some l | JNull => Some [] | _ => None end.

(** ** The fuel is enough *)

Definition shorter {A} (d : decoder) (o : option (A * decoder)) : Prop :=
  match o with Some (_, d') => (remaining d' <= remaining d)%nat | None => True end.

Lemma read_shorter fuel :
  (∀ d tok depth, shorter d (read_value fuel d tok depth))
  ∧ (∀ d depth, shorter d (read_members fuel d depth))
  ∧ (∀ d depth, shorter d (read_elements fuel d depth)).
Proof.
  induction fuel as [|n (IHv & IHm & IHe)]; [done|]. split_and!; intros d.
  - intros tok depth. cbn [read_value]. destruct tok; try (simpl; lia). destruct (_ <? _); [done|].
    destruct (Ascii.eqb c "{").
    { specialize (IHm d (depth + 1)). by destruct (read_members _ _ _) as [[l d']|]. }
    destruct (Ascii.eqb c "["); [|done].
    specialize (IHe d (depth + 1)). by destruct (read_elements _ _ _) as [[l d']|].
  - intros depth. cbn [read_members]. destruct (next_token d) as [[tok d1]|] eqn:E1; [|by destruct (more d)].
    apply next_token_shorter in E1. destruct (more d).
    + destruct tok as [| | |key|]; try done. destruct (next_token d1) as [[itok d2]|] eqn:E2; [|done].
      apply next_token_shorter in E2. cbn [mbind option_bind]. specialize (IHv d2 itok depth).
      destruct (read_value _ _ _ _) as [[item d3]|]; [|done]. cbn [mbind option_bind].
      specialize (IHm d3 depth). destruct (read_members _ _ _) as [[l d4]|]; [|done]. simpl in *. lia.
    + destruct tok; try done. destruct (Ascii.eqb c "}"); simpl; [lia|done].
  - intros depth. cbn [read_elements]. destruct (next_token d) as [[tok d1]|] eqn:E1; [|by destruct (more d)].
    apply next_token_shorter in E1. destruct (more d).
    + cbn [mbind option_bind]. specialize (IHv d1 tok depth).
      destruct (read_value _ _ _ _) as [[item d3]|]; [|done]. cbn [mbind option_bind].
      specialize (IHe d3 depth). destruct (read_elements _ _ _) as [[l d4]|]; [|done]. simpl in *. lia.
    + destruct tok; try done. destruct (Ascii.eqb c "]"); simpl; [lia|done].
Qed.

(** Beyond the bound the fuel makes no difference. *)
Lemma read_fuel f f' :
  (∀ d tok depth, (2 * remaining d + 2 <= f)%nat → (2 * remaining d + 2 <= f')%nat →
     read_value f d tok depth = read_value f' d tok depth)
  ∧ (∀ d depth, (2 * remaining d + 1 <= f)%nat → (2 * remaining d + 1 <= f')%nat →
     read_members f d depth = read_members f' d depth)
  ∧ (∀ d depth, (2 * remaining d + 1 <= f)%nat → (2 * remaining d + 1 <= f')%nat →
     read_elements f d depth = read_elements f' d depth).
Proof.
  revert f'. induction f as [|n IH]; intros f'; [split_and!; intros; lia|].
  destruct f' as [|n']; [split_and!; intros; lia|]. destruct (IH n') as (IHv & IHm & IHe).
  split_and!; intros d.
  - intros tok depth H H'. cbn [read_value]. rewrite IHm, IHe by lia. done.
  - intros depth H H'. cbn [read_members]. destruct (next_token d) as [[tok d1]|] eqn:E1; [|done].
    apply next_token_shorter in E1. destruct (more d); [|done]. destruct tok as [| | |key|]; try done.
    destruct (next_token d1) as [[itok d2]|] eqn:E2; [|done]. apply next_token_shorter in E2. cbn [mbind option_bind].
    rewrite IHv by lia. pose proof (proj1 (read_shorter n') d2 itok depth) as Hs.
    destruct (read_value n' d2 itok depth) as [[item d3]|]; [|done]. cbn [mbind option_bind shorter] in *.
    by rewrite IHm by lia.
  - intros depth H H'. cbn [read_elements]. destruct (next_token d) as [[tok d1]|] eqn:E1; [|done].
    apply next_token_shorter in E1. destruct (more d); [|done]. cbn [mbind option_bind].
    rewrite IHv by lia. pose proof (proj1 (read_shorter n') d1 tok depth) as Hs.
    destruct (read_value n' d1 tok depth) as [[item d3]|]; [|done]. cbn [mbind option_bind shorter] in *.
    by rewrite IHe by lia.
Qed.

(** ** Round trip with the encoder *)

Definition reads_back (j : json) : Prop :=
  ∀ rest st stk depth fuel,
    token_value_allowed st = true → number_stop rest = true → depth + depth_of j <= maxNestingDepth →
    (2 * remaining (after_first j rest st stk) + 2 <= fuel)%nat →
    read_value fuel (after_first j rest st stk) (first_token j) depth = Some (j, mk_decoder rest (value_end st) stk).

Section RoundTrip.
Variables (rest : string) (st : token_state) (stk : list token_state).

(** The reader after a first or a later member (or element). *)
Definition inside (first : bool) (opening comma : token_state) (text : string) : decoder :=
  mk_decoder ((if first then "" else ",") +:+ text) (if first then opening else comma) (st :: stk).

Lemma member_read p text first depth fuel l d' :
  reads_back p.2 → utf8_valid p.1 = true → canonical p.2 = true → number_stop text = true →
  depth + depth_of p.2 <= maxNestingDepth →
  (∀ n, (2 * remaining (mk_decoder text ObjectComma (st :: stk)) + 1 <= n)%nat →
     read_members n (mk_decoder text ObjectComma (st :: stk)) depth = Some (l, d')) →
  (2 * remaining (inside first ObjectStart ObjectComma (member_text p +:+ text)) + 1 <= fuel)%nat →
  read_members fuel (inside first ObjectStart ObjectComma (member_text p +:+ text)) depth = Some (p :: l, d').
Proof.
  intros Hp Hu Hc Hstop Hd Hk Hf. destruct p as [k v]. cbn [fst snd] in *.
  destruct fuel as [|n]; [lia|]. cbn [read_members]. unfold inside, member_text in *. cbn [fst snd] in *.
  assert (next_token (mk_decoder ((if first then "" else ",") +:+ (encode_string k +:+ ":" +:+ encode v) +:+ text)
       (if first then ObjectStart else ObjectComma) (st :: stk))
    = Some (TStr k, mk_decoder (":" +:+ encode v +:+ text) ObjectColon (st :: stk))) as Hkey.
  { rewrite !app_string_assoc. unfold next_token. destruct first.
    - rewrite app_string_nil_l. apply token_key; auto.
    - rewrite token_comma_key. apply token_key; auto. }
  assert (more (mk_decoder ((if first then "" else ",") +:+ (encode_string k +:+ ":" +:+ encode v) +:+ text)
       (if first then ObjectStart else ObjectComma) (st :: stk)) = true) as -> by by destruct first.
  assert (next_token (mk_decoder (":" +:+ encode v +:+ text) ObjectColon (st :: stk))
    = Some (first_token v, after_first v text ObjectValue (st :: stk))) as Hval.
  { unfold next_token. rewrite token_colon. by apply token_first. }
  pose proof (next_token_shorter _ _ _ Hkey) as S1. pose proof (next_token_shorter _ _ _ Hval) as S2.
  rewrite Hkey, Hval. cbn [mbind option_bind]. rewrite Hp by (done || lia). cbn [mbind option_bind].
  pose proof (proj1 (read_shorter n) (after_first v text ObjectValue (st :: stk)) (first_token v) depth) as S3.
  rewrite Hp in S3 by (done || lia). cbn [shorter] in S3.
  cbn [value_end] in *. by rewrite Hk by lia.
Qed.

Lemma element_read x text first depth fuel l d' :
  reads_back x → canonical x = true → number_stop text = true → depth + depth_of x <= maxNestingDepth →
  (∀ n, (2 * remaining (mk_decoder text ArrayComma (st :: stk)) + 1 <= n)%nat →
     read_elements n (mk_decoder text ArrayComma (st :: stk)) depth = Some (l, d')) →
  (2 * remaining (inside first ArrayStart ArrayComma (encode x +:+ text)) + 1 <= fuel)%nat →
  read_elements fuel (inside first ArrayStart ArrayComma (encode x +:+ text)) depth = Some (x :: l, d').
Proof.
  intros Hx Hc Hstop Hd Hk Hf. destruct fuel as [|n]; [lia|]. cbn [read_elements].
  assert (more (inside first ArrayStart ArrayComma (encode x +:+ text)) = true) as ->.
  { destruct first; [|done]. unfold inside. cbv iota. rewrite app_string_nil_l.
    by apply more_opens, opens_value_app, encode_opens. }
  assert (∃ st', (st' = ArrayStart ∨ st' = ArrayValue)
     ∧ next_token (inside first ArrayStart ArrayComma (encode x +:+ text))
       = Some (first_token x, after_first x text st' (st :: stk))) as (st' & Hst & Hval).
  { unfold next_token, inside. destruct first; cbv iota.
    - exists ArrayStart. rewrite app_string_nil_l. split; [by left|]. by apply token_first.
    - exists ArrayValue. rewrite token_comma. split; [by right|]. by apply token_first. }
  pose proof (next_token_shorter _ _ _ Hval) as S2. rewrite Hval. cbn [mbind option_bind].
  assert (token_value_allowed st' = true) as Ha by (by destruct Hst as [-> | ->]).
  assert (value_end st' = ArrayComma) as Hend by (by destruct Hst as [-> | ->]).
  rewrite Hx by (done || lia). cbn [mbind option_bind].
  pose proof (proj1 (read_shorter n) (after_first x text st' (st :: stk)) (first_token x) depth) as S3.
  rewrite Hx in S3 by (done || lia). cbn [shorter] in S3. rewrite Hend in *. by rewrite Hk by lia.
Qed.

Lemma read_members_tail l depth fuel :
  Forall (λ p : string * json, reads_back p.2 ∧ utf8_valid p.1 = true ∧ canonical p.2 = true
            ∧ depth + depth_of p.2 <= maxNestingDepth) l →
  (2 * remaining (mk_decoder (members_tail l +:+ "}" +:+ rest) ObjectComma (st :: stk)) + 1 <= fuel)%nat →
  read_members fuel (mk_decoder (members_tail l +:+ "}" +:+ rest) ObjectComma (st :: stk)) depth
    = Some (l, mk_decoder rest (value_end st) stk).
Proof.
  intros Hl. revert fuel. induction Hl as [|p l (Hp & Hu & Hc & Hd) _ IH]; intros fuel Hf.
  { destruct fuel as [|n]; [unfold remaining in Hf; simpl in Hf; lia|]. done. }
  pose proof (member_read p _ false depth fuel _ _ Hp Hu Hc (object_tail_stop l rest) Hd IH) as H.
  unfold inside in H. unfold members_tail in *. cbn [List.map string_concat] in *.
  rewrite !app_string_assoc in *. by apply H.
Qed.

Lemma read_elements_tail l depth fuel :
  Forall (λ x, reads_back x ∧ canonical x = true ∧ depth + depth_of x <= maxNestingDepth) l →
  (2 * remaining (mk_decoder (elements_tail l +:+ "]" +:+ rest) ArrayComma (st :: stk)) + 1 <= fuel)%nat →
  read_elements fuel (mk_decoder (elements_tail l +:+ "]" +:+ rest) ArrayComma (st :: stk)) depth
    = Some (l, mk_decoder rest (value_end st) stk).
Proof.
  intros Hl. revert fuel. induction Hl as [|x l (Hx & Hc & Hd) _ IH]; intros fuel Hf.
  { destruct fuel as [|n]; [unfold remaining in Hf; simpl in Hf; lia|]. done. }
  pose proof (element_read x _ false depth fuel _ _ Hx Hc (array_tail_stop l rest) Hd IH) as H.
  unfold inside in H. unfold elements_tail in *. cbn [List.map string_concat] in *.
  rewrite !app_string_assoc in *. by apply H.
Qed.
End RoundTrip.

Lemma fold_depth_le {A} (f : A → Z) l x : In x l → f x <= foldr (λ x n, Z.max (f x) n) 0 l.
Proof. induction l as [|y l IH]; [done|]. intros [->|H]; simpl; [lia|]. specialize (IH H). lia. Qed.

Lemma canonical_reads_back j : canonical j = true → reads_back j.
Proof.
  induction j as [|b|lex|s|l IH|l IH] using json_nested_ind; intros Hc rest st stk depth fuel Hst Hstop Hd Hf;
    (destruct fuel as [|n]; [lia|]); try done.
  - cbn [read_value first_token after_first canonical depth_of] in *.
    pose proof (depth_of_nonneg (JArr l)) as Hpos. cbn [depth_of] in Hpos.
    rewrite (proj2 (Z.ltb_ge _ _)) by (destruct l; simpl in *; try lia; pose proof (depth_of_nonneg j); lia).
    change (Ascii.eqb "[" "{") with false. change (Ascii.eqb "[" "[") with true. cbv iota.
    assert (Forall (λ x, reads_back x ∧ canonical x = true ∧ depth + 1 + depth_of x <= maxNestingDepth) l) as Hall.
    { rewrite forallb_forall in Hc. apply List.Forall_forall. intros x Hx. rewrite List.Forall_forall in IH.
      pose proof (fold_depth_le depth_of l x Hx). split_and!; [by apply IH, Hc|by apply Hc|lia]. }
    assert (read_elements n (mk_decoder (elements_text l +:+ "]" +:+ rest) ArrayStart (st :: stk)) (depth + 1)
      = Some (l, mk_decoder rest (value_end st) stk)) as ->; [|done].
    inversion Hall as [|x l' (Hx & Hcx & Hdx) Hl']; subst; [by destruct n; [unfold remaining in Hf; simpl in Hf; lia|]|].
    rewrite elements_text_cons, app_string_assoc in *.
    apply (element_read st stk x _ true); auto using array_tail_stop.
    { intros m Hm. by apply read_elements_tail. }
    unfold inside. rewrite app_string_nil_l. lia.
  - cbn [read_value first_token after_first canonical depth_of] in *. apply andb_prop in Hc as [_ Hc].
    pose proof (depth_of_nonneg (JObj l)) as Hpos. cbn [depth_of] in Hpos.
    rewrite (proj2 (Z.ltb_ge _ _)) by (destruct l; simpl in *; try lia; pose proof (depth_of_nonneg p.2); lia).
    change (Ascii.eqb "{" "{") with true. cbv iota.
    assert (Forall (λ p : string * json, reads_back p.2 ∧ utf8_valid p.1 = true ∧ canonical p.2 = true
              ∧ depth + 1 + depth_of p.2 <= maxNestingDepth) l) as Hall.
    { rewrite forallb_forall in Hc. apply List.Forall_forall. intros x Hx. rewrite List.Forall_forall in IH.
      pose proof (fold_depth_le (λ p : string * json, depth_of p.2) l x Hx) as Hle. cbv beta in Hle.
      specialize (Hc x Hx). apply andb_prop in Hc as [Hu Hc]. split_and!; [by apply IH|done|done|lia]. }
    assert (read_members n (mk_decoder (members_text l +:+ "}" +:+ rest) ObjectStart (st :: stk)) (depth + 1)
      = Some (l, mk_decoder rest (value_end st) stk)) as ->; [|done].
    inversion Hall as [|p l' (Hx & Hu & Hcx & Hdx) Hl']; subst; [by destruct n; [unfold remaining in Hf; simpl in Hf; lia|]|].
    rewrite members_text_cons, app_string_assoc in *.
    apply (member_read st stk p _ true); auto using object_tail_stop.
    { intros m Hm. by apply read_members_tail. }
    unfold inside. rewrite app_string_nil_l. lia.
Qed.

(** What the encoder wrote is read back. *)
Lemma read_document_encode j :
  canonical j = true → depth_of j <= maxNestingDepth → read_document (encode j) = Some j.
Proof.
  intros Hc Hd. unfold read_document, read_first.
  pose proof (token_first j "" TopValue [] 1 Hc eq_refl eq_refl) as Ht.
  rewrite app_string_nil_r in Ht. unfold new_decoder, next_token. rewrite Ht. cbn [mbind option_bind].
  apply next_token_shorter in Ht. unfold remaining in Ht. cbn [d_input] in Ht.
  rewrite (canonical_reads_back j Hc) by (done || (unfold remaining, decode_fuel; lia)). done.
Qed.
