(* ===== verification/SemanticEqual.v ===== *)
(** * Semantic equality of JSON values (internal/structuredjson/equal.go)

    Exact decimal comparison without floating point, the budgeted structural
    comparison built on it, and the exponent limit of number_limits.go, all
    against one reference reading of a number lexeme. *)

From S2P Require Import Prelude Json StructuredJson.

Local Open Scope Z_scope.

(** ** Decimal numbers *)

Record decimalNumber := { negative : bool; digits : string; exponent : Z }.

Definition decimal_equal (n other : decimalNumber) : bool :=
  Bool.eqb (negative n) (negative other) && (digits n =s digits other)
  && (exponent n =? exponent other).

(** Split at the first byte in a class: [strings.IndexAny] and the slices
    around the index. *)
Fixpoint split_at (P : ascii → bool) (s : string) : option (string * string) :=
  match s with
  | EmptyString => None
  | String c s' =>
      if P c then Some ("", s')
      else match split_at P s' with Some (a, b) => Some (String c a, b) | None => None end
  end.

Definition is_exponent_mark (c : ascii) : bool := (byte_val c =? 101)%N || (byte_val c =? 69)%N.
Definition is_point (c : ascii) : bool := (byte_val c =? 46)%N.
Definition is_zero_digit (c : ascii) : bool := (byte_val c =? 48)%N.

Definition allDigits (value : string) : bool := (value !=s "") && string_forallb is_digit value.

(** [big.Int.SetString(s, 10)]: an optional sign and at least one digit. *)
Definition big_of_string (s : string) : option Z :=
  let '(neg, d) :=
    match s with
    | String c r =>
        if (byte_val c =? 45)%N then (true, r) else if (byte_val c =? 43)%N then (false, r) else (false, s)
    | EmptyString => (false, s)
    end in
  if allDigits d then
    let m := Z.of_N (digits_val 0 d) in Some (if neg then - m else m)
  else None.

(** [strings.TrimLeft(s, "0")] and [strings.TrimRight(s, "0")]. *)
Fixpoint trim_left_zeros (s : string) : string :=
  match s with
  | String c s' => if is_zero_digit c then trim_left_zeros s' else s
  | EmptyString => ""
  end.
Fixpoint trim_right_zeros (s : string) : string :=
  match s with
  | String c s' =>
      match trim_right_zeros s' with
      | EmptyString => if is_zero_digit c then "" else String c ""
      | t => String c t
      end
  | EmptyString => ""
  end.

Definition parseDecimal (raw : string) : option decimalNumber :=
  let '(neg, raw) :=
    match raw with
    | String c r => if (byte_val c =? 45)%N then (true, r) else (false, raw)
    | EmptyString => (false, raw)
    end in
  if raw =s "" then None
  else
    let? (mantissa, explicitExponent) :=
      match split_at is_exponent_mark raw with
      | None => Some (raw, 0)
      | Some (mantissa, exponentText) =>
          if exponentText =s "" then None
          else match split_at is_exponent_mark exponentText with
               | Some _ => None
               | None => let? e := big_of_string exponentText in Some (mantissa, e)
               end
      end in
    let? (integerPart, fractionPart) :=
      match split_at is_point mantissa with
      | None => Some (mantissa, "")
      | Some (integerPart, fractionPart) =>
          match split_at is_point fractionPart with
          | Some _ => None
          | None => Some (integerPart, fractionPart)
          end
      end in
    if (integerPart =s "") || negb (allDigits integerPart)
       || ((fractionPart !=s "") && negb (allDigits fractionPart)) then None
    else if (1 <? zlen integerPart) && (match integerPart with String c _ => is_zero_digit c | _ => false end)
    then None
    else if string_contains_byte "." mantissa && (fractionPart =s "") then None
    else
      let digits := trim_left_zeros (integerPart +:+ fractionPart) in
      if digits =s "" then Some {| negative := false; digits := "0"; exponent := 0 |}
      else
        let trailingZeros := zlen digits - zlen (trim_right_zeros digits) in
        Some {| negative := neg;
                digits := trim_right_zeros digits;
                exponent := explicitExponent - zlen fractionPart + trailingZeros |}.

(** Decoded documents hold numbers as [json.Number] lexemes only. *)
Definition supportedNumberLexeme (value : json) : option string :=
  match value with JNum lex => Some lex | _ => None end.

Definition canonicalNumber (value : json) : option decimalNumber :=
  let? raw := supportedNumberLexeme value in parseDecimal raw.

(** ** The budgeted comparison *)

Definition maxEqualityDepth : Z := 256.
Definition maxEqualityNodes : Z := 200000.

(** Arguments as the code has them; the result carries the budget left.  The
    members of the left object are visited in list order (Go's order is
    unspecified; [semanticEqual_spec] shows that it does not matter while the
    budget lasts). *)
Fixpoint semanticEqual (left right : json) (depth budget : Z) {struct left} : bool * Z :=
  let budget := budget - 1 in
  if (budget <? 0) || (maxEqualityDepth <? depth) then (false, budget)
  else
    let leftNumber := canonicalNumber left in
    let rightNumber := canonicalNumber right in
    match leftNumber, rightNumber with
    | Some l, Some r => (decimal_equal l r, budget)
    | Some _, None | None, Some _ => (false, budget)
    | None, None =>
        match left, right with
        | JNull, JNull => (true, budget)
        | JBool a, JBool b => (Bool.eqb a b, budget)
        | JStr a, JStr b => (a =s b, budget)
        | JArr l, JArr r =>
            if negb (length l =? length r)%nat then (false, budget)
            else
              (fix items (l r : list json) (budget : Z) {struct l} : bool * Z :=
                 match l, r with
                 | x :: l', y :: r' =>
                     let '(same, budget) := semanticEqual x y (depth + 1) budget in
                     if same then items l' r' budget else (false, budget)
                 | _, _ => (true, budget)
                 end) l r budget
        | JObj l, JObj r =>
            if negb (length l =? length r)%nat then (false, budget)
            else
              (fix members (l : list (string * json)) (budget : Z) {struct l} : bool * Z :=
                 match l with
                 | (key, item) :: l' =>
                     match assoc key r with
                     | None => (false, budget)
                     | Some other =>
                         let '(same, budget) := semanticEqual item other (depth + 1) budget in
                         if same then members l' budget else (false, budget)
                     end
                 | [] => (true, budget)
                 end) l budget
        | _, _ => (false, budget)
        end
    end.

Definition SemanticEqual (left right : json) : bool := (semanticEqual left right 0 maxEqualityNodes).1.

(** ** The reference reading of a number lexeme *)

Definition sign_of (raw : string) : string * string :=
  match raw with
  | String c r => if (byte_val c =? 45)%N then (String c "", r) else ("", raw)
  | EmptyString => ("", raw)
  end.

Definition exponent_value (e : string) : Z :=
  match e with
  | String _ (String g r) =>
      if (byte_val g =? 45)%N then - Z.of_N (digits_val 0 r)
      else if (byte_val g =? 43)%N then Z.of_N (digits_val 0 r)
      else Z.of_N (digits_val 0 (String g r))
  | _ => 0
  end.

(** Sign, integer digits, fraction digits and exponent of a lexeme. *)
Definition lexeme_parts (raw : string) : option (bool * string * string * Z) :=
  let '(sign, s1) := sign_of raw in
  let? (i, s2) := scan_integer s1 in
  let? (f, s3) := scan_fraction s2 in
  let? (e, s4) := scan_exponent s3 in
  if s4 =s "" then Some (sign !=s "", i, drop_string 1 f, exponent_value e) else None.

(** The value of a lexeme: a mantissa and a power of ten. *)
Definition lexeme_value (raw : string) : option (Z * Z) :=
  match lexeme_parts raw with
  | None => None
  | Some (neg, i, f, e) =>
      let m := Z.of_N (digits_val 0 (i +:+ f)) in
      Some ((if (neg : bool) then - m else m), e - zlen f)
  end.

(** [m1 * 10^e1 = m2 * 10^e2]. *)
Definition same_decimal (a b : Z * Z) : Prop :=
  let lo := Z.min a.2 b.2 in a.1 * 10 ^ (a.2 - lo) = b.1 * 10 ^ (b.2 - lo).

Example parse_decimal_1 : parseDecimal "-12.500e3" = Some {| negative := true; digits := "125"; exponent := 2 |}.
Proof. reflexivity. Qed.
Example parse_decimal_2 : parseDecimal "0.00" = Some {| negative := false; digits := "0"; exponent := 0 |}.
Proof. reflexivity. Qed.
Example parse_decimal_3 : parseDecimal "1e" = None.
Proof. reflexivity. Qed.
Example value_1 : lexeme_value "-12.500e3" = Some (-12500, 0).
Proof. reflexivity. Qed.
Example semantic_equal_1 :
  SemanticEqual (JObj [("a", JNum "1.0"); ("b", JNull)]) (JObj [("b", JNull); ("a", JNum "10e-1")]) = true.
Proof. reflexivity. Qed.

(** ** Digit strings *)

Lemma string_contains_byte_app c a b :
  string_contains_byte c (a +:+ b) = string_contains_byte c a || string_contains_byte c b.
Proof. induction a as [|x a IH]; [done|]. rewrite app_string_cons. simpl. by rewrite IH, orb_assoc. Qed.

Lemma split_at_none P s : string_forallb (λ c, negb (P c)) s = true → split_at P s = None.
Proof.
  induction s as [|c s IH]; [done|]. cbn [string_forallb split_at]. intros H.
  apply andb_prop in H as [Hc H]. apply negb_true_iff in Hc. by rewrite Hc, IH.
Qed.
Lemma split_at_first P a c b :
  string_forallb (λ c, negb (P c)) a = true → P c = true → split_at P (a +:+ String c b) = Some (a, b).
Proof.
  intros Ha Hc. induction a as [|x a IH]; [by rewrite app_string_nil_l; cbn [split_at]; rewrite Hc|].
  cbn [string_forallb] in Ha. apply andb_prop in Ha as [Hx Ha]. apply negb_true_iff in Hx.
  rewrite app_string_cons. cbn [split_at]. by rewrite Hx, IH.
Qed.

Definition not_mark (c : ascii) : bool := negb (is_exponent_mark c).
Definition not_point (c : ascii) : bool := negb (is_point c).
Lemma digit_not_mark c : is_digit c = true → not_mark c = true.
Proof.
  pose proof (ascii_all (λ c, implb (is_digit c) (not_mark c)) ltac:(vm_compute; reflexivity) c) as H.
  cbv beta in H. by intros E; rewrite E in H.
Qed.
Lemma digit_not_point c : is_digit c = true → not_point c = true.
Proof.
  pose proof (ascii_all (λ c, implb (is_digit c) (not_point c)) ltac:(vm_compute; reflexivity) c) as H.
  cbv beta in H. by intros E; rewrite E in H.
Qed.
Lemma digit_not_sign c : is_digit c = true → (byte_val c =? 45)%N = false ∧ (byte_val c =? 43)%N = false.
Proof.
  pose proof (ascii_all (λ c, implb (is_digit c) (negb (byte_val c =? 45)%N && negb (byte_val c =? 43)%N))
    ltac:(vm_compute; reflexivity) c) as H.
  cbv beta in H. intros E; rewrite E in H. cbn [implb] in H. by apply andb_prop in H as [->%negb_true_iff ->%negb_true_iff].
Qed.

Definition digits_nonempty (d : string) : Prop := d ≠ "" ∧ string_forallb is_digit d = true.

Lemma allDigits_spec d : allDigits d = true ↔ digits_nonempty d.
Proof.
  unfold allDigits, digits_nonempty. rewrite andb_true_iff, negb_true_iff, String.eqb_neq. done.
Qed.

(** ** The shape of a lexeme *)

Definition integer_shape (i : string) : Prop :=
  digits_nonempty i ∧ ((1 <? zlen i) && (match i with String c _ => is_zero_digit c | _ => false end)) = false.
Definition fraction_shape (fr : string) : Prop := fr = "" ∨ ∃ d, fr = "." +:+ d ∧ digits_nonempty d.
Definition exponent_shape (ex : string) : Prop :=
  ex = "" ∨ ∃ c sgn d, ex = String c (sgn +:+ d) ∧ is_exponent_mark c = true
    ∧ (sgn = "" ∨ sgn = "+" ∨ sgn = "-") ∧ digits_nonempty d.

Lemma span_nonempty s d r : span_digits s = (d, r) → d ≠ "" → digits_nonempty d.
Proof. intros E H. split; [done|]. pose proof (span_digits_digits s). by rewrite E in *. Qed.

Lemma scan_integer_shape s i r : scan_integer s = Some (i, r) → integer_shape i.
Proof.
  destruct s as [|c s]; [done|]. unfold scan_integer. destruct (byte_val c =? 48)%N eqn:E0.
  - intros [= <- <-]. split; [|done]. split; [done|]. apply N.eqb_eq in E0. simpl.
    unfold is_digit, in_range. by rewrite E0.
  - destruct (is_digit c) eqn:Hc; [|done]. intros [= H].
    cbn [span_digits] in H. rewrite Hc in H. destruct (span_digits s) as [d r'] eqn:Ed.
    injection H as <- <-. split.
    + apply (span_nonempty (String c s) (String c d) r'); [|done]. cbn [span_digits]. by rewrite Hc, Ed.
    + unfold is_zero_digit. rewrite E0. apply andb_false_r.
Qed.

Lemma byte_of_eqb c n : (byte_val c =? n)%N = true → c = byte_of n.
Proof. intros H%N.eqb_eq. by rewrite <- H, byte_of_val. Qed.

Lemma scan_fraction_shape s f r : scan_fraction s = Some (f, r) → fraction_shape f.
Proof.
  destruct s as [|c s]; [by intros [= <- <-]; left|]. unfold scan_fraction.
  destruct (byte_val c =? 46)%N eqn:E; [|by intros [= <- <-]; left].
  destruct (span_digits s) as [d r'] eqn:Ed. destruct d as [|x d]; [done|]. intros [= <- <-].
  right. exists (String x d). apply byte_of_eqb in E as ->. split; [done|]. by eapply span_nonempty.
Qed.

Lemma scan_exponent_shape s e r : scan_exponent s = Some (e, r) → exponent_shape e.
Proof.
  destruct s as [|c s]; [by intros [= <- <-]; left|]. unfold scan_exponent.
  destruct (_ || _) eqn:Ec; [|by intros [= <- <-]; left].
  destruct s as [|g s]; [done|]. destruct ((byte_val g =? 43)%N || _) eqn:Eg.
  - destruct (span_digits s) as [d r'] eqn:Ed. destruct d as [|x d]; [done|]. intros [= <- <-].
    right. exists c, (String g ""), (String x d). split_and!; [done|done| |by eapply span_nonempty].
    apply orb_prop in Eg as [->%byte_of_eqb | ->%byte_of_eqb]; auto.
  - destruct (span_digits (String g s)) as [d r'] eqn:Ed. destruct d as [|x d]; [done|]. intros [= <- <-].
    right. exists c, "", (String x d). split_and!; [done|done|by left|by eapply span_nonempty].
Qed.

Lemma sign_of_spec raw sign s1 :
  sign_of raw = (sign, s1) → raw = sign +:+ s1 ∧ (sign = "" ∨ sign = "-")
  ∧ (sign = "" → match s1 with String c _ => byte_val c =? 45 | _ => false end = false)%N.
Proof.
  destruct raw as [|c r]; [by intros [= <- <-]; auto|]. simpl.
  destruct (byte_val c =? 45)%N eqn:E; intros [= <- <-]; [|by split_and!; [|left|]].
  apply byte_of_eqb in E as ->. split_and!; [done|by right|done].
Qed.

(** A lexeme, taken apart. *)
Lemma lexeme_parts_spec raw neg i f e :
  lexeme_parts raw = Some (neg, i, f, e) →
  ∃ sign fr ex, raw = sign +:+ i +:+ fr +:+ ex ∧ (sign = "" ∨ sign = "-") ∧ neg = (sign !=s "")
    ∧ integer_shape i ∧ fraction_shape fr ∧ f = drop_string 1 fr ∧ exponent_shape ex ∧ e = exponent_value ex.
Proof.
  unfold lexeme_parts. destruct (sign_of raw) as [sign s1] eqn:Es. apply sign_of_spec in Es as (-> & Hs & _).
  destruct (scan_integer s1) as [[i' s2]|] eqn:E1; [|done]. cbn [mbind option_bind].
  destruct (scan_fraction s2) as [[f' s3]|] eqn:E2; [|done]. cbn [mbind option_bind].
  destruct (scan_exponent s3) as [[e' s4]|] eqn:E3; [|done]. cbn [mbind option_bind].
  destruct (String.eqb_spec s4 "") as [->|]; [|done]. intros [= <- <- <- <-].
  exists sign, f', e'.
  pose proof (scan_integer_shape _ _ _ E1). pose proof (scan_fraction_shape _ _ _ E2).
  pose proof (scan_exponent_shape _ _ _ E3).
  apply scan_integer_spec in E1. apply scan_fraction_spec in E2. apply scan_exponent_spec in E3.
  subst s1 s2 s3. rewrite app_string_nil_r. split_and!; auto.
Qed.

Lemma lexeme_parts_number raw : is_Some (lexeme_parts raw) ↔ number_lexeme raw = true.
Proof.
  assert (∀ A (o : option A) (b : bool), bool_decide (is_Some o) = b → is_Some o ↔ b = true) as H.
  { intros A o b <-. by rewrite bool_decide_eq_true. }
  apply H. unfold lexeme_parts, number_lexeme, scan_number, sign_of.
  destruct (match raw with EmptyString => _ | String c _ => _ end) as [sign s1].
  destruct (scan_integer s1) as [[i' s2]|]; [|done]. cbn [mbind option_bind].
  destruct (scan_fraction s2) as [[f' s3]|]; [|done]. cbn [mbind option_bind].
  destruct (scan_exponent s3) as [[e' s4]|]; [|done]. cbn [mbind option_bind].
  by destruct s4.
Qed.

(** ** [parseDecimal] on a lexeme *)

Definition canonical_decimal (neg : bool) (i f : string) (e : Z) : decimalNumber :=
  let ds := trim_left_zeros (i +:+ f) in
  if ds =s "" then {| negative := false; digits := "0"; exponent := 0 |}
  else {| negative := neg; digits := trim_right_zeros ds;
          exponent := e - zlen f + (zlen ds - zlen (trim_right_zeros ds)) |}.

Lemma big_of_exponent c sgn d :
  (sgn = "" ∨ sgn = "+" ∨ sgn = "-") → digits_nonempty d →
  big_of_string (sgn +:+ d) = Some (exponent_value (String c (sgn +:+ d))).
Proof.
  intros Hs Hd. pose proof (proj2 (allDigits_spec d) Hd) as Ha. destruct Hd as [Hne Hd].
  destruct Hs as [-> | [-> | ->]].
  - rewrite app_string_nil_l. destruct d as [|x d]; [done|]. cbn [string_forallb] in Hd.
    apply andb_prop in Hd as [Hx _]. apply digit_not_sign in Hx as [H1 H2].
    unfold big_of_string, exponent_value. by rewrite H1, H2, Ha.
  - change (big_of_string ("+" +:+ d)) with (if allDigits d then Some (Z.of_N (digits_val 0 d)) else None).
    by rewrite Ha.
  - change (big_of_string ("-" +:+ d)) with (if allDigits d then Some (- Z.of_N (digits_val 0 d)) else None).
    by rewrite Ha.
Qed.

Lemma nonempty_app_r a b : b ≠ "" → (a +:+ b) ≠ "".
Proof. intros Hb. destruct a; [by destruct b|done]. Qed.
Lemma nonempty_app_l a b : a ≠ "" → (a +:+ b) ≠ "".
Proof. by destruct a. Qed.

Lemma split_sign sign rest :
  (sign = "" ∨ sign = "-") →
  match rest with String c _ => (byte_val c =? 45)%N | EmptyString => false end = false →
  match sign +:+ rest with
  | String c r => if (byte_val c =? 45)%N then (true, r) else (false, sign +:+ rest)
  | EmptyString => (false, sign +:+ rest)
  end = (sign !=s "", rest).
Proof.
  intros [-> | ->] H; [|done]. rewrite app_string_nil_l. destruct rest as [|c rest]; [done|]. by rewrite H.
Qed.

Lemma split_exponent m ex :
  string_forallb not_mark m = true → exponent_shape ex →
  match split_at is_exponent_mark (m +:+ ex) with
  | None => Some (m +:+ ex, 0)
  | Some (mantissa, exponentText) =>
      if exponentText =s "" then None
      else match split_at is_exponent_mark exponentText with
           | Some _ => None
           | None => let? e := big_of_string exponentText in Some (mantissa, e)
           end
  end = Some (m, exponent_value ex).
Proof.
  intros Hm [-> | (c & sgn & d & -> & Hc & Hsg & Hd)].
  - rewrite app_string_nil_r. by rewrite split_at_none.
  - rewrite split_at_first by done. pose proof Hd as [Hne Hdig].
    rewrite (proj2 (String.eqb_neq _ _) (nonempty_app_r sgn d Hne)).
    rewrite split_at_none; [by rewrite (big_of_exponent c)|].
    fold not_mark. rewrite string_forallb_app, (string_forallb_impl _ _ _ digit_not_mark Hdig).
    by destruct Hsg as [-> | [-> | ->]].
Qed.

Lemma split_point i fr :
  string_forallb is_digit i = true → fraction_shape fr →
  match split_at is_point (i +:+ fr) with
  | None => Some (i +:+ fr, "")
  | Some (integerPart, fractionPart) =>
      match split_at is_point fractionPart with
      | Some _ => None
      | None => Some (integerPart, fractionPart)
      end
  end = Some (i, drop_string 1 fr).
Proof.
  intros Hid [-> | (d & -> & _ & Hd)]; pose proof (string_forallb_impl _ _ _ digit_not_point Hid) as Hip.
  - rewrite app_string_nil_r. by rewrite split_at_none.
  - change ("." +:+ d) with (String "." d). rewrite split_at_first by done.
    by rewrite (split_at_none _ d) by exact (string_forallb_impl _ _ _ digit_not_point Hd).
Qed.

Lemma digits_no_point d : string_forallb is_digit d = true → string_contains_byte "." d = false.
Proof.
  induction d as [|c d IH]; [done|]. cbn [string_forallb string_contains_byte]. intros [Hc Hd]%andb_prop.
  rewrite IH by done. destruct (Ascii.eqb_spec c "."); [by subst|done].
Qed.

Lemma parseDecimal_parts raw neg i f e :
  lexeme_parts raw = Some (neg, i, f, e) → parseDecimal raw = Some (canonical_decimal neg i f e).
Proof.
  intros (sign & fr & ex & -> & Hsign & -> & [Hi Hi0] & Hfr & -> & Hex & ->)%lexeme_parts_spec.
  unfold parseDecimal. pose proof Hi as [Hine Hid].
  assert (string_forallb not_mark fr = true ∧ (fr = "" ∨ digits_nonempty (drop_string 1 fr))) as [Hfm Hfd].
  { destruct Hfr as [-> | (d & -> & Hd)]; [split; [done|by left]|]. split; [|by right].
    destruct Hd as [_ Hd]. rewrite string_forallb_app. by rewrite (string_forallb_impl _ _ _ digit_not_mark Hd). }
  rewrite split_sign; [|done|].
  2:{ destruct i as [|c i]; [done|]. rewrite app_string_cons. cbn [string_forallb] in Hid.
      apply andb_prop in Hid as [Hc _]. by apply digit_not_sign in Hc as [Hc _]. }
  rewrite (proj2 (String.eqb_neq _ _) (nonempty_app_l i (fr +:+ ex) Hine)).
  rewrite <- (app_string_assoc i fr ex), split_exponent; [|by rewrite string_forallb_app, Hfm, (string_forallb_impl _ _ _ digit_not_mark Hid)|done].
  cbn [mbind option_bind]. rewrite split_point by done. cbn [mbind option_bind].
  rewrite (proj2 (String.eqb_neq _ _) Hine), (proj2 (allDigits_spec i) Hi), Hi0. cbn [orb negb].
  rewrite string_contains_byte_app, (digits_no_point i Hid). cbn [orb].
  unfold canonical_decimal. destruct Hfd as [-> | Hfd]; [simpl; by destruct (trim_left_zeros (i +:+ ""))|].
  rewrite (proj2 (allDigits_spec _) Hfd). destruct Hfd as [Hfne _].
  rewrite (proj2 (String.eqb_neq _ _) Hfne), !andb_false_r. by destruct (trim_left_zeros _).
Qed.

(** ** Canonical decimals and values *)

Definition zval (d : string) : Z := Z.of_N (digits_val 0 d).

Lemma digits_val_acc a d : digits_val a d = (a * 10 ^ N.of_nat (slen d) + digits_val 0 d)%N.
Proof.
  revert a. induction d as [|c d IH]; intros a; [simpl; lia|]. cbn [digits_val].
  rewrite (IH (a * 10 + _)%N), (IH (0 * 10 + _)%N). cbn [slen].
  rewrite Nat2N.inj_succ, N.pow_succ_r'. lia.
Qed.
Lemma digit_val_of c : Z.of_N (byte_val c - 48) = digit_val c ∨ (byte_val c < 48)%N.
Proof. unfold digit_val. lia. Qed.
Lemma is_digit_bounds c : is_digit c = true → (48 <= byte_val c <= 57)%N.
Proof. unfold is_digit, in_range. intros [H1%N.leb_le H2%N.leb_le]%andb_prop. done. Qed.

Lemma zval_cons c d : is_digit c = true → zval (String c d) = digit_val c * 10 ^ zlen d + zval d.
Proof.
  intros Hc%is_digit_bounds. unfold zval, digit_val, zlen. cbn [digits_val]. rewrite digits_val_acc.
  rewrite N2Z.inj_add, N2Z.inj_mul, N2Z.inj_pow, nat_N_Z. f_equal. f_equal. lia.
Qed.
Lemma zval_bounds d : string_forallb is_digit d = true → 0 <= zval d < 10 ^ zlen d.
Proof.
  induction d as [|c d IH]; [done|]. cbn [string_forallb]. intros [Hc Hd]%andb_prop.
  rewrite zval_cons by done. apply is_digit_bounds in Hc. unfold digit_val.
  assert (zlen (String c d) = Z.succ (zlen d)) as -> by (unfold zlen; simpl; lia).
  rewrite Z.pow_succ_r by (unfold zlen; lia). specialize (IH Hd). nia.
Qed.

(** No leading zero, no trailing zero. *)
Definition lead_nonzero (d : string) : bool :=
  match d with String c _ => negb (is_zero_digit c) | EmptyString => false end.

Lemma zval_lower d : lead_nonzero d = true → string_forallb is_digit d = true → 10 ^ (zlen d - 1) <= zval d.
Proof.
  destruct d as [|c d]; [done|]. cbn [lead_nonzero string_forallb]. unfold is_zero_digit.
  intros Hz%negb_true_iff%N.eqb_neq [Hc Hd]%andb_prop. rewrite zval_cons by done.
  apply is_digit_bounds in Hc. unfold digit_val.
  assert (zlen (String c d) - 1 = zlen d) as -> by (unfold zlen; simpl; lia).
  pose proof (zval_bounds d Hd). pose proof (Z.pow_pos_nonneg 10 (zlen d) ltac:(lia) ltac:(unfold zlen; lia)).
  nia.
Qed.

(** Digit strings of one length are determined by their value. *)
Lemma zval_inj_len a b :
  string_forallb is_digit a = true → string_forallb is_digit b = true →
  slen a = slen b → zval a = zval b → a = b.
Proof.
  revert b. induction a as [|x a IH]; intros [|y b] Ha Hb Hl Hv; try done.
  cbn [string_forallb] in Ha, Hb. apply andb_prop in Ha as [Hx Ha]. apply andb_prop in Hb as [Hy Hb].
  injection Hl as Hl. rewrite !zval_cons in Hv by done.
  pose proof (zval_bounds a Ha) as Ba. pose proof (zval_bounds b Hb) as Bb.
  assert (zlen a = zlen b) as Hz by (unfold zlen; lia). rewrite Hz in *.
  assert (digit_val x = digit_val y) as E by nia.
  assert (x = y) as ->.
  { unfold digit_val in E. rewrite <- (byte_of_val x), <- (byte_of_val y). f_equal. lia. }
  f_equal. apply IH; try done. nia.
Qed.

Lemma zval_inj a b :
  string_forallb is_digit a = true → string_forallb is_digit b = true →
  lead_nonzero a = true → lead_nonzero b = true → zval a = zval b → a = b.
Proof.
  intros Ha Hb La Lb Hv. apply zval_inj_len; try done.
  pose proof (zval_lower a La Ha). pose proof (zval_lower b Lb Hb).
  pose proof (zval_bounds a Ha). pose proof (zval_bounds b Hb).
  assert (zlen a - 1 < zlen b) by (apply (Z.pow_lt_mono_r_iff 10); [lia|unfold zlen; lia|lia]).
  assert (zlen b - 1 < zlen a) by (apply (Z.pow_lt_mono_r_iff 10); [lia|unfold zlen; lia|lia]).
  unfold zlen in *. lia.
Qed.

Lemma trim_left_spec d : string_forallb is_digit d = true →
  zval (trim_left_zeros d) = zval d ∧ string_forallb is_digit (trim_left_zeros d) = true
  ∧ (trim_left_zeros d = "" ∨ lead_nonzero (trim_left_zeros d) = true).
Proof.
  induction d as [|c d IH]; [by auto|]. cbn [string_forallb trim_left_zeros].
  intros [Hc Hd]%andb_prop. destruct (is_zero_digit c) eqn:Ez.
  - destruct (IH Hd) as (-> & H2 & H3). split_and!; [|done|done]. rewrite zval_cons by done.
    unfold is_zero_digit in Ez. apply N.eqb_eq in Ez. unfold digit_val. rewrite Ez. lia.
  - cbn [string_forallb lead_nonzero]. rewrite Hc, Hd, Ez. auto.
Qed.

Lemma zval_zero_digits d : string_forallb is_digit d = true → trim_left_zeros d = "" ↔ zval d = 0.
Proof.
  intros Hd. destruct (trim_left_spec d Hd) as (Hv & Hd' & Hl). rewrite <- Hv. split; [by intros ->|].
  intros H0. destruct Hl as [|Hl]; [done|]. pose proof (zval_lower _ Hl Hd') as Hlow.
  destruct (trim_left_zeros d) as [|c t]; [done|].
  pose proof (Z.pow_pos_nonneg 10 (zlen (String c t) - 1) ltac:(lia) ltac:(unfold zlen; simpl; lia)). lia.
Qed.

Lemma trim_right_spec d : string_forallb is_digit d = true →
  zval d = zval (trim_right_zeros d) * 10 ^ (zlen d - zlen (trim_right_zeros d))
  ∧ zlen (trim_right_zeros d) <= zlen d
  ∧ string_forallb is_digit (trim_right_zeros d) = true
  ∧ (trim_right_zeros d = "" ∨ zval (trim_right_zeros d) mod 10 <> 0).
Proof.
  induction d as [|c d IH]; [intros _; split_and!; auto; unfold zlen; simpl; lia|]. cbn [string_forallb trim_right_zeros].
  intros [Hc Hd]%andb_prop. destruct (IH Hd) as (Hv & Hlen & Hdig & Hmod).
  assert (zlen (String c d) = Z.succ (zlen d)) as El by (unfold zlen; simpl; lia).
  pose proof (is_digit_bounds c Hc) as Hb. rewrite El, zval_cons by done.
  assert (zlen "" = 0) as E0 by done. assert (zval "" = 0) as V0 by done.
  destruct (trim_right_zeros d) as [|x t] eqn:Et.
  - rewrite V0 in Hv. destruct (is_zero_digit c) eqn:Ez; unfold is_zero_digit in Ez.
    + apply N.eqb_eq in Ez. unfold digit_val. rewrite Ez, V0, E0. split_and!; [lia|unfold zlen; lia|done|by left].
    + apply N.eqb_neq in Ez. rewrite zval_cons by done. rewrite V0, E0.
      assert (zlen (String c "") = 1) as -> by done. cbn [string_forallb]. rewrite Hc.
      split_and!; [|unfold zlen; lia|done|right; unfold digit_val].
      * replace (Z.succ (zlen d) - 1) with (zlen d) by lia. lia.
      * change (10 ^ 0) with 1. rewrite Z.mul_1_r, Z.add_0_r, Z.mod_small; lia.
  - assert (zlen (String c (String x t)) = Z.succ (zlen (String x t))) as -> by (unfold zlen; simpl; lia).
    cbn [string_forallb] in Hdig |- *. rewrite Hc, Hdig. rewrite (zval_cons c (String x t)) by done.
    replace (Z.succ (zlen d) - Z.succ (zlen (String x t))) with (zlen d - zlen (String x t)) by lia.
    split_and!; [|lia|done|right].
    + rewrite Hv, Z.mul_add_distr_r, <- Z.mul_assoc, <- Z.pow_add_r by (unfold zlen in *; lia).
      do 3 f_equal. lia.
    + destruct Hmod as [|Hmod]; [done|]. rewrite Z.add_mod by lia.
      assert (zlen (String x t) = Z.succ (zlen t)) as -> by (unfold zlen; simpl; lia).
      rewrite Z.pow_succ_r by (unfold zlen; lia).
      replace (digit_val c * (10 * 10 ^ zlen t)) with ((digit_val c * 10 ^ zlen t) * 10) by lia.
      rewrite Z.mod_mul by lia. rewrite Z.add_0_l, Z.mod_mod by lia. done.
Qed.

Lemma trim_right_lead d : lead_nonzero d = true → lead_nonzero (trim_right_zeros d) = true.
Proof.
  destruct d as [|c d]; [done|]. cbn [lead_nonzero trim_right_zeros]. intros H%negb_true_iff.
  destruct (trim_right_zeros d); cbn [lead_nonzero]; by rewrite ?H; cbn [lead_nonzero]; rewrite ?H.
Qed.

(** A canonical decimal is zero, or a mantissa not divisible by ten. *)
Definition decimal_normal (n : decimalNumber) (m e : Z) : Prop :=
  (m = 0 ∧ n = {| negative := false; digits := "0"; exponent := 0 |})
  ∨ (m <> 0 ∧ string_forallb is_digit (digits n) = true ∧ lead_nonzero (digits n) = true
     ∧ zval (digits n) mod 10 <> 0 ∧ 0 < zval (digits n)
     ∧ ∃ k, 0 <= k ∧ exponent n = e + k
        ∧ m = (if negative n then - zval (digits n) else zval (digits n)) * 10 ^ k).

Lemma canonical_decimal_normal neg i f e :
  string_forallb is_digit (i +:+ f) = true →
  decimal_normal (canonical_decimal neg i f e) (if neg then - zval (i +:+ f) else zval (i +:+ f)) (e - zlen f).
Proof.
  intros Hd. unfold canonical_decimal, decimal_normal.
  pose proof (zval_zero_digits _ Hd) as Hz. destruct (trim_left_spec _ Hd) as (Hv & Hd' & Hl).
  destruct (String.eqb_spec (trim_left_zeros (i +:+ f)) "") as [E|E].
  { left. apply Hz in E. rewrite E. by destruct neg. }
  right. cbn [digits negative exponent]. destruct Hl as [|Hl]; [done|].
  destruct (trim_right_spec _ Hd') as (Hr & Hlen & Hrd & Hmod).
  apply trim_right_lead in Hl. destruct Hmod as [Ht|Hmod]; [by rewrite Ht in Hl|].
  pose proof (zval_lower _ Hl Hrd). pose proof (zval_bounds _ Hrd).
  assert (0 < zval (trim_right_zeros (trim_left_zeros (i +:+ f)))).
  { assert (zval (trim_right_zeros (trim_left_zeros (i +:+ f))) <> 0); [|lia]. intros E0. by rewrite E0 in Hmod. }
  assert (zval (i +:+ f) <> 0) by tauto.
  split_and!; try done; [by destruct neg; lia|].
  exists (zlen (trim_left_zeros (i +:+ f)) - zlen (trim_right_zeros (trim_left_zeros (i +:+ f)))).
  split_and!; [lia|done|]. rewrite <- Hv. destruct neg; lia.
Qed.

Lemma pow10_pos k : 0 <= k → 0 < 10 ^ k.
Proof. intros. apply Z.pow_pos_nonneg; lia. Qed.

(** Two mantissas not divisible by ten with equal scaled values are equal. *)
Lemma scaled_inj x y j k :
  0 <= j → 0 <= k → x mod 10 <> 0 → y mod 10 <> 0 → x * 10 ^ j = y * 10 ^ k → x = y ∧ j = k.
Proof.
  assert (∀ x y j k, 0 <= j → j <= k → x mod 10 <> 0 → x * 10 ^ j = y * 10 ^ k → x = y ∧ j = k) as H.
  { intros x' y' j' k' Hj Hjk Hx E.
    replace k' with ((k' - j') + j') in E by lia. rewrite Z.pow_add_r, Z.mul_assoc in E by lia.
    apply Z.mul_reg_r in E; [|pose proof (pow10_pos j'); lia].
    destruct (Z.eq_dec k' j') as [->|Hne]; [rewrite Z.sub_diag, Z.pow_0_r in E; lia|]. exfalso.
    apply Hx. rewrite E. replace (k' - j') with (Z.succ (k' - j' - 1)) by lia.
    rewrite Z.pow_succ_r by lia. replace (y' * (10 * 10 ^ (k' - j' - 1))) with (y' * 10 ^ (k' - j' - 1) * 10) by lia.
    by apply Z.mod_mul. }
  intros Hj Hk Hx Hy E. destruct (Z.le_ge_cases j k); [by apply H|].
  destruct (H y x k j) as [-> ->]; [lia..|done|done|done].
Qed.

Lemma signed_mod (neg : bool) z : z mod 10 <> 0 → (if neg then - z else z) mod 10 <> 0.
Proof. destruct neg; [|done]. intros Hz H. apply Hz. apply Z.mod_opp_l_z in H; [|done]. by rewrite Z.opp_involutive in H. Qed.

Lemma decimal_equal_spec n1 n2 m1 e1 m2 e2 :
  decimal_normal n1 m1 e1 → decimal_normal n2 m2 e2 →
  decimal_equal n1 n2 = true ↔ same_decimal (m1, e1) (m2, e2).
Proof.
  intros H1 H2. unfold decimal_equal, same_decimal. cbn [fst snd].
  set (lo := Z.min e1 e2). pose proof (pow10_pos (e1 - lo) ltac:(lia)). pose proof (pow10_pos (e2 - lo) ltac:(lia)).
  rewrite !andb_true_iff, eqb_true_iff, String.eqb_eq, Z.eqb_eq.
  destruct H1 as [[-> ->]|(Hm1 & D1 & L1 & M1 & P1 & k1 & K1 & X1 & V1)], H2 as [[-> ->]|(Hm2 & D2 & L2 & M2 & P2 & k2 & K2 & X2 & V2)].
  - by cbn.
  - cbn [digits negative exponent]. split; [|nia]. intros [[_ E] _]. rewrite <- E in L2. done.
  - cbn [digits negative exponent]. split; [|nia]. intros [[_ E] _]. rewrite E in L1. done.
  - rewrite V1, V2, <- !Z.mul_assoc, <- !Z.pow_add_r by lia. split.
    + intros [[-> ->] E]. f_equal. f_equal. lia.
    + intros E. apply scaled_inj in E as [Ev Ek]; [|lia|lia|by apply signed_mod..].
      assert (negative n1 = negative n2) as En by (destruct (negative n1), (negative n2); try done; lia).
      rewrite En in Ev. assert (zval (digits n1) = zval (digits n2)) by (destruct (negative n2); lia).
      split_and!; [done|by apply zval_inj|lia].
Qed.

(** A lexeme has a value and a canonical decimal for it. *)
Lemma lexeme_decimal raw :
  number_lexeme raw = true → ∃ m e n, lexeme_value raw = Some (m, e) ∧ parseDecimal raw = Some n ∧ decimal_normal n m e.
Proof.
  intros [[[[neg i] f] e] H]%lexeme_parts_number. pose proof (parseDecimal_parts _ _ _ _ _ H) as Hp.
  unfold lexeme_value. rewrite H. eexists _, _, _. split_and!; [done|exact Hp|].
  apply canonical_decimal_normal.
  apply lexeme_parts_spec in H as (sign & fr & ex & _ & _ & _ & [[_ Hi] _] & Hfr & -> & _ & _).
  rewrite string_forallb_app, Hi. destruct Hfr as [-> | (d & -> & _ & Hd)]; done.
Qed.

(** ** The exponent limit, against the reference reading *)

Lemma exponent_loop_exceeded s n m :
  ∃ m', exponent_loop s n m true = (n + zlen (span_digits s).1, m', true, (span_digits s).2).
Proof.
  revert n m. induction s as [|c s IH]; intros n m; [exists m; simpl; unfold zlen; simpl; by rewrite Z.add_0_r|].
  cbn [exponent_loop span_digits]. unfold isDecimalDigit. destruct (is_digit c).
  - assert (∀ d, zlen (String c d) = 1 + zlen d) as El by (intros; unfold zlen; simpl; lia).
    destruct (span_digits s) as [d r]. cbn [fst snd] in *. rewrite (El d), Z.add_assoc.
    destruct (_ <? _); apply IH.
  - exists m. cbn [fst snd]. unfold zlen. simpl. by rewrite Z.add_0_r.
Qed.

Lemma exponent_loop_spec s n m :
  0 <= m <= 1000 →
  let v := m * 10 ^ zlen (span_digits s).1 + zval (span_digits s).1 in
  ∃ m', exponent_loop s n m false = (n + zlen (span_digits s).1, m', 1000 <? v, (span_digits s).2)
    ∧ (v <= 1000 → m' = v).
Proof.
  revert n m. induction s as [|c s IH]; intros n m Hm.
  - exists m. cbn [span_digits fst snd]. change (zlen "") with 0. change (zval "") with 0.
    rewrite Z.pow_0_r, Z.mul_1_r, !Z.add_0_r. rewrite (proj2 (Z.ltb_ge _ _)) by lia. done.
  - cbn [exponent_loop span_digits]. unfold isDecimalDigit. destruct (is_digit c) eqn:Hc.
    + pose proof (span_digits_digits s) as Hd. pose proof (zval_bounds _ Hd) as Hb.
      pose proof (is_digit_bounds c Hc) as Hcb.
      assert (0 <= digit_val c <= 9) as Hdv by (unfold digit_val; lia).
      assert (∀ d, zlen (String c d) = Z.succ (zlen d)) as El by (intros; unfold zlen; simpl; lia).
      destruct (span_digits s) as [d r] eqn:Es. cbn [fst snd] in *.
      rewrite (El d), zval_cons, Z.pow_succ_r by (try done; unfold zlen; lia).
      pose proof (Z.pow_pos_nonneg 10 (zlen d) ltac:(lia) ltac:(unfold zlen; lia)) as Hp.
      replace (n + Z.succ (zlen d)) with (n + 1 + zlen d) by lia.
      replace (m * (10 * 10 ^ zlen d) + (digit_val c * 10 ^ zlen d + zval d))
        with ((m * 10 + digit_val c) * 10 ^ zlen d + zval d) by lia.
      unfold MaxJSONNumberExponent.
      assert ((1000 - digit_val c) / 10 < m ↔ 1000 < m * 10 + digit_val c) as Hiff.
      { pose proof (Z.div_mod (1000 - digit_val c) 10 ltac:(lia)).
        pose proof (Z.mod_pos_bound (1000 - digit_val c) 10 ltac:(lia)). lia. }
      destruct (Z.ltb_spec ((1000 - digit_val c) / 10) m) as [Hgt|Hle].
      * destruct (exponent_loop_exceeded s (n + 1) m) as [m' Hm']. rewrite Es in Hm'. exists m'.
        cbn [fst snd] in Hm'. rewrite Hm'. assert (1000 < (m * 10 + digit_val c) * 10 ^ zlen d + zval d) by nia.
        rewrite (proj2 (Z.ltb_lt _ _)) by done. split; [done|lia].
      * destruct (IH (n + 1) (m * 10 + digit_val c)) as (m' & Hm' & Hv); [lia|].
        exists m'. done.
    + exists m. cbn [fst snd]. change (zlen "") with 0. change (zval "") with 0.
      rewrite Z.pow_0_r, Z.mul_1_r, !Z.add_0_r. rewrite (proj2 (Z.ltb_ge _ _)) by lia. done.
Qed.

Definition exponent_result (e : string) (rest : string) : exponent_part :=
  if rest =s "" then
    (if (Z.abs (exponent_value e) <=? MaxJSONNumberExponent) then ExpValue (exponent_value e) else ExpExceeds)
  else ExpInvalid.

Lemma limit_exponent_spec s :
  limit_exponent s = match scan_exponent s with
                     | Some (e, r) => exponent_result e r
                     | None => ExpInvalid
                     end.
Proof.
  destruct s as [|c s]; [done|]. unfold limit_exponent, scan_exponent.
  destruct (_ || _) eqn:Ec; [|done].
  assert (∀ sgn sign t, sgn = "" ∧ sign = 1 ∧ match t with String g _ => (byte_val g =? 45)%N || (byte_val g =? 43)%N | _ => false end = false
            ∨ sgn = "+" ∧ sign = 1 ∨ sgn = "-" ∧ sign = -1 →
    (let '(digits, magnitude, exceeds, rest) := exponent_loop t 0 0 false in
     if digits =? 0 then ExpInvalid
     else if exceeds then (if rest =s "" then ExpExceeds else ExpInvalid)
     else if rest =s "" then ExpValue (sign * magnitude) else ExpInvalid)
    = match (match span_digits t with
             | (EmptyString, _) => None
             | (d, r) => Some (String c (sgn +:+ d), r) end) with
      | Some (e, r) => exponent_result e r | None => ExpInvalid end) as H.
  { intros sgn sign t Hs. destruct (exponent_loop_spec t 0 0 ltac:(lia)) as (m' & E & Hm'). rewrite E.
    rewrite Z.mul_0_l, !Z.add_0_l in *. pose proof (span_digits_digits t) as Hd.
    destruct (span_digits t) as [d r] eqn:Et. cbn [fst snd] in *. destruct d as [|x d]; [done|].
    assert ((zlen (String x d) =? 0) = false) as -> by (apply Z.eqb_neq; unfold zlen; simpl; lia).
    pose proof (zval_bounds _ Hd) as Hb. unfold exponent_result, MaxJSONNumberExponent.
    assert (exponent_value (String c (sgn +:+ String x d)) = sign * zval (String x d)) as ->.
    { destruct Hs as [(-> & -> & Hg)|[[-> ->]|[-> ->]]].
      - rewrite app_string_nil_l. cbn [string_forallb] in Hd. apply andb_prop in Hd as [Hx _].
        apply digit_not_sign in Hx as [H1 H2]. unfold exponent_value. rewrite H1, H2. unfold zval. lia.
      - change (zval (String x d) = 1 * zval (String x d)). lia.
      - change (- zval (String x d) = -1 * zval (String x d)). lia. }
    assert (Z.abs (sign * zval (String x d)) = zval (String x d)) as ->.
    { destruct Hs as [(_ & -> & _)|[[_ ->]|[_ ->]]]; lia. }
    destruct (Z.ltb_spec 1000 (zval (String x d))) as [Hgt|Hle].
    - rewrite (proj2 (Z.leb_gt _ _)) by done. done.
    - rewrite (proj2 (Z.leb_le _ _)) by done. by rewrite Hm'. }
  destruct s as [|g s]; [exact (H "" 1 "" ltac:(auto))|].
  destruct (byte_val g =? 45)%N eqn:E45.
  - rewrite orb_true_r. rewrite (byte_of_eqb _ _ E45). rewrite (H "-" (-1) s) by auto. done.
  - destruct (byte_val g =? 43)%N eqn:E43.
    + cbn [orb]. rewrite (byte_of_eqb _ _ E43). rewrite (H "+" 1 s) by auto. done.
    + cbn [orb]. rewrite (H "" 1 (String g s)) by (rewrite E45, E43; auto). done.
Qed.

Lemma limit_fraction_spec s :
  limit_fraction s = match scan_fraction s with
                     | Some (f, r) => Some (zlen (drop_string 1 f), r)
                     | None => None
                     end.
Proof.
  destruct s as [|c s]; [done|]. unfold limit_fraction, scan_fraction. destruct (_ =? _)%N; [|done].
  destruct (span_digits s) as [[|x d] r]; [done|].
  by assert ((zlen (String x d) =? 0) = false) as -> by (apply Z.eqb_neq; unfold zlen; simpl; lia).
Qed.

Lemma limit_parts raw :
  jsonNumberWithinExponentLimit raw =
    match lexeme_parts raw with
    | None => (false, false)
    | Some (_, _, f, e) =>
        ((Z.abs e <=? MaxJSONNumberExponent) && (Z.abs (e - zlen f) <=? MaxJSONNumberExponent), true)
    end.
Proof.
  unfold jsonNumberWithinExponentLimit, lexeme_parts.
  assert ((match raw with String c r => if (byte_val c =? 45)%N then r else raw | EmptyString => raw end)
    = (sign_of raw).2) as -> by (destruct raw as [|c r]; [done|]; simpl; by destruct (_ =? _)%N).
  destruct (sign_of raw) as [sign s1]. cbn [snd].
  assert (limit_integer s1 = match scan_integer s1 with
     | Some (i, r) => match r with String d _ => if (i =s "0") && is_digit d then None else Some r | EmptyString => Some r end
     | None => None end) as ->.
  { destruct s1 as [|c s]; [done|]. unfold limit_integer, scan_integer.
    destruct (byte_val c =? 48)%N eqn:E0.
    - rewrite (byte_of_eqb _ _ E0). destruct s as [|d s]; [done|]. unfold isDecimalDigit. by destruct (is_digit d).
    - unfold isDecimalDigit. destruct (is_digit c) eqn:Hc; [|done].
      cbn [span_digits]. rewrite Hc. destruct (span_digits s) as [d r]. cbn [snd]. destruct r as [|x r]; [done|].
      destruct (String.eqb_spec (String c d) "0") as [[= -> ->]|]; done. }
  destruct (scan_integer s1) as [[i s2]|]; [|done]. cbn [mbind option_bind].
  assert ((match s2 with String d _ => if (i =s "0") && is_digit d then None else Some s2 | EmptyString => Some s2 end) = Some s2
    ∨ ∃ d s, s2 = String d s ∧ is_digit d = true
       ∧ (match s2 with String d _ => if (i =s "0") && is_digit d then None else Some s2 | EmptyString => Some s2 end) = None) as [-> | (d & s & -> & Hd & ->)].
  { destruct s2 as [|d s]; [by left|]. destruct (i =s "0"); [|by left]. destruct (is_digit d) eqn:Hd; [right|by left].
    by exists d, s. }
  - rewrite limit_fraction_spec. destruct (scan_fraction s2) as [[f s3]|]; [|done]. cbn [mbind option_bind].
    rewrite limit_exponent_spec. destruct (scan_exponent s3) as [[e s4]|]; [|done]. cbn [mbind option_bind].
    unfold exponent_result. destruct (s4 =s ""); [|done].
    destruct (Z.abs (exponent_value e) <=? MaxJSONNumberExponent); [|done]. cbn [andb]. f_equal.
    apply eq_true_iff_eq. unfold MaxJSONNumberExponent. rewrite andb_true_iff, !Z.leb_le. lia.
  - pose proof (digit_not_point d Hd) as Hp. pose proof (digit_not_mark d Hd) as Hm.
    unfold not_point, is_point, not_mark, is_exponent_mark in Hp, Hm.
    apply negb_true_iff in Hp, Hm. unfold scan_fraction. rewrite Hp. cbn [mbind option_bind].
    unfold scan_exponent. rewrite Hm. done.
Qed.

(** ** The comparison, against equality in the JSON data model *)

Inductive same_json : json → json → Prop :=
  | same_null : same_json JNull JNull
  | same_bool b : same_json (JBool b) (JBool b)
  | same_str s : same_json (JStr s) (JStr s)
  | same_num a b v w :
      lexeme_value a = Some v → lexeme_value b = Some w → same_decimal v w → same_json (JNum a) (JNum b)
  | same_arr l r : Forall2 same_json l r → same_json (JArr l) (JArr r)
  | same_obj l r :
      length l = length r → Forall (λ p, ∃ w, assoc p.1 r = Some w ∧ same_json p.2 w) l →
      same_json (JObj l) (JObj r).

Fixpoint lexemes_ok (j : json) : bool :=
  match j with
  | JNum lex => number_lexeme lex
  | JArr l => forallb lexemes_ok l
  | JObj l => forallb (λ p, lexemes_ok p.2) l
  | _ => true
  end.

Lemma numbers_ok_lexemes j : numbers_ok j = true → lexemes_ok j = true.
Proof.
  induction j as [| |lex| |l IH|l IH] using json_nested_ind; simpl; try done.
  - rewrite limit_parts. destruct (lexeme_parts lex) eqn:E; [|done]. intros _.
    apply lexeme_parts_number. by rewrite E.
  - rewrite !forallb_forall. rewrite List.Forall_forall in IH. auto.
  - rewrite !forallb_forall. rewrite List.Forall_forall in IH. auto.
Qed.

(** The loops of [semanticEqual], named. *)
Section Loops.
Variable depth : Z.

Fixpoint equal_items (l r : list json) (budget : Z) {struct l} : bool * Z :=
  match l, r with
  | x :: l', y :: r' =>
      let '(same, budget) := semanticEqual x y (depth + 1) budget in
      if same then equal_items l' r' budget else (false, budget)
  | _, _ => (true, budget)
  end.

Variable r : list (string * json).

Fixpoint equal_members (l : list (string * json)) (budget : Z) {struct l} : bool * Z :=
  match l with
  | (key, item) :: l' =>
      match assoc key r with
      | None => (false, budget)
      | Some other =>
          let '(same, budget) := semanticEqual item other (depth + 1) budget in
          if same then equal_members l' budget else (false, budget)
      end
  | [] => (true, budget)
  end.
End Loops.

Definition has_budget (j : json) (depth budget : Z) : Prop :=
  nodes_of j <= budget ∧ depth + depth_of j <= maxEqualityDepth.

(** Sound whatever the budget; complete, and exact in what it spends, while it lasts. *)
Definition equal_correct (x : json) : Prop :=
  ∀ y depth budget, lexemes_ok x = true → lexemes_ok y = true →
    let '(same, rest) := semanticEqual x y depth budget in
    (same = true → same_json x y ∧ rest = budget - nodes_of x)
    ∧ (has_budget x depth budget → same_json x y → same = true).

Lemma equal_items_correct depth l r budget :
  Forall equal_correct l → forallb lexemes_ok l = true → forallb lexemes_ok r = true → length l = length r →
  let '(same, rest) := equal_items depth l r budget in
  (same = true → Forall2 same_json l r ∧ rest = budget - array_nodes l)
  ∧ (array_nodes l <= budget → depth + 1 + array_depth l <= maxEqualityDepth → Forall2 same_json l r → same = true).
Proof.
  intros Hl. revert r budget. induction Hl as [|x l Hx Hl IH]; intros [|y r] budget Ol Or Hlen; try done.
  { simpl. split; [|done]. split; [constructor|unfold array_nodes; simpl; lia]. }
  cbn [forallb] in Ol, Or. apply andb_prop in Ol as [Ox Ol]. apply andb_prop in Or as [Oy Or].
  injection Hlen as Hlen. cbn [equal_items]. specialize (Hx y (depth + 1) budget Ox Oy).
  destruct (semanticEqual x y (depth + 1) budget) as [[] b1]; destruct Hx as [Hs Hc].
  - destruct Hs as [Hs ->]; [done|]. specialize (IH r (budget - nodes_of x) Ol Or Hlen).
    destruct (equal_items depth l r (budget - nodes_of x)) as [same b2]. destruct IH as [IH1 IH2].
    rewrite array_nodes_cons, array_depth_cons. split.
    + intros E. destruct (IH1 E) as [? ->]. split; [by constructor|lia].
    + intros Hn Hd H2. apply Forall2_cons in H2 as [_ H2]. apply IH2; [lia|lia|done].
  - split; [done|]. rewrite array_nodes_cons, array_depth_cons. intros Hn Hd H2.
    apply Forall2_cons in H2 as [Hxy _]. pose proof (array_nodes_pos l). apply Hc; [split; lia|done].
Qed.

Lemma assoc_lexemes k w r : forallb (λ p, lexemes_ok p.2) r = true → assoc k r = Some w → lexemes_ok w = true.
Proof.
  rewrite forallb_forall. intros H Ha%assoc_In. apply (H (k, w)). by apply list_elem_of_In.
Qed.

Lemma equal_members_correct depth r l budget :
  Forall (λ p, equal_correct p.2) l → forallb (λ p, lexemes_ok p.2) l = true → forallb (λ p, lexemes_ok p.2) r = true →
  let '(same, rest) := equal_members depth r l budget in
  (same = true → Forall (λ p, ∃ w, assoc p.1 r = Some w ∧ same_json p.2 w) l ∧ rest = budget - object_nodes l)
  ∧ (object_nodes l <= budget → depth + 1 + object_depth l <= maxEqualityDepth →
     Forall (λ p, ∃ w, assoc p.1 r = Some w ∧ same_json p.2 w) l → same = true).
Proof.
  intros Hl. revert budget. induction Hl as [|[k x] l Hx Hl IH]; intros budget Ol Or.
  { simpl. split; [|done]. split; [constructor|unfold object_nodes; simpl; lia]. }
  cbn [forallb fst snd] in Ol, Hx. apply andb_prop in Ol as [Ox Ol]. cbn [equal_members].
  destruct (assoc k r) as [y|] eqn:Ea.
  2:{ split; [done|]. intros _ _ H2. apply Forall_cons in H2 as [(w & Hw & _) _]. cbn in Hw. congruence. }
  specialize (Hx y (depth + 1) budget Ox (assoc_lexemes _ _ _ Or Ea)).
  destruct (semanticEqual x y (depth + 1) budget) as [[] b1]; destruct Hx as [Hs Hc].
  - destruct Hs as [Hs ->]; [done|]. specialize (IH (budget - nodes_of x) Ol Or).
    destruct (equal_members depth r l (budget - nodes_of x)) as [same b2]. destruct IH as [IH1 IH2].
    rewrite object_nodes_cons, object_depth_cons. cbn [snd]. split.
    + intros E. destruct (IH1 E) as [? ->]. split; [constructor; eauto|lia].
    + intros Hn Hd H2. apply Forall_cons in H2 as [_ H2]. apply IH2; [lia|lia|done].
  - split; [done|]. rewrite object_nodes_cons, object_depth_cons. cbn [snd]. intros Hn Hd H2.
    apply Forall_cons in H2 as [(w & Hw & Hxy) _]. cbn [fst snd] in *. pose proof (object_nodes_pos l).
    apply Hc; [split; lia|congruence].
Qed.

(** One call, with the loops named. *)
Lemma semanticEqual_step left right depth budget :
  semanticEqual left right depth budget =
    let budget := budget - 1 in
    if (budget <? 0) || (maxEqualityDepth <? depth) then (false, budget)
    else
      match canonicalNumber left, canonicalNumber right with
      | Some l, Some r => (decimal_equal l r, budget)
      | Some _, None | None, Some _ => (false, budget)
      | None, None =>
          match left, right with
          | JNull, JNull => (true, budget)
          | JBool a, JBool b => (Bool.eqb a b, budget)
          | JStr a, JStr b => (a =s b, budget)
          | JArr l, JArr r => if negb (length l =? length r)%nat then (false, budget) else equal_items depth l r budget
          | JObj l, JObj r => if negb (length l =? length r)%nat then (false, budget) else equal_members depth r l budget
          | _, _ => (false, budget)
          end
      end.
Proof. by destruct left. Qed.

Lemma canonicalNumber_ok j : lexemes_ok j = true →
  match j with
  | JNum lex => ∃ m e n, lexeme_value lex = Some (m, e) ∧ canonicalNumber j = Some n ∧ decimal_normal n m e
  | _ => canonicalNumber j = None
  end.
Proof. destruct j; try done. intros H. by apply lexeme_decimal in H. Qed.

Lemma semanticEqual_correct x : equal_correct x.
Proof.
  induction x as [|a|lex|s|l IH|l IH] using json_nested_ind; intros y depth budget Ox Oy;
    rewrite semanticEqual_step; cbv zeta.
  all: destruct ((budget - 1 <? 0) || (maxEqualityDepth <? depth)) eqn:Eb;
    [split; [done|]; intros [Hn Hd] _; exfalso;
     match type of Hn with nodes_of ?j <= _ => pose proof (nodes_of_pos j); pose proof (depth_of_nonneg j) end;
     apply orb_prop in Eb as [Eb|Eb]; apply Z.ltb_lt in Eb; lia|]; clear Eb.
  all: pose proof (canonicalNumber_ok _ Ox) as Nx; pose proof (canonicalNumber_ok _ Oy) as Ny; cbv beta iota in Nx.
  all: destruct y as [|b|lex'|s'|l'|l'];
    try (rewrite Nx, Ny); try (destruct Ny as (m' & e' & n' & Hv' & Ny & Hn'); rewrite Ny);
    try (destruct Nx as (m & e & n & Hv & Nx & Hn); rewrite Nx); try rewrite Ny; try rewrite Nx;
    try (split; [done|by intros _ E; inversion E]).
  - split; [|done]. split; [constructor|simpl; lia].
  - split; [|intros _ E; inversion E; apply eqb_reflx]. intros ->%eqb_prop. split; [constructor|simpl; lia].
  - pose proof (decimal_equal_spec _ _ _ _ _ _ Hn Hn') as Hd. split.
    + intros E%Hd. split; [by econstructor|simpl; lia].
    + intros _ E. apply Hd. inversion E; subst. by simplify_eq.
  - split; [|intros _ E; inversion E; apply string_eqb_refl]. intros ->%String.eqb_eq. split; [constructor|simpl; lia].
  - destruct (Nat.eqb_spec (length l) (length l')) as [El|El]; cbn [negb].
    + pose proof (equal_items_correct depth l l' (budget - 1) IH Ox Oy El) as Hi.
      destruct (equal_items depth l l' (budget - 1)) as [same b]. destruct Hi as [H1 H2]. split.
      * intros E. destruct (H1 E) as [? ->]. split; [by constructor|]. simpl. fold (array_nodes l). lia.
      * intros [Hn Hd] E. simpl in Hn, Hd. fold (array_nodes l) in Hn. fold (array_depth l) in Hd.
        apply H2; [lia|lia|by inversion E].
    + split; [done|]. intros _ E. inversion E as [| | | |? ? H2|]; subst. by apply Forall2_length in H2.
  - destruct (Nat.eqb_spec (length l) (length l')) as [El|El]; cbn [negb].
    + pose proof (equal_members_correct depth l' l (budget - 1) IH Ox Oy) as Hi.
      destruct (equal_members depth l' l (budget - 1)) as [same b]. destruct Hi as [H1 H2]. split.
      * intros E. destruct (H1 E) as [? ->]. split; [by constructor|]. simpl. fold (object_nodes l). lia.
      * intros [Hn Hd] E. simpl in Hn, Hd. fold (object_nodes l) in Hn. fold (object_depth l) in Hd.
        apply H2; [lia|lia|by inversion E].
    + split; [done|]. intros _ E. by inversion E.
Qed.

(** ** Properties *)

(** [jsonNumberWithinExponentLimit] is valid exactly on JSON number lexemes, and
    within the limit exactly when both the explicit exponent and the exponent less
    the fraction digits have magnitude at most 1000 (no overflow, however long the
    exponent is). *)
Theorem number_limit_exact raw :
  jsonNumberWithinExponentLimit raw =
    match lexeme_parts raw with
    | None => (false, false)
    | Some (_, _, fraction, e) =>
        ((Z.abs e <=? MaxJSONNumberExponent) && (Z.abs (e - zlen fraction) <=? MaxJSONNumberExponent), true)
    end
  ∧ (is_Some (lexeme_parts raw) ↔ number_lexeme raw = true).
Proof. split; [apply limit_parts|apply lexeme_parts_number]. Qed.

(** Numbers are compared as exact decimals: for any two JSON number lexemes
    [parseDecimal] succeeds and the results are equal exactly when the lexemes denote
    the same rational number. *)
Theorem decimal_comparison_exact a b :
  number_lexeme a = true → number_lexeme b = true →
  ∃ v w n m, lexeme_value a = Some v ∧ lexeme_value b = Some w
    ∧ parseDecimal a = Some n ∧ parseDecimal b = Some m
    ∧ (decimal_equal n m = true ↔ same_decimal v w).
Proof.
  intros (m1 & e1 & n1 & V1 & P1 & N1)%lexeme_decimal (m2 & e2 & n2 & V2 & P2 & N2)%lexeme_decimal.
  exists (m1, e1), (m2, e2), n1, n2. split_and!; try done. by apply decimal_equal_spec.
Qed.

Lemma decimal_comparison_exact_witness :
  ∃ v w n m, lexeme_value "-12.50e3" = Some v ∧ lexeme_value "-125E2" = Some w
    ∧ parseDecimal "-12.50e3" = Some n ∧ parseDecimal "-125E2" = Some m
    ∧ (decimal_equal n m = true ↔ same_decimal v w).
Proof. apply decimal_comparison_exact; reflexivity. Defined.

(** C9: [SemanticEqual] is equality in the JSON data model: it never holds of documents
    that differ (whatever the budget), and it holds of equal documents within 200000
    nodes and depth 256, whatever the order of object members. *)
Theorem semantic_equal_exact x y :
  lexemes_ok x = true → lexemes_ok y = true →
  (SemanticEqual x y = true → same_json x y)
  ∧ (nodes_of x <= maxEqualityNodes → depth_of x <= maxEqualityDepth → same_json x y → SemanticEqual x y = true).
Proof.
  intros Hx Hy. pose proof (semanticEqual_correct x y 0 maxEqualityNodes Hx Hy) as H. unfold SemanticEqual.
  destruct (semanticEqual x y 0 maxEqualityNodes) as [same rest]. destruct H as [H1 H2]. split.
  - intros E. by apply H1.
  - intros Hn Hd. apply H2. by split.
Qed.

Lemma semantic_equal_exact_witness :
  same_json (JObj [("a", JNum "1.0"); ("b", JNull)]) (JObj [("b", JNull); ("a", JNum "10e-1")]).
Proof.
  apply (semantic_equal_exact (JObj [("a", JNum "1.0"); ("b", JNull)]) (JObj [("b", JNull); ("a", JNum "10e-1")]));
    reflexivity.
Defined.
