(* ===== verification/JsonPath.v ===== *)
(** * Singular JSONPath (internal/structuredjson/path.go)

    The bounded path profile: compilation, its limits, and lookup. *)

From S2P Require Import Prelude Json StructuredJson.

Local Open Scope Z_scope.

Definition MaxPathBytes : Z := 1024.
Definition MaxSelectors : Z := 64.

(** [selector]: the kind tag and its field. *)
Inductive selector := selectName (name : string) | selectIndex (index : Z).

Record Path := { expression : string; selectors : list selector; valid : bool }.

(** [Path{}]: the zero value a failed compilation returns. *)
Definition zeroPath : Path := {| expression := ""; selectors := []; valid := false |}.

Definition isIdentifierStart (value : ascii) : bool :=
  (byte_val value =? 95)%N || in_range 65 90 value || in_range 97 122 value.
Definition isIdentifierContinue (value : ascii) : bool := isIdentifierStart value || in_range 48 57 value.

(** The longest prefix in a class: the [for] loops over [end]. *)
Fixpoint span (P : ascii → bool) (s : string) : string * string :=
  match s with
  | String c s' => if P c then let '(a, b) := span P s' in (String c a, b) else ("", s)
  | EmptyString => ("", "")
  end.

(** A selector and the text after it; [s] is the text after the ['.']. *)
Definition parseDotSelector (s : string) : option (selector * string) :=
  match s with
  | String c s' =>
      if isIdentifierStart c then
        let '(a, r) := span isIdentifierContinue s' in Some (selectName (String c a), r)
      else None
  | EmptyString => None
  end.

(** The body of [decodePathString]'s conversion of a single-quoted name. *)
Fixpoint convert_single (content : string) : option string :=
  match content with
  | EmptyString => Some ""
  | String c r =>
      if Ascii.eqb c dquote then (let? t := convert_single r in Some (String backslash (String dquote t)))
      else if negb (Ascii.eqb c backslash) then (let? t := convert_single r in Some (String c t))
      else
        match r with
        | EmptyString => None
        | String e r' =>
            if Ascii.eqb e "'" then (let? t := convert_single r' in Some (String "'" t))
            else if Ascii.eqb e dquote then (let? t := convert_single r' in Some (String backslash (String dquote t)))
            else if Ascii.eqb e backslash || Ascii.eqb e "/" || Ascii.eqb e "b" || Ascii.eqb e "f"
                    || Ascii.eqb e "n" || Ascii.eqb e "r" || Ascii.eqb e "t" || Ascii.eqb e "u"
            then (let? t := convert_single r' in Some (String backslash (String e t)))
            else None
        end
  end.

(** [json.Unmarshal] of a string literal: one string and nothing after it. *)
Definition unmarshal_string (body : string) : option string :=
  match parse_str (body +:+ String dquote "") with
  | Some (value, EmptyString) => Some value
  | _ => None
  end.

Definition decodePathString (content : string) (quote : ascii) : option string :=
  let? body := (if Ascii.eqb quote dquote then Some content else convert_single content) in
  let? value := unmarshal_string body in
  if utf8_valid value then Some value else None.

(** The text up to the first unescaped [quote], and the text after it. *)
Fixpoint scan_quoted (quote : ascii) (escaped : bool) (s : string) : option (string * string) :=
  match s with
  | EmptyString => None
  | String c s' =>
      if escaped then (let? (a, b) := scan_quoted quote false s' in Some (String c a, b))
      else if Ascii.eqb c backslash then (let? (a, b) := scan_quoted quote true s' in Some (String c a, b))
      else if Ascii.eqb c quote then Some ("", s')
      else (let? (a, b) := scan_quoted quote false s' in Some (String c a, b))
  end.

(** [s] is the text after the opening quote. *)
Definition parseQuotedName (quote : ascii) (s : string) : option (string * string) :=
  let? (content, rest) := scan_quoted quote false s in
  let? name := decodePathString content quote in
  Some (name, rest).

(** [s] is the text after the ['[']. *)
Definition parseBracketSelector (s : string) : option (selector * string) :=
  match s with
  | EmptyString => None
  | String c s' =>
      if Ascii.eqb c "'" || Ascii.eqb c dquote then
        let? (name, rest) := parseQuotedName c s' in
        match rest with
        | String "]" rest' => Some (selectName name, rest')
        | _ => None
        end
      else
        let '(d, rest) := span is_digit s in
        match rest with
        | String "]" rest' =>
            if d =s "" then None
            else if (1 <? zlen d) && (match d with String x _ => (byte_val x =? 48)%N | EmptyString => false end) then None
            else match parse_uint 63 d with
                 | Some index => if int_max <? index then None else Some (selectIndex index, rest')
                 | None => None
                 end
        | _ => None
        end
  end.

Definition parse_selector (s : string) : option (selector * string) :=
  match s with
  | String "." s' => parseDotSelector s'
  | String "[" s' => parseBracketSelector s'
  | _ => None
  end.

(** The loop of [CompilePath]; every selector consumes text, so the length of
    the expression is enough fuel ([compile_fuel]). *)
Fixpoint compile_loop (fuel : nat) (s : string) (acc : list selector) : option (result ErrorKind (list selector)) :=
  match fuel with
  | O => None
  | S fuel' =>
      match s with
      | EmptyString => Some (Ok acc)
      | _ =>
          if MaxSelectors <=? Z.of_nat (length acc) then Some (Err ErrorPathLimit)
          else match parse_selector s with
               | None => Some (Err ErrorInvalidPath)
               | Some (item, rest) => compile_loop fuel' rest (acc ++ [item])
               end
      end
  end.

Definition CompilePath (expression : string) : option (result ErrorKind Path) :=
  if (zlen expression =? 0) || negb (utf8_valid expression) then Some (Err ErrorInvalidPath)
  else if MaxPathBytes <? zlen expression then Some (Err ErrorPathLimit)
  else
    match expression with
    | String "$" s =>
        match compile_loop (slen expression) s [] with
        | Some (Ok l) => Some (Ok {| expression := expression; selectors := l; valid := true |})
        | Some (Err e) => Some (Err e)
        | None => None
        end
    | _ => Some (Err ErrorInvalidPath)
    end.

(** One selection. *)
Definition select (current : json) (item : selector) : option json :=
  match item, current with
  | selectName name, JObj object => assoc name object
  | selectIndex index, JArr array =>
      if (index <? 0) || (Z.of_nat (length array) <=? index) then None else array !! Z.to_nat index
  | _, _ => None
  end.

Definition Lookup (p : Path) (root : json) : option json :=
  if negb (valid p) then None
  else foldl (λ current item, let? c := current in select c item) (Some root) (selectors p).

Example compile_1 : CompilePath "$.a['b\'c'][10]" =
  Some (Ok {| expression := "$.a['b\'c'][10]"; selectors := [selectName "a"; selectName "b'c"; selectIndex 10]; valid := true |}).
Proof. vm_compute. reflexivity. Qed.
Example compile_2 : CompilePath "$[01]" = Some (Err ErrorInvalidPath).
Proof. reflexivity. Qed.

(** ** Termination: every selector consumes text *)

Lemma span_app P s a b : span P s = (a, b) → s = a +:+ b.
Proof.
  revert a b. induction s as [|c s IH]; intros a b; simpl; [by intros [= <- <-]|].
  destruct (P c); [|by intros [= <- <-]]. destruct (span P s) as [a' b'] eqn:E. intros [= <- <-].
  rewrite app_string_cons. f_equal. by apply IH.
Qed.

Lemma scan_quoted_shorter q e s a b : scan_quoted q e s = Some (a, b) → (slen b < slen s)%nat.
Proof.
  revert e a b. induction s as [|c s IH]; intros e a b; [done|]. cbn [scan_quoted].
  assert (∀ e', (let? (a, b) := scan_quoted q e' s in Some (String c a, b)) = Some (a, b) → (slen b < slen (String c s))%nat) as H.
  { intros e'. destruct (scan_quoted q e' s) as [[a' b']|] eqn:E; [|done]. intros [= _ <-]. apply IH in E. simpl. lia. }
  destruct e; [apply H|]. destruct (Ascii.eqb c backslash); [apply H|].
  destruct (Ascii.eqb c q); [|apply H]. intros [= _ <-]. simpl. lia.
Qed.

Lemma close_bracket {A} (rest : string) (k : string → option A) x :
  match rest with String "]" r => k r | _ => None end = Some x → ∃ r, rest = String "]" r ∧ k r = Some x.
Proof.
  destruct rest as [|c r]; [done|]. destruct (Ascii.eqb_spec c "]") as [->|Hne]; [by eauto|].
  destruct c as [[] [] [] [] [] [] [] []]; done.
Qed.

Lemma parse_selector_shorter s item rest : parse_selector s = Some (item, rest) → (slen rest < slen s)%nat.
Proof.
  destruct s as [|c s]; [done|]. unfold parse_selector.
  destruct (Ascii.eqb_spec c ".") as [->|Hdot]; [|destruct (Ascii.eqb_spec c "[") as [->|Hopen]].
  - unfold parseDotSelector. destruct s as [|d s]; [done|]. destruct (isIdentifierStart d); [|done].
    destruct (span isIdentifierContinue s) as [a b] eqn:E. intros [= _ <-]. apply span_app in E as ->.
    simpl. rewrite slen_app. lia.
  - unfold parseBracketSelector. destruct s as [|d s]; [done|]. destruct (_ || _).
    + unfold parseQuotedName. destruct (scan_quoted d false s) as [[content r]|] eqn:E; [|done].
      apply scan_quoted_shorter in E. cbn [mbind option_bind].
      destruct (decodePathString content d); [|done]. cbn [mbind option_bind].
      intros H. apply close_bracket in H as (r' & -> & [= _ <-]). simpl in *. lia.
    + destruct (span is_digit (String d s)) as [a b] eqn:E. apply span_app in E. intros H.
      apply close_bracket in H as (r' & -> & H). destruct (a =s ""); [done|]. destruct (_ && _); [done|].
      destruct (parse_uint 63 a); [|done]. destruct (_ <? _); [done|]. injection H as _ <-.
      rewrite E. simpl. rewrite slen_app. simpl. lia.
  - destruct c as [[] [] [] [] [] [] [] []]; done.
Qed.

Lemma compile_fuel fuel s acc : (slen s < fuel)%nat → ∃ r, compile_loop fuel s acc = Some r.
Proof.
  revert s acc. induction fuel as [|fuel IH]; intros s acc Hf; [lia|]. cbn [compile_loop].
  destruct s as [|c s]; [eauto|]. destruct (_ <=? _); [eauto|].
  destruct (parse_selector (String c s)) as [[item rest]|] eqn:E; [|eauto].
  apply parse_selector_shorter in E. apply IH. lia.
Qed.

(** ** Rendering: every list of selectors has an expression *)

Definition render_selector (item : selector) : string :=
  match item with
  | selectName name => "[" +:+ encode_string name +:+ "]"
  | selectIndex index => "[" +:+ dec_Z index +:+ "]"
  end.
Definition render (l : list selector) : string := "$" +:+ string_concat (render_selector <$> l).

Definition selector_ok (item : selector) : bool :=
  match item with
  | selectName name => utf8_valid name
  | selectIndex index => (0 <=? index) && (index <=? int_max)
  end.

(** Text the scan passes over: plain bytes, or one escape and plain bytes. *)
Definition plain (c : ascii) : bool := negb (Ascii.eqb c backslash) && negb (Ascii.eqb c dquote).
Definition passed (t : string) : bool :=
  string_forallb plain t
  || match t with String b (String _ u) => Ascii.eqb b backslash && string_forallb plain u | _ => false end.

Lemma prepend_cons c o : (let? (a, b) := o in Some (String c a, b)) = prepend (String c "") o.
Proof. by destruct o as [[]|]. Qed.

Lemma scan_quoted_plain t s :
  string_forallb plain t = true → scan_quoted dquote false (t +:+ s) = prepend t (scan_quoted dquote false s).
Proof.
  induction t as [|c t IH]; [intros _; rewrite app_string_nil_l; by destruct (scan_quoted _ _ s) as [[]|]|].
  cbn [string_forallb]. unfold plain at 1. intros [[Hb%negb_true_iff Hq%negb_true_iff]%andb_prop Ht]%andb_prop.
  rewrite app_string_cons. cbn [scan_quoted]. by rewrite Hb, Hq, IH, prepend_cons, prepend_app.
Qed.

Lemma scan_quoted_passed t s :
  passed t = true → scan_quoted dquote false (t +:+ s) = prepend t (scan_quoted dquote false s).
Proof.
  intros [H|H]%orb_prop; [by apply scan_quoted_plain|]. destruct t as [|b [|d u]]; [done..|].
  apply andb_prop in H as [->%Ascii.eqb_eq Hu]. rewrite !app_string_cons. cbn [scan_quoted].
  change (Ascii.eqb backslash backslash) with true. cbv iota.
  by rewrite scan_quoted_plain, !prepend_cons, !prepend_app.
Qed.

Lemma high_plain c : negb (ascii7 c) = true → plain c = true.
Proof.
  pose proof (ascii_all (λ c, implb (negb (ascii7 c)) (plain c)) ltac:(vm_compute; reflexivity) c) as H.
  cbv beta in H. by intros E; rewrite E in H.
Qed.

Lemma escape_rune_passed r : rune_ok r = true → passed (escape_rune (Some r)) = true.
Proof.
  intros Hr. destruct r as [|a [|b r]]; [done| |].
  - pose proof (ascii_all (λ c, implb (ascii7 c) (passed (escape_byte c))) ltac:(vm_compute; reflexivity) a) as H.
    cbv beta in H. change (rune_ok (String a "")) with (ascii7 a) in Hr. by rewrite Hr in H.
  - unfold escape_rune. destruct (line_separator _); [done|]. destruct (paragraph_separator _); [done|].
    unfold passed. by rewrite (string_forallb_impl _ _ _ high_plain (rune_high a b r Hr)).
Qed.

Lemma scan_quoted_encode name rest :
  utf8_valid name = true →
  scan_quoted dquote false (encode_body name +:+ String dquote rest) = Some (encode_body name, rest).
Proof.
  intros (rs & Hrs & ->)%utf8_valid_runes. unfold encode_body.
  rewrite <- (app_string_nil_r (string_concat rs)), runes_concat, app_nil_r by done.
  induction rs as [|r rs IH]; [done|]. cbn [forallb] in Hrs. apply andb_prop in Hrs as [Hr Hrs].
  rewrite !fmap_cons, !string_concat_cons, app_string_assoc.
  rewrite scan_quoted_passed by (by apply escape_rune_passed). by rewrite IH.
Qed.

Lemma digit_not_quote c : is_digit c = true → Ascii.eqb c "'" || Ascii.eqb c dquote = false.
Proof.
  pose proof (ascii_all (λ c, implb (is_digit c) (negb (Ascii.eqb c "'" || Ascii.eqb c dquote)))
    ltac:(vm_compute; reflexivity) c) as H.
  cbv beta in H. intros E; rewrite E in H. by apply negb_true_iff.
Qed.

Lemma span_all P d c s : string_forallb P d = true → P c = false → span P (d +:+ String c s) = (d, String c s).
Proof.
  intros Hd Hc. induction d as [|x d IH]; [by rewrite app_string_nil_l; cbn [span]; rewrite Hc|].
  cbn [string_forallb] in Hd. apply andb_prop in Hd as [Hx Hd].
  rewrite app_string_cons. cbn [span]. by rewrite Hx, IH.
Qed.

Lemma parse_selector_render item rest :
  selector_ok item = true → parse_selector (render_selector item +:+ rest) = Some (item, rest).
Proof.
  destruct item as [name|index]; unfold render_selector, selector_ok; intros Hok.
  - unfold encode_string. rewrite !app_string_assoc, (app_string_cons dquote), app_string_assoc.
    change (parse_selector ("[" +:+ ?x)) with (parseBracketSelector x).
    unfold parseBracketSelector. change (Ascii.eqb dquote "'" || Ascii.eqb dquote dquote) with true. cbv iota.
    unfold parseQuotedName. rewrite (app_string_cons dquote), app_string_nil_l, scan_quoted_encode by done.
    cbn [mbind option_bind]. unfold decodePathString, unmarshal_string.
    change (Ascii.eqb dquote dquote) with true. cbn [mbind option_bind].
    rewrite parse_encode_string by done. cbn [mbind option_bind]. by rewrite Hok.
  - apply andb_prop in Hok as [H0%Z.leb_le Hmax%Z.leb_le].
    pose proof (parse_uint_dec_Z 63 index ltac:(unfold int_max in Hmax; lia)) as Hp.
    assert (dec_Z index = dec_N (Z.to_N index)) as E by (destruct index; [done|done|lia]). rewrite E in Hp |- *. clear E.
    pose proof (dec_N_digits (Z.to_N index)) as Hd. pose proof (dec_N_head (Z.to_N index)) as Hlead.
    rewrite !app_string_assoc. change (parse_selector ("[" +:+ ?x)) with (parseBracketSelector x).
    generalize dependent (dec_N (Z.to_N index)). intros d Hp Hd Hlead.
    destruct d as [|c d]; [by destruct Hlead as [|(? & ? & ? & _)]|].
    rewrite app_string_cons. cbn [parseBracketSelector]. pose proof Hd as Hc. cbn [string_forallb] in Hc.
    apply andb_prop in Hc as [Hc _]. rewrite digit_not_quote by done.
    rewrite <- app_string_cons. change ("]" +:+ rest) with (String "]" rest). rewrite span_all by done.
    change (String c d =s "") with false. cbv iota.
    assert ((1 <? zlen (String c d)) && (byte_val c =? 48)%N = false) as ->.
    { destruct Hlead as [E'|(x & y & [= <- <-] & _ & Hx)]; [by injection E' as -> ->|].
      apply N.eqb_neq in Hx. by rewrite Hx, andb_false_r. }
    rewrite Hp. by rewrite (proj2 (Z.ltb_ge _ _) Hmax).
Qed.

Lemma render_selector_nonempty item t : ∃ c s, render_selector item +:+ t = String c s.
Proof. destruct item; unfold render_selector; rewrite app_string_assoc, app_string_cons; eauto. Qed.

Lemma compile_render fuel l acc :
  (slen (string_concat (render_selector <$> l)) < fuel)%nat → forallb selector_ok l = true →
  Z.of_nat (length acc + length l) <= MaxSelectors →
  compile_loop fuel (string_concat (render_selector <$> l)) acc = Some (Ok (acc ++ l)).
Proof.
  revert fuel acc. induction l as [|item l IH]; intros [|fuel] acc Hf Hok Hn; try (simpl in Hf; lia).
  { by rewrite app_nil_r. }
  cbn [forallb] in Hok. apply andb_prop in Hok as [Hi Hok]. rewrite fmap_cons, string_concat_cons in *.
  destruct (render_selector_nonempty item (string_concat (render_selector <$> l))) as (c & s & E).
  cbn [compile_loop]. pose proof (parse_selector_render item (string_concat (render_selector <$> l)) Hi) as Hp.
  pose proof (parse_selector_shorter _ _ _ Hp). rewrite E in *. cbn [length] in Hn.
  rewrite (proj2 (Z.leb_gt _ _)) by lia. rewrite Hp, IH; [by rewrite <- app_assoc|lia|done|].
  rewrite length_app. cbn [length]. lia.
Qed.

Lemma render_utf8 l : forallb selector_ok l = true → utf8_valid (render l) = true.
Proof.
  intros Hok. unfold render. apply utf8_valid_app; [done|]. induction l as [|item l IH]; [done|].
  cbn [forallb] in Hok. apply andb_prop in Hok as [Hi Hok]. rewrite fmap_cons, string_concat_cons.
  apply utf8_valid_app; [|by apply IH]. destruct item as [name|index]; unfold render_selector;
    (apply utf8_valid_app; [done|]; apply utf8_valid_app; [|done]).
  - by apply encode_string_utf8.
  - apply utf8_valid_ascii. apply number_lexeme_ascii7, number_lexeme_dec_Z.
Qed.

(** ** Limits of a compiled path *)

Lemma span_forallb P s : string_forallb P (span P s).1 = true.
Proof.
  induction s as [|c s IH]; [done|]. cbn [span]. destruct (P c) eqn:E; [|done].
  destruct (span P s) as [a b]. cbn [fst string_forallb] in *. by rewrite E.
Qed.
Lemma identifier_ascii7 c : isIdentifierContinue c = true → ascii7 c = true.
Proof.
  pose proof (ascii_all (λ c, implb (isIdentifierContinue c) (ascii7 c)) ltac:(vm_compute; reflexivity) c) as H.
  cbv beta in H. by intros E; rewrite E in H.
Qed.

Lemma parse_selector_ok s item rest : parse_selector s = Some (item, rest) → selector_ok item = true.
Proof.
  destruct s as [|c s]; [done|]. unfold parse_selector.
  destruct (Ascii.eqb_spec c ".") as [->|Hdot]; [|destruct (Ascii.eqb_spec c "[") as [->|Hopen]].
  - unfold parseDotSelector. destruct s as [|d s]; [done|]. destruct (isIdentifierStart d) eqn:Hd; [|done].
    pose proof (span_forallb isIdentifierContinue s) as Hs.
    destruct (span isIdentifierContinue s) as [a b]. intros [= <- _]. cbn [fst selector_ok] in *.
    apply utf8_valid_ascii. cbn [string_forallb].
    rewrite (string_forallb_impl _ _ _ identifier_ascii7 Hs), identifier_ascii7; [done|].
    unfold isIdentifierContinue. by rewrite Hd.
  - unfold parseBracketSelector. destruct s as [|d s]; [done|]. destruct (_ || _).
    + unfold parseQuotedName. destruct (scan_quoted d false s) as [[content r]|]; [|done].
      cbn [mbind option_bind]. unfold decodePathString.
      destruct (if Ascii.eqb d dquote then _ else _) as [body|]; [|done]. cbn [mbind option_bind].
      destruct (unmarshal_string body) as [value|]; [|done]. cbn [mbind option_bind].
      destruct (utf8_valid value) eqn:Hv; [|done]. cbn [mbind option_bind].
      intros H. by apply close_bracket in H as (r' & -> & [= <- _]).
    + destruct (span is_digit (String d s)) as [a b]. intros H.
      apply close_bracket in H as (r' & -> & H). destruct (a =s ""); [done|]. destruct (_ && _); [done|].
      destruct (parse_uint 63 a) as [n|] eqn:En; [|done]. destruct (Z.ltb_spec int_max n); [done|].
      injection H as <- _. cbn [selector_ok]. rewrite (proj2 (Z.leb_le n int_max)) by done.
      rewrite (proj2 (Z.leb_le 0 n)); [done|]. revert En. unfold parse_uint. destruct (_ || _); [done|].
      destruct (_ <=? _); [|done]. intros [= <-]. lia.
  - destruct c as [[] [] [] [] [] [] [] []]; done.
Qed.

Lemma compile_loop_ok fuel s acc l :
  compile_loop fuel s acc = Some (Ok l) → Z.of_nat (length acc) <= MaxSelectors → forallb selector_ok acc = true →
  Z.of_nat (length l) <= MaxSelectors ∧ forallb selector_ok l = true.
Proof.
  revert s acc. induction fuel as [|fuel IH]; intros s acc; [done|]. cbn [compile_loop].
  destruct s as [|c s]; [by intros [= <-]|].
  destruct (Z.leb_spec MaxSelectors (Z.of_nat (length acc))) as [|Hn]; [done|].
  destruct (parse_selector (String c s)) as [[item rest]|] eqn:E; [|done].
  intros H _ Hacc. eapply IH; [exact H| |].
  - rewrite length_app. cbn [length]. lia.
  - rewrite forallb_app, Hacc. cbn [forallb]. by rewrite (parse_selector_ok _ _ _ E).
Qed.

(** ** Lookup *)

(** [v] is what the path leads to from [root]. *)
Inductive leads : list selector → json → json → Prop :=
  | leads_here v : leads [] v v
  | leads_name name l object item v :
      assoc name object = Some item → leads l item v → leads (selectName name :: l) (JObj object) v
  | leads_index index l array item v :
      0 <= index → array !! Z.to_nat index = Some item → leads l item v →
      leads (selectIndex index :: l) (JArr array) v.

Lemma foldl_none l : foldl (λ current item, let? c := current in select c item) None l = None.
Proof. by induction l. Qed.

Lemma select_index_spec array index :
  select (JArr array) (selectIndex index) = if index <? 0 then None else array !! Z.to_nat index.
Proof.
  cbn [select]. destruct (Z.ltb_spec index 0); [done|]. cbn [orb].
  destruct (Z.leb_spec (Z.of_nat (length array)) index); [|done].
  symmetry. apply lookup_ge_None. lia.
Qed.

Lemma foldl_leads l root v :
  foldl (λ current item, let? c := current in select c item) (Some root) l = Some v ↔ leads l root v.
Proof.
  revert root. induction l as [|item l IH]; intros root; cbn [foldl mbind option_bind].
  { split; [intros [= <-]; constructor|intros H; by inversion H]. }
  destruct (select root item) as [next|] eqn:E.
  - rewrite IH. split.
    + intros H. destruct item as [name|index], root; try done; [by econstructor|].
      rewrite select_index_spec in E. destruct (Z.ltb_spec index 0); [done|]. by econstructor.
    + intros H. inversion H as [|? ? ? ? ? Ha Hl|? ? ? ? ? H0 Ha Hl]; subst.
      * cbn [select] in E. by simplify_eq.
      * rewrite select_index_spec, (proj2 (Z.ltb_ge _ _) H0) in E. by simplify_eq.
  - rewrite foldl_none. split; [done|]. intros H. inversion H as [|? ? ? ? ? Ha Hl|? ? ? ? ? H0 Ha Hl]; subst.
    + cbn [select] in E. by simplify_eq.
    + rewrite select_index_spec, (proj2 (Z.ltb_ge _ _) H0) in E. by simplify_eq.
Qed.

(** ** Properties *)

(** Every list of at most 64 valid selectors is the compilation of its bracketed
    rendering when that fits in 1024 bytes: [CompilePath] reads quoted names
    (with their JSON escapes) and indices back exactly. *)
Theorem compile_path_roundtrip l :
  forallb selector_ok l = true → Z.of_nat (length l) <= MaxSelectors → zlen (render l) <= MaxPathBytes →
  CompilePath (render l) = Some (Ok {| expression := render l; selectors := l; valid := true |}).
Proof.
  intros Hok Hn Hb. pose proof (render_utf8 l Hok) as Hu.
  assert (compile_loop (slen (render l)) (string_concat (render_selector <$> l)) [] = Some (Ok l)) as Hc.
  { apply (compile_render _ l []); [|done|done]. unfold render. rewrite slen_app. simpl. lia. }
  change (render l) with (String "$" (string_concat (render_selector <$> l))) in *.
  revert Hc Hu Hb. generalize (string_concat (render_selector <$> l)) as t. intros t Hc Hu Hb.
  unfold CompilePath. rewrite (proj2 (Z.ltb_ge _ _) Hb), Hu, Hc. done.
Qed.

Lemma compile_path_roundtrip_witness :
  CompilePath (render [selectName "a'b"; selectIndex 12; selectName ""])
    = Some (Ok {| expression := render [selectName "a'b"; selectIndex 12; selectName ""];
                  selectors := [selectName "a'b"; selectIndex 12; selectName ""]; valid := true |}).
Proof. apply compile_path_roundtrip; [reflexivity|vm_compute; discriminate|vm_compute; discriminate]. Defined.

(** [CompilePath] always answers; what it accepts is at most 1024 bytes of valid
    UTF-8 and at most 64 selectors whose indices fit an [int], and [Lookup] on
    the compiled path finds a value exactly when the selectors lead to it from
    the root (missing members, out-of-range indices and type mismatches find
    nothing). *)
Theorem compile_path_bounded_lookup e :
  (∃ r, CompilePath e = Some r)
  ∧ ∀ p, CompilePath e = Some (Ok p) →
      expression p = e ∧ utf8_valid e = true ∧ zlen e <= MaxPathBytes
      ∧ Z.of_nat (length (selectors p)) <= MaxSelectors ∧ forallb selector_ok (selectors p) = true
      ∧ ∀ root v, Lookup p root = Some v ↔ leads (selectors p) root v.
Proof.
  unfold CompilePath. destruct ((zlen e =? 0) || negb (utf8_valid e)) eqn:E0; [split; [by eauto|done]|].
  apply orb_false_elim in E0 as [H0 Hu%negb_false_iff].
  destruct (Z.ltb_spec MaxPathBytes (zlen e)) as [|Hb]; [split; [by eauto|done]|].
  destruct e as [|c s]; [done|]. destruct (Ascii.eqb_spec c "$") as [->|Hc].
  2:{ split; [destruct c as [[] [] [] [] [] [] [] []]; try done; by eexists|destruct c as [[] [] [] [] [] [] [] []]; done]. }
  destruct (compile_fuel (slen (String "$" s)) s []) as [[l|err] Hr]; [simpl; lia|..]; rewrite Hr; [|by split; eauto].
  split; [eauto|]. intros p [= <-]. cbn [expression selectors].
  destruct (compile_loop_ok _ _ _ _ Hr) as [Hn Hok]; [done..|]. split_and!; try done.
  intros root v. unfold Lookup. cbn [valid negb selectors]. apply foldl_leads.
Qed.

Lemma compile_path_bounded_lookup_witness :
  ∃ p, CompilePath "$.a[0]" = Some (Ok p) ∧ leads (selectors p) (JObj [("a", JArr [JBool true])]) (JBool true).
Proof.
  eexists. split; [reflexivity|].
  apply (proj2 (compile_path_bounded_lookup "$.a[0]") _ eq_refl). reflexivity.
Defined.
