(* ===== verification/GoValue.v ===== *)
(** * Dynamic values, floats and times

    The part of Go's [any], [float64] and [time.Time] the program stores in
    observation and error details: how they compare, convert and marshal. *)

From S2P Require Import Prelude Json SemanticEqual.

Local Open Scope Z_scope.

(** ** IEEE 754 binary64

    A finite value is [(-1)^neg * m * 2^e]; conversions round to nearest, ties
    to even, as [float64(int)] and [strconv.ParseFloat] do. *)

Inductive float64 :=
  | FNaN
  | FInf (neg : bool)
  | FFin (neg : bool) (m e : Z).

Definition div_half_even (a b : Z) : Z :=
  let q := a / b in
  let r := 2 * (a mod b) in
  if b <? r then q + 1
  else if r <? b then q
  else if Z.even q then q else q + 1.

(** The float nearest to [num / den], for [0 <= num] and [0 < den]. *)
Definition round_float (neg : bool) (num den : Z) : float64 :=
  if num =? 0 then FFin neg 0 0
  else
    let e0 := Z.max (Z.log2 num - Z.log2 den - 53) (- 1074) in
    let quotient e := if 0 <=? e then (num, den * 2 ^ e) else (num * 2 ^ (- e), den) in
    let e := (let '(a, b) := quotient e0 in if 2 ^ 53 <=? a / b then e0 + 1 else e0) in
    let '(a, b) := quotient e in
    let m := div_half_even a b in
    if (0 <=? e) && (2 ^ 1024 <=? m * 2 ^ e) then FInf neg else FFin neg m e.

Definition int_to_float (z : Z) : float64 := round_float (z <? 0) (Z.abs z) 1.

(** [json.Number.Float64] of a JSON number lexeme; out of range is an error. *)
Definition number_to_float (lexeme : string) : option float64 :=
  match lexeme_value lexeme with
  | None => None
  | Some (m, e) =>
      let neg := match lexeme with String c _ => (byte_val c =? 45)%N | EmptyString => false end in
      let f := if 0 <=? e then round_float neg (Z.abs m * 10 ^ e) 1 else round_float neg (Z.abs m) (10 ^ (- e)) in
      match f with FFin _ _ _ => Some f | _ => None end
  end.

(** The magnitude as a fraction. *)
Definition magnitude (m e : Z) : Z * Z := if 0 <=? e then (m * 2 ^ e, 1) else (m, 2 ^ (- e)).

(** Comparison with an integer, [f < z] and [z < f], and integrality. *)
Definition float_lt_int (f : float64) (z : Z) : bool :=
  match f with
  | FNaN => false
  | FInf neg => neg
  | FFin neg m e => let '(a, b) := magnitude m e in (if neg then - a else a) <? z * b
  end.
Definition int_lt_float (z : Z) (f : float64) : bool :=
  match f with
  | FNaN => false
  | FInf neg => negb neg
  | FFin neg m e => let '(a, b) := magnitude m e in z * b <? (if neg then - a else a)
  end.
Definition float_is_integer (f : float64) : bool :=
  match f with
  | FFin _ m e => let '(a, b) := magnitude m e in a mod b =? 0
  | _ => false
  end.
Definition float_to_int (f : float64) : Z :=
  match f with
  | FFin neg m e => let '(a, b) := magnitude m e in let q := a / b in if neg then - q else q
  | _ => 0
  end.

(** *** Shortest decimal formatting ([strconv.FormatFloat(f, _, -1, 64)]) *)

Fixpoint decimal_exponent_small (fuel : nat) (num den k : Z) : Z :=
  match fuel with
  | O => k
  | S fuel' => if den <=? num then k else decimal_exponent_small fuel' (num * 10) den (k - 1)
  end.

(** [floor (log10 (num / den))]; 400 steps cover the subnormals (10^-324). *)
Definition decimal_exponent (num den : Z) : Z :=
  if den <=? num then zlen (dec_Z (num / den)) - 1 else decimal_exponent_small 400 num den 0.

Definition decimal_to_float (d k : Z) : float64 :=
  if 0 <=? k then round_float false (d * 10 ^ k) 1 else round_float false d (10 ^ (- k)).

Definition same_float (f g : float64) : bool :=
  match f, g with
  | FFin _ m e, FFin _ m' e' =>
      let '(a, b) := magnitude m e in let '(a', b') := magnitude m' e' in a * b' =? a' * b
  | _, _ => false
  end.

(** The first of [n] = 1, 2, ... digits with a decimal that reads back as the
    same float, the closer one where two do; 17 digits always suffice. *)
Fixpoint shortest_digits (fuel : nat) (n num den p : Z) (f : float64) : option (Z * Z) :=
  match fuel with
  | O => None
  | S fuel' =>
      let k := p - n + 1 in
      let '(a, b) := if 0 <=? k then (num, den * 10 ^ k) else (num * 10 ^ (- k), den) in
      let lo := a / b in
      let ok d := (0 <? d) && same_float (decimal_to_float d k) f in
      match ok lo, ok (lo + 1) with
      | true, true => Some (div_half_even a b, k)
      | true, false => Some (lo, k)
      | false, true => Some (lo + 1, k)
      | false, false => shortest_digits fuel' (n + 1) num den p f
      end
  end.

Fixpoint zeros (n : nat) : string := match n with O => "" | S n' => String "0" (zeros n') end.
Fixpoint take_string (n : nat) (s : string) : string :=
  match n, s with
  | S n', String c s' => String c (take_string n' s')
  | _, _ => ""
  end.

(** Layout of the digits [ds] of a value whose first digit has weight [10^p]:
    ['f'], or ['e'] when [scientific] (a one-digit exponent keeps one digit). *)
Definition layout (scientific : bool) (ds : string) (p : Z) : string :=
  let n := zlen ds in
  if scientific then
    take_string 1 ds +:+ (if 1 <? n then "." +:+ drop_string 1 ds else "")
    +:+ "e" +:+ (if p <? 0 then "-" +:+ dec_Z (- p) else "+" +:+ dec_Z p)
  else if p <? 0 then "0." +:+ zeros (Z.to_nat (- p - 1)) +:+ ds
  else if n <=? p + 1 then ds +:+ zeros (Z.to_nat (p + 1 - n))
  else take_string (Z.to_nat (p + 1)) ds +:+ "." +:+ drop_string (Z.to_nat (p + 1)) ds.

(** encoding/json's float format: ['e'] below 1e-6 and from 1e21 on. *)
Definition format_float (f : float64) : option string :=
  match f with
  | FNaN | FInf _ => None
  | FFin neg m e =>
      let sign := if neg then "-" else "" in
      if m =? 0 then Some (sign +:+ "0")
      else
        let '(num, den) := magnitude m e in
        match shortest_digits 20 1 num den (decimal_exponent num den) (FFin false m e) with
        | None => None
        | Some (d, k) =>
            Some (sign +:+ layout ((num * 1000000 <? den) || (den * 10 ^ 21 <=? num))
                             (trim_right_zeros (dec_Z d)) (zlen (dec_Z d) - 1 + k))
        end
  end.

Example float_1200 : format_float (int_to_float 1200) = Some "1200".
Proof. vm_compute. reflexivity. Qed.
Example float_tenth : option_map format_float (number_to_float "0.1") = Some (Some "0.1").
Proof. vm_compute. reflexivity. Qed.
Example float_small : option_map format_float (number_to_float "-1.5e-7") = Some (Some "-1.5e-7").
Proof. vm_compute. reflexivity. Qed.
Example float_large : option_map format_float (number_to_float "123456789012345678901234") = Some (Some "1.2345678901234569e+23").
Proof. vm_compute. reflexivity. Qed.

(** ** Dynamic values

    [VNamed] is a value of a named string type: it marshals as a string and is
    not equal to one. *)

Inductive any :=
  | VNil
  | VBool (b : bool)
  | VStr (s : string)
  | VNamed (s : string)
  | VInt (z : Z)
  | VUint (z : Z)
  | VFloat (f : float64)
  | VNumber (lexeme : string)
  | VArr (l : list any)
  | VMap (l : list (string * any)).

(** [v == "s"] and [v == b] on an interface value. *)
Definition is_string (v : any) (s : string) : bool :=
  match v with VStr t => t =s s | _ => false end.
Definition is_bool (v : any) (b : bool) : bool :=
  match v with VBool c => Bool.eqb b c | _ => false end.

(** [m[k]] on a [map[string]any]: the zero value [nil] when absent. *)
Definition get (m : list (string * any)) (k : string) : any :=
  match assoc k m with Some v => v | None => VNil end.

(** ** Marshalling

    [json.Marshal] followed by a decode with [UseNumber]: invalid UTF-8 becomes
    U+FFFD, map keys are visited in byte order and the last of two keys that
    became equal wins. *)

Definition object_of (l : list (string * json)) : list (string * json) :=
  foldl (λ acc p, assoc_set (sanitize p.1) p.2 acc) [] (sort_keys l).

Definition bind_all {A B} (f : A → result string B) : list A → result string (list B) :=
  fix go l := match l with
              | [] => Ok []
              | x :: l' => let! y := f x in let! r := go l' in Ok (y :: r)
              end.

Fixpoint to_json (v : any) : result string json :=
  match v with
  | VNil => Ok JNull
  | VBool b => Ok (JBool b)
  | VStr s | VNamed s => Ok (JStr (sanitize s))
  | VInt z | VUint z => Ok (JNum (dec_Z z))
  | VFloat f => match format_float f with Some s => Ok (JNum s) | None => Err "json: unsupported value" end
  | VNumber s =>
      if s =s "" then Ok (JNum "0")
      else if number_lexeme s then Ok (JNum s) else Err "json: invalid number literal"
  | VArr l => let! r := bind_all to_json l in Ok (JArr r)
  | VMap l =>
      let! r := bind_all (λ p, let! j := to_json p.2 in Ok (p.1, j)) l in Ok (JObj (object_of r))
  end.

(** ** Instants ([time.Time])

    Nanoseconds since the Unix epoch, and the zone offset in seconds. *)

Record Time := { t_ns : Z; t_offset : Z }.

(** The zero time: 1 January of year 1, UTC. *)
Definition zero_ns : Z := - 62135596800 * 10 ^ 9.
Definition zeroTime : Time := {| t_ns := zero_ns; t_offset := 0 |}.
Definition IsZero (t : Time) : bool := t_ns t =? zero_ns.
Definition Before (t u : Time) : bool := t_ns t <? t_ns u.
Definition UTC (t : Time) : Time := {| t_ns := t_ns t; t_offset := 0 |}.

(** [t.Sub(u).Milliseconds()]: the duration saturates at the [int64] bounds. *)
Definition sub_millis (t u : Time) : Z :=
  Z.quot (Z.max int_min (Z.min int_max (t_ns t - t_ns u))) 1000000.

(** Civil date from days since the epoch (proleptic Gregorian). *)
Definition civil_from_days (days : Z) : Z * Z * Z :=
  let z := days + 719468 in
  let era := z / 146097 in
  let doe := z - era * 146097 in
  let yoe := (doe - doe / 1460 + doe / 36524 - doe / 146096) / 365 in
  let doy := doe - (365 * yoe + yoe / 4 - yoe / 100) in
  let mp := (5 * doy + 2) / 153 in
  let d := doy - (153 * mp + 2) / 5 + 1 in
  let m := if mp <? 10 then mp + 3 else mp - 9 in
  let y := yoe + era * 400 + (if m <=? 2 then 1 else 0) in
  (y, m, d).

Definition pad (width : nat) (z : Z) : string :=
  let s := dec_Z z in zeros (width - slen s) +:+ s.

(** The fraction of [RFC3339Nano]: no trailing zeros, no point when zero. *)
Definition format_nanos (ns : Z) : string :=
  let d := trim_right_zeros (pad 9 ns) in if d =s "" then "" else "." +:+ d.

Definition format_offset (offset : Z) : string :=
  if offset =? 0 then "Z"
  else
    let minutes := Z.quot offset 60 in
    let a := Z.abs minutes in
    (if minutes <? 0 then "-" else "+") +:+ pad 2 (a / 60) +:+ ":" +:+ pad 2 (a mod 60).

(** [Time.MarshalJSON]: RFC 3339 with nanoseconds, years 0 to 9999 and offsets
    below 24 hours only. *)
Definition marshal_time (t : Time) : result string json :=
  let local := t_ns t + t_offset t * 10 ^ 9 in
  let secs := local / 10 ^ 9 in
  let ns := local mod 10 ^ 9 in
  let days := secs / 86400 in
  let rem := secs mod 86400 in
  let '(y, m, d) := civil_from_days days in
  if (y <? 0) || (9999 <? y) then Err "Time.MarshalJSON: year outside of range [0,9999]"
  else if 24 <=? Z.abs (Z.quot (t_offset t) 60) / 60 then
    Err "Time.MarshalJSON: timezone hour outside of range [0,23]"
  else
    Ok (JStr (pad 4 y +:+ "-" +:+ pad 2 m +:+ "-" +:+ pad 2 d +:+ "T" +:+ pad 2 (rem / 3600) +:+ ":"
              +:+ pad 2 (rem / 60 mod 60) +:+ ":" +:+ pad 2 (rem mod 60) +:+ format_nanos ns
              +:+ format_offset (t_offset t))).

Example marshal_zero : marshal_time zeroTime = Ok (JStr "0001-01-01T00:00:00Z").
Proof. vm_compute. reflexivity. Qed.
Example marshal_1 : marshal_time {| t_ns := 1735689600123000000; t_offset := 7200 |} = Ok (JStr "2025-01-01T02:00:00.123+02:00").
Proof. vm_compute. reflexivity. Qed.

(** ** Marshalled values are canonical up to key order

    [wf]: valid strings, complete numbers, distinct keys: what encoding sorts
    into the canonical form. *)
Fixpoint wf (j : json) : bool :=
  match j with
  | JNull | JBool _ => true
  | JNum s => number_lexeme s
  | JStr s => utf8_valid s
  | JArr l => forallb wf l
  | JObj l => bool_decide (NoDup l.*1) && forallb (λ p, utf8_valid p.1 && wf p.2) l
  end.

(** ** A formatted float is a JSON number *)

Lemma span_digits_stop d t :
  string_forallb is_digit d = true → match t with String c _ => is_digit c | EmptyString => false end = false →
  span_digits (d +:+ t) = (d, t).
Proof.
  intros Hd Ht. induction d as [|c d IH].
  - rewrite app_string_nil_l. destruct t as [|c t]; [done|]. cbn [span_digits]. by rewrite Ht.
  - cbn [string_forallb] in Hd. apply andb_prop in Hd as [Hc Hd]. rewrite app_string_cons.
    cbn [span_digits]. by rewrite Hc, IH.
Qed.

Lemma mark_not_digit c : is_exponent_mark c = true → is_digit c = false ∧ is_point c = false.
Proof.
  pose proof (ascii_all (λ c, implb (is_exponent_mark c) (negb (is_digit c) && negb (is_point c)))
    ltac:(vm_compute; reflexivity) c) as H.
  cbv beta in H. intros E; rewrite E in H. cbn [implb] in H.
  by apply andb_prop in H as [->%negb_true_iff ->%negb_true_iff].
Qed.

Lemma scan_exponent_of_shape ex : exponent_shape ex → scan_exponent ex = Some (ex, "").
Proof.
  intros [-> | (c & sgn & d & -> & Hc & Hs & Hne & Hd)]; [done|]. unfold scan_exponent.
  unfold is_exponent_mark in Hc. rewrite Hc.
  pose proof (span_digits_all d Hd) as Hspan. destruct Hs as [-> | [-> | ->]].
  - rewrite app_string_nil_l. destruct d as [|x d]; [done|]. pose proof Hd as Hx. cbn [string_forallb] in Hx.
    apply andb_prop in Hx as [Hx _]. apply digit_not_sign in Hx as [H1 H2]. rewrite H1, H2. cbn [orb].
    by rewrite Hspan.
  - change ("+" +:+ d) with (String "+" d). cbv beta iota.
    change ((byte_val "+" =? 43)%N || (byte_val "+" =? 45)%N) with true. cbv beta iota. rewrite Hspan. by destruct d.
  - change ("-" +:+ d) with (String "-" d). cbv beta iota.
    change ((byte_val "-" =? 43)%N || (byte_val "-" =? 45)%N) with true. cbv beta iota. rewrite Hspan. by destruct d.
Qed.

Lemma exponent_stop ex : exponent_shape ex →
  match ex with String c _ => is_digit c | EmptyString => false end = false
  ∧ match ex with String c _ => is_point c | EmptyString => false end = false.
Proof. intros [-> | (c & sgn & d & -> & Hc & _)]; [done|]. by apply mark_not_digit. Qed.

Lemma scan_fraction_of_shape fr ex :
  fraction_shape fr → exponent_shape ex → scan_fraction (fr +:+ ex) = Some (fr, ex).
Proof.
  intros Hf [H1 H2]%exponent_stop. destruct Hf as [-> | (d & -> & Hne & Hd)].
  - rewrite app_string_nil_l. destruct ex as [|c ex]; [done|]. unfold scan_fraction. unfold is_point in H2. by rewrite H2.
  - change (("." +:+ d) +:+ ex) with (String "." (d +:+ ex)). unfold scan_fraction.
    cbv beta iota. change (byte_val "." =? 46)%N with true. cbv beta iota. rewrite span_digits_stop by done. by destruct d.
Qed.

Lemma scan_integer_of_shape i t :
  integer_shape i → match t with String c _ => is_digit c | EmptyString => false end = false →
  scan_integer (i +:+ t) = Some (i, t).
Proof.
  intros [[Hne Hd] Hz] Ht. destruct i as [|c i]; [done|]. rewrite app_string_cons. unfold scan_integer.
  destruct (byte_val c =? 48)%N eqn:E0.
  - unfold is_zero_digit in Hz. rewrite E0, andb_true_r in Hz. apply Z.ltb_ge in Hz.
    destruct i as [|x i]; [done|]. unfold zlen in Hz. simpl in Hz. lia.
  - pose proof Hd as Hc. cbn [string_forallb] in Hc. apply andb_prop in Hc as [-> _].
    rewrite <- app_string_cons. by rewrite span_digits_stop.
Qed.

Lemma lexeme_of_shape (neg : bool) i fr ex :
  integer_shape i → fraction_shape fr → exponent_shape ex →
  number_lexeme ((if neg then "-" else "") +:+ i +:+ fr +:+ ex) = true.
Proof.
  intros Hi Hf He. unfold number_lexeme, scan_number. pose proof Hi as [[Hne Hd] _].
  assert (match (if neg then "-" else "") +:+ i +:+ fr +:+ ex with
    | String c r => if (byte_val c =? 45)%N then (String c "", r) else ("", (if neg then "-" else "") +:+ i +:+ fr +:+ ex)
    | EmptyString => ("", (if neg then "-" else "") +:+ i +:+ fr +:+ ex) end
    = ((if neg then "-" else ""), i +:+ fr +:+ ex)) as ->.
  { destruct neg; [done|]. rewrite app_string_nil_l. destruct i as [|c i]; [done|]. cbn [string_forallb] in Hd.
    apply andb_prop in Hd as [Hc _]. apply digit_not_sign in Hc as [Hc _]. rewrite app_string_cons. by rewrite Hc. }
  rewrite scan_integer_of_shape; [|done|].
  2:{ destruct Hf as [-> | (d & -> & _)]; [|done]. rewrite app_string_nil_l. by apply exponent_stop. }
  cbn [mbind option_bind]. rewrite scan_fraction_of_shape by done. cbn [mbind option_bind].
  by rewrite scan_exponent_of_shape.
Qed.

Lemma zeros_digits n : string_forallb is_digit (zeros n) = true.
Proof. by induction n. Qed.
Lemma take_drop_string n s : take_string n s +:+ drop_string n s = s.
Proof.
  revert s. induction n as [|n IH]; intros s; [by destruct s|]. destruct s as [|c s]; [done|].
  cbn [take_string drop_string]. by rewrite app_string_cons, IH.
Qed.
Lemma take_string_nonempty n s : (0 < n)%nat → s ≠ "" → take_string n s ≠ "".
Proof. destruct n; [lia|]. by destruct s. Qed.
Lemma slen_take n s : (n <= slen s)%nat → slen (take_string n s) = n.
Proof. revert s. induction n as [|n IH]; intros [|c s] H; simpl in *; try lia. rewrite IH; lia. Qed.

Lemma digits_take_drop n s : string_forallb is_digit s = true →
  string_forallb is_digit (take_string n s) = true ∧ string_forallb is_digit (drop_string n s) = true.
Proof. intros H. rewrite <- (take_drop_string n s), string_forallb_app in H. by apply andb_prop in H. Qed.

Lemma integer_shape_lead s : digits_nonempty s → lead_nonzero s = true → integer_shape s.
Proof.
  intros Hd Hl. split; [done|]. destruct s as [|c s]; [done|]. cbn [lead_nonzero] in Hl.
  apply negb_true_iff in Hl. by rewrite Hl, andb_false_r.
Qed.

Lemma dec_Z_digits z : 0 <= z → digits_nonempty (dec_Z z).
Proof.
  intros Hz. assert (dec_Z z = dec_N (Z.to_N z)) as -> by (destruct z; [done|done|lia]).
  split; [|apply dec_N_digits]. by destruct (dec_N_head (Z.to_N z)) as [->|(c & s & -> & _)].
Qed.

Lemma layout_shape scientific ds p :
  digits_nonempty ds → lead_nonzero ds = true →
  ∃ i fr ex, layout scientific ds p = i +:+ fr +:+ ex ∧ integer_shape i ∧ fraction_shape fr ∧ exponent_shape ex.
Proof.
  intros [Hne Hd] Hl. unfold layout. destruct (digits_take_drop 1 ds Hd) as [Ht1 Hr1].
  assert (∀ n, (0 < n)%nat → integer_shape (take_string n ds)) as Htake.
  { intros n Hn. apply integer_shape_lead; [|by destruct n; [lia|]; destruct ds].
    split; [by apply take_string_nonempty|by apply digits_take_drop]. }
  assert (∀ n, (n < slen ds)%nat → fraction_shape ("." +:+ drop_string n ds)) as Hdrop.
  { intros n Hn. right. eexists. split; [done|]. split; [|by apply digits_take_drop]. intros E.
    pose proof (take_drop_string n ds) as Et. rewrite E, app_string_nil_r in Et.
    pose proof (slen_take n ds ltac:(lia)) as El. rewrite Et in El. lia. }
  destruct scientific.
  - exists (take_string 1 ds), (if 1 <? zlen ds then "." +:+ drop_string 1 ds else ""),
      ("e" +:+ (if p <? 0 then "-" +:+ dec_Z (- p) else "+" +:+ dec_Z p)). split_and!; [done|apply Htake; lia| |].
    + destruct (Z.ltb_spec 1 (zlen ds)); [|by left]. apply Hdrop. unfold zlen in *. lia.
    + right. destruct (Z.ltb_spec p 0); [exists "e"%char, "-", (dec_Z (- p))|exists "e"%char, "+", (dec_Z p)];
        (split_and!; [done|done|auto|apply dec_Z_digits; lia]).
  - destruct (Z.ltb_spec p 0) as [Hp|Hp]; [|destruct (Z.leb_spec (zlen ds) (p + 1)) as [Hn|Hn]].
    + exists "0", ("." +:+ (zeros (Z.to_nat (- p - 1)) +:+ ds)), "". rewrite app_string_nil_r. split_and!; [done|done| |by left].
      right. eexists. split; [done|]. split; [by apply nonempty_app_r|]. by rewrite string_forallb_app, zeros_digits.
    + exists (ds +:+ zeros (Z.to_nat (p + 1 - zlen ds))), "", "". rewrite !app_string_nil_r.
      split_and!; [done| |by left|by left]. apply integer_shape_lead; [|by destruct ds].
      split; [by apply nonempty_app_l|]. by rewrite string_forallb_app, zeros_digits, Hd.
    + exists (take_string (Z.to_nat (p + 1)) ds), ("." +:+ drop_string (Z.to_nat (p + 1)) ds), "".
      rewrite app_string_nil_r. split_and!; [done|apply Htake; lia| |by left]. apply Hdrop. unfold zlen in Hn. lia.
Qed.

Lemma shortest_positive fuel n num den p f d k : shortest_digits fuel n num den p f = Some (d, k) → 0 < d.
Proof.
  revert n. induction fuel as [|fuel IH]; intros n; [done|]. cbn [shortest_digits].
  destruct (if 0 <=? p - n + 1 then _ else _) as [a b].
  destruct (Z.ltb_spec 0 (a / b)) as [Hlo|Hlo]; destruct (Z.ltb_spec 0 (a / b + 1)) as [Hhi|Hhi]; cbn [andb]; try lia.
  - destruct (same_float _ _), (same_float _ _); [intros [= <- _]|intros [= <- _]; lia|intros [= <- _]; lia|apply IH].
    unfold div_half_even. repeat case_match; lia.
  - destruct (same_float _ _); [intros [= <- _]; lia|apply IH].
  - apply IH.
Qed.

Lemma format_float_lexeme f s : format_float f = Some s → number_lexeme s = true.
Proof.
  destruct f as [| |neg m e]; [done..|]. unfold format_float.
  destruct (m =? 0); [intros [= <-]; by destruct neg|].
  destruct (magnitude m e) as [num den]. destruct (shortest_digits _ _ _ _ _ _) as [[d k]|] eqn:E; [|done].
  apply shortest_positive in E. intros [= <-].
  pose proof (dec_Z_digits d ltac:(lia)) as [Hne Hd].
  assert (lead_nonzero (dec_Z d) = true) as Hl.
  { assert (dec_Z d = dec_N (Z.to_N d)) as -> by (destruct d; [done|done|lia]).
    destruct (dec_N_head (Z.to_N d)) as [E0|(c & s & -> & _ & Hc)].
    - exfalso. pose proof (digits_val_dec_N (Z.to_N d)) as Hv. rewrite E0 in Hv. cbn in Hv. lia.
    - cbn [lead_nonzero]. unfold is_zero_digit. apply negb_true_iff. by apply N.eqb_neq. }
  apply trim_right_lead in Hl. destruct (trim_right_spec _ Hd) as (_ & _ & Hrd & _).
  destruct (layout_shape ((num * 1000000 <? den) || (den * 10 ^ 21 <=? num)) (trim_right_zeros (dec_Z d)) (zlen (dec_Z d) - 1 + k))
    as (i & fr & ex & -> & Hi & Hf & He); [split; [by destruct (trim_right_zeros _)|done]|done|].
  by apply lexeme_of_shape.
Qed.

(** ** Marshalled values are well formed *)

Section any_induction.
Variable P : any → Prop.
Hypothesis Hnil : P VNil.
Hypothesis Hbool : ∀ b, P (VBool b).
Hypothesis Hstr : ∀ s, P (VStr s).
Hypothesis Hnamed : ∀ s, P (VNamed s).
Hypothesis Hint : ∀ z, P (VInt z).
Hypothesis Huint : ∀ z, P (VUint z).
Hypothesis Hfloat : ∀ f, P (VFloat f).
Hypothesis Hnumber : ∀ s, P (VNumber s).
Hypothesis Harr : ∀ l, Forall P l → P (VArr l).
Hypothesis Hmap : ∀ l, Forall (λ p, P p.2) l → P (VMap l).

Fixpoint any_nested_ind (v : any) : P v :=
  match v with
  | VNil => Hnil
  | VBool b => Hbool b
  | VStr s => Hstr s
  | VNamed s => Hnamed s
  | VInt z => Hint z
  | VUint z => Huint z
  | VFloat f => Hfloat f
  | VNumber s => Hnumber s
  | VArr l => Harr l ((fix go l : Forall P l :=
      match l with
      | [] => Forall_nil_2 P
      | x :: l' => Forall_cons_2 P x l' (any_nested_ind x) (go l')
      end) l)
  | VMap l => Hmap l ((fix go l : Forall (λ p, P p.2) l :=
      match l with
      | [] => Forall_nil_2 _
      | x :: l' => Forall_cons_2 (λ p, P p.2) x l' (any_nested_ind x.2) (go l')
      end) l)
  end.
End any_induction.

Lemma assoc_set_keys {A} k (v : A) l j : j ∈ (assoc_set k v l).*1 → j = k ∨ j ∈ l.*1.
Proof.
  induction l as [|[k' w] l IH]; cbn [assoc_set].
  - rewrite fmap_cons, elem_of_cons. by intros [|?%elem_of_nil]; [left|].
  - destruct (k' =s k); rewrite !fmap_cons, !elem_of_cons; naive_solver.
Qed.

Lemma assoc_set_NoDup {A} k (v : A) l : NoDup l.*1 → NoDup (assoc_set k v l).*1.
Proof.
  induction l as [|[k' w] l IH]; intros H; cbn [assoc_set]; [apply NoDup_singleton|].
  rewrite fmap_cons in H. apply NoDup_cons in H as [Hk Hl].
  destruct (String.eqb_spec k' k) as [->|Hne]; rewrite fmap_cons; constructor; auto.
  cbn [fst] in *. by intros [?|?]%assoc_set_keys.
Qed.

Lemma assoc_set_forall {A} (P : string * A → Prop) k v l : P (k, v) → Forall P l → Forall P (assoc_set k v l).
Proof.
  intros Hkv. induction 1 as [|[k' w] l Hw Hl IH]; cbn [assoc_set]; [by constructor|].
  destruct (k' =s k); by constructor.
Qed.

Lemma insert_key_forall {A} (P : string * A → Prop) p l : P p → Forall P l → Forall P (insert_key p l).
Proof.
  intros Hp. induction 1 as [|q l Hq Hl IH]; cbn [insert_key]; [by constructor|].
  destruct (key_lt q.1 p.1); by repeat constructor.
Qed.
Lemma sort_keys_forall {A} (P : string * A → Prop) l : Forall P l → Forall P (sort_keys l).
Proof. induction 1; [constructor|]. by apply insert_key_forall. Qed.

Lemma object_of_wf l : Forall (λ p, wf p.2 = true) l → wf (JObj (object_of l)) = true.
Proof.
  intros H%sort_keys_forall. unfold object_of.
  assert (∀ m acc, Forall (λ p, wf p.2 = true) m → NoDup acc.*1 →
    Forall (λ p, utf8_valid p.1 && wf p.2 = true) acc →
    wf (JObj (foldl (λ acc p, assoc_set (sanitize p.1) p.2 acc) acc m)) = true) as Hf; [|by apply Hf; [| constructor..]].
  clear. induction m as [|p m IH]; intros acc Hm Hd Ha; cbn [foldl].
  - cbn [wf]. rewrite bool_decide_true by done. apply forallb_forall. intros x Hx. rewrite List.Forall_forall in Ha. auto.
  - apply Forall_cons in Hm as [Hp Hm]. apply IH; [done|by apply assoc_set_NoDup|].
    apply assoc_set_forall; [|done]. cbn [fst snd]. by rewrite sanitize_is_valid, Hp.
Qed.

Lemma bind_all_forall {A B} (f : A → result string B) (P : A → Prop) (Q : B → Prop) l r :
  (∀ x y, P x → f x = Ok y → Q y) → Forall P l → bind_all f l = Ok r → Forall Q r.
Proof.
  intros Hf Hl. revert r. induction Hl as [|x l Hx Hl IH]; intros r; cbn; [by intros [= <-]|].
  intros H. inv_bind. simplify_eq/=. constructor; eauto.
Qed.

Lemma to_json_wf v : ∀ j, to_json v = Ok j → wf j = true.
Proof.
  induction v as [|b|s|s|z|z|f|s|l IH|l IH] using any_nested_ind; intros j; cbn [to_json].
  1,2: by intros [= <-].
  1,2: intros [= <-]; apply sanitize_is_valid.
  1,2: intros [= <-]; apply number_lexeme_dec_Z.
  - destruct (format_float f) eqn:E; [|done]. intros [= <-]. by eapply format_float_lexeme.
  - destruct (s =s ""); [by intros [= <-]|]. destruct (number_lexeme s) eqn:E; [|done]. by intros [= <-].
  - intros H. inv_bind. simplify_eq/=. cbn [wf]. apply forallb_forall. apply List.Forall_forall.
    eapply bind_all_forall; [|exact IH|eassumption]. intros y w Hy E. exact (Hy w E).
  - intros H. inv_bind. simplify_eq/=. apply object_of_wf.
    eapply (bind_all_forall _ (λ p, ∀ j, to_json p.2 = Ok j → wf j = true)); [|exact IH|eassumption].
    intros p q Hp E. cbv beta in E. apply bind_Ok in E as (j & Hj & E). injection E as <-. cbn [snd]. auto.
Qed.
