(* ===== verification/Durations.v ===== *)
(** * Durations (the standard library's [time.Duration])

    [time.ParseDuration] and [Duration.String]: the reader with its 64-bit
    overflow checks and its binary64 fractions, the writer, and the round trip
    between them.  A duration is a signed 64-bit count of nanoseconds.  The
    planner writes every timeout of a plan with [String] and the runner reads
    it again with [ParseDuration]. *)

From S2P Require Import Prelude Json SemanticEqual GoValue.

Local Open Scope Z_scope.

(** ** Floating-point operations on the values of [GoValue] *)

Definition float_sign (f : float64) : bool := match f with FInf neg => neg | FFin neg _ _ => neg | FNaN => false end.

Definition float_mul (f g : float64) : float64 :=
  match f, g with
  | FFin s m e, FFin s' m' e' =>
      let '(a, b) := magnitude m e in let '(a', b') := magnitude m' e' in round_float (xorb s s') (a * a') (b * b')
  | FNaN, _ | _, FNaN => FNaN
  | FInf s, FFin s' m' _ => if m' =? 0 then FNaN else FInf (xorb s s')
  | FFin s m _, FInf s' => if m =? 0 then FNaN else FInf (xorb s s')
  | FInf s, FInf s' => FInf (xorb s s')
  end.

Definition float_div (f g : float64) : float64 :=
  match f, g with
  | FFin s m e, FFin s' m' e' =>
      if m' =? 0 then (if m =? 0 then FNaN else FInf (xorb s s'))
      else let '(a, b) := magnitude m e in let '(a', b') := magnitude m' e' in round_float (xorb s s') (a * b') (b * a')
  | FNaN, _ | _, FNaN => FNaN
  | FInf s, FFin s' _ _ => FInf (xorb s s')
  | FFin s _ _, FInf s' => FFin (xorb s s') 0 0
  | FInf _, FInf _ => FNaN
  end.

(** ** [time.ParseDuration] *)

(** The values the loops of [leadingInt] and [leadingFraction] keep in a [uint64]. *)
Definition two63 : Z := 2 ^ 63.

Definition digit_val (c : ascii) : Z := Z.of_N (byte_val c) - 48.

(** [leadingInt]: the digits at the start; a value above 2^63 is an error. *)
Fixpoint leadingInt (x : Z) (s : string) : option (Z * string) :=
  match s with
  | EmptyString => Some (x, "")
  | String c s' =>
      if negb (is_digit c) then Some (x, s)
      else if two63 / 10 <? x then None
      else
        let x := x * 10 + digit_val c in
        if two63 <? x then None else leadingInt x s'
  end.

(** [leadingFraction]: digits that do not fit any more are skipped. *)
Fixpoint leadingFraction (x : Z) (scale : float64) (overflow : bool) (s : string) : Z * float64 * string :=
  match s with
  | EmptyString => (x, scale, "")
  | String c s' =>
      if negb (is_digit c) then (x, scale, s)
      else if overflow then leadingFraction x scale true s'
      else if (two63 - 1) / 10 <? x then leadingFraction x scale true s'
      else
        let y := x * 10 + digit_val c in
        if two63 <? y then leadingFraction x scale true s'
        else leadingFraction y (float_mul scale (int_to_float 10)) false s'
  end.

(** The two spellings of micro are U+00B5 and U+03BC. *)
Definition micro_sign : string := String (byte_of 194) (String (byte_of 181) "s").
Definition micro_mu : string := String (byte_of 206) (String (byte_of 188) "s").

Definition Nanosecond : Z := 1.
Definition Microsecond : Z := 1000 * Nanosecond.
Definition Millisecond : Z := 1000 * Microsecond.
Definition Second : Z := 1000 * Millisecond.
Definition Minute : Z := 60 * Second.
Definition Hour : Z := 60 * Minute.

Definition unitMap : list (string * Z) :=
  [("ns", Nanosecond); ("us", Microsecond); (micro_sign, Microsecond); (micro_mu, Microsecond);
   ("ms", Millisecond); ("s", Second); ("m", Minute); ("h", Hour)].

Definition unit_byte (c : ascii) : bool := negb (Ascii.eqb c "." || is_digit c).
Fixpoint span_unit (s : string) : string * string :=
  match s with
  | EmptyString => ("", "")
  | String c s' => if unit_byte c then let '(u, r) := span_unit s' in (String c u, r) else ("", s)
  end.

(** The conversion [uint64(f)] of a non-negative float below 2^64. *)
Definition float_to_uint (f : float64) : Z := float_to_int f.

(** [v] units and the fraction [f / scale] of one, in nanoseconds. *)
Definition component_value (v f : Z) (scale : float64) (unit : Z) : option Z :=
  if two63 / unit <? v then None
  else
    let v := v * unit in
    if 0 <? f then
      let v := v + float_to_uint (float_mul (int_to_float f) (float_div (int_to_float unit) scale)) in
      if two63 <? v then None else Some v
    else Some v.

(** One round of the loop: a number and its unit. *)
Definition component (s : string) : option (Z * string) :=
  match s with
  | EmptyString => None
  | String c _ =>
      if negb (Ascii.eqb c "." || is_digit c) then None
      else
        let? (v, s1) := leadingInt 0 s in
        let pre := negb (slen s1 =? slen s)%nat in
        let '(f, scale, s2, post) :=
          match s1 with
          | String d s' =>
              if Ascii.eqb d "." then
                let '(f, scale, s2) := leadingFraction 0 (int_to_float 1) false s' in (f, scale, s2, negb (slen s2 =? slen s')%nat)
              else (0, int_to_float 1, s1, false)
          | EmptyString => (0, int_to_float 1, s1, false)
          end in
        if negb pre && negb post then None
        else
          let '(u, s3) := span_unit s2 in
          if u =s "" then None
          else
            let? unit := assoc u unitMap in
            let? v := component_value v f scale unit in
            Some (v, s3)
  end.

(** Each round consumes at least the unit, so the length of the text bounds
    the rounds. *)
Fixpoint components (fuel : nat) (d : Z) (s : string) : option Z :=
  match fuel with
  | O => None
  | S fuel' =>
      match s with
      | EmptyString => Some d
      | _ =>
          let? (v, s') := component s in
          let d := d + v in
          if two63 <? d then None else components fuel' d s'
      end
  end.

Definition ParseDuration (s : string) : option Z :=
  let '(neg, s) :=
    match s with
    | String c s' => if Ascii.eqb c "-" || Ascii.eqb c "+" then (Ascii.eqb c "-", s') else (false, s)
    | EmptyString => (false, s)
    end in
  if s =s "0" then Some 0
  else if s =s "" then None
  else
    let? d := components (S (slen s)) 0 s in
    if neg then Some (- d)
    else if two63 - 1 <? d then None
    else Some d.

Example parse_duration_1 :
  List.map ParseDuration ["0"; "1.5s"; "-2h45m"; "100ms"; "1h1m0.000000001s"; ".5m"; "5."; "3"; ""; "1us"; "9223372036854775807ns"; "9223372036854775808ns"; "-9223372036854775808ns"; "2562047h47m16.854775808s"; "0.9223372036854775808123456789h"]
  = [Some 0; Some 1500000000; Some (- 9900000000000); Some 100000000; Some 3660000000001; Some 30000000000; None; None; None; Some 1000;
     Some 9223372036854775807; None; Some (- 9223372036854775808); None; Some 3320413933267].
Proof. vm_compute. reflexivity. Qed.

(** ** [Duration.String] *)

Definition digit_char (d : Z) : ascii := byte_of (Z.to_N (48 + d)).

(** [fmtFrac]: the last [prec] digits without trailing zeros, written from the
    right, and the quotient. *)
Fixpoint fmtFrac (prec : nat) (v : Z) (print : bool) (acc : string) : string * Z :=
  match prec with
  | O => ((if print then String "." acc else acc), v)
  | S prec' =>
      let digit := v mod 10 in
      let print := print || negb (digit =? 0) in
      fmtFrac prec' (v / 10) print (if print then String (digit_char digit) acc else acc)
  end.

(** A quotient with its fraction and a unit. *)
Definition fmt_unit (u : Z) (prec : nat) (unit : string) : string :=
  let '(frac, v) := fmtFrac prec u false "" in dec_Z v +:+ frac +:+ unit.

Definition format_unsigned (u : Z) : string :=
  if u <? Second then
    if u =? 0 then "0s"
    else if u <? Microsecond then fmt_unit u 0 "ns"
    else if u <? Millisecond then fmt_unit u 3 micro_sign
    else fmt_unit u 6 "ms"
  else
    let '(frac, s) := fmtFrac 9 u false "" in
    let seconds := dec_Z (s mod 60) +:+ frac +:+ "s" in
    let m := s / 60 in
    if m =? 0 then seconds
    else
      let h := m / 60 in
      (if h =? 0 then "" else dec_Z h +:+ "h") +:+ dec_Z (m mod 60) +:+ "m" +:+ seconds.

Definition Duration_String (d : Z) : string := if d <? 0 then "-" +:+ format_unsigned (- d) else format_unsigned d.

Example duration_string_1 :
  List.map Duration_String [0; 1; 1500; 1100000; 1500000000; 60 * Second; 3600 * Second; 5400 * Second; - 1; 2 ^ 63 - 1; - 2 ^ 63]
  = ["0s"; "1ns"; "1.5" +:+ micro_sign; "1.1ms"; "1.5s"; "1m0s"; "1h0m0s"; "1h30m0s"; "-1ns";
     "2562047h47m16.854775807s"; "-2562047h47m16.854775808s"].
Proof. vm_compute. reflexivity. Qed.

(** ** Exact floats

    A float holds the natural number [n]: products and quotients of small
    numbers that are integers are exact. *)

Definition holds_nat (f : float64) (n : Z) : Prop :=
  ∃ m e, f = FFin false m e ∧ (magnitude m e).1 = n * (magnitude m e).2 ∧ 0 < (magnitude m e).2 ∧ 0 <= m.

Lemma div_half_even_exact q b : 0 < b → div_half_even (q * b) b = q.
Proof.
  intros Hb. unfold div_half_even. rewrite Z.div_mul, Z.mod_mul by lia.
  destruct (b <? 2 * 0) eqn:E; [apply Z.ltb_lt in E; lia|].
  by destruct (2 * 0 <? b) eqn:E2; [|apply Z.ltb_ge in E2; lia].
Qed.

Lemma log2_product n den : 0 < n → 0 < den → Z.log2 n <= Z.log2 (n * den) - Z.log2 den <= Z.log2 n + 1.
Proof.
  intros Hn Hd. pose proof (Z.log2_mul_below n den Hn Hd). pose proof (Z.log2_mul_above n den ltac:(lia) ltac:(lia)). lia.
Qed.

Lemma round_float_exact n den : 0 <= n < 2 ^ 53 → 0 < den → holds_nat (round_float false (n * den) den) n.
Proof.
  intros Hn Hd. unfold round_float. destruct (Z.eqb_spec (n * den) 0) as [E|E].
  { exists 0, 0. repeat split; simpl; lia. }
  assert (0 < n) as Hn0 by nia. pose proof (log2_product n den Hn0 Hd) as Hl.
  assert (0 <= Z.log2 n <= 52) as Hn2.
  { split; [apply Z.log2_nonneg|]. apply Z.lt_succ_r. apply Z.log2_lt_pow2; lia. }
  set (e0 := Z.max _ _). assert (- 1074 <= e0 <= 0) as He0 by lia.
  set (e := (let '(a, b) := if 0 <=? e0 then _ else _ in _) : Z).
  assert (- 1074 <= e <= 0) as He.
  { unfold e. destruct (Z.leb_spec 0 e0) as [Hz|Hz].
    - replace e0 with 0 in * by lia. rewrite Z.pow_0_r, Z.mul_1_r, Z.div_mul by lia.
      destruct (Z.leb_spec (2 ^ 53) n); lia.
    - destruct (_ <=? _); lia. }
  clearbody e. destruct (Z.leb_spec 0 e) as [Hz|Hz].
  - assert (e = 0) as -> by lia. rewrite Z.pow_0_r, !Z.mul_1_r, div_half_even_exact by lia. cbn [andb].
    destruct (Z.leb_spec (2 ^ 1024) n) as [Hbig|_].
    { exfalso. assert (2 ^ 53 < 2 ^ 1024) by (vm_compute; reflexivity). lia. }
    exists n, 0. unfold magnitude. simpl. split_and!; [done|lia..].
  - replace (n * den * 2 ^ (- e)) with (n * 2 ^ (- e) * den) by ring.
    rewrite div_half_even_exact by lia. cbn [andb].
    exists (n * 2 ^ (- e)), e. unfold magnitude. destruct (Z.leb_spec 0 e); [lia|]. simpl.
    pose proof (Z.pow_pos_nonneg 2 (- e) ltac:(lia) ltac:(lia)). repeat split; nia.
Qed.

Lemma int_to_float_exact n : 0 <= n < 2 ^ 53 → holds_nat (int_to_float n) n.
Proof.
  intros H. unfold int_to_float. destruct (Z.ltb_spec n 0); [lia|].
  rewrite Z.abs_eq, <- (Z.mul_1_r n) at 1 by lia. by apply round_float_exact.
Qed.

Lemma float_mul_exact f g n n' : holds_nat f n → holds_nat g n' → 0 <= n * n' < 2 ^ 53 → holds_nat (float_mul f g) (n * n').
Proof.
  intros (m & e & -> & H1 & H2 & _) (m' & e' & -> & H1' & H2' & _) Hn. unfold float_mul. cbn [xorb].
  destruct (magnitude m e) as [a b], (magnitude m' e') as [a' b']. simpl in *. subst a a'.
  replace (n * b * (n' * b')) with (n * n' * (b * b')) by ring. apply round_float_exact; [done|nia].
Qed.

Lemma float_div_exact f g n n' q :
  holds_nat f n → holds_nat g n' → n = q * n' → 0 < n' → 0 <= q < 2 ^ 53 → holds_nat (float_div f g) q.
Proof.
  intros (m & e & -> & H1 & H2 & Hm) (m' & e' & -> & H1' & H2' & Hm') -> Hn' Hq. unfold float_div. cbn [xorb].
  destruct (Z.eqb_spec m' 0) as [->|].
  { exfalso. unfold magnitude in *. destruct (0 <=? e'); simpl in *; nia. }
  destruct (magnitude m e) as [a b], (magnitude m' e') as [a' b']. simpl in *. subst a a'.
  replace (q * n' * b * b') with (q * (b * (n' * b'))) by ring. apply round_float_exact; nia.
Qed.

Lemma float_to_uint_exact f n : holds_nat f n → float_to_uint f = n.
Proof.
  intros (m & e & -> & H1 & H2 & _). unfold float_to_uint, float_to_int.
  destruct (magnitude m e) as [a b]. simpl in *. subst a. apply Z.div_mul. lia.
Qed.

(** ** Reading what [String] writes *)

Definition starts_digit (s : string) : bool := match s with String c _ => is_digit c | EmptyString => false end.

Lemma digits_val_app acc a b : digits_val acc (a +:+ b) = digits_val (digits_val acc a) b.
Proof. revert acc. induction a as [|c a IH]; intros acc; [done|]. rewrite app_string_cons. simpl. apply IH. Qed.

Lemma digits_val_ge acc ds : (acc <= digits_val acc ds)%N.
Proof.
  revert acc. induction ds as [|c ds IH]; intros acc; simpl; [lia|].
  etransitivity; [|apply IH]. lia.
Qed.

Lemma digit_val_N c : is_digit c = true → digit_val c = Z.of_N (byte_val c - 48) ∧ 0 <= digit_val c <= 9.
Proof. unfold is_digit, in_range, digit_val. intros H. to_prop. apply N.leb_le in H, H0. lia. Qed.

Lemma step_digits x c ds :
  is_digit c = true → Z.of_N x * 10 + digit_val c = Z.of_N (x * 10 + (byte_val c - 48))
  ∧ Z.of_N (x * 10 + (byte_val c - 48)) <= Z.of_N (digits_val x (String c ds)).
Proof.
  intros [E _]%digit_val_N. rewrite E. split; [lia|]. cbn [digits_val].
  pose proof (digits_val_ge (x * 10 + (byte_val c - 48)) ds). lia.
Qed.

Lemma leading_int_digits x ds rest :
  string_forallb is_digit ds = true → starts_digit rest = false → Z.of_N (digits_val x ds) <= two63 →
  leadingInt (Z.of_N x) (ds +:+ rest) = Some (Z.of_N (digits_val x ds), rest).
Proof.
  revert x. induction ds as [|c ds IH]; intros x Hd Hr Hb.
  - rewrite app_string_nil_l. destruct rest as [|c rest]; [done|]. simpl in *. by rewrite Hr.
  - cbn [string_forallb] in Hd. apply andb_prop in Hd as [Hc Hd]. rewrite app_string_cons. cbn [leadingInt].
    rewrite Hc. cbn [negb]. destruct (step_digits x c ds Hc) as [E1 E2]. pose proof (digit_val_N c Hc) as [_ Hv].
    rewrite E1. unfold two63 in *.
    destruct (Z.ltb_spec (2 ^ 63 / 10) (Z.of_N x)) as [Hbig|_].
    { exfalso. change (2 ^ 63 / 10) with 922337203685477580 in Hbig. lia. }
    destruct (Z.ltb_spec (2 ^ 63) (Z.of_N (x * 10 + (byte_val c - 48)))); [lia|]. by apply IH.
Qed.

Lemma holds_scale scale k : holds_nat scale (10 ^ Z.of_nat k) → (S k <= 15)%nat → holds_nat (float_mul scale (int_to_float 10)) (10 ^ Z.of_nat (S k)).
Proof.
  intros H Hk. rewrite Nat2Z.inj_succ, Z.pow_succ_r, Z.mul_comm by lia.
  apply float_mul_exact; [done|by apply int_to_float_exact|].
  rewrite Z.mul_comm, <- Z.pow_succ_r by lia. split; [lia|].
  apply Z.le_lt_trans with (10 ^ 15); [apply Z.pow_le_mono_r; lia|by vm_compute].
Qed.

Lemma leading_fraction_digits x scale k ds rest :
  holds_nat scale (10 ^ Z.of_nat k) → (k + slen ds <= 15)%nat →
  string_forallb is_digit ds = true → starts_digit rest = false → Z.of_N (digits_val x ds) < 10 ^ 15 →
  ∃ scale', leadingFraction (Z.of_N x) scale false (ds +:+ rest) = (Z.of_N (digits_val x ds), scale', rest)
    ∧ holds_nat scale' (10 ^ Z.of_nat (k + slen ds)).
Proof.
  revert x scale k. induction ds as [|c ds IH]; intros x scale k Hs Hk Hd Hr Hb.
  - rewrite app_string_nil_l. exists scale. rewrite Nat.add_0_r. split; [|done].
    destruct rest as [|c rest]; [done|]. simpl in *. by rewrite Hr.
  - cbn [string_forallb] in Hd. apply andb_prop in Hd as [Hc Hd]. rewrite app_string_cons. cbn [leadingFraction].
    rewrite Hc. cbn [negb]. destruct (step_digits x c ds Hc) as [E1 E2]. pose proof (digit_val_N c Hc) as [_ Hv].
    rewrite E1. destruct (Z.ltb_spec ((two63 - 1) / 10) (Z.of_N x)) as [Hbig|_].
    { exfalso. change ((two63 - 1) / 10) with 922337203685477580 in Hbig. lia. }
    destruct (Z.ltb_spec two63 (Z.of_N (x * 10 + (byte_val c - 48)))) as [Hbig|_].
    { exfalso. change two63 with (2 ^ 63) in Hbig. lia. }
    cbn [String.length] in *. rewrite <- Nat.add_succ_comm in *.
    apply IH; [apply holds_scale; [done|lia]|lia|done|done|done].
Qed.

(** What may follow a component: another one, or the end. *)
Definition next_component (s : string) : bool := match s with String c _ => is_digit c | EmptyString => true end.

Lemma span_unit_app u rest :
  string_forallb unit_byte u = true → next_component rest = true → span_unit (u +:+ rest) = (u, rest).
Proof.
  intros Hu Hr. induction u as [|c u IH].
  - rewrite app_string_nil_l. destruct rest as [|c rest]; [done|]. simpl in *. unfold unit_byte. by rewrite Hr, orb_true_r.
  - cbn [string_forallb] in Hu. apply andb_prop in Hu as [Hc Hu]. rewrite app_string_cons. simpl. by rewrite Hc, IH.
Qed.

(** A name of the unit table is made of unit bytes. *)
Definition unit_name (u : string) (unit : Z) : Prop :=
  assoc u unitMap = Some unit ∧ u ≠ "" ∧ string_forallb unit_byte u = true ∧ 0 < unit.

Lemma unit_name_app u unit rest :
  unit_name u unit → ∃ c s, u +:+ rest = String c s ∧ is_digit c = false ∧ Ascii.eqb c "." = false.
Proof.
  intros (_ & Hne & Hu & _). destruct u as [|c u]; [done|]. rewrite app_string_cons. exists c, (u +:+ rest).
  cbn [string_forallb] in Hu. apply andb_prop in Hu as [Hc _]. unfold unit_byte in Hc.
  apply negb_true_iff, orb_false_elim in Hc as [H1 H2]. done.
Qed.

Lemma dec_N_start n : ∃ c s, dec_N n = String c s ∧ is_digit c = true.
Proof. destruct (dec_N_head n) as [->|(c & s & -> & Hc & _)]; [by eexists _, _|eauto]. Qed.

Lemma dec_Z_nonneg q : 0 <= q → dec_Z q = dec_N (Z.to_N q).
Proof. by destruct q. Qed.

Lemma slen_lt_neq (a b : string) : a ≠ "" → negb (slen b =? slen (a +:+ b))%nat = true.
Proof. intros Ha. apply negb_true_iff, Nat.eqb_neq. rewrite slen_app. destruct a; [done|]. simpl. lia. Qed.

Lemma component_whole q u unit rest :
  0 <= q → unit_name u unit → q * unit <= two63 → next_component rest = true →
  component (dec_Z q +:+ u +:+ rest) = Some (q * unit, rest).
Proof.
  intros Hq Hu Hb Hr. rewrite dec_Z_nonneg by done.
  destruct (dec_N_start (Z.to_N q)) as (c & s & E & Hc). unfold component. rewrite E at 1. rewrite app_string_cons. rewrite Hc, orb_true_r. cbn [negb].
  destruct (unit_name_app u unit rest Hu) as (d & t & Et & Hd & Hdot).
  assert (starts_digit (u +:+ rest) = false) as Hs by (by rewrite Et).
  assert (Z.of_N (digits_val 0 (dec_N (Z.to_N q))) = q) as Hv by (rewrite digits_val_dec_N; lia).
  destruct Hu as (Ha & Hne & Hub & Hpos).
  rewrite (leading_int_digits 0 _ _ (dec_N_digits _) Hs) by (rewrite Hv; nia). rewrite Hv. cbn [mbind option_bind].
  rewrite slen_lt_neq by (by rewrite E). rewrite Et at 1. rewrite Hdot. cbn [negb andb].
  rewrite span_unit_app by done. rewrite (proj2 (String.eqb_neq _ _) Hne), Ha. cbn [mbind option_bind].
  unfold component_value. destruct (Z.ltb_spec (two63 / unit) q) as [Hov|_]; [|done].
  exfalso. pose proof (Z.div_le_lower_bound two63 unit q ltac:(done) ltac:(lia)). lia.
Qed.

Lemma component_fraction q ds u unit prec rest :
  0 <= q → unit_name u unit → unit = 10 ^ Z.of_nat prec → (prec <= 9)%nat →
  ds ≠ "" → string_forallb is_digit ds = true → (slen ds <= prec)%nat →
  let f := Z.of_N (digits_val 0 ds) in
  f < 10 ^ Z.of_nat (slen ds) →
  q * unit + f * 10 ^ Z.of_nat (prec - slen ds) <= two63 → next_component rest = true →
  component (dec_Z q +:+ String "." ds +:+ u +:+ rest) = Some (q * unit + f * 10 ^ Z.of_nat (prec - slen ds), rest).
Proof.
  intros Hq Hu Hunit Hprec Hds Hdd Hlen f Hf Hb Hr. rewrite dec_Z_nonneg by done.
  destruct (dec_N_start (Z.to_N q)) as (c & s & E & Hc). unfold component. rewrite E at 1. rewrite app_string_cons. rewrite Hc, orb_true_r. cbn [negb].
  destruct (unit_name_app u unit rest Hu) as (d & t & Et & Hd & Hdot).
  assert (starts_digit (u +:+ rest) = false) as Hs by (by rewrite Et).
  assert (Z.of_N (digits_val 0 (dec_N (Z.to_N q))) = q) as Hv by (rewrite digits_val_dec_N; lia).
  destruct Hu as (Ha & Hne & Hub & Hpos).
  assert (0 <= f) as Hf0 by (unfold f; lia).
  assert (0 < 10 ^ Z.of_nat (prec - slen ds)) as Hp by lia.
  rewrite (leading_int_digits 0 _ _ (dec_N_digits _)) by (done || rewrite Hv; nia). rewrite Hv. cbn [mbind option_bind].
  rewrite slen_lt_neq by (by rewrite E). rewrite app_string_cons. change (Ascii.eqb "." ".") with true. cbn iota.
  assert (f < 10 ^ 15) as Hf15.
  { eapply Z.lt_le_trans; [exact Hf|]. apply Z.pow_le_mono_r; lia. }
  destruct (leading_fraction_digits 0 (int_to_float 1) 0 ds (u +:+ rest)) as (scale & Es & Hscale);
    [by apply int_to_float_exact|lia|done|done|exact Hf15|].
  change (Z.of_N 0) with 0 in Es. rewrite Es. rewrite slen_lt_neq by done. cbn [negb andb].
  rewrite span_unit_app by done. rewrite (proj2 (String.eqb_neq _ _) Hne), Ha. cbn [mbind option_bind].
  unfold component_value. fold f. rewrite Nat.add_0_l in Hscale.
  destruct (Z.ltb_spec (two63 / unit) q) as [Hov|_].
  { exfalso. pose proof (Z.div_le_lower_bound two63 unit q ltac:(done) ltac:(nia)). lia. }
  assert (unit = 10 ^ Z.of_nat (prec - slen ds) * 10 ^ Z.of_nat (slen ds)) as Hsplit.
  { rewrite Hunit, <- Z.pow_add_r by lia. f_equal. lia. }
  destruct (Z.ltb_spec 0 f) as [Hpf|Hpf].
  - assert (unit <= 10 ^ 9) as Hu9 by (rewrite Hunit; apply Z.pow_le_mono_r; lia).
    assert (holds_nat (float_mul (int_to_float f) (float_div (int_to_float unit) scale)) (f * 10 ^ Z.of_nat (prec - slen ds))) as Hh.
    { assert (f * 10 ^ Z.of_nat (prec - slen ds) < 2 ^ 53) as Hlt by (change (2 ^ 53) with 9007199254740992; nia).
      apply float_mul_exact; [apply int_to_float_exact; change (2 ^ 53) with 9007199254740992; lia| |lia].
      apply (float_div_exact _ _ unit (10 ^ Z.of_nat (slen ds))); [apply int_to_float_exact; change (2 ^ 53) with 9007199254740992; lia|done|done|lia|].
      change (2 ^ 53) with 9007199254740992. nia. }
    rewrite (float_to_uint_exact _ _ Hh). destruct (Z.ltb_spec two63 (q * unit + f * 10 ^ Z.of_nat (prec - slen ds))); [lia|done].
  - replace f with 0 by lia. by rewrite Z.mul_0_l, Z.add_0_r.
Qed.

(** ** The loop ends: every component is consumed text *)

Lemma leading_int_length x s v r : leadingInt x s = Some (v, r) → (slen r <= slen s)%nat.
Proof.
  revert x. induction s as [|c s IH]; intros x; simpl; [by intros [= _ <-]|].
  intros H. case_tests; [done|]. apply IH in H. lia.
Qed.

Lemma leading_fraction_length x scale overflow s f scale' r :
  leadingFraction x scale overflow s = (f, scale', r) → (slen r <= slen s)%nat.
Proof.
  revert x scale overflow. induction s as [|c s IH]; intros x scale overflow; simpl; [by intros [= _ _ <-]|].
  intros H. case_tests; [done| | | |]; apply IH in H; lia.
Qed.

Lemma span_unit_length s u r : span_unit s = (u, r) → slen s = (slen u + slen r)%nat.
Proof.
  revert u. induction s as [|c s IH]; intros u; simpl; [by intros [= <- <-]|].
  destruct (unit_byte c); [|by intros [= <- <-]]. destruct (span_unit s) as [u' r'] eqn:E.
  intros [= <- <-]. simpl. by rewrite (IH u').
Qed.

Lemma component_shorter s v r : component s = Some (v, r) → (slen r < slen s)%nat.
Proof.
  unfold component. destruct s as [|c s]; [done|]. destruct (negb _); [done|].
  destruct (leadingInt 0 (String c s)) as [[n s1]|] eqn:E1; [|done]. cbn [mbind option_bind].
  apply leading_int_length in E1.
  destruct (match s1 with String d s' => _ | EmptyString => _ end) as [[[f scale] s2] post] eqn:E2.
  assert (slen s2 <= slen s1)%nat as H2.
  { destruct s1 as [|d s']; [by injection E2 as _ _ <- _|]. destruct (Ascii.eqb d "."); [|by injection E2 as _ _ <- _].
    destruct (leadingFraction 0 (int_to_float 1) false s') as [[f' scale'] s2'] eqn:E3.
    injection E2 as _ _ <- _. apply leading_fraction_length in E3. simpl. lia. }
  destruct (negb _ && negb post); [done|]. destruct (span_unit s2) as [u s3] eqn:E3.
  apply span_unit_length in E3. destruct (String.eqb_spec u ""); [done|].
  destruct (assoc u unitMap); [|done]. cbn [mbind option_bind].
  destruct (component_value n f scale _); [|done]. cbn [mbind option_bind]. intros [= _ <-].
  destruct u; [done|]. simpl in *. lia.
Qed.

(** Fuel above the length of the text is never used up. *)
Lemma components_fuel fuel fuel' d s :
  (slen s < fuel)%nat → (slen s < fuel')%nat → components fuel d s = components fuel' d s.
Proof.
  revert fuel' d s. induction fuel as [|fuel IH]; intros fuel' d s H H'; [lia|].
  destruct fuel' as [|fuel']; [lia|]. destruct s as [|c s]; [done|]. cbn [components].
  destruct (component (String c s)) as [[v r]|] eqn:E; [|done]. cbn [mbind option_bind].
  apply component_shorter in E. destruct (two63 <? d + v); [done|]. apply IH; lia.
Qed.

Lemma components_step d s v r :
  component s = Some (v, r) → d + v <= two63 →
  components (S (slen s)) d s = components (S (slen r)) (d + v) r.
Proof.
  intros E Hb. pose proof (component_shorter _ _ _ E) as Hl. destruct s as [|c s]; [done|].
  rewrite (components_fuel (S (slen r)) (slen (String c s))) by lia.
  generalize dependent (slen (String c s)). intros n _. cbn [components]. rewrite E. cbn [mbind option_bind].
  destruct (Z.ltb_spec two63 (d + v)); [lia|done].
Qed.

(** ** What [fmtFrac] writes *)

Lemma digit_char_digit v : is_digit (digit_char (v mod 10)) = true ∧ digit_val (digit_char (v mod 10)) = v mod 10.
Proof.
  pose proof (Z.mod_pos_bound v 10 ltac:(lia)). unfold digit_char, is_digit, in_range, digit_val.
  rewrite byte_val_of by lia. rewrite andb_true_iff, !N.leb_le. lia.
Qed.

Lemma mod_split v p : 0 <= v → v mod 10 ^ Z.of_nat (S p) = v / 10 mod 10 ^ Z.of_nat p * 10 + v mod 10.
Proof. intros Hv. rewrite Nat2Z.inj_succ, Z.pow_succ_r, Z.rem_mul_r by lia. lia. Qed.
Lemma div_split v p : v / 10 ^ Z.of_nat (S p) = v / 10 / 10 ^ Z.of_nat p.
Proof. by rewrite Nat2Z.inj_succ, Z.pow_succ_r, Z.div_div by lia. Qed.

Lemma fmt_frac_printing p v acc :
  0 <= v → ∃ ds, fmtFrac p v true acc = (String "." (ds +:+ acc), v / 10 ^ Z.of_nat p)
    ∧ string_forallb is_digit ds = true ∧ slen ds = p ∧ Z.of_N (digits_val 0 ds) = v mod 10 ^ Z.of_nat p.
Proof.
  revert v acc. induction p as [|p IH]; intros v acc Hv.
  - exists "". rewrite Z.mod_1_r, Z.div_1_r. done.
  - cbn [fmtFrac orb]. destruct (IH (v / 10) (String (digit_char (v mod 10)) acc) ltac:(apply Z.div_pos; lia)) as (ds & -> & Hd & Hl & Hval).
    destruct (digit_char_digit v) as [H1 H2]. exists (ds +:+ String (digit_char (v mod 10)) "").
    rewrite <- div_split, mod_split, <- Hval by done. split_and!.
    + by rewrite app_string_assoc, app_string_cons, app_string_nil_l.
    + rewrite string_forallb_app, Hd. simpl. by rewrite H1.
    + rewrite slen_app, Hl. simpl. lia.
    + rewrite digits_val_app. cbn [digits_val]. apply digit_val_N in H1 as [H1 _]. lia.
Qed.

(** The fraction of [v / 10^p]: nothing, or digits that stand for it. *)
Definition fraction_text (p : nat) (r : Z) (frac : string) : Prop :=
  (frac = "" ∧ r = 0)
  ∨ ∃ ds, frac = String "." ds ∧ ds ≠ "" ∧ string_forallb is_digit ds = true ∧ (slen ds <= p)%nat
      ∧ Z.of_N (digits_val 0 ds) < 10 ^ Z.of_nat (slen ds)
      ∧ Z.of_N (digits_val 0 ds) * 10 ^ Z.of_nat (p - slen ds) = r.

Lemma fmt_frac_text p v : 0 <= v → ∃ frac, fmtFrac p v false "" = (frac, v / 10 ^ Z.of_nat p) ∧ fraction_text p (v mod 10 ^ Z.of_nat p) frac.
Proof.
  revert v. induction p as [|p IH]; intros v Hv.
  - exists "". rewrite Z.mod_1_r, Z.div_1_r. split; [done|by left].
  - cbn [fmtFrac orb]. destruct (Z.eqb_spec (v mod 10) 0) as [E|E]; cbn [negb].
    + destruct (IH (v / 10) ltac:(apply Z.div_pos; lia)) as (frac & -> & Hf). exists frac.
      rewrite <- div_split, mod_split, E, Z.add_0_r by done. split; [done|].
      destruct Hf as [[-> Hf]|(ds & -> & H1 & H2 & H3 & H4 & H5)]; [left; split; [done|lia]|].
      right. exists ds. split_and!; [done|done|done|lia|done|]. rewrite <- H5.
      replace (Z.of_nat (S p - slen ds)) with (Z.succ (Z.of_nat (p - slen ds))) by lia. rewrite Z.pow_succ_r by lia. ring.
    + destruct (fmt_frac_printing p (v / 10) (String (digit_char (v mod 10)) "") ltac:(apply Z.div_pos; lia)) as (ds & -> & Hd & Hl & Hval).
      destruct (digit_char_digit v) as [H1 H2]. eexists. rewrite <- div_split. split; [done|]. right.
      exists (ds +:+ String (digit_char (v mod 10)) "").
      assert (Z.of_N (digits_val 0 (ds +:+ String (digit_char (v mod 10)) "")) = v mod 10 ^ Z.of_nat (S p)) as Hnum.
      { rewrite digits_val_app, mod_split, <- Hval by done. cbn [digits_val]. apply digit_val_N in H1 as [H1 _]. lia. }
      rewrite slen_app, Hl. change (slen (String _ "")) with 1%nat. rewrite Hnum.
      replace (p + 1)%nat with (S p) by lia. split_and!; [done|by destruct ds| | lia| |].
      * rewrite string_forallb_app, Hd. simpl. by rewrite H1.
      * apply Z.mod_pos_bound. lia.
      * rewrite Nat.sub_diag. change (10 ^ Z.of_nat 0) with 1. lia.
Qed.

Lemma component_formatted q r frac u unit prec rest :
  0 <= q → unit_name u unit → unit = 10 ^ Z.of_nat prec → (prec <= 9)%nat → fraction_text prec r frac →
  q * unit + r <= two63 → next_component rest = true →
  component (dec_Z q +:+ frac +:+ u +:+ rest) = Some (q * unit + r, rest).
Proof.
  intros Hq Hu Hunit Hprec [[-> ->]|(ds & -> & H1 & H2 & H3 & H4 & <-)] Hb Hr.
  - rewrite app_string_nil_l, Z.add_0_r in *. by apply component_whole.
  - rewrite app_string_cons. by apply component_fraction.
Qed.

Lemma fmt_unit_component u prec name unit :
  0 <= u <= two63 → unit_name name unit → unit = 10 ^ Z.of_nat prec → (prec <= 9)%nat →
  component (fmt_unit u prec name) = Some (u, "").
Proof.
  intros Hu Hn Hunit Hp. unfold fmt_unit. destruct (fmt_frac_text prec u ltac:(lia)) as (frac & -> & Hf).
  rewrite <- Hunit in *. destruct Hn as (Ha & Hne & Hb & Hpos).
  pose proof (Z.div_mod u unit ltac:(lia)) as E. rewrite <- (app_string_nil_r name).
  rewrite (component_formatted _ (u mod unit) frac name unit prec "");
    [|by apply Z.div_pos; lia|done|done|done|done|lia|done].
  f_equal. f_equal. lia.
Qed.

Lemma digit_start_dec q s : 0 <= q → starts_digit (dec_Z q +:+ s) = true.
Proof. intros Hq. rewrite dec_Z_nonneg by done. destruct (dec_N_start (Z.to_N q)) as (c & t & -> & Hc). by rewrite app_string_cons. Qed.
Lemma digit_start_next s : starts_digit s = true → next_component s = true.
Proof. by destruct s. Qed.

Lemma two63_value : two63 = 9223372036854775808. Proof. reflexivity. Qed.

Lemma unit_s : unit_name "s" Second. Proof. by repeat split. Qed.
Lemma unit_m : unit_name "m" Minute. Proof. by repeat split. Qed.
Lemma unit_h : unit_name "h" Hour. Proof. by repeat split. Qed.

(** The two readings the loop has of a formatted duration of a second or more. *)
Lemma components_long u :
  Second <= u <= two63 →
  components (S (slen (format_unsigned u))) 0 (format_unsigned u) = Some u ∧ starts_digit (format_unsigned u) = true.
Proof.
  intros Hu. unfold format_unsigned. destruct (Z.ltb_spec u Second); [lia|].
  change Second with 1000000000 in *.
  destruct (fmt_frac_text 9 u ltac:(lia)) as (frac & -> & Hf). change (10 ^ Z.of_nat 9) with 1000000000 in *.
  set (s := u / 1000000000). pose proof (Z.div_mod u 1000000000 ltac:(lia)) as Eu. fold s in Eu.
  pose proof (Z.mod_pos_bound u 1000000000 ltac:(lia)) as Hr. set (r := u mod 1000000000) in *. clearbody s r.
  pose proof (Z.div_mod s 60 ltac:(lia)) as Es. pose proof (Z.mod_pos_bound s 60 ltac:(lia)) as Hs.
  rewrite two63_value in *.
  assert (∀ d, d + (s mod 60 * 1000000000 + r) <= two63 → 0 <= d →
    components (S (slen (dec_Z (s mod 60) +:+ frac +:+ "s"))) d (dec_Z (s mod 60) +:+ frac +:+ "s")
    = Some (d + (s mod 60 * 1000000000 + r))) as Hsec.
  { intros d Hd Hd0. rewrite two63_value in Hd. rewrite <- (app_string_nil_r "s").
    rewrite (components_step d _ (s mod 60 * 1000000000 + r) ""); [done| |rewrite two63_value; exact Hd].
    apply (component_formatted _ r frac "s" Second 9); [lia|apply unit_s|done|done|done| |done].
    change Second with 1000000000. rewrite two63_value. lia. }
  set (seconds := dec_Z (s mod 60) +:+ frac +:+ "s") in *.
  assert (starts_digit seconds = true) as Hstart by (apply digit_start_dec; lia). clearbody seconds.
  destruct (Z.eqb_spec (s / 60) 0) as [E|E].
  { rewrite E in Es. rewrite Hsec by (rewrite ?two63_value; lia). split; [f_equal; lia|done]. }
  set (m := s / 60) in *. clearbody m.
  pose proof (Z.div_mod m 60 ltac:(lia)) as Em. pose proof (Z.mod_pos_bound m 60 ltac:(lia)) as Hm.
  assert (∀ d, d + (m mod 60 * 60000000000 + (s mod 60 * 1000000000 + r)) <= two63 → 0 <= d →
    components (S (slen (dec_Z (m mod 60) +:+ "m" +:+ seconds))) d (dec_Z (m mod 60) +:+ "m" +:+ seconds)
    = Some (d + (m mod 60 * 60000000000 + (s mod 60 * 1000000000 + r)))) as Hmin.
  { intros d Hd Hd0. rewrite two63_value in Hd.
    rewrite (components_step d _ (m mod 60 * Minute) seconds);
      [|apply component_whole; [lia|apply unit_m| |by apply digit_start_next]|];
      change Minute with 60000000000; rewrite ?two63_value; [|lia..].
    rewrite Hsec by (rewrite ?two63_value; lia). f_equal. ring. }
  assert (starts_digit (dec_Z (m mod 60) +:+ "m" +:+ seconds) = true) as Hstart' by (apply digit_start_dec; lia).
  set (minutes := dec_Z (m mod 60) +:+ "m" +:+ seconds) in *. clearbody minutes.
  destruct (Z.eqb_spec (m / 60) 0) as [E'|E'].
  { rewrite E' in Em. rewrite app_string_nil_l. rewrite Hmin by (rewrite ?two63_value; lia). split; [f_equal; lia|done]. }
  set (h := m / 60) in *. clearbody h. rewrite app_string_assoc. split; [|apply digit_start_dec; lia].
  rewrite (components_step 0 _ (h * Hour) minutes);
    [|apply component_whole; [lia|apply unit_h| |by apply digit_start_next]|];
    change Hour with 3600000000000; rewrite ?two63_value; [|lia..].
  rewrite Hmin by (rewrite ?two63_value; lia). f_equal. lia.
Qed.

Lemma components_format u :
  0 <= u <= two63 →
  components (S (slen (format_unsigned u))) 0 (format_unsigned u) = Some u ∧ starts_digit (format_unsigned u) = true.
Proof.
  intros Hu. destruct (Z.lt_ge_cases u Second) as [Hlt|Hge]; [|apply components_long; lia].
  unfold format_unsigned. destruct (Z.ltb_spec u Second); [|lia].
  destruct (Z.eqb_spec u 0) as [->|E]; [by vm_compute|].
  assert (∀ prec name unit, unit_name name unit → unit = 10 ^ Z.of_nat prec → (prec <= 9)%nat →
    components (S (slen (fmt_unit u prec name))) 0 (fmt_unit u prec name) = Some u ∧ starts_digit (fmt_unit u prec name) = true) as Hall.
  { intros prec name unit Hn Hunit Hp. split.
    - rewrite (components_step 0 _ u ""); [done|by apply (fmt_unit_component u prec name unit)|lia].
    - unfold fmt_unit. destruct (fmtFrac prec u false "") as [frac v] eqn:Ef.
      destruct (fmt_frac_text prec u ltac:(lia)) as (frac' & E' & _). rewrite Ef in E'. injection E' as _ ->.
      apply digit_start_dec, Z.div_pos; lia. }
  destruct (u <? Microsecond); [apply (Hall 0%nat "ns" Nanosecond); [by repeat split|done|lia]|].
  destruct (u <? Millisecond); [apply (Hall 3%nat micro_sign Microsecond); [by repeat split|done|lia]|].
  apply (Hall 6%nat "ms" Millisecond); [by repeat split|done|lia].
Qed.

(** A reading that starts with a digit is neither the text [0] nor signed. *)
Lemma parse_unsigned s d :
  starts_digit s = true → components (S (slen s)) 0 s = Some d →
  ParseDuration s = (if two63 - 1 <? d then None else Some d)
  ∧ ParseDuration ("-" +:+ s) = Some (- d).
Proof.
  intros Hs Hc. assert (s ≠ "0") as Hne by (intros ->; vm_compute in Hc; done).
  destruct s as [|c s]; [done|]. unfold ParseDuration. rewrite app_string_cons, app_string_nil_l.
  assert (Ascii.eqb c "-" || Ascii.eqb c "+" = false) as ->.
  { destruct (Ascii.eqb_spec c "-") as [->|]; [done|]. by destruct (Ascii.eqb_spec c "+") as [->|]. }
  change (Ascii.eqb "-" "-" || Ascii.eqb "-" "+") with true. cbn iota. change (Ascii.eqb "-" "-") with true. cbn iota.
  rewrite (proj2 (String.eqb_neq _ _) Hne). cbn [String.eqb].
  rewrite Hc. cbn [mbind option_bind]. done.
Qed.

(** For every 64-bit duration, what [Duration.String] writes is read back by
    [ParseDuration] as the same duration, to the nanosecond: the fractions go
    through binary64 arithmetic without losing a digit, and the 64-bit overflow
    tests refuse neither end of the range. *)
Theorem duration_string_roundtrip d : is_int64 d = true → ParseDuration (Duration_String d) = Some d.
Proof.
  unfold is_int64, int_min, int_max. intros H. to_prop. unfold Duration_String.
  destruct (Z.ltb_spec d 0).
  - destruct (components_format (- d)) as [Hc Hs]; [change two63 with (2 ^ 63); lia|].
    destruct (parse_unsigned _ _ Hs Hc) as [_ ->]. f_equal. lia.
  - destruct (components_format d) as [Hc Hs]; [change two63 with (2 ^ 63); lia|].
    destruct (parse_unsigned _ _ Hs Hc) as [-> _]. destruct (Z.ltb_spec (two63 - 1) d) as [Hb|]; [|done].
    change two63 with (2 ^ 63) in Hb. lia.
Qed.

Lemma duration_string_roundtrip_witness :
  ParseDuration (Duration_String (- 9223372036854775808)) = Some (- 9223372036854775808)
  ∧ ParseDuration (Duration_String 90000000001) = Some 90000000001 ∧ Duration_String 90000000001 = "1m30.000000001s".
Proof. split; [|split]; [apply duration_string_roundtrip; reflexivity..|vm_compute; reflexivity]. Defined.

(** ** The range of what is read *)

Definition float_nonneg (f : float64) : Prop :=
  match f with FFin neg m _ => neg = false ∧ 0 <= m | FInf neg => neg = false | FNaN => True end.

Lemma div_half_even_nonneg a b : 0 <= a → 0 < b → 0 <= div_half_even a b.
Proof. intros Ha Hb. unfold div_half_even. pose proof (Z.div_pos a b Ha Hb). case_tests; lia. Qed.

Lemma magnitude_nonneg m e : 0 <= m → 0 <= (magnitude m e).1 ∧ 0 < (magnitude m e).2.
Proof. intros Hm. unfold magnitude. destruct (Z.leb_spec 0 e); simpl; split; nia. Qed.

Lemma round_float_nonneg num den : 0 <= num → 0 < den → float_nonneg (round_float false num den).
Proof.
  intros Hn Hd. unfold round_float. destruct (num =? 0); [done|].
  set (e0 := Z.max _ _). set (e := (let '(a, b) := if 0 <=? e0 then _ else _ in _) : Z). clearbody e.
  assert (0 <= (if 0 <=? e then (num, den * 2 ^ e) else (num * 2 ^ (- e), den)).1
    ∧ 0 < (if 0 <=? e then (num, den * 2 ^ e) else (num * 2 ^ (- e), den)).2) as [H1 H2].
  { destruct (Z.leb_spec 0 e); simpl; split; nia. }
  destruct (if 0 <=? e then _ else _) as [a b]. simpl in *.
  destruct (_ && _); [done|]. split; [done|]. by apply div_half_even_nonneg.
Qed.

Lemma float_mul_nonneg f g : float_nonneg f → float_nonneg g → float_nonneg (float_mul f g).
Proof.
  destruct f as [|s|s m e], g as [|s'|s' m' e']; simpl; try done; intros H H'; try (by case_tests; naive_solver).
  destruct H as [-> Hm], H' as [-> Hm']. pose proof (magnitude_nonneg m e Hm). pose proof (magnitude_nonneg m' e' Hm').
  destruct (magnitude m e), (magnitude m' e'). simpl in *. apply round_float_nonneg; nia.
Qed.

Lemma float_div_nonneg f g : float_nonneg f → float_nonneg g → float_nonneg (float_div f g).
Proof.
  destruct f as [|s|s m e], g as [|s'|s' m' e']; simpl; try done; intros H H'; try (by naive_solver).
  destruct H as [-> Hm], H' as [-> Hm']. destruct (Z.eqb_spec m' 0); [by destruct (m =? 0)|].
  pose proof (magnitude_nonneg m e Hm). pose proof (magnitude_nonneg m' e' Hm').
  assert (0 < (magnitude m' e').1) by (unfold magnitude; destruct (Z.leb_spec 0 e'); simpl; nia).
  destruct (magnitude m e), (magnitude m' e'). simpl in *. apply round_float_nonneg; nia.
Qed.

Lemma int_to_float_nonneg n : 0 <= n → float_nonneg (int_to_float n).
Proof. intros Hn. unfold int_to_float. destruct (Z.ltb_spec n 0); [lia|]. apply round_float_nonneg; lia. Qed.

Lemma float_to_uint_nonneg f : float_nonneg f → 0 <= float_to_uint f.
Proof.
  destruct f as [|s|s m e]; simpl; try done. intros [-> Hm]. unfold float_to_uint, float_to_int.
  pose proof (magnitude_nonneg m e Hm). destruct (magnitude m e). simpl in *. apply Z.div_pos; lia.
Qed.

Lemma leading_int_nonneg x s v r : 0 <= x → leadingInt x s = Some (v, r) → 0 <= v.
Proof.
  revert x. induction s as [|c s IH]; intros x Hx; simpl; [by intros [= <- _]|].
  destruct (is_digit c) eqn:Hc; simpl; [|by intros [= <- _]]. apply digit_val_N in Hc as [_ Hc].
  intros H. case_tests. eapply IH; [|exact H]. lia.
Qed.

Lemma leading_fraction_nonneg x scale overflow s f scale' r :
  float_nonneg scale → leadingFraction x scale overflow s = (f, scale', r) → float_nonneg scale'.
Proof.
  revert x scale overflow. induction s as [|c s IH]; intros x scale overflow Hs; simpl; [by intros [= _ <- _]|].
  intros H. case_tests; [done| | | |]; (eapply IH; [|exact H]); try done. apply float_mul_nonneg; [done|by apply int_to_float_nonneg].
Qed.

Lemma component_value_bound v f scale unit n :
  0 <= v → 0 < unit → float_nonneg scale → component_value v f scale unit = Some n → 0 <= n <= two63.
Proof.
  unfold component_value. intros Hv Hu Hs H. pose proof (Z.mul_div_le two63 unit ltac:(lia)).
  destruct (Z.ltb_spec (two63 / unit) v); [done|]. destruct (Z.ltb_spec 0 f); [|simplify_eq/=; nia].
  assert (0 <= float_to_uint (float_mul (int_to_float f) (float_div (int_to_float unit) scale))) as Hf.
  { apply float_to_uint_nonneg, float_mul_nonneg; [apply int_to_float_nonneg; lia|].
    apply float_div_nonneg; [apply int_to_float_nonneg; lia|done]. }
  destruct (Z.ltb_spec two63 (v * unit + float_to_uint (float_mul (int_to_float f) (float_div (int_to_float unit) scale)))); [done|].
  simplify_eq. nia.
Qed.

Lemma unit_positive u unit : assoc u unitMap = Some unit → 0 < unit.
Proof. intros H%assoc_In. unfold unitMap in H. repeat (apply elem_of_cons in H as [[= -> ->]|H]; [done|]). by apply not_elem_of_nil in H. Qed.

Lemma component_bound s v r : component s = Some (v, r) → 0 <= v <= two63.
Proof.
  unfold component. destruct s as [|c s]; [done|]. destruct (negb _); [done|].
  destruct (leadingInt 0 (String c s)) as [[n s1]|] eqn:E1; [|done]. cbn [mbind option_bind].
  apply leading_int_nonneg in E1; [|done].
  destruct (match s1 with String d s' => _ | EmptyString => _ end) as [[[f scale] s2] post] eqn:E2.
  assert (float_nonneg scale) as Hs.
  { pose proof (int_to_float_nonneg 1 ltac:(lia)) as H1.
    destruct s1 as [|d s']; [by injection E2 as _ <- _ _|]. destruct (Ascii.eqb d "."); [|by injection E2 as _ <- _ _].
    destruct (leadingFraction 0 (int_to_float 1) false s') as [[f' scale'] s2'] eqn:E3.
    injection E2 as _ <- _ _. by eapply leading_fraction_nonneg. }
  destruct (negb _ && negb post); [done|]. destruct (span_unit s2) as [u s3]. destruct (String.eqb u ""); [done|].
  destruct (assoc u unitMap) as [unit|] eqn:Ea; [|done]. cbn [mbind option_bind].
  destruct (component_value n f scale unit) as [n'|] eqn:En; [|done]. cbn [mbind option_bind]. intros [= <- _].
  eapply component_value_bound; [done|by eapply unit_positive|exact Hs|exact En].
Qed.

Lemma components_bound fuel d s n : 0 <= d <= two63 → components fuel d s = Some n → 0 <= n <= two63.
Proof.
  revert d s. induction fuel as [|fuel IH]; intros d s Hd; [done|]. cbn [components].
  destruct s as [|c s]; [by intros [= <-]|]. destruct (component (String c s)) as [[v r]|] eqn:E; [|done].
  apply component_bound in E. cbn [mbind option_bind]. destruct (Z.ltb_spec two63 (d + v)); [done|]. apply IH. lia.
Qed.

(** What is read fits 64 bits. *)
Lemma parse_duration_bound s d : ParseDuration s = Some d → is_int64 d = true.
Proof.
  unfold ParseDuration. destruct (match s with String c s' => _ | EmptyString => _ end) as [neg t].
  destruct (t =s "0"); [by intros [= <-]|]. destruct (t =s ""); [done|].
  destruct (components (S (slen t)) 0 t) as [n|] eqn:E; [|done]. cbn [mbind option_bind].
  apply components_bound in E; [|by vm_compute]. rewrite two63_value in *. unfold is_int64, int_min, int_max. intros H.
  apply andb_true_intro. rewrite !Z.leb_le. destruct neg; simplify_eq; [lia|]. case_tests. to_prop. lia.
Qed.
