(* ===== verification/CanonicalJson.v ===== *)
(** * Canonical JSON and digests (internal/canonicaljson)

    [Marshal] and [Digest] on the JSON document of a Go value, and why equal
    digests mean equal documents. *)

From S2P Require Import Prelude Sha256 Json SemanticEqual GoValue.

Local Open Scope Z_scope.

(** ** The operations

    A value's document is what [json.Marshal] and the decode with [UseNumber]
    make of it ([GoValue.to_json] and the documents of the domain records). *)

Fixpoint validateASCIIObjectKeys (value : json) : result string unit :=
  match value with
  | JObj l =>
      (fix members l :=
         match l with
         | [] => Ok tt
         | (key, item) :: l' =>
             if negb (string_forallb ascii7 key) then Err ("canonical JSON object key is not ASCII: " +:+ key)
             else let! _ := validateASCIIObjectKeys item in members l'
         end) l
  | JArr l =>
      (fix items l :=
         match l with
         | [] => Ok tt
         | item :: l' => let! _ := validateASCIIObjectKeys item in items l'
         end) l
  | _ => Ok tt
  end.

Definition Marshal (v : result string json) : result string string :=
  let! normalized := map_err (λ e, "marshal canonical JSON: " +:+ e) v in
  let! _ := validateASCIIObjectKeys normalized in
  Ok (encode normalized).

Definition Digest (v : result string json) : result string string :=
  let! data := Marshal v in
  Ok (digest_text data).

(** ** Sorting keys *)

Lemma insert_key_elem {A} (p q : string * A) l : q ∈ insert_key p l ↔ q = p ∨ q ∈ l.
Proof.
  induction l as [|r l IH]; cbn [insert_key]; [set_solver|].
  destruct (key_lt r.1 p.1); [|set_solver]. rewrite !elem_of_cons, IH. naive_solver.
Qed.

Lemma sort_keys_elem {A} (q : string * A) l : q ∈ sort_keys l ↔ q ∈ l.
Proof.
  induction l as [|p l IH]; [done|]. change (sort_keys (p :: l)) with (insert_key p (sort_keys l)).
  rewrite insert_key_elem, IH, elem_of_cons. done.
Qed.

Lemma key_lt_total a b : a ≠ b → key_lt a b = false → key_lt b a = true.
Proof.
  intros Hne. unfold key_lt. rewrite (String.compare_antisym b a).
  destruct (String.compare a b) eqn:E; try done. apply String.compare_eq_iff in E. congruence.
Qed.

(** Sorting permutes, and forgets the order. *)

Lemma sort_keys_same {A} (l : list (string * A)) : sort_keys l ≡ₚ l.
Proof.
  induction l as [|p l IH]; [done|]. change (insert_key p (sort_keys l) ≡ₚ p :: l). rewrite <- IH at 2.
  generalize (sort_keys l). clear. intros l. induction l as [|q l IH]; [done|]. cbn [insert_key].
  destruct (key_lt q.1 p.1); [|done]. rewrite IH. apply perm_swap.
Qed.

Lemma insert_key_comm {A} (p q : string * A) l :
  p.1 ≠ q.1 → insert_key p (insert_key q l) = insert_key q (insert_key p l).
Proof.
  assert (∀ (p q r : string * A), p.1 ≠ q.1 → key_lt r.1 q.1 = true → key_lt r.1 p.1 = false → key_lt p.1 q.1 = true) as Hlt.
  { clear. intros p q r Hne Hq Hp. destruct (decide (r.1 = p.1)) as [<-|Hr]; [done|].
    apply key_lt_total in Hp; [|done]. rewrite key_lt_spec in *. by eapply string_compare_trans. }
  assert (∀ (p q : string * A), key_lt p.1 q.1 = true → key_lt q.1 p.1 = false) as Hanti.
  { intros a b. unfold key_lt. rewrite (String.compare_antisym b.1 a.1). by destruct (String.compare a.1 b.1). }
  intros Hne. induction l as [|r l IH]; cbn [insert_key].
  - destruct (key_lt q.1 p.1) eqn:E.
    + by rewrite (Hanti q p E).
    + apply key_lt_total in E; [|done]. by rewrite E.
  - destruct (key_lt r.1 q.1) eqn:Eq, (key_lt r.1 p.1) eqn:Ep; cbn [insert_key]; rewrite ?Eq, ?Ep.
    + by rewrite IH.
    + by rewrite (Hlt p q r Hne Eq Ep).
    + by rewrite (Hlt q p r (not_eq_sym Hne) Ep Eq).
    + destruct (key_lt q.1 p.1) eqn:E.
      * by rewrite (Hanti q p E).
      * apply key_lt_total in E; [|done]. by rewrite E.
Qed.

Lemma sort_keys_perm {A} (l l' : list (string * A)) : NoDup l.*1 → l ≡ₚ l' → sort_keys l = sort_keys l'.
Proof.
  intros Hn Hp. revert Hn. induction Hp as [|p l l' Hp IH|p q l|l l' l'' H1 IH1 H2 IH2]; intros Hn.
  - done.
  - rewrite fmap_cons in Hn. apply NoDup_cons in Hn as [_ Hn].
    change (insert_key p (sort_keys l) = insert_key p (sort_keys l')). by rewrite IH.
  - change (insert_key q (insert_key p (sort_keys l)) = insert_key p (insert_key q (sort_keys l))).
    apply insert_key_comm. rewrite !fmap_cons in Hn. apply NoDup_cons in Hn as [Hn _]. set_solver.
  - rewrite IH1 by done. apply IH2. by rewrite <- H1.
Qed.

Lemma keys_sorted_cons {A} (p : string * A) l :
  Forall (λ q, key_lt p.1 q.1 = true) l → keys_sorted l = true → keys_sorted (p :: l) = true.
Proof. destruct 1 as [|q l Hq _]; [done|]. cbn [keys_sorted]. by rewrite Hq. Qed.

Lemma insert_key_sorted {A} (p : string * A) l :
  keys_sorted l = true → p.1 ∉ l.*1 → keys_sorted (insert_key p l) = true.
Proof.
  induction l as [|q l IH]; [done|]. intros Hs Hp. cbn [insert_key].
  rewrite fmap_cons, not_elem_of_cons in Hp. destruct Hp as [Hpq Hp].
  apply keys_sorted_head in Hs as [Hq Hs]. destruct (key_lt q.1 p.1) eqn:E.
  - apply keys_sorted_cons; [|by apply IH]. rewrite Forall_forall in Hq |- *.
    intros r [->|Hr]%insert_key_elem; [done|by apply Hq].
  - apply key_lt_total in E; [|done]. apply keys_sorted_cons; [|by apply keys_sorted_cons].
    constructor; [done|]. eapply Forall_impl; [exact Hq|]. intros r Hr. cbv beta in *.
    rewrite key_lt_spec in *. by eapply string_compare_trans.
Qed.

Lemma sort_keys_keys {A} (l : list (string * A)) k : k ∈ (sort_keys l).*1 ↔ k ∈ l.*1.
Proof.
  rewrite !list_elem_of_fmap. split; intros (p & -> & Hp); exists p; split; try done; by apply sort_keys_elem.
Qed.

Lemma sort_keys_is_sorted {A} (l : list (string * A)) : NoDup l.*1 → keys_sorted (sort_keys l) = true.
Proof.
  induction l as [|p l IH]; [done|]. rewrite fmap_cons. intros [Hp Hl]%NoDup_cons.
  change (sort_keys (p :: l)) with (insert_key p (sort_keys l)).
  apply insert_key_sorted; [by apply IH|]. by rewrite sort_keys_keys.
Qed.

Lemma insert_key_map {A B} (f : A → B) p l :
  insert_key (p.1, f p.2) (List.map (λ q, (q.1, f q.2)) l) = List.map (λ q, (q.1, f q.2)) (insert_key p l).
Proof. induction l as [|q l IH]; [done|]. simpl. destruct (key_lt q.1 p.1); simpl; by rewrite ?IH. Qed.
Lemma sort_keys_map {A B} (f : A → B) l :
  sort_keys (List.map (λ q, (q.1, f q.2)) l) = List.map (λ q, (q.1, f q.2)) (sort_keys l).
Proof.
  induction l as [|p l IH]; [done|]. cbn [List.map].
  change (sort_keys (?x :: ?y)) with (insert_key x (sort_keys y)). by rewrite IH, insert_key_map.
Qed.

(** ** The canonical form *)

Fixpoint canon (j : json) : json :=
  match j with
  | JArr l => JArr (List.map canon l)
  | JObj l => JObj (sort_keys (List.map (λ p, (p.1, canon p.2)) l))
  | _ => j
  end.

Lemma forallb_Forall {A} (f : A → bool) l : forallb f l = true ↔ Forall (λ x, f x = true) l.
Proof. rewrite forallb_forall, List.Forall_forall. done. Qed.

Lemma canon_canonical j : wf j = true → canonical (canon j) = true.
Proof.
  induction j as [| | | |l IH|l IH] using json_nested_ind; try done; cbn [wf canon canonical].
  - rewrite !forallb_Forall, List.Forall_map. intros H. apply List.Forall_forall.
    rewrite List.Forall_forall in H, IH. auto.
  - intros [Hd%bool_decide_eq_true H]%andb_prop. rewrite forallb_Forall in H.
    rewrite sort_keys_map. apply andb_true_intro. split.
    + rewrite keys_sorted_map. by apply sort_keys_is_sorted.
    + apply forallb_Forall. rewrite List.Forall_map. apply Forall_forall. intros p Hp. rewrite sort_keys_elem in Hp.
      rewrite Forall_forall in H, IH. specialize (H p Hp). apply andb_prop in H as [Hk Hw].
      cbn [fst snd]. by rewrite Hk, IH.
Qed.

Lemma encode_canon j : wf j = true → encode (canon j) = encode j.
Proof.
  induction j as [| | | |l IH|l IH] using json_nested_ind; try done; cbn [wf canon encode].
  - rewrite forallb_Forall. intros H. do 3 f_equal. rewrite List.map_map. apply List.map_ext_Forall.
    rewrite List.Forall_forall in IH, H |- *. auto.
  - intros [Hd%bool_decide_eq_true H]%andb_prop. do 4 f_equal. rewrite !(sort_keys_map encode), !(sort_keys_map canon).
    rewrite (sort_keys_sorted (sort_keys l)) by by apply sort_keys_is_sorted.
    rewrite List.map_map. apply List.map_ext_Forall. apply List.Forall_forall.
    intros p Hp%list_elem_of_In. rewrite sort_keys_elem in Hp. rewrite forallb_Forall in H.
    rewrite Forall_forall in IH, H. specialize (H p Hp). apply andb_prop in H as [_ Hw].
    cbn [fst snd]. by rewrite IH.
Qed.

(** ** The encoding is prefix-free, hence injective *)

Definition determined (a : json) : Prop :=
  ∀ b s t, canonical a = true → canonical b = true → number_stop s = true → number_stop t = true →
    encode a +:+ s = encode b +:+ t → a = b ∧ s = t.

Lemma tail_stop {A} (f : A → string) l s c : number_byte c = false →
  number_stop (string_concat (List.map (λ x, "," +:+ f x) l) +:+ String c s) = true.
Proof. intros Hc. destruct l; [|done]. simpl. by rewrite Hc. Qed.

Lemma elements_determined l l' s t :
  Forall determined l → forallb canonical l = true → forallb canonical l' = true →
  elements_tail l +:+ String "]" s = elements_tail l' +:+ String "]" t → l = l' ∧ s = t.
Proof.
  intros Hl. revert l'. unfold elements_tail. induction Hl as [|x l Hx Hl IH]; intros [|y l'] Hc Hc' E; try done.
  - split; [done|]. by injection E.
  - cbn [forallb List.map string_concat] in *. apply andb_prop in Hc as [Cx Hc]. apply andb_prop in Hc' as [Cy Hc'].
    rewrite !app_string_assoc in E. apply app_string_inj_l in E.
    apply Hx in E as [-> E]; try done; try by apply tail_stop.
    apply IH in E as [-> ->]; done.
Qed.

Lemma encode_string_inj a b s t :
  utf8_valid a = true → utf8_valid b = true → encode_string a +:+ s = encode_string b +:+ t → a = b ∧ s = t.
Proof.
  intros Ha Hb E. pose proof (token_key a s ObjectKey [] 0 Ha (or_intror eq_refl)) as Ta.
  pose proof (token_key b t ObjectKey [] 0 Hb (or_intror eq_refl)) as Tb.
  rewrite E, Tb in Ta. by injection Ta as -> ->.
Qed.

Definition member_canonical (p : string * json) : bool := utf8_valid p.1 && canonical p.2.

Lemma member_determined p q s t :
  determined p.2 → member_canonical p = true → member_canonical q = true →
  number_stop s = true → number_stop t = true →
  member_text p +:+ s = member_text q +:+ t → p = q ∧ s = t.
Proof.
  intros Hp [Ka Ca]%andb_prop [Kb Cb]%andb_prop Hs Ht E. unfold member_text in E.
  rewrite !app_string_assoc in E. apply encode_string_inj in E as [Ek E]; [|done..].
  apply app_string_inj_l in E. apply Hp in E as [Ev ->]; try done.
  destruct p, q. cbn in *. by subst.
Qed.

Lemma members_determined l l' s t :
  Forall (λ p, determined p.2) l → forallb member_canonical l = true → forallb member_canonical l' = true →
  members_tail l +:+ String "}" s = members_tail l' +:+ String "}" t → l = l' ∧ s = t.
Proof.
  intros Hl. revert l'. unfold members_tail. induction Hl as [|x l Hx Hl IH]; intros [|y l'] Hc Hc' E; try done.
  - split; [done|]. by injection E.
  - cbn [forallb List.map string_concat] in *. apply andb_prop in Hc as [Cx Hc]. apply andb_prop in Hc' as [Cy Hc'].
    rewrite !app_string_assoc in E. apply app_string_inj_l in E.
    apply member_determined in E as [-> E]; try done; try by apply tail_stop.
    apply IH in E as [-> ->]; done.
Qed.

Lemma encode_array_body l s t l' :
  Forall determined l → forallb canonical l = true → forallb canonical l' = true →
  elements_text l +:+ String "]" s = elements_text l' +:+ String "]" t → l = l' ∧ s = t.
Proof.
  intros Hl Hc Hc' E. destruct l as [|x l], l' as [|y l'].
  - by injection E.
  - rewrite elements_text_cons, app_string_assoc in E. cbn [forallb] in Hc'. apply andb_prop in Hc' as [Cy _].
    apply encode_opens in Cy. apply (opens_value_app _ (elements_tail l' +:+ String "]" t)) in Cy. by rewrite <- E in Cy.
  - rewrite elements_text_cons, app_string_assoc in E. cbn [forallb] in Hc. apply andb_prop in Hc as [Cy _].
    apply encode_opens in Cy. apply (opens_value_app _ (elements_tail l +:+ String "]" s)) in Cy. by rewrite E in Cy.
  - rewrite !elements_text_cons, !app_string_assoc in E. cbn [forallb] in Hc, Hc'.
    apply andb_prop in Hc as [Cx Hc]. apply andb_prop in Hc' as [Cy Hc']. inversion Hl as [|? ? Hx Hl']; subst.
    apply Hx in E as [-> E]; try done; try by apply tail_stop.
    apply elements_determined in E as [-> ->]; done.
Qed.

Lemma encode_object_body l s t l' :
  Forall (λ p, determined p.2) l → forallb member_canonical l = true → forallb member_canonical l' = true →
  members_text l +:+ String "}" s = members_text l' +:+ String "}" t → l = l' ∧ s = t.
Proof.
  intros Hl Hc Hc' E. destruct l as [|x l], l' as [|y l']; rewrite ?members_text_cons, ?app_string_assoc in E.
  - by injection E.
  - done.
  - done.
  - cbn [forallb] in Hc, Hc'.
    apply andb_prop in Hc as [Cx Hc]. apply andb_prop in Hc' as [Cy Hc']. inversion Hl as [|? ? Hx Hl']; subst.
    apply member_determined in E as [-> E]; try done; try by apply tail_stop.
    apply members_determined in E as [-> ->]; done.
Qed.

Lemma encode_determined a : determined a.
Proof.
  induction a as [|x|lex|x|l IH|l IH] using json_nested_ind; intros b s t Ca Cb Hs Ht E;
    pose proof (token_first _ s TopValue [] 0 Ca eq_refl Hs) as Ta;
    pose proof (token_first _ t TopValue [] 0 Cb eq_refl Ht) as Tb; rewrite E, Tb in Ta.
  all: destruct b as [|y|lex'|y|l'|l']; cbn [first_token after_first] in Ta; try discriminate Ta.
  1-4: by simplify_eq.
  - injection Ta as Ta. change ("]" +:+ ?x) with (String "]" x) in Ta. symmetry in Ta.
    apply encode_array_body in Ta as [-> ->]; done.
  - injection Ta as Ta. change ("}" +:+ ?x) with (String "}" x) in Ta. symmetry in Ta.
    cbn [canonical] in Ca, Cb. apply andb_prop in Ca as [_ Ca]. apply andb_prop in Cb as [_ Cb].
    apply encode_object_body in Ta as [-> ->]; done.
Qed.

Lemma encode_inj a b : canonical a = true → canonical b = true → encode a = encode b → a = b.
Proof.
  intros Ca Cb E. destruct (encode_determined a b "" "" Ca Cb eq_refl eq_refl) as [-> _]; [|done].
  by rewrite E.
Qed.

(** Documents that are the same up to the order of object members. *)
Definition same_document (a b : json) : Prop := canon a = canon b.

#[export] Instance same_document_equivalence : Equivalence same_document.
Proof. split; unfold same_document; [by intros ?|by intros ? ? ->|by intros ? ? ? -> ->]. Qed.

Lemma encode_same_document a b : wf a = true → wf b = true → encode a = encode b ↔ same_document a b.
Proof.
  intros Ha Hb. rewrite <- (encode_canon a Ha), <- (encode_canon b Hb). unfold same_document. split; [|by intros ->].
  apply encode_inj; by apply canon_canonical.
Qed.

(** Two distinct texts with one SHA-256 digest. *)
Definition digest_collision (a b : string) : Prop := a ≠ b ∧ digest_text a = digest_text b.

Lemma Digest_inv d x : Digest d = Ok x → ∃ j, d = Ok j ∧ x = digest_text (encode j).
Proof.
  unfold Digest, Marshal. destruct d as [j|]; [|done]. cbn [map_err bind_result].
  destruct (validateASCIIObjectKeys j); [|done]. intros [= <-]. by exists j.
Qed.

(** Well-formed documents with one digest are one document, or a collision. *)
Lemma same_digest a b :
  wf a = true → wf b = true → digest_text (encode a) = digest_text (encode b) →
  same_document a b ∨ digest_collision (encode a) (encode b).
Proof.
  intros Ha Hb E. destruct (decide (encode a = encode b)) as [Hab|Hne]; [left|by right].
  by apply encode_same_document.
Qed.

(** ** Property *)

(** C7: Equal canonical digests mean equal content: if two values have a digest and it
    is the same, their documents are the same up to the order of object members,
    or their canonical texts are a SHA-256 collision. *)
Theorem canonical_digest_injective v w x :
  (∀ j, v = Ok j → wf j = true) → (∀ j, w = Ok j → wf j = true) →
  Digest v = Ok x → Digest w = Ok x →
  ∃ a b, v = Ok a ∧ w = Ok b ∧ (same_document a b ∨ digest_collision (encode a) (encode b)).
Proof.
  intros Hv Hw (a & -> & Ea)%Digest_inv (b & -> & Eb)%Digest_inv. exists a, b. split_and!; [done|done|].
  apply same_digest; [by apply Hv|by apply Hw|congruence].
Qed.

Lemma canonical_digest_injective_witness :
  ∃ a b, to_json (VMap [("b", VInt 1); ("a", VNil)]) = Ok a ∧ to_json (VMap [("a", VNil); ("b", VInt 1)]) = Ok b
    ∧ (same_document a b ∨ digest_collision (encode a) (encode b)).
Proof.
  eapply canonical_digest_injective.
  - intros j. apply to_json_wf.
  - intros j. apply to_json_wf.
  - vm_compute. reflexivity.
  - vm_compute. reflexivity.
Defined.
