(* ===== verification/JsonStrings.v ===== *)
(** * Decoded strings are valid UTF-8 (internal/structuredjson)

    The strict decoder refuses a text that is not UTF-8; what it decodes from a
    valid text holds only valid strings, escapes and surrogate pairs included.
    With the other guarantees of [StructuredJson] a decoded document is well
    formed, so that a document is determined by its canonical bytes. *)

From S2P Require Import Prelude Json StructuredJson GoValue CanonicalJson.

Local Open Scope N_scope.

Lemma utf8_valid_cons c s : ascii7 c = true → utf8_valid (String c s) = utf8_valid s.
Proof. intros H. unfold utf8_valid. cbn [runes]. by rewrite H. Qed.

Lemma utf8_valid_suffix d r : string_forallb ascii7 d = true → utf8_valid (d +:+ r) = true → utf8_valid r = true.
Proof.
  induction d as [|c d IH]; [done|]. cbn [string_forallb]. intros Hd H. to_prop. apply IH; [done|].
  rewrite app_string_cons, utf8_valid_cons in H by done. done.
Qed.

(** ** Encoded runes *)

Lemma byte_val_small n : n < 256 → byte_val (byte_of n) = n.
Proof. apply byte_val_of. Qed.

(** The comparisons of a goal that hold. *)
Ltac leb_true := repeat match goal with |- context [N.leb ?a ?b] => rewrite (proj2 (N.leb_le a b)) by lia end.

Lemma continuation n : cont (byte_of (128 + n mod 64)) = true.
Proof.
  unfold cont, in_range. pose proof (N.mod_upper_bound n 64 ltac:(lia)). generalize dependent (n mod 64).
  intros m Hm. rewrite byte_val_small by lia. by leb_true.
Qed.

Lemma rune_valid r : rune_ok r = true → utf8_valid r = true.
Proof.
  intros Hr. pose proof (utf8_valid_concat [r]) as H. cbn [forallb string_concat foldr] in H.
  rewrite app_string_nil_r, andb_true_r in H. by apply H.
Qed.

(** A byte the comparison leaves outside a range. *)
Lemma in_range_out lo hi n : n < 256 → n < lo ∨ hi < n → in_range lo hi (byte_of n) = false.
Proof. intros Hn H. unfold in_range. rewrite byte_val_small by done. apply andb_false_iff. rewrite !N.leb_gt. lia. Qed.
Lemma in_range_in lo hi n : n < 256 → lo <= n <= hi → in_range lo hi (byte_of n) = true.
Proof. intros Hn H. unfold in_range. rewrite byte_val_small by done. by leb_true. Qed.
Lemma ascii7_out n : 128 <= n < 256 → ascii7 (byte_of n) = false.
Proof. intros H. unfold ascii7. rewrite byte_val_small by lia. apply N.ltb_ge. lia. Qed.

Lemma two_bytes q m : 2 <= q < 32 → cont m = true → rune_ok (String (byte_of (192 + q)) (String m "")) = true.
Proof.
  intros Hq Hm. cbn [rune_ok]. unfold lead2. by rewrite ascii7_out, in_range_in, Hm by lia.
Qed.

Lemma three_bytes q r m :
  q < 16 → r < 64 → (q = 0 → 32 <= r) → (q = 13 → r < 32) → cont m = true →
  rune_ok (String (byte_of (224 + q)) (String (byte_of (128 + r)) (String m ""))) = true.
Proof.
  intros Hq Hr H0 H13 Hm. cbn [rune_ok]. unfold lead2, second3, cont at 1 2.
  rewrite ascii7_out, (in_range_out 194), Hm, byte_val_small by lia. cbn [negb andb]. rewrite andb_true_r.
  destruct (N.eqb_spec (224 + q) 224); [apply in_range_in; lia|].
  destruct (N.eqb_spec (224 + q) 237); [apply in_range_in; lia|].
  by rewrite !in_range_in by lia.
Qed.

Lemma four_bytes q r m k :
  q < 5 → r < 64 → (q = 0 → 16 <= r) → (q = 4 → r < 16) → cont m = true → cont k = true →
  rune_ok (String (byte_of (240 + q)) (String (byte_of (128 + r)) (String m (String k "")))) = true.
Proof.
  intros Hq Hr H0 H4 Hm Hk. cbn [rune_ok]. unfold lead2, second3, second4, cont at 1 2 4.
  rewrite ascii7_out, (in_range_out 194), (in_range_out 225), Hm, Hk, byte_val_small by lia.
  rewrite (proj2 (N.eqb_neq (240 + q) 224)), (proj2 (N.eqb_neq (240 + q) 237)) by lia. cbn [negb andb].
  rewrite !andb_true_r.
  destruct (N.eqb_spec (240 + q) 240); [apply in_range_in; lia|].
  destruct (N.eqb_spec (240 + q) 244); [apply in_range_in; lia|].
  by rewrite !in_range_in by lia.
Qed.

(** [utf8.EncodeRune] writes one valid rune. *)
Lemma utf8_encode_valid n : n < 1114112 → is_surrogate n = false → utf8_valid (utf8_encode n) = true.
Proof.
  intros Hn Hs. unfold is_surrogate in Hs. apply andb_false_iff in Hs. rewrite !N.leb_gt in Hs.
  apply rune_valid. unfold utf8_encode.
  pose proof (N.div_mod n 64 ltac:(lia)) as D1. pose proof (N.mod_upper_bound n 64 ltac:(lia)) as B1.
  assert (n / 4096 = n / 64 / 64) as E2 by (rewrite N.Div0.div_div; done).
  assert (n / 262144 = n / 64 / 64 / 64) as E3 by (rewrite !N.Div0.div_div; done).
  rewrite E3, E2. pose proof (continuation n) as C1. pose proof (continuation (n / 64)) as C2.
  pose proof (N.div_mod (n / 64) 64 ltac:(lia)) as D2. pose proof (N.mod_upper_bound (n / 64) 64 ltac:(lia)) as B2.
  pose proof (N.div_mod (n / 64 / 64) 64 ltac:(lia)) as D3. pose proof (N.mod_upper_bound (n / 64 / 64) 64 ltac:(lia)) as B3.
  clear E2 E3. revert C1 C2 D1 B1 D2 B2 D3 B3.
  generalize (n mod 64) as r1, (n / 64 / 64 mod 64) as r3, (n / 64 / 64 / 64) as q3. intros r1 r3 q3.
  generalize (n / 64 mod 64) as r2, (n / 64 / 64) as q2. intros r2 q2. generalize (n / 64) as q1. intros.
  destruct (N.ltb_spec n 128); [|destruct (N.ltb_spec n 2048); [|destruct (N.ltb_spec n 65536)]].
  - cbn [rune_ok]. unfold ascii7. rewrite byte_val_small by lia. by apply N.ltb_lt.
  - apply two_bytes; [lia|done].
  - apply three_bytes; [lia..|done].
  - apply four_bytes; [lia..|done|done].
Qed.

(** ** Literals *)

(** A valid string goes on validly after its first rune. *)
Lemma utf8_uncons c s : utf8_valid (String c s) = true →
  ∃ r t, rune_ok r = true ∧ String c s = r +:+ t ∧ utf8_valid t = true.
Proof.
  intros (rs & Hrs & E)%utf8_valid_runes. destruct rs as [|r rs]; [done|]. cbn [forallb] in Hrs. to_prop.
  exists r, (string_concat rs). split_and!; [done|exact E|by apply utf8_valid_concat].
Qed.

Lemma rune_prefix r s : rune_ok r = true → utf8_valid (r +:+ s) = utf8_valid s.
Proof. intros H. unfold utf8_valid. by rewrite runes_app. Qed.

Lemma parse_str_multi r s : string_forallb (λ c, negb (ascii7 c)) r = true → parse_str (r +:+ s) = prepend r (parse_str s).
Proof.
  induction r as [|c r IH]; cbn [string_forallb]; [intros _; rewrite app_string_nil_l; by destruct (parse_str s) as [[]|]|].
  intros H. to_prop. rewrite app_string_cons, parse_str_high, IH, prepend_app by done. done.
Qed.

Lemma hex_ascii c v : hex_val c = Some v → ascii7 c = true ∧ v < 16.
Proof. by destruct c as [[] [] [] [] [] [] [] []]; cbv; intros [= <-]. Qed.

Lemma hex4_spec a b c d v : hex4 a b c d = Some v → string_forallb ascii7 (String a (String b (String c (String d "")))) = true ∧ v < 65536.
Proof.
  unfold hex4. intros H. destruct (hex_val a) as [x|] eqn:Ea; [|done]. destruct (hex_val b) as [y|] eqn:Eb; [|done].
  destruct (hex_val c) as [z|] eqn:Ec; [|done]. destruct (hex_val d) as [w|] eqn:Ed; [|done]. injection H as <-.
  apply hex_ascii in Ea as [Ha ?], Eb as [Hb ?], Ec as [Hc ?], Ed as [Hd ?]. cbn [string_forallb]. rewrite Ha, Hb, Hc, Hd. split; [done|lia].
Qed.

Lemma surrogate_pair_spec a b v : surrogate_pair a b = Some v → v < 1114112 ∧ is_surrogate v = false.
Proof.
  unfold surrogate_pair, is_surrogate. case_tests; [|done]. intros [= <-]. to_prop. rewrite !N.leb_le in *.
  split; [lia|]. apply andb_false_iff. rewrite !N.leb_gt. lia.
Qed.

Lemma simple_escape_ascii e ch : simple_escape e = Some ch → ascii7 e = true ∧ ascii7 ch = true.
Proof. by destruct e as [[] [] [] [] [] [] [] []]; cbv; intros [= <-]. Qed.

(** What a parse of the rest gives is valid, and so is [p] before it. *)
Lemma prepend_valid p x t r :
  prepend p x = Some (t, r) → utf8_valid p = true →
  (∀ t' r', x = Some (t', r') → utf8_valid t' = true ∧ utf8_valid r' = true) →
  utf8_valid t = true ∧ utf8_valid r = true.
Proof.
  intros H Hp Hx. destruct x as [[t' r']|]; [|done]. injection H as <- <-. destruct (Hx t' r' eq_refl).
  split; [by apply utf8_valid_app|done].
Qed.

(** The text after an escape. *)
Ltac ascii_suffix := match goal with H : utf8_valid _ = true |- _ => rewrite !utf8_valid_cons in H by done; exact H end.

Lemma parse_str_utf8 s t r :
  utf8_valid s = true → parse_str s = Some (t, r) → utf8_valid t = true ∧ utf8_valid r = true.
Proof.
  remember (slen s) as n eqn:Hn. revert s t r Hn. induction (lt_wf n) as [n _ IH]. intros s t r -> Hv Hp.
  assert (∀ s', (slen s' < slen s)%nat → utf8_valid s' = true →
    ∀ t' r', parse_str s' = Some (t', r') → utf8_valid t' = true ∧ utf8_valid r' = true) as Hrec by (intros; eauto). clear IH.
  destruct s as [|c s1]; [done|]. destruct (ascii7 c) eqn:Ha.
  2:{ destruct (utf8_uncons c s1 Hv) as (q & w & Hq & E & Hw). destruct q as [|a [|b q]]; [done| |].
      - injection E as -> ->. cbn [rune_ok] in Hq. congruence.
      - rewrite E in Hp. rewrite parse_str_multi in Hp by by apply rune_high. eapply prepend_valid; [exact Hp|by apply rune_valid|].
        apply Hrec; [|done]. rewrite E, slen_app. cbn [slen]. lia. }
  pose proof Hv as Hv1. rewrite utf8_valid_cons in Hv1 by done.
  assert (utf8_valid (String c "") = true) as Hc by (apply utf8_valid_ascii; cbn; by rewrite Ha).
  cbn [parse_str] in Hp. destruct (byte_val c =? 34); [by injection Hp as <- <-|].
  destruct (byte_val c =? 92); [|destruct (byte_val c <? 32); [done|]; eapply prepend_valid; [exact Hp|done|]; apply Hrec; [cbn; lia|done]].
  destruct s1 as [|e s2]; [done|]. destruct (simple_escape e) as [ch|] eqn:Ee.
  { apply simple_escape_ascii in Ee as [He Hch]. rewrite utf8_valid_cons in Hv1 by done.
    eapply prepend_valid; [exact Hp|apply utf8_valid_ascii; cbn; by rewrite Hch|]. apply Hrec; [cbn; lia|done]. }
  destruct (byte_val e =? 117) eqn:Eu; [|done]. assert (ascii7 e = true) as He by (apply N.eqb_eq in Eu; unfold ascii7; by rewrite Eu).
  rewrite utf8_valid_cons in Hv1 by done.
  destruct s2 as [|h1 [|h2 [|h3 [|h4 s6]]]]; try done.
  destruct (hex4 h1 h2 h3 h4) as [v|] eqn:Eh; [|done]. apply hex4_spec in Eh as [Eh Hvb].
  apply (utf8_valid_suffix _ s6) in Eh; [|exact Hv1].
  assert (∀ t' r', parse_str s6 = Some (t', r') → utf8_valid t' = true ∧ utf8_valid r' = true) as H6
    by (apply Hrec; [cbn; lia|done]).
  destruct (is_surrogate v) eqn:Es; [|eapply prepend_valid; [exact Hp|apply utf8_encode_valid; [lia|done]|done]].
  assert (prepend replacement_char (parse_str s6) = Some (t, r) → utf8_valid t = true ∧ utf8_valid r = true) as Hrep
    by (intros Hp'; by eapply prepend_valid).
  destruct s6 as [|b [|u [|g1 [|g2 [|g3 [|g4 s12]]]]]]; try by apply Hrep.
  destruct ((byte_val b =? 92) && (byte_val u =? 117)) eqn:Eb; [|by apply Hrep].
  destruct (hex4 g1 g2 g3 g4) as [w|] eqn:Eg; cbn [mbind option_bind] in Hp; [|by apply Hrep].
  destruct (surrogate_pair v w) as [m|] eqn:Em; [|by apply Hrep]. apply surrogate_pair_spec in Em as [Hm Hms].
  eapply prepend_valid; [exact Hp|by apply utf8_encode_valid|]. apply Hrec; [cbn; lia|].
  apply andb_prop in Eb as [Eb1 Eb2]. apply N.eqb_eq in Eb1, Eb2.
  rewrite !utf8_valid_cons in Eh by (unfold ascii7; by rewrite ?Eb1, ?Eb2).
  apply hex4_spec in Eg as [Eg _]. by apply (utf8_valid_suffix _ s12) in Eg.
Qed.

(** ** Number lexemes *)

Definition head_is (p : ascii → bool) (t : string) : bool :=
  match t with String c _ => p c | EmptyString => false end.

Lemma span_digits_again s d r t : span_digits s = (d, r) → head_is is_digit t = false → span_digits (d +:+ t) = (d, t).
Proof. intros E Ht. pose proof (span_digits_digits s) as H. rewrite E in H. by apply span_digits_stop. Qed.

Lemma scan_integer_again s i r t : scan_integer s = Some (i, r) → head_is is_digit t = false → scan_integer (i +:+ t) = Some (i, t).
Proof.
  destruct s as [|c s]; [done|]. unfold scan_integer at 1. destruct (byte_val c =? 48) eqn:E0.
  - intros [= <- <-] _. rewrite app_string_cons, app_string_nil_l. cbn [scan_integer]. by rewrite E0.
  - destruct (is_digit c) eqn:Ed; [|done]. intros H Ht. injection H as H. pose proof (span_digits_again (String c s) _ _ t H Ht) as Ha.
    cbn [span_digits] in H. rewrite Ed in H. destruct (span_digits s) as [d0 r0]. injection H as <- <-.
    rewrite app_string_cons in *. unfold scan_integer. rewrite E0, Ed. by f_equal.
Qed.

Lemma scan_fraction_again s f r t :
  scan_fraction s = Some (f, r) → head_is is_digit t = false → head_is (λ c, byte_val c =? 46) t = false →
  scan_fraction (f +:+ t) = Some (f, t).
Proof.
  assert (head_is (λ c, byte_val c =? 46) t = false → scan_fraction t = Some ("", t)) as Hnone.
  { destruct t as [|c t]; [done|]. cbn [head_is scan_fraction]. by intros ->. }
  destruct s as [|c s]; cbn [scan_fraction].
  - intros [= <- <-] _ Hp. rewrite app_string_nil_l. by apply Hnone.
  - destruct (byte_val c =? 46) eqn:E; [|intros [= <- <-] _ Hp; rewrite app_string_nil_l; by apply Hnone].
    destruct (span_digits s) as [[|x y] z] eqn:Es; [done|]. intros [= <- <-] Ht _.
    apply (span_digits_again _ _ _ t) in Es; [|done]. rewrite app_string_cons. cbn [scan_fraction]. rewrite E, Es. done.
Qed.

Lemma scan_exponent_again s e r : scan_exponent s = Some (e, r) → scan_exponent e = Some (e, "").
Proof.
  destruct s as [|c s]; cbn [scan_exponent]; [by intros [= <- <-]|].
  destruct ((byte_val c =? 101) || (byte_val c =? 69)) eqn:E; [|by intros [= <- <-]].
  destruct s as [|g s]; [done|]. destruct ((byte_val g =? 43) || (byte_val g =? 45)) eqn:Eg.
  - destruct (span_digits s) as [[|x y] z] eqn:Es; [done|]. intros [= <- <-].
    apply (span_digits_again _ _ _ "") in Es; [|done]. rewrite app_string_nil_r in Es.
    rewrite ?app_string_cons, ?app_string_nil_l in *. cbn [scan_exponent]. by rewrite E, Eg, Es.
  - destruct (span_digits (String g s)) as [[|x y] z] eqn:Es; [done|]. intros [= <- <-].
    assert (x = g) as -> by (apply span_digits_spec in Es; rewrite app_string_cons in Es; congruence).
    apply (span_digits_again _ _ _ "") in Es; [|done]. rewrite app_string_nil_r in Es.
    rewrite app_string_nil_l. cbn [scan_exponent]. by rewrite E, Eg, Es.
Qed.

Lemma exponent_head s e r : scan_exponent s = Some (e, r) → head_is is_digit e = false ∧ head_is (λ c, byte_val c =? 46) e = false.
Proof.
  assert (∀ c, (byte_val c =? 101) || (byte_val c =? 69) = true → is_digit c = false ∧ (byte_val c =? 46) = false) as Hc.
  { intros c. by destruct c as [[] [] [] [] [] [] [] []]. }
  destruct s as [|c s]; cbn [scan_exponent]; [by intros [= <- <-]|].
  destruct ((byte_val c =? 101) || (byte_val c =? 69)) eqn:E; [|by intros [= <- <-]].
  destruct s as [|g s]; [done|]. destruct ((byte_val g =? 43) || _).
  - destruct (span_digits s) as [[|x y] z]; [done|]. intros [= <- <-]. by apply Hc.
  - destruct (span_digits (String g s)) as [[|x y] z]; [done|]. intros [= <- <-]. by apply Hc.
Qed.

Lemma fraction_head s f r t : scan_fraction s = Some (f, r) → head_is is_digit t = false → head_is is_digit (f +:+ t) = false.
Proof.
  assert (∀ c, (byte_val c =? 46) = true → is_digit c = false) as Hc by (intros c; by destruct c as [[] [] [] [] [] [] [] []]).
  destruct s as [|c s]; cbn [scan_fraction]; [intros [= <- <-]; by rewrite app_string_nil_l|].
  destruct (byte_val c =? 46) eqn:E; [|intros [= <- <-]; by rewrite app_string_nil_l].
  destruct (span_digits s) as [[|x y] z]; [done|]. intros [= <- <-] _. rewrite app_string_cons. by apply Hc.
Qed.

(** What the scanner takes as a number is a complete number lexeme. *)
Lemma scan_number_complete s d r : scan_number s = Some (d, r) → number_lexeme d = true.
Proof.
  unfold scan_number. intros H.
  destruct (match s with EmptyString => _ | String c _ => _ end) as [sign s1] eqn:Es.
  destruct (scan_integer s1) as [[i s2]|] eqn:E1; [|done]. cbn [mbind option_bind] in H.
  destruct (scan_fraction s2) as [[f s3]|] eqn:E2; [|done]. cbn [mbind option_bind] in H.
  destruct (scan_exponent s3) as [[e s4]|] eqn:E3; [|done]. cbn [mbind option_bind] in H. injection H as <- <-.
  destruct (exponent_head _ _ _ E3) as [He1 He2].
  pose proof (fraction_head _ _ _ e E2 He1) as Hf.
  pose proof (scan_integer_again _ _ _ _ E1 Hf) as I. pose proof (scan_fraction_again _ _ _ _ E2 He1 He2) as F.
  pose proof (scan_exponent_again _ _ _ E3) as X.
  assert (∀ c' r', i +:+ f +:+ e = String c' r' → (byte_val c' =? 45) = false) as Hsign.
  { intros c' r' E. rewrite E in I. destruct (N.eqb_spec (byte_val c') 45) as [E45|]; [|done].
    exfalso. cbn [scan_integer] in I. unfold is_digit, in_range in I. by rewrite E45 in I. }
  unfold number_lexeme, scan_number.
  assert ((match sign +:+ i +:+ f +:+ e with
    | EmptyString => ("", sign +:+ i +:+ f +:+ e)
    | String c r => if byte_val c =? 45 then (String c "", r) else ("", sign +:+ i +:+ f +:+ e) end) = (sign, i +:+ f +:+ e)) as ->.
  { assert (sign = "" ∨ ∃ c, sign = String c "" ∧ (byte_val c =? 45) = true) as [->|(c & -> & Ec)].
    { destruct s as [|c s]; [left; congruence|]. destruct (byte_val c =? 45) eqn:Ec; injection Es as <- <-; eauto. }
    - rewrite app_string_nil_l. destruct (i +:+ f +:+ e) as [|c' r'] eqn:E; [done|]. by rewrite (Hsign c' r').
    - rewrite app_string_cons, Ec. by rewrite app_string_nil_l. }
  rewrite I. cbn [mbind option_bind]. rewrite F. cbn [mbind option_bind]. by rewrite X.
Qed.

(** ** Tokens and documents *)

Definition token_ok (t : token) : bool :=
  match t with TStr s => utf8_valid s | TNum lex => number_lexeme lex | _ => true end.

Lemma skip_space_utf8 s : utf8_valid s = true → utf8_valid (skip_space s) = true.
Proof.
  induction s as [|c s IH]; [done|]. cbn [skip_space]. destruct (is_space c) eqn:E; [|done]. intros H. apply IH.
  rewrite utf8_valid_cons in H; [done|]. revert E. by destruct c as [[] [] [] [] [] [] [] []].
Qed.

Lemma byte_ascii7 c n : (byte_val c =? n) = true → n < 128 → ascii7 c = true.
Proof. intros E%N.eqb_eq Hn. unfold ascii7. rewrite E. by apply N.ltb_lt. Qed.

Lemma strip_literal_utf8 p s r : string_forallb ascii7 p = true → strip_literal p s = Some r → utf8_valid s = true → utf8_valid r = true.
Proof.
  unfold strip_literal. intros Hp. destruct (has_prefix p s) eqn:E; [|done]. apply has_prefix_app in E as [q ->].
  rewrite drop_string_app. intros [= <-]. by apply utf8_valid_suffix.
Qed.

Lemma lex_scalar_utf8 s t r : lex_scalar s = Some (t, r) → utf8_valid s = true → token_ok t = true ∧ utf8_valid r = true.
Proof.
  destruct s as [|c s]; [done|]. unfold lex_scalar. intros H Hv. destruct (byte_val c =? 34) eqn:E34.
  { destruct (parse_str s) as [[b r']|] eqn:E; [|done]. injection H as <- <-.
    rewrite utf8_valid_cons in Hv by by eapply byte_ascii7. by apply parse_str_utf8 in E. }
  destruct (byte_val c =? 110).
  { destruct (strip_literal _ _) eqn:E; [|done]. injection H as <- <-. by eapply strip_literal_utf8 in E. }
  destruct (byte_val c =? 116).
  { destruct (strip_literal _ _) eqn:E; [|done]. injection H as <- <-. by eapply strip_literal_utf8 in E. }
  destruct (byte_val c =? 102).
  { destruct (strip_literal _ _) eqn:E; [|done]. injection H as <- <-. by eapply strip_literal_utf8 in E. }
  destruct (scan_number _) as [[lex r']|] eqn:E; [|done]. injection H as <- <-.
  split; [by eapply scan_number_complete|]. pose proof (scan_number_spec _ _ _ E) as E'. rewrite E' in Hv.
  eapply utf8_valid_suffix; [|exact Hv]. eapply string_forallb_impl; [apply text7_ascii7|by eapply scan_number_text7].
Qed.

Definition input_ok (d : decoder) : Prop := utf8_valid (d_input d) = true.

Lemma next_token_utf8 d t d' : next_token d = Some (t, d') → input_ok d → token_ok t = true ∧ input_ok d'.
Proof.
  unfold next_token. generalize 2%nat as n. intros n. revert d.
  induction n as [|n IH]; intros d; [done|]. cbn [token_rounds]. unfold peek, input_ok. intros H Hv.
  apply skip_space_utf8 in Hv. destruct (skip_space (d_input d)) as [|c s]; [done|].
  cbn [mbind option_bind d_input d_state d_stack drop_string] in H.
  assert (ascii7 c = true → ∀ st stk, token_rounds n (mk_decoder s st stk) = Some (t, d') → token_ok t = true ∧ utf8_valid (d_input d') = true) as Hn.
  { intros Hc st stk Hr. apply IH in Hr; [done|]. unfold input_ok. cbn [d_input]. by rewrite utf8_valid_cons in Hv. }
  assert (token_default (mk_decoder (String c s) (d_state d) (d_stack d)) = Some (t, d') →
    token_ok t = true ∧ utf8_valid (d_input d') = true) as Hdef.
  { unfold token_default. cbn [d_input d_state d_stack]. destruct (token_value_allowed _); [|done].
    destruct (lex_scalar _) as [[t' r]|] eqn:E; [|done]. intros [= <- <-]. by apply lex_scalar_utf8 in E. }
  assert (ascii7 c = true → utf8_valid s = true) as Hs by (intros Hc; by rewrite utf8_valid_cons in Hv).
  unfold open_delim, close_delim in H. cbn [d_input d_state d_stack] in H.
  destruct (byte_val c =? 91) eqn:?.
  { destruct (token_value_allowed _); [|done]. injection H as <- <-. split; [done|]. by eapply Hs, byte_ascii7. }
  destruct (byte_val c =? 93) eqn:?.
  { destruct (_ || _); [|done]. destruct (d_stack d); [done|]. injection H as <- <-. split; [done|]. by eapply Hs, byte_ascii7. }
  destruct (byte_val c =? 123) eqn:?.
  { destruct (token_value_allowed _); [|done]. injection H as <- <-. split; [done|]. by eapply Hs, byte_ascii7. }
  destruct (byte_val c =? 125) eqn:?.
  { destruct (_ || _); [|done]. destruct (d_stack d); [done|]. injection H as <- <-. split; [done|]. by eapply Hs, byte_ascii7. }
  destruct (byte_val c =? 58) eqn:?; [destruct (d_state d); try done; eapply Hn; [by eapply byte_ascii7|exact H]|].
  destruct (byte_val c =? 44) eqn:?; [destruct (d_state d); try done; (eapply Hn; [by eapply byte_ascii7|exact H])|].
  destruct (byte_val c =? 34) eqn:?; [|by apply Hdef].
  destruct (d_state d); try (by apply Hdef);
    (destruct (parse_str s) as [[b r]|] eqn:E; [|done]; injection H as <- <-;
     apply parse_str_utf8 in E; [exact E|by eapply Hs, byte_ascii7]).
Qed.

Definition members_wf (l : list (string * json)) : Prop :=
  NoDup l.*1 ∧ forallb (λ p, utf8_valid p.1 && wf p.2) l = true.

Lemma members_wf_snoc l k x : members_wf l → has_key k l = false → utf8_valid k = true → wf x = true → members_wf (l ++ [(k, x)]).
Proof.
  intros [Hn Hl] Hk Hu Hx. split.
  - rewrite fmap_app. apply NoDup_app. split_and!; [done| |apply NoDup_singleton].
    intros y Hy ->%list_elem_of_singleton. unfold has_key in Hk. destruct (assoc k l) eqn:E; [done|]. by apply assoc_None_iff in E.
  - rewrite forallb_app, Hl. cbn [forallb fst snd andb]. by rewrite Hu, Hx.
Qed.

Lemma decode_wf limits fuel :
  (∀ d nodes tok depth j d' n', token_ok tok = true → input_ok d →
     decodeToken limits fuel d nodes tok depth = Some (Ok (j, d', n')) → wf j = true ∧ input_ok d')
  ∧ (∀ d nodes depth value j d' n', members_wf value → input_ok d →
     decodeObject limits fuel d nodes depth value = Some (Ok (j, d', n')) → wf j = true ∧ input_ok d')
  ∧ (∀ d nodes depth value j d' n', forallb wf value = true → input_ok d →
     decodeArray limits fuel d nodes depth value = Some (Ok (j, d', n')) → wf j = true ∧ input_ok d').
Proof.
  induction fuel as [|fuel (IHt & IHo & IHa)]; [done|]. split; [|split].
  - intros d nodes tok depth j d' n' Ht Hd. cbn [decodeToken]. destruct (_ <? _)%Z; [done|].
    destruct tok as [c| |b|s|lex].
    + destruct (_ <? _)%Z; [done|]. destruct (Ascii.eqb c "{"); [by apply IHo; [split; [constructor|done]|]|].
      destruct (Ascii.eqb c "["); [|done]. by apply IHa.
    + by intros [= <- <- <-].
    + by intros [= <- <- <-].
    + by intros [= <- <- <-].
    + destruct (jsonNumberWithinExponentLimit lex) as [[] []]; try done. by intros [= <- <- <-].
  - intros d nodes depth value j d' n' Hv Hd. cbn [decodeObject]. destruct (more d).
    + destruct (next_token d) as [[[| | |key|] d1]|] eqn:E1; try done. apply next_token_utf8 in E1 as [Hk H1]; [|done].
      destruct (has_key key value) eqn:Hh; [done|]. destruct (next_token d1) as [[itok d2]|] eqn:E2; [|done].
      apply next_token_utf8 in E2 as [Hi H2]; [|done].
      destruct (decodeToken limits fuel d2 nodes itok depth) as [[[[item d3] n3]|]|] eqn:E3; try done.
      apply IHt in E3 as [Hw H3]; [|done..]. apply IHo; [|done]. by apply members_wf_snoc.
    + destruct (next_token d) as [[[c| | | |] d1]|] eqn:E1; try done. apply next_token_utf8 in E1 as [_ H1]; [|done].
      destruct (Ascii.eqb c "}"); [|done]. intros [= <- <- <-]. destruct Hv as [Hn Hl]. split; [|done].
      cbn [wf]. by rewrite bool_decide_true, Hl.
  - intros d nodes depth value j d' n' Hv Hd. cbn [decodeArray]. destruct (more d).
    + destruct (next_token d) as [[itok d1]|] eqn:E1; [|done]. apply next_token_utf8 in E1 as [Hi H1]; [|done].
      destruct (decodeToken limits fuel d1 nodes itok depth) as [[[[item d3] n3]|]|] eqn:E3; try done.
      apply IHt in E3 as [Hw H3]; [|done..]. apply IHa; [|done]. rewrite forallb_app, Hv. cbn [forallb andb]. by rewrite Hw.
    + destruct (next_token d) as [[[c| | | |] d1]|] eqn:E1; try done. apply next_token_utf8 in E1 as [_ H1]; [|done].
      destruct (Ascii.eqb c "]"); [|done]. by intros [= <- <- <-].
Qed.

(** An accepted document is well formed. *)
Lemma Decode_wf raw limits j : Decode raw limits = Some (Ok j) → wf j = true.
Proof.
  unfold Decode. destruct (_ || _); [done|]. destruct (_ <? _)%Z; [done|]. destruct (utf8_valid raw) eqn:Hv; [|done]. cbn [negb].
  destruct (next_token (new_decoder raw)) as [[tok d]|] eqn:E1; [|done].
  apply next_token_utf8 in E1 as [Ht Hd]; [|exact Hv].
  destruct (decodeToken _ _ _ _ _ _) as [[[[v d'] n]|]|] eqn:E; [|done..].
  destruct (at_eof d'); [|done]. intros [= <-]. by apply decode_wf in E as [Hw _].
Qed.

(** ** Property *)

(** Every document the strict decoder accepts is well typed: its strings and keys
    are valid UTF-8 whatever escapes and surrogate pairs spelled them, its numbers are
    complete lexemes, its keys are distinct.  So canonical bytes identify it: two
    accepted texts have the same canonical encoding exactly when they denote the
    same document up to the order of object members. *)
Theorem structured_decode_typed raw limits j :
  Decode raw limits = Some (Ok j) →
  wf j = true
  ∧ ∀ raw' limits' j', Decode raw' limits' = Some (Ok j') → (encode j = encode j' ↔ same_document j j').
Proof.
  intros H. pose proof (Decode_wf _ _ _ H) as Hw. split; [done|]. intros raw' limits' j' H'.
  apply encode_same_document; [done|]. by eapply Decode_wf.
Qed.

Definition quoted (s : string) : string := String dquote (s +:+ String dquote "").

(** A surrogate pair spelled with escapes. *)
Lemma structured_decode_typed_witness :
  wf (JObj [("b", JStr (utf8_encode 128512)); ("a", JNum "1e2")]) = true.
Proof.
  destruct (structured_decode_typed
    ("{" +:+ quoted "b" +:+ ":" +:+ quoted (String backslash "ud83d" +:+ String backslash "ude00") +:+ "," +:+ quoted "a" +:+ ":1e2}")
    DefaultInstanceDecodeLimits (JObj [("b", JStr (utf8_encode 128512)); ("a", JNum "1e2")])) as [H _].
  - vm_compute. reflexivity.
  - exact H.
Defined.
