(* ===== verification/Domain.v ===== *)
(** * The domain records (internal/domain)

    The records the verification artifact is made of, with their JSON
    documents, the verdict and error-code constants, and [NewError]. *)

From S2P Require Import Prelude Json SemanticEqual GoValue.

Local Open Scope Z_scope.

(** A Go slice: [nil] marshals as [null], a non-nil slice as an array. *)
Definition slice (A : Type) := option (list A).
Definition elems {A} (s : slice A) : list A := match s with Some l => l | None => [] end.

(** ** Constants

    Go's verdict, state and code types are open string types. *)

Definition FunctionalPass := "pass".
Definition FunctionalFail := "fail".
Definition FunctionalBlocked := "blocked".
Definition FunctionalInconclusive := "inconclusive".

Definition CapabilityConforming := "conforming".
Definition CapabilityNonconforming := "nonconforming".
Definition CapabilityIncomplete := "incomplete".
Definition CapabilityWarning := "warning".

Definition ReproducibilityStable := "stable".
Definition ReproducibilityFlaky := "flaky".
Definition ReproducibilityNotReproducible := "not-reproducible".
Definition ReproducibilityNotTested := "not-tested".

Definition CleanupClean := "clean".
Definition CleanupAllowedResidue := "allowed-residue".
Definition CleanupUndeclaredResidue := "undeclared-residue".
Definition CleanupNotTested := "not-tested".

Definition EvidenceNone := "none".
Definition EvidenceUnsigned := "unsigned".
Definition EvidenceSelfSigned := "self-signed".
Definition EvidenceTampered := "tampered".
Definition EvidenceUntrustedSigner := "untrusted-signer".

Definition FreshnessCurrent := "current".

Definition OverallVerified := "verified".
Definition OverallVerifiedWithWarnings := "verified-with-warnings".
Definition OverallNonconforming := "nonconforming".
Definition OverallFailed := "failed".
Definition OverallBlocked := "blocked".
Definition OverallInconclusive := "inconclusive".
Definition OverallStale := "stale".

Definition PhaseCleanup := "cleanup".

Definition SeverityHigh := "high".
Definition SeverityCritical := "critical".

Definition CodeSourceDigestMismatch := "SOURCE_DIGEST_MISMATCH".
Definition CodeMutableBaseImage := "MUTABLE_BASE_IMAGE".
Definition CodeRuntimeVersionUnresolved := "RUNTIME_VERSION_UNRESOLVED".
Definition CodeRunnerUnavailable := "RUNNER_UNAVAILABLE".
Definition CodeRunnerFeatureUnavailable := "RUNNER_FEATURE_UNAVAILABLE".
Definition CodeSandboxPrepareFailed := "SANDBOX_PREPARE_FAILED".
Definition CodeSandboxDestroyFailed := "SANDBOX_DESTROY_FAILED".
Definition CodeTimeout := "TIMEOUT".
Definition CodeSetupFailed := "SETUP_FAILED".
Definition CodeBuildFailed := "BUILD_FAILED".
Definition CodeServiceStartFailed := "SERVICE_START_FAILED".
Definition CodeReadinessFailed := "READINESS_FAILED".
Definition CodeJourneyAssertionFailed := "JOURNEY_ASSERTION_FAILED".
Definition CodeCleanupFailed := "CLEANUP_FAILED".
Definition CodeProcessLeak := "PROCESS_LEAK".
Definition CodeUndeclaredFilesystemWrite := "UNDECLARED_FILESYSTEM_WRITE".
Definition CodeForbiddenFilesystemAccess := "FORBIDDEN_FILESYSTEM_ACCESS".
Definition CodeUndeclaredNetwork := "UNDECLARED_NETWORK_DESTINATION".
Definition CodeForbiddenNetworkAttempt := "FORBIDDEN_NETWORK_ATTEMPT".
Definition CodeUndeclaredPortListen := "UNDECLARED_PORT_LISTEN".
Definition CodeUndeclaredProcessExec := "UNDECLARED_PROCESS_EXEC".
Definition CodeCleanupResidue := "CLEANUP_RESIDUE".
Definition CodeObserverIncomplete := "OBSERVER_INCOMPLETE".
Definition CodeObservationSchemaInvalid := "OBSERVATION_SCHEMA_INVALID".
Definition CodeNondeterministicResult := "NONDETERMINISTIC_RESULT".
Definition CodeEvidenceDigestMismatch := "EVIDENCE_DIGEST_MISMATCH".

(** ** Records (types.go) *)

Record PlanSource := { ps_Identity : string; ps_Commit : string; ps_TreeDigest : string }.

Record PlanEvidence := { pe_Profile : string; pe_Include : slice string; pe_Exclude : slice string }.

(** The fields of [ResolvedPlan] that the verification result is built from. *)
Record ResolvedPlan := {
  rp_SchemaVersion : string; rp_Source : PlanSource; rp_Scenario : string; rp_Environment : string;
  rp_Evidence : PlanEvidence; rp_ObserverSet : list string; rp_RepeatCount : Z; rp_SuccessThreshold : Z;
  rp_PolicyBundleDigest : string; rp_PlanDigest : string
}.

Record RunnerFeatures := {
  rf_Backend : string; rf_Available : bool; rf_ControllerOS : string; rf_WorkloadOS : string;
  rf_Rootless : string; rf_NetworkDeny : bool; rf_NetworkAttemptObservation : string;
  rf_ProcessExecObservation : string; rf_FilesystemWriteObservation : string;
  rf_FilesystemReadObservation : string; rf_PortObservation : string; rf_ResourceUsage : string;
  rf_ResourceLimitEnforcement : bool; rf_EngineVersion : string; rf_Reason : string
}.
#[export] Instance RunnerFeatures_eq_dec : EqDecision RunnerFeatures.
Proof. solve_decision. Defined.

Record ObservationEvent := {
  oe_SchemaVersion : string; oe_Sequence : Z; oe_Timestamp : Time; oe_Phase : string; oe_Actor : string;
  oe_Operation : string; oe_Resource : string; oe_Result : string; oe_Observer : string;
  oe_Coverage : string; oe_Confidence : string; oe_Details : list (string * any)
}.

Record AssertionResult := {
  ar_SchemaVersion : string; ar_ID : string; ar_Type : string; ar_Required : bool; ar_Expected : any;
  ar_Actual : any; ar_Status : string; ar_EvidenceRefs : slice string; ar_Message : string;
  ar_Repeat : Z; ar_DurationMillis : Z
}.

Record PolicyDecision := {
  pd_PolicyID : string; pd_PolicyBundleDigest : string; pd_Decision : string; pd_Severity : string;
  pd_Message : string; pd_EvidenceRefs : list string
}.

Record Verdicts := {
  v_Functional : string; v_Capability : string; v_Reproducibility : string; v_Cleanup : string;
  v_Evidence : string; v_Freshness : string; v_Overall : string
}.
#[export] Instance Verdicts_eq_dec : EqDecision Verdicts.
Proof. solve_decision. Defined.

Record ObserverCoverage := {
  oc_Observer : string; oc_Feature : string; oc_Coverage : string; oc_Required : bool; oc_Reason : string
}.

Record VerificationPlanRef := {
  vp_Scenario : string; vp_Environment : string; vp_PlanDigest : string; vp_PolicyBundleDigest : string;
  vp_RepeatCount : Z; vp_SuccessThreshold : Z; vp_ResolvedPlanSchemaVersion : string; vp_Evidence : PlanEvidence
}.

Record RepeatSummary := { rs_Requested : Z; rs_Completed : Z; rs_Matching : Z }.

Record ResourceSummary := {
  r_PeakMemoryBytes : Z; r_CPUTimeMillis : Z; r_DurationMillis : Z; r_MaxProcesses : Z; r_LogBytes : Z;
  r_SandboxPeakMemoryBytes : Z; r_SandboxCPUTimeMillis : Z; r_MaxTasks : Z; r_WritableBytes : Z;
  r_OutputBytes : Z; r_ObservedFields : list string
}.

Definition ResourceObservedMaxTasks := "maxTasks".
Definition ResourceObservedOutputBytes := "outputBytes".
Definition ResourceObservedSandboxCPUTimeMillis := "sandboxCPUTimeMillis".
Definition ResourceObservedSandboxPeakMemoryBytes := "sandboxPeakMemoryBytes".
Definition ResourceObservedWritableBytes := "writableBytes".

Record VerificationDigests := {
  vd_Observations : string; vd_Assertions : string; vd_PolicyDecisions : string; vd_Verification : string
}.

(** [domain.Error]; [Cause] is the text of the wrapped error, which is never
    serialized. *)
Record Error := {
  er_SchemaVersion : string; er_Code : string; er_Phase : string; er_Severity : string; er_Message : string;
  er_Details : list (string * any); er_EvidenceRefs : slice string; er_Suggestion : string;
  er_Retryable : bool; er_Cause : option string
}.

(** [Errors []*Error]: an element may be a null pointer. *)
Record VerificationResult := {
  vr_SchemaVersion : string; vr_VerificationID : string; vr_RunID : string; vr_StartedAt : Time;
  vr_CompletedAt : Time; vr_Subject : PlanSource; vr_Plan : VerificationPlanRef; vr_Runner : RunnerFeatures;
  vr_Results : Verdicts; vr_ObserverCoverage : slice ObserverCoverage;
  vr_Observations : slice ObservationEvent; vr_Assertions : slice AssertionResult;
  vr_PolicyDecisions : slice PolicyDecision; vr_Errors : list (option Error); vr_Repeats : RepeatSummary;
  vr_Resources : ResourceSummary; vr_Digests : VerificationDigests
}.

Definition NewError (code severity message : string) : Error :=
  {| er_SchemaVersion := "1"; er_Code := code; er_Phase := ""; er_Severity := severity; er_Message := message;
     er_Details := []; er_EvidenceRefs := Some []; er_Suggestion := ""; er_Retryable := false; er_Cause := None |}.

Definition WrapError (code severity message : string) (cause : string) : Error :=
  {| er_SchemaVersion := "1"; er_Code := code; er_Phase := ""; er_Severity := severity; er_Message := message;
     er_Details := []; er_EvidenceRefs := Some []; er_Suggestion := ""; er_Retryable := false;
     er_Cause := Some cause |}.

(** [err.Details = details]. *)
Definition with_details (e : Error) (details : list (string * any)) : Error :=
  {| er_SchemaVersion := er_SchemaVersion e; er_Code := er_Code e; er_Phase := er_Phase e;
     er_Severity := er_Severity e; er_Message := er_Message e; er_Details := details;
     er_EvidenceRefs := er_EvidenceRefs e; er_Suggestion := er_Suggestion e; er_Retryable := er_Retryable e;
     er_Cause := er_Cause e |}.

(** ** JSON documents

    The document [json.Marshal] writes and a decode reads back; [omitempty]
    members are optional, in the order of the struct's fields. *)

Definition doc := result string json.

(** A struct: each member is absent or a document. *)
Fixpoint struct (members : list (string * option doc)) : result string (list (string * json)) :=
  match members with
  | [] => Ok []
  | (_, None) :: l => struct l
  | (k, Some d) :: l => let! j := d in let! r := struct l in Ok ((k, j) :: r)
  end.
Definition object (members : list (string * option doc)) : doc :=
  let! l := struct members in Ok (JObj l).

Definition str (s : string) : doc := Ok (JStr (sanitize s)).
Definition int (z : Z) : doc := Ok (JNum (dec_Z z)).
Definition bool_doc (b : bool) : doc := Ok (JBool b).
Definition array {A} (f : A → doc) (l : list A) : doc := let! r := bind_all f l in Ok (JArr r).
Definition slice_doc {A} (f : A → doc) (s : slice A) : doc :=
  match s with None => Ok JNull | Some l => array f l end.

Definition omit_str (s : string) : option doc := if s =s "" then None else Some (str s).
Definition omit_int (z : Z) : option doc := if z =? 0 then None else Some (int z).
Definition omit_bool (b : bool) : option doc := if b then Some (bool_doc b) else None.
Definition omit_list {A} (f : A → doc) (l : list A) : option doc :=
  match l with [] => None | _ => Some (array f l) end.
Definition omit_map (m : list (string * any)) : option doc :=
  match m with [] => None | _ => Some (to_json (VMap m)) end.

Definition PlanSource_json (s : PlanSource) : doc :=
  object [("identity", Some (str (ps_Identity s))); ("commit", omit_str (ps_Commit s));
          ("treeDigest", Some (str (ps_TreeDigest s)))].

Definition PlanEvidence_json (e : PlanEvidence) : doc :=
  object [("profile", Some (str (pe_Profile e))); ("include", Some (slice_doc str (pe_Include e)));
          ("exclude", Some (slice_doc str (pe_Exclude e)))].

Definition RunnerFeatures_json (r : RunnerFeatures) : doc :=
  object [("backend", Some (str (rf_Backend r))); ("available", Some (bool_doc (rf_Available r)));
          ("controllerOS", Some (str (rf_ControllerOS r))); ("workloadOS", Some (str (rf_WorkloadOS r)));
          ("rootless", Some (str (rf_Rootless r))); ("networkDeny", Some (bool_doc (rf_NetworkDeny r)));
          ("networkAttemptObservation", Some (str (rf_NetworkAttemptObservation r)));
          ("processExecObservation", Some (str (rf_ProcessExecObservation r)));
          ("filesystemWriteObservation", Some (str (rf_FilesystemWriteObservation r)));
          ("filesystemReadObservation", Some (str (rf_FilesystemReadObservation r)));
          ("portObservation", Some (str (rf_PortObservation r))); ("resourceUsage", Some (str (rf_ResourceUsage r)));
          ("resourceLimitEnforcement", omit_bool (rf_ResourceLimitEnforcement r));
          ("engineVersion", omit_str (rf_EngineVersion r)); ("reason", omit_str (rf_Reason r))].

Definition ObservationEvent_json (o : ObservationEvent) : doc :=
  object [("schemaVersion", Some (str (oe_SchemaVersion o))); ("sequence", Some (int (oe_Sequence o)));
          ("timestamp", Some (marshal_time (oe_Timestamp o))); ("phase", Some (str (oe_Phase o)));
          ("actor", Some (str (oe_Actor o))); ("operation", Some (str (oe_Operation o)));
          ("resource", Some (str (oe_Resource o))); ("result", Some (str (oe_Result o)));
          ("observer", Some (str (oe_Observer o))); ("coverage", Some (str (oe_Coverage o)));
          ("confidence", Some (str (oe_Confidence o))); ("details", omit_map (oe_Details o))].

Definition AssertionResult_json (a : AssertionResult) : doc :=
  object [("schemaVersion", Some (str (ar_SchemaVersion a))); ("assertionId", Some (str (ar_ID a)));
          ("type", Some (str (ar_Type a))); ("required", Some (bool_doc (ar_Required a)));
          ("expected", Some (to_json (ar_Expected a))); ("actual", Some (to_json (ar_Actual a)));
          ("status", Some (str (ar_Status a))); ("evidenceRefs", Some (slice_doc str (ar_EvidenceRefs a)));
          ("message", omit_str (ar_Message a)); ("repeat", omit_int (ar_Repeat a));
          ("durationMillis", omit_int (ar_DurationMillis a))].

Definition PolicyDecision_json (p : PolicyDecision) : doc :=
  object [("policyId", Some (str (pd_PolicyID p))); ("policyBundleDigest", Some (str (pd_PolicyBundleDigest p)));
          ("decision", Some (str (pd_Decision p))); ("severity", Some (str (pd_Severity p)));
          ("message", Some (str (pd_Message p))); ("evidenceRefs", omit_list str (pd_EvidenceRefs p))].

Definition Verdicts_json (v : Verdicts) : doc :=
  object [("functional", Some (str (v_Functional v))); ("capability", Some (str (v_Capability v)));
          ("reproducibility", Some (str (v_Reproducibility v))); ("cleanup", Some (str (v_Cleanup v)));
          ("evidence", Some (str (v_Evidence v))); ("freshness", Some (str (v_Freshness v)));
          ("overall", Some (str (v_Overall v)))].

Definition ObserverCoverage_json (c : ObserverCoverage) : doc :=
  object [("observer", Some (str (oc_Observer c))); ("feature", Some (str (oc_Feature c)));
          ("coverage", Some (str (oc_Coverage c))); ("required", Some (bool_doc (oc_Required c)));
          ("reason", omit_str (oc_Reason c))].

Definition VerificationPlanRef_json (p : VerificationPlanRef) : doc :=
  object [("scenario", Some (str (vp_Scenario p))); ("environment", Some (str (vp_Environment p)));
          ("planDigest", Some (str (vp_PlanDigest p))); ("policyBundleDigest", Some (str (vp_PolicyBundleDigest p)));
          ("repeatCount", Some (int (vp_RepeatCount p))); ("successThreshold", Some (int (vp_SuccessThreshold p)));
          ("resolvedPlanSchemaVersion", Some (str (vp_ResolvedPlanSchemaVersion p)));
          ("evidence", Some (PlanEvidence_json (vp_Evidence p)))].

Definition RepeatSummary_json (r : RepeatSummary) : doc :=
  object [("requested", Some (int (rs_Requested r))); ("completed", Some (int (rs_Completed r)));
          ("matching", Some (int (rs_Matching r)))].

Definition ResourceSummary_json (r : ResourceSummary) : doc :=
  object [("peakMemoryBytes", omit_int (r_PeakMemoryBytes r)); ("cpuTimeMillis", omit_int (r_CPUTimeMillis r));
          ("durationMillis", Some (int (r_DurationMillis r))); ("maxProcesses", omit_int (r_MaxProcesses r));
          ("logBytes", omit_int (r_LogBytes r)); ("sandboxPeakMemoryBytes", omit_int (r_SandboxPeakMemoryBytes r));
          ("sandboxCPUTimeMillis", omit_int (r_SandboxCPUTimeMillis r)); ("maxTasks", omit_int (r_MaxTasks r));
          ("writableBytes", omit_int (r_WritableBytes r)); ("outputBytes", omit_int (r_OutputBytes r));
          ("observedFields", omit_list str (r_ObservedFields r))].

Definition Error_json (e : option Error) : doc :=
  match e with
  | None => Ok JNull
  | Some e =>
      object [("schemaVersion", Some (str (er_SchemaVersion e))); ("code", Some (str (er_Code e)));
              ("phase", omit_str (er_Phase e)); ("severity", Some (str (er_Severity e)));
              ("message", Some (str (er_Message e))); ("details", omit_map (er_Details e));
              ("evidenceRefs", Some (slice_doc str (er_EvidenceRefs e))); ("suggestion", omit_str (er_Suggestion e));
              ("retryable", Some (bool_doc (er_Retryable e)))]
  end.

Definition VerificationDigests_json (d : VerificationDigests) : doc :=
  object [("observations", Some (str (vd_Observations d))); ("assertions", Some (str (vd_Assertions d)));
          ("policyDecisions", Some (str (vd_PolicyDecisions d))); ("verification", Some (str (vd_Verification d)))].

Definition VerificationResult_json (r : VerificationResult) : doc :=
  object [("schemaVersion", Some (str (vr_SchemaVersion r))); ("verificationId", Some (str (vr_VerificationID r)));
          ("runId", Some (str (vr_RunID r))); ("startedAt", Some (marshal_time (vr_StartedAt r)));
          ("completedAt", Some (marshal_time (vr_CompletedAt r))); ("subject", Some (PlanSource_json (vr_Subject r)));
          ("plan", Some (VerificationPlanRef_json (vr_Plan r))); ("runner", Some (RunnerFeatures_json (vr_Runner r)));
          ("results", Some (Verdicts_json (vr_Results r)));
          ("observerCoverage", Some (slice_doc ObserverCoverage_json (vr_ObserverCoverage r)));
          ("observations", Some (slice_doc ObservationEvent_json (vr_Observations r)));
          ("assertions", Some (slice_doc AssertionResult_json (vr_Assertions r)));
          ("policyDecisions", Some (slice_doc PolicyDecision_json (vr_PolicyDecisions r)));
          ("errors", omit_list Error_json (vr_Errors r)); ("repeats", Some (RepeatSummary_json (vr_Repeats r)));
          ("resources", Some (ResourceSummary_json (vr_Resources r)));
          ("digests", Some (VerificationDigests_json (vr_Digests r)))].

(** ** Documents are well formed *)

Definition doc_wf (d : doc) : Prop := ∀ j, d = Ok j → wf j = true.

Create HintDb docs.

Lemma str_wf s : doc_wf (str s).
Proof. intros j [= <-]. apply sanitize_is_valid. Qed.
Lemma int_wf z : doc_wf (int z).
Proof. intros j [= <-]. apply number_lexeme_dec_Z. Qed.
Lemma bool_wf b : doc_wf (bool_doc b).
Proof. by intros j [= <-]. Qed.
Lemma to_json_doc_wf v : doc_wf (to_json v).
Proof. exact (to_json_wf v). Qed.
Lemma array_wf {A} (f : A → doc) l : (∀ x, doc_wf (f x)) → doc_wf (array f l).
Proof.
  intros Hf j H. apply bind_Ok in H as (r & Hr & [= <-]). cbn [wf]. apply forallb_forall, List.Forall_forall.
  eapply (bind_all_forall f (λ _, True)); [|by apply Forall_true|exact Hr]. intros x y _. apply Hf.
Qed.
Lemma slice_wf {A} (f : A → doc) s : (∀ x, doc_wf (f x)) → doc_wf (slice_doc f s).
Proof. intros Hf. destruct s; [by apply array_wf|]. by intros j [= <-]. Qed.

Definition member_wf (p : string * option doc) : Prop :=
  match p.2 with Some d => doc_wf d | None => True end.

Lemma struct_keys members l : struct members = Ok l → ∀ k, k ∈ l.*1 → k ∈ members.*1.
Proof.
  revert l. induction members as [|[k [d|]] members IH]; intros l; cbn [struct].
  - by intros [= <-].
  - intros H. apply bind_Ok in H as (j & Hj & H). apply bind_Ok in H as (r & Hr & [= <-]).
    intros k'. rewrite !fmap_cons, !elem_of_cons. cbn [fst]. naive_solver.
  - intros H k' Hk. rewrite fmap_cons, elem_of_cons. right. by eapply IH.
Qed.

Lemma object_wf members :
  bool_decide (NoDup members.*1) && forallb utf8_valid members.*1 = true → Forall member_wf members →
  doc_wf (object members).
Proof.
  intros [Hd%bool_decide_eq_true Hu]%andb_prop Hm j H. apply bind_Ok in H as (l & Hl & [= <-]).
  revert l Hl Hd Hu. induction Hm as [|[k [d|]] members Hp Hm IH]; intros l; cbn [struct]; [by intros [= <-]| |].
  - intros H Hd Hu. apply bind_Ok in H as (v & Hv & H). apply bind_Ok in H as (r & Hr & [= <-]).
    rewrite fmap_cons in Hd, Hu. apply NoDup_cons in Hd as [Hk Hd]. cbn [forallb fst] in Hu, Hk. apply andb_prop in Hu as [Hku Hu].
    specialize (IH r Hr Hd Hu). cbn [wf] in *. apply andb_prop in IH as [Hn%bool_decide_eq_true Hf].
    rewrite bool_decide_true.
    + cbn [forallb fst snd]. by rewrite Hku, (Hp _ Hv), Hf.
    + rewrite fmap_cons. constructor; [|done]. intros Hin. apply Hk. cbn [fst] in Hin. by eapply struct_keys.
  - intros H Hd Hu. rewrite fmap_cons in Hd, Hu. apply NoDup_cons in Hd as [_ Hd]. cbn [forallb] in Hu.
    apply andb_prop in Hu as [_ Hu]. by apply IH.
Qed.

Lemma omit_str_wf s : member_wf ("", omit_str s).
Proof. unfold member_wf, omit_str. cbn. destruct (s =s ""); [done|apply str_wf]. Qed.
Lemma omit_int_wf z : member_wf ("", omit_int z).
Proof. unfold member_wf, omit_int. cbn. destruct (z =? 0); [done|apply int_wf]. Qed.
Lemma omit_bool_wf b : member_wf ("", omit_bool b).
Proof. destruct b; [apply bool_wf|done]. Qed.
Lemma omit_list_wf {A} (f : A → doc) l : (∀ x, doc_wf (f x)) → member_wf ("", omit_list f l).
Proof. intros. destruct l; [done|]. by apply array_wf. Qed.
Lemma omit_map_wf m : member_wf ("", omit_map m).
Proof. destruct m; [done|]. apply to_json_doc_wf. Qed.

Lemma dec_Z_ascii z : string_forallb ascii7 (dec_Z z) = true.
Proof. apply number_lexeme_ascii7, number_lexeme_dec_Z. Qed.
Lemma zeros_ascii n : string_forallb ascii7 (zeros n) = true.
Proof. by induction n. Qed.
Lemma pad_ascii w z : string_forallb ascii7 (pad w z) = true.
Proof. unfold pad. by rewrite string_forallb_app, zeros_ascii, dec_Z_ascii. Qed.
Lemma trim_right_forallb P s : string_forallb P s = true → string_forallb P (trim_right_zeros s) = true.
Proof.
  induction s as [|c s IH]; [done|]. cbn [string_forallb trim_right_zeros]. intros [Hc Hs]%andb_prop.
  specialize (IH Hs). destruct (trim_right_zeros s); [destruct (is_zero_digit c)|]; cbn [string_forallb] in *; by rewrite ?Hc.
Qed.

Lemma marshal_time_wf t : doc_wf (marshal_time t).
Proof.
  intros j. unfold marshal_time. destruct (civil_from_days _) as [[y m] d].
  destruct (_ || _); [done|]. destruct (_ <=? _); [done|]. intros [= <-]. cbn [wf]. apply utf8_valid_ascii.
  rewrite !string_forallb_app, !pad_ascii. unfold format_nanos, format_offset.
  assert (string_forallb ascii7 (if trim_right_zeros (pad 9 ((t_ns t + t_offset t * 10 ^ 9) mod 10 ^ 9)) =s "" then ""
    else "." +:+ trim_right_zeros (pad 9 ((t_ns t + t_offset t * 10 ^ 9) mod 10 ^ 9))) = true) as ->.
  { destruct (_ =s ""); [done|]. rewrite string_forallb_app, trim_right_forallb; [done|apply pad_ascii]. }
  destruct (t_offset t =? 0); [done|]. rewrite !string_forallb_app, !pad_ascii. by destruct (_ <? 0).
Qed.

Lemma member_wf_some k d : doc_wf d → member_wf (k, Some d).
Proof. done. Qed.

#[export] Hint Resolve str_wf int_wf bool_wf to_json_doc_wf marshal_time_wf slice_wf array_wf
  omit_str_wf omit_int_wf omit_bool_wf omit_map_wf omit_list_wf member_wf_some : docs.
#[export] Hint Extern 1 (member_wf (?k, omit_list _ _)) => apply (omit_list_wf _ _) : docs.

(** A record's document: its keys by computation, its members by their lemmas. *)
Ltac object_doc :=
  apply object_wf; [vm_compute; reflexivity|];
  repeat (first [apply Forall_nil | apply Forall_cons; split]); eauto with docs.

Lemma PlanSource_wf s : doc_wf (PlanSource_json s).
Proof. object_doc. Qed.
Lemma PlanEvidence_wf s : doc_wf (PlanEvidence_json s).
Proof. object_doc. Qed.
Lemma RunnerFeatures_wf s : doc_wf (RunnerFeatures_json s).
Proof. object_doc. Qed.
Lemma ObservationEvent_wf s : doc_wf (ObservationEvent_json s).
Proof. object_doc. Qed.
Lemma AssertionResult_wf s : doc_wf (AssertionResult_json s).
Proof. object_doc. Qed.
Lemma PolicyDecision_wf s : doc_wf (PolicyDecision_json s).
Proof. object_doc. Qed.
Lemma Verdicts_wf s : doc_wf (Verdicts_json s).
Proof. object_doc. Qed.
Lemma ObserverCoverage_wf s : doc_wf (ObserverCoverage_json s).
Proof. object_doc. Qed.
#[export] Hint Resolve PlanSource_wf PlanEvidence_wf RunnerFeatures_wf ObservationEvent_wf AssertionResult_wf
  PolicyDecision_wf Verdicts_wf ObserverCoverage_wf : docs.
Lemma VerificationPlanRef_wf s : doc_wf (VerificationPlanRef_json s).
Proof. object_doc. Qed.
Lemma RepeatSummary_wf s : doc_wf (RepeatSummary_json s).
Proof. object_doc. Qed.
Lemma ResourceSummary_wf s : doc_wf (ResourceSummary_json s).
Proof. object_doc. Qed.
Lemma VerificationDigests_wf s : doc_wf (VerificationDigests_json s).
Proof. object_doc. Qed.
Lemma Error_wf e : doc_wf (Error_json e).
Proof. destruct e; [object_doc|by intros j [= <-]]. Qed.
#[export] Hint Resolve VerificationPlanRef_wf RepeatSummary_wf ResourceSummary_wf VerificationDigests_wf Error_wf : docs.
Lemma VerificationResult_wf r : doc_wf (VerificationResult_json r).
Proof. object_doc. Qed.
