(* ===== verification/CleanupEvidence.v ===== *)
(** * Cleanup evidence (internal/verification: the cleanup observation contract)

    The authoritative cleanup observation: how its details are decoded
    ([encoding/json] into a struct, unknown fields disallowed), which
    observations are accepted with which verdict, and how the verdicts of the
    repeats are combined. *)

From S2P Require Import Prelude Json JsonUnmarshal GoValue Domain.

Local Open Scope Z_scope.

Definition cleanupObservationOperation := "cleanup.residue.summary".
Definition cleanupObservationObserver := "controller-cleanup-residue-classifier".
Definition cleanupObservationResource := "/outputs".
Definition cleanupObservationBoundary :=
  "post-quiescence-post-final-observers-post-disposable-pre-repair-pre-export-pre-destroy".
Definition cleanupObservationClassifier := "0.1.0".

(** [cleanupObservationDetails]. *)
Record cleanupObservationDetails := {
  cd_AllowedPatternCount : Z; cd_AllowedProfile : string; cd_Boundary : string;
  cd_ClassifierVersion : string; cd_DirectoryCount : Z; cd_DisposableCleanupVerified : bool;
  cd_EntryCount : Z; cd_IdentityVerified : bool; cd_InventoryComplete : bool; cd_MaxControlBytes : Z;
  cd_MaxDepth : Z; cd_MaxEntries : Z; cd_MaxPathBytes : Z; cd_OpaqueInventoryToken : string;
  cd_QuiescenceConfirmed : bool; cd_RegularFileCount : Z; cd_Scope : string; cd_SpecialCount : Z;
  cd_SymlinkCount : Z; cd_TokenScheme : string; cd_UnmatchedCount : Z; cd_Verdict : string;
  cd_Failure : string
}.

(** ** Decoding the details

    [json.Decoder.Decode] with [DisallowUnknownFields] ([JsonUnmarshal]). *)

Definition detail_fields : list (string * field_kind) :=
  [("allowedPatternCount", KInt); ("allowedProfile", KString); ("boundary", KString);
   ("classifierVersion", KString); ("directoryCount", KInt); ("disposableCleanupVerified", KBool);
   ("entryCount", KInt); ("identityVerified", KBool); ("inventoryComplete", KBool);
   ("maxControlBytes", KInt); ("maxDepth", KInt); ("maxEntries", KInt); ("maxPathBytes", KInt);
   ("opaqueInventoryToken", KString); ("quiescenceConfirmed", KBool); ("regularFileCount", KInt);
   ("scope", KString); ("specialCount", KInt); ("symlinkCount", KInt); ("tokenScheme", KString);
   ("unmatchedCount", KInt); ("verdict", KString); ("failure", KString)].

Definition decode_details (l : list (string * json)) : result string cleanupObservationDetails :=
  match first_error detail_fields l with
  | Some e => Err e
  | None =>
      let int := decode_field detail_fields set_int 0 l in
      let str := decode_field detail_fields set_str "" l in
      let flag := decode_field detail_fields set_bool false l in
      Ok {| cd_AllowedPatternCount := int "allowedPatternCount"; cd_AllowedProfile := str "allowedProfile";
            cd_Boundary := str "boundary"; cd_ClassifierVersion := str "classifierVersion";
            cd_DirectoryCount := int "directoryCount";
            cd_DisposableCleanupVerified := flag "disposableCleanupVerified";
            cd_EntryCount := int "entryCount"; cd_IdentityVerified := flag "identityVerified";
            cd_InventoryComplete := flag "inventoryComplete"; cd_MaxControlBytes := int "maxControlBytes";
            cd_MaxDepth := int "maxDepth"; cd_MaxEntries := int "maxEntries";
            cd_MaxPathBytes := int "maxPathBytes"; cd_OpaqueInventoryToken := str "opaqueInventoryToken";
            cd_QuiescenceConfirmed := flag "quiescenceConfirmed"; cd_RegularFileCount := int "regularFileCount";
            cd_Scope := str "scope"; cd_SpecialCount := int "specialCount"; cd_SymlinkCount := int "symlinkCount";
            cd_TokenScheme := str "tokenScheme"; cd_UnmatchedCount := int "unmatchedCount";
            cd_Verdict := str "verdict"; cd_Failure := str "failure" |}
  end.

(** The fields the observation must have, by exact name. *)
Definition required_detail_fields : list string :=
  ["allowedPatternCount"; "allowedProfile"; "boundary"; "classifierVersion"; "directoryCount";
   "disposableCleanupVerified"; "entryCount"; "identityVerified"; "inventoryComplete"; "maxControlBytes";
   "maxDepth"; "maxEntries"; "maxPathBytes"; "quiescenceConfirmed"; "regularFileCount"; "scope";
   "specialCount"; "symlinkCount"; "unmatchedCount"; "verdict"].

(** ** Not-tested observations *)

Inductive failure_stage := StageQuiescence | StageDisposable | StageIdentity | StageInventory | StageClassification.

Definition failure_stage_of (failure : string) : option failure_stage :=
  if existsb (String.eqb failure)
       ["sandbox-boundary-unavailable"; "inventory-not-attempted"; "workload-quiescence-failed";
        "immutable-container-identity-unavailable"] then Some StageQuiescence
  else if existsb (String.eqb failure) ["disposable-removal-unavailable"; "disposable-removal-failed"]
  then Some StageDisposable
  else if failure =s "container-identity-readback-failed" then Some StageIdentity
  else if existsb (String.eqb failure)
       ["inventory-helper-unavailable"; "control-limit"; "dirty-stderr"; "helper-failed"; "invalid-control";
        "count-mismatch"; "entry-limit"; "invalid-entry"; "unsorted-or-duplicate"; "inventory-unavailable"]
  then Some StageInventory
  else if existsb (String.eqb failure) ["invalid-plan-contract"; "random-unavailable"; "token-unavailable"]
  then Some StageClassification
  else None.

Definition validateNotTestedCleanupDetails (details : cleanupObservationDetails) : result string unit :=
  let q := cd_QuiescenceConfirmed details in
  let d := cd_DisposableCleanupVerified details in
  let i := cd_IdentityVerified details in
  let c := cd_InventoryComplete details in
  fail_if (cd_Failure details =s "") with "not-tested cleanup observation has no failure class" ;;
  fail_if ((negb q && (d || i || c)) || (negb d && (i || c)) || (negb i && c))
    with "not-tested cleanup observation boundary flags are not monotonic" ;;
  match failure_stage_of (cd_Failure details) with
  | None => Err "not-tested cleanup observation failure class is unsupported"
  | Some StageQuiescence =>
      fail_if (q || d || i || c) with "cleanup failure class conflicts with quiescence flags" ;; Ok tt
  | Some StageDisposable =>
      fail_if (negb q || d || i || c) with "cleanup failure class conflicts with disposable flags" ;; Ok tt
  | Some StageIdentity =>
      fail_if (negb q || negb d || i || c) with "cleanup failure class conflicts with identity flags" ;; Ok tt
  | Some StageInventory =>
      fail_if (negb q || negb d || negb i || c) with "cleanup failure class conflicts with inventory flags" ;; Ok tt
  | Some StageClassification =>
      fail_if (negb q || negb d || negb i || negb c)
        with "cleanup failure class conflicts with classification flags" ;; Ok tt
  end.

Definition validOpaqueCleanupToken (value : string) : bool :=
  has_prefix "hmac-sha256:" value
  && (let encoded := trim_prefix "hmac-sha256:" value in
      (slen encoded =? 64)%nat && string_forallb is_hex encoded).

(** ** One observation *)

Definition supported_verdict (verdict : string) : bool :=
  (verdict =s CleanupClean) || (verdict =s CleanupAllowedResidue)
  || (verdict =s CleanupUndeclaredResidue) || (verdict =s CleanupNotTested).

(** The sum of the four kinds, in Go's wrapping [int]. *)
Definition kind_sum (d : cleanupObservationDetails) : Z :=
  wrap64 (wrap64 (wrap64 (cd_DirectoryCount d + cd_RegularFileCount d) + cd_SpecialCount d) + cd_SymlinkCount d).

Definition validate_counts (d : cleanupObservationDetails) : result string unit :=
  fail_if ((cd_AllowedPatternCount d <? 0) || (1 <? cd_AllowedPatternCount d)
           || ((cd_AllowedPatternCount d =? 0) && (cd_AllowedProfile d !=s "none"))
           || ((cd_AllowedPatternCount d =? 1) && (cd_AllowedProfile d !=s "outputs-descendants")))
    with "cleanup observation allowed-residue profile is invalid" ;;
  fail_if (existsb (λ count, count <? 0)
             [cd_EntryCount d; cd_DirectoryCount d; cd_RegularFileCount d; cd_SpecialCount d;
              cd_SymlinkCount d; cd_UnmatchedCount d])
    with "cleanup observation count is negative" ;;
  fail_if (negb (cd_EntryCount d =? kind_sum d) || (cd_EntryCount d <? cd_UnmatchedCount d)
           || (cd_MaxEntries d <? cd_EntryCount d))
    with "cleanup observation counts are inconsistent" ;;
  let expectedUnmatched :=
    if cd_AllowedPatternCount d =? 1 then wrap64 (cd_SpecialCount d + cd_SymlinkCount d) else cd_EntryCount d in
  fail_if (negb (cd_UnmatchedCount d =? expectedUnmatched))
    with "cleanup observation unmatched count conflicts with allowed profile" ;;
  fail_if (negb (cd_InventoryComplete d)
           && (negb (cd_EntryCount d =? 0) || negb (cd_DirectoryCount d =? 0)
               || negb (cd_RegularFileCount d =? 0) || negb (cd_SpecialCount d =? 0)
               || negb (cd_SymlinkCount d =? 0) || negb (cd_UnmatchedCount d =? 0)
               || (cd_OpaqueInventoryToken d !=s "") || (cd_TokenScheme d !=s "")))
    with "incomplete cleanup inventory exposes impossible aggregate data" ;;
  Ok tt.

Definition validate_flags (verdict : string) (d : cleanupObservationDetails) : result string unit :=
  if verdict =s CleanupNotTested then validateNotTestedCleanupDetails d
  else
    fail_if ((cd_Failure d !=s "") || negb (cd_InventoryComplete d) || negb (cd_QuiescenceConfirmed d)
             || negb (cd_DisposableCleanupVerified d) || negb (cd_IdentityVerified d))
      with "decisive cleanup observation lacks trusted boundary flags" ;;
    Ok tt.

Definition validate_residue (verdict : string) (d : cleanupObservationDetails) : result string unit :=
  if verdict =s CleanupClean then
    fail_if (negb (cd_EntryCount d =? 0) || negb (cd_UnmatchedCount d =? 0))
      with "clean cleanup observation has residue" ;; Ok tt
  else if verdict =s CleanupAllowedResidue then
    fail_if ((cd_EntryCount d =? 0) || negb (cd_UnmatchedCount d =? 0) || negb (cd_AllowedPatternCount d =? 1)
             || negb (cd_SymlinkCount d =? 0) || negb (cd_SpecialCount d =? 0))
      with "allowed-residue cleanup observation is inconsistent" ;; Ok tt
  else if verdict =s CleanupUndeclaredResidue then
    fail_if ((cd_EntryCount d =? 0) || (cd_UnmatchedCount d =? 0))
      with "undeclared-residue cleanup observation is inconsistent" ;; Ok tt
  else Ok tt.

Definition validate_token (verdict : string) (d : cleanupObservationDetails) : result string unit :=
  let! _ :=
    (if cd_OpaqueInventoryToken d =s "" then
       fail_if (cd_TokenScheme d !=s "") with "cleanup observation token scheme has no token" ;; Ok tt
     else
       fail_if ((cd_TokenScheme d !=s "ephemeral-keyed-hmac-sha256")
                || negb (validOpaqueCleanupToken (cd_OpaqueInventoryToken d)))
         with "cleanup observation token is invalid" ;; Ok tt) in
  fail_if ((verdict !=s CleanupNotTested) && (cd_OpaqueInventoryToken d =s ""))
    with "decisive cleanup observation has no opaque token" ;; Ok tt.

(** The checks on decoded details, and on the event's result metadata. *)
Definition validate_details (observation : ObservationEvent) (d : cleanupObservationDetails) : result string string :=
  let verdict := cd_Verdict d in
  fail_if (negb (supported_verdict verdict)) with "cleanup observation verdict is unsupported" ;;
  fail_if ((cd_ClassifierVersion d !=s cleanupObservationClassifier) || (cd_Boundary d !=s cleanupObservationBoundary)
           || (cd_Scope d !=s cleanupObservationResource) || negb (cd_MaxControlBytes d =? 524288)
           || negb (cd_MaxDepth d =? 64) || negb (cd_MaxEntries d =? 2048) || negb (cd_MaxPathBytes d =? 1024))
    with "cleanup observation classifier boundary is not exact" ;;
  let! _ := validate_counts d in
  let! _ := validate_flags verdict d in
  let notTested := verdict =s CleanupNotTested in
  fail_if ((oe_Result observation !=s if notTested then "failed" else "succeeded")
           || (oe_Coverage observation !=s if notTested then "unavailable" else "enforcement-only")
           || (oe_Confidence observation !=s if notTested then "unknown" else "high"))
    with "cleanup observation result metadata does not match verdict" ;;
  let! _ := validate_residue verdict d in
  let! _ := validate_token verdict d in
  Ok verdict.

Definition cleanupVerdictFromObservation (observation : ObservationEvent) : result string string :=
  fail_if ((oe_SchemaVersion observation !=s "1") || (oe_Phase observation !=s PhaseCleanup)
           || (oe_Actor observation !=s "trusted-runner")
           || (oe_Operation observation !=s cleanupObservationOperation)
           || (oe_Resource observation !=s cleanupObservationResource)
           || (oe_Observer observation !=s cleanupObservationObserver))
    with "cleanup observation identity is not exact" ;;
  fail_if (IsZero (oe_Timestamp observation)) with "cleanup observation timestamp is absent" ;;
  let! raw := map_err (λ e, "cleanup observation details: " +:+ e) (to_json (VMap (oe_Details observation))) in
  let fields := match raw with JObj l => l | _ => [] end in
  match List.find (λ field, negb (has_key field fields)) required_detail_fields with
  | Some field => Err ("cleanup observation detail is absent: " +:+ field)
  | None =>
      let! details := map_err (λ e, "cleanup observation details are not exact: " +:+ e) (decode_details fields) in
      validate_details observation details
  end.

(** ** All observations of a result *)

Definition cleanup_rank (value : string) : Z :=
  if value =s CleanupUndeclaredResidue then 4
  else if value =s CleanupNotTested then 3
  else if value =s CleanupAllowedResidue then 2
  else if value =s CleanupClean then 1
  else 0.

Definition aggregateCleanupVerdict (left right : string) : string :=
  if cleanup_rank left <? cleanup_rank right then right else left.

(** The loop: the verdict so far and the number of cleanup observations found. *)
Fixpoint cleanup_loop (observations : list ObservationEvent) (declared : string) (found : Z)
  : result string (string * Z) :=
  match observations with
  | [] => Ok (declared, found)
  | observation :: rest =>
      if oe_Operation observation !=s cleanupObservationOperation then cleanup_loop rest declared found
      else
        let found := found + 1 in
        let! verdict := map_err (λ e, "cleanup observation " +:+ dec_Z found +:+ ": " +:+ e)
                          (cleanupVerdictFromObservation observation) in
        cleanup_loop rest (aggregateCleanupVerdict declared verdict) found
  end.

Definition cleanupVerdictFromObservations (observations : list ObservationEvent) (completed : Z)
  : result string string :=
  fail_if (completed <? 0) with "completed repeat count is negative" ;;
  let! (declared, found) := cleanup_loop observations CleanupClean 0 in
  fail_if (negb (found =? completed))
    with ("cleanup observation count " +:+ dec_Z found +:+ " does not match completed repeat count "
          +:+ dec_Z completed) ;;
  if completed =? 0 then Ok CleanupNotTested else Ok declared.

(** ** What acceptance means *)

Ltac step_fail H :=
  match type of H with
  | (if ?b then Err _ else _) = Ok _ => destruct b eqn:?; [discriminate H|]
  | bind_result _ _ = Ok _ => let x := fresh "r" in let E := fresh "E" in apply bind_Ok in H as (x & E & H)
  end.

(** The decisive part of an accepted observation. *)
Record decisive (d : cleanupObservationDetails) : Prop := {
  decisive_flags : cd_InventoryComplete d = true ∧ cd_QuiescenceConfirmed d = true
    ∧ cd_DisposableCleanupVerified d = true ∧ cd_IdentityVerified d = true;
  decisive_failure : cd_Failure d = "";
  decisive_token : cd_TokenScheme d = "ephemeral-keyed-hmac-sha256"
    ∧ validOpaqueCleanupToken (cd_OpaqueInventoryToken d) = true
}.

Record counted (d : cleanupObservationDetails) : Prop := {
  counted_entries : 0 <= cd_EntryCount d <= 2048;
  counted_sum : cd_EntryCount d = kind_sum d;
  counted_nonneg : 0 <= cd_DirectoryCount d ∧ 0 <= cd_RegularFileCount d ∧ 0 <= cd_SpecialCount d ∧ 0 <= cd_SymlinkCount d;
  counted_unmatched : cd_UnmatchedCount d =
    (if cd_AllowedPatternCount d =? 1 then wrap64 (cd_SpecialCount d + cd_SymlinkCount d) else cd_EntryCount d);
  counted_profile : (cd_AllowedPatternCount d = 0 ∧ cd_AllowedProfile d = "none")
    ∨ (cd_AllowedPatternCount d = 1 ∧ cd_AllowedProfile d = "outputs-descendants")
}.

Lemma validate_counts_ok d : validate_counts d = Ok tt → cd_MaxEntries d = 2048 → counted d ∧ 0 <= cd_UnmatchedCount d <= cd_EntryCount d.
Proof.
  unfold validate_counts. intros H Hmax. repeat step_fail H. to_prop.
  cbn [existsb] in *. to_prop.
  repeat match goal with E : (_ && _) = false |- _ => apply andb_false_elim in E end.
  split; [|lia]. constructor; try lia.
  assert (cd_AllowedPatternCount d = 0 ∨ cd_AllowedPatternCount d = 1) as [E|E] by lia; [left|right].
  all: split; [done|].
  all: repeat match goal with H : sumbool _ _ |- _ => destruct H end; to_prop; try done; lia.
Qed.

(** The residue each decisive verdict stands for. *)
Definition residue_matches (verdict : string) (d : cleanupObservationDetails) : Prop :=
  (verdict = CleanupClean ∧ cd_EntryCount d = 0 ∧ cd_UnmatchedCount d = 0)
  ∨ (verdict = CleanupAllowedResidue ∧ 0 < cd_EntryCount d ∧ cd_UnmatchedCount d = 0
     ∧ cd_AllowedPatternCount d = 1 ∧ cd_SymlinkCount d = 0 ∧ cd_SpecialCount d = 0)
  ∨ (verdict = CleanupUndeclaredResidue ∧ 0 < cd_EntryCount d ∧ 0 < cd_UnmatchedCount d).

Record exact_boundary (d : cleanupObservationDetails) : Prop := {
  boundary_classifier : cd_ClassifierVersion d = cleanupObservationClassifier;
  boundary_text : cd_Boundary d = cleanupObservationBoundary;
  boundary_scope : cd_Scope d = cleanupObservationResource;
  boundary_limits : cd_MaxControlBytes d = 524288 ∧ cd_MaxDepth d = 64 ∧ cd_MaxEntries d = 2048
    ∧ cd_MaxPathBytes d = 1024
}.

Definition result_metadata (o : ObservationEvent) (result coverage confidence : string) : Prop :=
  oe_Result o = result ∧ oe_Coverage o = coverage ∧ oe_Confidence o = confidence.

(** An accepted observation: what the details and the event say. *)
Definition accepted (o : ObservationEvent) (d : cleanupObservationDetails) (verdict : string) : Prop :=
  verdict = cd_Verdict d ∧ exact_boundary d ∧ counted d ∧ 0 <= cd_UnmatchedCount d <= cd_EntryCount d
  ∧ ((verdict = CleanupNotTested ∧ cd_Failure d ≠ "" ∧ is_Some (failure_stage_of (cd_Failure d))
      ∧ result_metadata o "failed" "unavailable" "unknown")
     ∨ (decisive d ∧ residue_matches verdict d ∧ result_metadata o "succeeded" "enforcement-only" "high")).

Lemma validate_flags_decisive verdict d :
  verdict ≠ CleanupNotTested → validate_flags verdict d = Ok tt →
  cd_Failure d = "" ∧ cd_InventoryComplete d = true ∧ cd_QuiescenceConfirmed d = true
  ∧ cd_DisposableCleanupVerified d = true ∧ cd_IdentityVerified d = true.
Proof.
  intros Hne%String.eqb_neq. unfold validate_flags. rewrite Hne. intros H. step_fail H. to_prop. by to_prop.
Qed.

Lemma validate_flags_not_tested d :
  validate_flags CleanupNotTested d = Ok tt → cd_Failure d ≠ "" ∧ is_Some (failure_stage_of (cd_Failure d)).
Proof.
  unfold validate_flags, validateNotTestedCleanupDetails. rewrite string_eqb_refl. intros H. repeat step_fail H.
  to_prop. by destruct (failure_stage_of _).
Qed.

Lemma validate_residue_ok verdict d :
  supported_verdict verdict = true → verdict ≠ CleanupNotTested → counted d → 0 <= cd_UnmatchedCount d <= cd_EntryCount d →
  validate_residue verdict d = Ok tt → residue_matches verdict d.
Proof.
  intros Hs Hne%String.eqb_neq Hc Hu. unfold validate_residue, residue_matches, supported_verdict in *.
  rewrite Hne, orb_false_r in Hs. destruct Hc as [He _ _ _ _].
  destruct (String.eqb_spec verdict CleanupClean) as [->|H1]; [intros H; step_fail H; to_prop; auto|].
  destruct (String.eqb_spec verdict CleanupAllowedResidue) as [->|H2].
  { intros H. step_fail H. to_prop. right. left. split_and!; try done; lia. }
  destruct (String.eqb_spec verdict CleanupUndeclaredResidue) as [->|H3]; [|done].
  intros H. step_fail H. to_prop. right. right. split_and!; try done; lia.
Qed.

Lemma validate_token_ok verdict d :
  verdict ≠ CleanupNotTested → validate_token verdict d = Ok tt →
  cd_TokenScheme d = "ephemeral-keyed-hmac-sha256" ∧ validOpaqueCleanupToken (cd_OpaqueInventoryToken d) = true.
Proof.
  intros Hne%String.eqb_neq H. unfold validate_token in H. repeat step_fail H. rewrite Hne in *. cbn [negb andb] in *.
  use_tests. destruct (cd_OpaqueInventoryToken d =s ""); [done|]. step_fail E. by to_prop.
Qed.

Lemma supported_values verdict : supported_verdict verdict = true →
  verdict = CleanupNotTested ∨ verdict ≠ CleanupNotTested.
Proof. intros _. destruct (decide (verdict = CleanupNotTested)); auto. Qed.

Lemma validate_details_ok o d verdict : validate_details o d = Ok verdict → accepted o d verdict.
Proof.
  unfold validate_details. intros H. do 4 step_fail H. step_fail H. do 2 step_fail H. injection H as <-.
  destruct r, r0, r1, r2. to_prop.
  destruct (validate_counts_ok _ E) as [Hc Hu]; [done|].
  split; [done|]. split; [by constructor|]. split; [done|]. split; [done|].
  destruct (decide (cd_Verdict d = CleanupNotTested)) as [Hv|Hv].
  - left. rewrite Hv in *. apply validate_flags_not_tested in E0 as [Hfc Hst]. by split_and!.
  - right. apply validate_residue_ok in E1; [|done..]. apply validate_token_ok in E2 as [T1 T2]; [|done].
    pose proof (validate_flags_decisive _ _ Hv E0) as (F1 & F2 & F3 & F4 & F5).
    apply String.eqb_neq in Hv. rewrite Hv in *. by split_and!.
Qed.

(** The identity of an authoritative cleanup observation. *)
Record cleanup_identity (o : ObservationEvent) : Prop := {
  identity_version : oe_SchemaVersion o = "1";
  identity_phase : oe_Phase o = PhaseCleanup;
  identity_actor : oe_Actor o = "trusted-runner";
  identity_operation : oe_Operation o = cleanupObservationOperation;
  identity_resource : oe_Resource o = cleanupObservationResource;
  identity_observer : oe_Observer o = cleanupObservationObserver;
  identity_timestamp : IsZero (oe_Timestamp o) = false
}.

(** The details an observation decodes to. *)
Definition details_of (o : ObservationEvent) (d : cleanupObservationDetails) : Prop :=
  ∃ fields, to_json (VMap (oe_Details o)) = Ok (JObj fields)
    ∧ Forall (λ f, has_key f fields = true) required_detail_fields ∧ decode_details fields = Ok d.

Lemma required_present (fields : list (string * json)) :
  List.find (λ field, negb (has_key field fields)) required_detail_fields = None →
  Forall (λ f, has_key f fields = true) required_detail_fields.
Proof.
  intros H. apply List.Forall_forall. intros f Hf. pose proof (List.find_none _ _ H f Hf) as E.
  cbv beta in E. by apply negb_false_iff.
Qed.

Lemma observation_accepted o verdict :
  cleanupVerdictFromObservation o = Ok verdict →
  cleanup_identity o ∧ ∃ d, details_of o d ∧ accepted o d verdict.
Proof.
  unfold cleanupVerdictFromObservation. intros H. step_fail H. step_fail H. to_prop.
  apply bind_Ok in H as (raw & Hraw & H). split; [by constructor|].
  destruct (to_json (VMap (oe_Details o))) as [j|e] eqn:Ej; [|done]. injection Hraw as <-.
  destruct (List.find _ _) eqn:Ef; [done|]. apply required_present in Ef.
  apply bind_Ok in H as (d & Hd & H). destruct (decode_details _) as [d'|e] eqn:Ed; [|done]. injection Hd as <-.
  destruct j as [| | | | |l]; try (exfalso; by apply Forall_cons in Ef as [Hk _]).
  exists d'. split; [by exists l|]. by apply validate_details_ok.
Qed.

(** ** The combined verdict *)

Definition cleanup_events (l : list ObservationEvent) : list ObservationEvent :=
  List.filter (λ o, oe_Operation o =s cleanupObservationOperation) l.

Lemma cleanup_loop_spec l declared found verdict n :
  cleanup_loop l declared found = Ok (verdict, n) →
  ∃ vs, Forall2 (λ o v, cleanupVerdictFromObservation o = Ok v) (cleanup_events l) vs
    ∧ verdict = foldl aggregateCleanupVerdict declared vs ∧ n = found + Z.of_nat (length (cleanup_events l)).
Proof.
  revert declared found. induction l as [|o l IH]; intros declared found; cbn [cleanup_loop].
  { intros [= <- <-]. exists []. split_and!; [constructor|done|simpl; lia]. }
  unfold cleanup_events. cbn [List.filter]. destruct (oe_Operation o =s cleanupObservationOperation); cbn [negb].
  - intros H. apply bind_Ok in H as (v & Hv & H).
    destruct (cleanupVerdictFromObservation o) as [v'|] eqn:E; [|done]. injection Hv as <-.
    apply IH in H as (vs & H1 & H2 & ->). exists (v' :: vs). split_and!; [by constructor|done|].
    fold (cleanup_events l). cbn [length]. lia.
  - intros H. by apply IH in H.
Qed.

Lemma aggregate_rank a b : cleanup_rank (aggregateCleanupVerdict a b) = Z.max (cleanup_rank a) (cleanup_rank b).
Proof. unfold aggregateCleanupVerdict. destruct (Z.ltb_spec (cleanup_rank a) (cleanup_rank b)); lia. Qed.

Lemma foldl_rank vs a :
  cleanup_rank (foldl aggregateCleanupVerdict a vs) = foldr (λ v n, Z.max (cleanup_rank v) n) (cleanup_rank a) vs.
Proof.
  revert a. induction vs as [|v vs IH]; intros a; [done|]. cbn [foldl foldr].
  rewrite IH, aggregate_rank. clear IH. revert a. induction vs as [|w vs IHv]; intros a; cbn [foldr]; [lia|].
  rewrite IHv. lia.
Qed.

Lemma foldl_source vs a : foldl aggregateCleanupVerdict a vs = a ∨ foldl aggregateCleanupVerdict a vs ∈ vs.
Proof.
  revert a. induction vs as [|v vs IH]; intros a; [by left|]. cbn [foldl].
  destruct (IH (aggregateCleanupVerdict a v)) as [->|H]; [|right; by right].
  unfold aggregateCleanupVerdict. destruct (_ <? _); [right; left|by left].
Qed.

Lemma foldr_rank_le vs a v : v ∈ vs → cleanup_rank v <= foldr (λ v n, Z.max (cleanup_rank v) n) a vs.
Proof.
  induction vs as [|w vs IH]; [by intros ?%elem_of_nil|].
  intros [->|H]%elem_of_cons; cbn [foldr]; [lia|]. specialize (IH H). lia.
Qed.

(** ** Concrete observations *)

Definition sample_details (entries directories files special symlinks : Z) (verdict : string) : list (string * any) :=
  [("allowedPatternCount", VInt 0); ("allowedProfile", VStr "none"); ("boundary", VStr cleanupObservationBoundary);
   ("classifierVersion", VStr "0.1.0"); ("directoryCount", VInt directories);
   ("disposableCleanupVerified", VBool true); ("entryCount", VInt entries); ("identityVerified", VBool true);
   ("inventoryComplete", VBool true); ("maxControlBytes", VInt 524288); ("maxDepth", VInt 64);
   ("maxEntries", VInt 2048); ("maxPathBytes", VInt 1024);
   ("opaqueInventoryToken", VStr ("hmac-sha256:" +:+ string_concat (repeat "0123456789abcdef" 4)));
   ("quiescenceConfirmed", VBool true); ("regularFileCount", VInt files); ("scope", VStr "/outputs");
   ("specialCount", VInt special); ("symlinkCount", VInt symlinks);
   ("tokenScheme", VStr "ephemeral-keyed-hmac-sha256"); ("unmatchedCount", VInt entries); ("verdict", VStr verdict)].

Definition sample_observation (details : list (string * any)) : ObservationEvent :=
  {| oe_SchemaVersion := "1"; oe_Sequence := 1; oe_Timestamp := {| t_ns := 0; t_offset := 0 |};
     oe_Phase := PhaseCleanup; oe_Actor := "trusted-runner"; oe_Operation := cleanupObservationOperation;
     oe_Resource := "/outputs"; oe_Result := "succeeded"; oe_Observer := cleanupObservationObserver;
     oe_Coverage := "enforcement-only"; oe_Confidence := "high"; oe_Details := details |}.

(** ** Properties *)

(** C6: An accepted cleanup observation is the trusted runner's, for the exact
    classifier boundary, with the verdict its details state: a decisive verdict
    needs every boundary flag, a keyed token, no failure and the residue counts
    it names (clean: none; allowed: some, all matched, no links or special
    files; undeclared: some unmatched), and a not-tested one a known failure. *)
Theorem cleanup_observation_sound o verdict :
  cleanupVerdictFromObservation o = Ok verdict →
  cleanup_identity o ∧ ∃ d, details_of o d ∧ accepted o d verdict.
Proof. apply observation_accepted. Qed.

Lemma cleanup_observation_sound_witness :
  cleanup_identity (sample_observation (sample_details 3 1 2 0 0 CleanupUndeclaredResidue)) ∧
  ∃ d, details_of (sample_observation (sample_details 3 1 2 0 0 CleanupUndeclaredResidue)) d
    ∧ accepted (sample_observation (sample_details 3 1 2 0 0 CleanupUndeclaredResidue)) d CleanupUndeclaredResidue.
Proof. apply cleanup_observation_sound. vm_compute. reflexivity. Defined.

(** The cleanup verdict of a result is the worst of its repeats: there is exactly
    one accepted observation per completed repeat, no accepted verdict ranks
    above the combined one (undeclared > not tested > allowed > clean), and the
    combined one is clean or one of them. *)
Theorem cleanup_verdict_worst observations completed verdict :
  cleanupVerdictFromObservations observations completed = Ok verdict →
  0 <= completed ∧ completed = Z.of_nat (length (cleanup_events observations))
  ∧ ∃ vs, Forall2 (λ o v, cleanupVerdictFromObservation o = Ok v) (cleanup_events observations) vs
      ∧ (if completed =? 0 then verdict = CleanupNotTested
         else (verdict = CleanupClean ∨ verdict ∈ vs) ∧ ∀ v, v ∈ vs → cleanup_rank v <= cleanup_rank verdict).
Proof.
  unfold cleanupVerdictFromObservations. intros H. step_fail H. apply Z.ltb_ge in Heqb.
  apply bind_Ok in H as ([declared found] & Hl & H). step_fail H. to_prop. subst found.
  apply cleanup_loop_spec in Hl as (vs & Hvs & -> & Hn). rewrite Z.add_0_l in Hn. split_and!; [done|done|].
  exists vs. split; [done|]. destruct (completed =? 0); injection H as <-; [done|]. split.
  - destruct (foldl_source vs CleanupClean) as [->|]; auto.
  - intros v Hv. rewrite foldl_rank. by apply foldr_rank_le.
Qed.

Lemma cleanup_verdict_worst_witness :
  ∃ vs, Forall2 (λ o v, cleanupVerdictFromObservation o = Ok v)
    (cleanup_events [sample_observation (sample_details 0 0 0 0 0 CleanupClean);
                     sample_observation (sample_details 3 1 2 0 0 CleanupUndeclaredResidue)]) vs
    ∧ ((CleanupUndeclaredResidue = CleanupClean ∨ CleanupUndeclaredResidue ∈ vs)
       ∧ ∀ v, v ∈ vs → cleanup_rank v <= cleanup_rank CleanupUndeclaredResidue).
Proof.
  apply (cleanup_verdict_worst [sample_observation (sample_details 0 0 0 0 0 CleanupClean);
                     sample_observation (sample_details 3 1 2 0 0 CleanupUndeclaredResidue)] 2 CleanupUndeclaredResidue).
  vm_compute. reflexivity.
Defined.

(** The consistency test of the counts is made in wrapping [int] arithmetic and
    the four counts have no upper bound: a clean observation with no entries is
    accepted although each of its four kinds counts 2^62. *)
Theorem cleanup_count_overflow :
  cleanupVerdictFromObservation
    (sample_observation (sample_details 0 (2 ^ 62) (2 ^ 62) (2 ^ 62) (2 ^ 62) CleanupClean)) = Ok CleanupClean.
Proof. vm_compute. reflexivity. Qed.

(** The details are matched case-insensitively: a member that differs from a field
    only in case passes the unknown-field check and, coming later in byte order,
    overrides the field, so details that state five entries are accepted as clean. *)
Theorem cleanup_details_case_override :
  cleanupVerdictFromObservation
    (sample_observation (("entrycount", VInt 0) :: ("unmatchedcount", VInt 0)
       :: sample_details 5 0 0 0 0 CleanupClean)) = Ok CleanupClean.
Proof. vm_compute. reflexivity. Qed.
