(* ===== verification/GoPath.v ===== *)
(** * Slash-separated paths (the standard library's [path] package)

    [strings.Split] on a byte, its inverse [strings.Join], and [path.Clean], with
    the fact the path validators of this repository rest on: a relative path
    that is clean and does not start with [..] is a list of plain names. *)

From S2P Require Import Prelude.

(** [strings.Split(s, sep)] for a one-byte separator. *)
Fixpoint split_on (sep : ascii) (s : string) : list string :=
  match s with
  | EmptyString => [""]
  | String c s' =>
      if Ascii.eqb c sep then "" :: split_on sep s'
      else
        match split_on sep s' with
        | part :: parts => String c part :: parts
        | [] => [String c ""]
        end
  end.

(** [strings.Join(parts, sep)]. *)
Fixpoint join_with (sep : ascii) (parts : list string) : string :=
  match parts with
  | [] => ""
  | [part] => part
  | part :: parts' => part +:+ String sep (join_with sep parts')
  end.

Definition is_rooted (s : string) : bool := has_prefix "/" s.

(** One element of a path; the output is kept in reverse. *)
Definition clean_step (rooted : bool) (out : list string) (elem : string) : list string :=
  if (elem =s "") || (elem =s ".") then out
  else if elem =s ".." then
    match out with
    | last :: out' => if last =s ".." then ".." :: out else out'
    | [] => if rooted then [] else [".."]
    end
  else elem :: out.

Definition clean_elements (s : string) : list string :=
  rev (foldl (clean_step (is_rooted s)) [] (split_on "/" s)).

(** [path.Clean]. *)
Definition Clean (s : string) : string :=
  if s =s "" then "."
  else
    match clean_elements s with
    | [] => if is_rooted s then "/" else "."
    | out => (if is_rooted s then "/" else "") +:+ join_with "/" out
    end.

Example clean_1 : List.map Clean [""; "a/b"; "a//b/"; "./a/../b"; "../../a"; "/../a"; "a/.."; "/"]
  = ["."; "a/b"; "a/b"; "b"; "../../a"; "/a"; "."; "/"].
Proof. reflexivity. Qed.

(** ** Splitting and joining *)

Lemma split_on_cons sep s : ∃ part parts, split_on sep s = part :: parts.
Proof.
  induction s as [|c s (part & parts & IH)]; simpl; [by eexists _, _|].
  destruct (Ascii.eqb c sep); [by eexists _, _|]. rewrite IH. by eexists _, _.
Qed.

Definition no_sep (sep : ascii) (part : string) : bool := string_forallb (λ c, negb (Ascii.eqb c sep)) part.

Lemma split_on_no_sep sep s : Forall (λ part, no_sep sep part = true) (split_on sep s).
Proof.
  unfold no_sep. induction s as [|c s IH]; [by repeat constructor|]. cbn [split_on].
  destruct (Ascii.eqb c sep) eqn:E; [by constructor|].
  destruct (split_on_cons sep s) as (part & parts & Hs). rewrite Hs in *.
  inversion IH; subst. constructor; [|done]. cbn [string_forallb]. by rewrite E.
Qed.

Lemma join_split sep s : join_with sep (split_on sep s) = s.
Proof.
  induction s as [|c s IH]; [done|]. cbn [split_on].
  destruct (split_on_cons sep s) as (part & parts & Hs). destruct (Ascii.eqb_spec c sep) as [->|].
  - rewrite Hs in *. cbn [join_with]. by rewrite app_string_nil_l, <- IH.
  - rewrite Hs in *. rewrite <- IH. by destruct parts.
Qed.

Lemma split_part sep part rest :
  no_sep sep part = true → split_on sep (part +:+ String sep rest) = part :: split_on sep rest.
Proof.
  unfold no_sep. induction part as [|c part IH]; [intros _; by rewrite app_string_nil_l; simpl; rewrite Ascii.eqb_refl|].
  cbn [string_forallb]. intros [E%negb_true_iff H]%andb_prop. rewrite app_string_cons. cbn [split_on]. by rewrite E, IH.
Qed.

Lemma split_no_sep sep part : no_sep sep part = true → split_on sep part = [part].
Proof.
  unfold no_sep. induction part as [|c part IH]; [done|]. cbn [string_forallb].
  intros [E%negb_true_iff H]%andb_prop. cbn [split_on]. by rewrite E, IH.
Qed.

Lemma split_join sep parts :
  parts ≠ [] → Forall (λ part, no_sep sep part = true) parts → split_on sep (join_with sep parts) = parts.
Proof.
  intros Hne Hall. induction Hall as [|part parts Hp Hall IH]; [done|].
  destruct parts as [|q parts]; [by apply split_no_sep|].
  change (join_with sep (part :: q :: parts)) with (part +:+ String sep (join_with sep (q :: parts))).
  by rewrite split_part, IH.
Qed.

(** ** Clean paths *)

(** A name of a directory entry. *)
Definition plain_name (part : string) : Prop := part ≠ "" ∧ part ≠ "." ∧ part ≠ "..".

Lemma plain_clean_step rooted out part : plain_name part → clean_step rooted out part = part :: out.
Proof.
  intros (H1 & H2 & H3). unfold clean_step.
  by rewrite (proj2 (String.eqb_neq _ _) H1), (proj2 (String.eqb_neq _ _) H2), (proj2 (String.eqb_neq _ _) H3).
Qed.

Lemma plain_clean rooted parts out :
  Forall plain_name parts → foldl (clean_step rooted) out parts = rev parts ++ out.
Proof.
  intros Hall. revert out. induction Hall as [|part parts Hp _ IH]; intros out; [done|].
  cbn [foldl]. rewrite plain_clean_step, IH by done. simpl. by rewrite <- app_assoc.
Qed.

(** Reversed output of a relative path: plain names above a run of [..]. *)
Inductive climbs : list string → Prop :=
  | climbs_dots n : climbs (replicate n "..")
  | climbs_name part out : plain_name part → climbs out → climbs (part :: out).

Lemma climbs_step out elem : climbs out → climbs (clean_step false out elem).
Proof.
  intros H. unfold clean_step. destruct (String.eqb_spec elem "") as [|H1]; [done|].
  destruct (String.eqb_spec elem ".") as [|H2]; [done|]. cbn [orb].
  destruct (String.eqb_spec elem "..") as [->|H3]; [|by apply climbs_name].
  inversion H as [n E|part out' Hp Ho E]; subst.
  - destruct n as [|n]; [apply (climbs_dots 1)|]. apply (climbs_dots (S (S n))).
  - by rewrite (proj2 (String.eqb_neq _ _) (proj2 (proj2 Hp))).
Qed.

Lemma clean_climbs parts out : climbs out → climbs (foldl (clean_step false) out parts).
Proof. revert out. induction parts as [|part parts IH]; intros out H; [done|]. by apply IH, climbs_step. Qed.

Lemma climbs_rev out : climbs out → ∃ n names, rev out = replicate n ".." ++ names ∧ Forall plain_name names.
Proof.
  induction 1 as [n|part out Hp _ (n & names & IH & Hn)].
  - exists n, []. rewrite app_nil_r. split; [|constructor]. induction n as [|n IH]; [done|].
    simpl. rewrite IH. by rewrite <- replicate_cons_app.
  - exists n, (names ++ [part]). simpl. rewrite IH, app_assoc. split; [done|].
    apply Forall_app_2; [done|by constructor].
Qed.

Lemma clean_step_kept rooted out elem :
  Forall (λ part, no_sep "/" part = true ∧ part ≠ "") out → no_sep "/" elem = true →
  Forall (λ part, no_sep "/" part = true ∧ part ≠ "") (clean_step rooted out elem).
Proof.
  intros H He. unfold clean_step. destruct (String.eqb_spec elem "") as [|H1]; [done|].
  destruct (String.eqb_spec elem "."); [done|]. cbn [orb].
  destruct (String.eqb_spec elem "..") as [->|]; [|by constructor].
  destruct out as [|last out]; [by destruct rooted; repeat constructor|].
  destruct (last =s ".."); [by constructor|by inversion H].
Qed.

Lemma clean_elements_kept s : Forall (λ part, no_sep "/" part = true ∧ part ≠ "") (clean_elements s).
Proof.
  unfold clean_elements. apply Forall_rev. pose proof (split_on_no_sep "/" s) as Hall.
  assert (∀ out, Forall (λ part, no_sep "/" part = true ∧ part ≠ "") out →
    Forall (λ part, no_sep "/" part = true ∧ part ≠ "") (foldl (clean_step (is_rooted s)) out (split_on "/" s))) as H.
  { induction Hall as [|part parts Hp _ IH]; intros out Ho; [done|]. by apply IH, clean_step_kept. }
  by apply H.
Qed.

(** A clean relative path: its elements are its parts. *)
Lemma clean_split s : is_rooted s = false → Clean s = s → s ≠ "." → split_on "/" s = clean_elements s.
Proof.
  unfold Clean. intros Hr Hc Hd. destruct (String.eqb_spec s ""); [congruence|]. rewrite Hr in Hc.
  pose proof (clean_elements_kept s) as Hk. destruct (clean_elements s) as [|part out] eqn:E; [congruence|].
  rewrite app_string_nil_l in Hc. rewrite <- Hc at 1. apply split_join; [done|].
  eapply Forall_impl; [exact Hk|]. by intros x [? _].
Qed.

(** A clean relative path that is not [.], [..] or below [..] is made of plain names. *)
Lemma clean_plain s :
  is_rooted s = false → Clean s = s → s ≠ "." → s ≠ ".." → has_prefix "../" s = false →
  Forall plain_name (split_on "/" s).
Proof.
  intros Hr Hc Hd Hdd Hp. rewrite (clean_split s) by done.
  unfold clean_elements. rewrite Hr.
  destruct (climbs_rev _ (clean_climbs (split_on "/" s) [] (climbs_dots 0))) as (n & names & E & Hn).
  rewrite E. destruct n as [|n]; [done|]. exfalso.
  assert (split_on "/" s = ".." :: replicate n ".." ++ names) as Hs.
  { rewrite (clean_split s) by done. unfold clean_elements. by rewrite Hr, E. }
  pose proof (join_split "/" s) as Hj. rewrite Hs in Hj.
  destruct (replicate n ".." ++ names) as [|q parts]; [by cbn in Hj|].
  change (join_with "/" (".." :: q :: parts)) with ("../" +:+ join_with "/" (q :: parts)) in Hj.
  by rewrite <- Hj, has_prefix_self in Hp.
Qed.

(** And the other way: plain names joined are clean. *)
Lemma plain_join_clean parts :
  parts ≠ [] → Forall plain_name parts → Forall (λ part, no_sep "/" part = true) parts →
  is_rooted (join_with "/" parts) = false ∧ Clean (join_with "/" parts) = join_with "/" parts
  ∧ join_with "/" parts ≠ "." ∧ join_with "/" parts ≠ ".." ∧ has_prefix "../" (join_with "/" parts) = false.
Proof.
  intros Hne Hp Hs. pose proof (split_join "/" parts Hne Hs) as Hsplit.
  assert (Hin : ∀ s part rest, split_on "/" s = part :: rest → s = join_with "/" parts → plain_name part).
  { intros s part rest E ->. rewrite Hsplit in E. subst. by inversion Hp. }
  assert (is_rooted (join_with "/" parts) = false) as Hr.
  { destruct (is_rooted _) eqn:E; [|done]. apply has_prefix_app in E as [r Hr].
    by destruct (Hin ("/" +:+ r) "" (split_on "/" r)) as [? _]. }
  split_and!; [done| | | |].
  - unfold Clean, clean_elements. rewrite Hr, Hsplit, plain_clean, app_nil_r, rev_involutive by done.
    destruct (String.eqb_spec (join_with "/" parts) "") as [E|].
    { by destruct (Hin "" "" []) as [? _]. }
    destruct parts; [done|]. by rewrite app_string_nil_l.
  - intros E. destruct (Hin "." "." []) as (_ & ? & _); done.
  - intros E. destruct (Hin ".." ".." []) as (_ & _ & ?); done.
  - destruct (has_prefix "../" _) eqn:E; [|done]. apply has_prefix_app in E as [r E].
    destruct (Hin ("../" +:+ r) ".." (split_on "/" r)) as (_ & _ & ?); done.
Qed.

(** A clean rooted path is the root or plain names below it. *)
Lemma clean_step_rooted out elem :
  Forall plain_name out → Forall plain_name (clean_step true out elem).
Proof.
  intros H. unfold clean_step. destruct (String.eqb_spec elem "") as [|H1]; [done|].
  destruct (String.eqb_spec elem ".") as [|H2]; [done|]. cbn [orb].
  destruct (String.eqb_spec elem "..") as [->|H3]; [|by constructor].
  destruct H as [|last out Hl Ho]; [constructor|].
  by rewrite (proj2 (String.eqb_neq _ _) (proj2 (proj2 Hl))).
Qed.

Lemma clean_rooted_names s : is_rooted s = true → Forall plain_name (clean_elements s).
Proof.
  intros Hr. unfold clean_elements. rewrite Hr. apply Forall_rev.
  assert (∀ parts out, Forall plain_name out → Forall plain_name (foldl (clean_step true) out parts)) as H.
  { induction parts as [|part parts IH]; intros out Ho; [done|]. by apply IH, clean_step_rooted. }
  apply H. constructor.
Qed.

Lemma clean_rooted s :
  is_rooted s = true → Clean s = s →
  s = "/" ∨ ∃ names, names ≠ [] ∧ s = "/" +:+ join_with "/" names ∧ Forall plain_name names
    ∧ Forall (λ part, no_sep "/" part = true) names.
Proof.
  intros Hr Hc. pose proof (clean_rooted_names s Hr) as Hn. pose proof (clean_elements_kept s) as Hk.
  unfold Clean in Hc. destruct (String.eqb_spec s ""); [by subst|]. rewrite Hr in Hc.
  destruct (clean_elements s) as [|name names] eqn:E; [by left|]. right. exists (name :: names).
  split_and!; [done|by symmetry|done|]. eapply Forall_impl; [exact Hk|]. by intros x [? _].
Qed.

(** A clean path that is a directory of the root or below it. *)
Lemma clean_below root value :
  no_sep "/" root = true → is_rooted value = true → Clean value = value →
  value = String "/" root ∨ has_prefix (String "/" (root +:+ "/")) value = true →
  ∃ names, value = "/" +:+ join_with "/" (root :: names) ∧ Forall plain_name names ∧ Forall (λ part, no_sep "/" part = true) names.
Proof.
  intros Hsep Hr Hc Hroot.
  assert (∃ rest, split_on "/" value = "" :: root :: rest) as [rest Erest].
  { destruct Hroot as [->|[r ->]%has_prefix_app].
    - exists []. change (String "/" root) with ("" +:+ String "/" root). rewrite split_part by done. by rewrite split_no_sep.
    - exists (split_on "/" r). rewrite app_string_cons, app_string_assoc.
      change (String "/" (root +:+ "/" +:+ r)) with ("" +:+ String "/" (root +:+ String "/" r)). by rewrite !split_part. }
  destruct (clean_rooted value Hr Hc) as [->|(names & Hne & Hv & Hp & Hs)].
  - cbn in Erest. injection Erest as <- <-. exists []. split_and!; [done|constructor|constructor].
  - assert (split_on "/" value = "" :: names) as Hsplit.
    { rewrite Hv. change ("/" +:+ join_with "/" names) with ("" +:+ String "/" (join_with "/" names)).
      rewrite split_part by done. by rewrite split_join. }
    rewrite Hsplit in Erest. injection Erest as ->. exists rest. inversion Hp; inversion Hs; subst. done.
Qed.
