(* ===== verification/GoStrings.v ===== *)
(** * Operations of the [strings] package

    Case mapping on ASCII, prefixes and suffixes, cutting at a byte, blank
    strings.  Where a function of [strings] is not limited to ASCII, the comment
    says why the callers of this repository see no difference. *)

From S2P Require Import Prelude Json.

(** ** Bytes *)

Definition upper_byte (c : ascii) : ascii := if in_range 97 122 c then byte_of (byte_val c - 32) else c.
Definition lower_byte (c : ascii) : ascii := if in_range 65 90 c then byte_of (byte_val c + 32) else c.
Fixpoint string_map (f : ascii → ascii) (s : string) : string :=
  match s with EmptyString => "" | String c s' => String (f c) (string_map f s') end.

(** [strings.ToLower] of an ASCII string.  Only U+0130 and U+212A lower to an
    ASCII letter (i and k). *)
Definition to_lower (s : string) : string := string_map lower_byte s.

Fixpoint last_byte (s : string) : option ascii :=
  match s with EmptyString => None | String c "" => Some c | String _ s' => last_byte s' end.
Definition head_byte (s : string) : option ascii := match s with String c _ => Some c | EmptyString => None end.
Definition byte_is (P : ascii → bool) (o : option ascii) : bool := match o with Some c => P c | None => false end.

Definition has_suffix (suffix value : string) : bool :=
  (slen suffix <=? slen value)%nat && (drop_string (slen value - slen suffix) value =s suffix).

(** [strings.TrimSuffix]. *)
Definition trim_suffix (suffix value : string) : string :=
  if has_suffix suffix value then String.substring 0 (slen value - slen suffix) value else value.

(** [strings.Contains]. *)
Fixpoint contains (s sub : string) : bool :=
  has_prefix sub s || match s with EmptyString => false | String _ s' => contains s' sub end.

(** [strings.Cut] at a byte: the text before its first occurrence and after it. *)
Fixpoint cut (c : ascii) (s : string) : option (string * string) :=
  match s with
  | EmptyString => None
  | String d s' => if Ascii.eqb d c then Some ("", s') else let? (a, b) := cut c s' in Some (String d a, b)
  end.
(** The same at the last occurrence. *)
Fixpoint cut_last (c : ascii) (s : string) : option (string * string) :=
  match s with
  | EmptyString => None
  | String d s' =>
      match cut_last c s' with
      | Some (a, b) => Some (String d a, b)
      | None => if Ascii.eqb d c then Some ("", s') else None
      end
  end.

(** [strings.SplitN(name, ".", 2)[0]]. *)
Fixpoint before_dot (s : string) : string :=
  match s with
  | EmptyString => ""
  | String c s' => if Ascii.eqb c "." then "" else String c (before_dot s')
  end.

(** ** Runes *)

(** [unicode.IsSpace] of a rune, by its UTF-8 bytes. *)
Definition unicode_space (r : option string) : bool :=
  match r with
  | Some (String c EmptyString) => in_range 9 13 c || Ascii.eqb c " "%char
  | Some b =>
      existsb (λ code, b =s utf8_encode code)
        ([133; 160; 5760; 8232; 8233; 8239; 8287; 12288] ++ List.map (λ k, (8192 + N.of_nat k)%N) (seq 0 11))%N
  | None => false
  end.
(** [strings.TrimSpace(s) != ""] *)
Definition not_blank (s : string) : bool := existsb (λ r, negb (unicode_space r)) (runes s).

(** [strings.TrimSpace]: the white space runes are texts of their own, so they are
    dropped from either end as prefixes and suffixes. *)
Definition space_texts : list string :=
  List.map (λ k, String (byte_of (N.of_nat k)) "") [9; 10; 11; 12; 13; 32]%nat
  ++ List.map utf8_encode ([133; 160; 5760; 8232; 8233; 8239; 8287; 12288] ++ List.map (λ k, (8192 + N.of_nat k)%N) (seq 0 11))%N.
Fixpoint trim_while (fuel : nat) (cut : string → option string) (s : string) : string :=
  match fuel with
  | O => s
  | S fuel => match cut s with Some s' => trim_while fuel cut s' | None => s end
  end.
Definition cut_space (starts : string → string → bool) (drop : string → string → string) (s : string) : option string :=
  match List.filter (λ space, starts space s) space_texts with space :: _ => Some (drop space s) | [] => None end.
Definition trim_space (s : string) : string :=
  let s := trim_while (slen s) (cut_space has_prefix trim_prefix) s in
  trim_while (slen s) (cut_space has_suffix trim_suffix) s.

Example trim_space_1 :
  List.map trim_space [" a b "; "  "; "x"; utf8_encode 8195 +:+ "node" +:+ utf8_encode 160 +:+ " "] = ["a b"; ""; "x"; "node"].
Proof. reflexivity. Qed.

(** [unicode.IsControl]: U+0000 to U+001F and U+007F to U+009F. *)
Definition unicode_control (r : option string) : bool :=
  match r with
  | Some (String c "") => (byte_val c <? 32)%N || (byte_val c =? 127)%N
  | Some (String a (String b "")) => (byte_val a =? 194)%N && in_range 128 159 b
  | _ => false
  end.

(** ** Lemmas *)

Lemma cut_spec c s :
  match cut c s with
  | Some (a, b) => s = a +:+ String c b ∧ string_contains_byte c a = false
  | None => string_contains_byte c s = false
  end.
Proof.
  induction s as [|d s IH]; [done|]. cbn [cut]. destruct (Ascii.eqb_spec d c) as [->|Hne].
  - split; [by rewrite app_string_nil_l|done].
  - destruct (cut c s) as [[a b]|]; cbn [mbind option_bind].
    + destruct IH as [-> IH]. rewrite app_string_cons. split; [done|]. cbn [string_contains_byte].
      by rewrite (proj2 (Ascii.eqb_neq _ _) Hne), IH.
    + cbn [string_contains_byte]. by rewrite (proj2 (Ascii.eqb_neq _ _) Hne), IH.
Qed.

Lemma cut_app c a b : string_contains_byte c a = false → cut c (a +:+ String c b) = Some (a, b).
Proof.
  induction a as [|d a IH]; [intros _; rewrite app_string_nil_l; cbn [cut]; by rewrite Ascii.eqb_refl|].
  cbn [string_contains_byte]. intros [E H]%orb_false_elim. rewrite app_string_cons. cbn [cut]. by rewrite E, IH.
Qed.

Lemma cut_none c s : string_contains_byte c s = false → cut c s = None.
Proof.
  intros H. pose proof (cut_spec c s) as Hs. destruct (cut c s) as [[a b]|]; [|done]. destruct Hs as [-> Hs].
  exfalso. clear Hs. induction a as [|d a IH]; [simpl in H; by rewrite Ascii.eqb_refl in H|].
  rewrite app_string_cons in H. cbn [string_contains_byte] in H. apply orb_false_elim in H as [_ H]. by apply IH.
Qed.

Lemma contains_byte_app c a b : string_contains_byte c (a +:+ b) = string_contains_byte c a || string_contains_byte c b.
Proof. induction a as [|d a IH]; [done|]. rewrite app_string_cons. cbn [string_contains_byte]. by rewrite IH, orb_assoc. Qed.

Lemma contains_byte_forallb c s : string_contains_byte c s = negb (string_forallb (λ d, negb (Ascii.eqb d c)) s).
Proof.
  induction s as [|d s IH]; [done|]. cbn [string_contains_byte string_forallb]. rewrite IH.
  by destruct (Ascii.eqb d c), (string_forallb _ s).
Qed.

Lemma cut_last_none c s : string_contains_byte c s = false → cut_last c s = None.
Proof.
  induction s as [|d s IH]; [done|]. cbn [string_contains_byte cut_last]. intros [E H]%orb_false_elim. by rewrite IH, E.
Qed.

Lemma cut_last_app c a b : string_contains_byte c b = false → cut_last c (a +:+ String c b) = Some (a, b).
Proof.
  intros Hb. induction a as [|d a IH].
  - rewrite app_string_nil_l. cbn [cut_last]. by rewrite cut_last_none, Ascii.eqb_refl.
  - rewrite app_string_cons. cbn [cut_last]. by rewrite IH.
Qed.

Lemma cut_last_spec c s a b : cut_last c s = Some (a, b) → s = a +:+ String c b ∧ string_contains_byte c b = false.
Proof.
  revert a b. induction s as [|d s IH]; intros a b; [done|]. cbn [cut_last].
  destruct (cut_last c s) as [[a' b']|] eqn:E.
  - intros [= <- <-]. destruct (IH a' b' eq_refl) as [-> H]. by rewrite app_string_cons.
  - destruct (Ascii.eqb_spec d c) as [->|]; [|done]. intros [= <- <-]. rewrite app_string_nil_l. split; [done|].
    clear IH. induction s as [|e s IH]; [done|]. cbn [cut_last] in E. destruct (cut_last c s) as [[]|]; [done|].
    cbn [string_contains_byte]. destruct (Ascii.eqb e c); [done|]. by apply IH.
Qed.
