(* ===== verification/CleanupInventory.v ===== *)
(** * Cleanup inventory (internal/execution/cleanup_inventory.go)

    The producer side of the cleanup evidence: the control document the
    inventory helper writes is decoded ([decodeCleanupInventory]), classified
    against the plan's allowed residue ([classifyCleanupInventory]) and turned
    into the observation that [CleanupEvidence] later checks.  The last section
    is the runner's cleanup stage ([runner.go]), which decides in which order
    that happens and whether outputs are exported.

    The container engine is an argument: for each command, its exit code, its
    error and what it wrote.  The helper scripts are not Go and not modelled. *)

From S2P Require Import Prelude Sha256 Json StructuredJson JsonUnmarshal GoValue Domain CanonicalJson GoPath CleanupEvidence.

Local Open Scope Z_scope.

Definition cleanupClassifierVersion := "0.1.0".
Definition cleanupInventoryMaxEntries : Z := 2048.
Definition cleanupInventoryMaxPathBytes : Z := 1024.
Definition cleanupInventoryMaxDepth : Z := 64.
Definition cleanupInventoryControlBytes : Z := 512 * 2 ^ 10.
Definition cleanupInventoryStderrBytes : Z := 4096.
Definition cleanupInventoryTokenKeyBytes : nat := 32.
Definition cleanupInventoryBoundary :=
  "post-quiescence-post-final-observers-post-disposable-pre-repair-pre-export-pre-destroy".
Definition containerOutputs := "/outputs".
Definition coverageEnforcementOnly := "enforcement-only".
Definition coverageUnavailable := "unavailable".

Record cleanupInventoryEntry := { en_Path : string; en_Type : string; en_Mode : Z }.

Record cleanupInventoryIdentity := {
  id_Device : string; id_Inode : string; id_Mode : Z; id_CtimeNS : string; id_MtimeNS : string
}.
#[export] Instance cleanupInventoryIdentity_eq_dec : EqDecision cleanupInventoryIdentity.
Proof. solve_decision. Defined.

(** [cleanupInventory]: its [Entries]. *)
Definition cleanupInventory := list cleanupInventoryEntry.

Record cleanupResidueSummary := {
  sm_Verdict : string; sm_EntryCount : Z; sm_RegularFileCount : Z; sm_DirectoryCount : Z; sm_SymlinkCount : Z;
  sm_SpecialCount : Z; sm_UnmatchedCount : Z; sm_OpaqueToken : string; sm_Failure : string;
  sm_QuiescenceConfirmed : bool; sm_DisposableCleanupVerified : bool; sm_IdentityVerified : bool;
  sm_InventoryComplete : bool; sm_AllowedProfile : string; sm_AllowedPatternCount : Z
}.

(** ** Decoding the control document

    Every failure is a [cleanupInventoryFailure]; the error of a result is its
    class. *)

Definition cleanupInventoryFailureClass (failure : string) : string :=
  if failure !=s "" then failure else "inventory-unavailable".

(** The decoder's [map[string]any]: [nil] is JSON's [null]. *)
Definition exactCleanupKeys (value : list (string * json)) (expected : list string) : bool :=
  (length value =? length expected)%nat
  && forallb (λ key, match assoc key value with None | Some JNull => false | Some _ => true end) expected.

Definition cleanupJSONInteger (value : json) : option Z :=
  match value with JNum lexeme => parse_int 32 lexeme | _ => None end.

Definition decimalCleanupIdentity (value : string) : bool :=
  negb ((value =s "") || (32 <? zlen value)
        || ((value !=s "0") && match value with String c _ => Ascii.eqb c "0" | EmptyString => false end))
  && string_forallb is_digit value.

Definition valid_mode (mode : Z) : bool := (0 <=? mode) && (mode <=? 4095).

Definition cleanupInventoryIdentityValue (value : json) : option cleanupInventoryIdentity :=
  let? object := as_object value in
  if negb (exactCleanupKeys object ["ctimeNs"; "device"; "inode"; "mode"; "mtimeNs"]) then None
  else
    let? device := as_string (field object "device") in
    let? inode := as_string (field object "inode") in
    let? ctimeNS := as_string (field object "ctimeNs") in
    let? mtimeNS := as_string (field object "mtimeNs") in
    let? mode := cleanupJSONInteger (field object "mode") in
    if decimalCleanupIdentity device && decimalCleanupIdentity inode && decimalCleanupIdentity ctimeNS
       && decimalCleanupIdentity mtimeNS && valid_mode mode
    then Some {| id_Device := device; id_Inode := inode; id_Mode := mode; id_CtimeNS := ctimeNS; id_MtimeNS := mtimeNS |}
    else None.

(** [strings.Contains(value, "//")]. *)
Fixpoint double_slash (value : string) : bool :=
  match value with
  | String a rest => has_prefix "//" value || double_slash rest
  | EmptyString => false
  end.

Definition slash_count (value : string) : Z := Z.of_nat (length (split_on "/" value)) - 1.

Definition printable (character : ascii) : bool :=
  negb ((byte_val character <? 32)%N || (byte_val character =? 127)%N).

(** The loop over the runes only tests ASCII characters, each of them one byte. *)
Definition validCleanupInventoryPath (value : string) : bool :=
  negb ((value =s "") || negb (utf8_valid value) || (cleanupInventoryMaxPathBytes <? zlen value)
        || is_rooted value || (Clean value !=s value) || (value =s ".") || (value =s "..")
        || has_prefix "../" value || double_slash value)
  && string_forallb printable value
  && (1 + slash_count value <=? cleanupInventoryMaxDepth).

Definition inventory_types : list string :=
  ["file"; "directory"; "symlink"; "fifo"; "socket"; "char-device"; "block-device"; "unknown"].
Definition validCleanupInventoryType (value : string) : bool := existsb (String.eqb value) inventory_types.

Definition disposable_path (entryPath : string) : bool :=
  (entryPath =s ".home") || (entryPath =s ".tmp") || has_prefix ".home/" entryPath || has_prefix ".tmp/" entryPath.

(** One element of [entries], after [previous]. *)
Definition decode_entry (previous : string) (rawEntry : json) : result string cleanupInventoryEntry :=
  match as_object rawEntry with
  | None => Err "invalid-control"
  | Some object =>
      fail_if (negb (exactCleanupKeys object ["mode"; "path"; "type"])) with "invalid-control" ;;
      match as_string (field object "path"), as_string (field object "type"), cleanupJSONInteger (field object "mode") with
      | Some entryPath, Some entryType, Some mode =>
          fail_if (negb (validCleanupInventoryPath entryPath) || negb (validCleanupInventoryType entryType)
                   || negb (valid_mode mode)) with "invalid-entry" ;;
          fail_if ((previous !=s "") && negb (key_lt previous entryPath)) with "unsorted-or-duplicate" ;;
          fail_if (disposable_path entryPath) with "disposable-removal-failed" ;;
          Ok {| en_Path := entryPath; en_Type := entryType; en_Mode := mode |}
      | _, _, _ => Err "invalid-entry"
      end
  end.

Fixpoint decode_entries (previous : string) (rawEntries : list json) : result string cleanupInventory :=
  match rawEntries with
  | [] => Ok []
  | rawEntry :: rest =>
      let! entry := decode_entry previous rawEntry in
      let! entries := decode_entries (en_Path entry) rest in
      Ok (entry :: entries)
  end.

Definition inventory_limits : DecodeLimits :=
  {| MaxBytes := cleanupInventoryControlBytes; MaxDepth := 8; MaxNodes := cleanupInventoryMaxEntries * 5 + 32 |}.

Definition root_keys : list string :=
  ["count"; "disposableAbsent"; "entries"; "ok"; "rootAfter"; "rootBefore"; "schemaVersion"; "scope"].

(** The checks on the members of the root object: [count] and [entries]. *)
Definition root_values (root : list (string * json)) : option (Z * list json) :=
  let? schemaVersion := as_string (field root "schemaVersion") in
  let? scope := as_string (field root "scope") in
  let? okValue := as_bool (field root "ok") in
  let? disposableAbsent := as_bool (field root "disposableAbsent") in
  let? count := cleanupJSONInteger (field root "count") in
  let? before := cleanupInventoryIdentityValue (field root "rootBefore") in
  let? after := cleanupInventoryIdentityValue (field root "rootAfter") in
  let? rawEntries := as_array (field root "entries") in
  if (schemaVersion =s "1") && (scope =s containerOutputs) && okValue && disposableAbsent && (0 <=? count)
     && bool_decide (before = after)
  then Some (count, rawEntries) else None.

Definition decodeCleanupInventory (raw : string) : result string cleanupInventory :=
  match Decode raw inventory_limits with
  | Some (Ok (JObj root)) =>
      fail_if (negb (exactCleanupKeys root root_keys)) with "invalid-control" ;;
      match root_values root with
      | None => Err "invalid-control"
      | Some (count, rawEntries) =>
          fail_if (negb (count =? Z.of_nat (length rawEntries))) with "count-mismatch" ;;
          fail_if (cleanupInventoryMaxEntries <? count) with "entry-limit" ;;
          decode_entries "" rawEntries
      end
  | _ => Err "invalid-control"
  end.

(** ** Classification *)

Definition outputs_profile (allowedResidue : list string) : bool :=
  match allowedResidue with [pattern] => pattern =s containerOutputs +:+ "/**" | _ => false end.

Definition newCleanupResidueSummary (allowedResidue : list string) : cleanupResidueSummary :=
  {| sm_Verdict := CleanupNotTested; sm_EntryCount := 0; sm_RegularFileCount := 0; sm_DirectoryCount := 0;
     sm_SymlinkCount := 0; sm_SpecialCount := 0; sm_UnmatchedCount := 0; sm_OpaqueToken := ""; sm_Failure := "";
     sm_QuiescenceConfirmed := false; sm_DisposableCleanupVerified := false; sm_IdentityVerified := false;
     sm_InventoryComplete := false;
     sm_AllowedProfile := if outputs_profile allowedResidue then "outputs-descendants" else "none";
     sm_AllowedPatternCount := Z.of_nat (length allowedResidue) |}.

(** Assignments to a summary's fields. *)
Definition with_verdict (verdict failure token : string) (s : cleanupResidueSummary) : cleanupResidueSummary :=
  {| sm_Verdict := verdict; sm_EntryCount := sm_EntryCount s; sm_RegularFileCount := sm_RegularFileCount s;
     sm_DirectoryCount := sm_DirectoryCount s; sm_SymlinkCount := sm_SymlinkCount s;
     sm_SpecialCount := sm_SpecialCount s; sm_UnmatchedCount := sm_UnmatchedCount s; sm_OpaqueToken := token;
     sm_Failure := failure; sm_QuiescenceConfirmed := sm_QuiescenceConfirmed s;
     sm_DisposableCleanupVerified := sm_DisposableCleanupVerified s; sm_IdentityVerified := sm_IdentityVerified s;
     sm_InventoryComplete := sm_InventoryComplete s; sm_AllowedProfile := sm_AllowedProfile s;
     sm_AllowedPatternCount := sm_AllowedPatternCount s |}.
Definition with_flags (quiescence disposable identity : bool) (s : cleanupResidueSummary) : cleanupResidueSummary :=
  {| sm_Verdict := sm_Verdict s; sm_EntryCount := sm_EntryCount s; sm_RegularFileCount := sm_RegularFileCount s;
     sm_DirectoryCount := sm_DirectoryCount s; sm_SymlinkCount := sm_SymlinkCount s;
     sm_SpecialCount := sm_SpecialCount s; sm_UnmatchedCount := sm_UnmatchedCount s;
     sm_OpaqueToken := sm_OpaqueToken s; sm_Failure := sm_Failure s; sm_QuiescenceConfirmed := quiescence;
     sm_DisposableCleanupVerified := disposable; sm_IdentityVerified := identity;
     sm_InventoryComplete := sm_InventoryComplete s; sm_AllowedProfile := sm_AllowedProfile s;
     sm_AllowedPatternCount := sm_AllowedPatternCount s |}.
Definition with_counts (entries files directories symlinks special unmatched : Z) (s : cleanupResidueSummary)
  : cleanupResidueSummary :=
  {| sm_Verdict := sm_Verdict s; sm_EntryCount := entries; sm_RegularFileCount := files;
     sm_DirectoryCount := directories; sm_SymlinkCount := symlinks; sm_SpecialCount := special;
     sm_UnmatchedCount := unmatched; sm_OpaqueToken := sm_OpaqueToken s; sm_Failure := sm_Failure s;
     sm_QuiescenceConfirmed := sm_QuiescenceConfirmed s;
     sm_DisposableCleanupVerified := sm_DisposableCleanupVerified s; sm_IdentityVerified := sm_IdentityVerified s;
     sm_InventoryComplete := true; sm_AllowedProfile := sm_AllowedProfile s;
     sm_AllowedPatternCount := sm_AllowedPatternCount s |}.
Definition with_failure (failure : string) (s : cleanupResidueSummary) : cleanupResidueSummary :=
  with_verdict (sm_Verdict s) failure (sm_OpaqueToken s) s.

Definition is_type (kind : string) (entry : cleanupInventoryEntry) : bool := en_Type entry =s kind.
Definition is_special (entry : cleanupInventoryEntry) : bool :=
  negb (is_type "file" entry || is_type "directory" entry || is_type "symlink" entry).
(** Residue the plan does not allow. *)
Definition unmatched (allowedResidue : list string) (entry : cleanupInventoryEntry) : bool :=
  match allowedResidue with [] => true | _ => negb (is_type "file" entry) && negb (is_type "directory" entry) end.

(** The body of the loop over the entries. *)
Definition count_entry (allowedResidue : list string) (s : cleanupResidueSummary) (entry : cleanupInventoryEntry)
  : cleanupResidueSummary :=
  let add (b : bool) (z : Z) := if b then z + 1 else z in
  with_counts (sm_EntryCount s)
    (add (is_type "file" entry) (sm_RegularFileCount s)) (add (is_type "directory" entry) (sm_DirectoryCount s))
    (add (is_type "symlink" entry) (sm_SymlinkCount s)) (add (is_special entry) (sm_SpecialCount s))
    (add (unmatched allowedResidue entry) (sm_UnmatchedCount s)) s.

(** [io.ReadFull] on a reader that yields the given bytes and then fails. *)
Definition read_full (n : nat) (reader : option string) : option string :=
  let bytes := default "" reader in if (n <=? slen bytes)%nat then Some (take_string n bytes) else None.

Definition cleanupInventoryEntry_json (entry : cleanupInventoryEntry) : doc :=
  object [("path", Some (str (en_Path entry))); ("type", Some (str (en_Type entry)));
          ("mode", Some (int (en_Mode entry)))].

Definition opaque_token (key canonical : string) : string := "hmac-sha256:" +:+ hex_encode (hmac_sha256 key canonical).

Definition decide_verdict (s : cleanupResidueSummary) : string :=
  if sm_EntryCount s =? 0 then CleanupClean
  else if 0 <? sm_UnmatchedCount s then CleanupUndeclaredResidue
  else CleanupAllowedResidue.

Definition classifyCleanupInventory (inventory : cleanupInventory) (allowedResidue : list string)
    (keyReader : option string) : cleanupResidueSummary :=
  let summary := with_verdict CleanupClean "" "" (newCleanupResidueSummary allowedResidue) in
  let summary := with_counts (Z.of_nat (length inventory)) 0 0 0 0 0 summary in
  if (1 <? length allowedResidue)%nat || ((length allowedResidue =? 1)%nat && negb (outputs_profile allowedResidue))
  then with_verdict CleanupNotTested "invalid-plan-contract" "" summary
  else
    let summary := foldl (count_entry allowedResidue) summary inventory in
    let summary := with_verdict (decide_verdict summary) "" "" summary in
    match read_full cleanupInventoryTokenKeyBytes keyReader with
    | None => with_verdict CleanupNotTested "random-unavailable" "" summary
    | Some key =>
        match Marshal (array cleanupInventoryEntry_json inventory) with
        | Err _ => with_verdict CleanupNotTested "token-unavailable" "" summary
        | Ok canonical => with_verdict (sm_Verdict summary) "" (opaque_token key canonical) summary
        end
    end.

(** ** The observation and the finding *)

Definition cleanupResidueDetails (summary : cleanupResidueSummary) : list (string * any) :=
  [("allowedPatternCount", VInt (sm_AllowedPatternCount summary));
   ("allowedProfile", VStr (sm_AllowedProfile summary));
   ("boundary", VStr cleanupInventoryBoundary);
   ("classifierVersion", VStr cleanupClassifierVersion);
   ("directoryCount", VInt (sm_DirectoryCount summary));
   ("disposableCleanupVerified", VBool (sm_DisposableCleanupVerified summary));
   ("entryCount", VInt (sm_EntryCount summary));
   ("identityVerified", VBool (sm_IdentityVerified summary));
   ("inventoryComplete", VBool (sm_InventoryComplete summary));
   ("maxControlBytes", VInt cleanupInventoryControlBytes);
   ("maxDepth", VInt cleanupInventoryMaxDepth);
   ("maxEntries", VInt cleanupInventoryMaxEntries);
   ("maxPathBytes", VInt cleanupInventoryMaxPathBytes);
   ("quiescenceConfirmed", VBool (sm_QuiescenceConfirmed summary));
   ("regularFileCount", VInt (sm_RegularFileCount summary));
   ("scope", VStr containerOutputs);
   ("specialCount", VInt (sm_SpecialCount summary));
   ("symlinkCount", VInt (sm_SymlinkCount summary));
   ("unmatchedCount", VInt (sm_UnmatchedCount summary));
   ("verdict", VStr (sm_Verdict summary))]
  ++ (if sm_OpaqueToken summary =s "" then []
      else [("opaqueInventoryToken", VStr (sm_OpaqueToken summary)); ("tokenScheme", VStr "ephemeral-keyed-hmac-sha256")])
  ++ (if sm_Failure summary =s "" then [] else [("failure", VStr (sm_Failure summary))]).

(** [prepared] is not used by the function. *)
Definition cleanupResidueObservation (summary : cleanupResidueSummary) (timestamp : Time) : ObservationEvent :=
  let failed := sm_Verdict summary =s CleanupNotTested in
  {| oe_SchemaVersion := "1"; oe_Sequence := 0; oe_Timestamp := UTC timestamp; oe_Phase := PhaseCleanup; oe_Actor := "trusted-runner";
     oe_Operation := "cleanup.residue.summary"; oe_Resource := containerOutputs;
     oe_Result := if failed then "failed" else "succeeded"; oe_Observer := "controller-cleanup-residue-classifier";
     oe_Coverage := if failed then coverageUnavailable else coverageEnforcementOnly;
     oe_Confidence := if failed then "unknown" else "high"; oe_Details := cleanupResidueDetails summary |}.

Definition in_cleanup_phase (e : Error) : Error :=
  {| er_SchemaVersion := er_SchemaVersion e; er_Code := er_Code e; er_Phase := PhaseCleanup;
     er_Severity := er_Severity e; er_Message := er_Message e; er_Details := er_Details e;
     er_EvidenceRefs := er_EvidenceRefs e; er_Suggestion := er_Suggestion e; er_Retryable := er_Retryable e;
     er_Cause := er_Cause e |}.

Definition cleanupResidueFinding (summary : cleanupResidueSummary) : option Error :=
  if sm_Verdict summary !=s CleanupUndeclaredResidue then None
  else
    Some (with_details
      (in_cleanup_phase (NewError CodeCleanupResidue SeverityHigh
         "Controller inventory confirmed undeclared cleanup residue."))
      [("scope", VStr containerOutputs); ("entryCount", VInt (sm_EntryCount summary));
       ("unmatchedCount", VInt (sm_UnmatchedCount summary)); ("symlinkCount", VInt (sm_SymlinkCount summary));
       ("specialCount", VInt (sm_SpecialCount summary))]).

Definition cleanupTechnicalError (message class cause : string) : Error :=
  with_details (in_cleanup_phase (WrapError CodeCleanupFailed SeverityHigh message cause))
    [("scope", VStr containerOutputs); ("failure", VStr class)].

(** ** Commands in the container

    What the engine answers to one [exec]: the writes to both streams, the exit
    code, and whether running it failed. *)

Record cappedBuffer := { cb_limit : Z; cb_bytes : string; cb_total : Z; cb_truncated : bool }.

Definition new_buffer (limit : Z) : cappedBuffer :=
  {| cb_limit := limit; cb_bytes := ""; cb_total := 0; cb_truncated := false |}.

Definition Write (b : cappedBuffer) (p : string) : cappedBuffer :=
  let total := wrap64 (cb_total b + zlen p) in
  let remaining := cb_limit b - zlen (cb_bytes b) in
  if remaining <=? 0 then
    {| cb_limit := cb_limit b; cb_bytes := cb_bytes b; cb_total := total;
       cb_truncated := cb_truncated b || (0 <? zlen p) |}
  else
    {| cb_limit := cb_limit b; cb_bytes := cb_bytes b +:+ take_string (Z.to_nat remaining) p; cb_total := total;
       cb_truncated := cb_truncated b || (remaining <? zlen p) |}.

Definition capture (limit : Z) (writes : list string) : cappedBuffer := foldl Write (new_buffer limit) writes.

Record command_result := { cr_exitCode : Z; cr_runErr : bool; cr_stdout : list string; cr_stderr : list string }.

(** [strings.TrimSpace] and [strings.ToLower] before a comparison with an ASCII
    word without the letters k and i (whose non-ASCII capitals lower to ASCII). *)
Definition space_rune (r : option string) : bool :=
  match r with
  | Some (String c "") => in_range 9 13 c || (byte_val c =? 32)%N
  | Some (String a (String b "")) => (byte_val a =? 194)%N && ((byte_val b =? 133)%N || (byte_val b =? 160)%N)
  | Some (String a (String b (String c ""))) =>
      match byte_val a, byte_val b with
      | 225%N, 154%N => (byte_val c =? 128)%N
      | 226%N, 128%N => in_range 128 138 c || in_range 168 169 c || (byte_val c =? 175)%N
      | 226%N, 129%N => (byte_val c =? 159)%N
      | 227%N, 128%N => (byte_val c =? 128)%N
      | _, _ => false
      end
  | _ => false
  end.
Fixpoint drop_spaces (rs : list (option string)) : list (option string) :=
  match rs with r :: rs' => if space_rune r then drop_spaces rs' else rs | [] => [] end.
Definition lower_rune (r : option string) : option string :=
  match r with
  | Some (String c "") => if in_range 65 90 c then Some (String (byte_of (byte_val c + 32)) "") else r
  | _ => r
  end.
Definition adapter_is (adapter word : string) : bool :=
  bool_decide (List.map lower_rune (rev (drop_spaces (rev (drop_spaces (runes adapter))))) = runes word).

Definition runtimeExecutable (adapter : string) : option string :=
  if adapter_is adapter "node" then Some "node"
  else if adapter_is adapter "python" then Some "python"
  else None.

(** [fullContainerIDPattern]: [^[a-f0-9]{64}$]. *)
Definition fullContainerID (id : string) : bool := (slen id =? 64)%nat && string_forallb is_lower_hex id.

Definition removeCleanupDisposableDirectories (adapter containerID : string) (run : command_result)
  : result string unit :=
  match runtimeExecutable adapter with
  | None => Err "disposable-removal-unavailable"
  | Some _ =>
      fail_if (negb (fullContainerID containerID)) with "disposable-removal-unavailable" ;;
      let stdout := capture cleanupInventoryStderrBytes (cr_stdout run) in
      let stderr := capture cleanupInventoryStderrBytes (cr_stderr run) in
      fail_if (cr_runErr run || negb (cr_exitCode run =? 0) || cb_truncated stdout || cb_truncated stderr
               || negb (zlen (cb_bytes stdout) =? 0) || negb (zlen (cb_bytes stderr) =? 0))
        with "disposable-removal-failed" ;;
      Ok tt
  end.

Definition collectCleanupInventory (adapter containerID : string) (run : command_result)
  : result string cleanupInventory :=
  match runtimeExecutable adapter with
  | None => Err "inventory-helper-unavailable"
  | Some _ =>
      fail_if (negb (fullContainerID containerID)) with "inventory-helper-unavailable" ;;
      let stdout := capture cleanupInventoryControlBytes (cr_stdout run) in
      let stderr := capture cleanupInventoryStderrBytes (cr_stderr run) in
      fail_if (cb_truncated stdout) with "control-limit" ;;
      fail_if (cb_truncated stderr || negb (zlen (cb_bytes stderr) =? 0)) with "dirty-stderr" ;;
      fail_if (cr_runErr run || negb (cr_exitCode run =? 0)) with "helper-failed" ;;
      decodeCleanupInventory (cb_bytes stdout)
  end.

(** ** The runner's cleanup stage

    The part of [Runner.Run] from the confirmed quiescence to the export of the
    outputs.  What the rest of the run supplies: whether quiescing failed, the
    container's identifier, the engine's answers, whether reading the container's
    identity back failed, and the source of the token key. *)

Record cleanup_stage := {
  cs_adapter : string; cs_allowedResidue : list string; cs_containerID : string; cs_quiesceErr : bool;
  cs_removal : command_result; cs_identityErr : bool; cs_inventory : command_result; cs_keyReader : option string
}.

(** [validatePlan]'s check of the plan's cleanup contract. *)
Definition cleanup_contract (classifierVersion : string) (allowedResidue : slice string) : bool :=
  negb ((classifierVersion !=s cleanupClassifierVersion)
        || match allowedResidue with
           | None => true
           | Some l => (1 <? length l)%nat || ((length l =? 1)%nat && negb (outputs_profile l))
           end).

(** The summary of the started container and [cleanupEvidenceErr]. *)
Definition collect_evidence (c : cleanup_stage) : cleanupResidueSummary * option string :=
  let summary := with_failure "inventory-not-attempted" (newCleanupResidueSummary (cs_allowedResidue c)) in
  let trusted := negb (cs_quiesceErr c) && fullContainerID (cs_containerID c) in
  let summary := with_flags trusted false false summary in
  if cs_quiesceErr c then (with_failure "workload-quiescence-failed" summary, None)
  else if negb (fullContainerID (cs_containerID c)) then
    (with_failure "immutable-container-identity-unavailable" summary, Some "immutable-container-identity-unavailable")
  else
    match removeCleanupDisposableDirectories (cs_adapter c) (cs_containerID c) (cs_removal c) with
    | Err class => (with_failure (cleanupInventoryFailureClass class) summary, Some class)
    | Ok _ =>
        let summary := with_flags trusted true false summary in
        if negb trusted then (summary, None)
        else if cs_identityErr c then
          (with_failure "container-identity-readback-failed" summary, Some "container-identity-readback-failed")
        else
          let summary := with_flags trusted true true summary in
          match collectCleanupInventory (cs_adapter c) (cs_containerID c) (cs_inventory c) with
          | Err class => (with_failure (cleanupInventoryFailureClass class) summary, Some class)
          | Ok inventory =>
              let classified := classifyCleanupInventory inventory (cs_allowedResidue c) (cs_keyReader c) in
              let classified := with_flags (sm_QuiescenceConfirmed summary) (sm_DisposableCleanupVerified summary)
                                  (sm_IdentityVerified summary) classified in
              (classified, if sm_Verdict classified =s CleanupNotTested then Some (sm_Failure classified) else None)
          end
    end.

(** The summary of a run whose container never started. *)
Definition not_started_summary (allowedResidue : list string) : cleanupResidueSummary :=
  with_failure "sandbox-boundary-unavailable" (newCleanupResidueSummary allowedResidue).

Definition cleanup_summary (started : bool) (c : cleanup_stage) : cleanupResidueSummary :=
  if started then fst (collect_evidence c) else not_started_summary (cs_allowedResidue c).

(** What happens to the outputs: [repairErr] is the answer of the permission repair. *)
Inductive export_step := ExportSkipped | ExportDenied | RepairFailed | ExportAttempted.

Definition export_outputs (exportSafe : bool) (c : cleanup_stage) (repairErr : bool) : export_step :=
  let '(summary, evidenceErr) := collect_evidence c in
  let trusted := match evidenceErr with None => true | Some _ => false end
                 && sm_InventoryComplete summary && (sm_Verdict summary !=s CleanupNotTested) in
  let unsafeResidue := (0 <? sm_SymlinkCount summary) || (0 <? sm_SpecialCount summary) in
  if exportSafe && trusted && fullContainerID (cs_containerID c) && unsafeResidue then ExportDenied
  else if exportSafe && trusted && negb unsafeResidue && fullContainerID (cs_containerID c) then
    if repairErr then RepairFailed else if sm_InventoryComplete summary then ExportAttempted else ExportSkipped
  else ExportSkipped.

(** ** Inventory paths *)

Lemma double_slash_part s : double_slash s = true → "" ∈ tail (split_on "/" s).
Proof.
  induction s as [|c s IH]; [done|]. cbn [double_slash]. intros H. apply orb_prop in H as [H|H].
  - apply has_prefix_app in H as [r H]. change ("//" +:+ r) with (String "/" (String "/" r)) in H. rewrite H.
    cbn. left.
  - specialize (IH H). cbn [split_on]. destruct (split_on_cons "/" s) as (part & parts & E). rewrite E in *.
    destruct (Ascii.eqb c "/"); [by right|done].
Qed.

Lemma disposable_head parts :
  parts ≠ [] → Forall (λ part, no_sep "/" part = true) parts →
  disposable_path (join_with "/" parts) = true ↔ head parts = Some ".home" ∨ head parts = Some ".tmp".
Proof.
  intros Hne Hs. pose proof (split_join "/" parts Hne Hs) as Hsplit. unfold disposable_path. split.
  - clear Hne Hs. revert Hsplit. generalize (join_with "/" parts). intros p <-.
    rewrite !orb_true_iff, !String.eqb_eq, !has_prefix_app.
    intros [[[-> | ->]|[r ->]]|[r ->]]; [by left|by right|left|right].
    + change (".home/" +:+ r) with (".home" +:+ String "/" r). by rewrite split_part.
    + change (".tmp/" +:+ r) with (".tmp" +:+ String "/" r). by rewrite split_part.
  - destruct parts as [|part [|q parts]]; [done|..]; cbn [head]; intros [[= ->]|[= ->]]; try done.
    all: change (join_with "/" (?p :: q :: parts)) with (p +:+ String "/" (join_with "/" (q :: parts))).
    all: rewrite ?app_string_cons; by rewrite !orb_true_r.
Qed.

(** What a path of the inventory is: at most 64 plain names below [/outputs],
    the first of them no disposable directory. *)
Record inventory_path (p : string) : Prop := {
  path_parts : ∃ parts, p = join_with "/" parts ∧ parts ≠ [] ∧ Forall plain_name parts
    ∧ Forall (λ part, no_sep "/" part = true) parts ∧ Z.of_nat (length parts) <= 64
    ∧ head parts ≠ Some ".home" ∧ head parts ≠ Some ".tmp";
  path_utf8 : utf8_valid p = true;
  path_bytes : zlen p <= 1024;
  path_printable : string_forallb printable p = true
}.

Lemma inventory_path_iff p :
  validCleanupInventoryPath p = true ∧ disposable_path p = false ↔ inventory_path p.
Proof.
  unfold validCleanupInventoryPath, slash_count. split.
  - intros [H Hd]. to_prop. pose proof (split_on_no_sep "/" p) as Hs. constructor; try done.
    destruct (split_on_cons "/" p) as (part & rest & E).
    exists (split_on "/" p). rewrite join_split. unfold cleanupInventoryMaxDepth in *.
    assert (split_on "/" p ≠ []) as Hne by by rewrite E.
    pose proof (disposable_head _ Hne Hs) as Hiff. rewrite join_split, Hd in Hiff.
    split_and!; try done; [by apply clean_plain|lia|..]; intros Hh; destruct Hiff as [_ Hiff]; discriminate Hiff; auto.
  - intros [(parts & -> & Hne & Hp & Hs & Hl & Hh & Ht) Hu Hb Hpr].
    pose proof (disposable_head _ Hne Hs) as Hiff. pose proof (split_join "/" parts Hne Hs) as Hsplit.
    destruct (plain_join_clean parts Hne Hp Hs) as (H1 & H2 & H3 & H4 & H5). split.
    + rewrite Hsplit, Hu, H1, H2, H5, Hpr, string_eqb_refl. unfold cleanupInventoryMaxPathBytes, cleanupInventoryMaxDepth.
      rewrite (proj2 (Z.ltb_ge _ _) Hb), (proj2 (String.eqb_neq _ _) H3), (proj2 (String.eqb_neq _ _) H4).
      rewrite (proj2 (Z.leb_le _ _)) by lia.
      destruct (String.eqb_spec (join_with "/" parts) "") as [E|_].
      { rewrite E in Hsplit. cbn in Hsplit. subst. inversion Hp as [|? ? [? _]]; done. }
      destruct (double_slash _) eqn:E; [|done]. apply double_slash_part in E. rewrite Hsplit in E.
      rewrite Forall_forall in Hp. destruct (Hp "") as [? _]; [|done].
      destruct parts; [done|by right].
    + destruct (disposable_path (join_with "/" parts)) eqn:E; [|done]. by destruct (proj1 Hiff eq_refl).
Qed.

(** ** Entries *)

Record inventory_entry (e : cleanupInventoryEntry) : Prop := {
  entry_path : inventory_path (en_Path e);
  entry_type : en_Type e ∈ inventory_types;
  entry_mode : 0 <= en_Mode e <= 4095
}.

Lemma valid_type_iff value : validCleanupInventoryType value = true ↔ value ∈ inventory_types.
Proof.
  unfold validCleanupInventoryType. rewrite existsb_exists. split.
  - intros (x & Hx & ->%String.eqb_eq). by apply list_elem_of_In.
  - intros H. exists value. split; [by apply list_elem_of_In|apply string_eqb_refl].
Qed.

Lemma valid_mode_iff mode : valid_mode mode = true ↔ 0 <= mode <= 4095.
Proof. unfold valid_mode. by rewrite andb_true_iff, !Z.leb_le. Qed.

(** The entries' paths ascend strictly from [previous]. *)
Fixpoint ascending (previous : string) (l : cleanupInventory) : Prop :=
  match l with
  | [] => True
  | e :: l' => (previous = "" ∨ key_lt previous (en_Path e) = true) ∧ ascending (en_Path e) l'
  end.

Lemma decode_entry_ok previous j e :
  decode_entry previous j = Ok e →
  inventory_entry e ∧ (previous = "" ∨ key_lt previous (en_Path e) = true).
Proof.
  unfold decode_entry. destruct (as_object j) as [o|]; [|done]. intros H. step_fail H.
  destruct (as_string (field o "path")) as [p|]; [|done]. destruct (as_string (field o "type")) as [t|]; [|done].
  destruct (cleanupJSONInteger (field o "mode")) as [m|]; [|done]. repeat step_fail H. injection H as <-. to_prop.
  split; [constructor; cbn|cbn].
  - by apply inventory_path_iff.
  - by apply valid_type_iff.
  - by apply valid_mode_iff.
  - destruct (String.eqb_spec previous ""); [by left|right].
    repeat match goal with E : (_ && _) = false |- _ => apply andb_false_elim in E as [E|E] end; by to_prop.
Qed.

Lemma decode_entries_ok previous raws l :
  decode_entries previous raws = Ok l →
  Forall inventory_entry l ∧ ascending previous l ∧ length l = length raws.
Proof.
  revert previous l. induction raws as [|j raws IH]; intros previous l; cbn [decode_entries].
  { intros [= <-]. by repeat constructor. }
  intros H. apply bind_Ok in H as (e & He & H). apply bind_Ok in H as (l' & Hl & H). injection H as <-.
  apply decode_entry_ok in He as [He Ha]. apply IH in Hl as (Hf & Hs & Hlen).
  split_and!; [by constructor|by split|simpl; lia].
Qed.

Lemma decode_inventory_ok raw inv :
  decodeCleanupInventory raw = Ok inv →
  zlen raw <= 524288 ∧ (length inv <= 2048)%nat ∧ Forall inventory_entry inv ∧ ascending "" inv.
Proof.
  unfold decodeCleanupInventory. destruct (Decode raw inventory_limits) as [[[| | | | |root]|]|] eqn:E; try done.
  apply Decode_within in E as (_ & Hb & _). intros H. step_fail H.
  destruct (root_values root) as [[count raws]|]; [|done]. repeat step_fail H. to_prop.
  apply decode_entries_ok in H as (Hf & Ha & Hl). unfold cleanupInventoryMaxEntries in *.
  split_and!; [done|lia|done|done].
Qed.

Lemma ascending_sorted previous inv :
  Forall inventory_entry inv → ascending previous inv →
  keys_sorted (List.map (λ e, (en_Path e, e)) inv) = true.
Proof.
  assert (∀ e, inventory_entry e → en_Path e ≠ "") as Hne.
  { intros e [He _ _] E. apply inventory_path_iff in He as [He _]. by rewrite E in He. }
  intros Hall. revert previous. induction Hall as [|e l He Hl IH]; intros previous; [done|]. cbn [ascending].
  intros [_ Ha]. cbn [List.map keys_sorted]. specialize (IH _ Ha). destruct l as [|e' l]; [done|].
  cbn [List.map] in *. rewrite IH. destruct Ha as [[E|E] _]; [by apply Hne in He|]. cbn [fst]. by rewrite E.
Qed.

Lemma sorted_ascending previous inv :
  keys_sorted (List.map (λ e, (en_Path e, e)) inv) = true →
  (previous = "" ∨ ∀ e, head inv = Some e → key_lt previous (en_Path e) = true) → ascending previous inv.
Proof.
  revert previous. induction inv as [|e l IH]; intros previous H Hp; [done|]. cbn [ascending]. split.
  - destruct Hp as [->|Hp]; [by left|right]. by apply Hp.
  - cbn [List.map keys_sorted] in H. destruct l as [|e' l]; [done|]. cbn [List.map fst] in *.
    apply andb_prop in H as [Hlt H]. apply IH; [done|]. right. by intros ? [= <-].
Qed.

(** *** The document of an inventory *)

Definition entry_doc (e : cleanupInventoryEntry) : json :=
  JObj [("mode", JNum (dec_Z (en_Mode e))); ("path", JStr (en_Path e)); ("type", JStr (en_Type e))].

Definition identity_doc (id : cleanupInventoryIdentity) : json :=
  JObj [("ctimeNs", JStr (id_CtimeNS id)); ("device", JStr (id_Device id)); ("inode", JStr (id_Inode id));
        ("mode", JNum (dec_Z (id_Mode id))); ("mtimeNs", JStr (id_MtimeNS id))].

Definition inventory_doc (id : cleanupInventoryIdentity) (inv : cleanupInventory) : json :=
  JObj [("count", JNum (dec_Z (Z.of_nat (length inv)))); ("disposableAbsent", JBool true);
        ("entries", JArr (List.map entry_doc inv)); ("ok", JBool true); ("rootAfter", identity_doc id);
        ("rootBefore", identity_doc id); ("schemaVersion", JStr "1"); ("scope", JStr containerOutputs)].

Definition valid_identity (id : cleanupInventoryIdentity) : bool :=
  decimalCleanupIdentity (id_Device id) && decimalCleanupIdentity (id_Inode id)
  && decimalCleanupIdentity (id_CtimeNS id) && decimalCleanupIdentity (id_MtimeNS id) && valid_mode (id_Mode id).

Lemma small_int z : 0 <= z <= 4095 → numbers_ok (JNum (dec_Z z)) = true ∧ parse_int 32 (dec_Z z) = Some z.
Proof.
  intros Hz. assert (forallb (λ n, numbers_ok (JNum (dec_Z (Z.of_nat n)))
    && bool_decide (parse_int 32 (dec_Z (Z.of_nat n)) = Some (Z.of_nat n))) (seq 0 4096) = true) as H
    by (vm_compute; reflexivity).
  rewrite forallb_forall in H. specialize (H (Z.to_nat z)). rewrite Z2Nat.id in H by lia.
  assert (In (Z.to_nat z) (seq 0 4096)) as Hin by (apply in_seq; lia).
  apply andb_prop in H as [H1 H2%bool_decide_eq_true]; done.
Qed.

Lemma decimal_utf8 s : decimalCleanupIdentity s = true → utf8_valid s = true.
Proof.
  unfold decimalCleanupIdentity. intros [_ H]%andb_prop. apply utf8_valid_ascii.
  eapply string_forallb_impl; [|exact H]. intros c Hc. unfold is_digit, in_range, ascii7 in *. to_prop.
  apply N.ltb_lt. apply N.leb_le in H1. lia.
Qed.

Lemma identity_read id : valid_identity id = true → cleanupInventoryIdentityValue (identity_doc id) = Some id.
Proof.
  unfold valid_identity, cleanupInventoryIdentityValue, identity_doc. intros H. to_prop.
  cbn - [dec_Z decimalCleanupIdentity parse_int].
  rewrite (proj2 (small_int (id_Mode id) ltac:(by apply valid_mode_iff))). cbn - [decimalCleanupIdentity].
  repeat match goal with E : ?b = true |- context [?b] => rewrite E end. by destruct id.
Qed.

Lemma entry_read previous e :
  inventory_entry e → (previous = "" ∨ key_lt previous (en_Path e) = true) → decode_entry previous (entry_doc e) = Ok e.
Proof.
  intros [Hp Ht Hm] Ha. unfold decode_entry, entry_doc. cbn - [dec_Z parse_int validCleanupInventoryPath validCleanupInventoryType disposable_path valid_mode].
  rewrite (proj2 (small_int (en_Mode e) Hm)). apply inventory_path_iff in Hp as [Hv Hd].
  apply valid_type_iff in Ht. apply valid_mode_iff in Hm. rewrite Hv, Ht, Hm, Hd. cbn [negb orb].
  destruct Ha as [->|Ha]; [by destruct e|]. rewrite Ha. rewrite andb_false_r. by destruct e.
Qed.

Lemma entries_read previous inv :
  Forall inventory_entry inv → ascending previous inv → decode_entries previous (List.map entry_doc inv) = Ok inv.
Proof.
  intros Hall. revert previous. induction Hall as [|e l He _ IH]; intros previous; [done|].
  intros [Ha Hs]. cbn [List.map decode_entries]. rewrite entry_read by done. cbn [bind_result]. by rewrite IH.
Qed.

Lemma entry_doc_facts e :
  inventory_entry e →
  canonical (entry_doc e) = true ∧ numbers_ok (entry_doc e) = true ∧ depth_of (entry_doc e) = 1 ∧ nodes_of (entry_doc e) = 4.
Proof.
  intros [Hp Ht Hm]. split_and!; [| |done|done].
  - cbn. rewrite number_lexeme_dec_Z, (path_utf8 _ Hp). rewrite utf8_valid_ascii; [done|].
    unfold inventory_types in Ht. repeat (apply elem_of_cons in Ht as [->|Ht]; [done|]). by apply not_elem_of_nil in Ht.
  - pose proof (proj1 (small_int (en_Mode e) Hm)) as H. cbn in *. by rewrite H.
Qed.

Lemma identity_doc_facts id :
  valid_identity id = true →
  canonical (identity_doc id) = true ∧ numbers_ok (identity_doc id) = true ∧ depth_of (identity_doc id) = 1
  ∧ nodes_of (identity_doc id) = 6.
Proof.
  unfold valid_identity. intros H. to_prop. split_and!; [| |done|done].
  - cbn. rewrite number_lexeme_dec_Z. by rewrite !decimal_utf8.
  - assert (numbers_ok (JNum (dec_Z (id_Mode id))) = true) as Hn by (by apply small_int, valid_mode_iff).
    cbn in *. by rewrite Hn.
Qed.

Lemma entries_nodes inv : Forall inventory_entry inv → array_nodes (List.map entry_doc inv) = 4 * Z.of_nat (length inv).
Proof.
  induction 1 as [|e l He _ IH]; [done|]. cbn [List.map length]. rewrite array_nodes_cons, IH.
  destruct (entry_doc_facts e He) as (_ & _ & _ & ->). lia.
Qed.

Lemma entries_depth inv : Forall inventory_entry inv → array_depth (List.map entry_doc inv) <= 1.
Proof.
  induction 1 as [|e l He _ IH]; [done|]. cbn [List.map length]. rewrite array_depth_cons.
  destruct (entry_doc_facts e He) as (_ & _ & -> & _). lia.
Qed.

Lemma inventory_doc_decodes id inv :
  valid_identity id = true → Forall inventory_entry inv → (length inv <= 2048)%nat →
  zlen (encode (inventory_doc id inv)) <= 524288 →
  Decode (encode (inventory_doc id inv)) inventory_limits = Some (Ok (inventory_doc id inv)).
Proof.
  intros Hid Hall Hlen Hb. destruct (identity_doc_facts id Hid) as (C1 & C2 & C3 & C4).
  pose proof (entries_nodes inv Hall) as Hn. pose proof (entries_depth inv Hall) as Hd.
  destruct (small_int (Z.of_nat (length inv)) ltac:(lia)) as [Hnum _].
  assert (forallb canonical (List.map entry_doc inv) = true ∧ forallb numbers_ok (List.map entry_doc inv) = true) as [Hc Hk].
  { clear -Hall. induction Hall as [|e l He _ [IH1 IH2]]; [done|]. cbn [List.map forallb].
    destruct (entry_doc_facts e He) as (-> & -> & _). by rewrite IH1, IH2. }
  unfold array_nodes, array_depth in *.
  apply decode_encode; unfold inventory_doc; [done|..|done| |];
    cbn [canonical numbers_ok depth_of nodes_of forallb foldr fst snd keys_sorted] in *.
  - by rewrite number_lexeme_dec_Z, C1, Hc.
  - by rewrite Hnum, C2, Hk.
  - rewrite C3. unfold inventory_limits, cleanupInventoryMaxEntries. cbn [MaxDepth]. lia.
  - rewrite C4. unfold inventory_limits, cleanupInventoryMaxEntries. cbn [MaxNodes]. lia.
Qed.

Lemma inventory_roundtrip id inv :
  valid_identity id = true → Forall inventory_entry inv → ascending "" inv → (length inv <= 2048)%nat →
  zlen (encode (inventory_doc id inv)) <= 524288 →
  decodeCleanupInventory (encode (inventory_doc id inv)) = Ok inv.
Proof.
  intros Hid Hall Ha Hlen Hb. unfold decodeCleanupInventory. rewrite inventory_doc_decodes by done.
  unfold inventory_doc. cbv iota. change (exactCleanupKeys _ root_keys) with true. cbn [negb].
  assert (root_values [("count", JNum (dec_Z (Z.of_nat (length inv)))); ("disposableAbsent", JBool true);
        ("entries", JArr (List.map entry_doc inv)); ("ok", JBool true); ("rootAfter", identity_doc id);
        ("rootBefore", identity_doc id); ("schemaVersion", JStr "1"); ("scope", JStr containerOutputs)]
    = Some (Z.of_nat (length inv), List.map entry_doc inv)) as ->.
  { unfold root_values. cbn - [dec_Z parse_int cleanupInventoryIdentityValue identity_doc Z.of_nat Z.leb].
    rewrite (proj2 (small_int (Z.of_nat (length inv)) ltac:(lia))). cbn - [cleanupInventoryIdentityValue identity_doc Z.of_nat Z.leb].
    rewrite identity_read by done. cbn - [Z.of_nat Z.leb]. rewrite (proj2 (Z.leb_le _ _)) by lia.
    by rewrite bool_decide_true. }
  rewrite length_map, Z.eqb_refl. cbn [negb]. unfold cleanupInventoryMaxEntries.
  rewrite (proj2 (Z.ltb_ge _ _)) by lia. by apply entries_read.
Qed.

(** ** The observation's details, decoded *)

Definition details_of_summary (s : cleanupResidueSummary) : cleanupObservationDetails :=
  {| cd_AllowedPatternCount := sm_AllowedPatternCount s; cd_AllowedProfile := sm_AllowedProfile s;
     cd_Boundary := cleanupInventoryBoundary; cd_ClassifierVersion := cleanupClassifierVersion;
     cd_DirectoryCount := sm_DirectoryCount s; cd_DisposableCleanupVerified := sm_DisposableCleanupVerified s;
     cd_EntryCount := sm_EntryCount s; cd_IdentityVerified := sm_IdentityVerified s;
     cd_InventoryComplete := sm_InventoryComplete s; cd_MaxControlBytes := cleanupInventoryControlBytes;
     cd_MaxDepth := cleanupInventoryMaxDepth; cd_MaxEntries := cleanupInventoryMaxEntries;
     cd_MaxPathBytes := cleanupInventoryMaxPathBytes; cd_OpaqueInventoryToken := sm_OpaqueToken s;
     cd_QuiescenceConfirmed := sm_QuiescenceConfirmed s; cd_RegularFileCount := sm_RegularFileCount s;
     cd_Scope := containerOutputs; cd_SpecialCount := sm_SpecialCount s; cd_SymlinkCount := sm_SymlinkCount s;
     cd_TokenScheme := if sm_OpaqueToken s =s "" then "" else "ephemeral-keyed-hmac-sha256";
     cd_UnmatchedCount := sm_UnmatchedCount s; cd_Verdict := sm_Verdict s; cd_Failure := sm_Failure s |}.

Definition number (z : Z) : json := JNum (dec_Z z).

(** The details as JSON members, in key order. *)
Definition details_members (s : cleanupResidueSummary) : list (string * json) :=
  [("allowedPatternCount", number (sm_AllowedPatternCount s)); ("allowedProfile", JStr (sm_AllowedProfile s));
   ("boundary", JStr cleanupInventoryBoundary); ("classifierVersion", JStr cleanupClassifierVersion);
   ("directoryCount", number (sm_DirectoryCount s));
   ("disposableCleanupVerified", JBool (sm_DisposableCleanupVerified s)); ("entryCount", number (sm_EntryCount s))]
  ++ (if sm_Failure s =s "" then [] else [("failure", JStr (sm_Failure s))])
  ++ [("identityVerified", JBool (sm_IdentityVerified s)); ("inventoryComplete", JBool (sm_InventoryComplete s));
      ("maxControlBytes", JNum "524288"); ("maxDepth", JNum "64"); ("maxEntries", JNum "2048");
      ("maxPathBytes", JNum "1024")]
  ++ (if sm_OpaqueToken s =s "" then [] else [("opaqueInventoryToken", JStr (sm_OpaqueToken s))])
  ++ [("quiescenceConfirmed", JBool (sm_QuiescenceConfirmed s));
      ("regularFileCount", number (sm_RegularFileCount s)); ("scope", JStr containerOutputs);
      ("specialCount", number (sm_SpecialCount s)); ("symlinkCount", number (sm_SymlinkCount s))]
  ++ (if sm_OpaqueToken s =s "" then [] else [("tokenScheme", JStr "ephemeral-keyed-hmac-sha256")])
  ++ [("unmatchedCount", number (sm_UnmatchedCount s)); ("verdict", JStr (sm_Verdict s))].

(** Values JSON carries unchanged. *)
Record transportable (s : cleanupResidueSummary) : Prop := {
  tr_text : utf8_valid (sm_AllowedProfile s) = true ∧ utf8_valid (sm_OpaqueToken s) = true
    ∧ utf8_valid (sm_Failure s) = true ∧ utf8_valid (sm_Verdict s) = true;
  tr_counts : Forall (λ z, is_int64 z = true)
    [sm_AllowedPatternCount s; sm_DirectoryCount s; sm_EntryCount s; sm_RegularFileCount s; sm_SpecialCount s;
     sm_SymlinkCount s; sm_UnmatchedCount s]
}.

Lemma details_json s : transportable s → to_json (VMap (cleanupResidueDetails s)) = Ok (JObj (details_members s)).
Proof.
  intros [(H1 & H2 & H3 & H4) _]. unfold cleanupResidueDetails, details_members, number.
  destruct (sm_OpaqueToken s =s ""), (sm_Failure s =s "");
    cbn - [sanitize dec_Z object_of cleanupInventoryControlBytes cleanupInventoryMaxDepth cleanupInventoryMaxEntries
           cleanupInventoryMaxPathBytes cleanupInventoryBoundary cleanupClassifierVersion containerOutputs];
    rewrite ?(sanitize_valid _ H1), ?(sanitize_valid _ H2), ?(sanitize_valid _ H3), ?(sanitize_valid _ H4);
    repeat match goal with |- context [JNum (dec_Z (?f s))] => generalize (JNum (dec_Z (f s))); intro end;
    vm_compute; reflexivity.
Qed.

Lemma details_keys s :
  NoDup (details_members s).*1 ∧ known detail_fields (details_members s)
  ∧ List.find (λ field, negb (has_key field (details_members s))) required_detail_fields = None.
Proof.
  unfold details_members. destruct (sm_OpaqueToken s =s ""), (sm_Failure s =s "").
  all: split_and!; [apply (bool_decide_unpack _); vm_compute; reflexivity
                   |repeat (constructor; [by eexists|]); constructor|vm_compute; reflexivity].
Qed.

Lemma int_fits z : is_int64 z = true → fits KInt (number z) = true ∧ set_int 0 (number z) = z.
Proof. intros H. unfold number, fits, set_int. by rewrite parse_int_dec_Z. Qed.

Lemma details_decode s : transportable s → decode_details (details_members s) = Ok (details_of_summary s).
Proof.
  intros [_ Hc]. destruct (details_keys s) as (Hnd & Hk & _). unfold decode_details.
  repeat (apply Forall_cons in Hc as [? Hc]). clear Hc.
  repeat match goal with H : is_int64 _ = true |- _ => apply int_fits in H as [? ?] end.
  rewrite first_error_none.
  - cbv zeta. rewrite !decode_field_assoc by done. clear Hnd Hk. unfold details_of_summary.
    unfold details_members. destruct (sm_OpaqueToken s =s "") eqn:E1, (sm_Failure s =s "") eqn:E2;
      cbn [assoc app String.eqb Ascii.eqb Bool.eqb]; to_prop; rewrite ?E1, ?E2;
      repeat match goal with H : set_int _ _ = _ |- _ => rewrite H; clear H end; reflexivity.
  - clear Hnd Hk. unfold details_members. destruct (sm_OpaqueToken s =s ""), (sm_Failure s =s "");
      cbn [app]; repeat (constructor; [eexists; split; [reflexivity|]; cbn [snd]; done|]); constructor.
Qed.

(** ** What the verifier accepts *)

(** The counts and the profile of a summary. *)
Record counts_consistent (s : cleanupResidueSummary) : Prop := {
  cc_profile : (sm_AllowedPatternCount s = 0 ∧ sm_AllowedProfile s = "none")
    ∨ (sm_AllowedPatternCount s = 1 ∧ sm_AllowedProfile s = "outputs-descendants");
  cc_nonneg : 0 <= sm_RegularFileCount s ∧ 0 <= sm_DirectoryCount s ∧ 0 <= sm_SymlinkCount s
    ∧ 0 <= sm_SpecialCount s ∧ sm_EntryCount s <= 2048;
  cc_sum : sm_EntryCount s
    = sm_DirectoryCount s + sm_RegularFileCount s + sm_SpecialCount s + sm_SymlinkCount s;
  cc_unmatched : sm_UnmatchedCount s
    = (if sm_AllowedPatternCount s =? 1 then sm_SpecialCount s + sm_SymlinkCount s else sm_EntryCount s);
  cc_incomplete : sm_InventoryComplete s = false → sm_EntryCount s = 0 ∧ sm_OpaqueToken s = ""
}.

(** A summary is decided, or not tested for a reason its flags agree with. *)
Definition decided (s : cleanupResidueSummary) : Prop :=
  sm_Verdict s = decide_verdict s ∧ sm_Failure s = "" ∧ sm_InventoryComplete s = true
  ∧ sm_QuiescenceConfirmed s = true ∧ sm_DisposableCleanupVerified s = true ∧ sm_IdentityVerified s = true
  ∧ validOpaqueCleanupToken (sm_OpaqueToken s) = true ∧ utf8_valid (sm_OpaqueToken s) = true.

Definition not_tested (s : cleanupResidueSummary) : Prop :=
  sm_Verdict s = CleanupNotTested ∧ sm_OpaqueToken s = "" ∧ utf8_valid (sm_Failure s) = true
  ∧ validateNotTestedCleanupDetails (details_of_summary s) = Ok tt.

Record reportable (s : cleanupResidueSummary) : Prop := {
  rp_counts : counts_consistent s;
  rp_outcome : decided s ∨ not_tested s
}.

Lemma decide_verdict_cases s :
  decide_verdict s = CleanupClean ∨ decide_verdict s = CleanupUndeclaredResidue ∨ decide_verdict s = CleanupAllowedResidue.
Proof. unfold decide_verdict. destruct (_ =? _); [by left|]. destruct (_ <? _); [right; by left|by right; right]. Qed.

Lemma reportable_transportable s : reportable s → transportable s.
Proof.
  intros [[Hp Hn Hs Hu Hi] Ho]. constructor.
  - split_and!; [by destruct Hp as [[_ ->]|[_ ->]]|..];
      destruct Ho as [(Hv & Hf & _ & _ & _ & _ & _ & Ht)|(Hv & Ht & Hf & _)]; try done; rewrite ?Hf, ?Ht, ?Hv; try done.
    by destruct (decide_verdict_cases s) as [-> | [-> | ->]].
  - rewrite Hs in *. destruct Hp as [[Hc _]|[Hc _]]; rewrite Hc in *; cbn in Hu; rewrite Hu;
      repeat constructor; unfold is_int64, int_min, int_max; apply andb_true_intro; split; apply Z.leb_le; lia.
Qed.

Lemma counts_validate s : counts_consistent s → validate_counts (details_of_summary s) = Ok tt.
Proof.
  intros [Hp (H1 & H2 & H3 & H4 & H5) Hs Hu Hi]. unfold validate_counts, kind_sum. cbn [existsb].
  cbn [details_of_summary cd_AllowedPatternCount cd_AllowedProfile cd_EntryCount cd_DirectoryCount cd_RegularFileCount
       cd_SpecialCount cd_SymlinkCount cd_UnmatchedCount cd_MaxEntries cd_InventoryComplete cd_OpaqueInventoryToken
       cd_TokenScheme].
  assert (∀ z, 0 <= z <= 2048 → is_int64 z = true) as Hsmall.
  { intros z Hz. unfold is_int64, int_min, int_max. apply andb_true_intro; split; apply Z.leb_le; lia. }
  rewrite (wrap64_small (sm_DirectoryCount s + sm_RegularFileCount s)) by (apply Hsmall; lia).
  rewrite (wrap64_small (_ + sm_SpecialCount s)) by (apply Hsmall; lia).
  rewrite !wrap64_small by (apply Hsmall; lia).
  assert ((sm_AllowedPatternCount s <? 0) || (1 <? sm_AllowedPatternCount s)
      || (sm_AllowedPatternCount s =? 0) && (sm_AllowedProfile s !=s "none")
      || (sm_AllowedPatternCount s =? 1) && (sm_AllowedProfile s !=s "outputs-descendants") = false) as ->
    by (by destruct Hp as [[-> ->]|[-> ->]]).
  assert (0 <= sm_UnmatchedCount s <= sm_EntryCount s) by (rewrite Hu; destruct (_ =? 1); lia).
  unfold cleanupInventoryMaxEntries. rewrite !(proj2 (Z.ltb_ge _ _)) by lia. rewrite <- Hs, <- Hu, !Z.eqb_refl.
  cbn [negb orb]. destruct (sm_InventoryComplete s) eqn:E; [done|]. destruct (Hi eq_refl) as [H0 ->].
  assert (sm_DirectoryCount s = 0 ∧ sm_RegularFileCount s = 0 ∧ sm_SpecialCount s = 0 ∧ sm_SymlinkCount s = 0
    ∧ sm_UnmatchedCount s = 0) as (-> & -> & -> & -> & ->) by lia. by rewrite H0.
Qed.

Lemma unmatched_bounds s :
  counts_consistent s → 0 <= sm_UnmatchedCount s <= sm_EntryCount s
  ∧ (sm_UnmatchedCount s = 0 → 0 < sm_EntryCount s →
     sm_AllowedPatternCount s = 1 ∧ sm_SymlinkCount s = 0 ∧ sm_SpecialCount s = 0).
Proof.
  intros [Hp (H1 & H2 & H3 & H4 & H5) Hs Hu Hi]. destruct Hp as [[Hc _]|[Hc _]]; rewrite Hc in *; cbn in Hu; lia.
Qed.

Lemma residue_validate s :
  counts_consistent s → sm_Verdict s = decide_verdict s → validate_residue (sm_Verdict s) (details_of_summary s) = Ok tt.
Proof.
  intros Hc ->. destruct (unmatched_bounds s Hc) as [Hb H0]. unfold validate_residue, decide_verdict.
  cbn [details_of_summary cd_EntryCount cd_UnmatchedCount cd_AllowedPatternCount cd_SymlinkCount cd_SpecialCount].
  destruct (Z.eqb_spec (sm_EntryCount s) 0) as [E|E].
  - cbn [String.eqb]. rewrite string_eqb_refl. assert (sm_UnmatchedCount s = 0) as -> by lia. done.
  - destruct (Z.ltb_spec 0 (sm_UnmatchedCount s)).
    + change (CleanupUndeclaredResidue =s CleanupClean) with false. change (CleanupUndeclaredResidue =s CleanupAllowedResidue) with false.
      rewrite string_eqb_refl. by rewrite (proj2 (Z.eqb_neq (sm_UnmatchedCount s) 0)) by lia.
    + destruct H0 as (-> & -> & ->); [lia..|]. assert (sm_UnmatchedCount s = 0) as -> by lia. done.
Qed.

Lemma token_nonempty token : validOpaqueCleanupToken token = true → (token =s "") = false.
Proof. by destruct token. Qed.

(** The verifier's decoding of the observation, up to its checks. *)
Lemma observation_validates s t :
  transportable s → IsZero t = false →
  cleanupVerdictFromObservation (cleanupResidueObservation s t)
  = validate_details (cleanupResidueObservation s t) (details_of_summary s).
Proof.
  intros Htr Ht. unfold cleanupVerdictFromObservation.
  change (IsZero (oe_Timestamp (cleanupResidueObservation s t))) with (IsZero t).
  rewrite Ht. change (oe_Details (cleanupResidueObservation s t)) with (cleanupResidueDetails s).
  rewrite details_json by done. cbn [map_err bind_result].
  destruct (details_keys s) as (_ & _ & ->). by rewrite details_decode.
Qed.

Lemma reportable_accepted s t :
  reportable s → IsZero t = false → cleanupVerdictFromObservation (cleanupResidueObservation s t) = Ok (sm_Verdict s).
Proof.
  intros Hr Ht. rewrite observation_validates by (auto using reportable_transportable). destruct Hr as [Hc Ho].
  unfold validate_details. change (cd_Verdict (details_of_summary s)) with (sm_Verdict s).
  rewrite counts_validate by done. unfold validate_token.
  change (cd_OpaqueInventoryToken (details_of_summary s)) with (sm_OpaqueToken s).
  change (cd_TokenScheme (details_of_summary s)) with
    (if sm_OpaqueToken s =s "" then "" else "ephemeral-keyed-hmac-sha256").
  cbn - [validate_flags validate_residue supported_verdict details_of_summary validOpaqueCleanupToken String.eqb].
  destruct Ho as [(Hv & Hf & H1 & H2 & H3 & H4 & Htok & _)|(Hv & Htok & _ & Hval)].
  - pose proof (residue_validate s Hc Hv) as Hres. rewrite (token_nonempty _ Htok), Htok.
    assert (validate_flags (sm_Verdict s) (details_of_summary s) = Ok tt ∧ (sm_Verdict s =s CleanupNotTested) = false
      ∧ supported_verdict (sm_Verdict s) = true) as (Hfl & Hne & ->).
    { unfold validate_flags.
      cbn [details_of_summary cd_Failure cd_InventoryComplete cd_QuiescenceConfirmed cd_DisposableCleanupVerified cd_IdentityVerified].
      rewrite Hf, H1, H2, H3, H4, Hv. by destruct (decide_verdict_cases s) as [-> | [-> | ->]]. }
    rewrite Hfl, Hne, Hres. reflexivity.
  - rewrite Hv, Htok in *. unfold validate_flags. rewrite string_eqb_refl, Hval. reflexivity.
Qed.

(** ** Classifying *)

Definition count (P : cleanupInventoryEntry → bool) (l : cleanupInventory) : Z := Z.of_nat (length (List.filter P l)).

Lemma count_cons P e l : count P (e :: l) = (if P e then 1 else 0) + count P l.
Proof. unfold count. cbn [List.filter]. destruct (P e); cbn [length]; lia. Qed.

Lemma count_nonneg P l : 0 <= count P l.
Proof. unfold count. lia. Qed.

Lemma count_kinds l :
  count (is_type "file") l + count (is_type "directory") l + count (is_type "symlink") l + count is_special l
  = Z.of_nat (length l).
Proof.
  induction l as [|e l IH]; [done|]. rewrite !count_cons. cbn [length]. unfold is_special, is_type in *.
  destruct (String.eqb_spec (en_Type e) "file") as [E|]; rewrite ?E; cbn; [lia|].
  destruct (String.eqb_spec (en_Type e) "directory") as [E|]; rewrite ?E; cbn; [lia|].
  destruct (String.eqb_spec (en_Type e) "symlink") as [E|]; rewrite ?E; cbn; lia.
Qed.

Lemma count_unmatched allowed l :
  count (unmatched allowed) l
  = match allowed with [] => Z.of_nat (length l) | _ => count (is_type "symlink") l + count is_special l end.
Proof.
  induction l as [|e l IH]; [by destruct allowed|]. rewrite count_cons, IH. unfold unmatched.
  destruct allowed as [|a allowed]; [cbn [length]; lia|]. rewrite !count_cons. unfold is_special, is_type in *.
  destruct (String.eqb_spec (en_Type e) "file") as [E|]; rewrite ?E; cbn; [lia|].
  destruct (String.eqb_spec (en_Type e) "directory") as [E|]; rewrite ?E; cbn; [lia|].
  destruct (en_Type e =s "symlink"); cbn; lia.
Qed.

Lemma count_all allowed l s :
  sm_InventoryComplete s = true →
  foldl (count_entry allowed) s l
  = with_counts (sm_EntryCount s) (sm_RegularFileCount s + count (is_type "file") l)
      (sm_DirectoryCount s + count (is_type "directory") l) (sm_SymlinkCount s + count (is_type "symlink") l)
      (sm_SpecialCount s + count is_special l) (sm_UnmatchedCount s + count (unmatched allowed) l) s.
Proof.
  revert s. induction l as [|e l IH]; intros s Hs; cbn [foldl].
  - unfold count, with_counts. cbn. rewrite !Z.add_0_r. destruct s. cbn in *. by subst.
  - rewrite IH by done. unfold count_entry, with_counts. cbn. rewrite !count_cons.
    f_equal; repeat match goal with |- context [if ?b then _ else _] => destruct b end; lia.
Qed.

(** The contract of [validatePlan] on the allowed residue. *)
Definition contract (allowed : list string) : bool := cleanup_contract cleanupClassifierVersion (Some allowed).

Lemma contract_cases allowed : contract allowed = true → allowed = [] ∨ allowed = ["/outputs/**"].
Proof.
  unfold contract, cleanup_contract. rewrite string_eqb_refl. cbn [negb orb].
  destruct allowed as [|a [|b l]]; [by left| |done]. unfold outputs_profile. change (containerOutputs +:+ "/**") with "/outputs/**".
  destruct (String.eqb_spec a "/outputs/**") as [->|]; [by right|done].
Qed.

(** What the classification of an inventory is. *)
Lemma classify_spec inv allowed reader :
  contract allowed = true →
  let s := classifyCleanupInventory inv allowed reader in
  sm_EntryCount s = Z.of_nat (length inv) ∧ sm_RegularFileCount s = count (is_type "file") inv
  ∧ sm_DirectoryCount s = count (is_type "directory") inv ∧ sm_SymlinkCount s = count (is_type "symlink") inv
  ∧ sm_SpecialCount s = count is_special inv ∧ sm_UnmatchedCount s = count (unmatched allowed) inv
  ∧ sm_InventoryComplete s = true ∧ sm_AllowedPatternCount s = Z.of_nat (length allowed)
  ∧ sm_AllowedProfile s = (if outputs_profile allowed then "outputs-descendants" else "none")
  ∧ ((sm_Verdict s = decide_verdict s ∧ sm_Failure s = ""
      ∧ ∃ key canonical, read_full 32 reader = Some key ∧ sm_OpaqueToken s = opaque_token key canonical)
     ∨ (sm_Verdict s = CleanupNotTested ∧ sm_OpaqueToken s = ""
        ∧ (sm_Failure s = "random-unavailable" ∨ sm_Failure s = "token-unavailable"))).
Proof.
  intros Hc s. subst s. unfold classifyCleanupInventory.
  assert ((1 <? length allowed)%nat || ((length allowed =? 1)%nat && negb (outputs_profile allowed)) = false) as ->
    by (by destruct (contract_cases _ Hc) as [-> | ->]).
  cbv zeta. rewrite count_all by done. change cleanupInventoryTokenKeyBytes with 32%nat.
  destruct (read_full 32 reader) as [key|]; [destruct (Marshal _) as [text|e]|];
    cbn [with_verdict with_counts newCleanupResidueSummary sm_EntryCount sm_RegularFileCount sm_DirectoryCount
      sm_SymlinkCount sm_SpecialCount sm_UnmatchedCount sm_InventoryComplete sm_AllowedPatternCount sm_AllowedProfile
      sm_Verdict sm_Failure sm_OpaqueToken]; split_and!; try done; eauto 10.
Qed.

Lemma opaque_token_valid key text :
  validOpaqueCleanupToken (opaque_token key text) = true ∧ utf8_valid (opaque_token key text) = true.
Proof.
  destruct (hmac_hex_shape key text) as [Hl Hh]. unfold validOpaqueCleanupToken, opaque_token, trim_prefix.
  rewrite has_prefix_self, drop_string_app, Hl. split.
  - eapply string_forallb_impl; [|exact Hh]. intros c. unfold is_hex. by intros ->.
  - apply utf8_valid_app; [done|]. apply utf8_valid_ascii. eapply string_forallb_impl; [|exact Hh]. intros c.
    unfold is_lower_hex, is_digit, in_range, ascii7. rewrite orb_true_iff, !andb_true_iff, !N.leb_le, N.ltb_lt. lia.
Qed.

Lemma classify_counts inv allowed reader :
  contract allowed = true → (length inv <= 2048)%nat →
  counts_consistent (classifyCleanupInventory inv allowed reader).
Proof.
  intros Hc Hlen. destruct (classify_spec inv allowed reader Hc) as (H1 & H2 & H3 & H4 & H5 & H6 & H7 & H8 & H9 & _).
  pose proof (count_kinds inv) as Hk. rewrite count_unmatched in H6.
  constructor; rewrite ?H1, ?H2, ?H3, ?H4, ?H5, ?H6, ?H7, ?H8, ?H9; try done.
  - by destruct (contract_cases _ Hc) as [-> | ->]; [left|right].
  - pose proof (count_nonneg (is_type "file") inv). pose proof (count_nonneg (is_type "directory") inv).
    pose proof (count_nonneg (is_type "symlink") inv). pose proof (count_nonneg is_special inv). lia.
  - lia.
  - destruct (contract_cases _ Hc) as [-> | ->]; [done|]. change (Z.of_nat (length ["/outputs/**"]) =? 1) with true. cbv iota. lia.
Qed.

(** ** The stage *)

(** The failure classes of each boundary. *)
Definition inventory_classes : list string :=
  ["inventory-helper-unavailable"; "control-limit"; "dirty-stderr"; "helper-failed"; "invalid-control";
   "count-mismatch"; "entry-limit"; "invalid-entry"; "unsorted-or-duplicate"].

Ltac error_class :=
  repeat match goal with
  | H : Err _ = Err _ |- _ => injection H as <-
  | H : Ok _ = Err _ |- _ => discriminate H
  | H : context [if ?b then _ else _] |- _ => destruct b
  | H : context [match ?o with Some _ => _ | None => _ end] |- _ => destruct o
  end.

Lemma decode_entry_class previous j c :
  decode_entry previous j = Err c → c ∈ inventory_classes ∨ c = "disposable-removal-failed".
Proof.
  unfold decode_entry. intros H. error_class; try (by right); left; apply (bool_decide_unpack _); reflexivity.
Qed.

Lemma decode_entries_class previous raws c :
  decode_entries previous raws = Err c → c ∈ inventory_classes ∨ c = "disposable-removal-failed".
Proof.
  revert previous. induction raws as [|j raws IH]; intros previous; [done|]. cbn [decode_entries].
  destruct (decode_entry previous j) as [e|e] eqn:E; cbn [bind_result].
  - destruct (decode_entries (en_Path e) raws) eqn:E2; cbn [bind_result]; [done|]. intros [= ->]. by eapply IH.
  - intros [= ->]. by eapply decode_entry_class.
Qed.

Lemma collect_class adapter id run c :
  collectCleanupInventory adapter id run = Err c → c ∈ inventory_classes ∨ c = "disposable-removal-failed".
Proof.
  unfold collectCleanupInventory, decodeCleanupInventory. intros H.
  repeat match goal with
  | H : context [if ?b then _ else _] |- _ => destruct b
  | H : context [match runtimeExecutable ?a with _ => _ end] |- _ => destruct (runtimeExecutable a)
  | H : context [match Decode ?r ?l with _ => _ end] |- _ => destruct (Decode r l) as [[[]|]|]
  | H : context [match root_values ?r with _ => _ end] |- _ => destruct (root_values r) as [[]|]
  | H : Err _ = Err _ |- _ => injection H as <-; left; apply (bool_decide_unpack _); reflexivity
  end.
  by eapply decode_entries_class.
Qed.

Lemma remove_class adapter id run c :
  removeCleanupDisposableDirectories adapter id run = Err c →
  c = "disposable-removal-unavailable" ∨ c = "disposable-removal-failed".
Proof. unfold removeCleanupDisposableDirectories. intros H. error_class; auto. Qed.

(** A summary of a stage that stopped before its inventory. *)
Definition untested (allowed : list string) (q d i : bool) (failure : string) : cleanupResidueSummary :=
  with_failure failure (with_flags q d i (newCleanupResidueSummary allowed)).

Lemma untested_reportable allowed q d i failure :
  contract allowed = true → utf8_valid failure = true →
  validateNotTestedCleanupDetails (details_of_summary (untested allowed q d i failure)) = Ok tt →
  reportable (untested allowed q d i failure).
Proof.
  intros Hc Hf Hv. constructor; [|by right].
  destruct (contract_cases _ Hc) as [-> | ->]; constructor; cbn; auto; lia.
Qed.

Lemma classified_reportable inv allowed reader :
  contract allowed = true → (length inv <= 2048)%nat →
  reportable (with_flags true true true (classifyCleanupInventory inv allowed reader)).
Proof.
  intros Hc Hlen. destruct (classify_counts inv allowed reader Hc Hlen) as [H1 H2 H3 H4 H5].
  destruct (classify_spec inv allowed reader Hc) as (_ & _ & _ & _ & _ & _ & H6 & _ & _ & Ho).
  constructor; [by constructor|]. generalize dependent (classifyCleanupInventory inv allowed reader).
  intros s _ _ _ _ _ H6 Ho. destruct Ho as [(Hv & Hf & key & text & _ & Ht)|(Hv & Ht & Hf)]; [left|right].
  - destruct (opaque_token_valid key text) as [Htok Hutf]. unfold decided.
    cbn [with_flags sm_Verdict sm_Failure sm_InventoryComplete sm_QuiescenceConfirmed sm_DisposableCleanupVerified
         sm_IdentityVerified sm_OpaqueToken]. rewrite Ht. split_and!; done.
  - split_and!; [done|done|by destruct Hf as [Hf|Hf]; cbn; rewrite Hf|].
    unfold validateNotTestedCleanupDetails. cbn - [String.eqb failure_stage_of]. rewrite H6.
    by destruct Hf as [-> | ->].
Qed.

(** Every summary of the stage, save the one of an inventory that lists a
    disposable directory after its verified removal. *)
Lemma stage_reportable started c :
  contract (cs_allowedResidue c) = true →
  collectCleanupInventory (cs_adapter c) (cs_containerID c) (cs_inventory c) ≠ Err "disposable-removal-failed" →
  reportable (cleanup_summary started c).
Proof.
  intros Hc Hne. unfold cleanup_summary, collect_evidence. cbv zeta. destruct started.
  2:{ by apply (untested_reportable _ false false false). }
  destruct (cs_quiesceErr c). { by apply (untested_reportable _ false false false). }
  cbn [negb andb]. destruct (fullContainerID (cs_containerID c)); cbn [negb].
  2:{ by apply (untested_reportable _ false false false). }
  destruct (removeCleanupDisposableDirectories _ _ _) as [u|class] eqn:Hr.
  2:{ apply remove_class in Hr as [-> | ->]; by apply (untested_reportable _ true false false). }
  destruct (cs_identityErr c). { by apply (untested_reportable _ true true false). }
  destruct (collectCleanupInventory _ _ _) as [inv|class] eqn:Hi.
  - cbn [fst]. apply classified_reportable; [done|].
    unfold collectCleanupInventory in Hi. destruct (runtimeExecutable _); [|done]. repeat step_fail Hi.
    apply decode_inventory_ok in Hi as (_ & Hl & _). done.
  - apply collect_class in Hi as [Hi|Hi]; [|congruence]. cbn [fst].
    assert (cleanupInventoryFailureClass class = class) as ->.
    { repeat (apply elem_of_cons in Hi as [->|Hi]; [done|]). by apply not_elem_of_nil in Hi. }
    apply (untested_reportable _ true true true); [done|..];
      repeat (apply elem_of_cons in Hi as [->|Hi]; [done|]); by apply not_elem_of_nil in Hi.
Qed.

(** ** Properties *)

(** The verdict of an inventory, entry by entry. *)
Definition residue_verdict (allowed : list string) (inv : cleanupInventory) : string :=
  match inv with
  | [] => CleanupClean
  | _ =>
      if bool_decide (allowed = ["/outputs/**"]) && forallb (λ e, is_type "file" e || is_type "directory" e) inv
      then CleanupAllowedResidue else CleanupUndeclaredResidue
  end.

Lemma count_zero P l : count P l = 0 ↔ forallb (λ e, negb (P e)) l = true.
Proof.
  induction l as [|e l IH]; [done|]. rewrite count_cons. cbn [forallb]. pose proof (count_nonneg P l).
  rewrite andb_true_iff, <- IH. destruct (P e); cbn [negb]; [|rewrite Z.add_0_l; tauto].
  split; [lia|by intros [? _]].
Qed.

Lemma forallb_negb_unmatched pattern l :
  forallb (λ e, negb (unmatched [pattern] e)) l = forallb (λ e, is_type "file" e || is_type "directory" e) l.
Proof.
  induction l as [|e l IH]; [done|]. cbn [forallb]. rewrite IH. unfold unmatched.
  by destruct (is_type "file" e), (is_type "directory" e).
Qed.

Lemma decide_residue inv allowed reader :
  contract allowed = true →
  decide_verdict (classifyCleanupInventory inv allowed reader) = residue_verdict allowed inv.
Proof.
  intros Hc. destruct (classify_spec inv allowed reader Hc) as (H1 & _ & _ & _ & _ & H6 & _).
  unfold decide_verdict. rewrite H1, H6. unfold residue_verdict. destruct inv as [|e inv]; [done|].
  rewrite (proj2 (Z.eqb_neq _ _)) by (cbn [length]; lia). pose proof (count_nonneg (unmatched allowed) (e :: inv)).
  destruct (contract_cases _ Hc) as [-> | ->].
  - rewrite bool_decide_false, count_unmatched by done. cbn [andb].
    by rewrite (proj2 (Z.ltb_lt _ _)) by (cbn [length]; lia).
  - rewrite bool_decide_true, <- (forallb_negb_unmatched "/outputs/**") by done.
    pose proof (count_zero (unmatched ["/outputs/**"]) (e :: inv)) as Hz.
    destruct (forallb _ (e :: inv)); cbn [andb].
    + rewrite (proj2 Hz eq_refl). done.
    + rewrite (proj2 (Z.ltb_lt _ _)); [done|]. destruct (Z.eq_dec (count (unmatched ["/outputs/**"]) (e :: inv)) 0) as [E|]; [|lia].
      by apply Hz in E.
Qed.

(** What a stage that reached a decision did. *)
Lemma stage_decided c s :
  collect_evidence c = (s, None) → sm_InventoryComplete s = true →
  cs_quiesceErr c = false ∧ cs_identityErr c = false
  ∧ removeCleanupDisposableDirectories (cs_adapter c) (cs_containerID c) (cs_removal c) = Ok tt
  ∧ ∃ inv, collectCleanupInventory (cs_adapter c) (cs_containerID c) (cs_inventory c) = Ok inv
    ∧ s = with_flags true true true (classifyCleanupInventory inv (cs_allowedResidue c) (cs_keyReader c))
    ∧ sm_Verdict s ≠ CleanupNotTested.
Proof.
  unfold collect_evidence. cbv zeta. destruct (cs_quiesceErr c); [by intros [= <-]|].
  destruct (fullContainerID _); [|done]. cbn [negb andb].
  destruct (removeCleanupDisposableDirectories _ _ _) as [[]|]; [|done]. destruct (cs_identityErr c); [done|].
  destruct (collectCleanupInventory _ _ _) as [inv|]; [|done].
  destruct (String.eqb_spec (sm_Verdict (with_flags true true true
    (classifyCleanupInventory inv (cs_allowedResidue c) (cs_keyReader c)))) CleanupNotTested) as [E|Hne].
  { cbn [with_flags sm_QuiescenceConfirmed sm_DisposableCleanupVerified sm_IdentityVerified sm_Verdict] in *. by rewrite E. }
  cbn [with_flags sm_QuiescenceConfirmed sm_DisposableCleanupVerified sm_IdentityVerified sm_Verdict] in *.
  rewrite (proj2 (String.eqb_neq _ _) Hne). intros [= <-] _. split_and!; try done. by exists inv.
Qed.

(** C11: Producer and consumer agree: whatever the engine answers, the observation the runner
    appends for its cleanup stage (container started or not) is accepted by the
    verification core with exactly the verdict of the runner's summary, provided
    the plan passed [validatePlan], the clock is set, and the inventory did not
    name a disposable directory whose removal had been confirmed. *)
Theorem cleanup_evidence_accepted started c t :
  contract (cs_allowedResidue c) = true → IsZero t = false →
  collectCleanupInventory (cs_adapter c) (cs_containerID c) (cs_inventory c) ≠ Err "disposable-removal-failed" →
  cleanupVerdictFromObservation (cleanupResidueObservation (cleanup_summary started c) t)
  = Ok (sm_Verdict (cleanup_summary started c)).
Proof. intros Hc Ht Hne. apply reportable_accepted; [by apply stage_reportable|done]. Qed.

(** C12: A decision is the right one: when the stage ends without an error and with a complete
    inventory, quiescing, the removal of the disposable directories and the identity
    check all succeeded, and the verdict is that of the collected inventory read
    entry by entry: clean exactly when it is empty, allowed exactly when the plan
    allows [/outputs/**] and every entry is a regular file or a directory. *)
Theorem cleanup_decision_exact c s :
  contract (cs_allowedResidue c) = true → collect_evidence c = (s, None) → sm_InventoryComplete s = true →
  cs_quiesceErr c = false ∧ cs_identityErr c = false
  ∧ removeCleanupDisposableDirectories (cs_adapter c) (cs_containerID c) (cs_removal c) = Ok tt
  ∧ ∃ inv, collectCleanupInventory (cs_adapter c) (cs_containerID c) (cs_inventory c) = Ok inv
    ∧ sm_Verdict s = residue_verdict (cs_allowedResidue c) inv.
Proof.
  intros Hc He Hi. destruct (stage_decided c s He Hi) as (H1 & H2 & H3 & inv & H4 & -> & Hne). split_and!; try done.
  exists inv. split; [done|]. rewrite <- (decide_residue inv (cs_allowedResidue c) (cs_keyReader c)) by done.
  destruct (classify_spec inv (cs_allowedResidue c) (cs_keyReader c) Hc) as (_ & _ & _ & _ & _ & _ & _ & _ & _ & Ho).
  by destruct Ho as [(Hv & _)|(Hv & _)].
Qed.

(** C13: Outputs are exported only from a trusted tree: an attempted export means that the export
    was safe, the permission repair and every boundary of the stage succeeded, and
    that the inventory holds regular files and directories only. *)
Theorem export_only_trusted exportSafe c repairErr :
  contract (cs_allowedResidue c) = true → export_outputs exportSafe c repairErr = ExportAttempted →
  exportSafe = true ∧ repairErr = false ∧ cs_quiesceErr c = false ∧ cs_identityErr c = false
  ∧ ∃ inv, collectCleanupInventory (cs_adapter c) (cs_containerID c) (cs_inventory c) = Ok inv
    ∧ Forall (λ e, en_Type e = "file" ∨ en_Type e = "directory") inv.
Proof.
  intros Hc. unfold export_outputs. destruct (collect_evidence c) as [s [e|]] eqn:He; [by destruct exportSafe|].
  destruct exportSafe; [|done]. destruct (sm_InventoryComplete s) eqn:Hi; [|done]. cbn [andb negb].
  destruct (stage_decided c s He Hi) as (H1 & H2 & _ & inv & H4 & Hs & Hne%String.eqb_neq). rewrite Hne. cbn [negb andb].
  destruct (Z.ltb_spec 0 (sm_SymlinkCount s)); [by destruct (fullContainerID _)|].
  destruct (Z.ltb_spec 0 (sm_SpecialCount s)); [by destruct (fullContainerID _)|]. cbn [orb negb andb].
  destruct (fullContainerID _); [|done]. cbn [andb]. destruct repairErr; [done|]. intros _. split_and!; try done.
  exists inv. split; [done|]. destruct (classify_spec inv (cs_allowedResidue c) (cs_keyReader c) Hc) as (_ & _ & _ & Hl & Hp & _).
  rewrite Hs in *. cbn [with_flags sm_SymlinkCount sm_SpecialCount] in *. rewrite Hl, Hp in *.
  pose proof (count_nonneg (is_type "symlink") inv). pose proof (count_nonneg is_special inv).
  assert (count (is_type "symlink") inv = 0) as Z1%count_zero by lia.
  assert (count is_special inv = 0) as Z2%count_zero by lia.
  rewrite forallb_forall in Z1, Z2. apply List.Forall_forall. intros e He'. specialize (Z1 e He'). specialize (Z2 e He').
  unfold is_special, is_type in *. destruct (String.eqb_spec (en_Type e) "file"); [by left|].
  destruct (String.eqb_spec (en_Type e) "directory"); [by right|]. by destruct (en_Type e =s "symlink").
Qed.

(** C14: What an accepted inventory is: at most 512 KiB of control data, at most 2048 entries
    of known types and permission bits, whose paths ascend strictly (so none is
    repeated) and are at most 64 plain names, none of them [.], [..] or empty, that
    do not enter a disposable directory. *)
Theorem cleanup_inventory_sound raw inv :
  decodeCleanupInventory raw = Ok inv →
  zlen raw <= 524288 ∧ (length inv <= 2048)%nat ∧ Forall inventory_entry inv
  ∧ NoDup (List.map en_Path inv) ∧ keys_sorted (List.map (λ e, (en_Path e, e)) inv) = true.
Proof.
  intros (Hb & Hl & Hall & Ha)%decode_inventory_ok. pose proof (ascending_sorted _ _ Hall Ha) as Hs.
  split_and!; try done. apply keys_sorted_NoDup in Hs. revert Hs. rewrite <- list_fmap_compose. done.
Qed.

(** Round trip: an inventory of valid entries in ascending order, written as the control
    document of an unchanged root, is decoded as it was. *)
Theorem cleanup_inventory_roundtrip id inv :
  valid_identity id = true → Forall inventory_entry inv → keys_sorted (List.map (λ e, (en_Path e, e)) inv) = true →
  (length inv <= 2048)%nat → zlen (encode (inventory_doc id inv)) <= 524288 →
  decodeCleanupInventory (encode (inventory_doc id inv)) = Ok inv.
Proof. intros Hid Hall Hs Hl Hb. apply inventory_roundtrip; try done. by apply sorted_ascending; [|left]. Qed.

(** The one failure the two sides disagree on: an inventory that lists a disposable
    directory after its removal was confirmed gives the class
    [disposable-removal-failed] with all boundary flags set, which the verification
    core rejects as inconsistent. *)
Theorem disposable_entry_rejected c t :
  contract (cs_allowedResidue c) = true → IsZero t = false → cs_quiesceErr c = false → cs_identityErr c = false →
  removeCleanupDisposableDirectories (cs_adapter c) (cs_containerID c) (cs_removal c) = Ok tt →
  collectCleanupInventory (cs_adapter c) (cs_containerID c) (cs_inventory c) = Err "disposable-removal-failed" →
  cleanupVerdictFromObservation (cleanupResidueObservation (cleanup_summary true c) t)
  = Err "cleanup failure class conflicts with disposable flags".
Proof.
  intros Hc Ht Hq Hi Hr He. assert (fullContainerID (cs_containerID c) = true) as Hid.
  { unfold removeCleanupDisposableDirectories in Hr. destruct (runtimeExecutable _); [|done].
    by destruct (fullContainerID _). }
  assert (cleanup_summary true c = untested (cs_allowedResidue c) true true true "disposable-removal-failed") as ->.
  { unfold cleanup_summary, collect_evidence. by rewrite Hq, Hid, Hr, Hi, He. }
  rewrite observation_validates; [|by destruct (contract_cases _ Hc) as [-> | ->]; repeat constructor|done].
  by destruct (contract_cases _ Hc) as [-> | ->].
Qed.

(** ** A sample stage *)

Definition entry_ok (e : cleanupInventoryEntry) : bool :=
  validCleanupInventoryPath (en_Path e) && negb (disposable_path (en_Path e))
  && validCleanupInventoryType (en_Type e) && valid_mode (en_Mode e).

Lemma entries_checked inv : forallb entry_ok inv = true → Forall inventory_entry inv.
Proof.
  rewrite forallb_forall. intros H. apply List.Forall_forall. intros e He. specialize (H e He).
  unfold entry_ok in H. to_prop. constructor; [by apply inventory_path_iff|by apply valid_type_iff|by apply valid_mode_iff].
Qed.

Definition sample_identity : cleanupInventoryIdentity :=
  {| id_Device := "64"; id_Inode := "1201"; id_Mode := 493; id_CtimeNS := "17"; id_MtimeNS := "0" |}.
Definition sample_inventory : cleanupInventory :=
  [{| en_Path := "logs"; en_Type := "directory"; en_Mode := 493 |};
   {| en_Path := "logs/run.txt"; en_Type := "file"; en_Mode := 420 |}].
Definition sample_control : string := encode (inventory_doc sample_identity sample_inventory).

Definition answers (stdout : string) : command_result :=
  {| cr_exitCode := 0; cr_runErr := false; cr_stdout := [stdout]; cr_stderr := [] |}.
Definition sample_stage (control : string) : cleanup_stage :=
  {| cs_adapter := " Node "; cs_allowedResidue := ["/outputs/**"];
     cs_containerID := "00112233445566778899aabbccddeeff00112233445566778899aabbccddeeff"; cs_quiesceErr := false;
     cs_removal := answers ""; cs_identityErr := false; cs_inventory := answers control;
     cs_keyReader := Some "0123456789abcdef0123456789abcdef" |}.

Definition sample_time : Time := {| t_ns := 1735689600 * 10 ^ 9; t_offset := 0 |}.

Definition home_control : string :=
  encode (inventory_doc sample_identity [{| en_Path := ".home"; en_Type := "directory"; en_Mode := 448 |}]).

Lemma sample_collects :
  collectCleanupInventory (cs_adapter (sample_stage sample_control)) (cs_containerID (sample_stage sample_control))
    (cs_inventory (sample_stage sample_control)) = Ok sample_inventory.
Proof. vm_compute. reflexivity. Qed.

Lemma cleanup_evidence_accepted_witness :
  cleanupVerdictFromObservation (cleanupResidueObservation (cleanup_summary true (sample_stage sample_control)) sample_time)
  = Ok CleanupAllowedResidue.
Proof.
  rewrite (cleanup_evidence_accepted true (sample_stage sample_control) sample_time eq_refl eq_refl).
  - vm_compute. reflexivity.
  - rewrite sample_collects. discriminate.
Defined.

Lemma cleanup_decision_exact_witness :
  ∃ inv, collectCleanupInventory (cs_adapter (sample_stage sample_control)) (cs_containerID (sample_stage sample_control))
      (cs_inventory (sample_stage sample_control)) = Ok inv
    ∧ sm_Verdict (collect_evidence (sample_stage sample_control)).1 = residue_verdict ["/outputs/**"] inv.
Proof.
  apply (cleanup_decision_exact (sample_stage sample_control) (collect_evidence (sample_stage sample_control)).1);
    vm_compute; reflexivity.
Defined.

Lemma export_only_trusted_witness :
  export_outputs true (sample_stage sample_control) false = ExportAttempted
  ∧ ∃ inv, collectCleanupInventory (cs_adapter (sample_stage sample_control)) (cs_containerID (sample_stage sample_control))
      (cs_inventory (sample_stage sample_control)) = Ok inv
    ∧ Forall (λ e, en_Type e = "file" ∨ en_Type e = "directory") inv.
Proof.
  assert (export_outputs true (sample_stage sample_control) false = ExportAttempted) as H by (vm_compute; reflexivity).
  split; [exact H|]. apply (export_only_trusted true (sample_stage sample_control) false eq_refl H).
Defined.

Lemma cleanup_inventory_sound_witness : Forall inventory_entry sample_inventory.
Proof. apply (cleanup_inventory_sound sample_control). vm_compute. reflexivity. Defined.

Lemma cleanup_inventory_roundtrip_witness : decodeCleanupInventory sample_control = Ok sample_inventory.
Proof.
  apply cleanup_inventory_roundtrip; [reflexivity|apply entries_checked; reflexivity|reflexivity|simpl; lia|].
  vm_compute. discriminate.
Defined.

Lemma disposable_entry_rejected_witness :
  cleanupVerdictFromObservation (cleanupResidueObservation (cleanup_summary true (sample_stage home_control)) sample_time)
  = Err "cleanup failure class conflicts with disposable flags".
Proof. apply disposable_entry_rejected; vm_compute; reflexivity. Defined.
