(* ===== verification/PortEvidence.v ===== *)
(** * Peer TCP listener evidence (internal/verification)

    The public contract of the port listener summaries and of the one finding
    that goes with positive ones. *)

From S2P Require Import Prelude Json GoValue Domain.

Local Open Scope Z_scope.

Definition portListenerUntestedDetailKeys : list string :=
  ["observerPlacement"; "sharesTargetPIDNamespace"; "sharesTargetMountNamespace"; "sharesTargetIPCNamespace";
   "sharesTargetCgroup"; "processAttribution"; "lifetimeSemantics"; "kernelEventCoverage";
   "shortLivedListenerGap"; "udpUnavailable"; "publicEvidence"; "evidenceBasis"; "comparisonResult";
   "sampleLimit"; "intervalMillis"; "maxAllowedGapMillis"; "identityVerified"; "namespaceIsolationVerified";
   "workloadQuiescenceVerified"; "peerRemoveVerified"; "canonicalDigestSemantics"].

Definition portListenerCompleteDetailKeys : list string :=
  portListenerUntestedDetailKeys ++
  ["observerAdapter"; "declaredEndpointCount"; "baselineEndpointCount"; "sampledEndpointCount";
   "undeclaredEndpointCount"; "sampleCount"; "maxSampleGapMillis"; "transitionCount"; "canonicalSampleDigest"].

Definition exactDetailKeys (details : list (string * any)) (keys : list string) : bool := exact_keys details keys.

(** [math.Trunc(numeric) != numeric], the bounds, and NaN and infinities. *)
Definition bounded_float (f : float64) (minimum maximum : Z) : option Z :=
  match f with
  | FNaN | FInf _ => None
  | FFin _ _ _ =>
      if float_lt_int f minimum || int_lt_float maximum f || negb (float_is_integer f) then None
      else Some (float_to_int f)
  end.

(** Every integer kind goes through [float64]; a [uint64] above the maximum is
    refused before that. *)
Definition boundedPortInteger (value : any) (minimum maximum : Z) : option Z :=
  match value with
  | VInt z => bounded_float (int_to_float z) minimum maximum
  | VUint z => if maximum <? z then None else bounded_float (int_to_float z) minimum maximum
  | VFloat f => bounded_float f minimum maximum
  | VNumber lexeme =>
      match number_to_float lexeme with
      | Some f => bounded_float f minimum maximum
      | None => None
      end
  | _ => None
  end.

Definition validPortDigest (value : any) : bool :=
  match value with VStr digest => digest_string "sha256:" digest 64 | _ => false end.

Definition validPortFailure (value : any) : bool :=
  match value with
  | VNil => true
  | VStr failure =>
      existsb (String.eqb failure)
        ["backend-not-live-qualified"; "unsupported-http-profile"; "immutable-container-identity-unavailable";
         "ready-transport-failed"; "final-transport-failed"; "workload-quiescence-failed";
         "observer-not-started"; "peer-remove-failed"]
  | _ => false
  end.

Definition is_bool_value (v : any) : bool := match v with VBool _ => true | _ => false end.
Definition is_some {A} (o : option A) : bool := match o with Some _ => true | None => false end.

Definition validPortListenerStaticDetails (details : list (string * any)) : bool :=
  is_string (get details "observerPlacement") "peer-container-shared-network-namespace"
  && is_bool (get details "sharesTargetPIDNamespace") false
  && is_bool (get details "sharesTargetMountNamespace") false
  && is_bool (get details "sharesTargetIPCNamespace") false
  && is_bool (get details "sharesTargetCgroup") false
  && is_string (get details "processAttribution") "unavailable"
  && is_string (get details "lifetimeSemantics") "sample-window-only"
  && is_string (get details "kernelEventCoverage") "unavailable"
  && is_bool (get details "shortLivedListenerGap") true
  && is_bool (get details "udpUnavailable") true
  && is_string (get details "publicEvidence") "aggregate-only"
  && is_string (get details "evidenceBasis") "aggregate-only"
  && is_string (get details "canonicalDigestSemantics") "helper-commitment-not-controller-recomputed"
  && is_some (boundedPortInteger (get details "sampleLimit") 1200 1200)
  && is_some (boundedPortInteger (get details "intervalMillis") 100 100)
  && is_some (boundedPortInteger (get details "maxAllowedGapMillis") 1000 1000)
  && forallb (λ key, is_bool_value (get details key))
       ["identityVerified"; "namespaceIsolationVerified"; "workloadQuiescenceVerified"; "peerRemoveVerified"].

(** A complete summary: [positive] and the undeclared endpoint count. *)
Definition complete_summary (observation : ObservationEvent) (comparison : string) : result string (bool * Z) :=
  let details := oe_Details observation in
  fail_if (negb (exactDetailKeys details portListenerCompleteDetailKeys)
           || (oe_Result observation !=s "observed") || (oe_Coverage observation !=s "best-effort")
           || (oe_Confidence observation !=s "high")
           || (negb (is_string (get details "observerAdapter") "node-proc-net-tcp-linux")
               && negb (is_string (get details "observerAdapter") "python-proc-net-tcp-linux"))
           || negb (is_bool (get details "identityVerified") true)
           || negb (is_bool (get details "namespaceIsolationVerified") true)
           || negb (is_bool (get details "workloadQuiescenceVerified") true)
           || negb (is_bool (get details "peerRemoveVerified") true)
           || negb (validPortDigest (get details "canonicalSampleDigest")))
    with "complete port listener summary is invalid" ;;
  match boundedPortInteger (get details "baselineEndpointCount") 0 0,
        boundedPortInteger (get details "declaredEndpointCount") 1 1,
        boundedPortInteger (get details "sampledEndpointCount") 1 16,
        boundedPortInteger (get details "undeclaredEndpointCount") 0 15,
        boundedPortInteger (get details "sampleCount") 3 1200,
        boundedPortInteger (get details "maxSampleGapMillis") 0 1000,
        boundedPortInteger (get details "transitionCount") 2 4096 with
  | Some baseline, Some declared, Some sampled, Some undeclared, Some _, Some _, Some _ =>
      fail_if (negb (baseline =? 0) || negb (sampled =? declared + undeclared)
               || ((comparison =s "nonconforming-listeners") && (undeclared =? 0))
               || ((comparison =s "no-undeclared-observed") && negb (undeclared =? 0)))
        with "port listener aggregate counts are invalid" ;;
      Ok (comparison =s "nonconforming-listeners", undeclared)
  | _, _, _, _, _, _, _ => Err "port listener aggregate counts are invalid"
  end.

Definition untested_summary (observation : ObservationEvent) : result string (bool * Z) :=
  let details := oe_Details observation in
  fail_if (negb (exactDetailKeys details portListenerUntestedDetailKeys
                 || exactDetailKeys details (portListenerUntestedDetailKeys ++ ["failure"]))
           || (oe_Result observation !=s "unavailable") || (oe_Coverage observation !=s "unavailable")
           || (oe_Confidence observation !=s "unknown") || negb (validPortFailure (get details "failure")))
    with "not-tested port listener summary is invalid" ;;
  Ok (false, 0).

Definition validatePortListenerSummary (observation : ObservationEvent) : result string (bool * Z) :=
  fail_if ((oe_SchemaVersion observation !=s "1") || IsZero (oe_Timestamp observation)
           || (oe_Phase observation !=s PhaseCleanup) || (oe_Actor observation !=s "trusted-runner")
           || (oe_Resource observation !=s "tcp-listeners")
           || (oe_Observer observation !=s "docker-peer-port-listener-trace")
           || negb (validPortListenerStaticDetails (oe_Details observation)))
    with "port listener summary metadata is invalid" ;;
  match get (oe_Details observation) "comparisonResult" with
  | VStr comparison =>
      if (comparison =s "nonconforming-listeners") || (comparison =s "no-undeclared-observed")
      then complete_summary observation comparison
      else if comparison =s "not-tested" then untested_summary observation
      else Err "port listener comparison result is unsupported"
  | _ => Err "port listener comparison result is invalid"
  end.

Definition undeclared_finding_message : string :=
  "Bounded peer TCP samples observed one or more listeners outside the declared service endpoint.".

Definition validUndeclaredPortFinding (item : Error) : result string Z :=
  fail_if ((er_SchemaVersion item !=s "1") || (er_Code item !=s CodeUndeclaredPortListen)
           || (er_Phase item !=s "") || (er_Severity item !=s SeverityHigh)
           || (er_Message item !=s undeclared_finding_message)
           || is_some (er_Cause item) || negb (length (elems (er_EvidenceRefs item)) =? 0)%nat
           || (er_Suggestion item !=s "") || er_Retryable item || negb (length (er_Details item) =? 3)%nat
           || negb (is_string (get (er_Details item) "observer") "docker-peer-port-listener-trace")
           || negb (is_string (get (er_Details item) "evidenceBasis") "aggregate-only"))
    with "port listener finding is invalid" ;;
  of_option "port listener finding count is invalid"
    (boundedPortInteger (get (er_Details item) "undeclaredEndpointCount") 1 15).

(** The loop over the observations: the number of summaries, and the count the
    positive ones agree on. *)
Fixpoint summary_loop (required : bool) (observations : list ObservationEvent)
    (summaryCount : Z) (positiveCount : option Z) : result string (Z * option Z) :=
  match observations with
  | [] => Ok (summaryCount, positiveCount)
  | observation :: rest =>
      if oe_Operation observation !=s "port.listener-trace.summary"
      then summary_loop required rest summaryCount positiveCount
      else
        fail_if (negb required) with "port listener summary is not required by the plan" ;;
        let! (positive, count) := validatePortListenerSummary observation in
        if positive then
          fail_if (match positiveCount with Some c => negb (c =? count) | None => false end)
            with "positive port listener summaries disagree on undeclared endpoint count" ;;
          summary_loop required rest (summaryCount + 1) (Some count)
        else summary_loop required rest (summaryCount + 1) positiveCount
  end.

Definition port_findings (errorsList : list (option Error)) : list Error :=
  omap (λ item, match item with
                | Some e => if er_Code e =s CodeUndeclaredPortListen then Some e else None
                | None => None
                end) errorsList.

Definition validatePortListenerEvidence (required : bool) (completed : Z)
    (observations : list ObservationEvent) (errorsList : list (option Error)) : result string unit :=
  fail_if (completed <? 0) with "port listener repeat count is invalid" ;;
  let! (summaryCount, positiveCount) := summary_loop required observations 0 None in
  fail_if (required && negb (summaryCount =? completed))
    with "port listener summary count does not match completed repeats" ;;
  let portFindings := port_findings errorsList in
  fail_if (negb required && negb (length portFindings =? 0)%nat)
    with "port listener finding is not required by the plan" ;;
  match positiveCount with
  | None =>
      fail_if (negb (length portFindings =? 0)%nat) with "port listener finding has no positive summary" ;; Ok tt
  | Some positiveCount =>
      match portFindings with
      | [finding] =>
          let! count := validUndeclaredPortFinding finding in
          fail_if (negb (count =? positiveCount))
            with "port listener finding does not match positive summaries" ;; Ok tt
      | _ => Err "positive port listener summaries require one aggregate finding"
      end
  end.

(** ** Bounded integers *)

(** A float that passes is an integer value in the bounds. *)
Lemma bounded_float_range f lo hi n : bounded_float f lo hi = Some n → lo <= n <= hi.
Proof.
  destruct f as [| |neg m e]; [done..|]. unfold bounded_float.
  destruct (float_lt_int _ _ || _ || _) eqn:E; [done|]. intros [= <-].
  apply orb_false_elim in E as [E Hi%negb_false_iff]. apply orb_false_elim in E as [H1 H2].
  unfold float_lt_int, int_lt_float, float_is_integer, float_to_int in *.
  destruct (magnitude m e) as [a b] eqn:Em. assert (0 < b) as Hb.
  { unfold magnitude in Em. destruct (Z.leb_spec 0 e); injection Em as <- <-; [lia|]. apply Z.pow_pos_nonneg; lia. }
  apply Z.eqb_eq in Hi. apply Z.ltb_ge in H1, H2.
  assert (a = b * (a / b)) as Ha by (pose proof (Z.div_mod a b ltac:(lia)); lia).
  set (q := a / b) in *. rewrite Ha in H1, H2. destruct neg; nia.
Qed.

Lemma boundedPortInteger_range v lo hi n : boundedPortInteger v lo hi = Some n → lo <= n <= hi.
Proof.
  destruct v; cbn [boundedPortInteger]; try done; try apply bounded_float_range.
  - destruct (_ <? _); [done|]. apply bounded_float_range.
  - destruct (number_to_float _); [|done]. apply bounded_float_range.
Qed.

(** Integers are exact in a float below 2^53, so the bounds test is exact. *)
Lemma log2_scale z : 0 < z → 2 ^ 53 <= z * 2 ^ (53 - Z.log2 z) \/ 53 < Z.log2 z.
Proof.
  intros Hz. destruct (Z.le_gt_cases (Z.log2 z) 53) as [H|H]; [left|by right].
  pose proof (Z.log2_spec z Hz) as [Hlo _]. pose proof (Z.log2_nonneg z).
  assert (2 ^ 53 = 2 ^ Z.log2 z * 2 ^ (53 - Z.log2 z)) as -> by (rewrite <- Z.pow_add_r by lia; f_equal; lia).
  apply Z.mul_le_mono_nonneg_r; [|done]. apply Z.pow_nonneg. lia.
Qed.

Lemma div_half_even_1 a : div_half_even a 1 = a.
Proof. unfold div_half_even. by rewrite Z.div_1_r, Z.mod_1_r. Qed.

Lemma int_to_float_shifted z : 0 < z < 2 ^ 53 → ∃ k, 0 <= k ∧ int_to_float z = FFin false (z * 2 ^ k) (- k).
Proof.
  intros [Hz Hlt]. unfold int_to_float, round_float. rewrite (proj2 (Z.ltb_ge z 0)) by lia.
  rewrite Z.abs_eq, (proj2 (Z.eqb_neq z 0)) by lia. change (Z.log2 1) with 0.
  pose proof (Z.log2_nonneg z). assert (Z.log2 z < 53) as Hlog by (apply Z.log2_lt_pow2; lia).
  assert (Z.max (Z.log2 z - 0 - 53) (-1074) = - (53 - Z.log2 z)) as -> by lia.
  set (k := 53 - Z.log2 z). rewrite (proj2 (Z.leb_gt 0 (- k))) by lia. rewrite Z.opp_involutive, Z.div_1_r.
  destruct (log2_scale z Hz) as [Hs|Hs]; [|lia]. fold k in Hs. rewrite (proj2 (Z.leb_le _ _) Hs).
  exists (k - 1). split; [lia|].
  replace (- k + 1) with (- (k - 1)) by lia.
  destruct (Z.leb_spec 0 (- (k - 1))) as [Hk|Hk].
  - assert (k = 1) as -> by lia. change (- (1 - 1)) with 0. change (1 - 1) with 0.
    change (1 * 2 ^ 0) with 1. change (2 ^ 0) with 1. rewrite div_half_even_1, !Z.mul_1_r.
    rewrite (proj2 (Z.leb_gt _ _)) by lia. done.
  - cbn [andb]. by rewrite Z.opp_involutive, div_half_even_1.
Qed.

Lemma boundedPortInteger_int z lo hi : 0 <= lo → hi < 2 ^ 53 → lo <= z <= hi → boundedPortInteger (VInt z) lo hi = Some z.
Proof.
  intros Hlo Hhi Hz. cbn [boundedPortInteger]. destruct (Z.eq_dec z 0) as [->|Hne].
  { change (int_to_float 0) with (FFin false 0 0). unfold bounded_float.
    assert (float_lt_int (FFin false 0 0) lo = false) as -> by (apply Z.ltb_ge; simpl; lia).
    assert (int_lt_float hi (FFin false 0 0) = false) as -> by (apply Z.ltb_ge; simpl; lia). done. }
  destruct (int_to_float_shifted z ltac:(lia)) as (k & Hk & ->). unfold bounded_float, float_lt_int, int_lt_float, float_is_integer, float_to_int.
  assert (magnitude (z * 2 ^ k) (- k) = (z * 2 ^ k, 2 ^ k)) as ->.
  { unfold magnitude. destruct (Z.leb_spec 0 (- k)); [|by rewrite Z.opp_involutive].
    assert (k = 0) as -> by lia. cbn. f_equal. lia. }
  pose proof (Z.pow_pos_nonneg 2 k ltac:(lia) Hk). rewrite !(proj2 (Z.ltb_ge _ _)) by nia.
  rewrite Z.mod_mul, Z.div_mul by lia. done.
Qed.

(** ** What accepted evidence means *)

Definition summaries (l : list ObservationEvent) : list ObservationEvent :=
  List.filter (λ o, oe_Operation o =s "port.listener-trace.summary") l.

(** A summary's outcome: its undeclared count when positive. *)
Definition positive_count (r : bool * Z) : option Z := if r.1 then Some r.2 else None.

Lemma summary_loop_spec required l n pc n' pc' :
  summary_loop required l n pc = Ok (n', pc') →
  ∃ rs, Forall2 (λ o r, validatePortListenerSummary o = Ok r) (summaries l) rs
    ∧ n' = n + Z.of_nat (length (summaries l)) ∧ (summaries l ≠ [] → required = true)
    ∧ (∀ c, (pc = Some c ∨ Some c ∈ (positive_count <$> rs)) → pc' = Some c)
    ∧ (pc' = None → pc = None ∧ Forall (λ r, r.1 = false) rs)
    ∧ (∀ c, pc' = Some c → pc = Some c ∨ Some c ∈ (positive_count <$> rs)).
Proof.
  revert n pc. induction l as [|o l IH]; intros n pc; cbn [summary_loop].
  { intros [= <- <-]. exists []. split_and!; [constructor|simpl; lia|done| | |by left].
    - intros c [?|H]; [done|]. by apply elem_of_nil in H.
    - intros ->. split; [done|constructor]. }
  unfold summaries. cbn [List.filter]. destruct (oe_Operation o =s _); cbn [negb]; [|apply IH].
  fold (summaries l). destruct required; cbn [negb]; [|done].
  intros H. apply bind_Ok in H as ([positive count] & Hv & H). destruct positive.
  - destruct (match pc with Some c => negb (c =? count) | None => false end) eqn:Ec; [done|].
    apply IH in H as (rs & H1 & -> & _ & H4 & H5 & H6). exists ((true, count) :: rs). cbn [length].
    split_and!; [by constructor|lia|done| | |].
    + intros c. rewrite fmap_cons, elem_of_cons. intros [->|[Hc|Hc]]; [|apply H4; by left|apply H4; by right].
      apply H4. left. apply negb_false_iff, Z.eqb_eq in Ec. by subst.
    + intros E. destruct (H5 E) as [? _]. done.
    + intros c E. rewrite fmap_cons, elem_of_cons. destruct (H6 c E) as [Hc|Hc]; right; [left|right]; done.
  - apply IH in H as (rs & H1 & -> & _ & H4 & H5 & H6). exists ((false, count) :: rs). cbn [length].
    split_and!; [by constructor|lia|done| | |].
    + intros c. rewrite fmap_cons, elem_of_cons. intros [->|[Hc|Hc]]; [apply H4; by left|done|apply H4; by right].
    + intros E. destruct (H5 E) as [? ?]. split; [done|by constructor].
    + intros c E. rewrite fmap_cons, elem_of_cons. destruct (H6 c E) as [Hc|Hc]; [by left|right; by right].
Qed.

(** An accepted finding is the exact aggregate one, with a count from 1 to 15. *)
Lemma finding_ok item n : validUndeclaredPortFinding item = Ok n →
  er_Code item = CodeUndeclaredPortListen ∧ er_Message item = undeclared_finding_message
  ∧ er_Severity item = SeverityHigh ∧ er_Cause item = None ∧ 1 <= n <= 15.
Proof.
  unfold validUndeclaredPortFinding. destruct (_ || _) eqn:E; [done|]. to_prop. intros Hok.
  destruct (boundedPortInteger _ 1 15) as [c|] eqn:Ec; [|done]. injection Hok as <-.
  apply boundedPortInteger_range in Ec. split_and!; try done; try lia. by destruct (er_Cause item).
Qed.

Definition static_details : list (string * any) :=
  [("observerPlacement", VStr "peer-container-shared-network-namespace"); ("sharesTargetPIDNamespace", VBool false);
   ("sharesTargetMountNamespace", VBool false); ("sharesTargetIPCNamespace", VBool false);
   ("sharesTargetCgroup", VBool false); ("processAttribution", VStr "unavailable");
   ("lifetimeSemantics", VStr "sample-window-only"); ("kernelEventCoverage", VStr "unavailable");
   ("shortLivedListenerGap", VBool true); ("udpUnavailable", VBool true); ("publicEvidence", VStr "aggregate-only");
   ("evidenceBasis", VStr "aggregate-only"); ("comparisonResult", VStr "nonconforming-listeners");
   ("sampleLimit", VInt 1200); ("intervalMillis", VInt 100); ("maxAllowedGapMillis", VInt 1000);
   ("identityVerified", VBool true); ("namespaceIsolationVerified", VBool true);
   ("workloadQuiescenceVerified", VBool true); ("peerRemoveVerified", VBool true);
   ("canonicalDigestSemantics", VStr "helper-commitment-not-controller-recomputed")].

Definition sample_summary : ObservationEvent :=
  {| oe_SchemaVersion := "1"; oe_Sequence := 1; oe_Timestamp := {| t_ns := 0; t_offset := 0 |};
     oe_Phase := PhaseCleanup; oe_Actor := "trusted-runner"; oe_Operation := "port.listener-trace.summary";
     oe_Resource := "tcp-listeners"; oe_Result := "observed"; oe_Observer := "docker-peer-port-listener-trace";
     oe_Coverage := "best-effort"; oe_Confidence := "high";
     oe_Details := static_details ++
       [("observerAdapter", VStr "node-proc-net-tcp-linux"); ("declaredEndpointCount", VInt 1);
        ("baselineEndpointCount", VInt 0); ("sampledEndpointCount", VInt 3); ("undeclaredEndpointCount", VInt 2);
        ("sampleCount", VInt 40); ("maxSampleGapMillis", VInt 120); ("transitionCount", VInt 4);
        ("canonicalSampleDigest", VStr ("sha256:" +:+ string_concat (repeat "0123456789abcdef" 4)))] |}.

Definition sample_finding : Error :=
  with_details (NewError CodeUndeclaredPortListen SeverityHigh undeclared_finding_message)
    [("observer", VStr "docker-peer-port-listener-trace"); ("evidenceBasis", VStr "aggregate-only");
     ("undeclaredEndpointCount", VFloat (int_to_float 2))].

(** ** Property *)

(** Accepted port evidence is complete and consistent: summaries and findings
    appear only when the plan requires the observer, and then one valid summary
    per completed repeat; a finding is present exactly when some summary is
    positive, it is then the only one, and every positive summary counts the same
    1 to 15 undeclared endpoints as it. *)
Theorem port_evidence_sound required completed observations errs :
  validatePortListenerEvidence required completed observations errs = Ok tt →
  ∃ rs, Forall2 (λ o r, validatePortListenerSummary o = Ok r) (summaries observations) rs
    ∧ (required = true → completed = Z.of_nat (length (summaries observations)))
    ∧ (required = false → summaries observations = [] ∧ port_findings errs = [])
    ∧ match port_findings errs with
      | [] => Forall (λ r, r.1 = false) rs
      | [finding] => ∃ n, validUndeclaredPortFinding finding = Ok n ∧ 1 <= n <= 15
          ∧ Some n ∈ (positive_count <$> rs) ∧ ∀ c, Some c ∈ (positive_count <$> rs) → c = n
      | _ => False
      end.
Proof.
  unfold validatePortListenerEvidence. destruct (completed <? 0); [done|]. intros H.
  apply bind_Ok in H as ([n pc] & Hl & H). apply summary_loop_spec in Hl as (rs & H1 & Hn & Hr & Hp & Hnone & Hsrc).
  rewrite Z.add_0_l in Hn. destruct (required && negb (n =? completed)) eqn:Ec; [done|].
  destruct (negb required && _) eqn:Ef; [done|]. exists rs. split; [done|]. split_and!.
  - intros ->. cbn in Ec. apply negb_false_iff, Z.eqb_eq in Ec. lia.
  - intros ->. split.
    + destruct (summaries observations); [done|]. by specialize (Hr ltac:(done)).
    + cbn [negb andb] in Ef. by destruct (port_findings errs).
  - destruct pc as [c|].
    + destruct (port_findings errs) as [|f [|]]; [done| |done]. apply bind_Ok in H as (m & Hm & H).
      destruct (Z.eqb_spec m c) as [->|]; [|done]. exists c. apply finding_ok in Hm as Hf.
      split_and!; try done; try lia; [by destruct (Hsrc c eq_refl)|]. intros c' Hc'.
      specialize (Hp c' (or_intror Hc')). congruence.
    + destruct (port_findings errs); [|done]. by apply Hnone.
Qed.

Lemma port_evidence_sound_witness :
  ∃ rs, Forall2 (λ o r, validatePortListenerSummary o = Ok r) (summaries [sample_summary]) rs
    ∧ ∃ n, validUndeclaredPortFinding sample_finding = Ok n ∧ 1 <= n <= 15.
Proof.
  destruct (port_evidence_sound true 1 [sample_summary] [Some sample_finding]) as (rs & H1 & _ & _ & H2);
    [vm_compute; reflexivity|].
  exists rs. split; [exact H1|]. destruct H2 as (n & Hn & Hr & _). exists n. split; [exact Hn|exact Hr].
Defined.
