(* ===== verification/Verdicts.v ===== *)
(** * Verdicts (internal/verification)

    The verdict functions of a verification result, the observer coverage they
    depend on, the runner normalization, the baseline policy, the resource
    summary contract, and the aggregation into the overall verdict. *)

From S2P Require Import Prelude Json GoValue Domain.

Local Open Scope Z_scope.

(** ** The overall verdict *)

Definition aggregate (v : Verdicts) : string :=
  if (v_Evidence v =s EvidenceTampered) || (v_Evidence v =s EvidenceUntrustedSigner) then OverallNonconforming
  else if v_Freshness v !=s FreshnessCurrent then OverallStale
  else if v_Functional v =s FunctionalBlocked then OverallBlocked
  else if v_Functional v =s FunctionalInconclusive then OverallInconclusive
  else if v_Functional v =s FunctionalFail then OverallFailed
  else if (v_Capability v =s CapabilityNonconforming) || (v_Cleanup v =s CleanupUndeclaredResidue)
  then OverallNonconforming
  else if (v_Capability v =s CapabilityIncomplete) || (v_Cleanup v =s CleanupNotTested)
          || (v_Reproducibility v =s ReproducibilityFlaky)
          || (v_Reproducibility v =s ReproducibilityNotReproducible)
  then OverallInconclusive
  else if (v_Functional v =s FunctionalPass)
          && ((v_Capability v =s CapabilityConforming) || (v_Capability v =s CapabilityWarning))
          && ((v_Cleanup v =s CleanupClean) || (v_Cleanup v =s CleanupAllowedResidue))
  then
    if (v_Capability v =s CapabilityWarning) || (v_Reproducibility v =s ReproducibilityNotTested)
       || (v_Evidence v =s EvidenceNone) || (v_Evidence v =s EvidenceUnsigned)
       || (v_Evidence v =s EvidenceSelfSigned) || (v_Cleanup v =s CleanupAllowedResidue)
    then OverallVerifiedWithWarnings
    else OverallVerified
  else OverallInconclusive.

(** ** Functional verdict

    The errors are pointers.  [None] is the panic of the last loop over the
    errors, the only one without a nil test. *)

Definition blocking_codes : list string :=
  [CodeRunnerUnavailable; CodeRunnerFeatureUnavailable; CodeSandboxPrepareFailed; CodeMutableBaseImage;
   CodeRuntimeVersionUnresolved].
Definition failing_codes : list string :=
  [CodeJourneyAssertionFailed; CodeSetupFailed; CodeBuildFailed; CodeServiceStartFailed; CodeReadinessFailed].
Definition inconclusive_codes : list string :=
  [CodeTimeout; CodeObserverIncomplete; CodeObservationSchemaInvalid; CodeNondeterministicResult;
   CodeSourceDigestMismatch].

Definition has_code (codes : list string) (errs : list (option Error)) : bool :=
  existsb (λ item, match item with Some e => one_of (er_Code e) codes | None => false end) errs.

(** The loop over the assertions: the first status that decides. *)
Fixpoint assertion_verdict (assertions : list AssertionResult) : option string :=
  match assertions with
  | [] => None
  | a :: rest =>
      if one_of (ar_Status a) ["fail"; "failed"] then Some FunctionalFail
      else if ar_Status a =s "blocked" then Some FunctionalBlocked
      else if ar_Status a =s "inconclusive" then Some FunctionalInconclusive
      else assertion_verdict rest
  end.

(** The loop without a nil test: [None] when it dereferences a nil item. *)
Fixpoint inconclusive_loop (errs : list (option Error)) : option bool :=
  match errs with
  | [] => Some false
  | None :: _ => None
  | Some e :: rest => if one_of (er_Code e) inconclusive_codes then Some true else inconclusive_loop rest
  end.

Definition functionalVerdict (assertions : list AssertionResult) (errs : list (option Error)) (completed : Z)
  : option string :=
  if has_code blocking_codes errs then Some FunctionalBlocked
  else if has_code failing_codes errs then Some FunctionalFail
  else
    match assertion_verdict assertions with
    | Some v => Some v
    | None =>
        match inconclusive_loop errs with
        | None => None
        | Some true => Some FunctionalInconclusive
        | Some false =>
            if (completed =? 0) || (length assertions =? 0)%nat then Some FunctionalInconclusive
            else if existsb (λ a, negb (one_of (ar_Status a) ["pass"; "passed"])) assertions
            then Some FunctionalInconclusive
            else Some FunctionalPass
        end
    end.

(** ** Capability, cleanup and reproducibility *)

Definition violation_codes : list string :=
  [CodeUndeclaredFilesystemWrite; CodeForbiddenFilesystemAccess; CodeUndeclaredNetwork;
   CodeForbiddenNetworkAttempt; CodeUndeclaredPortListen; CodeUndeclaredProcessExec].

Definition capabilityVerdict (errs : list (option Error)) (coverageComplete : bool) : string :=
  if has_code violation_codes errs then CapabilityNonconforming
  else if negb coverageComplete then CapabilityIncomplete
  else CapabilityConforming.

Definition cleanupVerdict (declared : string) (completed : Z) (errs : list (option Error)) : string :=
  if completed =? 0 then CleanupNotTested
  else
    let declared :=
      if one_of declared [CleanupClean; CleanupAllowedResidue; CleanupUndeclaredResidue; CleanupNotTested]
      then declared else CleanupNotTested in
    if (declared =s CleanupUndeclaredResidue) || has_code [CodeCleanupResidue; CodeProcessLeak] errs
    then CleanupUndeclaredResidue
    else if has_code [CodeCleanupFailed; CodeSandboxDestroyFailed] errs then CleanupNotTested
    else declared.

Definition reproducibilityVerdict (requested completed matching threshold : Z) : string :=
  if (requested <=? 1) || (completed =? 0) then ReproducibilityNotTested
  else if negb (completed =? requested) then ReproducibilityNotReproducible
  else if matching =? requested then ReproducibilityStable
  else if matching <? threshold then ReproducibilityNotReproducible
  else ReproducibilityFlaky.

(** ** Coverage and runner features *)

Definition normalizeCoverage (value : string) : string :=
  if one_of value ["full"; "high"; "best-effort"; "enforcement-only"; "unavailable"] then value else "unavailable".
Definition normalizeObservationCoverage (value : string) : string :=
  if one_of value ["full"; "high"; "best-effort"; "unavailable"] then value else "unavailable".

Definition normalizeRunner (value : RunnerFeatures) : RunnerFeatures :=
  {| rf_Backend := if rf_Backend value =s "" then "none" else rf_Backend value;
     rf_Available := rf_Available value;
     rf_ControllerOS := if rf_ControllerOS value =s "" then "unknown" else rf_ControllerOS value;
     rf_WorkloadOS := if rf_WorkloadOS value =s "" then "unknown" else rf_WorkloadOS value;
     rf_Rootless := if rf_Rootless value =s "" then "unknown" else rf_Rootless value;
     rf_NetworkDeny := rf_NetworkDeny value;
     rf_NetworkAttemptObservation := normalizeCoverage (rf_NetworkAttemptObservation value);
     rf_ProcessExecObservation := normalizeObservationCoverage (rf_ProcessExecObservation value);
     rf_FilesystemWriteObservation := normalizeObservationCoverage (rf_FilesystemWriteObservation value);
     rf_FilesystemReadObservation := normalizeObservationCoverage (rf_FilesystemReadObservation value);
     rf_PortObservation := normalizeObservationCoverage (rf_PortObservation value);
     rf_ResourceUsage := normalizeObservationCoverage (rf_ResourceUsage value);
     rf_ResourceLimitEnforcement := rf_ResourceLimitEnforcement value;
     rf_EngineVersion := rf_EngineVersion value; rf_Reason := rf_Reason value |}.

Definition observerRequired (observers : list string) (target : string) : bool := one_of target observers.

Definition coverage_of (runner : RunnerFeatures) (observer : string) : string :=
  if observer =s "network-enforcement" then
    normalizeCoverage (if rf_NetworkDeny runner then "full" else "unavailable")
  else if observer =s "filesystem-write" then normalizeObservationCoverage (rf_FilesystemWriteObservation runner)
  else if observer =s "process-exec" then normalizeObservationCoverage (rf_ProcessExecObservation runner)
  else if observer =s "port-listen" then normalizeObservationCoverage (rf_PortObservation runner)
  else if observer =s "resource-usage" then normalizeObservationCoverage (rf_ResourceUsage runner)
  else "unavailable".

Definition adequate (coverage : string) : bool := (coverage =s "full") || (coverage =s "high").

Definition coverage_reason : string :=
  "Required coverage is unavailable or below the v0.1 acceptance threshold.".

Definition coverage_item (runner : RunnerFeatures) (observer : string) : ObserverCoverage :=
  let coverage := coverage_of runner observer in
  {| oc_Observer := observer; oc_Feature := observer; oc_Coverage := coverage; oc_Required := true;
     oc_Reason := if adequate coverage then "" else coverage_reason |}.

Definition coverageFor (required : list string) (runner : RunnerFeatures) : list ObserverCoverage * bool :=
  (List.map (coverage_item runner) required, forallb (λ o, adequate (coverage_of runner o)) required).

Definition policy_decision (id digest : string) (allow : bool) (yes no : string) : PolicyDecision :=
  {| pd_PolicyID := id; pd_PolicyBundleDigest := digest; pd_Decision := if allow then "allow" else "deny";
     pd_Severity := SeverityHigh; pd_Message := if allow then yes else no; pd_EvidenceRefs := [] |}.

Definition baselinePolicy (policyBundleDigest : string) (runner : RunnerFeatures) (coverageComplete : bool)
  : list PolicyDecision :=
  [policy_decision "core.runtime-network-deny" policyBundleDigest (rf_NetworkDeny runner)
     "Runtime network deny is enforced." "Runtime network deny is not enforced.";
   policy_decision "core.required-observer-coverage" policyBundleDigest coverageComplete
     "Required observer coverage is sufficient." "Required observer coverage is incomplete.";
   policy_decision "core.resource-limit-enforcement" policyBundleDigest (rf_ResourceLimitEnforcement runner)
     "Resource limits are enforced by the runner." "Resource-limit enforcement is not reported as active."].

(** ** Resource summary *)

Definition observable_fields : list string :=
  [ResourceObservedMaxTasks; ResourceObservedOutputBytes; ResourceObservedSandboxCPUTimeMillis;
   ResourceObservedSandboxPeakMemoryBytes; ResourceObservedWritableBytes].
Definition validResourceObservedField (value : string) : bool := one_of value observable_fields.

(** The loop over the observed fields: each known, strictly increasing. *)
Fixpoint observed_loop (fields : list string) (index : Z) (previous : string) : string :=
  match fields with
  | [] => ""
  | field :: rest =>
      if negb (validResourceObservedField field) then "observedFields[" +:+ dec_Z index +:+ "]"
      else if (0 <? index) && negb (key_lt previous field) then "observedFields"
      else observed_loop rest (index + 1) field
  end.

(** The first field of a list of tests that fails, [""] when none does. *)
Fixpoint first_failing (tests : list (string * bool)) : string :=
  match tests with
  | [] => ""
  | (name, bad) :: rest => if bad then name else first_failing rest
  end.

Definition resource_fields (value : ResourceSummary) : list (string * Z) :=
  [(ResourceObservedMaxTasks, r_MaxTasks value); (ResourceObservedOutputBytes, r_OutputBytes value);
   (ResourceObservedSandboxCPUTimeMillis, r_SandboxCPUTimeMillis value);
   (ResourceObservedSandboxPeakMemoryBytes, r_SandboxPeakMemoryBytes value);
   (ResourceObservedWritableBytes, r_WritableBytes value)].

Definition invalidResourceSummaryField (value : ResourceSummary) : string :=
  let negative := first_failing
    [("peakMemoryBytes", r_PeakMemoryBytes value <? 0); ("cpuTimeMillis", r_CPUTimeMillis value <? 0);
     ("durationMillis", r_DurationMillis value <? 0); ("maxProcesses", r_MaxProcesses value <? 0);
     ("logBytes", r_LogBytes value <? 0); ("sandboxPeakMemoryBytes", r_SandboxPeakMemoryBytes value <? 0);
     ("sandboxCPUTimeMillis", r_SandboxCPUTimeMillis value <? 0); ("maxTasks", r_MaxTasks value <? 0);
     ("writableBytes", r_WritableBytes value <? 0); ("outputBytes", r_OutputBytes value <? 0)] in
  if negative !=s "" then negative
  else
    let observed := observed_loop (r_ObservedFields value) 0 "" in
    if observed !=s "" then observed
    else first_failing (List.map (λ p, (p.1, negb (p.2 =? 0) && negb (one_of p.1 (r_ObservedFields value))))
                          (resource_fields value)).

(** ** Facts *)

Lemma normalizeCoverage_idem v : normalizeCoverage (normalizeCoverage v) = normalizeCoverage v.
Proof. unfold normalizeCoverage at 2 3. destruct (one_of v _) eqn:E; [|done]. unfold normalizeCoverage. by rewrite E. Qed.
Lemma normalizeObservationCoverage_idem v :
  normalizeObservationCoverage (normalizeObservationCoverage v) = normalizeObservationCoverage v.
Proof.
  unfold normalizeObservationCoverage at 2 3. destruct (one_of v _) eqn:E; [|done].
  unfold normalizeObservationCoverage. by rewrite E.
Qed.
Lemma default_idem v d : d ≠ "" → (if (if v =s "" then d else v) =s "" then d else (if v =s "" then d else v)) = (if v =s "" then d else v).
Proof. intros Hd%String.eqb_neq. destruct (v =s "") eqn:E; [by rewrite Hd|by rewrite E]. Qed.
Lemma normalizeRunner_idem r : normalizeRunner (normalizeRunner r) = normalizeRunner r.
Proof.
  unfold normalizeRunner. cbn [rf_Backend rf_ControllerOS rf_WorkloadOS rf_Rootless rf_NetworkAttemptObservation
    rf_ProcessExecObservation rf_FilesystemWriteObservation rf_FilesystemReadObservation rf_PortObservation
    rf_ResourceUsage rf_Available rf_NetworkDeny rf_ResourceLimitEnforcement rf_EngineVersion rf_Reason].
  by rewrite !default_idem, normalizeCoverage_idem, !normalizeObservationCoverage_idem.
Qed.

Lemma coverage_features required runner : List.map oc_Feature (coverageFor required runner).1 = required.
Proof. unfold coverageFor. cbn [fst]. rewrite List.map_map. apply List.map_id. Qed.
Lemma coverage_required required runner : Forall (λ c, oc_Required c = true) (coverageFor required runner).1.
Proof. unfold coverageFor. cbn [fst]. apply List.Forall_map, List.Forall_forall. done. Qed.

Lemma inconclusive_loop_some errs : None ∉ errs → inconclusive_loop errs = Some (has_code inconclusive_codes errs).
Proof.
  induction errs as [|[e|] errs IH]; intros H; [done| |by destruct H; left].
  rewrite not_elem_of_cons in H. destruct H as [_ H]. cbn [inconclusive_loop]. unfold has_code. cbn [existsb].
  destruct (one_of _ _); [done|]. by apply IH.
Qed.

(** No null item, no panic. *)
Lemma functionalVerdict_total assertions errs completed :
  None ∉ errs → is_Some (functionalVerdict assertions errs completed).
Proof.
  intros H. unfold functionalVerdict. destruct (has_code blocking_codes errs); [by eexists|].
  destruct (has_code failing_codes errs); [by eexists|].
  destruct (assertion_verdict assertions); [by eexists|]. rewrite inconclusive_loop_some by done.
  destruct (has_code inconclusive_codes errs); [by eexists|].
  destruct (_ || _); [by eexists|]. destruct (existsb _ _); by eexists.
Qed.

Lemma assertion_verdict_pass assertions :
  Forall (λ a, one_of (ar_Status a) ["pass"; "passed"] = true) assertions → assertion_verdict assertions = None.
Proof.
  induction 1 as [|a l Ha _ IH]; [done|]. cbn [assertion_verdict].
  apply one_of_In in Ha. rewrite !elem_of_cons in Ha. destruct Ha as [Ha|[Ha|Ha%elem_of_nil]]; [| |done]; by rewrite Ha.
Qed.

Lemma strings_sorted_spec fields i prev :
  0 <= i →
  observed_loop fields i prev = "" ↔
  Forall (λ f, f ∈ observable_fields) fields
  ∧ (if 0 <? i then keys_sorted (List.map (λ f, (f, tt)) (prev :: fields))
     else keys_sorted (List.map (λ f, (f, tt)) fields)) = true.
Proof.
  intros Hi.
  revert i prev Hi. induction fields as [|f rest IH]; intros i prev Hi.
  { cbn. split; [|done]. intros _. split; [constructor|]. by destruct (0 <? i). }
  cbn [observed_loop]. unfold validResourceObservedField. destruct (one_of f observable_fields) eqn:Ef; cbn [negb].
  - apply one_of_In in Ef. specialize (IH (i + 1) f ltac:(lia)). rewrite (proj2 (Z.ltb_lt 0 (i + 1))) in IH by lia.
    destruct (Z.ltb_spec 0 i) as [Hpos|H0]; cbn [andb].
    + destruct (key_lt prev f) eqn:Ek; cbn [negb].
      * rewrite IH, Forall_cons. cbn [List.map keys_sorted fst]. rewrite Ek. cbn [andb]. tauto.
      * split; [done|]. intros [_ H]. cbn [List.map keys_sorted fst] in H. by rewrite Ek in H.
    + rewrite IH, Forall_cons. tauto.
  - split; [|intros [H _]; apply Forall_cons in H as [H _]; apply one_of_In in H; congruence].
    intros H. exfalso. change ("observedFields[" +:+ dec_Z i +:+ "]") with (String "o" ("bservedFields[" +:+ dec_Z i +:+ "]")) in H. discriminate.
Qed.

Lemma first_failing_none tests :
  Forall (λ t, t.1 ≠ "") tests → first_failing tests = "" ↔ Forall (λ t, t.2 = false) tests.
Proof.
  induction 1 as [|[name bad] tests Hn Hall IH]; [done|]. cbn [first_failing]. rewrite Forall_cons. cbn [snd fst] in *.
  destruct bad; [naive_solver|]. rewrite IH. naive_solver.
Qed.

(** ** Properties *)

Definition all_counters (v : ResourceSummary) : list Z :=
  [r_PeakMemoryBytes v; r_CPUTimeMillis v; r_DurationMillis v; r_MaxProcesses v; r_LogBytes v;
   r_SandboxPeakMemoryBytes v; r_SandboxCPUTimeMillis v; r_MaxTasks v; r_WritableBytes v; r_OutputBytes v].

(** The resource contract: no field is reported exactly when no counter is
    negative, the observed fields are known, distinct and sorted, and every
    nonzero sandbox counter is listed as observed. *)
Theorem resource_summary_exact v :
  invalidResourceSummaryField v = "" ↔
  Forall (λ n, 0 <= n) (all_counters v)
  ∧ Forall (λ f, f ∈ observable_fields) (r_ObservedFields v)
  ∧ keys_sorted (List.map (λ f, (f, tt)) (r_ObservedFields v)) = true
  ∧ Forall (λ p, p.2 <> 0 → p.1 ∈ r_ObservedFields v) (resource_fields v).
Proof.
  unfold invalidResourceSummaryField.
  set (negatives := [("peakMemoryBytes", r_PeakMemoryBytes v <? 0); ("cpuTimeMillis", r_CPUTimeMillis v <? 0);
     ("durationMillis", r_DurationMillis v <? 0); ("maxProcesses", r_MaxProcesses v <? 0);
     ("logBytes", r_LogBytes v <? 0); ("sandboxPeakMemoryBytes", r_SandboxPeakMemoryBytes v <? 0);
     ("sandboxCPUTimeMillis", r_SandboxCPUTimeMillis v <? 0); ("maxTasks", r_MaxTasks v <? 0);
     ("writableBytes", r_WritableBytes v <? 0); ("outputBytes", r_OutputBytes v <? 0)]).
  assert (first_failing negatives = "" ↔ Forall (λ n, 0 <= n) (all_counters v)) as Hneg.
  { rewrite first_failing_none by (repeat constructor; done). unfold negatives, all_counters.
    rewrite !Forall_cons. cbn [snd]. rewrite !Z.ltb_ge, !Forall_nil. done. }
  pose proof (strings_sorted_spec (r_ObservedFields v) 0 "" ltac:(lia)) as Hobs. change (0 <? 0) with false in Hobs. cbv iota in Hobs.
  destruct (String.eqb_spec (first_failing negatives) "") as [E|E]; cbn [negb]; [|tauto].
  destruct (String.eqb_spec (observed_loop (r_ObservedFields v) 0 "") "") as [E2|E2]; cbn [negb].
  2:{ tauto. }
  rewrite first_failing_none by (repeat constructor; done). rewrite List.Forall_map. cbn [fst snd].
  assert (∀ p : string * Z, (negb (p.2 =? 0) && negb (one_of p.1 (r_ObservedFields v))) = false
    ↔ (p.2 <> 0 → p.1 ∈ r_ObservedFields v)) as Hp.
  { intros p. rewrite <- one_of_In. destruct (Z.eqb_spec p.2 0), (one_of p.1 _); cbn; naive_solver. }
  assert (Forall (λ p, (negb (p.2 =? 0) && negb (one_of p.1 (r_ObservedFields v))) = false) (resource_fields v)
    ↔ Forall (λ p, p.2 <> 0 → p.1 ∈ r_ObservedFields v) (resource_fields v)) as ->.
  { split; intros H; (eapply Forall_impl; [exact H|]); intros p; apply Hp. }
  tauto.
Qed.

(** Walk down the early returns of [aggregate] to the one with the verdict. *)
Ltac walk H :=
  repeat match type of H with
  | (if ?b then _ else _) = _ => destruct b eqn:?; try discriminate H
  end.

Lemma orb_eqb_elem (s a b : string) : (s =s a) || (s =s b) = true → s ∈ [a; b].
Proof. intros [->%String.eqb_eq | ->%String.eqb_eq]%orb_prop; [left|right; left]. Qed.

Lemma aggregate_warnings v : aggregate v = OverallVerifiedWithWarnings →
  v_Functional v = FunctionalPass ∧ v_Capability v ∈ [CapabilityConforming; CapabilityWarning]
  ∧ v_Cleanup v ∈ [CleanupClean; CleanupAllowedResidue] ∧ v_Freshness v = FreshnessCurrent
  ∧ (v_Reproducibility v ∉ [ReproducibilityFlaky; ReproducibilityNotReproducible])
  ∧ (v_Evidence v ∉ [EvidenceTampered; EvidenceUntrustedSigner]).
Proof.
  unfold aggregate. intros H. walk H. to_prop. rewrite !not_elem_of_cons.
  split_and!; try done; try (by apply orb_eqb_elem); by apply not_elem_of_nil.
Qed.

Lemma aggregate_verified v : aggregate v = OverallVerified →
  v_Functional v = FunctionalPass ∧ v_Capability v = CapabilityConforming ∧ v_Cleanup v = CleanupClean
  ∧ v_Freshness v = FreshnessCurrent
  ∧ (v_Reproducibility v ∉ [ReproducibilityFlaky; ReproducibilityNotReproducible; ReproducibilityNotTested])
  ∧ (v_Evidence v ∉ [EvidenceTampered; EvidenceUntrustedSigner; EvidenceNone; EvidenceUnsigned; EvidenceSelfSigned]).
Proof.
  unfold aggregate. intros H. walk H. to_prop. rewrite !not_elem_of_cons.
  repeat match goal with E : (_ || _) = true |- _ => apply orb_prop in E; destruct E end; to_prop; try done.
  split_and!; try done; by apply not_elem_of_nil.
Qed.

(** The conditions the rules of [aggregate] test, as statements about the
    component verdicts. *)
Definition evidence_rejected (v : Verdicts) : Prop := v_Evidence v ∈ [EvidenceTampered; EvidenceUntrustedSigner].
(** Nothing that is decided before the functional verdict applies. *)
Definition evidence_current (v : Verdicts) : Prop :=
  ¬ evidence_rejected v ∧ v_Freshness v = FreshnessCurrent.
(** The functional verdict does not decide alone. *)
Definition function_open (v : Verdicts) : Prop :=
  evidence_current v ∧ v_Functional v ∉ [FunctionalBlocked; FunctionalInconclusive; FunctionalFail].
Definition contract_violated (v : Verdicts) : Prop :=
  v_Capability v = CapabilityNonconforming ∨ v_Cleanup v = CleanupUndeclaredResidue.
(** Every component supports a verified result. *)
Definition components_pass (v : Verdicts) : Prop :=
  v_Functional v = FunctionalPass ∧ v_Capability v ∈ [CapabilityConforming; CapabilityWarning]
  ∧ v_Cleanup v ∈ [CleanupClean; CleanupAllowedResidue]
  ∧ v_Reproducibility v ∉ [ReproducibilityFlaky; ReproducibilityNotReproducible].
(** Some component supports it only with a reservation. *)
Definition component_weak (v : Verdicts) : Prop :=
  v_Capability v = CapabilityWarning ∨ v_Reproducibility v = ReproducibilityNotTested
  ∨ v_Evidence v ∈ [EvidenceNone; EvidenceUnsigned; EvidenceSelfSigned] ∨ v_Cleanup v = CleanupAllowedResidue.

Ltac unfold_verdicts :=
  unfold OverallVerified, OverallVerifiedWithWarnings, OverallNonconforming, OverallStale, OverallBlocked,
    OverallFailed, OverallInconclusive, FunctionalPass, FunctionalFail, FunctionalBlocked, FunctionalInconclusive,
    CapabilityConforming, CapabilityWarning, CapabilityNonconforming, CapabilityIncomplete, CleanupClean,
    CleanupAllowedResidue, CleanupUndeclaredResidue, CleanupNotTested, ReproducibilityFlaky,
    ReproducibilityNotReproducible, ReproducibilityNotTested, EvidenceTampered, EvidenceUntrustedSigner,
    EvidenceNone, EvidenceUnsigned, EvidenceSelfSigned, FreshnessCurrent.

(** Case analysis along the early returns of [aggregate]; every test becomes a
    proposition, and a leaf is decided from those of its path. *)
Ltac decide_aggregate :=
  unfold aggregate, components_pass, component_weak, contract_violated, function_open, evidence_current,
    evidence_rejected;
  rewrite ?not_elem_of_cons, ?elem_of_cons, ?elem_of_nil;
  unfold_verdicts; repeat case_match; to_prop;
  rewrite ?orb_true_iff, ?andb_false_iff, ?orb_false_iff, ?String.eqb_eq, ?String.eqb_neq in *;
  split; try discriminate; intuition congruence.

(** C5: Which component verdicts give which overall verdict, exactly.  Rejected evidence
    is nonconforming whatever else holds; otherwise evidence that is not current is
    stale; otherwise a blocked, failed or inconclusive function decides; otherwise a
    violated contract is nonconforming; otherwise the result is verified when every
    component passes and none is weak, verified with warnings when one is weak, and
    inconclusive when some component does not pass.  No other value is returned. *)
Theorem aggregate_exact v :
  (aggregate v = OverallVerified ↔ evidence_current v ∧ components_pass v ∧ ¬ component_weak v)
  ∧ (aggregate v = OverallVerifiedWithWarnings ↔ evidence_current v ∧ components_pass v ∧ component_weak v)
  ∧ (aggregate v = OverallNonconforming ↔ evidence_rejected v ∨ function_open v ∧ contract_violated v)
  ∧ (aggregate v = OverallStale ↔ ¬ evidence_rejected v ∧ v_Freshness v ≠ FreshnessCurrent)
  ∧ (aggregate v = OverallBlocked ↔ evidence_current v ∧ v_Functional v = FunctionalBlocked)
  ∧ (aggregate v = OverallFailed ↔ evidence_current v ∧ v_Functional v = FunctionalFail)
  ∧ (aggregate v = OverallInconclusive ↔
       evidence_current v ∧ v_Functional v = FunctionalInconclusive
       ∨ function_open v ∧ ¬ contract_violated v ∧ ¬ components_pass v)
  ∧ aggregate v ∈ [OverallVerified; OverallVerifiedWithWarnings; OverallNonconforming; OverallStale; OverallBlocked;
                   OverallFailed; OverallInconclusive].
Proof.
  do 7 (split; [decide_aggregate|]).
  unfold aggregate. repeat case_match; rewrite !elem_of_cons; tauto.
Qed.

Lemma pass_status_verdict assertions :
  existsb (λ a, negb (one_of (ar_Status a) ["pass"; "passed"])) assertions = false ↔
  Forall (λ a, ar_Status a ∈ ["pass"; "passed"]) assertions.
Proof.
  induction assertions as [|a l IH]; [done|]. cbn [existsb]. rewrite orb_false_iff, IH, Forall_cons, negb_false_iff, one_of_In.
  done.
Qed.

Lemma has_code_app l1 l2 errs : has_code (l1 ++ l2) errs = has_code l1 errs || has_code l2 errs.
Proof.
  unfold has_code. induction errs as [|[e|] errs IH]; cbn [existsb]; [done| |by rewrite !orb_false_l].
  rewrite IH. unfold one_of. rewrite existsb_app, <- !orb_assoc. f_equal. rewrite !orb_assoc. f_equal. apply orb_comm.
Qed.

Lemma assertion_verdict_not_pass assertions : assertion_verdict assertions ≠ Some FunctionalPass.
Proof. induction assertions as [|a l IH]; [done|]. cbn [assertion_verdict]. by repeat case_match. Qed.

Lemma functional_pass_spec assertions errs completed :
  None ∉ errs →
  functionalVerdict assertions errs completed = Some FunctionalPass ↔
     completed <> 0 ∧ assertions ≠ [] ∧ Forall (λ a, ar_Status a ∈ ["pass"; "passed"]) assertions
     ∧ has_code (blocking_codes ++ failing_codes ++ inconclusive_codes) errs = false.
Proof.
  intros Hnil. rewrite !has_code_app, !orb_false_iff.
  unfold functionalVerdict. rewrite inconclusive_loop_some by done.
  destruct (has_code blocking_codes errs); [naive_solver|]. destruct (has_code failing_codes errs); [naive_solver|].
  destruct (assertion_verdict assertions) as [w|] eqn:Ea.
  - split; [intros [= ->]; by destruct (assertion_verdict_not_pass assertions)|].
    intros (_ & _ & Hp & _). rewrite assertion_verdict_pass in Ea; [done|].
    eapply Forall_impl; [exact Hp|]. intros a. by rewrite one_of_In.
  - destruct (has_code inconclusive_codes errs); [naive_solver|].
    destruct (Z.eqb_spec completed 0) as [->|Hc]; [naive_solver|]. destruct assertions as [|a l]; [naive_solver|].
    cbn [length Nat.eqb orb]. destruct (existsb _ _) eqn:Ee.
    + split; [done|]. intros (_ & _ & Hp & _). apply pass_status_verdict in Hp. congruence.
    + apply pass_status_verdict in Ee. naive_solver.
Qed.

(** A functional pass means what it says: without a null finding the verdict is
    "pass" exactly when some repeat completed, there are assertions and all of them
    passed, and no finding is blocking, failing or inconclusive; a blocking finding
    always gives "blocked", and without null findings the function never panics. *)
Theorem functional_pass_exact assertions errs completed :
  None ∉ errs →
  (functionalVerdict assertions errs completed = Some FunctionalPass ↔
     completed <> 0 ∧ assertions ≠ [] ∧ Forall (λ a, ar_Status a ∈ ["pass"; "passed"]) assertions
     ∧ has_code (blocking_codes ++ failing_codes ++ inconclusive_codes) errs = false)
  ∧ (has_code blocking_codes errs = true → functionalVerdict assertions errs completed = Some FunctionalBlocked)
  ∧ is_Some (functionalVerdict assertions errs completed).
Proof.
  intros Hnil. split_and!; [by apply functional_pass_spec| |by apply functionalVerdict_total].
  intros H. unfold functionalVerdict. by rewrite H.
Qed.

Lemma functional_pass_exact_witness :
  is_Some (functionalVerdict [] [] 0) ∧ (has_code blocking_codes [] = true → functionalVerdict [] [] 0 = Some FunctionalBlocked).
Proof.
  destruct (functional_pass_exact [] [] 0) as (_ & H1 & H2); [by intros H; inversion H|]. split; [exact H2|exact H1].
Defined.

(** The other component verdicts: capabilities conform exactly without a violation
    finding and with complete coverage; cleanup is clean exactly when a repeat
    completed, the declared verdict is clean and no residue, leak or cleanup
    failure was found; a run is stable exactly when several repeats were
    requested, all completed and all match. *)
Theorem component_verdicts_exact errs complete declared completed requested matching threshold :
  (capabilityVerdict errs complete = CapabilityConforming ↔ has_code violation_codes errs = false ∧ complete = true)
  ∧ (cleanupVerdict declared completed errs = CleanupClean ↔
       completed <> 0 ∧ declared = CleanupClean
       ∧ has_code [CodeCleanupResidue; CodeProcessLeak; CodeCleanupFailed; CodeSandboxDestroyFailed] errs = false)
  ∧ (reproducibilityVerdict requested completed matching threshold = ReproducibilityStable ↔
       1 < requested ∧ completed = requested ∧ matching = requested).
Proof.
  split_and!.
  - unfold capabilityVerdict. destruct (has_code _ _), complete; naive_solver.
  - assert (has_code [CodeCleanupResidue; CodeProcessLeak; CodeCleanupFailed; CodeSandboxDestroyFailed] errs = false ↔
      has_code [CodeCleanupResidue; CodeProcessLeak] errs = false
      ∧ has_code [CodeCleanupFailed; CodeSandboxDestroyFailed] errs = false) as ->.
    { unfold has_code. induction errs as [|[e|] errs IH]; cbn [existsb]; [done| |by rewrite !orb_false_l].
      rewrite !orb_false_iff, IH. unfold one_of. cbn [existsb]. rewrite !orb_false_iff. tauto. }
    unfold cleanupVerdict. destruct (Z.eqb_spec completed 0) as [->|Hc]; [naive_solver|].
    destruct (String.eqb_spec declared CleanupClean) as [->|Hd].
    + change (one_of CleanupClean _) with true. cbv iota.
      change (CleanupClean =s CleanupUndeclaredResidue) with false. cbn [orb].
      destruct (has_code [CodeCleanupResidue; _] _); [naive_solver|]. destruct (has_code _ _); naive_solver.
    + split; [|naive_solver]. destruct (one_of declared _); cbv beta iota zeta.
      * destruct (_ || _); [done|]. by destruct (has_code _ _).
      * change (CleanupNotTested =s CleanupUndeclaredResidue) with false. cbn [orb].
        destruct (has_code [CodeCleanupResidue; _] _); [done|]. by destruct (has_code _ _).
  - unfold reproducibilityVerdict. destruct (Z.leb_spec requested 1); cbn [orb]; [naive_solver lia|].
    destruct (Z.eqb_spec completed 0) as [->|]; [naive_solver lia|].
    destruct (Z.eqb_spec completed requested) as [->|]; cbn [negb]; [|naive_solver].
    destruct (Z.eqb_spec matching requested); [naive_solver|]. destruct (_ <? _); naive_solver.
Qed.

(** What the weaker successes of [aggregate] say of each component. *)
Lemma complete_coverage features runner :
  (coverageFor features runner).2 = true ↔ Forall (λ o, adequate (coverage_of runner o) = true) features.
Proof. unfold coverageFor. cbn [snd]. rewrite forallb_forall, List.Forall_forall. done. Qed.

Lemma capability_success errs complete :
  capabilityVerdict errs complete ∈ [CapabilityConforming; CapabilityWarning] →
  has_code violation_codes errs = false ∧ complete = true.
Proof.
  rewrite <- one_of_In. unfold capabilityVerdict. by destruct (has_code _ _), complete.
Qed.

Lemma cleanup_success observed completed errs :
  cleanupVerdict observed completed errs ∈ [CleanupClean; CleanupAllowedResidue] →
  observed ∈ [CleanupClean; CleanupAllowedResidue].
Proof.
  rewrite <- !one_of_In. unfold cleanupVerdict. destruct (completed =? 0); [done|].
  destruct (one_of observed _) eqn:E; cbv zeta iota.
  - destruct (_ || _); [done|]. by destruct (has_code _ _).
  - destruct (_ || _); [done|]. by destruct (has_code _ _).
Qed.

Lemma reproducibility_success requested completed matching threshold :
  completed <> 0 →
  (reproducibilityVerdict requested completed matching threshold ∉ [ReproducibilityFlaky; ReproducibilityNotReproducible]) →
  requested <= 1 ∨ completed = requested ∧ matching = requested.
Proof.
  intros Hc. rewrite <- one_of_In. unfold reproducibilityVerdict.
  destruct (Z.leb_spec requested 1); [by left|]. rewrite (proj2 (Z.eqb_neq _ _) Hc). cbn [orb].
  destruct (Z.eqb_spec completed requested) as [->|]; cbn [negb]; [|by intros []].
  destruct (Z.eqb_spec matching requested); [by right|]. destruct (_ <? _); by intros [].
Qed.
