(* ===== verification/Verification.v ===== *)
(** * Building and checking the verification result (internal/verification)

    [Build] turns the evidence of a run into the authoritative result with its
    verdicts and digests; [VerifyIntegrity] recomputes all of it from a stored
    result.  The round trip between them, what an accepted result guarantees,
    and why it cannot be altered without changing its digest. *)

From S2P Require Import Prelude Sha256 Json GoValue CanonicalJson Domain CleanupEvidence PortEvidence Verdicts.

Local Open Scope Z_scope.

Record Input := {
  in_RunID : string; in_VerificationID : string; in_Plan : ResolvedPlan; in_Runner : RunnerFeatures;
  in_StartedAt : Time; in_CompletedAt : Time; in_Observations : slice ObservationEvent;
  in_Assertions : slice AssertionResult; in_Errors : list (option Error); in_Requested : Z;
  in_Completed : Z; in_Matching : Z; in_SuccessThreshold : Z; in_Cleanup : string;
  in_Resources : ResourceSummary
}.

(** What [Build] reads from the world: the two random draws ([None] when
    [rand.Read] fails) with the formatted time that then replaces them, and the
    clock for the two times. *)
Record Env := {
  env_run_random : option (list N); env_run_stamp : string;
  env_verification_random : option (list N); env_verification_stamp : string;
  env_started : Time; env_completed : Time
}.

(** An error is a [*domain.Error] or a plain one. *)
Inductive error := DomainError (e : Error) | PlainError (text : string).

Definition newOpaqueID (prefix : string) (random : option (list N)) (stamp : string) : string :=
  prefix +:+ "_" +:+ match random with Some bytes => hex_encode bytes | None => stamp end.

(** The index of the first null finding, or -1. *)
Fixpoint nil_index (index : Z) (values : list (option Error)) : Z :=
  match values with
  | [] => -1
  | None :: _ => index
  | Some _ :: rest => nil_index (index + 1) rest
  end.
Definition nilErrorIndex (values : list (option Error)) : Z := nil_index 0 values.

Definition nonNilObservations (values : slice ObservationEvent) : slice ObservationEvent := Some (elems values).

Definition normalize_assertion (index : Z) (a : AssertionResult) : AssertionResult :=
  {| ar_SchemaVersion := if ar_SchemaVersion a =s "" then "1" else ar_SchemaVersion a;
     ar_ID := if ar_ID a =s "" then "assertion-" +:+ dec_Z (index + 1) else ar_ID a;
     ar_Type := ar_Type a; ar_Required := true; ar_Expected := ar_Expected a; ar_Actual := ar_Actual a;
     ar_Status := if ar_Status a =s "pass" then "passed" else if ar_Status a =s "fail" then "failed" else ar_Status a;
     ar_EvidenceRefs := match ar_EvidenceRefs a with None => Some [] | Some l => Some l end;
     ar_Message := ar_Message a; ar_Repeat := ar_Repeat a; ar_DurationMillis := ar_DurationMillis a |}.

Fixpoint normalize_assertions (index : Z) (l : list AssertionResult) : list AssertionResult :=
  match l with
  | [] => []
  | a :: rest => normalize_assertion index a :: normalize_assertions (index + 1) rest
  end.

(** [nonNilAssertions] rewrites the caller's slice in place; the model returns
    the slice it leaves. *)
Definition nonNilAssertions (values : slice AssertionResult) : slice AssertionResult :=
  Some (normalize_assertions 0 (elems values)).

Definition or_default (s d : string) : string := if s =s "" then d else s.
Definition time_or (t d : Time) : Time := if IsZero t then d else t.

(** The defaults [Build] puts in its copy of the input. *)
Definition normalize_input (env : Env) (i : Input) : Input :=
  let requested := if in_Requested i <=? 0 then 1 else in_Requested i in
  let threshold :=
    if (in_SuccessThreshold i <=? 0) || (requested <? in_SuccessThreshold i) then requested
    else in_SuccessThreshold i in
  let p := in_Plan i in
  let repeatCount := if rp_RepeatCount p <=? 0 then requested else rp_RepeatCount p in
  let planThreshold :=
    if (rp_SuccessThreshold p <=? 0) || (repeatCount <? rp_SuccessThreshold p) then threshold
    else rp_SuccessThreshold p in
  {| in_RunID := or_default (in_RunID i) (newOpaqueID "run" (env_run_random env) (env_run_stamp env));
     in_VerificationID := or_default (in_VerificationID i)
       (newOpaqueID "vrf" (env_verification_random env) (env_verification_stamp env));
     in_Plan := {| rp_SchemaVersion := rp_SchemaVersion p; rp_Source := rp_Source p; rp_Scenario := rp_Scenario p;
                   rp_Environment := rp_Environment p; rp_Evidence := rp_Evidence p;
                   rp_ObserverSet := rp_ObserverSet p; rp_RepeatCount := repeatCount;
                   rp_SuccessThreshold := planThreshold; rp_PolicyBundleDigest := rp_PolicyBundleDigest p;
                   rp_PlanDigest := rp_PlanDigest p |};
     in_Runner := normalizeRunner (in_Runner i);
     in_StartedAt := time_or (in_StartedAt i) (env_started env);
     in_CompletedAt := time_or (in_CompletedAt i) (env_completed env);
     in_Observations := in_Observations i; in_Assertions := in_Assertions i; in_Errors := in_Errors i;
     in_Requested := requested; in_Completed := in_Completed i; in_Matching := in_Matching i;
     in_SuccessThreshold := threshold; in_Cleanup := in_Cleanup i; in_Resources := in_Resources i |}.

Definition schema_error (message : string) (details : list (string * any)) : error :=
  DomainError (with_details (NewError CodeObservationSchemaInvalid SeverityHigh message) details).
Definition schema_wrap (message cause : string) : error :=
  DomainError (WrapError CodeObservationSchemaInvalid SeverityHigh message cause).

Definition plain {A} (r : result string A) : result error A := map_err PlainError r.

(** [verificationDigest]: the document without [digests.verification]. *)
Definition semantic_document (d : json) : json :=
  match d with
  | JObj l =>
      match assoc "digests" l with
      | Some (JObj digests) => JObj (assoc_set "digests" (JObj (assoc_delete "verification" digests)) l)
      | _ => JObj l
      end
  | d => d
  end.
Definition verificationDigest (r : VerificationResult) : result string string :=
  let! d := VerificationResult_json r in Digest (Ok (semantic_document d)).

Definition set_digests (r : VerificationResult) (d : VerificationDigests) : VerificationResult :=
  {| vr_SchemaVersion := vr_SchemaVersion r; vr_VerificationID := vr_VerificationID r; vr_RunID := vr_RunID r;
     vr_StartedAt := vr_StartedAt r; vr_CompletedAt := vr_CompletedAt r; vr_Subject := vr_Subject r;
     vr_Plan := vr_Plan r; vr_Runner := vr_Runner r; vr_Results := vr_Results r;
     vr_ObserverCoverage := vr_ObserverCoverage r; vr_Observations := vr_Observations r;
     vr_Assertions := vr_Assertions r; vr_PolicyDecisions := vr_PolicyDecisions r; vr_Errors := vr_Errors r;
     vr_Repeats := vr_Repeats r; vr_Resources := vr_Resources r; vr_Digests := d |}.

Definition set_duration (r : ResourceSummary) (millis : Z) : ResourceSummary :=
  {| r_PeakMemoryBytes := r_PeakMemoryBytes r; r_CPUTimeMillis := r_CPUTimeMillis r; r_DurationMillis := millis;
     r_MaxProcesses := r_MaxProcesses r; r_LogBytes := r_LogBytes r;
     r_SandboxPeakMemoryBytes := r_SandboxPeakMemoryBytes r; r_SandboxCPUTimeMillis := r_SandboxCPUTimeMillis r;
     r_MaxTasks := r_MaxTasks r; r_WritableBytes := r_WritableBytes r; r_OutputBytes := r_OutputBytes r;
     r_ObservedFields := r_ObservedFields r |}.

Definition with_overall (functional capability reproducibility cleanup : string) : Verdicts :=
  let v := {| v_Functional := functional; v_Capability := capability; v_Reproducibility := reproducibility;
              v_Cleanup := cleanup; v_Evidence := EvidenceUnsigned; v_Freshness := FreshnessCurrent;
              v_Overall := "" |} in
  {| v_Functional := functional; v_Capability := capability; v_Reproducibility := reproducibility;
     v_Cleanup := cleanup; v_Evidence := EvidenceUnsigned; v_Freshness := FreshnessCurrent;
     v_Overall := aggregate v |}.

(** The result before its digests, from the normalized input. *)
Definition assemble (i : Input) (verdicts : Verdicts) (coverage : list ObserverCoverage) (policy : list PolicyDecision)
  : VerificationResult :=
  let p := in_Plan i in
  {| vr_SchemaVersion := "1"; vr_VerificationID := in_VerificationID i; vr_RunID := in_RunID i;
     vr_StartedAt := UTC (in_StartedAt i); vr_CompletedAt := UTC (in_CompletedAt i); vr_Subject := rp_Source p;
     vr_Plan := {| vp_Scenario := rp_Scenario p; vp_Environment := rp_Environment p;
                   vp_PlanDigest := rp_PlanDigest p; vp_PolicyBundleDigest := rp_PolicyBundleDigest p;
                   vp_RepeatCount := rp_RepeatCount p; vp_SuccessThreshold := rp_SuccessThreshold p;
                   vp_ResolvedPlanSchemaVersion := rp_SchemaVersion p;
                   vp_Evidence := {| pe_Profile := pe_Profile (rp_Evidence p);
                                     pe_Include := Some (elems (pe_Include (rp_Evidence p)));
                                     pe_Exclude := Some (elems (pe_Exclude (rp_Evidence p))) |} |};
     vr_Runner := in_Runner i; vr_Results := verdicts; vr_ObserverCoverage := Some coverage;
     vr_Observations := nonNilObservations (in_Observations i);
     vr_Assertions := nonNilAssertions (in_Assertions i); vr_PolicyDecisions := Some policy;
     vr_Errors := in_Errors i;
     vr_Repeats := {| rs_Requested := in_Requested i; rs_Completed := in_Completed i; rs_Matching := in_Matching i |};
     vr_Resources :=
       if r_DurationMillis (in_Resources i) =? 0
       then set_duration (in_Resources i) (sub_millis (in_CompletedAt i) (in_StartedAt i))
       else in_Resources i;
     vr_Digests := {| vd_Observations := ""; vd_Assertions := ""; vd_PolicyDecisions := ""; vd_Verification := "" |} |}.

(** The digests of the assembled result. *)
Definition seal (r : VerificationResult) : result error VerificationResult :=
  let! observations := plain (Digest (slice_doc ObservationEvent_json (vr_Observations r))) in
  let! assertions := plain (Digest (slice_doc AssertionResult_json (vr_Assertions r))) in
  let! policyDecisions := plain (Digest (slice_doc PolicyDecision_json (vr_PolicyDecisions r))) in
  let partial := {| vd_Observations := observations; vd_Assertions := assertions;
                    vd_PolicyDecisions := policyDecisions; vd_Verification := "" |} in
  let! verification := plain (verificationDigest (set_digests r partial)) in
  Ok (set_digests r {| vd_Observations := observations; vd_Assertions := assertions;
                       vd_PolicyDecisions := policyDecisions; vd_Verification := verification |}).

(** [Build]; the outer option is the panic of [functionalVerdict], which the
    test for null findings before it excludes ([build_never_panics]). *)
Definition Build (env : Env) (input : Input) : option (result error VerificationResult) :=
  let i := normalize_input env input in
  let p := in_Plan i in
  let index := nilErrorIndex (in_Errors i) in
  if 0 <=? index then
    Some (Err (schema_error "Verification findings contain a null item." [("index", VInt index)]))
  else
    let '(coverage, coverageComplete) := coverageFor (rp_ObserverSet p) (in_Runner i) in
    match functionalVerdict (elems (in_Assertions i)) (in_Errors i) (in_Completed i) with
    | None => None
    | Some functional => Some (
        let capability := capabilityVerdict (in_Errors i) coverageComplete in
        let! observedCleanup :=
          map_err (schema_wrap "Cleanup observations do not satisfy the authoritative evidence contract.")
            (cleanupVerdictFromObservations (elems (in_Observations i)) (in_Completed i)) in
        let cleanup := cleanupVerdict observedCleanup (in_Completed i) (in_Errors i) in
        fail_if (in_Cleanup i !=s cleanup)
          with (schema_error "Caller cleanup verdict does not match cleanup observations and findings."
                  [("caller", VNamed (in_Cleanup i)); ("observed", VNamed cleanup)]) ;;
        let! _ :=
          map_err (schema_wrap "Peer TCP listener evidence does not satisfy the authoritative public contract.")
            (validatePortListenerEvidence (observerRequired (rp_ObserverSet p) "port-listen") (in_Completed i)
               (elems (in_Observations i)) (in_Errors i)) in
        let reproducibility :=
          reproducibilityVerdict (in_Requested i) (in_Completed i) (in_Matching i) (in_SuccessThreshold i) in
        let policy := baselinePolicy (rp_PolicyBundleDigest p) (in_Runner i) coverageComplete in
        let r := assemble i (with_overall functional capability reproducibility cleanup) coverage policy in
        let field := invalidResourceSummaryField (vr_Resources r) in
        fail_if (field !=s "")
          with (schema_error "Resource usage evidence does not match the bounded contract." [("field", VStr field)]) ;;
        seal r)
    end.

(** ** [VerifyIntegrity] *)

Definition sameStrings (left right : list string) : bool := bool_decide (left = right).

Definition validVerificationEvidence (value : PlanEvidence) : bool :=
  (pe_Profile value =s "minimal-public")
  && sameStrings (elems (pe_Exclude value)) ["raw-stderr"; "raw-stdout"; "raw-syscall-trace"]
  && (sameStrings (elems (pe_Include value)) ["normalized-observations"; "verification-summary"]
      || sameStrings (elems (pe_Include value)) ["normalized-observations"; "sbom"; "verification-summary"]).

Definition integrityError (message : string) (details : list (string * any)) : Error :=
  with_details (NewError CodeEvidenceDigestMismatch SeverityCritical message) details.

Definition verdicts_value (v : Verdicts) : any :=
  VMap [("functional", VNamed (v_Functional v)); ("capability", VNamed (v_Capability v));
        ("reproducibility", VNamed (v_Reproducibility v)); ("cleanup", VNamed (v_Cleanup v));
        ("evidence", VNamed (v_Evidence v)); ("freshness", VNamed (v_Freshness v)); ("overall", VNamed (v_Overall v))].

(** One component digest: recomputed and compared. *)
Definition check_digest (name : string) (d : doc) (expected : string) : result Error unit :=
  match Digest d with
  | Err _ => Err (integrityError "Verification component digest could not be recomputed." [("component", VStr name)])
  | Ok actual =>
      fail_if (actual !=s expected)
        with (integrityError "Verification component digest does not match its content."
                [("component", VStr name); ("expected", VStr expected); ("actual", VStr actual)]) ;;
      Ok tt
  end.

(** Two documents have the same digest; [unavailable] when the expected one has
    none, [different] otherwise. *)
Definition check_same_digest (expected actual : doc) (unavailable different : string) : result Error unit :=
  match Digest expected with
  | Err _ => Err (integrityError unavailable [])
  | Ok e =>
      match Digest actual with
      | Ok a => fail_if (a !=s e) with (integrityError different []) ;; Ok tt
      | Err _ => Err (integrityError different [])
      end
  end.

Definition check_identity (r : VerificationResult) : result Error unit :=
  fail_if ((vr_SchemaVersion r !=s "1") || (vr_RunID r =s "") || (vr_VerificationID r =s "")
           || IsZero (vr_StartedAt r) || Before (vr_CompletedAt r) (vr_StartedAt r))
    with (integrityError "Verification artifact identity or timestamps are invalid." []) ;;
  fail_if (v_Evidence (vr_Results r) !=s EvidenceUnsigned)
    with (integrityError "Signed or alternate evidence states are unsupported until signature trust verification is implemented."
            [("evidence", VNamed (v_Evidence (vr_Results r)))]) ;;
  fail_if (v_Freshness (vr_Results r) !=s FreshnessCurrent)
    with (integrityError "Stored freshness overrides are unsupported; freshness must be evaluated against current inputs."
            [("freshness", VNamed (v_Freshness (vr_Results r)))]) ;;
  let index := nilErrorIndex (vr_Errors r) in
  fail_if (0 <=? index)
    with (integrityError "Verification findings contain a null item." [("index", VInt index)]) ;;
  fail_if (negb (bool_decide (normalizeRunner (vr_Runner r) = vr_Runner r)))
    with (integrityError "Runner feature coverage is not normalized." []) ;;
  let field := invalidResourceSummaryField (vr_Resources r) in
  fail_if (field !=s "")
    with (integrityError "Resource usage evidence does not match the bounded contract." [("field", VStr field)]) ;;
  Ok tt.

Definition check_plan (r : VerificationResult) : result Error unit :=
  let p := vr_Plan r in
  fail_if (negb (vp_RepeatCount p =? rs_Requested (vr_Repeats r)) || (vp_SuccessThreshold p <=? 0)
           || (vp_RepeatCount p <? vp_SuccessThreshold p))
    with (integrityError "Verification repeat policy is not bound consistently." []) ;;
  fail_if ((vp_ResolvedPlanSchemaVersion p !=s "4") || negb (validVerificationEvidence (vp_Evidence p)))
    with (integrityError "Verification evidence selection is not bound consistently." []) ;;
  Ok tt.

(** The verdicts recomputed from the evidence of a result. *)
Definition expected_verdicts (r : VerificationResult) (functional cleanup : string) (coverageComplete : bool) : Verdicts :=
  with_overall functional (capabilityVerdict (vr_Errors r) coverageComplete)
    (reproducibilityVerdict (rs_Requested (vr_Repeats r)) (rs_Completed (vr_Repeats r))
       (rs_Matching (vr_Repeats r)) (vp_SuccessThreshold (vr_Plan r)))
    (cleanupVerdict cleanup (rs_Completed (vr_Repeats r)) (vr_Errors r)).

Definition VerifyIntegrity (r : VerificationResult) : option (result Error unit) :=
  let fail_or_continue (c : result Error unit) (k : option (result Error unit)) :=
    match c with Ok _ => k | Err e => Some (Err e) end in
  fail_or_continue (check_identity r) (
  fail_or_continue (check_digest "observations" (slice_doc ObservationEvent_json (vr_Observations r)) (vd_Observations (vr_Digests r))) (
  fail_or_continue (check_digest "assertions" (slice_doc AssertionResult_json (vr_Assertions r)) (vd_Assertions (vr_Digests r))) (
  fail_or_continue (check_digest "policyDecisions" (slice_doc PolicyDecision_json (vr_PolicyDecisions r)) (vd_PolicyDecisions (vr_Digests r))) (
  fail_or_continue (check_plan r) (
  match functionalVerdict (elems (vr_Assertions r)) (vr_Errors r) (rs_Completed (vr_Repeats r)) with
  | None => None
  | Some functional => Some (
      let stored := elems (vr_ObserverCoverage r) in
      fail_if (existsb (λ c, negb (oc_Required c)) stored)
        with (integrityError "Unsupported optional observer coverage was found in an authoritative artifact." []) ;;
      let requiredObservers := List.map oc_Feature stored in
      let '(expectedCoverage, coverageComplete) := coverageFor requiredObservers (vr_Runner r) in
      let! _ := check_same_digest (array ObserverCoverage_json expectedCoverage)
                  (slice_doc ObserverCoverage_json (vr_ObserverCoverage r))
                  "Observer coverage could not be recomputed." "Observer coverage does not match runner features." in
      let! _ := map_err (λ _, integrityError "Peer TCP listener evidence does not satisfy the authoritative public contract." [])
                  (validatePortListenerEvidence (observerRequired requiredObservers "port-listen")
                     (rs_Completed (vr_Repeats r)) (elems (vr_Observations r)) (vr_Errors r)) in
      let! observedCleanup :=
        map_err (λ e, integrityError "Cleanup observations do not satisfy the authoritative evidence contract." [("reason", VStr e)])
          (cleanupVerdictFromObservations (elems (vr_Observations r)) (rs_Completed (vr_Repeats r))) in
      let expected := expected_verdicts r functional observedCleanup coverageComplete in
      fail_if (negb (bool_decide (vr_Results r = expected)))
        with (integrityError "Stored verdicts do not match assertions, findings, coverage, and repeat policy."
                [("expected", verdicts_value expected); ("actual", verdicts_value (vr_Results r))]) ;;
      let! _ := check_same_digest
                  (array PolicyDecision_json (baselinePolicy (vp_PolicyBundleDigest (vr_Plan r)) (vr_Runner r) coverageComplete))
                  (slice_doc PolicyDecision_json (vr_PolicyDecisions r))
                  "Policy decisions could not be recomputed." "Stored policy decisions do not match the baseline policy." in
      match verificationDigest r with
      | Err e => Err (WrapError CodeEvidenceDigestMismatch SeverityHigh "Verification digest could not be recomputed." e)
      | Ok actual =>
          fail_if (actual !=s vd_Verification (vr_Digests r))
            with (with_details
                    (NewError CodeEvidenceDigestMismatch SeverityCritical
                       "Verification artifact digest does not match its protected content.")
                    [("expected", VStr (vd_Verification (vr_Digests r))); ("actual", VStr actual)]) ;;
          Ok tt
      end)
  end))))).

(** ** Null findings *)

Lemma nil_index_spec index errs : 0 <= index → (nil_index index errs < 0 ↔ None ∉ errs).
Proof.
  revert index. induction errs as [|[e|] errs IH]; intros index Hi; cbn [nil_index].
  - split; [intros _ H; by apply elem_of_nil in H|lia].
  - rewrite IH by lia. rewrite not_elem_of_cons. naive_solver.
  - split; [lia|]. intros H. destruct H. left.
Qed.
Lemma nilErrorIndex_spec errs : (0 <=? nilErrorIndex errs) = false ↔ None ∉ errs.
Proof. rewrite Z.leb_gt. by apply nil_index_spec. Qed.

(** ** Normalized assertions have the same verdict *)

Lemma normalize_status index a codes :
  (codes = ["fail"; "failed"] ∨ codes = ["pass"; "passed"]) →
  one_of (ar_Status (normalize_assertion index a)) codes = one_of (ar_Status a) codes.
Proof.
  intros Hc. cbn [normalize_assertion ar_Status].
  destruct (String.eqb_spec (ar_Status a) "pass") as [->|]; [by destruct Hc as [-> | ->]|].
  destruct (String.eqb_spec (ar_Status a) "fail") as [->|]; [by destruct Hc as [-> | ->]|done].
Qed.
Lemma normalize_status_other index a s :
  s ≠ "passed" → s ≠ "failed" → s ≠ "pass" → s ≠ "fail" →
  (ar_Status (normalize_assertion index a) =s s) = (ar_Status a =s s).
Proof.
  intros H1 H2 H3 H4. cbn [normalize_assertion ar_Status].
  destruct (String.eqb_spec (ar_Status a) "pass") as [->|].
  { by rewrite !(proj2 (String.eqb_neq _ _)) by congruence. }
  destruct (String.eqb_spec (ar_Status a) "fail") as [->|]; [|done].
  by rewrite !(proj2 (String.eqb_neq _ _)) by congruence.
Qed.

Lemma normalize_assertion_verdict index l : assertion_verdict (normalize_assertions index l) = assertion_verdict l.
Proof.
  revert index. induction l as [|a l IH]; intros index; [done|]. cbn [normalize_assertions assertion_verdict].
  rewrite normalize_status by auto. rewrite !normalize_status_other by done. by rewrite IH.
Qed.
Lemma normalize_assertions_pass index l :
  existsb (λ a, negb (one_of (ar_Status a) ["pass"; "passed"])) (normalize_assertions index l)
  = existsb (λ a, negb (one_of (ar_Status a) ["pass"; "passed"])) l.
Proof.
  revert index. induction l as [|a l IH]; intros index; [done|]. cbn [normalize_assertions existsb].
  rewrite normalize_status by auto. by rewrite IH.
Qed.
Lemma normalize_assertions_length index l : length (normalize_assertions index l) = length l.
Proof. revert index. induction l as [|a l IH]; intros index; [done|]. cbn. by rewrite IH. Qed.

Lemma functional_normalized values errs completed :
  functionalVerdict (elems (nonNilAssertions values)) errs completed = functionalVerdict (elems values) errs completed.
Proof.
  unfold functionalVerdict, nonNilAssertions. cbn [elems].
  by rewrite normalize_assertion_verdict, normalize_assertions_pass, normalize_assertions_length.
Qed.

(** ** The digest does not cover itself *)

Definition body_members (r : VerificationResult) : list (string * option doc) :=
  [("schemaVersion", Some (str (vr_SchemaVersion r))); ("verificationId", Some (str (vr_VerificationID r)));
   ("runId", Some (str (vr_RunID r))); ("startedAt", Some (marshal_time (vr_StartedAt r)));
   ("completedAt", Some (marshal_time (vr_CompletedAt r))); ("subject", Some (PlanSource_json (vr_Subject r)));
   ("plan", Some (VerificationPlanRef_json (vr_Plan r))); ("runner", Some (RunnerFeatures_json (vr_Runner r)));
   ("results", Some (Verdicts_json (vr_Results r)));
   ("observerCoverage", Some (slice_doc ObserverCoverage_json (vr_ObserverCoverage r)));
   ("observations", Some (slice_doc ObservationEvent_json (vr_Observations r)));
   ("assertions", Some (slice_doc AssertionResult_json (vr_Assertions r)));
   ("policyDecisions", Some (slice_doc PolicyDecision_json (vr_PolicyDecisions r)));
   ("errors", omit_list Error_json (vr_Errors r)); ("repeats", Some (RepeatSummary_json (vr_Repeats r)));
   ("resources", Some (ResourceSummary_json (vr_Resources r)))].

Lemma struct_app a b : struct (a ++ b) = let! x := struct a in let! y := struct b in Ok (x ++ y).
Proof.
  induction a as [|[k [d|]] a IH]; cbn [app struct].
  - by destruct (struct b).
  - destruct d as [j|e]; [|done]. cbn [bind_result]. rewrite IH. destruct (struct a); [|done]. cbn [bind_result].
    by destruct (struct b).
  - exact IH.
Qed.

Definition digests_json (d : VerificationDigests) : list (string * json) :=
  [("observations", JStr (sanitize (vd_Observations d))); ("assertions", JStr (sanitize (vd_Assertions d)));
   ("policyDecisions", JStr (sanitize (vd_PolicyDecisions d))); ("verification", JStr (sanitize (vd_Verification d)))].

Lemma result_document r :
  VerificationResult_json r =
    let! l := struct (body_members r) in Ok (JObj (l ++ [("digests", JObj (digests_json (vr_Digests r)))])).
Proof.
  unfold VerificationResult_json, object.
  change [?a; ?b; ?c; ?d; ?e; ?f; ?g; ?h; ?i; ?j; ?k; ?l; ?m; ?n; ?o; ?p; ("digests", ?q)]
    with ([a; b; c; d; e; f; g; h; i; j; k; l; m; n; o; p] ++ [("digests", q)]).
  rewrite struct_app. fold (body_members r). destruct (struct (body_members r)); [|done]. done.
Qed.

Lemma assoc_app_none {A} k (l m : list (string * A)) : assoc k l = None → assoc k (l ++ m) = assoc k m.
Proof.
  induction l as [|[k' v] l IH]; [done|]. cbn [assoc app]. destruct (k' =s k); [done|]. exact IH.
Qed.
Lemma assoc_set_app {A} k (v : A) l m : assoc k l = None → assoc_set k v (l ++ m) = l ++ assoc_set k v m.
Proof.
  induction l as [|[k' w] l IH]; [done|]. cbn [assoc app assoc_set]. destruct (k' =s k); [done|].
  intros H. by rewrite IH.
Qed.

Lemma body_no_digests r l : struct (body_members r) = Ok l → assoc "digests" l = None.
Proof.
  intros H. apply assoc_None_iff. intros Hin. apply (struct_keys _ _ H) in Hin.
  assert (bool_decide ("digests" ∈ (body_members r).*1) = false) as Hno by reflexivity.
  by apply bool_decide_eq_false in Hno.
Qed.

(** The digested document: the members and the three component digests. *)
Lemma semantic_body r l :
  struct (body_members r) = Ok l →
  semantic_document (JObj (l ++ [("digests", JObj (digests_json (vr_Digests r)))]))
    = JObj (l ++ [("digests", JObj (firstn 3 (digests_json (vr_Digests r))))]).
Proof.
  intros H%body_no_digests. unfold semantic_document. rewrite assoc_app_none by done. cbn [assoc].
  change ("digests" =s "digests") with true. cbv iota. by rewrite assoc_set_app.
Qed.

Lemma verificationDigest_body r :
  verificationDigest r =
    let! l := struct (body_members r) in
    Digest (Ok (JObj (l ++ [("digests", JObj (firstn 3 (digests_json (vr_Digests r))))]))).
Proof.
  unfold verificationDigest. rewrite result_document. destruct (struct (body_members r)) as [l|] eqn:E; [|done].
  cbn [bind_result]. by rewrite (semantic_body r l E).
Qed.

(** ** What [Build] returns *)

Lemma seal_ok r sealed :
  seal r = Ok sealed →
  ∃ d, sealed = set_digests r d
    ∧ Digest (slice_doc ObservationEvent_json (vr_Observations r)) = Ok (vd_Observations d)
    ∧ Digest (slice_doc AssertionResult_json (vr_Assertions r)) = Ok (vd_Assertions d)
    ∧ Digest (slice_doc PolicyDecision_json (vr_PolicyDecisions r)) = Ok (vd_PolicyDecisions d)
    ∧ verificationDigest sealed = Ok (vd_Verification d).
Proof.
  unfold seal, plain. destruct (Digest (slice_doc ObservationEvent_json _)) as [o|] eqn:Eo; [|done].
  destruct (Digest (slice_doc AssertionResult_json _)) as [a|] eqn:Ea; [|done].
  destruct (Digest (slice_doc PolicyDecision_json _)) as [p|] eqn:Ep; [|done]. cbn [map_err bind_result].
  destruct (verificationDigest _) as [v|] eqn:Ev; [|done]. cbn [map_err bind_result]. intros [= <-].
  eexists. split; [done|]. split_and!; try done. rewrite verificationDigest_body in *. exact Ev.
Qed.

Lemma seal_error r e : seal r ≠ Err (DomainError e).
Proof.
  unfold seal, plain. destruct (Digest _); [|done]. destruct (Digest _); [|done]. destruct (Digest _); [|done].
  cbn [map_err bind_result]. by destruct (verificationDigest _).
Qed.

(** A successful [Build], taken apart. *)
Record built (i : Input) (functional observed : string) (d : VerificationDigests) (r : VerificationResult) : Prop := {
  built_no_nil : None ∉ in_Errors i;
  built_functional : functionalVerdict (elems (in_Assertions i)) (in_Errors i) (in_Completed i) = Some functional;
  built_cleanup : cleanupVerdictFromObservations (elems (in_Observations i)) (in_Completed i) = Ok observed;
  built_caller : in_Cleanup i = cleanupVerdict observed (in_Completed i) (in_Errors i);
  built_ports : validatePortListenerEvidence (observerRequired (rp_ObserverSet (in_Plan i)) "port-listen")
    (in_Completed i) (elems (in_Observations i)) (in_Errors i) = Ok tt;
  built_result :
    let coverage := coverageFor (rp_ObserverSet (in_Plan i)) (in_Runner i) in
    r = set_digests (assemble i
      (with_overall functional (capabilityVerdict (in_Errors i) coverage.2)
        (reproducibilityVerdict (in_Requested i) (in_Completed i) (in_Matching i) (in_SuccessThreshold i))
        (cleanupVerdict observed (in_Completed i) (in_Errors i)))
      coverage.1 (baselinePolicy (rp_PolicyBundleDigest (in_Plan i)) (in_Runner i) coverage.2)) d;
  built_resources : invalidResourceSummaryField (vr_Resources r) = "";
  built_observations : Digest (slice_doc ObservationEvent_json (vr_Observations r)) = Ok (vd_Observations d);
  built_assertions : Digest (slice_doc AssertionResult_json (vr_Assertions r)) = Ok (vd_Assertions d);
  built_policy : Digest (slice_doc PolicyDecision_json (vr_PolicyDecisions r)) = Ok (vd_PolicyDecisions d);
  built_digest : verificationDigest r = Ok (vd_Verification d)
}.

Lemma Build_inv env input r :
  Build env input = Some (Ok r) → ∃ functional observed d, built (normalize_input env input) functional observed d r.
Proof.
  unfold Build. generalize (normalize_input env input). intros i.
  destruct (0 <=? nilErrorIndex (in_Errors i)) eqn:Enil; [done|].
  destruct (coverageFor (rp_ObserverSet (in_Plan i)) (in_Runner i)) as [coverage complete] eqn:Ecov.
  destruct (functionalVerdict _ _ _) as [functional|] eqn:Ef; [|done]. intros H. injection H as H.
  apply bind_Ok in H as (observed & Ho & H).
  destruct (cleanupVerdictFromObservations _ _) as [o|] eqn:Eo; [|done]. injection Ho as <-.
  destruct (in_Cleanup i !=s _) eqn:Ec; [done|]. apply bind_Ok in H as (u & Hu & H).
  destruct (validatePortListenerEvidence _ _ _ _) as [[]|] eqn:Ep; [|done].
  destruct (invalidResourceSummaryField _ !=s "") eqn:Er; [done|]. to_prop.
  apply seal_ok in H as (d & Hr & Hobs & Hass & Hpol & Hdig). exists functional, o, d.
  constructor; rewrite ?Ecov; try done.
  - by apply (nil_index_spec 0).
  - subst r. exact Er.
  - subst r. exact Hobs.
  - subst r. exact Hass.
  - subst r. exact Hpol.
Qed.

(** ** The round trip *)

(** The caller binds the plan to the run and orders its times. *)
Record consistent_input (i : Input) : Prop := {
  consistent_started : IsZero (in_StartedAt i) = false;
  consistent_order : Before (in_CompletedAt i) (in_StartedAt i) = false;
  consistent_repeats : rp_RepeatCount (in_Plan i) = in_Requested i;
  consistent_threshold : rp_SuccessThreshold (in_Plan i) = in_SuccessThreshold i;
  consistent_schema : rp_SchemaVersion (in_Plan i) = "4";
  consistent_evidence : validVerificationEvidence (rp_Evidence (in_Plan i)) = true
}.

Lemma or_default_nonempty s d : d ≠ "" → or_default s d ≠ "".
Proof. intros Hd. unfold or_default. by destruct (String.eqb_spec s ""). Qed.

Lemma normalized_thresholds env input :
  0 < in_SuccessThreshold (normalize_input env input) <= in_Requested (normalize_input env input).
Proof.
  cbn [normalize_input in_SuccessThreshold in_Requested].
  destruct (Z.leb_spec (in_Requested input) 0); destruct (Z.leb_spec (in_SuccessThreshold input) 0); cbn [orb]; try lia.
  all: destruct (Z.ltb_spec 1 (in_SuccessThreshold input)); destruct (Z.ltb_spec (in_Requested input) (in_SuccessThreshold input)); lia.
Qed.

Lemma with_overall_evidence f c r cl : v_Evidence (with_overall f c r cl) = EvidenceUnsigned.
Proof. done. Qed.

Section RoundTrip.
Variables (env : Env) (input : Input) (functional observed : string) (d : VerificationDigests) (r : VerificationResult).
Let i := normalize_input env input.
Hypothesis Hbuilt : built i functional observed d r.
Hypothesis Hin : consistent_input i.

Lemma built_check_identity : check_identity r = Ok tt.
Proof.
  pose proof (built_resources _ _ _ _ _ Hbuilt) as Hres. pose proof (built_no_nil _ _ _ _ _ Hbuilt) as Hnil.
  unfold check_identity. rewrite Hres. rewrite (built_result _ _ _ _ _ Hbuilt). destruct Hin as [H1 H2 _ _ _ _].
  cbn [set_digests assemble vr_SchemaVersion vr_RunID vr_VerificationID vr_StartedAt vr_CompletedAt vr_Results
    vr_Errors vr_Runner].
  change (IsZero (UTC (in_StartedAt i))) with (IsZero (in_StartedAt i)).
  change (Before (UTC (in_CompletedAt i)) (UTC (in_StartedAt i))) with (Before (in_CompletedAt i) (in_StartedAt i)).
  rewrite H1, H2, (proj2 (nilErrorIndex_spec _) Hnil).
  rewrite (proj2 (String.eqb_neq (in_RunID i) "")) by (by apply or_default_nonempty).
  rewrite (proj2 (String.eqb_neq (in_VerificationID i) "")) by (by apply or_default_nonempty).
  rewrite bool_decide_true by apply normalizeRunner_idem. done.
Qed.

Lemma built_check_plan : check_plan r = Ok tt.
Proof.
  unfold check_plan. rewrite (built_result _ _ _ _ _ Hbuilt). destruct Hin as [_ _ H3 H4 H5 H6].
  cbn [set_digests assemble vr_Plan vr_Repeats vp_RepeatCount vp_SuccessThreshold rs_Requested
    vp_ResolvedPlanSchemaVersion vp_Evidence].
  pose proof (normalized_thresholds env input) as Ht. fold i in Ht. rewrite H3, H4, H5, Z.eqb_refl.
  rewrite (proj2 (Z.leb_gt _ _)), (proj2 (Z.ltb_ge _ _)) by lia. cbn [negb orb].
  change (validVerificationEvidence _) with (validVerificationEvidence (rp_Evidence (in_Plan i))). by rewrite H6.
Qed.

Lemma built_coverage :
  elems (vr_ObserverCoverage r) = (coverageFor (rp_ObserverSet (in_Plan i)) (in_Runner i)).1.
Proof. by rewrite (built_result _ _ _ _ _ Hbuilt). Qed.

Lemma check_digest_ok name dc expected : Digest dc = Ok expected → check_digest name dc expected = Ok tt.
Proof. intros H. unfold check_digest. by rewrite H, string_eqb_refl. Qed.

Lemma check_same_ok dc x u w : Digest dc = Ok x → check_same_digest dc dc u w = Ok tt.
Proof. intros H. unfold check_same_digest. by rewrite H, string_eqb_refl. Qed.

Lemma coverage_digest : ∃ x, Digest (array ObserverCoverage_json (coverageFor (rp_ObserverSet (in_Plan i)) (in_Runner i)).1) = Ok x.
Proof.
  assert (∃ l, bind_all ObserverCoverage_json (coverageFor (rp_ObserverSet (in_Plan i)) (in_Runner i)).1 = Ok l
    ∧ Forall (λ j, validateASCIIObjectKeys j = Ok tt) l) as (l & Hl & Hk).
  { induction (coverageFor (rp_ObserverSet (in_Plan i)) (in_Runner i)).1 as [|c cs (l & Hl & Hk)]; [by exists []|].
    cbn [bind_all]. rewrite Hl. unfold ObserverCoverage_json, object. cbn [struct bind_result str bool_doc].
    unfold omit_str. destruct (oc_Reason c =s ""); cbn [struct bind_result str];
      (eexists; split; [reflexivity|]; by constructor). }
  unfold array. rewrite Hl. cbn [bind_result]. unfold Digest, Marshal. cbn [map_err bind_result].
  assert (validateASCIIObjectKeys (JArr l) = Ok tt) as ->; [|by eexists].
  clear Hl. induction Hk as [|j l Hj _ IH]; [done|]. cbn [validateASCIIObjectKeys] in *. by rewrite Hj.
Qed.

Lemma built_digests : vr_Digests r = d.
Proof. by rewrite (built_result _ _ _ _ _ Hbuilt). Qed.

Lemma built_verifies : VerifyIntegrity r = Some (Ok tt).
Proof.
  unfold VerifyIntegrity. rewrite built_check_identity.
  rewrite (check_digest_ok _ _ (vd_Observations (vr_Digests r))), (check_digest_ok _ _ (vd_Assertions (vr_Digests r))),
    (check_digest_ok _ _ (vd_PolicyDecisions (vr_Digests r))).
  2-4: rewrite built_digests; by destruct Hbuilt.
  rewrite built_check_plan, built_coverage.
  destruct (coverageFor (rp_ObserverSet (in_Plan i)) (in_Runner i)) as [coverage complete] eqn:Ecov.
  pose proof (built_result _ _ _ _ _ Hbuilt) as Hr. cbv zeta in Hr. rewrite Ecov in Hr. cbn [fst snd] in Hr.
  assert (functionalVerdict (elems (vr_Assertions r)) (vr_Errors r) (rs_Completed (vr_Repeats r)) = Some functional) as ->.
  { rewrite Hr. cbn [set_digests assemble vr_Assertions vr_Errors vr_Repeats rs_Completed].
    rewrite functional_normalized. apply (built_functional _ _ _ _ _ Hbuilt). }
  pose proof (coverage_features (rp_ObserverSet (in_Plan i)) (in_Runner i)) as Hfeat.
  pose proof (coverage_required (rp_ObserverSet (in_Plan i)) (in_Runner i)) as Hreq.
  destruct coverage_digest as [x Hx]. rewrite Ecov in Hfeat, Hreq, Hx. cbn [fst] in *.
  assert (existsb (λ c, negb (oc_Required c)) coverage = false) as ->.
  { clear -Hreq. induction Hreq as [|c l Hc _ IH]; [done|]. cbn [existsb]. by rewrite Hc, IH. }
  rewrite Hfeat.
  assert (vr_Runner r = in_Runner i) as -> by by rewrite Hr. rewrite Ecov.
  assert (slice_doc ObserverCoverage_json (vr_ObserverCoverage r) = array ObserverCoverage_json coverage) as -> by by rewrite Hr.
  rewrite (check_same_ok _ _ _ _ Hx). cbn [bind_result].
  assert (rs_Completed (vr_Repeats r) = in_Completed i) as Ecomp by by rewrite Hr.
  assert (elems (vr_Observations r) = elems (in_Observations i)) as -> by by rewrite Hr.
  assert (vr_Errors r = in_Errors i) as Eerr by by rewrite Hr.
  rewrite Ecomp, Eerr, (built_ports _ _ _ _ _ Hbuilt), (built_cleanup _ _ _ _ _ Hbuilt). cbn [map_err bind_result].
  assert (vr_Results r = expected_verdicts r functional observed complete) as Ever.
  { unfold expected_verdicts. rewrite Ecomp, Eerr, Hr.
    cbn [set_digests assemble vr_Results vr_Repeats vr_Plan vp_SuccessThreshold rs_Requested rs_Matching].
    by rewrite (consistent_threshold _ Hin). }
  rewrite bool_decide_true by done. cbn [negb].
  assert (slice_doc PolicyDecision_json (vr_PolicyDecisions r)
    = array PolicyDecision_json (baselinePolicy (vp_PolicyBundleDigest (vr_Plan r)) (in_Runner i) complete)) as Hpol by by rewrite Hr.
  pose proof (built_policy _ _ _ _ _ Hbuilt) as Hpd. rewrite Hpol in Hpd |- *.
  rewrite (check_same_ok _ _ _ _ Hpd). cbn [bind_result].
  rewrite (built_digest _ _ _ _ _ Hbuilt). by rewrite built_digests, string_eqb_refl.
Qed.
End RoundTrip.

(** ** What an accepted result guarantees *)

Lemma check_same_digest_ok e a u w :
  check_same_digest e a u w = Ok tt → ∃ x, Digest e = Ok x ∧ Digest a = Ok x.
Proof.
  unfold check_same_digest. destruct (Digest e) as [x|]; [|done]. destruct (Digest a) as [y|]; [|done].
  destruct (String.eqb_spec y x) as [->|]; [|done]. by exists x.
Qed.
Lemma check_digest_inv name dc expected : check_digest name dc expected = Ok tt → Digest dc = Ok expected.
Proof.
  unfold check_digest. destruct (Digest dc) as [x|]; [|done]. by destruct (String.eqb_spec x expected) as [->|].
Qed.

Record intact (r : VerificationResult) (functional observed : string) (coverageComplete : bool) : Prop := {
  intact_identity : vr_SchemaVersion r = "1" ∧ vr_RunID r ≠ "" ∧ vr_VerificationID r ≠ ""
    ∧ IsZero (vr_StartedAt r) = false ∧ t_ns (vr_StartedAt r) <= t_ns (vr_CompletedAt r);
  intact_errors : None ∉ vr_Errors r;
  intact_runner : normalizeRunner (vr_Runner r) = vr_Runner r;
  intact_resources : invalidResourceSummaryField (vr_Resources r) = "";
  intact_plan : vp_RepeatCount (vr_Plan r) = rs_Requested (vr_Repeats r)
    ∧ 0 < vp_SuccessThreshold (vr_Plan r) <= vp_RepeatCount (vr_Plan r)
    ∧ vp_ResolvedPlanSchemaVersion (vr_Plan r) = "4" ∧ validVerificationEvidence (vp_Evidence (vr_Plan r)) = true;
  intact_functional :
    functionalVerdict (elems (vr_Assertions r)) (vr_Errors r) (rs_Completed (vr_Repeats r)) = Some functional;
  intact_coverage :
    coverageComplete = (coverageFor (List.map oc_Feature (elems (vr_ObserverCoverage r))) (vr_Runner r)).2
    ∧ ∃ x, Digest (array ObserverCoverage_json
                     (coverageFor (List.map oc_Feature (elems (vr_ObserverCoverage r))) (vr_Runner r)).1) = Ok x
        ∧ Digest (slice_doc ObserverCoverage_json (vr_ObserverCoverage r)) = Ok x;
  intact_ports :
    validatePortListenerEvidence (observerRequired (List.map oc_Feature (elems (vr_ObserverCoverage r))) "port-listen")
      (rs_Completed (vr_Repeats r)) (elems (vr_Observations r)) (vr_Errors r) = Ok tt;
  intact_cleanup :
    cleanupVerdictFromObservations (elems (vr_Observations r)) (rs_Completed (vr_Repeats r)) = Ok observed;
  intact_verdicts : vr_Results r = expected_verdicts r functional observed coverageComplete;
  intact_policy : ∃ x,
    Digest (array PolicyDecision_json (baselinePolicy (vp_PolicyBundleDigest (vr_Plan r)) (vr_Runner r) coverageComplete)) = Ok x
    ∧ vd_PolicyDecisions (vr_Digests r) = x;
  intact_components :
    Digest (slice_doc ObservationEvent_json (vr_Observations r)) = Ok (vd_Observations (vr_Digests r))
    ∧ Digest (slice_doc AssertionResult_json (vr_Assertions r)) = Ok (vd_Assertions (vr_Digests r))
    ∧ Digest (slice_doc PolicyDecision_json (vr_PolicyDecisions r)) = Ok (vd_PolicyDecisions (vr_Digests r));
  intact_digest : verificationDigest r = Ok (vd_Verification (vr_Digests r))
}.

Ltac next_check H := match type of H with
  | match ?c with Ok _ => _ | Err _ => _ end = _ => let E := fresh "Chk" in destruct c as [[]|] eqn:E; [|discriminate H]
  end.

Lemma check_identity_inv r : check_identity r = Ok tt →
  (vr_SchemaVersion r = "1" ∧ vr_RunID r ≠ "" ∧ vr_VerificationID r ≠ ""
   ∧ IsZero (vr_StartedAt r) = false ∧ t_ns (vr_StartedAt r) <= t_ns (vr_CompletedAt r))
  ∧ (None ∉ vr_Errors r) ∧ normalizeRunner (vr_Runner r) = vr_Runner r ∧ invalidResourceSummaryField (vr_Resources r) = "".
Proof.
  unfold check_identity. intros H. repeat step_fail H.
  match goal with E : (0 <=? nilErrorIndex _) = false |- _ => apply nilErrorIndex_spec in E end.
  unfold Before in *. to_prop. split_and!; try done.
Qed.

Lemma VerifyIntegrity_inv r : VerifyIntegrity r = Some (Ok tt) → ∃ functional observed complete, intact r functional observed complete.
Proof.
  unfold VerifyIntegrity. cbv beta zeta. intros H. do 5 next_check H.
  apply check_identity_inv in Chk as (Hid & Hnil & Hrun & Hres). apply check_digest_inv in Chk0, Chk1, Chk2.
  unfold check_plan in Chk3. repeat step_fail Chk3. to_prop.
  destruct (functionalVerdict _ _ _) as [functional|] eqn:Ef; [|done]. injection H as H.
  step_fail H.
  apply bind_Ok in H as ([] & Hcov & H). apply check_same_digest_ok in Hcov.
  apply bind_Ok in H as ([] & Hport & H). destruct (validatePortListenerEvidence _ _ _ _) as [[]|] eqn:Ep; [|done].
  apply bind_Ok in H as (observed & Hclean & H). destruct (cleanupVerdictFromObservations _ _) as [o|] eqn:Eo; [|done].
  injection Hclean as <-. step_fail H. to_prop. apply bind_Ok in H as ([] & Hpol & H). apply check_same_digest_ok in Hpol.
  destruct (verificationDigest r) as [actual|] eqn:Edig; [|done].
  destruct (String.eqb_spec actual (vd_Verification (vr_Digests r))) as [->|]; [|done].
  exists functional, o, (coverageFor (List.map oc_Feature (elems (vr_ObserverCoverage r))) (vr_Runner r)).2.
  constructor; try done.
  destruct Hpol as (x & Hx & Hy). exists x. split; [exact Hx|]. congruence.
Qed.

(** ** Tamper evidence *)

(** The protected document of a result. *)
Definition protected (r : VerificationResult) (j : json) : Prop :=
  ∃ d, VerificationResult_json r = Ok d ∧ j = semantic_document d.

Lemma protected_wf r j : protected r j → wf j = true.
Proof.
  intros (d & Hd & ->). pose proof (VerificationResult_wf r d Hd) as Hw.
  rewrite result_document in Hd. apply bind_Ok in Hd as (l & Hl & Hd). injection Hd as <-.
  rewrite (semantic_body r l Hl). cbn [wf] in *. apply andb_prop in Hw as [Hk Hw].
  assert (∀ x y : json, (l ++ [("digests", x)]).*1 = (l ++ [("digests", y)]).*1) as Ek by (intros; by rewrite !fmap_app).
  rewrite (Ek _ (JObj (digests_json (vr_Digests r)))), Hk. rewrite forallb_app in *. apply andb_prop in Hw as [-> Hw].
  cbn [forallb fst snd wf digests_json firstn andb] in *. by rewrite !sanitize_is_valid.
Qed.

Lemma verificationDigest_inv r x : verificationDigest r = Ok x → ∃ j, protected r j ∧ x = digest_text (encode j).
Proof.
  unfold verificationDigest. destruct (VerificationResult_json r) as [d|] eqn:E; [|done]. cbn [bind_result].
  intros (j & [= <-] & ->)%Digest_inv. exists (semantic_document d). split; [by exists d|done].
Qed.

(** ** Concrete input *)

Definition sample_runner : RunnerFeatures :=
  {| rf_Backend := "docker"; rf_Available := true; rf_ControllerOS := "linux"; rf_WorkloadOS := "linux";
     rf_Rootless := ""; rf_NetworkDeny := true; rf_NetworkAttemptObservation := ""; rf_ProcessExecObservation := "high";
     rf_FilesystemWriteObservation := "full"; rf_FilesystemReadObservation := ""; rf_PortObservation := "";
     rf_ResourceUsage := ""; rf_ResourceLimitEnforcement := true; rf_EngineVersion := ""; rf_Reason := "" |}.

Definition sample_plan : ResolvedPlan :=
  {| rp_SchemaVersion := "4"; rp_Source := {| ps_Identity := "repo"; ps_Commit := ""; ps_TreeDigest := "t" |};
     rp_Scenario := "s"; rp_Environment := "e";
     rp_Evidence := {| pe_Profile := "minimal-public";
                       pe_Include := Some ["normalized-observations"; "verification-summary"];
                       pe_Exclude := Some ["raw-stderr"; "raw-stdout"; "raw-syscall-trace"] |};
     rp_ObserverSet := ["network-enforcement"; "filesystem-write"]; rp_RepeatCount := 0; rp_SuccessThreshold := 0;
     rp_PolicyBundleDigest := "p"; rp_PlanDigest := "d" |}.

Definition sample_assertion : AssertionResult :=
  {| ar_SchemaVersion := ""; ar_ID := ""; ar_Type := "exit-code"; ar_Required := false; ar_Expected := VInt 0;
     ar_Actual := VInt 0; ar_Status := "pass"; ar_EvidenceRefs := None; ar_Message := ""; ar_Repeat := 1;
     ar_DurationMillis := 12 |}.

Definition sample_input : Input :=
  {| in_RunID := ""; in_VerificationID := "vrf_1"; in_Plan := sample_plan; in_Runner := sample_runner;
     in_StartedAt := {| t_ns := 1735689600000000000; t_offset := 3600 |};
     in_CompletedAt := {| t_ns := 1735689601500000000; t_offset := 3600 |};
     in_Observations := Some [sample_observation (sample_details 0 0 0 0 0 CleanupClean)];
     in_Assertions := Some [sample_assertion]; in_Errors := []; in_Requested := 1; in_Completed := 1;
     in_Matching := 1; in_SuccessThreshold := 1; in_Cleanup := CleanupClean;
     in_Resources := {| r_PeakMemoryBytes := 0; r_CPUTimeMillis := 0; r_DurationMillis := 0; r_MaxProcesses := 0;
       r_LogBytes := 0; r_SandboxPeakMemoryBytes := 0; r_SandboxCPUTimeMillis := 0; r_MaxTasks := 3;
       r_WritableBytes := 0; r_OutputBytes := 0; r_ObservedFields := ["maxTasks"] |} |}.

Definition sample_env : Env :=
  {| env_run_random := Some [1; 2; 3; 4; 5; 6; 7; 255]%N; env_run_stamp := ""; env_verification_random := None;
     env_verification_stamp := ""; env_started := zeroTime; env_completed := zeroTime |}.

Definition sample_result : option (result error VerificationResult) := Build sample_env sample_input.
Example sample_overall :
  match sample_result with Some (Ok r) => v_Overall (vr_Results r) = OverallVerifiedWithWarnings | _ => False end.
Proof. vm_compute. reflexivity. Qed.

Lemma sample_intact : ∃ r, Build sample_env sample_input = Some (Ok r) ∧ VerifyIntegrity r = Some (Ok tt).
Proof.
  assert (∃ r, Build sample_env sample_input = Some (Ok r)) as [r Hr] by (eexists; vm_compute; reflexivity).
  exists r. split; [done|]. destruct (Build_inv _ _ _ Hr) as (f & o & d & Hb).
  apply (built_verifies _ _ _ _ _ _ Hb). constructor; vm_compute; reflexivity.
Qed.

Lemma sample_verifies r : Build sample_env sample_input = Some (Ok r) → VerifyIntegrity r = Some (Ok tt).
Proof. intros H. destruct sample_intact as (r' & H1 & H2). congruence. Qed.

(** ** Properties *)

(** C2: Round trip: when the caller's plan is bound to the run (schema 4, the allowed
    evidence selection, the plan's repeat count and threshold those of the run)
    and the run's times are ordered, whatever [Build] returns passes
    [VerifyIntegrity]. *)
Theorem build_verifies env input r :
  consistent_input (normalize_input env input) → Build env input = Some (Ok r) → VerifyIntegrity r = Some (Ok tt).
Proof. intros Hin (f & o & d & Hb)%Build_inv. exact (built_verifies _ _ _ _ _ _ Hb Hin). Qed.

Lemma build_verifies_witness :
  ∃ r, Build sample_env sample_input = Some (Ok r) ∧ VerifyIntegrity r = Some (Ok tt).
Proof.
  destruct sample_intact as (r & Hr & _). exists r. split; [exact Hr|].
  apply (build_verifies sample_env sample_input r); [constructor; vm_compute; reflexivity|exact Hr].
Defined.

(** [VerifyIntegrity] accepts a result only when all of it can be recomputed: its
    verdicts from its assertions, findings, observations, coverage and repeat
    policy; its coverage and policy from the runner's features; its component
    digests and its own digest from its content; with no null finding, a
    normalized runner, valid resources, ports and plan binding. *)
Theorem verify_integrity_recomputes r :
  VerifyIntegrity r = Some (Ok tt) → ∃ functional observed complete, intact r functional observed complete.
Proof. apply VerifyIntegrity_inv. Qed.

Lemma verify_integrity_recomputes_witness :
  ∃ r, Build sample_env sample_input = Some (Ok r) ∧ ∃ functional observed complete, intact r functional observed complete.
Proof.
  destruct sample_intact as (r & Hr & Hv). exists r. split; [exact Hr|]. exact (verify_integrity_recomputes r Hv).
Defined.

Lemma with_overall_aggregate f c r cl : v_Overall (with_overall f c r cl) = aggregate (with_overall f c r cl).
Proof. done. Qed.

(** C1: No false success: an accepted result is never "verified" outright (its evidence
    is unsigned), and when it is "verified-with-warnings" then some repeat completed,
    every assertion passed, no finding is a violation, a failure or inconclusive,
    every required observer had adequate coverage, every cleanup observation was
    accepted as clean or allowed, and the repeats were not flaky. *)
Theorem accepted_success_is_earned r :
  VerifyIntegrity r = Some (Ok tt) →
  v_Overall (vr_Results r) ≠ OverallVerified
  ∧ (v_Overall (vr_Results r) = OverallVerifiedWithWarnings →
     rs_Completed (vr_Repeats r) <> 0 ∧ elems (vr_Assertions r) ≠ []
     ∧ Forall (λ a, ar_Status a ∈ ["pass"; "passed"]) (elems (vr_Assertions r))
     ∧ has_code (violation_codes ++ blocking_codes ++ failing_codes ++ inconclusive_codes) (vr_Errors r) = false
     ∧ Forall (λ c, adequate (coverage_of (vr_Runner r) (oc_Feature c)) = true) (elems (vr_ObserverCoverage r))
     ∧ (∃ observed, cleanupVerdictFromObservations (elems (vr_Observations r)) (rs_Completed (vr_Repeats r)) = Ok observed
          ∧ observed ∈ [CleanupClean; CleanupAllowedResidue])
     ∧ (rs_Requested (vr_Repeats r) <= 1 ∨ rs_Completed (vr_Repeats r) = rs_Requested (vr_Repeats r)
          ∧ rs_Matching (vr_Repeats r) = rs_Requested (vr_Repeats r))).
Proof.
  intros (functional & observed & complete & H)%VerifyIntegrity_inv.
  pose proof (intact_verdicts _ _ _ _ H) as Hv. rewrite Hv. unfold expected_verdicts. rewrite with_overall_aggregate. split.
  { intros Ho. apply aggregate_verified in Ho as (_ & _ & _ & _ & _ & He). apply He. right. right. right. left. }
  intros Ho. apply aggregate_warnings in Ho as (HF & HC & HCl & _ & HR & _).
  cbn [with_overall v_Functional v_Capability v_Cleanup v_Reproducibility] in HF, HC, HCl, HR.
  pose proof (intact_functional _ _ _ _ H) as HFv. rewrite HF in HFv.
  apply functional_pass_spec in HFv as (Hc & Ha & Hp & He); [|apply (intact_errors _ _ _ _ H)].
  apply capability_success in HC as [Hviol Hcomp]. apply cleanup_success in HCl.
  apply reproducibility_success in HR; [|done].
  destruct (intact_coverage _ _ _ _ H) as [Hcov _]. rewrite Hcov in Hcomp. apply complete_coverage, List.Forall_map in Hcomp.
  split_and!; try done.
  - by rewrite has_code_app, Hviol.
  - exists observed. split; [apply (intact_cleanup _ _ _ _ H)|done].
Qed.

Lemma accepted_success_is_earned_witness :
  ∃ r, Build sample_env sample_input = Some (Ok r) ∧ v_Overall (vr_Results r) ≠ OverallVerified.
Proof.
  destruct sample_intact as (r & Hr & Hv). exists r. split; [exact Hr|].
  exact (proj1 (accepted_success_is_earned r Hv)).
Defined.

(** C3: Tamper evidence: two accepted results that carry the same verification digest
    have the same protected document (everything but that digest) up to the order
    of object members, or exhibit a SHA-256 collision. *)
Theorem verify_tamper_evident r1 r2 :
  VerifyIntegrity r1 = Some (Ok tt) → VerifyIntegrity r2 = Some (Ok tt) →
  vd_Verification (vr_Digests r1) = vd_Verification (vr_Digests r2) →
  ∃ j1 j2, protected r1 j1 ∧ protected r2 j2 ∧ (same_document j1 j2 ∨ digest_collision (encode j1) (encode j2)).
Proof.
  intros (f1 & o1 & c1 & H1)%VerifyIntegrity_inv (f2 & o2 & c2 & H2)%VerifyIntegrity_inv E.
  pose proof (intact_digest _ _ _ _ H1) as (j1 & Hj1 & E1)%verificationDigest_inv.
  pose proof (intact_digest _ _ _ _ H2) as (j2 & Hj2 & E2)%verificationDigest_inv.
  exists j1, j2. split_and!; [done|done|]. apply same_digest; [by apply (protected_wf r1)|by apply (protected_wf r2)|congruence].
Qed.

Lemma verify_tamper_evident_witness :
  ∃ r j1 j2, Build sample_env sample_input = Some (Ok r) ∧ protected r j1 ∧ protected r j2
    ∧ (same_document j1 j2 ∨ digest_collision (encode j1) (encode j2)).
Proof.
  destruct sample_intact as (r & Hr & Hv). exists r.
  destruct (verify_tamper_evident r r Hv Hv eq_refl) as (j1 & j2 & H1 & H2 & H).
  exists j1, j2. split; [exact Hr|]. split; [exact H1|]. split; [exact H2|exact H].
Defined.

(** ** The guards of [Build] *)

(** What [Build] recomputes from its normalized input, guard by guard. *)
Definition observed_cleanup (i : Input) : result string string :=
  cleanupVerdictFromObservations (elems (in_Observations i)) (in_Completed i).
Definition listener_evidence (i : Input) : result string () :=
  validatePortListenerEvidence (observerRequired (rp_ObserverSet (in_Plan i)) "port-listen") (in_Completed i)
    (elems (in_Observations i)) (in_Errors i).
(** The resource usage of the result; a duration not given is the run's. *)
Definition result_resources (i : Input) : ResourceSummary :=
  if r_DurationMillis (in_Resources i) =? 0
  then set_duration (in_Resources i) (sub_millis (in_CompletedAt i) (in_StartedAt i))
  else in_Resources i.
(** The result [Build] seals when no guard refuses. *)
Definition assembled (i : Input) (functional cleanup : string) : VerificationResult :=
  let cov := coverageFor (rp_ObserverSet (in_Plan i)) (in_Runner i) in
  assemble i
    (with_overall functional (capabilityVerdict (in_Errors i) cov.2)
       (reproducibilityVerdict (in_Requested i) (in_Completed i) (in_Matching i) (in_SuccessThreshold i)) cleanup)
    cov.1 (baselinePolicy (rp_PolicyBundleDigest (in_Plan i)) (in_Runner i) cov.2).

(** [Build] behind its test for null findings, with the guards named. *)
Definition build_guards (i : Input) (functional : string) : result error VerificationResult :=
  let! observed := map_err (schema_wrap "Cleanup observations do not satisfy the authoritative evidence contract.")
    (observed_cleanup i) in
  let cleanup := cleanupVerdict observed (in_Completed i) (in_Errors i) in
  fail_if (in_Cleanup i !=s cleanup)
    with (schema_error "Caller cleanup verdict does not match cleanup observations and findings."
            [("caller", VNamed (in_Cleanup i)); ("observed", VNamed cleanup)]) ;;
  let! _ := map_err (schema_wrap "Peer TCP listener evidence does not satisfy the authoritative public contract.")
    (listener_evidence i) in
  let field := invalidResourceSummaryField (result_resources i) in
  fail_if (field !=s "")
    with (schema_error "Resource usage evidence does not match the bounded contract." [("field", VStr field)]) ;;
  seal (assembled i functional cleanup).

Lemma null_finding_or_not (errs : list (option Error)) : None ∈ errs ∨ None ∉ errs.
Proof.
  induction errs as [|[e|] l IH]; [right; apply not_elem_of_nil| |left; left].
  destruct IH as [H|H]; [left; by right|right]. by intros [?|?]%elem_of_cons.
Qed.

Lemma build_null_finding env input : let i := normalize_input env input in
  None ∈ in_Errors i →
  Build env input =
    Some (Err (schema_error "Verification findings contain a null item." [("index", VInt (nilErrorIndex (in_Errors i)))])).
Proof.
  intros i Hnil. unfold Build. fold i. destruct (0 <=? nilErrorIndex (in_Errors i)) eqn:E; [done|].
  by apply nilErrorIndex_spec in E.
Qed.

Lemma build_of_guards env input : let i := normalize_input env input in
  None ∉ in_Errors i → ∃ functional,
  functionalVerdict (elems (in_Assertions i)) (in_Errors i) (in_Completed i) = Some functional
  ∧ Build env input = Some (build_guards i functional).
Proof.
  intros i Hnil. destruct (functionalVerdict_total (elems (in_Assertions i)) (in_Errors i) (in_Completed i) Hnil) as [f Hf].
  exists f. split; [done|]. unfold Build. fold i. rewrite (proj2 (nilErrorIndex_spec _) Hnil), Hf.
  unfold build_guards, assembled, listener_evidence, observed_cleanup.
  destruct (coverageFor (rp_ObserverSet (in_Plan i)) (in_Runner i)) as [coverage complete]. done.
Qed.

Lemma build_error_code env input e :
  Build env input = Some (Err (DomainError e)) → er_Code e = CodeObservationSchemaInvalid.
Proof.
  destruct (null_finding_or_not (in_Errors (normalize_input env input))) as [Hnil|Hnil].
  { rewrite (build_null_finding _ _ Hnil). by intros [= <-]. }
  destruct (build_of_guards _ _ Hnil) as (f & _ & ->). intros H. injection H as H. unfold build_guards in H.
  destruct (observed_cleanup _) as [o|]; cbn [map_err bind_result] in H; [|by injection H as <-].
  destruct (_ !=s cleanupVerdict _ _ _); [by injection H as <-|].
  destruct (listener_evidence _) as [[]|]; cbn [map_err bind_result] in H; [|by injection H as <-].
  destruct (_ !=s ""); [by injection H as <-|]. by destruct (seal_error _ _ H).
Qed.

(** C4: The paths of [Build], in order, each with its message: it never panics; a null
    finding, rejected cleanup observations, a cleanup verdict of the caller that
    differs from the recomputed one, rejected listener evidence and a resource field
    outside the bounded contract are refused one after the other, and what passes all
    of them is the assembled result, sealed with its digests.  So a result is returned
    only when every guard passes, and every contract error carries the schema-invalid
    code. *)
Theorem build_rejects env input :
  let i := normalize_input env input in
  is_Some (Build env input)
  ∧ (None ∈ in_Errors input →
       Build env input = Some (Err (schema_error "Verification findings contain a null item."
                                      [("index", VInt (nilErrorIndex (in_Errors input)))])))
  ∧ (None ∉ in_Errors input →
     (∀ e, observed_cleanup input = Err e →
        Build env input =
          Some (Err (schema_wrap "Cleanup observations do not satisfy the authoritative evidence contract." e)))
     ∧ (∀ observed, observed_cleanup input = Ok observed →
        let cleanup := cleanupVerdict observed (in_Completed input) (in_Errors input) in
        (in_Cleanup input ≠ cleanup →
           Build env input = Some (Err (schema_error "Caller cleanup verdict does not match cleanup observations and findings."
                                          [("caller", VNamed (in_Cleanup input)); ("observed", VNamed cleanup)])))
        ∧ (in_Cleanup input = cleanup →
           (∀ e, listener_evidence input = Err e →
              Build env input =
                Some (Err (schema_wrap "Peer TCP listener evidence does not satisfy the authoritative public contract." e)))
           ∧ (listener_evidence input = Ok tt →
              let field := invalidResourceSummaryField (result_resources i) in
              (field ≠ "" →
                 Build env input = Some (Err (schema_error "Resource usage evidence does not match the bounded contract."
                                                [("field", VStr field)])))
              ∧ (field = "" → ∃ functional,
                   functionalVerdict (elems (in_Assertions input)) (in_Errors input) (in_Completed input) = Some functional
                   ∧ Build env input = Some (seal (assembled i functional cleanup)))))))
  ∧ (∀ r, Build env input = Some (Ok r) →
       (None ∉ in_Errors input)
       ∧ (∃ observed, observed_cleanup input = Ok observed
            ∧ in_Cleanup input = cleanupVerdict observed (in_Completed input) (in_Errors input))
       ∧ listener_evidence input = Ok tt ∧ invalidResourceSummaryField (result_resources i) = "")
  ∧ (∀ e, Build env input = Some (Err (DomainError e)) → er_Code e = CodeObservationSchemaInvalid).
Proof.
  cbv zeta. change (in_Errors input) with (in_Errors (normalize_input env input)).
  change (in_Completed input) with (in_Completed (normalize_input env input)).
  change (in_Cleanup input) with (in_Cleanup (normalize_input env input)).
  change (in_Assertions input) with (in_Assertions (normalize_input env input)).
  change (observed_cleanup input) with (observed_cleanup (normalize_input env input)).
  change (listener_evidence input) with (listener_evidence (normalize_input env input)).
  pose proof (build_error_code env input) as Hcode. pose proof (build_of_guards env input) as HB.
  pose proof (build_null_finding env input) as Hnull. set (i := normalize_input env input) in *.
  destruct (null_finding_or_not (in_Errors i)) as [Hnil|Hnil].
  { specialize (Hnull Hnil). rewrite Hnull in Hcode |- *. split_and!; [by eexists|done..]. }
  destruct (HB Hnil) as (functional & Hf & E). rewrite E in *. clear HB Hnull E.
  split_and!; [by eexists|done| | |done].
  - intros _. unfold build_guards. split; [by intros e ->|]. intros observed ->. cbn [map_err bind_result].
    split; [by intros ->%String.eqb_neq|]. intros ->%String.eqb_eq. cbn [negb]. split; [by intros e ->|].
    intros ->. cbn [map_err bind_result]. split; [by intros ->%String.eqb_neq|]. intros ->. by exists functional.
  - intros r [= H]. split; [done|]. unfold build_guards in H.
    destruct (observed_cleanup i) as [o|]; [|done]. cbn [map_err bind_result] in H.
    destruct (String.eqb_spec (in_Cleanup i) (cleanupVerdict o (in_Completed i) (in_Errors i))) as [Hc|]; [|done].
    destruct (listener_evidence i) as [[]|]; [|done]. cbn [map_err bind_result negb] in H.
    destruct (String.eqb_spec (invalidResourceSummaryField (result_resources i)) "") as [He|]; [|done]. naive_solver.
Qed.
