(* ===== verification/HostFiles.v ===== *)
(** * The private state directories (the platform_unix.go files)

    The file operations the four monotonic state packages share, on the unix
    build: the walk that creates and checks private directories, the lock file,
    opening and checking a record file, and temporary files.  The host is a map
    from paths to what [Lstat] reports there, plus a schedule of failures: every
    system call may fail.  A path through a symbolic link is an entry of its
    own; a call never changes a path other than its operand. *)

From S2P Require Import Prelude.

Local Open Scope Z_scope.

Create HintDb io.

(** The components of an absolute, clean path. *)
Definition path := list string.

Record attributes := { a_mode : Z; a_uid : Z; a_nlink : Z }.

(** What [Lstat] reports: permission bits, owner, links and content. *)
Inductive node :=
  | Directory (a : attributes)
  | Regular (a : attributes) (content : string)
  | Symlink
  | Special.

(** [faults] says, call by call, whether the next system call (or context
    check) fails; after its end none does.  [names] are the random parts of
    the names [os.CreateTemp] tries. *)
Record world := {
  files : gmap path node; euid : Z; cwd : option path; faults : list bool; names : list string
}.

Definition set_files (w : world) (m : gmap path node) : world :=
  {| files := m; euid := euid w; cwd := cwd w; faults := faults w; names := names w |}.
Definition set_faults (w : world) (l : list bool) : world :=
  {| files := files w; euid := euid w; cwd := cwd w; faults := l; names := names w |}.
Definition set_names (w : world) (l : list string) : world :=
  {| files := files w; euid := euid w; cwd := cwd w; faults := faults w; names := l |}.

(** ** Calls that may fail *)

Definition io (A : Type) : Type := world → option A * world.

Definition ret {A} (a : A) : io A := λ w, (Some a, w).
Definition fail {A} : io A := λ w, (None, w).
Definition bind_io {A B} (m : io A) (k : A → io B) : io B :=
  λ w, match m w with (Some a, w) => k a w | (None, w) => (None, w) end.

Notation "'io!' x ':=' m 'in' k" := (bind_io m (λ x, k))
  (at level 10, x pattern, m at level 100, k at level 200) : go_scope.

(** [m] with its failure as a value. *)
Definition try {A} (m : io A) : io (option A) := λ w, let '(o, w) := m w in (Some o, w).

Definition require (b : bool) : io unit := if b then ret tt else fail.

(** One system call, or one [ctx.Err()], that fails when the schedule says so. *)
Definition attempt : io unit := λ w,
  match faults w with
  | [] => (Some tt, w)
  | true :: l => (None, set_faults w l)
  | false :: l => (Some tt, set_faults w l)
  end.

Definition effective_uid : io Z := λ w, (Some (euid w), w).
Definition node_at (p : path) : io (option node) := λ w, (Some (files w !! p), w).
Definition put (p : path) (n : node) : io unit := λ w, (Some tt, set_files w (<[p := n]> (files w))).
Definition drop (p : path) : io unit := λ w, (Some tt, set_files w (delete p (files w))).

(** [os.Lstat]: [None] when there is no such file, failure for another error. *)
Definition lstat (p : path) : io (option node) := io! _ := attempt in node_at p.

Definition is_directory (n : option node) : bool := match n with Some (Directory _) => true | _ => false end.
Definition parent (p : path) : path := removelast p.

(** [filepath.EvalSymlinks(p)] is [p]: no link on the way, and [p] exists. *)
Fixpoint no_links (w : world) (done todo : path) : bool :=
  match todo with
  | [] => match files w !! done with Some Symlink | None => false | _ => true end
  | c :: rest => is_directory (files w !! done) && no_links w (done ++ [c]) rest
  end.
Definition resolves_to_itself (p : path) : io unit :=
  io! _ := attempt in λ w, require (no_links w [] p) w.

(** ** platform_unix.go *)

Definition containsNUL (value : string) : bool := string_contains_byte (byte_of 0) value.
Definition safeNativeInput (value : string) : bool := (value !=s "") && negb (containsNUL value).
Definition safeNativePath (p : path) : bool := forallb (λ c, negb (containsNUL c)) p.

Definition createPrivateDirectory (p : path) : io bool :=
  io! _ := attempt in
  io! n := node_at p in
  match n with
  | Some _ => ret false
  | None =>
      io! up := node_at (parent p) in
      io! _ := require (is_directory up) in
      io! uid := effective_uid in
      io! _ := put p (Directory {| a_mode := 448; a_uid := uid; a_nlink := 2 |}) in
      ret true
  end.

(** A new empty file of mode 0600, or [false] when the path exists. *)
Definition create_file (p : path) : io bool :=
  io! _ := attempt in
  io! n := node_at p in
  match n with
  | Some _ => ret false
  | None =>
      io! up := node_at (parent p) in
      io! _ := require (is_directory up) in
      io! uid := effective_uid in
      io! _ := put p (Regular {| a_mode := 384; a_uid := uid; a_nlink := 1 |} "") in
      ret true
  end.
Definition createPrivateLock (p : path) : io bool := create_file p.

(** [os.Open] and [os.OpenFile] of an existing file: a link or a special file
    that opens is refused by the checks that follow. *)
Definition open_existing (p : path) : io unit :=
  io! _ := attempt in
  io! n := node_at p in
  require (match n with Some (Regular _ _) => true | _ => false end).

Definition validateDirectoryPlatform (n : node) : bool := is_directory (Some n).

(** [mask] is 0o022 in truststate and releasestate, 0o077 in the others. *)
Definition validatePrivateStateDirectoryPlatform (mask uid : Z) (n : node) : bool :=
  match n with
  | Directory a => (a_uid a =? uid) && (Z.land (a_mode a) mask =? 0)
  | _ => false
  end.

Definition private_file (uid : Z) (n : option node) : bool :=
  match n with
  | Some (Regular a _) => (Z.land (a_mode a) 63 =? 0) && (a_nlink a =? 1) && (a_uid a =? uid)
  | _ => false
  end.

(** [validateOpenedRegularFile(file, path, true)] of the file opened at [p]. *)
Definition validateOpenedRegularFile (p : path) : io unit :=
  io! _ := attempt in
  io! n := lstat p in
  io! uid := effective_uid in
  io! _ := require (private_file uid n) in
  resolves_to_itself p.

(** [atomicReplace]: the rename of a regular file over [destination]. *)
Definition atomicReplace (source destination : path) : io unit :=
  io! _ := attempt in
  io! n := node_at source in
  io! target := node_at destination in
  io! _ := require (negb (is_directory target)) in
  match n with
  | Some n => io! _ := drop source in put destination n
  | None => fail
  end.

(** [syncDirectory]: open and sync. *)
Definition syncDirectory : io unit := io! _ := attempt in attempt.

(** ** The directories of the state files *)

Definition validateDirectory (p : path) : io unit :=
  io! n := lstat p in
  match n with
  | Some n => require (is_directory (Some n) && validateDirectoryPlatform n)
  | None => fail
  end.

Section Mask.
Variable mask : Z.

Definition validatePrivateStateDirectory (p : path) : io unit :=
  io! n := lstat p in
  io! uid := effective_uid in
  match n with
  | Some n => require (is_directory (Some n) && validatePrivateStateDirectoryPlatform mask uid n)
  | None => fail
  end.

(** The walk of [ensurePrivateDirectory], from [current] down; the answer is
    whether the last component was created. *)
Fixpoint ensure_components (current components : path) (createdTarget : bool) : io bool :=
  match components with
  | [] => ret createdTarget
  | component :: rest =>
      io! _ := require (negb ((component =s "") || (component =s ".") || (component =s ".."))) in
      let current := current ++ [component] in
      io! created := createPrivateDirectory current in
      io! _ := (if created then validatePrivateStateDirectory current else ret tt) in
      io! _ := validateDirectory current in
      ensure_components current rest (match rest with [] => created | _ => createdTarget end)
  end.

Definition ensurePrivateDirectory (p : path) : io bool :=
  io! _ := validateDirectory [] in
  ensure_components [] p false.

(** [repositoryLocal]: a marker next to the data root or above it; an error of
    [Lstat] counts as one.  The argument is the reversed path. *)
Definition marker_at (current : path) (marker : string) : io bool :=
  io! o := try (lstat (current ++ [marker])) in
  ret (match o with Some None => false | _ => true end).

Fixpoint repository_local (reversed : path) : io bool :=
  io! manifest := marker_at (rev reversed) "repo-passport.yml" in
  if manifest : bool then ret true
  else
    io! git := marker_at (rev reversed) ".git" in
    if git : bool then ret true
    else match reversed with [] => ret false | _ :: up => repository_local up end.
Definition repositoryLocal (dataRoot : path) : io bool := repository_local (rev dataRoot).

(** [filepath.Abs]: clean lexically, from the working directory when relative. *)
Fixpoint split_path (s : string) (component : string) : list string :=
  match s with
  | EmptyString => [component]
  | String c s' =>
      if Ascii.eqb c "/" then component :: split_path s' ""
      else split_path s' (component +:+ String c "")
  end.
Definition clean_step (acc : path) (component : string) : path :=
  if (component =s "") || (component =s ".") then acc
  else if component =s ".." then removelast acc
  else acc ++ [component].
Definition Abs (s : string) : io path :=
  if has_prefix "/" s then ret (foldl clean_step [] (split_path s ""))
  else
    io! _ := attempt in
    λ w, match cwd w with Some d => (Some (foldl clean_step d (split_path s "")), w) | None => (None, w) end.

(** The paths [stateRoot] prepares: the data root and the directories under it. *)
Fixpoint nested (current : path) (directories : list string) : list path :=
  current :: match directories with [] => [] | d :: rest => nested (current ++ [d]) rest end.

Fixpoint prepare (check_each : bool) (paths : list path) : io unit :=
  match paths with
  | [] => ret tt
  | p :: rest =>
      io! _ := (if check_each then attempt else ret tt) in
      io! _ := ensurePrivateDirectory p in
      io! _ := validatePrivateStateDirectory p in
      prepare check_each rest
  end.

(** [stateRoot]; [check_each] tells whether the context is checked once before
    the directories (truststate, releasestate) or before each. *)
Definition stateRoot (check_each : bool) (directories : list string) (dataRoot : string) : io path :=
  io! _ := require (safeNativeInput dataRoot) in
  io! absolute := Abs dataRoot in
  io! _ := require (safeNativePath absolute) in
  io! local := repositoryLocal absolute in
  io! _ := require (negb local) in
  io! _ := (if check_each then ret tt else attempt) in
  io! _ := prepare check_each (nested absolute directories) in
  let root := absolute ++ directories in
  io! _ := resolves_to_itself root in
  ret root.
End Mask.

(** ** The lock *)

Definition openLock (p : path) : io unit :=
  io! created := createPrivateLock p in
  io! _ := (if created : bool then ret tt else open_existing p) in
  validateOpenedRegularFile p.

(** [acquireLock]: the context is checked, then [flock] is tried until it is
    held, the context ends or the time is over; the schedule has the outcome. *)
Definition acquireLock : io unit := io! _ := attempt in attempt.

(** ** Temporary files *)

(** [os.CreateTemp]: the first of the random names that is free. *)
Fixpoint first_free (directory : path) (prefix : string) (l : list string) : io path :=
  match l with
  | [] => fail
  | name :: rest =>
      let p := directory ++ [prefix +:+ name] in
      io! _ := (λ w, (Some tt, set_names w rest)) in
      io! created := create_file p in
      if created : bool then ret p else first_free directory prefix rest
  end.
Definition CreateTemp (directory : path) (prefix : string) : io path :=
  λ w, first_free directory prefix (names w) w.

(** [file.Write] of the whole content.  What a failed write leaves in the
    temporary file is never read: the file is only removed. *)
Definition write_file (p : path) (content : string) : io unit :=
  io! _ := attempt in
  io! n := node_at p in
  match n with
  | Some (Regular a _) => put p (Regular a content)
  | _ => fail
  end.

(** [os.Remove] of a file, its error ignored. *)
Definition remove_quietly (p : path) : io unit :=
  io! o := try attempt in
  match o with Some _ => drop p | None => ret tt end.

(** ** What the calls leave alone

    [keeps P m]: whatever [m] does, a path outside [P] that names something
    names the same thing afterwards.  All calls but the writes of the record
    keep everything. *)

Definition keeps (P : path → Prop) {A} (m : io A) : Prop :=
  ∀ w q n, ¬ P q → files w !! q = Some n → files (m w).2 !! q = Some n.
Definition nothing (q : path) : Prop := False.

Lemma keeps_weaken (P Q : path → Prop) {A} (m : io A) : (∀ q, P q → Q q) → keeps P m → keeps Q m.
Proof. intros H Hm w q n Hq. apply Hm. auto. Qed.
Lemma keeps_nothing P {A} (m : io A) : keeps nothing m → keeps P m.
Proof. apply keeps_weaken. by intros ? []. Qed.
Lemma keeps_pure P {A} (m : io A) : (∀ w, files (m w).2 = files w) → keeps P m.
Proof. intros H w q n _. by rewrite H. Qed.
Lemma keeps_ret P {A} (a : A) : keeps P (ret a). Proof. by apply keeps_pure. Qed.
Lemma keeps_fail P {A} : keeps P (@fail A). Proof. by apply keeps_pure. Qed.
Lemma keeps_require P b : keeps P (require b). Proof. destruct b; by apply keeps_pure. Qed.
Lemma keeps_bind P {A B} (m : io A) (k : A → io B) :
  keeps P m → (∀ a, keeps P (k a)) → keeps P (bind_io m k).
Proof.
  intros Hm Hk w q n Hq Hn. unfold bind_io. specialize (Hm w q n Hq Hn).
  destruct (m w) as [[a|] w1]; [|exact Hm]. by apply Hk.
Qed.
Lemma keeps_try P {A} (m : io A) : keeps P m → keeps P (try m).
Proof. intros Hm w q n Hq Hn. unfold try. specialize (Hm w q n Hq Hn). by destruct (m w). Qed.
Lemma keeps_attempt P : keeps P attempt.
Proof. apply keeps_pure. intros w. unfold attempt. by destruct (faults w) as [|[] l]. Qed.
Lemma keeps_uid P : keeps P effective_uid. Proof. by apply keeps_pure. Qed.
Lemma keeps_node_at P p : keeps P (node_at p). Proof. by apply keeps_pure. Qed.
#[export] Hint Resolve keeps_ret keeps_fail keeps_require keeps_try keeps_attempt keeps_uid keeps_node_at : io.

(** A chain of calls, each of which keeps the same paths. *)
Ltac keep := intros; repeat (first
  [ solve [eauto with io]
  | apply keeps_bind; [|intros ?]
  | match goal with
    | |- keeps _ (match ?o with Some _ => _ | None => _ end) => destruct o
    | |- keeps _ (if ?b then _ else _) => destruct b
    | |- keeps _ (match ?l with [] => _ | _ :: _ => _ end) => destruct l
    end ]).

Lemma keeps_lstat P p : keeps P (lstat p). Proof. unfold lstat. keep. Qed.
#[export] Hint Resolve keeps_lstat : io.
Lemma keeps_resolves P p : keeps P (resolves_to_itself p).
Proof. unfold resolves_to_itself. keep. apply keeps_pure. intros w. by destruct (no_links w [] p). Qed.
#[export] Hint Resolve keeps_resolves : io.
Lemma keeps_open P p : keeps P (open_existing p). Proof. unfold open_existing. keep. Qed.
Lemma keeps_opened P p : keeps P (validateOpenedRegularFile p).
Proof. unfold validateOpenedRegularFile. keep. Qed.
Lemma keeps_sync P : keeps P syncDirectory. Proof. unfold syncDirectory. keep. Qed.
#[export] Hint Resolve keeps_open keeps_opened keeps_sync : io.

(** Creating what is absent disturbs nothing. *)
Lemma keeps_put_absent P p up m :
  keeps P (io! _ := attempt in
           io! n := node_at p in
           match n with Some _ => ret false | None => io! a := node_at up in
             io! _ := require (is_directory a) in io! uid := effective_uid in io! _ := put p (m uid) in ret true end).
Proof.
  apply keeps_bind; [auto with io|intros []]. intros w q n Hq Hn. unfold bind_io at 1, node_at at 1.
  destruct (files w !! p) as [n'|] eqn:E; [exact Hn|]. unfold bind_io, node_at, require.
  destruct (is_directory _); [|exact Hn]. cbn. rewrite lookup_insert_ne; [done|]. intros ->. congruence.
Qed.
Lemma keeps_mkdir P p : keeps P (createPrivateDirectory p).
Proof. exact (keeps_put_absent P p (parent p) (λ uid, Directory {| a_mode := 448; a_uid := uid; a_nlink := 2 |})). Qed.
Lemma keeps_create P p : keeps P (create_file p).
Proof. exact (keeps_put_absent P p (parent p) (λ uid, Regular {| a_mode := 384; a_uid := uid; a_nlink := 1 |} "")). Qed.
#[export] Hint Resolve keeps_mkdir keeps_create : io.

Lemma keeps_validate P p : keeps P (validateDirectory p). Proof. unfold validateDirectory. keep. Qed.
Lemma keeps_validate_private P mask p : keeps P (validatePrivateStateDirectory mask p).
Proof. unfold validatePrivateStateDirectory. keep. Qed.
#[export] Hint Resolve keeps_validate keeps_validate_private : io.

Lemma keeps_ensure P mask p : keeps P (ensurePrivateDirectory mask p).
Proof.
  unfold ensurePrivateDirectory. apply keeps_bind; [auto with io|intros _]. generalize false as b. generalize (@nil string) as current.
  induction p as [|c p IH]; intros current b; cbn [ensure_components]; [auto with io|]. keep.
Qed.
#[export] Hint Resolve keeps_ensure : io.

Lemma keeps_local P p : keeps P (repositoryLocal p).
Proof.
  unfold repositoryLocal. assert (∀ c s, keeps P (marker_at c s)) as Hm by (unfold marker_at; keep).
  induction (rev p) as [|c l IH]; cbn [repository_local]; keep.
Qed.
Lemma keeps_Abs P s : keeps P (Abs s).
Proof. unfold Abs. keep. apply keeps_pure. intros w. by destruct (cwd w). Qed.
#[export] Hint Resolve keeps_local keeps_Abs : io.

Lemma keeps_stateRoot P mask each directories s : keeps P (stateRoot mask each directories s).
Proof.
  unfold stateRoot. keep. induction (nested _ _) as [|p l IH]; cbn [prepare]; keep.
Qed.
Lemma keeps_openLock P p : keeps P (openLock p).
Proof. unfold openLock, createPrivateLock. keep. Qed.
Lemma keeps_acquireLock P : keeps P acquireLock.
Proof. unfold acquireLock. keep. Qed.
#[export] Hint Resolve keeps_stateRoot keeps_openLock keeps_acquireLock : io.

(** ** Calls that only look *)

Definition looks {A} (m : io A) : Prop := ∀ w, files (m w).2 = files w.

Lemma looks_bind {A B} (m : io A) (k : A → io B) : looks m → (∀ a, looks (k a)) → looks (bind_io m k).
Proof. intros Hm Hk w. unfold bind_io. specialize (Hm w). destruct (m w) as [[a|] w1]; [|done]. by rewrite Hk. Qed.
Lemma looks_ret {A} (a : A) : looks (ret a). Proof. done. Qed.
Lemma looks_fail {A} : looks (@fail A). Proof. done. Qed.
Lemma looks_require b : looks (require b). Proof. by destruct b. Qed.
Lemma looks_attempt : looks attempt.
Proof. intros w. unfold attempt. by destruct (faults w) as [|[] l]. Qed.
Lemma looks_uid : looks effective_uid. Proof. done. Qed.
Lemma looks_node_at p : looks (node_at p). Proof. done. Qed.
#[export] Hint Resolve looks_bind looks_ret looks_fail looks_require looks_attempt looks_uid looks_node_at : io.

(** A chain of such calls. *)
Ltac look := repeat (first [solve [auto with io] | apply looks_bind; [|intros ?]]).

Lemma looks_lstat p : looks (lstat p). Proof. unfold lstat. auto with io. Qed.
Lemma looks_resolves p : looks (resolves_to_itself p).
Proof. apply looks_bind; [auto with io|]. intros [] w. by destruct (no_links w [] p). Qed.
#[export] Hint Resolve looks_lstat looks_resolves : io.
Lemma looks_open p : looks (open_existing p).
Proof. apply looks_bind; [auto with io|]. auto with io. Qed.
Lemma looks_opened p : looks (validateOpenedRegularFile p).
Proof. unfold validateOpenedRegularFile. look. Qed.
Lemma looks_sync : looks syncDirectory. Proof. unfold syncDirectory. auto with io. Qed.
#[export] Hint Resolve looks_open looks_opened looks_sync : io.

(** A sequence that succeeds: its first call does, and the rest from there. *)
Lemma bind_some {A B} (m : io A) (k : A → io B) w b w' :
  bind_io m k w = (Some b, w') → ∃ a w1, m w = (Some a, w1) ∧ k a w1 = (Some b, w').
Proof. unfold bind_io. destruct (m w) as [[a|] w1]; [|done]. intros H. by exists a, w1. Qed.
Lemma looks_after {A} (m : io A) w a w' : looks m → m w = (a, w') → files w' = files w.
Proof. intros H E. specialize (H w). by rewrite E in H. Qed.
Lemma keeps_after P {A} (m : io A) w a w' q n :
  keeps P m → m w = (a, w') → ¬ P q → files w !! q = Some n → files w' !! q = Some n.
Proof. intros H E Hq Hn. specialize (H w q n Hq Hn). by rewrite E in H. Qed.
Lemma require_some b w u w' : require b w = (Some u, w') → b = true ∧ w' = w.
Proof. destruct b; [|done]. by intros [= _ <-]. Qed.

(** A host with a private data directory, for concrete runs. *)
Definition sample_world (schedule : list bool) : world :=
  {| files := <[[] := Directory {| a_mode := 493; a_uid := 0; a_nlink := 2 |}]>
              (<[["data"] := Directory {| a_mode := 448; a_uid := 1000; a_nlink := 2 |}]> ∅);
     euid := 1000; cwd := None; faults := schedule; names := ["01"; "02"; "03"; "04"; "05"; "06"] |}.
