(* ===== verification/MonotonicState.v ===== *)
(** * Monotonic state records

    What truststate, releasestate, trustchainstate and trustrotationstate have
    in common: a small canonical JSON record per key in a private directory,
    read, compared with an observation and replaced under a lock.  A package is
    an instance of [StateRecord]; its laws ([StateLaws]) and an order on its
    records ([Advancing]) give the round trip of the records and the
    monotonicity of the whole store, for every schedule of failures. *)

From S2P Require Import Prelude Json StructuredJson JsonUnmarshal GoValue CanonicalJson Domain HostFiles.

Local Open Scope Z_scope.

Definition maxGeneration : Z := 9007199254740991.

(** [validKeyID] and [validDigest]. *)
Definition validDigest (value : string) : bool := digest_string "sha256:" value 64.

(** A generation is a uint64: [== 0] is [<= 0]. *)
Definition valid_generation (generation : Z) : bool := negb ((generation <=? 0) || (maxGeneration <? generation)).

Lemma validDigest_utf8 s : validDigest s = true → utf8_valid s = true.
Proof.
  intros (h & -> & _ & Hh)%digest_string_iff. apply utf8_valid_ascii. rewrite string_forallb_app.
  cbn [andb]. apply andb_true_intro. split; [done|]. eapply string_forallb_impl; [|exact Hh]. intros c Hc.
  pose proof (ascii_all (λ c, implb (is_lower_hex c) (ascii7 c)) ltac:(vm_compute; reflexivity) c) as H.
  cbv beta in H. by rewrite Hc in H.
Qed.
Lemma valid_generation_bounds g : valid_generation g = true → 0 < g <= maxGeneration.
Proof. unfold valid_generation. rewrite negb_true_iff, orb_false_iff, Z.leb_gt, Z.ltb_ge. done. Qed.
Lemma uint64_reads g : 0 <= g <= maxGeneration → parse_uint 64 (dec_Z g) = Some g.
Proof. intros H. apply parse_uint_dec_Z. unfold maxGeneration in H. lia. Qed.

Definition byte_order_mark : string := String (byte_of 239) (String (byte_of 187) (String (byte_of 191) "")).
Definition carriage_return : ascii := byte_of 13.

(** The record of a package: its size limit, its JSON fields, the struct they
    fill, the validity test and [json.Marshal] of it. *)
Class StateRecord (R : Type) := {
  record_eq_dec :: EqDecision R;
  maxStateBytes : Z;
  record_fields : list (string * field_kind);
  of_members : list (string * json) → R;
  validRecord : R → bool;
  record_doc : R → doc
}.

Section Records.
Context {R : Type} `{SR : StateRecord R}.

Definition canonicalRecord (value : R) : option string :=
  if negb (validRecord value) then None
  else
    match Marshal (record_doc value) with
    | Ok raw => if maxStateBytes <? zlen raw then None else Some raw
    | Err _ => None
    end.

Definition decodeRecord (raw : string) : option R :=
  if (raw =s "") || (maxStateBytes <? zlen raw) || negb (utf8_valid raw)
     || string_contains_byte carriage_return raw || has_prefix byte_order_mark raw
  then None
  else
    let? (j, d) := read_first raw in
    let? members := struct_members j in
    match first_error record_fields members with
    | Some _ => None
    | None =>
        let value := of_members members in
        if negb (at_eof d) || negb (validRecord value) then None
        else
          match canonicalRecord value with
          | Some canonical => if raw =s canonical then Some value else None
          | None => None
          end
    end.

(** [readRecord]: [None] when there is no file; any other trouble fails. *)
Definition readBounded (p : path) : io string :=
  io! _ := attempt in
  io! n := node_at p in
  match n with
  | Some (Regular _ content) => io! _ := require (zlen content <=? maxStateBytes) in ret content
  | _ => fail
  end.

Definition of_opt {A} (o : option A) : io A := match o with Some a => ret a | None => fail end.

Definition readRecord (p : path) : io (option R) :=
  io! info := lstat p in
  match info with
  | None => ret None
  | Some (Regular _ _) =>
      io! _ := open_existing p in
      io! _ := validateOpenedRegularFile p in
      io! raw := readBounded p in
      io! value := of_opt (decodeRecord raw) in
      ret (Some value)
  | Some _ => fail
  end.

(** The part of [writeAndVerifyRecord] all packages share: from the write of
    the temporary file to the verified record. *)
Definition commit (temporary target : path) (raw : string) (value : R) : io unit :=
  io! _ := write_file temporary raw in
  io! _ := attempt in                         (* Sync *)
  io! _ := attempt in                         (* Close *)
  io! _ := atomicReplace temporary target in
  io! _ := syncDirectory in
  io! actual := readRecord target in
  require (bool_decide (actual = Some value)).

(** [prepare] is what a package does with the new temporary file first;
    [os.Remove(temporaryPath)] is deferred. *)
Definition write_record (prefix : string) (prepare : path → io unit) (directory target : path) (value : R) : io unit :=
  io! raw := of_opt (canonicalRecord value) in
  io! temporary := CreateTemp directory prefix in
  io! o := try (io! _ := prepare temporary in commit temporary target raw value) in
  io! _ := remove_quietly temporary in
  of_opt o.

(** ** Observing *)

(** How an observation compares with the stored record. *)
Inductive decision := Foreign | Refuses (evaluation : string) | Matches | Advances.

(** How an observation ends. *)
Inductive outcome :=
  | Unavailable (stored : option R)
  | Refused (evaluation : string) (stored : R)
  | Matched (stored : R)
  | Advanced
  | Initialized.

(** [Observe] from its lock to its result: [opening] is the path to the locked
    directory, [classify] the package's switch, [write] its write. *)
Definition observe_record (opening : io path) (name : string) (write : path → path → R → io unit)
    (classify : R → decision) (next : R) : world → outcome * world := λ w,
  match opening w with
  | (None, w) => (Unavailable None, w)
  | (Some root, w) =>
      let target := root ++ [name +:+ ".json"] in
      match readRecord target w with
      | (None, w) => (Unavailable None, w)
      | (Some None, w) =>
          match write root target next w with
          | (Some _, w) => (Initialized, w)
          | (None, w) => (Unavailable None, w)
          end
      | (Some (Some stored), w) =>
          match classify stored with
          | Foreign => (Unavailable (Some stored), w)
          | Refuses evaluation => (Refused evaluation stored, w)
          | Matches => (Matched stored, w)
          | Advances =>
              match write root target next w with
              | (Some _, w) => (Advanced, w)
              | (None, w) => (Unavailable (Some stored), w)
              end
          end
      end
  end.

(** The root, then the lock file, then the lock; [recheck] is the context
    check some packages make with the lock held. *)
Definition open_locked (root : io path) (name : string) (recheck : io unit) : io path :=
  io! root := root in
  io! _ := openLock (root ++ [name +:+ ".lock"]) in
  io! _ := acquireLock in
  io! _ := recheck in
  ret root.

Definition accepted (o : outcome) : bool :=
  match o with Matched _ | Advanced | Initialized => true | _ => false end.

(** The record at a path, whatever the checks on its file say. *)
Definition stored (w : world) (p : path) : option R :=
  match files w !! p with Some (Regular _ content) => decodeRecord content | _ => None end.
End Records.
Arguments decision : clear implicits.
Arguments outcome R : clear implicits.

(** ** The records on disk *)

Section RecordLaws.
Context {R : Type} `{SR : StateRecord R}.

(** A valid record is an object with known, fitting members whose struct it is. *)
Record faithful (r : R) (l : list (string * json)) : Prop := {
  faithful_doc : record_doc r = Ok (JObj l);
  faithful_wf : wf (JObj l) = true;
  faithful_keys : validateASCIIObjectKeys (JObj l) = Ok tt;
  faithful_fields : Forall (λ p : string * json, ∃ k, assoc p.1 record_fields = Some k ∧ fits k p.2 = true) l;
  faithful_struct : ∀ l', NoDup l'.*1 → known record_fields l' → (∀ k, assoc k l' = assoc k l) → of_members l' = r
}.
Class StateLaws : Prop := state_laws r : validRecord r = true → ∃ l, faithful r l.
Context `{SL : !StateLaws}.

Lemma canonicalRecord_inv r raw :
  canonicalRecord r = Some raw →
  validRecord r = true ∧ zlen raw <= maxStateBytes ∧ ∃ l, faithful r l ∧ raw = encode (canon (JObj l)).
Proof.
  unfold canonicalRecord. destruct (validRecord r) eqn:Hv; [|done]. cbn [negb].
  destruct (state_laws r Hv) as (l & Hl). rewrite (faithful_doc _ _ Hl). unfold Marshal. cbn [map_err bind_result].
  rewrite (faithful_keys _ _ Hl). cbn [bind_result].
  destruct (Z.ltb_spec maxStateBytes (zlen (encode (JObj l)))) as [|Hle]; [done|]. injection 1 as <-.
  split; [done|]. split; [done|]. exists l. split; [done|]. symmetry. apply encode_canon, (faithful_wf _ _ Hl).
Qed.

Lemma assoc_sort_keys {A} (l : list (string * A)) k : NoDup l.*1 → assoc k (sort_keys l) = assoc k l.
Proof.
  intros Hnd. assert (NoDup (sort_keys l).*1) as Hs by by apply keys_sorted_NoDup, sort_keys_is_sorted.
  destruct (assoc k l) as [v|] eqn:E.
  - apply assoc_NoDup; [done|]. apply sort_keys_elem. by apply assoc_In.
  - apply assoc_None_iff. rewrite sort_keys_keys. by apply assoc_None_iff.
Qed.

Lemma fits_flat k j : fits k j = true → canon j = j ∧ depth_of j = 0.
Proof. by destruct k, j. Qed.

(** The members as they are read back: the same in another order. *)
Lemma faithful_sorted r l :
  faithful r l → canon (JObj l) = JObj (sort_keys l) ∧ depth_of (canon (JObj l)) <= 1.
Proof.
  intros Hl. pose proof (faithful_fields _ _ Hl) as Hf.
  assert (List.map (λ p : string * json, (p.1, canon p.2)) l = l) as E.
  { clear -Hf. induction Hf as [|[k j] l (kind & _ & Hk) _ IH]; [done|]. cbn [List.map fst snd] in *.
    by rewrite IH, (proj1 (fits_flat _ _ Hk)). }
  cbn [canon]. rewrite E. split; [done|]. cbn [depth_of].
  assert (foldr (λ p n, Z.max (depth_of p.2) n) 0 (sort_keys l) <= 0) as Hd; [|lia].
  assert (Forall (λ p : string * json, depth_of p.2 = 0) (sort_keys l)) as Hall.
  { apply Forall_forall. intros p Hp. rewrite sort_keys_elem in Hp. rewrite Forall_forall in Hf.
    destruct (Hf p Hp) as (k0 & _ & Hk). by apply (fits_flat k0 p.2). }
  clear -Hall. induction Hall as [|p l0 Hp _ IH]; simpl; [lia|]. rewrite Hp. lia.
Qed.

Lemma no_control_clean s :
  string_forallb no_control s = true → string_contains_byte carriage_return s = false.
Proof.
  induction s as [|c s IH]; [done|]. cbn [string_forallb string_contains_byte]. intros [Hc Hs]%andb_prop.
  rewrite IH by done. rewrite orb_false_r. destruct (Ascii.eqb_spec c carriage_return) as [->|]; [done|].
  by destruct (Ascii.eqb_spec carriage_return c) as [<-|].
Qed.

(** Round trip: a record that has a canonical text is what that text decodes to. *)
Lemma decode_canonical r raw : canonicalRecord r = Some raw → decodeRecord raw = Some r.
Proof.
  intros Hc. destruct (canonicalRecord_inv r raw Hc) as (Hv & Hlen & l & Hl & Hraw).
  destruct (faithful_sorted r l Hl) as [Hsort Hdepth]. pose proof (faithful_wf _ _ Hl) as Hwf.
  assert (canonical (canon (JObj l)) = true) as Hcan by by apply canon_canonical.
  pose proof (encode_no_control _ Hcan) as Hnc. pose proof (encode_utf8 _ Hcan) as Hu.
  pose proof (read_document_encode _ Hcan ltac:(unfold maxNestingDepth; lia)) as Hread.
  rewrite <- Hraw in Hnc, Hu, Hread. unfold decodeRecord.
  assert (∃ t, raw = String "{" t) as [t Ht] by (rewrite Hraw, Hsort; cbn [encode]; by eexists).
  assert ((raw =s "") = false) as -> by by rewrite Ht. rewrite (proj2 (Z.ltb_ge _ _) Hlen), Hu. cbn [negb orb].
  rewrite no_control_clean by done.
  assert (has_prefix byte_order_mark raw = false) as -> by by rewrite Ht. cbn [orb].
  unfold read_document in Hread. destruct (read_first raw) as [[j d]|]; [|done]. cbn [mbind option_bind] in *.
  destruct (at_eof d); [|done]. rewrite Hsort in Hread. injection Hread as ->. cbn [struct_members mbind option_bind].
  pose proof (faithful_fields _ _ Hl) as Hf. cbn [wf] in Hwf. apply andb_prop in Hwf as [Hnd%bool_decide_eq_true _].
  assert (Forall (λ p : string * json, ∃ k, assoc p.1 record_fields = Some k ∧ fits k p.2 = true) (sort_keys l)) as Hf'.
  { apply Forall_forall. intros p Hp. rewrite sort_keys_elem in Hp. rewrite Forall_forall in Hf. by apply Hf. }
  rewrite first_error_none by done.
  rewrite (faithful_struct _ _ Hl (sort_keys l)).
  - rewrite Hv. cbn [negb orb]. by rewrite Hc, string_eqb_refl.
  - by apply keys_sorted_NoDup, sort_keys_is_sorted.
  - eapply Forall_impl; [exact Hf'|]. intros p (k & Hk & _). by exists k.
  - intros k. by apply assoc_sort_keys.
Qed.

Lemma decode_record_inv raw r : decodeRecord raw = Some r → canonicalRecord r = Some raw.
Proof.
  unfold decodeRecord. destruct (_ || _); [done|]. destruct (read_first raw) as [[j d]|]; [|done].
  cbn [mbind option_bind]. destruct (struct_members j) as [l|]; [|done]. cbn [mbind option_bind].
  destruct (first_error _ _); [done|]. destruct (_ || _); [done|].
  destruct (canonicalRecord (of_members l)) as [c|] eqn:E; [|done].
  destruct (String.eqb_spec raw c) as [->|]; [|done]. by intros [= <-].
Qed.

(** ** Reading and writing them *)

Lemma looks_of_opt {A} (o : option A) : looks (of_opt o).
Proof. by destruct o. Qed.
Lemma looks_readBounded p : looks (readBounded p).
Proof.
  unfold readBounded. apply looks_bind; [auto with io|intros _]. apply looks_bind; [auto with io|].
  intros [[]|]; look.
Qed.
#[local] Hint Resolve looks_of_opt looks_readBounded : io.
Lemma looks_readRecord p : looks (readRecord p).
Proof. unfold readRecord. apply looks_bind; [auto with io|]. intros [[]|]; look. Qed.

Lemma readRecord_spec p w o w' :
  readRecord p w = (Some o, w') →
  match o with Some r => stored w p = Some r | None => files w !! p = None end.
Proof.
  unfold readRecord. intros (info & w1 & Hl & Hk)%bind_some.
  apply bind_some in Hl as ([] & w0 & Ha & Hl). pose proof (looks_after _ _ _ _ looks_attempt Ha) as E0.
  injection Hl as <- <-. unfold stored. rewrite <- E0. clear w Ha E0.
  destruct (files w0 !! p) as [[| a content | |]|] eqn:En; try done; [|by injection Hk as <- <-].
  apply bind_some in Hk as ([] & w1 & H1 & Hk). pose proof (looks_after _ _ _ _ (looks_open p) H1) as E1.
  apply bind_some in Hk as ([] & w2 & H2 & Hk). pose proof (looks_after _ _ _ _ (looks_opened p) H2) as E2.
  apply bind_some in Hk as (raw & w3 & H3 & Hk). unfold readBounded in H3.
  apply bind_some in H3 as ([] & w4 & H4 & H3). pose proof (looks_after _ _ _ _ looks_attempt H4) as E4.
  apply bind_some in H3 as (n & w5 & H5 & H3). injection H5 as <- <-.
  rewrite E4, E2, E1, En in H3. apply bind_some in H3 as (? & ? & [_ ->]%require_some & H3). injection H3 as <- <-.
  destruct (decodeRecord content) as [r|] eqn:Ed; [|done]. by injection Hk as <- <-.
Qed.
(** [CreateTemp] makes one file, at a path that was free, or none. *)
Lemma create_file_effect p w o w' :
  create_file p w = (o, w') →
  files w' = files w ∧ o ≠ Some true
  ∨ o = Some true ∧ files w !! p = None ∧ ∃ a, files w' = <[p := Regular a ""]> (files w).
Proof.
  unfold create_file. unfold bind_io at 1. pose proof (looks_attempt w) as E0.
  destruct (attempt w) as [[[]|] w0]; cbn [snd] in E0; [|intros [= <- <-]; by left].
  unfold bind_io at 1, node_at at 1. destruct (files w0 !! p) as [n|] eqn:En; [intros [= <- <-]; by left|].
  unfold bind_io, node_at, require. destruct (is_directory _); [|intros [= <- <-]; by left].
  cbn. intros [= <- <-]. right. cbn. rewrite <- E0. split; [done|]. split; [done|]. by eexists.
Qed.

Lemma CreateTemp_effect directory prefix w o w' :
  CreateTemp directory prefix w = (o, w') →
  match o with
  | None => files w' = files w
  | Some p => (∃ name, p = directory ++ [prefix +:+ name]) ∧ files w !! p = None
      ∧ ∃ a, files w' = <[p := Regular a ""]> (files w)
  end.
Proof.
  unfold CreateTemp. generalize (names w) as l. intros l. revert w. induction l as [|name l IH]; intros w; cbn [first_free].
  { by intros [= <- <-]. }
  unfold bind_io. destruct (create_file _ (set_names w l)) as [[created|] w1] eqn:E.
  - apply create_file_effect in E as [(E & Hne)|(Ho & Hf & a & E)].
    + destruct created; [done|]. intros H1. apply IH in H1. cbn [set_names files] in E. by rewrite E in H1.
    + injection Ho as ->. intros [= <- <-]. split; [by eexists|]. split; [exact Hf|]. by exists a.
  - apply create_file_effect in E as [(E & _)|(Ho & _)]; [|done]. by intros [= <- <-].
Qed.

Lemma bind_cases {A B} (m : io A) (k : A → io B) w o w' :
  bind_io m k w = (o, w') → (m w = (None, w') ∧ o = None) ∨ ∃ a w1, m w = (Some a, w1) ∧ k a w1 = (o, w').
Proof. unfold bind_io. destruct (m w) as [[a|] w1]; intros E; [right; eauto|left]. by injection E as <- ->. Qed.

(** A call that only looks, in front of others. *)
Lemma looks_first {A B} (m : io A) (k : A → io B) w o w' :
  looks m → bind_io m k w = (o, w') →
  (o = None ∧ files w' = files w) ∨ ∃ a w1, files w1 = files w ∧ k a w1 = (o, w').
Proof.
  intros Hm [[E ->]|(a & w1 & E & Hk)]%bind_cases; pose proof (looks_after _ _ _ _ Hm E) as Ef; [by left|].
  right. by exists a, w1.
Qed.

Lemma write_file_effect p content w o w' :
  write_file p content w = (o, w') →
  (o = None ∧ files w' = files w)
  ∨ ∃ a c, files w !! p = Some (Regular a c) ∧ files w' = <[p := Regular a content]> (files w).
Proof.
  unfold write_file. intros [[-> H]|([] & w1 & E & H)]%(looks_first _ _ _ _ _ looks_attempt); [by left|].
  unfold bind_io, node_at in H. rewrite <- E.
  destruct (files w1 !! p) as [[| a c | |]|]; try (injection H as <- <-; by left).
  injection H as <- <-. right. by exists a, c.
Qed.

Lemma atomicReplace_effect source destination w o w' :
  atomicReplace source destination w = (o, w') →
  (o = None ∧ files w' = files w)
  ∨ ∃ n, files w !! source = Some n ∧ files w' = <[destination := n]> (delete source (files w)).
Proof.
  unfold atomicReplace. intros [[-> H]|([] & w1 & E & H)]%(looks_first _ _ _ _ _ looks_attempt); [by left|].
  unfold bind_io, node_at, require in H. rewrite <- E.
  destruct (negb _); [|injection H as <- <-; by left].
  cbn [ret] in H. destruct (files w1 !! source) as [n|]; [|injection H as <- <-; by left].
  injection H as <- <-. right. by exists n.
Qed.

(** The commit leaves the temporary file, or has moved it over the target. *)
Lemma commit_effect temporary target raw value w a c o w' :
  temporary ≠ target → files w !! temporary = Some (Regular a c) → commit temporary target raw value w = (o, w') →
  (o = None ∧ delete temporary (files w') = delete temporary (files w))
  ∨ files w' = <[target := Regular a raw]> (delete temporary (files w)) ∧ (o = Some tt → stored w' target = Some value).
Proof.
  intros Hne Ht. unfold commit.
  intros [[E ->]|([] & w1 & E1 & H)]%bind_cases.
  { apply write_file_effect in E as [[_ E]|(? & ? & ? & E)]; left; rewrite E, ?delete_insert_eq; done. }
  apply write_file_effect in E1 as [[? _]|(a' & c' & Ha & E1)]; [done|]. rewrite Ha in Ht. injection Ht as -> ->.
  assert (delete temporary (files w1) = delete temporary (files w)) as Ed by by rewrite E1, delete_insert_eq.
  apply looks_first in H as [[-> H]|([] & w2 & E2 & H)]; [left; split; [done|congruence]| |apply looks_attempt].
  apply looks_first in H as [[-> H]|([] & w3 & E3 & H)]; [left; split; [done|congruence]| |apply looks_attempt].
  apply bind_cases in H as [[E ->]|([] & w4 & E4 & H)].
  { apply atomicReplace_effect in E as [[_ E]|(n & Hn & E)]; [left; split; [done|congruence]|right].
    assert (n = Regular a raw) as -> by (rewrite E3, E2, E1, lookup_insert_eq in Hn; congruence).
    split; [|done]. rewrite E, E3, E2, Ed. done. }
  apply atomicReplace_effect in E4 as [[? _]|(n & Hn & E4)]; [done|right].
  assert (n = Regular a raw) as -> by (rewrite E3, E2, E1, lookup_insert_eq in Hn; congruence).
  rewrite E3, E2, Ed in E4.
  apply looks_first in H as [[-> H]|([] & w5 & E5 & H)]; [split; [congruence|done]| |apply looks_sync].
  apply bind_cases in H as [[E ->]|(actual & w6 & E6 & H)].
  { apply looks_after in E; [|apply looks_readRecord]. split; [congruence|done]. }
  pose proof (looks_after _ _ _ _ (looks_readRecord target) E6) as Ef. apply readRecord_spec in E6.
  destruct (bool_decide (actual = Some value)) eqn:Eb; injection H as <- <-; (split; [congruence|]); [|done].
  apply bool_decide_eq_true in Eb as ->. intros _. unfold stored in *. by rewrite Ef.
Qed.

Lemma remove_quietly_effect p w o w' :
  remove_quietly p w = (o, w') → files w' = files w ∨ files w' = delete p (files w).
Proof.
  unfold remove_quietly, try. unfold bind_io. pose proof (looks_attempt w) as E.
  destruct (attempt w) as [[[]|] w1]; cbn [snd] in E; cbn; intros [= <- <-]; cbn; rewrite ?E; auto.
Qed.

(** What a write changes: at most its target, and that only to the record. *)
Lemma write_record_effect prefix prepare (directory target : path) value w o w' :
  (∀ p, looks (prepare p)) → (∀ name, target ≠ directory ++ [prefix +:+ name]) →
  write_record prefix prepare directory target value w = (o, w') →
  (∀ q n, q ≠ target → files w !! q = Some n → files w' !! q = Some n)
  ∧ (stored w' target = Some value ∨ files w' !! target = files w !! target ∧ o = None).
Proof.
  intros Hprep Hname. unfold write_record.
  intros [[E ->]|(raw & w0 & E0 & H)]%bind_cases.
  { apply looks_after in E; [|apply looks_of_opt]. rewrite E. auto. }
  destruct (canonicalRecord value) as [raw'|] eqn:Ec; [|done]. injection E0 as -> <-. apply decode_canonical in Ec.
  apply bind_cases in H as [[E ->]|(temporary & w1 & E1 & H)].
  { apply CreateTemp_effect in E. rewrite E. auto. }
  apply CreateTemp_effect in E1 as ([name ->] & Hfree & a & E1). specialize (Hname name).
  set (temporary := directory ++ [prefix +:+ name] : path) in *. clearbody temporary.
  assert (delete temporary (files w1) = files w) as Ed by by rewrite E1, delete_insert_id.
  apply bind_cases in H as [[E _]|(tried & w2 & E2 & H)].
  { unfold try in E. by destruct (bind_io _ _ w1). }
  assert ((tried = None ∧ delete temporary (files w2) = files w) ∨ files w2 = <[target := Regular a raw]> (files w)) as Hw2.
  { unfold try in E2. destruct (bind_io _ _ w1) as [u w3] eqn:E3. injection E2 as -> ->.
    apply bind_cases in E3 as [[E3 ->]|([] & w4 & E4 & E3)].
    - left. apply looks_after in E3; [|done]. split; [done|congruence].
    - apply looks_after in E4; [|done]. rewrite <- E4 in Ed, E1.
      apply (commit_effect _ _ _ _ _ a "") in E3; [|by apply not_eq_sym|by rewrite E1, lookup_insert_eq].
      destruct E3 as [[-> E3]|[E3 _]]; [left|right]; rewrite E3, Ed; done. }
  apply bind_cases in H as [[E ->]|(u & w3 & E3 & H)].
  { unfold remove_quietly, try, bind_io in E. by destruct (attempt w2) as [[]]. }
  apply looks_after in H as E4; [|apply looks_of_opt]. unfold stored. rewrite !E4. clear E4.
  assert ((tried = None ∧ delete temporary (files w3) = files w) ∨ files w3 = <[target := Regular a raw]> (files w)) as [[-> Hw]|Hw].
  { apply remove_quietly_effect in E3 as [-> | ->]; [done|]. rewrite delete_delete_eq.
    destruct Hw2 as [Hw2| ->]; [by left|right]. rewrite delete_insert_ne by congruence. by rewrite delete_id. }
  - injection H as <- <-. split; [|right; split; [|done]].
    + intros q n _ Hn. rewrite <- Hw in Hn. apply lookup_delete_Some in Hn. apply Hn.
    + by rewrite <- Hw, lookup_delete_ne.
  - rewrite Hw. split; [intros q n Hq; by rewrite lookup_insert_ne|]. left. by rewrite lookup_insert_eq.
Qed.
End RecordLaws.
Arguments StateLaws R {_}.

(** The laws of a package whose record has the members [l], given that its
    strings are valid and its numbers read back. *)
Ltac state_law l :=
  exists l; constructor;
  [ unfold record_doc; cbn - [sanitize]; rewrite ?sanitize_valid by done; reflexivity
  | cbn [wf forallb fst snd]; rewrite bool_decide_true by (apply (bool_decide_unpack _); reflexivity);
    rewrite ?number_lexeme_dec_Z; cbn [andb];
    repeat match goal with H : utf8_valid ?s = true |- context [utf8_valid ?s] => rewrite H end; reflexivity
  | reflexivity
  | repeat constructor; eexists; (split; [reflexivity|]); cbn [fits snd];
    repeat match goal with H : parse_uint _ _ = Some _ |- _ => rewrite H end; reflexivity
  | let l' := fresh "l" in let Hnd := fresh in let Hk := fresh in let Ha := fresh in
    intros l' Hnd Hk Ha; match goal with |- ?x = _ => let y := eval hnf in x in change x with y end;
    rewrite ?decode_field_assoc by done; rewrite ?Ha; cbn [assoc String.eqb Ascii.eqb Bool.eqb set_str set_uint];
    repeat match goal with H : parse_uint _ _ = Some _ |- _ => rewrite H end; reflexivity ].

(** ** One observation *)

(** The order in which the records of one key may follow each other. *)
Class Advancing (R : Type) := {
  advances : relation R;
  advances_preorder :: PreOrder advances;
  advances_antisymm :: AntiSymm (=) advances
}.

Section Observing.
Context {R : Type} `{SR : StateRecord R} `{SL : !StateLaws R} `{AR : Advancing R}.

(** What a package's observation must be for the results below. *)
Record sound_observation (opening : io path) (name : string) (write : path → path → R → io unit)
    (classify : R → decision) (next : R) : Prop := {
  sound_opening : keeps nothing opening;
  sound_write : ∃ prefix prepare, write = write_record prefix prepare ∧ (∀ p, looks (prepare p))
    ∧ ∀ root random, root ++ [name +:+ ".json"] ≠ root ++ [prefix +:+ random];
  sound_advance : ∀ r, classify r = Advances → advances r next;
  sound_match : ∀ r, validRecord r = true → classify r = Matches → r = next
}.

Section Call.
Variables (opening : io path) (name : string) (write : path → path → R → io unit)
  (classify : R → decision) (next : R).
Hypothesis Hsound : sound_observation opening name write classify next.

Lemma stored_same w w' q : files w' = files w → stored w' q = stored w q.
Proof. unfold stored. by intros ->. Qed.
Lemma stored_kept w w' q r :
  stored w q = Some r → (∀ n, files w !! q = Some n → files w' !! q = Some n) → stored w' q = Some r.
Proof.
  unfold stored. intros H Hk. destruct (files w !! q) as [n|] eqn:E; [|done]. by rewrite (Hk n eq_refl).
Qed.

Lemma stored_valid w q r : stored w q = Some r → validRecord r = true.
Proof.
  unfold stored. destruct (files w !! q) as [[| a c | |]|]; try done. intros H%decode_record_inv.
  by apply canonicalRecord_inv in H as [? _].
Qed.

(** The write, from a world in which the stored record may be replaced. *)
Lemma write_step root w o w' :
  let target := root ++ [name +:+ ".json"] in
  (∀ r, stored w target = Some r → advances r next) →
  write root target next w = (o, w') →
  (∀ q r, stored w q = Some r → ∃ r', stored w' q = Some r' ∧ advances r r')
  ∧ (o = Some tt → stored w' target = Some next).
Proof.
  intros target Hadv H. destruct (sound_write _ _ _ _ _ Hsound) as (prefix & prepare & -> & Hprep & Hname).
  apply write_record_effect in H as [Hkeep Htarget]; [|done|intros random; apply Hname].
  split; [|by intros ->; destruct Htarget as [|[_ ?]]].
  intros q r Hr. destruct (decide (q = target)) as [->|Hq].
  - destruct Htarget as [Ht|[Ht _]]; [exists next; auto|exists r]. split; [|done].
    eapply stored_kept; [exact Hr|]. intros n Hn. by rewrite Ht.
  - exists r. split; [|done]. eapply stored_kept; [exact Hr|]. auto.
Qed.

(** An observation never loses a record, and accepts only what it then stores. *)
Lemma observe_step w out w' :
  observe_record opening name write classify next w = (out, w') →
  (∀ q r, stored w q = Some r → ∃ r', stored w' q = Some r' ∧ advances r r')
  ∧ (accepted out = true → ∃ root w1, opening w = (Some root, w1) ∧ stored w' (root ++ [name +:+ ".json"]) = Some next).
Proof.
  unfold observe_record. intros H.
  destruct (opening w) as [o w1] eqn:E1.
  assert (∀ q r, stored w q = Some r → stored w1 q = Some r) as K1.
  { intros q r Hr. eapply stored_kept; [exact Hr|]. intros n.
    apply (keeps_after nothing _ _ _ _ _ _ (sound_opening _ _ _ _ _ Hsound) E1). by intros []. }
  destruct o as [root|].
  2:{ injection H as <- <-. split; [|done]. intros q r Hr. exists r. split; [by auto|reflexivity]. }
  destruct (readRecord _ w1) as [o w2] eqn:E2. pose proof (looks_after _ _ _ _ (looks_readRecord _) E2) as Ef2.
  assert (∀ q r, stored w q = Some r → stored w2 q = Some r) as K2.
  { intros q r Hr. rewrite (stored_same w1) by done. auto. }
  destruct o as [o|].
  2:{ injection H as <- <-. split; [|done]. intros q r Hr. exists r. split; [by auto|reflexivity]. }
  apply readRecord_spec in E2.
  assert (∀ u w3 out0 out1, (∀ r, stored w2 (root ++ [name +:+ ".json"]) = Some r → advances r next) →
    write root (root ++ [name +:+ ".json"]) next w2 = (u, w3) →
    match u with Some _ => (out0, w3) | None => (out1, w3) end = (out, w') → accepted out1 = false →
    (∀ q r, stored w q = Some r → ∃ r', stored w' q = Some r' ∧ advances r r')
    ∧ (accepted out = true → stored w' (root ++ [name +:+ ".json"]) = Some next)) as Hwrite.
  { intros u w3 out0 out1 Hadv Hw Ho Hno. destruct (write_step root w2 u w3 Hadv Hw) as [HA HB].
    assert (w3 = w') as <- by (destruct u; congruence). split; [auto|]. intros Ha. destruct u as [[]|]; [by apply HB|congruence]. }
  destruct o as [r0|].
  - rewrite <- (stored_same w1 w2) in E2 by done. destruct (classify r0) eqn:Ec.
    1,2,3: injection H as <- <-; split; [intros q r Hr; exists r; split; [by auto|reflexivity]|]; try done.
    + intros _. exists root, w1. split; [done|]. rewrite E2. f_equal.
      apply (sound_match _ _ _ _ _ Hsound); [by eapply stored_valid|done].
    + destruct (write root _ next w2) as [u w3] eqn:E3.
      apply (Hwrite u w3) in H as [HA HB]; [split; [done|]; intros Ha; exists root, w1; auto| |done|done].
      intros r Hr. rewrite E2 in Hr. injection Hr as <-. by apply (sound_advance _ _ _ _ _ Hsound).
  - destruct (write root _ next w2) as [u w3] eqn:E3.
    apply (Hwrite u w3) in H as [HA HB]; [split; [done|]; intros Ha; exists root, w1; auto| |done|done].
    intros r. unfold stored. by rewrite Ef2, E2.
Qed.
(** A refused or matching observation leaves every file as it was. *)
Lemma observe_read_only w out w' r :
  observe_record opening name write classify next w = (out, w') →
  (∃ evaluation, out = Refused evaluation r) ∨ out = Matched r →
  (∀ q n, files w !! q = Some n → files w' !! q = Some n)
  ∧ ∃ root w1, opening w = (Some root, w1) ∧ stored w' (root ++ [name +:+ ".json"]) = Some r.
Proof.
  unfold observe_record. intros H Hout. destruct (opening w) as [[root|] w1] eqn:E1.
  2:{ injection H as <- <-. by destruct Hout as [[? [=]]|]. }
  destruct (readRecord _ w1) as [[[r0|]|] w2] eqn:E2.
  2:{ destruct (write _ _ _ w2) as [[[]|] w3]; injection H as <- <-; by destruct Hout as [[? [=]]|]. }
  2:{ injection H as <- <-. by destruct Hout as [[? [=]]|]. }
  pose proof (looks_after _ _ _ _ (looks_readRecord _) E2) as Ef2. apply readRecord_spec in E2.
  assert (w' = w2 → r0 = r →
    (∀ q n, files w !! q = Some n → files w' !! q = Some n)
    ∧ ∃ root0 w0, (Some root, w1) = (Some root0, w0) ∧ stored w' (root0 ++ [name +:+ ".json"]) = Some r) as Hdone.
  { intros -> <-. split; [|exists root, w1; split; [done|]; by rewrite (stored_same w1)].
    intros q n Hn. rewrite Ef2. apply (keeps_after nothing _ _ _ _ _ _ (sound_opening _ _ _ _ _ Hsound) E1); [by intros []|done]. }
  destruct (classify r0) eqn:Ec.
  - injection H as <- <-. by destruct Hout as [[? [=]]|].
  - injection H as <- <-. destruct Hout as [[e [= <- <-]]|[=]]. by apply Hdone.
  - injection H as <- <-. destruct Hout as [[e [=]]|[= <-]]. by apply Hdone.
  - destruct (write _ _ _ w2) as [[[]|] w3]; injection H as <- <-; by destruct Hout as [[? [=]]|].
Qed.

Lemma observe_refused w evaluation r w' :
  observe_record opening name write classify next w = (Refused evaluation r, w') → classify r = Refuses evaluation.
Proof.
  unfold observe_record. destruct (opening w) as [[root|] w1]; [|done].
  destruct (readRecord _ w1) as [[[r0|]|] w2]; [| |done].
  - destruct (classify r0) eqn:Ec; try done; [by intros [= <- <- _]|].
    by destruct (write _ _ _ w2) as [[[]|] w3].
  - by destruct (write _ _ _ w2) as [[[]|] w3].
Qed.
End Call.
End Observing.

(** The file of a key under an absolute data root. *)
Definition state_path (dataRoot : string) (directories : list string) (name : string) : path :=
  (foldl clean_step [] (split_path dataRoot "") ++ directories) ++ [name +:+ ".json"].

Lemma stateRoot_root mask each directories dataRoot w root w' :
  has_prefix "/" dataRoot = true → stateRoot mask each directories dataRoot w = (Some root, w') →
  root = foldl clean_step [] (split_path dataRoot "") ++ directories.
Proof.
  intros Habs. unfold stateRoot. intros ([] & w1 & _ & H)%bind_some.
  apply bind_some in H as (absolute & w2 & Ha & H). unfold Abs in Ha. rewrite Habs in Ha. injection Ha as <- _.
  apply bind_some in H as ([] & w3 & _ & H). apply bind_some in H as (local & w4 & _ & H).
  apply bind_some in H as ([] & w5 & _ & H). apply bind_some in H as ([] & w6 & _ & H).
  apply bind_some in H as ([] & w7 & _ & H). apply bind_some in H as ([] & w8 & _ & H). by injection H as <- _.
Qed.

Lemma open_locked_root root name recheck w r w' :
  open_locked root name recheck w = (Some r, w') → ∃ w1, root w = (Some r, w1).
Proof.
  unfold open_locked. intros (r0 & w1 & H1 & H)%bind_some. apply bind_some in H as ([] & w2 & _ & H).
  apply bind_some in H as ([] & w3 & _ & H). apply bind_some in H as ([] & w4 & _ & H). injection H as <- _. by exists w1.
Qed.

Lemma keeps_open_locked P root name recheck : keeps P root → keeps P recheck → keeps P (open_locked root name recheck).
Proof. intros. unfold open_locked. keep. Qed.

(** Temporary names begin with a dot, state files with a hexadecimal digit. *)
Lemma not_temporary (root : path) hex prefix random :
  hex ≠ "" → string_forallb is_lower_hex hex = true → root ++ [hex +:+ ".json"] ≠ root ++ [String "." prefix +:+ random].
Proof.
  intros Hne Hh [= H]%app_inv_head. destruct hex as [|c hex]; [done|]. injection H as -> _. done.
Qed.

(** ** Histories

    [I] is the type of a package's observations: [call i] makes one, [next i]
    is the record it would store, [place i] its state file.  Between calls
    everything but the files may change: schedules, names, working directory. *)
Section History.
Context {R : Type} `{SR : StateRecord R} `{AR : Advancing R}.
Context {I : Type} (call : I → world → outcome R * world).

Inductive later : world → world → Prop :=
  | later_refl w w' : files w' = files w → later w w'
  | later_call w i w0 w' : later w w0 → files w' = files (call i w0).2 → later w w'.

Variables (next : I → R) (place : I → path → Prop).
Hypothesis call_monotone : ∀ i w q r, stored w q = Some r → ∃ r', stored (call i w).2 q = Some r' ∧ advances r r'.
Hypothesis call_accepts : ∀ i w p,
  place i p → accepted (call i w).1 = true → stored (call i w).2 p = Some (next i).

Lemma later_monotone w w' q r : later w w' → stored w q = Some r → ∃ r', stored w' q = Some r' ∧ advances r r'.
Proof.
  intros Hl Hr. induction Hl as [w w' E|w i w0 w' _ IH E].
  - exists r. split; [|done]. unfold stored in *. by rewrite E.
  - destruct (IH Hr) as (r1 & H1 & A1). destruct (call_monotone i w0 q r1 H1) as (r2 & H2 & A2).
    exists r2. split; [|by transitivity r1]. unfold stored in *. by rewrite E.
Qed.

(** What is accepted later at the same state file never goes back. *)
Lemma accepted_in_order i w1 j w2 p :
  place i p → place j p → accepted (call i w1).1 = true → later (call i w1).2 w2 →
  accepted (call j w2).1 = true → advances (next i) (next j).
Proof.
  intros Pi Pj Hi Hl Hj. pose proof (call_accepts i w1 p Pi Hi) as Si. pose proof (call_accepts j w2 p Pj Hj) as Sj.
  destruct (later_monotone _ _ _ _ Hl Si) as (r & Hr & A1). destruct (call_monotone j w2 p r Hr) as (r' & Hr' & A2).
  rewrite Sj in Hr'. injection Hr' as <-. by transitivity r.
Qed.
End History.

(** ** For the concrete runs *)

Definition sample_digest (c : ascii) : string := "sha256:" +:+ string_concat (repeat (String c "") 64).

Lemma pair_none {A B C} (x : (A * option B) * C) : x.1.2 = None → x = ((x.1.1, None), x.2).
Proof. destruct x as [[a o] c]. cbn. by intros ->. Qed.
