(* ===== verification/TrustState.v ===== *)
(** * Trust-policy state (internal/truststate)

    The monotonic record of one authority: the authenticated policy generation
    and digest last accepted for it. *)

From S2P Require Import Prelude Json JsonUnmarshal GoValue CanonicalJson Domain HostFiles MonotonicState.

Local Open Scope Z_scope.

Definition EvaluationInitialized := "initialized".
Definition EvaluationMatched := "matched".
Definition EvaluationAdvanced := "advanced".
Definition EvaluationRollbackRejected := "rollback-rejected".
Definition EvaluationEquivocationRejected := "equivocation-rejected".
Definition EvaluationUnavailable := "unavailable".

Definition ErrGenerationRollback := "state-generation-rollback".
Definition ErrGenerationEquivocation := "state-generation-equivocation".
Definition ErrUnavailable := "state-unavailable".

Record Result := { Evaluation : string; Generation : Z }.

Record record := {
  rec_AuthorityKeyID : string; rec_Generation : Z; rec_PolicyDigest : string; rec_SchemaVersion : string
}.

Definition validKeyID (value : string) : bool := validDigest value.

Definition valid_record (value : record) : bool :=
  (rec_SchemaVersion value =s "1") && valid_generation (rec_Generation value)
  && validKeyID (rec_AuthorityKeyID value) && validKeyID (rec_PolicyDigest value).

#[export] Instance record_eq_dec : EqDecision record.
Proof. solve_decision. Defined.

Definition state_fields : list (string * field_kind) :=
  [("authorityKeyId", KString); ("generation", KUint64); ("policyDigest", KString); ("schemaVersion", KString)].

Definition decode_members (l : list (string * json)) : record :=
  {| rec_AuthorityKeyID := decode_field state_fields set_str "" l "authorityKeyId";
     rec_Generation := decode_field state_fields set_uint 0 l "generation";
     rec_PolicyDigest := decode_field state_fields set_str "" l "policyDigest";
     rec_SchemaVersion := decode_field state_fields set_str "" l "schemaVersion" |}.

Definition record_json (value : record) : doc :=
  object [("authorityKeyId", Some (str (rec_AuthorityKeyID value))); ("generation", Some (int (rec_Generation value)));
          ("policyDigest", Some (str (rec_PolicyDigest value))); ("schemaVersion", Some (str (rec_SchemaVersion value)))].

#[export] Instance trust_record : StateRecord record :=
  {| maxStateBytes := 4096; record_fields := state_fields; of_members := decode_members;
     validRecord := valid_record; record_doc := record_json |}.

(** [writeAndVerifyRecord]: the temporary file's mode is set to 0600 first. *)
Definition writeAndVerifyRecord : path → path → record → io unit :=
  write_record ".repopass-trust-state-" (λ _, attempt).

Definition trustStateRoot (dataRoot : string) : io path :=
  stateRoot 18 false ["trust-policy-state"; "v1"] dataRoot.

Definition unavailable (generation : Z) : Result * option string :=
  ({| Evaluation := EvaluationUnavailable; Generation := generation |}, Some ErrUnavailable).

Definition classify (authorityKeyID : string) (generation : Z) (policyDigest : string) (stored : record) : decision :=
  if rec_AuthorityKeyID stored !=s authorityKeyID then Foreign
  else if generation <? rec_Generation stored then Refuses EvaluationRollbackRejected
  else if (generation =? rec_Generation stored) && (policyDigest !=s rec_PolicyDigest stored)
  then Refuses EvaluationEquivocationRejected
  else if generation =? rec_Generation stored then Matches
  else Advances.

Definition next_record (authorityKeyID : string) (generation : Z) (policyDigest : string) : record :=
  {| rec_AuthorityKeyID := authorityKeyID; rec_Generation := generation; rec_PolicyDigest := policyDigest;
     rec_SchemaVersion := "1" |}.

Definition valid_arguments (authorityKeyID : string) (generation : Z) (policyDigest : string) : bool :=
  negb (negb (validKeyID authorityKeyID) || negb (validKeyID policyDigest)
        || (generation <=? 0) || (maxGeneration <? generation)).

(** [Observe] up to its outcome, and its result. *)
Definition observe (dataRoot authorityKeyID : string) (generation : Z) (policyDigest : string)
  : world → outcome record * world :=
  if negb (valid_arguments authorityKeyID generation policyDigest) then λ w, (Unavailable None, w)
  else
    let authorityHex := trim_prefix "sha256:" authorityKeyID in
    observe_record (open_locked (trustStateRoot dataRoot) authorityHex (ret tt)) authorityHex writeAndVerifyRecord
      (classify authorityKeyID generation policyDigest) (next_record authorityKeyID generation policyDigest).

Definition result_of (generation : Z) (o : outcome record) : Result * option string :=
  match o with
  | Unavailable None => unavailable 0
  | Unavailable (Some stored) => unavailable (rec_Generation stored)
  | Refused evaluation stored =>
      ({| Evaluation := evaluation; Generation := rec_Generation stored |},
       Some (if evaluation =s EvaluationRollbackRejected then ErrGenerationRollback else ErrGenerationEquivocation))
  | Matched stored => ({| Evaluation := EvaluationMatched; Generation := rec_Generation stored |}, None)
  | Advanced => ({| Evaluation := EvaluationAdvanced; Generation := generation |}, None)
  | Initialized => ({| Evaluation := EvaluationInitialized; Generation := generation |}, None)
  end.

Definition Observe (dataRoot authorityKeyID : string) (generation : Z) (policyDigest : string) (w : world)
  : (Result * option string) * world :=
  let '(o, w) := observe dataRoot authorityKeyID generation policyDigest w in (result_of generation o, w).

(** ** The laws of the record *)

#[export] Instance trust_laws : StateLaws record.
Proof.
  intros [id g d v] Hv. cbn in Hv. unfold valid_record in Hv. cbn in Hv. to_prop.
  match goal with H : valid_generation g = true |- _ => apply valid_generation_bounds in H as Hg end.
  pose proof (uint64_reads g ltac:(lia)) as Hread.
  assert (utf8_valid id = true) as Hid by by apply validDigest_utf8.
  assert (utf8_valid d = true) as Hd by by apply validDigest_utf8. subst v.
  state_law [("authorityKeyId", JStr id); ("generation", JNum (dec_Z g)); ("policyDigest", JStr d); ("schemaVersion", JStr "1")].
Qed.

(** ** The order of the records *)

Definition same_or_newer (r r' : record) : Prop :=
  r = r' ∨ rec_AuthorityKeyID r = rec_AuthorityKeyID r' ∧ rec_Generation r < rec_Generation r'.

#[export] Instance trust_order : Advancing record.
Proof.
  exists same_or_newer.
  - split; [by left|]. intros a b c [->|[E1 L1]] [->|[E2 L2]]; unfold same_or_newer; auto.
    right. split; [congruence|lia].
  - intros a b [->|[_ L1]] [E|[_ L2]]; auto; lia.
Defined.

Lemma trust_sound dataRoot authorityKeyID generation policyDigest :
  validKeyID authorityKeyID = true →
  sound_observation (open_locked (trustStateRoot dataRoot) (trim_prefix "sha256:" authorityKeyID) (ret tt))
    (trim_prefix "sha256:" authorityKeyID) writeAndVerifyRecord
    (classify authorityKeyID generation policyDigest) (next_record authorityKeyID generation policyDigest).
Proof.
  intros (h & -> & Hlen & Hh)%digest_string_iff. constructor.
  - apply keeps_open_locked; [apply keeps_stateRoot|apply keeps_ret].
  - eexists _, _. split; [reflexivity|]. split; [intros _; apply looks_attempt|]. intros root random.
    change (trim_prefix "sha256:" ("sha256:" +:+ h)) with h. apply not_temporary; [by intros ->|done].
  - intros r. unfold classify. generalize ("sha256:" +:+ h) as a. intros a.
    destruct (String.eqb_spec (rec_AuthorityKeyID r) a) as [Ea|]; [|done]. cbn [negb].
    destruct (Z.ltb_spec generation (rec_Generation r)); [done|].
    destruct (Z.eqb_spec generation (rec_Generation r)); cbn [andb]; [by destruct (policyDigest !=s _)|].
    intros _. right. cbn. split; [done|lia].
  - intros r Hv. unfold classify. generalize ("sha256:" +:+ h) as a. intros a.
    destruct (String.eqb_spec (rec_AuthorityKeyID r) a) as [Ha|]; [|done]. cbn [negb].
    destruct (Z.ltb_spec generation (rec_Generation r)); [done|].
    destruct (Z.eqb_spec generation (rec_Generation r)) as [Hg|]; cbn [andb]; [|done].
    destruct (String.eqb_spec policyDigest (rec_PolicyDigest r)) as [Hd|]; [|done]. intros _.
    cbn in Hv. unfold valid_record in Hv. to_prop. destruct r; cbn in *. unfold next_record. by subst.
Qed.

(** ** Properties *)

Definition request : Type := string * string * Z * string.
Definition call (i : request) : world → outcome record * world :=
  let '(dataRoot, authorityKeyID, generation, policyDigest) := i in observe dataRoot authorityKeyID generation policyDigest.

Definition trust_path (dataRoot authorityKeyID : string) : path :=
  state_path dataRoot ["trust-policy-state"; "v1"] (trim_prefix "sha256:" authorityKeyID).

Lemma trust_call_step i w :
  (∀ q r, stored w q = Some r → ∃ r', stored (call i w).2 q = Some r' ∧ advances r r')
  ∧ (∀ dataRoot a g d, i = (dataRoot, a, g, d) → has_prefix "/" dataRoot = true → accepted (call i w).1 = true →
       stored (call i w).2 (trust_path dataRoot a) = Some (next_record a g d)).
Proof.
  destruct i as [[[dataRoot a] g] d]. cbn [call]. unfold observe.
  destruct (valid_arguments a g d) eqn:Hv; cbn [negb]; [|by split; [intros q r; exists r|]].
  assert (validKeyID a = true) as Ha by (unfold valid_arguments in Hv; to_prop; done).
  pose proof (observe_step _ _ _ _ _ (trust_sound dataRoot a g d Ha) w) as Hs.
  destruct (observe_record _ _ _ _ _ w) as [out w']. destruct (Hs out w' eq_refl) as [Hmono Hacc].
  split; [done|]. intros ? ? ? ? [= <- <- <- <-] Habs H. destruct (Hacc H) as (root & w1 & Hroot & Hst).
  apply open_locked_root in Hroot as [w2 Hroot]. apply stateRoot_root in Hroot as ->; [|done]. exact Hst.
Qed.

Lemma trust_result_accepted g o : snd (result_of g o) = None ↔ accepted o = true.
Proof. by destruct o as [[]| | | |]. Qed.

Definition run_all (l : list request) (w : world) : list (Result * option string) :=
  (foldl (λ acc i, let '(out, w) := acc in
            let '(d, a, g, p) := i in let '(r, w) := Observe d a g p w in (out ++ [r], w)) ([], w) l).1.

Example trust_run :
  let a := sample_digest "a" in
  run_all [("/data", a, 3, sample_digest "1"); ("/data", a, 3, sample_digest "1"); ("/data", a, 4, sample_digest "2");
           ("/data", a, 3, sample_digest "1"); ("/data", a, 4, sample_digest "1"); ("/data", a, 0, sample_digest "1")]
    (sample_world [])
  = [({| Evaluation := EvaluationInitialized; Generation := 3 |}, None);
     ({| Evaluation := EvaluationMatched; Generation := 3 |}, None);
     ({| Evaluation := EvaluationAdvanced; Generation := 4 |}, None);
     ({| Evaluation := EvaluationRollbackRejected; Generation := 4 |}, Some ErrGenerationRollback);
     ({| Evaluation := EvaluationEquivocationRejected; Generation := 4 |}, Some ErrGenerationEquivocation);
     ({| Evaluation := EvaluationUnavailable; Generation := 0 |}, Some ErrUnavailable)].
Proof. vm_compute. reflexivity. Qed.

(** C10: Monotonic trust state: once an observation of an authority was accepted (initialized,
    matched or advanced), then after any further observations, under any
    schedule of failures, an accepted observation of that authority has no lower
    generation, and the same policy digest when the generation is the same. *)
Theorem trust_state_monotone dataRoot authority g1 d1 g2 d2 r1 r2 w1 w1' w2 w2' :
  has_prefix "/" dataRoot = true →
  Observe dataRoot authority g1 d1 w1 = ((r1, None), w1') → later call w1' w2 →
  Observe dataRoot authority g2 d2 w2 = ((r2, None), w2') →
  g1 <= g2 ∧ (g1 = g2 → d1 = d2).
Proof.
  intros Habs H1 Hl H2. unfold Observe in *.
  destruct (observe dataRoot authority g1 d1 w1) as [o1 u1] eqn:E1. destruct (observe dataRoot authority g2 d2 w2) as [o2 u2] eqn:E2.
  injection H1 as H1 <-. injection H2 as H2 <-.
  assert (advances (next_record authority g1 d1) (next_record authority g2 d2)) as [Heq|[_ Hlt]].
  { apply (accepted_in_order call (λ i, let '(_, a, g, d) := i in next_record a g d)
      (λ i p, let '(root, a, _, _) := i in has_prefix "/" root = true ∧ p = trust_path root a)
      (λ i w, proj1 (trust_call_step i w))) with (i := (dataRoot, authority, g1, d1)) (w1 := w1)
      (j := (dataRoot, authority, g2, d2)) (w2 := w2) (p := trust_path dataRoot authority); cbn [call]; rewrite ?E1, ?E2; try done.
    - intros [[[root a] g] d] w p [Hp ->] Ha. by apply (proj2 (trust_call_step (root, a, g, d) w) root a g d).
    - cbn [fst]. by rewrite <- (trust_result_accepted g1), H1.
    - cbn [fst]. by rewrite <- (trust_result_accepted g2), H2. }
  - injection Heq as -> ->. split; [lia|done].
  - cbn in Hlt. split; [lia|]. intros ->. lia.
Qed.

Definition sample_first : (Result * option string) * world :=
  Observe "/data" (sample_digest "a") 3 (sample_digest "1") (sample_world []).
Definition sample_second : (Result * option string) * world :=
  Observe "/data" (sample_digest "a") 4 (sample_digest "2") sample_first.2.

Lemma trust_sample_accepted : sample_first.1.2 = None ∧ sample_second.1.2 = None.
Proof. by vm_compute. Qed.

Lemma trust_state_monotone_witness : 3 <= 4 ∧ (3 = 4 → sample_digest "1" = sample_digest "2").
Proof.
  exact (trust_state_monotone "/data" (sample_digest "a") 3 (sample_digest "1") 4 (sample_digest "2") _ _
    (sample_world []) sample_first.2 sample_first.2 sample_second.2 eq_refl
    (pair_none sample_first (proj1 trust_sample_accepted)) (later_refl _ _ _ eq_refl)
    (pair_none sample_second (proj2 trust_sample_accepted))).
Defined.

(** A refusal discloses only the stored generation and changes nothing: an observation
    that ends with an error other than "unavailable" found a stored record of the
    authority, which is a rollback when its generation is higher and an
    equivocation when it is the same with another policy digest. *)
Theorem trust_state_refused dataRoot authority g d w r e w' :
  has_prefix "/" dataRoot = true → Observe dataRoot authority g d w = ((r, Some e), w') → e ≠ ErrUnavailable →
  ∃ s, stored w' (trust_path dataRoot authority) = Some s ∧ rec_AuthorityKeyID s = authority
    ∧ Generation r = rec_Generation s ∧ (∀ q n, files w !! q = Some n → files w' !! q = Some n)
    ∧ (e = ErrGenerationRollback ∧ Evaluation r = EvaluationRollbackRejected ∧ g < rec_Generation s
       ∨ e = ErrGenerationEquivocation ∧ Evaluation r = EvaluationEquivocationRejected ∧ g = rec_Generation s
         ∧ d ≠ rec_PolicyDigest s).
Proof.
  intros Habs H Hne. unfold Observe, observe in H.
  destruct (valid_arguments authority g d) eqn:Hv; cbn [negb] in H; [|by injection H as <- <- <-].
  assert (validKeyID authority = true) as Ha by (unfold valid_arguments in Hv; to_prop; done).
  pose proof (trust_sound dataRoot authority g d Ha) as Hs.
  destruct (observe_record _ _ _ _ _ w) as [out u] eqn:E. injection H as Hr <-.
  destruct out as [[s|]|evaluation s|s| |]; cbn in Hr; try (injection Hr as <- <-; done); try done.
  destruct (observe_read_only _ _ _ _ _ Hs w _ u s E) as (Hsame & root & w1 & Hroot & Hst); [left; by eexists|].
  apply open_locked_root in Hroot as [w2 Hroot]. apply stateRoot_root in Hroot as ->; [|done].
  apply observe_refused in E. exists s. injection Hr as <- <-. revert E. unfold classify.
  destruct (String.eqb_spec (rec_AuthorityKeyID s) authority) as [Eq|]; [|done]. cbn [negb Evaluation Generation].
  destruct (Z.ltb_spec g (rec_Generation s)) as [Hlt|Hge].
  { intros [= <-]. split_and!; try done. by left. }
  destruct (Z.eqb_spec g (rec_Generation s)) as [->|]; cbn [andb]; [|done].
  destruct (String.eqb_spec d (rec_PolicyDigest s)) as [->|Hd]; [done|]. intros [= <-]. split_and!; try done. by right.
Qed.

Definition sample_third : (Result * option string) * world :=
  Observe "/data" (sample_digest "a") 3 (sample_digest "1") sample_second.2.

Lemma trust_sample_rollback :
  sample_third = (({| Evaluation := EvaluationRollbackRejected; Generation := 4 |}, Some ErrGenerationRollback), sample_third.2).
Proof. assert (sample_third.1 = ({| Evaluation := EvaluationRollbackRejected; Generation := 4 |}, Some ErrGenerationRollback)) as <- by by vm_compute. by destruct sample_third. Qed.

Lemma trust_state_refused_witness :
  ∃ s, stored sample_third.2 (trust_path "/data" (sample_digest "a")) = Some s ∧ rec_Generation s = 4.
Proof.
  destruct (trust_state_refused "/data" (sample_digest "a") 3 (sample_digest "1") _ _ _ _ eq_refl trust_sample_rollback ltac:(done))
    as (s & H1 & _ & H2 & _).
  exists s. split; [exact H1|]. symmetry. exact H2.
Defined.

(** The state file is exactly its record: bytes decode to a record if and only if
    they are its canonical encoding (so no other spelling is accepted), and every
    decoded record is valid. *)
Theorem trust_record_canonical raw (r : record) :
  (decodeRecord raw = Some r ↔ canonicalRecord r = Some raw)
  ∧ (canonicalRecord r = Some raw → valid_record r = true ∧ 0 < rec_Generation r <= maxGeneration).
Proof.
  split; [split; [apply decode_record_inv|apply decode_canonical]|].
  intros (Hv & _ & _)%canonicalRecord_inv. split; [exact Hv|]. change (valid_record r = true) in Hv.
  unfold valid_record in Hv. to_prop. by apply valid_generation_bounds.
Qed.
