(* ===== verification/ReleaseState.v ===== *)
(** * Release state (internal/releasestate)

    The monotonic records of authority transitions, release-key policies and
    release indexes, one per authority, product and channel in a directory per
    kind. *)

From S2P Require Import Prelude Sha256 Json JsonUnmarshal GoValue CanonicalJson Domain HostFiles MonotonicState.

Local Open Scope Z_scope.

Definition EvaluationInitialized := "initialized".
Definition EvaluationMatched := "matched".
Definition EvaluationAdvanced := "advanced".
Definition EvaluationRollbackRejected := "rollback-rejected".
Definition EvaluationEquivocationRejected := "equivocation-rejected".
Definition EvaluationUnavailable := "unavailable".

Definition ErrGenerationRollback := "release-state-generation-rollback".
Definition ErrGenerationEquivocation := "release-state-generation-equivocation".
Definition ErrUnavailable := "release-state-unavailable".

Record Result := { Evaluation : string; Generation : Z }.

(** [stateKind]. *)
Inductive stateKind := policyState | indexState | authorityState.
Definition kind_name (kind : stateKind) : string :=
  match kind with policyState => "policy" | indexState => "index" | authorityState => "authority" end.

Record record := {
  rec_AuthorityKeyID : string; rec_Channel : string; rec_Digest : string; rec_Generation : Z;
  rec_Kind : string; rec_Product : string; rec_SchemaVersion : string
}.

Definition validKeyID (value : string) : bool := validDigest value.

Definition lower_letter (c : ascii) : bool := in_range 97 122 c.
Definition scope_byte (c : ascii) : bool :=
  lower_letter c || is_digit c || (byte_val c =? 45)%N || (byte_val c =? 46)%N.
Fixpoint last_byte (s : string) : option ascii :=
  match s with
  | EmptyString => None
  | String c EmptyString => Some c
  | String _ s' => last_byte s'
  end.
Definition validScope (value : string) : bool :=
  match value with
  | EmptyString => false
  | String first rest =>
      (zlen value <=? 64) && lower_letter first && string_forallb scope_byte rest
      && match last_byte value with Some c => lower_letter c || is_digit c | None => false end
  end.

Definition valid_kind (kind : string) : bool :=
  (kind =s kind_name policyState) || (kind =s kind_name indexState) || (kind =s kind_name authorityState).

Definition valid_record (value : record) : bool :=
  (rec_SchemaVersion value =s "1") && valid_kind (rec_Kind value) && valid_generation (rec_Generation value)
  && validKeyID (rec_AuthorityKeyID value) && validScope (rec_Product value) && validScope (rec_Channel value)
  && validDigest (rec_Digest value).

#[export] Instance record_eq_dec : EqDecision record.
Proof. solve_decision. Defined.

Definition state_fields : list (string * field_kind) :=
  [("authorityKeyId", KString); ("channel", KString); ("digest", KString); ("generation", KUint64);
   ("kind", KString); ("product", KString); ("schemaVersion", KString)].

Definition decode_members (l : list (string * json)) : record :=
  let text := decode_field state_fields set_str "" l in
  {| rec_AuthorityKeyID := text "authorityKeyId"; rec_Channel := text "channel"; rec_Digest := text "digest";
     rec_Generation := decode_field state_fields set_uint 0 l "generation"; rec_Kind := text "kind";
     rec_Product := text "product"; rec_SchemaVersion := text "schemaVersion" |}.

Definition record_json (value : record) : doc :=
  object [("authorityKeyId", Some (str (rec_AuthorityKeyID value))); ("channel", Some (str (rec_Channel value)));
          ("digest", Some (str (rec_Digest value))); ("generation", Some (int (rec_Generation value)));
          ("kind", Some (str (rec_Kind value))); ("product", Some (str (rec_Product value)));
          ("schemaVersion", Some (str (rec_SchemaVersion value)))].

#[export] Instance release_record : StateRecord record :=
  {| maxStateBytes := 4096; record_fields := state_fields; of_members := decode_members;
     validRecord := valid_record; record_doc := record_json |}.

(** [writeAndVerifyRecord]: the temporary file's mode is set to 0600 first. *)
Definition writeAndVerifyRecord : path → path → record → io unit :=
  write_record ".repopass-release-state-" (λ _, attempt).

Definition state_directories (kind : stateKind) : list string := ["release-state"; "v1"; kind_name kind].
Definition releaseStateRoot (kind : stateKind) (dataRoot : string) : io path :=
  stateRoot 18 false (state_directories kind) dataRoot.

(** [stateKey]: SHA-256 over a label and the length-prefixed scope. *)
Definition framed (value : string) : string := bytes_string (be_bytes 8 (N.of_nat (slen value))) +:+ value.
Definition key_preimage (authorityKeyID product channel : string) : string :=
  "repopass.release-state.key.v1" +:+ String (byte_of 0) "" +:+ framed authorityKeyID +:+ framed product +:+ framed channel.
Definition stateKey (authorityKeyID product channel : string) : string :=
  hex_encode (sha256 (key_preimage authorityKeyID product channel)).

Definition unavailable (generation : Z) : Result * option string :=
  ({| Evaluation := EvaluationUnavailable; Generation := generation |}, Some ErrUnavailable).

(** An observation: everything but the data root. *)
Record observation := {
  o_Kind : stateKind; o_AuthorityKeyID : string; o_Product : string; o_Channel : string;
  o_Generation : Z; o_Digest : string
}.

Definition classify (o : observation) (stored : record) : decision :=
  if (rec_AuthorityKeyID stored !=s o_AuthorityKeyID o) || (rec_Product stored !=s o_Product o)
     || (rec_Channel stored !=s o_Channel o) || (rec_Kind stored !=s kind_name (o_Kind o)) then Foreign
  else if o_Generation o <? rec_Generation stored then Refuses EvaluationRollbackRejected
  else if (o_Generation o =? rec_Generation stored) && (o_Digest o !=s rec_Digest stored)
  then Refuses EvaluationEquivocationRejected
  else if o_Generation o =? rec_Generation stored then Matches
  else Advances.

Definition next_record (o : observation) : record :=
  {| rec_AuthorityKeyID := o_AuthorityKeyID o; rec_Channel := o_Channel o; rec_Digest := o_Digest o;
     rec_Generation := o_Generation o; rec_Kind := kind_name (o_Kind o); rec_Product := o_Product o;
     rec_SchemaVersion := "1" |}.

Definition valid_arguments (o : observation) : bool :=
  negb (negb (validKeyID (o_AuthorityKeyID o)) || negb (validScope (o_Product o)) || negb (validScope (o_Channel o))
        || negb (validDigest (o_Digest o)) || (o_Generation o <=? 0) || (maxGeneration <? o_Generation o)).

Definition scope_key (o : observation) : string := stateKey (o_AuthorityKeyID o) (o_Product o) (o_Channel o).

(** [observe] up to its outcome, and its result.  A nil context is not
    modelled: the callers pass theirs. *)
Definition observe_outcome (dataRoot : string) (o : observation) : world → outcome record * world :=
  if negb (valid_arguments o) then λ w, (Unavailable None, w)
  else
    observe_record (open_locked (releaseStateRoot (o_Kind o) dataRoot) (scope_key o) (ret tt)) (scope_key o)
      writeAndVerifyRecord (classify o) (next_record o).

Definition result_of (generation : Z) (o : outcome record) : Result * option string :=
  match o with
  | Unavailable None => unavailable 0
  | Unavailable (Some stored) => unavailable (rec_Generation stored)
  | Refused evaluation stored =>
      ({| Evaluation := evaluation; Generation := rec_Generation stored |},
       Some (if evaluation =s EvaluationRollbackRejected then ErrGenerationRollback else ErrGenerationEquivocation))
  | Matched stored => ({| Evaluation := EvaluationMatched; Generation := rec_Generation stored |}, None)
  | Advanced => ({| Evaluation := EvaluationAdvanced; Generation := generation |}, None)
  | Initialized => ({| Evaluation := EvaluationInitialized; Generation := generation |}, None)
  end.

Definition observe (dataRoot : string) (kind : stateKind) (authorityKeyID product channel : string)
    (generation : Z) (digest : string) (w : world) : (Result * option string) * world :=
  let '(o, w) := observe_outcome dataRoot
    {| o_Kind := kind; o_AuthorityKeyID := authorityKeyID; o_Product := product; o_Channel := channel;
       o_Generation := generation; o_Digest := digest |} w in
  (result_of generation o, w).

Definition ObservePolicy (dataRoot : string) := observe dataRoot policyState.
Definition ObserveAuthority (dataRoot : string) := observe dataRoot authorityState.
Definition ObserveAuthorityChain (dataRoot : string) := ObserveAuthority dataRoot.
Definition ObserveIndex (dataRoot : string) := observe dataRoot indexState.

(** ** The laws of the record *)

Lemma validScope_utf8 s : validScope s = true → utf8_valid s = true.
Proof.
  destruct s as [|c s]; [done|]. unfold validScope. intros H. to_prop. apply utf8_valid_ascii. cbn [string_forallb].
  apply andb_true_intro. split.
  - pose proof (ascii_all (λ c, implb (lower_letter c) (ascii7 c)) ltac:(vm_compute; reflexivity) c) as Hc.
    cbv beta in Hc. match goal with H : lower_letter c = true |- _ => by rewrite H in Hc end.
  - eapply string_forallb_impl; [|eassumption]. intros x Hx.
    pose proof (ascii_all (λ c, implb (scope_byte c) (ascii7 c)) ltac:(vm_compute; reflexivity) x) as Hc.
    cbv beta in Hc. by rewrite Hx in Hc.
Qed.

#[export] Instance release_laws : StateLaws record.
Proof.
  intros [id ch d g k p v] Hv. cbn in Hv. unfold valid_record in Hv. cbn in Hv. to_prop.
  match goal with H : valid_generation g = true |- _ => apply valid_generation_bounds in H as Hg end.
  pose proof (uint64_reads g ltac:(lia)) as Hread.
  assert (utf8_valid id = true) as Hid by by apply validDigest_utf8.
  assert (utf8_valid d = true) as Hd by by apply validDigest_utf8.
  assert (utf8_valid ch = true) as Hch by by apply validScope_utf8.
  assert (utf8_valid p = true) as Hp by by apply validScope_utf8.
  assert (utf8_valid k = true) as Hk.
  { match goal with H : valid_kind k = true |- _ => unfold valid_kind in H; apply orb_prop in H as [H|H];
      [apply orb_prop in H as [H|H]|]; apply String.eqb_eq in H as -> end; done. }
  subst v.
  state_law [("authorityKeyId", JStr id); ("channel", JStr ch); ("digest", JStr d); ("generation", JNum (dec_Z g));
             ("kind", JStr k); ("product", JStr p); ("schemaVersion", JStr "1")].
Qed.

(** ** The order of the records *)

Definition same_scope (r r' : record) : Prop :=
  rec_AuthorityKeyID r = rec_AuthorityKeyID r' ∧ rec_Product r = rec_Product r' ∧ rec_Channel r = rec_Channel r'
  ∧ rec_Kind r = rec_Kind r'.
Definition same_or_newer (r r' : record) : Prop := r = r' ∨ same_scope r r' ∧ rec_Generation r < rec_Generation r'.

#[export] Instance release_order : Advancing record.
Proof.
  exists same_or_newer.
  - split; [by left|]. intros a b c [->|H1] [->|H2]; [by left|by right|by right|right].
    destruct H1 as [(? & ? & ? & ?) L1], H2 as [(? & ? & ? & ?) L2]. unfold same_scope. split_and!; [congruence..|lia].
  - intros a b [->|[_ L1]] [E|[_ L2]]; auto; lia.
Defined.

Lemma scope_key_hex o : scope_key o ≠ "" ∧ string_forallb is_lower_hex (scope_key o) = true.
Proof.
  unfold scope_key, stateKey. generalize (key_preimage (o_AuthorityKeyID o) (o_Product o) (o_Channel o)). intros s.
  split; [|apply hex_encode_lower, sha256_bounded]. pose proof (slen_hex_encode (sha256 s)) as Hl. rewrite length_sha256 in Hl.
  intros E. by rewrite E in Hl.
Qed.

Lemma release_sound dataRoot o :
  sound_observation (open_locked (releaseStateRoot (o_Kind o) dataRoot) (scope_key o) (ret tt)) (scope_key o)
    writeAndVerifyRecord (classify o) (next_record o).
Proof.
  constructor.
  - apply keeps_open_locked; [apply keeps_stateRoot|apply keeps_ret].
  - eexists _, _. split; [reflexivity|]. split; [intros _; apply looks_attempt|]. intros root random.
    destruct (scope_key_hex o). by apply not_temporary.
  - intros r. unfold classify. destruct (_ || _) eqn:Escope; [done|]. to_prop.
    destruct (Z.ltb_spec (o_Generation o) (rec_Generation r)); [done|].
    destruct (Z.eqb_spec (o_Generation o) (rec_Generation r)); cbn [andb]; [by destruct (o_Digest o !=s _)|].
    intros _. right. split; [done|cbn; lia].
  - intros r Hv. unfold classify. destruct (_ || _) eqn:Escope; [done|]. to_prop.
    destruct (Z.ltb_spec (o_Generation o) (rec_Generation r)); [done|].
    destruct (Z.eqb_spec (o_Generation o) (rec_Generation r)) as [Hg|]; cbn [andb]; [|done].
    destruct (String.eqb_spec (o_Digest o) (rec_Digest r)) as [Hd|]; [|done]. intros _.
    cbn in Hv. unfold valid_record in Hv. to_prop. destruct r; cbn in *. unfold next_record. by subst.
Qed.

(** ** Properties *)

Definition call (i : string * observation) : world → outcome record * world := observe_outcome i.1 i.2.
Definition release_path (dataRoot : string) (o : observation) : path :=
  state_path dataRoot (state_directories (o_Kind o)) (scope_key o).

Lemma release_call_step i w :
  (∀ q r, stored w q = Some r → ∃ r', stored (call i w).2 q = Some r' ∧ advances r r')
  ∧ (has_prefix "/" i.1 = true → accepted (call i w).1 = true →
       stored (call i w).2 (release_path i.1 i.2) = Some (next_record i.2)).
Proof.
  destruct i as [dataRoot o]. unfold call, observe_outcome. cbn [fst snd].
  destruct (valid_arguments o) eqn:Hv; cbn [negb]; [|by split; [intros q r; exists r|]].
  pose proof (observe_step _ _ _ _ _ (release_sound dataRoot o) w) as Hs.
  destruct (observe_record _ _ _ _ _ w) as [out w']. destruct (Hs out w' eq_refl) as [Hmono Hacc].
  split; [done|]. intros Habs H. destruct (Hacc H) as (root & w1 & Hroot & Hst).
  apply open_locked_root in Hroot as [w2 Hroot]. apply stateRoot_root in Hroot as ->; [|done]. exact Hst.
Qed.

Lemma release_result_accepted g o : snd (result_of g o) = None ↔ accepted o = true.
Proof. by destruct o as [[]| | | |]. Qed.

(** Monotonic release state, for each of the three kinds: after an accepted
    observation of an authority, product and channel, and any further observations
    of any kind under any failures, an accepted observation of the same scope has
    no lower generation, and the same digest when the generation is the same. *)
Theorem release_state_monotone dataRoot kind authority product channel g1 d1 g2 d2 r1 r2 w1 w1' w2 w2' :
  has_prefix "/" dataRoot = true →
  observe dataRoot kind authority product channel g1 d1 w1 = ((r1, None), w1') → later call w1' w2 →
  observe dataRoot kind authority product channel g2 d2 w2 = ((r2, None), w2') →
  g1 <= g2 ∧ (g1 = g2 → d1 = d2).
Proof.
  intros Habs H1 Hl H2. unfold observe in *. set (o1 := Build_observation _ _ _ _ g1 d1) in *. set (o2 := Build_observation _ _ _ _ g2 d2) in *.
  destruct (observe_outcome dataRoot o1 w1) as [out1 u1] eqn:E1. destruct (observe_outcome dataRoot o2 w2) as [out2 u2] eqn:E2.
  injection H1 as H1 <-. injection H2 as H2 <-.
  assert (advances (next_record o1) (next_record o2)) as [Heq|[_ Hlt]].
  { apply (accepted_in_order call (λ i, next_record i.2) (λ i p, has_prefix "/" i.1 = true ∧ p = release_path i.1 i.2)
      (λ i w, proj1 (release_call_step i w))) with (i := (dataRoot, o1)) (w1 := w1)
      (j := (dataRoot, o2)) (w2 := w2) (p := release_path dataRoot o1); unfold call; cbn [fst snd]; rewrite ?E1, ?E2; try done.
    - intros i w p [Hp ->] Ha. by apply (proj2 (release_call_step i w)).
    - cbn [fst]. by rewrite <- (release_result_accepted g1), H1.
    - cbn [fst]. by rewrite <- (release_result_accepted g2), H2. }
  - injection Heq as -> ->. split; [lia|done].
  - cbn in Hlt. split; [lia|]. intros ->. lia.
Qed.

Definition sample_first : (Result * option string) * world :=
  ObserveIndex "/data" (sample_digest "a") "repo-passport" "stable" 7 (sample_digest "1") (sample_world []).
Definition sample_policy : (Result * option string) * world :=
  ObservePolicy "/data" (sample_digest "a") "repo-passport" "stable" 2 (sample_digest "3") sample_first.2.
Definition sample_second : (Result * option string) * world :=
  ObserveIndex "/data" (sample_digest "a") "repo-passport" "stable" 8 (sample_digest "2") sample_policy.2.

Lemma release_sample_accepted : sample_first.1.2 = None ∧ sample_second.1.2 = None.
Proof. by vm_compute. Qed.

Lemma release_sample_later : later call sample_first.2 sample_policy.2.
Proof.
  eapply (later_call _ _ ("/data", Build_observation policyState (sample_digest "a") "repo-passport" "stable" 2 (sample_digest "3")));
    [by apply later_refl|]. unfold sample_policy, ObservePolicy, observe, call. cbn [fst snd].
  by destruct (observe_outcome _ _ _).
Qed.

Lemma release_state_monotone_witness : 7 <= 8 ∧ (7 = 8 → sample_digest "1" = sample_digest "2").
Proof.
  exact (release_state_monotone "/data" indexState (sample_digest "a") "repo-passport" "stable" 7 (sample_digest "1")
    8 (sample_digest "2") _ _ (sample_world []) sample_first.2 sample_policy.2 sample_second.2 eq_refl
    (pair_none sample_first (proj1 release_sample_accepted)) release_sample_later (pair_none sample_second (proj2 release_sample_accepted))).
Defined.

(** *** The state key *)

Lemma slen_bytes_string l : slen (bytes_string l) = length l.
Proof. induction l as [|n l IH]; [done|]. cbn. by rewrite IH. Qed.

Lemma bytes_string_inj l k :
  Forall (λ n, (n < 256)%N) l → Forall (λ n, (n < 256)%N) k → bytes_string l = bytes_string k → l = k.
Proof.
  intros Hl. revert k. induction Hl as [|n l Hn _ IH]; intros k Hk; destruct Hk as [|m k Hm Hk]; try done.
  cbn [bytes_string]. intros [= E Es]. f_equal; [|by apply IH].
  rewrite <- (byte_val_of n), <- (byte_val_of m) by done. by rewrite E.
Qed.

(** Eight bytes hold a length below 2^64. *)
Lemma be_bytes_8_inj a b : (a < 2 ^ 64)%N → (b < 2 ^ 64)%N → be_bytes 8 a = be_bytes 8 b → a = b.
Proof.
  intros Ha Hb E. apply N.bits_inj. intros i. destruct (N.lt_ge_cases i 64) as [Hi|Hi].
  - assert (∃ j k, (j < 8)%nat ∧ (k < 8)%N ∧ i = (8 * N.of_nat (7 - j) + k)%N) as (j & k & Hj & Hk & ->).
    { exists (7 - N.to_nat (i / 8))%nat, (i mod 8)%N. pose proof (N.mod_lt i 8 ltac:(done)). pose proof (N.div_mod i 8 ltac:(done)).
      assert (i / 8 < 8)%N by (apply N.Div0.div_lt_upper_bound; lia). split; [lia|]. split; [done|]. lia. }
    assert (∀ x, N.testbit (nth j (be_bytes 8 x) 0%N) k = N.testbit x (8 * N.of_nat (7 - j) + k)) as Hbit.
    { intros x. assert (nth j (be_bytes 8 x) 0%N = N.land (N.shiftr x (8 * N.of_nat (7 - j))) 255) as ->.
      { do 8 (destruct j as [|j]; [reflexivity|]). lia. }
      rewrite N.land_spec, N.shiftr_spec by lia. change 255%N with (N.ones 8). rewrite N.ones_spec_low by done.
      rewrite andb_true_r. f_equal. lia. }
    by rewrite <- !Hbit, E.
  - rewrite !N.bits_above_log2; [done| |]; (destruct (N.eq_dec a 0) as [->|], (N.eq_dec b 0) as [->|]; try (cbn; lia);
      match goal with |- (N.log2 ?x < i)%N => assert (N.log2 x < 64)%N by (apply N.log2_lt_pow2; lia) end; lia).
Qed.

Lemma framed_inj a b s t :
  (N.of_nat (slen a) < 2 ^ 64)%N → (N.of_nat (slen b) < 2 ^ 64)%N → framed a +:+ s = framed b +:+ t → a = b ∧ s = t.
Proof.
  unfold framed. rewrite !app_string_assoc. intros Ha Hb E.
  assert (∀ p q x y : string, slen p = slen q → p +:+ x = q +:+ y → p = q ∧ x = y) as Hsplit.
  { clear. induction p as [|c p IH]; intros [|d q] x y Hl E; try done. rewrite !app_string_cons in E.
    injection E as -> E. cbn in Hl. destruct (IH q x y ltac:(lia) E) as [-> ->]. done. }
  apply Hsplit in E as [E1 E]; [|by rewrite !slen_bytes_string, !length_be_bytes].
  apply bytes_string_inj in E1; [|apply be_bytes_bounded..]. apply be_bytes_8_inj in E1; [|done..].
  apply Hsplit in E; [done|lia].
Qed.

Lemma hex_digit_inj a b : (a < 16)%N → (b < 16)%N → hex_digit a = hex_digit b → a = b.
Proof.
  intros Ha Hb E. assert (∀ n, (n < 16)%N → byte_val (hex_digit n) = if (n <? 10)%N then (48 + n)%N else (87 + n)%N) as Hd.
  { intros n Hn. unfold hex_digit. destruct (N.ltb_spec n 10); rewrite byte_val_of; lia. }
  pose proof (Hd a Ha) as H1. pose proof (Hd b Hb) as H2. rewrite E in H1. rewrite H1 in H2.
  destruct (N.ltb_spec a 10), (N.ltb_spec b 10); lia.
Qed.

Lemma hex_encode_inj l k :
  Forall (λ n, (n < 256)%N) l → Forall (λ n, (n < 256)%N) k → hex_encode l = hex_encode k → l = k.
Proof.
  intros Hl. revert k. induction Hl as [|n l Hn _ IH]; intros k Hk; destruct Hk as [|m k Hm Hk]; try done.
  cbn [hex_encode]. intros [= E1 E2 Es].
  assert (∀ x, (x < 256)%N → (N.shiftr x 4 < 16)%N ∧ (N.land x 15 < 16)%N ∧ x = (16 * N.shiftr x 4 + N.land x 15)%N) as Hx.
  { intros x Hx. rewrite N.shiftr_div_pow2. change 15%N with (N.ones 4). rewrite N.land_ones.
    change (2 ^ 4)%N with 16%N. pose proof (N.div_mod x 16 ltac:(done)). pose proof (N.mod_lt x 16 ltac:(done)).
    split; [apply N.Div0.div_lt_upper_bound; lia|]. lia. }
  destruct (Hx n Hn) as (? & ? & En), (Hx m Hm) as (? & ? & Em).
  apply hex_digit_inj in E1, E2; [|done..]. f_equal; [congruence|by apply IH].
Qed.

(** The state key separates scopes: two scopes with the same key (so the same state
    file) are the same scope, or their framed texts are two distinct inputs with
    one SHA-256 digest. *)
Theorem release_key_separates a p c a' p' c' :
  validKeyID a = true → validScope p = true → validScope c = true →
  validKeyID a' = true → validScope p' = true → validScope c' = true →
  stateKey a p c = stateKey a' p' c' →
  (a = a' ∧ p = p' ∧ c = c')
  ∨ key_preimage a p c ≠ key_preimage a' p' c' ∧ sha256 (key_preimage a p c) = sha256 (key_preimage a' p' c').
Proof.
  intros Ha Hp Hc Ha' Hp' Hc' E. unfold stateKey in E. apply hex_encode_inj in E; [|apply sha256_bounded..].
  destruct (decide (key_preimage a p c = key_preimage a' p' c')) as [Ek|Hne]; [left|by right].
  assert (∀ s, validScope s = true → (N.of_nat (slen s) < 2 ^ 64)%N) as Hscope.
  { intros s Hs. destruct s as [|x s]; [done|]. unfold validScope in Hs. to_prop. unfold zlen in *.
    match goal with H : _ <= 64 |- _ => revert H end. generalize (slen (String x s)). intros n Hn. change (2 ^ 64)%N with 18446744073709551616%N. lia. }
  assert (∀ s, validKeyID s = true → (N.of_nat (slen s) < 2 ^ 64)%N) as Hkey.
  { intros s (h & -> & Hl & _)%digest_string_iff. rewrite slen_app, Hl. done. }
  unfold key_preimage in Ek. apply app_string_inj_l, app_string_inj_l in Ek.
  apply framed_inj in Ek as [-> Ek]; [|auto..]. apply framed_inj in Ek as [-> Ek]; [|auto..].
  rewrite <- (app_string_nil_r (framed c)), <- (app_string_nil_r (framed c')) in Ek.
  apply framed_inj in Ek as [-> _]; auto.
Qed.

Lemma release_key_separates_witness :
  let a := sample_digest "a" in
  (a = a ∧ "repo-passport" = "repo-passport" ∧ "stable" = "stable")
  ∨ key_preimage a "repo-passport" "stable" ≠ key_preimage a "repo-passport" "stable"
    ∧ sha256 (key_preimage a "repo-passport" "stable") = sha256 (key_preimage a "repo-passport" "stable").
Proof. apply release_key_separates; reflexivity. Defined.
