(* ===== verification/TrustChainState.v ===== *)
(** * Trust-chain state (internal/trustchainstate)

    The monotonic record of one trust root: the authority rotation chain
    and the terminal policy bound to it, advanced together in one record. *)

From S2P Require Import Prelude Json JsonUnmarshal GoValue CanonicalJson Domain HostFiles MonotonicState.

Local Open Scope Z_scope.

Definition Purpose := "offline-trust-policy-authority-rotation-chain".
Definition PolicyPayloadType := "application/vnd.repopass.offline-trust-policy.v2+json".

Definition EvaluationInitialized := "initialized".
Definition EvaluationMatched := "matched".
Definition EvaluationAdvanced := "advanced".
Definition EvaluationRollbackRejected := "rollback-rejected".
Definition EvaluationAuthorityEquivocationRejected := "authority-equivocation-rejected".
Definition EvaluationPolicyEquivocationRejected := "policy-equivocation-rejected".
Definition EvaluationUnavailable := "unavailable".

Definition ErrGenerationRollback := "trust-rotation-chain-state-generation-rollback".
Definition ErrAuthorityEquivocation := "trust-rotation-chain-state-authority-equivocation".
Definition ErrPolicyEquivocation := "trust-rotation-chain-state-policy-equivocation".
Definition ErrUnavailable := "trust-rotation-chain-state-unavailable".

Record Observation := {
  o_TrustRootKeyID : string; o_Purpose : string; o_PolicyPayloadType : string;
  o_ChainTerminalGeneration : Z; o_ChainDigest : string; o_ChainHopCount : Z;
  o_TerminalAuthorityKeyID : string; o_PolicyGeneration : Z; o_PolicyPayloadDigest : string
}.

Record Result := { Evaluation : string; ChainTerminalGeneration : Z; PolicyGeneration : Z }.

Record record := {
  rec_SchemaVersion : string; rec_TrustRootKeyID : string; rec_Purpose : string; rec_PolicyPayloadType : string;
  rec_ChainTerminalGeneration : Z; rec_ChainDigest : string; rec_ChainHopCount : Z;
  rec_TerminalAuthorityKeyID : string; rec_PolicyGeneration : Z; rec_PolicyPayloadDigest : string
}.

Definition validKeyID (value : string) : bool := validDigest value.

Definition validObservation (o : Observation) : bool :=
  validKeyID (o_TrustRootKeyID o)
  && (o_Purpose o =s Purpose)
  && (o_PolicyPayloadType o =s PolicyPayloadType)
  && valid_generation (o_ChainTerminalGeneration o)
  && validDigest (o_ChainDigest o)
  && (2 <=? o_ChainHopCount o) && (o_ChainHopCount o <=? 8)
  && validKeyID (o_TerminalAuthorityKeyID o)
  && (o_TrustRootKeyID o !=s o_TerminalAuthorityKeyID o)
  && valid_generation (o_PolicyGeneration o)
  && validDigest (o_PolicyPayloadDigest o).

(** The observation a record keeps. *)
Definition observation_of (value : record) : Observation :=
  {| o_TrustRootKeyID := rec_TrustRootKeyID value; o_Purpose := rec_Purpose value;
     o_PolicyPayloadType := rec_PolicyPayloadType value; o_ChainTerminalGeneration := rec_ChainTerminalGeneration value;
     o_ChainDigest := rec_ChainDigest value; o_ChainHopCount := rec_ChainHopCount value;
     o_TerminalAuthorityKeyID := rec_TerminalAuthorityKeyID value;
     o_PolicyGeneration := rec_PolicyGeneration value; o_PolicyPayloadDigest := rec_PolicyPayloadDigest value |}.
Definition valid_record (value : record) : bool :=
  (rec_SchemaVersion value =s "1") && validObservation (observation_of value).

Definition recordFromObservation (o : Observation) : record :=
  {| rec_SchemaVersion := "1"; rec_TrustRootKeyID := o_TrustRootKeyID o; rec_Purpose := o_Purpose o;
     rec_PolicyPayloadType := o_PolicyPayloadType o; rec_ChainTerminalGeneration := o_ChainTerminalGeneration o;
     rec_ChainDigest := o_ChainDigest o; rec_ChainHopCount := o_ChainHopCount o;
     rec_TerminalAuthorityKeyID := o_TerminalAuthorityKeyID o; rec_PolicyGeneration := o_PolicyGeneration o;
     rec_PolicyPayloadDigest := o_PolicyPayloadDigest o |}.

Definition sameScope (stored : record) (o : Observation) : bool :=
  (rec_SchemaVersion stored =s "1") && (rec_TrustRootKeyID stored =s o_TrustRootKeyID o)
  && (rec_Purpose stored =s o_Purpose o) && (rec_PolicyPayloadType stored =s o_PolicyPayloadType o).

#[export] Instance record_eq_dec : EqDecision record.
Proof. solve_decision. Defined.

Definition state_fields : list (string * field_kind) :=
  [("schemaVersion", KString); ("trustRootKeyId", KString); ("purpose", KString); ("policyPayloadType", KString);
   ("chainTerminalGeneration", KUint64); ("chainDigest", KString); ("chainHopCount", KUint64);
   ("terminalAuthorityKeyId", KString); ("policyGeneration", KUint64); ("policyPayloadDigest", KString)].

Definition decode_members (l : list (string * json)) : record :=
  let text := decode_field state_fields set_str "" l in
  let number := decode_field state_fields set_uint 0 l in
  {| rec_SchemaVersion := text "schemaVersion"; rec_TrustRootKeyID := text "trustRootKeyId";
     rec_Purpose := text "purpose"; rec_PolicyPayloadType := text "policyPayloadType";
     rec_ChainTerminalGeneration := number "chainTerminalGeneration"; rec_ChainDigest := text "chainDigest"; rec_ChainHopCount := number "chainHopCount";
     rec_TerminalAuthorityKeyID := text "terminalAuthorityKeyId"; rec_PolicyGeneration := number "policyGeneration";
     rec_PolicyPayloadDigest := text "policyPayloadDigest" |}.

Definition record_json (value : record) : doc :=
  object [("schemaVersion", Some (str (rec_SchemaVersion value))); ("trustRootKeyId", Some (str (rec_TrustRootKeyID value)));
          ("purpose", Some (str (rec_Purpose value))); ("policyPayloadType", Some (str (rec_PolicyPayloadType value)));
          ("chainTerminalGeneration", Some (int (rec_ChainTerminalGeneration value)));
          ("chainDigest", Some (str (rec_ChainDigest value))); ("chainHopCount", Some (int (rec_ChainHopCount value)));
          ("terminalAuthorityKeyId", Some (str (rec_TerminalAuthorityKeyID value)));
          ("policyGeneration", Some (int (rec_PolicyGeneration value)));
          ("policyPayloadDigest", Some (str (rec_PolicyPayloadDigest value)))].

#[export] Instance chain_record : StateRecord record :=
  {| maxStateBytes := 8192; record_fields := state_fields; of_members := decode_members;
     validRecord := valid_record; record_doc := record_json |}.

(** [writeAndVerifyRecord]: [createPrivateTemporaryFile] sets the mode, and the
    new file is checked before it is written. *)
Definition writeAndVerifyRecord : path → path → record → io unit :=
  write_record ".repopass-trust-rotation-chain-state-" (λ p, io! _ := attempt in validateOpenedRegularFile p).

Definition state_directories : list string := ["trust-policy-state"; "v1"; "rotation-chain"].
Definition chainStateRoot (dataRoot : string) : io path := stateRoot 63 true state_directories dataRoot.

Definition unavailable (generation policyGeneration : Z) : Result * option string :=
  ({| Evaluation := EvaluationUnavailable; ChainTerminalGeneration := generation; PolicyGeneration := policyGeneration |},
   Some ErrUnavailable).

Definition classify (o : Observation) (stored : record) : decision :=
  if negb (sameScope stored o) then Foreign
  else if (o_ChainTerminalGeneration o <? rec_ChainTerminalGeneration stored) || (o_PolicyGeneration o <? rec_PolicyGeneration stored)
  then Refuses EvaluationRollbackRejected
  else if (o_ChainTerminalGeneration o =? rec_ChainTerminalGeneration stored)
          && ((o_ChainDigest o !=s rec_ChainDigest stored) || negb (o_ChainHopCount o =? rec_ChainHopCount stored)
              || (o_TerminalAuthorityKeyID o !=s rec_TerminalAuthorityKeyID stored))
  then Refuses EvaluationAuthorityEquivocationRejected
  else if (o_PolicyGeneration o =? rec_PolicyGeneration stored)
          && (o_PolicyPayloadDigest o !=s rec_PolicyPayloadDigest stored)
  then Refuses EvaluationPolicyEquivocationRejected
  else if (o_ChainTerminalGeneration o =? rec_ChainTerminalGeneration stored) && (o_PolicyGeneration o =? rec_PolicyGeneration stored)
  then Matches
  else Advances.

(** The locked directory: the context is checked first, and again with the lock. *)
Definition locked (dataRoot rootHex : string) : io path :=
  open_locked (io! _ := attempt in chainStateRoot dataRoot) rootHex attempt.

(** [Observe] up to its outcome, and its result.  A nil context is not
    modelled: the callers pass theirs. *)
Definition observe (dataRoot : string) (o : Observation) : world → outcome record * world :=
  if negb (validObservation o) then λ w, (Unavailable None, w)
  else
    let rootHex := trim_prefix "sha256:" (o_TrustRootKeyID o) in
    observe_record (locked dataRoot rootHex) rootHex writeAndVerifyRecord (classify o) (recordFromObservation o).

Definition result_of (o : Observation) (out : outcome record) : Result * option string :=
  let result evaluation := {| Evaluation := evaluation; ChainTerminalGeneration := o_ChainTerminalGeneration o; PolicyGeneration := o_PolicyGeneration o |} in
  let kept evaluation s := {| Evaluation := evaluation; ChainTerminalGeneration := rec_ChainTerminalGeneration s; PolicyGeneration := rec_PolicyGeneration s |} in
  match out with
  | Unavailable None => unavailable 0 0
  | Unavailable (Some s) => unavailable (rec_ChainTerminalGeneration s) (rec_PolicyGeneration s)
  | Refused evaluation s =>
      (kept evaluation s,
       Some (if evaluation =s EvaluationRollbackRejected then ErrGenerationRollback
             else if evaluation =s EvaluationAuthorityEquivocationRejected then ErrAuthorityEquivocation
             else ErrPolicyEquivocation))
  | Matched s => (kept EvaluationMatched s, None)
  | Advanced => (result EvaluationAdvanced, None)
  | Initialized => (result EvaluationInitialized, None)
  end.

Definition Observe (dataRoot : string) (o : Observation) (w : world) : (Result * option string) * world :=
  let '(out, w) := observe dataRoot o w in (result_of o out, w).

(** ** The laws of the record *)

#[export] Instance chain_laws : StateLaws record.
Proof.
  intros [v root pu ty g a b t pg pd] Hv. cbn in Hv. unfold valid_record, validObservation, observation_of in Hv. cbn in Hv. to_prop.
  match goal with H : valid_generation g = true |- _ => apply valid_generation_bounds in H as Hg end.
  match goal with H : valid_generation pg = true |- _ => apply valid_generation_bounds in H as Hpg end.
  pose proof (uint64_reads g ltac:(lia)) as Hread. pose proof (uint64_reads pg ltac:(lia)) as Hread'.
  pose proof (uint64_reads b ltac:(unfold maxGeneration; lia)) as Hread2.
  assert (utf8_valid root = true) as Hroot by by apply validDigest_utf8.
  assert (utf8_valid a = true) as Ha by by apply validDigest_utf8.
  assert (utf8_valid t = true) as Ht by by apply validDigest_utf8.
  assert (utf8_valid pd = true) as Hpd by by apply validDigest_utf8.
  subst v pu ty.
  state_law [("schemaVersion", JStr "1"); ("trustRootKeyId", JStr root); ("purpose", JStr Purpose);
             ("policyPayloadType", JStr PolicyPayloadType); ("chainTerminalGeneration", JNum (dec_Z g)); ("chainDigest", JStr a);
             ("chainHopCount", JNum (dec_Z b)); ("terminalAuthorityKeyId", JStr t); ("policyGeneration", JNum (dec_Z pg));
             ("policyPayloadDigest", JStr pd)].
Qed.

(** ** The order of the records: both generations grow, and neither side of a
    record changes without its generation. *)

Definition same_scope (r r' : record) : Prop :=
  rec_SchemaVersion r = rec_SchemaVersion r' ∧ rec_TrustRootKeyID r = rec_TrustRootKeyID r'
  ∧ rec_Purpose r = rec_Purpose r' ∧ rec_PolicyPayloadType r = rec_PolicyPayloadType r'.
Definition authority_side (r : record) : string * Z * string :=
  (rec_ChainDigest r, rec_ChainHopCount r, rec_TerminalAuthorityKeyID r).

Record same_or_newer (r r' : record) : Prop := {
  newer_scope : same_scope r r';
  newer_authority : rec_ChainTerminalGeneration r <= rec_ChainTerminalGeneration r';
  newer_policy : rec_PolicyGeneration r <= rec_PolicyGeneration r';
  newer_authority_side : rec_ChainTerminalGeneration r = rec_ChainTerminalGeneration r' → authority_side r = authority_side r';
  newer_policy_side : rec_PolicyGeneration r = rec_PolicyGeneration r' → rec_PolicyPayloadDigest r = rec_PolicyPayloadDigest r'
}.

#[export] Instance chain_order : Advancing record.
Proof.
  exists same_or_newer.
  - split; [by split|]. intros a b c [(? & ? & ? & ?) A1 P1 E1 D1] [(? & ? & ? & ?) A2 P2 E2 D2].
    split; [split_and!; congruence|lia|lia| |]; intros E; [rewrite E1, E2|rewrite D1, D2]; try done; lia.
  - intros a b [(? & ? & ? & ?) A1 P1 E1 D1] [_ A2 P2 _ _]. assert (rec_ChainTerminalGeneration a = rec_ChainTerminalGeneration b) as E by lia.
    assert (rec_PolicyGeneration a = rec_PolicyGeneration b) as D by lia. specialize (E1 E). specialize (D1 D).
    unfold authority_side in E1. injection E1 as ? ? ?. destruct a, b; cbn in *. congruence.
Defined.

Lemma chain_classified o r :
  sameScope r o = true → ((o_ChainTerminalGeneration o <? rec_ChainTerminalGeneration r) || (o_PolicyGeneration o <? rec_PolicyGeneration r)) = false →
  ((o_ChainTerminalGeneration o =? rec_ChainTerminalGeneration r)
     && ((o_ChainDigest o !=s rec_ChainDigest r) || negb (o_ChainHopCount o =? rec_ChainHopCount r)
         || (o_TerminalAuthorityKeyID o !=s rec_TerminalAuthorityKeyID r))) = false →
  ((o_PolicyGeneration o =? rec_PolicyGeneration r) && (o_PolicyPayloadDigest o !=s rec_PolicyPayloadDigest r)) = false →
  same_or_newer r (recordFromObservation o).
Proof.
  intros Hs Hr Ha Hp. unfold sameScope in Hs. to_prop. split; cbn; [by split_and!|lia|lia| |].
  - intros E. unfold authority_side. cbn. rewrite E, Z.eqb_refl in Ha. cbn [andb] in Ha. to_prop. congruence.
  - intros E. rewrite E, Z.eqb_refl in Hp. cbn [andb] in Hp. by to_prop.
Qed.

Lemma chain_sound dataRoot o :
  validKeyID (o_TrustRootKeyID o) = true →
  sound_observation (locked dataRoot (trim_prefix "sha256:" (o_TrustRootKeyID o))) (trim_prefix "sha256:" (o_TrustRootKeyID o))
    writeAndVerifyRecord (classify o) (recordFromObservation o).
Proof.
  intros (h & Eh & Hlen & Hh)%digest_string_iff. rewrite Eh. constructor.
  - apply keeps_open_locked; [|apply keeps_attempt]. apply keeps_bind; [apply keeps_attempt|intros _; apply keeps_stateRoot].
  - eexists _, _. split; [reflexivity|]. split.
    { intros p. apply looks_bind; [apply looks_attempt|intros _; apply looks_opened]. }
    intros root random. change (trim_prefix "sha256:" ("sha256:" +:+ h)) with h. apply not_temporary; [by intros ->|done].
  - intros r. unfold classify. destruct (sameScope r o) eqn:Es; [|done]. cbn [negb].
    destruct (_ || (o_PolicyGeneration o <? _)) eqn:Er; [done|]. destruct (_ && (_ || _)) eqn:Ea; [done|].
    destruct (_ && (o_PolicyPayloadDigest o !=s _)) eqn:Ep; [done|]. intros _. by apply chain_classified.
  - intros r Hv. unfold classify. destruct (sameScope r o) eqn:Es; [|done]. cbn [negb].
    destruct (_ || (o_PolicyGeneration o <? _)) eqn:Er; [done|]. destruct (_ && (_ || _)) eqn:Ea; [done|].
    destruct (_ && (o_PolicyPayloadDigest o !=s _)) eqn:Ep; [done|].
    destruct (_ && (o_PolicyGeneration o =? _)) eqn:Em; [|done]. intros _.
    destruct (chain_classified o r Es Er Ea Ep) as [(S1 & S2 & S3 & S4) _ _ HA HP]. cbn in *. to_prop.
    rewrite H, H0 in *. specialize (HA eq_refl). specialize (HP eq_refl). injection HA as ? ? ?. destruct r; cbn in *.
    unfold recordFromObservation. by subst.
Qed.

(** ** Properties *)

Definition call (i : string * Observation) : world → outcome record * world := observe i.1 i.2.
Definition chain_path (dataRoot : string) (o : Observation) : path :=
  state_path dataRoot state_directories (trim_prefix "sha256:" (o_TrustRootKeyID o)).

Lemma chain_call_step i w :
  (∀ q r, stored w q = Some r → ∃ r', stored (call i w).2 q = Some r' ∧ advances r r')
  ∧ (has_prefix "/" i.1 = true → accepted (call i w).1 = true →
       stored (call i w).2 (chain_path i.1 i.2) = Some (recordFromObservation i.2)).
Proof.
  destruct i as [dataRoot o]. unfold call, observe. cbn [fst snd].
  destruct (validObservation o) eqn:Hv; cbn [negb]; [|by split; [intros q r; exists r|]].
  assert (validKeyID (o_TrustRootKeyID o) = true) as Ha by (unfold validObservation in Hv; to_prop; done).
  pose proof (observe_step _ _ _ _ _ (chain_sound dataRoot o Ha) w) as Hs.
  destruct (observe_record _ _ _ _ _ w) as [out w']. destruct (Hs out w' eq_refl) as [Hmono Hacc].
  split; [done|]. intros Habs H. destruct (Hacc H) as (root & w1 & Hroot & Hst).
  apply open_locked_root in Hroot as [w2 Hroot]. apply bind_some in Hroot as (? & w3 & _ & Hroot).
  apply stateRoot_root in Hroot as ->; [|done]. exact Hst.
Qed.

Lemma chain_result_accepted o out : snd (result_of o out) = None ↔ accepted out = true.
Proof. by destruct out as [[]| | | |]. Qed.

(** Monotonic rotation-chain state: after an accepted observation of a trust root and any
    further observations under any failures, an accepted observation of that root
    lowers neither generation; with the same chain generation it has the
    same chain digest, hop count and terminal authority, and with the same policy
    generation the same policy digest. *)
Theorem chain_state_monotone dataRoot o1 o2 r1 r2 w1 w1' w2 w2' :
  has_prefix "/" dataRoot = true → o_TrustRootKeyID o1 = o_TrustRootKeyID o2 →
  Observe dataRoot o1 w1 = ((r1, None), w1') → later call w1' w2 → Observe dataRoot o2 w2 = ((r2, None), w2') →
  o_ChainTerminalGeneration o1 <= o_ChainTerminalGeneration o2 ∧ o_PolicyGeneration o1 <= o_PolicyGeneration o2
  ∧ (o_ChainTerminalGeneration o1 = o_ChainTerminalGeneration o2 →
       o_ChainDigest o1 = o_ChainDigest o2 ∧ o_ChainHopCount o1 = o_ChainHopCount o2
       ∧ o_TerminalAuthorityKeyID o1 = o_TerminalAuthorityKeyID o2)
  ∧ (o_PolicyGeneration o1 = o_PolicyGeneration o2 → o_PolicyPayloadDigest o1 = o_PolicyPayloadDigest o2).
Proof.
  intros Habs Hroot H1 Hl H2. unfold Observe in *.
  destruct (observe dataRoot o1 w1) as [out1 u1] eqn:E1. destruct (observe dataRoot o2 w2) as [out2 u2] eqn:E2.
  injection H1 as H1 <-. injection H2 as H2 <-.
  assert (advances (recordFromObservation o1) (recordFromObservation o2)) as [_ HA HP HE HD].
  { apply (accepted_in_order call (λ i, recordFromObservation i.2) (λ i p, has_prefix "/" i.1 = true ∧ p = chain_path i.1 i.2)
      (λ i w, proj1 (chain_call_step i w))) with (i := (dataRoot, o1)) (w1 := w1)
      (j := (dataRoot, o2)) (w2 := w2) (p := chain_path dataRoot o1); unfold call; cbn [fst snd]; rewrite ?E1, ?E2; try done.
    - intros i w p [Hp ->] Ha. by apply (proj2 (chain_call_step i w)).
    - unfold chain_path. by rewrite Hroot.
    - cbn [fst]. by rewrite <- (chain_result_accepted o1), H1.
    - cbn [fst]. by rewrite <- (chain_result_accepted o2), H2. }
  cbn in HA, HP, HE, HD. split_and!; try done. intros E. specialize (HE E). by injection HE as ? ? ?.
Qed.

Definition sample_observation (generation policyGeneration : Z) (c : ascii) : Observation :=
  {| o_TrustRootKeyID := sample_digest "a"; o_Purpose := Purpose; o_PolicyPayloadType := PolicyPayloadType;
     o_ChainTerminalGeneration := generation; o_ChainDigest := sample_digest c; o_ChainHopCount := 3;
     o_TerminalAuthorityKeyID := sample_digest "b"; o_PolicyGeneration := policyGeneration;
     o_PolicyPayloadDigest := sample_digest "5" |}.

Definition sample_first : (Result * option string) * world := Observe "/data" (sample_observation 3 9 "1") (sample_world []).
Definition sample_rollback : (Result * option string) * world := Observe "/data" (sample_observation 4 8 "2") sample_first.2.
Definition sample_second : (Result * option string) * world := Observe "/data" (sample_observation 4 9 "2") sample_rollback.2.

Example chain_sample_evaluations :
  (List.map (λ x : (Result * option string) * world, Evaluation x.1.1) [sample_first; sample_rollback; sample_second])
  = [EvaluationInitialized; EvaluationRollbackRejected; EvaluationAdvanced].
Proof. by vm_compute. Qed.

Lemma chain_sample_accepted : sample_first.1.2 = None ∧ sample_second.1.2 = None.
Proof. by vm_compute. Qed.

Lemma chain_sample_later : later call sample_first.2 sample_rollback.2.
Proof.
  eapply (later_call _ _ ("/data", sample_observation 4 8 "2")); [by apply later_refl|].
  unfold sample_rollback, Observe, call. cbn [fst snd]. by destruct (observe _ _ _).
Qed.

Lemma chain_state_monotone_witness : 3 <= 4 ∧ 9 <= 9.
Proof.
  destruct (chain_state_monotone "/data" (sample_observation 3 9 "1") (sample_observation 4 9 "2") _ _
    (sample_world []) sample_first.2 sample_rollback.2 sample_second.2 eq_refl eq_refl
    (pair_none sample_first (proj1 chain_sample_accepted)) chain_sample_later (pair_none sample_second (proj2 chain_sample_accepted)))
    as (H1 & H2 & _).
  split; [exact H1|exact H2].
Defined.
