(* ===== verification/Base64.v ===== *)
(** * Base64 (encoding/base64, the standard alphabet with padding)

    [StdEncoding.EncodeToString], [DecodeString] of the encoding and of its
    [Strict()] form, and the round trip between them.  The decoder skips carriage returns and newlines,
    so it is the canonical-text comparison of the callers that makes the
    encoding unique. *)

From S2P Require Import Prelude.

Local Open Scope N_scope.

Definition b64_char (n : N) : ascii :=
  if n <? 26 then byte_of (65 + n)
  else if n <? 52 then byte_of (71 + n)
  else if n <? 62 then byte_of (n - 4)
  else if n =? 62 then "+" else "/".

Definition b64_value (c : ascii) : option N :=
  let v := byte_val c in
  if in_range 65 90 c then Some (v - 65)
  else if in_range 97 122 c then Some (v - 71)
  else if is_digit c then Some (v + 4)
  else if v =? 43 then Some 62
  else if v =? 47 then Some 63
  else None.

Fixpoint EncodeToString (s : string) : string :=
  match s with
  | EmptyString => ""
  | String a EmptyString =>
      let x := byte_val a in
      String (b64_char (x / 4)) (String (b64_char (x mod 4 * 16)) "==")
  | String a (String b EmptyString) =>
      let x := byte_val a in
      let y := byte_val b in
      String (b64_char (x / 4)) (String (b64_char (x mod 4 * 16 + y / 16)) (String (b64_char (y mod 16 * 4)) "="))
  | String a (String b (String c rest)) =>
      let x := byte_val a in
      let y := byte_val b in
      let z := byte_val c in
      String (b64_char (x / 4)) (String (b64_char (x mod 4 * 16 + y / 16))
        (String (b64_char (y mod 16 * 4 + z / 64)) (String (b64_char (z mod 64)) (EncodeToString rest))))
  end.

(** One quantum of four characters after the other; padding ends the text and,
    in the strict form, the unused bits must be zero. *)
Fixpoint decode_quanta (strict : bool) (s : string) : option string :=
  match s with
  | EmptyString => Some ""
  | String w (String x (String y (String z rest))) =>
      let? a := b64_value w in
      let? b := b64_value x in
      if Ascii.eqb z "=" then
        if negb (rest =s "") then None
        else if Ascii.eqb y "=" then
          if negb strict || (b mod 16 =? 0) then Some (String (byte_of (a * 4 + b / 16)) "") else None
        else
          let? c := b64_value y in
          if negb strict || (c mod 4 =? 0)
          then Some (String (byte_of (a * 4 + b / 16)) (String (byte_of (b mod 16 * 16 + c / 4)) "")) else None
      else
        let? c := b64_value y in
        let? d := b64_value z in
        let? r := decode_quanta strict rest in
        Some (String (byte_of (a * 4 + b / 16))
                (String (byte_of (b mod 16 * 16 + c / 4)) (String (byte_of (c mod 4 * 64 + d)) r)))
  | _ => None
  end.

Fixpoint without_newlines (s : string) : string :=
  match s with
  | EmptyString => ""
  | String c s' =>
      if (byte_val c =? 10) || (byte_val c =? 13) then without_newlines s' else String c (without_newlines s')
  end.

(** [StdEncoding.Strict().DecodeString] and [StdEncoding.DecodeString]. *)
Definition DecodeString (s : string) : option string := decode_quanta true (without_newlines s).
Definition DecodeLenient (s : string) : option string := decode_quanta false (without_newlines s).

Definition EncodedLen (n : Z) : Z := ((n + 2) / 3 * 4)%Z.

(** The test vectors of RFC 4648. *)
Example base64_vectors :
  List.map EncodeToString [""; "f"; "fo"; "foo"; "foob"; "fooba"; "foobar"]
  = [""; "Zg=="; "Zm8="; "Zm9v"; "Zm9vYg=="; "Zm9vYmE="; "Zm9vYmFy"].
Proof. reflexivity. Qed.
Example base64_rejects : List.map DecodeString ["Zh=="; "Zg="; "Zg==Zg=="; "Z===" ; "Zm9v!"] = [None; None; None; None; None].
Proof. reflexivity. Qed.
Example base64_newline : DecodeString (String "Z" (String (byte_of 10) "g==")) = Some "f".
Proof. reflexivity. Qed.

(** ** Round trip *)

Lemma below_64 (P : N → bool) : forallb P (List.map N.of_nat (seq 0 64)) = true → ∀ n, n < 64 → P n = true.
Proof.
  intros H n Hn. rewrite forallb_forall in H. apply H, in_map_iff. exists (N.to_nat n).
  rewrite N2Nat.id. split; [done|]. apply in_seq. lia.
Qed.

Lemma b64_value_char n : n < 64 → b64_value (b64_char n) = Some n.
Proof.
  intros Hn. pose proof (below_64 (λ n, match b64_value (b64_char n) with Some v => v =? n | None => false end)
    ltac:(vm_compute; reflexivity) n Hn) as H.
  cbv beta in H. destruct (b64_value (b64_char n)); [|done]. by apply N.eqb_eq in H as ->.
Qed.

Lemma b64_char_plain n : n < 64 →
  Ascii.eqb (b64_char n) "=" = false ∧ ((byte_val (b64_char n) =? 10) || (byte_val (b64_char n) =? 13)) = false.
Proof.
  intros Hn. pose proof (below_64 (λ n, negb (Ascii.eqb (b64_char n) "=")
    && negb ((byte_val (b64_char n) =? 10) || (byte_val (b64_char n) =? 13))) ltac:(vm_compute; reflexivity) n Hn) as H.
  cbv beta in H. by apply andb_prop in H as [->%negb_true_iff ->%negb_true_iff].
Qed.

Lemma split_radix a b m : b < m → (a * m + b) / m = a ∧ (a * m + b) mod m = b.
Proof.
  intros H. assert (m ≠ 0) by lia. rewrite N.div_add_l, N.div_small by done.
  rewrite (N.add_comm (a * m) b), N.Div0.mod_add, N.mod_small by done. split; lia.
Qed.

Lemma b64_not_newline n : n < 64 → ((byte_val (b64_char n) =? 10) || (byte_val (b64_char n) =? 13)) = false.
Proof. apply b64_char_plain. Qed.
Lemma b64_not_padding n : n < 64 → Ascii.eqb (b64_char n) "=" = false.
Proof. apply b64_char_plain. Qed.

(** The sextets of up to three bytes. *)
Lemma sextets x y z :
  x < 256 → y < 256 → z < 256 →
  (x / 4 < 64 ∧ x mod 4 * 16 + y / 16 < 64 ∧ y mod 16 * 4 + z / 64 < 64 ∧ z mod 64 < 64)
  ∧ x / 4 * 4 + (x mod 4 * 16 + y / 16) / 16 = x
  ∧ (x mod 4 * 16 + y / 16) mod 16 * 16 + (y mod 16 * 4 + z / 64) / 4 = y
  ∧ (y mod 16 * 4 + z / 64) mod 4 * 64 + z mod 64 = z.
Proof.
  intros Hx Hy Hz.
  pose proof (N.mod_lt x 4 ltac:(lia)). pose proof (N.mod_lt y 16 ltac:(lia)). pose proof (N.mod_lt z 64 ltac:(lia)).
  assert (x / 4 < 64) by (apply N.Div0.div_lt_upper_bound; lia).
  assert (y / 16 < 16) by (apply N.Div0.div_lt_upper_bound; lia).
  assert (z / 64 < 4) by (apply N.Div0.div_lt_upper_bound; lia).
  destruct (split_radix (x mod 4) (y / 16) 16) as [-> ->]; [done|].
  destruct (split_radix (y mod 16) (z / 64) 4) as [-> ->]; [done|].
  pose proof (N.div_mod x 4 ltac:(lia)). pose proof (N.div_mod y 16 ltac:(lia)). pose proof (N.div_mod z 64 ltac:(lia)).
  split_and!; lia.
Qed.

Lemma three_ind (P : string → Prop) :
  P "" → (∀ a, P (String a "")) → (∀ a b, P (String a (String b ""))) →
  (∀ a b c s, P s → P (String a (String b (String c s)))) → ∀ s, P s.
Proof.
  intros H0 H1 H2 H3. assert (∀ n s, (slen s <= n)%nat → P s) as H; [|intros s; by apply (H (slen s))].
  induction n as [|n IH]; intros s Hs; [by destruct s; [|simpl in Hs; lia]|].
  destruct s as [|a [|b [|c s]]]; auto. apply H3, IH. simpl in Hs. lia.
Qed.

Lemma encode_no_newlines s : without_newlines (EncodeToString s) = EncodeToString s.
Proof.
  induction s as [|a|a b|a b c s IH] using three_ind; [done|..]; cbn [EncodeToString without_newlines].
  - destruct (sextets (byte_val a) 0 0) as ((? & H2 & _) & _); try apply byte_val_lt; try lia.
    change (0 / 16) with 0 in H2. rewrite N.add_0_r in H2.
    rewrite !b64_not_newline by done. done.
  - destruct (sextets (byte_val a) (byte_val b) 0) as ((? & ? & H3 & _) & _); try apply byte_val_lt; try lia.
    change (0 / 64) with 0 in H3. rewrite N.add_0_r in H3.
    rewrite !b64_not_newline by done. done.
  - destruct (sextets (byte_val a) (byte_val b) (byte_val c)) as ((? & ? & ? & ?) & _); try apply byte_val_lt.
    rewrite !b64_not_newline by done. by rewrite IH.
Qed.

Lemma decode_quanta_encode strict s : decode_quanta strict (EncodeToString s) = Some s.
Proof.
  induction s as [|a|a b|a b c s IH] using three_ind; [done|..]; cbn [EncodeToString decode_quanta].
  - destruct (sextets (byte_val a) 0 0) as ((? & H2 & _) & E & _); try apply byte_val_lt; try lia.
    change (0 / 16) with 0 in *. rewrite N.add_0_r in *. rewrite !b64_value_char by done. cbn [mbind option_bind Ascii.eqb Bool.eqb].
    cbn. rewrite E, N.Div0.mod_mul, byte_of_val. by destruct strict.
  - destruct (sextets (byte_val a) (byte_val b) 0) as ((? & ? & H3 & _) & E1 & E2 & _); try apply byte_val_lt; try lia.
    change (0 / 64) with 0 in *. rewrite N.add_0_r in *. rewrite !b64_value_char by done.
    rewrite (b64_not_padding _ H3). cbn [mbind option_bind].
    change (Ascii.eqb "=" "=") with true. change ("" =s "") with true. cbn [negb].
    rewrite N.Div0.mod_mul, E1, E2, !byte_of_val. by destruct strict.
  - destruct (sextets (byte_val a) (byte_val b) (byte_val c)) as ((? & ? & ? & H4) & E1 & E2 & E3); try apply byte_val_lt.
    rewrite !b64_value_char by done. rewrite (b64_not_padding _ H4). cbn [mbind option_bind].
    rewrite IH. cbn [mbind option_bind]. by rewrite E1, E2, E3, !byte_of_val.
Qed.

Lemma decode_encode_string s : DecodeString (EncodeToString s) = Some s.
Proof. unfold DecodeString. by rewrite encode_no_newlines, decode_quanta_encode. Qed.
Lemma decode_lenient_encode s : DecodeLenient (EncodeToString s) = Some s.
Proof. unfold DecodeLenient. by rewrite encode_no_newlines, decode_quanta_encode. Qed.

Lemma encode_string_injective a b : EncodeToString a = EncodeToString b → a = b.
Proof. intros H. assert (Some a = Some b) as [= E]; [|done]. by rewrite <- !decode_encode_string, H. Qed.

Lemma zlen_encode s : zlen (EncodeToString s) = EncodedLen (zlen s).
Proof.
  unfold zlen, EncodedLen. induction s as [|a|a b|a b c s IH] using three_ind; [done..|].
  cbn [EncodeToString slen]. rewrite !Nat2Z.inj_succ, IH. unfold slen.
  generalize (Z.of_nat (String.length s)). intros n. Z.to_euclidean_division_equations. lia.
Qed.
