(* ===== verification/GoStruct.v ===== *)
(** * Reading JSON into typed Go values (encoding/json)

    The types the trust documents are made of (strings, booleans, unsigned integers,
    slices and structs with JSON names), how [json.Unmarshal] and
    [json.Decoder] fill a value of such a type, how [json.Marshal] writes one,
    and the round trip.  A failed decode returns no value: the callers discard
    it.  [JsonUnmarshal] has the reader of the text. *)

From S2P Require Import Prelude Json StructuredJson JsonUnmarshal SemanticEqual GoValue CanonicalJson.

Local Open Scope Z_scope.

Inductive ty :=
  | TString
  | TBool
  | TUint64
  | TSlice (t : ty)
  | TStruct (fields : list (string * ty)).

(** A slice is [nil] or has elements; [spare] holds the elements left in its
    backing array beyond its length, which a later decode reuses. *)
Inductive value :=
  | GStr (s : string)
  | GBool (b : bool)
  | GUint (z : Z)
  | GSlice (elements : option (list value)) (spare : list value)
  | GStruct (members : list value).

Fixpoint zero (t : ty) : value :=
  match t with
  | TString => GStr ""
  | TBool => GBool false
  | TUint64 => GUint 0
  | TSlice _ => GSlice None []
  | TStruct fields => GStruct (List.map (λ f, zero f.2) fields)
  end.

(** The field a member selects: the one of its exact name, else the first with
    its case-folded name. *)
Fixpoint find_field (P : string → bool) (fields : list (string * ty)) (i : nat) : option (nat * ty) :=
  match fields with
  | [] => None
  | (name, t) :: fields' => if P name then Some (i, t) else find_field P fields' (S i)
  end.
Definition field_of (fields : list (string * ty)) (key : string) : option (nat * ty) :=
  match find_field (String.eqb key) fields 0 with
  | Some f => Some f
  | None => find_field (λ name, fold_name name =s fold_name key) fields 0
  end.

(** [strict] is [DisallowUnknownFields]. *)
Section Decode.
Variable strict : bool.

Definition members_with (decode : json → ty → value → option value) (fields : list (string * ty))
  : list (string * json) → list value → option (list value) :=
  fix go l vs :=
    match l with
    | [] => Some vs
    | (key, item) :: l' =>
        match field_of fields key with
        | None => if strict then None else go l' vs
        | Some (i, t) =>
            let? v := decode item t (nth i vs (zero t)) in
            go l' (<[i := v]> vs)
        end
    end.

Definition elements_with (decode : json → ty → value → option value) (t : ty)
  : list json → list value → option (list value) :=
  fix go l backing :=
    match l with
    | [] => Some []
    | item :: l' =>
        let? v := decode item t (hd (zero t) backing) in
        let? vs := go l' (tl backing) in
        Some (v :: vs)
    end.

Fixpoint decode_value (j : json) (t : ty) (old : value) : option value :=
  match t, j with
  | TSlice _, JNull => Some (GSlice None [])
  | _, JNull => Some old
  | TString, JStr s => Some (GStr s)
  | TBool, JBool b => Some (GBool b)
  | TUint64, JNum lexeme => let? z := parse_uint 64 lexeme in Some (GUint z)
  | TSlice t', JArr [] => Some (GSlice (Some []) [])
  | TSlice t', JArr l =>
      let backing := match old with GSlice e spare => default [] e ++ spare | _ => [] end in
      let? vs := elements_with decode_value t' l backing in
      Some (GSlice (Some vs) (drop (length vs) backing))
  | TStruct fields, JObj l =>
      let vs := match old with GStruct vs => vs | _ => [] end in
      let? vs := members_with decode_value fields l vs in
      Some (GStruct vs)
  | _, _ => None
  end.
End Decode.

(** The document [json.Marshal] writes. *)
Fixpoint doc_of (t : ty) (v : value) : json :=
  match t, v with
  | TString, GStr s => JStr (sanitize s)
  | TBool, GBool b => JBool b
  | TUint64, GUint z => JNum (dec_Z z)
  | TSlice t', GSlice (Some l) _ => JArr (List.map (doc_of t') l)
  | TStruct fields, GStruct vs =>
      JObj ((fix go (fields : list (string * ty)) (vs : list value) :=
               match fields, vs with
               | (name, t') :: fields', v' :: vs' => (name, doc_of t' v') :: go fields' vs'
               | _, _ => []
               end) fields vs)
  | _, _ => JNull
  end.

Definition struct_doc : list (string * ty) → list value → list (string * json) :=
  fix go fields vs :=
    match fields, vs with
    | (name, t) :: fields', v :: vs' => (name, doc_of t v) :: go fields' vs'
    | _, _ => []
    end.

Lemma doc_of_struct fields vs : doc_of (TStruct fields) (GStruct vs) = JObj (struct_doc fields vs).
Proof. done. Qed.

(** ** Values that survive the round trip *)

Section Induction.
Variable P : ty → Prop.
Hypothesis HString : P TString.
Hypothesis HBool : P TBool.
Hypothesis HUint : P TUint64.
Hypothesis HSlice : ∀ t, P t → P (TSlice t).
Hypothesis HStruct : ∀ fields, Forall (λ f, P f.2) fields → P (TStruct fields).
Fixpoint ty_nested_ind (t : ty) : P t :=
  match t with
  | TString => HString
  | TBool => HBool
  | TUint64 => HUint
  | TSlice t' => HSlice t' (ty_nested_ind t')
  | TStruct fields =>
      HStruct fields
        ((fix go fields : Forall (λ f : string * ty, P f.2) fields :=
            match fields with
            | [] => Forall_nil_2 _
            | f :: fields' => Forall_cons_2 (λ f, P f.2) f fields' (ty_nested_ind f.2) (go fields')
            end) fields)
  end.
End Induction.

(** Types with distinct ASCII field names. *)
Fixpoint ty_ok (t : ty) : bool :=
  match t with
  | TString | TBool | TUint64 => true
  | TSlice t' => ty_ok t'
  | TStruct fields =>
      bool_decide (NoDup fields.*1) && forallb (λ f, string_forallb ascii7 f.1 && ty_ok f.2) fields
  end.

(** A value of the type: valid text, 64-bit numbers, slices without spare
    elements. *)
Inductive has_type : ty → value → Prop :=
  | type_str s : utf8_valid s = true → has_type TString (GStr s)
  | type_bool b : has_type TBool (GBool b)
  | type_uint z : 0 <= z < 2 ^ 64 → has_type TUint64 (GUint z)
  | type_nil t : has_type (TSlice t) (GSlice None [])
  | type_slice t l : Forall (has_type t) l → has_type (TSlice t) (GSlice (Some l) [])
  | type_struct fields vs : Forall2 (λ f v, has_type f.2 v) fields vs → has_type (TStruct fields) (GStruct vs).

(** ** Members fill the fields they name *)

Lemma find_field_index name fields i j t :
  NoDup fields.*1 → fields !! i = Some (name, t) → find_field (String.eqb name) fields j = Some ((j + i)%nat, t).
Proof.
  revert i j. induction fields as [|[n t'] fields IH]; intros i j Hnd H; [done|].
  rewrite fmap_cons in Hnd. apply NoDup_cons in Hnd as [Hni Hnd]. destruct i as [|i]; cbn [find_field].
  - injection H as -> ->. rewrite string_eqb_refl. by rewrite Nat.add_0_r.
  - change (fields !! i = Some (name, t)) in H. destruct (String.eqb_spec name n) as [<-|Hne].
    + exfalso. apply Hni. apply list_elem_of_lookup. exists i. by rewrite list_lookup_fmap, H.
    + rewrite (IH i (S j)) by done. f_equal. f_equal. lia.
Qed.

Lemma field_of_exact fields i name t :
  NoDup fields.*1 → fields !! i = Some (name, t) → field_of fields name = Some (i, t).
Proof. intros Hnd H. unfold field_of. by rewrite (find_field_index name fields i 0 t). Qed.

Lemma members_fill strict dec fields l vs ws :
  NoDup fields.*1 → NoDup l.*1 → length vs = length fields → length ws = length fields →
  (∀ i name t w, fields !! i = Some (name, t) → ws !! i = Some w →
     match assoc name l with
     | Some item => dec item t (nth i vs (zero t)) = Some w
     | None => vs !! i = Some w
     end) →
  (∀ k, k ∈ l.*1 → k ∈ fields.*1) →
  members_with strict dec fields l vs = Some ws.
Proof.
  intros Hnd. revert vs. induction l as [|[key item] l IH]; intros vs Hl Hvs Hws Hfill Hin.
  - cbn. f_equal. apply list_eq. intros i. destruct (ws !! i) as [w|] eqn:Ew.
    + pose proof (lookup_lt_Some _ _ _ Ew) as Hlt. rewrite Hws in Hlt.
      apply lookup_lt_is_Some_2 in Hlt as [[name t] Hf]. exact (Hfill i name t w Hf Ew).
    + apply lookup_ge_None in Ew. apply lookup_ge_None. lia.
  - rewrite fmap_cons in Hl. apply NoDup_cons in Hl as [Hni Hl]. cbn [members_with].
    destruct (list_elem_of_fmap_1 _ _ _ (Hin key ltac:(left))) as ([key' t] & Hk & Hf). cbn in Hk. subst key'.
    apply list_elem_of_lookup in Hf as [i Hf]. rewrite (field_of_exact fields i key t) by done.
    assert (∃ w, ws !! i = Some w) as [w Hw].
    { apply lookup_lt_is_Some_2. apply lookup_lt_Some in Hf. lia. }
    pose proof (Hfill i key t w Hf Hw) as Hi. cbn [assoc] in Hi. rewrite string_eqb_refl in Hi.
    rewrite Hi. cbn [mbind option_bind]. apply IH; [done|by rewrite length_insert|done| |].
    + intros j name t' w' Hf' Hw'. specialize (Hfill j name t' w' Hf' Hw'). cbn [assoc] in Hfill.
      destruct (String.eqb_spec key name) as [->|Hne].
      * assert (j = i) as ->.
        { apply (NoDup_lookup fields.*1 j i name Hnd); rewrite list_lookup_fmap; [by rewrite Hf'|by rewrite Hf]. }
        rewrite (proj2 (assoc_None_iff name l) Hni). rewrite list_lookup_insert_eq; [congruence|].
        rewrite Hvs. by apply lookup_lt_Some in Hf.
      * assert (j ≠ i) by (intros ->; rewrite Hf in Hf'; congruence).
        destruct (assoc name l).
        { rewrite nth_lookup in *. by rewrite list_lookup_insert_ne. }
        by rewrite list_lookup_insert_ne.
    + intros k Hk. apply Hin. by right.
Qed.

(** ** The round trip *)

Lemma struct_doc_keys fields vs : length vs = length fields → (struct_doc fields vs).*1 = fields.*1.
Proof.
  revert vs. induction fields as [|[name t] fields IH]; intros [|v vs] H; try done. cbn. f_equal. apply IH. simpl in H. lia.
Qed.

Lemma struct_doc_lookup fields vs i name t v :
  fields !! i = Some (name, t) → vs !! i = Some v → (name, doc_of t v) ∈ struct_doc fields vs.
Proof.
  revert vs i. induction fields as [|[n t'] fields IH]; intros [|v' vs] [|i] Hf Hv; try done.
  - injection Hf as -> ->. injection Hv as ->. left.
  - right. by eapply IH.
Qed.

Lemma mapped_keys {A B} (f : A → B) (l : list (string * A)) : (List.map (λ p, (p.1, f p.2)) l).*1 = l.*1.
Proof. induction l as [|p l IH]; [done|]. cbn [List.map]. rewrite !fmap_cons. by rewrite IH. Qed.

Lemma NoDup_sort_keys {A} (l : list (string * A)) : NoDup l.*1 → NoDup (sort_keys l).*1.
Proof. intros H. apply keys_sorted_NoDup. by apply sort_keys_is_sorted. Qed.

Lemma has_type_struct fields v :
  has_type (TStruct fields) v → ∃ vs, v = GStruct vs ∧ Forall2 (λ f v, has_type f.2 v) fields vs.
Proof. inversion 1; subst. by eexists. Qed.

Lemma has_type_slice t v :
  has_type (TSlice t) v → v = GSlice None [] ∨ ∃ l, v = GSlice (Some l) [] ∧ Forall (has_type t) l.
Proof. inversion 1; subst; [by left|right; by eexists]. Qed.

Lemma doc_of_wf t v : ty_ok t = true → has_type t v → wf (doc_of t v) = true.
Proof.
  revert v. induction t as [| | |t IH|fields IH] using ty_nested_ind; intros v Hok Hv.
  - inversion Hv; subst. cbn. apply sanitize_is_valid.
  - by inversion Hv.
  - inversion Hv; subst. cbn. apply number_lexeme_dec_Z.
  - apply has_type_slice in Hv as [->|(l & -> & Hl)]; [done|]. cbn in *. rewrite forallb_forall. intros x Hx.
    apply in_map_iff in Hx as (y & <- & Hy). apply IH; [done|]. rewrite List.Forall_forall in Hl. by apply Hl.
  - apply has_type_struct in Hv as (vs & -> & Hvs). rewrite doc_of_struct. cbn [wf ty_ok] in *.
    apply andb_prop in Hok as [Hnd Hok]. apply bool_decide_eq_true in Hnd.
    rewrite struct_doc_keys by (symmetry; by eapply Forall2_length). rewrite bool_decide_true by done. cbn [andb].
    clear Hnd. revert vs Hvs. induction IH as [|[name t] fields Ht _ IHf]; intros vs Hvs; [by inversion Hvs|].
    inversion Hvs as [|? v ? vs' Hv Hvs']; subst. cbn [fst snd forallb struct_doc] in *. to_prop.
    rewrite Ht, IHf by done. by rewrite utf8_valid_ascii.
Qed.

Lemma elements_read strict t l :
  Forall (λ v, decode_value strict (canon (doc_of t v)) t (zero t) = Some v) l →
  elements_with (decode_value strict) t (List.map canon (List.map (doc_of t) l)) [] = Some l.
Proof.
  induction 1 as [|v l Hv _ IH]; [done|]. cbn [List.map elements_with hd tl]. rewrite Hv. cbn [mbind option_bind].
  by rewrite IH.
Qed.

Lemma decode_doc_of strict t v :
  ty_ok t = true → has_type t v → decode_value strict (canon (doc_of t v)) t (zero t) = Some v.
Proof.
  revert v. induction t as [| | |t IH|fields IH] using ty_nested_ind; intros v Hok Hv.
  - inversion Hv; subst. cbn. by rewrite sanitize_valid.
  - by inversion Hv.
  - inversion Hv; subst. cbn - [dec_Z parse_uint]. by rewrite parse_uint_dec_Z.
  - apply has_type_slice in Hv as [->|(l & -> & Hl)]; [done|]. cbn [doc_of canon zero ty_ok] in *.
    assert (elements_with (decode_value strict) t (List.map canon (List.map (doc_of t) l)) [] = Some l) as He.
    { apply elements_read. eapply Forall_impl; [exact Hl|]. intros v Hv. by apply IH. }
    destruct l as [|v l]; [done|]. cbn [List.map] in *. cbn [decode_value default app]. rewrite He.
    cbn [mbind option_bind]. by rewrite drop_nil.
  - apply has_type_struct in Hv as (vs & -> & Hvs). rewrite doc_of_struct. cbn [ty_ok] in Hok.
    apply andb_prop in Hok as [Hnd Hok]. apply bool_decide_eq_true in Hnd.
    pose proof (Forall2_length _ _ _ Hvs) as Hlen. cbn [canon decode_value zero].
    pose proof (struct_doc_keys fields vs (eq_sym Hlen)) as Hkeys.
    assert (NoDup (List.map (λ p : string * json, (p.1, canon p.2)) (struct_doc fields vs)).*1) as Hdoc.
    { by rewrite mapped_keys, Hkeys. }
    rewrite (members_fill strict (decode_value strict) fields _ _ vs); [done|done|by apply NoDup_sort_keys|by rewrite length_map|done| |].
    + intros i name t w Hf Hw.
      assert (assoc name (sort_keys (List.map (λ p : string * json, (p.1, canon p.2)) (struct_doc fields vs)))
        = Some (canon (doc_of t w))) as ->.
      { apply assoc_NoDup; [by apply NoDup_sort_keys|]. apply sort_keys_elem. apply list_elem_of_fmap.
        exists (name, doc_of t w). split; [done|]. by eapply struct_doc_lookup. }
      assert (nth i (List.map (λ f, zero f.2) fields) (zero t) = zero t) as ->.
      { change (List.map (λ f, zero f.2) fields) with ((λ f : string * ty, zero f.2) <$> fields).
        rewrite nth_lookup, list_lookup_fmap, Hf. done. }
      rewrite Forall_forall in IH. apply (IH (name, t)); [by eapply list_elem_of_lookup_2| |].
      * rewrite forallb_forall in Hok. assert (In (name, t) fields) as Hin by (apply list_elem_of_In; by eapply list_elem_of_lookup_2).
        specialize (Hok _ Hin). by to_prop.
      * by apply (Forall2_lookup_lr _ _ _ _ _ _ Hvs Hf Hw).
    + intros k Hk. by rewrite sort_keys_keys, mapped_keys, Hkeys in Hk.
Qed.

(** ** Limits and keys of a document *)

Lemma limit_integer_dec_N n : limit_integer (dec_N n) = Some "".
Proof.
  destruct (dec_N_head n) as [->|(c & s & E & Hd & H0)]; [done|].
  pose proof (dec_N_digits n) as Hall. rewrite E in *. unfold limit_integer.
  apply N.eqb_neq in H0. rewrite H0. unfold isDecimalDigit. rewrite Hd.
  pose proof (span_digits_all _ Hall) as ->. done.
Qed.

Lemma dec_number_ok z : numbers_ok (JNum (dec_Z z)) = true.
Proof.
  cbn [numbers_ok]. unfold jsonNumberWithinExponentLimit.
  assert (match dec_Z z with String c r => if (byte_val c =? 45)%N then r else dec_Z z | "" => dec_Z z end
    = dec_N (Z.to_N (Z.abs z))) as ->.
  { destruct z as [|p|p]; [done| |done]. unfold dec_Z. change (Z.abs (Z.pos p)) with (Z.pos p).
    pose proof (dec_N_not_minus (Z.to_N (Z.pos p))) as Hm. destruct (dec_N (Z.to_N (Z.pos p))); [done|]. by rewrite Hm. }
  by rewrite limit_integer_dec_N.
Qed.

Lemma doc_of_numbers t v : numbers_ok (doc_of t v) = true.
Proof.
  revert v. induction t as [| | |t IH|fields IH] using ty_nested_ind; intros v; try (by destruct v).
  - destruct v; try done. apply dec_number_ok.
  - destruct v as [| | |[l|]|]; try done. cbn [doc_of numbers_ok]. rewrite forallb_forall.
    intros x (y & <- & _)%in_map_iff. apply IH.
  - destruct v as [| | | |vs]; try done. rewrite doc_of_struct. cbn [numbers_ok]. revert vs.
    induction IH as [|[name t] fields Ht _ IHf]; intros [|v vs]; try done. cbn [struct_doc forallb fst snd] in *.
    by rewrite Ht, IHf.
Qed.

Lemma doc_of_keys t v : ty_ok t = true → validateASCIIObjectKeys (doc_of t v) = Ok tt.
Proof.
  revert v. induction t as [| | |t IH|fields IH] using ty_nested_ind; intros v Hok; try (by destruct v).
  - destruct v as [| | |[l|]|]; try done. cbn [doc_of validateASCIIObjectKeys].
    induction l as [|v l IHl]; [done|]. cbn [List.map]. by rewrite IH.
  - destruct v as [| | | |vs]; try done. rewrite doc_of_struct. cbn [ty_ok] in Hok. apply andb_prop in Hok as [_ Hok].
    cbn [validateASCIIObjectKeys]. revert vs.
    induction IH as [|[name t] fields Ht _ IHf]; intros [|v vs]; try done. cbn [struct_doc forallb fst snd] in *.
    to_prop. rewrite H. cbn [negb]. rewrite Ht by done. cbn [bind_result]. by apply IHf.
Qed.

Lemma Marshal_doc t v : ty_ok t = true → CanonicalJson.Marshal (Ok (doc_of t v)) = Ok (encode (doc_of t v)).
Proof. intros H. unfold CanonicalJson.Marshal. cbn [map_err bind_result]. by rewrite doc_of_keys. Qed.

(** ** Decoding keeps the type *)

Inductive shaped : ty → value → Prop :=
  | shaped_str s : shaped TString (GStr s)
  | shaped_bool b : shaped TBool (GBool b)
  | shaped_uint z : 0 <= z < 2 ^ 64 → shaped TUint64 (GUint z)
  | shaped_nil t spare : Forall (shaped t) spare → shaped (TSlice t) (GSlice None spare)
  | shaped_slice t l spare : Forall (shaped t) l → Forall (shaped t) spare → shaped (TSlice t) (GSlice (Some l) spare)
  | shaped_struct fields vs : Forall2 (λ f v, shaped f.2 v) fields vs → shaped (TStruct fields) (GStruct vs).

Lemma zero_shaped t : shaped t (zero t).
Proof.
  induction t as [| | |t IH|fields IH] using ty_nested_ind; cbn [zero]; constructor; [lia|by constructor|].
  induction IH as [|f fields Hf _ IHf]; constructor; done.
Qed.

Lemma find_field_shaped P fields vs i j t :
  Forall2 (λ (f : string * ty) v, shaped f.2 v) fields vs → find_field P fields j = Some (i, t) →
  shaped t (nth (i - j) vs (zero t)) ∧ (j <= i)%nat
  ∧ ∀ v, shaped t v → Forall2 (λ (f : string * ty) v, shaped f.2 v) fields (<[(i - j)%nat := v]> vs).
Proof.
  intros H. revert j. induction H as [|[n t'] v fields vs Hv Hvs IH]; intros j; [done|]. cbn [find_field].
  destruct (P n).
  - intros [= <- <-]. rewrite Nat.sub_diag. cbn. split_and!; [done|done|]. by constructor.
  - intros Hf. destruct (IH (S j) Hf) as (H1 & H2 & H3).
    assert (i - j = S (i - S j))%nat as -> by lia. cbn. split_and!; [done|lia|]. intros w Hw. constructor; [done|]. by apply H3.
Qed.

Lemma field_of_shaped fields vs key i t :
  Forall2 (λ (f : string * ty) v, shaped f.2 v) fields vs → field_of fields key = Some (i, t) →
  shaped t (nth i vs (zero t))
  ∧ ∀ v, shaped t v → Forall2 (λ (f : string * ty) v, shaped f.2 v) fields (<[i := v]> vs).
Proof.
  intros H. unfold field_of. destruct (find_field (String.eqb key) fields 0) as [[i' t']|] eqn:E.
  - intros [= -> ->]. destruct (find_field_shaped _ _ _ _ _ _ H E) as (H1 & _ & H2). by rewrite Nat.sub_0_r in *.
  - intros E'. destruct (find_field_shaped _ _ _ _ _ _ H E') as (H1 & _ & H2). by rewrite Nat.sub_0_r in *.
Qed.

Lemma elements_shaped strict t l backing vs :
  Forall (λ j, ∀ t old v, shaped t old → decode_value strict j t old = Some v → shaped t v) l →
  Forall (shaped t) backing → elements_with (decode_value strict) t l backing = Some vs → Forall (shaped t) vs.
Proof.
  intros Hl. revert backing vs. induction Hl as [|j l Hj _ IH]; intros backing vs Hb; cbn [elements_with].
  { by intros [= <-]. }
  destruct (decode_value strict j t (hd (zero t) backing)) as [v|] eqn:Ev; [|done]. cbn [mbind option_bind].
  destruct (elements_with _ t l (tl backing)) as [vs'|] eqn:Es; [|done]. intros [= <-]. constructor.
  - eapply Hj; [|exact Ev]. destruct Hb; [apply zero_shaped|done].
  - eapply IH; [|exact Es]. by destruct Hb.
Qed.

Lemma members_shaped strict fields l vs ws :
  Forall (λ p : string * json, ∀ t old v, shaped t old → decode_value strict p.2 t old = Some v → shaped t v) l →
  Forall2 (λ (f : string * ty) v, shaped f.2 v) fields vs →
  members_with strict (decode_value strict) fields l vs = Some ws →
  Forall2 (λ (f : string * ty) v, shaped f.2 v) fields ws.
Proof.
  intros Hl. revert vs. induction Hl as [|[key item] l Hj _ IH]; intros vs Hv; cbn [members_with].
  { by intros [= <-]. }
  destruct (field_of fields key) as [[i t]|] eqn:Ef; [|destruct strict; [done|]; by apply IH].
  destruct (decode_value strict item t _) as [v|] eqn:Ev; [|done]. cbn [mbind option_bind].
  destruct (field_of_shaped _ _ _ _ _ Hv Ef) as [H1 H2]. apply IH, H2. eapply Hj; [exact H1|exact Ev].
Qed.

Lemma parse_uint_range bits lex z : parse_uint bits lex = Some z → 0 <= z < 2 ^ bits.
Proof.
  unfold parse_uint. destruct (_ || _); [done|]. case_match eqn:E; [|done]. intros [= <-]. apply Z.leb_le in E. lia.
Qed.

Lemma decode_shaped strict j t old v : shaped t old → decode_value strict j t old = Some v → shaped t v.
Proof.
  revert t old v. induction j as [|b|lex|s|l IH|l IH] using json_nested_ind; intros t old v Ho; destruct t; cbn [decode_value];
    try done; try (by intros [= <-]).
  - intros [= <-]. by constructor.
  - intros [= <-]. constructor.
  - destruct (parse_uint 64 lex) eqn:E; [|done]. intros [= <-]. constructor. by apply parse_uint_range in E.
  - intros [= <-]. constructor.
  - destruct l as [|x l]; [intros [= <-]; by repeat constructor|].
    destruct (elements_with _ t (x :: l) _) as [vs|] eqn:E; [|done]. intros [= <-].
    assert (Forall (shaped t) match old with GSlice e spare => default [] e ++ spare | _ => [] end) as Hb.
    { inversion Ho; subst; cbn; [done|by apply Forall_app_2]. }
    constructor; [by eapply elements_shaped|by apply Forall_drop].
  - destruct (members_with _ _ fields l _) as [vs|] eqn:E; [|done]. intros [= <-]. constructor.
    inversion Ho; subst. by eapply members_shaped.
Qed.

(** ** The value a document stands for

    What is left of a value once it is written: text made valid, slices without
    their spare elements. *)
Fixpoint tidy (t : ty) (v : value) : value :=
  match t, v with
  | TString, GStr s => GStr (sanitize s)
  | TSlice t', GSlice (Some l) _ => GSlice (Some (List.map (tidy t') l)) []
  | TSlice _, GSlice None _ => GSlice None []
  | TStruct fields, GStruct vs =>
      GStruct ((fix go (fields : list (string * ty)) (vs : list value) :=
                  match fields, vs with
                  | (_, t') :: fields', v' :: vs' => tidy t' v' :: go fields' vs'
                  | _, _ => []
                  end) fields vs)
  | _, _ => v
  end.

Definition tidy_members : list (string * ty) → list value → list value :=
  fix go fields vs :=
    match fields, vs with
    | (_, t) :: fields', v :: vs' => tidy t v :: go fields' vs'
    | _, _ => []
    end.

Lemma tidy_struct fields vs : tidy (TStruct fields) (GStruct vs) = GStruct (tidy_members fields vs).
Proof. done. Qed.

Lemma tidy_typed t v : shaped t v → has_type t (tidy t v).
Proof.
  revert v. induction t as [| | |t IH|fields IH] using ty_nested_ind; intros v Hv; inversion Hv; subst.
  - constructor. apply sanitize_is_valid.
  - constructor.
  - by constructor.
  - constructor.
  - constructor. apply Forall_fmap. eapply Forall_impl; [eassumption|]. intros x Hx. by apply IH.
  - rewrite tidy_struct. constructor. clear Hv.
    match goal with H : Forall2 _ fields _ |- _ => revert IH; induction H as [|[n t] v fields vs Ht _ IHf]; intros IH end;
      [constructor|]. inversion IH; subst. constructor; [by auto|by apply IHf].
Qed.

Lemma tidy_doc t v : doc_of t (tidy t v) = doc_of t v.
Proof.
  revert v. induction t as [| | |t IH|fields IH] using ty_nested_ind; intros v; destruct v as [s|b|z|[l|] spare|vs]; try done.
  - cbn. f_equal. apply sanitize_valid, sanitize_is_valid.
  - cbn [tidy doc_of]. f_equal. rewrite List.map_map. apply List.map_ext. apply IH.
  - rewrite tidy_struct, !doc_of_struct. f_equal. revert vs.
    induction IH as [|[n t] fields Ht _ IHf]; intros [|v vs]; try done. cbn [tidy_members struct_doc]. by rewrite Ht, IHf.
Qed.

(** Documents of a type are no deeper than the type. *)
Fixpoint ty_depth (t : ty) : Z :=
  match t with
  | TString | TBool | TUint64 => 0
  | TSlice t' => 1 + ty_depth t'
  | TStruct fields => 1 + foldr (λ f n, Z.max (ty_depth f.2) n) 0 fields
  end.

Lemma ty_depth_nonneg t : 0 <= ty_depth t.
Proof.
  induction t as [| | |t IH|fields IH] using ty_nested_ind; cbn [ty_depth]; try lia.
  enough (0 <= foldr (λ f n, Z.max (ty_depth f.2) n) 0 fields) by lia. induction IH; cbn [foldr]; lia.
Qed.

Lemma doc_depth t v : depth_of (doc_of t v) <= ty_depth t.
Proof.
  revert v. induction t as [| | |t IH|fields IH] using ty_nested_ind; intros v;
    destruct v as [s|b|z|[l|] spare|vs]; try (cbn [doc_of depth_of]; apply ty_depth_nonneg).
  - cbn [doc_of depth_of ty_depth]. pose proof (ty_depth_nonneg t).
    enough (foldr (λ x n, Z.max (depth_of x) n) 0 (List.map (doc_of t) l) <= ty_depth t) by lia.
    induction l as [|v l IHl]; cbn [List.map foldr]; [lia|]. specialize (IH v). lia.
  - rewrite doc_of_struct. cbn [depth_of ty_depth].
    enough (foldr (λ p n, Z.max (depth_of p.2) n) 0 (struct_doc fields vs)
      <= foldr (λ f n, Z.max (ty_depth f.2) n) 0 fields) by lia.
    revert vs. induction IH as [|[n t] fields Ht _ IHf]; intros [|v vs]; cbn [struct_doc foldr fst snd] in *; try lia.
    + specialize (IHf []). destruct fields as [|[]]; cbn [struct_doc foldr] in IHf |- *; pose proof (ty_depth_nonneg t); lia.
    + specialize (IHf vs). specialize (Ht v). lia.
Qed.
