(* ===== verification/Dsse.v ===== *)
(** * Signed envelopes (internal/attestation: keys, PAE, canonical JSON)

    The pieces the trust documents share: digests, the DSSE pre-authentication
    encoding, canonical Ed25519 public keys in PEM, canonical JSON into a typed
    value, bounded base64, and the authentication of a one-signature envelope.

    Two things are outside the repository's control and are parameters: the
    Ed25519 primitives ([crypto/ed25519]) and the JSON Schema engine
    (santhosh-tekuri/jsonschema) that validates a document against a named
    schema. *)

From S2P Require Import Prelude Sha256 Json StructuredJson JsonUnmarshal SemanticEqual GoValue CanonicalJson GoPath GoStruct Base64.

Local Open Scope Z_scope.

(** ** Parameters *)

(** [ed25519.NewKeyFromSeed(seed).Public()], [ed25519.Sign] with the key of a
    seed, and [ed25519.Verify]. *)
Class Ed25519 := {
  ed_public : string → string;
  ed_sign : string → string → string;
  ed_verify : string → string → string → bool
}.

(** What the package documents. *)
Class Ed25519Laws `{E : Ed25519} : Prop := {
  ed_public_size : ∀ seed, slen (ed_public seed) = 32%nat;
  ed_signature_size : ∀ seed message, slen (ed_sign seed message) = 64%nat;
  ed_sign_verifies : ∀ seed message, ed_verify (ed_public seed) message (ed_sign seed message) = true
}.

(** Whether a decoded document conforms to the named schema. *)
Class SchemaEngine := schema_conforms : string → json → bool.

(** ** Digests and the pre-authentication encoding *)

Definition digestBytes (value : string) : string := digest_text value.

Definition pae (payloadType payload : string) : string :=
  "DSSEv1 " +:+ dec_Z (zlen payloadType) +:+ " " +:+ payloadType +:+ " " +:+ dec_Z (zlen payload) +:+ " " +:+ payload.

(** ** Canonical public keys

    [x509.MarshalPKIXPublicKey] of an Ed25519 key is a fixed prefix and the key;
    its PEM block has one line of base64. *)

Definition MaxPublicKeyBytes : Z := 16 * 2 ^ 10.
Definition PublicKeySize : nat := 32.
Definition SignatureSize : nat := 64.

Definition spki_prefix : string := bytes_string [48; 42; 48; 5; 6; 3; 43; 101; 112; 3; 33; 0]%N.
Definition newline : string := String (byte_of 10) "".
Definition pem_begin : string := "-----BEGIN PUBLIC KEY-----" +:+ newline.
Definition pem_end : string := newline +:+ "-----END PUBLIC KEY-----" +:+ newline.

Definition spki_der (publicKey : string) : string := spki_prefix +:+ publicKey.
Definition pem_text (der : string) : string := pem_begin +:+ EncodeToString der +:+ pem_end.

(** The text and the DER of a key. *)
Definition marshalPublicKey (publicKey : string) : option (string * string) :=
  let der := spki_der publicKey in
  let encoded := pem_text der in
  if (slen encoded =? 0)%nat || (MaxPublicKeyBytes <? zlen encoded) then None else Some (encoded, der).

(** [pem.Decode] and [x509.ParsePKIXPublicKey] of a canonical text.  They accept
    other texts too; those are refused by the comparison that follows. *)
Definition pem_key (raw : string) : option string :=
  if negb (has_prefix pem_begin raw) then None
  else
    let body := drop_string (slen pem_begin) raw in
    let? der := DecodeString (take_string (slen body - slen pem_end) body) in
    if has_prefix spki_prefix der then Some (drop_string (slen spki_prefix) der) else None.

Definition parsePublicKey (raw : string) : option (string * string) :=
  if (slen raw =? 0)%nat || (MaxPublicKeyBytes <? zlen raw) then None
  else
    let? publicKey := pem_key raw in
    if negb (slen publicKey =? PublicKeySize)%nat then None
    else
      let? (canonicalPEM, canonicalDER) := marshalPublicKey publicKey in
      if raw =s canonicalPEM then Some (publicKey, canonicalDER) else None.

(** ** Canonical JSON *)

Definition canonical_limits (maximum : Z) : DecodeLimits :=
  {| MaxBytes := maximum; MaxDepth := 128; MaxNodes := 500000 |}.

Definition decodeCanonicalJSON (raw : string) (maximum : Z) (t : ty) : option value :=
  if (slen raw =? 0)%nat || (maximum <? zlen raw) then None
  else
    match Decode raw (canonical_limits maximum) with
    | Some (Ok _) =>
        let? j := read_document raw in
        let? destination := decode_value true j t (zero t) in
        match CanonicalJson.Marshal (Ok (doc_of t destination)) with
        | Ok canonical => if raw =s canonical then Some destination else None
        | Err _ => None
        end
    | _ => None
    end.

(** [json.Unmarshal] (or, [strict], a decoder with [DisallowUnknownFields] and
    the test for trailing data), [canonicaljson.Marshal] and the comparison of
    the bytes. *)
Definition unmarshal_canonical (strict : bool) (raw : string) (t : ty) : option value :=
  let? j := read_document raw in
  let? v := decode_value strict j t (zero t) in
  match CanonicalJson.Marshal (Ok (doc_of t v)) with
  | Ok canonical => if raw =s canonical then Some v else None
  | Err _ => None
  end.

Definition decodeBase64Bounded (value : string) (maximum : Z) : option string :=
  if EncodedLen maximum <? zlen value then None
  else
    let? decoded := DecodeString value in
    if maximum <? zlen decoded then None
    else if EncodeToString decoded =s value then Some decoded else None.

(** [validateDerivedSchemaJSON]. *)
Definition validateDerivedSchemaJSON `{SchemaEngine} (raw : string) (maxBytes maxDepth maxNodes : Z) (name : string) : bool :=
  match Decode raw {| MaxBytes := maxBytes; MaxDepth := maxDepth; MaxNodes := maxNodes |} with
  | Some (Ok j) => schema_conforms name j
  | _ => false
  end.

(** Carriage returns and byte order marks are refused everywhere. *)
Definition has_carriage_return (raw : string) : bool := string_contains_byte (byte_of 13) raw.
Definition has_byte_order_mark (raw : string) : bool :=
  has_prefix (bytes_string [239; 187; 191]%N) raw.

(** ** Envelopes *)

Record DSSESignature := { dsse_KeyID : string; dsse_Sig : string }.
Record envelope := { env_PayloadType : string; env_Payload : string; env_Signatures : list DSSESignature }.

Definition signature_type : ty := TStruct [("keyid", TString); ("sig", TString)].
Definition envelope_type : ty :=
  TStruct [("payloadType", TString); ("payload", TString); ("signatures", TSlice signature_type)].

Definition text_of (v : value) : string := match v with GStr s => s | _ => "" end.
Definition uint_of (v : value) : Z := match v with GUint z => z | _ => 0 end.
Definition elements_of (v : value) : list value := match v with GSlice e _ => default [] e | _ => [] end.
Definition member (v : value) (i : nat) : value := match v with GStruct vs => nth i vs (GStr "") | _ => GStr "" end.

Definition signature_of (v : value) : DSSESignature :=
  {| dsse_KeyID := text_of (member v 0); dsse_Sig := text_of (member v 1) |}.
Definition envelope_of (v : value) : envelope :=
  {| env_PayloadType := text_of (member v 0); env_Payload := text_of (member v 1);
     env_Signatures := List.map signature_of (elements_of (member v 2)) |}.

Definition signature_value (s : DSSESignature) : value := GStruct [GStr (dsse_KeyID s); GStr (dsse_Sig s)].
Definition envelope_value (e : envelope) : value :=
  GStruct [GStr (env_PayloadType e); GStr (env_Payload e);
           GSlice (Some (List.map signature_value (env_Signatures e))) []].

(** The payload of a canonical envelope of the given type with one valid
    signature of the given key; [der] is the key's SPKI. *)
Definition authenticate `{Ed25519} (raw payloadType : string) (maxEnvelope maxPayload : Z) (publicKey der : string)
  : option string :=
  let? v := decodeCanonicalJSON raw maxEnvelope envelope_type in
  let e := envelope_of v in
  match env_Signatures e with
  | [signature] =>
      if negb (env_PayloadType e =s payloadType) || negb (dsse_KeyID signature =s digestBytes der) then None
      else
        let? payload := decodeBase64Bounded (env_Payload e) maxPayload in
        let? sig := decodeBase64Bounded (dsse_Sig signature) (Z.of_nat SignatureSize) in
        if (slen sig =? SignatureSize)%nat && ed_verify publicKey (pae (env_PayloadType e) payload) sig
        then Some payload else None
  | _ => None
  end.

(** What the issuers write. *)
Definition sign_envelope `{Ed25519} (seed payloadType payload keyID : string) : string :=
  encode (doc_of envelope_type (envelope_value
    {| env_PayloadType := payloadType; env_Payload := EncodeToString payload;
       env_Signatures := [{| dsse_KeyID := keyID; dsse_Sig := EncodeToString (ed_sign seed (pae payloadType payload)) |}] |})).

(** ** The encoding is injective *)

Lemma app_string_inj (a b c d : string) : a +:+ b = c +:+ d → slen a = slen c → a = c ∧ b = d.
Proof.
  revert c. induction a as [|x a IH]; intros [|y c] H Hl; try done.
  - simpl in Hl. rewrite !app_string_cons in H. injection H as -> H. destruct (IH c H ltac:(lia)) as [-> ->]. done.
Qed.

Lemma separated_inj sep p q r s :
  no_sep sep p = true → no_sep sep q = true → p +:+ String sep r = q +:+ String sep s → p = q ∧ r = s.
Proof.
  intros Hp Hq H. apply (f_equal (split_on sep)) in H. rewrite !split_part in H by done. injection H as -> H.
  split; [done|]. by rewrite <- (join_split sep r), H, join_split.
Qed.

Lemma dec_Z_no_space z : 0 <= z → no_sep " " (dec_Z z) = true.
Proof.
  intros Hz. assert (dec_Z z = dec_N (Z.to_N z)) as -> by (by destruct z).
  unfold no_sep. eapply string_forallb_impl; [|apply dec_N_digits]. intros c.
  pose proof (ascii_all (λ c, implb (is_digit c) (negb (Ascii.eqb c " "))) ltac:(vm_compute; reflexivity) c) as H.
  cbv beta in H. intros E. by rewrite E in H.
Qed.

Lemma dec_Z_inj a b : 0 <= a → 0 <= b → dec_Z a = dec_Z b → a = b.
Proof.
  intros Ha Hb H. assert (∀ z, 0 <= z → dec_Z z = dec_N (Z.to_N z)) as E by (intros z ?; by destruct z).
  rewrite !E in H by done. apply (f_equal (digits_val 0)) in H. rewrite !digits_val_dec_N in H. lia.
Qed.

Lemma sized_inj a b x y :
  dec_Z (zlen a) +:+ String " " (a +:+ x) = dec_Z (zlen b) +:+ String " " (b +:+ y) → a = b ∧ x = y.
Proof.
  intros H. apply separated_inj in H as [Hl H]; [|apply dec_Z_no_space; unfold zlen; lia..].
  apply app_string_inj in H; [done|]. apply dec_Z_inj in Hl; unfold zlen in *; lia.
Qed.

(** One signed text stands for one payload type and one payload. *)
Lemma pae_inj t p t' p' : pae t p = pae t' p' → t = t' ∧ p = p'.
Proof.
  unfold pae. intros H. apply app_string_inj_l in H.
  assert (∀ t p, dec_Z (zlen t) +:+ " " +:+ t +:+ " " +:+ dec_Z (zlen p) +:+ " " +:+ p
    = dec_Z (zlen t) +:+ String " " (t +:+ String " " (dec_Z (zlen p) +:+ String " " p))) as E by done.
  rewrite !E in H. apply sized_inj in H as [-> H]. injection H as H. split; [done|].
  assert (∀ p : string, p = p +:+ "") as Hnil by (intros; by rewrite app_string_nil_r).
  rewrite (Hnil p), (Hnil p') in H. rewrite app_string_nil_r in H at 1. rewrite (app_string_nil_r p') in H at 1.
  by apply sized_inj in H as [-> _].
Qed.

(** ** Keys *)

Lemma spki_der_inj a b : spki_der a = spki_der b → a = b.
Proof. apply app_string_inj_l. Qed.

Lemma pem_text_inj a b : pem_text a = pem_text b → a = b.
Proof.
  unfold pem_text. intros H. apply app_string_inj_l in H. apply encode_string_injective.
  assert (slen (EncodeToString a) = slen (EncodeToString b)) as Hl.
  { apply (f_equal String.length) in H. rewrite !slen_app in H. lia. }
  by apply app_string_inj in H as [? _].
Qed.

Lemma take_string_app a b : take_string (slen a) (a +:+ b) = a.
Proof. induction a as [|c a IH]; [by destruct b|]. rewrite app_string_cons. simpl. by rewrite IH. Qed.

Lemma pem_key_text der : pem_key (pem_text der) = if has_prefix spki_prefix der then Some (drop_string (slen spki_prefix) der) else None.
Proof.
  unfold pem_key, pem_text. rewrite has_prefix_self, drop_string_app. cbn [negb].
  rewrite slen_app, Nat.add_sub, take_string_app, decode_encode_string. done.
Qed.

Lemma pem_key_spki publicKey : pem_key (pem_text (spki_der publicKey)) = Some publicKey.
Proof. rewrite pem_key_text. unfold spki_der. by rewrite has_prefix_self, drop_string_app. Qed.

Lemma parsePublicKey_ok raw publicKey der :
  parsePublicKey raw = Some (publicKey, der) →
  slen publicKey = 32%nat ∧ der = spki_der publicKey ∧ raw = pem_text der.
Proof.
  unfold parsePublicKey. destruct (_ || _); [done|]. destruct (pem_key raw) as [pk|]; [|done]. cbn [mbind option_bind].
  destruct (Nat.eqb_spec (slen pk) PublicKeySize) as [Hs|]; [|done]. cbn [negb].
  unfold marshalPublicKey. destruct (_ || _); [done|]. cbn [mbind option_bind].
  destruct (String.eqb_spec raw (pem_text (spki_der pk))) as [->|]; [|done]. by intros [= <- <-].
Qed.

Lemma spki_size publicKey : slen publicKey = 32%nat → zlen (pem_text (spki_der publicKey)) = 113.
Proof.
  intros H. unfold zlen, pem_text. rewrite !slen_app, !Nat2Z.inj_add. fold (zlen (EncodeToString (spki_der publicKey))).
  rewrite zlen_encode. unfold zlen, spki_der. by rewrite slen_app, H.
Qed.

Lemma marshalPublicKey_text publicKey :
  slen publicKey = 32%nat → marshalPublicKey publicKey = Some (pem_text (spki_der publicKey), spki_der publicKey).
Proof.
  intros H. pose proof (spki_size publicKey H) as Hz. unfold marshalPublicKey. rewrite Hz.
  rewrite (proj2 (Nat.eqb_neq _ _)); [done|]. unfold zlen in Hz. lia.
Qed.

Lemma parsePublicKey_text publicKey :
  slen publicKey = 32%nat →
  parsePublicKey (pem_text (spki_der publicKey)) = Some (publicKey, spki_der publicKey).
Proof.
  intros H. pose proof (spki_size publicKey H) as Hz. unfold parsePublicKey.
  assert ((slen (pem_text (spki_der publicKey)) =? 0)%nat || (MaxPublicKeyBytes <? zlen (pem_text (spki_der publicKey)))
    = false) as E.
  { rewrite Hz. rewrite (proj2 (Nat.eqb_neq _ _)); [done|]. unfold zlen in Hz. lia. }
  rewrite E, pem_key_spki. cbn [mbind option_bind]. rewrite H. change (32 =? PublicKeySize)%nat with true. cbn [negb].
  unfold marshalPublicKey. rewrite E. cbn [mbind option_bind]. by rewrite string_eqb_refl.
Qed.

(** ** Canonical JSON determines its value *)

Lemma canonical_json_sound raw maximum t v :
  ty_ok t = true → decodeCanonicalJSON raw maximum t = Some v →
  raw = encode (doc_of t v) ∧ zlen raw <= maximum ∧ shaped t v.
Proof.
  intros Ht. unfold decodeCanonicalJSON. destruct (_ =? 0)%nat; [done|]. cbn [orb].
  destruct (Z.ltb_spec maximum (zlen raw)); [done|]. destruct (Decode _ _) as [[]|]; try done.
  destruct (read_document raw) as [j|]; [|done]. cbn [mbind option_bind].
  destruct (decode_value true j t (zero t)) as [w|] eqn:E; [|done]. cbn [mbind option_bind].
  rewrite Marshal_doc by done. destruct (String.eqb_spec raw (encode (doc_of t w))); [|done]. intros [= <-].
  split_and!; try done. eapply decode_shaped; [apply zero_shaped|exact E].
Qed.

(** Sorting members changes no count. *)
Lemma foldr_insert_key {A} (op : Z → Z → Z) (f : string * A → Z) (e : Z) p l :
  (∀ a b c, op a (op b c) = op b (op a c)) →
  foldr (λ q n, op (f q) n) e (insert_key p l) = op (f p) (foldr (λ q n, op (f q) n) e l).
Proof.
  intros Hop. induction l as [|q l IH]; [done|]. cbn [insert_key]. destruct (key_lt q.1 p.1); [|done].
  cbn [foldr]. by rewrite IH, Hop.
Qed.

Lemma foldr_sort_keys {A} (op : Z → Z → Z) (f : string * A → Z) (e : Z) l :
  (∀ a b c, op a (op b c) = op b (op a c)) →
  foldr (λ q n, op (f q) n) e (sort_keys l) = foldr (λ q n, op (f q) n) e l.
Proof.
  intros Hop. unfold sort_keys. induction l as [|p l IH]; [done|]. cbn [foldr] in *.
  by rewrite foldr_insert_key, IH.
Qed.

Lemma canon_limits j :
  nodes_of (canon j) = nodes_of j ∧ depth_of (canon j) = depth_of j ∧ (numbers_ok j = true → numbers_ok (canon j) = true).
Proof.
  induction j as [| | | |l IH|l IH] using json_nested_ind; [done..| |]; cbn [canon nodes_of depth_of numbers_ok].
  - induction IH as [|x l (H1 & H2 & H3) _ (I1 & I2 & I3)]; [done|]. cbn [List.map foldr forallb].
    rewrite H1, H2. split_and!; [lia|lia|]. intros H. to_prop. rewrite H3 by done. by apply I3.
  - rewrite (foldr_sort_keys Z.add (λ p : string * json, nodes_of p.2)) by lia.
    rewrite (foldr_sort_keys Z.max (λ p : string * json, depth_of p.2)) by lia.
    assert (forallb (λ p : string * json, numbers_ok p.2) (sort_keys (List.map (λ p, (p.1, canon p.2)) l))
      = forallb (λ p : string * json, numbers_ok p.2) (List.map (λ p, (p.1, canon p.2)) l)) as ->.
    { apply eq_true_iff_eq. rewrite !forallb_forall. split; intros H x Hx; apply H;
        apply list_elem_of_In; apply list_elem_of_In in Hx; [by rewrite sort_keys_elem|by rewrite sort_keys_elem in Hx]. }
    induction IH as [|p l (H1 & H2 & H3) _ (I1 & I2 & I3)]; [done|]. cbn [List.map foldr forallb snd].
    rewrite H1, H2. split_and!; [lia|lia|]. intros H. to_prop. rewrite H3 by done. by apply I3.
Qed.

Lemma canonical_json_complete t v maximum :
  ty_ok t = true → has_type t v → zlen (encode (doc_of t v)) <= maximum →
  depth_of (doc_of t v) <= 128 → nodes_of (doc_of t v) <= 500000 →
  decodeCanonicalJSON (encode (doc_of t v)) maximum t = Some v.
Proof.
  intros Ht Hv Hb Hd Hn. pose proof (doc_of_wf t v Ht Hv) as Hwf. pose proof (canon_canonical _ Hwf) as Hc.
  destruct (canon_limits (doc_of t v)) as (N1 & N2 & N3). specialize (N3 (doc_of_numbers t v)).
  assert (encode (doc_of t v) ≠ "") as Hne.
  { rewrite <- encode_canon by done. pose proof (encode_opens _ Hc) as Ho. by destruct (encode (canon (doc_of t v))). }
  assert (0 < zlen (encode (doc_of t v))) as Hpos.
  { unfold zlen. destruct (encode (doc_of t v)); [done|]. simpl. lia. }
  unfold decodeCanonicalJSON. rewrite (proj2 (Nat.eqb_neq _ _)) by (unfold zlen in Hpos; lia). cbn [orb].
  rewrite (proj2 (Z.ltb_ge _ _) Hb). rewrite <- (encode_canon _ Hwf) in Hb |- *.
  rewrite decode_encode; [|unfold limits_positive, canonical_limits; cbn; rewrite (proj2 (Z.ltb_lt 0 maximum)) by
    (rewrite encode_canon in Hb by done; lia); done|done|done|done|cbn; lia|cbn; lia].
  rewrite read_document_encode by (done || (unfold maxNestingDepth; lia)). cbn [mbind option_bind].
  rewrite decode_doc_of by done. cbn [mbind option_bind]. rewrite Marshal_doc by done.
  by rewrite encode_canon, string_eqb_refl.
Qed.

Lemma unmarshal_sound strict raw t v :
  ty_ok t = true → unmarshal_canonical strict raw t = Some v → raw = encode (doc_of t v) ∧ shaped t v.
Proof.
  intros Ht. unfold unmarshal_canonical. destruct (read_document raw) as [j|]; [|done]. cbn [mbind option_bind].
  destruct (decode_value strict j t (zero t)) as [w|] eqn:E; [|done]. cbn [mbind option_bind].
  rewrite Marshal_doc by done. destruct (String.eqb_spec raw (encode (doc_of t w))); [|done]. intros [= <-].
  split; [done|]. eapply decode_shaped; [apply zero_shaped|exact E].
Qed.

Lemma unmarshal_complete strict t v :
  ty_ok t = true → has_type t v → depth_of (doc_of t v) <= maxNestingDepth →
  unmarshal_canonical strict (encode (doc_of t v)) t = Some v.
Proof.
  intros Ht Hv Hd. pose proof (doc_of_wf t v Ht Hv) as Hwf. pose proof (canon_canonical _ Hwf) as Hc.
  destruct (canon_limits (doc_of t v)) as (_ & N2 & _). unfold unmarshal_canonical.
  rewrite <- (encode_canon _ Hwf), read_document_encode by (done || lia). cbn [mbind option_bind].
  rewrite decode_doc_of by done. cbn [mbind option_bind]. rewrite Marshal_doc by done.
  by rewrite encode_canon, string_eqb_refl.
Qed.

(** What the canonical reader accepts: the written form of the values of the type. *)
Lemma unmarshal_exact strict raw t v :
  ty_ok t = true → ty_depth t <= maxNestingDepth →
  unmarshal_canonical strict raw t = Some v ↔ has_type t v ∧ raw = encode (doc_of t v).
Proof.
  intros Ht Hd. assert (∀ w, depth_of (doc_of t w) <= maxNestingDepth) as Hdoc.
  { intros w. pose proof (doc_depth t w). lia. }
  split; [|intros [Hv ->]; by apply unmarshal_complete].
  intros H. pose proof (unmarshal_sound _ _ _ _ Ht H) as [Hraw Hv]. pose proof (tidy_typed t v Hv) as Hty.
  pose proof (unmarshal_complete strict t (tidy t v) Ht Hty (Hdoc _)) as Hc. rewrite tidy_doc, <- Hraw, H in Hc.
  injection Hc as Hc. split; [by rewrite Hc|done].
Qed.

(** ** Documents as they are written *)

(** Bytes the encoder copies. *)
Definition plain_byte (c : ascii) : bool :=
  ascii7 c && (32 <=? byte_val c)%N && negb (byte_val c =? 34)%N && negb (byte_val c =? 92)%N.

Lemma plain_escape c : plain_byte c = true → ascii7 c = true ∧ escape_byte c = String c "".
Proof.
  intros H. pose proof (ascii_all (λ c, implb (plain_byte c) (ascii7 c && (escape_byte c =s String c "")))
    ltac:(vm_compute; reflexivity) c) as E. cbv beta in E. rewrite H in E. cbn [implb] in E. by to_prop.
Qed.

Lemma encode_plain s : string_forallb plain_byte s = true → zlen (encode_string s) = zlen s + 2.
Proof.
  intros H. assert (encode_body s = s) as E.
  { unfold encode_body. induction s as [|c s IH]; [done|]. cbn [string_forallb] in H. to_prop.
    destruct (plain_escape c) as [H7 He]; [done|]. cbn [runes]. rewrite H7, fmap_cons. cbn [string_concat escape_rune].
    by rewrite He, IH. }
  unfold zlen, encode_string. rewrite E. cbn [String.length]. rewrite slen_app. cbn [String.length]. lia.
Qed.

(** An upper bound of the text's size. *)
Fixpoint text_bound (j : json) : Z :=
  match j with
  | JArr l => 2 + foldr (λ x n, text_bound x + 1 + n) 0 l
  | JObj l => 2 + foldr (λ p n, zlen (encode_string p.1) + 1 + text_bound p.2 + 1 + n) 0 l
  | _ => zlen (encode j)
  end.

Lemma zlen_app a b : zlen (a +:+ b) = zlen a + zlen b.
Proof. unfold zlen. rewrite slen_app. lia. Qed.

Lemma zlen_join sep l : zlen (join sep l) <= foldr (λ x n, zlen x + zlen sep + n) 0 l.
Proof.
  induction l as [|x [|y l] IH]; [done|cbn; unfold zlen; lia|].
  change (join sep (x :: y :: l)) with (x +:+ sep +:+ join sep (y :: l)). rewrite !zlen_app.
  cbn [foldr] in *. lia.
Qed.

Lemma encode_bound j : zlen (encode j) <= text_bound j.
Proof.
  induction j as [| | | |l IH|l IH] using json_nested_ind; cbn [text_bound]; try lia; cbn [encode].
  - rewrite !zlen_app. change (zlen "[") with 1. change (zlen "]") with 1. pose proof (zlen_join "," (List.map encode l)) as H.
    enough (foldr (λ x n, zlen x + zlen "," + n) 0 (List.map encode l) <= foldr (λ x n, text_bound x + 1 + n) 0 l) by lia.
    clear H. change (zlen ",") with 1. induction IH as [|x l Hx _ IHl]; [done|]. cbn [List.map foldr]. lia.
  - rewrite !zlen_app. change (zlen "{") with 1. change (zlen "}") with 1.
    pose proof (zlen_join "," (List.map encode_member (sort_keys (List.map (λ p, (p.1, encode p.2)) l)))) as H.
    enough (foldr (λ x n, zlen x + zlen "," + n) 0 (List.map encode_member (sort_keys (List.map (λ p, (p.1, encode p.2)) l)))
      <= foldr (λ p n, zlen (encode_string p.1) + 1 + text_bound p.2 + 1 + n) 0 l) by lia. clear H.
    assert (∀ l : list (string * string), foldr (λ x n, zlen x + zlen "," + n) 0 (List.map encode_member l)
      = foldr (λ q n, (λ q, zlen (encode_member q) + 1) q + n) 0 l) as E.
    { clear. induction l as [|q l IH]; [done|]. cbn [List.map foldr]. rewrite IH. done. }
    rewrite E, (foldr_sort_keys Z.add) by lia. clear E.
    induction IH as [|p l Hp _ IHl]; [done|]. cbn [List.map foldr]. unfold encode_member at 1. rewrite !zlen_app.
    cbn [fst snd] in *. change (zlen ":") with 1. lia.
Qed.

Lemma plain_hex s : string_forallb is_lower_hex s = true → string_forallb plain_byte s = true.
Proof.
  intros H. eapply string_forallb_impl; [|exact H]. intros c.
  pose proof (ascii_all (λ c, implb (is_lower_hex c) (plain_byte c)) ltac:(vm_compute; reflexivity) c) as E.
  cbv beta in E. intros Hc. by rewrite Hc in E.
Qed.

Lemma digestBytes_size s : zlen (encode_string (digestBytes s)) = 73.
Proof.
  destruct (sha256_hex_shape s) as [Hl Hh]. rewrite encode_plain.
  - unfold digestBytes, digest_text. rewrite zlen_app. unfold zlen at 2. rewrite Hl. reflexivity.
  - unfold digestBytes, digest_text. rewrite string_forallb_app, (plain_hex _ Hh). reflexivity.
Qed.

Lemma dec_Z_size z : 0 <= z < 2 ^ 64 → zlen (dec_Z z) <= 66.
Proof.
  intros Hz. assert (∀ fuel n acc, (slen (dec_digits fuel n acc) <= fuel + slen acc)%nat) as Hd.
  { induction fuel as [|fuel IH]; intros n acc; cbn [dec_digits]; [lia|].
    destruct (n <? 10)%N; [cbn; lia|]. specialize (IH (n / 10)%N (String (byte_of (48 + n mod 10)) acc)). cbn in *. lia. }
  assert (dec_Z z = dec_N (Z.to_N z)) as -> by (destruct z; [done|done|lia]).
  unfold dec_N, zlen. specialize (Hd (S (N.size_nat (Z.to_N z))) (Z.to_N z) ""). cbn [String.length] in Hd.
  enough (N.size_nat (Z.to_N z) <= 65)%nat by lia. destruct z as [|p|p]; [cbn; lia| |lia]. clear Hd.
  change (Pos.size_nat p <= Pos.size_nat (2 ^ 64))%nat. apply Pos.size_nat_monotone. lia.
Qed.

Lemma base64_plain s : string_forallb plain_byte (EncodeToString s) = true.
Proof.
  assert (∀ n, (n < 64)%N → plain_byte (b64_char n) = true) as H.
  { apply (below_64 (λ n, plain_byte (b64_char n))). vm_compute. reflexivity. }
  induction s as [|a|a b|a b c s IH] using three_ind; [done|..]; cbn [EncodeToString string_forallb].
  - destruct (sextets (byte_val a) 0 0) as ((? & H2 & _) & _); try apply byte_val_lt; try lia.
    change (0 / 16)%N with 0%N in H2. rewrite N.add_0_r in H2. by rewrite !H.
  - destruct (sextets (byte_val a) (byte_val b) 0) as ((? & ? & H3 & _) & _); try apply byte_val_lt; try lia.
    change (0 / 64)%N with 0%N in H3. rewrite N.add_0_r in H3. by rewrite !H.
  - destruct (sextets (byte_val a) (byte_val b) (byte_val c)) as ((? & ? & ? & ?) & _); try apply byte_val_lt.
    by rewrite !H, IH.
Qed.

(** Evaluate the sizes of constant strings. *)
Ltac constant_sizes :=
  repeat match goal with
  | |- context [zlen (encode_string ?s)] =>
      let n := eval vm_compute in (zlen (encode_string s)) in
      match n with Z0 => idtac | Zpos _ => idtac end; change (zlen (encode_string s)) with n
  end.

(** A canonical text has neither a carriage return nor a byte order mark. *)
Lemma written_clean fields v (t := TStruct fields) :
  ty_ok t = true → has_type t v →
  (slen (encode (doc_of t v)) =? 0)%nat = false ∧ has_carriage_return (encode (doc_of t v)) = false
  ∧ has_byte_order_mark (encode (doc_of t v)) = false.
Proof.
  intros Ht Hv. pose proof (doc_of_wf t v Ht Hv) as Hwf. pose proof (canon_canonical _ Hwf) as Hc.
  rewrite <- (encode_canon _ Hwf). pose proof (encode_no_control _ Hc) as Hn.
  assert (∃ s, encode (canon (doc_of t v)) = String "{" s) as [s Es].
  { apply has_type_struct in Hv as (vs & -> & _). unfold t. rewrite doc_of_struct. cbn [canon encode]. by eexists. }
  rewrite Es in *. split_and!; [done| |done].
  - unfold has_carriage_return. clear Es. induction (String "{" s) as [|d r IH]; [done|]. cbn [string_contains_byte string_forallb] in *.
    to_prop. rewrite IH by done. rewrite orb_false_r. destruct (Ascii.eqb_spec d (byte_of 13)) as [->|]; [|done].
    vm_compute in H. done.
Qed.

(** What a schema is asked about a written document. *)
Lemma schema_of_written `{SchemaEngine} fields v maxBytes maxDepth maxNodes name (t := TStruct fields) :
  ty_ok t = true → has_type t v → zlen (encode (doc_of t v)) <= maxBytes → 0 < maxDepth →
  depth_of (doc_of t v) <= maxDepth → nodes_of (doc_of t v) <= maxNodes →
  validateDerivedSchemaJSON (encode (doc_of t v)) maxBytes maxDepth maxNodes name = schema_conforms name (canon (doc_of t v)).
Proof.
  intros Ht Hv Hb H0 Hd Hn. pose proof (doc_of_wf t v Ht Hv) as Hwf. pose proof (canon_canonical _ Hwf) as Hc.
  destruct (canon_limits (doc_of t v)) as (N1 & N2 & N3). specialize (N3 (doc_of_numbers t v)).
  destruct (written_clean fields v Ht Hv) as (Hne & _ & _). fold t in Hne. apply Nat.eqb_neq in Hne.
  pose proof (nodes_of_pos (doc_of t v)). unfold validateDerivedSchemaJSON.
  rewrite <- (encode_canon _ Hwf) in Hb, Hne |- *. rewrite decode_encode; cbn [MaxBytes MaxDepth MaxNodes];
    [done| |done|done|done|lia|lia].
  unfold limits_positive. cbn [MaxBytes MaxDepth MaxNodes]. unfold zlen in Hb. rewrite !andb_true_iff, !Z.ltb_lt. lia.
Qed.

(** When a schema accepts a written document. *)
Lemma schema_accepts_written `{SchemaEngine} fields v maxBytes maxDepth maxNodes name (t := TStruct fields) :
  ty_ok t = true → has_type t v → 0 < maxDepth → ty_depth t <= maxDepth →
  validateDerivedSchemaJSON (encode (doc_of t v)) maxBytes maxDepth maxNodes name = true
  ↔ zlen (encode (doc_of t v)) <= maxBytes ∧ nodes_of (doc_of t v) <= maxNodes
    ∧ schema_conforms name (canon (doc_of t v)) = true.
Proof.
  intros Ht Hv H0 Hd. pose proof (doc_depth t v) as Hdoc. split.
  - pose proof (doc_of_wf t v Ht Hv) as Hwf. pose proof (canon_canonical _ Hwf) as Hc.
    destruct (canon_limits (doc_of t v)) as (N1 & N2 & N3). specialize (N3 (doc_of_numbers t v)).
    unfold validateDerivedSchemaJSON. rewrite <- (encode_canon _ Hwf). destruct (Decode _ _) as [[j|]|] eqn:E; [|done..].
    apply (Decode_written _ _ _ Hc N3) in E as (_ & Hb & _ & Hn & ->). cbn [MaxBytes MaxNodes] in *.
    intros Hs. split_and!; [done|lia|done].
  - intros (Hb & Hn & Hs). unfold t in *. rewrite schema_of_written by (done || lia). done.
Qed.

(** ** Bounded base64 *)

Lemma base64_sound value maximum d :
  decodeBase64Bounded value maximum = Some d → value = EncodeToString d ∧ zlen d <= maximum.
Proof.
  unfold decodeBase64Bounded. destruct (_ <? _); [done|]. destruct (DecodeString value) as [d'|]; [|done].
  cbn [mbind option_bind]. destruct (Z.ltb_spec maximum (zlen d')); [done|].
  destruct (String.eqb_spec (EncodeToString d') value) as [<-|]; [|done]. by intros [= <-].
Qed.

Lemma base64_complete d maximum : zlen d <= maximum → decodeBase64Bounded (EncodeToString d) maximum = Some d.
Proof.
  intros H. unfold decodeBase64Bounded. rewrite zlen_encode, decode_encode_string. cbn [mbind option_bind].
  rewrite (proj2 (Z.ltb_ge (EncodedLen maximum) _)).
  2:{ unfold EncodedLen. apply Z.mul_le_mono_nonneg_r; [lia|]. apply Z.div_le_mono; lia. }
  by rewrite (proj2 (Z.ltb_ge _ _) H), string_eqb_refl.
Qed.

(** ** Authentication *)

Lemma envelope_type_ok : ty_ok envelope_type = true.
Proof. reflexivity. Qed.

Ltac inv_shaped :=
  repeat match goal with
  | H : shaped (TStruct _) _ |- _ => inversion H; subst; clear H
  | H : shaped TString _ |- _ => inversion H; subst; clear H
  | H : shaped TUint64 _ |- _ => inversion H; subst; clear H
  | H : shaped TBool _ |- _ => inversion H; subst; clear H
  | H : Forall2 _ (_ :: _) _ |- _ => inversion H; subst; clear H
  | H : Forall2 _ [] _ |- _ => inversion H; subst; clear H
  end.

(** An envelope with one signature. *)
Definition one_signature (payloadType payload keyID sig : string) : value :=
  envelope_value {| env_PayloadType := payloadType; env_Payload := payload;
                    env_Signatures := [{| dsse_KeyID := keyID; dsse_Sig := sig |}] |}.

(** The identifier of a key, and the envelope of a payload it signed. *)
Definition key_id (publicKey : string) : string := digestBytes (spki_der publicKey).
Definition policy_envelope (payloadType payload publicKey sig : string) : string :=
  encode (doc_of envelope_type (one_signature payloadType (EncodeToString payload) (key_id publicKey) (EncodeToString sig))).

Lemma envelope_shape v signature :
  shaped envelope_type v → env_Signatures (envelope_of v) = [signature] →
  doc_of envelope_type v
  = doc_of envelope_type (one_signature (env_PayloadType (envelope_of v)) (env_Payload (envelope_of v))
      (dsse_KeyID signature) (dsse_Sig signature)).
Proof.
  unfold envelope_type. intros Hv He. inv_shaped. cbn [snd] in *. inv_shaped. cbn in He.
  match goal with H : shaped (TSlice signature_type) _ |- _ => inversion H as [| | |t sp Hsp|t l sp Hl Hsp|]; subst; clear H end;
    [done|]. cbn in He. destruct l as [|x [|y l]]; try done. injection He as <-.
  inversion Hl as [|? ? Hx _]; subst. unfold signature_type in Hx. inv_shaped. cbn [snd] in *. inv_shaped. done.
Qed.

Section Authenticate.
Context `{E : Ed25519}.

Lemma authenticate_sound raw payloadType maxEnvelope maxPayload publicKey der payload :
  authenticate raw payloadType maxEnvelope maxPayload publicKey der = Some payload →
  zlen payload <= maxPayload
  ∧ ∃ sig, slen sig = 64%nat ∧ ed_verify publicKey (pae payloadType payload) sig = true
    ∧ raw = encode (doc_of envelope_type (one_signature payloadType (EncodeToString payload) (digestBytes der) (EncodeToString sig))).
Proof.
  unfold authenticate. destruct (decodeCanonicalJSON raw maxEnvelope envelope_type) as [v|] eqn:Ev; [|done].
  apply canonical_json_sound in Ev as (Hraw & _ & Hsh); [|done]. cbn [mbind option_bind].
  destruct (env_Signatures (envelope_of v)) as [|s [|]] eqn:Es; try done.
  rewrite (envelope_shape v s Hsh Es) in Hraw.
  destruct (String.eqb_spec (env_PayloadType (envelope_of v)) payloadType) as [Ht|]; [|done].
  destruct (String.eqb_spec (dsse_KeyID s) (digestBytes der)) as [Hk|]; [|done]. cbn [negb orb].
  destruct (decodeBase64Bounded (env_Payload _) maxPayload) as [p|] eqn:Ep; [|done]. cbn [mbind option_bind].
  destruct (decodeBase64Bounded (dsse_Sig s) _) as [sig|] eqn:Eg; [|done]. cbn [mbind option_bind].
  destruct (Nat.eqb_spec (slen sig) SignatureSize); [|done]. cbn [andb].
  destruct (ed_verify _ _ sig) eqn:Eo; [|done]. intros [= <-].
  apply base64_sound in Ep as [Hp Hl]. apply base64_sound in Eg as [Hg _]. split; [done|].
  exists sig. rewrite <- Ht at 1. split_and!; [done|done|]. by rewrite Hraw, Ht, Hk, Hp, Hg.
Qed.

Lemma envelope_typed payloadType payload keyID sig :
  utf8_valid payloadType = true → utf8_valid payload = true → utf8_valid keyID = true → utf8_valid sig = true →
  has_type envelope_type (one_signature payloadType payload keyID sig).
Proof.
  intros. unfold one_signature, envelope_value, envelope_type, signature_type.
  repeat (constructor; cbn [snd]); done.
Qed.

Lemma encoded_utf8 s : utf8_valid (EncodeToString s) = true.
Proof.
  apply utf8_valid_ascii. eapply string_forallb_impl; [|apply base64_plain]. intros c Hc. by apply plain_escape in Hc as [? _].
Qed.

Lemma digestBytes_utf8 s : utf8_valid (digestBytes s) = true.
Proof.
  unfold digestBytes, digest_text. apply utf8_valid_app; [done|]. apply utf8_valid_ascii.
  destruct (sha256_hex_shape s) as [_ H]. eapply string_forallb_impl; [|exact H]. intros c.
  unfold is_lower_hex, is_digit, in_range, ascii7. rewrite orb_true_iff, !andb_true_iff, !N.leb_le, N.ltb_lt. lia.
Qed.

Lemma envelope_sizes payloadType payload der sig (doc := doc_of envelope_type
    (one_signature payloadType (EncodeToString payload) (digestBytes der) (EncodeToString sig))) :
  string_forallb plain_byte payloadType = true → slen sig = 64%nat →
  zlen (encode doc) <= 300 + zlen payloadType + EncodedLen (zlen payload) ∧ depth_of doc <= 4 ∧ nodes_of doc <= 16.
Proof.
  intros Ht Hs. pose proof (encode_bound doc) as Hb. split_and!; [|done|done].
  enough (text_bound doc <= 300 + zlen payloadType + EncodedLen (zlen payload)) by lia. clear Hb. unfold doc.
  unfold one_signature, envelope_value, envelope_type, signature_type.
  cbn - [encode_string zlen Z.add sanitize foldr EncodeToString digestBytes EncodedLen].
  cbn [foldr text_bound fst snd encode]. rewrite !sanitize_valid;
    [|apply encoded_utf8|apply digestBytes_utf8|apply encoded_utf8|].
  2:{ apply utf8_valid_ascii. eapply string_forallb_impl; [|exact Ht]. intros c Hc. by apply plain_escape in Hc as [? _]. }
  rewrite digestBytes_size, (encode_plain payloadType), (encode_plain (EncodeToString payload)),
    (encode_plain (EncodeToString sig)), !zlen_encode by (done || apply base64_plain).
  assert (zlen sig = 64) as -> by (unfold zlen; by rewrite Hs). constant_sizes. change (EncodedLen 64) with 88. lia.
Qed.

Lemma authenticate_signed publicKey payloadType payload sig maxEnvelope maxPayload :
  utf8_valid payloadType = true → zlen payload <= maxPayload → slen sig = 64%nat →
  ed_verify publicKey (pae payloadType payload) sig = true →
  zlen (policy_envelope payloadType payload publicKey sig) <= maxEnvelope →
  authenticate (policy_envelope payloadType payload publicKey sig) payloadType maxEnvelope maxPayload publicKey
    (spki_der publicKey) = Some payload.
Proof.
  intros Ht Hp Hs Hv Hb. unfold authenticate, policy_envelope in *.
  rewrite canonical_json_complete; [|done| |done|done|done].
  2:{ apply envelope_typed; auto using encoded_utf8, digestBytes_utf8. apply digestBytes_utf8. }
  cbn [mbind option_bind]. cbn - [decodeBase64Bounded digestBytes pae String.eqb key_id].
  change (digestBytes (spki_der publicKey)) with (key_id publicKey). rewrite !string_eqb_refl. cbn [negb orb].
  rewrite (base64_complete payload maxPayload) by done. cbn [mbind option_bind].
  rewrite base64_complete by (unfold zlen; rewrite Hs; unfold SignatureSize; lia). cbn [mbind option_bind].
  by rewrite Hs, Hv.
Qed.

(** What is authenticated: the envelope of the payload with a signature that
    verifies, within the limits of the two. *)
Lemma authenticate_exact raw payloadType maxEnvelope maxPayload publicKey payload :
  utf8_valid payloadType = true →
  authenticate raw payloadType maxEnvelope maxPayload publicKey (spki_der publicKey) = Some payload
  ↔ zlen payload <= maxPayload ∧ zlen raw <= maxEnvelope
    ∧ ∃ sig, slen sig = 64%nat ∧ ed_verify publicKey (pae payloadType payload) sig = true
      ∧ raw = policy_envelope payloadType payload publicKey sig.
Proof.
  intros Ht. split.
  - intros H. pose proof (authenticate_sound _ _ _ _ _ _ _ H) as (Hp & sig & Hs & Hv & Hraw).
    split_and!; [done| |by exists sig]. unfold authenticate in H.
    destruct (decodeCanonicalJSON raw maxEnvelope envelope_type) as [v|] eqn:Ev; [|done].
    by apply canonical_json_sound in Ev as (_ & Hb & _).
  - intros (Hp & Hb & sig & Hs & Hv & ->). by apply authenticate_signed.
Qed.

Lemma envelope_clean payloadType payload publicKey sig (raw := policy_envelope payloadType payload publicKey sig) :
  utf8_valid payloadType = true →
  (slen raw =? 0)%nat = false ∧ has_carriage_return raw = false ∧ has_byte_order_mark raw = false.
Proof.
  intros Ht. apply (written_clean [("payloadType", TString); ("payload", TString); ("signatures", TSlice signature_type)]); [done|].
  apply envelope_typed; [done|apply encoded_utf8|apply digestBytes_utf8|apply encoded_utf8].
Qed.

Lemma envelope_nonempty payloadType payload publicKey sig :
  utf8_valid payloadType = true → 1 <= zlen (policy_envelope payloadType payload publicKey sig).
Proof.
  intros Ht. destruct (envelope_clean payloadType payload publicKey sig Ht) as (Hne & _). apply Nat.eqb_neq in Hne. unfold zlen. lia.
Qed.

(** What a schema is asked about an envelope. *)
Lemma envelope_schema `{SchemaEngine} payloadType payload publicKey sig maxBytes maxDepth maxNodes name :
  utf8_valid payloadType = true → zlen (policy_envelope payloadType payload publicKey sig) <= maxBytes →
  4 <= maxDepth → 16 <= maxNodes →
  validateDerivedSchemaJSON (policy_envelope payloadType payload publicKey sig) maxBytes maxDepth maxNodes name
  = schema_conforms name (canon (doc_of envelope_type
      (one_signature payloadType (EncodeToString payload) (key_id publicKey) (EncodeToString sig)))).
Proof.
  intros Ht Hb Hd Hn.
  apply (schema_of_written [("payloadType", TString); ("payload", TString); ("signatures", TSlice signature_type)]);
    [done| |done|lia|cbn; lia|cbn; lia].
  apply envelope_typed; [done|apply encoded_utf8|apply digestBytes_utf8|apply encoded_utf8].
Qed.

Context `{L : !Ed25519Laws}.

Lemma authenticate_complete seed payloadType payload maxEnvelope maxPayload (publicKey := ed_public seed) :
  utf8_valid payloadType = true → zlen payload <= maxPayload →
  zlen (sign_envelope seed payloadType payload (key_id publicKey)) <= maxEnvelope →
  authenticate (sign_envelope seed payloadType payload (key_id publicKey)) payloadType maxEnvelope maxPayload
    publicKey (spki_der publicKey) = Some payload.
Proof.
  intros Ht Hp Hb.
  exact (authenticate_signed publicKey payloadType payload (ed_sign seed (pae payloadType payload)) _ _ Ht Hp
    (ed_signature_size _ _) (ed_sign_verifies _ _) Hb).
Qed.
End Authenticate.

(** ** A concrete signature scheme, for the examples

    A keyed hash in place of Ed25519: it has the documented sizes and verifies
    what it signs. *)

Definition hash_signatures : Ed25519 := {|
  ed_public := λ seed, take_string 32 (sha256_hex seed);
  ed_sign := λ seed message, sha256_hex (take_string 32 (sha256_hex seed) +:+ message);
  ed_verify := λ publicKey message sig, sig =s sha256_hex (publicKey +:+ message)
|}.

Lemma hash_signatures_laws : @Ed25519Laws hash_signatures.
Proof.
  split.
  - intros seed. cbn [ed_public hash_signatures]. apply slen_take. destruct (sha256_hex_shape seed) as [-> _]. lia.
  - intros seed message. apply sha256_hex_shape.
  - intros seed message. apply string_eqb_refl.
Qed.

(** A schema engine that knows every schema and refuses no document. *)
Definition any_schema : SchemaEngine := λ _ _, true.
