(* ===== verification/TrustPolicy.v ===== *)
(** * Offline trust policies (internal/attestation)

    The unsigned policy ([trust_policy.go]), the signed policy and its
    evaluation ([signed_trust_policy.go]) and its issuer
    ([offline_trust_policy_issuer.go]): which documents are accepted, what an
    accepted policy decides about a signer, and that an issued policy is one the
    consumer accepts. *)

From S2P Require Import Prelude Sha256 Json StructuredJson JsonUnmarshal SemanticEqual GoValue CanonicalJson Domain GoStruct Base64 Dsse.

Local Open Scope Z_scope.

Definition MaxOfflineTrustPolicyBytes : Z := 64 * 2 ^ 10.
Definition MaxSignedOfflineTrustPolicyEnvelopeBytes : Z := 96 * 2 ^ 10.
Definition SignedOfflineTrustPolicyPayloadType := "application/vnd.repopass.offline-trust-policy.v2+json".
Definition MaxTrustPolicyGeneration : Z := 9007199254740991.
Definition maxOfflineTrustPolicySignerKeys : nat := 32.

Inductive policy_error :=
  | ErrOfflineTrustPolicyInvalid
  | ErrOfflineTrustPolicyTooLarge
  | ErrSignerKeyIDInvalid
  | ErrSignedOfflineTrustPolicyInvalid
  | ErrSignedOfflineTrustPolicyTooLarge
  | ErrSignedOfflineTrustPolicyAuthorityRoleConflict
  | ErrOfflineTrustPolicySigningFailed.

Inductive TrustDecision := TrustDecisionTrusted | TrustDecisionRevoked | TrustDecisionNotListed.
#[export] Instance TrustDecision_eq_dec : EqDecision TrustDecision.
Proof. solve_decision. Defined.

Definition trustKeyStatusTrusted := "trusted".
Definition trustKeyStatusRevoked := "revoked".

(** ** Documents *)

Record offlineTrustPolicyKey := { pk_KeyID : string; pk_Status : string }.
Record offlineTrustPolicyDocument := {
  pd_SchemaVersion : string; pd_KeyAlgorithm : string; pd_KeyIDAlgorithm : string;
  pd_Keys : list offlineTrustPolicyKey
}.
Record offlineTrustPolicyV2Document := {
  p2_SchemaVersion : string; p2_Generation : Z; p2_KeyAlgorithm : string; p2_KeyIDAlgorithm : string;
  p2_Keys : list offlineTrustPolicyKey
}.

Definition key_type : ty := TStruct [("keyId", TString); ("status", TString)].
Definition policy_type : ty :=
  TStruct [("schemaVersion", TString); ("keyAlgorithm", TString); ("keyIdAlgorithm", TString); ("keys", TSlice key_type)].
Definition policy_v2_type : ty :=
  TStruct [("schemaVersion", TString); ("generation", TUint64); ("keyAlgorithm", TString); ("keyIdAlgorithm", TString);
           ("keys", TSlice key_type)].

Definition key_of (v : value) : offlineTrustPolicyKey :=
  {| pk_KeyID := text_of (member v 0); pk_Status := text_of (member v 1) |}.
Definition policy_of (v : value) : offlineTrustPolicyDocument :=
  {| pd_SchemaVersion := text_of (member v 0); pd_KeyAlgorithm := text_of (member v 1);
     pd_KeyIDAlgorithm := text_of (member v 2); pd_Keys := List.map key_of (elements_of (member v 3)) |}.
Definition policy_v2_of (v : value) : offlineTrustPolicyV2Document :=
  {| p2_SchemaVersion := text_of (member v 0); p2_Generation := uint_of (member v 1);
     p2_KeyAlgorithm := text_of (member v 2); p2_KeyIDAlgorithm := text_of (member v 3);
     p2_Keys := List.map key_of (elements_of (member v 4)) |}.

Definition key_value (k : offlineTrustPolicyKey) : value := GStruct [GStr (pk_KeyID k); GStr (pk_Status k)].
Definition policy_v2_value (d : offlineTrustPolicyV2Document) : value :=
  GStruct [GStr (p2_SchemaVersion d); GUint (p2_Generation d); GStr (p2_KeyAlgorithm d); GStr (p2_KeyIDAlgorithm d);
           GSlice (Some (List.map key_value (p2_Keys d))) []].

Definition validKeyID (value : string) : bool := digest_string "sha256:" value 64.

(** The loop over the keys: valid identifiers in strictly ascending order. *)
Fixpoint key_statuses (first : bool) (previous : string) (keys : list offlineTrustPolicyKey) (statuses : gmap string string)
  : option (gmap string string) :=
  match keys with
  | [] => Some statuses
  | key :: rest =>
      if negb (validKeyID (pk_KeyID key)) || (negb first && negb (key_lt previous (pk_KeyID key))) then None
      else key_statuses false (pk_KeyID key) rest (<[pk_KeyID key := pk_Status key]> statuses)
  end.

Definition decision_of (statuses : gmap string string) (signerKeyID : string) : TrustDecision :=
  let status := default "" (statuses !! signerKeyID) in
  if status =s trustKeyStatusTrusted then TrustDecisionTrusted
  else if status =s trustKeyStatusRevoked then TrustDecisionRevoked
  else TrustDecisionNotListed.

(** ** The unsigned policy *)

Record OfflineTrustPolicy := { tp_keyStatus : gmap string string; tp_digest : string }.

Section Policies.
Context `{ED : Ed25519} `{SE : SchemaEngine}.

Definition ParseOfflineTrustPolicy (raw : string) : result policy_error OfflineTrustPolicy :=
  fail_if (MaxOfflineTrustPolicyBytes <? zlen raw) with ErrOfflineTrustPolicyTooLarge ;;
  fail_if ((slen raw =? 0)%nat || has_carriage_return raw || has_byte_order_mark raw) with ErrOfflineTrustPolicyInvalid ;;
  fail_if (negb (validateDerivedSchemaJSON raw MaxOfflineTrustPolicyBytes 8 256 "offline-trust-policy-v1.schema.json"))
    with ErrOfflineTrustPolicyInvalid ;;
  match unmarshal_canonical false raw policy_type with
  | None => Err ErrOfflineTrustPolicyInvalid
  | Some v =>
      let document := policy_of v in
      match key_statuses true "" (pd_Keys document) ∅ with
      | None => Err ErrOfflineTrustPolicyInvalid
      | Some statuses => Ok {| tp_keyStatus := statuses; tp_digest := digestBytes raw |}
      end
  end.

(** [EvaluateSignerKeyID] of a policy pointer. *)
Definition EvaluateSignerKeyID (p : option OfflineTrustPolicy) (signerKeyID : string) : TrustDecision * option policy_error :=
  match p with
  | None => (TrustDecisionNotListed, Some ErrOfflineTrustPolicyInvalid)
  | Some p =>
      if negb (validKeyID signerKeyID) then (TrustDecisionNotListed, Some ErrSignerKeyIDInvalid)
      else (decision_of (tp_keyStatus p) signerKeyID, None)
  end.

(** ** The signed policy *)

Record parsedOfflineTrustPolicyV2 := { pp_keyStatus : gmap string string; pp_digest : string; pp_generation : Z }.

Definition parseOfflineTrustPolicyV2 (raw : string) : result policy_error parsedOfflineTrustPolicyV2 :=
  fail_if ((slen raw =? 0)%nat || (MaxOfflineTrustPolicyBytes <? zlen raw) || has_carriage_return raw || has_byte_order_mark raw)
    with ErrSignedOfflineTrustPolicyInvalid ;;
  fail_if (negb (validateDerivedSchemaJSON raw MaxOfflineTrustPolicyBytes 8 256 "offline-trust-policy-v2.schema.json"))
    with ErrSignedOfflineTrustPolicyInvalid ;;
  match unmarshal_canonical false raw policy_v2_type with
  | None => Err ErrSignedOfflineTrustPolicyInvalid
  | Some v =>
      let document := policy_v2_of v in
      fail_if ((p2_Generation document =? 0) || (MaxTrustPolicyGeneration <? p2_Generation document))
        with ErrSignedOfflineTrustPolicyInvalid ;;
      match key_statuses true "" (p2_Keys document) ∅ with
      | None => Err ErrSignedOfflineTrustPolicyInvalid
      | Some statuses =>
          Ok {| pp_keyStatus := statuses; pp_digest := digestBytes raw; pp_generation := p2_Generation document |}
      end
  end.

Record SignedOfflineTrustPolicy := {
  sp_authenticated : bool; sp_keyStatus : gmap string string; sp_payloadDigest : string; sp_envelopeDigest : string;
  sp_authorityKeyID : string; sp_generation : Z
}.

(** [ValidateTrustPolicyAuthorityKey]. *)
Definition ValidateTrustPolicyAuthorityKey (raw : string) : option policy_error :=
  match parsePublicKey raw with Some _ => None | None => Some ErrSignedOfflineTrustPolicyInvalid end.

Definition ParseSignedOfflineTrustPolicy (raw authorityPEM : string) : result policy_error SignedOfflineTrustPolicy :=
  fail_if (MaxSignedOfflineTrustPolicyEnvelopeBytes <? zlen raw) with ErrSignedOfflineTrustPolicyTooLarge ;;
  fail_if ((slen raw =? 0)%nat || has_carriage_return raw || has_byte_order_mark raw)
    with ErrSignedOfflineTrustPolicyInvalid ;;
  match parsePublicKey authorityPEM with
  | None => Err ErrSignedOfflineTrustPolicyInvalid
  | Some (authority, authorityDER) =>
      fail_if (negb (validateDerivedSchemaJSON raw (96 * 2 ^ 10) 8 64 "offline-trust-policy-v2-envelope.schema.json"))
        with ErrSignedOfflineTrustPolicyInvalid ;;
      match authenticate raw SignedOfflineTrustPolicyPayloadType MaxSignedOfflineTrustPolicyEnvelopeBytes
              MaxOfflineTrustPolicyBytes authority authorityDER with
      | None => Err ErrSignedOfflineTrustPolicyInvalid
      | Some payload =>
          let! policy := parseOfflineTrustPolicyV2 payload in
          let authorityKeyID := digestBytes authorityDER in
          match pp_keyStatus policy !! authorityKeyID with
          | Some _ => Err ErrSignedOfflineTrustPolicyAuthorityRoleConflict
          | None =>
              Ok {| sp_authenticated := true; sp_keyStatus := pp_keyStatus policy; sp_payloadDigest := pp_digest policy;
                    sp_envelopeDigest := digestBytes raw; sp_authorityKeyID := authorityKeyID;
                    sp_generation := pp_generation policy |}
          end
      end
  end.

Definition EvaluateSigned (p : option SignedOfflineTrustPolicy) (signerKeyID : string) : TrustDecision * option policy_error :=
  match p with
  | None => (TrustDecisionNotListed, Some ErrSignedOfflineTrustPolicyInvalid)
  | Some p =>
      if negb (validKeyID signerKeyID) then (TrustDecisionNotListed, Some ErrSignedOfflineTrustPolicyInvalid)
      else (decision_of (sp_keyStatus p) signerKeyID, None)
  end.

(** ** Reports

    The fields of [VerificationReport] that describe trust in the signer; what
    else the report says is [report_rest], which nothing here changes. *)
Record VerificationReport := {
  rp_SignerKeyID : string; rp_TrustDecision : string; rp_TrustBasis : string; rp_TrustPolicyDigest : string;
  rp_TrustPolicyEnvelopeDigest : string; rp_TrustPolicyAuthorityKeyID : string; rp_TrustPolicyGeneration : Z;
  rp_MinimumTrustPolicyGeneration : Z; rp_TrustPolicySignatureValidity : string; rp_TrustReason : string;
  rp_rest : list (string * any)
}.

(** [report.TrustDecision = decision; report.TrustReason = reason]. *)
Definition decided (decision reason : string) (r : VerificationReport) : VerificationReport :=
  {| rp_SignerKeyID := rp_SignerKeyID r; rp_TrustDecision := decision; rp_TrustBasis := rp_TrustBasis r;
     rp_TrustPolicyDigest := rp_TrustPolicyDigest r; rp_TrustPolicyEnvelopeDigest := rp_TrustPolicyEnvelopeDigest r;
     rp_TrustPolicyAuthorityKeyID := rp_TrustPolicyAuthorityKeyID r; rp_TrustPolicyGeneration := rp_TrustPolicyGeneration r;
     rp_MinimumTrustPolicyGeneration := rp_MinimumTrustPolicyGeneration r;
     rp_TrustPolicySignatureValidity := rp_TrustPolicySignatureValidity r; rp_TrustReason := reason; rp_rest := rp_rest r |}.

(** [report.TrustBasis = basis]. *)
Definition based (basis : string) (r : VerificationReport) : VerificationReport :=
  {| rp_SignerKeyID := rp_SignerKeyID r; rp_TrustDecision := rp_TrustDecision r; rp_TrustBasis := basis;
     rp_TrustPolicyDigest := rp_TrustPolicyDigest r; rp_TrustPolicyEnvelopeDigest := rp_TrustPolicyEnvelopeDigest r;
     rp_TrustPolicyAuthorityKeyID := rp_TrustPolicyAuthorityKeyID r; rp_TrustPolicyGeneration := rp_TrustPolicyGeneration r;
     rp_MinimumTrustPolicyGeneration := rp_MinimumTrustPolicyGeneration r;
     rp_TrustPolicySignatureValidity := rp_TrustPolicySignatureValidity r; rp_TrustReason := rp_TrustReason r;
     rp_rest := rp_rest r |}.

(** The facts of an authenticated policy, as a report shows them. *)
Definition described (p : SignedOfflineTrustPolicy) (minimum : Z) (r : VerificationReport) : VerificationReport :=
  {| rp_SignerKeyID := rp_SignerKeyID r; rp_TrustDecision := rp_TrustDecision r; rp_TrustBasis := rp_TrustBasis r;
     rp_TrustPolicyDigest := sp_payloadDigest p; rp_TrustPolicyEnvelopeDigest := sp_envelopeDigest p;
     rp_TrustPolicyAuthorityKeyID := sp_authorityKeyID p; rp_TrustPolicyGeneration := sp_generation p;
     rp_MinimumTrustPolicyGeneration := minimum; rp_TrustPolicySignatureValidity := "valid";
     rp_TrustReason := rp_TrustReason r; rp_rest := rp_rest r |}.

Definition CodeAttestationUntrusted := "ATTESTATION_UNTRUSTED".

Definition untrustedSignatureError (message decision : string) : Error :=
  with_details (NewError CodeAttestationUntrusted SeverityHigh message)
    [("signatureValid", VBool true); ("trustDecision", VStr decision)].

(** The members the callers add to the details. *)
Definition with_trust (basis reason : string) (e : Error) : Error :=
  with_details e (assoc_set "trustReason" (VStr reason) (assoc_set "trustBasis" (VStr basis) (er_Details e))).

Definition signed_basis := "signed-offline-policy-v2".
Definition untrustedPolicyError (message reason : string) : Error :=
  with_trust "offline-policy-v1" reason (untrustedSignatureError message "rejected").
Definition signedOfflineTrustPolicyUnavailableError : Error :=
  with_trust signed_basis "invalid-or-unavailable"
    (untrustedSignatureError "The signed offline trust policy is invalid or unavailable." "rejected").
Definition signedOfflineTrustPolicyGenerationError : Error :=
  with_trust signed_basis "generation-below-minimum"
    (untrustedSignatureError "The signed offline trust policy generation is below the requested minimum." "rejected").
Definition signedOfflineTrustPolicyDecisionError (message reason : string) : Error :=
  with_trust signed_basis reason (untrustedSignatureError message "rejected").

(** The part of [VerifyWithOfflineTrustPolicy] after [Verify] succeeded or found
    the bundle valid and merely untrusted. *)
Definition apply_offline_policy (report : VerificationReport) (policy : option OfflineTrustPolicy)
  : VerificationReport * option Error :=
  let report :=
    {| rp_SignerKeyID := rp_SignerKeyID report; rp_TrustDecision := rp_TrustDecision report;
       rp_TrustBasis := "offline-policy-v1"; rp_TrustPolicyDigest := match policy with Some p => tp_digest p | None => "" end;
       rp_TrustPolicyEnvelopeDigest := rp_TrustPolicyEnvelopeDigest report;
       rp_TrustPolicyAuthorityKeyID := rp_TrustPolicyAuthorityKeyID report;
       rp_TrustPolicyGeneration := rp_TrustPolicyGeneration report;
       rp_MinimumTrustPolicyGeneration := rp_MinimumTrustPolicyGeneration report;
       rp_TrustPolicySignatureValidity := rp_TrustPolicySignatureValidity report;
       rp_TrustReason := rp_TrustReason report; rp_rest := rp_rest report |} in
  let rejected reason message := (decided "rejected" reason report, Some (untrustedPolicyError message reason)) in
  match EvaluateSignerKeyID policy (rp_SignerKeyID report) with
  | (_, Some _) => rejected "invalid-or-unavailable" "The offline trust policy cannot evaluate the verified signer."
  | (TrustDecisionTrusted, None) => (decided "accepted" "trusted" report, None)
  | (TrustDecisionRevoked, None) => rejected "revoked" "The verified signer is revoked by the offline trust policy."
  | (TrustDecisionNotListed, None) => rejected "not-listed" "The verified signer is not listed by the offline trust policy."
  end.

(** [VerifyWithOfflineTrustPolicy] given the outcome of [Verify(bundle, nil)]. *)
Definition VerifyWithOfflineTrustPolicy (verified : VerificationReport * option Error) (policy : option OfflineTrustPolicy)
  : VerificationReport * option Error :=
  match verified with
  | (report, Some e) => if er_Code e !=s CodeAttestationUntrusted then (report, Some e) else apply_offline_policy report policy
  | (report, None) => apply_offline_policy report policy
  end.

Definition VerifySignedOfflineTrustPolicyFloor (report : VerificationReport) (policy : option SignedOfflineTrustPolicy)
  (minimum : Z) : VerificationReport * option Error :=
  let report := based signed_basis report in
  let unavailable := (decided "rejected" "invalid-or-unavailable" report, Some signedOfflineTrustPolicyUnavailableError) in
  match policy with
  | None => unavailable
  | Some p =>
      if negb (sp_authenticated p) || (minimum =? 0) || (MaxTrustPolicyGeneration <? minimum) then unavailable
      else
        let report := described p minimum report in
        if sp_generation p <? minimum
        then (decided "rejected" "generation-below-minimum" report, Some signedOfflineTrustPolicyGenerationError)
        else (report, None)
  end.

Definition VerifySignedOfflineTrustPolicySigner (report : VerificationReport) (policy : option SignedOfflineTrustPolicy)
  : VerificationReport * option Error :=
  let without := (decided "rejected" "invalid-or-unavailable" (based signed_basis report),
                  Some signedOfflineTrustPolicyUnavailableError) in
  match policy with
  | None => without
  | Some p =>
      if negb (sp_authenticated p) then without
      else
        match EvaluateSigned policy (rp_SignerKeyID report) with
        | (_, Some _) =>
            (decided "rejected" "invalid-or-unavailable" report, Some signedOfflineTrustPolicyUnavailableError)
        | (TrustDecisionTrusted, None) => (decided "accepted" "trusted" report, None)
        | (TrustDecisionRevoked, None) =>
            (decided "rejected" "revoked" report,
             Some (signedOfflineTrustPolicyDecisionError
                     "The verified signer is revoked by the signed offline trust policy." "revoked"))
        | (TrustDecisionNotListed, None) =>
            (decided "rejected" "not-listed" report,
             Some (signedOfflineTrustPolicyDecisionError
                     "The verified signer is not listed by the signed offline trust policy." "not-listed"))
        end
  end.

Definition evaluateSignedOfflineTrustPolicy (report : VerificationReport) (policy : option SignedOfflineTrustPolicy)
  (minimum : Z) : VerificationReport * option Error :=
  match VerifySignedOfflineTrustPolicyFloor report policy minimum with
  | (report, Some e) => (report, Some e)
  | (report, None) => VerifySignedOfflineTrustPolicySigner report policy
  end.

(** [VerifyWithSignedOfflineTrustPolicy] given the outcome of [Verify(bundle, nil)]. *)
Definition VerifyWithSignedOfflineTrustPolicy (verified : VerificationReport * option Error)
  (policy : option SignedOfflineTrustPolicy) (minimum : Z) : VerificationReport * option Error :=
  match verified with
  | (report, Some e) =>
      if er_Code e !=s CodeAttestationUntrusted then (report, Some e)
      else evaluateSignedOfflineTrustPolicy report policy minimum
  | (report, None) => evaluateSignedOfflineTrustPolicy report policy minimum
  end.

Definition RejectSignedOfflineTrustPolicyState (report : VerificationReport) (reason : string) : VerificationReport * Error :=
  let reason :=
    if existsb (String.eqb reason) ["state-generation-rollback"; "state-generation-equivocation"; "state-unavailable"]
    then reason else "state-unavailable" in
  (decided "rejected" reason report,
   with_trust signed_basis reason
     (untrustedSignatureError "The local signed trust-policy state cannot accept this policy." "rejected")).

(** ** The issuer *)

Definition PrivateKeySize : nat := 64.
Definition SeedSize : nat := 32.

(** [ed25519.NewKeyFromSeed]: the seed and its public key. *)
Definition NewKeyFromSeed (seed : string) : string := seed +:+ ed_public seed.

Record OfflineTrustPolicySignerKey := { sk_SPKI : string; sk_Decision : TrustDecision }.

(** The loop over the keys: the policy's entries and the decisions by identifier. *)
Fixpoint policy_keys (authorityKeyID : string) (keys : list OfflineTrustPolicySignerKey)
  (policyKeys : list offlineTrustPolicyKey) (decisions : gmap string TrustDecision)
  : option (list offlineTrustPolicyKey * gmap string TrustDecision) :=
  match keys with
  | [] => Some (policyKeys, decisions)
  | key :: rest =>
      let? status :=
        match sk_Decision key with
        | TrustDecisionTrusted => Some trustKeyStatusTrusted
        | TrustDecisionRevoked => Some trustKeyStatusRevoked
        | TrustDecisionNotListed => None
        end in
      let? (_, signerDER) := parsePublicKey (sk_SPKI key) in
      let keyID := digestBytes signerDER in
      if keyID =s authorityKeyID then None
      else
        match decisions !! keyID with
        | Some _ => None
        | None =>
            policy_keys authorityKeyID rest (policyKeys ++ [{| pk_KeyID := keyID; pk_Status := status |}])
              (<[keyID := sk_Decision key]> decisions)
        end
  end.

(** [sort.Slice] by identifier; the identifiers are distinct. *)
Definition sort_policy_keys (keys : list offlineTrustPolicyKey) : list offlineTrustPolicyKey :=
  List.map snd (sort_keys (List.map (λ k, (pk_KeyID k, k)) keys)).

Definition policy_document (generation : Z) (keys : list offlineTrustPolicyKey) : offlineTrustPolicyV2Document :=
  {| p2_SchemaVersion := "2"; p2_Generation := generation; p2_KeyAlgorithm := "ed25519";
     p2_KeyIDAlgorithm := "spki-sha256"; p2_Keys := keys |}.

(** [canonicaljson.Marshal] of the payload. *)
Definition policy_payload (generation : Z) (keys : list offlineTrustPolicyKey) : string :=
  encode (doc_of policy_v2_type (policy_v2_value (policy_document generation keys))).

Definition decision_matches (verified : SignedOfflineTrustPolicy) (decisions : gmap string TrustDecision)
  (key : offlineTrustPolicyKey) : bool :=
  match EvaluateSigned (Some verified) (pk_KeyID key) with
  | (decision, None) => bool_decide (decisions !! pk_KeyID key = Some decision)
  | (_, Some _) => false
  end.

Definition SignOfflineTrustPolicy (generation : Z) (keys : list OfflineTrustPolicySignerKey) (authority : string)
  : result policy_error (string * string * SignedOfflineTrustPolicy) :=
  let failed := ErrOfflineTrustPolicySigningFailed in
  fail_if ((generation =? 0) || (MaxTrustPolicyGeneration <? generation) || (length keys =? 0)%nat
           || (maxOfflineTrustPolicySignerKeys <? length keys)%nat || negb (slen authority =? PrivateKeySize)%nat) with failed ;;
  let seed := take_string SeedSize authority in
  let normalizedAuthority := NewKeyFromSeed seed in
  fail_if (authority !=s normalizedAuthority) with failed ;;
  let authorityPublic := ed_public seed in
  fail_if (negb (slen authorityPublic =? PublicKeySize)%nat) with failed ;;
  let! (authoritySPKI, authorityDER) := of_option failed (marshalPublicKey authorityPublic) in
  let authorityKeyID := digestBytes authorityDER in
  let! (policyKeys, decisions) := of_option failed (policy_keys authorityKeyID keys [] ∅) in
  let policyKeys := sort_policy_keys policyKeys in
  let payload := policy_payload generation policyKeys in
  fail_if (MaxOfflineTrustPolicyBytes <? zlen payload) with failed ;;
  let! parsedPayload := map_err (λ _, failed) (parseOfflineTrustPolicyV2 payload) in
  fail_if (negb (pp_generation parsedPayload =? generation) || (pp_digest parsedPayload !=s digestBytes payload)) with failed ;;
  let envelopeRaw := sign_envelope seed SignedOfflineTrustPolicyPayloadType payload authorityKeyID in
  fail_if (MaxSignedOfflineTrustPolicyEnvelopeBytes <? zlen envelopeRaw) with failed ;;
  let! verified := map_err (λ _, failed) (ParseSignedOfflineTrustPolicy envelopeRaw authoritySPKI) in
  fail_if (negb (sp_generation verified =? generation) || (sp_authorityKeyID verified !=s authorityKeyID)
           || (sp_payloadDigest verified !=s digestBytes payload) || (sp_envelopeDigest verified !=s digestBytes envelopeRaw)) with failed ;;
  fail_if (negb (forallb (decision_matches verified decisions) policyKeys)) with failed ;;
  Ok (envelopeRaw, authoritySPKI, verified).
End Policies.

(** ** The keys of a policy *)

Definition status_pairs (keys : list offlineTrustPolicyKey) : list (string * string) :=
  List.map (λ k, (pk_KeyID k, pk_Status k)) keys.

(** Valid identifiers in strictly ascending order. *)
Definition keys_ordered (keys : list offlineTrustPolicyKey) : Prop :=
  Forall (λ k, validKeyID (pk_KeyID k) = true) keys ∧ keys_sorted (status_pairs keys) = true.

Lemma key_statuses_sound first previous keys statuses statuses' :
  key_statuses first previous keys statuses = Some statuses' →
  keys_ordered keys
  ∧ (first = false → match keys with [] => True | k :: _ => key_lt previous (pk_KeyID k) = true end)
  ∧ ∀ id, statuses' !! id = match assoc id (status_pairs keys) with Some s => Some s | None => statuses !! id end.
Proof.
  revert first previous statuses. induction keys as [|k keys IH]; intros first previous statuses; cbn [key_statuses].
  { intros [= <-]. split_and!; [split; [constructor|done]|done|done]. }
  destruct (validKeyID (pk_KeyID k)) eqn:Hv; [|done]. cbn [negb orb].
  destruct (negb first && negb (key_lt previous (pk_KeyID k))) eqn:Ho; [done|]. intros H.
  destruct (IH _ _ _ H) as ([Hall Hs] & Hhead & Hl). specialize (Hhead eq_refl). split_and!.
  - split; [by constructor|]. destruct keys as [|k' keys]; [done|]. cbn [status_pairs List.map keys_sorted fst] in *.
    by rewrite Hhead.
  - intros ->. cbn [negb andb] in Ho. by apply negb_false_iff in Ho.
  - intros id. rewrite Hl. cbn [status_pairs List.map assoc]. fold (status_pairs keys).
    apply keys_sorted_NoDup in Hs as Hnd.
    destruct (String.eqb_spec (pk_KeyID k) id) as [<-|Hne]; [|by rewrite lookup_insert_ne].
    assert (assoc (pk_KeyID k) (status_pairs keys) = None) as ->; [|by rewrite lookup_insert_eq].
    apply assoc_None_iff. intros (p & Hp & Hin)%list_elem_of_fmap.
    assert (keys_sorted ((pk_KeyID k, pk_Status k) :: status_pairs keys) = true) as Hks.
    { destruct keys as [|k' keys]; [done|]. cbn [status_pairs List.map keys_sorted fst] in *. by rewrite Hhead. }
    apply keys_sorted_head in Hks as [Hks _]. rewrite Forall_forall in Hks. specialize (Hks p Hin). cbn [fst] in Hks.
    by rewrite <- Hp, key_lt_irrefl in Hks.
Qed.

Lemma key_statuses_complete first previous keys statuses :
  keys_ordered keys → (first = false → match keys with [] => True | k :: _ => key_lt previous (pk_KeyID k) = true end) →
  ∃ statuses', key_statuses first previous keys statuses = Some statuses'.
Proof.
  revert first previous statuses. induction keys as [|k keys IH]; intros first previous statuses [Hv Hs] Hh; [by eexists|].
  inversion Hv as [|? ? Hk Hv']; subst. cbn [key_statuses]. rewrite Hk. cbn [negb orb].
  assert (negb first && negb (key_lt previous (pk_KeyID k)) = false) as ->.
  { destruct first; [done|]. by rewrite (Hh eq_refl). }
  cbn [status_pairs List.map] in Hs. pose proof (keys_sorted_head _ _ Hs) as [Hlt Hs']. apply IH; [done|].
  intros _. destruct keys as [|k' keys]; [done|]. by inversion Hlt.
Qed.

Lemma decision_of_listed statuses id keys :
  (∀ i, statuses !! i = assoc i (status_pairs keys)) → NoDup (status_pairs keys).*1 →
  decision_of statuses id = TrustDecisionTrusted ↔ {| pk_KeyID := id; pk_Status := trustKeyStatusTrusted |} ∈ keys.
Proof.
  intros Hst Hnd. unfold decision_of. rewrite Hst. split.
  - destruct (assoc id (status_pairs keys)) as [s|] eqn:E; cbn [default from_option]; unfold Datatypes.id.
    + destruct (String.eqb_spec s trustKeyStatusTrusted) as [->|]; [intros _|destruct (s =s trustKeyStatusRevoked); intros [=]].
      apply assoc_In in E. apply list_elem_of_fmap in E as ([i s] & [= -> ->] & Hin). done.
    + done.
  - intros H. assert (assoc id (status_pairs keys) = Some trustKeyStatusTrusted) as ->; [|done].
    apply assoc_NoDup; [done|]. apply list_elem_of_fmap. eexists; split; [|exact H]. done.
Qed.

(** ** What an accepted policy is *)

Section Accepted.
Context `{ED : Ed25519} `{SE : SchemaEngine}.

(** The payload is the written form of a document of the policy's type that its
    schema accepts, within the size and node limits. *)
Definition payload_document (payload : string) (d : offlineTrustPolicyV2Document) : Prop :=
  ∃ v, has_type policy_v2_type v ∧ payload = encode (doc_of policy_v2_type v) ∧ policy_v2_of v = d
    ∧ zlen payload <= 65536 ∧ nodes_of (doc_of policy_v2_type v) <= 256
    ∧ schema_conforms "offline-trust-policy-v2.schema.json" (canon (doc_of policy_v2_type v)) = true.

Lemma generation_nonneg v : has_type policy_v2_type v → 0 <= p2_Generation (policy_v2_of v).
Proof.
  unfold policy_v2_type. intros (vs & -> & H)%has_type_struct.
  apply Forall2_cons_inv_l in H as (v0 & vs0 & _ & H & ->). apply Forall2_cons_inv_l in H as (v1 & vs1 & H & _ & ->).
  cbn [snd] in H. inversion H; subst. cbn. lia.
Qed.

Lemma parse_v2_exact raw policy :
  parseOfflineTrustPolicyV2 raw = Ok policy ↔
  ∃ d, payload_document raw d ∧ keys_ordered (p2_Keys d) ∧ 1 <= p2_Generation d <= MaxTrustPolicyGeneration
    ∧ pp_generation policy = p2_Generation d ∧ pp_digest policy = digestBytes raw
    ∧ ∀ id, pp_keyStatus policy !! id = assoc id (status_pairs (p2_Keys d)).
Proof.
  pose proof (λ raw v, unmarshal_exact false raw policy_v2_type v eq_refl ltac:(vm_compute; discriminate)) as Hread.
  pose proof (λ v Hv, schema_accepts_written [("schemaVersion", TString); ("generation", TUint64); ("keyAlgorithm", TString);
    ("keyIdAlgorithm", TString); ("keys", TSlice key_type)] v MaxOfflineTrustPolicyBytes 8 256
    "offline-trust-policy-v2.schema.json" eq_refl Hv ltac:(lia) ltac:(vm_compute; discriminate)) as Hschema.
  fold policy_v2_type in Hschema. unfold parseOfflineTrustPolicyV2. split.
  - destruct (_ || _ || _ || _); [done|].
    destruct (validateDerivedSchemaJSON _ _ _ _ _) eqn:Es; [|done]. cbn [negb].
    destruct (unmarshal_canonical false raw policy_v2_type) as [v|] eqn:Ev; [|done]. apply Hread in Ev as [Hv ->].
    destruct ((p2_Generation (policy_v2_of v) =? 0) || _) eqn:Eg; [done|]. cbv zeta.
    destruct (key_statuses true "" _ ∅) as [statuses|] eqn:Ek; [|done]. intros [= <-]. cbn [pp_generation pp_digest pp_keyStatus].
    apply (Hschema v Hv) in Es as (Hb & Hn & Hs). pose proof (generation_nonneg v Hv). exists (policy_v2_of v).
    destruct (key_statuses_sound _ _ _ _ _ Ek) as (Hord & _ & Hl). to_prop.
    split_and!; [by exists v|done|lia|lia|done|done|]. intros id. rewrite Hl. by destruct (assoc id _).
  - intros (d & (v & Hv & Hraw & Hvd & Hb & Hn & Hs) & Hord & Hg & Hpg & Hpd & Hst).
    rewrite Hraw in Hb, Hpd |- *. destruct (written_clean _ _ (eq_refl : ty_ok policy_v2_type = true) Hv) as (C1 & C2 & C3).
    fold policy_v2_type in C1, C2, C3. rewrite C1, C2, C3, (proj2 (Z.ltb_ge MaxOfflineTrustPolicyBytes _) Hb). cbn [orb].
    rewrite (proj2 (Hschema v Hv)) by done. cbn [negb]. rewrite (proj2 (Hread _ v)) by done. rewrite Hvd.
    rewrite (proj2 (Z.eqb_neq _ _)), (proj2 (Z.ltb_ge _ _)) by lia. cbn [orb].
    destruct (key_statuses_complete true "" (p2_Keys d) ∅ Hord) as [statuses Ek]; [done|]. rewrite Ek.
    destruct (key_statuses_sound _ _ _ _ _ Ek) as (_ & _ & Hl). destruct policy as [st dg g].
    cbn [pp_generation pp_digest pp_keyStatus] in *. do 2 f_equal; [|done..]. apply map_eq. intros id.
    rewrite Hst, Hl. by destruct (assoc id _).
Qed.

(** What [ParseSignedOfflineTrustPolicy] vouches for: the envelope, within its
    limit and accepted by its schema, carries the payload and a signature of it
    by the authority key, which the policy does not list; the parsed policy has
    the generation, digests and key statuses of these. *)
Definition signed_policy (raw authorityPEM : string) (p : SignedOfflineTrustPolicy)
  (publicKey payload : string) (d : offlineTrustPolicyV2Document) : Prop :=
  slen publicKey = 32%nat ∧ authorityPEM = pem_text (spki_der publicKey)
  ∧ payload_document payload d ∧ keys_ordered (p2_Keys d) ∧ 1 <= p2_Generation d <= 9007199254740991
  ∧ (zlen raw <= 98304
     ∧ ∃ sig, slen sig = 64%nat ∧ ed_verify publicKey (pae SignedOfflineTrustPolicyPayloadType payload) sig = true
       ∧ raw = policy_envelope SignedOfflineTrustPolicyPayloadType payload publicKey sig
       ∧ schema_conforms "offline-trust-policy-v2-envelope.schema.json"
           (canon (doc_of envelope_type (one_signature SignedOfflineTrustPolicyPayloadType (EncodeToString payload)
              (key_id publicKey) (EncodeToString sig)))) = true)
  ∧ sp_authenticated p = true ∧ sp_generation p = p2_Generation d ∧ sp_payloadDigest p = digestBytes payload
  ∧ sp_envelopeDigest p = digestBytes raw ∧ sp_authorityKeyID p = digestBytes (spki_der publicKey)
  ∧ (∀ id, sp_keyStatus p !! id = assoc id (status_pairs (p2_Keys d)))
  ∧ sp_keyStatus p !! sp_authorityKeyID p = None.

Lemma payload_type_text : utf8_valid SignedOfflineTrustPolicyPayloadType = true.
Proof. vm_compute. reflexivity. Qed.

(** What the envelope's schema is asked. *)
Lemma policy_envelope_schema payload publicKey sig (raw := policy_envelope SignedOfflineTrustPolicyPayloadType payload publicKey sig) :
  zlen raw <= MaxSignedOfflineTrustPolicyEnvelopeBytes →
  validateDerivedSchemaJSON raw (96 * 2 ^ 10) 8 64 "offline-trust-policy-v2-envelope.schema.json"
  = schema_conforms "offline-trust-policy-v2-envelope.schema.json"
      (canon (doc_of envelope_type (one_signature SignedOfflineTrustPolicyPayloadType (EncodeToString payload)
         (key_id publicKey) (EncodeToString sig)))).
Proof. intros Hb. apply envelope_schema; [apply payload_type_text|exact Hb|lia|lia]. Qed.

Lemma parse_signed_exact raw authorityPEM p :
  ParseSignedOfflineTrustPolicy raw authorityPEM = Ok p
  ↔ ∃ publicKey payload d, signed_policy raw authorityPEM p publicKey payload d.
Proof.
  unfold ParseSignedOfflineTrustPolicy. split.
  - destruct (Z.ltb_spec MaxSignedOfflineTrustPolicyEnvelopeBytes (zlen raw)) as [|Hb]; [done|]. destruct (_ || _ || _); [done|].
    destruct (parsePublicKey authorityPEM) as [[publicKey der]|] eqn:Ek; [|done].
    apply parsePublicKey_ok in Ek as (Hl & -> & Hpem). destruct (validateDerivedSchemaJSON _ _ _ _ _) eqn:Es; [|done]. cbn [negb].
    destruct (authenticate _ _ _ _ _ _) as [payload|] eqn:Ea; [|done].
    apply (authenticate_exact _ _ _ _ _ _ payload_type_text) in Ea as (_ & _ & sig & Hsl & Hsig & Hraw).
    rewrite Hraw, policy_envelope_schema in Es by (by rewrite <- Hraw).
    destruct (parseOfflineTrustPolicyV2 payload) as [policy|] eqn:Ep; [|done]. cbn [bind_result]. cbv zeta.
    apply parse_v2_exact in Ep as (d & Hd & Hord & Hg & Hpg & Hpd & Hst).
    destruct (pp_keyStatus policy !! _) eqn:Eself; [done|]. intros [= <-]. exists publicKey, payload, d.
    unfold signed_policy. cbn [sp_authenticated sp_generation sp_payloadDigest sp_envelopeDigest sp_authorityKeyID sp_keyStatus].
    unfold MaxSignedOfflineTrustPolicyEnvelopeBytes, MaxTrustPolicyGeneration in *.
    split_and!; first [assumption|reflexivity|lia|by exists sig].
  - intros (publicKey & payload & d & Hl & -> & Hd & Hord & Hg & (Hb & sig & Hsl & Hsig & -> & Hs) & Ha & Hpg & Hpd & He & Hk & Hst & Hself).
    destruct (envelope_clean SignedOfflineTrustPolicyPayloadType payload publicKey sig payload_type_text) as (C1 & C2 & C3).
    rewrite (proj2 (Z.ltb_ge MaxSignedOfflineTrustPolicyEnvelopeBytes _) Hb), C1, C2, C3, parsePublicKey_text, policy_envelope_schema, Hs by done. cbn [orb negb].
    pose proof Hd as (v & _ & _ & _ & Hpb & _).
    rewrite (proj2 (authenticate_exact _ _ _ _ _ payload payload_type_text)) by (split_and!; [done|done|by exists sig]).
    rewrite (proj2 (parse_v2_exact payload {| pp_keyStatus := sp_keyStatus p; pp_digest := digestBytes payload;
      pp_generation := p2_Generation d |})) by (by exists d).
    cbn [bind_result pp_keyStatus pp_digest pp_generation]. cbv zeta. rewrite <- Hk, Hself.
    destruct p. cbn [sp_authenticated sp_generation sp_payloadDigest sp_envelopeDigest sp_authorityKeyID sp_keyStatus] in *.
    by subst.
Qed.

Lemma signed_decision raw pem p publicKey payload d id :
  signed_policy raw pem p publicKey payload d →
  EvaluateSigned (Some p) id = (TrustDecisionTrusted, None)
  ↔ {| pk_KeyID := id; pk_Status := trustKeyStatusTrusted |} ∈ p2_Keys d.
Proof.
  intros (_ & _ & _ & [Hv Hs] & _ & _ & _ & _ & _ & _ & _ & Hst & _).
  pose proof (decision_of_listed (sp_keyStatus p) id (p2_Keys d) Hst (keys_sorted_NoDup _ Hs)) as Hd.
  cbn [EvaluateSigned]. split.
  - destruct (validKeyID id); [|done]. cbn [negb]. intros [= E]. by apply Hd.
  - intros Hin. rewrite Forall_forall in Hv. specialize (Hv _ Hin). cbn [pk_KeyID] in Hv. rewrite Hv. cbn [negb].
    by rewrite (proj2 Hd Hin).
Qed.

(** C15: A signed policy is accepted, as the policy [p], exactly when its text is the
    canonical envelope, within its limit and accepted by its schema, of a canonical
    payload within its own limits that the given authority key signed, whose
    generation is in range, whose keys are in order and do not list the authority.
    With it a report is accepted exactly when the caller's floor is a positive
    generation the policy reaches and the payload lists the bundle's signer as
    trusted; the signer is then not the policy authority itself, and the accepted
    report shows the digests, authority and generation of the signed policy. *)
Theorem signed_policy_acceptance_exact raw authorityPEM p :
  (ParseSignedOfflineTrustPolicy raw authorityPEM = Ok p
   ↔ ∃ publicKey payload d, signed_policy raw authorityPEM p publicKey payload d)
  ∧ ∀ publicKey payload d report minimum, signed_policy raw authorityPEM p publicKey payload d → 0 <= minimum →
      let '(result, err) := evaluateSignedOfflineTrustPolicy report (Some p) minimum in
      (err = None ↔ 1 <= minimum <= p2_Generation d
                    ∧ {| pk_KeyID := rp_SignerKeyID report; pk_Status := trustKeyStatusTrusted |} ∈ p2_Keys d)
      ∧ (rp_TrustDecision result = "accepted" ↔ err = None)
      ∧ (err = None → rp_SignerKeyID report ≠ digestBytes (spki_der publicKey)
           ∧ rp_SignerKeyID result = rp_SignerKeyID report ∧ rp_TrustPolicyDigest result = digestBytes payload
           ∧ rp_TrustPolicyEnvelopeDigest result = digestBytes raw
           ∧ rp_TrustPolicyAuthorityKeyID result = digestBytes (spki_der publicKey)
           ∧ rp_TrustPolicyGeneration result = p2_Generation d).
Proof.
  split; [apply parse_signed_exact|].
  intros publicKey payload d report minimum H Hmin. pose proof (signed_decision _ _ _ _ _ _ (rp_SignerKeyID report) H) as Hdec.
  destruct H as (_ & _ & _ & Hord & Hg & _ & Ha & Hpg & Hpd & He & Hk & Hst & Hself).
  unfold evaluateSignedOfflineTrustPolicy, VerifySignedOfflineTrustPolicyFloor. rewrite Ha. cbn [negb orb]. rewrite Hpg.
  destruct (Z.eqb_spec minimum 0) as [->|Hz]; [cbn; split_and!; [split; [done|lia]|done|done]|]. cbn [orb].
  destruct (Z.ltb_spec MaxTrustPolicyGeneration minimum); [cbn; split_and!; [split; [done|unfold MaxTrustPolicyGeneration in *; lia]|done|done]|].
  destruct (Z.ltb_spec (p2_Generation d) minimum); [cbn; split_and!; [split; [done|lia]|done|done]|].
  unfold VerifySignedOfflineTrustPolicySigner. rewrite Ha. cbn [negb rp_SignerKeyID based described].
  destruct (EvaluateSigned (Some p) (rp_SignerKeyID report)) as [decision [e|]];
    [destruct decision; cbn; (split_and!; [split; [done|intros [_ Hin]; by apply Hdec in Hin]|done|done])|].
  destruct decision; cbn; (split_and!; [split; [|intros [_ Hin]; by apply Hdec in Hin]|done|]); try done.
  - intros _. split; [lia|]. by apply Hdec.
  - intros _. rewrite Hpd, He, Hk. split_and!; try done. intros Hs. pose proof (proj1 Hdec eq_refl) as Hin.
    rewrite Hk, Hst, assoc_None_iff in Hself. apply Hself. apply list_elem_of_fmap.
    exists (rp_SignerKeyID report, trustKeyStatusTrusted). split; [done|]. apply list_elem_of_fmap. by eexists; split; [|exact Hin].
Qed.
End Accepted.

(** ** The issuer's policies are accepted *)

(** What the schema engine says of the documents the issuer writes: the two
    schemas published with the code accept them. *)
Class PolicySchemas `{SE : SchemaEngine} : Prop := {
  policy_schema_accepts : ∀ d,
    p2_SchemaVersion d = "2" → p2_KeyAlgorithm d = "ed25519" → p2_KeyIDAlgorithm d = "spki-sha256" →
    1 <= p2_Generation d <= MaxTrustPolicyGeneration → (1 <= length (p2_Keys d) <= 32)%nat → keys_ordered (p2_Keys d) →
    Forall (λ k, pk_Status k = trustKeyStatusTrusted ∨ pk_Status k = trustKeyStatusRevoked) (p2_Keys d) →
    schema_conforms "offline-trust-policy-v2.schema.json" (canon (doc_of policy_v2_type (policy_v2_value d))) = true;
  policy_envelope_schema_accepts : ∀ payload keyID sig,
    1 <= zlen payload <= MaxOfflineTrustPolicyBytes → validKeyID keyID = true → slen sig = 64%nat →
    schema_conforms "offline-trust-policy-v2-envelope.schema.json"
      (canon (doc_of envelope_type
        (one_signature SignedOfflineTrustPolicyPayloadType (EncodeToString payload) keyID (EncodeToString sig)))) = true
}.

Definition status_of (decision : TrustDecision) : option string :=
  match decision with
  | TrustDecisionTrusted => Some trustKeyStatusTrusted
  | TrustDecisionRevoked => Some trustKeyStatusRevoked
  | TrustDecisionNotListed => None
  end.

(** A key as a caller passes it. *)
Definition signer (k : string * TrustDecision) : OfflineTrustPolicySignerKey :=
  {| sk_SPKI := pem_text (spki_der k.1); sk_Decision := k.2 |}.
Definition entry_of (k : string * TrustDecision) : offlineTrustPolicyKey :=
  {| pk_KeyID := key_id k.1; pk_Status := default "" (status_of k.2) |}.

Definition issuable (k : string * TrustDecision) : Prop := slen k.1 = 32%nat ∧ k.2 ≠ TrustDecisionNotListed.

Lemma policy_keys_all authorityKeyID ks acc decisions :
  Forall issuable ks → NoDup (List.map (λ k, key_id k.1) ks) →
  (∀ k, k ∈ ks → key_id k.1 ≠ authorityKeyID ∧ decisions !! key_id k.1 = None) →
  ∃ decisions', policy_keys authorityKeyID (List.map signer ks) acc decisions = Some (acc ++ List.map entry_of ks, decisions')
    ∧ (∀ k, k ∈ ks → decisions' !! key_id k.1 = Some k.2)
    ∧ (∀ id, id ∉ List.map (λ k, key_id k.1) ks → decisions' !! id = decisions !! id).
Proof.
  intros Hi. revert acc decisions. induction Hi as [|[pk dec] ks [Hl Hd] _ IH]; intros acc decisions Hnd Hk.
  { exists decisions. cbn. rewrite app_nil_r. split_and!; [done|by intros ? ?%not_elem_of_nil|done]. }
  cbn [List.map fst] in Hnd. apply NoDup_cons in Hnd as [Hni Hnd]. cbn [fst snd] in *.
  destruct (Hk (pk, dec) ltac:(left)) as [Hne Hnone]. cbn [fst] in Hne, Hnone.
  destruct (IH (acc ++ [entry_of (pk, dec)]) (<[key_id pk := dec]> decisions) Hnd) as (decisions' & E & Hin & Hout).
  { intros k Hin. destruct (Hk k ltac:(by right)) as [? ?]. split; [done|]. rewrite lookup_insert_ne; [done|].
    intros Heq. apply Hni. rewrite Heq. apply list_elem_of_fmap. by exists k. }
  exists decisions'. split_and!.
  - cbn [List.map policy_keys signer sk_Decision sk_SPKI fst snd]. fold (status_of dec).
    destruct (status_of dec) as [st|] eqn:Es; [|by destruct dec]. cbn [mbind option_bind].
    rewrite (parsePublicKey_text pk Hl). cbn [mbind option_bind]. fold (key_id pk).
    apply String.eqb_neq in Hne. rewrite Hne, Hnone.
    assert ({| pk_KeyID := key_id pk; pk_Status := st |} = entry_of (pk, dec)) as ->.
    { unfold entry_of. cbn [fst snd]. by rewrite Es. }
    rewrite E, <- app_assoc. done.
  - intros k [->|Hk']%elem_of_cons; [|by apply Hin]. cbn [fst snd]. rewrite Hout, lookup_insert_eq by done. done.
  - intros id Hid. cbn [List.map fst] in Hid. apply not_elem_of_cons in Hid as [? ?]. by rewrite Hout, lookup_insert_ne.
Qed.

(** The sorted entries. *)
Lemma sorted_entries_elem l k : k ∈ sort_policy_keys l ↔ k ∈ l.
Proof.
  unfold sort_policy_keys. rewrite list_elem_of_fmap. split.
  - intros (p & -> & Hp). rewrite sort_keys_elem in Hp. apply list_elem_of_fmap in Hp as (k' & -> & ?). done.
  - intros Hk. exists (pk_KeyID k, k). split; [done|]. rewrite sort_keys_elem. apply list_elem_of_fmap. by exists k.
Qed.

Lemma sorted_entries_pairs l : status_pairs (sort_policy_keys l) = sort_keys (status_pairs l).
Proof.
  unfold sort_policy_keys, status_pairs. set (m := List.map (λ k, (pk_KeyID k, k)) l).
  assert (List.map (λ k, (pk_KeyID k, pk_Status k)) l = List.map (λ q, (q.1, pk_Status q.2)) m) as ->.
  { unfold m. by rewrite List.map_map. }
  rewrite sort_keys_map, List.map_map. apply List.map_ext_in. intros [i k] Hin%list_elem_of_In.
  rewrite sort_keys_elem in Hin. apply list_elem_of_fmap in Hin as (k' & [= -> ->] & _). done.
Qed.

Lemma sorted_entries_length l : length (sort_policy_keys l) = length l.
Proof.
  unfold sort_policy_keys. rewrite length_map. unfold sort_keys.
  assert (∀ (p : string * offlineTrustPolicyKey) m, length (insert_key p m) = S (length m)) as Hi.
  { intros p m. induction m as [|q m IH]; [done|]. cbn [insert_key]. destruct (key_lt _ _); [|done]. cbn. by rewrite IH. }
  induction l as [|k l IH]; [done|]. cbn [List.map foldr]. by rewrite Hi, IH.
Qed.

Lemma validKeyID_key_id publicKey : validKeyID (key_id publicKey) = true.
Proof. apply digest_text_shape. Qed.

Lemma sorted_entries_ordered ks :
  NoDup (List.map (λ k, key_id k.1) ks) → keys_ordered (sort_policy_keys (List.map entry_of ks)).
Proof.
  intros Hnd. split.
  - apply Forall_forall. intros k Hk. rewrite sorted_entries_elem in Hk. apply list_elem_of_fmap in Hk as (k' & -> & _).
    apply validKeyID_key_id.
  - rewrite sorted_entries_pairs. apply sort_keys_is_sorted.
    assert ((status_pairs (List.map entry_of ks)).*1 = List.map (λ k, key_id k.1) ks) as ->; [|done].
    clear Hnd. induction ks as [|k ks IH]; [done|]. cbn [List.map status_pairs]. rewrite fmap_cons. by f_equal.
Qed.

(** *** The documents fit their limits *)

Lemma plain_status k : status_of k ≠ None → zlen (encode_string (default "" (status_of k))) = 9 ∧ utf8_valid (default "" (status_of k)) = true.
Proof. by destruct k. Qed.

Definition issued_entry (e : offlineTrustPolicyKey) : Prop := ∃ k, issuable k ∧ e = entry_of k.

Lemma entry_facts e :
  issued_entry e →
  has_type key_type (key_value e) ∧ text_bound (doc_of key_type (key_value e)) = 103
  ∧ depth_of (doc_of key_type (key_value e)) = 1 ∧ nodes_of (doc_of key_type (key_value e)) = 3
  ∧ (pk_Status e = trustKeyStatusTrusted ∨ pk_Status e = trustKeyStatusRevoked).
Proof.
  intros ([pk dec] & [Hl Hd] & ->). cbn [fst snd] in *. unfold entry_of, key_value, key_type.
  assert (status_of dec ≠ None) as Hst by (by destruct dec). destruct (plain_status _ Hst) as [Hs Hu]. split_and!.
  - repeat (constructor; cbn [snd]); [apply digestBytes_utf8|done].
  - cbn - [encode_string zlen Z.add key_id sanitize]. rewrite !sanitize_valid by (done || apply digestBytes_utf8).
    cbn [fst snd]. unfold key_id. rewrite digestBytes_size, Hs. reflexivity.
  - done.
  - done.
  - destruct dec; cbn; naive_solver.
Qed.

Lemma entries_sizes es (docs := List.map (doc_of key_type) (List.map key_value es)) :
  Forall issued_entry es →
  foldr (λ x n, text_bound x + 1 + n) 0 docs = 104 * Z.of_nat (length es)
  ∧ foldr (λ x n, Z.max (depth_of x) n) 0 docs <= 1 ∧ foldr (λ x n, nodes_of x + n) 0 docs = 3 * Z.of_nat (length es).
Proof.
  unfold docs. induction 1 as [|e es He _ (I1 & I2 & I3)]; [done|].
  destruct (entry_facts e He) as (_ & E1 & E2 & E3 & _). cbn [List.map foldr length]. rewrite E1, E2, E3, I1, I3. lia.
Qed.

Section Issued.
Variables (generation : Z) (es : list offlineTrustPolicyKey).
Hypothesis Hgen : 1 <= generation <= MaxTrustPolicyGeneration.
Hypothesis Hes : Forall issued_entry es.
Hypothesis Hlen : (1 <= length es <= 32)%nat.

Let v := policy_v2_value (policy_document generation es).

Lemma issued_typed : has_type policy_v2_type v.
Proof.
  unfold v, policy_v2_value, policy_document, policy_v2_type. cbn.
  constructor. repeat (apply Forall2_cons; split); try apply Forall2_nil_2; cbn [snd]; try (by constructor).
  - constructor. unfold MaxTrustPolicyGeneration in Hgen. lia.
  - constructor. apply Forall_fmap. eapply Forall_impl; [exact Hes|]. intros e He. apply entry_facts in He. tauto.
Qed.

Lemma issued_sizes :
  text_bound (doc_of policy_v2_type v) <= 4096 ∧ depth_of (doc_of policy_v2_type v) <= 4
  ∧ nodes_of (doc_of policy_v2_type v) <= 128.
Proof.
  destruct (entries_sizes es Hes) as (H1 & H2 & H3).
  pose proof (dec_Z_size generation ltac:(unfold MaxTrustPolicyGeneration in Hgen; lia)) as Hd.
  unfold v, policy_v2_value, policy_document, policy_v2_type.
  cbn - [encode_string zlen Z.add Z.max key_type sanitize foldr].
  idtac.
  cbn [foldr text_bound fst snd depth_of nodes_of encode]. rewrite H1, H3. constant_sizes. split_and!; lia.
Qed.

Lemma issued_fits : zlen (policy_payload generation es) <= 4096.
Proof. destruct issued_sizes as (Hb & _). pose proof (encode_bound (doc_of policy_v2_type v)). unfold policy_payload. fold v. lia. Qed.
End Issued.

Section IssuedPolicies.
Context `{ED : Ed25519} `{!Ed25519Laws} `{SE : SchemaEngine} `{!PolicySchemas}.

Lemma parse_issued generation es :
  1 <= generation <= MaxTrustPolicyGeneration → Forall issued_entry es → (1 <= length es <= 32)%nat → keys_ordered es →
  ∃ statuses, parseOfflineTrustPolicyV2 (policy_payload generation es)
    = Ok {| pp_keyStatus := statuses; pp_digest := digestBytes (policy_payload generation es); pp_generation := generation |}
    ∧ ∀ id, statuses !! id = assoc id (status_pairs es).
Proof.
  intros Hg Hes Hlen Hord. pose proof (issued_typed generation es Hg Hes Hlen) as Ht.
  pose proof (issued_fits generation es Hg Hes Hlen) as Hfit.
  destruct (issued_sizes generation es Hg Hes Hlen) as (_ & Hd & Hn).
  destruct (written_clean _ _ (eq_refl : ty_ok policy_v2_type = true) Ht) as (C1 & C2 & C3). fold policy_v2_type in C1, C2, C3.
  destruct (key_statuses_complete true "" es ∅ Hord) as [statuses Est]; [done|].
  exists statuses. split.
  2:{ intros id. destruct (key_statuses_sound _ _ _ _ _ Est) as (_ & _ & Hl). rewrite Hl. by destruct (assoc id _). }
  unfold parseOfflineTrustPolicyV2. unfold policy_payload in *. rewrite C1, C2, C3.
  rewrite (proj2 (Z.ltb_ge _ _)) by (unfold MaxOfflineTrustPolicyBytes; lia). cbn [orb].
  unfold policy_v2_type in *. rewrite schema_of_written;
    [|done|exact Ht|unfold MaxOfflineTrustPolicyBytes; lia|lia|lia|lia].
  fold policy_v2_type in *. rewrite policy_schema_accepts; cbn [negb policy_document p2_SchemaVersion p2_Generation p2_KeyAlgorithm
    p2_KeyIDAlgorithm p2_Keys]; [|done|done|done|lia|lia|done|].
  2:{ eapply Forall_impl; [exact Hes|]. intros e He. apply entry_facts in He. tauto. }
  rewrite unmarshal_complete; [|done|done|unfold maxNestingDepth; lia].
  assert (policy_v2_of (policy_v2_value (policy_document generation es)) = policy_document generation es) as ->.
  { unfold policy_v2_of, policy_v2_value. cbn. unfold policy_document. f_equal. rewrite List.map_map.
    rewrite <- (List.map_id es) at 2. apply List.map_ext. by intros []. }
  cbn [policy_document p2_Generation p2_Keys].
  rewrite (proj2 (Z.eqb_neq _ _)), (proj2 (Z.ltb_ge _ _)) by lia. cbn [orb]. by rewrite Est.
Qed.

Lemma parse_signed_issued seed generation es (payload := policy_payload generation es)
    (raw := sign_envelope seed SignedOfflineTrustPolicyPayloadType payload (key_id (ed_public seed))) :
  1 <= generation <= MaxTrustPolicyGeneration → Forall issued_entry es → (1 <= length es <= 32)%nat → keys_ordered es →
  key_id (ed_public seed) ∉ List.map pk_KeyID es →
  zlen raw <= MaxSignedOfflineTrustPolicyEnvelopeBytes
  ∧ ∃ p, ParseSignedOfflineTrustPolicy raw (pem_text (spki_der (ed_public seed))) = Ok p
    ∧ sp_authenticated p = true ∧ sp_generation p = generation ∧ sp_authorityKeyID p = key_id (ed_public seed)
    ∧ sp_payloadDigest p = digestBytes payload ∧ sp_envelopeDigest p = digestBytes raw
    ∧ ∀ id, sp_keyStatus p !! id = assoc id (status_pairs es).
Proof.
  intros Hg Hes Hlen Hord Hself. pose proof (issued_fits generation es Hg Hes Hlen) as Hfit. fold payload in Hfit.
  destruct (parse_issued generation es Hg Hes Hlen Hord) as (statuses & Ep & Hst). fold payload in Ep.
  assert (utf8_valid SignedOfflineTrustPolicyPayloadType = true) as Hu by (vm_compute; reflexivity).
  destruct (envelope_sizes SignedOfflineTrustPolicyPayloadType payload (spki_der (ed_public seed))
    (ed_sign seed (pae SignedOfflineTrustPolicyPayloadType payload)) ltac:(vm_compute; reflexivity) (ed_signature_size _ _))
    as (Hb & Hd & Hn). change (zlen (encode _)) with (zlen raw) in Hb.
  assert (zlen raw <= 8192) as Hraw.
  { change (zlen SignedOfflineTrustPolicyPayloadType) with 53 in Hb.
    assert (EncodedLen (zlen payload) <= EncodedLen 4096) as He.
    { unfold EncodedLen. apply Z.mul_le_mono_nonneg_r; [lia|]. apply Z.div_le_mono; lia. }
    change (EncodedLen 4096) with 5464 in He. lia. }
  assert (has_type envelope_type (one_signature SignedOfflineTrustPolicyPayloadType (EncodeToString payload)
    (key_id (ed_public seed)) (EncodeToString (ed_sign seed (pae SignedOfflineTrustPolicyPayloadType payload))))) as Ht.
  { apply envelope_typed; [done|apply encoded_utf8|apply digestBytes_utf8|apply encoded_utf8]. }
  destruct (written_clean _ _ (eq_refl : ty_ok envelope_type = true) Ht) as (C1 & C2 & C3). fold envelope_type in C1, C2, C3.
  split; [unfold MaxSignedOfflineTrustPolicyEnvelopeBytes; lia|].
  unfold ParseSignedOfflineTrustPolicy. rewrite (proj2 (Z.ltb_ge _ _)) by (unfold MaxSignedOfflineTrustPolicyEnvelopeBytes; lia).
  change (encode (doc_of envelope_type _)) with raw in C1, C2, C3. rewrite C1, C2, C3. cbn [orb].
  rewrite parsePublicKey_text by apply ed_public_size.
  assert (validateDerivedSchemaJSON raw (96 * 2 ^ 10) 8 64 "offline-trust-policy-v2-envelope.schema.json" = true) as ->.
  { unfold raw, sign_envelope, envelope_type. rewrite schema_of_written; [|done|exact Ht| |lia|exact Hd|exact Hn].
    2:{ change (zlen raw <= 96 * 2 ^ 10). lia. }
    apply policy_envelope_schema_accepts; [|apply validKeyID_key_id|apply ed_signature_size].
    unfold MaxOfflineTrustPolicyBytes. split; [|lia].
    destruct (written_clean _ _ (eq_refl : ty_ok policy_v2_type = true) (issued_typed generation es Hg Hes Hlen)) as (Hne & _).
    apply Nat.eqb_neq in Hne. unfold payload, policy_payload, zlen. fold policy_v2_type in Hne. lia. }
  cbn [negb]. unfold raw at 1. rewrite authenticate_complete;
    [|done|unfold MaxOfflineTrustPolicyBytes; lia|change (zlen raw <= MaxSignedOfflineTrustPolicyEnvelopeBytes); unfold MaxSignedOfflineTrustPolicyEnvelopeBytes; lia].
  rewrite Ep. cbn [bind_result pp_keyStatus pp_digest pp_generation]. cbv zeta. fold (key_id (ed_public seed)).
  rewrite Hst. assert (assoc (key_id (ed_public seed)) (status_pairs es) = None) as ->.
  { apply assoc_None_iff. unfold status_pairs. intros (q & Hq & (e & -> & He)%list_elem_of_fmap)%list_elem_of_fmap.
    cbn [fst] in Hq. rewrite Hq in Hself. apply Hself. apply list_elem_of_fmap. by exists e. }
  eexists. split; [done|]. cbn [sp_authenticated sp_generation sp_authorityKeyID sp_payloadDigest sp_envelopeDigest sp_keyStatus].
  split_and!; first [reflexivity|exact Hst].
Qed.

(** What a policy over the sorted entries decides. *)
Lemma issued_decisions ks p :
  Forall issuable ks → NoDup (List.map (λ k, key_id k.1) ks) →
  (∀ id, sp_keyStatus p !! id = assoc id (status_pairs (sort_policy_keys (List.map entry_of ks)))) →
  (∀ k, k ∈ ks → EvaluateSigned (Some p) (key_id k.1) = (k.2, None))
  ∧ (∀ id, validKeyID id = true → id ∉ List.map (λ k, key_id k.1) ks →
       EvaluateSigned (Some p) id = (TrustDecisionNotListed, None)).
Proof.
  intros Hi Hnd Hst. pose proof (sorted_entries_ordered ks Hnd) as [_ Hs]. apply keys_sorted_NoDup in Hs as Hn.
  split.
  - intros k Hk. rewrite Forall_forall in Hi. destruct (Hi k Hk) as [_ Hd].
    cbn [EvaluateSigned]. rewrite validKeyID_key_id. cbn [negb]. f_equal. unfold decision_of. rewrite Hst.
    assert (assoc (key_id k.1) (status_pairs (sort_policy_keys (List.map entry_of ks))) = status_of k.2) as ->.
    { assert (status_of k.2 = Some (default "" (status_of k.2))) as Hsome by (by destruct k.2). rewrite Hsome at 1.
      apply assoc_NoDup; [done|]. apply list_elem_of_fmap. exists (entry_of k). split; [done|].
      apply sorted_entries_elem. apply list_elem_of_fmap. by exists k. }
    by destruct k.2.
  - intros id Hv Hid. cbn [EvaluateSigned]. rewrite Hv. cbn [negb]. f_equal. unfold decision_of. rewrite Hst.
    assert (assoc id (status_pairs (sort_policy_keys (List.map entry_of ks))) = None) as ->; [|done].
    apply assoc_None_iff. intros (q & Hq & (e & -> & He)%list_elem_of_fmap)%list_elem_of_fmap. cbn [fst] in Hq.
    rewrite sorted_entries_elem in He. apply list_elem_of_fmap in He as (k & -> & Hk). apply Hid. rewrite Hq.
    apply list_elem_of_fmap. by exists k.
Qed.

(** C16: With an Ed25519 implementation that verifies its own signatures and the
    published schemas, every admissible request is issued: for a generation in
    range, 1 to 32 canonical signer keys with distinct identifiers, each to be
    trusted or revoked and none the authority, [SignOfflineTrustPolicy] returns
    an envelope that the consumer parses under the authority's key, and the
    policy decides every listed key as requested and any other as not listed. *)
Theorem issued_policy_verifies generation ks seed :
  slen seed = 32%nat → 1 <= generation <= MaxTrustPolicyGeneration → (1 <= length ks <= 32)%nat →
  Forall issuable ks → NoDup (List.map (λ k, key_id k.1) ks) → key_id (ed_public seed) ∉ List.map (λ k, key_id k.1) ks →
  ∃ raw verified,
    SignOfflineTrustPolicy generation (List.map signer ks) (NewKeyFromSeed seed)
      = Ok (raw, pem_text (spki_der (ed_public seed)), verified)
    ∧ ParseSignedOfflineTrustPolicy raw (pem_text (spki_der (ed_public seed))) = Ok verified
    ∧ sp_generation verified = generation ∧ sp_authorityKeyID verified = key_id (ed_public seed)
    ∧ (∀ k, k ∈ ks → EvaluateSigned (Some verified) (key_id k.1) = (k.2, None))
    ∧ (∀ id, validKeyID id = true → id ∉ List.map (λ k, key_id k.1) ks →
         EvaluateSigned (Some verified) id = (TrustDecisionNotListed, None)).
Proof.
  intros Hseed Hg Hlen Hi Hnd Hself. set (es := sort_policy_keys (List.map entry_of ks)).
  assert (Forall issued_entry es) as Hes.
  { apply Forall_forall. intros e He. unfold es in He. rewrite sorted_entries_elem in He.
    apply list_elem_of_fmap in He as (k & -> & Hk). rewrite Forall_forall in Hi. by exists k; split; [apply Hi|]. }
  assert ((1 <= length es <= 32)%nat) as Hel by (unfold es; by rewrite sorted_entries_length, length_map).
  assert (key_id (ed_public seed) ∉ List.map pk_KeyID es) as Hse.
  { intros (e & He & Hin)%list_elem_of_fmap. unfold es in Hin. rewrite sorted_entries_elem in Hin.
    apply list_elem_of_fmap in Hin as (k & -> & Hk). apply Hself. rewrite He. apply list_elem_of_fmap. by exists k. }
  pose proof (sorted_entries_ordered ks Hnd) as Hord. fold es in Hord.
  destruct (parse_issued generation es Hg Hes Hel Hord) as (statuses & Ep & _).
  destruct (parse_signed_issued seed generation es Hg Hes Hel Hord Hse) as (Hsize & p & Eq & _ & Q2 & Q3 & Q4 & Q5 & Q6).
  destruct (issued_decisions ks p Hi Hnd Q6) as [D1 D2].
  destruct (policy_keys_all (key_id (ed_public seed)) ks [] ∅ Hi Hnd) as (decisions & Ek & Hdec & _).
  { intros k Hk. split; [|done]. intros Heq. apply Hself. rewrite <- Heq. apply list_elem_of_fmap. by exists k. }
  eexists _, p. split; [|by split_and!].
  unfold SignOfflineTrustPolicy. rewrite length_map. unfold maxOfflineTrustPolicySignerKeys.
  rewrite (proj2 (Z.eqb_neq generation 0)), (proj2 (Z.ltb_ge MaxTrustPolicyGeneration _)), (proj2 (Nat.eqb_neq (length ks) 0)),
    (proj2 (Nat.ltb_ge 32 _)) by lia. cbn [orb].
  assert (slen (NewKeyFromSeed seed) = 64%nat) as Hk64 by (unfold NewKeyFromSeed; by rewrite slen_app, Hseed, ed_public_size).
  assert (take_string SeedSize (NewKeyFromSeed seed) = seed) as Hts.
  { unfold NewKeyFromSeed, SeedSize. rewrite <- Hseed. apply take_string_app. }
  rewrite Hk64, Hts, string_eqb_refl, ed_public_size. change (64 =? PrivateKeySize)%nat with true.
  change (32 =? PublicKeySize)%nat with true. cbn [negb].
  rewrite (marshalPublicKey_text (ed_public seed)) by apply ed_public_size. cbn [of_option bind_result].
  fold (key_id (ed_public seed)). rewrite Ek. cbn [of_option bind_result app]. cbv zeta. fold es.
  rewrite (proj2 (Z.ltb_ge _ _)) by (pose proof (issued_fits generation es Hg Hes Hel); unfold MaxOfflineTrustPolicyBytes; lia).
  rewrite Ep. cbn [map_err bind_result pp_generation pp_digest]. rewrite Z.eqb_refl, string_eqb_refl. cbn [negb orb].
  rewrite (proj2 (Z.ltb_ge _ _) Hsize), Eq. cbn [map_err bind_result]. rewrite Q2, Q3, Q4, Q5, Z.eqb_refl, !string_eqb_refl.
  cbn [negb orb].
  assert (forallb (decision_matches p decisions) es = true) as ->; [|done].
  apply forallb_forall. intros e He%list_elem_of_In. unfold es in He. rewrite sorted_entries_elem in He.
  apply list_elem_of_fmap in He as (k & -> & Hk). unfold decision_matches. cbn [entry_of pk_KeyID].
  rewrite (D1 k Hk), (Hdec k Hk). by apply bool_decide_eq_true.
Qed.
End IssuedPolicies.

(** ** Examples *)

Lemma any_schema_policies : @PolicySchemas any_schema.
Proof. by split. Qed.

Definition example_seed := "0123456789abcdef0123456789abcdef".
Definition example_keys : list (string * TrustDecision) :=
  [("signer-one----------------------", TrustDecisionTrusted); ("signer-two----------------------", TrustDecisionRevoked)].
Definition example_policy : result policy_error (string * string * SignedOfflineTrustPolicy) :=
  @SignOfflineTrustPolicy hash_signatures any_schema 7 (List.map signer example_keys)
    (@NewKeyFromSeed hash_signatures example_seed).
Definition issued_texts {A} (r : result policy_error (string * string * A)) : string * string :=
  match r with Ok (raw, pem, _) => (raw, pem) | Err _ => ("", "") end.
Definition example_raw : string := (issued_texts example_policy).1.
Definition example_authority : string := (issued_texts example_policy).2.

Lemma issued_policy_verifies_witness :
  ∃ raw verified,
    @SignOfflineTrustPolicy hash_signatures any_schema 7 (List.map signer example_keys)
      (@NewKeyFromSeed hash_signatures example_seed)
    = Ok (raw, pem_text (spki_der (@ed_public hash_signatures example_seed)), verified)
    ∧ EvaluateSigned (Some verified) (key_id "signer-two----------------------") = (TrustDecisionRevoked, None).
Proof.
  destruct (@issued_policy_verifies hash_signatures hash_signatures_laws any_schema any_schema_policies 7 example_keys example_seed)
    as (raw & verified & H & _ & _ & _ & Hd & _).
  - vm_compute. reflexivity.
  - unfold MaxTrustPolicyGeneration. lia.
  - cbn. lia.
  - repeat constructor; done.
  - apply (bool_decide_unpack _). vm_compute. exact I.
  - apply (bool_decide_unpack _). vm_compute. exact I.
  - exists raw, verified. split; [exact H|]. apply (Hd ("signer-two----------------------", TrustDecisionRevoked)).
    right. left.
Defined.

Lemma signed_policy_acceptance_exact_witness :
  ∃ p publicKey payload d,
    @ParseSignedOfflineTrustPolicy hash_signatures any_schema example_raw example_authority = Ok p
    ∧ @signed_policy hash_signatures any_schema example_raw example_authority p publicKey payload d
    ∧ ∀ report, let '(result, err) := evaluateSignedOfflineTrustPolicy report (Some p) 5 in
        (err = None ↔ 1 <= 5 <= p2_Generation d
           ∧ {| pk_KeyID := rp_SignerKeyID report; pk_Status := trustKeyStatusTrusted |} ∈ p2_Keys d)
        ∧ (rp_TrustDecision result = "accepted" ↔ err = None).
Proof.
  assert (match @ParseSignedOfflineTrustPolicy hash_signatures any_schema example_raw example_authority with
          | Ok _ => true | Err _ => false end = true) as H by (vm_compute; reflexivity).
  revert H. destruct (@ParseSignedOfflineTrustPolicy hash_signatures any_schema example_raw example_authority) as [p|] eqn:E;
    intros H; [|discriminate H].
  destruct (@signed_policy_acceptance_exact hash_signatures any_schema example_raw example_authority p) as [[Hp _] Hd].
  destruct (Hp E) as (publicKey & payload & d & Hs). exists p, publicKey, payload, d.
  split; [reflexivity|]. split; [exact Hs|]. intros report. specialize (Hd _ _ _ report 5 Hs ltac:(lia)).
  destruct (evaluateSignedOfflineTrustPolicy report (Some p) 5) as [result err].
  split; [exact (proj1 Hd)|exact (proj1 (proj2 Hd))].
Defined.
