(* ===== verification/TransitionWalk.v ===== *)
(** * Chains of authority transitions: the loop over the hops

    The attestation package and the release index verify a chain of transitions
    by the same loop, each with its own transition.  Here is the loop, for any
    decoder and any way to verify one hop, with what it establishes: the hops
    are links of which each is signed by the key before it. *)

From S2P Require Import Prelude Sha256 Json StructuredJson JsonUnmarshal SemanticEqual GoValue CanonicalJson GoStruct Base64 Dsse.

Local Open Scope Z_scope.

Definition maxTransitionEnvelopeBytes : Z := 32 * 2 ^ 10.

(** ** The loop over the hops *)

Record chain_hop := { hop_TransitionEnvelope : string; hop_NextAuthoritySPKI : string }.
Definition hop_type : ty := TStruct [("transitionEnvelope", TString); ("nextAuthoritySpkiPem", TString)].
Definition hop_of (v : value) : chain_hop :=
  {| hop_TransitionEnvelope := text_of (member v 0); hop_NextAuthoritySPKI := text_of (member v 1) |}.
Definition hop_value (h : chain_hop) : value := GStruct [GStr (hop_TransitionEnvelope h); GStr (hop_NextAuthoritySPKI h)].

(** What the loop carries; [ws_ids] are the authorities met, root first, and
    stand for the map [seen] too. *)
Record walk_state := { ws_ids : list string; ws_currentSPKI : string; ws_previousGeneration : Z }.

Section Walk.
(** The parser of a public key, the base64 decoder, and the generation of a
    verified transition. *)
Variable parse : string → option (string * string).
Variable decode : string → Z → option string.
Variable verify : string → string → string → option Z.

Definition walk_hop (st : walk_state) (h : chain_hop) : option walk_state :=
  let? envelopeRaw := decode (hop_TransitionEnvelope h) maxTransitionEnvelopeBytes in
  let? nextSPKI := decode (hop_NextAuthoritySPKI h) MaxPublicKeyBytes in
  let? (_, nextDER) := parse nextSPKI in
  let nextID := digestBytes nextDER in
  if existsb (String.eqb nextID) (ws_ids st) then None
  else
    let? generation := verify envelopeRaw (ws_currentSPKI st) nextSPKI in
    if generation <=? ws_previousGeneration st then None
    else Some {| ws_ids := ws_ids st ++ [nextID]; ws_currentSPKI := nextSPKI; ws_previousGeneration := generation |}.

Fixpoint walk (st : walk_state) (hops : list chain_hop) : option walk_state :=
  match hops with
  | [] => Some st
  | h :: rest => let? st := walk_hop st h in walk st rest
  end.
End Walk.

Lemma hops_shaped l : Forall (shaped hop_type) l → List.map hop_value (List.map hop_of l) = l.
Proof.
  induction 1 as [|v l Hv _ IH]; [done|]. cbn [List.map]. rewrite IH. f_equal. unfold hop_type in Hv. inv_shaped.
  cbn [snd] in *. inv_shaped. done.
Qed.

(** ** Links *)

(** A link: the envelope, the key it authorizes and its generation. *)
Record link := { ln_envelope : string; ln_key : string; ln_generation : Z }.
Definition link_hop (l : link) : chain_hop :=
  {| hop_TransitionEnvelope := EncodeToString (ln_envelope l);
     hop_NextAuthoritySPKI := EncodeToString (pem_text (spki_der (ln_key l))) |}.

Definition maxTransitionGeneration : Z := 9007199254740991.

Section Links.
(** [signed key next generation envelope]: the key authorizes the next one. *)
Variable signed : string → string → Z → string → Prop.

(** Every link is signed by the key before it, with a greater generation. *)
Fixpoint linked (key : string) (generation : Z) (links : list link) : Prop :=
  match links with
  | [] => True
  | l :: rest =>
      slen (ln_key l) = 32%nat ∧ generation < ln_generation l <= maxTransitionGeneration
      ∧ signed key (ln_key l) (ln_generation l) (ln_envelope l) ∧ linked (ln_key l) (ln_generation l) rest
  end.

Definition link_ids (links : list link) : list string := List.map (λ l, key_id (ln_key l)) links.
Definition last_key (root : string) (links : list link) : string := List.last (List.map ln_key links) root.
Definition last_generation (links : list link) : Z := List.last (List.map ln_generation links) 0.

Lemma existsb_seen id ids : existsb (String.eqb id) ids = false ↔ id ∉ ids.
Proof.
  rewrite <- not_true_iff_false, existsb_exists. split; intros H Hin; apply H.
  - exists id. split; [by apply list_elem_of_In|apply string_eqb_refl].
  - destruct Hin as (x & Hx & E). apply String.eqb_eq in E as ->. by apply list_elem_of_In.
Qed.

Lemma last_cons {A} (x d : A) l : List.last (x :: l) d = List.last l x.
Proof.
  revert x d. induction l as [|y l IH]; intros x d; [done|].
  change (List.last (y :: l) d = List.last (y :: l) x). by rewrite !IH.
Qed.

Lemma last_in {A} (l : list A) d : l ≠ [] → List.last l d ∈ l.
Proof.
  revert d. induction l as [|x l IH]; intros d; [done|]. intros _. rewrite last_cons. destruct l as [|y l]; [left|].
  right. by apply IH.
Qed.

Lemma last_id root links : key_id (last_key root links) = List.last (link_ids links) (key_id root).
Proof.
  revert root. induction links as [|l links IH]; intros root; [done|]. unfold last_key, link_ids in *. cbn [List.map].
  rewrite !last_cons. apply IH.
Qed.

Variable parse : string → option (string * string).
Variable decode : string → Z → option string.
Variable verify : string → string → string → option Z.
Hypothesis parse_ok : ∀ raw public der,
  parse raw = Some (public, der) → slen public = 32%nat ∧ der = spki_der public ∧ raw = pem_text der.
Hypothesis decode_ok : ∀ e m r, decode e m = Some r → e = EncodeToString r.
Hypothesis verify_ok : ∀ envelope key next generation,
  verify envelope (pem_text (spki_der key)) (pem_text (spki_der next)) = Some generation →
  generation <= maxTransitionGeneration ∧ signed key next generation envelope.

Lemma walk_sound key g ids hops st :
  slen key = 32%nat → NoDup ids →
  walk parse decode verify {| ws_ids := ids; ws_currentSPKI := pem_text (spki_der key); ws_previousGeneration := g |} hops = Some st →
  ∃ links, hops = List.map link_hop links ∧ linked key g links ∧ NoDup (ids ++ link_ids links)
    ∧ ws_ids st = ids ++ link_ids links ∧ ws_currentSPKI st = pem_text (spki_der (last_key key links))
    ∧ ws_previousGeneration st = List.last (List.map ln_generation links) g ∧ slen (last_key key links) = 32%nat.
Proof.
  revert key g ids. induction hops as [|h hops IH]; intros key g ids Hk Hnd; cbn [walk].
  { intros [= <-]. exists []. cbn. rewrite app_nil_r. by split_and!. }
  unfold walk_hop at 1. destruct (decode (hop_TransitionEnvelope h) _) as [env|] eqn:Ee; [|done]. cbn [mbind option_bind].
  destruct (decode (hop_NextAuthoritySPKI h) _) as [next|] eqn:En; [|done]. cbn [mbind option_bind].
  apply decode_ok in Ee, En.
  destruct (parse next) as [[nk nder]|] eqn:Ep; [|done]. cbn [mbind option_bind ws_ids ws_currentSPKI ws_previousGeneration].
  destruct (existsb _ ids) eqn:Es; [done|]. rewrite existsb_seen in Es.
  apply parse_ok in Ep as (Hnl & -> & ->).
  destruct (verify env (pem_text (spki_der key)) (pem_text (spki_der nk))) as [gen|] eqn:Ev; [|done]. cbn [mbind option_bind].
  destruct (Z.leb_spec gen g); [done|]. cbn [mbind option_bind]. intros Hw. apply verify_ok in Ev as [Hg Hs].
  destruct (IH nk gen (ids ++ [key_id nk])) as (links & -> & Hl & Hn' & Hi & Hc & Hpg & H32); [done| |exact Hw|].
  { apply NoDup_app. split_and!; [done| |by apply NoDup_singleton]. intros x Hx ->%list_elem_of_singleton. done. }
  exists ({| ln_envelope := env; ln_key := nk; ln_generation := gen |} :: links).
  rewrite <- app_assoc in Hn', Hi. cbn [List.map linked ln_key ln_generation ln_envelope link_ids app].
  unfold last_key in *. cbn [List.map ln_key]. rewrite !last_cons.
  split_and!; try done; try lia. destruct h as [a b]. cbn [hop_TransitionEnvelope hop_NextAuthoritySPKI] in *. by subst.
Qed.

Hypothesis parse_text : ∀ public,
  slen public = 32%nat → parse (pem_text (spki_der public)) = Some (public, spki_der public).
Hypothesis decode_complete : ∀ r m, 1 <= zlen r <= m → decode (EncodeToString r) m = Some r.
Hypothesis verify_complete : ∀ key next generation envelope,
  slen key = 32%nat → slen next = 32%nat → key_id key ≠ key_id next → 1 <= generation <= maxTransitionGeneration →
  signed key next generation envelope → verify envelope (pem_text (spki_der key)) (pem_text (spki_der next)) = Some generation.
Hypothesis signed_size : ∀ key next generation envelope,
  1 <= generation <= maxTransitionGeneration → signed key next generation envelope → 1 <= zlen envelope <= maxTransitionEnvelopeBytes.

Lemma walk_complete key g ids links :
  slen key = 32%nat → 0 <= g → linked key g links → key_id key ∈ ids → NoDup (ids ++ link_ids links) →
  walk parse decode verify {| ws_ids := ids; ws_currentSPKI := pem_text (spki_der key); ws_previousGeneration := g |} (List.map link_hop links)
  = Some {| ws_ids := ids ++ link_ids links; ws_currentSPKI := pem_text (spki_der (last_key key links));
            ws_previousGeneration := List.last (List.map ln_generation links) g |}.
Proof.
  revert key g ids. induction links as [|l links IH]; intros key g ids Hk Hg Hl Hin Hnd.
  { cbn. by rewrite app_nil_r. }
  destruct Hl as (Hnk & Hgen & Hs & Hrest). pose proof (signed_size key (ln_key l) (ln_generation l) (ln_envelope l) ltac:(lia) Hs) as He.
  cbn [List.map walk]. unfold walk_hop at 1. cbn [link_hop hop_TransitionEnvelope hop_NextAuthoritySPKI].
  rewrite (decode_complete (ln_envelope l)) by done. cbn [mbind option_bind].
  rewrite (decode_complete (pem_text (spki_der (ln_key l)))) by (rewrite spki_size by done; unfold MaxPublicKeyBytes; lia). cbn [mbind option_bind].
  rewrite parse_text by done. cbn [mbind option_bind ws_ids ws_currentSPKI ws_previousGeneration].
  change (digestBytes (spki_der (ln_key l))) with (key_id (ln_key l)). cbn [link_ids List.map] in Hnd. fold (link_ids links) in Hnd.
  rewrite cons_middle, app_assoc in Hnd. pose proof Hnd as Hnd'. apply NoDup_app in Hnd' as (Hnd' & _ & _).
  assert (key_id (ln_key l) ∉ ids) as Hni.
  { apply NoDup_app in Hnd' as (_ & Hd & _). intros Hx. apply (Hd _ Hx). by apply list_elem_of_singleton. }
  rewrite (proj2 (existsb_seen _ _) Hni), (verify_complete key (ln_key l) (ln_generation l)) by
    (done || lia || (intros Heq; apply Hni; by rewrite <- Heq)).
  cbn [mbind option_bind]. rewrite (proj2 (Z.leb_gt _ _)) by lia. cbn [mbind option_bind].
  rewrite IH; [|done|lia|done|apply elem_of_app; right; by apply list_elem_of_singleton|done].
  unfold last_key. cbn [List.map]. rewrite !last_cons, <- app_assoc. done.
Qed.
End Links.
