(* ===== verification/AuthorityTransition.v ===== *)
(** * Rotation of the policy authority (internal/attestation)

    One transition, signed by the previous authority and naming the next one
    ([offline_trust_policy_authority_transition.go]), and the chain of two to
    eight transitions from an explicit root to an explicit terminal key
    ([offline_trust_policy_authority_transition_chain.go]). *)

From S2P Require Import Prelude Sha256 Json StructuredJson JsonUnmarshal SemanticEqual GoValue CanonicalJson GoStruct Base64 Dsse TrustPolicy TransitionWalk.

Local Open Scope Z_scope.

Definition OfflineTrustPolicyAuthorityTransitionPurpose := "offline-trust-policy-authority-rotation".
Definition OfflineTrustPolicyAuthorityTransitionPayloadType :=
  "application/vnd.repopass.offline-trust-policy-authority-transition.v1+json".
Definition MaxOfflineTrustPolicyAuthorityTransitionPayloadBytes : Z := 16 * 2 ^ 10.
Definition MaxOfflineTrustPolicyAuthorityTransitionEnvelopeBytes : Z := 32 * 2 ^ 10.
Definition OfflineTrustPolicyAuthorityTransitionChainPurpose := "offline-trust-policy-authority-rotation-chain".
Definition OfflineTrustPolicyAuthorityTransitionChainMinHops : nat := 2.
Definition OfflineTrustPolicyAuthorityTransitionChainMaxHops : nat := 8.
Definition MaxOfflineTrustPolicyAuthorityTransitionChainBytes : Z := 256 * 2 ^ 10.
Definition offlineTrustPolicyAuthorityTransitionChainDigestTag : string :=
  "repopass.offline-trust-policy-authority-transition-chain.v1" +:+ String (byte_of 0) "".

Inductive transition_error :=
  | ErrOfflineTrustPolicyAuthorityTransitionInvalid
  | ErrOfflineTrustPolicyAuthorityTransitionSigningFailed
  | ErrOfflineTrustPolicyAuthorityTransitionChainInvalid.

(** ** One transition *)

Record OfflineTrustPolicyAuthorityTransition := {
  at_SchemaVersion : string; at_Purpose : string; at_PolicyPayloadType : string; at_Generation : Z;
  at_KeyAlgorithm : string; at_KeyIDAlgorithm : string; at_PreviousAuthorityKeyID : string; at_NextAuthorityKeyID : string
}.

Definition transition_type : ty :=
  TStruct [("schemaVersion", TString); ("purpose", TString); ("policyPayloadType", TString); ("generation", TUint64);
           ("keyAlgorithm", TString); ("keyIdAlgorithm", TString); ("previousAuthorityKeyId", TString);
           ("nextAuthorityKeyId", TString)].
Definition transition_of (v : value) : OfflineTrustPolicyAuthorityTransition :=
  {| at_SchemaVersion := text_of (member v 0); at_Purpose := text_of (member v 1); at_PolicyPayloadType := text_of (member v 2);
     at_Generation := uint_of (member v 3); at_KeyAlgorithm := text_of (member v 4); at_KeyIDAlgorithm := text_of (member v 5);
     at_PreviousAuthorityKeyID := text_of (member v 6); at_NextAuthorityKeyID := text_of (member v 7) |}.
Definition transition_value (t : OfflineTrustPolicyAuthorityTransition) : value :=
  GStruct [GStr (at_SchemaVersion t); GStr (at_Purpose t); GStr (at_PolicyPayloadType t); GUint (at_Generation t);
           GStr (at_KeyAlgorithm t); GStr (at_KeyIDAlgorithm t); GStr (at_PreviousAuthorityKeyID t);
           GStr (at_NextAuthorityKeyID t)].

Record VerifiedOfflineTrustPolicyAuthorityTransition := {
  vt_transition : OfflineTrustPolicyAuthorityTransition; vt_payloadDigest : string; vt_envelopeDigest : string
}.

Definition validateOfflineTrustPolicyAuthorityTransition (t : OfflineTrustPolicyAuthorityTransition) : bool :=
  negb ((at_SchemaVersion t !=s "1") || (at_Purpose t !=s OfflineTrustPolicyAuthorityTransitionPurpose)
        || (at_PolicyPayloadType t !=s SignedOfflineTrustPolicyPayloadType) || (at_Generation t =? 0)
        || (MaxTrustPolicyGeneration <? at_Generation t) || (at_KeyAlgorithm t !=s "ed25519")
        || (at_KeyIDAlgorithm t !=s "spki-sha256") || negb (validKeyID (at_PreviousAuthorityKeyID t))
        || negb (validKeyID (at_NextAuthorityKeyID t)) || (at_PreviousAuthorityKeyID t =s at_NextAuthorityKeyID t)).

Section Transitions.
Context `{ED : Ed25519} `{SE : SchemaEngine}.

Definition ParseOfflineTrustPolicyAuthorityTransitionPayload (raw : string)
  : result transition_error OfflineTrustPolicyAuthorityTransition :=
  let invalid := ErrOfflineTrustPolicyAuthorityTransitionInvalid in
  fail_if ((slen raw =? 0)%nat || (MaxOfflineTrustPolicyAuthorityTransitionPayloadBytes <? zlen raw)
           || has_carriage_return raw || has_byte_order_mark raw
           || negb (validateDerivedSchemaJSON raw (16 * 2 ^ 10) 8 64 "offline-trust-policy-authority-transition-v1.schema.json"))
    with invalid ;;
  match decodeCanonicalJSON raw MaxOfflineTrustPolicyAuthorityTransitionPayloadBytes transition_type with
  | None => Err invalid
  | Some v =>
      fail_if (negb (validateOfflineTrustPolicyAuthorityTransition (transition_of v))) with invalid ;;
      Ok (transition_of v)
  end.

Definition ValidateOfflineTrustPolicyAuthorityTransitionKeyPair (previousAuthoritySPKI nextAuthoritySPKI : string)
  : option transition_error :=
  match parsePublicKey previousAuthoritySPKI, parsePublicKey nextAuthoritySPKI with
  | Some (_, previousDER), Some (_, nextDER) =>
      if previousDER =s nextDER then Some ErrOfflineTrustPolicyAuthorityTransitionInvalid else None
  | _, _ => Some ErrOfflineTrustPolicyAuthorityTransitionInvalid
  end.

Definition VerifyOfflineTrustPolicyAuthorityTransition (envelopeRaw previousAuthoritySPKI nextAuthoritySPKI : string)
  (minimumGeneration : Z) : result transition_error VerifiedOfflineTrustPolicyAuthorityTransition :=
  let invalid := ErrOfflineTrustPolicyAuthorityTransitionInvalid in
  fail_if ((minimumGeneration =? 0) || (MaxTrustPolicyGeneration <? minimumGeneration) || (slen envelopeRaw =? 0)%nat
           || (MaxOfflineTrustPolicyAuthorityTransitionEnvelopeBytes <? zlen envelopeRaw)
           || has_carriage_return envelopeRaw || has_byte_order_mark envelopeRaw) with invalid ;;
  let! (previousPublic, previousDER) := of_option invalid (parsePublicKey previousAuthoritySPKI) in
  let! (_, nextDER) := of_option invalid (parsePublicKey nextAuthoritySPKI) in
  let previousID := digestBytes previousDER in
  let nextID := digestBytes nextDER in
  fail_if ((previousID =s nextID)
           || negb (validateDerivedSchemaJSON envelopeRaw (32 * 2 ^ 10) 8 64
                      "offline-trust-policy-authority-transition-envelope-v1.schema.json")) with invalid ;;
  let! payload := of_option invalid
    (authenticate envelopeRaw OfflineTrustPolicyAuthorityTransitionPayloadType
       MaxOfflineTrustPolicyAuthorityTransitionEnvelopeBytes MaxOfflineTrustPolicyAuthorityTransitionPayloadBytes
       previousPublic previousDER) in
  let! transition := ParseOfflineTrustPolicyAuthorityTransitionPayload payload in
  fail_if ((at_PreviousAuthorityKeyID transition !=s previousID) || (at_NextAuthorityKeyID transition !=s nextID)
           || (at_Generation transition <? minimumGeneration)) with invalid ;;
  Ok {| vt_transition := transition; vt_payloadDigest := digestBytes payload; vt_envelopeDigest := digestBytes envelopeRaw |}.

(** The transition the issuer signs, and its canonical payload. *)
Definition transition_document (generation : Z) (previousID nextID : string) : OfflineTrustPolicyAuthorityTransition :=
  {| at_SchemaVersion := "1"; at_Purpose := OfflineTrustPolicyAuthorityTransitionPurpose;
     at_PolicyPayloadType := SignedOfflineTrustPolicyPayloadType; at_Generation := generation; at_KeyAlgorithm := "ed25519";
     at_KeyIDAlgorithm := "spki-sha256"; at_PreviousAuthorityKeyID := previousID; at_NextAuthorityKeyID := nextID |}.
Definition transition_payload (generation : Z) (previousID nextID : string) : string :=
  encode (doc_of transition_type (transition_value (transition_document generation previousID nextID))).

Definition SignOfflineTrustPolicyAuthorityTransition (nextAuthoritySPKI : string) (generation : Z) (previousAuthority : string)
  : result transition_error (string * string * VerifiedOfflineTrustPolicyAuthorityTransition) :=
  let failed := ErrOfflineTrustPolicyAuthorityTransitionSigningFailed in
  fail_if ((generation =? 0) || (MaxTrustPolicyGeneration <? generation)
           || negb (slen previousAuthority =? PrivateKeySize)%nat) with failed ;;
  let seed := take_string SeedSize previousAuthority in
  fail_if (previousAuthority !=s NewKeyFromSeed seed) with failed ;;
  let previousPublic := ed_public seed in
  fail_if (negb (slen previousPublic =? PublicKeySize)%nat) with failed ;;
  let! (previousAuthoritySPKI, previousDER) := of_option failed (marshalPublicKey previousPublic) in
  let! (_, nextDER) := of_option failed (parsePublicKey nextAuthoritySPKI) in
  let previousID := digestBytes previousDER in
  let nextID := digestBytes nextDER in
  fail_if (previousID =s nextID) with failed ;;
  let payload := transition_payload generation previousID nextID in
  fail_if (MaxOfflineTrustPolicyAuthorityTransitionPayloadBytes <? zlen payload) with failed ;;
  let! parsed := map_err (λ _, failed) (ParseOfflineTrustPolicyAuthorityTransitionPayload payload) in
  fail_if (negb (at_Generation parsed =? generation) || (at_PreviousAuthorityKeyID parsed !=s previousID)
           || (at_NextAuthorityKeyID parsed !=s nextID)) with failed ;;
  let envelopeRaw := sign_envelope seed OfflineTrustPolicyAuthorityTransitionPayloadType payload previousID in
  fail_if (MaxOfflineTrustPolicyAuthorityTransitionEnvelopeBytes <? zlen envelopeRaw) with failed ;;
  let! verified := map_err (λ _, failed)
    (VerifyOfflineTrustPolicyAuthorityTransition envelopeRaw previousAuthoritySPKI nextAuthoritySPKI generation) in
  let t := vt_transition verified in
  fail_if (negb (at_Generation t =? generation) || (at_PreviousAuthorityKeyID t !=s previousID)
           || (at_NextAuthorityKeyID t !=s nextID) || (vt_payloadDigest verified !=s digestBytes payload)
           || (vt_envelopeDigest verified !=s digestBytes envelopeRaw)) with failed ;;
  Ok (envelopeRaw, previousAuthoritySPKI, verified).

(** ** Chains *)

Record OfflineTrustPolicyAuthorityTransitionChain := {
  ch_SchemaVersion : string; ch_Purpose : string; ch_PolicyPayloadType : string; ch_Hops : list chain_hop
}.
Definition chain_type : ty :=
  TStruct [("schemaVersion", TString); ("purpose", TString); ("policyPayloadType", TString); ("hops", TSlice hop_type)].
Definition chain_of (v : value) : OfflineTrustPolicyAuthorityTransitionChain :=
  {| ch_SchemaVersion := text_of (member v 0); ch_Purpose := text_of (member v 1); ch_PolicyPayloadType := text_of (member v 2);
     ch_Hops := List.map hop_of (elements_of (member v 3)) |}.
Definition chain_value (c : OfflineTrustPolicyAuthorityTransitionChain) : value :=
  GStruct [GStr (ch_SchemaVersion c); GStr (ch_Purpose c); GStr (ch_PolicyPayloadType c);
           GSlice (Some (List.map hop_value (ch_Hops c))) []].

Record VerifiedOfflineTrustPolicyAuthorityTransitionChain := {
  vc_rootAuthorityKeyID : string; vc_terminalAuthorityKeyID : string; vc_terminalGeneration : Z; vc_hopCount : nat;
  vc_digest : string; vc_authorityKeyIDs : list string
}.

Definition validateOfflineTrustPolicyAuthorityTransitionChain (c : OfflineTrustPolicyAuthorityTransitionChain) : bool :=
  negb ((ch_SchemaVersion c !=s "1") || (ch_Purpose c !=s OfflineTrustPolicyAuthorityTransitionChainPurpose)
        || (ch_PolicyPayloadType c !=s SignedOfflineTrustPolicyPayloadType)
        || (length (ch_Hops c) <? OfflineTrustPolicyAuthorityTransitionChainMinHops)%nat
        || (OfflineTrustPolicyAuthorityTransitionChainMaxHops <? length (ch_Hops c))%nat).

Definition decodeOfflineTrustPolicyAuthorityTransitionChainBase64 (encoded : string) (maximum : Z) : option string :=
  if (encoded =s "") || (EncodedLen maximum <? zlen encoded) then None
  else
    let? raw := DecodeString encoded in
    if (slen raw =? 0)%nat || (maximum <? zlen raw) || (EncodeToString raw !=s encoded) then None else Some raw.

Definition verify_hop (envelopeRaw currentSPKI nextSPKI : string) : option Z :=
  match VerifyOfflineTrustPolicyAuthorityTransition envelopeRaw currentSPKI nextSPKI 1 with
  | Ok verified => Some (at_Generation (vt_transition verified))
  | Err _ => None
  end.

Definition VerifyOfflineTrustPolicyAuthorityTransitionChain (raw explicitRootSPKI explicitTerminalSPKI : string)
  (minimumGeneration : Z) : result transition_error VerifiedOfflineTrustPolicyAuthorityTransitionChain :=
  let invalid := ErrOfflineTrustPolicyAuthorityTransitionChainInvalid in
  fail_if ((minimumGeneration =? 0) || (MaxTrustPolicyGeneration <? minimumGeneration) || (slen raw =? 0)%nat
           || (MaxOfflineTrustPolicyAuthorityTransitionChainBytes <? zlen raw)
           || has_carriage_return raw || has_byte_order_mark raw
           || negb (validateDerivedSchemaJSON raw (256 * 2 ^ 10) 8 64
                      "offline-trust-policy-authority-transition-chain-v1.schema.json")) with invalid ;;
  let! v := of_option invalid (decodeCanonicalJSON raw MaxOfflineTrustPolicyAuthorityTransitionChainBytes chain_type) in
  let chain := chain_of v in
  fail_if (negb (validateOfflineTrustPolicyAuthorityTransitionChain chain)) with invalid ;;
  let! (_, rootDER) := of_option invalid (parsePublicKey explicitRootSPKI) in
  let! (_, terminalDER) := of_option invalid (parsePublicKey explicitTerminalSPKI) in
  let rootID := digestBytes rootDER in
  let terminalID := digestBytes terminalDER in
  fail_if (rootID =s terminalID) with invalid ;;
  let! st := of_option invalid
    (walk parsePublicKey decodeOfflineTrustPolicyAuthorityTransitionChainBase64 verify_hop
       {| ws_ids := [rootID]; ws_currentSPKI := explicitRootSPKI; ws_previousGeneration := 0 |} (ch_Hops chain)) in
  fail_if ((ws_previousGeneration st <? minimumGeneration) || (ws_currentSPKI st !=s explicitTerminalSPKI)) with invalid ;;
  Ok {| vc_rootAuthorityKeyID := rootID; vc_terminalAuthorityKeyID := terminalID;
        vc_terminalGeneration := ws_previousGeneration st; vc_hopCount := length (ch_Hops chain);
        vc_digest := digestBytes (offlineTrustPolicyAuthorityTransitionChainDigestTag +:+ raw);
        vc_authorityKeyIDs := ws_ids st |}.

(** The loop over the authoring inputs. *)
Fixpoint chain_hops (hopEnvelopes hopNextAuthoritySPKIs : list string) : option (list chain_hop) :=
  match hopEnvelopes, hopNextAuthoritySPKIs with
  | envelope :: envelopes, next :: nexts =>
      if (slen envelope =? 0)%nat || (MaxOfflineTrustPolicyAuthorityTransitionEnvelopeBytes <? zlen envelope)
         || (slen next =? 0)%nat || (MaxPublicKeyBytes <? zlen next) then None
      else
        let? rest := chain_hops envelopes nexts in
        Some ({| hop_TransitionEnvelope := EncodeToString envelope; hop_NextAuthoritySPKI := EncodeToString next |} :: rest)
  | _, _ => Some []
  end.

Definition chain_document (hops : list chain_hop) : OfflineTrustPolicyAuthorityTransitionChain :=
  {| ch_SchemaVersion := "1"; ch_Purpose := OfflineTrustPolicyAuthorityTransitionChainPurpose;
     ch_PolicyPayloadType := SignedOfflineTrustPolicyPayloadType; ch_Hops := hops |}.
Definition chain_text (hops : list chain_hop) : string := encode (doc_of chain_type (chain_value (chain_document hops))).

Definition BuildOfflineTrustPolicyAuthorityTransitionChain (hopEnvelopes hopNextAuthoritySPKIs : list string)
  (explicitRootSPKI : string) : result transition_error string :=
  let invalid := ErrOfflineTrustPolicyAuthorityTransitionChainInvalid in
  fail_if ((length hopEnvelopes <? OfflineTrustPolicyAuthorityTransitionChainMinHops)%nat
           || (OfflineTrustPolicyAuthorityTransitionChainMaxHops <? length hopEnvelopes)%nat
           || negb (length hopEnvelopes =? length hopNextAuthoritySPKIs)%nat) with invalid ;;
  let! hops := of_option invalid (chain_hops hopEnvelopes hopNextAuthoritySPKIs) in
  let raw := chain_text hops in
  fail_if (MaxOfflineTrustPolicyAuthorityTransitionChainBytes <? zlen raw) with invalid ;;
  let! _ := map_err (λ _, invalid)
    (VerifyOfflineTrustPolicyAuthorityTransitionChain raw explicitRootSPKI (List.last hopNextAuthoritySPKIs "") 1) in
  Ok raw.
End Transitions.

(** ** What a verified transition is *)

Section Sound.
Context `{ED : Ed25519} `{SE : SchemaEngine}.

(** An envelope in which the previous key names the next one. *)
Definition signed_transition (previousKey nextKey : string) (generation : Z) (envelope : string) : Prop :=
  let payload := transition_payload generation (key_id previousKey) (key_id nextKey) in
  ∃ sig, slen sig = 64%nat
    ∧ ed_verify previousKey (pae OfflineTrustPolicyAuthorityTransitionPayloadType payload) sig = true
    ∧ envelope = policy_envelope OfflineTrustPolicyAuthorityTransitionPayloadType payload previousKey sig.

Lemma parse_transition_sound raw t :
  ParseOfflineTrustPolicyAuthorityTransitionPayload raw = Ok t →
  1 <= at_Generation t <= MaxTrustPolicyGeneration
  ∧ raw = transition_payload (at_Generation t) (at_PreviousAuthorityKeyID t) (at_NextAuthorityKeyID t)
  ∧ t = transition_document (at_Generation t) (at_PreviousAuthorityKeyID t) (at_NextAuthorityKeyID t)
  ∧ validKeyID (at_PreviousAuthorityKeyID t) = true ∧ validKeyID (at_NextAuthorityKeyID t) = true
  ∧ at_PreviousAuthorityKeyID t ≠ at_NextAuthorityKeyID t.
Proof.
  unfold ParseOfflineTrustPolicyAuthorityTransitionPayload. destruct (_ || _ || _ || _ || _); [done|].
  destruct (decodeCanonicalJSON _ _ _) as [v|] eqn:E; [|done]. apply canonical_json_sound in E as (Hraw & _ & Hsh); [|done].
  destruct (validateOfflineTrustPolicyAuthorityTransition (transition_of v)) eqn:Ev; [|done]. cbn [negb]. intros [= <-].
  unfold validateOfflineTrustPolicyAuthorityTransition in Ev. apply negb_true_iff in Ev. to_prop.
  unfold transition_type in Hsh. inv_shaped. cbn [snd] in *. inv_shaped.
  unfold transition_of in *. cbn [member nth text_of uint_of at_SchemaVersion at_Purpose at_PolicyPayloadType at_Generation
    at_KeyAlgorithm at_KeyIDAlgorithm at_PreviousAuthorityKeyID at_NextAuthorityKeyID] in *. subst.
  split_and!; try done. lia.
Qed.

Lemma verify_transition_sound raw previousSPKI nextSPKI minimum v :
  VerifyOfflineTrustPolicyAuthorityTransition raw previousSPKI nextSPKI minimum = Ok v →
  ∃ previousKey nextKey, slen previousKey = 32%nat ∧ slen nextKey = 32%nat
    ∧ previousSPKI = pem_text (spki_der previousKey) ∧ nextSPKI = pem_text (spki_der nextKey)
    ∧ key_id previousKey ≠ key_id nextKey
    ∧ minimum <= at_Generation (vt_transition v) <= MaxTrustPolicyGeneration
    ∧ signed_transition previousKey nextKey (at_Generation (vt_transition v)) raw
    ∧ vt_transition v = transition_document (at_Generation (vt_transition v)) (key_id previousKey) (key_id nextKey)
    ∧ vt_envelopeDigest v = digestBytes raw.
Proof.
  unfold VerifyOfflineTrustPolicyAuthorityTransition. destruct (_ || _ || _ || _ || _ || _); [done|].
  destruct (parsePublicKey previousSPKI) as [[pk pder]|] eqn:Ep; [|done].
  destruct (parsePublicKey nextSPKI) as [[nk nder]|] eqn:En; [|done]. cbn [of_option bind_result].
  apply parsePublicKey_ok in Ep as (Hpl & -> & Hp). apply parsePublicKey_ok in En as (Hnl & -> & Hn).
  destruct (String.eqb_spec (digestBytes (spki_der pk)) (digestBytes (spki_der nk))) as [|Hne]; [done|]. cbn [orb].
  destruct (negb _); [done|]. destruct (authenticate _ _ _ _ _ _) as [payload|] eqn:Ea; [|done]. cbn [of_option bind_result].
  apply authenticate_sound in Ea as (_ & sig & Hsl & Hsig & Hraw).
  destruct (ParseOfflineTrustPolicyAuthorityTransitionPayload payload) as [t|] eqn:Et; [|done]. cbn [bind_result].
  apply parse_transition_sound in Et as (Hg & Hpay & Ht & _ & _ & _).
  destruct (String.eqb_spec (at_PreviousAuthorityKeyID t) (digestBytes (spki_der pk))) as [Hpid|]; [|done].
  destruct (String.eqb_spec (at_NextAuthorityKeyID t) (digestBytes (spki_der nk))) as [Hnid|]; [|done]. cbn [negb orb].
  destruct (Z.ltb_spec (at_Generation t) minimum); [done|]. intros [= <-].
  cbn [vt_transition vt_envelopeDigest]. exists pk, nk. rewrite Hpid, Hnid in Hpay, Ht.
  split_and!; first [assumption|lia|reflexivity|idtac].
  exists sig. change (key_id pk) with (digestBytes (spki_der pk)). change (key_id nk) with (digestBytes (spki_der nk)).
  rewrite <- Hpay. split_and!; done.
Qed.

Lemma chain_base64_sound encoded maximum raw :
  decodeOfflineTrustPolicyAuthorityTransitionChainBase64 encoded maximum = Some raw →
  encoded = EncodeToString raw ∧ (slen raw ≠ 0)%nat ∧ zlen raw <= maximum.
Proof.
  unfold decodeOfflineTrustPolicyAuthorityTransitionChainBase64. destruct (_ || _); [done|].
  destruct (DecodeString encoded) as [d|]; [|done]. cbn [mbind option_bind].
  destruct (Nat.eqb_spec (slen d) 0); [done|]. destruct (Z.ltb_spec maximum (zlen d)); [done|].
  destruct (String.eqb_spec (EncodeToString d) encoded) as [<-|]; [|done]. by intros [= <-].
Qed.

Lemma verify_hop_sound envelope key next generation :
  verify_hop envelope (pem_text (spki_der key)) (pem_text (spki_der next)) = Some generation →
  generation <= maxTransitionGeneration ∧ signed_transition key next generation envelope.
Proof.
  unfold verify_hop. destruct (VerifyOfflineTrustPolicyAuthorityTransition _ _ _ _) as [v|] eqn:E; [|done]. intros [= <-].
  apply verify_transition_sound in E as (pk & nk & _ & _ & Hp & Hn & _ & Hg & Hs & _).
  apply pem_text_inj, spki_der_inj in Hp as <-, Hn as <-. split; [apply Hg|exact Hs].
Qed.

Lemma chain_shape v :
  shaped chain_type v → validateOfflineTrustPolicyAuthorityTransitionChain (chain_of v) = true →
  encode (doc_of chain_type v) = chain_text (ch_Hops (chain_of v)) ∧ (2 <= length (ch_Hops (chain_of v)) <= 8)%nat.
Proof.
  unfold validateOfflineTrustPolicyAuthorityTransitionChain. intros Hsh Hv. apply negb_true_iff in Hv.
  apply orb_false_iff in Hv as [Hv H8]. apply orb_false_iff in Hv as [Hv H2]. apply Nat.ltb_ge in H8, H2.
  unfold OfflineTrustPolicyAuthorityTransitionChainMaxHops, OfflineTrustPolicyAuthorityTransitionChainMinHops in *.
  to_prop. split; [|lia]. unfold chain_type in Hsh. inv_shaped. cbn [snd] in *. inv_shaped.
  unfold chain_of in *. cbn [member nth text_of elements_of ch_SchemaVersion ch_Purpose ch_PolicyPayloadType ch_Hops] in *. subst.
  match goal with H : shaped (TSlice hop_type) _ |- _ => inversion H as [| | |t sp Hsp|t l sp Hl Hsp|]; subst; clear H end.
  - cbn in H2. lia.
  - cbn [elements_of default from_option] in *. unfold Datatypes.id in *. unfold chain_text, chain_value, chain_document.
    cbn [ch_SchemaVersion ch_Purpose ch_PolicyPayloadType ch_Hops]. by rewrite (hops_shaped l Hl).
Qed.

(** C17: A chain is accepted only if it is the canonical transport of two to
    eight links from the caller's root key to the caller's terminal key in which
    every link is signed by the key before it, under the transition payload
    type, with a strictly greater generation; no key identifier occurs twice,
    the last generation is at least the caller's minimum, and the reported
    facts are those of these links. *)
Theorem chain_authorizes_terminal raw rootSPKI terminalSPKI minimum v :
  0 <= minimum →
  VerifyOfflineTrustPolicyAuthorityTransitionChain raw rootSPKI terminalSPKI minimum = Ok v →
  ∃ root links,
    slen root = 32%nat ∧ rootSPKI = pem_text (spki_der root) ∧ terminalSPKI = pem_text (spki_der (last_key root links))
    ∧ (2 <= length links <= 8)%nat ∧ linked signed_transition root 0 links ∧ raw = chain_text (List.map link_hop links)
    ∧ NoDup (key_id root :: link_ids links) ∧ 1 <= minimum <= last_generation links
    ∧ vc_rootAuthorityKeyID v = key_id root ∧ vc_terminalAuthorityKeyID v = key_id (last_key root links)
    ∧ vc_terminalGeneration v = last_generation links ∧ vc_hopCount v = length links
    ∧ vc_authorityKeyIDs v = key_id root :: link_ids links
    ∧ vc_digest v = digestBytes (offlineTrustPolicyAuthorityTransitionChainDigestTag +:+ raw).
Proof.
  intros Hmin. unfold VerifyOfflineTrustPolicyAuthorityTransitionChain.
  destruct (Z.eqb_spec minimum 0); [done|]. cbn [orb]. destruct (_ || _ || _ || _ || _ || _); [done|].
  destruct (decodeCanonicalJSON raw _ chain_type) as [w|] eqn:Ew; [|done]. cbn [of_option bind_result]. cbv zeta.
  apply canonical_json_sound in Ew as (Hraw & _ & Hsh); [|done].
  destruct (validateOfflineTrustPolicyAuthorityTransitionChain (chain_of w)) eqn:Ev; [|done]. cbn [negb].
  destruct (chain_shape w Hsh Ev) as [Htext Hlen]. rewrite Htext in Hraw.
  destruct (parsePublicKey rootSPKI) as [[root rder]|] eqn:Er; [|done]. cbn [of_option bind_result].
  destruct (parsePublicKey terminalSPKI) as [[terminal tder]|] eqn:Et; [|done]. cbn [of_option bind_result].
  apply parsePublicKey_ok in Er as (Hrl & -> & Hr). apply parsePublicKey_ok in Et as (Htl & -> & Ht).
  destruct (digestBytes (spki_der root) =s _); [done|]. destruct (walk _ _ _ _) as [st|] eqn:Es; [|done].
  cbn [of_option bind_result]. rewrite Hr in Es.
  apply (walk_sound signed_transition) in Es;
    [|exact parsePublicKey_ok|intros e m r He; by apply chain_base64_sound in He as [? _]|exact verify_hop_sound|done|apply NoDup_singleton].
  destruct Es as (links & Hh & Hl & Hnd & Hids & Hc & Hg & _).
  destruct (Z.ltb_spec (ws_previousGeneration st) minimum); [done|].
  destruct (String.eqb_spec (ws_currentSPKI st) terminalSPKI) as [Hcur|]; [|done]. cbn [negb orb]. intros [= <-].
  cbn [vc_rootAuthorityKeyID vc_terminalAuthorityKeyID vc_terminalGeneration vc_hopCount vc_digest vc_authorityKeyIDs].
  exists root, links. rewrite Hh in Hlen, Hraw.
  assert (length (List.map hop_of (elements_of (member w 3))) = length links) as Hcount.
  { change (length (ch_Hops (chain_of w)) = length links). by rewrite Hh, length_map. }
  rewrite length_map in Hlen. rewrite Hc in Hcur.
  unfold last_generation. rewrite Hg in *. rewrite <- Hcur in Ht. apply pem_text_inj, spki_der_inj in Ht.
  split_and!; first [assumption|lia|reflexivity|idtac]; [by rewrite Hcur|]. by rewrite Ht.
Qed.
End Sound.

(** ** Signed transitions and their chains verify *)

(** The published schemas accept the documents the issuers write. *)
Class TransitionSchemas `{SE : SchemaEngine} : Prop := {
  transition_schema_accepts : ∀ generation previousID nextID,
    1 <= generation <= MaxTrustPolicyGeneration → validKeyID previousID = true → validKeyID nextID = true →
    schema_conforms "offline-trust-policy-authority-transition-v1.schema.json"
      (canon (doc_of transition_type (transition_value (transition_document generation previousID nextID)))) = true;
  transition_envelope_schema_accepts : ∀ payload keyID sig,
    1 <= zlen payload <= MaxOfflineTrustPolicyAuthorityTransitionPayloadBytes → validKeyID keyID = true → slen sig = 64%nat →
    schema_conforms "offline-trust-policy-authority-transition-envelope-v1.schema.json"
      (canon (doc_of envelope_type (one_signature OfflineTrustPolicyAuthorityTransitionPayloadType (EncodeToString payload) keyID
        (EncodeToString sig)))) = true;
  chain_schema_accepts : ∀ texts,
    (2 <= length texts <= 8)%nat →
    Forall (λ t, 1 <= zlen t.1 <= MaxOfflineTrustPolicyAuthorityTransitionEnvelopeBytes ∧ 1 <= zlen t.2 <= MaxPublicKeyBytes) texts →
    schema_conforms "offline-trust-policy-authority-transition-chain-v1.schema.json"
      (canon (doc_of chain_type (chain_value (chain_document
        (List.map (λ t, {| hop_TransitionEnvelope := EncodeToString t.1; hop_NextAuthoritySPKI := EncodeToString t.2 |}) texts))))) = true
}.

Section Complete.
Context `{ED : Ed25519} `{SE : SchemaEngine} `{!TransitionSchemas}.

Lemma transition_facts generation previousKey nextKey
    (v := transition_value (transition_document generation (key_id previousKey) (key_id nextKey))) :
  1 <= generation <= MaxTrustPolicyGeneration →
  has_type transition_type v ∧ zlen (encode (doc_of transition_type v)) <= 1024
  ∧ depth_of (doc_of transition_type v) <= 2 ∧ nodes_of (doc_of transition_type v) <= 16.
Proof.
  intros Hg. split_and!; [| |done|done].
  - unfold v, transition_value, transition_document, transition_type. cbn.
    constructor. repeat (apply Forall2_cons; split); try apply Forall2_nil_2; cbn [snd]; constructor.
    1-3, 5-6: vm_compute; reflexivity. 2-3: apply digestBytes_utf8. unfold MaxTrustPolicyGeneration in Hg. lia.
  - pose proof (encode_bound (doc_of transition_type v)) as Hb.
    enough (text_bound (doc_of transition_type v) <= 1024) by lia. clear Hb.
    pose proof (dec_Z_size generation ltac:(unfold MaxTrustPolicyGeneration in Hg; lia)) as Hd.
    unfold v, transition_value, transition_document, transition_type.
    cbn - [encode_string zlen Z.add sanitize foldr dec_Z key_id OfflineTrustPolicyAuthorityTransitionPurpose SignedOfflineTrustPolicyPayloadType].
    cbn [foldr text_bound fst snd encode]. rewrite (sanitize_valid (key_id previousKey)), (sanitize_valid (key_id nextKey)) by apply digestBytes_utf8.
    unfold key_id. rewrite !digestBytes_size. constant_sizes. lia.
Qed.

Lemma parse_transition_complete generation previousKey nextKey :
  1 <= generation <= MaxTrustPolicyGeneration → key_id previousKey ≠ key_id nextKey →
  ParseOfflineTrustPolicyAuthorityTransitionPayload (transition_payload generation (key_id previousKey) (key_id nextKey))
  = Ok (transition_document generation (key_id previousKey) (key_id nextKey)).
Proof.
  intros Hg Hne. destruct (transition_facts generation previousKey nextKey Hg) as (Ht & Hb & Hd & Hn).
  destruct (written_clean _ _ (eq_refl : ty_ok transition_type = true) Ht) as (C1 & C2 & C3). fold transition_type in C1, C2, C3.
  unfold ParseOfflineTrustPolicyAuthorityTransitionPayload, transition_payload. rewrite C1, C2, C3.
  unfold MaxOfflineTrustPolicyAuthorityTransitionPayloadBytes. rewrite (proj2 (Z.ltb_ge _ _)) by lia. cbn [orb].
  unfold transition_type in *. rewrite schema_of_written; [|done|exact Ht|lia|lia|lia|lia]. fold transition_type in *.
  rewrite transition_schema_accepts by (done || apply digest_text_shape). cbn [negb orb].
  rewrite canonical_json_complete by (done || lia).
  assert (transition_of (transition_value (transition_document generation (key_id previousKey) (key_id nextKey)))
    = transition_document generation (key_id previousKey) (key_id nextKey)) as -> by done.
  assert (validateOfflineTrustPolicyAuthorityTransition (transition_document generation (key_id previousKey) (key_id nextKey)) = true) as ->; [|done].
  unfold validateOfflineTrustPolicyAuthorityTransition, transition_document.
  cbn [at_SchemaVersion at_Purpose at_PolicyPayloadType at_Generation at_KeyAlgorithm at_KeyIDAlgorithm
    at_PreviousAuthorityKeyID at_NextAuthorityKeyID].
  rewrite !string_eqb_refl, (proj2 (Z.eqb_neq _ _)), (proj2 (Z.ltb_ge _ _)) by lia.
  apply String.eqb_neq in Hne. rewrite Hne. unfold validKeyID, key_id, digestBytes. by rewrite !digest_text_shape.
Qed.

Lemma signed_transition_size previousKey nextKey generation raw :
  1 <= generation <= MaxTrustPolicyGeneration → signed_transition previousKey nextKey generation raw →
  1 <= zlen raw <= 4096.
Proof.
  intros Hg (sig & Hs & _ & ->). destruct (transition_facts generation previousKey nextKey Hg) as (Ht & Hb & _).
  set (payload := transition_payload generation (key_id previousKey) (key_id nextKey)). change (zlen payload <= 1024) in Hb.
  destruct (envelope_sizes OfflineTrustPolicyAuthorityTransitionPayloadType payload (spki_der previousKey) sig
    ltac:(vm_compute; reflexivity) Hs) as (He & _).
  change (zlen (encode _)) with (zlen (policy_envelope OfflineTrustPolicyAuthorityTransitionPayloadType payload previousKey sig)) in He.
  change (zlen OfflineTrustPolicyAuthorityTransitionPayloadType) with 74 in He.
  assert (EncodedLen (zlen payload) <= EncodedLen 1024) as Hl.
  { unfold EncodedLen. apply Z.mul_le_mono_nonneg_r; [lia|]. apply Z.div_le_mono; lia. }
  change (EncodedLen 1024) with 1368 in Hl. split; [|lia].
  apply envelope_nonempty; vm_compute; reflexivity.
Qed.

Lemma verify_transition_complete previousKey nextKey generation raw minimum :
  slen previousKey = 32%nat → slen nextKey = 32%nat → key_id previousKey ≠ key_id nextKey →
  1 <= minimum <= generation → generation <= MaxTrustPolicyGeneration → signed_transition previousKey nextKey generation raw →
  VerifyOfflineTrustPolicyAuthorityTransition raw (pem_text (spki_der previousKey)) (pem_text (spki_der nextKey)) minimum
  = Ok {| vt_transition := transition_document generation (key_id previousKey) (key_id nextKey);
          vt_payloadDigest := digestBytes (transition_payload generation (key_id previousKey) (key_id nextKey));
          vt_envelopeDigest := digestBytes raw |}.
Proof.
  intros Hp Hn Hne Hmin Hg Hst. assert (1 <= generation <= MaxTrustPolicyGeneration) as Hg' by lia.
  pose proof (signed_transition_size _ _ _ _ Hg' Hst) as Hsize. destruct Hst as (sig & Hs & Hv & Hraw).
  destruct (transition_facts generation previousKey nextKey Hg') as (_ & Hb & _).
  set (payload := transition_payload generation (key_id previousKey) (key_id nextKey)) in *.
  change (zlen payload <= 1024) in Hb.
  destruct (envelope_clean OfflineTrustPolicyAuthorityTransitionPayloadType payload previousKey sig) as (C1 & C2 & C3);
    [vm_compute; reflexivity|].
  rewrite <- Hraw in C1, C2, C3.
  unfold VerifyOfflineTrustPolicyAuthorityTransition. rewrite C1, C2, C3.
  unfold MaxOfflineTrustPolicyAuthorityTransitionEnvelopeBytes.
  rewrite (proj2 (Z.eqb_neq _ _)), (proj2 (Z.ltb_ge MaxTrustPolicyGeneration _)), (proj2 (Z.ltb_ge (32 * 2 ^ 10) _)) by lia. cbn [orb].
  rewrite !parsePublicKey_text by done. cbn [of_option bind_result]. cbv zeta.
  change (digestBytes (spki_der previousKey)) with (key_id previousKey). change (digestBytes (spki_der nextKey)) with (key_id nextKey).
  apply String.eqb_neq in Hne as Hne'. rewrite Hne'. cbn [orb].
  assert (validateDerivedSchemaJSON raw (32 * 2 ^ 10) 8 64 "offline-trust-policy-authority-transition-envelope-v1.schema.json" = true) as ->.
  { rewrite Hraw, envelope_schema; [|vm_compute; reflexivity|rewrite <- Hraw; lia|lia|lia].
    apply transition_envelope_schema_accepts; [|apply digest_text_shape|done].
    unfold MaxOfflineTrustPolicyAuthorityTransitionPayloadBytes. split; [|lia].
    destruct (transition_facts generation previousKey nextKey Hg') as (Ht' & _).
    destruct (written_clean _ _ (eq_refl : ty_ok transition_type = true) Ht') as (Hz & _).
    apply Nat.eqb_neq in Hz. fold transition_type in Hz. unfold payload, transition_payload, zlen. lia. }
  cbn [negb]. rewrite Hraw. rewrite authenticate_signed; [|vm_compute; reflexivity| |done|done|rewrite <- Hraw; lia].
  2:{ unfold MaxOfflineTrustPolicyAuthorityTransitionPayloadBytes. lia. }
  cbn [of_option bind_result]. unfold payload at 1. rewrite parse_transition_complete by done. cbn [bind_result].
  cbn [transition_document at_PreviousAuthorityKeyID at_NextAuthorityKeyID at_Generation]. rewrite !string_eqb_refl. cbn [negb orb].
  rewrite (proj2 (Z.ltb_ge _ _)) by lia. done.
Qed.

Lemma chain_base64_complete raw maximum :
  1 <= zlen raw <= maximum → decodeOfflineTrustPolicyAuthorityTransitionChainBase64 (EncodeToString raw) maximum = Some raw.
Proof.
  intros Hr. unfold decodeOfflineTrustPolicyAuthorityTransitionChainBase64.
  assert (EncodeToString raw ≠ "") as Hne.
  { intros E. assert (raw = "") as ->; [|unfold zlen in Hr; cbn in Hr; lia]. by apply encode_string_injective. }
  apply String.eqb_neq in Hne. rewrite Hne. cbn [orb]. rewrite zlen_encode, (proj2 (Z.ltb_ge (EncodedLen maximum) _)).
  2:{ unfold EncodedLen. apply Z.mul_le_mono_nonneg_r; [lia|]. apply Z.div_le_mono; lia. }
  rewrite decode_encode_string. cbn [mbind option_bind]. rewrite (proj2 (Nat.eqb_neq _ _)) by (unfold zlen in Hr; lia).
  rewrite (proj2 (Z.ltb_ge maximum _)) by lia. by rewrite string_eqb_refl.
Qed.

Lemma verify_hop_complete key next generation envelope :
  slen key = 32%nat → slen next = 32%nat → key_id key ≠ key_id next → 1 <= generation <= maxTransitionGeneration →
  signed_transition key next generation envelope →
  verify_hop envelope (pem_text (spki_der key)) (pem_text (spki_der next)) = Some generation.
Proof.
  intros Hk Hn Hne [H1 H2] Hs. change maxTransitionGeneration with MaxTrustPolicyGeneration in H2. unfold verify_hop. rewrite (verify_transition_complete key next generation envelope 1) by (done || lia).
  done.
Qed.

Lemma hop_size key next generation envelope :
  1 <= generation <= maxTransitionGeneration → signed_transition key next generation envelope →
  1 <= zlen envelope <= maxTransitionEnvelopeBytes.
Proof. intros Hg Hs. pose proof (signed_transition_size _ _ _ _ Hg Hs). unfold maxTransitionEnvelopeBytes. lia. Qed.

Lemma linked_bounds key g links :
  0 <= g → linked signed_transition key g links →
  Forall (λ l, slen (ln_key l) = 32%nat ∧ 1 <= ln_generation l <= MaxTrustPolicyGeneration ∧ 1 <= zlen (ln_envelope l) <= 4096) links.
Proof.
  revert key g. induction links as [|l links IH]; intros key g Hg; [constructor|]. intros (Hk & Hl & Hs & Hrest).
  change maxTransitionGeneration with MaxTrustPolicyGeneration in Hl. constructor; [|by eapply (IH _ (ln_generation l)); [lia|]]. split_and!; [done|lia|lia|..];
    apply (signed_transition_size _ _ (ln_generation l) _ ltac:(lia) Hs).
Qed.

Lemma chain_facts links (hops := List.map link_hop links) (v := chain_value (chain_document hops)) :
  (length links <= 8)%nat →
  Forall (λ l, slen (ln_key l) = 32%nat ∧ 1 <= ln_generation l <= MaxTrustPolicyGeneration ∧ 1 <= zlen (ln_envelope l) <= 4096) links →
  has_type chain_type v ∧ zlen (chain_text hops) <= 65536 ∧ depth_of (doc_of chain_type v) <= 4 ∧ nodes_of (doc_of chain_type v) <= 64.
Proof.
  intros Hlen Hl.
  assert (let docs := List.map (doc_of hop_type) (List.map hop_value hops) in
    foldr (λ x n, text_bound x + 1 + n) 0 docs <= 5700 * Z.of_nat (length links)
    ∧ foldr (λ x n, Z.max (depth_of x) n) 0 docs <= 1 ∧ foldr (λ x n, nodes_of x + n) 0 docs = 3 * Z.of_nat (length links)) as (H1 & H2 & H3).
  { unfold hops. clear Hlen v hops. induction Hl as [|l links (Hk & _ & He) _ IH]; [done|]. cbv zeta in *. destruct IH as (I1 & I2 & I3).
    cbn [List.map foldr length]. split_and!.
    - enough (text_bound (doc_of hop_type (hop_value (link_hop l))) <= 5699) by lia. unfold hop_type, hop_value, link_hop.
      cbn - [encode_string zlen Z.add sanitize foldr EncodeToString pem_text spki_der]. cbn [foldr text_bound fst snd encode].
      rewrite !sanitize_valid by apply encoded_utf8. rewrite (encode_plain (EncodeToString (ln_envelope l))), (encode_plain (EncodeToString (pem_text (spki_der (ln_key l))))) by apply base64_plain.
      rewrite !zlen_encode, spki_size by done.
      constant_sizes. change (EncodedLen 113) with 152.
      assert (EncodedLen (zlen (ln_envelope l)) <= EncodedLen 4096) as Hle.
      { unfold EncodedLen. apply Z.mul_le_mono_nonneg_r; [lia|]. apply Z.div_le_mono; lia. }
      change (EncodedLen 4096) with 5464 in Hle. lia.
    - assert (depth_of (doc_of hop_type (hop_value (link_hop l))) = 1) as -> by done. lia.
    - assert (nodes_of (doc_of hop_type (hop_value (link_hop l))) = 3) as -> by done. lia. }
  cbv zeta in H1, H2, H3. split_and!.
  - unfold v, chain_value, chain_document, chain_type. cbn [ch_SchemaVersion ch_Purpose ch_PolicyPayloadType ch_Hops].
    constructor. repeat (apply Forall2_cons; split); try apply Forall2_nil_2; cbn [snd]; constructor.
    1-3: vm_compute; reflexivity. apply Forall_fmap, Forall_fmap. apply Forall_forall. intros l _.
    unfold hop_type, hop_value, link_hop. cbn. constructor. repeat (apply Forall2_cons; split); try apply Forall2_nil_2; cbn [snd]; constructor;
      apply encoded_utf8.
  - unfold chain_text. pose proof (encode_bound (doc_of chain_type v)) as Hb. fold v.
    enough (text_bound (doc_of chain_type v) <= 65536) by lia. clear Hb. unfold v, chain_value, chain_document, chain_type.
    cbn - [encode_string zlen Z.add sanitize foldr hop_type hops SignedOfflineTrustPolicyPayloadType OfflineTrustPolicyAuthorityTransitionChainPurpose].
    cbn [foldr text_bound fst snd encode]. constant_sizes. lia.
  - unfold v, chain_value, chain_document, chain_type. cbn - [Z.add Z.max sanitize foldr hop_type hops SignedOfflineTrustPolicyPayloadType OfflineTrustPolicyAuthorityTransitionChainPurpose]. cbn [foldr depth_of snd]. lia.
  - unfold v, chain_value, chain_document, chain_type. cbn - [Z.add Z.max sanitize foldr hop_type hops SignedOfflineTrustPolicyPayloadType OfflineTrustPolicyAuthorityTransitionChainPurpose]. cbn [foldr nodes_of snd]. lia.
Qed.

Lemma chain_hops_links links :
  Forall (λ l, slen (ln_key l) = 32%nat ∧ 1 <= ln_generation l <= MaxTrustPolicyGeneration ∧ 1 <= zlen (ln_envelope l) <= 4096) links →
  chain_hops (List.map ln_envelope links) (List.map (λ l, pem_text (spki_der (ln_key l))) links) = Some (List.map link_hop links).
Proof.
  induction 1 as [|l links (Hk & _ & He) _ IH]; [done|]. cbn [List.map chain_hops]. pose proof (spki_size _ Hk) as Hz.
  rewrite (proj2 (Nat.eqb_neq (slen (ln_envelope l)) 0)) by (unfold zlen in He; lia).
  rewrite (proj2 (Nat.eqb_neq (slen (pem_text (spki_der (ln_key l)))) 0)) by (unfold zlen in Hz; lia).
  unfold MaxOfflineTrustPolicyAuthorityTransitionEnvelopeBytes, MaxPublicKeyBytes. rewrite (proj2 (Z.ltb_ge _ (zlen (ln_envelope l)))), (proj2 (Z.ltb_ge _ (zlen (pem_text (spki_der (ln_key l)))))) by lia.
  cbn [orb]. rewrite IH. done.
Qed.

Lemma chain_valid hops :
  (2 <= length hops <= 8)%nat → validateOfflineTrustPolicyAuthorityTransitionChain (chain_document hops) = true.
Proof.
  intros Hlen. unfold validateOfflineTrustPolicyAuthorityTransitionChain, chain_document.
  cbn [ch_SchemaVersion ch_Purpose ch_PolicyPayloadType ch_Hops]. rewrite !string_eqb_refl.
  unfold OfflineTrustPolicyAuthorityTransitionChainMaxHops, OfflineTrustPolicyAuthorityTransitionChainMinHops.
  rewrite (proj2 (Nat.ltb_ge _ 2)), (proj2 (Nat.ltb_ge 8 _)) by lia. done.
Qed.

Lemma verify_chain_complete root links minimum (hops := List.map link_hop links) :
  slen root = 32%nat → (2 <= length links <= 8)%nat → linked signed_transition root 0 links → NoDup (key_id root :: link_ids links) →
  1 <= minimum <= last_generation links →
  VerifyOfflineTrustPolicyAuthorityTransitionChain (chain_text hops) (pem_text (spki_der root))
    (pem_text (spki_der (last_key root links))) minimum
  = Ok {| vc_rootAuthorityKeyID := key_id root; vc_terminalAuthorityKeyID := key_id (last_key root links);
          vc_terminalGeneration := last_generation links; vc_hopCount := length links;
          vc_digest := digestBytes (offlineTrustPolicyAuthorityTransitionChainDigestTag +:+ chain_text hops);
          vc_authorityKeyIDs := key_id root :: link_ids links |}.
Proof.
  intros Hr Hlen Hl Hnd Hmin. pose proof (linked_bounds root 0 links ltac:(lia) Hl) as Hb.
  destruct (chain_facts links ltac:(lia) Hb) as (Ht & Hsize & Hd & Hn). fold hops in Ht, Hsize, Hd, Hn.
  assert (last_generation links <= MaxTrustPolicyGeneration ∧ slen (last_key root links) = 32%nat) as [Hmax Hlast].
  { assert (links ≠ []) as Hne by (intros E; rewrite E in Hlen; cbn in Hlen; lia). rewrite Forall_forall in Hb. split.
    - assert (last_generation links ∈ List.map ln_generation links) as Hin.
      { apply last_in. by destruct links. }
      apply list_elem_of_fmap in Hin as (l & -> & Hl'). by apply Hb in Hl' as (_ & [? ?] & _).
    - assert (last_key root links ∈ List.map ln_key links) as Hin.
      { apply last_in. by destruct links. }
      apply list_elem_of_fmap in Hin as (l & -> & Hl'). by apply Hb in Hl' as (? & _). }
  destruct (written_clean _ _ (eq_refl : ty_ok chain_type = true) Ht) as (C1 & C2 & C3). fold chain_type in C1, C2, C3.
  change (encode (doc_of chain_type (chain_value (chain_document hops)))) with (chain_text hops) in C1, C2, C3.
  unfold VerifyOfflineTrustPolicyAuthorityTransitionChain. rewrite C1, C2, C3.
  unfold MaxOfflineTrustPolicyAuthorityTransitionChainBytes.
  rewrite (proj2 (Z.eqb_neq _ _)), (proj2 (Z.ltb_ge MaxTrustPolicyGeneration _)), (proj2 (Z.ltb_ge (256 * 2 ^ 10) _)) by lia. cbn [orb].
  assert (validateDerivedSchemaJSON (chain_text hops) (256 * 2 ^ 10) 8 64 "offline-trust-policy-authority-transition-chain-v1.schema.json" = true) as ->.
  { unfold chain_text, chain_type. rewrite schema_of_written; [|done|exact Ht| |lia|exact (Z.le_trans _ 4 8 Hd ltac:(lia))|exact Hn].
    2:{ change (zlen (chain_text hops) <= 256 * 2 ^ 10). lia. }
    pose proof (chain_schema_accepts (List.map (λ l, (ln_envelope l, pem_text (spki_der (ln_key l)))) links)) as Hs.
    rewrite length_map, List.map_map in Hs. apply Hs; [done|]. apply Forall_fmap. eapply Forall_impl; [exact Hb|].
    intros l (Hk & _ & He). cbn [fst snd compose]. rewrite spki_size by done.
    unfold MaxOfflineTrustPolicyAuthorityTransitionEnvelopeBytes, MaxPublicKeyBytes. lia. }
  cbn [negb orb]. unfold chain_text at 1. rewrite canonical_json_complete;
    [|done|exact Ht|change (zlen (chain_text hops) <= 256 * 2 ^ 10); lia|lia|lia].
  cbn [of_option bind_result]. cbv zeta.
  assert (chain_of (chain_value (chain_document hops)) = chain_document hops) as ->.
  { unfold chain_of, chain_value, chain_document. cbn. f_equal. rewrite List.map_map. rewrite <- (List.map_id hops) at 2.
    apply List.map_ext. by intros []. }
  rewrite chain_valid by (unfold hops; by rewrite length_map). cbn [negb].
  rewrite !parsePublicKey_text by done. cbn [of_option bind_result].
  change (digestBytes (spki_der root)) with (key_id root). change (digestBytes (spki_der (last_key root links))) with (key_id (last_key root links)).
  assert ((key_id root =s key_id (last_key root links)) = false) as ->.
  { apply String.eqb_neq. intros Heq. apply NoDup_cons in Hnd as [Hni _]. apply Hni. rewrite Heq, last_id. apply last_in.
    intros E. destruct links; [cbn in Hlen; lia|done]. }
  cbn [chain_document ch_Hops]. unfold hops. rewrite (walk_complete signed_transition _ _ _ parsePublicKey_text chain_base64_complete verify_hop_complete hop_size root 0 [key_id root] links)
    by (done || lia || by left).
  cbn [of_option bind_result ws_previousGeneration ws_currentSPKI ws_ids]. fold (last_generation links).
  rewrite (proj2 (Z.ltb_ge _ _)) by lia. rewrite string_eqb_refl. cbn [negb orb]. rewrite length_map. done.
Qed.

(** Conversely every chain of two to eight links signed in turn, with
    increasing generations and distinct keys, is built from its parts and is
    accepted for every floor up to its last generation. *)
Theorem linked_chain_builds root links minimum :
  slen root = 32%nat → (2 <= length links <= 8)%nat → linked signed_transition root 0 links → NoDup (key_id root :: link_ids links) →
  1 <= minimum <= last_generation links →
  ∃ raw v,
    BuildOfflineTrustPolicyAuthorityTransitionChain (List.map ln_envelope links)
      (List.map (λ l, pem_text (spki_der (ln_key l))) links) (pem_text (spki_der root)) = Ok raw
    ∧ VerifyOfflineTrustPolicyAuthorityTransitionChain raw (pem_text (spki_der root))
        (pem_text (spki_der (last_key root links))) minimum = Ok v
    ∧ vc_terminalAuthorityKeyID v = key_id (last_key root links) ∧ vc_authorityKeyIDs v = key_id root :: link_ids links.
Proof.
  intros Hr Hlen Hl Hnd Hmin. pose proof (linked_bounds root 0 links ltac:(lia) Hl) as Hb.
  exists (chain_text (List.map link_hop links)). eexists. split; [|split; [by apply verify_chain_complete|done]].
  unfold BuildOfflineTrustPolicyAuthorityTransitionChain. rewrite !length_map, Nat.eqb_refl.
  unfold OfflineTrustPolicyAuthorityTransitionChainMaxHops, OfflineTrustPolicyAuthorityTransitionChainMinHops.
  rewrite (proj2 (Nat.ltb_ge _ 2)), (proj2 (Nat.ltb_ge 8 _)) by lia. cbn [negb orb].
  rewrite chain_hops_links by done. cbn [of_option bind_result]. cbv zeta.
  destruct (chain_facts links ltac:(lia) Hb) as (_ & Hsize & _). unfold MaxOfflineTrustPolicyAuthorityTransitionChainBytes.
  rewrite (proj2 (Z.ltb_ge _ _)) by lia.
  assert (List.last (List.map (λ l, pem_text (spki_der (ln_key l))) links) "" = pem_text (spki_der (last_key root links))) as ->.
  { destruct links as [|l links]; [cbn in Hlen; lia|]. unfold last_key. cbn [List.map]. rewrite !last_cons. clear.
    revert l. induction links as [|l' links IH]; intros l; [done|]. cbn [List.map]. rewrite !last_cons. apply IH. }
  rewrite verify_chain_complete by (done || lia). done.
Qed.

Context `{!Ed25519Laws}.

Lemma key_signs_transition seed nextKey generation :
  signed_transition (ed_public seed) nextKey generation
    (sign_envelope seed OfflineTrustPolicyAuthorityTransitionPayloadType
       (transition_payload generation (key_id (ed_public seed)) (key_id nextKey)) (key_id (ed_public seed))).
Proof. unfold signed_transition. eexists. split_and!; [apply ed_signature_size|apply ed_sign_verifies|]. done. Qed.

(** [SignOfflineTrustPolicyAuthorityTransition] succeeds on every admissible
    request and returns a signed transition. *)
Lemma transition_is_signed seed nextKey generation :
  slen seed = 32%nat → slen nextKey = 32%nat → 1 <= generation <= MaxTrustPolicyGeneration →
  key_id (ed_public seed) ≠ key_id nextKey →
  ∃ raw v, SignOfflineTrustPolicyAuthorityTransition (pem_text (spki_der nextKey)) generation (NewKeyFromSeed seed)
      = Ok (raw, pem_text (spki_der (ed_public seed)), v)
    ∧ signed_transition (ed_public seed) nextKey generation raw
    ∧ at_Generation (vt_transition v) = generation ∧ vt_envelopeDigest v = digestBytes raw.
Proof.
  intros Hs Hn Hg Hne. pose proof (key_signs_transition seed nextKey generation) as Hst.
  set (payload := transition_payload generation (key_id (ed_public seed)) (key_id nextKey)) in *.
  set (raw := sign_envelope _ _ _ _) in *. pose proof (signed_transition_size _ _ _ _ Hg Hst) as Hsize.
  destruct (transition_facts generation (ed_public seed) nextKey Hg) as (_ & Hb & _). change (zlen payload <= 1024) in Hb.
  eexists raw, _. split; [|split; [exact Hst|]].
  - unfold SignOfflineTrustPolicyAuthorityTransition.
    rewrite (proj2 (Z.eqb_neq _ _)), (proj2 (Z.ltb_ge MaxTrustPolicyGeneration _)) by lia.
    assert (slen (NewKeyFromSeed seed) = 64%nat) as -> by (unfold NewKeyFromSeed; by rewrite slen_app, Hs, ed_public_size).
    change (64 =? PrivateKeySize)%nat with true. cbn [negb orb].
    assert (take_string SeedSize (NewKeyFromSeed seed) = seed) as ->.
    { unfold NewKeyFromSeed, SeedSize. rewrite <- Hs. apply take_string_app. }
    cbv zeta. rewrite string_eqb_refl, ed_public_size. change (32 =? PublicKeySize)%nat with true. cbn [negb].
    rewrite marshalPublicKey_text by apply ed_public_size. cbn [of_option bind_result].
    rewrite parsePublicKey_text by done. cbn [of_option bind_result].
    change (digestBytes (spki_der (ed_public seed))) with (key_id (ed_public seed)). change (digestBytes (spki_der nextKey)) with (key_id nextKey).
    apply String.eqb_neq in Hne as Hne'. rewrite Hne'. fold payload.
    unfold MaxOfflineTrustPolicyAuthorityTransitionPayloadBytes, MaxOfflineTrustPolicyAuthorityTransitionEnvelopeBytes.
    rewrite (proj2 (Z.ltb_ge _ (zlen payload))) by lia. unfold payload at 1. rewrite parse_transition_complete by done.
    cbn [map_err bind_result transition_document at_Generation at_PreviousAuthorityKeyID at_NextAuthorityKeyID].
    rewrite Z.eqb_refl, !string_eqb_refl. cbn [negb orb]. fold raw. rewrite (proj2 (Z.ltb_ge _ (zlen raw))) by lia.
    rewrite (verify_transition_complete (ed_public seed) nextKey generation) by (apply ed_public_size || done || lia).
    cbn [map_err bind_result vt_transition vt_payloadDigest vt_envelopeDigest transition_document at_Generation
      at_PreviousAuthorityKeyID at_NextAuthorityKeyID]. fold payload. rewrite Z.eqb_refl, !string_eqb_refl. cbn [negb orb]. done.
  - done.
Qed.
End Complete.

(** ** Examples *)

Lemma any_schema_transitions : @TransitionSchemas any_schema.
Proof. by split. Qed.

Definition seed_a := "aaaaaaaaaaaaaaaaaaaaaaaaaaaaaaaa".
Definition seed_b := "bbbbbbbbbbbbbbbbbbbbbbbbbbbbbbbb".
Definition key_a : string := @ed_public hash_signatures seed_a.
Definition key_b : string := @ed_public hash_signatures seed_b.
Definition key_c := "cccccccccccccccccccccccccccccccc".
Definition example_envelope (seed next : string) (generation : Z) : string :=
  @sign_envelope hash_signatures seed OfflineTrustPolicyAuthorityTransitionPayloadType
    (transition_payload generation (key_id (@ed_public hash_signatures seed)) (key_id next)) (key_id (@ed_public hash_signatures seed)).
Definition example_links : list link :=
  [{| ln_envelope := example_envelope seed_a key_b 1; ln_key := key_b; ln_generation := 1 |};
   {| ln_envelope := example_envelope seed_b key_c 5; ln_key := key_c; ln_generation := 5 |}].
Definition example_chain : string := chain_text (List.map link_hop example_links).

Lemma chain_authorizes_terminal_witness :
  ∃ v, @VerifyOfflineTrustPolicyAuthorityTransitionChain hash_signatures any_schema example_chain
         (pem_text (spki_der key_a)) (pem_text (spki_der key_c)) 3 = Ok v
  ∧ vc_terminalGeneration v = 5
  ∧ ∃ root links, linked (@signed_transition hash_signatures) root 0 links ∧ pem_text (spki_der key_c) = pem_text (spki_der (last_key root links)).
Proof.
  assert (match @VerifyOfflineTrustPolicyAuthorityTransitionChain hash_signatures any_schema example_chain
           (pem_text (spki_der key_a)) (pem_text (spki_der key_c)) 3 with
          | Ok v => vc_terminalGeneration v =? 5 | Err _ => false end = true) as H by (vm_compute; reflexivity).
  revert H. destruct (@VerifyOfflineTrustPolicyAuthorityTransitionChain hash_signatures any_schema example_chain
    (pem_text (spki_der key_a)) (pem_text (spki_der key_c)) 3) as [v|] eqn:E; intros H; [|discriminate H].
  exists v. split; [reflexivity|]. split; [by apply Z.eqb_eq in H|].
  destruct (@chain_authorizes_terminal hash_signatures any_schema _ _ _ 3 v ltac:(lia) E)
    as (root & links & _ & _ & Ht & _ & Hl & _). exists root, links. split; [exact Hl|exact Ht].
Defined.

Lemma linked_chain_builds_witness :
  ∃ raw v,
    @BuildOfflineTrustPolicyAuthorityTransitionChain hash_signatures any_schema (List.map ln_envelope example_links)
      (List.map (λ l, pem_text (spki_der (ln_key l))) example_links) (pem_text (spki_der key_a)) = Ok raw
    ∧ @VerifyOfflineTrustPolicyAuthorityTransitionChain hash_signatures any_schema raw (pem_text (spki_der key_a))
        (pem_text (spki_der (last_key key_a example_links))) 4 = Ok v.
Proof.
  destruct (@linked_chain_builds hash_signatures any_schema any_schema_transitions key_a example_links 4)
    as (raw & v & H1 & H2 & _).
  - vm_compute. reflexivity.
  - cbn. lia.
  - cbn [linked example_links ln_key ln_generation ln_envelope]. unfold maxTransitionGeneration. split_and!.
    + vm_compute. reflexivity.
    + lia.
    + lia.
    + exact (@key_signs_transition hash_signatures hash_signatures_laws seed_a key_b 1).
    + reflexivity.
    + lia.
    + lia.
    + exact (@key_signs_transition hash_signatures hash_signatures_laws seed_b key_c 5).
    + done.
  - apply (bool_decide_unpack _). vm_compute. exact I.
  - vm_compute. split; discriminate.
  - exists raw, v. split; [exact H1|exact H2].
Defined.
