(* ===== verification/ReleaseIndex.v ===== *)
(** * The external release index (internal/releaseindex)

    The index of a release's artifacts, the policy that says which keys may sign
    it, their authentication under an explicit authority, and the comparison of
    the index with an artifact directory ([releaseindex.go], [files.go]).  The
    operating system is the listing of the directory and the stable read of a
    file, as they answer in each of the two scans.

    The functions take a private key by its seed: every key that is loaded is
    [ed25519.NewKeyFromSeed] of one. *)

From S2P Require Import Prelude Sha256 Json StructuredJson JsonUnmarshal SemanticEqual GoValue CanonicalJson GoStrings GoStruct Base64 Dsse TrustPolicy.

Local Open Scope Z_scope.

Definition SchemaVersion := "1".
Definition Product := "repopass".
Definition Channel := "alpha".
Definition Purpose := "release-index-signing".
Definition ProductVersion := "0.1.0-alpha.33".
Definition IndexArtifactType := "repopass.external-release-index".
Definition IndexPayloadType := "application/vnd.repopass.release-index.v1+json".
Definition PolicyPayloadType := "application/vnd.repopass.release-key-policy.v1+json".
Definition AuthorityTransitionPayloadType := "application/vnd.repopass.release-authority-transition.v1+json".
Definition MaxIndexBytes : Z := 2 ^ 20.
Definition MaxEnvelopeBytes : Z := 1400 * 2 ^ 10.
Definition MaxPolicyBytes : Z := 64 * 2 ^ 10.
Definition MaxPolicyEnvelopeBytes : Z := 96 * 2 ^ 10.
Definition MaxGeneration : Z := 9007199254740991.
Definition MaxFiles : nat := 128.
Definition MaxPolicyKeys : nat := 32.
Definition MaxSHA256SUMSBytes : Z := 64 * 2 ^ 10.
Definition MaxArtifactBytes : Z := 128 * 2 ^ 20.
Definition MaxArtifactSetBytes : Z := 512 * 2 ^ 20.

Inductive release_error :=
  | ErrIndexInvalid | ErrPolicyInvalid | ErrSignatureInvalid | ErrReleaseUntrusted | ErrArtifactsInvalid | ErrReadFailed
  | ErrSigningFailed.

(** ** Documents *)

Record FileEntry := { fe_Path : string; fe_SHA256 : string; fe_Size : Z }.
#[export] Instance FileEntry_eq_dec : EqDecision FileEntry.
Proof. solve_decision. Defined.

Record TrustBoundary := {
  tb_Capability : string; tb_FormalClaim : bool; tb_IdentityAttestation : string; tb_Overall : string; tb_TimeAttestation : string
}.
#[export] Instance TrustBoundary_eq_dec : EqDecision TrustBoundary.
Proof. solve_decision. Defined.

Record Index := {
  ix_ArtifactType : string; ix_Channel : string; ix_Files : list FileEntry; ix_Product : string; ix_ProductVersion : string;
  ix_ReleaseGeneration : Z; ix_SchemaVersion : string; ix_TrustBoundary : TrustBoundary
}.

Record Policy := {
  rk_SchemaVersion : string; rk_Product : string; rk_Channel : string; rk_Purpose : string; rk_Generation : Z;
  rk_KeyAlgorithm : string; rk_KeyIDAlgorithm : string; rk_Keys : list offlineTrustPolicyKey
}.

Record Scope := { sc_Product : string; sc_Channel : string; sc_Purpose : string }.
#[export] Instance Scope_eq_dec : EqDecision Scope.
Proof. solve_decision. Defined.
Definition DefaultScope : Scope := {| sc_Product := Product; sc_Channel := Channel; sc_Purpose := Purpose |}.

Definition file_type : ty := TStruct [("path", TString); ("sha256", TString); ("size", TUint64)].
Definition boundary_type : ty :=
  TStruct [("capability", TString); ("formalClaim", TBool); ("identityAttestation", TString); ("overall", TString);
           ("timeAttestation", TString)].
Definition index_type : ty :=
  TStruct [("artifactType", TString); ("channel", TString); ("files", TSlice file_type); ("product", TString);
           ("productVersion", TString); ("releaseGeneration", TUint64); ("schemaVersion", TString); ("trustBoundary", boundary_type)].
Definition release_policy_type : ty :=
  TStruct [("schemaVersion", TString); ("product", TString); ("channel", TString); ("purpose", TString); ("generation", TUint64);
           ("keyAlgorithm", TString); ("keyIdAlgorithm", TString); ("keys", TSlice key_type)].

Definition flag_of (v : value) : bool := match v with GBool b => b | _ => false end.
Definition file_of (v : value) : FileEntry :=
  {| fe_Path := text_of (member v 0); fe_SHA256 := text_of (member v 1); fe_Size := uint_of (member v 2) |}.
Definition boundary_of (v : value) : TrustBoundary :=
  {| tb_Capability := text_of (member v 0); tb_FormalClaim := flag_of (member v 1); tb_IdentityAttestation := text_of (member v 2);
     tb_Overall := text_of (member v 3); tb_TimeAttestation := text_of (member v 4) |}.
Definition index_of (v : value) : Index :=
  {| ix_ArtifactType := text_of (member v 0); ix_Channel := text_of (member v 1);
     ix_Files := List.map file_of (elements_of (member v 2)); ix_Product := text_of (member v 3);
     ix_ProductVersion := text_of (member v 4); ix_ReleaseGeneration := uint_of (member v 5);
     ix_SchemaVersion := text_of (member v 6); ix_TrustBoundary := boundary_of (member v 7) |}.
Definition release_policy_of (v : value) : Policy :=
  {| rk_SchemaVersion := text_of (member v 0); rk_Product := text_of (member v 1); rk_Channel := text_of (member v 2);
     rk_Purpose := text_of (member v 3); rk_Generation := uint_of (member v 4); rk_KeyAlgorithm := text_of (member v 5);
     rk_KeyIDAlgorithm := text_of (member v 6); rk_Keys := List.map key_of (elements_of (member v 7)) |}.

Definition file_value (f : FileEntry) : value := GStruct [GStr (fe_Path f); GStr (fe_SHA256 f); GUint (fe_Size f)].
Definition boundary_value (b : TrustBoundary) : value :=
  GStruct [GStr (tb_Capability b); GBool (tb_FormalClaim b); GStr (tb_IdentityAttestation b); GStr (tb_Overall b);
           GStr (tb_TimeAttestation b)].
Definition index_value (i : Index) : value :=
  GStruct [GStr (ix_ArtifactType i); GStr (ix_Channel i); GSlice (Some (List.map file_value (ix_Files i))) []; GStr (ix_Product i);
           GStr (ix_ProductVersion i); GUint (ix_ReleaseGeneration i); GStr (ix_SchemaVersion i); boundary_value (ix_TrustBoundary i)].
Definition release_policy_value (p : Policy) : value :=
  GStruct [GStr (rk_SchemaVersion p); GStr (rk_Product p); GStr (rk_Channel p); GStr (rk_Purpose p); GUint (rk_Generation p);
           GStr (rk_KeyAlgorithm p); GStr (rk_KeyIDAlgorithm p); GSlice (Some (List.map key_value (rk_Keys p))) []].

(** ** Validation *)

Definition validGeneration (value : Z) : bool := (0 <? value) && (value <=? MaxGeneration).
Definition validDigest (value : string) : bool := digest_string "sha256:" value 64.
Definition validScope (scope : Scope) : bool := bool_decide (scope = DefaultScope).
Definition validRawJSON (raw : string) (maximum : Z) : bool :=
  (0 <? zlen raw) && (zlen raw <=? maximum) && negb (has_carriage_return raw) && negb (has_byte_order_mark raw).

Definition requiredTrustBoundary : TrustBoundary :=
  {| tb_Capability := "incomplete"; tb_FormalClaim := false; tb_IdentityAttestation := "none"; tb_Overall := "inconclusive";
     tb_TimeAttestation := "none" |}.

Definition is_letter_or_digit (c : ascii) : bool := in_range 97 122 c || in_range 65 90 c || is_digit c.
Definition is_portable (c : ascii) : bool := is_letter_or_digit c || existsb (Ascii.eqb c) ["."; "_"; "-"]%char.
(** The ASCII characters [strings.TrimSpace] removes; a name with another one is
    refused for its bytes. *)
Definition is_space (c : ascii) : bool := in_range 9 13 c || Ascii.eqb c " ".



Definition reserved_bases : list string := ["CON"; "PRN"; "AUX"; "NUL"; "CLOCK$"; "CONIN$"; "CONOUT$"].
Definition reserved_port (base : string) : bool :=
  (slen base =? 4)%nat && (has_prefix "COM" base || has_prefix "LPT" base) && byte_is (in_range 49 57) (last_byte base).

Definition portableBaseName (name : string) : bool :=
  if (name =s "") || (255 <? zlen name) || (name =s ".") || (name =s "..")
     || byte_is is_space (head_byte name) || byte_is is_space (last_byte name)
     || byte_is (Ascii.eqb ".") (last_byte name) || byte_is (Ascii.eqb " ") (last_byte name) then false
  else if negb (byte_is is_letter_or_digit (head_byte name)) then false
  else if negb (string_forallb is_portable name) then false
  else
    let base := string_map upper_byte (before_dot name) in
    if existsb (String.eqb base) reserved_bases then false else negb (reserved_port base).

(** [strings.ToLower] of a portable name. *)
Definition fold_path (path : string) : string := string_map lower_byte path.

(** The loop over the files: the previous path, the folded paths, the total and
    whether the checksum file was met. *)
Fixpoint validate_files (first : bool) (previous : string) (folded : list string) (total : Z) (hasSums : bool) (files : list FileEntry)
  : bool :=
  match files with
  | [] => hasSums
  | file :: rest =>
      if negb (portableBaseName (fe_Path file)) || negb (validDigest (fe_SHA256 file)) || (MaxArtifactBytes <? fe_Size file)
         || (MaxArtifactSetBytes - fe_Size file <? total) || (negb first && negb (key_lt previous (fe_Path file))) then false
      else
        let fold := fold_path (fe_Path file) in
        if existsb (String.eqb fold) folded then false
        else validate_files false (fe_Path file) (fold :: folded) (total + fe_Size file) (hasSums || (fe_Path file =s "SHA256SUMS")) rest
  end.

Definition validateIndex (index : Index) : bool :=
  (ix_SchemaVersion index =s SchemaVersion) && (ix_ArtifactType index =s IndexArtifactType) && (ix_Product index =s Product)
  && (ix_Channel index =s Channel) && (ix_ProductVersion index =s ProductVersion) && validGeneration (ix_ReleaseGeneration index)
  && bool_decide (ix_TrustBoundary index = requiredTrustBoundary)
  && (1 <=? length (ix_Files index))%nat && (length (ix_Files index) <=? MaxFiles)%nat
  && validate_files true "" [] 0 false (ix_Files index).

Fixpoint validate_policy_keys (first : bool) (previous : string) (keys : list offlineTrustPolicyKey) : bool :=
  match keys with
  | [] => true
  | key :: rest =>
      if negb (validDigest (pk_KeyID key)) || ((pk_Status key !=s "trusted") && (pk_Status key !=s "revoked"))
         || (negb first && negb (key_lt previous (pk_KeyID key))) then false
      else validate_policy_keys false (pk_KeyID key) rest
  end.

Definition validatePolicy (policy : Policy) : bool :=
  (rk_SchemaVersion policy =s SchemaVersion) && (rk_Product policy =s Product) && (rk_Channel policy =s Channel)
  && (rk_Purpose policy =s Purpose) && validGeneration (rk_Generation policy) && (rk_KeyAlgorithm policy =s "ed25519")
  && (rk_KeyIDAlgorithm policy =s "spki-sha256") && (1 <=? length (rk_Keys policy))%nat
  && (length (rk_Keys policy) <=? MaxPolicyKeys)%nat && validate_policy_keys true "" (rk_Keys policy).

(** ** Keys and envelopes *)

Definition parseCanonicalSPKI (raw : string) : option (string * string) :=
  if (slen raw =? 0)%nat || (MaxPublicKeyBytes <? zlen raw) then None
  else
    let? public := pem_key raw in
    if negb (slen public =? PublicKeySize)%nat then None
    else
      let der := spki_der public in
      if raw =s pem_text der then Some (public, der) else None.

Definition decodeBase64 (value : string) (maximum : Z) : option string :=
  if (maximum <? 0) || (EncodedLen maximum <? zlen value) then None
  else
    let? raw := DecodeLenient value in
    if (maximum <? zlen raw) || (EncodeToString raw !=s value) then None else Some raw.

Section Release.
Context `{ED : Ed25519} `{SE : SchemaEngine}.

Definition envelope_schema_ok (payloadType raw : string) : bool :=
  if payloadType =s IndexPayloadType
  then validateDerivedSchemaJSON raw (1400 * 2 ^ 10) 8 64 "release-index-envelope-v1.schema.json"
  else if payloadType =s PolicyPayloadType
  then validateDerivedSchemaJSON raw (96 * 2 ^ 10) 8 64 "release-key-policy-envelope-v1.schema.json"
  else if payloadType =s AuthorityTransitionPayloadType
  then validateDerivedSchemaJSON raw (32 * 2 ^ 10) 8 64 "release-authority-transition-envelope-v1.schema.json"
  else false.

(** The payload and the digest of an authenticated envelope. *)
Definition authenticateEnvelope (raw payloadType public keyID : string) (maxEnvelope maxPayload : Z) : option (string * string) :=
  if negb (validRawJSON raw maxEnvelope) || negb (envelope_schema_ok payloadType raw) then None
  else
    let? v := unmarshal_canonical true raw envelope_type in
    let env := envelope_of v in
    match env_Signatures env with
    | [signature] =>
        if (env_PayloadType env !=s payloadType) || (dsse_KeyID signature !=s keyID) then None
        else
          let? payload := decodeBase64 (env_Payload env) maxPayload in
          let? sig := decodeBase64 (dsse_Sig signature) (Z.of_nat SignatureSize) in
          if negb (slen sig =? SignatureSize)%nat || negb (ed_verify public (pae payloadType payload) sig) then None
          else Some (payload, digestBytes raw)
    | _ => None
    end.

(** The envelope and the signer's key. *)
Definition signPayload (payloadType payload seed : string) : string * string :=
  let der := spki_der (ed_public seed) in
  (sign_envelope seed payloadType payload (digestBytes der), pem_text der).

Definition validPrivateKey (key : string) : bool := (slen key =? PrivateKeySize)%nat.

(** ** The index *)

Definition ParseIndex (raw : string) : result release_error Index :=
  fail_if (negb (validRawJSON raw MaxIndexBytes) || negb (validateDerivedSchemaJSON raw MaxIndexBytes 16 1024 "release-index-v1.schema.json"))
    with ErrIndexInvalid ;;
  let! v := of_option ErrIndexInvalid (unmarshal_canonical true raw index_type) in
  fail_if (negb (validateIndex (index_of v))) with ErrIndexInvalid ;;
  Ok (index_of v).

Definition SignIndex (index seed : string) : result release_error (string * string) :=
  match ParseIndex index with
  | Ok _ => if validPrivateKey (NewKeyFromSeed seed) then Ok (signPayload IndexPayloadType index seed) else Err ErrSigningFailed
  | Err _ => Err ErrSigningFailed
  end.

Definition PublicKeyID (canonicalSPKI : string) : result release_error string :=
  match parseCanonicalSPKI canonicalSPKI with Some (_, der) => Ok (digestBytes der) | None => Err ErrSignatureInvalid end.

(** ** The policy *)

Definition ParsePolicyPayload (raw : string) : result release_error Policy :=
  fail_if (negb (validRawJSON raw MaxPolicyBytes) || negb (validateDerivedSchemaJSON raw MaxPolicyBytes 8 256 "release-key-policy-v1.schema.json"))
    with ErrPolicyInvalid ;;
  let! v := of_option ErrPolicyInvalid (unmarshal_canonical true raw release_policy_type) in
  fail_if (negb (validatePolicy (release_policy_of v))) with ErrPolicyInvalid ;;
  Ok (release_policy_of v).

(** The canonical payload of a policy. *)
Definition release_policy_payload (policy : Policy) : string := encode (doc_of release_policy_type (release_policy_value policy)).

Definition SignPolicyWithAuthority (policy : Policy) (seed : string) : result release_error (string * string * string) :=
  fail_if (negb (validatePolicy policy) || negb (validPrivateKey (NewKeyFromSeed seed))) with ErrSigningFailed ;;
  let authorityID := digestBytes (spki_der (ed_public seed)) in
  fail_if (existsb (λ key, pk_KeyID key =s authorityID) (rk_Keys policy)) with ErrSigningFailed ;;
  let payload := release_policy_payload policy in
  fail_if (MaxPolicyBytes <? zlen payload) with ErrSigningFailed ;;
  let '(envelopeRaw, authoritySPKI) := signPayload PolicyPayloadType payload seed in
  match parseCanonicalSPKI authoritySPKI with
  | Some (_, der) => Ok (envelopeRaw, authoritySPKI, digestBytes der)
  | None => Err ErrSigningFailed
  end.

Definition SignPolicy (policy : Policy) (seed : string) : result release_error string :=
  let! r := SignPolicyWithAuthority policy seed in Ok r.1.1.

Record VerifiedPolicy := {
  vp_policy : Policy; vp_statuses : gmap string string; vp_authorityKeyID : string; vp_payloadDigest : string;
  vp_envelopeDigest : string
}.
Definition VerifiedPolicy_Scope (p : VerifiedPolicy) : Scope :=
  {| sc_Product := rk_Product (vp_policy p); sc_Channel := rk_Channel (vp_policy p); sc_Purpose := rk_Purpose (vp_policy p) |}.

(** The loop that fills the statuses and refuses the authority itself. *)
Fixpoint policy_statuses (authorityKeyID : string) (keys : list offlineTrustPolicyKey) (statuses : gmap string string)
  : option (gmap string string) :=
  match keys with
  | [] => Some statuses
  | key :: rest =>
      if pk_KeyID key =s authorityKeyID then None
      else policy_statuses authorityKeyID rest (<[pk_KeyID key := pk_Status key]> statuses)
  end.

Definition VerifyPolicy (raw authoritySPKI : string) (scope : Scope) (minimumGeneration : Z) : result release_error VerifiedPolicy :=
  fail_if (negb (validScope scope) || negb (validGeneration minimumGeneration)) with ErrPolicyInvalid ;;
  let! (authority, der) := of_option ErrPolicyInvalid (parseCanonicalSPKI authoritySPKI) in
  let! (payload, envDigest) := of_option ErrPolicyInvalid
    (authenticateEnvelope raw PolicyPayloadType authority (digestBytes der) MaxPolicyEnvelopeBytes MaxPolicyBytes) in
  let! policy := ParsePolicyPayload payload in
  fail_if ((rk_Product policy !=s sc_Product scope) || (rk_Channel policy !=s sc_Channel scope)
           || (rk_Purpose policy !=s sc_Purpose scope) || (rk_Generation policy <? minimumGeneration)) with ErrPolicyInvalid ;;
  let! statuses := of_option ErrPolicyInvalid (policy_statuses (digestBytes der) (rk_Keys policy) ∅) in
  Ok {| vp_policy := policy; vp_statuses := statuses; vp_authorityKeyID := digestBytes der; vp_payloadDigest := digestBytes payload;
        vp_envelopeDigest := envDigest |}.

(** [EvaluateSignerKeyID] of a policy pointer. *)
Definition ReleaseEvaluateSignerKeyID (p : option VerifiedPolicy) (keyID : string) : TrustDecision * option release_error :=
  match p with
  | None => (TrustDecisionNotListed, Some ErrPolicyInvalid)
  | Some p =>
      if negb (validDigest keyID) then (TrustDecisionNotListed, Some ErrPolicyInvalid)
      else (decision_of (vp_statuses p) keyID, None)
  end.

(** ** The signed index *)

Record AuthenticatedIndex := {
  ai_index : Index; ai_indexRaw : string; ai_indexDigest : string; ai_envelopeDigest : string; ai_signerKeyID : string;
  ai_minimumReleaseGeneration : Z
}.
Record VerifiedIndex := {
  vi_index : Index; vi_indexRaw : string; vi_indexDigest : string; vi_envelopeDigest : string; vi_signerKeyID : string
}.
Definition AuthenticatedIndex_Scope (a : AuthenticatedIndex) : Scope :=
  {| sc_Product := ix_Product (ai_index a); sc_Channel := ix_Channel (ai_index a); sc_Purpose := Purpose |}.

Definition AuthenticateSignedIndex (indexRaw envelopeRaw signerSPKI : string) (scope : Scope) (minimumReleaseGeneration : Z)
  : result release_error AuthenticatedIndex :=
  fail_if (negb (validScope scope) || negb (validGeneration minimumReleaseGeneration)) with ErrIndexInvalid ;;
  let! index := map_err (λ _, ErrIndexInvalid) (ParseIndex indexRaw) in
  fail_if ((ix_Product index !=s sc_Product scope) || (ix_Channel index !=s sc_Channel scope)) with ErrReleaseUntrusted ;;
  let! (signer, der) := of_option ErrSignatureInvalid (parseCanonicalSPKI signerSPKI) in
  let signerKeyID := digestBytes der in
  let! (payload, envelopeDigest) := of_option ErrSignatureInvalid
    (authenticateEnvelope envelopeRaw IndexPayloadType signer signerKeyID MaxEnvelopeBytes MaxIndexBytes) in
  fail_if (payload !=s indexRaw) with ErrSignatureInvalid ;;
  Ok {| ai_index := index; ai_indexRaw := indexRaw; ai_indexDigest := digestBytes indexRaw; ai_envelopeDigest := envelopeDigest;
        ai_signerKeyID := signerKeyID; ai_minimumReleaseGeneration := minimumReleaseGeneration |}.

Definition AuthorizeSignedIndex (authenticated : option AuthenticatedIndex) (policy : option VerifiedPolicy)
  : result release_error VerifiedIndex :=
  match authenticated, policy with
  | Some a, Some p =>
      fail_if (negb (bool_decide (VerifiedPolicy_Scope p = AuthenticatedIndex_Scope a))) with ErrReleaseUntrusted ;;
      let signerKeyID := ai_signerKeyID a in
      fail_if (signerKeyID =s vp_authorityKeyID p) with ErrReleaseUntrusted ;;
      match ReleaseEvaluateSignerKeyID policy signerKeyID with
      | (TrustDecisionTrusted, None) =>
          fail_if (ix_ReleaseGeneration (ai_index a) <? ai_minimumReleaseGeneration a) with ErrReleaseUntrusted ;;
          Ok {| vi_index := ai_index a; vi_indexRaw := ai_indexRaw a; vi_indexDigest := ai_indexDigest a;
                vi_envelopeDigest := ai_envelopeDigest a; vi_signerKeyID := signerKeyID |}
      | _ => Err ErrReleaseUntrusted
      end
  | _, _ => Err ErrReleaseUntrusted
  end.

Definition VerifySignedIndex (indexRaw envelopeRaw signerSPKI : string) (policy : option VerifiedPolicy) (scope : Scope)
  (minimumReleaseGeneration : Z) : result release_error VerifiedIndex :=
  let! authenticated := AuthenticateSignedIndex indexRaw envelopeRaw signerSPKI scope minimumReleaseGeneration in
  AuthorizeSignedIndex (Some authenticated) policy.

Definition CheckExpectedIndexDigest (index expected : string) : option release_error :=
  if (slen index =? 0)%nat || (MaxIndexBytes <? zlen index) || negb (validDigest expected) || (digestBytes index !=s expected)
  then Some ErrIndexInvalid else None.
End Release.

(** ** The artifact directory *)

(** [stableFile]'s answer for a file: its content when retained, its size,
    digest and identity. *)
Record stableStat := { ss_size : Z; ss_digest : string; ss_identity : Z }.

(** What the operating system answers during one scan: the listing before, the
    files by name, size limit and whether the content is kept, and the listing
    after. *)
Record scan_world := {
  sw_before : option (list string); sw_file : string → Z → bool → option (option string * stableStat);
  sw_after : option (list string)
}.

(** And during an inspection: whether the root is a safe directory, its
    identity before and after, the two scans and the final listing. *)
Record root_world := {
  rw_directory : bool; rw_before : option Z; rw_first : scan_world; rw_second : scan_world; rw_after : option Z;
  rw_final : option (list string)
}.

Fixpoint portable_names (names folded : list string) : bool :=
  match names with
  | [] => true
  | name :: rest =>
      portableBaseName name && negb (existsb (String.eqb (fold_path name)) folded) && portable_names rest (fold_path name :: folded)
  end.
(** [sort.Strings]. *)
Definition sort_names (names : list string) : list string := List.map fst (sort_keys (List.map (λ n, (n, tt)) names)).

Definition directoryNames (items : option (list string)) : option (list string) :=
  let? names := items in
  if portable_names names [] then Some (sort_names names) else None.

(** The lines of the canonical checksum file. *)
Fixpoint sums_lines (entries : list FileEntry) : list string :=
  match entries with
  | [] => []
  | entry :: rest =>
      if fe_Path entry =s "SHA256SUMS" then sums_lines rest
      else (trim_prefix "sha256:" (fe_SHA256 entry) +:+ "  " +:+ fe_Path entry +:+ newline) :: sums_lines rest
  end.
Definition validateSHA256SUMS (entries : list FileEntry) (raw : option string) : bool :=
  match raw with
  | None => false
  | Some raw => negb (length (sums_lines entries) =? 0)%nat && (raw =s string_concat (sums_lines entries))
  end.

(** The loop over the names: the entries, the identities, the total and the
    content of the checksum file. *)
Fixpoint scan_files (file : string → Z → bool → option (option string * stableStat)) (names : list string) (total : Z)
  (sums : option string) : option (list FileEntry * list Z * option string) :=
  match names with
  | [] => Some ([], [], sums)
  | name :: rest =>
      if negb (portableBaseName name) then None
      else
        let is_sums := name =s "SHA256SUMS" in
        let? (raw, stat) := file name (if is_sums then MaxSHA256SUMSBytes else MaxArtifactBytes) is_sums in
        if (ss_size stat <? 0) || (MaxGeneration <? ss_size stat) || (MaxArtifactSetBytes - ss_size stat <? total) then None
        else
          let? (entries, identities, sums) :=
            scan_files file rest (total + ss_size stat) (if is_sums then raw else sums) in
          Some ({| fe_Path := name; fe_SHA256 := ss_digest stat; fe_Size := ss_size stat |} :: entries, ss_identity stat :: identities, sums)
  end.

Definition scanArtifactRoot (w : scan_world) (expected : option (list FileEntry)) : option (list FileEntry * list Z) :=
  let? before := directoryNames (sw_before w) in
  if (length before <? 1)%nat || (MaxFiles <? length before)%nat
     || negb match expected with Some expected => bool_decide (before = List.map fe_Path expected) | None => true end then None
  else
    let? (entries, identities, sums) := scan_files (sw_file w) before 0 None in
    let? after := directoryNames (sw_after w) in
    if negb (bool_decide (before = after)) || negb (validateSHA256SUMS entries sums) then None else Some (entries, identities).

Definition inspectArtifactRoot (w : root_world) (expected : option (list FileEntry)) : option (list FileEntry) :=
  if negb (rw_directory w) then None
  else
    let? directoryBefore := rw_before w in
    let? first := scanArtifactRoot (rw_first w) expected in
    let? second := scanArtifactRoot (rw_second w) expected in
    if negb (bool_decide (first = second)) then None
    else
      let? directoryAfter := rw_after w in
      let? finalNames := directoryNames (rw_final w) in
      if negb (directoryBefore =? directoryAfter) || negb (bool_decide (finalNames = List.map fe_Path second.1)) then None
      else Some second.1.

Definition VerifyArtifacts (w : root_world) (verified : option VerifiedIndex) : option release_error :=
  match verified with
  | None => Some ErrArtifactsInvalid
  | Some v =>
      match inspectArtifactRoot w (Some (ix_Files (vi_index v))) with
      | Some entries => if bool_decide (entries = ix_Files (vi_index v)) then None else Some ErrArtifactsInvalid
      | None => Some ErrArtifactsInvalid
      end
  end.

Definition BuildIndex (w : root_world) (productVersion : string) (releaseGeneration : Z) : result release_error string :=
  fail_if ((productVersion !=s ProductVersion) || negb (validGeneration releaseGeneration)) with ErrIndexInvalid ;;
  let! entries := of_option ErrArtifactsInvalid (inspectArtifactRoot w None) in
  let index := {| ix_ArtifactType := IndexArtifactType; ix_Channel := Channel; ix_Files := entries; ix_Product := Product;
                  ix_ProductVersion := productVersion; ix_ReleaseGeneration := releaseGeneration; ix_SchemaVersion := SchemaVersion;
                  ix_TrustBoundary := requiredTrustBoundary |} in
  fail_if (negb (validateIndex index)) with ErrIndexInvalid ;;
  let raw := encode (doc_of index_type (index_value index)) in
  fail_if (MaxIndexBytes <? zlen raw) with ErrIndexInvalid ;;
  Ok raw.

(** ** What validation ensures *)

Definition total_size (files : list FileEntry) : Z := foldr (λ f n, fe_Size f + n) 0 files.

(** A usable inventory: portable names in ascending order that stay distinct
    when case is ignored, well-formed digests, bounded sizes with a bounded sum. *)
Definition inventory_ok (files : list FileEntry) : Prop :=
  Forall (λ f, portableBaseName (fe_Path f) = true ∧ validDigest (fe_SHA256 f) = true ∧ fe_Size f <= MaxArtifactBytes) files
  ∧ keys_sorted (List.map (λ f, (fe_Path f, f)) files) = true ∧ NoDup (List.map (λ f, fold_path (fe_Path f)) files)
  ∧ total_size files <= MaxArtifactSetBytes ∧ "SHA256SUMS" ∈ List.map fe_Path files.

Lemma existsb_eqb_false x l : existsb (String.eqb x) l = false ↔ x ∉ l.
Proof.
  rewrite <- not_true_iff_false, existsb_exists. split; intros H Hin; apply H.
  - exists x. split; [by apply list_elem_of_In|apply string_eqb_refl].
  - destruct Hin as (y & Hy & E). apply String.eqb_eq in E as ->. by apply list_elem_of_In.
Qed.

Lemma validate_files_sound first previous folded total hasSums files :
  validate_files first previous folded total hasSums files = true → total <= MaxArtifactSetBytes →
  Forall (λ f, portableBaseName (fe_Path f) = true ∧ validDigest (fe_SHA256 f) = true ∧ fe_Size f <= MaxArtifactBytes) files
  ∧ keys_sorted (List.map (λ f, (fe_Path f, f)) files) = true
  ∧ (first = false → match files with [] => True | f :: _ => key_lt previous (fe_Path f) = true end)
  ∧ NoDup (List.map (λ f, fold_path (fe_Path f)) files) ∧ (∀ p, p ∈ folded → p ∉ List.map (λ f, fold_path (fe_Path f)) files)
  ∧ total + total_size files <= MaxArtifactSetBytes ∧ (hasSums = true ∨ "SHA256SUMS" ∈ List.map fe_Path files).
Proof.
  revert first previous folded total hasSums. induction files as [|f files IH]; intros first previous folded total hasSums; cbn [validate_files].
  { intros -> Ht. cbn. split_and!; try done; try lia; try constructor; set_solver. }
  destruct (_ || _ || _ || _ || _) eqn:Eb; [done|]. to_prop. destruct (existsb _ folded) eqn:Ef; [done|].
  apply existsb_eqb_false in Ef. intros H' Ht. destruct (IH _ _ _ _ _ H' ltac:(lia)) as (I1 & I2 & I3 & I4 & I5 & I6 & I7).
  cbn [List.map total_size foldr]. fold (total_size files).
  split_and!.
  - by constructor.
  - specialize (I3 eq_refl). destruct files as [|g files]; [done|]. cbn [List.map keys_sorted fst] in *. by rewrite I3.
  - intros ->. cbn [negb andb] in H0. by apply negb_false_iff in H0.
  - constructor; [|done]. apply I5. by left.
  - intros p Hp. apply not_elem_of_cons. split; [intros ->; done|]. apply I5. by right.
  - lia.
  - destruct I7 as [I7|I7]; [|right; by right]. apply orb_true_iff in I7 as [?| ->%String.eqb_eq]; [by left|right; left].
Qed.

Lemma validateIndex_sound index :
  validateIndex index = true →
  inventory_ok (ix_Files index) ∧ (1 <= length (ix_Files index) <= 128)%nat ∧ 1 <= ix_ReleaseGeneration index <= MaxGeneration
  ∧ ix_Product index = Product ∧ ix_Channel index = Channel ∧ ix_TrustBoundary index = requiredTrustBoundary.
Proof.
  unfold validateIndex, validGeneration, MaxFiles. rewrite !andb_true_iff, !Nat.leb_le, Z.ltb_lt, Z.leb_le, !String.eqb_eq, bool_decide_eq_true.
  intros [[[[[[[[[H1 H2] H3] H4] H5] [H6 H6b]] H7] H8] H9] H10].
  destruct (validate_files_sound _ _ _ _ _ _ H10) as (I1 & I2 & _ & I4 & _ & I6 & I7); [unfold MaxArtifactSetBytes; lia|].
  split_and!; try done; try lia. split_and!; try done. destruct I7; [done|done].
Qed.

Lemma parseCanonicalSPKI_ok raw public der :
  parseCanonicalSPKI raw = Some (public, der) → slen public = 32%nat ∧ der = spki_der public ∧ raw = pem_text der.
Proof.
  unfold parseCanonicalSPKI. destruct (_ || _); [done|]. destruct (pem_key raw) as [pk|]; [|done]. cbn [mbind option_bind].
  destruct (Nat.eqb_spec (slen pk) PublicKeySize); [|done]. cbn [negb].
  destruct (String.eqb_spec raw (pem_text (spki_der pk))); [|done]. by intros [= <- <-].
Qed.

Lemma parseCanonicalSPKI_text public :
  slen public = 32%nat → parseCanonicalSPKI (pem_text (spki_der public)) = Some (public, spki_der public).
Proof.
  intros Hp. pose proof (spki_size public Hp) as Hz. unfold parseCanonicalSPKI.
  rewrite Hz, (proj2 (Nat.eqb_neq _ _)) by (unfold zlen in Hz; lia). change (MaxPublicKeyBytes <? 113) with false. cbn [orb].
  rewrite pem_key_spki. cbn [mbind option_bind]. rewrite Hp. change (32 =? PublicKeySize)%nat with true. cbn [negb].
  by rewrite string_eqb_refl.
Qed.

Lemma decodeBase64_sound value maximum d : decodeBase64 value maximum = Some d → value = EncodeToString d ∧ zlen d <= maximum.
Proof.
  unfold decodeBase64. destruct (_ || _); [done|]. destruct (DecodeLenient value) as [d'|]; [|done]. cbn [mbind option_bind].
  destruct (Z.ltb_spec maximum (zlen d')); [done|]. destruct (String.eqb_spec (EncodeToString d') value) as [<-|]; [|done].
  by intros [= <-].
Qed.

Lemma decodeBase64_complete d maximum : zlen d <= maximum → decodeBase64 (EncodeToString d) maximum = Some d.
Proof.
  intros Hd. unfold decodeBase64. rewrite zlen_encode, decode_lenient_encode. cbn [mbind option_bind].
  rewrite (proj2 (Z.ltb_ge maximum 0)) by (unfold zlen in Hd; lia). rewrite (proj2 (Z.ltb_ge (EncodedLen maximum) _)).
  2:{ unfold EncodedLen. apply Z.mul_le_mono_nonneg_r; [lia|]. apply Z.div_le_mono; lia. }
  by rewrite (proj2 (Z.ltb_ge _ _) Hd), string_eqb_refl.
Qed.

Section Accepted.
Context `{ED : Ed25519} `{SE : SchemaEngine}.

(** [raw] is the canonical envelope of the payload under a signature of the key. *)
Definition signed_by (public payloadType payload raw : string) : Prop :=
  ∃ sig, slen sig = 64%nat ∧ ed_verify public (pae payloadType payload) sig = true ∧ raw = policy_envelope payloadType payload public sig.

Lemma authenticateEnvelope_sound raw payloadType public maxEnvelope maxPayload payload digest :
  authenticateEnvelope raw payloadType public (key_id public) maxEnvelope maxPayload = Some (payload, digest) →
  zlen payload <= maxPayload ∧ digest = digestBytes raw ∧ signed_by public payloadType payload raw.
Proof.
  unfold authenticateEnvelope. destruct (_ || _); [done|]. destruct (unmarshal_canonical true raw envelope_type) as [v|] eqn:Ev; [|done].
  apply unmarshal_sound in Ev as (Hraw & Hsh); [|done]. cbn [mbind option_bind].
  destruct (env_Signatures (envelope_of v)) as [|s [|]] eqn:Es; try done. rewrite (envelope_shape v s Hsh Es) in Hraw.
  destruct (String.eqb_spec (env_PayloadType (envelope_of v)) payloadType) as [Ht|]; [|done].
  destruct (String.eqb_spec (dsse_KeyID s) (key_id public)) as [Hk|]; [|done]. cbn [negb orb].
  destruct (decodeBase64 (env_Payload _) maxPayload) as [p|] eqn:Ep; [|done]. cbn [mbind option_bind].
  destruct (decodeBase64 (dsse_Sig s) _) as [sig|] eqn:Eg; [|done]. cbn [mbind option_bind].
  destruct (Nat.eqb_spec (slen sig) SignatureSize); [|done]. destruct (ed_verify _ _ sig) eqn:Eo; [|done]. cbn [negb orb].
  intros [= <- <-]. apply decodeBase64_sound in Ep as [Hp Hl]. apply decodeBase64_sound in Eg as [Hg _].
  split_and!; [done|done|]. exists sig. split_and!; [done|done|]. unfold policy_envelope. by rewrite Hraw, Ht, Hk, Hp, Hg.
Qed.

Lemma shaped_slice_nonempty {A} (f : value → A) t v :
  shaped (TSlice t) v → (1 <= length (List.map f (elements_of v)))%nat → ∃ l spare, v = GSlice (Some l) spare ∧ Forall (shaped t) l.
Proof. intros Hv. inversion Hv as [| | |t' sp Hsp|t' l sp Hl Hsp|]; subst; cbn; [lia|]. intros _. by exists l, sp. Qed.

Lemma policy_keys_shaped l : Forall (shaped key_type) l → List.map key_value (List.map key_of l) = l.
Proof.
  induction 1 as [|v l Hv _ IH]; [done|]. cbn [List.map]. rewrite IH. f_equal. unfold key_type in Hv. inv_shaped.
  cbn [snd] in *. inv_shaped. done.
Qed.
Lemma files_shaped l : Forall (shaped file_type) l → List.map file_value (List.map file_of l) = l.
Proof.
  induction 1 as [|v l Hv _ IH]; [done|]. cbn [List.map]. rewrite IH. f_equal. unfold file_type in Hv. inv_shaped.
  cbn [snd] in *. inv_shaped. done.
Qed.

(** The canonical text of an index. *)
Definition index_text (index : Index) : string := encode (doc_of index_type (index_value index)).

Lemma parse_index_sound raw index : ParseIndex raw = Ok index → raw = index_text index ∧ validateIndex index = true.
Proof.
  unfold ParseIndex. destruct (_ || _); [done|]. destruct (unmarshal_canonical true raw index_type) as [v|] eqn:Ev; [|done].
  cbn [of_option bind_result]. apply unmarshal_sound in Ev as (Hraw & Hsh); [|done].
  destruct (validateIndex (index_of v)) eqn:Ei; [|done]. cbn [negb]. intros [= <-]. split; [|done]. rewrite Hraw. unfold index_text.
  destruct (validateIndex_sound _ Ei) as (_ & [Hlen _] & _).
  unfold index_type, boundary_type in Hsh. inv_shaped. cbn [snd] in *. inv_shaped. cbn [snd] in *. inv_shaped.
  unfold index_of in *. cbn [member nth ix_Files] in Hlen.
  match goal with H : shaped (TSlice file_type) ?w |- _ => destruct (shaped_slice_nonempty file_of _ _ H Hlen) as (l & sp & -> & Hl) end.
  unfold index_value, boundary_of, boundary_value. cbn - [encode doc_of file_type]. unfold Datatypes.id. by rewrite (files_shaped l Hl).
Qed.

Lemma validate_policy_keys_sound first previous keys :
  validate_policy_keys first previous keys = true →
  Forall (λ k, validKeyID (pk_KeyID k) = true ∧ (pk_Status k = "trusted" ∨ pk_Status k = "revoked")) keys
  ∧ keys_sorted (status_pairs keys) = true
  ∧ (first = false → match keys with [] => True | k :: _ => key_lt previous (pk_KeyID k) = true end).
Proof.
  revert first previous. induction keys as [|k keys IH]; intros first previous; cbn [validate_policy_keys]; [by intros; split_and!; try constructor|].
  destruct (validDigest (pk_KeyID k)) eqn:Hv; [|done]. cbn [negb orb].
  destruct ((pk_Status k !=s "trusted") && (pk_Status k !=s "revoked")) eqn:Hs; [done|]. cbn [orb].
  destruct (negb first && negb (key_lt previous (pk_KeyID k))) eqn:Ho; [done|]. intros H. destruct (IH _ _ H) as (I1 & I2 & I3).
  specialize (I3 eq_refl). split_and!.
  - constructor; [|done]. split; [exact Hv|]. apply andb_false_iff in Hs. rewrite !negb_false_iff, !String.eqb_eq in Hs. exact Hs.
  - destruct keys as [|k' keys]; [done|]. cbn [status_pairs List.map keys_sorted fst] in *. by rewrite I3.
  - intros ->. cbn [negb andb] in Ho. by apply negb_false_iff in Ho.
Qed.

Lemma parse_policy_sound raw policy :
  ParsePolicyPayload raw = Ok policy →
  raw = release_policy_payload policy ∧ keys_ordered (rk_Keys policy) ∧ 1 <= rk_Generation policy <= MaxGeneration.
Proof.
  unfold ParsePolicyPayload. destruct (_ || _); [done|]. destruct (unmarshal_canonical true raw release_policy_type) as [v|] eqn:Ev; [|done].
  cbn [of_option bind_result]. apply unmarshal_sound in Ev as (Hraw & Hsh); [|done].
  destruct (validatePolicy (release_policy_of v)) eqn:Ei; [|done]. cbn [negb]. intros [= <-].
  unfold validatePolicy, validGeneration in Ei. rewrite !andb_true_iff, !Nat.leb_le, Z.ltb_lt, Z.leb_le in Ei.
  destruct Ei as [[[[[[_ [Hg Hgm]] _] _] Hlen] _] Hk]. destruct (validate_policy_keys_sound _ _ _ Hk) as (I1 & I2 & _).
  split_and!; [|split; [|done]|lia|done].
  - rewrite Hraw. unfold release_policy_payload. unfold release_policy_type in Hsh. inv_shaped. cbn [snd] in *. inv_shaped.
    unfold release_policy_of in *. cbn [member nth rk_Keys] in Hlen.
    match goal with H : shaped (TSlice key_type) ?w |- _ => destruct (shaped_slice_nonempty key_of _ _ H Hlen) as (l & sp & -> & Hl) end.
    unfold release_policy_value. cbn - [encode doc_of key_type]. unfold Datatypes.id. by rewrite (policy_keys_shaped l Hl).
  - eapply Forall_impl; [exact I1|]. naive_solver.
Qed.

Lemma policy_statuses_sound authority keys statuses statuses' :
  policy_statuses authority keys statuses = Some statuses' → NoDup (status_pairs keys).*1 →
  (∀ k, k ∈ keys → pk_KeyID k ≠ authority)
  ∧ ∀ id, statuses' !! id = match assoc id (status_pairs keys) with Some s => Some s | None => statuses !! id end.
Proof.
  revert statuses. induction keys as [|k keys IH]; intros statuses; cbn [policy_statuses].
  { intros [= <-] _. split; [by intros ? ?%not_elem_of_nil|done]. }
  destruct (String.eqb_spec (pk_KeyID k) authority) as [|Hne]; [done|]. intros Hs Hnd.
  cbn [status_pairs List.map] in Hnd. rewrite fmap_cons in Hnd. apply NoDup_cons in Hnd as [Hni Hnd].
  destruct (IH _ Hs Hnd) as [I1 I2]. split.
  - intros k' [->|Hin]%elem_of_cons; [done|by apply I1].
  - intros id. rewrite I2. cbn [status_pairs List.map assoc]. fold (status_pairs keys).
    destruct (String.eqb_spec (pk_KeyID k) id) as [<-|Hk]; [|by rewrite lookup_insert_ne].
    cbn [fst] in Hni. rewrite (proj2 (assoc_None_iff (pk_KeyID k) (status_pairs keys)) Hni). by rewrite lookup_insert_eq.
Qed.

(** C19: A release is accepted only under the caller's authority: the policy is
    the canonical envelope of a policy that the authority signed, of at least
    the requested generation; the index is the canonical text, signed under its
    own payload type by a key the policy lists as trusted and that is not the
    authority; its generation is at least the caller's floor, and its inventory
    has portable names, distinct even ignoring case, and bounded sizes. *)
Theorem release_acceptance_sound policyRaw authoritySPKI minimumPolicy p indexRaw envelopeRaw signerSPKI minimumRelease v :
  VerifyPolicy policyRaw authoritySPKI DefaultScope minimumPolicy = Ok p →
  VerifySignedIndex indexRaw envelopeRaw signerSPKI (Some p) DefaultScope minimumRelease = Ok v →
  ∃ authority signer policy,
    authoritySPKI = pem_text (spki_der authority) ∧ signerSPKI = pem_text (spki_der signer)
    ∧ slen authority = 32%nat ∧ slen signer = 32%nat
    ∧ signed_by authority PolicyPayloadType (release_policy_payload policy) policyRaw
    ∧ signed_by signer IndexPayloadType indexRaw envelopeRaw
    ∧ minimumPolicy <= rk_Generation policy <= MaxGeneration
    ∧ {| pk_KeyID := key_id signer; pk_Status := "trusted" |} ∈ rk_Keys policy ∧ key_id signer ≠ key_id authority
    ∧ indexRaw = index_text (vi_index v) ∧ inventory_ok (ix_Files (vi_index v))
    ∧ minimumRelease <= ix_ReleaseGeneration (vi_index v) <= MaxGeneration
    ∧ vi_signerKeyID v = key_id signer ∧ vi_indexDigest v = digestBytes indexRaw.
Proof.
  unfold VerifyPolicy. destruct (_ || _); [done|].
  destruct (parseCanonicalSPKI authoritySPKI) as [[authority ader]|] eqn:Ea; [|done]. cbn [of_option bind_result].
  apply parseCanonicalSPKI_ok in Ea as (Hal & -> & Ha). change (digestBytes (spki_der authority)) with (key_id authority).
  destruct (authenticateEnvelope policyRaw _ _ _ _ _) as [[payload denv]|] eqn:Ee; [|done]. cbn [of_option bind_result].
  apply authenticateEnvelope_sound in Ee as (_ & _ & Hpsig).
  destruct (ParsePolicyPayload payload) as [policy|] eqn:Ep; [|done]. cbn [bind_result].
  apply parse_policy_sound in Ep as (Hpay & [Hkv Hks] & Hpg).
  destruct (_ || (rk_Generation policy <? minimumPolicy)) eqn:Eg; [done|]. apply orb_false_iff in Eg as [_ Eg]. apply Z.ltb_ge in Eg.
  destruct (policy_statuses _ _ _) as [statuses|] eqn:Es; [|done]. cbn [of_option bind_result]. intros [= <-].
  apply keys_sorted_NoDup in Hks as Hnd. destruct (policy_statuses_sound _ _ _ _ Es Hnd) as [_ Hst].
  unfold VerifySignedIndex, AuthenticateSignedIndex. destruct (_ || _); [done|].
  destruct (ParseIndex indexRaw) as [index|] eqn:Ei; [|done]. cbn [map_err bind_result].
  apply parse_index_sound in Ei as [Hiraw Hiv]. destruct (_ || _); [done|].
  destruct (parseCanonicalSPKI signerSPKI) as [[signer sder]|] eqn:Esg; [|done]. cbn [of_option bind_result].
  apply parseCanonicalSPKI_ok in Esg as (Hsl & -> & Hs). change (digestBytes (spki_der signer)) with (key_id signer). cbv zeta.
  destruct (authenticateEnvelope envelopeRaw _ _ _ _ _) as [[ipayload ienv]|] eqn:Eie; [|done]. cbn [of_option bind_result].
  apply authenticateEnvelope_sound in Eie as (_ & _ & Hisig).
  destruct (String.eqb_spec ipayload indexRaw) as [->|]; [|done]. cbn [negb bind_result]. unfold AuthorizeSignedIndex.
  destruct (negb _); [done|]. cbn [ai_signerKeyID vp_authorityKeyID ai_index ai_minimumReleaseGeneration].
  destruct (String.eqb_spec (key_id signer) (key_id authority)) as [|Hne]; [done|].
  cbn [ReleaseEvaluateSignerKeyID vp_statuses]. destruct (negb _); [done|].
  destruct (decision_of statuses (key_id signer)) eqn:Ed; [|done..].
  destruct (Z.ltb_spec (ix_ReleaseGeneration index) minimumRelease); [done|]. intros [= <-].
  destruct (validateIndex_sound _ Hiv) as (Hinv & _ & Hgen & _). exists authority, signer, policy.
  cbn [vi_index vi_signerKeyID vi_indexDigest]. rewrite <- Hpay.
  split_and!; first [assumption|lia|reflexivity|idtac].
  apply (decision_of_listed statuses (key_id signer) (rk_Keys policy)); [|done|done].
  intros id. rewrite Hst. by destruct (assoc id _).
Qed.
End Accepted.

(** ** The directory holds what the index says *)

Definition read_limit (path : string) : Z := if path =s "SHA256SUMS" then MaxSHA256SUMSBytes else MaxArtifactBytes.

(** The entry is what one stable read of the scan saw. *)
Definition seen_file (w : scan_world) (f : FileEntry) (identity : Z) : Prop :=
  ∃ raw, sw_file w (fe_Path f) (read_limit (fe_Path f)) (fe_Path f =s "SHA256SUMS")
         = Some (raw, {| ss_size := fe_Size f; ss_digest := fe_SHA256 f; ss_identity := identity |}).

Lemma scan_files_sound w names total sums entries identities sums' :
  scan_files (sw_file w) names total sums = Some (entries, identities, sums') →
  List.map fe_Path entries = names ∧ Forall2 (seen_file w) entries identities
  ∧ (sums' = sums ∨ ∃ stat, sw_file w "SHA256SUMS" MaxSHA256SUMSBytes true = Some (sums', stat)).
Proof.
  revert total sums entries identities sums'. induction names as [|name names IH]; intros total sums entries identities sums'; cbn [scan_files].
  { intros [= <- <- <-]. split_and!; [done|constructor|by left]. }
  destruct (negb (portableBaseName name)); [done|].
  destruct (sw_file w name _ _) as [[raw [size digest identity]]|] eqn:Ef; [|done]. cbn [mbind option_bind ss_size ss_digest ss_identity].
  destruct (_ || _ || _); [done|]. destruct (scan_files _ names _ _) as [[[es ids] ss]|] eqn:Es; [|done].
  cbn [mbind option_bind]. intros [= <- <- <-]. destruct (IH _ _ _ _ _ Es) as (I1 & I2 & I3). split_and!.
  - cbn [List.map fe_Path]. by rewrite I1.
  - constructor; [|done]. by exists raw.
  - destruct I3 as [->|I3]; [|by right]. destruct (String.eqb_spec name "SHA256SUMS") as [->|]; [|by left]. right. by eexists.
Qed.

Lemma sort_names_elem n names : n ∈ sort_names names ↔ n ∈ names.
Proof.
  unfold sort_names. rewrite list_elem_of_fmap. split.
  - intros ([m []] & -> & Hm). rewrite sort_keys_elem in Hm. by apply list_elem_of_fmap in Hm as (? & [= ->] & ?).
  - intros Hn. exists (n, tt). split; [done|]. rewrite sort_keys_elem. apply list_elem_of_fmap. by exists n.
Qed.

(** The listing has exactly the paths. *)
Definition lists (listing : option (list string)) (paths : list string) : Prop :=
  ∃ names, listing = Some names ∧ ∀ n, n ∈ names ↔ n ∈ paths.

Lemma directoryNames_lists listing paths : directoryNames listing = Some paths → lists listing paths.
Proof.
  unfold directoryNames. destruct listing as [names|]; [|done]. cbn [mbind option_bind]. destruct (portable_names names []); [|done].
  intros [= <-]. exists names. split; [done|]. intros n. by rewrite sort_names_elem.
Qed.

(** What one scan establishes about a list of entries. *)
Definition scanned (w : scan_world) (entries : list FileEntry) (identities : list Z) : Prop :=
  lists (sw_before w) (List.map fe_Path entries) ∧ lists (sw_after w) (List.map fe_Path entries)
  ∧ Forall2 (seen_file w) entries identities
  ∧ ∃ raw stat, sw_file w "SHA256SUMS" MaxSHA256SUMSBytes true = Some (Some raw, stat)
      ∧ raw = string_concat (sums_lines entries) ∧ sums_lines entries ≠ [].

Lemma scanArtifactRoot_sound w expected entries identities :
  scanArtifactRoot w expected = Some (entries, identities) → scanned w entries identities.
Proof.
  unfold scanArtifactRoot. destruct (directoryNames (sw_before w)) as [before|] eqn:Eb; [|done]. cbn [mbind option_bind].
  destruct (_ || _ || _); [done|]. destruct (scan_files (sw_file w) before 0 None) as [[[es ids] sums]|] eqn:Es; [|done]. cbn [mbind option_bind].
  destruct (directoryNames (sw_after w)) as [after|] eqn:Ea; [|done]. cbn [mbind option_bind].
  destruct (bool_decide (before = after)) eqn:Ed; [|done]. apply bool_decide_eq_true in Ed as <-. cbn [negb orb].
  destruct (validateSHA256SUMS es sums) eqn:Ev; [|done]. cbn [negb]. intros [= <- <-].
  apply scan_files_sound in Es as (Hp & Hf & Hs). apply directoryNames_lists in Eb, Ea. rewrite <- Hp in Eb, Ea.
  unfold validateSHA256SUMS in Ev. destruct sums as [raw|]; [|done]. apply andb_prop in Ev as [Hn Hr].
  apply negb_true_iff, Nat.eqb_neq in Hn. apply String.eqb_eq in Hr. destruct Hs as [|[stat Hs]]; [done|].
  split_and!; [done|done|done|]. exists raw, stat. split_and!; [done|done|]. intros E. by rewrite E in Hn.
Qed.

(** C20: Artifacts are verified only if both scans of the directory list exactly
    the paths of the index before and after, read every file with the size and
    digest the index gives it and with one identity in both scans, and find the
    checksum file to be the canonical listing of the other entries; the final
    listing has the same names and the directory is the one first opened. *)
Theorem artifacts_match_index w v :
  VerifyArtifacts w (Some v) = None →
  ∃ identities, scanned (rw_first w) (ix_Files (vi_index v)) identities ∧ scanned (rw_second w) (ix_Files (vi_index v)) identities
    ∧ lists (rw_final w) (List.map fe_Path (ix_Files (vi_index v))) ∧ rw_directory w = true
    ∧ ∃ d, rw_before w = Some d ∧ rw_after w = Some d.
Proof.
  unfold VerifyArtifacts, inspectArtifactRoot. destruct (rw_directory w); [|done]. cbn [negb].
  destruct (rw_before w) as [db|]; [|done]. cbn [mbind option_bind].
  destruct (scanArtifactRoot (rw_first w) _) as [[e1 i1]|] eqn:E1; [|done]. cbn [mbind option_bind].
  destruct (scanArtifactRoot (rw_second w) _) as [[e2 i2]|] eqn:E2; [|done]. cbn [mbind option_bind].
  destruct (bool_decide ((e1, i1) = (e2, i2))) eqn:Ee; [|done]. apply bool_decide_eq_true in Ee. injection Ee as <- <-. cbn [negb].
  destruct (rw_after w) as [da|]; [|done]. cbn [mbind option_bind].
  destruct (directoryNames (rw_final w)) as [fin|] eqn:Ef; [|done]. cbn [mbind option_bind fst].
  destruct (Z.eqb_spec db da) as [<-|]; [|done]. destruct (bool_decide (fin = List.map fe_Path e1)) eqn:En; [|done].
  apply bool_decide_eq_true in En as ->. cbn [negb orb]. destruct (bool_decide (e1 = _)) eqn:Ex; [|done].
  apply bool_decide_eq_true in Ex as <-. intros _. exists i1. apply directoryNames_lists in Ef.
  split_and!; [by eapply scanArtifactRoot_sound|by eapply scanArtifactRoot_sound|done|done|by exists db].
Qed.

(** ** Examples *)

Definition example_sums : string := string_concat ["ab"; "  a.zip"; newline].
Definition digest_of_letters (c : ascii) : string := "sha256:" +:+ string_concat (replicate 64 (String c "")).
Definition example_entries : list FileEntry :=
  [{| fe_Path := "SHA256SUMS"; fe_SHA256 := digest_of_letters "a"; fe_Size := 73 |};
   {| fe_Path := "a.zip"; fe_SHA256 := digest_of_letters "b"; fe_Size := 5 |}].
Definition example_scan : scan_world :=
  {| sw_before := Some ["a.zip"; "SHA256SUMS"]; sw_after := Some ["a.zip"; "SHA256SUMS"];
     sw_file := λ name _ retain,
       if name =s "SHA256SUMS"
       then Some (Some (string_concat (sums_lines example_entries)), {| ss_size := 73; ss_digest := digest_of_letters "a"; ss_identity := 1 |})
       else Some (None, {| ss_size := 5; ss_digest := digest_of_letters "b"; ss_identity := 2 |}) |}.
Definition example_world : root_world :=
  {| rw_directory := true; rw_before := Some 9; rw_first := example_scan; rw_second := example_scan; rw_after := Some 9;
     rw_final := Some ["a.zip"; "SHA256SUMS"] |}.
Definition example_index : Index :=
  {| ix_ArtifactType := IndexArtifactType; ix_Channel := Channel; ix_Files := example_entries; ix_Product := Product;
     ix_ProductVersion := ProductVersion; ix_ReleaseGeneration := 33; ix_SchemaVersion := SchemaVersion;
     ix_TrustBoundary := requiredTrustBoundary |}.
Definition example_verified : VerifiedIndex :=
  {| vi_index := example_index; vi_indexRaw := index_text example_index; vi_indexDigest := ""; vi_envelopeDigest := ""; vi_signerKeyID := "" |}.

Lemma artifacts_match_index_witness :
  VerifyArtifacts example_world (Some example_verified) = None
  ∧ ∃ identities, scanned example_scan example_entries identities.
Proof.
  split; [vm_compute; reflexivity|].
  destruct (artifacts_match_index example_world example_verified) as (identities & H & _); [vm_compute; reflexivity|].
  exists identities. exact H.
Defined.

Definition signer_seed := "ssssssssssssssssssssssssssssssss".
Definition authority_seed := "aaaaaaaaaaaaaaaaaaaaaaaaaaaaaaaa".
Definition example_release_policy : Policy :=
  {| rk_SchemaVersion := SchemaVersion; rk_Product := Product; rk_Channel := Channel; rk_Purpose := Purpose; rk_Generation := 4;
     rk_KeyAlgorithm := "ed25519"; rk_KeyIDAlgorithm := "spki-sha256";
     rk_Keys := [{| pk_KeyID := key_id (@ed_public hash_signatures signer_seed); pk_Status := "trusted" |}] |}.
Definition text_or_empty {E} (r : result E string) : string := match r with Ok s => s | Err _ => "" end.
Definition example_policy_raw : string := text_or_empty (@SignPolicy hash_signatures example_release_policy authority_seed).
Definition example_index_raw : string := index_text example_index.
Definition example_index_envelope : string :=
  (@signPayload hash_signatures IndexPayloadType example_index_raw signer_seed).1.
Definition public_pem (seed : string) : string := pem_text (spki_der (@ed_public hash_signatures seed)).

Lemma release_acceptance_sound_witness :
  ∃ p v, @VerifyPolicy hash_signatures any_schema example_policy_raw (public_pem authority_seed) DefaultScope 2 = Ok p
  ∧ @VerifySignedIndex hash_signatures any_schema example_index_raw example_index_envelope (public_pem signer_seed) (Some p) DefaultScope 30 = Ok v
  ∧ inventory_ok (ix_Files (vi_index v)).
Proof.
  assert (match @VerifyPolicy hash_signatures any_schema example_policy_raw (public_pem authority_seed) DefaultScope 2 with
          | Ok p => match @VerifySignedIndex hash_signatures any_schema example_index_raw example_index_envelope (public_pem signer_seed)
                            (Some p) DefaultScope 30 with Ok _ => true | Err _ => false end
          | Err _ => false end = true) as H by (vm_compute; reflexivity).
  revert H. destruct (@VerifyPolicy hash_signatures any_schema example_policy_raw (public_pem authority_seed) DefaultScope 2) as [p|] eqn:Ep;
    [|intros H; discriminate H].
  destruct (@VerifySignedIndex hash_signatures any_schema example_index_raw example_index_envelope (public_pem signer_seed)
    (Some p) DefaultScope 30) as [v|] eqn:Ev; [|intros H; discriminate H].
  intros _. exists p, v. split; [reflexivity|]. split; [exact Ev|].
  destruct (@release_acceptance_sound hash_signatures any_schema _ _ _ _ _ _ _ _ _ Ep Ev)
    as (a & s & pol & _ & _ & _ & _ & _ & _ & _ & _ & _ & _ & Hinv & _). exact Hinv.
Defined.
