(* ===== verification/ReleaseTransition.v ===== *)
(** * Rotation of the release-policy authority (internal/releaseindex)

    One transition between policy authorities ([transition.go]) and the chain of
    two to eight transitions from an explicit root to an explicit terminal key
    ([transition_chain.go]).  The loop over the hops is that of [TransitionWalk].
    As in [ReleaseIndex], a private key is given by its seed. *)

From S2P Require Import Prelude Sha256 Json StructuredJson JsonUnmarshal SemanticEqual GoValue CanonicalJson GoPath GoStruct Base64 Dsse TrustPolicy TransitionWalk ReleaseIndex.

Local Open Scope Z_scope.

Definition AuthorityTransitionPurpose := "release-policy-authority-rotation".
Definition MaxAuthorityTransitionBytes : Z := 16 * 2 ^ 10.
Definition MaxAuthorityTransitionEnvelopeBytes : Z := 32 * 2 ^ 10.
Definition AuthorityTransitionChainPurpose := "release-policy-authority-rotation-chain".
Definition AuthorityTransitionChainMinHops : nat := 2.
Definition AuthorityTransitionChainMaxHops : nat := 8.
Definition MaxAuthorityTransitionChainBytes : Z := 256 * 2 ^ 10.
Definition authorityTransitionChainDigestTag : string :=
  "repopass.release-authority-transition-chain.v1" +:+ String (byte_of 0) "".

Inductive release_transition_error :=
  | ErrAuthorityTransitionInvalid
  | ErrAuthorityTransitionChainInvalid.

(** ** One transition *)

Record AuthorityTransition := {
  rt_SchemaVersion : string; rt_Product : string; rt_Channel : string; rt_Purpose : string; rt_Generation : Z;
  rt_KeyAlgorithm : string; rt_KeyIDAlgorithm : string; rt_PreviousAuthorityKeyID : string; rt_NextAuthorityKeyID : string
}.

Definition release_transition_type : ty :=
  TStruct [("schemaVersion", TString); ("product", TString); ("channel", TString); ("purpose", TString);
           ("generation", TUint64); ("keyAlgorithm", TString); ("keyIdAlgorithm", TString);
           ("previousAuthorityKeyId", TString); ("nextAuthorityKeyId", TString)].
Definition release_transition_of (v : value) : AuthorityTransition :=
  {| rt_SchemaVersion := text_of (member v 0); rt_Product := text_of (member v 1); rt_Channel := text_of (member v 2);
     rt_Purpose := text_of (member v 3); rt_Generation := uint_of (member v 4); rt_KeyAlgorithm := text_of (member v 5);
     rt_KeyIDAlgorithm := text_of (member v 6); rt_PreviousAuthorityKeyID := text_of (member v 7);
     rt_NextAuthorityKeyID := text_of (member v 8) |}.
Definition release_transition_value (t : AuthorityTransition) : value :=
  GStruct [GStr (rt_SchemaVersion t); GStr (rt_Product t); GStr (rt_Channel t); GStr (rt_Purpose t); GUint (rt_Generation t);
           GStr (rt_KeyAlgorithm t); GStr (rt_KeyIDAlgorithm t); GStr (rt_PreviousAuthorityKeyID t);
           GStr (rt_NextAuthorityKeyID t)].

Record VerifiedAuthorityTransition := {
  rv_transition : AuthorityTransition; rv_payloadDigest : string; rv_envelopeDigest : string
}.

Definition DefaultAuthorityTransitionScope : Scope :=
  {| sc_Product := Product; sc_Channel := Channel; sc_Purpose := AuthorityTransitionPurpose |}.
Definition validAuthorityTransitionScope (scope : Scope) : bool := bool_decide (scope = DefaultAuthorityTransitionScope).

Definition validateAuthorityTransition (t : AuthorityTransition) : bool :=
  negb ((rt_SchemaVersion t !=s SchemaVersion) || (rt_Product t !=s Product) || (rt_Channel t !=s Channel)
        || (rt_Purpose t !=s AuthorityTransitionPurpose) || negb (validGeneration (rt_Generation t))
        || (rt_KeyAlgorithm t !=s "ed25519") || (rt_KeyIDAlgorithm t !=s "spki-sha256")
        || negb (validDigest (rt_PreviousAuthorityKeyID t)) || negb (validDigest (rt_NextAuthorityKeyID t))
        || (rt_PreviousAuthorityKeyID t =s rt_NextAuthorityKeyID t)).

(** The transition the issuer signs, and its canonical payload. *)
Definition release_transition_document (scope : Scope) (generation : Z) (previousID nextID : string) : AuthorityTransition :=
  {| rt_SchemaVersion := SchemaVersion; rt_Product := sc_Product scope; rt_Channel := sc_Channel scope;
     rt_Purpose := sc_Purpose scope; rt_Generation := generation; rt_KeyAlgorithm := "ed25519";
     rt_KeyIDAlgorithm := "spki-sha256"; rt_PreviousAuthorityKeyID := previousID; rt_NextAuthorityKeyID := nextID |}.
Definition release_transition_text (t : AuthorityTransition) : string :=
  encode (doc_of release_transition_type (release_transition_value t)).

Section Transitions.
Context `{ED : Ed25519} `{SE : SchemaEngine}.

Definition ParseAuthorityTransitionPayload (raw : string) : result release_transition_error AuthorityTransition :=
  let invalid := ErrAuthorityTransitionInvalid in
  fail_if (negb (validRawJSON raw MaxAuthorityTransitionBytes)
           || negb (validateDerivedSchemaJSON raw (16 * 2 ^ 10) 8 64 "release-authority-transition-v1.schema.json")) with invalid ;;
  let! v := of_option invalid (unmarshal_canonical true raw release_transition_type) in
  fail_if (negb (validateAuthorityTransition (release_transition_of v))) with invalid ;;
  Ok (release_transition_of v).

Definition VerifyAuthorityTransition (envelopeRaw previousAuthoritySPKI nextAuthoritySPKI : string) (scope : Scope)
  (minimumGeneration : Z) : result release_transition_error VerifiedAuthorityTransition :=
  let invalid := ErrAuthorityTransitionInvalid in
  fail_if (negb (validAuthorityTransitionScope scope) || negb (validGeneration minimumGeneration)) with invalid ;;
  let! (previousPublic, previousDER) := of_option invalid (parseCanonicalSPKI previousAuthoritySPKI) in
  let! (_, nextDER) := of_option invalid (parseCanonicalSPKI nextAuthoritySPKI) in
  let previousID := digestBytes previousDER in
  let nextID := digestBytes nextDER in
  fail_if (previousID =s nextID) with invalid ;;
  let! (payload, envelopeDigest) := of_option invalid
    (authenticateEnvelope envelopeRaw AuthorityTransitionPayloadType previousPublic previousID
       MaxAuthorityTransitionEnvelopeBytes MaxAuthorityTransitionBytes) in
  let! transition := ParseAuthorityTransitionPayload payload in
  fail_if ((rt_Product transition !=s sc_Product scope) || (rt_Channel transition !=s sc_Channel scope)
           || (rt_Purpose transition !=s sc_Purpose scope) || (rt_PreviousAuthorityKeyID transition !=s previousID)
           || (rt_NextAuthorityKeyID transition !=s nextID) || (rt_Generation transition <? minimumGeneration)) with invalid ;;
  Ok {| rv_transition := transition; rv_payloadDigest := digestBytes payload; rv_envelopeDigest := envelopeDigest |}.

Definition SignAuthorityTransition (nextAuthoritySPKI : string) (generation : Z) (seed : string) (scope : Scope)
  : result release_error (string * string) :=
  let failed := ErrSigningFailed in
  fail_if (negb (validAuthorityTransitionScope scope) || negb (validGeneration generation)
           || negb (validPrivateKey (NewKeyFromSeed seed))) with failed ;;
  let! (_, nextDER) := of_option failed (parseCanonicalSPKI nextAuthoritySPKI) in
  let previousDER := spki_der (ed_public seed) in
  let previousSPKI := pem_text previousDER in
  let transition := release_transition_document scope generation (digestBytes previousDER) (digestBytes nextDER) in
  fail_if (negb (validateAuthorityTransition transition)) with failed ;;
  let payload := release_transition_text transition in
  fail_if (MaxAuthorityTransitionBytes <? zlen payload) with failed ;;
  let '(envelopeRaw, returnedPreviousSPKI) := signPayload AuthorityTransitionPayloadType payload seed in
  fail_if ((MaxAuthorityTransitionEnvelopeBytes <? zlen envelopeRaw) || (previousSPKI !=s returnedPreviousSPKI)) with failed ;;
  let! _ := map_err (λ _, failed) (VerifyAuthorityTransition envelopeRaw previousSPKI nextAuthoritySPKI scope generation) in
  Ok (envelopeRaw, previousSPKI).

(** ** Chains *)

Record AuthorityTransitionChain := {
  rc_SchemaVersion : string; rc_Product : string; rc_Channel : string; rc_Purpose : string; rc_Hops : list chain_hop
}.
Definition release_chain_type : ty :=
  TStruct [("schemaVersion", TString); ("product", TString); ("channel", TString); ("purpose", TString); ("hops", TSlice hop_type)].
Definition release_chain_of (v : value) : AuthorityTransitionChain :=
  {| rc_SchemaVersion := text_of (member v 0); rc_Product := text_of (member v 1); rc_Channel := text_of (member v 2);
     rc_Purpose := text_of (member v 3); rc_Hops := List.map hop_of (elements_of (member v 4)) |}.
Definition release_chain_value (c : AuthorityTransitionChain) : value :=
  GStruct [GStr (rc_SchemaVersion c); GStr (rc_Product c); GStr (rc_Channel c); GStr (rc_Purpose c);
           GSlice (Some (List.map hop_value (rc_Hops c))) []].

Record VerifiedAuthorityTransitionChain := {
  rvc_rootAuthorityKeyID : string; rvc_terminalAuthorityKeyID : string; rvc_terminalGeneration : Z; rvc_hopCount : nat;
  rvc_digest : string
}.

Definition DefaultAuthorityTransitionChainScope : Scope :=
  {| sc_Product := Product; sc_Channel := Channel; sc_Purpose := AuthorityTransitionChainPurpose |}.

Definition validateAuthorityTransitionChainShape (c : AuthorityTransitionChain) : bool :=
  negb ((rc_SchemaVersion c !=s SchemaVersion) || (rc_Product c !=s Product) || (rc_Channel c !=s Channel)
        || (rc_Purpose c !=s AuthorityTransitionChainPurpose) || (length (rc_Hops c) <? AuthorityTransitionChainMinHops)%nat
        || (AuthorityTransitionChainMaxHops <? length (rc_Hops c))%nat).

Definition decodeCanonicalBase64 (encoded : string) (maximum : Z) : option string :=
  if encoded =s "" then None
  else
    let? raw := DecodeLenient encoded in
    if (slen raw =? 0)%nat || (maximum <? zlen raw) || (EncodeToString raw !=s encoded) then None else Some raw.

Definition verify_release_hop (envelopeRaw currentSPKI nextSPKI : string) : option Z :=
  match VerifyAuthorityTransition envelopeRaw currentSPKI nextSPKI DefaultAuthorityTransitionScope 1 with
  | Ok verified => Some (rt_Generation (rv_transition verified))
  | Err _ => None
  end.

Definition VerifyAuthorityTransitionChain (raw explicitRootSPKI explicitTerminalSPKI : string) (scope : Scope)
  (minimumGeneration : Z) : result release_transition_error VerifiedAuthorityTransitionChain :=
  let invalid := ErrAuthorityTransitionChainInvalid in
  fail_if (negb (bool_decide (scope = DefaultAuthorityTransitionChainScope)) || negb (validGeneration minimumGeneration)
           || (slen raw =? 0)%nat || (MaxAuthorityTransitionChainBytes <? zlen raw)
           || negb (validateDerivedSchemaJSON raw (256 * 2 ^ 10) 8 64 "release-authority-transition-chain-v1.schema.json"))
    with invalid ;;
  let! v := of_option invalid (unmarshal_canonical true raw release_chain_type) in
  let chain := release_chain_of v in
  fail_if (negb (validateAuthorityTransitionChainShape chain)) with invalid ;;
  let! (_, rootDER) := of_option invalid (parseCanonicalSPKI explicitRootSPKI) in
  let! (_, terminalDER) := of_option invalid (parseCanonicalSPKI explicitTerminalSPKI) in
  let rootID := digestBytes rootDER in
  let terminalID := digestBytes terminalDER in
  let! st := of_option invalid
    (walk parseCanonicalSPKI decodeCanonicalBase64 verify_release_hop
       {| ws_ids := [rootID]; ws_currentSPKI := explicitRootSPKI; ws_previousGeneration := 0 |} (rc_Hops chain)) in
  fail_if ((ws_previousGeneration st <? minimumGeneration) || (terminalID =s rootID)
           || (ws_currentSPKI st !=s explicitTerminalSPKI)) with invalid ;;
  Ok {| rvc_rootAuthorityKeyID := rootID; rvc_terminalAuthorityKeyID := terminalID;
        rvc_terminalGeneration := ws_previousGeneration st; rvc_hopCount := length (rc_Hops chain);
        rvc_digest := digestBytes (authorityTransitionChainDigestTag +:+ raw) |}.

(** The loop over the authoring inputs. *)
Fixpoint release_chain_hops (hopEnvelopes hopNextAuthoritySPKIs : list string) : option (list chain_hop) :=
  match hopEnvelopes, hopNextAuthoritySPKIs with
  | envelope :: envelopes, next :: nexts =>
      if (slen envelope =? 0)%nat || (MaxAuthorityTransitionEnvelopeBytes <? zlen envelope)
         || (slen next =? 0)%nat || (MaxPublicKeyBytes <? zlen next) then None
      else
        let? rest := release_chain_hops envelopes nexts in
        Some ({| hop_TransitionEnvelope := EncodeToString envelope; hop_NextAuthoritySPKI := EncodeToString next |} :: rest)
  | _, _ => Some []
  end.

Definition release_chain_document (hops : list chain_hop) : AuthorityTransitionChain :=
  {| rc_SchemaVersion := SchemaVersion; rc_Product := Product; rc_Channel := Channel;
     rc_Purpose := AuthorityTransitionChainPurpose; rc_Hops := hops |}.
Definition release_chain_text (hops : list chain_hop) : string :=
  encode (doc_of release_chain_type (release_chain_value (release_chain_document hops))).

Definition BuildAuthorityTransitionChain (hopEnvelopes hopNextAuthoritySPKIs : list string) (explicitRootSPKI : string)
  (scope : Scope) : result release_transition_error string :=
  let invalid := ErrAuthorityTransitionChainInvalid in
  fail_if ((length hopEnvelopes <? AuthorityTransitionChainMinHops)%nat
           || (AuthorityTransitionChainMaxHops <? length hopEnvelopes)%nat
           || negb (length hopEnvelopes =? length hopNextAuthoritySPKIs)%nat
           || negb (bool_decide (scope = DefaultAuthorityTransitionChainScope))) with invalid ;;
  let! hops := of_option invalid (release_chain_hops hopEnvelopes hopNextAuthoritySPKIs) in
  let raw := release_chain_text hops in
  fail_if (MaxAuthorityTransitionChainBytes <? zlen raw) with invalid ;;
  let! _ := map_err (λ _, invalid)
    (VerifyAuthorityTransitionChain raw explicitRootSPKI (List.last hopNextAuthoritySPKIs "") scope 1) in
  Ok raw.
End Transitions.

(** ** What a verified transition and an accepted chain are *)

Section Sound.
Context `{ED : Ed25519} `{SE : SchemaEngine}.

(** An envelope in which the previous key names the next one. *)
Definition signed_release_transition (previousKey nextKey : string) (generation : Z) (envelope : string) : Prop :=
  signed_by previousKey AuthorityTransitionPayloadType
    (release_transition_text (release_transition_document DefaultAuthorityTransitionScope generation
       (key_id previousKey) (key_id nextKey))) envelope.

Lemma parse_release_transition_sound raw t :
  ParseAuthorityTransitionPayload raw = Ok t →
  1 <= rt_Generation t <= MaxGeneration ∧ raw = release_transition_text t
  ∧ t = release_transition_document DefaultAuthorityTransitionScope (rt_Generation t)
          (rt_PreviousAuthorityKeyID t) (rt_NextAuthorityKeyID t).
Proof.
  unfold ParseAuthorityTransitionPayload. destruct (_ || _); [done|].
  destruct (unmarshal_canonical true raw release_transition_type) as [v|] eqn:Ev; [|done]. cbn [of_option bind_result].
  apply unmarshal_sound in Ev as (Hraw & Hsh); [|done].
  destruct (validateAuthorityTransition (release_transition_of v)) eqn:Ei; [|done]. cbn [negb]. intros [= <-].
  unfold validateAuthorityTransition in Ei. apply negb_true_iff in Ei. to_prop.
  unfold release_transition_type in Hsh. inv_shaped. cbn [snd] in *. inv_shaped.
  unfold release_transition_of in *. cbn [member nth text_of uint_of rt_SchemaVersion rt_Product rt_Channel rt_Purpose rt_Generation
    rt_KeyAlgorithm rt_KeyIDAlgorithm rt_PreviousAuthorityKeyID rt_NextAuthorityKeyID] in *.
  unfold validGeneration in *. subst. split_and!; try done; try lia.
Qed.

Lemma verify_release_transition_sound raw previousSPKI nextSPKI minimum v :
  VerifyAuthorityTransition raw previousSPKI nextSPKI DefaultAuthorityTransitionScope minimum = Ok v →
  ∃ previousKey nextKey, slen previousKey = 32%nat ∧ slen nextKey = 32%nat
    ∧ previousSPKI = pem_text (spki_der previousKey) ∧ nextSPKI = pem_text (spki_der nextKey)
    ∧ key_id previousKey ≠ key_id nextKey ∧ minimum <= rt_Generation (rv_transition v) <= MaxGeneration
    ∧ signed_release_transition previousKey nextKey (rt_Generation (rv_transition v)) raw.
Proof.
  unfold VerifyAuthorityTransition. destruct (_ || _); [done|].
  destruct (parseCanonicalSPKI previousSPKI) as [[pk pder]|] eqn:Ep; [|done].
  destruct (parseCanonicalSPKI nextSPKI) as [[nk nder]|] eqn:En; [|done]. cbn [of_option bind_result].
  apply parseCanonicalSPKI_ok in Ep as (Hpl & -> & Hp), En as (Hnl & -> & Hn).
  destruct (String.eqb_spec (digestBytes (spki_der pk)) (digestBytes (spki_der nk))) as [|Hne]; [done|].
  destruct (authenticateEnvelope _ _ _ _ _ _) as [[payload digest]|] eqn:Ea; [|done]. cbn [of_option bind_result].
  apply (authenticateEnvelope_sound raw _ pk) in Ea as (_ & _ & Hs).
  destruct (ParseAuthorityTransitionPayload payload) as [t|] eqn:Et; [|done]. cbn [bind_result].
  apply parse_release_transition_sound in Et as ([_ Hg] & Hpay & Ht).
  destruct (_ || _) eqn:Eb; [done|]. intros [= <-]. cbn [rv_transition]. to_prop.
  exists pk, nk. split_and!; try done. unfold signed_release_transition.
  change (key_id pk) with (digestBytes (spki_der pk)). change (key_id nk) with (digestBytes (spki_der nk)).
  repeat match goal with H : _ = digestBytes _ |- _ => rewrite <- H; clear H end. by rewrite <- Ht, <- Hpay.
Qed.

Lemma verify_release_hop_sound envelope key next generation :
  verify_release_hop envelope (pem_text (spki_der key)) (pem_text (spki_der next)) = Some generation →
  generation <= maxTransitionGeneration ∧ signed_release_transition key next generation envelope.
Proof.
  unfold verify_release_hop. destruct (VerifyAuthorityTransition _ _ _ _ _) as [v|] eqn:E; [|done]. intros [= <-].
  apply verify_release_transition_sound in E as (pk & nk & _ & _ & Hp & Hn & _ & Hg & Hs).
  apply pem_text_inj, spki_der_inj in Hp as <-, Hn as <-. split; [apply Hg|exact Hs].
Qed.

Lemma canonical_base64_sound encoded maximum raw :
  decodeCanonicalBase64 encoded maximum = Some raw → encoded = EncodeToString raw.
Proof.
  unfold decodeCanonicalBase64. destruct (encoded =s ""); [done|].
  destruct (DecodeLenient encoded) as [d|]; [|done]. cbn [mbind option_bind]. destruct (_ || _) eqn:E; [done|].
  intros [= <-]. to_prop. done.
Qed.

Lemma release_chain_shape v :
  shaped release_chain_type v → validateAuthorityTransitionChainShape (release_chain_of v) = true →
  encode (doc_of release_chain_type v) = release_chain_text (rc_Hops (release_chain_of v))
  ∧ (2 <= length (rc_Hops (release_chain_of v)) <= 8)%nat.
Proof.
  unfold validateAuthorityTransitionChainShape. intros Hsh Hv. apply negb_true_iff in Hv.
  apply orb_false_iff in Hv as [Hv H8]. apply orb_false_iff in Hv as [Hv H2]. apply Nat.ltb_ge in H8, H2.
  unfold AuthorityTransitionChainMaxHops, AuthorityTransitionChainMinHops in *.
  to_prop. split; [|lia]. unfold release_chain_type in Hsh. inv_shaped. cbn [snd] in *. inv_shaped.
  unfold release_chain_of in *. cbn [member nth text_of rc_SchemaVersion rc_Product rc_Channel rc_Purpose rc_Hops] in *. subst.
  match goal with H : shaped (TSlice hop_type) ?w |- _ => destruct (shaped_slice_nonempty hop_of _ _ H ltac:(lia)) as (l & sp & -> & Hl) end.
  cbn [elements_of default from_option] in *. unfold Datatypes.id in *. unfold release_chain_text, release_chain_value, release_chain_document.
  cbn [rc_SchemaVersion rc_Product rc_Channel rc_Purpose rc_Hops]. by rewrite (hops_shaped l Hl).
Qed.

(** A release-authority chain is accepted only if it is the canonical
    transport of two to eight links from the caller's root key to the caller's
    terminal key, each signed by the key before it in the release rotation
    scope and with a strictly greater generation, no key identifier twice, and
    a last generation of at least the caller's minimum. *)
Theorem release_chain_authorizes_terminal raw rootSPKI terminalSPKI scope minimum v :
  VerifyAuthorityTransitionChain raw rootSPKI terminalSPKI scope minimum = Ok v →
  ∃ root links,
    scope = DefaultAuthorityTransitionChainScope ∧ slen root = 32%nat
    ∧ rootSPKI = pem_text (spki_der root) ∧ terminalSPKI = pem_text (spki_der (last_key root links))
    ∧ (2 <= length links <= 8)%nat ∧ linked signed_release_transition root 0 links
    ∧ raw = release_chain_text (List.map link_hop links)
    ∧ NoDup (key_id root :: link_ids links) ∧ 1 <= minimum <= last_generation links
    ∧ rvc_rootAuthorityKeyID v = key_id root ∧ rvc_terminalAuthorityKeyID v = key_id (last_key root links)
    ∧ rvc_terminalGeneration v = last_generation links ∧ rvc_hopCount v = length links
    ∧ rvc_digest v = digestBytes (authorityTransitionChainDigestTag +:+ raw).
Proof.
  unfold VerifyAuthorityTransitionChain. destruct (bool_decide_reflect (scope = DefaultAuthorityTransitionChainScope)) as [->|]; [|done].
  destruct (validGeneration minimum) eqn:Hm; [|done]. cbn [negb orb]. destruct (_ || _ || _); [done|].
  destruct (unmarshal_canonical true raw release_chain_type) as [w|] eqn:Ew; [|done]. cbn [of_option bind_result]. cbv zeta.
  apply unmarshal_sound in Ew as (Hraw & Hsh); [|done].
  destruct (validateAuthorityTransitionChainShape (release_chain_of w)) eqn:Ev; [|done]. cbn [negb].
  destruct (release_chain_shape w Hsh Ev) as [Htext Hlen]. rewrite Htext in Hraw.
  destruct (parseCanonicalSPKI rootSPKI) as [[root rder]|] eqn:Er; [|done].
  destruct (parseCanonicalSPKI terminalSPKI) as [[terminal tder]|] eqn:Et; [|done]. cbn [of_option bind_result].
  apply parseCanonicalSPKI_ok in Er as (Hrl & -> & Hr), Et as (Htl & -> & Ht).
  destruct (walk _ _ _ _ _) as [st|] eqn:Es; [|done].
  cbn [of_option bind_result]. rewrite Hr in Es. apply (walk_sound signed_release_transition) in Es;
    [|exact parseCanonicalSPKI_ok|exact canonical_base64_sound|exact verify_release_hop_sound|done|apply NoDup_singleton].
  destruct Es as (links & Hh & Hl & Hnd & Hids & Hc & Hg & _).
  destruct (_ || _) eqn:Eb; [done|]. intros [= <-]. to_prop.
  cbn [rvc_rootAuthorityKeyID rvc_terminalAuthorityKeyID rvc_terminalGeneration rvc_hopCount rvc_digest].
  exists root, links.
  assert (length (List.map hop_of (elements_of (member w 4))) = length links) as Hcount.
  { change (length (rc_Hops (release_chain_of w)) = length links). by rewrite Hh, length_map. }
  rewrite Hh in Hlen, Hraw. rewrite length_map in Hlen.
  unfold validGeneration in Hm. unfold last_generation. to_prop. rewrite <- Hg. rewrite Ht, Hc in *.
  match goal with H : pem_text _ = pem_text _ |- _ => apply pem_text_inj, spki_der_inj in H; subst terminal end.
  split_and!; try done; lia.
Qed.
End Sound.

(** ** Examples *)

Definition rotation_seed_a := "aaaaaaaaaaaaaaaaaaaaaaaaaaaaaaaa".
Definition rotation_seed_b := "bbbbbbbbbbbbbbbbbbbbbbbbbbbbbbbb".
Definition rotation_key (seed : string) : string := @ed_public hash_signatures seed.
Definition rotation_last_key := "cccccccccccccccccccccccccccccccc".
Definition rotation_spki (key : string) : string := pem_text (spki_der key).
Definition rotation_hop (seed next : string) (generation : Z) : string :=
  match @SignAuthorityTransition hash_signatures any_schema (rotation_spki next) generation seed DefaultAuthorityTransitionScope with
  | Ok (envelope, _) => envelope
  | Err _ => ""
  end.
Definition rotation_chain : string :=
  text_or_empty (@BuildAuthorityTransitionChain hash_signatures any_schema
    [rotation_hop rotation_seed_a (rotation_key rotation_seed_b) 3; rotation_hop rotation_seed_b rotation_last_key 4]
    [rotation_spki (rotation_key rotation_seed_b); rotation_spki rotation_last_key]
    (rotation_spki (rotation_key rotation_seed_a)) DefaultAuthorityTransitionChainScope).

Lemma release_chain_authorizes_terminal_witness :
  ∃ v, @VerifyAuthorityTransitionChain hash_signatures any_schema rotation_chain
         (rotation_spki (rotation_key rotation_seed_a)) (rotation_spki rotation_last_key) DefaultAuthorityTransitionChainScope 2 = Ok v
  ∧ rvc_terminalGeneration v = 4
  ∧ ∃ root links, linked (@signed_release_transition hash_signatures) root 0 links
      ∧ rotation_spki rotation_last_key = pem_text (spki_der (last_key root links)).
Proof.
  assert (match @VerifyAuthorityTransitionChain hash_signatures any_schema rotation_chain
           (rotation_spki (rotation_key rotation_seed_a)) (rotation_spki rotation_last_key) DefaultAuthorityTransitionChainScope 2 with
          | Ok v => rvc_terminalGeneration v =? 4 | Err _ => false end = true) as H by (vm_compute; reflexivity).
  revert H. destruct (@VerifyAuthorityTransitionChain hash_signatures any_schema rotation_chain
    (rotation_spki (rotation_key rotation_seed_a)) (rotation_spki rotation_last_key) DefaultAuthorityTransitionChainScope 2)
    as [v|] eqn:E; intros H; [|discriminate H].
  exists v. split; [reflexivity|]. split; [by apply Z.eqb_eq in H|].
  destruct (@release_chain_authorizes_terminal hash_signatures any_schema _ _ _ _ 2 v E)
    as (root & links & _ & _ & _ & Ht & _ & Hl & _). exists root, links. split; [exact Hl|exact Ht].
Defined.
