(* ===== verification/Freshness.v ===== *)
(** * Freshness (internal/attestation: freshness.go, sbom_currentness.go)

    The comparison of the accepted claims of a bundle with what is observed now:
    the four dimensions of the local profile in their order, and the two of the
    derived bill of materials. *)

From S2P Require Import Prelude Sha256 Json StructuredJson JsonUnmarshal SemanticEqual GoValue CanonicalJson Domain.

Local Open Scope Z_scope.

Definition FreshnessCurrent := "current".
Definition FreshnessStale := "stale".
Definition FreshnessUnknown := "unknown".
Definition FreshnessProfileLocalReobserveV1 := "local-reobserve-v1".
Definition FreshnessRunnerStableV1 := "runner-stable-v1".

Definition FreshnessReasonNone := "none".
Definition FreshnessReasonSourceChanged := "source-changed".
Definition FreshnessReasonPolicyChanged := "policy-changed".
Definition FreshnessReasonPlanChanged := "plan-changed".
Definition FreshnessReasonRunnerChanged := "runner-changed".
Definition FreshnessReasonSourceUnavailable := "source-unavailable".
Definition FreshnessReasonSourceUnstable := "source-unstable".
Definition FreshnessReasonSourceIdentityUnavailable := "source-identity-unavailable".
Definition FreshnessReasonPlanUnavailable := "plan-unavailable".
Definition FreshnessReasonRunnerUnavailable := "runner-unavailable".

Definition FreshnessStatusMatch := "match".
Definition FreshnessStatusMismatch := "mismatch".
Definition FreshnessStatusUnknown := "unknown".
Definition FreshnessStatusNotEvaluated := "not-evaluated".

(** ** Claims, observations, reports *)

Record PredicatePlan := {
  pp_Scenario : string; pp_Environment : string; pp_PlanDigest : string; pp_PolicyBundleDigest : string;
  pp_ResolvedPlanSchemaVersion : string; pp_Evidence : PlanEvidence
}.

Record DerivedInputRecord := { di_Path : string; di_SHA256 : string; di_Size : Z }.
Record DerivedProvenance := {
  dp_Origin : string; dp_Profile : string; dp_RulesetDigest : string; dp_SourceProfile : string; dp_SourceTreeDigest : string;
  dp_Inputs : list DerivedInputRecord; dp_DerivationInputDigest : string; dp_Scope : string; dp_Completeness : string
}.
Record AcceptedDerivedClaims := { ad_Provenance : DerivedProvenance; ad_SBOMDigest : string }.
Record AcceptedClaims := {
  ac_Source : PlanSource; ac_Plan : PredicatePlan; ac_Runner : RunnerFeatures; ac_Derived : option AcceptedDerivedClaims
}.

Record FreshnessCheck := { fc_Dimension : string; fc_Status : string; fc_HistoricalDigest : string; fc_CurrentDigest : string }.
Record FreshnessReport := {
  fr_Profile : string; fr_RunnerProfile : string; fr_Reason : string; fr_Checks : list FreshnessCheck
}.

Record CurrentFreshnessObservation := {
  co_Source : option PlanSource; co_PolicyBundleDigest : option string; co_PlanDigest : option string;
  co_Runner : option RunnerFeatures; co_UnavailableReason : string
}.

(** [digest, _ := canonicaljson.Digest(v)]: the empty string on an error. *)
Definition digest_or_empty (d : doc) : string := match Digest d with Ok x => x | Err _ => "" end.

(** ** The runner's stable projection *)

Record RunnerStableProjection := {
  sp_Backend : string; sp_ControllerOS : string; sp_WorkloadOS : string; sp_Rootless : string; sp_EngineVersion : string
}.
Definition RunnerStableProjection_json (p : RunnerStableProjection) : doc :=
  object [("backend", Some (str (sp_Backend p))); ("controllerOS", Some (str (sp_ControllerOS p)));
          ("workloadOS", Some (str (sp_WorkloadOS p))); ("rootless", Some (str (sp_Rootless p)));
          ("engineVersion", Some (str (sp_EngineVersion p)))].
Definition stable_projection (features : RunnerFeatures) : RunnerStableProjection :=
  {| sp_Backend := rf_Backend features; sp_ControllerOS := rf_ControllerOS features; sp_WorkloadOS := rf_WorkloadOS features;
     sp_Rootless := rf_Rootless features; sp_EngineVersion := rf_EngineVersion features |}.

(** A runner that cannot be compared safely. *)
Definition incomparable_runner (features : RunnerFeatures) : bool :=
  negb (rf_Available features)
  || ((rf_Backend features !=s "docker") && (rf_Backend features !=s "podman"))
  || (rf_ControllerOS features =s "")
  || (rf_WorkloadOS features !=s "linux")
  || ((rf_Rootless features !=s "yes") && (rf_Rootless features !=s "no"))
  || (rf_EngineVersion features =s "").

Definition RunnerStableDigest (features : RunnerFeatures) : string * bool :=
  if incomparable_runner features then ("", false)
  else
    match Digest (RunnerStableProjection_json (stable_projection features)) with
    | Ok digest => (digest, true)
    | Err _ => ("", false)
    end.

(** ** The evaluation *)

Definition supportedLocalSource (source : PlanSource) : bool :=
  (ps_Commit source =s "") && (ps_TreeDigest source !=s "") && (ps_Identity source =s ps_TreeDigest source).

Definition isSourceUnavailableReason (reason : string) : bool :=
  (reason =s FreshnessReasonSourceUnavailable) || (reason =s FreshnessReasonSourceUnstable)
  || (reason =s FreshnessReasonSourceIdentityUnavailable).

(** [==] of two sources. *)
Definition source_eqb (a b : PlanSource) : bool :=
  (ps_Identity a =s ps_Identity b) && (ps_Commit a =s ps_Commit b) && (ps_TreeDigest a =s ps_TreeDigest b).

Definition newFreshnessReport (historical : AcceptedClaims) : FreshnessReport :=
  let check dimension digest :=
    {| fc_Dimension := dimension; fc_Status := FreshnessStatusNotEvaluated; fc_HistoricalDigest := digest; fc_CurrentDigest := "" |} in
  {| fr_Profile := FreshnessProfileLocalReobserveV1; fr_RunnerProfile := FreshnessRunnerStableV1;
     fr_Reason := FreshnessReasonNone;
     fr_Checks := [check "source" (digest_or_empty (PlanSource_json (ac_Source historical)));
                   check "policy" (pp_PolicyBundleDigest (ac_Plan historical));
                   check "plan" (pp_PlanDigest (ac_Plan historical));
                   check "runner" (RunnerStableDigest (ac_Runner historical)).1] |}.

(** The first check of the dimension is changed. *)
Fixpoint set_check (dimension status currentDigest : string) (checks : list FreshnessCheck) : list FreshnessCheck :=
  match checks with
  | [] => []
  | c :: rest =>
      if fc_Dimension c =s dimension
      then {| fc_Dimension := fc_Dimension c; fc_Status := status; fc_HistoricalDigest := fc_HistoricalDigest c;
              fc_CurrentDigest := currentDigest |} :: rest
      else c :: set_check dimension status currentDigest rest
  end.
Definition setCheckStatus (dimension status currentDigest : string) (report : FreshnessReport) : FreshnessReport :=
  {| fr_Profile := fr_Profile report; fr_RunnerProfile := fr_RunnerProfile report; fr_Reason := fr_Reason report;
     fr_Checks := set_check dimension status currentDigest (fr_Checks report) |}.
Definition with_reason (reason : string) (report : FreshnessReport) : FreshnessReport :=
  {| fr_Profile := fr_Profile report; fr_RunnerProfile := fr_RunnerProfile report; fr_Reason := reason;
     fr_Checks := fr_Checks report |}.

(** The runner comparison that ends the evaluation. *)
Definition evaluate_runner (historical : AcceptedClaims) (current : CurrentFreshnessObservation) (report : FreshnessReport)
  : string * FreshnessReport :=
  match co_Runner current with
  | Some runner =>
      if co_UnavailableReason current =s FreshnessReasonRunnerUnavailable
      then (FreshnessUnknown, with_reason FreshnessReasonRunnerUnavailable (setCheckStatus "runner" FreshnessStatusUnknown "" report))
      else
        let '(historicalRunnerDigest, historicalOK) := RunnerStableDigest (ac_Runner historical) in
        let '(currentRunnerDigest, currentOK) := RunnerStableDigest runner in
        if negb historicalOK || negb currentOK
        then (FreshnessUnknown, with_reason FreshnessReasonRunnerUnavailable
                (setCheckStatus "runner" FreshnessStatusUnknown (if currentOK then currentRunnerDigest else "") report))
        else if historicalRunnerDigest !=s currentRunnerDigest
        then (FreshnessStale, with_reason FreshnessReasonRunnerChanged
                (setCheckStatus "runner" FreshnessStatusMismatch currentRunnerDigest report))
        else (FreshnessCurrent, setCheckStatus "runner" FreshnessStatusMatch currentRunnerDigest report)
  | None => (FreshnessUnknown, with_reason FreshnessReasonRunnerUnavailable (setCheckStatus "runner" FreshnessStatusUnknown "" report))
  end.

(** The comparison of the policy and of the plan. *)
Definition evaluate_plan (historical : AcceptedClaims) (current : CurrentFreshnessObservation) (report : FreshnessReport)
  : string * FreshnessReport :=
  let unavailable :=
    (FreshnessUnknown, with_reason FreshnessReasonPlanUnavailable
       (setCheckStatus "plan" FreshnessStatusUnknown "" (setCheckStatus "policy" FreshnessStatusUnknown "" report))) in
  match co_PolicyBundleDigest current, co_PlanDigest current with
  | Some policy, Some plan =>
      if co_UnavailableReason current =s FreshnessReasonPlanUnavailable then unavailable
      else if pp_PolicyBundleDigest (ac_Plan historical) !=s policy
      then (FreshnessStale, with_reason FreshnessReasonPolicyChanged (setCheckStatus "policy" FreshnessStatusMismatch policy report))
      else
        let report := setCheckStatus "policy" FreshnessStatusMatch policy report in
        if pp_PlanDigest (ac_Plan historical) !=s plan
        then (FreshnessStale, with_reason FreshnessReasonPlanChanged (setCheckStatus "plan" FreshnessStatusMismatch plan report))
        else evaluate_runner historical current (setCheckStatus "plan" FreshnessStatusMatch plan report)
  | _, _ => unavailable
  end.

Definition EvaluateFreshness (historical : AcceptedClaims) (current : CurrentFreshnessObservation) : string * FreshnessReport :=
  let report := newFreshnessReport historical in
  let unknown reason digest := (FreshnessUnknown, with_reason reason (setCheckStatus "source" FreshnessStatusUnknown digest report)) in
  if isSourceUnavailableReason (co_UnavailableReason current) then unknown (co_UnavailableReason current) ""
  else if negb (supportedLocalSource (ac_Source historical)) then unknown FreshnessReasonSourceIdentityUnavailable ""
  else
    match co_Source current with
    | None => unknown FreshnessReasonSourceUnavailable ""
    | Some source =>
        let currentSourceDigest := digest_or_empty (PlanSource_json source) in
        if negb (supportedLocalSource source) then unknown FreshnessReasonSourceIdentityUnavailable currentSourceDigest
        else if negb (source_eqb (ac_Source historical) source)
        then (FreshnessStale, with_reason FreshnessReasonSourceChanged
                (setCheckStatus "source" FreshnessStatusMismatch currentSourceDigest report))
        else evaluate_plan historical current (setCheckStatus "source" FreshnessStatusMatch currentSourceDigest report)
    end.

(** ** The derived bill of materials *)

Definition SBOMCurrentnessProfile := "npm-package-lock-currentness-v1".
Definition SBOMCurrentnessFresh := "fresh".
Definition SBOMCurrentnessStale := "stale".
Definition SBOMCurrentnessUnknown := "unknown".
Definition SBOMCurrentnessReasonNone := "none".
Definition SBOMCurrentnessReasonInputsChanged := "derivation-inputs-changed".
Definition SBOMCurrentnessReasonSBOMChanged := "canonical-sbom-changed".
Definition SBOMCurrentnessReasonSourceUnavailable := "source-unavailable".
Definition SBOMCurrentnessReasonSourceUnstable := "source-unstable".
Definition SBOMCurrentnessReasonUnsupported := "unsupported-inputs".
Definition SBOMCurrentnessReasonDerivationFailed := "derivation-failed".
Definition SBOMCurrentnessReasonPrivacyBlocked := "privacy-blocked".
Definition SBOMCurrentnessReasonUnknownRuleset := "unknown-ruleset".
Definition DerivedRulesetDigest := "sha256:c73397279cfd48a8a1331a49ceeac90882ae7649b6c279ff0d10830252aceb5e".

Record SBOMCurrentnessReport := { sb_Profile : string; sb_Status : string; sb_Reason : string; sb_Checks : list FreshnessCheck }.

(** The derived SBOM (internal/spdx/derived.go). *)
Record CreationInfo := { ci_Created : string; ci_Creators : list string }.
Record DerivedChecksum := { dk_Algorithm : string; dk_ChecksumValue : string }.
Record DerivedPackage := {
  dg_SPDXID : string; dg_Checksums : list DerivedChecksum; dg_CopyrightText : string; dg_DownloadLocation : string;
  dg_FilesAnalyzed : bool; dg_LicenseConcluded : string; dg_LicenseDeclared : string; dg_Name : string; dg_VersionInfo : string
}.
Record DerivedRelationship := { dr_SPDXElementID : string; dr_RelatedSPDXElement : string; dr_RelationshipType : string }.
Record DerivedDocument := {
  dd_SPDXID : string; dd_CreationInfo : CreationInfo; dd_DataLicense : string; dd_DocumentDescribes : list string;
  dd_DocumentNamespace : string; dd_Name : string; dd_Packages : list DerivedPackage;
  dd_Relationships : list DerivedRelationship; dd_SPDXVersion : string
}.
Record DerivedArtifact := {
  da_Document : DerivedDocument; da_SPDX : string; da_Provenance : DerivedProvenance; da_ProvenanceCanonical : string
}.

Definition normalizeSBOMCurrentnessReason (reason : string) : string :=
  if reason =s "" then ""
  else if existsb (String.eqb reason)
            [SBOMCurrentnessReasonSourceUnavailable; SBOMCurrentnessReasonSourceUnstable; SBOMCurrentnessReasonUnsupported;
             SBOMCurrentnessReasonDerivationFailed; SBOMCurrentnessReasonPrivacyBlocked; SBOMCurrentnessReasonUnknownRuleset]
  then reason else SBOMCurrentnessReasonDerivationFailed.

(** [spdx.Digest]. *)
Definition spdx_Digest (canonical : string) : string := digest_text canonical.

Definition EvaluateSBOMCurrentness (historical : AcceptedDerivedClaims) (current : option DerivedArtifact) (unavailableReason : string)
  : string * SBOMCurrentnessReport :=
  let reason := normalizeSBOMCurrentnessReason unavailableReason in
  let report status reason inputs_status inputs sbom_status sbom :=
    (status,
     {| sb_Profile := SBOMCurrentnessProfile; sb_Status := status; sb_Reason := reason;
        sb_Checks := [{| fc_Dimension := "derivation-inputs"; fc_Status := inputs_status;
                         fc_HistoricalDigest := dp_DerivationInputDigest (ad_Provenance historical); fc_CurrentDigest := inputs |};
                      {| fc_Dimension := "canonical-sbom"; fc_Status := sbom_status;
                         fc_HistoricalDigest := ad_SBOMDigest historical; fc_CurrentDigest := sbom |}] |}) in
  let unknown reason := report SBOMCurrentnessUnknown reason FreshnessStatusNotEvaluated "" FreshnessStatusNotEvaluated "" in
  if dp_RulesetDigest (ad_Provenance historical) !=s DerivedRulesetDigest then unknown SBOMCurrentnessReasonUnknownRuleset
  else
    match current with
    | None => unknown (if reason =s "" then SBOMCurrentnessReasonSourceUnavailable else reason)
    | Some artifact =>
        if dp_RulesetDigest (da_Provenance artifact) !=s dp_RulesetDigest (ad_Provenance historical)
        then unknown SBOMCurrentnessReasonUnknownRuleset
        else
          let inputs := dp_DerivationInputDigest (da_Provenance artifact) in
          if inputs !=s dp_DerivationInputDigest (ad_Provenance historical)
          then report SBOMCurrentnessStale SBOMCurrentnessReasonInputsChanged FreshnessStatusMismatch inputs FreshnessStatusNotEvaluated ""
          else
            let sbom := spdx_Digest (da_SPDX artifact) in
            if sbom !=s ad_SBOMDigest historical
            then report SBOMCurrentnessStale SBOMCurrentnessReasonSBOMChanged FreshnessStatusMatch inputs FreshnessStatusMismatch sbom
            else report SBOMCurrentnessFresh SBOMCurrentnessReasonNone FreshnessStatusMatch inputs FreshnessStatusMatch sbom
    end.

(** ** Properties *)

Lemma source_eqb_iff a b : source_eqb a b = true ↔ a = b.
Proof.
  unfold source_eqb. rewrite !andb_true_iff, !String.eqb_eq. destruct a, b; cbn. split; [by intros [[-> ->] ->]|by intros [= -> -> ->]].
Qed.

Lemma projection_digest p : ∃ j, RunnerStableProjection_json p = Ok j ∧ Digest (RunnerStableProjection_json p) = Ok (digest_text (encode j)).
Proof. eexists. split; reflexivity. Qed.

(** What the projection's document keeps: the texts with invalid bytes replaced. *)
Definition shown_projection (f : RunnerFeatures) : list string :=
  List.map sanitize [rf_Backend f; rf_ControllerOS f; rf_WorkloadOS f; rf_Rootless f; rf_EngineVersion f].

Lemma stable_digest_injective f g d :
  RunnerStableDigest f = (d, true) → RunnerStableDigest g = (d, true) →
  shown_projection f = shown_projection g ∨ ∃ a b, digest_collision a b.
Proof.
  unfold RunnerStableDigest. destruct (incomparable_runner f); [done|]. destruct (incomparable_runner g); [done|].
  destruct (projection_digest (stable_projection f)) as (jf & Ef & ->). destruct (projection_digest (stable_projection g)) as (jg & Eg & ->).
  intros H1 H2. apply (f_equal fst) in H1, H2. cbn [fst] in H1, H2.
  assert (digest_text (encode jf) = digest_text (encode jg)) as H by (by rewrite H1, H2). clear H1 H2. assert (doc_wf (RunnerStableProjection_json (stable_projection f))) as Wf by object_doc.
  assert (doc_wf (RunnerStableProjection_json (stable_projection g))) as Wg by object_doc.
  destruct (same_digest jf jg (Wf _ Ef) (Wg _ Eg) H) as [Hs|Hc]; [left|right; by eexists _, _].
  apply (f_equal (λ r, match r with Ok j => j | Err _ => JNull end)) in Ef, Eg. subst jf jg. unfold same_document in Hs. cbn - [sanitize] in Hs. unfold shown_projection. cbn [List.map].
  by injection Hs as -> -> -> -> ->.
Qed.

Definition check_statuses (r : FreshnessReport) : list string := List.map fc_Status (fr_Checks r).

(** [k] dimensions match, [decisive] are decided, the others are not looked at. *)
Definition statuses_after (k : nat) (decisive : list string) : list string :=
  replicate k FreshnessStatusMatch ++ decisive ++ replicate (4 - k - length decisive) FreshnessStatusNotEvaluated.

(** The current observation confirms every claim. *)
Definition confirms (historical : AcceptedClaims) (current : CurrentFreshnessObservation) : Prop :=
  isSourceUnavailableReason (co_UnavailableReason current) = false
  ∧ co_UnavailableReason current ≠ FreshnessReasonPlanUnavailable
  ∧ co_UnavailableReason current ≠ FreshnessReasonRunnerUnavailable
  ∧ co_Source current = Some (ac_Source historical) ∧ supportedLocalSource (ac_Source historical) = true
  ∧ co_PolicyBundleDigest current = Some (pp_PolicyBundleDigest (ac_Plan historical))
  ∧ co_PlanDigest current = Some (pp_PlanDigest (ac_Plan historical))
  ∧ ∃ runner digest, co_Runner current = Some runner ∧ RunnerStableDigest (ac_Runner historical) = (digest, true)
      ∧ RunnerStableDigest runner = (digest, true).

Lemma confirms_current historical current :
  confirms historical current → (EvaluateFreshness historical current).1 = FreshnessCurrent.
Proof.
  intros (Hr & Hp & Hn & Hs & Hl & Hpo & Hpl & runner & digest & Hru & Hh & Hc). unfold EvaluateFreshness. rewrite Hr, Hl, Hs. cbn [negb].
  rewrite Hl, (proj2 (source_eqb_iff _ _) eq_refl). cbn [negb]. unfold evaluate_plan. rewrite Hpo, Hpl.
  apply String.eqb_neq in Hp, Hn. rewrite Hp, !string_eqb_refl. cbn [negb]. unfold evaluate_runner.
  by rewrite Hru, Hn, Hh, Hc, string_eqb_refl.
Qed.

(** The shape of a result: which dimensions were decided, and how. *)
Definition decided_shape (historical : AcceptedClaims) (result : string * FreshnessReport) : Prop :=
  let '(status, report) := result in
  List.map (λ c, (fc_Dimension c, fc_HistoricalDigest c)) (fr_Checks report)
    = [("source", digest_or_empty (PlanSource_json (ac_Source historical))); ("policy", pp_PolicyBundleDigest (ac_Plan historical));
       ("plan", pp_PlanDigest (ac_Plan historical)); ("runner", (RunnerStableDigest (ac_Runner historical)).1)]
  ∧ (status = FreshnessCurrent ∧ fr_Reason report = FreshnessReasonNone ∧ check_statuses report = statuses_after 4 []
     ∨ (∃ k, (k < 4)%nat ∧ status = FreshnessStale ∧ check_statuses report = statuses_after k [FreshnessStatusMismatch]
          ∧ fr_Reason report = nth k [FreshnessReasonSourceChanged; FreshnessReasonPolicyChanged; FreshnessReasonPlanChanged;
                                      FreshnessReasonRunnerChanged] "")
     ∨ (∃ k decisive, status = FreshnessUnknown ∧ fr_Reason report ≠ FreshnessReasonNone
          ∧ (k, decisive) ∈ [(0, [FreshnessStatusUnknown]); (1, [FreshnessStatusUnknown; FreshnessStatusUnknown]);
                             (3, [FreshnessStatusUnknown])]%nat
          ∧ check_statuses report = statuses_after k decisive)).

Lemma shape_current historical source policy plan runner :
  decided_shape historical (FreshnessCurrent, setCheckStatus "runner" FreshnessStatusMatch runner
    (setCheckStatus "plan" FreshnessStatusMatch plan (setCheckStatus "policy" FreshnessStatusMatch policy
      (setCheckStatus "source" FreshnessStatusMatch source (newFreshnessReport historical))))).
Proof. split; [reflexivity|]. left. by split_and!. Qed.

(** The report before dimension [k]. *)
Definition matched (k : nat) (digests : list string) (historical : AcceptedClaims) : FreshnessReport :=
  foldl (λ r p, setCheckStatus p.1 FreshnessStatusMatch p.2 r) (newFreshnessReport historical)
    (zip (take k ["source"; "policy"; "plan"]) digests).

Lemma shape_stale historical k digests digest :
  (k < 4)%nat → length digests = k →
  decided_shape historical (FreshnessStale,
    with_reason (nth k [FreshnessReasonSourceChanged; FreshnessReasonPolicyChanged; FreshnessReasonPlanChanged; FreshnessReasonRunnerChanged] "")
      (setCheckStatus (nth k ["source"; "policy"; "plan"; "runner"] "") FreshnessStatusMismatch digest (matched k digests historical))).
Proof.
  intros Hk Hd. split; [|right; left; exists k; split; [done|]].
  all: destruct k as [|[|[|[|k]]]]; [| | | |lia]; destruct digests as [|? [|? [|? [|? ?]]]]; try done; by split_and!.
Qed.

Lemma shape_unknown historical k digests digest reason :
  k = 0%nat ∨ k = 3%nat → length digests = k → reason ≠ FreshnessReasonNone →
  decided_shape historical (FreshnessUnknown,
    with_reason reason (setCheckStatus (nth k ["source"; "policy"; "plan"; "runner"] "") FreshnessStatusUnknown digest (matched k digests historical))).
Proof.
  intros Hk Hd Hr. split; [|right; right; exists k, [FreshnessStatusUnknown]; split; [done|]].
  all: destruct Hk as [-> | ->]; destruct digests as [|? [|? [|? [|? ?]]]]; try done; split_and!; try done; set_solver.
Qed.

Lemma shape_plan_unknown historical source :
  decided_shape historical (FreshnessUnknown, with_reason FreshnessReasonPlanUnavailable
    (setCheckStatus "plan" FreshnessStatusUnknown "" (setCheckStatus "policy" FreshnessStatusUnknown ""
      (matched 1 [source] historical)))).
Proof.
  split; [reflexivity|]. right; right. exists 1%nat, [FreshnessStatusUnknown; FreshnessStatusUnknown]. split_and!; try done. set_solver.
Qed.

(** C18: The evaluation reports the four dimensions in order against the signed
    claims and stops at the first that does not match: all match and the result
    is current, or a prefix matches and the next dimension differs (stale, with
    its reason) or cannot be decided (unknown; an unavailable plan leaves policy
    and plan undecided), and nothing later is evaluated.  The result is current
    exactly when the observation confirms every claim, and then the runner has
    the projected features of the signed one, or SHA-256 has a collision. *)
Theorem freshness_exact historical current :
  let '(status, report) := EvaluateFreshness historical current in
  List.map (λ c, (fc_Dimension c, fc_HistoricalDigest c)) (fr_Checks report)
    = [("source", digest_or_empty (PlanSource_json (ac_Source historical))); ("policy", pp_PolicyBundleDigest (ac_Plan historical));
       ("plan", pp_PlanDigest (ac_Plan historical)); ("runner", (RunnerStableDigest (ac_Runner historical)).1)]
  ∧ (status = FreshnessCurrent ∧ fr_Reason report = FreshnessReasonNone ∧ check_statuses report = statuses_after 4 []
     ∨ (∃ k, (k < 4)%nat ∧ status = FreshnessStale ∧ check_statuses report = statuses_after k [FreshnessStatusMismatch]
          ∧ fr_Reason report = nth k [FreshnessReasonSourceChanged; FreshnessReasonPolicyChanged; FreshnessReasonPlanChanged;
                                      FreshnessReasonRunnerChanged] "")
     ∨ (∃ k decisive, status = FreshnessUnknown ∧ fr_Reason report ≠ FreshnessReasonNone
          ∧ (k, decisive) ∈ [(0, [FreshnessStatusUnknown]); (1, [FreshnessStatusUnknown; FreshnessStatusUnknown]);
                             (3, [FreshnessStatusUnknown])]%nat
          ∧ check_statuses report = statuses_after k decisive))
  ∧ (status = FreshnessCurrent ↔ confirms historical current)
  ∧ (status = FreshnessCurrent → ∃ runner, co_Runner current = Some runner
       ∧ (shown_projection (ac_Runner historical) = shown_projection runner ∨ ∃ a b, digest_collision a b)).
Proof.
  pose proof (confirms_current historical current) as Hconf.
  enough (decided_shape historical (EvaluateFreshness historical current)
    ∧ ((EvaluateFreshness historical current).1 = FreshnessCurrent → confirms historical current)) as [Hshape Hcur].
  { destruct (EvaluateFreshness historical current) as [status report]. destruct Hshape as [H1 H2]. cbn [fst] in *.
    split_and!; [done|done|by split|]. intros (_ & _ & _ & _ & _ & _ & _ & runner & digest & -> & Hh & Hc)%Hcur.
    exists runner. split; [done|]. by eapply stable_digest_injective. }
  clear Hconf. unfold EvaluateFreshness, evaluate_plan, evaluate_runner, confirms.
  destruct (isSourceUnavailableReason (co_UnavailableReason current)) eqn:Hr.
  { split; [|done]. apply (shape_unknown historical 0 []); [by left|done|]. intros E. by rewrite E in Hr. }
  destruct (supportedLocalSource (ac_Source historical)) eqn:Hl; cbn [negb];
    [|split; [by apply (shape_unknown historical 0 []); [left|..]|done]].
  destruct (co_Source current) as [source|]; [|split; [by apply (shape_unknown historical 0 []); [left|..]|done]].
  destruct (supportedLocalSource source) eqn:Hls; cbn [negb]; [|split; [by apply (shape_unknown historical 0 []); [left|..]|done]].
  destruct (source_eqb (ac_Source historical) source) eqn:He; cbn [negb]; [|split; [by apply (shape_stale historical 0 []); [lia|]|done]].
  apply source_eqb_iff in He as <-. set (sd := digest_or_empty (PlanSource_json (ac_Source historical))).
  destruct (co_PolicyBundleDigest current) as [policy|]; [|split; [apply shape_plan_unknown|done]].
  destruct (co_PlanDigest current) as [plan|]; [|split; [apply shape_plan_unknown|done]].
  destruct (String.eqb_spec (co_UnavailableReason current) FreshnessReasonPlanUnavailable) as [|Hp]; [split; [apply shape_plan_unknown|done]|].
  destruct (String.eqb_spec (pp_PolicyBundleDigest (ac_Plan historical)) policy) as [<-|]; cbn [negb];
    [|split; [by apply (shape_stale historical 1 [sd]); [lia|]|done]].
  destruct (String.eqb_spec (pp_PlanDigest (ac_Plan historical)) plan) as [<-|]; cbn [negb];
    [|split; [by apply (shape_stale historical 2 [sd; _]); [lia|]|done]].
  destruct (co_Runner current) as [runner|]; [|split; [by apply (shape_unknown historical 3 [sd; _; _]); [right|..]|done]].
  destruct (String.eqb_spec (co_UnavailableReason current) FreshnessReasonRunnerUnavailable) as [|Hn];
    [split; [by apply (shape_unknown historical 3 [sd; _; _]); [right|..]|done]|].
  destruct (RunnerStableDigest (ac_Runner historical)) as [hd []] eqn:Eh, (RunnerStableDigest runner) as [cd []] eqn:Ec; cbn [negb orb];
    try (split; [by apply (shape_unknown historical 3 [sd; _; _]); [right|..]|done]).
  destruct (String.eqb_spec hd cd) as [<-|]; cbn [negb]; [|split; [by apply (shape_stale historical 3 [sd; _; _]); [lia|]|done]].
  split; [apply shape_current|]. intros _. split_and!; try done. by exists runner, hd.
Qed.

(** ** The derived bill of materials *)

(** The bill of materials is fresh exactly when both derivations used the
    known ruleset, from the same inputs, and the current document has the signed
    digest; it is stale exactly when the rulesets agree and the inputs or the
    document differ.  Otherwise the result is unknown, with one of the fixed
    reasons, and no digest was compared. *)
Theorem sbom_currentness_exact historical current reason :
  let '(status, report) := EvaluateSBOMCurrentness historical current reason in
  let known := dp_RulesetDigest (ad_Provenance historical) = DerivedRulesetDigest in
  let same a := dp_DerivationInputDigest (da_Provenance a) = dp_DerivationInputDigest (ad_Provenance historical)
                ∧ digest_text (da_SPDX a) = ad_SBOMDigest historical in
  sb_Status report = status
  ∧ (status = SBOMCurrentnessFresh ↔ known ∧ ∃ a, current = Some a ∧ dp_RulesetDigest (da_Provenance a) = DerivedRulesetDigest ∧ same a)
  ∧ (status = SBOMCurrentnessStale ↔ known ∧ ∃ a, current = Some a ∧ dp_RulesetDigest (da_Provenance a) = DerivedRulesetDigest ∧ ¬ same a)
  ∧ (status = SBOMCurrentnessUnknown →
       List.map fc_CurrentDigest (sb_Checks report) = [""; ""] ∧
       sb_Reason report ∈ [SBOMCurrentnessReasonSourceUnavailable; SBOMCurrentnessReasonSourceUnstable; SBOMCurrentnessReasonUnsupported;
         SBOMCurrentnessReasonDerivationFailed; SBOMCurrentnessReasonPrivacyBlocked; SBOMCurrentnessReasonUnknownRuleset])
  ∧ (status = SBOMCurrentnessFresh ∨ status = SBOMCurrentnessStale ∨ status = SBOMCurrentnessUnknown).
Proof.
  unfold EvaluateSBOMCurrentness.
  destruct (String.eqb_spec (dp_RulesetDigest (ad_Provenance historical)) DerivedRulesetDigest) as [Hk|Hk]; cbn [negb].
  2:{ cbn. split_and!; try naive_solver. intros _. split; [done|]. set_solver. }
  destruct current as [a|].
  2:{ cbn - [normalizeSBOMCurrentnessReason]. split_and!; try naive_solver. intros _. split; [done|].
      unfold normalizeSBOMCurrentnessReason. destruct (reason =s ""); [cbn; set_solver|].
      destruct (existsb _ _) eqn:E; [|cbn; set_solver]. destruct (reason =s "") eqn:E0; [set_solver|].
      apply existsb_exists in E as (x & Hx & ->%String.eqb_eq). by apply list_elem_of_In. }
  destruct (String.eqb_spec (dp_RulesetDigest (da_Provenance a)) (dp_RulesetDigest (ad_Provenance historical))) as [Hr|Hr]; cbn [negb].
  2:{ rewrite Hk in Hr. cbn. split_and!; try naive_solver. intros _. split; [done|]. set_solver. }
  rewrite Hk in Hr.
  destruct (String.eqb_spec (dp_DerivationInputDigest (da_Provenance a)) (dp_DerivationInputDigest (ad_Provenance historical))) as [Hi|Hi];
    cbn [negb]; [|cbn; split_and!; naive_solver].
  unfold spdx_Digest. destruct (String.eqb_spec (digest_text (da_SPDX a)) (ad_SBOMDigest historical)) as [Hs|Hs]; cbn [negb];
    cbn; split_and!; naive_solver.
Qed.
