(* ===== verification/Regex.v ===== *)
(** * Regular expressions (the standard library's [regexp] package)

    The expressions of this repository, as Go compiles them: over runes, with
    case folding, greedy repetition, the anchors of the text and capturing
    groups.  A match is tried at every start from the left, alternatives in
    order; [results] lists every way to match in that order of preference, so
    that its first entry is the match Go reports.  [matches] is the meaning of an
    expression without an order, and [results_exact] relates the two. *)

From S2P Require Import Prelude Json.

Local Open Scope nat_scope.

(** ** Runes and classes *)

Definition rune : Type := option string.

Definition rune_text (r : rune) : string := match r with Some b => b | None => replacement_char end.
Definition runes_text (l : list rune) : string := string_concat (List.map rune_text l).

(** A class of ASCII bytes; under [(?i)] the letters k and s are also matched by
    the Kelvin sign and by the long s. *)
Definition swap_case (c : ascii) : ascii :=
  if in_range 97 122 c then byte_of (byte_val c - 32) else if in_range 65 90 c then byte_of (byte_val c + 32) else c.
Definition long_s : string := String (byte_of 197) (String (byte_of 191) "").
Definition kelvin_sign : string := String (byte_of 226) (String (byte_of 132) (String (byte_of 170) "")).

Definition in_class (P : ascii → bool) (r : rune) : bool :=
  match r with Some (String c EmptyString) => P c | _ => false end.
Definition in_folded (P : ascii → bool) (r : rune) : bool :=
  match r with
  | Some (String c EmptyString) => P c || P (swap_case c)
  | Some b => ((b =s long_s) && (P "s"%char || P "S"%char)) || ((b =s kelvin_sign) && (P "k"%char || P "K"%char))
  | None => false
  end.

Definition one_of_bytes (s : string) (c : ascii) : bool := string_contains_byte c s.
Definition alnum (c : ascii) : bool := in_range 48 57 c || in_range 65 90 c || in_range 97 122 c.
Definition lower_alnum (c : ascii) : bool := in_range 48 57 c || in_range 97 122 c.
Definition upper_alnum (c : ascii) : bool := in_range 48 57 c || in_range 65 90 c.
(** [\s]: tab, newline, form feed, carriage return, space. *)
Definition perl_space (c : ascii) : bool := in_range 9 10 c || in_range 12 13 c || Ascii.eqb c " "%char.

(** ** Expressions *)

Inductive re :=
  | RSet (P : rune → bool)
  | RBegin
  | REnd
  | REps
  | RCat (r1 r2 : re)
  | RAlt (r1 r2 : re)
  | RStar (r : re)
  (** [set{lo,hi}], [hi] open when [None] *)
  | RRep (P : rune → bool) (lo : nat) (hi : option nat)
  | RGroup (r : re).

Definition ROpt (r : re) : re := RAlt r REps.
Definition RPlus (P : rune → bool) : re := RRep P 1 None.
Definition RMany (P : rune → bool) : re := RRep P 0 None.
Fixpoint RSeq (l : list re) : re := match l with [] => REps | [r] => r | r :: l' => RCat r (RSeq l') end.
Fixpoint ROneOf (l : list re) : re := match l with [] => RSet (λ _, false) | [r] => r | r :: l' => RAlt r (ROneOf l') end.

(** A literal, case sensitive or folded. *)
Fixpoint RLit (folded : bool) (s : string) : re :=
  match s with
  | EmptyString => REps
  | String c s' => RCat (RSet ((if folded then in_folded else in_class) (Ascii.eqb c))) (RLit folded s')
  end.

(** ** Matching *)

(** How many runes are consumed, what is left, and the groups completed. *)
Record mstate := { m_pos : nat; m_rest : list rune; m_groups : list (list rune) }.

Definition advance (k : nat) (st : mstate) : mstate :=
  {| m_pos := m_pos st + k; m_rest := skipn k (m_rest st); m_groups := m_groups st |}.
Definition capture (from to : mstate) : mstate :=
  {| m_pos := m_pos to; m_rest := m_rest to;
     m_groups := m_groups to ++ [take (m_pos to - m_pos from) (m_rest from)] |}.

(** The length of the longest prefix of the class. *)
Fixpoint span_class (P : rune → bool) (l : list rune) : nat :=
  match l with [] => 0 | x :: l' => if P x then S (span_class P l') else 0 end.

Definition rep_counts (P : rune → bool) (lo : nat) (hi : option nat) (l : list rune) : list nat :=
  let most := match hi with Some h => Nat.min h (span_class P l) | None => span_class P l end in
  List.map (λ k, most - k) (seq 0 (S most - lo)).

(** Greedy iteration; a turn that consumes nothing is not repeated. *)
Fixpoint iterate (fuel : nat) (f : mstate → list mstate) (st : mstate) : list mstate :=
  match fuel with
  | 0 => [st]
  | S fuel =>
      flat_map (λ st', if length (m_rest st') <? length (m_rest st) then iterate fuel f st' else []) (f st) ++ [st]
  end.

Fixpoint results (r : re) (st : mstate) : list mstate :=
  match r with
  | RSet P => match m_rest st with x :: _ => if P x then [advance 1 st] else [] | [] => [] end
  | RBegin => if m_pos st =? 0 then [st] else []
  | REnd => match m_rest st with [] => [st] | _ => [] end
  | REps => [st]
  | RCat r1 r2 => flat_map (results r2) (results r1 st)
  | RAlt r1 r2 => results r1 st ++ results r2 st
  | RStar r => iterate (length (m_rest st)) (results r) st
  | RRep P lo hi => List.map (λ k, advance k st) (rep_counts P lo hi (m_rest st))
  | RGroup r => List.map (capture st) (results r st)
  end.

(** The starts of a search from a position, leftmost first. *)
Fixpoint starts (pos : nat) (l : list rune) : list mstate :=
  {| m_pos := pos; m_rest := l; m_groups := [] |} :: match l with [] => [] | _ :: l' => starts (S pos) l' end.

Definition nonempty {A} (l : list A) : bool := match l with [] => false | _ => true end.

(** [MatchString]. *)
Definition MatchString (r : re) (s : string) : bool := existsb (λ st, nonempty (results r st)) (starts 0 (runes s)).

(** The leftmost match from a position: where it starts and how it ends. *)
Fixpoint first_match (r : re) (candidates : list mstate) : option (mstate * mstate) :=
  match candidates with
  | [] => None
  | st :: rest => match results r st with to :: _ => Some (st, to) | [] => first_match r rest end
  end.

(** [FindAllStringSubmatch(s, -1)] for an expression that matches no empty text:
    the whole match and the groups, each search from the end of the last match. *)
Fixpoint find_all_from (fuel : nat) (r : re) (pos : nat) (l : list rune) : list (list (list rune)) :=
  match fuel with
  | 0 => []
  | S fuel =>
      match first_match r (starts pos l) with
      | None => []
      | Some (from, to) =>
          (take (m_pos to - m_pos from) (m_rest from) :: m_groups to)
          :: (if m_pos from <? m_pos to then find_all_from fuel r (m_pos to) (m_rest to) else [])
      end
  end.

Definition FindAllStringSubmatch (r : re) (s : string) : list (list string) :=
  let l := runes s in List.map (List.map runes_text) (find_all_from (S (length l)) r 0 l).
Definition FindAllString (r : re) (s : string) : list string :=
  List.map (λ m, nth 0 m "") (FindAllStringSubmatch r s).

(** ** What an expression means *)

Inductive matches : re → mstate → mstate → Prop :=
  | match_set P x l pos gs :
      P x = true → matches (RSet P) {| m_pos := pos; m_rest := x :: l; m_groups := gs |}
                     {| m_pos := S pos; m_rest := l; m_groups := gs |}
  | match_begin l gs :
      matches RBegin {| m_pos := 0; m_rest := l; m_groups := gs |} {| m_pos := 0; m_rest := l; m_groups := gs |}
  | match_end pos gs :
      matches REnd {| m_pos := pos; m_rest := []; m_groups := gs |} {| m_pos := pos; m_rest := []; m_groups := gs |}
  | match_eps st : matches REps st st
  | match_cat r1 r2 st1 st2 st3 : matches r1 st1 st2 → matches r2 st2 st3 → matches (RCat r1 r2) st1 st3
  | match_left r1 r2 st st' : matches r1 st st' → matches (RAlt r1 r2) st st'
  | match_right r1 r2 st st' : matches r2 st st' → matches (RAlt r1 r2) st st'
  | match_star_stop r st : matches (RStar r) st st
  | match_star_step r st1 st2 st3 :
      matches r st1 st2 → length (m_rest st2) < length (m_rest st1) → matches (RStar r) st2 st3 → matches (RStar r) st1 st3
  | match_rep P lo hi xs l pos gs :
      Forall (λ x, P x = true) xs → lo <= length xs → (∀ h, hi = Some h → length xs <= h) →
      matches (RRep P lo hi) {| m_pos := pos; m_rest := xs ++ l; m_groups := gs |}
        {| m_pos := pos + length xs; m_rest := l; m_groups := gs |}
  | match_group r st st' : matches r st st' → matches (RGroup r) st (capture st st').

Lemma span_class_spec P l k :
  k <= span_class P l ↔ k <= length l ∧ Forall (λ x, P x = true) (take k l).
Proof.
  revert k. induction l as [|x l IH]; intros [|k]; cbn [span_class take length].
  - split; [by split; [lia|constructor]|lia].
  - split; [lia|intros [? _]; lia].
  - split; [by split; [lia|constructor]|lia].
  - destruct (P x) eqn:E.
    + rewrite <- Nat.succ_le_mono, IH, Forall_cons. split; [intros []|intros (? & _ & ?)]; (split_and!; [lia|..]; done).
    + split; [lia|]. intros [_ H]. apply Forall_cons in H as [H _]. congruence.
Qed.

Lemma rep_counts_elem P lo hi l k :
  k ∈ rep_counts P lo hi l ↔ lo <= k ∧ k <= span_class P l ∧ (∀ h, hi = Some h → k <= h).
Proof.
  unfold rep_counts. set (most := match hi with Some h => _ | None => _ end).
  assert (k <= most ↔ k <= span_class P l ∧ (∀ h, hi = Some h → k <= h)) as Hm.
  { unfold most. destruct hi as [h|].
    - rewrite Nat.min_glb_iff. split; [intros [? ?]; split; [done|by intros h' [= <-]]|]. intros [? H]. split; [by apply H|done].
    - split; [intros H; split; [done|by intros h]|by intros [? _]]. }
  rewrite <- Hm, list_elem_of_In, in_map_iff. setoid_rewrite in_seq. split.
  - intros (j & <- & Hj). lia.
  - intros [Hl Hk]. exists (most - k). lia.
Qed.

Lemma elem_of_flat_map {A B} (f : A → list B) l y : y ∈ flat_map f l ↔ ∃ x, x ∈ l ∧ y ∈ f x.
Proof. rewrite list_elem_of_In, in_flat_map. by setoid_rewrite <- list_elem_of_In. Qed.
Lemma elem_of_map {A B} (f : A → B) l y : y ∈ List.map f l ↔ ∃ x, y = f x ∧ x ∈ l.
Proof. apply list_elem_of_fmap. Qed.

Lemma iterate_exact r fuel st st' :
  (∀ st st', st' ∈ results r st ↔ matches r st st') → length (m_rest st) <= fuel →
  st' ∈ iterate fuel (results r) st ↔ matches (RStar r) st st'.
Proof.
  intros IH. revert st. induction fuel as [|fuel IHf]; intros st Hf; cbn [iterate].
  - rewrite list_elem_of_singleton. split; [intros ->; constructor|]. inversion 1; subst; [done|]. lia.
  - rewrite elem_of_app, elem_of_flat_map, list_elem_of_singleton. split.
    + intros [(x & Hx & H)| ->]; [|constructor]. destruct (Nat.ltb_spec (length (m_rest x)) (length (m_rest st))); [|by apply elem_of_nil in H].
      apply IHf in H; [|lia]. eapply match_star_step; [by apply IH|done|done].
    + inversion 1 as [| | | | | | |? ?|? ? st2 ? Hr Hlt Hs| |]; subst; [by right|]. left. exists st2. split; [by apply IH|].
      rewrite (proj2 (Nat.ltb_lt _ _) Hlt). apply IHf; [lia|done].
Qed.

(** The ways to match that the search tries are exactly the matches. *)
Lemma results_exact r st st' : st' ∈ results r st ↔ matches r st st'.
Proof.
  revert st st'. induction r as [P| | | |r1 IH1 r2 IH2|r1 IH1 r2 IH2|r IH|P lo hi|r IH]; intros [pos l gs] st'; cbn [results m_rest m_pos].
  - destruct l as [|x l]; [|destruct (P x) eqn:E].
    + rewrite elem_of_nil. split; [done|inversion 1].
    + rewrite list_elem_of_singleton. unfold advance. cbn. rewrite Nat.add_1_r. split; [intros ->; by constructor|by inversion 1].
    + rewrite elem_of_nil. split; [done|]. inversion 1; congruence.
  - destruct (Nat.eqb_spec pos 0) as [->|].
    + rewrite list_elem_of_singleton. split; [intros ->; constructor|by inversion 1].
    + rewrite elem_of_nil. split; [done|]. by inversion 1; subst.
  - destruct l as [|x l].
    + rewrite list_elem_of_singleton. split; [intros ->; constructor|by inversion 1].
    + rewrite elem_of_nil. split; [done|inversion 1].
  - rewrite list_elem_of_singleton. split; [intros ->; constructor|by inversion 1].
  - rewrite elem_of_flat_map. split.
    + intros (st2 & H1 & H2). apply IH1 in H1. apply IH2 in H2. by econstructor.
    + inversion 1 as [| | | |? ? ? st2 ? H1 H2| | | | | |]; subst. exists st2. by rewrite IH1, IH2.
  - rewrite elem_of_app, IH1, IH2. split; [intros []; [by apply match_left|by apply match_right]|inversion 1; subst; auto].
  - by apply iterate_exact.
  - rewrite elem_of_map. setoid_rewrite rep_counts_elem. setoid_rewrite span_class_spec. split.
    + intros (k & -> & Hlo & [Hk Hf] & Hhi). unfold advance. cbn [m_pos m_rest m_groups].
      rewrite <- (firstn_skipn k l) at 1. replace (pos + k) with (pos + length (take k l)) by (rewrite length_take; lia).
      constructor; [done|rewrite length_take; lia|intros h Hh; rewrite length_take; specialize (Hhi h Hh); lia].
    + inversion 1 as [| | | | | | | | |? ? ? xs l' ? ? Hx Hlo Hhi|]; subst. exists (length xs). unfold advance. cbn [m_pos m_rest m_groups].
      rewrite skipn_app, skipn_all, Nat.sub_diag, length_app, take_app_length. split_and!; [done|done|lia|done|done].
  - rewrite elem_of_map. split.
    + intros (x & -> & Hx). constructor. by apply IH.
    + inversion 1 as [| | | | | | | | | |? ? x Hx]; subst. exists x. by rewrite IH.
Qed.

(** [matches] under a text: the expression matches somewhere in it. *)
Definition occurs (r : re) (s : string) : Prop :=
  ∃ before after st, runes s = before ++ after
    ∧ matches r {| m_pos := length before; m_rest := after; m_groups := [] |} st.

Lemma starts_elem st pos l :
  st ∈ starts pos l ↔ ∃ before after, l = before ++ after ∧ st = {| m_pos := pos + length before; m_rest := after; m_groups := [] |}.
Proof.
  revert pos. induction l as [|x l IH]; intros pos; cbn [starts].
  - rewrite list_elem_of_singleton. split.
    + intros ->. exists [], []. by rewrite Nat.add_0_r.
    + intros (b & a & E & ->). symmetry in E. apply app_eq_nil in E as [-> ->]. by rewrite Nat.add_0_r.
  - rewrite elem_of_cons, IH. split.
    + intros [->|(b & a & -> & ->)]; [exists [], (x :: l); by rewrite Nat.add_0_r|].
      exists (x :: b), a. split; [done|]. cbn [length]. f_equal. lia.
    + intros ([|y b] & a & E & ->); [left; cbn in E; subst; by rewrite Nat.add_0_r|]. right. injection E as <- ->.
      exists b, a. split; [done|]. cbn [length]. f_equal. lia.
Qed.

Lemma nonempty_elem {A} (l : list A) : nonempty l = true ↔ ∃ x, x ∈ l.
Proof. destruct l as [|y l]; [split; [done|intros (x & H); by apply elem_of_nil in H]|]. split; [intros _; exists y; left|done]. Qed.

(** [MatchString] decides whether the expression occurs. *)
Lemma match_string_exact r s : MatchString r s = true ↔ occurs r s.
Proof.
  unfold MatchString, occurs. rewrite existsb_exists. setoid_rewrite <- list_elem_of_In. setoid_rewrite starts_elem. split.
  - intros (st & (b & a & E & ->) & H). apply nonempty_elem in H as (st' & H). apply results_exact in H. by exists b, a, st'.
  - intros (b & a & st & E & H). apply results_exact in H. exists {| m_pos := 0 + length b; m_rest := a; m_groups := [] |}.
    split; [by exists b, a|]. apply nonempty_elem. by exists st.
Qed.
