(* ===== verification/Privacy.v ===== *)
(** * The minimal-public privacy gate (internal/privacy/privacy.go)

    The scanner that decides whether a document may be published: every string
    and every object key is searched for credentials, addresses, private paths
    and high-entropy candidates, every sensitive dynamic field must be exempt.
    What a document that passes contains, and what a refusal discloses.

    Two things of the platform are arguments: [url.Parse], whose treatment of
    malformed hosts differs between Go releases, and the entropy comparison,
    whose [float64] rounding Go leaves to the processor ([math.Log2] in assembly,
    fused multiply-add). *)

From S2P Require Import Prelude Sha256 Json StructuredJson JsonUnmarshal SemanticEqual GoValue CanonicalJson Domain GoPath GoStrings Base64 Regex.

Local Open Scope nat_scope.

(** What [unsafeURL] reads of a [*url.URL]. *)
Record parsed_url := {
  url_IsAbs : bool; url_Host : string; url_HasUser : bool; url_RawQuery : string; url_Fragment : string
}.
Class Platform := {
  url_Parse : string → option parsed_url;
  (** [-Σ p log2 p] over the byte counts of a candidate, at least a threshold *)
  entropy_at_least : list nat → nat → bool
}.

Definition Profile := "minimal-public".
Definition PrivacyPolicy := "minimal-public-v1alpha3".
Definition EvaluationPassed := "passed".
Definition RulesetDigest := "sha256:b837a6758185671c7eff7463ac1cc72b6e29cdf44324fe0d84ec29158c4c88a9".
Definition maxDepth : Z := 64.
Definition maxNodes : Z := 65536.
Definition maxStringBytes : Z := 65536.
Definition maxFindings : nat := 100.
Definition maxVerificationRaw : Z := 16 * 2 ^ 20.

Definition orderedRuleIDs : list string :=
  ["PRIVATE_KEY_PEM"; "AUTHORIZATION_CREDENTIAL"; "CREDENTIAL_ASSIGNMENT"; "KNOWN_PROVIDER_CREDENTIAL"; "JWT_COMPACT";
   "URL_CREDENTIAL_OR_QUERY"; "EMAIL_ADDRESS"; "HOST_PRIVATE_PATH"; "SENSITIVE_DYNAMIC_FIELD"; "HIGH_ENTROPY_CANDIDATE";
   "PUBLIC_RESOURCE_CONTRACT"; "PRIVACY_SCAN_LIMIT"].

(** ** Patterns *)

Definition quote_bytes : string := String dquote "'".
(** The classes of the patterns, case sensitive and folded. *)
Definition cls (P : ascii → bool) : re := RSet (in_class P).
Definition icls (P : ascii → bool) : re := RSet (in_folded P).
Definition outside (P : ascii → bool) : rune → bool := λ r, negb (in_class P r).
Definition ioutside (P : ascii → bool) : rune → bool := λ r, negb (in_folded P r).
Definition after_other (P : rune → bool) : re := RAlt RBegin (RSet P).
Definition before_other (P : rune → bool) : re := RAlt REnd (RSet P).
Definition also (P : ascii → bool) (s : string) : ascii → bool := λ c, P c || one_of_bytes s c.
Definition lower_letter (c : ascii) : bool := in_range 97 122 c.
Definition spaces : re := RMany (in_class perl_space).
Definition optional_quote : re := ROpt (cls (one_of_bytes quote_bytes)).
Definition separator : re := cls (one_of_bytes ":=").
Definition optional_bar : re := ROpt (cls (one_of_bytes "_-")).
Definition ilit : string → re := RLit true.
Definition lit : string → re := RLit false.
(** [a[_-]?b] *)
Definition two_words (a b : string) : re := RSeq [ilit a; optional_bar; ilit b].

Definition privateKeyPattern : re :=
  RSeq [ilit "-----BEGIN ";
        ROpt (ROneOf (List.map ilit ["RSA "; "EC "; "DSA "; "OPENSSH "; "ENCRYPTED "]));
        ilit "PRIVATE KEY-----"].

Definition explicitAuthorizationPattern : re :=
  ROneOf
    [RSeq [ROpt (ilit "proxy-"); ilit "authorization"; spaces; separator; spaces; ROneOf [ilit "basic"; ilit "bearer"];
           RPlus (in_class perl_space); RPlus (outside perl_space)];
     RSeq [ROpt (ilit "set-"); ilit "cookie"; spaces; separator; spaces; RPlus (outside perl_space)];
     RSeq [ilit "session"; ROpt (ROneOf [ilit "id"; ilit "_id"]); spaces; separator; spaces; RPlus (outside perl_space)]].

Definition bareAuthorizationPattern : re :=
  RSeq [after_other (ioutside (also lower_alnum "_-")); RGroup (ROneOf [ilit "basic"; ilit "bearer"]);
        RPlus (in_class perl_space); RGroup (RRep (in_folded (also lower_alnum "+/=._~-")) 4 (Some 1000));
        before_other (ioutside (also lower_alnum "+/=._~-"))].

Definition credentialAssignmentPattern : re :=
  RSeq [after_other (ioutside (also lower_alnum "_")); optional_quote;
        ROneOf [ilit "password"; ilit "passwd"; ilit "pwd"; ilit "secret"; ilit "token"; two_words "api" "key";
                two_words "access" "key"; two_words "client" "secret"; ilit "authorization"; ilit "cookie"];
        optional_quote; spaces; separator; spaces; optional_quote;
        RPlus (λ r, ioutside (λ c, perl_space c || one_of_bytes quote_bytes c || one_of_bytes "}" c) r)].

Definition knownProviderPatterns : list re :=
  [RSeq [after_other (outside upper_alnum); ROneOf [lit "AKIA"; lit "ASIA"]; RRep (in_class upper_alnum) 16 (Some 16);
         before_other (outside upper_alnum)];
   RSeq [after_other (ioutside (also lower_alnum "_"));
         ROneOf [RSeq [ilit "github_pat_"; RRep (in_folded (also lower_alnum "_")) 20 None];
                 RSeq [ilit "gh"; icls (one_of_bytes "pousr"); ilit "_"; RRep (in_folded lower_alnum) 20 None]];
         before_other (ioutside (also lower_alnum "_"))];
   RSeq [after_other (outside (also alnum "_-")); lit "glpat-"; RRep (in_class (also alnum "_-")) 20 None;
         before_other (outside (also alnum "_-"))];
   RSeq [after_other (outside (also alnum "-")); lit "xox"; cls (one_of_bytes "baprs"); lit "-";
         RRep (in_class (also alnum "-")) 10 None; before_other (outside (also alnum "-"))];
   RSeq [after_other (outside (also alnum "_")); lit "sk_live_"; RRep (in_class alnum) 16 None; before_other (outside alnum)];
   RSeq [after_other (outside (also alnum "_-")); lit "AIza"; RRep (in_class (also alnum "_-")) 35 (Some 35);
         before_other (outside (also alnum "_-"))];
   RSeq [after_other (outside (also alnum "_")); lit "npm_"; RRep (in_class alnum) 20 None; before_other (outside alnum)]].

Definition jwt_segment : re := RRep (in_class (also alnum "_-")) 2 (Some 1000).
Definition jwtPattern : re :=
  RSeq [after_other (outside (also alnum "_-")); RGroup (RSeq [jwt_segment; lit "."; jwt_segment; lit "."; jwt_segment]);
        before_other (outside (also alnum "_-"))].

Definition mail_byte : ascii → bool := also lower_alnum ".!#$%&'*+/=?^_`{|}~-".
Definition mail_label : re :=
  RSeq [icls lower_alnum; ROpt (RSeq [RRep (in_folded (also lower_alnum "-")) 0 (Some 61); icls lower_alnum])].
Definition emailPattern : re :=
  RSeq [after_other (ioutside mail_byte); RPlus (in_folded mail_byte); ilit "@"; mail_label;
        RStar (RSeq [ilit "."; mail_label]); ilit "."; icls lower_letter;
        ROpt (RSeq [RRep (in_folded (also lower_letter "-")) 0 (Some 61); icls lower_letter]);
        before_other (ioutside (also lower_alnum "-"))].

Definition path_rest : re := RPlus (λ r, ioutside (λ c, perl_space c || one_of_bytes quote_bytes c) r).
Definition backslashes (n : nat) : string := string_concat (replicate n (String backslash "")).
Definition windowsPathPattern : re :=
  RSeq [after_other (ioutside lower_alnum);
        ROneOf [RSeq [icls lower_letter; ilit ":"; icls (one_of_bytes (String backslash "/"))]; ilit (backslashes 2);
                ilit (backslashes 1 +:+ "?" +:+ backslashes 1); ilit (backslashes 1 +:+ "." +:+ backslashes 1)];
        path_rest].
Definition posixHomePattern : re :=
  RSeq [after_other (ioutside lower_alnum); ilit "/"; ROneOf [ilit "home"; ilit "users"; ilit "root"]; ilit "/"; path_rest].
Definition absoluteURLPattern : re :=
  RSeq [icls lower_letter; RRep (in_folded (also lower_alnum "+.-")) 0 (Some 31); ilit "://";
        RPlus (λ r, ioutside (λ c, perl_space c || one_of_bytes quote_bytes c || one_of_bytes "<>" c) r)].
Definition fileURIPattern : re :=
  RSeq [after_other (ioutside lower_letter); ilit "file:";
        RAlt (RRep (in_folded (Ascii.eqb "/"%char)) 1 (Some 3)) (ilit (backslashes 1)); path_rest].

Definition sensitiveKeyPattern : re :=
  RSeq [after_other (in_folded (one_of_bytes "_-"));
        ROneOf ([ilit "password"; ilit "passwd"; ilit "pwd"; ilit "secret"; ilit "token"; two_words "api" "key";
                 two_words "access" "key"; two_words "client" "secret"]
                ++ List.map ilit ["authorization"; "cookie"; "session"; "environment"; "env"; "stdout"; "stderr"; "raw"; "body"; "content"]
                ++ [two_words "data" "root"; two_words "source" "root"; two_words "repository" "root";
                    two_words "workspace" "dir"; two_words "outputs" "dir";
                    RSeq [ilit "host"; optional_bar; ROneOf [ilit "root"; ilit "path"]];
                    two_words "local" "path"; two_words "run" "dir"]);
        before_other (in_folded (one_of_bytes "_-"))].

Definition hex_byte (c : ascii) : bool := is_digit c || in_range 65 70 c || in_range 97 102 c.
Definition hexCandidatePattern : re := RSeq [RBegin; RRep (in_class hex_byte) 32 None; REnd].
Definition base64CandidatePattern : re := RSeq [RBegin; RRep (in_class (also alnum "+/=_-")) 24 None; REnd].

(** ** Keys of dynamic fields *)

Definition isDynamicRoot (key : string) : bool := one_of key ["details"; "expected"; "actual"].

Definition asciiLower (c : ascii) : bool := in_range 97 122 c.
Definition asciiUpper (c : ascii) : bool := in_range 65 90 c.
Definition asciiLetter (c : ascii) : bool := asciiLower c || asciiUpper c.
Definition asciiDigit (c : ascii) : bool := in_range 48 57 c.
Fixpoint ToLower (s : string) : string :=
  match s with EmptyString => "" | String c s' => String (if asciiUpper c then swap_case c else c) (ToLower s') end.

(** The loop: the token being collected, last byte first, and its last byte
    ([start < 0] is an empty token). *)
Definition flush (token : list ascii) : list string :=
  match token with [] => [] | _ => [ToLower (String.string_of_list_ascii (rev token))] end.
Fixpoint key_tokens (token : list ascii) (key : string) : list string :=
  match key with
  | EmptyString => flush token
  | String c rest =>
      if negb (asciiLetter c) && negb (asciiDigit c) then flush token ++ key_tokens [] rest
      else
        match token with
        | [] => key_tokens [c] rest
        | previous :: _ =>
            let nextLower := match rest with String d _ => asciiLower d | EmptyString => false end in
            let boundary := xorb (asciiDigit c) (asciiDigit previous)
                            || (asciiUpper c && (asciiLower previous || (asciiUpper previous && nextLower))) in
            if boundary then flush token ++ key_tokens [c] rest else key_tokens (c :: token) rest
        end
  end.
Definition keyTokens (key : string) : list string := key_tokens [] key.

Fixpoint starts_with (sequence tokens : list string) : bool :=
  match sequence, tokens with
  | [], _ => true
  | a :: sequence, b :: tokens => (a =s b) && starts_with sequence tokens
  | _, [] => false
  end.
Fixpoint containsTokenSequence (tokens sequence : list string) : bool :=
  starts_with sequence tokens || match tokens with [] => false | _ :: tokens => containsTokenSequence tokens sequence end.

Definition sensitive_compacts : list string :=
  ["password"; "passwd"; "pwd"; "secret"; "token"; "apikey"; "accesskey"; "clientsecret"; "authorization"; "cookie";
   "session"; "environment"; "env"; "stdout"; "stderr"; "raw"; "body"; "content"; "dataroot"; "sourceroot";
   "repositoryroot"; "workspacedir"; "outputsdir"; "hostroot"; "hostpath"; "localpath"; "rundir"; "contentincluded";
   "rawpathincluded"; "stdoutcomplete"].
Definition sensitive_tokens : list string :=
  ["password"; "passwd"; "pwd"; "credential"; "credentials"; "authorization"; "auth"; "secret"; "token"; "cookie";
   "session"; "environment"; "stdout"; "stderr"; "raw"; "stream"; "body"].
Definition sensitive_sequences : list (list string) :=
  [["private"; "key"]; ["api"; "key"]; ["access"; "key"]; ["client"; "secret"]; ["host"; "root"]; ["host"; "path"];
   ["local"; "path"]; ["run"; "dir"]; ["data"; "root"]; ["source"; "root"]; ["repository"; "root"]; ["workspace"; "dir"];
   ["outputs"; "dir"]].

(** The loop over the tokens; [content] is allowed before [type] and [included]. *)
Fixpoint sensitive_token (tokens : list string) : bool :=
  match tokens with
  | [] => false
  | token :: rest =>
      one_of token sensitive_tokens
      || ((token =s "content") && match rest with next :: _ => (next !=s "type") && (next !=s "included") | [] => true end)
      || sensitive_token rest
  end.

Definition sensitiveDynamicKey (key : string) : bool :=
  MatchString sensitiveKeyPattern key
  || (let tokens := keyTokens key in
      one_of (string_concat tokens) sensitive_compacts || sensitive_token tokens
      || existsb (containsTokenSequence tokens) sensitive_sequences).

Definition nonEmpty (value : json) : bool :=
  match value with
  | JNull => false
  | JStr s => not_blank s
  | JArr l => match l with [] => false | _ => true end
  | JObj l => match l with [] => false | _ => true end
  | _ => true
  end.
Definition stringValue (value : json) : string := match value with JStr s => s | _ => "" end.
Definition stringAt (object : list (string * json)) (key : string) : string :=
  match assoc key object with Some v => stringValue v | None => "" end.

(** ** Exemptions *)

Definition lowerHex (value : string) (length : nat) : bool :=
  (slen value =? length) && string_forallb (λ c, is_digit c || in_range 97 102 c) value.
Definition upperOrLowerHex (value : string) (length : nat) : bool := (slen value =? length) && string_forallb hex_byte value.

Definition generatedContainerName (value : string) : bool :=
  has_prefix "repopass-" value && lowerHex (trim_prefix "repopass-" value) 32.

(** [value[4:len-11]]: Go panics on the text [run:filesystem], in which prefix and
    suffix overlap; the scanner asks only for texts of at least 24 bytes. *)
Definition exactEvidenceRef (value : string) : bool :=
  if has_prefix "run:" value && has_suffix ":filesystem" value
  then lowerHex (take_string (slen value - 15) (drop_string 4 value)) 32
  else has_prefix "json-schema:sha256:" value && lowerHex (trim_prefix "json-schema:sha256:" value) 64.

Definition id_byte (c : ascii) : bool := one_of_bytes "_-." c || alnum c.
Definition opaqueID (value : string) : bool := (1 <=? slen value) && (slen value <=? 128) && string_forallb id_byte value.

Definition canonicalIdentity (value : string) : bool :=
  (has_prefix "sha256:" value && lowerHex (trim_prefix "sha256:" value) 64)
  || (has_prefix "git:" value && lowerHex (trim_prefix "git:" value) 40).

(** *** Timestamps

    [time.Parse] with [time.RFC3339Nano] on a text ending in [Z], and the text
    [Format] gives back; what only the more lenient of Go's two parsers accepts
    (a comma, an hour of one digit) is not reproduced by [Format] either. *)
Definition leap_year (y : Z) : bool := ((y mod 4 =? 0) && (negb (y mod 100 =? 0) || (y mod 400 =? 0)))%Z.
Definition days_in (month year : Z) : Z :=
  (if month =? 2 then if leap_year year then 29 else 28
   else if (month =? 4) || (month =? 6) || (month =? 9) || (month =? 11) then 30 else 31)%Z.

Record civil := { cv_year : Z; cv_month : Z; cv_day : Z; cv_hour : Z; cv_minute : Z; cv_second : Z; cv_nanos : Z }.

(** A number of [n] digits between two bounds, and what follows. *)
Definition fixed (n : nat) (lo hi : Z) (s : string) : option (Z * string) :=
  let digits := take_string n s in
  let v := Z.of_N (digits_val 0 digits) in
  if negb (slen digits =? n) || negb (string_forallb is_digit digits) || (v <? lo)%Z || (hi <? v)%Z then None
  else Some (v, drop_string n s).
Definition byte (c : ascii) (s : string) : option string :=
  match s with String d s' => if Ascii.eqb c d then Some s' else None | EmptyString => None end.

Definition parse_fraction (s : string) : Z * string :=
  match s with
  | String "." rest =>
      match span_digits rest with
      | ("", _) => (0%Z, s)
      | (digits, rest) =>
          let digits := take_string 9 digits in
          (Z.of_N (digits_val 0 digits) * 10 ^ Z.of_nat (9 - slen digits), rest)%Z
      end
  | _ => (0%Z, s)
  end.

Definition time_Parse (s : string) : option civil :=
  let? (year, s) := fixed 4 0 9999 s in let? s := byte "-" s in
  let? (month, s) := fixed 2 1 12 s in let? s := byte "-" s in
  let? (day, s) := fixed 2 1 (days_in month year) s in let? s := byte "T" s in
  let? (hour, s) := fixed 2 0 23 s in let? s := byte ":" s in
  let? (minute, s) := fixed 2 0 59 s in let? s := byte ":" s in
  let? (second, s) := fixed 2 0 59 s in
  let '(nanos, s) := parse_fraction s in
  if s =s "Z"
  then Some {| cv_year := year; cv_month := month; cv_day := day; cv_hour := hour; cv_minute := minute; cv_second := second; cv_nanos := nanos |}
  else None.

Definition time_Format (t : civil) : string :=
  pad 4 (cv_year t) +:+ "-" +:+ pad 2 (cv_month t) +:+ "-" +:+ pad 2 (cv_day t) +:+ "T" +:+ pad 2 (cv_hour t) +:+ ":"
  +:+ pad 2 (cv_minute t) +:+ ":" +:+ pad 2 (cv_second t)
  +:+ (if (cv_nanos t =? 0)%Z then "" else "." +:+ trim_right_zeros (pad 9 (cv_nanos t))) +:+ "Z".

Definition canonicalUTCTimestamp (value : string) : bool :=
  has_suffix "Z" value && match time_Parse value with Some t => time_Format t =s value | None => false end.

Definition digest_paths : list string :=
  ["subject.treeDigest"; "plan.planDigest"; "plan.policyBundleDigest"; "digests.observations"; "digests.assertions";
   "digests.policyDecisions"; "digests.verification"; "policyDecisions.policyBundleDigest"; "assertions.expected.digest";
   "assertions.expected.schema.digest"; "assertions.expected.jsonSchema.digest"; "assertions.actual.sha256";
   "observations.details.baselineDigest"; "observations.details.finalDigest";
   "observations.details.canonicalTranscriptDigest"; "observations.details.canonicalSampleDigest"].

Definition AlphaJSONValidatorVersion := "github.com/santhosh-tekuri/jsonschema/v6@v6.0.2".

Definition exactExemption (path : list string) (value : string) : bool :=
  let joined := join "." path in
  if joined =s "assertions.expected.validatorVersion" then value =s AlphaJSONValidatorVersion
  else if joined =s "observations.details.tokenScheme" then value =s "ephemeral-keyed-hmac-sha256"
  else if (joined =s "observations.resource") || (joined =s "errors.details.containerName") then generatedContainerName value
  else if (joined =s "assertions.evidenceRefs") || (joined =s "errors.evidenceRefs") then exactEvidenceRef value
  else if joined =s "observations.details.opaqueInventoryToken"
  then has_prefix "hmac-sha256:" value && lowerHex (trim_prefix "hmac-sha256:" value) 64
  else if joined =s "subject.commit" then lowerHex value 40
  else if (joined =s "runId") || (joined =s "verificationId") then opaqueID value
  else if (joined =s "startedAt") || (joined =s "completedAt") || (joined =s "observations.timestamp") then canonicalUTCTimestamp value
  else if joined =s "subject.identity" then canonicalIdentity value
  else one_of joined digest_paths && has_prefix "sha256:" value && lowerHex (trim_prefix "sha256:" value) 64.

Definition dynamicFieldExemption (path : list string) (value : json) : bool :=
  if (stringValue value !=s "") && exactExemption path (stringValue value) then true
  else
    let joined := join "." path in
    match value with
    | JBool b =>
        if one_of joined ["observations.details.contentIncluded"; "observations.details.rawPathIncluded"] then negb b
        else if joined =s "assertions.actual.stdoutComplete" then b
        else one_of joined ["assertions.actual.bodyContainsMatched"; "assertions.actual.bodyTruncated";
                            "assertions.actual.structuredJSONBodyTruncated"; "observations.details.bodyTruncated"]
    | _ => false
    end.

(** ** Strings *)

(** [base64.RawURLEncoding.Strict().DecodeString]. *)
Fixpoint std_alphabet (s : string) : string :=
  match s with
  | EmptyString => ""
  | String c s' => String (if Ascii.eqb c "-" then "+" else if Ascii.eqb c "_" then "/" else c)%char (std_alphabet s')
  end.
Definition DecodeRawURL (s : string) : option string :=
  let s := without_newlines s in
  if existsb (λ c, string_contains_byte c s) ["+"; "/"; "="]%char then None
  else
    match slen s mod 4 with
    | 0 => decode_quanta true (std_alphabet s)
    | 2 => decode_quanta true (std_alphabet s +:+ "==")
    | 3 => decode_quanta true (std_alphabet s +:+ "=")
    | _ => None
    end.

(** [json.Unmarshal] into a [map[string]json.RawMessage] that is not nil after. *)
Definition jsonObject (raw : string) : bool :=
  match read_document raw with Some (JObj _) => true | _ => false end.

Definition small_object (segment : string) : bool :=
  match DecodeRawURL segment with Some d => (zlen d <=? 3072)%Z && jsonObject d | None => false end.

Definition jwtCompact (value : string) : bool :=
  existsb (λ m,
    match m with
    | [_; compact] =>
        match split_on "."%char compact with
        | [header; payload; _] => small_object header && small_object payload
        | _ => false
        end
    | _ => false
    end) (FindAllStringSubmatch jwtPattern value).

Fixpoint bytesSplitOnce (value : string) (separator : ascii) : option (string * string) :=
  match value with
  | EmptyString => None
  | String c rest =>
      if Ascii.eqb c separator then Some ("", rest)
      else let? (a, b) := bytesSplitOnce rest separator in Some (String c a, b)
  end.
Fixpoint string_existsb (P : ascii → bool) (s : string) : bool :=
  match s with EmptyString => false | String c s' => P c || string_existsb P s' end.

Definition bare_credential (m : list string) : bool :=
  match m with
  | [_; scheme; credential] =>
      if ToLower scheme =s "basic"
      then match DecodeString credential with
           | Some decoded =>
               match bytesSplitOnce decoded ":" with
               | Some (user, password) => (zlen decoded <=? 3072)%Z && (user !=s "") && (password !=s "")
               | None => false
               end
           | None => false
           end
      else if ToLower scheme =s "bearer"
      then (20 <=? slen credential) && string_existsb asciiDigit credential && string_existsb asciiLetter credential
      else false
  | _ => false
  end.

Definition authorizationCredential (value : string) : bool :=
  MatchString explicitAuthorizationPattern value
  || existsb bare_credential (FindAllStringSubmatch bareAuthorizationPattern value).

Fixpoint trim_bytes_left (P : ascii → bool) (l : list ascii) : list ascii :=
  match l with [] => [] | c :: l' => if P c then trim_bytes_left P l' else l end.
Definition TrimRight (s cutset : string) : string :=
  String.string_of_list_ascii (rev (trim_bytes_left (one_of_bytes cutset) (rev (String.list_ascii_of_string s)))).

(** *** High-entropy candidates *)

Definition candidate_byte (c : ascii) : bool := alnum c || one_of_bytes "+/=_-" c.
Definition joiner (c : ascii) : bool := one_of_bytes "-_" c.
Fixpoint count_bytes (P : ascii → bool) (s : string) : nat :=
  match s with EmptyString => 0 | String c s' => (if P c then 1 else 0) + count_bytes P s' end.

(** The maximal runs of candidate bytes, and the parts between joiners
    ([strings.FieldsFunc]). *)
Fixpoint byte_runs (P : ascii → bool) (run : string) (s : string) : list string :=
  match s with
  | EmptyString => [run]
  | String c s' => if P c then byte_runs P (run +:+ String c "") s' else run :: byte_runs P "" s'
  end.

Fixpoint windows (fuel : nat) (candidate : string) : list string :=
  match fuel with
  | 0 => []
  | S fuel => if slen candidate <? 64 then [] else take_string 64 candidate :: windows fuel (drop_string 16 candidate)
  end.

Definition flush_candidate (candidate : string) : list string :=
  if slen candidate <? 24 then []
  else
    let joiners := count_bytes joiner candidate in
    (if 2 <? joiners
     then List.filter (λ part, 24 <=? slen part) (byte_runs (λ c, negb (joiner c)) "" candidate)
     else [candidate])
    ++ (if (64 <? slen candidate) && (joiners <=? 2) then windows (slen candidate) candidate else []).

Definition candidateSegments (value : string) : list string := flat_map flush_candidate (byte_runs candidate_byte "" value).

(** The counts of the 256 bytes. *)
Definition byte_counts (value : string) : list nat :=
  List.map (λ n, count_bytes (Ascii.eqb (byte_of (N.of_nat n))) value) (seq 0 256).
Definition distinct (counts : list nat) : nat := length (List.filter (λ c, negb (c =? 0)) counts).

Section Scan.
Context `{PF : Platform}.

Definition candidateScore (value : string) : bool :=
  if negb (MatchString hexCandidatePattern value) && negb (MatchString base64CandidatePattern value) then false
  else
    let counts := byte_counts value in
    if MatchString hexCandidatePattern value then Nat.even (slen value) && entropy_at_least counts 3
    else (8 <=? distinct counts) && entropy_at_least counts 4.

Definition highEntropyCandidate (value : string) : bool := existsb candidateScore (candidateSegments value).

Definition unsafeURL (value : string) : bool :=
  existsb (λ field,
    match url_Parse (TrimRight field ".,);") with
    | Some u => url_IsAbs u && (url_Host u !=s "") && (url_HasUser u || (url_RawQuery u !=s "") || (url_Fragment u !=s ""))
    | None => false
    end) (FindAllString absoluteURLPattern value).

Record finding := { fd_rule : string; fd_surface : string }.

Definition candidate_of (value : string) : string :=
  if has_prefix "sha256:" value then trim_prefix "sha256:" value
  else if has_prefix "hmac-sha256:" value then trim_prefix "hmac-sha256:" value
  else value.

(** The rules and whether they match, in the order of [checks]. *)
Definition string_checks (value : string) (path : list string) (allowExemption : bool) : list (string * bool) :=
  let candidate := candidate_of value in
  let digestShaped := (slen candidate =? 64) && (lowerHex candidate 64 || upperOrLowerHex candidate 64) in
  [("PRIVATE_KEY_PEM", MatchString privateKeyPattern value);
   ("AUTHORIZATION_CREDENTIAL", authorizationCredential value);
   ("CREDENTIAL_ASSIGNMENT", MatchString credentialAssignmentPattern value);
   ("JWT_COMPACT", jwtCompact value);
   ("URL_CREDENTIAL_OR_QUERY", unsafeURL value);
   ("EMAIL_ADDRESS", MatchString emailPattern value);
   ("HOST_PRIVATE_PATH", MatchString windowsPathPattern value || MatchString posixHomePattern value || MatchString fileURIPattern value);
   ("KNOWN_PROVIDER_CREDENTIAL", existsb (λ provider, MatchString provider value) knownProviderPatterns);
   ("HIGH_ENTROPY_CANDIDATE",
    (highEntropyCandidate candidate || digestShaped) && negb (allowExemption && exactExemption path value))].

Definition scanString (value : string) (path : list string) (surface : string) (allowExemption : bool) : list finding :=
  if (maxStringBytes <? zlen value)%Z then [{| fd_rule := "PRIVACY_SCAN_LIMIT"; fd_surface := surface |}]
  else
    List.map (λ check, {| fd_rule := check.1; fd_surface := surface |})
      (List.filter snd (string_checks value path allowExemption)).

(** ** The document *)

(** What the member [key] of an object contributes besides its value. *)
Definition scan_member (object : list (string * json)) (path : list string) (dynamic : bool) (key : string) (child : json)
  : list finding :=
  scanString key (path ++ [key]) "dynamic-key" false
  ++ (if (dynamic || isDynamicRoot key) && sensitiveDynamicKey key && nonEmpty child
         && negb (dynamicFieldExemption (path ++ [key]) child)
      then [{| fd_rule := "SENSITIVE_DYNAMIC_FIELD"; fd_surface := "dynamic-field" |}] else [])
  ++ (if (key =s "resource") && (stringAt object "operation" =s "sandbox.outputs.export") && (stringValue child !=s "/outputs")
      then [{| fd_rule := "PUBLIC_RESOURCE_CONTRACT"; fd_surface := "observation-resource" |}] else []).

(** The findings in the order [add] is called. *)
Fixpoint walk (value : json) (path : list string) (dynamic : bool) : list finding :=
  match value with
  | JObj members =>
      flat_map snd (sort_keys (List.map (λ m, (m.1,
        scan_member members path dynamic m.1 m.2 ++ walk m.2 (path ++ [m.1]) (dynamic || isDynamicRoot m.1))) members))
  | JArr l => flat_map (λ child, walk child path dynamic) l
  | JStr s => scanString s path "string-value" true
  | _ => []
  end.

Record scanState := { sc_findings : list finding; sc_truncated : bool }.
Definition add (s : scanState) (f : finding) : scanState :=
  if maxFindings <=? length (sc_findings s) then {| sc_findings := sc_findings s; sc_truncated := true |}
  else {| sc_findings := sc_findings s ++ [f]; sc_truncated := sc_truncated s |}.
Definition scan (root : json) : scanState := foldl add {| sc_findings := []; sc_truncated := false |} (walk root [] false).

Record Evaluation := {
  ev_PrivacyProfile : string; ev_PrivacyPolicy : string; ev_PrivacyRulesetDigest : string; ev_PrivacyEvaluation : string
}.
Definition Passed : Evaluation :=
  {| ev_PrivacyProfile := Profile; ev_PrivacyPolicy := PrivacyPolicy; ev_PrivacyRulesetDigest := RulesetDigest;
     ev_PrivacyEvaluation := EvaluationPassed |}.

Definition CodeEvidencePrivacyBlocked := "EVIDENCE_PRIVACY_BLOCKED".

Definition orderedPresent (set : list string) (order : list string) : list string := List.filter (λ item, one_of item set) order.

(** A set, sorted ([map[string]struct{}] and [sort.Strings]). *)
Definition sorted_set (l : list string) : list string :=
  List.map fst (sort_keys (List.map (λ x, (x, tt)) (remove_dups l))).

Definition blocked (findings : list finding) (truncated : bool) : Error :=
  with_details
    (NewError CodeEvidencePrivacyBlocked SeverityHigh
       "The authoritative verification artifact is blocked by the minimal-public privacy policy.")
    [("privacyProfile", VStr Profile); ("privacyPolicy", VStr PrivacyPolicy); ("privacyRulesetDigest", VStr RulesetDigest);
     ("ruleIds", VStr (join "," (orderedPresent (List.map fd_rule findings) orderedRuleIDs)));
     ("surfaces", VStr (join "," (sorted_set (List.map fd_surface findings))));
     ("findingCount", VInt (Z.of_nat (length findings))); ("truncated", VBool truncated)].

Definition scan_limits : DecodeLimits := {| MaxBytes := maxVerificationRaw; MaxDepth := maxDepth; MaxNodes := maxNodes |}.
Definition scan_limit_exceeded : Error := blocked [{| fd_rule := "PRIVACY_SCAN_LIMIT"; fd_surface := "document" |}] false.

(** [None] is a decoder that does not return ([Decode_total] excludes it). *)
Definition Evaluate (raw : string) : option (result Error Evaluation) :=
  if (slen raw =? 0) || (maxVerificationRaw <? zlen raw)%Z || negb (utf8_valid raw) then Some (Err scan_limit_exceeded)
  else
    match Decode raw scan_limits with
    | None => None
    | Some (Err _) => Some (Err scan_limit_exceeded)
    | Some (Ok root) =>
        let state := scan root in
        match sc_findings state with
        | [] => Some (Ok Passed)
        | _ => Some (Err (blocked (sc_findings state) (sc_truncated state)))
        end
    end.
End Scan.

(** ** What a published document contains *)

(** [visits v p d v' p' d']: from the value [v] at the path [p] (inside a dynamic
    field when [d]), the value [v'] is reached. *)
Inductive visits : json → list string → bool → json → list string → bool → Prop :=
  | visit_here v p d : visits v p d v p d
  | visit_member members k child p d v p' d' :
      (k, child) ∈ members → visits child (p ++ [k]) (d || isDynamicRoot k) v p' d' → visits (JObj members) p d v p' d'
  | visit_element l child p d v p' d' :
      child ∈ l → visits child p d v p' d' → visits (JArr l) p d v p' d'.

Section Meaning.
Context `{PF : Platform}.

(** No rule applies to a text. *)
Definition clean_text (path : list string) (exempt : bool) (s : string) : Prop :=
  (zlen s <= maxStringBytes)%Z
  ∧ Forall (λ r, ¬ occurs r s)
      ([privateKeyPattern; explicitAuthorizationPattern; credentialAssignmentPattern; emailPattern; windowsPathPattern;
        posixHomePattern; fileURIPattern] ++ knownProviderPatterns)
  ∧ existsb bare_credential (FindAllStringSubmatch bareAuthorizationPattern s) = false
  ∧ jwtCompact s = false ∧ unsafeURL s = false
  ∧ (highEntropyCandidate (candidate_of s) = true ∨ upperOrLowerHex (candidate_of s) 64 = true →
     exempt = true ∧ exactExemption path s = true).

Definition clean_member (members : list (string * json)) (path : list string) (dynamic : bool) (key : string) (child : json) : Prop :=
  clean_text (path ++ [key]) false key
  ∧ (dynamic || isDynamicRoot key = true → sensitiveDynamicKey key = true → nonEmpty child = true →
     dynamicFieldExemption (path ++ [key]) child = true)
  ∧ (key = "resource" → stringAt members "operation" = "sandbox.outputs.export" → stringValue child = "/outputs").

Definition clean_value (v : json) (path : list string) (dynamic : bool) : Prop :=
  match v with
  | JStr s => clean_text path true s
  | JObj members => ∀ k child, (k, child) ∈ members → clean_member members path dynamic k child
  | _ => True
  end.

Definition publishable (root : json) : Prop := ∀ v path dynamic, visits root [] false v path dynamic → clean_value v path dynamic.

Lemma match_string_none r s : MatchString r s = false ↔ ¬ occurs r s.
Proof. rewrite <- match_string_exact. by destruct (MatchString r s). Qed.

Lemma lower_hex_either s n : lowerHex s n || upperOrLowerHex s n = upperOrLowerHex s n.
Proof.
  unfold lowerHex, upperOrLowerHex. destruct (slen s =? n); [|done]. cbn [andb].
  destruct (string_forallb (λ c, is_digit c || in_range 97 102 c) s) eqn:E; [|done]. symmetry.
  rewrite (string_forallb_impl (λ c, is_digit c || in_range 97 102 c) hex_byte s); [done| |done].
  intros c Hc. unfold hex_byte. apply orb_true_iff in Hc as [->| ->]; [done|by rewrite !orb_true_r].
Qed.

Lemma filter_nil {A} (f : A → bool) l : List.filter f l = [] ↔ Forall (λ x, f x = false) l.
Proof.
  induction l as [|x l IH]; [split; [constructor|done]|]. cbn [List.filter]. rewrite Forall_cons, <- IH.
  destruct (f x); [split; [done|by intros []]|tauto].
Qed.

Lemma scan_string_nil s path surface exempt : scanString s path surface exempt = [] ↔ clean_text path exempt s.
Proof.
  unfold scanString, clean_text. destruct (Z.ltb_spec maxStringBytes (zlen s)) as [H|H]; [split; [done|intros [? _]; lia]|].
  transitivity (List.filter snd (string_checks s path exempt) = []).
  { destruct (List.filter _ _); [done|split; discriminate]. }
  rewrite filter_nil. unfold string_checks. rewrite !Forall_cons. cbn [snd fst].
  unfold authorizationCredential. rewrite !orb_false_iff, Forall_app, !Forall_cons, !match_string_none.
  assert (existsb (λ provider, MatchString provider s) knownProviderPatterns = false ↔ Forall (λ r, ¬ occurs r s) knownProviderPatterns) as ->.
  { rewrite <- not_true_iff_false, existsb_exists, Forall_forall. setoid_rewrite match_string_exact. setoid_rewrite <- list_elem_of_In.
    naive_solver. }
  rewrite andb_false_iff, negb_false_iff, andb_true_iff, orb_false_iff, lower_hex_either.
  assert (∀ a b : bool, (b = true → a = true) → a && b = b) as Hab by (intros [] []; naive_solver).
  rewrite (Hab (slen (candidate_of s) =? 64)).
  2:{ unfold upperOrLowerHex. rewrite andb_true_iff. tauto. }
  rewrite !(Forall_nil_iff (A := re)), !(Forall_nil_iff (A := string * bool)).
  set (a := highEntropyCandidate _). set (b := upperOrLowerHex _ _).
  assert ((a = false ∧ b = false) ∨ (exempt = true ∧ exactExemption path s = true)
    ↔ (a = true ∨ b = true → exempt = true ∧ exactExemption path s = true)) as <-.
  { destruct a, b; intuition congruence. }
  tauto.
Qed.

Lemma flat_map_nil {A B} (f : A → list B) l : flat_map f l = [] ↔ ∀ x, x ∈ l → f x = [].
Proof.
  induction l as [|x l IH]; cbn [flat_map]; [by split; [intros _ x Hx; apply elem_of_nil in Hx|]|].
  split.
  - intros H y Hy. apply app_eq_nil in H as [Hx Hl]. apply elem_of_cons in Hy as [->|Hy]; [done|]. by apply IH.
  - intros H. rewrite (H x) by left. apply IH. intros y Hy. apply H. by right.
Qed.

Lemma if_nil {A} (b : bool) (x : A) : (if b then [x] else []) = [] ↔ b = false.
Proof. by destruct b. Qed.

Lemma scan_member_nil members path dynamic key child :
  scan_member members path dynamic key child = [] ↔ clean_member members path dynamic key child.
Proof.
  unfold scan_member, clean_member. rewrite !app_nil, !if_nil.
  rewrite scan_string_nil. rewrite !andb_false_iff, !negb_false_iff, !String.eqb_neq, String.eqb_eq.
  destruct (dynamic || isDynamicRoot key), (sensitiveDynamicKey key), (nonEmpty child), (dynamicFieldExemption (path ++ [key]) child);
    destruct (String.eqb_spec key "resource"), (String.eqb_spec (stringAt members "operation") "sandbox.outputs.export"),
      (String.eqb_spec (stringValue child) "/outputs"); intuition congruence.
Qed.

(** The scanner finds nothing exactly when every value it reaches is clean. *)
Lemma walk_nil v path dynamic :
  walk v path dynamic = [] ↔ ∀ v' p' d', visits v path dynamic v' p' d' → clean_value v' p' d'.
Proof.
  revert path dynamic. induction v as [|b|n|s|l IH|members IH] using json_nested_ind; intros path dynamic; cbn [walk].
  1-3: split; [|done]; intros _ v' p' d' H; inversion H; subst; exact I.
  - rewrite scan_string_nil. split; [intros H v' p' d' Hv; inversion Hv; by subst|]. intros H. apply (H _ _ _ (visit_here _ _ _)).
  - rewrite flat_map_nil. rewrite Forall_forall in IH. split.
    + intros H v' p' d' Hv. inversion Hv as [| |? child ? ? ? ? ? Hc Hr]; subst; [done|]. by apply (proj1 (IH _ Hc _ _) (H _ Hc) _ _ _ Hr).
    + intros H child Hc. apply IH; [done|]. intros v' p' d' Hv. apply H. by eapply visit_element.
  - rewrite flat_map_nil. setoid_rewrite sort_keys_elem. setoid_rewrite elem_of_map. rewrite Forall_forall in IH. split.
    + intros H v' p' d' Hv. inversion Hv as [|? k child ? ? ? ? ? Hc Hr|]; subst.
      * intros k child Hc. specialize (H _ (ex_intro _ (k, child) (conj eq_refl Hc))). cbn [fst snd] in H.
        apply app_eq_nil in H as [H _]. by apply scan_member_nil.
      * specialize (H _ (ex_intro _ (k, child) (conj eq_refl Hc))). cbn [fst snd] in H. apply app_eq_nil in H as [_ H].
        by apply (proj1 (IH _ Hc _ _) H _ _ _ Hr).
    + intros H x ([k child] & -> & Hc). cbn [fst snd].
      rewrite (proj2 (scan_member_nil _ _ _ _ _)) by exact (H _ _ _ (visit_here _ _ _) k child Hc).
      apply (IH _ Hc). intros v' p' d' Hv. apply H. by eapply visit_member.
Qed.

Lemma add_all l st :
  (length (sc_findings st) <= maxFindings)%nat →
  foldl add st l = {| sc_findings := take maxFindings (sc_findings st ++ l);
                      sc_truncated := sc_truncated st || (maxFindings <? length (sc_findings st) + length l) |}.
Proof.
  revert st. induction l as [|x l IH]; intros [fs t] Hf; cbn [foldl sc_findings sc_truncated length] in *.
  - rewrite app_nil_r, take_ge by done. rewrite Nat.add_0_r, (proj2 (Nat.ltb_ge _ _)), orb_false_r by done. done.
  - unfold add at 2. cbn [sc_findings sc_truncated]. destruct (Nat.leb_spec maxFindings (length fs)) as [Hm|Hm].
    + rewrite IH by done. cbn [sc_findings sc_truncated]. assert (length fs = maxFindings) as He by lia.
      assert (∀ k, take maxFindings (fs ++ k) = fs) as Ht by (intros k; rewrite <- He; apply take_app_length).
      rewrite !Ht. rewrite (proj2 (Nat.ltb_lt _ (length fs + S (length l)))) by lia. by rewrite orb_true_r.
    + rewrite IH by (cbn [sc_findings]; rewrite length_app; cbn [length]; lia). cbn [sc_findings sc_truncated].
      rewrite <- app_assoc, length_app. cbn [length app].
      replace (length fs + 1 + length l) with (length fs + S (length l)) by lia. done.
Qed.

Lemma scan_spec root :
  scan root = {| sc_findings := take maxFindings (walk root [] false);
                 sc_truncated := maxFindings <? length (walk root [] false) |}.
Proof. unfold scan. rewrite add_all by (cbn; lia). done. Qed.

Lemma scan_nil root : sc_findings (scan root) = [] ↔ publishable root.
Proof.
  rewrite scan_spec. cbn [sc_findings]. unfold publishable. rewrite <- walk_nil. unfold maxFindings.
  by destruct (walk root [] false).
Qed.

(** C21: A document passes the gate exactly when it is a JSON document within the
    bounds and every value the scanner reaches is clean: no text in which a
    credential, address or private path pattern occurs, no high-entropy or
    digest-shaped text outside the exempt paths, no sensitive dynamic field that
    is not exempt, and no exported resource other than the outputs directory. *)
Theorem privacy_pass_exact raw e :
  Evaluate raw = Some (Ok e) ↔
  e = Passed ∧ (1 <= zlen raw <= maxVerificationRaw)%Z ∧ ∃ root, Decode raw scan_limits = Some (Ok root) ∧ publishable root.
Proof.
  unfold Evaluate. destruct (Nat.eqb_spec (slen raw) 0) as [H0|H0]; [split; [done|unfold zlen; intros (_ & H & _); lia]|]. cbn [orb].
  destruct (Z.ltb_spec maxVerificationRaw (zlen raw)); [split; [done|intros (_ & ? & _); lia]|]. cbn [orb].
  destruct (utf8_valid raw) eqn:Hu; cbn [negb].
  2:{ split; [done|]. intros (_ & _ & root & H1 & _). unfold Decode in H1. rewrite Hu in H1. cbn [negb] in H1. by repeat case_match. }
  destruct (Decode raw scan_limits) as [[root|err]|]; [|split; [done|by intros (_ & _ & root & ? & _)]..].
  destruct (sc_findings (scan root)) as [|f fs] eqn:Ef.
  - split; [|by intros (-> & _)]. intros [= <-]. split_and!; [done|unfold zlen; lia|done|]. exists root. split; [done|by apply scan_nil].
  - split; [done|]. intros (_ & _ & root' & [= <-] & Hp). apply scan_nil in Hp. congruence.
Qed.

(** ** What a refusal discloses *)

Definition surface_names : list string := ["document"; "dynamic-field"; "dynamic-key"; "observation-resource"; "string-value"].

Definition fixed_finding (f : finding) : Prop := fd_rule f ∈ orderedRuleIDs ∧ fd_surface f ∈ surface_names.

Lemma checked_rules s path exempt : Forall (λ check, check.1 ∈ orderedRuleIDs) (string_checks s path exempt).
Proof.
  unfold string_checks. repeat (apply Forall_cons; split; [cbn [fst]; apply (bool_decide_unpack _); vm_compute; exact I|]). constructor.
Qed.

Lemma scan_string_fixed s path surface exempt :
  surface ∈ surface_names → Forall fixed_finding (scanString s path surface exempt).
Proof.
  intros Hs. unfold scanString. destruct (_ <? _)%Z.
  - constructor; [|constructor]. split; [|done]. by apply (bool_decide_unpack _).
  - apply Forall_forall. intros f Hf. apply elem_of_map in Hf as (check & -> & Hin).
    apply list_elem_of_In, filter_In in Hin as [Hin _]. apply list_elem_of_In in Hin.
    split; [|done]. by apply (proj1 (Forall_forall _ _) (checked_rules s path exempt)).
Qed.

Lemma scan_member_fixed members path dynamic key child : Forall fixed_finding (scan_member members path dynamic key child).
Proof.
  unfold scan_member. apply Forall_app. split; [apply scan_string_fixed; by apply (bool_decide_unpack _)|].
  apply Forall_app. split; destruct (_ && _); repeat constructor; by apply (bool_decide_unpack _).
Qed.

Lemma walk_fixed v path dynamic : Forall fixed_finding (walk v path dynamic).
Proof.
  revert path dynamic. induction v as [|b|n|s|l IH|members IH] using json_nested_ind; intros path dynamic; cbn [walk]; try constructor.
  - apply scan_string_fixed. by apply (bool_decide_unpack _).
  - rewrite Forall_forall in IH. apply Forall_forall. intros f Hf. apply elem_of_flat_map in Hf as (child & Hc & Hf).
    by apply (proj1 (Forall_forall _ _) (IH child Hc path dynamic)).
  - rewrite Forall_forall in IH. apply Forall_forall. intros f Hf. apply elem_of_flat_map in Hf as (x & Hx & Hf). apply sort_keys_elem, elem_of_map in Hx as (m & -> & Hm).
    cbn [snd] in Hf. apply elem_of_app in Hf as [Hf|Hf].
    + by apply (proj1 (Forall_forall _ _) (scan_member_fixed members path dynamic m.1 m.2)).
    + by apply (proj1 (Forall_forall _ _) (IH m Hm (path ++ [m.1]) (dynamic || isDynamicRoot m.1))).
Qed.

(** The error of a refusal: rule names, surface names, a count and a flag. *)
Definition refusal (rules surfaces : list string) (count : nat) (truncated : bool) : Error :=
  with_details
    (NewError CodeEvidencePrivacyBlocked SeverityHigh
       "The authoritative verification artifact is blocked by the minimal-public privacy policy.")
    [("privacyProfile", VStr Profile); ("privacyPolicy", VStr PrivacyPolicy); ("privacyRulesetDigest", VStr RulesetDigest);
     ("ruleIds", VStr (join "," rules)); ("surfaces", VStr (join "," surfaces));
     ("findingCount", VInt (Z.of_nat count)); ("truncated", VBool truncated)].

Lemma sorted_set_elem x l : x ∈ sorted_set l ↔ x ∈ l.
Proof.
  unfold sorted_set. rewrite elem_of_map. setoid_rewrite sort_keys_elem. setoid_rewrite elem_of_map. split.
  - intros ([k []] & -> & y & E & Hy). injection E as ->. cbn [fst]. by apply elem_of_remove_dups.
  - intros Hx. exists (x, tt). split; [done|]. exists x. split; [done|]. by apply elem_of_remove_dups.
Qed.

Lemma blocked_refusal findings truncated :
  findings ≠ [] → Forall fixed_finding findings →
  ∃ rules surfaces, blocked findings truncated = refusal rules surfaces (length findings) truncated
    ∧ rules ≠ [] ∧ rules `sublist_of` orderedRuleIDs ∧ Forall (λ x, x ∈ surface_names) surfaces.
Proof.
  intros Hne Hf. eexists _, _. split; [reflexivity|]. split_and!.
  - destruct findings as [|f fs]; [done|]. apply Forall_cons in Hf as [[Hr _] _]. unfold orderedPresent. intros E.
    apply filter_nil in E. rewrite Forall_forall in E. specialize (E _ Hr). apply not_true_iff_false in E. apply E. apply one_of_In. left.
  - unfold orderedPresent. generalize orderedRuleIDs. intros l. induction l as [|x l IH]; [constructor|]. cbn [List.filter].
    destruct (one_of x _); by constructor.
  - apply Forall_forall. intros x Hx. rewrite sorted_set_elem, elem_of_map in Hx. destruct Hx as (f & -> & Hin).
    rewrite Forall_forall in Hf. by apply Hf in Hin as [_ ?].
Qed.

(** C22: The gate always decides, and a refusal discloses only policy metadata:
    the names of rules and surfaces, in the order of the policy, a count of at
    most a hundred, and whether the count was cut off there. *)
Theorem privacy_refusal_discloses raw :
  Evaluate raw = Some (Ok Passed)
  ∨ ∃ rules surfaces count truncated,
      Evaluate raw = Some (Err (refusal rules surfaces count truncated))
      ∧ rules ≠ [] ∧ rules `sublist_of` orderedRuleIDs ∧ Forall (λ x, x ∈ surface_names) surfaces
      ∧ 1 <= count <= maxFindings ∧ (truncated = true → count = maxFindings).
Proof.
  assert (∃ rules surfaces, scan_limit_exceeded = refusal rules surfaces 1 false
    ∧ rules ≠ [] ∧ rules `sublist_of` orderedRuleIDs ∧ Forall (λ x, x ∈ surface_names) surfaces) as (rs & ss & Hl & Hrs).
  { apply (blocked_refusal [_] false); [done|]. constructor; [|constructor]. split; by apply (bool_decide_unpack _). }
  unfold Evaluate. rewrite Hl. destruct (_ || _ || _).
  { right. exists rs, ss, 1, false. split; [done|]. destruct Hrs as (? & ? & ?). split_and!; try done; unfold maxFindings; lia. }
  destruct (Decode_total raw scan_limits) as ([root|err] & ->).
  2:{ right. exists rs, ss, 1, false. split; [done|]. destruct Hrs as (? & ? & ?). split_and!; try done; unfold maxFindings; lia. }
  rewrite scan_spec. cbn [sc_findings sc_truncated]. set (fs := walk root [] false).
  destruct (take maxFindings fs) as [|f fs'] eqn:Ef; [by left|]. right.
  destruct (blocked_refusal (f :: fs') (maxFindings <? length fs)) as (rules & surfaces & Hb & Hr); [done|rewrite <- Ef; apply Forall_take, walk_fixed|].
  exists rules, surfaces, (length (f :: fs')), (maxFindings <? length fs). rewrite Hb. split; [done|]. destruct Hr as (? & ? & ?).
  split_and!; try done; [cbn; lia|rewrite <- Ef, length_take; lia|].
  intros Ht. apply Nat.ltb_lt in Ht. rewrite <- Ef, length_take. lia.
Qed.
End Meaning.

(** ** Examples *)

(** A platform that takes no text for a URL and compares the entropy exactly:
    [n^n >= 2^(k n) · Π c^c] for [n] the sum of the counts [c]. *)
Definition exact_platform : Platform := {|
  url_Parse := λ _, None;
  entropy_at_least := λ counts k,
    let n := Z.of_nat (foldr Nat.add 0 counts) in
    (2 ^ (Z.of_nat k * n) * foldr (λ c p, Z.of_nat c ^ Z.of_nat c * p) 1 counts <=? n ^ n)%Z
|}.

Definition public_document : string :=
  encode (JObj [("startedAt", JStr "2026-02-03T04:05:06.7Z"); ("subject", JObj [("treeDigest", JStr ("sha256:" +:+ sha256_hex "x"))])]).
Definition private_document : string := encode (JObj [("details", JObj [("note", JStr "write to joe@example.org"); ("apiKey", JStr "k")])]).

Example public_passes : @Evaluate exact_platform public_document = Some (Ok Passed).
Proof. vm_compute. reflexivity. Qed.
Example private_blocked :
  @Evaluate exact_platform private_document
  = Some (Err (refusal ["EMAIL_ADDRESS"; "SENSITIVE_DYNAMIC_FIELD"] ["dynamic-field"; "string-value"] 2 false)).
Proof. vm_compute. reflexivity. Qed.
