(* ===== verification/AcceptanceRegistry.v ===== *)
(** * The acceptance registry and its evaluation (internal/acceptanceregistry)

    The registry lists 37 acceptance rows; the implementation embeds the one it
    accepts ([expected.go], [ParseRegistry]).  [Evaluate] turns the results of the
    continuous-integration checks into a status per row and an overall status,
    [ParseEvaluation] re-derives every row and the digest of an evaluation it is
    given, [RequireComplete] asks for a pass on every row. *)

From S2P Require Import Prelude Sha256 Json StructuredJson SemanticEqual GoValue CanonicalJson JsonStrings Domain GoPath GoStruct Base64 Dsse Regex Privacy.

Local Open Scope Z_scope.

(** ** Data (types.go) *)

Definition MaxRegistryBytes : Z := 256 * 2 ^ 10.
Definition MaxEvaluationBytes : Z := 1 * 2 ^ 20.

Definition StatusPass := "PASS".
Definition StatusFail := "FAIL".
Definition StatusNotRun := "NOT_RUN".
Definition StatusBlocked := "BLOCKED".
Definition OverallPass := "PASS".
Definition OverallFail := "FAIL".
Definition OverallIncomplete := "INCOMPLETE".

Record EvaluationPolicy := { pl_Kind : string; pl_ReasonCode : string; pl_RequiredChecks : list string }.
Record RegistryRow := {
  rr_AppliesTo : list string; rr_Criterion : string; rr_Evaluation : EvaluationPolicy; rr_ID : string; rr_Milestone : string;
  rr_Required : bool
}.
Record Registry := { rg_ArtifactType : string; rg_Product : string; rg_Rows : list RegistryRow; rg_SchemaVersion : string }.

Record Subject := { sj_Repository : string; sj_Revision : string; sj_TreeSHA : string }.
Record Run := { rn_Attempt : Z; rn_Event : string; rn_ID : Z; rn_Ref : string; rn_WorkflowPath : string }.
Record CheckResults := { ck_Container : string; ck_Go : string; ck_SchemaJSON : string; ck_WindowsGo : string }.
Record EvaluationRequest := { rq_Subject : Subject; rq_Run : Run; rq_Checks : CheckResults }.
Record EvidenceRecord := { ec_CheckID : string; ec_Result : string }.
Record RowEvaluation := { re_Evidence : list EvidenceRecord; re_ID : string; re_ReasonCode : string; re_Status : string }.
Record Evaluation := {
  ae_ArtifactType : string; ae_EvaluationDigest : string; ae_FormalClaim : bool; ae_OverallStatus : string;
  ae_RegistryDigest : string; ae_Rows : list RowEvaluation; ae_Run : Run; ae_SchemaVersion : string;
  ae_StableEligible : bool; ae_Subject : Subject; ae_TrustBoundary : string
}.

Inductive acceptance_error :=
  | ErrRegistryInvalid
  | ErrScopeMismatch
  | ErrSubjectInvalid
  | ErrCheckInputInvalid
  | ErrIncomplete
  | ErrEvaluationInvalid
  | ErrMarshal (message : string).

(** ** The documents of the structs ([json.Marshal] with their tags) *)

Definition text (s : string) : json := JStr (sanitize s).
Definition texts (l : list string) : json := JArr (List.map text l).

Definition policy_doc (p : EvaluationPolicy) : json :=
  JObj ([("kind", text (pl_Kind p))]
        ++ (if pl_ReasonCode p =s "" then [] else [("reasonCode", text (pl_ReasonCode p))])
        ++ (match pl_RequiredChecks p with [] => [] | checks => [("requiredChecks", texts checks)] end)).
Definition registry_row_doc (r : RegistryRow) : json :=
  JObj [("appliesTo", texts (rr_AppliesTo r)); ("criterion", text (rr_Criterion r)); ("evaluation", policy_doc (rr_Evaluation r));
        ("id", text (rr_ID r)); ("milestone", text (rr_Milestone r)); ("required", JBool (rr_Required r))].
Definition registry_doc (r : Registry) : json :=
  JObj [("artifactType", text (rg_ArtifactType r)); ("product", text (rg_Product r));
        ("rows", JArr (List.map registry_row_doc (rg_Rows r))); ("schemaVersion", text (rg_SchemaVersion r))].

Definition subject_doc (s : Subject) : json :=
  JObj [("repository", text (sj_Repository s)); ("revision", text (sj_Revision s)); ("treeSHA", text (sj_TreeSHA s))].
Definition run_doc (r : Run) : json :=
  JObj [("attempt", JNum (dec_Z (rn_Attempt r))); ("event", text (rn_Event r)); ("id", JNum (dec_Z (rn_ID r)));
        ("ref", text (rn_Ref r)); ("workflowPath", text (rn_WorkflowPath r))].
Definition evidence_doc (e : EvidenceRecord) : json := JObj [("checkId", text (ec_CheckID e)); ("result", text (ec_Result e))].
Definition row_doc (r : RowEvaluation) : json :=
  JObj [("evidence", JArr (List.map evidence_doc (re_Evidence r))); ("id", text (re_ID r)); ("reasonCode", text (re_ReasonCode r));
        ("status", text (re_Status r))].
Definition evaluation_doc (e : Evaluation) : json :=
  JObj [("artifactType", text (ae_ArtifactType e)); ("evaluationDigest", text (ae_EvaluationDigest e));
        ("formalClaim", JBool (ae_FormalClaim e)); ("overallStatus", text (ae_OverallStatus e));
        ("registryDigest", text (ae_RegistryDigest e)); ("rows", JArr (List.map row_doc (ae_Rows e))); ("run", run_doc (ae_Run e));
        ("schemaVersion", text (ae_SchemaVersion e)); ("stableEligible", JBool (ae_StableEligible e));
        ("subject", subject_doc (ae_Subject e)); ("trustBoundary", text (ae_TrustBoundary e))].
(** [evaluationWithoutDigest]. *)
Definition evaluation_without_digest (e : Evaluation) : json :=
  JObj [("artifactType", text (ae_ArtifactType e));
        ("formalClaim", JBool (ae_FormalClaim e)); ("overallStatus", text (ae_OverallStatus e));
        ("registryDigest", text (ae_RegistryDigest e)); ("rows", JArr (List.map row_doc (ae_Rows e))); ("run", run_doc (ae_Run e));
        ("schemaVersion", text (ae_SchemaVersion e)); ("stableEligible", JBool (ae_StableEligible e));
        ("subject", subject_doc (ae_Subject e)); ("trustBoundary", text (ae_TrustBoundary e))].

(** ** The registry the implementation embeds (expected.go) *)

Definition expectedRow (id milestone : string) (appliesTo : list string) (criterion : string) : RegistryRow :=
  {| rr_AppliesTo := appliesTo; rr_Criterion := criterion;
     rr_Evaluation := {| pl_Kind := ""; pl_ReasonCode := ""; pl_RequiredChecks := [] |}; rr_ID := id; rr_Milestone := milestone;
     rr_Required := true |}.

Definition required_checks (checks : list string) : EvaluationPolicy :=
  {| pl_Kind := "required-checks"; pl_ReasonCode := ""; pl_RequiredChecks := checks |}.
Definition reason_policy (kind reason : string) : EvaluationPolicy :=
  {| pl_Kind := kind; pl_ReasonCode := reason; pl_RequiredChecks := [] |}.

(** The switch on the row's id. *)
Definition expected_policy (id : string) : EvaluationPolicy :=
  if id =s "RP-B00" then required_checks ["ci/container-matrix"; "ci/go"; "ci/schema-json"; "ci/windows-go"]
  else if one_of id ["RP-B04"; "RP-M1-JOURNEY"] then required_checks ["ci/container-matrix"]
  else if id =s "RP-M0-MODULE" then required_checks ["ci/go"; "ci/windows-go"]
  else if id =s "RP-M0-QUAL" then reason_policy "blocked" "SOURCE_QUALIFICATION_PREREQUISITES_UNAVAILABLE"
  else reason_policy "not-run" "ROADMAP_WORK_NOT_SCHEDULED".

Definition set_policy (r : RegistryRow) (p : EvaluationPolicy) : RegistryRow :=
  {| rr_AppliesTo := rr_AppliesTo r; rr_Criterion := rr_Criterion r; rr_Evaluation := p; rr_ID := rr_ID r;
     rr_Milestone := rr_Milestone r; rr_Required := rr_Required r |}.

Definition listed_rows : list RegistryRow :=
  [expectedRow "RP-B00" "BASELINE" ["github"; "repository"]
     "The baseline revision equals the live default branch, or default-branch drift is recorded and the baseline is recomputed.";
   expectedRow "RP-B01" "BASELINE" ["linux-amd64"; "repository"; "windows-amd64"]
     "Source gates pass on their first attempt; public output and receipts remain outside the repository and contain no secret.";
   expectedRow "RP-B02" "BASELINE" ["docker-linux-amd64"; "podman-linux-amd64"]
     "Current-source container evidence and historical Alpha evidence are classified without presenting historical evidence as current.";
   expectedRow "RP-B03" "BASELINE" ["docker-linux-amd64"; "podman-linux-amd64"; "repository"]
     "The source worktree is clean before and after the baseline, with no process, container, network, or volume residue.";
   expectedRow "RP-B04" "BASELINE" ["docker-linux-amd64"; "podman-linux-amd64"]
     "Healthy results remain capability INCOMPLETE and overall INCONCLUSIVE until the required observations exist.";
   expectedRow "RP-M0-CORPUS" "M0" ["linux-amd64"; "repository"; "windows-amd64"]
     "The complete fixture matrix and frozen fuzz or property seeds pass on Linux and Windows build paths, and malicious fixtures fail closed.";
   expectedRow "RP-M0-MODULE" "M0" ["linux-amd64"; "release"; "repository"; "windows-amd64"]
     "Clone, build, import, module metadata, and release assets use one exact canonical repository namespace.";
   expectedRow "RP-M0-QUAL" "M0" ["linux-amd64"; "repository"; "windows-amd64"]
     "The current source archive, required tests, and receipts bind one exact source revision and tree without repackaging historical Alpha evidence.";
   expectedRow "RP-M0-SPEC" "M0" ["linux-amd64"; "repository"; "windows-amd64"]
     "Every public schema, specification, and reference behavior has machine-readable conformance coverage and unknown semantics fail closed.";
   expectedRow "RP-M1-JOURNEY" "M1" ["docker-linux-amd64"; "podman-linux-amd64"]
     "CLI and HTTP healthy journeys pass functionally, remain reproducibly stable, and clean up on every supported Docker and Podman tuple.";
   expectedRow "RP-M2-COVERAGE" "M2" ["docker-linux-amd64"; "podman-linux-amd64"]
     "Every required observer category reaches its normative high or complete coverage and gap or overflow fixtures remain incomplete.";
   expectedRow "RP-M2-MATRIX" "M2" ["docker-linux-amd64"; "podman-linux-amd64"]
     "Docker and Podman each have current exact-source clean-VM evidence with no required skip or retry laundering.";
   expectedRow "RP-M2-RESIDUE" "M2" ["docker-linux-amd64"; "podman-linux-amd64"]
     "Success, timeout, cancellation, crash, termination-resistant, and early-exit paths restore the after-inventory to the baseline.";
   expectedRow "RP-M2-VERDICT" "M2" ["docker-linux-amd64"; "podman-linux-amd64"]
     "At least one healthy Node and Python profile honestly reaches capability CONFORMING and overall VERIFIED while adversarial gaps do not.";
   expectedRow "RP-M3-IDENTITY" "M3" ["external-review"; "release"]
     "Accepted evidence is authorized by external identity and policy; self-signed, unknown, revoked, or stale signers are not accepted.";
   expectedRow "RP-M3-INTEGRITY" "M3" ["external-review"; "release"]
     "Removal, rename, remint, signature, key, policy, source, and SBOM substitution all fail closed.";
   expectedRow "RP-M3-PORTABLE" "M3" ["linux-amd64"; "release"; "windows-amd64"]
     "The release verifier kit validates the exact bundle on two clean operating systems without the producer worktree.";
   expectedRow "RP-M3-PRIVACY" "M3" ["release"; "repository"]
     "Every public file is typed and privacy-checked, and raw data renamed into an allowlisted slot is still rejected.";
   expectedRow "RP-M4-CHECK" "M4" ["github"]
     "A real pull-request check binds the exact pull-request revision and maps healthy, failed, and inconclusive results according to the specification.";
   expectedRow "RP-M4-FORK" "M4" ["github"]
     "A fork pull request receives no secret or write authority and artifact substitution cannot deceive the privileged publisher.";
   expectedRow "RP-M4-REPRO" "M4" ["github"; "release"]
     "A downloaded check artifact is independently verifiable and binds its workflow run and source revision.";
   expectedRow "RP-M5-JOURNEY" "M5" ["ui"]
     "A new user can follow the README on a clean machine, complete the local trial, and verify the evidence.";
   expectedRow "RP-M5-SECURITY" "M5" ["ui"]
     "Untrusted repository text or reports cannot execute script, inject HTML, open arbitrary network access, or disclose raw evidence.";
   expectedRow "RP-M5-TRUTH" "M5" ["ui"]
     "Every UI status traces to the canonical model and visibly preserves INCOMPLETE or INCONCLUSIVE rather than presenting success.";
   expectedRow "RP-M6-AUTHORITY" "M6" ["hosted-runner"]
     "A compromised worker or forged result cannot produce accepted evidence or a passing GitHub Check.";
   expectedRow "RP-M6-CLEANUP" "M6" ["hosted-runner"]
     "Every termination path destroys the VM and credential, seals its store prefix, and restores the after-inventory to baseline.";
   expectedRow "RP-M6-ISOLATION" "M6" ["hosted-runner"]
     "Two concurrent tenants have no filesystem, process, network, or artifact cross-contamination.";
   expectedRow "RP-M6-LIVE" "M6" ["hosted-runner"]
     "An owner-controlled hosted environment has current-source evidence; without real infrastructure this row remains blocked.";
   expectedRow "RP-M7-CAPABILITY" "M7" ["plugin"]
     "Unauthorized I/O is blocked before it occurs and a plugin cannot change policy, coverage, or the overall verdict.";
   expectedRow "RP-M7-CONFORMANCE" "M7" ["plugin"]
     "Two reference plugins pass the same conformance kit and unsupported protocol versions return a stable error.";
   expectedRow "RP-M7-SUPPLYCHAIN" "M7" ["plugin"; "release"]
     "Plugin signature, trust, SBOM, and currentness are verifiable and an unknown signer remains unknown or blocked.";
   expectedRow "RP-Q-PROTOCOL" "QUALIFICATION" ["external-review"; "release"]
     "An independent reviewer approves and hash-freezes the acceptance policy before observing results.";
   expectedRow "RP-Q-REPLAY" "QUALIFICATION" ["external-review"; "release"]
     "The reviewer reruns the required matrix in a clean room with no unexplained required skip, blocked result, or internal error.";
   expectedRow "RP-Q-SUBJECT" "QUALIFICATION" ["external-review"; "release"]
     "The audited subject is the merged default-branch commit and tree plus final candidate artifact digests, and any later byte change invalidates the pass.";
   expectedRow "RP-Q-VERDICT" "QUALIFICATION" ["external-review"; "release"]
     "The reviewer returns PASS for the exact candidate with no open P0 or P1, and implementer or self-CI evidence cannot substitute for that verdict.";
   expectedRow "RP-REGISTRY" "M0" ["repository"]
     "The complete M0--M7 registry and public specification or RFC exact set are closed and every required row has current evidence.";
   expectedRow "RP-R-STABLE-SCHEMA" "RELEASE" ["linux-amd64"; "release"; "windows-amd64"]
     "Historical v1 verification, v2 round-trip and negative tests, and builder, CLI, and kit version agreement all pass."].

Definition expectedRegistryRows : list RegistryRow :=
  List.map (λ row, set_policy row (expected_policy (rr_ID row))) listed_rows.

Definition expectedRegistry : Registry :=
  {| rg_ArtifactType := "repopass-acceptance-registry"; rg_Product := "repopass"; rg_Rows := expectedRegistryRows;
     rg_SchemaVersion := "1" |}.

(** ** Reading the registry (registry.go) *)

Definition exactStringArray (value : json) : option (list string) :=
  let? raw := as_array value in
  if (length raw =? 0)%nat || (16 <? length raw)%nat then None else mapM as_string raw.

Fixpoint strictlySortedUnique (values : list string) : bool :=
  match values with
  | a :: (b :: _) as rest => key_lt a b && strictlySortedUnique rest
  | _ => true
  end.

Definition decodePolicy (value : list (string * json)) : option EvaluationPolicy :=
  let? kind := as_string (field value "kind") in
  if kind =s "required-checks" then
    if negb (exact_keys value ["kind"; "requiredChecks"]) then None
    else
      let? checks := exactStringArray (field value "requiredChecks") in
      if (length checks =? 0)%nat || (4 <? length checks)%nat || negb (strictlySortedUnique checks) then None
      else Some {| pl_Kind := kind; pl_ReasonCode := ""; pl_RequiredChecks := checks |}
  else if one_of kind ["blocked"; "not-run"] then
    if negb (exact_keys value ["kind"; "reasonCode"]) then None
    else
      let? reason := as_string (field value "reasonCode") in
      Some {| pl_Kind := kind; pl_ReasonCode := reason; pl_RequiredChecks := [] |}
  else None.

Definition decode_registry_row (rawRow : json) : option RegistryRow :=
  let? row := as_object rawRow in
  if negb (exact_keys row ["appliesTo"; "criterion"; "evaluation"; "id"; "milestone"; "required"]) then None
  else
    let? appliesTo := exactStringArray (field row "appliesTo") in
    let? criterion := as_string (field row "criterion") in
    let? id := as_string (field row "id") in
    let? milestone := as_string (field row "milestone") in
    let? required := as_bool (field row "required") in
    let? policyValue := as_object (field row "evaluation") in
    let? policy := decodePolicy policyValue in
    Some {| rr_AppliesTo := appliesTo; rr_Criterion := criterion; rr_Evaluation := policy; rr_ID := id;
            rr_Milestone := milestone; rr_Required := required |}.

Definition decodeRegistry (value : json) : option Registry :=
  let? root := as_object value in
  if negb (exact_keys root ["artifactType"; "product"; "rows"; "schemaVersion"]) then None
  else
    let? artifactType := as_string (field root "artifactType") in
    let? product := as_string (field root "product") in
    let? schemaVersion := as_string (field root "schemaVersion") in
    let? rowValues := as_array (field root "rows") in
    if negb (length rowValues =? 37)%nat then None
    else
      let? rows := mapM decode_registry_row rowValues in
      Some {| rg_ArtifactType := artifactType; rg_Product := product; rg_Rows := rows; rg_SchemaVersion := schemaVersion |}.

(** [structuredjson.Decode] followed by the comparison with [canonicaljson.Marshal]:
    the document of a canonical text.  Running out of fuel, which
    [Decode_total] excludes, is counted as a refusal. *)
Definition decode_canonical (raw : string) (limits : DecodeLimits) : option json :=
  match Decode raw limits with
  | Some (Ok value) =>
      match CanonicalJson.Marshal (Ok value) with
      | Ok canonical => if canonical =s raw then Some value else None
      | Err _ => None
      end
  | _ => None
  end.

Definition registry_limits : DecodeLimits := {| MaxBytes := MaxRegistryBytes; MaxDepth := 16; MaxNodes := 16384 |}.
Definition evaluation_limits : DecodeLimits := {| MaxBytes := MaxEvaluationBytes; MaxDepth := 16; MaxNodes := 16384 |}.

Definition ParseRegistry (raw : string) : result acceptance_error Registry :=
  let! value := of_option ErrRegistryInvalid (decode_canonical raw registry_limits) in
  let! registry := of_option ErrRegistryInvalid (decodeRegistry value) in
  match CanonicalJson.Marshal (Ok (registry_doc registry)), CanonicalJson.Marshal (Ok (registry_doc expectedRegistry)) with
  | Ok gotCanonical, Ok wantCanonical =>
      fail_if (gotCanonical !=s wantCanonical) with ErrScopeMismatch ;; Ok registry
  | _, _ => Err ErrScopeMismatch
  end.

Definition RegistryDigest (raw : string) : result acceptance_error string :=
  let! _ := ParseRegistry raw in Ok (digest_text raw).

Definition ErrorCode (err : acceptance_error) : string :=
  match err with
  | ErrScopeMismatch => "ACCEPTANCE_SCOPE_MISMATCH"
  | ErrRegistryInvalid => "ACCEPTANCE_REGISTRY_INVALID"
  | ErrSubjectInvalid => "ACCEPTANCE_SUBJECT_INVALID"
  | ErrCheckInputInvalid => "ACCEPTANCE_CHECK_INPUT_INVALID"
  | ErrIncomplete => "ACCEPTANCE_INCOMPLETE"
  | ErrEvaluationInvalid | ErrMarshal _ => "ACCEPTANCE_EVALUATION_INVALID"
  end.

(** ** Rows (evaluation.go) *)

Definition results_map := list (string * string).
Definition result_of (results : results_map) (checkID : string) : string := default "" (assoc checkID results).

(** One turn of the loop over the required checks: status and reason so far. *)
Definition judge (acc : string * string) (result : string) : string * string :=
  let '(status, reason) := acc in
  if result =s "failure" then (StatusFail, "REQUIRED_CHECK_FAILED")
  else if result =s "cancelled" then
    if reason !=s "REQUIRED_CHECK_FAILED" then (StatusFail, "REQUIRED_CHECK_CANCELLED") else (status, reason)
  else if result =s "skipped" then
    if status !=s StatusFail then (StatusNotRun, "REQUIRED_CHECK_MISSING_OR_SKIPPED") else (status, reason)
  else (status, reason).

Definition evidence_of (results : results_map) (checks : list string) : list EvidenceRecord :=
  List.map (λ checkID, {| ec_CheckID := checkID; ec_Result := result_of results checkID |}) checks.

Definition evaluateRow (row : RegistryRow) (run : Run) (results : results_map) : RowEvaluation :=
  let policy := rr_Evaluation row in
  let finish evidence reason status := {| re_Evidence := evidence; re_ID := rr_ID row; re_ReasonCode := reason; re_Status := status |} in
  if pl_Kind policy =s "blocked" then finish [] (pl_ReasonCode policy) StatusBlocked
  else if pl_Kind policy =s "not-run" then finish [] (pl_ReasonCode policy) StatusNotRun
  else if pl_Kind policy =s "required-checks" then
    let evidence := evidence_of results (pl_RequiredChecks policy) in
    if (rr_ID row =s "RP-B00") && ((rn_Event run !=s "push") || (rn_Ref run !=s "refs/heads/main"))
    then finish evidence "NOT_DEFAULT_BRANCH" StatusNotRun
    else
      let '(status, reason) :=
        foldl judge (StatusPass, "CURRENT_REQUIRED_CHECKS_PASSED") (List.map (result_of results) (pl_RequiredChecks policy)) in
      finish evidence reason status
  else finish [] "ROADMAP_WORK_NOT_SCHEDULED" StatusNotRun.

(** The loop over the rows: ids seen, whether a row is incomplete. *)
Fixpoint aggregate_loop (rows : list RowEvaluation) (ids : list string) (incomplete : bool) : string * bool :=
  match rows with
  | [] => if incomplete then (OverallIncomplete, false) else (OverallPass, true)
  | row :: rows =>
      if one_of (re_ID row) ids then (OverallFail, false)
      else
        let ids := re_ID row :: ids in
        if re_Status row =s StatusFail then (OverallFail, false)
        else if one_of (re_Status row) [StatusBlocked; StatusNotRun] then aggregate_loop rows ids true
        else if re_Status row =s StatusPass then aggregate_loop rows ids incomplete
        else (OverallFail, false)
  end.

Definition aggregateRows (rows : list RowEvaluation) : string * bool :=
  if negb (length rows =? 37)%nat then (OverallFail, false) else aggregate_loop rows [] false.

Definition evaluationDigestDomain : string := "repopass.acceptance-evaluation.v1" +:+ String (byte_of 0) "".

Definition computeEvaluationDigest (e : Evaluation) : result string string :=
  let! raw := CanonicalJson.Marshal (Ok (evaluation_without_digest e)) in
  Ok (digest_text (evaluationDigestDomain +:+ raw)).

Definition rowEvaluationEqual (left right : RowEvaluation) : bool :=
  match CanonicalJson.Marshal (Ok (row_doc left)), CanonicalJson.Marshal (Ok (row_doc right)) with
  | Ok leftRaw, Ok rightRaw => leftRaw =s rightRaw
  | _, _ => false
  end.

Definition validEvent (value : string) : bool := one_of value ["push"; "pull_request"; "workflow_dispatch"].
Definition validCheckResult (value : string) : bool := one_of value ["success"; "failure"; "cancelled"; "skipped"].
Definition validCheckID (value : string) : bool := one_of value ["ci/container-matrix"; "ci/go"; "ci/schema-json"; "ci/windows-go"].

(** [strings.Contains]. *)
Fixpoint strings_Contains (s sub : string) : bool :=
  has_prefix sub s || match s with String _ s' => strings_Contains s' sub | EmptyString => false end.

(** The loop runs over runes; one that is not ASCII lies beyond [0x7e], as
    each of its bytes does. *)
Definition ref_character (c : ascii) : bool :=
  negb ((byte_val c <? 33)%N || (126 <? byte_val c)%N || string_contains_byte c (" ~^:?*[" +:+ String backslash "")).
Definition validRef (value : string) : bool :=
  negb ((zlen value <? 6) || (256 <? zlen value) || negb (has_prefix "refs/" value) || strings_Contains value ".."
        || strings_Contains value "@{")
  && string_forallb ref_character value.

(** The loop that rebuilds the results from a row's evidence. *)
Fixpoint evidence_results (evidence : list EvidenceRecord) (checks : list string) (results : results_map) : option results_map :=
  match evidence with
  | [] => Some results
  | e :: evidence =>
      match checks with
      | [] => None
      | check :: checks =>
          if negb (validCheckID (ec_CheckID e)) || negb (validCheckResult (ec_Result e)) || (ec_CheckID e !=s check) then None
          else evidence_results evidence checks (assoc_set (ec_CheckID e) (ec_Result e) results)
      end
  end.

Definition validRowEvaluation (row : RegistryRow) (run : Run) (got : RowEvaluation) : bool :=
  match evidence_results (re_Evidence got) (pl_RequiredChecks (rr_Evaluation row)) [] with
  | None => false
  | Some results =>
      if (pl_Kind (rr_Evaluation row) !=s "required-checks") && negb (length (re_Evidence got) =? 0)%nat then false
      else rowEvaluationEqual got (evaluateRow row run results)
  end.

(** ** Evaluations *)

Definition exactInt64 (value : json) : option Z :=
  match value with
  | JStr number => parse_int 64 number
  | JNum raw => parse_int 64 raw
  | _ => None
  end.

Definition decodeSubject (value : json) : option Subject :=
  let? object := as_object value in
  if negb (exact_keys object ["repository"; "revision"; "treeSHA"]) then None
  else
    let? repository := as_string (field object "repository") in
    let? revision := as_string (field object "revision") in
    let? treeSHA := as_string (field object "treeSHA") in
    Some {| sj_Repository := repository; sj_Revision := revision; sj_TreeSHA := treeSHA |}.

Definition decodeRun (value : json) : option Run :=
  let? object := as_object value in
  if negb (exact_keys object ["attempt"; "event"; "id"; "ref"; "workflowPath"]) then None
  else
    let? attempt := exactInt64 (field object "attempt") in
    let? id := exactInt64 (field object "id") in
    let? event := as_string (field object "event") in
    let? ref := as_string (field object "ref") in
    let? workflow := as_string (field object "workflowPath") in
    Some {| rn_Attempt := attempt; rn_Event := event; rn_ID := id; rn_Ref := ref; rn_WorkflowPath := workflow |}.

Definition decode_evidence (raw : json) : option EvidenceRecord :=
  let? item := as_object raw in
  if negb (exact_keys item ["checkId"; "result"]) then None
  else
    let? checkID := as_string (field item "checkId") in
    let? result := as_string (field item "result") in
    Some {| ec_CheckID := checkID; ec_Result := result |}.

Definition decodeRowEvaluation (value : json) : option RowEvaluation :=
  let? object := as_object value in
  if negb (exact_keys object ["evidence"; "id"; "reasonCode"; "status"]) then None
  else
    let? id := as_string (field object "id") in
    let? reason := as_string (field object "reasonCode") in
    let? status := as_string (field object "status") in
    let? evidenceValues := as_array (field object "evidence") in
    if (4 <? length evidenceValues)%nat then None
    else
      let? evidence := mapM decode_evidence evidenceValues in
      Some {| re_Evidence := evidence; re_ID := id; re_ReasonCode := reason; re_Status := status |}.

Definition decodeEvaluation (value : json) : option Evaluation :=
  let? root := as_object value in
  if negb (exact_keys root ["artifactType"; "evaluationDigest"; "formalClaim"; "overallStatus"; "registryDigest"; "rows"; "run";
                            "schemaVersion"; "stableEligible"; "subject"; "trustBoundary"]) then None
  else
    let? artifactType := as_string (field root "artifactType") in
    let? evaluationDigest := as_string (field root "evaluationDigest") in
    let? overall := as_string (field root "overallStatus") in
    let? registryDigest := as_string (field root "registryDigest") in
    let? schemaVersion := as_string (field root "schemaVersion") in
    let? trust := as_string (field root "trustBoundary") in
    let? formal := as_bool (field root "formalClaim") in
    let? stable := as_bool (field root "stableEligible") in
    let? subject := decodeSubject (field root "subject") in
    let? run := decodeRun (field root "run") in
    let? rowsValue := as_array (field root "rows") in
    if negb (length rowsValue =? 37)%nat then None
    else
      let? rows := mapM decodeRowEvaluation rowsValue in
      Some {| ae_ArtifactType := artifactType; ae_EvaluationDigest := evaluationDigest; ae_FormalClaim := formal;
              ae_OverallStatus := overall; ae_RegistryDigest := registryDigest; ae_Rows := rows; ae_Run := run;
              ae_SchemaVersion := schemaVersion; ae_StableEligible := stable; ae_Subject := subject; ae_TrustBoundary := trust |}.

Section Evaluations.
Context `{PF : Platform}.

Definition validateSubjectAndRun (subject : Subject) (run : Run) : result acceptance_error unit :=
  fail_if ((sj_Repository subject !=s "github.com/taipei49314/RepoPassport")
           || negb (lowerHex (sj_Revision subject) 40) || negb (lowerHex (sj_TreeSHA subject) 40)
           || (rn_Attempt run <? 1) || (2147483647 <? rn_Attempt run) || (rn_ID run <? 1) || (9007199254740991 <? rn_ID run)
           || (rn_WorkflowPath run !=s ".github/workflows/ci.yml") || negb (validEvent (rn_Event run))
           || negb (validRef (rn_Ref run))) with ErrSubjectInvalid ;;
  let! refProjection := map_err (λ _, ErrSubjectInvalid) (CanonicalJson.Marshal (Ok (JObj [("ref", text (rn_Ref run))]))) in
  match Privacy.Evaluate refProjection with
  | Some (Ok _) => Ok tt
  | _ => Err ErrSubjectInvalid
  end.

Definition check_results (checks : CheckResults) : results_map :=
  [("ci/container-matrix", ck_Container checks); ("ci/go", ck_Go checks); ("ci/schema-json", ck_SchemaJSON checks);
   ("ci/windows-go", ck_WindowsGo checks)].

Definition with_digest (e : Evaluation) (digest : string) : Evaluation :=
  {| ae_ArtifactType := ae_ArtifactType e; ae_EvaluationDigest := digest; ae_FormalClaim := ae_FormalClaim e;
     ae_OverallStatus := ae_OverallStatus e; ae_RegistryDigest := ae_RegistryDigest e; ae_Rows := ae_Rows e; ae_Run := ae_Run e;
     ae_SchemaVersion := ae_SchemaVersion e; ae_StableEligible := ae_StableEligible e; ae_Subject := ae_Subject e;
     ae_TrustBoundary := ae_TrustBoundary e |}.

(** The evaluation before its digest. *)
Definition evaluation_of (registry : Registry) (registryDigest : string) (request : EvaluationRequest) : Evaluation :=
  let results := check_results (rq_Checks request) in
  let rows := List.map (λ row, evaluateRow row (rq_Run request) results) (rg_Rows registry) in
  let '(overall, stable) := aggregateRows rows in
  {| ae_ArtifactType := "repopass-acceptance-evaluation"; ae_EvaluationDigest := ""; ae_FormalClaim := false;
     ae_OverallStatus := overall; ae_RegistryDigest := registryDigest; ae_Rows := rows; ae_Run := rq_Run request;
     ae_SchemaVersion := "1"; ae_StableEligible := stable; ae_Subject := rq_Subject request; ae_TrustBoundary := "producer-owned-ci" |}.

Definition Evaluate (registryRaw : string) (request : EvaluationRequest) : result acceptance_error string :=
  let! registry := ParseRegistry registryRaw in
  let! registryDigest := RegistryDigest registryRaw in
  let! _ := validateSubjectAndRun (rq_Subject request) (rq_Run request) in
  fail_if (negb (forallb (λ r, validCheckResult r.2) (check_results (rq_Checks request)))) with ErrCheckInputInvalid ;;
  let evaluation := evaluation_of registry registryDigest request in
  let! digest := map_err (λ _, ErrEvaluationInvalid) (computeEvaluationDigest evaluation) in
  map_err ErrMarshal (CanonicalJson.Marshal (Ok (evaluation_doc (with_digest evaluation digest)))).

Definition ParseEvaluation (registryRaw raw : string) : result acceptance_error Evaluation :=
  let! registry := ParseRegistry registryRaw in
  let! registryDigest := RegistryDigest registryRaw in
  let! value := of_option ErrEvaluationInvalid (decode_canonical raw evaluation_limits) in
  let! evaluation := of_option ErrEvaluationInvalid (decodeEvaluation value) in
  fail_if ((ae_RegistryDigest evaluation !=s registryDigest) || negb (length (ae_Rows evaluation) =? length (rg_Rows registry))%nat)
    with ErrEvaluationInvalid ;;
  let! _ := map_err (λ _, ErrEvaluationInvalid) (validateSubjectAndRun (ae_Subject evaluation) (ae_Run evaluation)) in
  fail_if ((ae_ArtifactType evaluation !=s "repopass-acceptance-evaluation") || (ae_SchemaVersion evaluation !=s "1")
           || (ae_TrustBoundary evaluation !=s "producer-owned-ci") || ae_FormalClaim evaluation) with ErrEvaluationInvalid ;;
  fail_if (negb (forallb (λ p, (re_ID p.2 =s rr_ID p.1) && validRowEvaluation p.1 (ae_Run evaluation) p.2)
                   (combine (rg_Rows registry) (ae_Rows evaluation)))) with ErrEvaluationInvalid ;;
  let '(overall, stable) := aggregateRows (ae_Rows evaluation) in
  fail_if ((ae_OverallStatus evaluation !=s overall) || negb (Bool.eqb (ae_StableEligible evaluation) stable))
    with ErrEvaluationInvalid ;;
  match computeEvaluationDigest evaluation with
  | Ok wantDigest => fail_if (ae_EvaluationDigest evaluation !=s wantDigest) with ErrEvaluationInvalid ;; Ok evaluation
  | Err _ => Err ErrEvaluationInvalid
  end.

Definition RequireComplete (registryRaw evaluationRaw : string) : result acceptance_error unit :=
  let! evaluation := ParseEvaluation registryRaw evaluationRaw in
  fail_if ((ae_OverallStatus evaluation !=s OverallPass) || negb (ae_StableEligible evaluation)) with ErrIncomplete ;;
  Ok tt.

Definition RequireCompleteEvaluation (evaluationRaw : string) : result acceptance_error unit :=
  let! registryRaw := map_err (λ _, ErrEvaluationInvalid) (CanonicalJson.Marshal (Ok (registry_doc expectedRegistry))) in
  RequireComplete registryRaw evaluationRaw.
End Evaluations.

(** ** Reading a struct back determines the document *)

(** The exact-key test pins the members down to their order. *)
Lemma exact_members (l : list (string * json)) keys :
  NoDup l.*1 → NoDup keys → exact_keys l keys = true → l ≡ₚ List.map (λ k, (k, field l k)) keys.
Proof.
  intros Hl Hk H. unfold exact_keys in H. apply andb_prop in H as [Hlen Hall]. apply Nat.eqb_eq in Hlen.
  assert (NoDup (List.map (λ k, (k, field l k)) keys)) as Hnd.
  { apply NoDup_fmap; [|done]. intros a b E. congruence. }
  symmetry. apply submseteq_length_Permutation; [|rewrite List.length_map; lia].
  apply NoDup_submseteq; [done|]. intros [k v] Hin. apply list_elem_of_In, List.in_map_iff in Hin as (k' & E & Hin). injection E as -> <-.
  rewrite forallb_forall in Hall. specialize (Hall k Hin). unfold has_key in Hall. unfold field.
  destruct (assoc k l) as [w|] eqn:E; [|done]. by apply assoc_In.
Qed.

Lemma wf_object l : wf (JObj l) = true → NoDup l.*1 ∧ ∀ k, wf (field l k) = true.
Proof.
  cbn [wf]. intros [Hn%bool_decide_eq_true H]%andb_prop. split; [done|]. intros k. unfold field.
  destruct (assoc k l) as [v|] eqn:E; [|done]. apply assoc_In, list_elem_of_In in E. rewrite forallb_forall in H.
  specialize (H _ E). by apply andb_prop in H as [_ H].
Qed.

(** A struct whose members have the documents of the object's members has the
    document of the object. *)
Lemma canon_exact l keys l' :
  wf (JObj l) = true → exact_keys l keys = true → bool_decide (NoDup keys) = true → l'.*1 = keys →
  Forall (λ p, canon p.2 = canon (field l p.1)) l' → canon (JObj l') = canon (JObj l).
Proof.
  intros Hw He Hk%bool_decide_eq_true <- Hf. apply wf_object in Hw as [Hn _].
  pose proof (exact_members l l'.*1 Hn Hk He) as Hp. cbn [canon]. f_equal. symmetry. etransitivity.
  - apply sort_keys_perm; [by rewrite mapped_keys|]. apply Permutation_map, Hp.
  - f_equal. rewrite List.map_map. change (l'.*1) with (List.map fst l'). rewrite List.map_map.
    apply List.map_ext_Forall. eapply Forall_impl; [exact Hf|]. intros p E. cbn [fst snd] in *. by rewrite E.
Qed.

Lemma text_read v s : as_string v = Some s → wf v = true → text s = v.
Proof. destruct v; try done. intros [= ->] H. cbn [wf] in H. unfold text. by rewrite sanitize_valid. Qed.

Lemma mapM_canon {A} (decode : json → option A) (doc : A → json) (P : A → bool) vs rs :
  mapM decode vs = Some rs → forallb wf vs = true → forallb P rs = true →
  (∀ v r, decode v = Some r → P r = true → wf v = true → canon (doc r) = canon v) →
  List.map canon (List.map doc rs) = List.map canon vs.
Proof.
  intros H%mapM_Some Hw Hp Hd. induction H as [|v r vs rs Hv H IH]; [done|]. cbn [forallb List.map] in *.
  apply andb_prop in Hw as [Hv' Hw]. apply andb_prop in Hp as [Hp' Hp]. by rewrite (Hd v r), IH.
Qed.

Lemma as_array_read v l : as_array v = Some l → v = JArr l.
Proof. destruct v; try done. by intros [= ->]. Qed.
Lemma as_object_read v l : as_object v = Some l → v = JObj l.
Proof. destruct v; try done. by intros [= ->]. Qed.
Lemma as_bool_read v b : as_bool v = Some b → v = JBool b.
Proof. destruct v; try done. by intros [= ->]. Qed.

Lemma texts_read v l : exactStringArray v = Some l → wf v = true → canon (texts l) = canon v.
Proof.
  unfold exactStringArray. intros H Hw. destruct (as_array v) as [raw|] eqn:E; [|done]. cbn [mbind option_bind] in H.
  apply as_array_read in E as ->. destruct (_ || _); [done|]. unfold texts. cbn [canon]. f_equal.
  eapply (mapM_canon _ _ (λ _, true)); [exact H|exact Hw|by apply forallb_forall|]. intros x s Hx _ Hs. by rewrite (text_read x s).
Qed.

(** The steps of a reader: each field it asks for. *)
Ltac read_fields H :=
  repeat match type of H with
  | (let? _ := ?e in _) = Some _ => let E := fresh "E" in destruct e eqn:E; cbn [mbind option_bind] in H; [|discriminate H]
  | (if ?b then None else _) = Some _ => let E := fresh "E" in destruct b eqn:E; [discriminate H|]
  end.

(** A struct read from an object: the exact keys, then its fields in turn. *)
Ltac struct_read :=
  match goal with
  | E : negb (exact_keys ?l ?ks) = false, Hw : wf (JObj ?l) = true |- _ =>
    apply negb_false_iff in E; apply (canon_exact l ks); [exact Hw|exact E|reflexivity|reflexivity|];
    let Hwf := fresh "Hwf" in pose proof (proj2 (wf_object l Hw)) as Hwf;
    repeat first [apply Forall_nil_2 | apply Forall_cons_2]; cbn [fst snd];
    try match goal with
    | E' : as_string (field l ?k) = Some ?s |- canon (text ?s) = canon (field l ?k) =>
        rewrite (text_read _ s E') by apply Hwf; reflexivity
    | E' : as_bool (field l ?k) = Some ?b |- canon (JBool ?b) = canon (field l ?k) => rewrite (as_bool_read _ _ E'); reflexivity
    | E' : exactStringArray (field l ?k) = Some ?a |- canon (texts ?a) = canon (field l ?k) => apply texts_read; [exact E'|apply Hwf]
    end
  end.

(** A policy's reason is written only when there is one. *)
Definition policy_full (p : EvaluationPolicy) : bool := (pl_ReasonCode p !=s "") || negb (length (pl_RequiredChecks p) =? 0)%nat.

Lemma policy_read l p :
  decodePolicy l = Some p → policy_full p = true → wf (JObj l) = true → canon (policy_doc p) = canon (JObj l).
Proof.
  unfold decodePolicy. intros H Hf Hw. destruct (as_string (field l "kind")) as [kind|] eqn:Ek; [|done]. cbn [mbind option_bind] in H.
  destruct (kind =s "required-checks").
  - read_fields H. injection H as <-. unfold policy_doc. cbn [pl_Kind pl_ReasonCode pl_RequiredChecks app].
    match goal with |- context [match ?a with [] => _ | _ => _ end] => destruct a as [|c checks]; [done|] end. cbn [app String.eqb]. struct_read.
  - destruct (one_of kind _); [|done]. read_fields H. injection H as <-. unfold policy_doc, policy_full in *.
    cbn [pl_Kind pl_ReasonCode pl_RequiredChecks length Nat.eqb negb orb] in *. rewrite orb_false_r in Hf.
    apply negb_true_iff in Hf. rewrite Hf. cbn [app]. struct_read.
Qed.

Lemma registry_row_read v r :
  decode_registry_row v = Some r → policy_full (rr_Evaluation r) = true → wf v = true → canon (registry_row_doc r) = canon v.
Proof.
  unfold decode_registry_row. intros H Hf Hw. destruct (as_object v) as [row|] eqn:Ev; [|done]. cbn [mbind option_bind] in H.
  apply as_object_read in Ev as ->. read_fields H. injection H as <-. unfold registry_row_doc.
  cbn [rr_AppliesTo rr_Criterion rr_Evaluation rr_ID rr_Milestone rr_Required] in *. struct_read.
  match goal with E' : as_object (field row "evaluation") = Some ?o |- _ =>
    apply as_object_read in E'; rewrite E'; apply policy_read; [assumption|assumption|]; rewrite <- E'; apply Hwf end.
Qed.

Definition rows_full (rows : list RegistryRow) : bool := forallb (λ row, policy_full (rr_Evaluation row)) rows.

Lemma registry_read v r :
  decodeRegistry v = Some r → rows_full (rg_Rows r) = true → wf v = true → canon (registry_doc r) = canon v.
Proof.
  unfold decodeRegistry. intros H Hf Hw. destruct (as_object v) as [root|] eqn:Ev; [|done]. cbn [mbind option_bind] in H.
  apply as_object_read in Ev as ->. read_fields H. injection H as <-. unfold registry_doc.
  cbn [rg_ArtifactType rg_Product rg_Rows rg_SchemaVersion] in *. struct_read.
  match goal with E' : as_array (field root "rows") = Some ?a |- _ =>
    apply as_array_read in E'; rewrite E'; cbn [canon]; f_equal; specialize (Hwf "rows"); rewrite E' in Hwf end.
  eapply mapM_canon; [eassumption|exact Hwf|exact Hf|]. intros. by apply registry_row_read.
Qed.

Lemma text_wf s : wf (text s) = true.
Proof. apply sanitize_is_valid. Qed.
Lemma texts_wf l : wf (texts l) = true.
Proof. cbn [texts wf]. induction l as [|s l IH]; [done|]. cbn [List.map forallb]. rewrite IH. by rewrite (text_wf s). Qed.

Lemma list_doc_wf {A} (doc : A → json) l : (∀ x, wf (doc x) = true) → wf (JArr (List.map doc l)) = true.
Proof. intros H. cbn [wf]. induction l as [|x l IH]; [done|]. cbn [List.map forallb]. by rewrite H, IH. Qed.

Lemma struct_doc_wf l : bool_decide (NoDup l.*1) = true → forallb (λ p, utf8_valid p.1) l = true → Forall (λ p, wf p.2 = true) l → wf (JObj l) = true.
Proof.
  intros Hn Hk Hv. cbn [wf]. rewrite Hn. cbn [andb]. induction Hv as [|p l Hp Hv IH]; [done|]. cbn [forallb] in *.
  apply andb_prop in Hk as [Hk1 Hk]. rewrite Hk1, Hp. cbn [andb]. apply IH; [|done].
  apply bool_decide_eq_true in Hn. apply bool_decide_eq_true. rewrite fmap_cons in Hn. by apply NoDup_cons in Hn as [_ Hn].
Qed.

Ltac doc_wf := apply struct_doc_wf; [reflexivity|reflexivity|]; repeat first [apply Forall_nil_2 | apply Forall_cons_2]; cbn [snd];
  first [apply text_wf | apply texts_wf | reflexivity | idtac].

Lemma policy_doc_wf p : wf (policy_doc p) = true.
Proof. unfold policy_doc. destruct (pl_ReasonCode p =s ""), (pl_RequiredChecks p) as [|c l]; cbn [app]; doc_wf. Qed.
Lemma registry_row_doc_wf r : wf (registry_row_doc r) = true.
Proof. unfold registry_row_doc. doc_wf. apply policy_doc_wf. Qed.
Lemma registry_doc_wf r : wf (registry_doc r) = true.
Proof. unfold registry_doc. doc_wf. apply list_doc_wf, registry_row_doc_wf. Qed.

Definition members_of (j : json) : list (string * json) := match j with JObj l => l | _ => [] end.

Lemma canon_size l l' : canon (JObj l) = canon (JObj l') → length l = length l'.
Proof.
  assert (∀ (m : list (string * json)), length (sort_keys m) = length m) as Hs.
  { assert (∀ (p : string * json) m, length (insert_key p m) = S (length m)) as Hi.
    { intros p m. induction m as [|q m IH]; [done|]. cbn [insert_key]. destruct (key_lt q.1 p.1); cbn [length]; by rewrite ?IH. }
    induction m as [|p m IH]; [done|]. change (sort_keys (p :: m)) with (insert_key p (sort_keys m)). by rewrite Hi, IH. }
  cbn [canon]. intros [= H]. apply (f_equal length) in H. by rewrite !Hs, !List.length_map in H.
Qed.

(** Indexing respects [same_document]. *)
Lemma canon_field l l' k :
  NoDup l.*1 → NoDup l'.*1 → canon (JObj l) = canon (JObj l') → canon (field l k) = canon (field l' k).
Proof.
  assert (∀ m : list (string * json), assoc k (List.map (λ p, (p.1, canon p.2)) m) = canon <$> assoc k m) as Ha.
  { induction m as [|[k' v] m IH]; [done|]. cbn [List.map assoc fst snd]. by destruct (k' =s k). }
  assert (∀ m m' : list (string * json), NoDup m'.*1 → sort_keys m = sort_keys m' → ∀ v, assoc k m = Some v → assoc k m' = Some v) as Hs.
  { intros m m' Hn E v Hv. apply assoc_NoDup; [done|]. apply sort_keys_elem. rewrite <- E. apply sort_keys_elem. by apply assoc_In. }
  intros Hn Hn' E. cbn [canon] in E. injection E as E. unfold field.
  assert (assoc k (List.map (λ p, (p.1, canon p.2)) l) = assoc k (List.map (λ p, (p.1, canon p.2)) l')) as Hf.
  { destruct (assoc k (List.map _ l)) as [v|] eqn:E1, (assoc k (List.map _ l')) as [w|] eqn:E2.
    - apply (Hs _ _ (eq_ind_r NoDup Hn' (mapped_keys canon l')) E) in E1. congruence.
    - apply (Hs _ _ (eq_ind_r NoDup Hn' (mapped_keys canon l')) E) in E1. congruence.
    - apply (Hs _ _ (eq_ind_r NoDup Hn (mapped_keys canon l)) (eq_sym E)) in E2. congruence.
    - done. }
  rewrite !Ha in Hf. destruct (assoc k l), (assoc k l'); cbn in *; congruence.
Qed.

Ltac keys_distinct := match goal with |- NoDup ?l => exact (bool_decide_eq_true_1 (NoDup l) eq_refl) end.

(** A registry with the expected document has a reason or checks in every policy. *)
Lemma expected_full r : canon (registry_doc r) = canon (registry_doc expectedRegistry) → rows_full (rg_Rows r) = true.
Proof.
  assert (forallb (λ row, length (members_of (policy_doc (rr_Evaluation row))) =? 2)%nat expectedRegistryRows = true) as H2
    by (vm_compute; reflexivity).
  intros H. apply (canon_field _ _ "rows") in H; [|keys_distinct..]. change (rg_Rows expectedRegistry) with expectedRegistryRows in H.
  unfold field in H. cbn [assoc String.eqb] in H.
  assert (List.map canon (List.map registry_row_doc (rg_Rows r)) = List.map canon (List.map registry_row_doc expectedRegistryRows)) as E
    by (cbn - [expectedRegistryRows registry_row_doc] in H; by injection H). clear H.
  revert E H2. generalize (rg_Rows r) as rows, expectedRegistryRows as wants. intros rows wants. revert rows.
  induction wants as [|want wants IH]; intros [|row rows] H H2; try discriminate H; [done|].
  cbn [List.map forallb] in *. apply andb_prop in H2 as [Hw H2]. pose proof (f_equal (List.hd JNull) H) as Hrow. apply (f_equal (@tl json)) in H. cbn [List.hd tl] in Hrow, H.
  apply andb_true_intro. split; [|by apply IH].
  apply (canon_field _ _ "evaluation") in Hrow; [|keys_distinct..]. unfold field in Hrow. cbn [assoc default] in Hrow.
  cbn - [canon policy_doc] in Hrow. unfold policy_doc in Hrow at 1. destruct (policy_doc (rr_Evaluation want)) as [| | | | |l] eqn:El; try done.
  apply canon_size in Hrow. cbn [members_of] in Hw. apply Nat.eqb_eq in Hw. rewrite Hw in Hrow. unfold policy_full.
  destruct (pl_ReasonCode (rr_Evaluation row) =s ""), (pl_RequiredChecks (rr_Evaluation row)); done.
Qed.

(** The text of the registry: the file acceptance-registry.json. *)
Definition registry_text : string := encode (registry_doc expectedRegistry).

Lemma Marshal_wf_doc j : validateASCIIObjectKeys j = Ok tt → CanonicalJson.Marshal (Ok j) = Ok (encode j).
Proof. intros H. unfold CanonicalJson.Marshal. cbn [map_err bind_result]. by rewrite H. Qed.

Lemma Marshal_inv j s : CanonicalJson.Marshal (Ok j) = Ok s → s = encode j.
Proof.
  unfold CanonicalJson.Marshal. cbn [map_err bind_result]. destruct (validateASCIIObjectKeys j); [|done]. by intros [= <-].
Qed.

Lemma decode_canonical_inv raw limits j : decode_canonical raw limits = Some j → wf j = true ∧ encode j = raw ∧ Decode raw limits = Some (Ok j).
Proof.
  unfold decode_canonical. destruct (Decode raw limits) as [[v|]|] eqn:E; [|done..].
  destruct (CanonicalJson.Marshal (Ok v)) as [s|] eqn:Em; [|done]. apply Marshal_inv in Em as ->.
  destruct (encode v =s raw) eqn:Es; [|done]. intros [= <-]. apply String.eqb_eq in Es. split_and!; [by eapply Decode_wf|done|done].
Qed.

Lemma parse_registry_only raw r : ParseRegistry raw = Ok r → raw = registry_text.
Proof.
  unfold ParseRegistry. intros H. destruct (decode_canonical raw registry_limits) as [v|] eqn:E; [|done]. cbn [of_option bind_result] in H.
  apply decode_canonical_inv in E as (Hw & <- & _). destruct (decodeRegistry v) as [registry|] eqn:Ed; [|done]. cbn [of_option bind_result] in H.
  destruct (CanonicalJson.Marshal (Ok (registry_doc registry))) as [got|] eqn:Eg; [|done].
  destruct (CanonicalJson.Marshal (Ok (registry_doc expectedRegistry))) as [want|] eqn:Ew; [|done].
  apply Marshal_inv in Eg as ->. apply Marshal_inv in Ew as ->.
  destruct (_ =s _) eqn:Es; [|done]. apply String.eqb_eq in Es. injection H as ->. unfold registry_text. rewrite <- Es. symmetry.
  apply encode_same_document in Es; [|apply registry_doc_wf..]. apply encode_same_document; [apply registry_doc_wf|done|].
  apply registry_read; [done|by apply expected_full|done].
Qed.

Lemma parse_registry_text : ParseRegistry registry_text = Ok expectedRegistry.
Proof. vm_compute. reflexivity. Qed.

(** Exactly one text is an acceptance registry, and it reads as the registry the
    implementation embeds: whatever order, escapes or spelling another document
    uses, and whatever it changes, [ParseRegistry] refuses it. *)
Theorem registry_pinned raw r : ParseRegistry raw = Ok r ↔ raw = registry_text ∧ r = expectedRegistry.
Proof.
  split.
  - intros H. pose proof (parse_registry_only raw r H) as ->. rewrite parse_registry_text in H. by injection H.
  - intros [-> ->]. apply parse_registry_text.
Qed.
