(* ===== verification/AcceptanceEvaluation.v ===== *)
(** * What acceptance evaluations establish (internal/acceptanceregistry)

    An evaluation that [Evaluate] writes is read back by [ParseEvaluation]; every
    row of an accepted evaluation is re-derived from its own evidence; with the
    embedded registry no evaluation is complete. *)

From S2P Require Import Prelude Sha256 Json StructuredJson SemanticEqual GoValue CanonicalJson JsonStrings Domain GoPath GoStruct Base64 Dsse Regex Privacy AcceptanceRegistry.

Local Open Scope Z_scope.

(** ** The rows *)

(** A row only reads the results of its checks. *)
Lemma evaluate_row_ext row run results results' :
  Forall (λ c, result_of results c = result_of results' c) (pl_RequiredChecks (rr_Evaluation row)) →
  evaluateRow row run results = evaluateRow row run results'.
Proof.
  intros H. unfold evaluateRow. repeat (destruct (_ =s _); [done|]). destruct (_ =s "required-checks"); [|done].
  assert (evidence_of results (pl_RequiredChecks (rr_Evaluation row)) = evidence_of results' (pl_RequiredChecks (rr_Evaluation row))) as ->.
  { unfold evidence_of. apply List.map_ext_Forall. eapply Forall_impl; [exact H|]. intros c E. by rewrite E. }
  assert (List.map (result_of results) (pl_RequiredChecks (rr_Evaluation row)) = List.map (result_of results') (pl_RequiredChecks (rr_Evaluation row))) as ->;
    [|done]. apply List.map_ext_Forall. exact H.
Qed.

(** The evidence of a row gives back the results it was made from. *)
Lemma evidence_rebuilt results checks acc :
  forallb (λ c, validCheckID c && validCheckResult (result_of results c)) checks = true →
  ∃ acc', evidence_results (evidence_of results checks) checks acc = Some acc'
    ∧ (∀ c, c ∈ checks → result_of acc' c = result_of results c)
    ∧ (∀ c, c ∉ checks → result_of acc' c = result_of acc c).
Proof.
  revert acc. induction checks as [|check checks IH]; intros acc; [by exists acc; set_solver|].
  cbn [forallb]. intros [[Hid Hr]%andb_prop Hrest]%andb_prop.
  destruct (IH (assoc_set check (result_of results check) acc) Hrest) as (acc' & E & Hin & Hout).
  exists acc'. cbn [evidence_of List.map evidence_results ec_CheckID ec_Result]. rewrite Hid, Hr, string_eqb_refl. cbn [negb orb].
  split_and!; [exact E| |].
  - intros c Hc. destruct (decide (c ∈ checks)) as [Hm|Hm]; [by apply Hin|].
    apply elem_of_cons in Hc as [->|Hc]; [|done]. rewrite Hout by done. unfold result_of at 1. by rewrite assoc_set_eq.
  - intros c [Hne Hc]%not_elem_of_cons. rewrite Hout by done. unfold result_of. by rewrite assoc_set_ne.
Qed.

(** The rows the embedded registry has: each policy of one kind, its checks known. *)
Definition sound_policy (row : RegistryRow) : bool :=
  let checks := pl_RequiredChecks (rr_Evaluation row) in
  if pl_Kind (rr_Evaluation row) =s "required-checks" then forallb validCheckID checks && (length checks <=? 4)%nat
  else (length checks =? 0)%nat && one_of (pl_Kind (rr_Evaluation row)) ["blocked"; "not-run"].

Lemma row_equal_refl row : rowEvaluationEqual row row = true.
Proof.
  unfold rowEvaluationEqual. rewrite Marshal_wf_doc; [by rewrite string_eqb_refl|].
  unfold row_doc. cbn. induction (re_Evidence row) as [|e l IH]; [done|]. cbn. exact IH.
Qed.

Lemma own_row_valid row run results :
  sound_policy row = true → (∀ c, validCheckID c = true → validCheckResult (result_of results c) = true) →
  validRowEvaluation row run (evaluateRow row run results) = true.
Proof.
  intros Hs Hr. unfold sound_policy in Hs. unfold validRowEvaluation. destruct (pl_Kind (rr_Evaluation row) =s "required-checks") eqn:Ek.
  - apply andb_prop in Hs as [Hid _].
    destruct (evidence_rebuilt results (pl_RequiredChecks (rr_Evaluation row)) []) as (acc & E & Hin & _).
    { rewrite forallb_forall in Hid |- *. intros c Hc. rewrite Hid by done. by apply Hr, Hid. }
    assert (re_Evidence (evaluateRow row run results) = evidence_of results (pl_RequiredChecks (rr_Evaluation row))) as ->.
    { unfold evaluateRow. apply String.eqb_eq in Ek. rewrite Ek. cbn [String.eqb Ascii.eqb Bool.eqb].
      destruct (_ && _); [done|]. by destruct (foldl judge _ _). }
    rewrite E. cbn [negb andb]. rewrite (evaluate_row_ext row run acc results); [apply row_equal_refl|].
    apply Forall_forall. exact Hin.
  - apply andb_prop in Hs as [H0 Hkind]. apply Nat.eqb_eq, nil_length_inv in H0.
    assert (re_Evidence (evaluateRow row run results) = []) as ->.
    { unfold evaluateRow. rewrite Ek. by repeat (destruct (_ =s _); [done|]). }
    cbn [evidence_results length Nat.eqb negb andb]. rewrite (evaluate_row_ext row run [] results); [apply row_equal_refl|].
    by rewrite H0.
Qed.

Lemma row_id row run results : re_ID (evaluateRow row run results) = rr_ID row.
Proof. unfold evaluateRow. repeat (destruct (_ =s _); [done|]). destruct (_ =s _); [|done]. destruct (_ && _); [done|]. by destruct (foldl _ _ _). Qed.

(** ** Statuses *)

Definition check_fails (result : string) : bool := one_of result ["failure"; "cancelled"].

(** Whether a row fails: it is decided by checks, for this event, and one of them failed or was cancelled. *)
Definition row_fails (row : RegistryRow) (run : Run) (results : results_map) : bool :=
  (pl_Kind (rr_Evaluation row) =s "required-checks")
  && negb ((rr_ID row =s "RP-B00") && ((rn_Event run !=s "push") || (rn_Ref run !=s "refs/heads/main")))
  && existsb (λ c, check_fails (result_of results c)) (pl_RequiredChecks (rr_Evaluation row)).

Definition known_status (status : string) : Prop := status ∈ [StatusPass; StatusFail; StatusNotRun; StatusBlocked].

Lemma judge_exact results st :
  known_status st.1 → (st.2 = "REQUIRED_CHECK_FAILED" → st.1 = StatusFail) →
  let st' := foldl judge st results in
  known_status st'.1 ∧ (st'.1 = StatusFail ↔ st.1 = StatusFail ∨ existsb check_fails results = true).
Proof.
  revert st. induction results as [|r results IH]; intros [status reason] Hk Hf; cbn [foldl].
  { split; [done|]. cbn [existsb]. naive_solver. }
  assert (known_status (judge (status, reason) r).1
    ∧ ((judge (status, reason) r).2 = "REQUIRED_CHECK_FAILED" → (judge (status, reason) r).1 = StatusFail)
    ∧ ((judge (status, reason) r).1 = StatusFail ↔ status = StatusFail ∨ check_fails r = true)) as (Hk' & Hf' & E).
  { cbn [fst snd] in *. unfold judge, check_fails, one_of. cbn [existsb]. rewrite orb_false_r.
    destruct (r =s "failure"); cbn [fst snd orb]; [split_and!; [unfold known_status; set_solver|done|naive_solver]|].
    destruct (r =s "cancelled"); cbn [fst snd orb].
    - destruct (String.eqb_spec reason "REQUIRED_CHECK_FAILED"); cbn [negb fst snd]; (split_and!; [first [done|unfold known_status; set_solver]|naive_solver|naive_solver]).
    - destruct (r =s "skipped"); [|cbn [fst snd]; naive_solver].
      destruct (String.eqb_spec status StatusFail); cbn [negb fst snd]; [naive_solver|].
      split_and!; [unfold known_status; set_solver|done|naive_solver]. }
  destruct (IH _ Hk' Hf') as [H1 H2]. split; [exact H1|]. rewrite H2, E. cbn [existsb]. rewrite orb_true_iff. cbn [fst]. tauto.
Qed.

Lemma row_status row run results :
  known_status (re_Status (evaluateRow row run results))
  ∧ (re_Status (evaluateRow row run results) = StatusFail ↔ row_fails row run results = true).
Proof.
  unfold evaluateRow, row_fails. destruct (String.eqb_spec (pl_Kind (rr_Evaluation row)) "blocked") as [->|].
  { split; [unfold known_status; set_solver|done]. }
  destruct (String.eqb_spec (pl_Kind (rr_Evaluation row)) "not-run") as [->|].
  { split; [unfold known_status; set_solver|done]. }
  destruct (_ =s "required-checks"); [|split; [unfold known_status; set_solver|done]]. cbn [andb].
  destruct (_ && (_ || _)); [split; [unfold known_status; set_solver|done]|]. cbn [negb andb].
  pose proof (judge_exact (List.map (result_of results) (pl_RequiredChecks (rr_Evaluation row)))
    (StatusPass, "CURRENT_REQUIRED_CHECKS_PASSED")) as J. cbv zeta in J.
  destruct (foldl judge _ _) as [status reason]. cbn [fst re_Status] in *.
  destruct J as [J1 J2]; [unfold known_status; set_solver|done|]. split; [exact J1|]. rewrite J2.
  assert (existsb check_fails (List.map (result_of results) (pl_RequiredChecks (rr_Evaluation row)))
    = existsb (λ c, check_fails (result_of results c)) (pl_RequiredChecks (rr_Evaluation row))) as ->; [|naive_solver].
  clear J1 J2. induction (pl_RequiredChecks (rr_Evaluation row)) as [|c l IH]; [done|]. cbn [List.map existsb]. by rewrite IH.
Qed.

(** The aggregate of rows with distinct ids and known statuses. *)
Lemma aggregate_loop_exact rows ids incomplete :
  NoDup (List.map re_ID rows) → Forall (λ r, re_ID r ∉ ids ∧ known_status (re_Status r)) rows →
  aggregate_loop rows ids incomplete
  = if existsb (λ r, re_Status r =s StatusFail) rows then (OverallFail, false)
    else if incomplete || existsb (λ r, one_of (re_Status r) [StatusBlocked; StatusNotRun]) rows then (OverallIncomplete, false)
    else (OverallPass, true).
Proof.
  revert ids incomplete. induction rows as [|r rows IH]; intros ids incomplete Hn Hr; cbn [aggregate_loop existsb].
  { by destruct incomplete. }
  cbn [List.map] in Hn. apply NoDup_cons in Hn as [Hr1 Hn]. apply Forall_cons in Hr as [[Hid Hk] Hr].
  assert (one_of (re_ID r) ids = false) as -> by (apply not_true_iff_false; by rewrite one_of_In).
  assert (Forall (λ r', re_ID r' ∉ re_ID r :: ids ∧ known_status (re_Status r')) rows) as Hr'.
  { rewrite Forall_forall in Hr |- *. intros x Hx. destruct (Hr x Hx) as [Hx1 Hx2]. split; [|done].
    apply not_elem_of_cons. split; [|done]. intros E. apply Hr1. rewrite <- E. apply list_elem_of_In, List.in_map. by apply list_elem_of_In. }
  destruct (re_Status r =s StatusFail) eqn:Ef; [done|]. cbn [orb].
  destruct (one_of (re_Status r) [StatusBlocked; StatusNotRun]) eqn:Ei.
  { rewrite IH by done. cbn [orb]. by rewrite orb_true_r. }
  destruct (re_Status r =s StatusPass) eqn:Ep; [rewrite IH by done; cbn [orb]; done|].
  exfalso. apply String.eqb_neq in Ef, Ep. apply not_true_iff_false in Ei. rewrite one_of_In in Ei.
  unfold known_status in Hk. set_solver.
Qed.

(** A pass needs every row to pass. *)
Lemma aggregate_pass rows stable : aggregateRows rows = (OverallPass, stable) → Forall (λ r, re_Status r = StatusPass) rows.
Proof.
  unfold aggregateRows. destruct (negb _); [done|]. assert (∀ ids incomplete, aggregate_loop rows ids incomplete = (OverallPass, stable) →
    incomplete = false ∧ Forall (λ r, re_Status r = StatusPass) rows) as H; [|by intros [_ ?]%H].
  induction rows as [|r rows IH]; intros ids incomplete; cbn [aggregate_loop]; [by destruct incomplete|].
  destruct (one_of (re_ID r) ids); [done|]. destruct (_ =s StatusFail); [done|].
  destruct (one_of _ _); [by intros [? _]%IH|]. destruct (String.eqb_spec (re_Status r) StatusPass); [|done].
  intros [? ?]%IH. by split; [|constructor].
Qed.

(** ** Documents *)

(** What the decoder needs of a document, with bounds on its size. *)
Record within_bounds (j : json) (size depth nodes : Z) : Prop := {
  wb_canonical : canonical j = true; wb_numbers : numbers_ok j = true; wb_size : text_bound j <= size;
  wb_depth : depth_of j <= depth; wb_nodes : nodes_of j <= nodes
}.

Definition short (s : string) : Prop := string_forallb plain_byte s = true ∧ zlen s <= 128.

Lemma plain_utf8 s : string_forallb plain_byte s = true → utf8_valid s = true.
Proof.
  intros H. apply utf8_valid_ascii. eapply string_forallb_impl; [|exact H]. intros c Hc. by apply plain_escape in Hc as [? _].
Qed.

Lemma text_bounds s : short s → within_bounds (text s) 130 0 1.
Proof.
  intros [Hp Hl]. unfold text. rewrite sanitize_valid by by apply plain_utf8. split; [cbn; by apply plain_utf8|done| |done..].
  cbn [text_bound encode]. rewrite encode_plain by done. lia.
Qed.

Lemma number_bounds z : 0 <= z < 2 ^ 64 → within_bounds (JNum (dec_Z z)) 66 0 1.
Proof.
  intros Hz. split; [apply number_lexeme_dec_Z|apply dec_number_ok| |done..]. cbn [text_bound encode]. by apply dec_Z_size.
Qed.

Lemma array_bounds {A} (doc : A → json) l (size depth nodes : Z) :
  0 <= size → 0 <= depth → 0 <= nodes → Forall (λ x, within_bounds (doc x) size depth nodes) l →
  within_bounds (JArr (List.map doc l)) (2 + (size + 1) * Z.of_nat (length l)) (1 + depth) (1 + nodes * Z.of_nat (length l)).
Proof.
  intros H0 H1 H2 H. induction H as [|x l Hx H IH]; [split; cbn; lia || done|].
  destruct IH as [I1 I2 I3 I4 I5], Hx as [X1 X2 X3 X4 X5]. cbn [List.map length].
  split; cbn [canonical numbers_ok forallb List.map text_bound depth_of nodes_of foldr] in *.
  - by rewrite X1.
  - by rewrite X2.
  - lia.
  - lia.
  - lia.
Qed.

(** A struct: sorted ASCII names, bounds that add up. *)
Lemma struct_bounds l (size depth nodes : Z) (bs : list (Z * Z * Z)) :
  keys_sorted l = true → forallb (λ p, string_forallb plain_byte p.1) l = true →
  Forall2 (λ p b, within_bounds p.2 b.1.1 b.1.2 b.2) l bs →
  2 + foldr (λ b n, b + n) 0 (zip_with (λ p b, zlen p.1 + 4 + b.1.1) l bs) <= size →
  1 + foldr (λ b n, Z.max b.1.2 n) 0 bs <= depth → 1 + foldr (λ b n, b.2 + n) 0 bs <= nodes →
  within_bounds (JObj l) size depth nodes.
Proof.
  intros Hs Hk Hb Hsize Hdepth Hnodes.
  assert (forallb (λ p, utf8_valid p.1 && canonical p.2) l = true ∧ forallb (λ p, numbers_ok p.2) l = true
    ∧ foldr (λ p n, zlen (encode_string p.1) + 1 + text_bound p.2 + 1 + n) 0 l
      <= foldr (λ b n, b + n) 0 (zip_with (λ p b, zlen p.1 + 4 + b.1.1) l bs)
    ∧ foldr (λ p n, Z.max (depth_of p.2) n) 0 l <= foldr (λ b n, Z.max b.1.2 n) 0 bs
    ∧ foldr (λ p n, nodes_of p.2 + n) 0 l <= foldr (λ b n, b.2 + n) 0 bs) as (H1 & H2 & H3 & H4 & H5).
  { clear Hs Hsize Hdepth Hnodes. induction Hb as [|p b l bs [] Hb IH]; [cbn; lia || done|].
    cbn [forallb] in Hk. apply andb_prop in Hk as [Hp Hk]. destruct (IH Hk) as (I1 & I2 & I3 & I4 & I5).
    cbn [forallb foldr zip_with]. rewrite I1, I2, encode_plain, plain_utf8 by done.
    rewrite wb_canonical0, wb_numbers0. split_and!; [done|done|lia|lia|lia]. }
  split; cbn [canonical numbers_ok text_bound depth_of nodes_of]; [by rewrite Hs|done|lia|lia|lia].
Qed.

(** The fields of a struct, one goal each. *)
Ltac each_field := repeat (apply Forall2_cons; split); [..|apply Forall2_nil_2]; cbn [fst snd].

Lemma evidence_doc_bounds e : short (ec_CheckID e) → short (ec_Result e) → within_bounds (evidence_doc e) 300 1 3.
Proof.
  intros H1 H2. apply (struct_bounds _ _ _ _ [(130, 0, 1); (130, 0, 1)]); [reflexivity|reflexivity| |vm_compute; discriminate..].
  each_field; by apply text_bounds.
Qed.

(** The rows of an evaluation. *)
Definition small_row (r : RowEvaluation) : Prop :=
  (length (re_Evidence r) <= 4)%nat ∧ Forall (λ e, short (ec_CheckID e) ∧ short (ec_Result e)) (re_Evidence r)
  ∧ short (re_ID r) ∧ short (re_ReasonCode r) ∧ short (re_Status r).

Lemma weaken_bounds j s d n s' d' n' : within_bounds j s d n → s <= s' → d <= d' → n <= n' → within_bounds j s' d' n'.
Proof. intros [] ???. split; try done; lia. Qed.

Lemma row_doc_bounds r : small_row r → within_bounds (row_doc r) 1700 3 17.
Proof.
  intros (Hl & He & H1 & H2 & H3).
  apply (struct_bounds _ _ _ _ [(1206, 2, 13); (130, 0, 1); (130, 0, 1); (130, 0, 1)]); [reflexivity|reflexivity| |vm_compute; discriminate..].
  each_field; try by apply text_bounds.
  eapply weaken_bounds; [apply (array_bounds evidence_doc _ 300 1 3); [lia..|]|lia..].
  eapply Forall_impl; [exact He|]. intros e [??]. by apply evidence_doc_bounds.
Qed.

Lemma short_status status : known_status status → short status.
Proof. unfold known_status. intros H. repeat (apply elem_of_cons in H as [->|H]; [by split; vm_compute|]). by apply not_elem_of_nil in H. Qed.

(** A ref's characters are written in at most two bytes each. *)
Lemma ref_text s : validRef s = true → utf8_valid s = true ∧ zlen (encode_string s) <= 514.
Proof.
  unfold validRef. intros [Hn%negb_true_iff Hc]%andb_prop. repeat (apply orb_false_iff in Hn as [Hn ?]).
  assert (zlen s <= 256) as Hl by (apply Z.ltb_ge; assumption).
  assert (utf8_valid s = true ∧ zlen (encode_body s) <= 2 * zlen s) as [Hu Hb].
  { clear - Hc. induction s as [|c s IH]; [done|]. cbn [string_forallb] in Hc. apply andb_prop in Hc as [Hc1 Hc].
    destruct (IH Hc) as [Hu Hb]. pose proof (ascii_all (λ c, implb (ref_character c) (ascii7 c && (slen (escape_byte c) <=? 2)%nat))
      ltac:(vm_compute; reflexivity) c) as E. cbv beta in E. rewrite Hc1 in E. cbn [implb] in E. apply andb_prop in E as [E7 E2].
    rewrite utf8_valid_cons by done. split; [done|]. unfold encode_body in *. cbn [runes]. rewrite E7, fmap_cons.
    cbn [string_concat escape_rune]. rewrite zlen_app. apply Nat.leb_le in E2. unfold zlen in *. cbn [String.length]. lia. }
  split; [done|]. unfold encode_string. unfold zlen in *. cbn [String.length]. rewrite slen_app. cbn [String.length]. lia.
Qed.

Lemma ref_bounds s : validRef s = true → within_bounds (text s) 514 0 1.
Proof.
  intros H. destruct (ref_text s H) as [Hu Hl]. unfold text. rewrite sanitize_valid by done. split; [exact Hu|done|exact Hl|done..].
Qed.

Lemma short_hex s n : lowerHex s n = true → (n <= 128)%nat → short s.
Proof.
  unfold lowerHex. intros [Hl Hh]%andb_prop Hn. apply Nat.eqb_eq in Hl. split; [by apply plain_hex|]. unfold zlen. lia.
Qed.

Lemma short_digest s : short (digest_text s).
Proof.
  destruct (sha256_hex_shape s) as [Hl Hh]. unfold digest_text. split.
  - by rewrite string_forallb_app, (plain_hex _ Hh).
  - rewrite zlen_app. unfold zlen at 2. rewrite Hl. vm_compute. discriminate.
Qed.

(** ** An evaluation reads back *)

Lemma short_utf8 s : short s → utf8_valid s = true.
Proof. intros [H _]. by apply plain_utf8. Qed.

Lemma as_string_text s : utf8_valid s = true → as_string (text s) = Some s.
Proof. intros H. unfold text. by rewrite sanitize_valid. Qed.

Lemma read_each {A} (decode : json → option A) (doc : A → json) l :
  Forall (λ x, decode (doc x) = Some x) l → mapM decode (List.map doc l) = Some l.
Proof. intros H. apply mapM_Some_2. induction H; cbn [List.map]; by constructor. Qed.

Lemma evidence_written e : short (ec_CheckID e) → short (ec_Result e) → decode_evidence (evidence_doc e) = Some e.
Proof.
  intros H1 H2. unfold decode_evidence, evidence_doc, field. cbn - [text]. rewrite !as_string_text by by apply short_utf8.
  cbn [mbind option_bind]. by destruct e.
Qed.

Lemma row_written r : small_row r → decodeRowEvaluation (row_doc r) = Some r.
Proof.
  intros (Hl & He & H1 & H2 & H3). unfold decodeRowEvaluation, row_doc, field. cbn - [text Nat.ltb List.map mapM].
  rewrite !as_string_text by by apply short_utf8. cbn [mbind option_bind].
  rewrite List.length_map, (proj2 (Nat.ltb_ge _ _)) by done. rewrite read_each.
  - cbn [mbind option_bind]. by destruct r.
  - eapply Forall_impl; [exact He|]. intros e [??]. by apply evidence_written.
Qed.

Lemma subject_written s :
  short (sj_Repository s) → short (sj_Revision s) → short (sj_TreeSHA s) →
  decodeSubject (subject_doc s) = Some s ∧ within_bounds (subject_doc s) 500 1 4.
Proof.
  intros H1 H2 H3. split.
  - unfold decodeSubject, subject_doc, field. cbn - [text]. rewrite !as_string_text by by apply short_utf8. cbn [mbind option_bind]. by destruct s.
  - apply (struct_bounds _ _ _ _ [(130, 0, 1); (130, 0, 1); (130, 0, 1)]); [reflexivity|reflexivity| |vm_compute; discriminate..].
    each_field; by apply text_bounds.
Qed.

Lemma run_written r :
  1 <= rn_Attempt r <= 2147483647 → 1 <= rn_ID r <= 9007199254740991 → short (rn_Event r) → validRef (rn_Ref r) = true →
  short (rn_WorkflowPath r) → decodeRun (run_doc r) = Some r ∧ within_bounds (run_doc r) 1000 1 6.
Proof.
  intros H1 H2 H3 H4 H5. split.
  - unfold decodeRun, run_doc, field. cbn - [text dec_Z]. unfold exactInt64.
    rewrite !parse_int_dec_Z by (unfold is_int64, int_min, int_max; rewrite andb_true_iff, !Z.leb_le; lia). cbn [mbind option_bind].
    rewrite (as_string_text (rn_Ref r)) by by apply ref_text. rewrite !as_string_text by by apply short_utf8.
    cbn [mbind option_bind]. by destruct r.
  - apply (struct_bounds _ _ _ _ [(66, 0, 1); (130, 0, 1); (66, 0, 1); (514, 0, 1); (130, 0, 1)]); [reflexivity|reflexivity| |vm_compute; discriminate..].
    each_field; try (by apply text_bounds); try (by apply ref_bounds); apply number_bounds; lia.
Qed.

(** What the subject and the run of an accepted request look like. *)
Section Requests.
Context `{PF : Platform}.

Lemma subject_and_run_inv subject run :
  validateSubjectAndRun subject run = Ok tt →
  decodeSubject (subject_doc subject) = Some subject ∧ within_bounds (subject_doc subject) 500 1 4
  ∧ decodeRun (run_doc run) = Some run ∧ within_bounds (run_doc run) 1000 1 6.
Proof.
  unfold validateSubjectAndRun. destruct (_ || negb (validRef (rn_Ref run))) eqn:E; [done|]. intros _.
  repeat (apply orb_false_iff in E as [E ?]).
  repeat match goal with H : negb _ = false |- _ => apply negb_false_iff in H end.
  repeat match goal with H : (_ =s _) = true |- _ => apply String.eqb_eq in H end.
  repeat match goal with H : (_ <? _) = false |- _ => apply Z.ltb_ge in H end.
  assert (short (rn_Event run)) as Hev.
  { match goal with H : validEvent _ = true |- _ => revert H end. unfold validEvent. rewrite one_of_In. intros Hin.
    repeat (apply elem_of_cons in Hin as [->|Hin]; [by split; vm_compute|]). by apply not_elem_of_nil in Hin. }
  assert (short (sj_Repository subject)) as Hr by (rewrite E; by split; vm_compute).
  assert (short (rn_WorkflowPath run)) as Hw by (match goal with H : rn_WorkflowPath run = _ |- _ => rewrite H end; by split; vm_compute).
  assert (decodeSubject (subject_doc subject) = Some subject ∧ within_bounds (subject_doc subject) 500 1 4) as [].
  { apply subject_written; [done|by eapply short_hex; [eassumption|lia]..]. }
  assert (decodeRun (run_doc run) = Some run ∧ within_bounds (run_doc run) 1000 1 6) as [] by (apply run_written; done).
  done.
Qed.
End Requests.

(** ** The evaluations [Evaluate] writes *)

Lemma ascii_struct l :
  forallb (λ p, string_forallb ascii7 p.1) l = true → Forall (λ p, validateASCIIObjectKeys p.2 = Ok tt) l →
  validateASCIIObjectKeys (JObj l) = Ok tt.
Proof.
  intros Hk Hv. cbn [validateASCIIObjectKeys]. induction Hv as [|[k v] l Hp Hv IH]; [done|]. cbn [forallb fst snd] in *.
  apply andb_prop in Hk as [-> Hk]. rewrite Hp. cbn [negb bind_result]. by apply IH.
Qed.
Lemma ascii_array {A} (doc : A → json) l :
  (∀ x, validateASCIIObjectKeys (doc x) = Ok tt) → validateASCIIObjectKeys (JArr (List.map doc l)) = Ok tt.
Proof.
  intros H. cbn [validateASCIIObjectKeys]. induction l as [|x l IH]; [done|]. cbn [List.map]. rewrite H. cbn [bind_result]. exact IH.
Qed.

Lemma row_doc_ascii r : validateASCIIObjectKeys (row_doc r) = Ok tt.
Proof. unfold row_doc. apply ascii_struct; [done|]. repeat constructor. cbn [snd]. by apply ascii_array. Qed.
Lemma evaluation_doc_ascii e : validateASCIIObjectKeys (evaluation_doc e) = Ok tt.
Proof. unfold evaluation_doc. apply ascii_struct; [done|]. repeat constructor. cbn [snd]. apply ascii_array, row_doc_ascii. Qed.
Lemma evaluation_without_digest_ascii e : validateASCIIObjectKeys (evaluation_without_digest e) = Ok tt.
Proof. unfold evaluation_without_digest. apply ascii_struct; [done|]. repeat constructor. cbn [snd]. apply ascii_array, row_doc_ascii. Qed.

Record readable (e : Evaluation) : Prop := {
  rd_texts : Forall short [ae_ArtifactType e; ae_EvaluationDigest e; ae_OverallStatus e; ae_RegistryDigest e; ae_SchemaVersion e; ae_TrustBoundary e];
  rd_rows : length (ae_Rows e) = 37%nat ∧ Forall small_row (ae_Rows e);
  rd_subject : decodeSubject (subject_doc (ae_Subject e)) = Some (ae_Subject e) ∧ within_bounds (subject_doc (ae_Subject e)) 500 1 4;
  rd_run : decodeRun (run_doc (ae_Run e)) = Some (ae_Run e) ∧ within_bounds (run_doc (ae_Run e)) 1000 1 6
}.

Lemma bool_bounds b : within_bounds (JBool b) 5 0 1.
Proof. split; [done|done| |done..]. destruct b; vm_compute; discriminate. Qed.

Lemma evaluation_bounds e : readable e → within_bounds (evaluation_doc e) 100000 5 1000.
Proof.
  intros [Ht [Hl Hr] [_ Hs] [_ Hn]]. repeat (apply Forall_cons in Ht as [? Ht]).
  apply (struct_bounds _ _ _ _ [(130, 0, 1); (130, 0, 1); (5, 0, 1); (130, 0, 1); (130, 0, 1); (62939, 4, 630); (1000, 1, 6); (130, 0, 1); (5, 0, 1); (500, 1, 4); (130, 0, 1)]);
    [reflexivity|reflexivity| |vm_compute; discriminate..].
  each_field; try (by apply text_bounds); try (apply bool_bounds); try done.
  eapply weaken_bounds; [apply (array_bounds row_doc _ 1700 3 17); [lia..|]|rewrite ?Hl; lia..].
  eapply Forall_impl; [exact Hr|]. apply row_doc_bounds.
Qed.

Lemma evaluation_written e : readable e → decodeEvaluation (evaluation_doc e) = Some e.
Proof.
  intros [Ht [Hl Hr] [Hs _] [Hn _]]. repeat (apply Forall_cons in Ht as [? Ht]).
  unfold decodeEvaluation, evaluation_doc, field. cbn - [text Nat.eqb List.map mapM subject_doc run_doc decodeSubject decodeRun].
  rewrite !as_string_text by by apply short_utf8. cbn [mbind option_bind]. rewrite Hs, Hn. cbn [mbind option_bind].
  rewrite List.length_map, Hl. cbn [Nat.eqb negb]. rewrite read_each.
  - cbn [mbind option_bind]. by destruct e.
  - eapply Forall_impl; [exact Hr|]. apply row_written.
Qed.

Lemma evaluation_decodes e : readable e → decode_canonical (encode (evaluation_doc e)) evaluation_limits = Some (evaluation_doc e).
Proof.
  intros Hr. destruct (evaluation_bounds e Hr) as [Hc Hn Hs Hd Hk]. unfold decode_canonical.
  rewrite decode_encode; [|reflexivity|exact Hc|exact Hn|..].
  - rewrite Marshal_wf_doc by apply evaluation_doc_ascii. by rewrite string_eqb_refl.
  - pose proof (encode_bound (evaluation_doc e)). cbn [MaxBytes evaluation_limits]. unfold MaxEvaluationBytes. lia.
  - cbn [MaxDepth evaluation_limits]. lia.
  - cbn [MaxNodes evaluation_limits]. lia.
Qed.

(** *** The rows of the embedded registry *)

Definition shortb (s : string) : bool := string_forallb plain_byte s && (zlen s <=? 128).
Lemma shortb_spec s : shortb s = true → short s.
Proof. unfold shortb. intros [H1 H2%Z.leb_le]%andb_prop. by split. Qed.

Definition sound_row (row : RegistryRow) : bool :=
  sound_policy row && shortb (rr_ID row) && shortb (pl_ReasonCode (rr_Evaluation row))
  && forallb shortb (pl_RequiredChecks (rr_Evaluation row)).

Lemma registry_sound : forallb sound_row expectedRegistryRows = true.
Proof. vm_compute. reflexivity. Qed.
Lemma registry_ids : bool_decide (NoDup (List.map rr_ID expectedRegistryRows)) = true.
Proof. vm_compute. reflexivity. Qed.

Definition valid_results (results : results_map) : Prop := ∀ c, validCheckID c = true → validCheckResult (result_of results c) = true.

Lemma short_result r : validCheckResult r = true → short r.
Proof.
  unfold validCheckResult. rewrite one_of_In. intros H.
  repeat (apply elem_of_cons in H as [->|H]; [by split; vm_compute|]). by apply not_elem_of_nil in H.
Qed.

Lemma judge_reason results st : short st.2 → short (foldl judge st results).2.
Proof.
  revert st. induction results as [|r results IH]; intros [status reason] H; [done|]. cbn [foldl]. apply IH. cbn [snd] in *.
  unfold judge. destruct (r =s "failure"); [by apply shortb_spec|].
  destruct (r =s "cancelled"); [destruct (_ !=s _); [by apply shortb_spec|done]|].
  destruct (r =s "skipped"); [destruct (_ !=s _); [by apply shortb_spec|done]|done].
Qed.

Lemma own_row_small row run results :
  sound_row row = true → (∀ c, validCheckID c = true → short (result_of results c)) → small_row (evaluateRow row run results).
Proof.
  intros Hrow Hv. unfold sound_row in Hrow. apply andb_prop in Hrow as [[[Hp Hid]%andb_prop Hre]%andb_prop Hch].
  apply shortb_spec in Hid, Hre. pose proof (short_status _ (proj1 (row_status row run results))) as Hst.
  unfold small_row. rewrite row_id. split_and!; [| |done| |done].
  1,2: unfold evaluateRow; unfold sound_policy in Hp.
  all: destruct (pl_Kind (rr_Evaluation row) =s "required-checks") eqn:Ek;
    [apply String.eqb_eq in Ek|].
  - apply andb_prop in Hp as [_ Hlen%Nat.leb_le]. rewrite Ek. cbn [String.eqb Ascii.eqb Bool.eqb].
    destruct (_ && _); [|destruct (foldl judge _ _)]; cbn [re_Evidence]; unfold evidence_of; by rewrite List.length_map.
  - destruct (_ =s "blocked"); [cbn; lia|]. destruct (_ =s "not-run"); cbn; lia.
  - apply andb_prop in Hp as [Hids _]. rewrite Ek. cbn [String.eqb Ascii.eqb Bool.eqb].
    assert (Forall (λ e, short (ec_CheckID e) ∧ short (ec_Result e)) (evidence_of results (pl_RequiredChecks (rr_Evaluation row)))) as He.
    { unfold evidence_of. apply List.Forall_map, List.Forall_forall. intros c Hc. cbn [ec_CheckID ec_Result].
      rewrite forallb_forall in Hids, Hch. split; [by apply shortb_spec, Hch|by apply Hv, Hids]. }
    destruct (_ && _); [done|]. by destruct (foldl judge _ _).
  - destruct (_ =s "blocked"); [by constructor|]. destruct (_ =s "not-run"); by constructor.
  - unfold evaluateRow. rewrite Ek. cbn [String.eqb Ascii.eqb Bool.eqb]. destruct (_ && _); [by apply shortb_spec|].
    pose proof (judge_reason (List.map (result_of results) (pl_RequiredChecks (rr_Evaluation row))) (StatusPass, "CURRENT_REQUIRED_CHECKS_PASSED")) as J.
    destruct (foldl judge _ _). cbn [re_ReasonCode snd] in *. apply J. by apply shortb_spec.
  - unfold evaluateRow. rewrite Ek. destruct (_ =s "blocked"); [done|]. destruct (_ =s "not-run"); [done|]. by apply shortb_spec.
Qed.

(** *** Rows that an evaluation states *)

Definition row_utf8 (r : RowEvaluation) : Prop :=
  Forall (λ e, utf8_valid (ec_CheckID e) = true ∧ utf8_valid (ec_Result e) = true) (re_Evidence r)
  ∧ utf8_valid (re_ID r) = true ∧ utf8_valid (re_ReasonCode r) = true ∧ utf8_valid (re_Status r) = true.

Lemma small_row_utf8 r : small_row r → row_utf8 r.
Proof.
  intros (_ & He & H1 & H2 & H3). split_and!; [|by apply short_utf8..].
  eapply Forall_impl; [exact He|]. intros e [??]. split; by apply short_utf8.
Qed.

Lemma text_inj a b : utf8_valid a = true → utf8_valid b = true → text a = text b → a = b.
Proof. unfold text. intros Ha Hb E. rewrite !sanitize_valid in E by done. by injection E. Qed.

Lemma canonical_struct l :
  keys_sorted l = true → forallb (λ p, utf8_valid p.1) l = true → Forall (λ p, canonical p.2 = true) l → canonical (JObj l) = true.
Proof.
  intros Hs Hk Hv. cbn [canonical]. rewrite Hs. cbn [andb]. clear Hs. induction Hv as [|p l Hp Hv IH]; [done|].
  cbn [forallb] in *. apply andb_prop in Hk as [-> Hk]. rewrite Hp. by apply IH.
Qed.

Lemma text_canonical s : canonical (text s) = true.
Proof. apply sanitize_is_valid. Qed.

Lemma array_canonical {A} (doc : A → json) l : (∀ x, canonical (doc x) = true) → canonical (JArr (List.map doc l)) = true.
Proof. intros H. cbn [canonical]. induction l as [|x l IH]; [done|]. cbn [List.map forallb]. by rewrite H, IH. Qed.

(** The members of a struct, one goal each. *)
Ltac each_member := repeat first [apply Forall_nil_2 | apply Forall_cons_2]; cbn [snd].

Lemma evidence_doc_canonical e : canonical (evidence_doc e) = true.
Proof. apply canonical_struct; [reflexivity|reflexivity|]. each_member; apply text_canonical. Qed.

Lemma row_doc_canonical r : canonical (row_doc r) = true.
Proof.
  apply canonical_struct; [reflexivity|reflexivity|]. each_member; try apply text_canonical.
  apply array_canonical, evidence_doc_canonical.
Qed.

Lemma row_doc_inj a b : row_utf8 a → row_utf8 b → rowEvaluationEqual a b = true → a = b.
Proof.
  intros (Ae & A1 & A2 & A3) (Be & B1 & B2 & B3). unfold rowEvaluationEqual.
  rewrite !Marshal_wf_doc by apply row_doc_ascii. intros E%String.eqb_eq.
  apply encode_inj in E; [|apply row_doc_canonical..]. 
  assert (∀ k, field (members_of (row_doc a)) k = field (members_of (row_doc b)) k) as Hf by (intros k; by rewrite E). clear E.
  pose proof (Hf "id") as E1. change (text (re_ID a) = text (re_ID b)) in E1.
  pose proof (Hf "reasonCode") as E2. change (text (re_ReasonCode a) = text (re_ReasonCode b)) in E2.
  pose proof (Hf "status") as E3. change (text (re_Status a) = text (re_Status b)) in E3.
  pose proof (f_equal (λ j, default [] (as_array j)) (Hf "evidence")) as Ee. clear Hf.
  change (List.map evidence_doc (re_Evidence a) = List.map evidence_doc (re_Evidence b)) in Ee.
  apply text_inj in E1, E2, E3; try done. destruct a as [ae ai ar ast], b as [be bi br bst]. cbn in *. subst. f_equal.
  clear - Ae Be Ee. revert be Be Ee. induction ae as [|x ae IH]; intros [|y be] Be Ee; try done.
  apply Forall_cons in Ae as [[X1 X2] Ae]. apply Forall_cons in Be as [[Y1 Y2] Be]. cbn [List.map] in Ee.
  pose proof (f_equal (List.hd JNull) Ee) as Ex. apply (f_equal (@tl json)) in Ee. cbn [List.hd tl] in Ex, Ee.
  f_equal; [|by apply IH]. 
  pose proof (f_equal (λ j, field (members_of j) "checkId") Ex) as E1. change (text (ec_CheckID x) = text (ec_CheckID y)) in E1.
  pose proof (f_equal (λ j, field (members_of j) "result") Ex) as E2. change (text (ec_Result x) = text (ec_Result y)) in E2.
  apply text_inj in E1, E2; try done. destruct x, y. cbn in *. by subst.
Qed.

Lemma as_string_utf8 v s : as_string v = Some s → wf v = true → utf8_valid s = true.
Proof. destruct v; try done. by intros [= ->]. Qed.

Lemma mapM_decoded {A} (decode : json → option A) (P : A → Prop) vs rs :
  mapM decode vs = Some rs → wf (JArr vs) = true → (∀ v r, decode v = Some r → wf v = true → P r) → Forall P rs.
Proof.
  intros H%mapM_Some Hw Hd. cbn [wf] in Hw. induction H as [|v r vs rs Hv H IH]; [constructor|]. cbn [forallb] in Hw.
  apply andb_prop in Hw as [Hv' Hw]. constructor; [by eapply Hd|by apply IH].
Qed.

Lemma as_array_wf v l : as_array v = Some l → wf v = true → wf (JArr l) = true.
Proof. by intros ->%as_array_read. Qed.

Lemma decoded_evidence_utf8 v e : decode_evidence v = Some e → wf v = true → utf8_valid (ec_CheckID e) = true ∧ utf8_valid (ec_Result e) = true.
Proof.
  unfold decode_evidence. intros H Hw. destruct (as_object v) as [item|] eqn:Ei; [|done]. cbn [mbind option_bind] in H.
  apply as_object_read in Ei as ->. read_fields H. injection H as <-. destruct (wf_object item Hw) as [_ Hf]. cbn [ec_CheckID ec_Result].
  split; (eapply as_string_utf8; [eassumption|apply Hf]).
Qed.

Lemma decoded_row_utf8 v r : decodeRowEvaluation v = Some r → wf v = true → row_utf8 r.
Proof.
  unfold decodeRowEvaluation. intros H Hw. destruct (as_object v) as [o|] eqn:Ev; [|done]. cbn [mbind option_bind] in H.
  apply as_object_read in Ev as ->. read_fields H. injection H as <-. destruct (wf_object o Hw) as [_ Hf].
  unfold row_utf8. cbn [re_Evidence re_ID re_ReasonCode re_Status]. split_and!; [|eapply as_string_utf8; [eassumption|apply Hf]..].
  eapply mapM_decoded; [eassumption|by eapply as_array_wf; [eassumption|apply Hf]|apply decoded_evidence_utf8].
Qed.

Lemma decoded_rows_utf8 v e : decodeEvaluation v = Some e → wf v = true → Forall row_utf8 (ae_Rows e).
Proof.
  unfold decodeEvaluation. intros H Hw. destruct (as_object v) as [o|] eqn:Ev; [|done]. cbn [mbind option_bind] in H.
  apply as_object_read in Ev as ->. read_fields H. injection H as <-. destruct (wf_object o Hw) as [_ Hf]. cbn [ae_Rows].
  eapply mapM_decoded; [eassumption|by eapply as_array_wf; [eassumption|apply Hf]|apply decoded_row_utf8].
Qed.

(** The results a row's evidence gives are check results. *)
Lemma evidence_results_valid evidence checks acc results :
  evidence_results evidence checks acc = Some results →
  (∀ c r, assoc c acc = Some r → validCheckID c = true ∧ validCheckResult r = true) →
  ∀ c r, assoc c results = Some r → validCheckID c = true ∧ validCheckResult r = true.
Proof.
  revert checks acc. induction evidence as [|e evidence IH]; intros checks acc; cbn [evidence_results]; [by intros [= <-]|].
  destruct checks as [|check checks]; [done|]. destruct (negb (validCheckID (ec_CheckID e))) eqn:E1; [done|].
  destruct (negb (validCheckResult (ec_Result e))) eqn:E2; [done|]. cbn [orb]. destruct (_ !=s check); [done|].
  apply negb_false_iff in E1, E2. intros H Ha. eapply (IH _ _ H). intros c r.
  destruct (decide (c = ec_CheckID e)) as [->|Hne].
  - rewrite assoc_set_eq. intros [= <-]. by split.
  - rewrite assoc_set_ne by done. apply Ha.
Qed.

(** *** Overall status *)

Definition main_push (run : Run) : bool := (rn_Event run =s "push") && (rn_Ref run =s "refs/heads/main").

(** A check that decides some row failed or was cancelled. *)
Definition rejects (run : Run) (checks : CheckResults) : bool :=
  check_fails (ck_Container checks) || check_fails (ck_Go checks) || check_fails (ck_WindowsGo checks)
  || (main_push run && check_fails (ck_SchemaJSON checks)).

(** The rows that checks decide, with their checks. *)
Definition decided_rows (rows : list RegistryRow) : list (string * list string) :=
  List.map (λ row, (rr_ID row, pl_RequiredChecks (rr_Evaluation row)))
    (List.filter (λ row, pl_Kind (rr_Evaluation row) =s "required-checks") rows).

Lemma registry_decided :
  decided_rows expectedRegistryRows
  = [("RP-B00", ["ci/container-matrix"; "ci/go"; "ci/schema-json"; "ci/windows-go"]); ("RP-B04", ["ci/container-matrix"]);
     ("RP-M0-MODULE", ["ci/go"; "ci/windows-go"]); ("RP-M1-JOURNEY", ["ci/container-matrix"])].
Proof. vm_compute. reflexivity. Qed.

Lemma row_fails_decided rows run results :
  existsb (λ row, row_fails row run results) rows
  = existsb (λ d, negb ((d.1 =s "RP-B00") && ((rn_Event run !=s "push") || (rn_Ref run !=s "refs/heads/main")))
                  && existsb (λ c, check_fails (result_of results c)) d.2) (decided_rows rows).
Proof.
  unfold decided_rows. induction rows as [|row rows IH]; [done|]. cbn [existsb List.filter]. unfold row_fails at 1.
  destruct (pl_Kind (rr_Evaluation row) =s "required-checks"); [|done]. cbn [andb List.map existsb fst snd]. by rewrite IH.
Qed.

Lemma rejects_exact run checks :
  existsb (λ row, row_fails row run (check_results checks)) expectedRegistryRows = rejects run checks.
Proof.
  rewrite row_fails_decided, registry_decided. unfold rejects, main_push. cbn [existsb fst snd].
  change (result_of (check_results checks) "ci/container-matrix") with (ck_Container checks).
  change (result_of (check_results checks) "ci/go") with (ck_Go checks).
  change (result_of (check_results checks) "ci/schema-json") with (ck_SchemaJSON checks).
  change (result_of (check_results checks) "ci/windows-go") with (ck_WindowsGo checks).
  change ("RP-B00" =s "RP-B00") with true. change ("RP-B04" =s "RP-B00") with false.
  change ("RP-M0-MODULE" =s "RP-B00") with false. change ("RP-M1-JOURNEY" =s "RP-B00") with false.
  by destruct (check_fails (ck_Container checks)), (check_fails (ck_Go checks)), (check_fails (ck_SchemaJSON checks)),
    (check_fails (ck_WindowsGo checks)), (_ =s "push"), (_ =s "refs/heads/main").
Qed.

(** *** What [Evaluate] writes, and what [ParseEvaluation] accepts *)

Section Theorems.
Context `{PF : Platform}.

Lemma check_results_valid checks :
  forallb (λ r, validCheckResult r.2) (check_results checks) = true → valid_results (check_results checks).
Proof.
  intros H c. unfold validCheckID. rewrite one_of_In. cbn [check_results forallb snd] in H.
  apply andb_prop in H as [H1 H]. apply andb_prop in H as [H2 H]. apply andb_prop in H as [H3 H]. apply andb_prop in H as [H4 _].
  intros Hc. repeat (apply elem_of_cons in Hc as [->|Hc]; [assumption|]). by apply not_elem_of_nil in Hc.
Qed.

(** The rows of an evaluation of the embedded registry. *)
Definition own_rows (request : EvaluationRequest) : list RowEvaluation :=
  List.map (λ row, evaluateRow row (rq_Run request) (check_results (rq_Checks request))) expectedRegistryRows.

Lemma own_rows_ids request : List.map re_ID (own_rows request) = List.map rr_ID expectedRegistryRows.
Proof. unfold own_rows. rewrite List.map_map. apply List.map_ext. intros row. apply row_id. Qed.

Lemma own_rows_length request : length (own_rows request) = 37%nat.
Proof. unfold own_rows. by rewrite List.length_map. Qed.

Lemma own_aggregate request :
  aggregateRows (own_rows request) = (if rejects (rq_Run request) (rq_Checks request) then OverallFail else OverallIncomplete, false).
Proof.
  unfold aggregateRows. rewrite own_rows_length. cbn [Nat.eqb negb]. rewrite aggregate_loop_exact.
  - assert (existsb (λ r, re_Status r =s StatusFail) (own_rows request) = rejects (rq_Run request) (rq_Checks request)) as ->.
    { rewrite <- rejects_exact. unfold own_rows. generalize expectedRegistryRows as rows.
      induction rows as [|row rows IH]; [done|]. cbn [List.map existsb]. rewrite IH. f_equal. apply eq_true_iff_eq.
      rewrite String.eqb_eq. apply row_status. }
    destruct (rejects _ _); [done|]. cbn [orb].
    assert (existsb (λ r, one_of (re_Status r) [StatusBlocked; StatusNotRun]) (own_rows request) = true) as ->; [|done].
    apply existsb_exists. exists (evaluateRow (nth 1 expectedRegistryRows (expectedRow "" "" [] "")) (rq_Run request) (check_results (rq_Checks request))).
    split; [|reflexivity]. unfold own_rows. apply (List.in_map (λ row, evaluateRow row (rq_Run request) (check_results (rq_Checks request)))).
    right. left. reflexivity.
  - rewrite own_rows_ids. exact (bool_decide_eq_true_1 _ registry_ids).
  - apply Forall_forall. intros r Hr. split; [apply not_elem_of_nil|]. unfold own_rows in Hr.
    apply list_elem_of_In, List.in_map_iff in Hr as (row & <- & _). apply row_status.
Qed.

(** The evaluation of a request under the embedded registry, with its digest. *)
Definition own_evaluation (request : EvaluationRequest) (digest : string) : Evaluation :=
  with_digest (evaluation_of expectedRegistry (digest_text registry_text) request) digest.

Lemma own_evaluation_eq request digest :
  own_evaluation request digest = {| ae_ArtifactType := "repopass-acceptance-evaluation"; ae_EvaluationDigest := digest; ae_FormalClaim := false;
     ae_OverallStatus := if rejects (rq_Run request) (rq_Checks request) then OverallFail else OverallIncomplete;
     ae_RegistryDigest := digest_text registry_text; ae_Rows := own_rows request; ae_Run := rq_Run request;
     ae_SchemaVersion := "1"; ae_StableEligible := false; ae_Subject := rq_Subject request; ae_TrustBoundary := "producer-owned-ci" |}.
Proof.
  unfold own_evaluation, evaluation_of. change (rg_Rows expectedRegistry) with expectedRegistryRows. fold (own_rows request).
  by rewrite own_aggregate.
Qed.

Lemma own_evaluation_readable request digest :
  validateSubjectAndRun (rq_Subject request) (rq_Run request) = Ok tt →
  valid_results (check_results (rq_Checks request)) → short digest → readable (own_evaluation request digest).
Proof.
  intros Hsr Hv Hd. apply subject_and_run_inv in Hsr as (S1 & S2 & R1 & R2). rewrite own_evaluation_eq.
  split; cbn [ae_ArtifactType ae_EvaluationDigest ae_OverallStatus ae_RegistryDigest ae_SchemaVersion ae_TrustBoundary ae_Rows ae_Subject ae_Run]; try done.
  - repeat first [apply Forall_nil_2 | apply Forall_cons_2].
    + by apply shortb_spec.
    + exact Hd.
    + destruct (rejects _ _); by apply shortb_spec.
    + apply short_digest.
    + by apply shortb_spec.
    + by apply shortb_spec.
  - split; [apply own_rows_length|]. unfold own_rows. apply List.Forall_map, List.Forall_forall. intros row Hrow.
    apply own_row_small; [|intros c Hc; by apply short_result, Hv]. pose proof registry_sound as Hs. rewrite forallb_forall in Hs. by apply Hs.
Qed.

Lemma compute_digest_with e digest : computeEvaluationDigest (with_digest e digest) = computeEvaluationDigest e.
Proof. by destruct e. Qed.

Lemma compute_digest_ok e : ∃ text, computeEvaluationDigest e = Ok (digest_text text).
Proof.
  unfold computeEvaluationDigest. rewrite Marshal_wf_doc by apply evaluation_without_digest_ascii. by eexists.
Qed.

Lemma own_rows_accepted request :
  valid_results (check_results (rq_Checks request)) →
  forallb (λ p, (re_ID p.2 =s rr_ID p.1) && validRowEvaluation p.1 (rq_Run request) p.2)
    (combine expectedRegistryRows (own_rows request)) = true.
Proof.
  intros Hv. unfold own_rows. pose proof registry_sound as Hs. revert Hs. generalize expectedRegistryRows as rows.
  induction rows as [|row rows IH]; [done|]. cbn [forallb List.map combine fst snd]. intros [Hrow Hs]%andb_prop.
  rewrite row_id, string_eqb_refl, own_row_valid, IH; try done. unfold sound_row in Hrow. by to_prop.
Qed.

Lemma evaluate_accepted request :
  validateSubjectAndRun (rq_Subject request) (rq_Run request) = Ok tt →
  forallb (λ r, validCheckResult r.2) (check_results (rq_Checks request)) = true →
  ∃ digest, Evaluate registry_text request = Ok (encode (evaluation_doc (own_evaluation request digest)))
    ∧ ParseEvaluation registry_text (encode (evaluation_doc (own_evaluation request digest))) = Ok (own_evaluation request digest).
Proof.
  intros Hsr Hv. destruct (compute_digest_ok (evaluation_of expectedRegistry (digest_text registry_text) request)) as [t Ht].
  exists (digest_text t). pose proof (check_results_valid _ Hv) as Hres.
  pose proof (own_evaluation_readable request (digest_text t) Hsr Hres (short_digest _)) as Hread. split.
  - unfold Evaluate, RegistryDigest. rewrite parse_registry_text. cbn [bind_result]. rewrite Hsr. cbn [bind_result]. rewrite Hv.
    cbn [negb]. rewrite Ht. cbn [map_err bind_result]. fold (own_evaluation request (digest_text t)).
    by rewrite Marshal_wf_doc by apply evaluation_doc_ascii.
  - unfold ParseEvaluation, RegistryDigest. rewrite parse_registry_text. cbn [bind_result].
    rewrite evaluation_decodes by done. cbn [of_option bind_result]. rewrite evaluation_written by done. cbn [of_option bind_result].
    assert (computeEvaluationDigest (own_evaluation request (digest_text t)) = Ok (digest_text t)) as Hdig.
    { unfold own_evaluation. by rewrite compute_digest_with. }
    rewrite Hdig, !own_evaluation_eq. cbn [ae_ArtifactType ae_EvaluationDigest ae_FormalClaim ae_OverallStatus ae_RegistryDigest ae_Rows ae_Run
      ae_SchemaVersion ae_StableEligible ae_Subject ae_TrustBoundary].
    rewrite !string_eqb_refl, own_rows_length. cbn [Nat.eqb negb orb]. change (length (rg_Rows expectedRegistry)) with 37%nat. cbn [Nat.eqb negb orb].
    rewrite Hsr. cbn [map_err bind_result]. change (rg_Rows expectedRegistry) with expectedRegistryRows. rewrite own_rows_accepted by done.
    cbn [negb]. rewrite own_aggregate. cbn [Bool.eqb negb orb]. by rewrite string_eqb_refl.
Qed.

(** C23: Every admissible request is evaluated, and the evaluation [Evaluate] writes is
    accepted by [ParseEvaluation] and reads back as what was evaluated: a row per
    registry row, for this subject and run, never stable-eligible, and failed
    exactly when a check that decides a row failed or was cancelled (the schema
    check decides one only for a push to the main branch), incomplete otherwise. *)
Theorem evaluation_roundtrip request :
  validateSubjectAndRun (rq_Subject request) (rq_Run request) = Ok tt →
  forallb (λ r, validCheckResult r.2) (check_results (rq_Checks request)) = true →
  ∃ out e, Evaluate registry_text request = Ok out ∧ ParseEvaluation registry_text out = Ok e
    ∧ ae_Rows e = List.map (λ row, evaluateRow row (rq_Run request) (check_results (rq_Checks request))) expectedRegistryRows
    ∧ ae_Subject e = rq_Subject request ∧ ae_Run e = rq_Run request ∧ ae_StableEligible e = false
    ∧ ae_OverallStatus e = if rejects (rq_Run request) (rq_Checks request) then OverallFail else OverallIncomplete.
Proof.
  intros Hsr Hv. destruct (evaluate_accepted request Hsr Hv) as (digest & E & P). do 2 eexists. split_and!; [exact E|exact P|..].
  all: by rewrite own_evaluation_eq.
Qed.

(** An accepted evaluation, row by row. *)
Definition derived_row (run : Run) (row : RegistryRow) (got : RowEvaluation) : Prop :=
  ∃ results, got = evaluateRow row run results
    ∧ ∀ c r, assoc c results = Some r → validCheckID c = true ∧ validCheckResult r = true.

Lemma accepted_rows rows run gots :
  Forall row_utf8 gots → forallb sound_row rows = true →
  forallb (λ p, (re_ID p.2 =s rr_ID p.1) && validRowEvaluation p.1 run p.2) (combine rows gots) = true → length rows = length gots →
  Forall2 (derived_row run) rows gots.
Proof.
  intros Hu. revert rows. induction Hu as [|got gots Hg Hu IH]; intros [|row rows] Hs H Hl; try done.
  cbn [combine forallb fst snd] in *. apply andb_prop in H as [[_ Hvr]%andb_prop H]. apply andb_prop in Hs as [Hrow Hs].
  constructor; [|apply IH; [done|done|by injection Hl]]. unfold validRowEvaluation in Hvr.
  destruct (evidence_results _ _ []) as [results|] eqn:Er; [|done]. destruct (_ && _); [done|].
  assert (∀ c r, assoc c results = Some r → validCheckID c = true ∧ validCheckResult r = true) as Hres
    by (by eapply evidence_results_valid).
  exists results. split; [|done]. apply row_doc_inj in Hvr; [done|done|].
  apply small_row_utf8, own_row_small; [done|]. intros c _. unfold result_of. destruct (assoc c results) as [r|] eqn:E.
  - apply short_result. by destruct (Hres c r E).
  - by apply shortb_spec.
Qed.

Lemma parse_evaluation_inv registryRaw raw e :
  ParseEvaluation registryRaw raw = Ok e →
  registryRaw = registry_text ∧ validateSubjectAndRun (ae_Subject e) (ae_Run e) = Ok tt
  ∧ Forall2 (derived_row (ae_Run e)) expectedRegistryRows (ae_Rows e)
  ∧ aggregateRows (ae_Rows e) = (ae_OverallStatus e, ae_StableEligible e)
  ∧ ae_RegistryDigest e = digest_text registryRaw ∧ computeEvaluationDigest e = Ok (ae_EvaluationDigest e)
  ∧ ae_FormalClaim e = false.
Proof.
  unfold ParseEvaluation, RegistryDigest. intros H. destruct (ParseRegistry registryRaw) as [registry|] eqn:Er; [|done]. cbn [bind_result] in H.
  pose proof (parse_registry_only _ _ Er) as ->. rewrite parse_registry_text in Er. injection Er as <-.
  destruct (decode_canonical raw evaluation_limits) as [v|] eqn:Ed; [|done]. cbn [of_option bind_result] in H.
  apply decode_canonical_inv in Ed as (Hw & _). destruct (decodeEvaluation v) as [e'|] eqn:Ee; [|done]. cbn [of_option bind_result] in H.
  apply decoded_rows_utf8 in Ee; [|done]. destruct (_ || negb (length _ =? _)%nat) eqn:Eg; [done|].
  apply orb_false_iff in Eg as [Eg1%negb_false_iff Eg2%negb_false_iff]. apply String.eqb_eq in Eg1. apply Nat.eqb_eq in Eg2.
  destruct (validateSubjectAndRun _ _) as [[]|] eqn:Es; [|done]. cbn [map_err bind_result] in H.
  destruct (_ || ae_FormalClaim e') eqn:Ef; [done|]. apply orb_false_iff in Ef as [_ Ef].
  destruct (forallb _ (combine _ _)) eqn:Erows; [|done]. cbn [negb] in H.
  destruct (aggregateRows (ae_Rows e')) as [overall stable] eqn:Ea. destruct (_ || negb (Bool.eqb _ _)) eqn:Eo; [done|].
  apply orb_false_iff in Eo as [Eo1%negb_false_iff Eo2%negb_false_iff]. apply String.eqb_eq in Eo1. apply Bool.eqb_prop in Eo2.
  destruct (computeEvaluationDigest e') as [want|] eqn:Ec; [|done]. destruct (_ !=s want) eqn:Ew; [done|].
  apply negb_false_iff, String.eqb_eq in Ew. injection H as <-. subst. split_and!; try done; try congruence.
  apply accepted_rows; [done|exact registry_sound|exact Erows|done].
Qed.

(** C24: An accepted evaluation is one of the embedded registry: it names its digest, its
    own digest is that of its content, every row is what the registry's row gives
    for check results of the row's evidence, and the overall status is the
    aggregate of the rows. *)
Theorem accepted_evaluation_derived registryRaw raw e :
  ParseEvaluation registryRaw raw = Ok e →
  registryRaw = registry_text ∧ validateSubjectAndRun (ae_Subject e) (ae_Run e) = Ok tt
  ∧ Forall2 (λ row got, ∃ results, got = evaluateRow row (ae_Run e) results
      ∧ ∀ c r, assoc c results = Some r → validCheckID c = true ∧ validCheckResult r = true) expectedRegistryRows (ae_Rows e)
  ∧ aggregateRows (ae_Rows e) = (ae_OverallStatus e, ae_StableEligible e)
  ∧ ae_RegistryDigest e = digest_text registryRaw ∧ computeEvaluationDigest e = Ok (ae_EvaluationDigest e)
  ∧ ae_FormalClaim e = false.
Proof. apply parse_evaluation_inv. Qed.

(** No evaluation completes the roadmap: the embedded registry has rows that no check
    decides, so [RequireComplete] refuses every evaluation, an accepted one as
    incomplete, whatever the results of the checks. *)
Theorem acceptance_never_complete registryRaw raw :
  RequireComplete registryRaw raw ≠ Ok tt
  ∧ ∀ e, ParseEvaluation registryRaw raw = Ok e → RequireComplete registryRaw raw = Err ErrIncomplete.
Proof.
  assert (∀ e, ParseEvaluation registryRaw raw = Ok e → RequireComplete registryRaw raw = Err ErrIncomplete) as H.
  { intros e He. unfold RequireComplete. rewrite He. cbn [bind_result]. destruct (_ || _) eqn:E; [done|]. exfalso.
    apply orb_false_iff in E as [E%negb_false_iff _]. apply String.eqb_eq in E.
    apply parse_evaluation_inv in He as (_ & _ & Hrows & Ha & _). rewrite E in Ha. apply aggregate_pass in Ha.
    destruct (Forall2_lookup_l _ _ _ 1%nat (nth 1 expectedRegistryRows (expectedRow "" "" [] "")) Hrows eq_refl)
      as (got & Hgot & results & -> & _). rewrite Forall_lookup in Ha. specialize (Ha 1%nat _ Hgot). by vm_compute in Ha. }
  split; [|exact H]. intros Hc. destruct (ParseEvaluation registryRaw raw) as [e|] eqn:Ep.
  - by rewrite (H e eq_refl) in Hc.
  - unfold RequireComplete in Hc. by rewrite Ep in Hc.
Qed.
End Theorems.

(** *** Examples *)

Definition sample_request (container go schema windows : string) : EvaluationRequest :=
  {| rq_Subject := {| sj_Repository := "github.com/taipei49314/RepoPassport";
                      sj_Revision := "0123456789abcdef0123456789abcdef01234567"; sj_TreeSHA := "89abcdef0123456789abcdef0123456789abcdef" |};
     rq_Run := {| rn_Attempt := 1; rn_Event := "push"; rn_ID := 77; rn_Ref := "refs/heads/main"; rn_WorkflowPath := ".github/workflows/ci.yml" |};
     rq_Checks := {| ck_Container := container; ck_Go := go; ck_SchemaJSON := schema; ck_WindowsGo := windows |} |}.

Lemma evaluation_roundtrip_witness :
  ∃ out e, Evaluate (PF := exact_platform) registry_text (sample_request "success" "success" "failure" "success") = Ok out
    ∧ ParseEvaluation (PF := exact_platform) registry_text out = Ok e ∧ ae_OverallStatus e = OverallFail.
Proof.
  destruct (evaluation_roundtrip (PF := exact_platform) (sample_request "success" "success" "failure" "success"))
    as (out & e & E & P & _ & _ & _ & _ & O).
  - vm_compute. reflexivity.
  - vm_compute. reflexivity.
  - exists out, e. split_and!; [exact E|exact P|]. rewrite O. vm_compute. reflexivity.
Defined.

Lemma accepted_evaluation_derived_witness :
  ∃ raw e, ParseEvaluation (PF := exact_platform) registry_text raw = Ok e ∧ ae_FormalClaim e = false
    ∧ aggregateRows (ae_Rows e) = (ae_OverallStatus e, ae_StableEligible e).
Proof.
  destruct (evaluate_accepted (PF := exact_platform) (sample_request "success" "success" "success" "success")) as (digest & _ & P).
  - vm_compute. reflexivity.
  - vm_compute. reflexivity.
  - destruct (accepted_evaluation_derived (PF := exact_platform) _ _ _ P) as (_ & _ & _ & A & _ & _ & F). eauto.
Defined.

Lemma acceptance_never_complete_witness :
  ∃ raw, RequireComplete (PF := exact_platform) registry_text raw = Err ErrIncomplete.
Proof.
  destruct (evaluate_accepted (PF := exact_platform) (sample_request "success" "success" "success" "success")) as (digest & _ & P).
  - vm_compute. reflexivity.
  - vm_compute. reflexivity.
  - eexists. exact (proj2 (acceptance_never_complete (PF := exact_platform) _ _) _ P).
Defined.
