(* ===== verification/Url.v ===== *)
(** * URLs (the standard library's [net/url] package)

    [url.Parse], the escaping of paths and hosts, [URL.EscapedPath],
    [URL.String] and the split of host and port.  A bracketed host (an IP
    literal) is not read: every caller of this file refuses a URL with such a
    host, whether [Parse] accepts the literal or not. *)

From S2P Require Import Prelude Json GoStrings.

Local Open Scope N_scope.

(** ** Escaping *)

Inductive encoding := encodePath | encodeHost | encodeUserPassword | encodeFragment.
#[export] Instance encoding_eq_dec : EqDecision encoding.
Proof. solve_decision. Defined.

Definition bytes_in (s : string) (c : ascii) : bool := string_contains_byte c s.
Definition letter_or_digit (c : ascii) : bool := in_range 97 122 c || in_range 65 90 c || in_range 48 57 c.
Definition host_delims : string := "!$&'()*+,;=:[]<>" +:+ String dquote "".

Definition shouldEscape (c : ascii) (mode : encoding) : bool :=
  if letter_or_digit c then false
  else if bool_decide (mode = encodeHost) && bytes_in host_delims c then false
  else if bytes_in "-_.~" c then false
  else if bytes_in "$&+,/:;=?@" c && negb (bool_decide (mode = encodeHost)) then
    match mode with
    | encodePath => Ascii.eqb c "?"
    | encodeUserPassword => bytes_in "@/?:" c
    | encodeFragment => false
    | encodeHost => true
    end
  else if bool_decide (mode = encodeFragment) && bytes_in "!()*" c then false
  else true.

Definition hex_upper (n : N) : ascii := if n <? 10 then byte_of (48 + n) else byte_of (55 + n).
Definition escape_url_byte (mode : encoding) (c : ascii) : string :=
  if shouldEscape c mode
  then String "%" (String (hex_upper (byte_val c / 16)) (String (hex_upper (byte_val c mod 16)) ""))
  else String c "".

Fixpoint escape (s : string) (mode : encoding) : string :=
  match s with EmptyString => "" | String c s' => escape_url_byte mode c +:+ escape s' mode end.

Fixpoint unescape (s : string) (mode : encoding) : option string :=
  match s with
  | EmptyString => Some ""
  | String c s' =>
      if Ascii.eqb c "%" then
        match s' with
        | String a (String b s'') =>
            match hex_val a, hex_val b with
            | Some x, Some y =>
                if bool_decide (mode = encodeHost) && (x <? 8) && negb ((x =? 2) && (y =? 5)) then None
                else let? r := unescape s'' mode in Some (String (byte_of (16 * x + y)) r)
            | _, _ => None
            end
        | _ => None
        end
      else if bool_decide (mode = encodeHost) && ascii7 c && shouldEscape c mode then None
      else let? r := unescape s' mode in Some (String c r)
  end.

(** ** The parts of a URL *)

Record URL := {
  u_Scheme : string; u_Opaque : string; u_User : option (string * option string); u_Host : string; u_Path : string;
  u_RawPath : string; u_OmitHost : bool; u_ForceQuery : bool; u_RawQuery : string; u_Fragment : string; u_RawFragment : string }.

(** [getScheme]: the bytes read so far are [acc], last first. *)
Inductive scheme_result := NoScheme | MissingScheme | Scheme (scheme rest : string).

Fixpoint getScheme (first : bool) (acc s : string) : scheme_result :=
  match s with
  | EmptyString => NoScheme
  | String c s' =>
      if in_range 97 122 c || in_range 65 90 c then getScheme false (acc +:+ String c "") s'
      else if in_range 48 57 c || bytes_in "+-." c then
        if first then NoScheme else getScheme false (acc +:+ String c "") s'
      else if Ascii.eqb c ":" then if first then MissingScheme else Scheme acc s'
      else NoScheme
  end.

(** [validOptionalPort]: nothing, or a colon and digits. *)
Definition validOptionalPort (port : string) : bool :=
  match port with
  | EmptyString => true
  | String c digits => Ascii.eqb c ":" && string_forallb is_digit digits
  end.

Definition colon_part (rest : string) : string := String ":" rest.

Definition postgres (scheme : string) : bool := (scheme =s "postgresql") || (scheme =s "postgres").

(** [parseHost] of a host that is no IP literal: what follows its first colon is
    a port (the last one for the schemes that may list several hosts). *)
Definition parseHost (scheme host : string) : option string :=
  if has_prefix "[" host then None
  else
    match (if postgres scheme then cut_last ":" host else cut ":" host) with
    | Some (_, rest) => if validOptionalPort (colon_part rest) then unescape host encodeHost else None
    | None => unescape host encodeHost
    end.

Definition userinfo_byte (c : ascii) : bool := letter_or_digit c || bytes_in "-._:~!$&'()*+,;=%@" c.
Definition parse_userinfo (userinfo : string) : option (string * option string) :=
  if negb (string_forallb userinfo_byte userinfo) then None
  else
    match cut ":" userinfo with
    | None => let? name := unescape userinfo encodeUserPassword in Some (name, None)
    | Some (name, password) =>
        let? name := unescape name encodeUserPassword in
        let? password := unescape password encodeUserPassword in
        Some (name, Some password)
    end.

Definition parseAuthority (scheme authority : string) : option (option (string * option string) * string) :=
  match cut_last "@" authority with
  | None => let? host := parseHost scheme authority in Some (None, host)
  | Some (userinfo, host) =>
      let? host := parseHost scheme host in
      let? user := parse_userinfo userinfo in
      Some (Some user, host)
  end.

(** [setPath]: the decoded path, and its text when that is not the default one. *)
Definition set_path (p : string) : option (string * string) :=
  let? path := unescape p encodePath in
  Some (path, if p =s escape path encodePath then "" else p).
(** The same of [setFragment]. *)
Definition set_fragment (f : string) : option (string * string) :=
  let? fragment := unescape f encodeFragment in
  Some (fragment, if f =s escape fragment encodeFragment then "" else f).

Definition control_byte (c : ascii) : bool := (byte_val c <? 32) || (byte_val c =? 127).

(** The query: [ForceQuery] is a [?] that ends the text and is the only one. *)
Definition split_query (rest : string) : string * bool * string :=
  match cut "?" rest with
  | Some (before, after) => if after =s "" then (before, true, "") else (before, false, after)
  | None => (rest, false, "")
  end.

(** The authority ends at the first slash after its two. *)
Definition split_authority (rest : string) : string * string :=
  match cut "/" rest with
  | Some (authority, path) => (authority, String "/" path)
  | None => (rest, "")
  end.

(** What [parse] does with the text after the scheme. *)
Definition parse_after_scheme (scheme rest : string) : option URL :=
  let '(rest, force, query) := split_query rest in
  let build opaque user host path rawPath omit :=
    {| u_Scheme := scheme; u_Opaque := opaque; u_User := user; u_Host := host; u_Path := path; u_RawPath := rawPath;
       u_OmitHost := omit; u_ForceQuery := force; u_RawQuery := query; u_Fragment := ""; u_RawFragment := "" |} in
  if negb (has_prefix "/" rest) && (scheme !=s "") then Some (build rest None "" "" "" false)
  else if negb (has_prefix "/" rest) && bytes_in (split_authority rest).1 ":" then None
  else if ((scheme !=s "") || negb (has_prefix "///" rest)) && has_prefix "//" rest then
    let '(authority, rest) := split_authority (drop_string 2 rest) in
    let? (user, host) := parseAuthority scheme authority in
    let? (path, rawPath) := set_path rest in
    Some (build "" user host path rawPath false)
  else
    let? (path, rawPath) := set_path rest in
    Some (build "" None "" path rawPath ((scheme !=s "") && has_prefix "/" rest)).

(** [parse] with [viaRequest] false. *)
Definition parse_without_fragment (rawURL : string) : option URL :=
  if negb (string_forallb (λ c, negb (control_byte c)) rawURL) then None
  else if rawURL =s "*" then
    Some {| u_Scheme := ""; u_Opaque := ""; u_User := None; u_Host := ""; u_Path := "*"; u_RawPath := ""; u_OmitHost := false;
            u_ForceQuery := false; u_RawQuery := ""; u_Fragment := ""; u_RawFragment := "" |}
  else
    match getScheme true "" rawURL with
    | MissingScheme => None
    | NoScheme => parse_after_scheme "" rawURL
    | Scheme scheme rest => parse_after_scheme (to_lower scheme) rest
    end.

Definition with_fragment (u : URL) (fragment raw : string) : URL :=
  {| u_Scheme := u_Scheme u; u_Opaque := u_Opaque u; u_User := u_User u; u_Host := u_Host u; u_Path := u_Path u;
     u_RawPath := u_RawPath u; u_OmitHost := u_OmitHost u; u_ForceQuery := u_ForceQuery u; u_RawQuery := u_RawQuery u;
     u_Fragment := fragment; u_RawFragment := raw |}.

Definition Parse (rawURL : string) : option URL :=
  match cut "#" rawURL with
  | None => parse_without_fragment rawURL
  | Some (text, frag) =>
      let? u := parse_without_fragment text in
      if frag =s "" then Some u
      else let? (fragment, raw) := set_fragment frag in Some (with_fragment u fragment raw)
  end.

(** ** Writing a URL *)

Definition valid_encoded_byte (c : ascii) : bool := bytes_in "!$&'()*+,;=:@[]%" c || negb (shouldEscape c encodePath).
Definition validEncoded (s : string) : bool := string_forallb valid_encoded_byte s.

Definition EscapedPath (u : URL) : string :=
  if (u_RawPath u !=s "") && validEncoded (u_RawPath u)
     && bool_decide (unescape (u_RawPath u) encodePath = Some (u_Path u)) then u_RawPath u
  else if u_Path u =s "*" then "*"
  else escape (u_Path u) encodePath.

(** [URL.String] of a URL with a scheme and without a user or a fragment, which
    its one caller has tested before. *)
Definition url_string (u : URL) : string :=
  let path := EscapedPath u in
  u_Scheme u +:+ ":"
  +:+ (if u_Opaque u !=s "" then u_Opaque u
       else
         (if u_OmitHost u && (u_Host u =s "") then ""
          else
            (if (u_Host u !=s "") || (u_Path u !=s "") then "//" else "")
            +:+ escape (u_Host u) encodeHost)
         +:+ (if (path !=s "") && negb (has_prefix "/" path) && (u_Host u !=s "") then "/" else "")
         +:+ path)
  +:+ (if u_ForceQuery u || (u_RawQuery u !=s "") then String "?" (u_RawQuery u) else "").

(** [splitHostPort]: [Hostname] and [Port]. *)
Definition splitHostPort (hostPort : string) : string * string :=
  let '(host, port) :=
    match cut_last ":" hostPort with
    | Some (host, port) => if validOptionalPort (colon_part port) then (host, port) else (hostPort, "")
    | None => (hostPort, "")
    end in
  if has_prefix "[" host && has_suffix "]" host
  then (String.substring 1 (slen host - 2) host, port)
  else (host, port).
Definition Hostname (u : URL) : string := (splitHostPort (u_Host u)).1.
Definition Port (u : URL) : string := (splitHostPort (u_Host u)).2.

Example parse_url_1 :
  option_map (λ u, (u_Scheme u, u_Host u, (u_Path u, u_RawPath u), (u_ForceQuery u, u_RawQuery u, u_Fragment u), (Hostname u, Port u, url_string u)))
    (Parse "HTTP://127.0.0.1:8080/a%20b/%2f?x=1&y=%20#frag")
  = Some ("http", "127.0.0.1:8080", ("/a b//", "/a%20b/%2f"), (false, "x=1&y=%20", "frag"),
          ("127.0.0.1", "8080", "http://127.0.0.1:8080/a%20b/%2f?x=1&y=%20")).
Proof. vm_compute. reflexivity. Qed.

Example parse_url_2 :
  List.map (λ s, option_map (λ u, (u_Host u, u_Path u, u_User u, u_Opaque u)) (Parse s))
    ["http://a:b@127.0.0.1:1/x"; "mailto:x@y"; "http://127.0.0.1:1x/"; "http://h%41/"; "http://h/%zz"; "://x"; "a/b"; "//h/p?"; "http:/x"]
  = [Some ("127.0.0.1:1", "/x", Some ("a", Some "b"), ""); Some ("", "", None, "x@y"); None; None; None; None;
     Some ("", "a/b", None, ""); Some ("h", "/p", None, ""); Some ("", "/x", None, "")].
Proof. vm_compute. reflexivity. Qed.

(** ** Escaping and unescaping *)

Lemma hex_upper_val n : n < 16 → hex_val (hex_upper n) = Some n.
Proof.
  intros H. assert (forallb (λ n, bool_decide (hex_val (hex_upper n) = Some n)) (N.of_nat <$> seq 0 16) = true) as Hall by (vm_compute; reflexivity).
  rewrite forallb_forall in Hall. specialize (Hall n). apply bool_decide_eq_true in Hall; [done|].
  apply list_elem_of_In, list_elem_of_fmap. exists (N.to_nat n). split; [lia|]. apply elem_of_seq. lia.
Qed.

Lemma unescape_escape_path s : unescape (escape s encodePath) encodePath = Some s.
Proof.
  induction s as [|c s IH]; [done|]. cbn [escape]. unfold escape_url_byte. destruct (shouldEscape c encodePath) eqn:E.
  - rewrite !app_string_cons, app_string_nil_l. cbn [unescape]. change (Ascii.eqb "%" "%") with true. cbn iota.
    pose proof (byte_val_lt c). rewrite !hex_upper_val by (first [apply N.Div0.div_lt_upper_bound; lia|apply N.mod_lt; lia]).
    rewrite bool_decide_eq_false_2 by done. cbn [andb]. rewrite IH. cbn [mbind option_bind]. do 2 f_equal.
    rewrite <- N.div_mod by done. apply byte_of_val.
  - rewrite app_string_cons, app_string_nil_l. cbn [unescape].
    destruct (Ascii.eqb_spec c "%") as [->|]; [done|]. by rewrite bool_decide_eq_false_2, IH.
Qed.

Lemma escape_path_inj a b : escape a encodePath = escape b encodePath → a = b.
Proof. intros H. apply (f_equal (λ s, unescape s encodePath)) in H. rewrite !unescape_escape_path in H. by injection H. Qed.

(** A byte class every escaped path is in. *)
Lemma escape_forallb P mode s :
  (∀ c, shouldEscape c mode = false → P c = true) → P "%"%char = true → (∀ n, n < 16 → P (hex_upper n) = true) →
  string_forallb P (escape s mode) = true.
Proof.
  intros H1 H2 H3. induction s as [|c s IH]; [done|]. cbn [escape]. rewrite string_forallb_app, IH, andb_true_r.
  unfold escape_url_byte. destruct (shouldEscape c mode) eqn:E; cbn [string_forallb]; [|by rewrite H1].
  pose proof (byte_val_lt c). by rewrite H2, !H3 by (first [apply N.Div0.div_lt_upper_bound; lia|apply N.mod_lt; lia]).
Qed.

(** A byte test that holds of the 256 bytes. *)
Lemma all_bytes (P Q : ascii → bool) : forallb (λ c, negb (P c) || Q c) all_ascii = true → ∀ c, P c = true → Q c = true.
Proof. intros H c Hc. pose proof (ascii_all _ H c) as Hx. simpl in Hx. by rewrite Hc in Hx. Qed.

Lemma hex_upper_class (P : ascii → bool) : forallb (λ n, P (hex_upper n)) (N.of_nat <$> seq 0 16) = true → ∀ n, n < 16 → P (hex_upper n) = true.
Proof.
  intros Hall n Hn. rewrite forallb_forall in Hall. apply Hall. apply list_elem_of_In, list_elem_of_fmap.
  exists (N.to_nat n). split; [lia|]. apply elem_of_seq. lia.
Qed.

Lemma escape_path_class (P : ascii → bool) s :
  forallb (λ c, shouldEscape c encodePath || P c) all_ascii = true → P "%"%char = true →
  forallb (λ n, P (hex_upper n)) (N.of_nat <$> seq 0 16) = true → string_forallb P (escape s encodePath) = true.
Proof.
  intros H1 H2 H3. apply escape_forallb; [|done|by apply hex_upper_class].
  intros c Hc. pose proof (ascii_all _ H1 c) as Hx. simpl in Hx. by rewrite Hc in Hx.
Qed.

Lemma escape_path_first s : has_prefix "/" (escape s encodePath) = has_prefix "/" s.
Proof.
  destruct s as [|c s]; [done|]. cbn [escape]. unfold escape_url_byte.
  destruct (shouldEscape c encodePath) eqn:E; rewrite ?app_string_cons, ?app_string_nil_l; cbn [has_prefix]; [|done].
  destruct (Ascii.eqb_spec "/" c) as [<-|]; [done|]. by destruct c as [[] [] [] [] [] [] [] []].
Qed.
Lemma escape_path_nil s : escape s encodePath = "" ↔ s = "".
Proof. split; [|by intros ->]. destruct s as [|c s]; [done|]. cbn [escape]. unfold escape_url_byte. by destruct (shouldEscape c encodePath). Qed.

(** The decoded path begins as its text does. *)
Lemma unescape_first s p : unescape s encodePath = Some p → (s = "" ∧ p = "") ∨ (s ≠ "" ∧ p ≠ "" ∧ (has_prefix "/" s = true → has_prefix "/" p = true)).
Proof.
  destruct s as [|c s]; [intros [= <-]; by left|]. intros H. right. cbn [unescape] in H. destruct (Ascii.eqb_spec c "%") as [->|Hne].
  - destruct s as [|a [|b s]]; [done..|]. destruct (hex_val a), (hex_val b); try done.
    rewrite bool_decide_eq_false_2 in H by done. cbn [andb] in H.
    destruct (unescape s encodePath); [|done]. cbn [mbind option_bind] in H. by injection H as <-.
  - rewrite bool_decide_eq_false_2 in H by done. cbn [andb] in H.
    destruct (unescape s encodePath); [|done]. cbn [mbind option_bind] in H. injection H as <-. cbn [has_prefix]. done.
Qed.
