(* ===== verification/HttpContract.v ===== *)
(** * The HTTP journey contract (internal/domain/http_contract.go)

    The URLs, durations, header sets and output paths that manifests, plans and
    the HTTP driver agree on. *)

From S2P Require Import Prelude Json SemanticEqual GoValue Durations GoPath GoStrings Url.

Local Open Scope Z_scope.

Definition AlphaHTTPMaxURLBytes := 2048.
Definition AlphaHTTPMaxJourneySteps := 128.
Definition AlphaHTTPMaxRequestSteps := 32.
Definition AlphaHTTPMaxHeaders := 64.
Definition AlphaHTTPMaxHeaderValueBytes := 8192.
Definition AlphaHTTPMaxHeaderAggregateBytes := 65536.
Definition AlphaHTTPMaxRequestBodyBytes := 1048576.
Definition AlphaHTTPMaxResponseMatchBytes := 1048576.
Definition AlphaHTTPMaxOutputPathBytes := 4096.
Definition AlphaHTTPContentTypeName := "content-type".
Definition AlphaHTTPJSONContentType := "application/json".
Definition AlphaHTTPMinimumStatus := 200.
Definition AlphaHTTPMaximumStatus := 599.
Definition AlphaHTTPMinimumDuration := Millisecond.
Definition AlphaHTTPMaxRequestTime := 30 * Minute.
Definition AlphaHTTPMaxReadinessTime := 2 * Minute.
Definition AlphaHTTPMaxSignalGrace := 10 * Second.

(** ** URLs *)

Definition visible (c : ascii) : bool := in_range 33 126 c.

Definition isHexDigit (c : ascii) : bool := is_digit c || in_range 97 102 c || in_range 65 70 c.
Definition query_byte (c : ascii) : bool :=
  in_range 97 122 c || in_range 65 90 c || in_range 48 57 c || bytes_in "-._~!$&'()*+,;=:@/?" c.

Fixpoint validAlphaHTTPRawQuery (value : string) : bool :=
  match value with
  | EmptyString => true
  | String c rest =>
      if query_byte c then validAlphaHTTPRawQuery rest
      else if Ascii.eqb c "%" then
        match rest with
        | String a (String b rest') => isHexDigit a && isHexDigit b && validAlphaHTTPRawQuery rest'
        | _ => false
        end
      else false
  end.

Definition dot_segment (segment : string) : bool := (segment =s ".") || (segment =s "..").

(** [strconv.Atoi]. *)
Definition Atoi (s : string) : option Z := parse_int 64 s.

Definition url_authority (port : Z) : string := "127.0.0.1:" +:+ dec_Z port.

Definition ParseAlphaHTTPURL (value : string) : result string (URL * Z) :=
  fail_if (zlen value =? 0) || (AlphaHTTPMaxURLBytes <? zlen value) with "HTTP URL must contain 1 to 2048 bytes" ;;
  fail_if negb (string_forallb visible value) with "HTTP URL must use visible ASCII with non-ASCII data percent-encoded" ;;
  fail_if string_contains_byte backslash value with "HTTP URL must not contain a backslash" ;;
  let! parsed := of_option "invalid canonical loopback HTTP URL" (Parse value) in
  fail_if (u_Scheme parsed !=s "http") || (Hostname parsed !=s "127.0.0.1")
    || match u_User parsed with Some _ => true | None => false end
    || (u_Fragment parsed !=s "") || (u_RawFragment parsed !=s "") || (u_Opaque parsed !=s "")
    || (Port parsed =s "") || (u_ForceQuery parsed && (u_RawQuery parsed =s "")) with "invalid canonical loopback HTTP URL" ;;
  let! port := of_option "invalid HTTP URL port" (Atoi (Port parsed)) in
  fail_if (port <? 1) || (65535 <? port) with "invalid HTTP URL port" ;;
  fail_if u_Host parsed !=s url_authority port with "HTTP URL authority is not canonical" ;;
  fail_if url_string parsed !=s value with "HTTP URL is not canonically encoded" ;;
  fail_if negb (validAlphaHTTPRawQuery (u_RawQuery parsed)) with "HTTP URL query is not RFC 3986 encoded" ;;
  let canonicalPath := EscapedPath {| u_Scheme := ""; u_Opaque := ""; u_User := None; u_Host := ""; u_Path := u_Path parsed; u_RawPath := "";
    u_OmitHost := false; u_ForceQuery := false; u_RawQuery := ""; u_Fragment := ""; u_RawFragment := "" |} in
  fail_if EscapedPath parsed !=s canonicalPath with "HTTP URL path is not canonically encoded" ;;
  fail_if existsb dot_segment (split_on "/" (u_Path parsed)) with "HTTP URL path must not contain dot segments" ;;
  Ok (parsed, port).

(** ** Durations *)

Definition ParseAlphaHTTPDuration (value : string) (maximum : Z) : result string Z :=
  let message := "HTTP duration is outside the whole-millisecond alpha bounds" in
  let! duration := of_option message (ParseDuration value) in
  fail_if (duration <? AlphaHTTPMinimumDuration) || negb (Z.rem duration Millisecond =? 0)
    || ((0 <? maximum) && (maximum <? duration)) with message ;;
  Ok duration.

(** ** Headers: the map is a list of names and values, in the order [range] visits *)

Definition isPrintableASCII (value : string) : bool := string_forallb (in_range 32 126) value.

(** [strings.EqualFold] with an ASCII text that has no k and no s. *)
Definition equal_fold (a b : string) : bool := to_lower a =s to_lower b.

Fixpoint header_loop (headers : list (string * string)) (aggregateBytes : Z) (hasContentType : bool) : result string (Z * bool) :=
  match headers with
  | [] => Ok (aggregateBytes, hasContentType)
  | (name, value) :: rest =>
      fail_if AlphaHTTPMaxHeaderValueBytes <? zlen value with "HTTP header value exceeds 8192 bytes" ;;
      fail_if negb (isPrintableASCII value) with "HTTP header value must contain only printable ASCII" ;;
      header_loop rest (aggregateBytes + (zlen name + zlen value + 4)) (hasContentType || equal_fold name AlphaHTTPContentTypeName)
  end.

Definition ValidateAlphaHTTPHeaders (headers : list (string * string)) (hasJSON : bool) : result string unit :=
  let! (aggregateBytes, hasContentType) := header_loop headers 0 false in
  let implicit := hasJSON && negb hasContentType in
  let effectiveCount := Z.of_nat (length headers) + (if implicit then 1 else 0) in
  let aggregateBytes :=
    aggregateBytes + (if implicit then zlen AlphaHTTPContentTypeName + zlen AlphaHTTPJSONContentType + 4 else 0) in
  fail_if AlphaHTTPMaxHeaders <? effectiveCount with "effective HTTP header count exceeds 64" ;;
  fail_if AlphaHTTPMaxHeaderAggregateBytes <? aggregateBytes with "effective HTTP headers exceed 65536 aggregate bytes" ;;
  Ok tt.

(** ** Output paths *)

Definition ValidateAlphaHTTPOutputPath (value : string) : result string unit :=
  fail_if negb (utf8_valid value) || (zlen value =? 0) || (AlphaHTTPMaxOutputPathBytes <? zlen value)
    || negb (has_prefix "/" value) || string_contains_byte backslash value || (Clean value !=s value)
    || ((value !=s "/outputs") && negb (has_prefix "/outputs/" value)) with "HTTP output path is not a normalized /outputs path" ;;
  fail_if existsb unicode_control (runes value) with "HTTP output path contains control data" ;;
  Ok tt.

Example url_1 :
  List.map (λ s, match ParseAlphaHTTPURL s with Ok (u, port) => Some (u_Path u, u_RawQuery u, port) | Err _ => None end)
    ["http://127.0.0.1:8080/a%20b?x=%zz"; "http://127.0.0.1:8080/a%20b?x=%20"; "http://127.0.0.1:08080/"; "http://127.0.0.1:80"; "http://127.0.0.1/";
     "http://localhost:80/"; "http://127.0.0.1:80/a/../b"; "http://127.0.0.1:80/%2e%2e/b"; "http://127.0.0.1:80/?"; "HTTP://127.0.0.1:80/"; "http://127.0.0.1:65536/"; "http://127.0.0.1:80/%00"; "http://127.0.0.1:80/%41"]
  = [None; Some ("/a b", "x=%20", 8080); None; Some ("", "", 80); None; None; None; None; None; None; None; Some (String "/" (String (byte_of 0) ""), "", 80); None].
Proof. vm_compute. reflexivity. Qed.

(** ** Which URLs are accepted *)

Definition canonical_url_text (port : Z) (path query : string) : string :=
  "http://" +:+ url_authority port +:+ escape path encodePath +:+ (if query =s "" then "" else String "?" query).
Definition canonical_url (port : Z) (path query : string) : URL :=
  {| u_Scheme := "http"; u_Opaque := ""; u_User := None; u_Host := url_authority port; u_Path := path; u_RawPath := "";
     u_OmitHost := false; u_ForceQuery := false; u_RawQuery := query; u_Fragment := ""; u_RawFragment := "" |}.

Definition rooted_or_empty (path : string) : bool := (path =s "") || has_prefix "/" path.

Lemma set_path_rooted rest path raw :
  rooted_or_empty rest = true → set_path rest = Some (path, raw) → rooted_or_empty path = true.
Proof.
  unfold set_path, rooted_or_empty. intros Hr H. destruct (unescape rest encodePath) as [p|] eqn:E; [|done].
  cbn [mbind option_bind] in H. injection H as <- _.
  destruct (unescape_first rest p E) as [[-> ->]|(Hne & Hp & Himp)]; [done|].
  rewrite (proj2 (String.eqb_neq _ _) Hne) in Hr. rewrite Himp by done. apply orb_true_r.
Qed.

Lemma split_authority_rooted rest a p : split_authority rest = (a, p) → rooted_or_empty p = true.
Proof. unfold split_authority. destruct (cut "/" rest) as [[a' p']|]; by intros [= <- <-]. Qed.

Lemma parse_rooted value u : Parse value = Some u → u_Host u ≠ "" → rooted_or_empty (u_Path u) = true.
Proof.
  assert (∀ scheme text u, parse_after_scheme scheme text = Some u → u_Host u ≠ "" → rooted_or_empty (u_Path u) = true) as Hafter.
  { clear. intros scheme text u. unfold parse_after_scheme. destruct (split_query text) as [[rest force] query].
    destruct (negb (has_prefix "/" rest) && (scheme !=s "")); [by intros [= <-]|].
    destruct (negb (has_prefix "/" rest) && _); [done|]. destruct (_ && has_prefix "//" rest).
    2: destruct (set_path rest) as [[p raw]|]; [by intros [= <-]|done].
    destruct (split_authority (drop_string 2 rest)) as [authority p] eqn:Ea.
    destruct (parseAuthority scheme authority) as [[user host]|]; [|done].
    cbn [mbind option_bind]. destruct (set_path p) as [[path raw]|] eqn:Ep; [|done].
    intros [= <-] _. cbn [u_Path]. eapply set_path_rooted; [by eapply split_authority_rooted|exact Ep]. }
  assert (∀ text u, parse_without_fragment text = Some u → u_Host u ≠ "" → rooted_or_empty (u_Path u) = true) as Hmain.
  { intros text u0. unfold parse_without_fragment. destruct (negb _); [done|].
    destruct (text =s "*"); [by intros [= <-]|].
    destruct (getScheme true "" text) as [| |s r]; [apply Hafter|done|apply Hafter]. }
  unfold Parse. destruct (cut "#" value) as [[text frag]|]; [|apply Hmain].
  destruct (parse_without_fragment text) as [u0|] eqn:E; [|done]. cbn [mbind option_bind].
  destruct (frag =s ""); [intros [= <-]; by apply (Hmain text)|].
  destruct (set_fragment frag) as [[f raw]|]; [|done]. cbn [mbind option_bind].
  intros [= <-]. cbn [u_Host u_Path with_fragment]. by apply (Hmain text).
Qed.

(** *** Parsing a canonical URL *)

Definition plain_url_byte (c : ascii) : bool :=
  visible c && negb (Ascii.eqb c backslash) && negb (Ascii.eqb c "#").

Lemma query_plain q : validAlphaHTTPRawQuery q = true → string_forallb plain_url_byte q = true.
Proof.
  remember (slen q) as n eqn:Hn. assert (slen q <= n)%nat as Hle by lia. clear Hn. revert q Hle.
  induction n as [|n IH]; intros q Hle; [destruct q; [done|simpl in Hle; lia]|].
  destruct q as [|c q]; [done|]. simpl in Hle.
  cbn [validAlphaHTTPRawQuery string_forallb]. destruct (query_byte c) eqn:E.
  - intros H. rewrite IH by (done || lia). rewrite andb_true_r. revert E. apply all_bytes. by vm_compute.
  - destruct (Ascii.eqb_spec c "%") as [->|]; [|done]. destruct q as [|a [|b q]]; [done|done|].
    intros [[Ha Hb]%andb_prop H]%andb_prop. cbn [string_forallb]. simpl in Hle. rewrite IH by (done || lia).
    assert (∀ x, isHexDigit x = true → plain_url_byte x = true) as Hx by (apply all_bytes; by vm_compute).
    by rewrite (Hx a), (Hx b).
Qed.

Lemma escape_path_plain path : string_forallb plain_url_byte (escape path encodePath) = true.
Proof. apply escape_path_class; by vm_compute. Qed.

Lemma dec_digits_plain z : 0 <= z → string_forallb is_digit (dec_Z z) = true.
Proof. intros Hz. rewrite dec_Z_nonneg by done. apply dec_N_digits. Qed.

Lemma digit_plain c : is_digit c = true → plain_url_byte c = true.
Proof. apply all_bytes. by vm_compute. Qed.

Lemma canonical_text_plain port path query :
  0 <= port → validAlphaHTTPRawQuery query = true → string_forallb plain_url_byte (canonical_url_text port path query) = true.
Proof.
  intros Hp Hq. unfold canonical_url_text, url_authority. rewrite !string_forallb_app, escape_path_plain.
  rewrite (string_forallb_impl _ _ _ digit_plain (dec_digits_plain port Hp)).
  destruct (query =s ""); [done|]. cbn [string_forallb]. by rewrite query_plain.
Qed.

(** A class of bytes leaves a byte out. *)
Lemma class_without (P : ascii → bool) c s : P c = false → string_forallb P s = true → string_contains_byte c s = false.
Proof.
  intros Hc. induction s as [|d s IH]; [done|]. cbn [string_forallb string_contains_byte].
  intros [Hd Hs]%andb_prop. rewrite IH by done. destruct (Ascii.eqb_spec d c); [congruence|done].
Qed.

Lemma digits_without c z : is_digit c = false → 0 <= z → string_contains_byte c (dec_Z z) = false.
Proof. intros Hc Hz. by apply (class_without is_digit), dec_digits_plain. Qed.

Lemma authority_without c port :
  0 <= port → is_digit c = false → string_contains_byte c "127.0.0.1:" = false → string_contains_byte c (url_authority port) = false.
Proof. intros Hp Hd Hc. unfold url_authority. by rewrite contains_byte_app, Hc, digits_without. Qed.

Lemma unescape_host_authority port : 0 <= port → unescape (url_authority port) encodeHost = Some (url_authority port).
Proof.
  intros Hp. unfold url_authority. pose proof (dec_digits_plain port Hp) as Hd.
  assert (∀ s, string_forallb (λ c, is_digit c || bytes_in ".:" c) s = true → unescape s encodeHost = Some s) as H.
  { induction s as [|c s IH]; [done|]. cbn [string_forallb unescape]. intros [Hc Hs]%andb_prop.
    assert (negb (Ascii.eqb c "%") && negb (shouldEscape c encodeHost) = true) as Hx.
    { apply (all_bytes (λ c, is_digit c || bytes_in ".:" c) (λ c, negb (Ascii.eqb c "%") && negb (shouldEscape c encodeHost)));
        [by vm_compute|done]. }
    apply andb_prop in Hx as [H1%negb_true_iff H2%negb_true_iff]. by rewrite H1, H2, andb_false_r, IH. }
  apply H. rewrite string_forallb_app. cbn. eapply string_forallb_impl; [|exact Hd]. intros c ->. done.
Qed.

Lemma parse_authority_canonical port : 0 <= port → parseAuthority "http" (url_authority port) = Some (None, url_authority port).
Proof.
  intros Hp. unfold parseAuthority. rewrite cut_last_none by (by apply authority_without).
  unfold parseHost. change (has_prefix "[" (url_authority port)) with false. cbn iota.
  change (postgres "http") with false. cbn iota.
  change (url_authority port) with ("127.0.0.1" +:+ String ":" (dec_Z port)) at 1. rewrite cut_app by done.
  unfold validOptionalPort, colon_part. cbn [Ascii.eqb Bool.eqb andb]. rewrite dec_digits_plain by done.
  by rewrite unescape_host_authority.
Qed.

Lemma escape_path_without c path :
  forallb (λ d, shouldEscape d encodePath || negb (Ascii.eqb d c)) all_ascii = true → Ascii.eqb "%" c = false →
  forallb (λ n, negb (Ascii.eqb (hex_upper n) c)) (N.of_nat <$> seq 0 16) = true →
  string_contains_byte c (escape path encodePath) = false.
Proof.
  intros H1 H2 H3. apply (class_without (λ d, negb (Ascii.eqb d c))); [by rewrite Ascii.eqb_refl|].
  apply escape_path_class; [done|by rewrite H2|done].
Qed.

Lemma split_query_canonical text query :
  string_contains_byte "?" text = false →
  split_query (text +:+ (if query =s "" then "" else String "?" query)) = (text, false, query).
Proof.
  intros H. unfold split_query. destruct (String.eqb_spec query "") as [->|Hne].
  - by rewrite app_string_nil_r, cut_none.
  - rewrite cut_app by done. by rewrite (proj2 (String.eqb_neq _ _) Hne).
Qed.

Lemma split_authority_canonical port path :
  0 <= port → rooted_or_empty path = true →
  split_authority (url_authority port +:+ escape path encodePath) = (url_authority port, escape path encodePath).
Proof.
  intros Hp Hr. unfold split_authority, rooted_or_empty in *.
  destruct (String.eqb_spec path "") as [->|Hne].
  - rewrite app_string_nil_r, cut_none by (by apply authority_without). done.
  - cbn [orb] in Hr. apply has_prefix_app in Hr as [r ->]. rewrite app_string_cons, app_string_nil_l.
    cbn [escape]. change (escape_url_byte encodePath "/") with "/". rewrite app_string_cons, app_string_nil_l.
    rewrite cut_app by (by apply authority_without). done.
Qed.

Lemma parse_canonical port path query :
  0 <= port → rooted_or_empty path = true → validAlphaHTTPRawQuery query = true →
  Parse (canonical_url_text port path query) = Some (canonical_url port path query).
Proof.
  intros Hp Hr Hq. pose proof (canonical_text_plain port path query Hp Hq) as Hplain.
  unfold Parse. rewrite cut_none by (by apply (class_without plain_url_byte)).
  unfold parse_without_fragment.
  assert (string_forallb (λ c, negb (control_byte c)) (canonical_url_text port path query) = true) as ->.
  { eapply string_forallb_impl; [|exact Hplain]. apply all_bytes. by vm_compute. }
  change (canonical_url_text port path query =s "*") with false. cbn [negb].
  change (getScheme true "" (canonical_url_text port path query)) with
    (Scheme "http" ("//" +:+ url_authority port +:+ escape path encodePath +:+ (if query =s "" then "" else String "?" query))).
  cbn iota. change (to_lower "http") with "http". unfold parse_after_scheme.
  rewrite <- (app_string_assoc (url_authority port)), <- (app_string_assoc "//"), split_query_canonical.
  2: { rewrite !contains_byte_app, authority_without by done. by rewrite escape_path_without by (by vm_compute). }
  change (has_prefix "/" ("//" +:+ url_authority port +:+ escape path encodePath)) with true.
  change (has_prefix "//" ("//" +:+ url_authority port +:+ escape path encodePath)) with true.
  change (drop_string 2 ("//" +:+ url_authority port +:+ escape path encodePath)) with (url_authority port +:+ escape path encodePath).
  cbn [negb andb orb String.eqb]. rewrite split_authority_canonical by done.
  rewrite parse_authority_canonical by done. cbn [mbind option_bind].
  unfold set_path. rewrite unescape_escape_path. cbn [mbind option_bind]. by rewrite string_eqb_refl.
Qed.

(** *** The text of an accepted URL *)

Lemma escape_host_authority port : 0 <= port → escape (url_authority port) encodeHost = url_authority port.
Proof.
  intros Hp. pose proof (dec_digits_plain port Hp) as Hd.
  assert (∀ s, string_forallb (λ c, is_digit c || bytes_in ".:" c) s = true → escape s encodeHost = s) as H.
  { induction s as [|c s IH]; [done|]. cbn [string_forallb escape]. intros [Hc Hs]%andb_prop.
    assert (negb (shouldEscape c encodeHost) = true) as Hx%negb_true_iff.
    { apply (all_bytes (λ c, is_digit c || bytes_in ".:" c) (λ c, negb (shouldEscape c encodeHost))); [by vm_compute|done]. }
    unfold escape_url_byte. rewrite Hx, app_string_cons, app_string_nil_l, IH by done. done. }
  apply H. unfold url_authority. rewrite string_forallb_app. cbn. eapply string_forallb_impl; [|exact Hd]. intros c ->. done.
Qed.

Lemma canonical_string u port :
  0 <= port → u_Scheme u = "http" → u_Opaque u = "" → u_Host u = url_authority port → rooted_or_empty (u_Path u) = true →
  (u_ForceQuery u && (u_RawQuery u =s "")) = false → EscapedPath u = escape (u_Path u) encodePath →
  url_string u = canonical_url_text port (u_Path u) (u_RawQuery u).
Proof.
  intros Hp Hs Ho Hh Hr Hf He. unfold url_string, canonical_url_text. rewrite Hs, Ho, Hh, He.
  change (url_authority port =s "") with false. rewrite andb_false_r. cbn [negb orb]. change ("" =s "") with true. cbn [negb].
  rewrite escape_host_authority by done.
  assert ((escape (u_Path u) encodePath !=s "") && negb (has_prefix "/" (escape (u_Path u) encodePath)) && true = false) as ->.
  { rewrite escape_path_first, andb_true_r. unfold rooted_or_empty in Hr. apply orb_prop in Hr as [E%String.eqb_eq|E]; [by rewrite E|].
    rewrite E. apply andb_false_r. }
  assert ((u_ForceQuery u || (u_RawQuery u !=s "")) = negb (u_RawQuery u =s "")) as ->.
  { destruct (u_ForceQuery u), (u_RawQuery u =s ""); done. }
  rewrite app_string_nil_l, !app_string_assoc. by destruct (u_RawQuery u =s "").
Qed.

Lemma split_host_port_authority port : 0 <= port → splitHostPort (url_authority port) = ("127.0.0.1", dec_Z port).
Proof.
  intros Hp. unfold splitHostPort.
  change (url_authority port) with ("127.0.0.1" +:+ String ":" (dec_Z port)) at 1.
  rewrite cut_last_app by (by apply digits_without). unfold validOptionalPort, colon_part.
  cbn [Ascii.eqb Bool.eqb andb]. by rewrite dec_digits_plain.
Qed.

Lemma dec_Z_not_empty z : 0 <= z → (dec_Z z =s "") = false.
Proof. intros Hz. rewrite dec_Z_nonneg by done. by destruct (dec_N_start (Z.to_N z)) as (c & s & -> & _). Qed.

(** The URLs of the contract, by their parts. *)
Definition contract_url (value : string) (u : URL) (port : Z) : Prop :=
  ∃ path query, value = canonical_url_text port path query ∧ u = canonical_url port path query
    ∧ 1 <= port <= 65535 ∧ zlen value <= AlphaHTTPMaxURLBytes
    ∧ rooted_or_empty path = true ∧ Forall (λ segment, segment ≠ "." ∧ segment ≠ "..") (split_on "/" path)
    ∧ validAlphaHTTPRawQuery query = true.

Lemma dot_segments_none parts : existsb dot_segment parts = false ↔ Forall (λ segment, segment ≠ "." ∧ segment ≠ "..") parts.
Proof.
  induction parts as [|p parts IH]; [by split|]. cbn [existsb]. rewrite orb_false_iff, Forall_cons, IH.
  unfold dot_segment. rewrite orb_false_iff, !String.eqb_neq. tauto.
Qed.

Lemma plain_path_escaped path rest :
  rooted_or_empty path = true → u_Path rest = path → u_RawPath rest = "" → EscapedPath rest = escape path encodePath.
Proof.
  intros Hr Hp Hraw. unfold EscapedPath. rewrite Hraw, Hp. cbn [negb String.eqb andb].
  destruct (String.eqb_spec path "*") as [->|]; [done|done].
Qed.

Lemma contract_url_accepted value u port : contract_url value u port → ParseAlphaHTTPURL value = Ok (u, port).
Proof.
  intros (path & query & -> & -> & Hport & Hlen & Hr & Hdots & Hq). unfold ParseAlphaHTTPURL.
  assert ((zlen (canonical_url_text port path query) =? 0) = false) as -> by reflexivity.
  rewrite (proj2 (Z.ltb_ge AlphaHTTPMaxURLBytes (zlen (canonical_url_text port path query))) Hlen). cbn [orb].
  pose proof (canonical_text_plain port path query ltac:(lia) Hq) as Hplain.
  assert (string_forallb visible (canonical_url_text port path query) = true) as ->.
  { eapply string_forallb_impl; [|exact Hplain]. apply all_bytes. by vm_compute. }
  rewrite (class_without plain_url_byte backslash) by done. cbn [negb].
  rewrite parse_canonical by (done || lia). cbn [of_option bind_result].
  unfold Hostname, Port. cbn [u_Scheme u_Host u_User u_Fragment u_RawFragment u_Opaque u_ForceQuery u_RawQuery u_Path canonical_url].
  rewrite split_host_port_authority by lia. cbn [fst snd]. rewrite dec_Z_not_empty by lia.
  cbn [negb orb andb String.eqb Ascii.eqb Bool.eqb].
  unfold Atoi. rewrite parse_int_dec_Z by (unfold is_int64, int_min, int_max; apply andb_true_intro; rewrite !Z.leb_le; lia).
  cbn [of_option bind_result]. rewrite (proj2 (Z.ltb_ge port 1)), (proj2 (Z.ltb_ge 65535 port)) by lia. cbn [orb].
  rewrite string_eqb_refl. cbn [negb].
  rewrite (canonical_string (canonical_url port path query) port); [|lia|done..|by apply plain_path_escaped].
  rewrite string_eqb_refl, Hq. cbn [negb].
  rewrite !(plain_path_escaped path) by done. rewrite string_eqb_refl. cbn [negb].
  by rewrite (proj2 (dot_segments_none _) Hdots).
Qed.

Lemma accepted_contract_url value u port : ParseAlphaHTTPURL value = Ok (u, port) → contract_url value u port.
Proof.
  unfold ParseAlphaHTTPURL. intros H.
  destruct ((zlen value =? 0) || (AlphaHTTPMaxURLBytes <? zlen value)) eqn:Elen; [done|].
  destruct (negb (string_forallb visible value)); [done|]. destruct (string_contains_byte backslash value); [done|].
  destruct (Parse value) as [parsed|] eqn:Eparse; [|done]. cbn [of_option bind_result] in H.
  destruct (_ || (u_ForceQuery parsed && (u_RawQuery parsed =s ""))) eqn:Etests; [done|].
  apply orb_false_elim in Etests as [Etests Eforce]. repeat (apply orb_false_elim in Etests as [Etests ?]).
  destruct (Atoi (Port parsed)) as [p|] eqn:Eport; [|done]. cbn [of_option bind_result] in H.
  destruct ((p <? 1) || (65535 <? p)) eqn:Erange; [done|]. to_prop.
  destruct (String.eqb_spec (u_Host parsed) (url_authority p)) as [Ehost|]; [|done]. cbn [negb] in H.
  destruct (String.eqb_spec (url_string parsed) value) as [Estring|]; [|done]. cbn [negb] in H.
  destruct (validAlphaHTTPRawQuery (u_RawQuery parsed)) eqn:Equery; [|done]. cbn [negb] in H.
  assert (rooted_or_empty (u_Path parsed) = true) as Hr by (by apply (parse_rooted value); [|rewrite Ehost]).
  destruct (String.eqb (EscapedPath parsed) _) eqn:Epath; [|done]. cbn [negb] in H.
  apply String.eqb_eq in Epath. rewrite (plain_path_escaped (u_Path parsed) {| u_Path := _ |}) in Epath by done.
  destruct (existsb dot_segment (split_on "/" (u_Path parsed))) eqn:Edots; [done|]. apply dot_segments_none in Edots.
  injection H as <- <-.
  assert (value = canonical_url_text p (u_Path parsed) (u_RawQuery parsed)) as Hvalue.
  { rewrite <- Estring at 1. apply canonical_string; try done; lia. }
  exists (u_Path parsed), (u_RawQuery parsed). split_and!; [done| |lia|lia|lia|done|done|done].
  pose proof (parse_canonical p (u_Path parsed) (u_RawQuery parsed) ltac:(lia) Hr Equery) as Hc.
  rewrite <- Hvalue, Eparse in Hc. by injection Hc.
Qed.

(** C25: The HTTP URLs of a journey are exactly the loopback URLs with an explicit
    decimal port from 1 to 65535, a path in its one canonical encoding without
    dot segments (after decoding), a valid query and at most 2048 bytes; the
    parsed URL is determined by these parts, so that no two spellings of a URL
    are accepted and none reaches another host. *)
Theorem http_url_exact value u port : ParseAlphaHTTPURL value = Ok (u, port) ↔ contract_url value u port.
Proof. split; [apply accepted_contract_url|apply contract_url_accepted]. Qed.

(** ** Durations and headers *)

Lemma http_duration_exact value maximum duration :
  ParseAlphaHTTPDuration value maximum = Ok duration ↔
  ParseDuration value = Some duration ∧ Millisecond <= duration ∧ duration mod Millisecond = 0
  ∧ (0 < maximum → duration <= maximum).
Proof.
  unfold ParseAlphaHTTPDuration, AlphaHTTPMinimumDuration. change Millisecond with 1000000.
  destruct (ParseDuration value) as [d|]; cbn [of_option bind_result]; [|naive_solver].
  destruct (Z.ltb_spec d 1000000) as [Hlt|Hge]; cbn [orb]; [split; [done|intros (? & ? & _); simplify_eq; lia]|].
  rewrite (Z.rem_mod_nonneg d 1000000) by lia.
  destruct (Z.eqb_spec (d mod 1000000) 0) as [E|E]; cbn [negb orb]; [|naive_solver].
  destruct (Z.ltb_spec 0 maximum), (Z.ltb_spec maximum d); cbn [andb];
    (split; [intros; simplify_eq; split_and!; try done; lia|intros (? & _ & _ & Hm); simplify_eq; try done]).
  exfalso. specialize (Hm ltac:(done)). lia.
Qed.

(** What one header adds, and when it is acceptable. *)
Definition header_bytes (h : string * string) : Z := zlen h.1 + zlen h.2 + 4.
Definition header_ok (h : string * string) : bool := (zlen h.2 <=? AlphaHTTPMaxHeaderValueBytes) && isPrintableASCII h.2.
Definition names_content_type (h : string * string) : bool := equal_fold h.1 AlphaHTTPContentTypeName.
Definition headers_bytes (headers : list (string * string)) : Z := foldr (λ h n, header_bytes h + n) 0 headers.

Lemma header_loop_exact headers n b :
  header_loop headers n b = Ok (n + headers_bytes headers, b || existsb names_content_type headers)
  ↔ forallb header_ok headers = true.
Proof.
  revert n b. induction headers as [|[name value] headers IH]; intros n b.
  - cbn. rewrite Z.add_0_r, orb_false_r. done.
  - cbn [header_loop forallb existsb headers_bytes foldr]. unfold header_ok at 1. cbn [fst snd].
    rewrite (Z.leb_antisym AlphaHTTPMaxHeaderValueBytes).
    destruct (AlphaHTTPMaxHeaderValueBytes <? zlen value); cbn [negb andb]; [by split|].
    destruct (isPrintableASCII value); cbn [negb andb]; [|by split].
    rewrite <- (IH (n + (zlen name + zlen value + 4)) (b || equal_fold name AlphaHTTPContentTypeName)).
    change (foldr _ 0 headers) with (headers_bytes headers). change (names_content_type (name, value)) with (equal_fold name AlphaHTTPContentTypeName).
    assert (n + (header_bytes (name, value) + headers_bytes headers) = n + (zlen name + zlen value + 4) + headers_bytes headers) as ->
      by (unfold header_bytes; cbn [fst snd]; lia).
    by rewrite orb_assoc.
Qed.

Lemma header_loop_fails headers n b : forallb header_ok headers = false → ∃ e, header_loop headers n b = Err e.
Proof.
  revert n b. induction headers as [|[name value] headers IH]; intros n b; [done|].
  cbn [header_loop forallb]. unfold header_ok at 1. cbn [fst snd]. rewrite (Z.leb_antisym AlphaHTTPMaxHeaderValueBytes).
  destruct (AlphaHTTPMaxHeaderValueBytes <? zlen value); cbn [negb andb]; [by eexists|].
  destruct (isPrintableASCII value); cbn [negb andb]; [|by eexists]. apply IH.
Qed.

(** The limits of a header set, which do not depend on the order in which a map
    is visited. *)
Definition headers_within_limits (headers : list (string * string)) (hasJSON : bool) : Prop :=
  let implicit := hasJSON && negb (existsb names_content_type headers) in
  Forall (λ h, header_ok h = true) headers
  ∧ Z.of_nat (length headers) + (if implicit then 1 else 0) <= AlphaHTTPMaxHeaders
  ∧ headers_bytes headers + (if implicit then 32 else 0) <= AlphaHTTPMaxHeaderAggregateBytes.

Lemma headers_exact headers hasJSON :
  ValidateAlphaHTTPHeaders headers hasJSON = Ok tt ↔ headers_within_limits headers hasJSON.
Proof.
  unfold ValidateAlphaHTTPHeaders, headers_within_limits. destruct (forallb header_ok headers) eqn:E.
  - pose proof (proj2 (header_loop_exact headers 0 false) E) as ->. cbn [bind_result orb].
    rewrite (Z.add_0_l (headers_bytes headers)).
    change (zlen AlphaHTTPContentTypeName + zlen AlphaHTTPJSONContentType + 4) with 32.
    set (implicit := hasJSON && negb (existsb names_content_type headers)).
    rewrite forallb_forall in E.
    assert (Forall (λ h, header_ok h = true) headers) as Hall by (apply Forall_forall; intros x Hx; by apply E, list_elem_of_In).
    destruct (Z.ltb_spec AlphaHTTPMaxHeaders (Z.of_nat (length headers) + (if implicit then 1 else 0)));
      [split; [done|intros (_ & ? & _); lia]|].
    destruct (Z.ltb_spec AlphaHTTPMaxHeaderAggregateBytes (headers_bytes headers + (if implicit then 32 else 0)));
      [split; [done|intros (_ & _ & ?); lia]|]. done.
  - destruct (header_loop_fails headers 0 false E) as [e ->]. cbn [bind_result]. split; [done|]. intros (Hall & _).
    exfalso. apply not_true_iff_false in E. apply E, forallb_forall. intros x Hx.
    rewrite Forall_forall in Hall. by apply Hall, list_elem_of_In.
Qed.

#[export] Instance headers_bytes_perm : Proper (Permutation ==> eq) headers_bytes.
Proof. intros l l' H. induction H; simpl; lia. Qed.
#[export] Instance existsb_perm {A} (f : A → bool) : Proper (Permutation ==> eq) (existsb f).
Proof. intros l l' H. induction H as [| | |l1 l2 l3 _ IH1 _ IH2]; simpl; [done|congruence|by rewrite !orb_assoc, (orb_comm (f y))|by rewrite IH1, IH2]. Qed.

Lemma headers_order headers headers' hasJSON :
  headers ≡ₚ headers' → ValidateAlphaHTTPHeaders headers hasJSON = Ok tt ↔ ValidateAlphaHTTPHeaders headers' hasJSON = Ok tt.
Proof.
  intros H. rewrite !headers_exact. unfold headers_within_limits.
  rewrite (existsb_perm names_content_type _ _ H), (headers_bytes_perm _ _ H), (Permutation_length H).
  assert (Forall (λ h, header_ok h = true) headers ↔ Forall (λ h, header_ok h = true) headers') as Hall.
  { split; apply Forall_Permutation; [done|done|done|by symmetry]. }
  cbv zeta. rewrite Hall. reflexivity.
Qed.

(** ** Output paths *)

Lemma output_path_confined value :
  ValidateAlphaHTTPOutputPath value = Ok tt →
  ∃ names, value = "/" +:+ join_with "/" ("outputs" :: names) ∧ Forall plain_name names
    ∧ Forall (λ part, no_sep "/" part = true) names ∧ zlen value <= AlphaHTTPMaxOutputPathBytes.
Proof.
  unfold ValidateAlphaHTTPOutputPath. destruct (_ || _) eqn:E; [done|]. destruct (existsb unicode_control (runes value)); [done|]. intros _.
  apply orb_false_elim in E as [E Hout]. apply orb_false_elim in E as [E Hclean]. apply orb_false_elim in E as [E _].
  apply orb_false_elim in E as [E Hroot]. apply orb_false_elim in E as [_ Hlen]. to_prop.
  destruct (clean_below "outputs" value) as (names & Hv & Hp & Hs); [done|done|done| |by exists names].
  apply andb_false_iff in Hout as [H|H]; to_prop; [by left|by right].
Qed.
