(* ===== verification/PlanTypes.v ===== *)
(** * Capabilities, sources and plans (internal/domain/types.go)

    The types that manifests declare and plans carry.  An optional value (a
    pointer in Go) is an [option]; a map is an association list. *)

From S2P Require Import Prelude Json SemanticEqual GoValue Domain.

Local Open Scope Z_scope.

Definition PhasePrepare := "prepare".
Definition PhaseSetup := "setup".
Definition PhaseBuild := "build".
Definition PhaseRun := "run".
Definition PhaseExercise := "exercise".
Definition OrderedPhases : list string := [PhasePrepare; PhaseSetup; PhaseBuild; PhaseRun; PhaseExercise; PhaseCleanup].

Definition CodeSourceNotFound := "SOURCE_NOT_FOUND".
Definition CodeSourcePathTraversal := "SOURCE_PATH_TRAVERSAL".
Definition CodeSourceSymlinkEscape := "SOURCE_SYMLINK_ESCAPE".
Definition CodeSourceTooLarge := "SOURCE_TOO_LARGE".
Definition CodeManifestInvalid := "MANIFEST_INVALID".
Definition CodeManifestLiteralSecret := "MANIFEST_LITERAL_SECRET".
Definition CodeManifestUnsafeShell := "MANIFEST_UNSAFE_SHELL".
Definition CodePlanUnresolved := "PLAN_UNRESOLVED".
Definition CodePlanDrift := "PLAN_DRIFT".
Definition CodePolicyBundleUnresolved := "POLICY_BUNDLE_UNRESOLVED".

(** ** The source snapshot *)

Record FileEntry := { fe_Path : string; fe_Mode : string; fe_Size : Z; fe_Digest : string }.

Record SourceSnapshot := {
  ss_Identity : string; ss_Commit : string; ss_TreeDigest : string; ss_Root : string; ss_Inventory : list FileEntry;
  ss_TotalSize : Z; ss_FileCount : Z }.

(** ** Capabilities *)

Record NetworkDestination := { nd_Host : string; nd_Port : Z; nd_Protocol : string }.
Record NetworkCapability := { nc_Deny : bool; nc_Allow : slice NetworkDestination }.
Record FilesystemCapability := {
  fc_Read : slice string; fc_Write : slice string; fc_Create : slice string; fc_Delete : slice string; fc_Rename : slice string;
  fc_Chmod : slice string; fc_Symlink : slice string }.
Record PortBinding := { pb_Host : string; pb_Port : Z; pb_Protocol : string }.
Record PortCapability := { pc_Listen : slice PortBinding }.
Record ProcessCapability := {
  pr_Exec : slice string; pr_Background : bool; pr_ChildProcesses : option bool; pr_Shell : option bool;
  pr_BackgroundProcesses : option bool }.
Record EnvironmentCapability := { ec_Read : slice string; ec_Write : slice string; ec_Locale : string; ec_Timezone : string }.
Record DeclaredResourceLimits := {
  dr_CPU : any; dr_Memory : string; dr_Disk : string; dr_PIDs : Z; dr_Time : string; dr_LogBytes : option Z }.
Record CapabilitySet := {
  cs_Network : NetworkCapability; cs_Filesystem : FilesystemCapability; cs_Ports : PortCapability; cs_Process : ProcessCapability;
  cs_Environment : option EnvironmentCapability; cs_Secrets : slice string; cs_Resources : option DeclaredResourceLimits;
  cs_Devices : option bool; cs_HostIntegration : option bool }.

(** The zero value: what a lookup of an absent phase gives. *)
Definition zero_capabilities : CapabilitySet :=
  {| cs_Network := {| nc_Deny := false; nc_Allow := None |};
     cs_Filesystem := {| fc_Read := None; fc_Write := None; fc_Create := None; fc_Delete := None; fc_Rename := None; fc_Chmod := None; fc_Symlink := None |};
     cs_Ports := {| pc_Listen := None |};
     cs_Process := {| pr_Exec := None; pr_Background := false; pr_ChildProcesses := None; pr_Shell := None; pr_BackgroundProcesses := None |};
     cs_Environment := None; cs_Secrets := None; cs_Resources := None; cs_Devices := None; cs_HostIntegration := None |}.

(** ** Plans *)

Record PlanSignal := { psg_Target : string; psg_Type : string; psg_GracePeriod : string }.
Record PlanHTTPReadiness := { prd_URL : string; prd_Status : Z; prd_Timeout : string }.
Record PlanCommand := {
  pcm_Phase : string; pcm_ID : string; pcm_Argv : slice string; pcm_Signal : option PlanSignal;
  pcm_Readiness : option PlanHTTPReadiness; pcm_Timeout : string; pcm_Role : string }.
Record PlanHTTPRequest := {
  prq_ID : string; prq_Method : string; prq_URL : string; prq_Headers : list (string * string); prq_Body : option string;
  prq_JSON : option string; prq_Timeout : string }.
Record PlanHTTPDriverStep := { pds_Request : option PlanHTTPRequest; pds_AssertionID : string }.
Record PlanHTTPJourney := { phj_ServiceID : string; phj_Steps : list PlanHTTPDriverStep }.
Record PlanHTTPHeaderAssertion := { pha_Name : string; pha_Contains : string }.
Record PlanJSONPathAssertion := { pja_Path : string; pja_Equals : string }.
Record PlanJSONSchemaRef := { pjs_Path : string; pjs_Digest : string; pjs_Dialect : string; pjs_ValidatorVersion : string }.
Record PlanHTTPResponseAssertion := {
  pra_RequestID : string; pra_Status : option Z; pra_Header : option PlanHTTPHeaderAssertion; pra_BodyContains : option string;
  pra_JSONPath : option PlanJSONPathAssertion; pra_JSONSchema : option PlanJSONSchemaRef }.
Record PlanJSONFileAssertion := { pjf_Path : string; pjf_Schema : PlanJSONSchemaRef }.
Record PlanAssertion := {
  pa_ID : string; pa_ExitCode : option Z; pa_StdoutContains : string; pa_StderrContains : string; pa_StdoutRegex : string;
  pa_StdoutJSONSchema : option PlanJSONSchemaRef; pa_FileExists : string; pa_Response : option PlanHTTPResponseAssertion;
  pa_JSONFile : option PlanJSONFileAssertion }.
Record PlanCleanup := { pcl_ClassifierVersion : string; pcl_AllowedResidue : list string }.
Record ResourceLimits := { rl_CPUMillis : Z; rl_MemoryBytes : Z; rl_DiskBytes : Z; rl_PIDs : Z }.
Record PlanInput := { pin_Name : string; pin_Type : string; pin_Fixture : string; pin_MountPath : string; pin_ReadOnly : bool }.

(** The complete plan; [Domain.ResolvedPlan] has the fields a verification
    result is built from. *)
Record FullPlan := {
  fp_SchemaVersion : string; fp_Source : PlanSource; fp_ManifestDigest : string; fp_Scenario : string; fp_Environment : string;
  fp_RuntimeAdapter : string; fp_RuntimeVersion : string; fp_BaseImageReference : string; fp_BaseImageDigest : string;
  fp_Resources : ResourceLimits; fp_Inputs : list PlanInput; fp_AdapterVersions : list (string * string);
  fp_ObserverVersions : list (string * string); fp_JourneyDriver : string; fp_JourneyDriverVersion : string;
  fp_Commands : list PlanCommand; fp_JourneyAssertions : list PlanAssertion; fp_HTTPJourney : option PlanHTTPJourney;
  fp_Cleanup : PlanCleanup; fp_Evidence : PlanEvidence; fp_Capabilities : list (string * CapabilitySet);
  fp_RequiredRunnerFeatures : list string; fp_ObserverSet : list string; fp_RepeatCount : Z; fp_SuccessThreshold : Z;
  fp_PolicyBundleDigest : string; fp_PlanDigest : string }.
