(* ===== verification/Manifest.v ===== *)
(** * The manifest (internal/manifest/types.go)

    The declared project, environments and scenarios, as they are after the YAML
    decoder (gopkg.in/yaml.v3) has filled them.  Where the code compares a slice or
    a map with [nil], it is a [slice] here, [None] for [nil]. *)

From S2P Require Import Prelude Json SemanticEqual GoValue Domain PlanTypes.

Local Open Scope Z_scope.

Definition APIVersion := "repopass.dev/v1alpha1".
Definition Kind := "RepositoryPassport".

(** ** Steps and phases *)

Record ObserverRequirement := { obr_Observer : string; obr_MinimumCoverage : string }.
Record ShellCommand := { sh_Executable : string; sh_Command : string }.
Record EnvironmentReference := { er_Source : string; er_Name : string }.
Record RunAction := {
  ra_Command : list string; ra_Shell : option ShellCommand; ra_WorkingDirectory : string;
  ra_Environment : slice (string * EnvironmentReference); ra_Timeout : string; ra_AllowedExitCodes : slice Z; ra_OutputMode : string }.
Record SignalAction := { sa_Target : string; sa_Type : string; sa_GracePeriod : string }.
Record PhaseStep := { st_ID : string; st_Run : option RunAction; st_Signal : option SignalAction }.

Record HTTPReadiness := { hr_URL : string; hr_Status : Z; hr_Timeout : string }.
Record ReadinessSpec := { rd_HTTP : option HTTPReadiness }.
Record ServiceSpec := {
  sv_ID : string; sv_Command : list string; sv_Shell : option ShellCommand; sv_WorkingDirectory : string;
  sv_Environment : slice (string * EnvironmentReference); sv_Readiness : ReadinessSpec }.

Record HeaderAssertion := { ha_Name : string; ha_Contains : string }.
Record JSONPathAssertion := { jp_Path : string; jp_Equals : any }.
Record ResponseAssertion := {
  rs_RequestID : string; rs_Status : Z; rs_Header : option HeaderAssertion; rs_BodyContains : option string;
  rs_JSONPath : option JSONPathAssertion; rs_JSONSchema : string }.
Record JSONFileAssertion := { jf_Path : string; jf_Schema : string }.
Record DriverAssertion := {
  da_ID : string; da_Required : option bool; da_ExitCode : option Z; da_StdoutContains : option string;
  da_StderrContains : option string; da_StdoutRegex : option string; da_StdoutJSONSchema : string; da_StderrRegex : option string;
  da_FileExists : string; da_Response : option ResponseAssertion; da_JSONFile : option JSONFileAssertion }.

(** [bodyPresent] and [jsonPresent] are set by [UnmarshalYAML]. *)
Record HTTPRequest := {
  rq_ID : string; rq_Method : string; rq_URL : string; rq_Headers : list (string * string); rq_JSON : any; rq_Body : string;
  rq_Timeout : string; rq_bodyPresent : bool; rq_jsonPresent : bool }.
Definition is_nil (v : any) : bool := match v with VNil => true | _ => false end.
Definition HasBody (request : HTTPRequest) : bool := rq_bodyPresent request || (rq_Body request !=s "").
Definition HasJSON (request : HTTPRequest) : bool := rq_jsonPresent request || negb (is_nil (rq_JSON request)).

Record DriverStep := { ds_Request : option HTTPRequest; ds_Assert : option DriverAssertion }.
Record DriverSpec := {
  dv_Type : string; dv_Command : list string; dv_StdinFixture : string; dv_Timeout : string; dv_Assertions : list DriverAssertion;
  dv_Steps : list DriverStep }.

Record CommandPhase := {
  cp_Timeout : string; cp_Steps : list PhaseStep; cp_ObserverRequirements : slice ObserverRequirement; cp_Outputs : slice string }.
Record RunPhase := {
  rn_Timeout : string; rn_Steps : list PhaseStep; rn_Service : option ServiceSpec; rn_ObserverRequirements : slice ObserverRequirement;
  rn_Outputs : slice string }.
Record ExercisePhase := {
  ex_Timeout : string; ex_Driver : DriverSpec; ex_ObserverRequirements : slice ObserverRequirement; ex_Outputs : slice string }.
Record PhaseSet := {
  ph_Prepare : option CommandPhase; ph_Setup : option CommandPhase; ph_Build : option CommandPhase; ph_Run : option RunPhase;
  ph_Exercise : option ExercisePhase; ph_Cleanup : option CommandPhase }.

(** ** Scenarios, environments and the document *)

Record MountSpec := { mt_Path : string; mt_ReadOnly : bool }.
Record InputSpec := { in_Type : string; in_Required : bool; in_Fixture : string; in_Mount : MountSpec; in_Choices : slice any }.
Record SecretScope := { sc_Phases : list string }.
Record SecretExpose := { se_Env : string }.
Record SecretSpec := { sec_Source : string; sec_Scope : SecretScope; sec_ExposeAs : SecretExpose }.
Record CleanupSpec := { cl_AllowedResidue : list string }.
Record VerificationSpec := {
  vs_Repeats : Z; vs_SuccessThreshold : Z; vs_RequiredObservers : list string; vs_Cleanup : CleanupSpec; vs_StabilityRule : string;
  vs_ResourceVariancePercent : option float64 }.
Record ScenarioSpec := {
  sn_Title : string; sn_Description : string; sn_Purpose : string; sn_Audience : string; sn_Environment : string;
  sn_Inputs : list (string * InputSpec); sn_Phases : PhaseSet; sn_Capabilities : list (string * CapabilitySet);
  sn_Secrets : list (string * SecretSpec); sn_Verification : VerificationSpec }.

Record PlatformSpec := { pl_OS : string; pl_Architecture : string }.
Record RuntimeSpec := { rt_Adapter : string; rt_Version : string }.
Record BaseImageSpec := { bi_Reference : string }.
Record ResourceSpec := {
  rs_CPU : any; rs_Memory : string; rs_Disk : string; rs_PIDs : Z; rs_Time : string; rs_LogBytes : option Z }.
Record EnvironmentSpec := {
  en_Platform : PlatformSpec; en_Runtime : RuntimeSpec; en_BaseImage : BaseImageSpec; en_Resources : ResourceSpec;
  en_RequiredServices : slice string; en_RequiredRunnerFeatures : slice string }.

Record ProjectSpec := { pj_Kind : string; pj_Audiences : list string; pj_Entrypoints : list string }.
Record PolicySpec := { po_Profile : string }.
Record EvidenceSpec := { ev_Profile : string; ev_Include : slice string; ev_Exclude : slice string }.
Record Spec := {
  sp_Project : ProjectSpec; sp_Environments : list (string * EnvironmentSpec); sp_Scenarios : list (string * ScenarioSpec);
  sp_Policies : PolicySpec; sp_Evidence : EvidenceSpec }.
Record Maintainer := { ma_Name : string; ma_URL : string }.
Record Metadata := {
  md_Name : string; md_DisplayName : string; md_Description : string; md_Maintainers : list Maintainer; md_Labels : list (string * string) }.
Record Manifest := { mf_APIVersion : string; mf_Kind : string; mf_Metadata : Metadata; mf_Spec : Spec }.
Record Document := { dc_Manifest : option Manifest; dc_Digest : string; dc_Path : string }.

(** The lookup [scenario.Capabilities[phase]]. *)
Definition capability_of (scenario : ScenarioSpec) (phase : string) : CapabilitySet :=
  default zero_capabilities (assoc phase (sn_Capabilities scenario)).
