(* ===== verification/ManifestValidate.v ===== *)
(** * Validation of a manifest (internal/manifest/validate.go)

    [Validate] and the tests it is made of.  The issues are a list in the order
    the code appends them; Go visits a map in an unspecified order, here in the
    order of its association list, and [ManifestSafety] shows what does not
    depend on it.

    Whether an expression compiles ([regexp.Compile] of a text from the manifest)
    is an argument. *)

From S2P Require Import Prelude Json StructuredJson SemanticEqual JsonPath GoValue Durations CanonicalJson Domain GoPath GoStrings Url HttpContract Regex PlanTypes Manifest.

Local Open Scope Z_scope.

(** ** [strconv.ParseFloat(s, 64)] *)

Definition float_digit (hex : bool) (c : ascii) : option Z :=
  if is_digit c then Some (Z.of_N (byte_val c) - 48)
  else if hex then option_map Z.of_N (hex_val c) else None.

Record scanned := { sc_mantissa : Z; sc_fraction : Z; sc_digits : bool; sc_underscores : bool; sc_rest : string }.

Fixpoint scan_mantissa (hex : bool) (acc frac : Z) (dot digits under : bool) (s : string) : scanned :=
  let stop := {| sc_mantissa := acc; sc_fraction := frac; sc_digits := digits; sc_underscores := under; sc_rest := s |} in
  match s with
  | EmptyString => stop
  | String c s' =>
      if Ascii.eqb c "_" then scan_mantissa hex acc frac dot digits true s'
      else if Ascii.eqb c "." then if dot then stop else scan_mantissa hex acc frac true digits under s'
      else
        match float_digit hex c with
        | Some v => scan_mantissa hex (acc * (if hex then 16 else 10) + v) (frac + (if dot then 1 else 0)) dot true under s'
        | None => stop
        end
  end.

Fixpoint scan_exponent_digits (e : Z) (under : bool) (s : string) : Z * bool * string :=
  match s with
  | EmptyString => (e, under, "")
  | String c s' =>
      if is_digit c then scan_exponent_digits (if e <? 10000 then e * 10 + (Z.of_N (byte_val c) - 48) else e) under s'
      else if Ascii.eqb c "_" then scan_exponent_digits e true s'
      else (e, under, s)
  end.

(** Underscores stand between digits, or between a base prefix and a digit. *)
Inductive underscore_state := AtStart | AfterDigit | AfterUnderscore | AfterOther.
Fixpoint underscore_loop (hex : bool) (saw : underscore_state) (s : string) : bool :=
  match s with
  | EmptyString => match saw with AfterUnderscore => false | _ => true end
  | String c s' =>
      if is_digit c || (hex && is_hex c) then underscore_loop hex AfterDigit s'
      else if Ascii.eqb c "_" then match saw with AfterDigit => underscore_loop hex AfterUnderscore s' | _ => false end
      else match saw with AfterUnderscore => false | _ => underscore_loop hex AfterOther s' end
  end.
Definition unsigned_text (s : string) : bool * string :=
  match s with
  | String c s' => if Ascii.eqb c "-" then (true, s') else if Ascii.eqb c "+" then (false, s') else (false, s)
  | EmptyString => (false, s)
  end.
Definition hex_prefix (s : string) : option string :=
  match s with
  | String "0" (String c s') => if Ascii.eqb (lower_byte c) "x" then Some s' else None
  | _ => None
  end.
Definition underscoreOK (s : string) : bool :=
  let '(_, s) := unsigned_text s in
  match s with
  | String "0" (String c s') =>
      if Ascii.eqb (lower_byte c) "x" then underscore_loop true AfterDigit s'
      else if bytes_in "bo" (lower_byte c) then underscore_loop false AfterDigit s'
      else underscore_loop false AtStart s
  | _ => underscore_loop false AtStart s
  end.

Definition finite_value (neg hex : bool) (m frac e : Z) : float64 :=
  let '(num, den) := (m, (if hex then 16 else 10) ^ frac) in
  let base := if hex then 2 else 10 in
  if 0 <=? e then round_float neg (num * base ^ e) den else round_float neg num (den * base ^ (- e)).

(** The exponent after the mantissa: a hexadecimal number must have one. *)
Definition scan_float_exponent (hex : bool) (s : string) : option (Z * bool * string) :=
  match s with
  | String c s' =>
      if Ascii.eqb (lower_byte c) (if hex then "p" else "e")%char then
        let '(neg, digits) := unsigned_text s' in
        match digits with
        | String d _ =>
            if is_digit d then let '(e, under, rest) := scan_exponent_digits 0 false digits in Some (if neg then - e else e, under, rest)
            else None
        | EmptyString => None
        end
      else if hex then None else Some (0, false, s)
  | EmptyString => if hex then None else Some (0, false, s)
  end.

(** [None] is an error: no number, text after it, or out of range. *)
Definition ParseFloat (s : string) : option float64 :=
  let '(neg, body) := unsigned_text s in
  if (to_lower body =s "inf") || (to_lower body =s "infinity") then Some (FInf neg)
  else if to_lower s =s "nan" then Some FNaN
  else
    let '(hex, digits) := match hex_prefix body with Some (String c r) => (true, String c r) | _ => (false, body) end in
    let sc := scan_mantissa hex 0 0 false false false digits in
    if negb (sc_digits sc) then None
    else
      let? (e, under, rest) := scan_float_exponent hex (sc_rest sc) in
      if (rest !=s "") || ((sc_underscores sc || under) && negb (underscoreOK s)) then None
      else
        match finite_value neg hex (sc_mantissa sc) (sc_fraction sc) e with
        | FFin n m e => Some (FFin n m e)
        | _ => None
        end.

(** Comparison of a float with a positive fraction of integers. *)
Definition float_between (f : float64) (lo_num lo_den hi : Z) : bool :=
  match f with
  | FFin neg m e =>
      let '(a, b) := magnitude m e in
      let a := if neg then - a else a in (lo_num * b <=? a * lo_den) && (a <=? hi * b)
  | _ => false
  end.

Example parse_float_1 :
  List.map ParseFloat ["0.5"; "1e3"; ".5"; "5."; "0x1p-1"; "+64"; "1_0"; "1__0"; "abc"; "1e400"; "0x1"; ""]
  = [Some (FFin false (2 ^ 52) (- 53)); Some (FFin false 8796093022208000 (- 43)); Some (FFin false (2 ^ 52) (- 53));
     Some (FFin false 5629499534213120 (- 50)); Some (FFin false (2 ^ 52) (- 53)); Some (FFin false (2 ^ 52) (- 46));
     Some (FFin false 5629499534213120 (- 49)); None; None; None; None; None].
Proof. vm_compute. reflexivity. Qed.

(** ** Patterns *)

Definition class (P : ascii → bool) : re := RSet (in_class P).
Definition identifier_rest (c : ascii) : bool := lower_alnum c || Ascii.eqb c "-".
Definition name_inner (c : ascii) : bool := lower_alnum c || bytes_in ".-" c.
Definition lowercase (c : ascii) : bool := in_range 97 122 c.

Definition namePattern : re :=
  RSeq [RBegin; class lower_alnum; ROpt (RSeq [RRep (in_class name_inner) 0 (Some 61%nat); class lower_alnum]); REnd].
Definition identifierPattern : re := RSeq [RBegin; class lowercase; RRep (in_class identifier_rest) 0 (Some 62%nat); REnd].
Definition decimal_number : re := RAlt (RLit false "0") (RSeq [class (in_range 49 57); RMany (in_class is_digit)]).
Definition exactVersion : re :=
  RSeq [RBegin; decimal_number; RLit false "."; decimal_number; RLit false "."; decimal_number; REnd].
Definition registry_byte (c : ascii) : bool := lower_alnum c || bytes_in ".-" c.
Definition repository_byte (c : ascii) : bool := lower_alnum c || bytes_in "._-" c.
Definition tag_byte (c : ascii) : bool := alnum c || bytes_in "._-" c.
Definition pinnedImage : re :=
  RSeq [RBegin;
        ROpt (RSeq [RPlus (in_class registry_byte); ROpt (RSeq [RLit false ":"; RPlus (in_class is_digit)]); RLit false "/"]);
        RStar (RSeq [RPlus (in_class repository_byte); RLit false "/"]);
        RPlus (in_class repository_byte);
        ROpt (RSeq [RLit false ":"; RPlus (in_class tag_byte)]);
        RLit false "@sha256:"; RRep (in_class is_lower_hex) 64 (Some 64%nat); REnd].
Definition header_name_byte (c : ascii) : bool := alnum c || bytes_in "!#$%&'*+.^_`|~-" c.
Definition httpHeaderNamePattern : re := RSeq [RBegin; RPlus (in_class header_name_byte); REnd].
Definition hostname_inner (c : ascii) : bool := alnum c || bytes_in ".-" c.
Definition hostnamePattern : re :=
  RSeq [RBegin; class alnum; ROpt (RSeq [RRep (in_class hostname_inner) 0 (Some 251%nat); class alnum]); REnd].
Definition sizePattern : re :=
  RSeq [RBegin; RGroup (RSeq [class (in_range 49 57); RMany (in_class is_digit)]);
        RGroup (ROneOf [RLit false "KiB"; RLit false "MiB"; RLit false "GiB"]); REnd].

Definition IsPinnedImage (reference : string) : bool := MatchString pinnedImage reference.
Definition IsExactRuntimeVersion (version : string) : bool := MatchString exactVersion version.

Definition supportedKinds : list string :=
  ["cli"; "web-app"; "api"; "library"; "notebook"; "model"; "dataset"; "documentation"; "desktop-app"; "mobile-app"; "unknown"].
Definition supportedInputs : list string := ["string"; "integer"; "boolean"; "file"; "directory"; "json"; "secret-reference"; "choice"].
Definition supportedAdapters : list string := ["node"; "python"].
Definition supportedDrivers : list string := ["cli"; "http"].
Definition supportedObservers : list string :=
  ["process-exec"; "filesystem-write"; "port-listen"; "network-enforcement"; "resource-usage"].
Definition supportedHTTPMethods : list string := ["get"; "head"; "post"; "put"; "patch"; "delete"; "options"].
Definition forbiddenHTTPRequestHeaders : list string :=
  ["authorization"; "connection"; "content-length"; "cookie"; "host"; "proxy-authorization"; "transfer-encoding"; "x-api-key"].
Definition maxHTTPRequestBodyBytes := AlphaHTTPMaxRequestBodyBytes.
Definition maxHTTPHeaderValueBytes := AlphaHTTPMaxHeaderValueBytes.
Definition maxHTTPResponseMatchBytes := AlphaHTTPMaxResponseMatchBytes.
Definition maxHTTPServiceSignalGrace := AlphaHTTPMaxSignalGrace.

(** ** Paths, hosts and sizes *)

Definition has_nul (s : string) : bool := string_contains_byte (byte_of 0) s.

Definition validSandboxPath (value : string) : bool :=
  if (value =s "") || negb (has_prefix "/" value) || has_nul value then false
  else let clean := Clean value in (clean =s value) && negb (has_prefix "/../" clean).

Definition validHTTPOutputPath (value : string) : bool :=
  match ValidateAlphaHTTPOutputPath value with Ok _ => true | Err _ => false end.

(** Letters beyond ASCII that upper-case to ASCII do not matter here: a segment
    with one is refused by the next test of its one caller. *)
Definition portableWindowsDeviceName (segment : string) : bool :=
  let base := string_map upper_byte (before_dot segment) in
  if one_of base ["CON"; "PRN"; "AUX"; "NUL"; "CONIN$"; "CONOUT$"; "CLOCK$"] then true
  else if negb (slen base =? 4)%nat then false
  else (has_prefix "COM" base || has_prefix "LPT" base) && byte_is (in_range 49 57) (last_byte base).

Definition forbidden_path_bytes : string := "\:*?<>|" +:+ String dquote "".
Definition portable_path_byte (c : ascii) : bool := in_range 32 126 c && negb (bytes_in forbidden_path_bytes c).
Definition portable_segment (segment : string) : bool :=
  negb ((segment =s "") || (255 <? zlen segment) || (segment =s ".") || (segment =s "..")
        || has_suffix "." segment || has_suffix " " segment || portableWindowsDeviceName segment)
  && string_forallb portable_path_byte segment.

Definition validPortableRepositoryPath (value : string) : bool :=
  if (value =s "") || (4096 <? zlen value) || string_contains_byte backslash value || has_prefix "/" value
     || (Clean value !=s value) || (value =s ".") then false
  else forallb portable_segment (split_on "/" value).

Definition printableASCII (value : string) : bool := string_forallb (in_range 32 126) value.

Definition validSandboxGlob (value : string) : bool := validSandboxPath (trim_suffix "/*" (trim_suffix "/**" value)).

(** [net.ParseIP] of a text without a colon: four decimal fields. *)
Definition ipv4_field (part : string) : bool :=
  (part !=s "") && string_forallb is_digit part && (digits_val 0 part <=? 255)%N
  && ((slen part =? 1)%nat || negb (has_prefix "0" part)).
Definition is_ipv4 (host : string) : bool :=
  match split_on "." host with [a; b; c; d] => forallb ipv4_field [a; b; c; d] | _ => false end.

Definition contains_any (set s : string) : bool := negb (string_forallb (λ c, negb (bytes_in set c)) s).

Definition validHostname (host : string) : bool :=
  if (host =s "") || contains_any ("/\:@") host then false
  else if is_ipv4 host then false
  else MatchString hostnamePattern host.

Definition FindStringSubmatch (r : re) (s : string) : list string :=
  match first_match r (starts 0 (runes s)) with
  | Some (from, to) => runes_text (take (m_pos to - m_pos from) (m_rest from)) :: List.map runes_text (m_groups to)
  | None => []
  end.

Definition size_multiplier (unit : string) : Z :=
  if unit =s "MiB" then 2 ^ 20 else if unit =s "GiB" then 2 ^ 30 else 2 ^ 10.

Definition validSize (value : string) : bool :=
  match FindStringSubmatch sizePattern value with
  | [_; digits; unit] =>
      match parse_int 64 digits with
      | Some amount => amount <=? 2 ^ 50 / size_multiplier unit
      | None => false
      end
  | _ => false
  end.

(** The float constant 0.001 is 1152921504606847 / 2^60. *)
Definition cpu_in_range (amount : float64) : bool := float_between amount 1152921504606847 (2 ^ 60) 64.
Definition validCPU (value : any) : bool :=
  match value with
  | VInt z | VUint z => cpu_in_range (int_to_float z)
  | VFloat f => cpu_in_range f
  | VStr s => match ParseFloat s with Some f => cpu_in_range f | None => false end
  | _ => false
  end.

Example paths_1 :
  (List.map validPortableRepositoryPath ["schemas/a.json"; "../a"; "a/con.txt"; "a//b"; "a/b."; "/a"; "a b/c"; "com1"; "com0"; "a\b"; "a:b"],
   List.map validSandboxGlob ["/a/**"; "/a/*"; "/**"; "/a/../b"; "a/*"; "/"; "/a/b"],
   List.map validHostname ["example.com"; "1.2.3.4"; "1.2.3.400"; "a:b"; "-a"; "a"; ""],
   List.map validSize ["1KiB"; "512MiB"; "0GiB"; "01MiB"; "1048576GiB"; "1048577GiB"; "5GB"; "99999999999999999999KiB"],
   List.map validCPU [VInt 1; VInt 65; VStr "0.001"; VStr "0.0009"; VFloat FNaN; VStr "64"; VNil; VStr "inf"])
  = ([true; false; false; false; false; false; true; false; true; false; false],
     [true; true; false; false; false; true; true],
     [true; false; true; false; false; true; false],
     [true; true; false; false; true; false; false; false],
     [true; false; true; false; false; true; false; false]).
Proof. vm_compute. reflexivity. Qed.

(** ** Issues *)

Record Issue := { is_Code : string; is_Message : string; is_Field : string; is_Suggestion : string }.

(** The closure [add] of [Validate]. *)
Definition issue_error (i : Issue) : Error :=
  let e := NewError (is_Code i) SeverityHigh (is_Message i) in
  {| er_SchemaVersion := er_SchemaVersion e; er_Code := er_Code e; er_Phase := er_Phase e; er_Severity := er_Severity e;
     er_Message := er_Message e; er_Details := if is_Field i =s "" then er_Details e else [("field", VStr (is_Field i))];
     er_EvidenceRefs := er_EvidenceRefs e; er_Suggestion := is_Suggestion i; er_Retryable := er_Retryable e; er_Cause := er_Cause e |}.

Definition issue (code message field suggestion : string) : list Issue :=
  [{| is_Code := code; is_Message := message; is_Field := field; is_Suggestion := suggestion |}].
Definition invalid (message field suggestion : string) : list Issue := issue CodeManifestInvalid message field suggestion.
Definition traversal (message field suggestion : string) : list Issue := issue CodeSourcePathTraversal message field suggestion.

(** [if b { ... }]. *)
Definition when {A} (b : bool) (l : list A) : list A := if b then l else [].

Definition index_text (i : nat) : string := "[" +:+ dec_Z (Z.of_nat i) +:+ "]".

Definition is_some {A} (o : option A) : bool := match o with Some _ => true | None => false end.
Definition is_empty {A} (l : list A) : bool := match l with [] => true | _ => false end.

(** A loop over a list with its index. *)
Fixpoint each_from {A} (i : nat) (f : nat → A → list Issue) (l : list A) : list Issue :=
  match l with [] => [] | x :: l' => f i x ++ each_from (S i) f l' end.
Definition each {A} (f : nat → A → list Issue) (l : list A) : list Issue := each_from 0 f l.

(** ** Commands, timeouts and URLs *)

Definition bad_argument (arg : string) : bool := (arg =s "") || has_nul arg.
Definition validateArgv (field : string) (argv : list string) (optional : bool) : list Issue :=
  match argv with
  | [] => when (negb optional) (invalid "Command argv must not be empty." field "")
  | _ => when (existsb bad_argument argv) (invalid "Command arguments must be non-empty and contain no NUL bytes." field "")
  end.

Definition validateTimeout (field value : string) : list Issue :=
  if value =s "" then []
  else
    when (match ParseDuration value with Some duration => (duration <=? 0) || (30 * Minute <? duration) | None => true end)
      (invalid "Timeout must be a positive Go-style duration no greater than 30m." field "").

Definition validateHTTPDuration (field value : string) (maximum : Z) : list Issue :=
  if value =s "" then []
  else
    match ParseAlphaHTTPDuration value maximum with
    | Ok _ => []
    | Err _ =>
        let message :=
          if 0 <? maximum
          then "HTTP duration must be a whole-millisecond value between 1ms and " +:+ Duration_String maximum +:+ "."
          else "HTTP duration must be at least 1ms and use whole milliseconds." in
        invalid message field ""
    end.

Definition validateHTTPURL (field value : string) : list Issue :=
  match ParseAlphaHTTPURL value with
  | Ok _ => []
  | Err _ => invalid "HTTP journey URL must be a canonical visible-ASCII loopback URL no longer than 2048 bytes." field ""
  end.

Definition validateHTTPURLPort (field value : string) (declaredPort : Z) : list Issue :=
  if declaredPort =? 0 then []
  else
    match ParseAlphaHTTPURL value with
    | Err _ => []
    | Ok (_, port) =>
        when (negb (port =? declaredPort))
          (invalid "HTTP URL port must match the scenario's unique declared listen port." field ("Use port " +:+ dec_Z declaredPort +:+ "."))
    end.

(** ** Steps: the ids seen in a scenario are threaded through its phases *)

Abbreviation ids := (list (string * string)).

Definition shell_issue (field : string) : list Issue :=
  issue CodeManifestUnsafeShell "Shell execution is not approved by the v0.1 safety policy." field "Use an argument-array command.".

Definition validate_step_id (stepPath id : string) (seenIDs : ids) : list Issue * ids :=
  if negb (MatchString identifierPattern id)
  then (invalid "Every phase step requires a lowercase identifier." (stepPath +:+ ".id") "", seenIDs)
  else if has_key id seenIDs
  then (invalid "Phase step ids must be unique within a scenario." (stepPath +:+ ".id") "Use a unique step id.", seenIDs)
  else ([], assoc_set id (stepPath +:+ ".id") seenIDs).

Definition validate_run (stepPath : string) (run : RunAction) : list Issue :=
  if Bool.eqb (is_empty (ra_Command run)) (negb (is_some (ra_Shell run)))
  then invalid "Run action must define exactly one command or shell action." (stepPath +:+ ".run") ""
  else if negb (is_empty (ra_Command run)) then validateArgv (stepPath +:+ ".run.command") (ra_Command run) false
  else [].

Definition validate_signal (stepPath : string) (signal : SignalAction) : list Issue :=
  when (negb (MatchString identifierPattern (sa_Target signal)))
    (invalid "Signal target must be a lowercase service identifier." (stepPath +:+ ".signal.target") "")
  ++ when (negb (one_of (sa_Type signal) ["term"; "kill"; "int"; "hup"]))
       (invalid "Signal type must be term, kill, int, or hup." (stepPath +:+ ".signal.type") "")
  ++ validateTimeout (stepPath +:+ ".signal.gracePeriod") (sa_GracePeriod signal).

Definition from_option {A} (f : A → list Issue) (o : option A) : list Issue := match o with Some x => f x | None => [] end.

Definition validate_step (field : string) (i : nat) (step : PhaseStep) (seenIDs : ids) : list Issue * ids :=
  let stepPath := field +:+ index_text i in
  let '(id_issues, seenIDs) := validate_step_id stepPath (st_ID step) seenIDs in
  (when (match st_Run step with Some run => is_some (ra_Shell run) | None => false end) (shell_issue (stepPath +:+ ".run.shell"))
   ++ id_issues
   ++ when (Bool.eqb (negb (is_some (st_Run step))) (negb (is_some (st_Signal step))))
        (invalid "Phase step must contain exactly one run or signal action." stepPath "")
   ++ from_option (validate_run stepPath) (st_Run step)
   ++ from_option (validate_signal stepPath) (st_Signal step), seenIDs).

Fixpoint validate_steps_from (field : string) (i : nat) (steps : list PhaseStep) (seenIDs : ids) : list Issue * ids :=
  match steps with
  | [] => ([], seenIDs)
  | step :: rest =>
      let '(issues, seenIDs) := validate_step field i step seenIDs in
      let '(more, seenIDs) := validate_steps_from field (S i) rest seenIDs in
      (issues ++ more, seenIDs)
  end.
Definition validateSteps (field : string) (steps : list PhaseStep) (seenIDs : ids) : list Issue * ids :=
  validate_steps_from field 0 steps seenIDs.

Definition validateCommandPhase (prefix phase : string) (p : option CommandPhase) (seenIDs : ids) : list Issue * ids :=
  match p with
  | None => ([], seenIDs)
  | Some p =>
      let '(issues, seenIDs) := validateSteps (prefix +:+ ".phases." +:+ phase +:+ ".steps") (cp_Steps p) seenIDs in
      (validateTimeout (prefix +:+ ".phases." +:+ phase +:+ ".timeout") (cp_Timeout p) ++ issues, seenIDs)
  end.

(** *** The targets of signals *)

Definition validate_signal_target (prefix phase serviceID : string) (index : nat) (step : PhaseStep) : list Issue :=
  match st_Signal step with
  | None => []
  | Some signal =>
      let field := prefix +:+ ".phases." +:+ phase +:+ ".steps" +:+ index_text index +:+ ".signal.target" in
      if serviceID =s "" then
        invalid "Signal target references a service that is not declared." field "Declare the service or remove the signal step."
      else if (sa_Target signal =s serviceID) && (phase =s PhaseCleanup) then []
      else if sa_Target signal =s serviceID then
        invalid "The single-service profile permits service signals only during cleanup." field "Move the signal step to phases.cleanup."
      else
        invalid "Signal target must reference the scenario's declared service." field ("Use target: " +:+ serviceID +:+ ".")
  end.

Definition command_steps (p : option CommandPhase) : list PhaseStep := match p with Some p => cp_Steps p | None => [] end.
Definition run_steps (p : option RunPhase) : list PhaseStep := match p with Some p => rn_Steps p | None => [] end.

Definition validateSignalTargets (prefix : string) (scenario : ScenarioSpec) (serviceID : string) : list Issue :=
  let phases := sn_Phases scenario in
  each (validate_signal_target prefix PhasePrepare serviceID) (command_steps (ph_Prepare phases))
  ++ each (validate_signal_target prefix PhaseSetup serviceID) (command_steps (ph_Setup phases))
  ++ each (validate_signal_target prefix PhaseBuild serviceID) (command_steps (ph_Build phases))
  ++ each (validate_signal_target prefix PhaseRun serviceID) (run_steps (ph_Run phases))
  ++ each (validate_signal_target prefix PhaseCleanup serviceID) (command_steps (ph_Cleanup phases)).

(** *** The service *)

Definition validate_service_id (field id : string) (seenIDs : ids) : list Issue * ids :=
  if negb (MatchString identifierPattern id) then (invalid "Service id must be a lowercase identifier." field "", seenIDs)
  else if has_key id seenIDs
  then (invalid "Service id must be unique among scenario command ids." field "Use an id that differs from every phase step id.", seenIDs)
  else ([], assoc_set id field seenIDs).

Definition status_out_of_range (status : Z) : bool := (status <? AlphaHTTPMinimumStatus) || (AlphaHTTPMaximumStatus <? status).

Definition validate_readiness (prefix : string) (readiness : option HTTPReadiness) : list Issue :=
  match readiness with
  | None =>
      invalid "The supported service profile requires HTTP readiness." (prefix +:+ ".phases.run.service.readiness")
        "Declare readiness.http with url, status, and timeout."
  | Some readiness =>
      validateHTTPURL (prefix +:+ ".phases.run.service.readiness.http.url") (hr_URL readiness)
      ++ when (status_out_of_range (hr_Status readiness))
           (invalid "HTTP readiness status must be between 200 and 599." (prefix +:+ ".phases.run.service.readiness.http.status") "")
      ++ when (hr_Timeout readiness =s "")
           (invalid "HTTP readiness timeout is required." (prefix +:+ ".phases.run.service.readiness.http.timeout") "")
      ++ validateHTTPDuration (prefix +:+ ".phases.run.service.readiness.http.timeout") (hr_Timeout readiness) AlphaHTTPMaxReadinessTime
  end.

Definition validate_service (prefix : string) (service : ServiceSpec) (seenIDs : ids) : list Issue * ids :=
  let '(id_issues, seenIDs) := validate_service_id (prefix +:+ ".phases.run.service.id") (sv_ID service) seenIDs in
  (when (is_some (sv_Shell service)) (shell_issue (prefix +:+ ".phases.run.service.shell"))
   ++ id_issues
   ++ (if Bool.eqb (is_empty (sv_Command service)) (negb (is_some (sv_Shell service)))
       then invalid "Service must define exactly one command or shell action." (prefix +:+ ".phases.run.service") ""
       else if negb (is_empty (sv_Command service))
       then validateArgv (prefix +:+ ".phases.run.service.command") (sv_Command service) false
       else [])
   ++ validate_readiness prefix (rd_HTTP (sv_Readiness service)), seenIDs).

Definition validate_run_phase (prefix : string) (p : option RunPhase) (seenIDs : ids) : list Issue * ids :=
  match p with
  | None => ([], seenIDs)
  | Some p =>
      let '(step_issues, seenIDs) := validateSteps (prefix +:+ ".phases.run.steps") (rn_Steps p) seenIDs in
      let '(service_issues, seenIDs) :=
        match rn_Service p with Some service => validate_service prefix service seenIDs | None => ([], seenIDs) end in
      (validateTimeout (prefix +:+ ".phases.run.timeout") (rn_Timeout p) ++ step_issues ++ service_issues, seenIDs)
  end.

Definition service_id (scenario : ScenarioSpec) : string :=
  match ph_Run (sn_Phases scenario) with
  | Some run => match rn_Service run with Some service => sv_ID service | None => "" end
  | None => ""
  end.

(** ** Assertions *)

(** [regexp.Compile] accepts the expression. *)
Class RegexpSyntax := { compiles : string → bool }.

Definition count_true (l : list bool) : nat := length (List.filter (λ b, b) l).

Section assertions.
  Context `{RegexpSyntax}.

Definition validateAssertion (field : string) (a : DriverAssertion) : list Issue :=
  let operations :=
    [is_some (da_ExitCode a); is_some (da_StdoutContains a); is_some (da_StderrContains a); is_some (da_StdoutRegex a);
     da_StdoutJSONSchema a !=s ""; is_some (da_StderrRegex a); da_FileExists a !=s ""; is_some (da_Response a); is_some (da_JSONFile a)] in
  when ((da_ID a !=s "") && negb (MatchString identifierPattern (da_ID a)))
    (invalid "Assertion id must be a lowercase identifier." (field +:+ ".id") "")
  ++ from_option (λ r, when (negb (compiles r)) (invalid "stdoutRegex is invalid." (field +:+ ".stdoutRegex") "")) (da_StdoutRegex a)
  ++ when ((da_StdoutJSONSchema a !=s "") && negb (validPortableRepositoryPath (da_StdoutJSONSchema a)))
       (traversal "stdoutJsonSchema must use a portable normalized repository path." (field +:+ ".stdoutJsonSchema") "")
  ++ from_option (λ r, when (negb (compiles r)) (invalid "stderrRegex is invalid." (field +:+ ".stderrRegex") "")) (da_StderrRegex a)
  ++ when ((da_FileExists a !=s "") && negb (validSandboxPath (da_FileExists a)))
       (traversal "fileExists must use an absolute normalized sandbox path." (field +:+ ".fileExists") "")
  ++ from_option (λ f,
       when (negb (validSandboxPath (jf_Path f)))
         (traversal "jsonFile.path must use an absolute normalized sandbox path." (field +:+ ".jsonFile.path") "")
       ++ when (negb (validPortableRepositoryPath (jf_Schema f)))
            (traversal "jsonFile.schema must use a portable normalized repository path." (field +:+ ".jsonFile.schema") ""))
       (da_JSONFile a)
  ++ when (negb (count_true operations =? 1)%nat) (invalid "Each assertion must define exactly one assertion operation." field "").

(** ** The HTTP profile *)

Definition newline_set : string := String (byte_of 13) (String (byte_of 10) (String (byte_of 0) "")).

(** The loop over the sorted names; [seen] holds the lower-cased names met. *)
Fixpoint header_names_loop (field : string) (headers : list (string * string)) (seen : list string) : list Issue :=
  match headers with
  | [] => []
  | (name, value) :: rest =>
      let lowerName := to_lower name in
      let at_name := field +:+ "." +:+ name in
      let '(name_issues, seen) :=
        if negb (MatchString httpHeaderNamePattern name) then (invalid "HTTP request header name is invalid." at_name "", seen)
        else if contains_any newline_set name
        then (invalid "HTTP request header name contains unsafe control data." at_name "", seen)
        else if one_of lowerName forbiddenHTTPRequestHeaders
        then (invalid "HTTP request header is controlled by the trusted driver and cannot be overridden." at_name "", seen)
        else if one_of lowerName seen
        then (invalid "HTTP request header names must be unique case-insensitively." at_name "", seen)
        else ([], lowerName :: seen) in
      name_issues
      ++ when (contains_any newline_set value || (maxHTTPHeaderValueBytes <? zlen value) || negb (printableASCII value))
           (invalid "HTTP request header value must be printable ASCII within the 8192-byte limit." at_name "")
      ++ header_names_loop field rest seen
  end.

Definition validateHTTPRequestHeaders (field : string) (headers : list (string * string)) (hasJSON : bool) : list Issue :=
  match ValidateAlphaHTTPHeaders headers hasJSON with
  | Ok _ => []
  | Err _ => invalid "HTTP request effective headers exceed the alpha safety limits." field ""
  end
  ++ header_names_loop field (sort_keys headers) [].

(** The ids seen so far and the requests with the index of their step. *)
Record journey_ids := { ji_seen : ids; ji_requests : list (string * nat) }.

Definition validate_request_id (field id : string) (stepIndex : nat) (st : journey_ids) : list Issue * journey_ids :=
  if negb (MatchString identifierPattern id)
  then (invalid "HTTP request id must be a lowercase identifier." (field +:+ ".id") "", st)
  else
    match assoc id (ji_seen st) with
    | Some previous =>
        (invalid "HTTP request and assertion ids must be unique within a scenario." (field +:+ ".id")
           ("Choose an id different from " +:+ previous +:+ "."), st)
    | None =>
        ([], {| ji_seen := assoc_set id (field +:+ ".id") (ji_seen st); ji_requests := assoc_set id stepIndex (ji_requests st) |})
    end.

Definition validate_request_json (field : string) (request : HTTPRequest) : list Issue :=
  match Marshal (to_json (rq_JSON request)) with
  | Err _ => invalid "HTTP request json could not be encoded." (field +:+ ".json") ""
  | Ok encoded =>
      when (maxHTTPRequestBodyBytes <? zlen encoded) (invalid "HTTP request json exceeds the 1 MiB profile limit." (field +:+ ".json") "")
  end.

Definition validateHTTPRequest (field : string) (request : HTTPRequest) (declaredPort : Z) (stepIndex : nat) (st : journey_ids)
  : list Issue * journey_ids :=
  let '(id_issues, st) := validate_request_id field (rq_ID request) stepIndex st in
  (id_issues
   ++ when (negb (one_of (rq_Method request) supportedHTTPMethods))
        (invalid "HTTP request method is not supported by the alpha profile." (field +:+ ".method")
           "Use get, head, post, put, patch, delete, or options.")
   ++ validateHTTPURL (field +:+ ".url") (rq_URL request)
   ++ validateHTTPURLPort (field +:+ ".url") (rq_URL request) declaredPort
   ++ validateHTTPDuration (field +:+ ".timeout") (rq_Timeout request) AlphaHTTPMaxRequestTime
   ++ validateHTTPRequestHeaders (field +:+ ".headers") (rq_Headers request) (HasJSON request)
   ++ when (HasBody request && HasJSON request)
        (invalid "HTTP request body and json are mutually exclusive." field "Declare only body or json.")
   ++ when (maxHTTPRequestBodyBytes <? zlen (rq_Body request))
        (invalid "HTTP request body exceeds the 1 MiB profile limit." (field +:+ ".body") "")
   ++ when (HasJSON request) (validate_request_json field request), st).

Definition validateHTTPAssertionID (field id : string) (st : journey_ids) : list Issue * journey_ids :=
  if negb (MatchString identifierPattern id)
  then (invalid "HTTP assertion id must be a lowercase identifier." (field +:+ ".id") "", st)
  else
    match assoc id (ji_seen st) with
    | Some previous =>
        (invalid "HTTP request and assertion ids must be unique within a scenario." (field +:+ ".id")
           ("Choose an id different from " +:+ previous +:+ "."), st)
    | None => ([], {| ji_seen := assoc_set id (field +:+ ".id") (ji_seen st); ji_requests := ji_requests st |})
    end.

Definition path_compiles (p : string) : bool := match CompilePath p with Some (Ok _) => true | _ => false end.

Definition validate_header_assertion (field : string) (h : HeaderAssertion) : list Issue :=
  when (negb (MatchString httpHeaderNamePattern (ha_Name h)))
    (invalid "HTTP response header assertion name is invalid." (field +:+ ".header.name") "")
  ++ when (contains_any newline_set (ha_Contains h) || (maxHTTPHeaderValueBytes <? zlen (ha_Contains h)))
       (invalid "HTTP response header assertion contains unsafe or oversized data." (field +:+ ".header.contains") "").

Definition validate_body_contains (field body : string) : list Issue :=
  if body =s "" then
    invalid "HTTP response bodyContains must not be empty." (field +:+ ".bodyContains") "Declare a non-empty response substring."
  else when (maxHTTPResponseMatchBytes <? zlen body)
         (invalid "HTTP response body assertion exceeds the 1 MiB profile limit." (field +:+ ".bodyContains") "").

Definition earlier_request (requests : list (string * nat)) (id : string) (stepIndex : nat) : bool :=
  match assoc id requests with Some requestIndex => (requestIndex <? stepIndex)%nat | None => false end.

Definition validateHTTPResponseAssertion (field : string) (a : ResponseAssertion) (stepIndex : nat) (requests : list (string * nat))
  : list Issue :=
  let operations :=
    [negb (rs_Status a =? 0); is_some (rs_Header a); is_some (rs_BodyContains a); is_some (rs_JSONPath a); rs_JSONSchema a !=s ""] in
  when (negb (earlier_request requests (rs_RequestID a) stepIndex))
    (invalid "HTTP response assertion must reference an earlier unique request." (field +:+ ".requestId")
       "Move the request before this assertion and reference its id.")
  ++ when (negb (rs_Status a =? 0) && status_out_of_range (rs_Status a))
       (invalid "HTTP response status assertion must be between 200 and 599." (field +:+ ".status") "")
  ++ from_option (validate_header_assertion field) (rs_Header a)
  ++ from_option (validate_body_contains field) (rs_BodyContains a)
  ++ from_option (λ p, when (negb (path_compiles (jp_Path p)))
       (invalid "HTTP response jsonPath uses unsupported alpha grammar." (field +:+ ".jsonPath.path")
          "Use $, .ASCII_identifier, [index], or a quoted bracket member.")) (rs_JSONPath a)
  ++ when ((rs_JSONSchema a !=s "") && negb (validPortableRepositoryPath (rs_JSONSchema a)))
       (traversal "HTTP response jsonSchema must use a portable normalized repository path." (field +:+ ".jsonSchema") "")
  ++ when (count_true operations =? 0)%nat
       (invalid "HTTP response assertion requires at least one response check." field
          "Declare status, header, bodyContains, jsonPath, or jsonSchema.").

(** *** The listener and the cleanup signal of an HTTP journey *)

Definition validate_listener (prefix : string) (listeners : list PortBinding) : list Issue * Z :=
  match listeners with
  | [l] =>
      (when (pb_Host l !=s "127.0.0.1")
         (invalid "The executable HTTP profile requires a literal 127.0.0.1 listener." (prefix +:+ ".capabilities.run.ports.listen[0].host")
            "Use host: 127.0.0.1.")
       ++ when ((pb_Protocol l !=s "") && (pb_Protocol l !=s "tcp"))
            (invalid "HTTP services require a TCP listen declaration." (prefix +:+ ".capabilities.run.ports.listen[0].protocol")
               "Use protocol: tcp or omit it to select the TCP default."), pb_Port l)
  | _ =>
      (invalid "The supported HTTP service profile requires exactly one declared listen port." (prefix +:+ ".capabilities.run.ports.listen")
         "Declare one loopback TCP listen endpoint.", 0)
  end.

Definition signals (serviceID : string) (step : PhaseStep) : bool :=
  match st_Signal step with Some signal => sa_Target signal =s serviceID | None => false end.

Definition validate_cleanup_signal (prefix serviceID : string) (last : nat) (index : nat) (step : PhaseStep) : list Issue :=
  match st_Signal step with
  | Some signal =>
      if sa_Target signal =s serviceID then
        let signalField := prefix +:+ ".phases.cleanup.steps" +:+ index_text index +:+ ".signal" in
        when (negb (index =? last)%nat)
          (invalid "The HTTP service signal must be the final cleanup step." signalField "Move the service signal to the end of cleanup.")
        ++ when (sa_GracePeriod signal =s "")
             (invalid "Every HTTP service signal requires gracePeriod." (signalField +:+ ".gracePeriod") "Declare a duration between 1ms and 10s.")
        ++ validateHTTPDuration (signalField +:+ ".gracePeriod") (sa_GracePeriod signal) maxHTTPServiceSignalGrace
      else []
  | None => []
  end.

Definition validate_cleanup_signals (prefix serviceID : string) (steps : list PhaseStep) : list Issue :=
  each (validate_cleanup_signal prefix serviceID (length steps - 1)) steps
  ++ when (negb (length (List.filter (signals serviceID) steps) =? 1)%nat)
       (invalid "The HTTP service profile requires exactly one cleanup signal for the declared service." (prefix +:+ ".phases.cleanup.steps")
          ("Declare one signal step targeting " +:+ serviceID +:+ ".")).

(** *** The ordered steps *)

Definition http_only (a : DriverAssertion) : bool :=
  negb (is_some (da_ExitCode a) || is_some (da_StdoutContains a) || is_some (da_StderrContains a) || is_some (da_StdoutRegex a)
        || (da_StdoutJSONSchema a !=s "") || is_some (da_StderrRegex a)).

Definition validate_journey_assertion (assertionPath : string) (a : DriverAssertion) (index : nat) (st : journey_ids)
  : list Issue * journey_ids :=
  let '(id_issues, st) := validateHTTPAssertionID assertionPath (da_ID a) st in
  (id_issues
   ++ validateAssertion assertionPath a
   ++ when ((da_FileExists a !=s "") && negb (validHTTPOutputPath (da_FileExists a)))
        (traversal "HTTP fileExists must be a normalized path within /outputs." (assertionPath +:+ ".fileExists")
           "Write and assert only runner-owned output files.")
   ++ from_option (λ f, when (negb (validHTTPOutputPath (jf_Path f)))
        (traversal "HTTP jsonFile.path must be a normalized regular-file path within /outputs." (assertionPath +:+ ".jsonFile.path")
           "Write and validate only runner-owned output files.")) (da_JSONFile a)
   ++ when (negb (http_only a))
        (invalid "HTTP assertion steps accept only response, fileExists, or jsonFile operations." assertionPath "")
   ++ from_option (λ r, validateHTTPResponseAssertion (assertionPath +:+ ".response") r index (ji_requests st)) (da_Response a), st).

Definition validate_journey_step (prefix : string) (declaredPort : Z) (index : nat) (step : DriverStep) (st : journey_ids)
  : list Issue * journey_ids :=
  let stepPath := prefix +:+ ".phases.exercise.driver.steps" +:+ index_text index in
  match ds_Request step, ds_Assert step with
  | Some request, None => validateHTTPRequest (stepPath +:+ ".request") request declaredPort index st
  | None, Some assertion => validate_journey_assertion (stepPath +:+ ".assert") assertion index st
  | _, _ => (invalid "HTTP driver step must contain exactly one request or assert action." stepPath "", st)
  end.

Fixpoint validate_journey_steps (prefix : string) (declaredPort : Z) (index : nat) (steps : list DriverStep) (st : journey_ids) : list Issue :=
  match steps with
  | [] => []
  | step :: rest =>
      let '(issues, st) := validate_journey_step prefix declaredPort index step st in
      issues ++ validate_journey_steps prefix declaredPort (S index) rest st
  end.

Definition is_request (step : DriverStep) : bool := is_some (ds_Request step) && negb (is_some (ds_Assert step)).
Definition is_assert (step : DriverStep) : bool := negb (is_some (ds_Request step)) && is_some (ds_Assert step).
Definition count_steps (P : DriverStep → bool) (steps : list DriverStep) : Z := Z.of_nat (length (List.filter P steps)).

Definition no_ids : journey_ids := {| ji_seen := []; ji_requests := [] |}.

Definition validate_journey (prefix : string) (declaredPort : Z) (steps : list DriverStep) : list Issue :=
  let stepsField := prefix +:+ ".phases.exercise.driver.steps" in
  match steps with
  | [] => invalid "HTTP driver requires ordered request and assertion steps." stepsField ""
  | _ =>
      when (AlphaHTTPMaxJourneySteps <? Z.of_nat (length steps))
        (invalid "HTTP driver declares more than 128 ordered steps." stepsField "Reduce the journey to at most 128 steps.")
      ++ validate_journey_steps prefix declaredPort 0 steps no_ids
      ++ when (count_steps is_request steps =? 0) (invalid "HTTP driver requires at least one request step." stepsField "")
      ++ when (AlphaHTTPMaxRequestSteps <? count_steps is_request steps)
           (invalid "HTTP driver declares more than 32 request steps." stepsField "Reduce the journey to at most 32 requests.")
      ++ when (count_steps is_assert steps =? 0) (invalid "HTTP driver requires at least one assertion step." stepsField "")
  end.

Definition declared_service (scenario : ScenarioSpec) : option ServiceSpec :=
  match ph_Run (sn_Phases scenario) with Some run => rn_Service run | None => None end.

Definition validateHTTPProfile (prefix : string) (scenario : ScenarioSpec) (exercise : ExercisePhase) : list Issue :=
  let serviceID := service_id scenario in
  let '(listener_issues, declaredPort) := validate_listener prefix (elems (pc_Listen (cs_Ports (capability_of scenario PhaseRun)))) in
  when (negb (is_some (declared_service scenario)))
    (invalid "The HTTP exercise driver requires exactly one declared run service." (prefix +:+ ".phases.run.service")
       "Declare phases.run.service with HTTP readiness.")
  ++ listener_issues
  ++ match declared_service scenario with
     | Some service =>
         match rd_HTTP (sv_Readiness service) with
         | Some readiness =>
             when (serviceID !=s "")
               (validateHTTPURLPort (prefix +:+ ".phases.run.service.readiness.http.url") (hr_URL readiness) declaredPort)
         | None => []
         end
     | None => []
     end
  ++ validateHTTPDuration (prefix +:+ ".phases.exercise.timeout") (ex_Timeout exercise) AlphaHTTPMaxRequestTime
  ++ validate_cleanup_signals prefix serviceID (command_steps (ph_Cleanup (sn_Phases scenario)))
  ++ validate_journey prefix declaredPort (dv_Steps (ex_Driver exercise)).

(** ** The exercise phase *)

Fixpoint validate_cli_assertions (prefix : string) (index : nat) (l : list DriverAssertion) (seen : ids) : list Issue :=
  match l with
  | [] => []
  | a :: rest =>
      let assertionPath := prefix +:+ ".phases.exercise.driver.assertions" +:+ index_text index in
      let '(id_issues, seen) :=
        if MatchString identifierPattern (da_ID a) then
          if has_key (da_ID a) seen
          then (invalid "CLI assertion ids must be unique within a scenario." (assertionPath +:+ ".id") "Use a unique assertion id.", seen)
          else ([], assoc_set (da_ID a) (assertionPath +:+ ".id") seen)
        else ([], seen) in
      id_issues ++ validateAssertion assertionPath a ++ validate_cli_assertions prefix (S index) rest seen
  end.

Definition validate_cli_driver (prefix : string) (driver : DriverSpec) : list Issue :=
  validateArgv (prefix +:+ ".phases.exercise.driver.command") (dv_Command driver) false
  ++ when (is_empty (dv_Assertions driver))
       (invalid "CLI driver requires at least one external assertion." (prefix +:+ ".phases.exercise.driver.assertions") "")
  ++ when (negb (is_empty (dv_Steps driver)))
       (invalid "CLI driver must not contain HTTP steps." (prefix +:+ ".phases.exercise.driver.steps") "").

Definition validate_exercise (prefix : string) (scenario : ScenarioSpec) : list Issue :=
  match ph_Exercise (sn_Phases scenario) with
  | None => invalid "Scenario must define an exercise phase." (prefix +:+ ".phases.exercise") ""
  | Some exercise =>
      let driver := ex_Driver exercise in
      validateTimeout (prefix +:+ ".phases.exercise.timeout") (ex_Timeout exercise)
      ++ when (negb (one_of (dv_Type driver) supportedDrivers))
           (invalid "Exercise driver must be cli or http." (prefix +:+ ".phases.exercise.driver.type") "")
      ++ when (dv_Type driver =s "cli") (validate_cli_driver prefix driver)
      ++ (if dv_Type driver =s "http" then
            when (negb (is_empty (dv_Command driver)) || negb (is_empty (dv_Assertions driver)))
              (invalid "HTTP driver uses ordered steps, not command or top-level assertions." (prefix +:+ ".phases.exercise.driver") "")
            ++ validateHTTPProfile prefix scenario exercise
          else
            when (service_id scenario !=s "")
              (invalid "The supported single-service profile requires an HTTP exercise driver." (prefix +:+ ".phases.exercise.driver.type")
                 "Use type: http or remove the background service."))
      ++ validate_cli_assertions prefix 0 (dv_Assertions driver) []
  end.

(** ** Capabilities, inputs, secrets and the verification policy *)

Definition validate_destination (capPath : string) (i : nat) (d : NetworkDestination) : list Issue :=
  when (negb (validHostname (nd_Host d)) || (nd_Port d <? 1) || (65535 <? nd_Port d))
    (invalid "Network allow entry has an invalid host or port." (capPath +:+ ".network.allow" +:+ index_text i) "").

Definition validate_capability (prefix : string) (entry : string * CapabilitySet) : list Issue :=
  let '(phase, capability) := entry in
  let capPath := prefix +:+ ".capabilities." +:+ phase in
  let allow := elems (nc_Allow (cs_Network capability)) in
  let deny := nc_Deny (cs_Network capability) in
  when (((phase =s PhaseRun) || (phase =s PhaseExercise)) && (negb deny || negb (is_empty allow)))
    (invalid "Runtime and exercise network must be deny-all in v0.1." (capPath +:+ ".network") "")
  ++ when (deny && negb (is_empty allow))
       (invalid "network.deny and network.allow are mutually exclusive." (capPath +:+ ".network") "")
  ++ each (validate_destination capPath) allow
  ++ flat_map (λ sandboxPath, when (negb (validSandboxGlob sandboxPath))
       (traversal "Capability path must be an absolute normalized sandbox path or glob." (capPath +:+ ".filesystem") ""))
       (elems (fc_Read (cs_Filesystem capability)) ++ elems (fc_Write (cs_Filesystem capability))).

Definition path_input (input : InputSpec) : bool := (in_Type input =s "file") || (in_Type input =s "directory").
Definition validFixture (fixture : string) : bool :=
  let cleanFixture := Clean fixture in
  negb ((fixture =s "") || string_contains_byte backslash fixture || (cleanFixture !=s fixture) || has_prefix "../" cleanFixture
        || has_prefix "/" cleanFixture || (cleanFixture =s ".")).

Definition validate_input (prefix : string) (entry : string * InputSpec) : list Issue :=
  let '(inputName, input) := entry in
  let inputPath := prefix +:+ ".inputs." +:+ inputName in
  when (negb (MatchString identifierPattern inputName)) (invalid "Input name must be a lowercase identifier." inputPath "")
  ++ when (negb (one_of (in_Type input) supportedInputs)) (invalid "Unsupported input type." (inputPath +:+ ".type") "")
  ++ when (path_input input && negb (mt_ReadOnly (in_Mount input)))
       (invalid "Verification file and directory inputs must be read-only." (inputPath +:+ ".mount.readOnly") "")
  ++ when (path_input input && negb (validFixture (in_Fixture input)))
       (traversal "Fixture must be a normalized source-relative POSIX path that cannot escape the repository." (inputPath +:+ ".fixture") "")
  ++ when ((mt_Path (in_Mount input) !=s "")
           && (negb (validSandboxPath (mt_Path (in_Mount input))) || negb (has_prefix "/inputs/" (mt_Path (in_Mount input)))))
       (traversal "Input mount path must be a normalized path below /inputs." (inputPath +:+ ".mount.path") "").

Definition validate_secret (prefix : string) (entry : string * SecretSpec) : list Issue :=
  let '(secretName, secret) := entry in
  let secretPath := prefix +:+ ".secrets." +:+ secretName in
  when (sec_Source secret !=s "synthetic")
    (issue CodeManifestLiteralSecret "v0.1 accepts only synthetic secret references." (secretPath +:+ ".source") "Use source: synthetic.")
  ++ when (negb (not_blank (se_Env (sec_ExposeAs secret))))
       (invalid "Synthetic secret must declare exposeAs.env." (secretPath +:+ ".exposeAs.env") "")
  ++ when (is_empty (sc_Phases (sec_Scope secret)))
       (invalid "Synthetic secret must be scoped to at least one phase." (secretPath +:+ ".scope.phases") "").

Definition validate_verification (prefix : string) (v : VerificationSpec) : list Issue :=
  when (vs_Repeats v <=? 0) (invalid "verification.repeats must be positive." (prefix +:+ ".verification.repeats") "")
  ++ when ((vs_SuccessThreshold v <=? 0) || (vs_Repeats v <? vs_SuccessThreshold v))
       (invalid "successThreshold must be between 1 and repeats." (prefix +:+ ".verification.successThreshold") "")
  ++ flat_map (λ observer, when (negb (one_of observer supportedObservers))
       (invalid "Unknown required observer." (prefix +:+ ".verification.requiredObservers") "")) (vs_RequiredObservers v)
  ++ flat_map (λ residue, when (negb (validSandboxGlob residue))
       (traversal "Allowed residue must be an absolute normalized sandbox path or glob." (prefix +:+ ".verification.cleanup.allowedResidue") ""))
       (cl_AllowedResidue (vs_Cleanup v)).

(** ** A scenario *)

Definition validate_phases (prefix : string) (phases : PhaseSet) : list Issue :=
  let '(prepare, seen) := validateCommandPhase prefix PhasePrepare (ph_Prepare phases) [] in
  let '(setup, seen) := validateCommandPhase prefix PhaseSetup (ph_Setup phases) seen in
  let '(build, seen) := validateCommandPhase prefix PhaseBuild (ph_Build phases) seen in
  let '(run, seen) := validate_run_phase prefix (ph_Run phases) seen in
  let '(cleanup, _) := validateCommandPhase prefix PhaseCleanup (ph_Cleanup phases) seen in
  prepare ++ setup ++ build ++ run ++ cleanup.

Definition validate_scenario (environments : list (string * EnvironmentSpec)) (entry : string * ScenarioSpec) : list Issue :=
  let '(name, scenario) := entry in
  let prefix := "spec.scenarios." +:+ name in
  when (negb (has_key (sn_Environment scenario) environments))
    (invalid "Scenario references an unknown environment." (prefix +:+ ".environment") "")
  ++ flat_map (validate_input prefix) (sn_Inputs scenario)
  ++ flat_map (validate_secret prefix) (sn_Secrets scenario)
  ++ validate_phases prefix (sn_Phases scenario)
  ++ validateSignalTargets prefix scenario (service_id scenario)
  ++ validate_exercise prefix scenario
  ++ flat_map (validate_capability prefix) (sn_Capabilities scenario)
  ++ validate_verification prefix (sn_Verification scenario).

(** ** An environment *)

Definition validate_environment (entry : string * EnvironmentSpec) : list Issue :=
  let '(name, env) := entry in
  let prefix := "spec.environments." +:+ name in
  when (pl_OS (en_Platform env) !=s "linux")
    (invalid "v0.1 recognizes only Linux workload environments." (prefix +:+ ".platform.os") "")
  ++ when ((pl_Architecture (en_Platform env) !=s "amd64") && (pl_Architecture (en_Platform env) !=s "arm64"))
       (invalid "Architecture must be amd64 or arm64." (prefix +:+ ".platform.architecture") "")
  ++ when (negb (one_of (rt_Adapter (en_Runtime env)) supportedAdapters))
       (invalid "Runtime adapter is recognized but unsupported by this release." (prefix +:+ ".runtime.adapter") "Use node or python.")
  ++ when (negb (not_blank (rt_Version (en_Runtime env)))) (invalid "Runtime version is required." (prefix +:+ ".runtime.version") "")
  ++ when (negb (not_blank (bi_Reference (en_BaseImage env))))
       (invalid "Base image reference is required." (prefix +:+ ".baseImage.reference") "")
  ++ when (contains (to_lower (bi_Reference (en_BaseImage env))) ":latest")
       (issue CodeMutableBaseImage "The latest image tag is forbidden." (prefix +:+ ".baseImage.reference") "Pin the image by sha256 digest.")
  ++ when ((rs_PIDs (en_Resources env) <=? 0) || (4096 <? rs_PIDs (en_Resources env)))
       (invalid "resources.pids must be between 1 and 4096." (prefix +:+ ".resources.pids") "")
  ++ when (negb (validCPU (rs_CPU (en_Resources env))))
       (invalid "resources.cpu must be between 0.001 and 64 cores." (prefix +:+ ".resources.cpu") "")
  ++ when (negb (validSize (rs_Memory (en_Resources env))) || negb (validSize (rs_Disk (en_Resources env))))
       (invalid "Memory and disk must use a positive KiB/MiB/GiB size." (prefix +:+ ".resources") "").

(** ** The whole manifest *)

Definition validate_entrypoint (scenarios : list (string * ScenarioSpec)) (index : nat) (entrypoint : string) : list Issue :=
  when (negb (has_key entrypoint scenarios))
    (invalid "Project entrypoint references an unknown scenario." ("spec.project.entrypoints" +:+ index_text index)
       "Declare the scenario or remove the dangling entrypoint.").

Definition validate_manifest (m : Manifest) : list Issue :=
  let spec := mf_Spec m in
  when (mf_APIVersion m !=s APIVersion) (invalid "Unsupported apiVersion." "apiVersion" ("Use " +:+ APIVersion +:+ "."))
  ++ when (mf_Kind m !=s Kind) (invalid "Unsupported kind." "kind" ("Use " +:+ Kind +:+ "."))
  ++ when (negb (MatchString namePattern (md_Name (mf_Metadata m))))
       (invalid "metadata.name must be a lowercase DNS-style name." "metadata.name" "")
  ++ when (negb (one_of (pj_Kind (sp_Project spec)) supportedKinds)) (invalid "Unsupported project kind." "spec.project.kind" "")
  ++ when (is_empty (sp_Environments spec)) (invalid "At least one environment is required." "spec.environments" "")
  ++ when (is_empty (sp_Scenarios spec)) (invalid "At least one scenario is required." "spec.scenarios" "")
  ++ each (validate_entrypoint (sp_Scenarios spec)) (pj_Entrypoints (sp_Project spec))
  ++ flat_map validate_environment (sp_Environments spec)
  ++ flat_map (validate_scenario (sp_Environments spec)) (sp_Scenarios spec)
  ++ when (po_Profile (sp_Policies spec) =s "") (invalid "A policy profile is required." "spec.policies.profile" "Use baseline-v1.").

(** [Validate]; a nil document is a document without a manifest. *)
Definition Validate (doc : Document) : list Error :=
  match dc_Manifest doc with
  | None => [NewError CodeManifestInvalid SeverityHigh "Manifest is empty."]
  | Some m => List.map issue_error (validate_manifest m)
  end.

End assertions.
