(* ===== verification/ManifestSafety.v ===== *)
(** * What an accepted manifest guarantees (internal/manifest)

    A manifest without issues runs no shell, opens no network, names every
    command once and signals only its own service, in cleanup; an accepted HTTP
    journey stays on its declared loopback port and below /outputs and asserts
    only on earlier requests.  The verdict does not depend on the order in which
    Go visits the maps of the manifest. *)

From S2P Require Import Prelude Json StructuredJson SemanticEqual JsonPath GoValue Durations CanonicalJson Domain GoPath GoStrings Url HttpContract Regex PlanTypes Manifest ManifestValidate.

Local Open Scope Z_scope.

(** ** No issues *)

Lemma when_nil {A} (b : bool) (l : list A) : l ≠ [] → when b l = [] ↔ b = false.
Proof. intros Hl. by destruct b. Qed.
Lemma when_issue_nil b code message field suggestion : when b (issue code message field suggestion) = [] ↔ b = false.
Proof. by apply when_nil. Qed.

Lemma flat_map_none {A B} (f : A → list B) l : flat_map f l = [] ↔ Forall (λ x, f x = []) l.
Proof. induction l as [|x l IH]; simpl; [by split|]. rewrite Forall_cons, <- IH. split; [apply app_nil|intros [-> ->]; done]. Qed.

Lemma each_from_nil {A} i (f : nat → A → list Issue) l : each_from i f l = [] ↔ ∀ j x, l !! j = Some x → f (i + j)%nat x = [].
Proof.
  revert i. induction l as [|x l IH]; intros i; simpl; [split; [|done]; intros _ j x; by rewrite lookup_nil|].
  rewrite app_nil, IH. split.
  - intros [H1 H2] [|j] y; simpl; [intros [= <-]; by rewrite Nat.add_0_r|]. intros Hy. rewrite <- Nat.add_succ_comm. by apply H2.
  - intros H. split; [by specialize (H 0%nat x eq_refl); rewrite Nat.add_0_r in H|].
    intros j y Hy. rewrite Nat.add_succ_comm. by apply (H (S j)).
Qed.
Lemma each_nil {A} (f : nat → A → list Issue) l : each f l = [] ↔ ∀ j x, l !! j = Some x → f j x = [].
Proof. apply (each_from_nil 0). Qed.

(** Splitting "no issues" into its parts, tests into their negations. *)
Ltac no_issues :=
  repeat match goal with
  | H : _ ++ _ = [] |- _ => apply app_nil in H as [? ?]
  | H : when _ (issue _ _ _ _) = [] |- _ => rewrite when_issue_nil in H
  | H : when _ (invalid _ _ _) = [] |- _ => apply (proj1 (when_issue_nil _ _ _ _ _)) in H
  | H : when _ (traversal _ _ _) = [] |- _ => apply (proj1 (when_issue_nil _ _ _ _ _)) in H
  | H : when _ (shell_issue _) = [] |- _ => apply (proj1 (when_issue_nil _ _ _ _ _)) in H
  end.

(** ** Ids *)

Lemma assoc_set_appends {A} k (v : A) l : k ∉ l.*1 → (assoc_set k v l).*1 = l.*1 ++ [k].
Proof.
  induction l as [|[j w] l IH]; [done|]. rewrite fmap_cons. cbn [fst assoc_set]. intros [Hne Hni]%not_elem_of_cons.
  destruct (String.eqb_spec j k); [congruence|]. rewrite fmap_cons. cbn [fst]. by rewrite IH.
Qed.
Lemma has_key_false {A} k (l : list (string * A)) : has_key k l = false → k ∉ l.*1.
Proof. unfold has_key. destruct (assoc k l) eqn:E; [done|]. intros _. by apply assoc_None_iff. Qed.

(** An id is added to the ids of a scenario: the list grows by it. *)
Definition grows (seen seen' : ids) (added : list string) : Prop := seen'.*1 = seen.*1 ++ added ∧ (NoDup seen.*1 → NoDup seen'.*1).

Lemma grows_none seen : grows seen seen [].
Proof. split; [by rewrite app_nil_r|done]. Qed.
Lemma grows_trans s1 s2 s3 a b : grows s1 s2 a → grows s2 s3 b → grows s1 s3 (a ++ b).
Proof. intros [E1 H1] [E2 H2]. split; [by rewrite E2, E1, app_assoc|auto]. Qed.
Lemma grows_one seen id v : has_key id seen = false → grows seen (assoc_set id v seen) [id].
Proof.
  intros Hk%has_key_false. split; [by apply assoc_set_appends|]. intros Hn. rewrite assoc_set_appends by done.
  apply NoDup_app. split_and!; [done|set_solver|apply NoDup_singleton].
Qed.

(** ** Commands and steps *)

Definition good_argv (argv : list string) : Prop := argv ≠ [] ∧ Forall (λ arg, arg ≠ "" ∧ has_nul arg = false) argv.
Definition identifier (id : string) : Prop := MatchString identifierPattern id = true.

Lemma argv_accepted field argv : validateArgv field argv false = [] → good_argv argv.
Proof.
  unfold validateArgv. destruct argv as [|a argv]; [done|]. intros H. no_issues. split; [done|].
  apply Forall_forall. intros x Hx. unfold bad_argument in H.
  destruct ((x =s "") || has_nul x) eqn:E; [|by apply orb_false_elim in E as [?%String.eqb_neq ?]].
  exfalso. apply not_true_iff_false in H. apply H, existsb_exists. exists x. split; [by apply list_elem_of_In|done].
Qed.

Definition run_ok (run : RunAction) : Prop := ra_Shell run = None ∧ good_argv (ra_Command run).
Definition timeout_ok (value : string) : Prop :=
  value = "" ∨ ∃ duration, ParseDuration value = Some duration ∧ 0 < duration <= 30 * Minute.
Definition signal_ok (signal : SignalAction) : Prop :=
  identifier (sa_Target signal) ∧ sa_Type signal ∈ ["term"; "kill"; "int"; "hup"] ∧ timeout_ok (sa_GracePeriod signal).
(** One action, and it is a command without a shell or a known signal. *)
Definition step_ok (step : PhaseStep) : Prop :=
  identifier (st_ID step)
  ∧ ((∃ run, st_Run step = Some run ∧ st_Signal step = None ∧ run_ok run)
     ∨ (∃ signal, st_Run step = None ∧ st_Signal step = Some signal ∧ signal_ok signal)).

Lemma timeout_accepted field value : validateTimeout field value = [] → timeout_ok value.
Proof.
  unfold validateTimeout, timeout_ok. destruct (String.eqb_spec value ""); [by left|]. intros H. right. no_issues.
  destruct (ParseDuration value) as [d|]; [|done]. exists d. cbn iota in H. to_prop. split; [done|lia].
Qed.

Lemma step_id_accepted stepPath id seen seen' :
  validate_step_id stepPath id seen = ([], seen') → identifier id ∧ grows seen seen' [id].
Proof.
  unfold validate_step_id. destruct (MatchString identifierPattern id) eqn:E; [|done].
  destruct (has_key id seen) eqn:Ek; [done|]. intros [= <-]. split; [done|by apply grows_one].
Qed.

Lemma run_accepted stepPath run : ra_Shell run = None → validate_run stepPath run = [] → run_ok run.
Proof.
  unfold validate_run, run_ok. intros Hs. rewrite Hs. cbn [is_some negb].
  destruct (ra_Command run) as [|c command] eqn:E; [done|]. cbn [is_empty negb Bool.eqb]. intros H. split; [done|].
  by eapply argv_accepted.
Qed.

Lemma step_accepted field i step seen seen' :
  validate_step field i step seen = ([], seen') → step_ok step ∧ grows seen seen' [st_ID step].
Proof.
  unfold validate_step. destruct (validate_step_id _ (st_ID step) seen) as [id_issues s] eqn:Eid. intros [= H <-].
  no_issues. subst id_issues. apply step_id_accepted in Eid as [Hid Hg]. split; [|done]. split; [done|].
  destruct (st_Run step) as [run|] eqn:Er, (st_Signal step) as [signal|] eqn:Es; try done; cbn [from_option is_some negb] in *.
  - left. exists run. split_and!; [done|done|]. eapply run_accepted; [|done]. by destruct (ra_Shell run).
  - right. exists signal. split_and!; [done|done|]. unfold validate_signal in *. no_issues. to_prop.
    split_and!; [done|by apply one_of_In|by eapply timeout_accepted].
Qed.

Lemma steps_accepted field i steps seen seen' :
  validate_steps_from field i steps seen = ([], seen') → Forall step_ok steps ∧ grows seen seen' (List.map st_ID steps).
Proof.
  revert i seen. induction steps as [|step steps IH]; intros i seen; cbn [validate_steps_from].
  - intros [= <-]. split; [constructor|apply grows_none].
  - destruct (validate_step field i step seen) as [issues s] eqn:E1.
    destruct (validate_steps_from field (S i) steps s) as [more s'] eqn:E2. intros [= H <-]. no_issues. subst issues more.
    apply step_accepted in E1 as [H1 G1]. apply IH in E2 as [H2 G2]. split; [by constructor|].
    exact (grows_trans _ _ _ [st_ID step] _ G1 G2).
Qed.

Lemma command_phase_accepted prefix phase p seen seen' :
  validateCommandPhase prefix phase p seen = ([], seen') →
  Forall step_ok (command_steps p) ∧ grows seen seen' (List.map st_ID (command_steps p)).
Proof.
  unfold validateCommandPhase, command_steps. destruct p as [p|]; [|intros [= <-]; split; [constructor|apply grows_none]].
  destruct (validateSteps _ (cp_Steps p) seen) as [issues s] eqn:E. intros [= H <-]. no_issues. subst issues.
  by eapply steps_accepted.
Qed.

(** ** The service and the signals *)

Definition readiness_ok (readiness : HTTPReadiness) : Prop :=
  (∃ u port, contract_url (hr_URL readiness) u port) ∧ AlphaHTTPMinimumStatus <= hr_Status readiness <= AlphaHTTPMaximumStatus
  ∧ ∃ timeout, ParseAlphaHTTPDuration (hr_Timeout readiness) AlphaHTTPMaxReadinessTime = Ok timeout.
Definition service_ok (service : ServiceSpec) : Prop :=
  identifier (sv_ID service) ∧ sv_Shell service = None ∧ good_argv (sv_Command service)
  ∧ ∃ readiness, rd_HTTP (sv_Readiness service) = Some readiness ∧ readiness_ok readiness.

Lemma url_accepted field value : validateHTTPURL field value = [] → ∃ u port, contract_url value u port.
Proof.
  unfold validateHTTPURL. destruct (ParseAlphaHTTPURL value) as [[u port]|] eqn:E; [|done].
  intros _. exists u, port. by apply accepted_contract_url.
Qed.

Lemma http_duration_accepted field value maximum :
  validateHTTPDuration field value maximum = [] → value = "" ∨ ∃ duration, ParseAlphaHTTPDuration value maximum = Ok duration.
Proof.
  unfold validateHTTPDuration. destruct (String.eqb_spec value ""); [by left|]. intros H. right.
  destruct (ParseAlphaHTTPDuration value maximum); [eauto|done].
Qed.

Lemma readiness_accepted prefix o :
  validate_readiness prefix o = [] → ∃ readiness, o = Some readiness ∧ readiness_ok readiness.
Proof.
  unfold validate_readiness. destruct o as [r|]; [|done]. intros H. no_issues. exists r. split; [done|].
  unfold readiness_ok, status_out_of_range in *. to_prop.
  match goal with H : validateHTTPURL _ _ = [] |- _ => apply url_accepted in H end.
  match goal with H : validateHTTPDuration _ _ _ = [] |- _ => apply http_duration_accepted in H as [|] end; [done|].
  split_and!; done.
Qed.

Lemma service_accepted prefix service seen seen' :
  validate_service prefix service seen = ([], seen') → service_ok service ∧ grows seen seen' [sv_ID service].
Proof.
  unfold validate_service. destruct (validate_service_id _ (sv_ID service) seen) as [id_issues s] eqn:Eid. intros [= H <-].
  no_issues. subst id_issues.
  match goal with H : validate_readiness _ _ = [] |- _ => apply readiness_accepted in H end.
  assert (sv_Shell service = None) as Hs by (by destruct (sv_Shell service)).
  rewrite Hs in *. cbn [is_some negb] in *.
  assert (identifier (sv_ID service) ∧ grows seen s [sv_ID service]) as [Hid Hg].
  { revert Eid. unfold validate_service_id. destruct (MatchString identifierPattern (sv_ID service)) eqn:E; [|done].
    destruct (has_key (sv_ID service) seen) eqn:Ek; [done|]. intros [= <-]. split; [done|by apply grows_one]. }
  split; [|done]. unfold service_ok. split_and!; [done|done| |done].
  destruct (sv_Command service) as [|c command]; [done|]. cbn [is_empty negb Bool.eqb] in *. by eapply argv_accepted.
Qed.

Definition optional_ids (o : option ServiceSpec) : list string := match o with Some service => [sv_ID service] | None => [] end.

Lemma run_phase_accepted prefix p seen seen' :
  validate_run_phase prefix p seen = ([], seen') →
  Forall step_ok (run_steps p) ∧ (∀ run service, p = Some run → rn_Service run = Some service → service_ok service)
  ∧ grows seen seen' (List.map st_ID (run_steps p) ++ optional_ids (match p with Some run => rn_Service run | None => None end)).
Proof.
  unfold validate_run_phase, run_steps. destruct p as [p|].
  2: { intros [= <-]. split_and!; [constructor|done|apply grows_none]. }
  destruct (validateSteps _ (rn_Steps p) seen) as [step_issues s] eqn:E1.
  destruct (match rn_Service p with Some _ => _ | None => _ end) as [service_issues s'] eqn:E2. intros [= H <-].
  no_issues. subst step_issues service_issues. apply steps_accepted in E1 as [H1 G1].
  destruct (rn_Service p) as [service|] eqn:Es.
  - apply service_accepted in E2 as [H2 G2]. split_and!; [done|naive_solver|exact (grows_trans _ _ _ _ _ G1 G2)].
  - injection E2 as <-. split_and!; [done|naive_solver|]. cbn [optional_ids]. by rewrite app_nil_r.
Qed.

(** The steps and the ids of a scenario, in the order of its phases. *)
Definition scenario_steps (phases : PhaseSet) : list PhaseStep :=
  command_steps (ph_Prepare phases) ++ command_steps (ph_Setup phases) ++ command_steps (ph_Build phases)
  ++ run_steps (ph_Run phases) ++ command_steps (ph_Cleanup phases).
Definition phases_service (phases : PhaseSet) : option ServiceSpec :=
  match ph_Run phases with Some run => rn_Service run | None => None end.
Definition scenario_ids (phases : PhaseSet) : list string :=
  List.map st_ID (command_steps (ph_Prepare phases)) ++ List.map st_ID (command_steps (ph_Setup phases))
  ++ List.map st_ID (command_steps (ph_Build phases))
  ++ (List.map st_ID (run_steps (ph_Run phases)) ++ optional_ids (phases_service phases))
  ++ List.map st_ID (command_steps (ph_Cleanup phases)).

Lemma phases_accepted prefix phases :
  validate_phases prefix phases = [] →
  Forall step_ok (scenario_steps phases) ∧ (∀ service, phases_service phases = Some service → service_ok service)
  ∧ NoDup (scenario_ids phases).
Proof.
  unfold validate_phases, scenario_steps, scenario_ids, phases_service.
  destruct (validateCommandPhase prefix PhasePrepare _ _) as [i1 s1] eqn:E1.
  destruct (validateCommandPhase prefix PhaseSetup _ _) as [i2 s2] eqn:E2.
  destruct (validateCommandPhase prefix PhaseBuild _ _) as [i3 s3] eqn:E3.
  destruct (validate_run_phase prefix _ _) as [i4 s4] eqn:E4.
  destruct (validateCommandPhase prefix PhaseCleanup _ _) as [i5 s5] eqn:E5.
  intros H. no_issues. subst.
  apply command_phase_accepted in E1 as [H1 G1]. apply command_phase_accepted in E2 as [H2 G2].
  apply command_phase_accepted in E3 as [H3 G3]. apply run_phase_accepted in E4 as (H4 & Hs & G4).
  apply command_phase_accepted in E5 as [H5 G5]. split_and!.
  - by rewrite !Forall_app.
  - intros service Hsv. destruct (ph_Run phases) as [run|]; [|done]. by eapply Hs.
  - pose proof (grows_trans _ _ _ _ _ G1 (grows_trans _ _ _ _ _ G2 (grows_trans _ _ _ _ _ G3 (grows_trans _ _ _ _ _ G4 G5)))) as [E Hn].
    cbn in E. rewrite <- E. apply Hn. constructor.
Qed.

Lemma no_signal_phase prefix phase serviceID steps :
  phase ≠ PhaseCleanup → each (validate_signal_target prefix phase serviceID) steps = [] → Forall (λ step, st_Signal step = None) steps.
Proof.
  intros Hp H. rewrite each_nil in H. apply Forall_lookup. intros i step Hi. specialize (H i step Hi).
  unfold validate_signal_target in H. destruct (st_Signal step) as [signal|]; [|done]. exfalso. revert H.
  rewrite (proj2 (String.eqb_neq _ _) Hp), andb_false_r. by case_tests.
Qed.

Lemma cleanup_signal_phase prefix serviceID steps :
  each (validate_signal_target prefix PhaseCleanup serviceID) steps = [] →
  Forall (λ step, ∀ signal, st_Signal step = Some signal → sa_Target signal = serviceID ∧ serviceID ≠ "") steps.
Proof.
  intros H. rewrite each_nil in H. apply Forall_lookup. intros i step Hi signal Hs. specialize (H i step Hi).
  unfold validate_signal_target in H. rewrite Hs in H. destruct (String.eqb_spec serviceID ""); [done|].
  destruct (String.eqb_spec (sa_Target signal) serviceID); [done|]. done.
Qed.

(** Signals go to the declared service, and only in cleanup. *)
Definition signals_confined (phases : PhaseSet) (serviceID : string) : Prop :=
  Forall (λ step, st_Signal step = None)
    (command_steps (ph_Prepare phases) ++ command_steps (ph_Setup phases) ++ command_steps (ph_Build phases) ++ run_steps (ph_Run phases))
  ∧ Forall (λ step, ∀ signal, st_Signal step = Some signal → sa_Target signal = serviceID ∧ serviceID ≠ "")
      (command_steps (ph_Cleanup phases)).

Lemma signals_accepted prefix scenario serviceID :
  validateSignalTargets prefix scenario serviceID = [] → signals_confined (sn_Phases scenario) serviceID.
Proof.
  unfold validateSignalTargets, signals_confined. intros H. no_issues. rewrite !Forall_app.
  split; [|by eapply cleanup_signal_phase]. split_and!; (eapply no_signal_phase; [|eassumption]; done).
Qed.

(** ** Capabilities, inputs and the verification policy *)

Definition deny_all (capability : CapabilitySet) : Prop :=
  nc_Deny (cs_Network capability) = true ∧ elems (nc_Allow (cs_Network capability)) = [].
Definition glob_ok (p : string) : Prop := validSandboxGlob p = true.

(** The network of the run and of the exercise is closed; every other declared
    destination is a host name with a port; every path is a sandbox path. *)
Definition capability_ok (entry : string * CapabilitySet) : Prop :=
  (entry.1 = PhaseRun ∨ entry.1 = PhaseExercise → deny_all entry.2)
  ∧ (nc_Deny (cs_Network entry.2) = true → elems (nc_Allow (cs_Network entry.2)) = [])
  ∧ Forall (λ d, validHostname (nd_Host d) = true ∧ 1 <= nd_Port d <= 65535) (elems (nc_Allow (cs_Network entry.2)))
  ∧ Forall glob_ok (elems (fc_Read (cs_Filesystem entry.2)) ++ elems (fc_Write (cs_Filesystem entry.2))).

Lemma empty_nil {A} (l : list A) : is_empty l = true ↔ l = [].
Proof. by destruct l. Qed.

Lemma capability_accepted prefix entry : validate_capability prefix entry = [] → capability_ok entry.
Proof.
  destruct entry as [phase capability]. unfold validate_capability, capability_ok, deny_all. cbn [fst snd]. intros H. no_issues.
  match goal with H : each _ _ = [] |- _ => rewrite each_nil in H; rename H into Hd end.
  match goal with H : flat_map _ _ = [] |- _ => apply flat_map_none in H; rename H into Hf end.
  match goal with H : _ && negb (is_empty _) = false |- _ => rename H into Hx end.
  match goal with H : _ && (_ || _) = false |- _ => rename H into Hn end.
  split_and!.
  - intros Hp. destruct (_ || _) eqn:E in Hn; [|exfalso; by destruct Hp; subst].
    cbn [andb] in Hn. to_prop. rewrite empty_nil in *. done.
  - intros Hdeny. rewrite Hdeny in Hx. cbn [andb] in Hx. to_prop. by apply empty_nil.
  - apply Forall_lookup. intros i d Hi. specialize (Hd i d Hi). unfold validate_destination in Hd. no_issues. to_prop. split; [done|lia].
  - eapply Forall_impl; [exact Hf|]. intros p Hp. cbn beta in Hp. no_issues. by to_prop.
Qed.

(** A file or directory input is read-only and mounted below /inputs; its
    fixture is a path of plain names, or [..] itself, which the test misses. *)
Definition input_ok (entry : string * InputSpec) : Prop :=
  let input := entry.2 in
  identifier entry.1
  ∧ (path_input input = true → mt_ReadOnly (in_Mount input) = true
       ∧ (in_Fixture input = ".." ∨ Forall plain_name (split_on "/" (in_Fixture input))))
  ∧ (mt_Path (in_Mount input) = "" ∨ ∃ names, mt_Path (in_Mount input) = "/" +:+ join_with "/" ("inputs" :: names) ∧ Forall plain_name names).

Lemma fixture_plain fixture : validFixture fixture = true → fixture = ".." ∨ Forall plain_name (split_on "/" fixture).
Proof.
  unfold validFixture. intros H. apply negb_true_iff in H. repeat (apply orb_false_elim in H as [H ?]). to_prop.
  destruct (decide (fixture = "..")) as [|Hne]; [by left|right].
  match goal with H : Clean fixture = fixture |- _ => rename H into Hc end. rewrite Hc in *. by apply clean_plain.
Qed.

Lemma sandbox_path_clean value : validSandboxPath value = true → is_rooted value = true ∧ Clean value = value.
Proof. unfold validSandboxPath. intros H. case_test; [done|]. to_prop. done. Qed.

Lemma input_accepted prefix entry : validate_input prefix entry = [] → input_ok entry.
Proof.
  destruct entry as [name input]. unfold validate_input, input_ok. cbn [fst snd]. intros H. no_issues. to_prop.
  split_and!; [done| |].
  - intros Hp. rewrite Hp in *. cbn [andb] in *. to_prop. split; [done|by apply fixture_plain].
  - destruct (String.eqb_spec (mt_Path (in_Mount input)) "") as [|Hne]; [by left|right]. cbn [negb andb] in *. to_prop.
    match goal with H : validSandboxPath _ = true |- _ => apply sandbox_path_clean in H as [Hr Hc] end.
    destruct (clean_below "inputs" (mt_Path (in_Mount input))) as (names & Hv & Hn & _); [done|done|done|by right|eauto].
Qed.

Definition secret_ok (entry : string * SecretSpec) : Prop :=
  sec_Source entry.2 = "synthetic" ∧ not_blank (se_Env (sec_ExposeAs entry.2)) = true ∧ sc_Phases (sec_Scope entry.2) ≠ [].

Lemma secret_accepted prefix entry : validate_secret prefix entry = [] → secret_ok entry.
Proof.
  destruct entry as [name secret]. unfold validate_secret, secret_ok. cbn [fst snd]. intros H. no_issues. to_prop.
  split_and!; [done|done|]. by destruct (sc_Phases (sec_Scope secret)).
Qed.

Definition verification_ok (v : VerificationSpec) : Prop :=
  1 <= vs_SuccessThreshold v <= vs_Repeats v ∧ Forall (λ o, o ∈ supportedObservers) (vs_RequiredObservers v)
  ∧ Forall glob_ok (cl_AllowedResidue (vs_Cleanup v)).

Lemma verification_accepted prefix v : validate_verification prefix v = [] → verification_ok v.
Proof.
  unfold validate_verification, verification_ok. intros H. no_issues. to_prop.
  repeat match goal with H : flat_map _ _ = [] |- _ => apply flat_map_none in H end.
  split_and!; [lia|lia| |]; (eapply Forall_impl; [eassumption|]); intros x Hx; cbn beta in Hx; no_issues; to_prop; [by apply one_of_In|done].
Qed.

(** ** Scenarios *)

Section scenarios.
  Context `{RegexpSyntax}.

(** The exercise of a scenario: a command with assertions and no service, or the
    steps of an HTTP journey ([journey_accepted] below). *)
Definition exercise_ok (scenario : ScenarioSpec) : Prop :=
  ∃ exercise, ph_Exercise (sn_Phases scenario) = Some exercise ∧ timeout_ok (ex_Timeout exercise)
    ∧ ((dv_Type (ex_Driver exercise) = "cli" ∧ good_argv (dv_Command (ex_Driver exercise)) ∧ dv_Assertions (ex_Driver exercise) ≠ []
        ∧ dv_Steps (ex_Driver exercise) = [] ∧ service_id scenario = "")
       ∨ (dv_Type (ex_Driver exercise) = "http" ∧ dv_Command (ex_Driver exercise) = [] ∧ dv_Assertions (ex_Driver exercise) = []
          ∧ ∃ prefix, validateHTTPProfile prefix scenario exercise = [])).

Lemma exercise_accepted prefix scenario : validate_exercise prefix scenario = [] → exercise_ok scenario.
Proof.
  unfold validate_exercise, exercise_ok. destruct (ph_Exercise (sn_Phases scenario)) as [exercise|]; [|done]. intros Hall.
  no_issues. exists exercise. split; [done|]. to_prop.
  match goal with H : validateTimeout _ _ = [] |- _ => apply timeout_accepted in H end. split; [done|].
  match goal with H : one_of (dv_Type _) _ = true |- _ => apply one_of_In in H; rename H into Ht end.
  unfold supportedDrivers in Ht. rewrite !elem_of_cons, elem_of_nil in Ht. destruct Ht as [Ht|[Ht|[]]]; rewrite Ht in *.
  - left. split; [done|]. cbn [String.eqb Ascii.eqb Bool.eqb when] in *. unfold validate_cli_driver in *. no_issues. to_prop.
    match goal with H : validateArgv _ _ _ = [] |- _ => apply argv_accepted in H end.
    split_and!; [done|by destruct (dv_Assertions _)|by destruct (dv_Steps _)|done].
  - right. split; [done|]. cbn [String.eqb Ascii.eqb Bool.eqb when] in *. no_issues. to_prop.
    repeat match goal with H : is_empty _ = true |- _ => apply empty_nil in H end.
    split_and!; [done|done|by eexists].
Qed.

(** What holds of every scenario of an accepted manifest. *)
Record scenario_ok (environments : list (string * EnvironmentSpec)) (scenario : ScenarioSpec) : Prop := {
  ok_environment : has_key (sn_Environment scenario) environments = true;
  ok_steps : Forall step_ok (scenario_steps (sn_Phases scenario));
  ok_service : ∀ service, phases_service (sn_Phases scenario) = Some service → service_ok service;
  ok_ids : NoDup (scenario_ids (sn_Phases scenario));
  ok_signals : signals_confined (sn_Phases scenario) (service_id scenario);
  ok_inputs : Forall input_ok (sn_Inputs scenario);
  ok_secrets : Forall secret_ok (sn_Secrets scenario);
  ok_capabilities : Forall capability_ok (sn_Capabilities scenario);
  ok_exercise : exercise_ok scenario;
  ok_verification : verification_ok (sn_Verification scenario) }.

Lemma scenario_accepted environments entry : validate_scenario environments entry = [] → scenario_ok environments entry.2.
Proof.
  destruct entry as [name scenario]. unfold validate_scenario. cbn [snd]. intros Hall. no_issues. to_prop.
  repeat match goal with H : flat_map _ _ = [] |- _ => apply flat_map_none in H end.
  match goal with H : validate_phases _ _ = [] |- _ => apply phases_accepted in H as (? & ? & ?) end.
  split; try done.
  - by eapply signals_accepted.
  - eapply Forall_impl; [eassumption|]. intros x. apply input_accepted.
  - eapply Forall_impl; [eassumption|]. intros x. apply secret_accepted.
  - eapply Forall_impl; [eassumption|]. intros x. apply capability_accepted.
  - by eapply exercise_accepted.
  - by eapply verification_accepted.
Qed.

(** An environment: Linux, a supported runtime, bounded resources, no image
    tagged latest. *)
Definition environment_ok (entry : string * EnvironmentSpec) : Prop :=
  let env := entry.2 in
  pl_OS (en_Platform env) = "linux" ∧ pl_Architecture (en_Platform env) ∈ ["amd64"; "arm64"]
  ∧ rt_Adapter (en_Runtime env) ∈ supportedAdapters ∧ contains (to_lower (bi_Reference (en_BaseImage env))) ":latest" = false
  ∧ 1 <= rs_PIDs (en_Resources env) <= 4096 ∧ validCPU (rs_CPU (en_Resources env)) = true
  ∧ validSize (rs_Memory (en_Resources env)) = true ∧ validSize (rs_Disk (en_Resources env)) = true.

Lemma environment_accepted entry : validate_environment entry = [] → environment_ok entry.
Proof.
  destruct entry as [name env]. unfold validate_environment, environment_ok. cbn [snd]. intros Hall. no_issues. to_prop.
  match goal with H : one_of _ supportedAdapters = true |- _ => apply one_of_In in H end.
  split_and!; try done; try lia.
  match goal with H : _ && _ = false |- _ => apply andb_false_iff in H as [H|H] end; to_prop; set_solver.
Qed.

(** The parts of an accepted manifest have no issues of their own. *)
Lemma manifest_accepted_parts doc m :
  dc_Manifest doc = Some m → Validate doc = [] →
  validate_manifest m = [] ∧ Forall (λ e, validate_environment e = []) (sp_Environments (mf_Spec m))
  ∧ Forall (λ entry, validate_scenario (sp_Environments (mf_Spec m)) entry = []) (sp_Scenarios (mf_Spec m)).
Proof.
  unfold Validate. intros -> Hall. apply List.map_eq_nil in Hall. split; [done|]. unfold validate_manifest in Hall. no_issues.
  repeat match goal with H : flat_map _ _ = [] |- _ => apply flat_map_none in H end. done.
Qed.

(** C26: A manifest that [Validate] finds no issue with runs no shell anywhere,
    declares each command, signal and service under an id of its own, denies all
    network in the run and in the exercise, sends signals only in cleanup and
    only to its declared service, mounts files read-only below /inputs, uses only
    synthetic secrets, and has for each scenario a known environment, an
    exercise of a supported driver and a success threshold from 1 to the number
    of repeats. *)
Theorem manifest_accepted_safe doc m :
  dc_Manifest doc = Some m → Validate doc = [] →
  Forall environment_ok (sp_Environments (mf_Spec m))
  ∧ sp_Scenarios (mf_Spec m) ≠ []
  ∧ Forall (λ e, has_key e (sp_Scenarios (mf_Spec m)) = true) (pj_Entrypoints (sp_Project (mf_Spec m)))
  ∧ Forall (λ entry, scenario_ok (sp_Environments (mf_Spec m)) entry.2) (sp_Scenarios (mf_Spec m)).
Proof.
  intros Hm Hv. destruct (manifest_accepted_parts doc m Hm Hv) as (Hall & Henv & Hsc). unfold validate_manifest in Hall. no_issues.
  match goal with H : each _ _ = [] |- _ => rewrite each_nil in H; rename H into He end.
  split_and!.
  - eapply Forall_impl; [exact Henv|]. intros x. apply environment_accepted.
  - by destruct (sp_Scenarios (mf_Spec m)).
  - apply Forall_lookup. intros i e Hi. specialize (He i e Hi). unfold validate_entrypoint in He. no_issues. by to_prop.
  - eapply Forall_impl; [eassumption|]. intros x. apply scenario_accepted.
Qed.

(** ** HTTP journeys *)

(** The headers a request may carry. *)
Definition header_safe (h : string * string) : Prop :=
  MatchString httpHeaderNamePattern h.1 = true ∧ to_lower h.1 ∉ forbiddenHTTPRequestHeaders ∧ printableASCII h.2 = true
  ∧ contains_any newline_set h.2 = false ∧ zlen h.2 <= maxHTTPHeaderValueBytes.
Definition headers_safe (headers : list (string * string)) : Prop :=
  Forall header_safe headers ∧ NoDup (List.map (λ h, to_lower h.1) headers).

Lemma one_of_false s l : one_of s l = false ↔ s ∉ l.
Proof. rewrite <- one_of_In. by destruct (one_of s l). Qed.

Lemma header_names_accepted field headers seen :
  header_names_loop field headers seen = [] →
  Forall header_safe headers ∧ NoDup (List.map (λ h, to_lower h.1) headers) ∧ (∀ h, h ∈ headers → to_lower h.1 ∉ seen).
Proof.
  revert seen. induction headers as [|[name value] headers IH]; intros seen; cbn [header_names_loop].
  { intros _. split_and!; [constructor|constructor|]. intros h Hh. by apply not_elem_of_nil in Hh. }
  destruct (MatchString httpHeaderNamePattern name) eqn:E1; cbn [negb]; [|done].
  destruct (contains_any newline_set name) eqn:E2; [done|].
  destruct (one_of (to_lower name) forbiddenHTTPRequestHeaders) eqn:E3; [done|].
  destruct (one_of (to_lower name) seen) eqn:E4; [done|]. intros Hall. rewrite app_nil_l in Hall. no_issues.
  match goal with H : header_names_loop _ _ _ = [] |- _ => apply IH in H as (Hs & Hn & Hd) end. to_prop.
  rewrite one_of_false in E3, E4. split_and!.
  - constructor; [|done]. unfold header_safe. cbn [fst snd]. done.
  - cbn [List.map fst]. constructor; [|done]. intros (h & Eh & Hh)%list_elem_of_fmap.
    apply (Hd h Hh). rewrite <- Eh. left.
  - intros h [->|Hh]%elem_of_cons; [done|]. specialize (Hd h Hh). set_solver.
Qed.

Lemma request_headers_accepted field headers hasJSON :
  validateHTTPRequestHeaders field headers hasJSON = [] → headers_safe headers ∧ headers_within_limits headers hasJSON.
Proof.
  unfold validateHTTPRequestHeaders. intros Hall. no_issues.
  match goal with H : header_names_loop _ _ _ = [] |- _ => apply header_names_accepted in H as (Hs & Hn & _) end.
  split; [|apply headers_exact; by destruct (ValidateAlphaHTTPHeaders headers hasJSON) as [[]|]].
  unfold headers_safe. by rewrite <- (sort_keys_same headers).
Qed.

(** A request of a journey, for the port its scenario declares (a declared port 0
    is not compared with the URLs). *)
Definition url_on_port (declaredPort : Z) (url : string) : Prop :=
  ∃ u port, contract_url url u port ∧ (declaredPort = 0 ∨ port = declaredPort).
Definition request_ok (declaredPort : Z) (request : HTTPRequest) : Prop :=
  identifier (rq_ID request) ∧ rq_Method request ∈ supportedHTTPMethods ∧ url_on_port declaredPort (rq_URL request)
  ∧ (rq_Timeout request = "" ∨ ∃ timeout, ParseAlphaHTTPDuration (rq_Timeout request) AlphaHTTPMaxRequestTime = Ok timeout)
  ∧ headers_safe (rq_Headers request) ∧ headers_within_limits (rq_Headers request) (HasJSON request)
  ∧ (HasBody request = false ∨ HasJSON request = false) ∧ zlen (rq_Body request) <= maxHTTPRequestBodyBytes
  ∧ (HasJSON request = true → ∃ encoded, Marshal (to_json (rq_JSON request)) = Ok encoded ∧ zlen encoded <= maxHTTPRequestBodyBytes).

(** An assertion of step [index]: about a response of an earlier request, or a
    file below /outputs. *)
Definition output_file (value : string) : Prop :=
  ∃ names, value = "/" +:+ join_with "/" ("outputs" :: names) ∧ Forall plain_name names.
Definition answers_earlier (all : list DriverStep) (index : nat) (a : ResponseAssertion) : Prop :=
  ∃ k step request, (k < index)%nat ∧ all !! k = Some step ∧ ds_Request step = Some request ∧ ds_Assert step = None
    ∧ rq_ID request = rs_RequestID a.
Definition journey_assertion_ok (all : list DriverStep) (index : nat) (a : DriverAssertion) : Prop :=
  identifier (da_ID a)
  ∧ ((∃ response, da_Response a = Some response ∧ da_FileExists a = "" ∧ da_JSONFile a = None ∧ answers_earlier all index response)
     ∨ (da_Response a = None ∧ da_FileExists a ≠ "" ∧ da_JSONFile a = None ∧ output_file (da_FileExists a))
     ∨ (∃ file, da_Response a = None ∧ da_FileExists a = "" ∧ da_JSONFile a = Some file ∧ output_file (jf_Path file)
          ∧ validPortableRepositoryPath (jf_Schema file) = true)).

Definition journey_step_ok (declaredPort : Z) (all : list DriverStep) (index : nat) (step : DriverStep) : Prop :=
  (∃ request, ds_Request step = Some request ∧ ds_Assert step = None ∧ request_ok declaredPort request)
  ∨ (∃ a, ds_Request step = None ∧ ds_Assert step = Some a ∧ journey_assertion_ok all index a).

Definition journey_step_id (step : DriverStep) : string :=
  match ds_Request step, ds_Assert step with Some request, _ => rq_ID request | None, Some a => da_ID a | None, None => "" end.

(** What the ids stand for when the steps [past] have been read. *)
Record ids_of_past (past : list DriverStep) (st : journey_ids) : Prop := {
  past_ids : (ji_seen st).*1 = List.map journey_step_id past;
  past_unique : NoDup (ji_seen st).*1;
  past_requests : ∀ id k, assoc id (ji_requests st) = Some k →
    ∃ step request, past !! k = Some step ∧ ds_Request step = Some request ∧ ds_Assert step = None ∧ rq_ID request = id }.

Lemma url_port_accepted field field' url declaredPort :
  validateHTTPURL field url = [] → validateHTTPURLPort field' url declaredPort = [] → url_on_port declaredPort url.
Proof.
  unfold validateHTTPURL, validateHTTPURLPort. destruct (ParseAlphaHTTPURL url) as [[u port]|] eqn:E; [|done]. intros _ Hp.
  exists u, port. split; [by apply accepted_contract_url|]. destruct (Z.eqb_spec declaredPort 0); [by left|right].
  no_issues. by to_prop.
Qed.

Lemma seen_new past st id v :
  ids_of_past past st → assoc id (ji_seen st) = None →
  (assoc_set id v (ji_seen st)).*1 = List.map journey_step_id past ++ [id] ∧ NoDup (assoc_set id v (ji_seen st)).*1.
Proof.
  intros [Hids Hn _] Ha. assert (has_key id (ji_seen st) = false) as Hk by (unfold has_key; by rewrite Ha).
  destruct (grows_one _ _ v Hk) as [E Hg]. rewrite E, Hids. split; [done|]. rewrite <- Hids, <- E. by apply Hg.
Qed.

Lemma journey_request_accepted field request declaredPort past st st' step :
  ds_Request step = Some request → ds_Assert step = None →
  ids_of_past past st → validateHTTPRequest field request declaredPort (length past) st = ([], st') →
  request_ok declaredPort request ∧ ids_of_past (past ++ [step]) st'.
Proof.
  intros Hr Ha Hpast. unfold validateHTTPRequest. destruct (validate_request_id field (rq_ID request) (length past) st) as [id_issues s] eqn:Eid.
  intros [= Hall <-]. no_issues. subst id_issues. unfold validate_request_id in Eid.
  destruct (MatchString identifierPattern (rq_ID request)) eqn:Em; [|done]. cbn [negb] in Eid.
  destruct (assoc (rq_ID request) (ji_seen st)) eqn:Ek; [done|]. injection Eid as <-.
  match goal with H : validateHTTPRequestHeaders _ _ _ = [] |- _ => apply request_headers_accepted in H as [Hh Hl] end.
  match goal with H : validateHTTPURL _ _ = [] |- _ => pose proof (url_port_accepted _ _ _ _ H ltac:(eassumption)) as Hu end.
  match goal with H : validateHTTPDuration _ _ _ = [] |- _ => apply http_duration_accepted in H as Ht end. to_prop.
  split.
  - unfold request_ok. split_and!; try done; [by apply one_of_In|by apply andb_false_iff|].
    intros Hj. match goal with H : when (HasJSON request) _ = [] |- _ => rewrite Hj in H; cbn [when] in H; unfold validate_request_json in H; rename H into Hx end.
    destruct (Marshal (to_json (rq_JSON request))) as [encoded|]; [|done]. exists encoded. no_issues. by to_prop.
  - destruct (seen_new past st (rq_ID request) (field +:+ ".id") Hpast Ek) as [E1 E2]. destruct Hpast as [Hids Hn Hreq].
    split; cbn [ji_seen ji_requests].
    + rewrite E1, List.map_app. cbn [List.map]. assert (journey_step_id step = rq_ID request) as -> by (unfold journey_step_id; by rewrite Hr). done.
    + done.
    + intros id k. destruct (decide (id = rq_ID request)) as [->|Hne].
      * rewrite assoc_set_eq. intros [= <-]. exists step, request. rewrite lookup_app_r, Nat.sub_diag by lia. done.
      * rewrite assoc_set_ne by done. intros (s & r & Hk & Hrest)%Hreq. exists s, r. split; [by apply lookup_app_l_Some|done].
Qed.

Lemma output_path_file value : validHTTPOutputPath value = true → output_file value.
Proof.
  unfold validHTTPOutputPath. destruct (ValidateAlphaHTTPOutputPath value) as [[]|] eqn:E; [|done]. intros _.
  destruct (output_path_confined value E) as (names & Hv & Hn & _). by exists names.
Qed.

Lemma assertion_operation field a :
  validateAssertion field a = [] → http_only a = true →
  (∃ response, da_Response a = Some response ∧ da_FileExists a = "" ∧ da_JSONFile a = None)
  ∨ (da_Response a = None ∧ da_FileExists a ≠ "" ∧ da_JSONFile a = None)
  ∨ (∃ file, da_Response a = None ∧ da_FileExists a = "" ∧ da_JSONFile a = Some file ∧ validPortableRepositoryPath (jf_Schema file) = true).
Proof.
  unfold validateAssertion, http_only. intros Hall Hh. no_issues. to_prop.
  repeat match goal with
  | H : is_some _ = false |- _ => rewrite H in *; clear H
  | H : da_StdoutJSONSchema a = "" |- _ => rewrite H in *; clear H
  end.
  unfold count_true in *. cbn [List.filter negb String.eqb] in *.
  destruct (da_Response a) as [r|], (da_JSONFile a) as [f|], (String.eqb_spec (da_FileExists a) ""); cbn in *; try done; to_prop; try done.
  - left. eauto.
  - right. right. exists f. no_issues. by to_prop.
  - right. by left.
Qed.

Lemma journey_assertion_accepted field a past st st' step rest :
  ds_Request step = None → ds_Assert step = Some a →
  ids_of_past past st → validate_journey_assertion field a (length past) st = ([], st') →
  journey_assertion_ok (past ++ step :: rest) (length past) a ∧ ids_of_past (past ++ [step]) st'.
Proof.
  intros Hr Ha Hpast. unfold validate_journey_assertion. destruct (validateHTTPAssertionID field (da_ID a) st) as [id_issues s] eqn:Eid.
  intros [= Hall <-]. no_issues. subst id_issues. unfold validateHTTPAssertionID in Eid.
  destruct (MatchString identifierPattern (da_ID a)) eqn:Em; [|done]. cbn [negb] in Eid.
  destruct (assoc (da_ID a) (ji_seen st)) eqn:Ek; [done|]. injection Eid as <-. cbn [ji_requests] in *. to_prop.
  match goal with H : validateAssertion _ _ = [] |- _ => pose proof (assertion_operation _ _ H ltac:(done)) as Hop end.
  split.
  - split; [done|]. destruct Hop as [(response & Er & Ef & Ej)|[(Er & Ef & Ej)|(file & Er & Ef & Ej & Hs)]].
    + left. exists response. split_and!; [done|done|done|]. rewrite Er in *. cbn [from_option] in *.
      match goal with H : validateHTTPResponseAssertion _ _ _ _ = [] |- _ => unfold validateHTTPResponseAssertion in H; rename H into Hx end.
      no_issues. to_prop. unfold earlier_request in *. destruct Hpast as [_ _ Hreq].
      destruct (assoc (rs_RequestID response) (ji_requests st)) as [k|] eqn:E; [|done].
      match goal with H : (k <? _)%nat = true |- _ => apply Nat.ltb_lt in H; rename H into Hk end.
      apply Hreq in E as (s & request & Hlook & Hrest). exists k, s, request. split_and!; try done; [by apply lookup_app_l_Some|naive_solver..].
    + right. left. split_and!; try done. apply output_path_file. rewrite (proj2 (String.eqb_neq _ _) Ef) in *. cbn [negb andb] in *. by to_prop.
    + right. right. exists file. split_and!; try done. rewrite Ej in *. cbn [from_option] in *. no_issues. to_prop. by apply output_path_file.
  - destruct (seen_new past st (da_ID a) (field +:+ ".id") Hpast Ek) as [E1 E2]. destruct Hpast as [Hids Hn Hreq].
    split; cbn [ji_seen ji_requests].
    + rewrite E1, List.map_app. cbn [List.map]. assert (journey_step_id step = da_ID a) as -> by (unfold journey_step_id; by rewrite Hr, Ha). done.
    + done.
    + intros id k (s' & r & Hk & Hrest)%Hreq. exists s', r. split; [by apply lookup_app_l_Some|done].
Qed.

Lemma journey_steps_accepted prefix declaredPort past steps st :
  ids_of_past past st → validate_journey_steps prefix declaredPort (length past) steps st = [] →
  (∀ j step, steps !! j = Some step → journey_step_ok declaredPort (past ++ steps) (length past + j) step)
  ∧ NoDup (List.map journey_step_id (past ++ steps)).
Proof.
  revert past st. induction steps as [|step steps IH]; intros past st Hpast; cbn [validate_journey_steps].
  { intros _. split; [intros j s; by rewrite lookup_nil|]. rewrite app_nil_r. destruct Hpast as [<- Hn _]. done. }
  destruct (validate_journey_step prefix declaredPort (length past) step st) as [issues s] eqn:E. intros Hall. no_issues. subst issues.
  assert (journey_step_ok declaredPort (past ++ step :: steps) (length past) step ∧ ids_of_past (past ++ [step]) s) as [Hstep Hnext].
  { unfold validate_journey_step in E. destruct (ds_Request step) as [request|] eqn:Er, (ds_Assert step) as [a|] eqn:Ea; try done.
    - destruct (journey_request_accepted _ _ _ _ _ _ step Er Ea Hpast E) as [Ha1 Ha2]. split; [|done]. left. eauto.
    - destruct (journey_assertion_accepted _ _ _ _ _ step steps Er Ea Hpast E) as [Ha1 Ha2]. split; [|done]. right. eauto. }
  destruct (IH (past ++ [step]) s Hnext) as [IH1 IH2]; [by rewrite length_app, Nat.add_1_r|].
  rewrite <- app_assoc in IH1, IH2. split; [|done]. intros [|j] x; cbn [lookup]; [intros [= <-]; by rewrite Nat.add_0_r|].
  intros Hx. specialize (IH1 j x Hx). rewrite length_app in IH1. cbn [length] in IH1.
  by replace (length past + S j)%nat with (length past + 1 + j)%nat by lia.
Qed.

(** The cleanup of an HTTP service: its one signal is the last step. *)
Definition cleanup_ends_service (serviceID : string) (steps : list PhaseStep) : Prop :=
  ∃ before step signal grace, steps = before ++ [step] ∧ st_Signal step = Some signal ∧ sa_Target signal = serviceID
    ∧ ParseAlphaHTTPDuration (sa_GracePeriod signal) maxHTTPServiceSignalGrace = Ok grace
    ∧ Forall (λ s, signals serviceID s = false) before.

Lemma cleanup_accepted prefix serviceID steps :
  validate_cleanup_signals prefix serviceID steps = [] → cleanup_ends_service serviceID steps.
Proof.
  unfold validate_cleanup_signals. intros Hall. no_issues.
  match goal with H : each _ _ = [] |- _ => rewrite each_nil in H; rename H into He end. to_prop.
  match goal with H : (_ =? 1)%nat = true |- _ => apply Nat.eqb_eq in H; rename H into Hone end.
  assert (∀ j step, steps !! j = Some step → signals serviceID step = true → j = (length steps - 1)%nat
    ∧ ∃ signal grace, st_Signal step = Some signal ∧ sa_Target signal = serviceID
       ∧ ParseAlphaHTTPDuration (sa_GracePeriod signal) maxHTTPServiceSignalGrace = Ok grace) as Hat.
  { intros j step Hj Hs. specialize (He j step Hj). unfold validate_cleanup_signal, signals in *.
    destruct (st_Signal step) as [signal|]; [|done]. rewrite Hs in He. no_issues. to_prop.
    match goal with H : validateHTTPDuration _ _ _ = [] |- _ => apply http_duration_accepted in H as [|[grace Hg]]; [done|] end.
    split; [by apply Nat.eqb_eq|]. exists signal, grace. done. }
  destruct (List.filter (signals serviceID) steps) as [|step filtered] eqn:Ef; [done|].
  assert (List.In step (List.filter (signals serviceID) steps)) as Hin by (rewrite Ef; by left).
  apply List.filter_In in Hin as [Hin Hs]. apply list_elem_of_In, list_elem_of_lookup in Hin as [j Hj].
  destruct (Hat j step Hj Hs) as [-> (signal & grace & E1 & E2 & E3)].
  assert (steps ≠ []) as Hne by (intros ->; done). destruct (exists_last Hne) as (before & last & ->).
  rewrite length_app in Hj. cbn [length] in Hj. rewrite Nat.add_sub, lookup_app_r, Nat.sub_diag in Hj by lia. injection Hj as ->.
  exists before, step, signal, grace. split_and!; [done..|]. apply Forall_lookup. intros i s Hi.
  destruct (signals serviceID s) eqn:Esig; [|done]. exfalso.
  destruct (Hat i s (lookup_app_l_Some _ _ _ _ Hi) Esig) as [Hlast _]. apply lookup_lt_Some in Hi.
  rewrite length_app in Hlast. cbn [length] in Hlast. lia.
Qed.

Lemma journey_accepted prefix declaredPort steps :
  validate_journey prefix declaredPort steps = [] →
  (∀ j step, steps !! j = Some step → journey_step_ok declaredPort steps j step)
  ∧ NoDup (List.map journey_step_id steps) ∧ Z.of_nat (length steps) <= AlphaHTTPMaxJourneySteps
  ∧ 1 <= count_steps is_request steps <= AlphaHTTPMaxRequestSteps ∧ 1 <= count_steps is_assert steps.
Proof.
  unfold validate_journey. destruct steps as [|first steps]; [done|]. set (l := first :: steps). intros Hall. no_issues. to_prop.
  match goal with H : validate_journey_steps _ _ _ _ _ = [] |- _ =>
    apply (journey_steps_accepted _ _ [] l) in H as [Hs Hn]; [|by split; [|constructor|]] end.
  assert (∀ P, 0 <= count_steps P l) as Hc by (intros P; unfold count_steps; lia).
  pose proof (Hc is_request). pose proof (Hc is_assert). split_and!; try done; lia.
Qed.

(** An accepted HTTP scenario, in full. *)
Definition http_scenario_ok (scenario : ScenarioSpec) (exercise : ExercisePhase) : Prop :=
  ∃ service readiness listener,
    declared_service scenario = Some service ∧ rd_HTTP (sv_Readiness service) = Some readiness
    ∧ elems (pc_Listen (cs_Ports (capability_of scenario PhaseRun))) = [listener]
    ∧ pb_Host listener = "127.0.0.1" ∧ (pb_Protocol listener = "" ∨ pb_Protocol listener = "tcp")
    ∧ url_on_port (pb_Port listener) (hr_URL readiness)
    ∧ let steps := dv_Steps (ex_Driver exercise) in
      (∀ j step, steps !! j = Some step → journey_step_ok (pb_Port listener) steps j step)
      ∧ NoDup (List.map journey_step_id steps) ∧ Z.of_nat (length steps) <= AlphaHTTPMaxJourneySteps
      ∧ 1 <= count_steps is_request steps <= AlphaHTTPMaxRequestSteps ∧ 1 <= count_steps is_assert steps
      ∧ cleanup_ends_service (sv_ID service) (command_steps (ph_Cleanup (sn_Phases scenario))).

Lemma identifier_not_empty id : identifier id → id ≠ "".
Proof. intros H' ->. by vm_compute in H'. Qed.

Lemma profile_accepted prefix scenario exercise :
  (∀ service, phases_service (sn_Phases scenario) = Some service → service_ok service) →
  validateHTTPProfile prefix scenario exercise = [] → http_scenario_ok scenario exercise.
Proof.
  intros Hsv. unfold validateHTTPProfile.
  destruct (validate_listener prefix _) as [listener_issues declaredPort] eqn:El. intros Hall. no_issues. subst listener_issues. to_prop.
  destruct (declared_service scenario) as [service|] eqn:Es; [|done].
  destruct (Hsv service Es) as (Hid & _ & _ & readiness & Er & Hready). rewrite Er in *.
  assert (service_id scenario = sv_ID service) as Eid.
  { unfold service_id, declared_service in *. destruct (ph_Run (sn_Phases scenario)); [|done]. by rewrite Es. }
  rewrite Eid in *. rewrite (proj2 (String.eqb_neq _ _) (identifier_not_empty _ Hid)) in *. cbn [negb when] in *.
  match goal with H : validate_cleanup_signals _ _ _ = [] |- _ => apply cleanup_accepted in H end.
  match goal with H : validate_journey _ _ _ = [] |- _ => apply journey_accepted in H as (Hj & Hn & Hlen & Hreq & Hass) end.
  unfold validate_listener in El. destruct (elems (pc_Listen _)) as [|listener [|]] eqn:Ell; [done| |done].
  injection El as El <-. no_issues. to_prop.
  exists service, readiness, listener. split_and!; try done.
  - match goal with H : _ && _ = false |- _ => apply andb_false_iff in H as [H|H]; to_prop; [by left|by right] end.
  - destruct Hready as [(u & port & Hu) _]. exists u, port. split; [done|].
    match goal with H : validateHTTPURLPort _ _ _ = [] |- _ => revert H end. unfold validateHTTPURLPort.
    destruct (Z.eqb_spec (pb_Port listener) 0); [by left|]. rewrite (contract_url_accepted _ _ _ Hu). intros Hp. no_issues. to_prop. by right.
Qed.

(** C27: In an accepted manifest every HTTP scenario declares one service with
    readiness on a canonical loopback URL and one 127.0.0.1 TCP listener; every
    request goes to a canonical loopback URL (on the declared port, unless that
    is 0, which the validator does not compare), carries no header the driver
    controls and no two headers of one name, and at most 1 MiB of body or JSON;
    every assertion is about the response of an earlier request or about a file
    below /outputs; all ids differ; the steps are at most 128 with 1 to 32
    requests; and the one signal to the service is the last step of cleanup, with
    a grace period of at most 10 seconds. *)
Theorem http_journey_sound doc m name scenario exercise :
  dc_Manifest doc = Some m → Validate doc = [] → (name, scenario) ∈ sp_Scenarios (mf_Spec m) →
  ph_Exercise (sn_Phases scenario) = Some exercise → dv_Type (ex_Driver exercise) = "http" →
  http_scenario_ok scenario exercise.
Proof.
  intros Hm Hv Hin Hex Htype. destruct (manifest_accepted_parts doc m Hm Hv) as (_ & _ & Hs).
  rewrite Forall_forall in Hs. specialize (Hs _ Hin). apply scenario_accepted in Hs. cbn [snd] in Hs. destruct Hs. destruct ok_exercise0 as (exercise' & E & _ & Hkind).
  rewrite Hex in E. injection E as <-. destruct Hkind as [(Ht & _)|(_ & _ & _ & prefix & Hp)]; [congruence|].
  by eapply profile_accepted.
Qed.

End scenarios.

(** ** The order of the maps

    [range] over a map visits its keys in an order that changes from run to
    run.  Two manifests with the same entries in another order have the same
    issues, in another order at most. *)

Section map_order.
  Context `{RegexpSyntax}.

Record scenario_reordered (s s' : ScenarioSpec) : Prop := {
  ro_environment : sn_Environment s = sn_Environment s';
  ro_inputs : sn_Inputs s ≡ₚ sn_Inputs s';
  ro_phases : sn_Phases s = sn_Phases s';
  ro_capabilities : sn_Capabilities s ≡ₚ sn_Capabilities s';
  ro_keys : NoDup (sn_Capabilities s).*1;
  ro_secrets : sn_Secrets s ≡ₚ sn_Secrets s';
  ro_verification : sn_Verification s = sn_Verification s' }.

Definition entry_reordered (p q : string * ScenarioSpec) : Prop := p.1 = q.1 ∧ scenario_reordered p.2 q.2.

Record manifest_reordered (m m' : Manifest) : Prop := {
  mo_api : mf_APIVersion m = mf_APIVersion m';
  mo_kind : mf_Kind m = mf_Kind m';
  mo_name : md_Name (mf_Metadata m) = md_Name (mf_Metadata m');
  mo_project : sp_Project (mf_Spec m) = sp_Project (mf_Spec m');
  mo_policies : sp_Policies (mf_Spec m) = sp_Policies (mf_Spec m');
  mo_environments : sp_Environments (mf_Spec m) ≡ₚ sp_Environments (mf_Spec m');
  mo_scenarios : ∃ between, sp_Scenarios (mf_Spec m) ≡ₚ between ∧ Forall2 entry_reordered between (sp_Scenarios (mf_Spec m')) }.

Lemma has_key_In {A} k (l : list (string * A)) : has_key k l = true ↔ k ∈ l.*1.
Proof.
  unfold has_key. destruct (assoc k l) as [v|] eqn:E.
  - split; [|done]. intros _. apply assoc_In in E. apply list_elem_of_fmap. by exists (k, v).
  - split; [done|]. intros Hk. by apply assoc_None_iff in E.
Qed.
Lemma has_key_perm {A} k (l l' : list (string * A)) : l ≡ₚ l' → has_key k l = has_key k l'.
Proof. intros Hp. apply eq_iff_eq_true. rewrite !has_key_In. by rewrite Hp. Qed.
Lemma assoc_perm {A} k (l l' : list (string * A)) : NoDup l.*1 → l ≡ₚ l' → assoc k l = assoc k l'.
Proof.
  intros Hn Hp. destruct (assoc k l) as [v|] eqn:E.
  - symmetry. apply assoc_NoDup; [by rewrite <- Hp|]. rewrite <- Hp. by apply assoc_In.
  - symmetry. apply assoc_None_iff. rewrite <- Hp. by apply assoc_None_iff.
Qed.
Lemma is_empty_perm {A} (l l' : list A) : l ≡ₚ l' → is_empty l = is_empty l'.
Proof. intros Hp%Permutation_length. by destruct l, l'. Qed.

Lemma phases_only s s' :
  sn_Phases s = sn_Phases s' → capability_of s PhaseRun = capability_of s' PhaseRun →
  service_id s = service_id s' ∧ (∀ prefix, validate_exercise prefix s = validate_exercise prefix s')
  ∧ (∀ prefix serviceID, validateSignalTargets prefix s serviceID = validateSignalTargets prefix s' serviceID).
Proof.
  intros Hph Hcap. assert (service_id s = service_id s') as Hid by (unfold service_id; by rewrite Hph).
  split_and!; [done| |intros; unfold validateSignalTargets; by rewrite Hph].
  intros prefix. unfold validate_exercise. rewrite Hph, Hid. destruct (ph_Exercise (sn_Phases s')) as [exercise|]; [|done].
  assert (validateHTTPProfile prefix s exercise = validateHTTPProfile prefix s' exercise) as ->; [|done].
  unfold validateHTTPProfile, declared_service. by rewrite Hph, Hcap, Hid.
Qed.

Lemma scenario_order environments environments' p q :
  environments ≡ₚ environments' → entry_reordered p q → validate_scenario environments p ≡ₚ validate_scenario environments' q.
Proof.
  destruct p as [name s], q as [name' s']. intros He [[= <-] [E1 E2 E3 E4 E5 E6 E7]]. cbn [fst snd] in *. unfold validate_scenario.
  assert (capability_of s PhaseRun = capability_of s' PhaseRun) as Hcap by (unfold capability_of; by rewrite (assoc_perm _ _ _ E5 E4)).
  destruct (phases_only s s' E3 Hcap) as (Hid & Hex & Hsig).
  rewrite E1, (has_key_perm _ _ _ He), E3, Hid, Hex, Hsig, E7.
  do 1 apply Permutation_app_head. repeat apply Permutation_app; try done; by apply Permutation_flat_map.
Qed.

Lemma scenarios_order environments environments' between scenarios :
  environments ≡ₚ environments' → Forall2 entry_reordered between scenarios →
  flat_map (validate_scenario environments) between ≡ₚ flat_map (validate_scenario environments') scenarios.
Proof.
  intros He Hs. induction Hs as [|p q l l' Hpq _ IH]; [done|]. cbn [flat_map].
  apply Permutation_app; [by apply scenario_order|done].
Qed.

Lemma reordered_keys between scenarios : Forall2 entry_reordered between scenarios → between.*1 = scenarios.*1.
Proof. induction 1 as [|p q l l' [Hk _] _ IH]; [done|]. rewrite !fmap_cons. by rewrite Hk, IH. Qed.

(** The issues of a manifest do not depend on the order in which Go visits its
    maps, up to their own order: manifests with the same environments,
    scenarios, inputs, secrets and capabilities have permuted issues, so that one
    is accepted exactly when the other is; and a request's header issues are the
    same list for every order of its headers. *)
Theorem validation_order_free m m' field headers headers' hasJSON :
  manifest_reordered m m' → NoDup headers.*1 → headers ≡ₚ headers' →
  validate_manifest m ≡ₚ validate_manifest m'
  ∧ validateHTTPRequestHeaders field headers hasJSON = validateHTTPRequestHeaders field headers' hasJSON.
Proof.
  intros [E1 E2 E3 E4 E5 He (between & Hp & Hs)] Hn Hh. split.
  - unfold validate_manifest. rewrite E1, E2, E3, E4, E5, (is_empty_perm _ _ He).
    assert (∀ k, has_key k (sp_Scenarios (mf_Spec m)) = has_key k (sp_Scenarios (mf_Spec m'))) as Hk.
    { intros k. apply eq_iff_eq_true. rewrite !has_key_In, <- (reordered_keys _ _ Hs). by rewrite Hp. }
    assert (is_empty (sp_Scenarios (mf_Spec m)) = is_empty (sp_Scenarios (mf_Spec m'))) as ->.
    { rewrite (is_empty_perm _ _ Hp). by destruct Hs. }
    assert (each (validate_entrypoint (sp_Scenarios (mf_Spec m))) (pj_Entrypoints (sp_Project (mf_Spec m')))
      = each (validate_entrypoint (sp_Scenarios (mf_Spec m'))) (pj_Entrypoints (sp_Project (mf_Spec m')))) as ->.
    { unfold each. generalize 0%nat. induction (pj_Entrypoints (sp_Project (mf_Spec m'))) as [|e l IH]; intros i; [done|].
      cbn [each_from]. rewrite IH. unfold validate_entrypoint. by rewrite Hk. }
    repeat apply Permutation_app; try done; [by apply Permutation_flat_map|].
    rewrite (Permutation_flat_map _ Hp). by apply scenarios_order.
  - unfold validateHTTPRequestHeaders. rewrite (sort_keys_perm _ _ Hn Hh).
    f_equal. pose proof (headers_order headers headers' hasJSON Hh) as Ho.
    destruct (ValidateAlphaHTTPHeaders headers hasJSON) as [[]|e], (ValidateAlphaHTTPHeaders headers' hasJSON) as [[]|e']; try done.
    + discriminate (proj1 Ho eq_refl).
    + discriminate (proj2 Ho eq_refl).
Qed.
End map_order.

(** ** A manifest *)

#[local] Instance any_regexp : RegexpSyntax := {| compiles := λ _, true |}.

Definition run_command (id : string) (argv : list string) : PhaseStep :=
  {| st_ID := id; st_Signal := None;
     st_Run := Some {| ra_Command := argv; ra_Shell := None; ra_WorkingDirectory := ""; ra_Environment := None; ra_Timeout := "";
                       ra_AllowedExitCodes := None; ra_OutputMode := "" |} |}.
Definition stop_service (id target : string) : PhaseStep :=
  {| st_ID := id; st_Run := None; st_Signal := Some {| sa_Target := target; sa_Type := "term"; sa_GracePeriod := "5s" |} |}.
Definition command_phase (steps : list PhaseStep) : option CommandPhase :=
  Some {| cp_Timeout := "2m"; cp_Steps := steps; cp_ObserverRequirements := None; cp_Outputs := None |}.
Definition closed_network (listen : slice PortBinding) : CapabilitySet :=
  {| cs_Network := {| nc_Deny := true; nc_Allow := None |};
     cs_Filesystem := {| fc_Read := Some ["/workspace/**"]; fc_Write := Some ["/outputs/**"]; fc_Create := None; fc_Delete := None; fc_Rename := None;
                         fc_Chmod := None; fc_Symlink := None |};
     cs_Ports := {| pc_Listen := listen |}; cs_Process := cs_Process zero_capabilities; cs_Environment := None; cs_Secrets := None;
     cs_Resources := None; cs_Devices := None; cs_HostIntegration := None |}.
Definition example_verification : VerificationSpec :=
  {| vs_Repeats := 3; vs_SuccessThreshold := 2; vs_RequiredObservers := ["process-exec"]; vs_Cleanup := {| cl_AllowedResidue := ["/outputs/**"] |};
     vs_StabilityRule := ""; vs_ResourceVariancePercent := None |}.
Definition exit_assertion : DriverAssertion :=
  {| da_ID := "exits"; da_Required := None; da_ExitCode := Some 0; da_StdoutContains := None; da_StderrContains := None; da_StdoutRegex := None;
     da_StdoutJSONSchema := ""; da_StderrRegex := None; da_FileExists := ""; da_Response := None; da_JSONFile := None |}.
Definition response_assertion : DriverAssertion :=
  {| da_ID := "answers"; da_Required := None; da_ExitCode := None; da_StdoutContains := None; da_StderrContains := None; da_StdoutRegex := None;
     da_StdoutJSONSchema := ""; da_StderrRegex := None; da_FileExists := "";
     da_Response := Some {| rs_RequestID := "get-root"; rs_Status := 200; rs_Header := None; rs_BodyContains := Some "ok"; rs_JSONPath := None; rs_JSONSchema := "" |};
     da_JSONFile := None |}.
Definition example_request : HTTPRequest :=
  {| rq_ID := "get-root"; rq_Method := "get"; rq_URL := "http://127.0.0.1:8080/status?full=1"; rq_Headers := [("Accept", "text/plain")]; rq_JSON := VNil;
     rq_Body := ""; rq_Timeout := "1s"; rq_bodyPresent := false; rq_jsonPresent := false |}.
Definition driver (type : string) (command : list string) (assertions : list DriverAssertion) (steps : list DriverStep) : ExercisePhase :=
  {| ex_Timeout := "30s"; ex_Driver := {| dv_Type := type; dv_Command := command; dv_StdinFixture := ""; dv_Timeout := ""; dv_Assertions := assertions; dv_Steps := steps |};
     ex_ObserverRequirements := None; ex_Outputs := None |}.
Definition example_scenario (inputs : list (string * InputSpec)) (phases : PhaseSet) (listen : slice PortBinding) : ScenarioSpec :=
  {| sn_Title := ""; sn_Description := ""; sn_Purpose := ""; sn_Audience := ""; sn_Environment := "node"; sn_Inputs := inputs; sn_Phases := phases;
     sn_Capabilities := [(PhaseRun, closed_network listen); (PhaseExercise, closed_network None)]; sn_Secrets := []; sn_Verification := example_verification |}.
Definition cli_phases : PhaseSet :=
  {| ph_Prepare := None; ph_Setup := command_phase [run_command "install" ["npm"; "ci"]]; ph_Build := None; ph_Run := None;
     ph_Exercise := Some (driver "cli" ["node"; "cli.js"] [exit_assertion] []); ph_Cleanup := None |}.
Definition example_service : ServiceSpec :=
  {| sv_ID := "web"; sv_Command := ["node"; "server.js"]; sv_Shell := None; sv_WorkingDirectory := ""; sv_Environment := None;
     sv_Readiness := {| rd_HTTP := Some {| hr_URL := "http://127.0.0.1:8080/"; hr_Status := 200; hr_Timeout := "10s" |} |} |}.
Definition http_exercise : ExercisePhase :=
  driver "http" [] [] [{| ds_Request := Some example_request; ds_Assert := None |}; {| ds_Request := None; ds_Assert := Some response_assertion |}].
Definition http_phases : PhaseSet :=
  {| ph_Prepare := None; ph_Setup := None; ph_Build := None;
     ph_Run := Some {| rn_Timeout := ""; rn_Steps := []; rn_Service := Some example_service; rn_ObserverRequirements := None; rn_Outputs := None |};
     ph_Exercise := Some http_exercise; ph_Cleanup := command_phase [stop_service "stop" "web"] |}.
Definition listens : slice PortBinding := Some [{| pb_Host := "127.0.0.1"; pb_Port := 8080; pb_Protocol := "" |}].
Definition example_environment : EnvironmentSpec :=
  {| en_Platform := {| pl_OS := "linux"; pl_Architecture := "amd64" |}; en_Runtime := {| rt_Adapter := "node"; rt_Version := "22.0.0" |};
     en_BaseImage := {| bi_Reference := "docker.io/library/node:22" |};
     en_Resources := {| rs_CPU := VStr "0.5"; rs_Memory := "512MiB"; rs_Disk := "1GiB"; rs_PIDs := 128; rs_Time := ""; rs_LogBytes := None |};
     en_RequiredServices := None; en_RequiredRunnerFeatures := None |}.
Definition example_input : string * InputSpec :=
  ("data", {| in_Type := "file"; in_Required := true; in_Fixture := "fixtures/data.json"; in_Mount := {| mt_Path := "/inputs/data"; mt_ReadOnly := true |}; in_Choices := None |}).
Definition manifest_of (scenarios : list (string * ScenarioSpec)) : Manifest :=
  {| mf_APIVersion := APIVersion; mf_Kind := Kind;
     mf_Metadata := {| md_Name := "demo"; md_DisplayName := ""; md_Description := ""; md_Maintainers := []; md_Labels := [] |};
     mf_Spec :=
       {| sp_Project := {| pj_Kind := "cli"; pj_Audiences := []; pj_Entrypoints := ["quickstart"] |};
          sp_Environments := [("node", example_environment)];
          sp_Scenarios := scenarios;
          sp_Policies := {| po_Profile := "baseline-v1" |};
          sp_Evidence := {| ev_Profile := "minimal-public"; ev_Include := None; ev_Exclude := None |} |} |}.
Definition quickstart : string * ScenarioSpec := ("quickstart", example_scenario [example_input] cli_phases None).
Definition serve : string * ScenarioSpec := ("serve", example_scenario [] http_phases listens).
Definition example_manifest : Manifest := manifest_of [quickstart; serve].
Definition example_document : Document := {| dc_Manifest := Some example_manifest; dc_Digest := ""; dc_Path := "" |}.

Lemma manifest_accepted_safe_witness :
  Validate example_document = [] ∧ Forall (λ entry, scenario_ok [("node", example_environment)] entry.2) (sp_Scenarios (mf_Spec example_manifest)).
Proof.
  split; [vm_compute; reflexivity|].
  apply (manifest_accepted_safe example_document example_manifest); [reflexivity|vm_compute; reflexivity].
Defined.

Lemma http_journey_sound_witness :
  http_scenario_ok (example_scenario [] http_phases listens) http_exercise.
Proof.
  apply (http_journey_sound example_document example_manifest "serve");
    [reflexivity|vm_compute; reflexivity|right; left|reflexivity|reflexivity].
Defined.

Lemma validation_order_free_witness :
  validate_manifest (manifest_of [quickstart; serve]) ≡ₚ validate_manifest (manifest_of [serve; quickstart])
  ∧ validateHTTPRequestHeaders "h" [("A", "1"); ("b", "2")] false = validateHTTPRequestHeaders "h" [("b", "2"); ("A", "1")] false.
Proof.
  apply (validation_order_free (manifest_of [quickstart; serve]) (manifest_of [serve; quickstart]) "h" [("A", "1"); ("b", "2")] [("b", "2"); ("A", "1")] false).
  - split; try reflexivity. exists [serve; quickstart]. split; [apply perm_swap|]. repeat constructor; simpl; set_solver.
  - repeat constructor; set_solver.
  - apply perm_swap.
Defined.

(** What the tests of the validator miss: the fixture [..] itself, and every
    request URL of a journey whose listener declares port 0. *)
Example parent_fixture_accepted : validate_input "s" ("data", {| in_Type := "directory"; in_Required := true; in_Fixture := "..";
  in_Mount := {| mt_Path := ""; mt_ReadOnly := true |}; in_Choices := None |}) = [].
Proof. vm_compute. reflexivity. Qed.
Example port_zero_accepted :
  validate_scenario [("node", example_environment)]
    ("serve", example_scenario [] http_phases (Some [{| pb_Host := "127.0.0.1"; pb_Port := 0; pb_Protocol := "" |}])) = [].
Proof. vm_compute. reflexivity. Qed.
