(* ===== verification/SchemaPolicy.v ===== *)
(** * The policy of JSON Schemas (internal/structuredjson/schema.go)

    A schema is scanned before it is compiled: the scan follows the keywords
    that hold subschemas and the local references, and refuses what the bounded
    offline profile excludes.  The compiler (github.com/santhosh-tekuri/jsonschema)
    is an argument.  [scanSchema] is recursive through references; [fuel] bounds
    the recursion, [scan_returns] shows that [scan_fuel] is enough.

    Go visits the members of an object in an unspecified order, here in the order
    of its list; [schema_policy_exact] does not mention an order. *)

From S2P Require Import Prelude Json StructuredJson GoPath GoStrings Url.

Local Open Scope Z_scope.

Definition MaxSchemaBytes := 256 * 2 ^ 10.
Definition MaxSchemaDepth := 64.
Definition MaxSchemaNodes := 16384.
Definition MaxSchemaBranches := 128.
Definition MaxSchemaPatterns := 128.
Definition MaxSchemaPatternBytes := 4096.
Definition MaxSchemaReferences := 256.

Definition draft2020URL := "https://json-schema.org/draft/2020-12/schema".
Definition schemaDecodeLimits : DecodeLimits := {| MaxBytes := MaxSchemaBytes; MaxDepth := MaxSchemaDepth; MaxNodes := MaxSchemaNodes |}.

Definition schemaArrayKeywords : list string := ["allOf"; "anyOf"; "oneOf"; "prefixItems"].
Definition schemaMapKeywords : list string :=
  ["$defs"; "definitions"; "properties"; "patternProperties"; "dependentSchemas"; "dependencies"].
Definition schemaSingleKeywords : list string :=
  ["not"; "additionalProperties"; "items"; "additionalItems"; "contains"; "propertyNames"; "if"; "then"; "else";
   "unevaluatedProperties"; "unevaluatedItems"; "contentSchema"].
Definition isBranchKeyword (keyword : string) : bool := one_of keyword ["allOf"; "anyOf"; "oneOf"].

(** ** Locations *)

Definition escape_token_byte (c : ascii) : string :=
  if Ascii.eqb c "~" then "~0" else if Ascii.eqb c "/" then "~1" else String c "".
Fixpoint escape_token (token : string) : string :=
  match token with EmptyString => "" | String c s => escape_token_byte c +:+ escape_token s end.

Fixpoint appendSchemaLocation (location : string) (tokens : list string) : string :=
  match tokens with
  | [] => location
  | token :: rest => appendSchemaLocation (location +:+ String "/" (escape_token token)) rest
  end.

Fixpoint decodeJSONPointerToken (encoded : string) : option string :=
  match encoded with
  | EmptyString => Some ""
  | String c s =>
      if Ascii.eqb c "~" then
        match s with
        | String d s' =>
            if Ascii.eqb d "0" then option_map (String "~") (decodeJSONPointerToken s')
            else if Ascii.eqb d "1" then option_map (String "/") (decodeJSONPointerToken s')
            else None
        | EmptyString => None
        end
      else option_map (String c) (decodeJSONPointerToken s)
  end.

Definition parseJSONPointerIndex (token : string) : option Z :=
  if (token =s "") || ((1 <? zlen token) && has_prefix "0" token) || (token =s "-") then None
  else if negb (string_forallb is_digit token) then None
  else parse_int 64 token.

(** A value of the document, or of the part of it that carries its [$id]. *)
Record schema_node := { sn_value : json; sn_location : string; sn_resource : json; sn_resourceLocation : string }.
Definition schemaScanKey (n : schema_node) : string * string := (sn_location n, sn_resourceLocation n).

(** A step of the loop of [resolveLocalSchemaReference]. *)
Definition select (current : json) (token : string) : option json :=
  match current with
  | JObj members => assoc token members
  | JArr items => let? index := parseJSONPointerIndex token in items !! Z.to_nat index
  | _ => None
  end.
Fixpoint follow (current : json) (canonical : string) (encodedTokens : list string) : option (json * string) :=
  match encodedTokens with
  | [] => Some (current, canonical)
  | encodedToken :: rest =>
      let? token := decodeJSONPointerToken encodedToken in
      let? next := select current token in
      follow next (appendSchemaLocation canonical [token]) rest
  end.

(** [None] is [ok = false]; a target of [None] is an anchor. *)
Definition resolveLocalSchemaReference (resource : json) (resourceLocation reference : string) : option (option (json * string)) :=
  let? fragment := unescape (trim_prefix "#" reference) encodePath in
  if fragment =s "" then Some (Some (resource, resourceLocation))
  else
    match fragment with
    | String "/" pointer => option_map Some (follow resource resourceLocation (split_on "/" pointer))
    | _ => Some None
    end.

(** ** The scan *)

Record schemaPolicyState := {
  ps_scanned : list (string * string); ps_branches : Z; ps_patterns : Z; ps_references : Z }.
Definition start : schemaPolicyState := {| ps_scanned := []; ps_branches := 0; ps_patterns := 0; ps_references := 0 |}.

Definition mark (key : string * string) (s : schemaPolicyState) : schemaPolicyState :=
  {| ps_scanned := key :: ps_scanned s; ps_branches := ps_branches s; ps_patterns := ps_patterns s; ps_references := ps_references s |}.
Definition count_branches (n : Z) (s : schemaPolicyState) : schemaPolicyState :=
  {| ps_scanned := ps_scanned s; ps_branches := ps_branches s + n; ps_patterns := ps_patterns s; ps_references := ps_references s |}.
Definition count_pattern (s : schemaPolicyState) : schemaPolicyState :=
  {| ps_scanned := ps_scanned s; ps_branches := ps_branches s; ps_patterns := ps_patterns s + 1; ps_references := ps_references s |}.
Definition count_reference (s : schemaPolicyState) : schemaPolicyState :=
  {| ps_scanned := ps_scanned s; ps_branches := ps_branches s; ps_patterns := ps_patterns s; ps_references := ps_references s + 1 |}.

(** [None] is out of fuel. *)
Definition outcome := option (result ErrorKind schemaPolicyState).
Definition returns (s : schemaPolicyState) : outcome := Some (Ok s).
Definition refuses (e : ErrorKind) : outcome := Some (Err e).
Definition andThen (o : outcome) (k : schemaPolicyState → outcome) : outcome :=
  match o with Some (Ok s) => k s | _ => o end.
Notation "'scan!' s ':=' o 'in' k" := (andThen o (λ s, k)) (at level 10, s name, o at level 100, k at level 200) : go_scope.
Notation "'refuse_if' b 'with' e ';;' k" := (if b then refuses e else k) (at level 10, b at level 99, e at level 99, k at level 200) : go_scope.

Fixpoint scan_each {A} (f : A → schemaPolicyState → outcome) (l : list A) (s : schemaPolicyState) : outcome :=
  match l with
  | [] => returns s
  | x :: rest => scan! s := f x s in scan_each f rest s
  end.

Definition is_text (j : json) : bool := match j with JStr _ => true | _ => false end.
Definition addPattern (pattern : string) (s : schemaPolicyState) : outcome :=
  let s := count_pattern s in
  refuse_if (MaxSchemaPatterns <? ps_patterns s) || (MaxSchemaPatternBytes <? zlen pattern) with ErrorSchemaPolicy ;;
  returns s.

(** The resource of a node changes where an object has an [$id]. *)
Definition enter (n : schema_node) : schema_node :=
  match sn_value n with
  | JObj members =>
      if has_key "$id" members
      then {| sn_value := sn_value n; sn_location := sn_location n; sn_resource := sn_value n; sn_resourceLocation := sn_location n |}
      else n
  | _ => n
  end.
Definition bad_identifier (n : schema_node) : bool :=
  match sn_value n with
  | JObj members => match assoc "$id" members with Some identifier => negb (is_text identifier) | None => false end
  | _ => false
  end.
Definition bad_dialect (members : list (string * json)) : bool :=
  match assoc "$schema" members with
  | Some (JStr value) => trim_suffix "#" value !=s draft2020URL
  | Some _ => true
  | None => false
  end.

Definition child (n : schema_node) (value : json) (tokens : list string) : schema_node :=
  {| sn_value := value; sn_location := appendSchemaLocation (sn_location n) tokens;
     sn_resource := sn_resource n; sn_resourceLocation := sn_resourceLocation n |}.
Definition array_children (n : schema_node) (keyword : string) (branches : list json) : list schema_node :=
  imap (λ index branch, child n branch [keyword; dec_Z (Z.of_nat index)]) branches.
Definition is_array (j : json) : bool := match j with JArr _ => true | _ => false end.
Definition map_children (n : schema_node) (keyword : string) (children : list (string * json)) : list schema_node :=
  List.map (λ m, child n m.2 [keyword; m.1]) (List.filter (λ m, negb ((keyword =s "dependencies") && is_array m.2)) children).

Section scan.
Variable scan : schema_node → schemaPolicyState → outcome.

Definition scan_reference (n : schema_node) (members : list (string * json)) (s : schemaPolicyState) : outcome :=
  match assoc "$ref" members with
  | None => returns s
  | Some (JStr value) =>
      refuse_if negb (has_prefix "#" value) with ErrorSchemaPolicy ;;
      let s := count_reference s in
      refuse_if MaxSchemaReferences <? ps_references s with ErrorSchemaPolicy ;;
      match resolveLocalSchemaReference (sn_resource n) (sn_resourceLocation n) value with
      | None => refuses ErrorSchemaCompile
      | Some None => returns s
      | Some (Some (target, targetLocation)) =>
          scan {| sn_value := target; sn_location := targetLocation; sn_resource := sn_resource n; sn_resourceLocation := sn_resourceLocation n |} s
      end
  | Some _ => refuses ErrorSchemaPolicy
  end.

Definition scan_pattern (members : list (string * json)) (s : schemaPolicyState) : outcome :=
  match assoc "pattern" members with
  | None => returns s
  | Some (JStr value) => addPattern value s
  | Some _ => refuses ErrorSchemaCompile
  end.
Definition scan_patterns (members : list (string * json)) (s : schemaPolicyState) : outcome :=
  match assoc "patternProperties" members with
  | None => returns s
  | Some (JObj values) => scan_each (λ m, addPattern m.1) values s
  | Some _ => refuses ErrorSchemaCompile
  end.

Definition scan_array (n : schema_node) (members : list (string * json)) (keyword : string) (s : schemaPolicyState) : outcome :=
  match assoc keyword members with
  | None => returns s
  | Some (JArr branches) =>
      let s := if isBranchKeyword keyword then count_branches (Z.of_nat (length branches)) s else s in
      refuse_if isBranchKeyword keyword && (MaxSchemaBranches <? ps_branches s) with ErrorSchemaPolicy ;;
      scan_each scan (array_children n keyword branches) s
  | Some _ => refuses ErrorSchemaCompile
  end.
Definition scan_map (n : schema_node) (members : list (string * json)) (keyword : string) (s : schemaPolicyState) : outcome :=
  match assoc keyword members with
  | None => returns s
  | Some (JObj children) => scan_each scan (map_children n keyword children) s
  | Some _ => refuses ErrorSchemaCompile
  end.
Definition scan_single (n : schema_node) (members : list (string * json)) (keyword : string) (s : schemaPolicyState) : outcome :=
  match assoc keyword members with
  | None => returns s
  | Some value => scan (child n value [keyword]) s
  end.

Definition scan_members (n : schema_node) (members : list (string * json)) (s : schemaPolicyState) : outcome :=
  refuse_if bad_dialect members with ErrorSchemaPolicy ;;
  refuse_if has_key "$vocabulary" members with ErrorSchemaPolicy ;;
  refuse_if has_key "$dynamicRef" members || has_key "$recursiveRef" members with ErrorSchemaPolicy ;;
  scan! s := scan_reference n members s in
  scan! s := scan_pattern members s in
  scan! s := scan_patterns members s in
  scan! s := scan_each (scan_array n members) schemaArrayKeywords s in
  scan! s := scan_each (scan_map n members) schemaMapKeywords s in
  scan_each (scan_single n members) schemaSingleKeywords s.
End scan.

Fixpoint scanSchema (fuel : nat) (n : schema_node) (s : schemaPolicyState) : outcome :=
  match fuel with
  | O => None
  | S fuel =>
      refuse_if bad_identifier n with ErrorSchemaCompile ;;
      let n := enter n in
      if bool_decide (schemaScanKey n ∈ ps_scanned s) then returns s
      else
        let s := mark (schemaScanKey n) s in
        match sn_value n with
        | JBool _ => returns s
        | JObj members => scan_members (scanSchema fuel) n members s
        | _ => refuses ErrorSchemaCompile
        end
  end.

Definition whole (document : json) : schema_node :=
  {| sn_value := document; sn_location := "#"; sn_resource := document; sn_resourceLocation := "#" |}.

(** References nest at most [MaxSchemaReferences] deep, keywords as deep as the document. *)
Definition scan_fuel (document : json) : nat :=
  (Z.to_nat (MaxSchemaReferences + 1) * S (Z.to_nat (nodes_of document)))%nat.
Definition inspectSchemaPolicy (document : json) : option (result ErrorKind unit) :=
  match scanSchema (scan_fuel document) (whole document) start with
  | Some (Ok _) => Some (Ok tt)
  | Some (Err e) => Some (Err e)
  | None => None
  end.

(** [compileSchemaDocument], the JSON Schema library behind [recover]. *)
Class SchemaCompiler := { compiles_schema : json → bool }.

(** [None] is a decoder or a scan that does not return; [compile_schema_returns] excludes it. *)
Definition CompileSchema `{SchemaCompiler} (raw : string) : option (result ErrorKind unit) :=
  match Decode raw schemaDecodeLimits with
  | None => None
  | Some (Err e) => Some (Err e)
  | Some (Ok document) =>
      match document with
      | JBool _ | JObj _ =>
          match inspectSchemaPolicy document with
          | Some (Ok _) => Some (if compiles_schema document then Ok tt else Err ErrorSchemaCompile)
          | o => o
          end
      | _ => Some (Err ErrorSchemaCompile)
      end
  end.

Definition inspect_text (raw : string) : option (result ErrorKind unit) :=
  match Decode raw schemaDecodeLimits with Some (Ok document) => inspectSchemaPolicy document | Some (Err e) => Some (Err e) | None => None end.

Example scan_1 :
  let reference s := JObj [("$ref", JStr s)] in
  let dynamic := JObj [("$dynamicRef", JStr "#x")] in
  List.map inspectSchemaPolicy
    [reference "#"; JObj [("$defs", JObj [("a", reference "#/$defs/a")])]; JObj [("const", dynamic)];
     JObj [("const", dynamic); ("$ref", JStr "#/const")]; reference "other.json"; reference "#/missing"; reference "#anchor";
     JObj [("allOf", JArr [JBool true; JNull])]; JObj [("dependencies", JObj [("a", JArr []); ("b", JBool true)])];
     JObj [("pattern", JNum "1")]; JObj [("allOf", JArr (replicate 129 (JBool true)))]; JObj [("prefixItems", JArr (replicate 129 (JBool true)))];
     JObj [("items", JArr [JBool true]); ("$ref", JStr "#/items/00")]; JObj [("$schema", JStr "http://json-schema.org/draft-07/schema#")];
     JObj [("$defs", JObj [("a/b~c", JBool true)]); ("$ref", JStr "#/$defs/a~1b~0c")]]
  = [Some (Ok tt); Some (Ok tt); Some (Ok tt); Some (Err ErrorSchemaPolicy); Some (Err ErrorSchemaPolicy); Some (Err ErrorSchemaCompile);
     Some (Ok tt); Some (Err ErrorSchemaCompile); Some (Ok tt); Some (Err ErrorSchemaCompile); Some (Err ErrorSchemaPolicy); Some (Ok tt);
     Some (Err ErrorSchemaCompile); Some (Err ErrorSchemaPolicy); Some (Ok tt)].
Proof. vm_compute. reflexivity. Qed.

(** ** The scan returns *)

Lemma item_nodes items i (v : json) : items !! i = Some v → nodes_of v < nodes_of (JArr items).
Proof.
  revert i. induction items as [|x items IH]; intros [|i]; cbn [lookup list_lookup]; intros H; try done; cbn [nodes_of foldr].
  - injection H as ->. pose proof (nodes_of_pos (JArr items)) as Hp. cbn [nodes_of] in Hp. lia.
  - specialize (IH i H). cbn [nodes_of] in IH. pose proof (nodes_of_pos x). lia.
Qed.

Lemma member_nodes members (m : string * json) : m ∈ members → nodes_of m.2 < nodes_of (JObj members).
Proof.
  induction members as [|x members IH]; [by intros ?%elem_of_nil|]. intros [->|H]%elem_of_cons; cbn [nodes_of foldr].
  - pose proof (nodes_of_pos (JObj members)) as Hp. cbn [nodes_of] in Hp. lia.
  - specialize (IH H). cbn [nodes_of] in IH. pose proof (nodes_of_pos x.2). lia.
Qed.
Lemma assoc_nodes members k v : assoc k members = Some v → nodes_of v < nodes_of (JObj members).
Proof. intros H%assoc_In. by apply member_nodes in H. Qed.

Lemma follow_nodes current canonical tokens v l : follow current canonical tokens = Some (v, l) → nodes_of v <= nodes_of current.
Proof.
  revert current canonical. induction tokens as [|t tokens IH]; cbn [follow]; intros current canonical.
  { intros [= <- _]. lia. }
  destruct (decodeJSONPointerToken t) as [token|]; [|done]. cbn [mbind option_bind].
  destruct (select current token) as [next|] eqn:E; [|done]. cbn [mbind option_bind]. intros H%IH.
  destruct current as [| | | |items|members]; cbn [select] in E; try done.
  - destruct (parseJSONPointerIndex token); [|done]. apply item_nodes in E. lia.
  - apply assoc_nodes in E. lia.
Qed.

Lemma target_nodes resource location reference v l :
  resolveLocalSchemaReference resource location reference = Some (Some (v, l)) → nodes_of v <= nodes_of resource.
Proof.
  unfold resolveLocalSchemaReference. destruct (unescape _ _) as [fragment|]; [|done]. cbn [mbind option_bind].
  destruct (fragment =s ""); [by intros [= <- _]|]. destruct fragment as [|c pointer]; [done|].
  destruct (Ascii.eqb_spec c "/") as [->|Hc].
  - destruct (follow _ _ _) as [[v' l']|] eqn:E; [|done]. cbn [option_map]. intros [= -> ->]. by apply follow_nodes in E.
  - destruct c as [[] [] [] [] [] [] [] []]; first [by intros [=]|by destruct Hc].
Qed.

(** A call returns, and leaves the number of references within its limit. *)
Definition terminates (s : schemaPolicyState) (o : outcome) : Prop :=
  match o with
  | None => False
  | Some (Err _) => True
  | Some (Ok s') => ps_references s <= ps_references s' <= MaxSchemaReferences
  end.

Lemma terminates_then s o k :
  terminates s o → (∀ s', ps_references s <= ps_references s' <= MaxSchemaReferences → terminates s' (k s')) → terminates s (andThen o k).
Proof.
  destruct o as [[s'|e]|]; cbn [terminates andThen]; try done. intros H Hk. specialize (Hk s' H).
  destruct (k s') as [[s''|e]|]; cbn [terminates] in *; [lia|done|done].
Qed.

Lemma terminates_each {A} (f : A → schemaPolicyState → outcome) l s :
  ps_references s <= MaxSchemaReferences →
  (∀ x s', x ∈ l → ps_references s <= ps_references s' <= MaxSchemaReferences → terminates s' (f x s')) → terminates s (scan_each f l s).
Proof.
  revert s. induction l as [|x l IH]; intros s Hs Hf; cbn [scan_each]; [simpl; lia|].
  apply terminates_then; [apply Hf; [apply list_elem_of_here|lia]|]. intros s' Hs'. apply IH; [lia|].
  intros y s'' Hy Hs''. apply Hf; [by apply list_elem_of_further|lia].
Qed.

Lemma terminates_pattern pattern s : ps_references s <= MaxSchemaReferences → terminates s (addPattern pattern s).
Proof. intros H. unfold addPattern. case_match; simpl; [done|lia]. Qed.

Section returns.
Variables (scan : schema_node → schemaPolicyState → outcome) (size : Z).

Definition scans_below (nodes refs : Z) : Prop :=
  ∀ n s, nodes_of (sn_resource n) <= size → nodes_of (sn_value n) <= nodes →
    refs <= ps_references s <= MaxSchemaReferences → terminates s (scan n s).

Variables (n : schema_node) (members : list (string * json)) (refs : Z).
Hypothesis bounded : nodes_of (sn_resource n) <= size.
Hypothesis smaller : scans_below (nodes_of (JObj members) - 1) refs.
Hypothesis later : scans_below size (refs + 1).

Lemma terminates_children s l :
  refs <= ps_references s <= MaxSchemaReferences →
  (∀ m, m ∈ l → sn_resource m = sn_resource n ∧ nodes_of (sn_value m) < nodes_of (JObj members)) → terminates s (scan_each scan l s).
Proof.
  intros Hs Hl. apply terminates_each; [lia|]. intros m s' [Hr Hv]%Hl Hs'. apply smaller; [by rewrite Hr|lia|lia].
Qed.

Lemma terminates_reference s : refs <= ps_references s <= MaxSchemaReferences → terminates s (scan_reference scan n members s).
Proof.
  intros Hs. unfold scan_reference. destruct (assoc "$ref" members) as [[| | |value| |]|]; try exact I; [|cbn; lia].
  destruct (has_prefix "#" value); [|exact I]. cbn [negb]. change (ps_references (count_reference s)) with (ps_references s + 1).
  destruct (Z.ltb_spec MaxSchemaReferences (ps_references s + 1)) as [|Hlt]; [exact I|].
  destruct (resolveLocalSchemaReference _ _ value) as [[[v l]|]|] eqn:E; [|simpl; lia|done].
  apply target_nodes in E.
  pose proof (later {| sn_value := v; sn_location := l; sn_resource := sn_resource n; sn_resourceLocation := sn_resourceLocation n |}
    (count_reference s) bounded ltac:(simpl; lia) ltac:(simpl; lia)) as Ht.
  unfold terminates in *. destruct (scan _ _) as [[s'|e]|]; simpl in *; [lia|done|done].
Qed.

Lemma terminates_members s : refs <= ps_references s <= MaxSchemaReferences → terminates s (scan_members scan n members s).
Proof.
  intros Hs. unfold scan_members. do 3 (case_match; [exact I|]).
  apply terminates_then; [by apply terminates_reference|]. intros s1 Hs1.
  apply terminates_then.
  { unfold scan_pattern. destruct (assoc "pattern" members) as [[| | |value| |]|]; try done; [apply terminates_pattern|simpl]; lia. }
  intros s2 Hs2. apply terminates_then.
  { unfold scan_patterns. destruct (assoc "patternProperties" members) as [[| | | | |values]|]; try done; [|simpl; lia].
    apply terminates_each; [lia|]. intros m s' _ Hs'. apply terminates_pattern. lia. }
  intros s3 Hs3. apply terminates_then.
  { apply terminates_each; [lia|]. intros keyword s' _ Hs'. unfold scan_array.
    destruct (assoc keyword members) as [[| | | |branches|]|] eqn:E; try done; [|simpl; lia]. apply assoc_nodes in E.
    assert (∀ s'', ps_references s'' = ps_references s' → terminates s' (scan_each scan (array_children n keyword branches) s'')) as Hb.
    { intros s'' Hr. cut (terminates s'' (scan_each scan (array_children n keyword branches) s'')); [unfold terminates; by rewrite Hr|].
      apply terminates_children; [lia|]. intros m Hm. unfold array_children in Hm. apply elem_of_lookup_imap in Hm as (i & x & -> & Hi).
      split; [done|]. cbn [sn_value child]. apply item_nodes in Hi. lia. }
    destruct (isBranchKeyword keyword); cbn [andb]; [case_match; [exact I|]|]; by apply Hb. }
  intros s4 Hs4. apply terminates_then.
  { apply terminates_each; [lia|]. intros keyword s' _ Hs'. unfold scan_map.
    destruct (assoc keyword members) as [[| | | | |children]|] eqn:E; try done; [|simpl; lia]. apply assoc_nodes in E.
    apply terminates_children; [lia|]. intros m Hm. unfold map_children in Hm. apply list_elem_of_In, in_map_iff in Hm as (x & <- & Hx).
    apply filter_In in Hx as [Hx _]. split; [done|]. apply list_elem_of_In, member_nodes in Hx. cbn [sn_value child]. lia. }
  intros s5 Hs5. apply terminates_each; [lia|]. intros keyword s' _ Hs'. unfold scan_single.
  destruct (assoc keyword members) as [value|] eqn:E; [|simpl; lia]. apply assoc_nodes in E.
  apply smaller; [done|cbn [sn_value child]; lia|lia].
Qed.
End returns.

Lemma enter_value n : sn_value (enter n) = sn_value n.
Proof. unfold enter. destruct (sn_value n) as [| | | | |members] eqn:E; try done. by destruct (has_key "$id" members). Qed.
Lemma enter_resource n : sn_resource (enter n) = sn_resource n ∨ sn_resource (enter n) = sn_value n.
Proof. unfold enter. destruct (sn_value n) as [| | | | |members] eqn:E; auto. destruct (has_key "$id" members); [right|left]; done. Qed.

Lemma scan_returns size fuel n s :
  nodes_of (sn_resource n) <= size → nodes_of (sn_value n) <= size → ps_references s <= MaxSchemaReferences →
  (MaxSchemaReferences - ps_references s) * (size + 1) + nodes_of (sn_value n) < Z.of_nat fuel →
  terminates s (scanSchema fuel n s).
Proof.
  revert n s. induction fuel as [|fuel IH]; intros n s Hr Hv Hs Hf; [pose proof (nodes_of_pos (sn_value n)); nia|].
  cbn [scanSchema]. destruct (bad_identifier n); [exact I|]. case_bool_decide; [simpl; lia|].
  destruct (sn_value (enter n)) as [| | | | |members] eqn:E; try exact I; [simpl; lia|].
  assert (nodes_of (sn_resource (enter n)) <= size) as Hr' by (destruct (enter_resource n) as [-> | ->]; lia).
  rewrite enter_value in E. rewrite E in *.
  change (terminates (mark (schemaScanKey (enter n)) s) (scan_members (scanSchema fuel) (enter n) members (mark (schemaScanKey (enter n)) s))).
  apply (terminates_members _ size _ members (ps_references s)); try done.
  - intros m s' Hm Hm' Hs'. apply IH; [done|lia|lia|]. pose proof (nodes_of_pos (sn_value m)). nia.
  - intros m s' Hm Hm' Hs'. apply IH; [done|lia|lia|]. pose proof (nodes_of_pos (sn_value m)). pose proof (nodes_of_pos (JObj members)). nia.
Qed.

(** ** The specification: the subschemas that are reached, what each may be, and the totals *)

Inductive budget := Branches | Patterns | References.
#[export] Instance budget_eq_dec : EqDecision budget.
Proof. solve_decision. Defined.
Definition limit (b : budget) : Z :=
  match b with Branches => MaxSchemaBranches | Patterns => MaxSchemaPatterns | References => MaxSchemaReferences end.
Definition spent (s : schemaPolicyState) (b : budget) : Z :=
  match b with Branches => ps_branches s | Patterns => ps_patterns s | References => ps_references s end.

Definition array_branches (members : list (string * json)) (keyword : string) : list json :=
  match assoc keyword members with Some (JArr branches) => branches | _ => [] end.
Definition map_values (members : list (string * json)) (keyword : string) : list (string * json) :=
  match assoc keyword members with Some (JObj children) => children | _ => [] end.

(** What a subschema adds to each total. *)
Definition branch_weight (members : list (string * json)) (keyword : string) : Z :=
  if isBranchKeyword keyword then Z.of_nat (length (array_branches members keyword)) else 0.
Definition sum_of {A} (f : A → Z) (l : list A) : Z := foldr (λ x n, f x + n) 0 l.
Definition reference_weight (members : list (string * json)) : Z := if has_key "$ref" members then 1 else 0.
Definition pattern_weight (members : list (string * json)) : Z := if has_key "pattern" members then 1 else 0.
Definition patterns_weight (members : list (string * json)) : Z := Z.of_nat (length (map_values members "patternProperties")).
Definition weight (b : budget) (n : schema_node) : Z :=
  match sn_value n with
  | JObj members =>
      match b with
      | Branches => sum_of (branch_weight members) schemaArrayKeywords
      | Patterns => pattern_weight members + patterns_weight members
      | References => reference_weight members
      end
  | _ => 0
  end.

(** What a subschema may be. *)
Definition pattern_fits (pattern : string) : bool := zlen pattern <=? MaxSchemaPatternBytes.
Definition reference_allowed (n : schema_node) (members : list (string * json)) : bool :=
  match assoc "$ref" members with
  | None => true
  | Some (JStr value) =>
      has_prefix "#" value
      && match resolveLocalSchemaReference (sn_resource n) (sn_resourceLocation n) value with Some _ => true | None => false end
  | Some _ => false
  end.
Definition pattern_allowed (members : list (string * json)) : bool :=
  match assoc "pattern" members with None => true | Some (JStr value) => pattern_fits value | Some _ => false end.
Definition patterns_allowed (members : list (string * json)) : bool :=
  match assoc "patternProperties" members with None => true | Some (JObj values) => forallb (λ m, pattern_fits m.1) values | Some _ => false end.
Definition array_allowed (members : list (string * json)) (keyword : string) : bool :=
  match assoc keyword members with None | Some (JArr _) => true | Some _ => false end.
Definition map_allowed (members : list (string * json)) (keyword : string) : bool :=
  match assoc keyword members with None | Some (JObj _) => true | Some _ => false end.
Definition members_allowed (n : schema_node) (members : list (string * json)) : bool :=
  negb (bad_dialect members) && negb (has_key "$vocabulary" members)
  && negb (has_key "$dynamicRef" members || has_key "$recursiveRef" members)
  && (reference_allowed n members && (pattern_allowed members && (patterns_allowed members
      && (forallb (array_allowed members) schemaArrayKeywords && (forallb (map_allowed members) schemaMapKeywords && true))))).
Definition allowed (n : schema_node) : bool :=
  negb (bad_identifier n)
  && match sn_value n with JBool _ => true | JObj members => members_allowed n members | _ => false end.

(** The subschemas below a subschema, and the target of its reference. *)
Definition reference_successors (n : schema_node) (members : list (string * json)) : list schema_node :=
  match assoc "$ref" members with
  | Some (JStr value) =>
      match resolveLocalSchemaReference (sn_resource n) (sn_resourceLocation n) value with
      | Some (Some (target, location)) =>
          [{| sn_value := target; sn_location := location; sn_resource := sn_resource n; sn_resourceLocation := sn_resourceLocation n |}]
      | _ => []
      end
  | _ => []
  end.
Definition array_successors (n : schema_node) (members : list (string * json)) (keyword : string) : list schema_node :=
  array_children n keyword (array_branches members keyword).
Definition map_successors (n : schema_node) (members : list (string * json)) (keyword : string) : list schema_node :=
  map_children n keyword (map_values members keyword).
Definition single_successors (n : schema_node) (members : list (string * json)) (keyword : string) : list schema_node :=
  match assoc keyword members with Some value => [child n value [keyword]] | None => [] end.
Definition member_successors (n : schema_node) (members : list (string * json)) : list schema_node :=
  reference_successors n members ++ [] ++ [] ++ flat_map (array_successors n members) schemaArrayKeywords
  ++ flat_map (map_successors n members) schemaMapKeywords ++ flat_map (single_successors n members) schemaSingleKeywords.
Definition successors (n : schema_node) : list schema_node :=
  match sn_value n with JObj members => member_successors n members | _ => [] end.

Inductive reached (document : json) : schema_node → Prop :=
  | reached_whole : reached document (enter (whole document))
  | reached_next n m : reached document n → m ∈ successors n → reached document (enter m).

(** The policy: every reached subschema is allowed, and no set of them exceeds a total. *)
Definition within_policy (document : json) : Prop :=
  (∀ n, reached document n → allowed n = true)
  ∧ ∀ b l, NoDup l → Forall (reached document) l → sum_of (weight b) l <= limit b.

(** ** The scan computes the specification *)

Lemma sum_nonneg {A} (f : A → Z) l : (∀ x, 0 <= f x) → 0 <= sum_of f l.
Proof. intros Hf. induction l as [|x l IH]; cbn; [done|]. specialize (Hf x). unfold sum_of in IH. lia. Qed.
Lemma sum_app {A} (f : A → Z) l k : sum_of f (l ++ k) = sum_of f l + sum_of f k.
Proof. induction l as [|x l IH]; [done|]. cbn. unfold sum_of in *. lia. Qed.
Lemma sum_perm {A} (f : A → Z) l k : l ≡ₚ k → sum_of f l = sum_of f k.
Proof. induction 1; cbn; unfold sum_of in *; lia. Qed.
Lemma weight_nonneg b n : 0 <= weight b n.
Proof.
  unfold weight. destruct (sn_value n) as [| | | | |members]; try done. destruct b.
  - apply sum_nonneg. intros k. unfold branch_weight. case_match; lia.
  - unfold pattern_weight, patterns_weight. case_match; lia.
  - unfold reference_weight. case_match; lia.
Qed.

Section exact.
Variable document : json.

Definition fine (s : schemaPolicyState) : Prop := NoDup (ps_scanned s) ∧ ∀ b, spent s b <= limit b.
Definition seen (s : schemaPolicyState) (m : schema_node) : Prop := schemaScanKey (enter m) ∈ ps_scanned s.
Definition done_at (s : schemaPolicyState) (n : schema_node) : Prop :=
  reached document n ∧ allowed n = true ∧ ∀ m, m ∈ successors n → seen s m.

Definition advances (s : schemaPolicyState) (w : budget → Z) (met : list schema_node) (s' : schemaPolicyState) : Prop :=
  ∃ new, ps_scanned s' ≡ₚ List.map schemaScanKey new ++ ps_scanned s
    ∧ (∀ b, spent s' b = spent s b + w b + sum_of (weight b) new)
    ∧ Forall (done_at s') new ∧ Forall (seen s') met ∧ fine s'.
Definition exceeds (s : schemaPolicyState) (w : budget → Z) : Prop :=
  ∃ new b, Forall (reached document) new ∧ NoDup (List.map schemaScanKey new ++ ps_scanned s)
    ∧ limit b < spent s b + w b + sum_of (weight b) new.
Definition bad : Prop := ∃ n, reached document n ∧ allowed n = false.

(** A piece of the scan that adds [w] to the totals beside what the subschemas
    it visits add, after which [met] are visited; [chk] is what it tests. *)
Definition runs (s : schemaPolicyState) (w : budget → Z) (met : list schema_node) (chk : bool) (o : outcome) : Prop :=
  fine s →
  match o with
  | None => True
  | Some (Ok s') => chk = true ∧ advances s w met s'
  | Some (Err _) => chk = false ∨ bad ∨ exceeds s w
  end.

Definition nothing : budget → Z := λ _, 0.
Definition plus (w w' : budget → Z) : budget → Z := λ b, w b + w' b.

Lemma runs_ext s w w' met met' chk chk' o :
  (∀ b, w b = w' b) → met = met' → chk = chk' → runs s w met chk o → runs s w' met' chk' o.
Proof.
  intros Hw <- <- Hr Hf. specialize (Hr Hf). destruct o as [[s'|e]|]; [|destruct Hr as [Hr|[Hr|(new & b & H)]]|done].
  - destruct Hr as [Hc (new & A & B & C & D & F)]. split; [done|]. exists new. split_and!; try done. intros b. by rewrite B, Hw.
  - by left.
  - by right; left.
  - right; right. exists new, b. by rewrite <- Hw.
Qed.

Lemma runs_returns s chk : chk = true → runs s nothing [] chk (returns s).
Proof.
  intros -> Hf. split; [done|]. exists []. split_and!; try done; try constructor; try apply Hf.
  intros b. unfold nothing. cbn. lia.
Qed.

Lemma runs_refuses s w met chk e : chk = false → runs s w met chk (refuses e).
Proof. intros -> _. by left. Qed.

Lemma seen_more s w met s' m : advances s w met s' → seen s m → seen s' m.
Proof. intros (new & A & _) H. unfold seen. rewrite A. apply elem_of_app. by right. Qed.

Lemma runs_then s w w' met met' chk chk' o k :
  runs s w met chk o → (∀ s', runs s' w' met' chk' (k s')) → (∀ b, 0 <= w' b) →
  runs s (plus w w') (met ++ met') (chk && chk') (andThen o k).
Proof.
  intros Ho Hk Hw Hf. specialize (Ho Hf). destruct o as [[s1|e]|]; cbn [andThen]; [|destruct Ho as [-> |[Hb|(new & b & A & B & C)]]|done].
  - destruct Ho as [-> Ha]. pose proof Ha as (new & A & B & C & D & F). specialize (Hk s1 F). cbn [andb].
    destruct (k s1) as [[s2|e]|]; [|destruct Hk as [Hc|[Hb|(new' & b & A' & B' & C')]]|done].
    + destruct Hk as [Hc Ha']. split; [done|]. pose proof Ha' as (new' & A' & B' & C' & D' & F'). exists (new' ++ new). split_and!; [| | | |done].
      * rewrite A', A, map_app. by rewrite app_assoc.
      * intros b. rewrite B', B, sum_app. unfold plus. lia.
      * apply Forall_app. split; [done|]. eapply Forall_impl; [exact C|]. intros n (R & L & S). split_and!; [done|done|].
        intros m Hm. by eapply seen_more, S.
      * apply Forall_app. split; [|done]. eapply Forall_impl; [exact D|]. intros n. by apply (seen_more _ _ _ _ _ Ha').
    + by left.
    + by right; left.
    + right; right. exists (new' ++ new), b. split_and!.
      * apply Forall_app. split; [done|]. eapply Forall_impl; [exact C|]. by intros n [R _].
      * rewrite map_app, <- app_assoc. by rewrite <- A.
      * rewrite B in C'. rewrite sum_app. unfold plus. lia.
  - by left.
  - by right; left.
  - right; right. exists new, b. split_and!; [done|done|]. unfold plus. specialize (Hw b). lia.
Qed.

Lemma runs_each {A} (f : A → schemaPolicyState → outcome) (w : A → budget → Z) met chk l :
  (∀ x, x ∈ l → ∀ s, runs s (w x) (met x) (chk x) (f x s)) → (∀ x b, 0 <= w x b) →
  ∀ s, runs s (λ b, sum_of (λ x, w x b) l) (flat_map met l) (forallb chk l) (scan_each f l s).
Proof.
  intros Hf Hw. induction l as [|x l IH]; intros s; [by apply runs_returns|].
  cbn [scan_each flat_map forallb]. eapply runs_ext; [| | |apply runs_then].
  5: { apply IH. intros y Hy. by apply Hf, list_elem_of_further. }
  4: { apply Hf, list_elem_of_here. }
  - intros b. done.
  - done.
  - done.
  - intros b. apply sum_nonneg. intros y. apply Hw.
Qed.

(** *** The parts of one object *)

Definition only (k : budget) (z : Z) : budget → Z := λ b, if decide (b = k) then z else 0.

Lemma runs_spend s s' k z met chk o :
  ps_scanned s' = ps_scanned s → (∀ b, spent s' b = spent s b + only k z b) → spent s' k <= limit k →
  runs s' nothing met chk o → runs s (only k z) met chk o.
Proof.
  intros Hsc Hsp Hl Hr [Hn Hb]. assert (fine s') as Hf'.
  { split; [by rewrite Hsc|]. intros b. rewrite Hsp. unfold only. case_decide; [|specialize (Hb b); lia].
    subst b. specialize (Hsp k). unfold only in Hsp. rewrite decide_True in Hsp by done. lia. }
  specialize (Hr Hf'). destruct o as [[s''|e]|]; [|destruct Hr as [Hc|[Hc|(new & b & A & B & C)]]|done].
  - destruct Hr as [Hc (new & A & B & C & D & F)]. split; [done|]. exists new. split_and!; try done; [by rewrite A, Hsc|].
    intros b. rewrite B, Hsp. unfold nothing. lia.
  - by left.
  - by right; left.
  - right; right. exists new, b. split_and!; [done|by rewrite <- Hsc|]. rewrite Hsp in C. unfold nothing in C. lia.
Qed.

Lemma runs_exceeds s k z met chk e : limit k < spent s k + z → runs s (only k z) met chk (refuses e).
Proof.
  intros Hl [Hn _]. right; right. exists [], k. split_and!; [constructor|done|]. unfold only. rewrite decide_True by done. cbn. lia.
Qed.

Lemma runs_pattern pattern s : runs s (only Patterns 1) [] (pattern_fits pattern) (addPattern pattern s).
Proof.
  unfold addPattern, pattern_fits. change (ps_patterns (count_pattern s)) with (ps_patterns s + 1).
  destruct (Z.ltb_spec MaxSchemaPatterns (ps_patterns s + 1)); [by apply runs_exceeds|]. cbn [orb].
  destruct (Z.ltb_spec MaxSchemaPatternBytes (zlen pattern)).
  { apply runs_refuses, Z.leb_gt. done. }
  apply (runs_spend _ (count_pattern s)); [done| |done|].
  - intros []; unfold only; simpl; lia.
  - apply runs_returns, Z.leb_le. done.
Qed.

Section object.
Variables (scan : schema_node → schemaPolicyState → outcome) (n : schema_node) (members : list (string * json)).
Hypothesis is_object : sn_value n = JObj members.
Hypothesis here : reached document n.
Hypothesis scan_runs : ∀ m s, reached document (enter m) → runs s nothing [m] true (scan m s).

Lemma runs_children l s : (∀ m, m ∈ l → m ∈ successors n) → runs s nothing l true (scan_each scan l s).
Proof.
  intros Hl. eapply runs_ext; [| | |apply (runs_each scan (λ _, nothing) (λ m, [m]) (λ _, true))].
  - intros b. unfold nothing. induction l; [done|]. cbn. by apply IHl; intros m Hm; apply Hl, list_elem_of_further.
  - clear Hl. induction l as [|m l IH]; [done|]. cbn [flat_map app]. by rewrite IH.
  - clear Hl. by induction l.
  - intros m Hm s'. apply scan_runs. eapply reached_next; [exact here|]. by apply Hl.
  - done.
Qed.

Lemma runs_reference s :
  (∀ m, m ∈ reference_successors n members → m ∈ successors n) →
  runs s (only References (reference_weight members)) (reference_successors n members) (reference_allowed n members) (scan_reference scan n members s).
Proof.
  unfold scan_reference, reference_successors, reference_allowed, reference_weight, has_key.
  destruct (assoc "$ref" members) as [[| | |value| |]|]; intros Hs; try by apply runs_refuses.
  2: { eapply runs_ext; [| | |by apply runs_returns]; [|done..]. intros []; reflexivity. }
  destruct (has_prefix "#" value); [cbn [negb]|by apply runs_refuses].
  change (ps_references (count_reference s)) with (ps_references s + 1).
  destruct (Z.ltb_spec MaxSchemaReferences (ps_references s + 1)); [by apply runs_exceeds|].
  assert (∀ met chk o, runs (count_reference s) nothing met chk o → runs s (only References 1) met chk o) as Hstep.
  { intros met chk o. apply runs_spend; [done| |done]. intros []; unfold only; simpl; lia. }
  destruct (resolveLocalSchemaReference _ _ value) as [[[target location]|]|]; [| |by apply runs_refuses].
  - apply Hstep, scan_runs. eapply reached_next; [exact here|]. by apply Hs, list_elem_of_here.
  - by apply Hstep, runs_returns.
Qed.

Lemma runs_pattern_member s : runs s (only Patterns (pattern_weight members)) [] (pattern_allowed members) (scan_pattern members s).
Proof.
  unfold scan_pattern, pattern_weight, pattern_allowed, has_key.
  destruct (assoc "pattern" members) as [[| | |value| |]|]; try by apply runs_refuses; [].
  - apply runs_pattern.
  - eapply runs_ext; [| | |by apply runs_returns]; [|done..]. intros []; reflexivity.
Qed.

Lemma runs_patterns s : runs s (only Patterns (patterns_weight members)) [] (patterns_allowed members) (scan_patterns members s).
Proof.
  unfold scan_patterns, patterns_weight, patterns_allowed, map_values.
  destruct (assoc "patternProperties" members) as [[| | | | |values]|]; try by apply runs_refuses.
  2: { eapply runs_ext; [| | |by apply runs_returns]; [|done..]. intros []; reflexivity. }
  eapply runs_ext; [| | |apply (runs_each (λ m, addPattern m.1) (λ _, only Patterns 1) (λ _, []) (λ m, pattern_fits m.1))].
  - intros b. unfold only. induction values as [|m values IH]; [by case_decide|]. cbn. unfold sum_of in IH. rewrite IH. case_decide; lia.
  - by induction values.
  - done.
  - intros m _ s'. apply runs_pattern.
  - intros m b. unfold only. case_decide; lia.
Qed.

Lemma runs_array keyword s :
  (∀ m, m ∈ array_successors n members keyword → m ∈ successors n) →
  runs s (only Branches (branch_weight members keyword)) (array_successors n members keyword) (array_allowed members keyword) (scan_array scan n members keyword s).
Proof.
  unfold scan_array, array_successors, array_allowed, branch_weight, array_branches.
  assert (∀ z, z = 0 → ∀ b, nothing b = only Branches z b) as Hz by (intros z -> []; reflexivity).
  destruct (assoc keyword members) as [[| | | |branches|]|]; intros Hs; try by apply runs_refuses.
  2: { eapply runs_ext; [| | |by apply runs_returns]; [|done..]. apply Hz. by case_match. }
  destruct (isBranchKeyword keyword); cbn [andb].
  - change (ps_branches (count_branches (Z.of_nat (length branches)) s)) with (ps_branches s + Z.of_nat (length branches)).
    destruct (Z.ltb_spec MaxSchemaBranches (ps_branches s + Z.of_nat (length branches))); [by apply runs_exceeds|].
    apply (runs_spend _ (count_branches (Z.of_nat (length branches)) s)); [done| |done|by apply runs_children].
    intros []; unfold only; simpl; lia.
  - eapply runs_ext; [| | |by apply runs_children]; [|done..]. by apply Hz.
Qed.

Lemma runs_map keyword s :
  (∀ m, m ∈ map_successors n members keyword → m ∈ successors n) →
  runs s nothing (map_successors n members keyword) (map_allowed members keyword) (scan_map scan n members keyword s).
Proof.
  unfold scan_map, map_successors, map_allowed, map_values.
  destruct (assoc keyword members) as [[| | | | |children]|]; intros Hs; try by apply runs_refuses.
  - by apply runs_children.
  - by apply runs_returns.
Qed.

Lemma runs_single keyword s :
  (∀ m, m ∈ single_successors n members keyword → m ∈ successors n) →
  runs s nothing (single_successors n members keyword) true (scan_single scan n members keyword s).
Proof.
  unfold scan_single, single_successors. destruct (assoc keyword members) as [value|]; intros Hs; [|by apply runs_returns].
  apply scan_runs. eapply reached_next; [exact here|]. by apply Hs, list_elem_of_here.
Qed.

Lemma flat_map_in (f : string → list schema_node) l x m : x ∈ l → m ∈ f x → m ∈ flat_map f l.
Proof. intros Hx Hm. apply list_elem_of_In, in_flat_map. exists x. by rewrite <- !list_elem_of_In. Qed.

Definition nonneg (w : budget → Z) : Prop := ∀ b, 0 <= w b.
Lemma only_nonneg k z : 0 <= z → nonneg (only k z).
Proof. intros Hz b. unfold only. by case_decide. Qed.
Lemma plus_nonneg w w' : nonneg w → nonneg w' → nonneg (plus w w').
Proof. intros Hw Hw' b. unfold plus. specialize (Hw b). specialize (Hw' b). lia. Qed.
Lemma sums_nonneg (w : string → budget → Z) l : (∀ k, nonneg (w k)) → nonneg (λ b, sum_of (λ k, w k b) l).
Proof. intros Hw b. apply sum_nonneg. intros k. apply Hw. Qed.
Lemma branch_nonneg k : 0 <= branch_weight members k.
Proof. unfold branch_weight. case_match; lia. Qed.
Lemma patterns_nonneg : 0 <= patterns_weight members.
Proof. unfold patterns_weight. lia. Qed.
Lemma pattern_nonneg : 0 <= pattern_weight members.
Proof. unfold pattern_weight. by case_match. Qed.
Lemma nothing_nonneg : nonneg nothing.
Proof. done. Qed.
Ltac is_nonneg :=
  repeat first
    [ apply plus_nonneg | apply only_nonneg | apply sums_nonneg; intros ? | apply branch_nonneg | apply patterns_nonneg
    | apply pattern_nonneg | apply nothing_nonneg ].
Lemma no_weight (l : list string) b : sum_of (λ _, nothing b) l = 0.
Proof. induction l as [|x l IH]; [done|]. exact IH. Qed.

Lemma runs_singles s :
  (∀ m, m ∈ flat_map (single_successors n members) schemaSingleKeywords → m ∈ successors n) →
  runs s (λ b, sum_of (λ _, nothing b) schemaSingleKeywords) (flat_map (single_successors n members) schemaSingleKeywords)
    (forallb (λ _, true) schemaSingleKeywords) (scan_each (scan_single scan n members) schemaSingleKeywords s).
Proof.
  intros Hall. apply (runs_each _ (λ _, nothing) (single_successors n members) (λ _, true)); [|done].
  intros k Hk s'. apply runs_single. intros m Hm. apply Hall. by eapply flat_map_in.
Qed.
Lemma runs_maps s :
  (∀ m, m ∈ flat_map (map_successors n members) schemaMapKeywords → m ∈ successors n) →
  runs s (λ b, sum_of (λ _, nothing b) schemaMapKeywords) (flat_map (map_successors n members) schemaMapKeywords)
    (forallb (map_allowed members) schemaMapKeywords) (scan_each (scan_map scan n members) schemaMapKeywords s).
Proof.
  intros Hall. apply (runs_each _ (λ _, nothing) (map_successors n members)); [|done].
  intros k Hk s'. apply runs_map. intros m Hm. apply Hall. by eapply flat_map_in.
Qed.
Lemma runs_arrays s :
  (∀ m, m ∈ flat_map (array_successors n members) schemaArrayKeywords → m ∈ successors n) →
  runs s (λ b, sum_of (λ k, only Branches (branch_weight members k) b) schemaArrayKeywords)
    (flat_map (array_successors n members) schemaArrayKeywords)
    (forallb (array_allowed members) schemaArrayKeywords) (scan_each (scan_array scan n members) schemaArrayKeywords s).
Proof.
  intros Hall. apply (runs_each _ (λ k, only Branches (branch_weight members k)) (array_successors n members)).
  - intros k Hk s'. apply runs_array. intros m Hm. apply Hall. by eapply flat_map_in.
  - intros k b. apply only_nonneg, branch_nonneg.
Qed.

Lemma member_parts m :
  m ∈ reference_successors n members ∨ m ∈ flat_map (array_successors n members) schemaArrayKeywords
  ∨ m ∈ flat_map (map_successors n members) schemaMapKeywords ∨ m ∈ flat_map (single_successors n members) schemaSingleKeywords →
  m ∈ successors n.
Proof.
  unfold successors. rewrite is_object. unfold member_successors. rewrite !app_nil_l.
  intros [H|[H|[H|H]]]; repeat first [exact H|apply elem_of_app; right; exact H|apply elem_of_app; left; exact H|apply elem_of_app; right].
Qed.

Lemma runs_members s :
  runs s (λ b, weight b n) (member_successors n members) (members_allowed n members) (scan_members scan n members s).
Proof.
  unfold scan_members, members_allowed.
  destruct (bad_dialect members); [by apply runs_refuses|]. destruct (has_key "$vocabulary" members); [by apply runs_refuses|].
  destruct (_ || _); [by apply runs_refuses|]. cbn [negb andb].
  pose proof member_parts as Hall.
  eapply (runs_ext _ (plus _ (plus _ (plus _ (plus _ (plus _ _)))))).
  4: { apply runs_then; [apply runs_reference; naive_solver|intros s1|].
       - apply runs_then; [apply runs_pattern_member|intros s2|].
         + apply runs_then; [apply runs_patterns|intros s3|].
           * apply runs_then; [apply runs_arrays; naive_solver|intros s4|].
             -- apply runs_then; [apply runs_maps; naive_solver|intros s5; apply runs_singles; naive_solver|].
                change (nonneg (λ b, sum_of (λ _, nothing b) schemaSingleKeywords)). is_nonneg.
             -- intros b. unfold plus. by rewrite !no_weight.
           * intros b. apply plus_nonneg; [is_nonneg|]. intros b'. unfold plus. by rewrite !no_weight.
         + intros b. do 2 (apply plus_nonneg; [is_nonneg|]). intros b'. unfold plus. by rewrite !no_weight.
       - intros b. do 3 (apply plus_nonneg; [is_nonneg|]). intros b'. unfold plus. by rewrite !no_weight. }
  - intros b. unfold plus, weight. rewrite is_object, !no_weight. destruct b.
    + change (0 + (0 + (0 + (sum_of (branch_weight members) schemaArrayKeywords + (0 + 0)))) = sum_of (branch_weight members) schemaArrayKeywords). lia.
    + change (0 + (pattern_weight members + (patterns_weight members + (sum_of (λ _, nothing Patterns) schemaArrayKeywords + (0 + 0))))
        = pattern_weight members + patterns_weight members). rewrite no_weight. lia.
    + change (reference_weight members + (0 + (0 + (sum_of (λ _, nothing References) schemaArrayKeywords + (0 + 0)))) = reference_weight members).
      rewrite no_weight. lia.
  - done.
  - done.
Qed.
End object.
(** *** One subschema *)

Lemma identifier_entered m : bad_identifier (enter m) = bad_identifier m.
Proof. unfold bad_identifier. by rewrite enter_value. Qed.

Lemma fine_mark key s : key ∉ ps_scanned s → fine s → fine (mark key s).
Proof. intros Hk [Hn Hb]. split; [by constructor|]. intros []; [apply (Hb Branches)|apply (Hb Patterns)|apply (Hb References)]. Qed.

Lemma spent_mark key s b : spent (mark key s) b = spent s b.
Proof. by destruct b. Qed.

(** A run after the mark of [n] that adds its weight is a run of the whole of [n]. *)
Lemma runs_marked s n o :
  reached document n → bad_identifier n = false → schemaScanKey n ∉ ps_scanned s →
  runs (mark (schemaScanKey n) s) (λ b, weight b n) (successors n) (allowed n) o →
  fine s →
  match o with
  | None => True
  | Some (Ok s') => schemaScanKey n ∈ ps_scanned s' ∧ advances s nothing [] s'
  | Some (Err _) => bad ∨ exceeds s nothing
  end.
Proof.
  intros Hn Hi Hk Ho Hf. specialize (Ho (fine_mark _ _ Hk Hf)). destruct o as [[s'|e]|]; [| |done].
  - destruct Ho as [Ha (new & A & B & C & D & F)].
    split; [rewrite A; apply elem_of_app; right; apply list_elem_of_here|]. exists (n :: new). split_and!; [| | |constructor|done].
    + rewrite A. cbn [map mark ps_scanned]. symmetry. apply Permutation_middle.
    + intros b. rewrite B, spent_mark. unfold nothing. cbn. unfold sum_of. lia.
    + constructor; [|done]. split_and!; [done|done|]. by apply Forall_forall.
  - destruct Ho as [Ha|[Hb|(new & b & A & B & C)]]; [left; by exists n|by left|right].
    exists (n :: new), b. split_and!; [by constructor| |].
    + cbn [map mark ps_scanned] in *. change (NoDup (schemaScanKey n :: (List.map schemaScanKey new ++ ps_scanned s))). by rewrite Permutation_middle.
    + rewrite spent_mark in C. unfold nothing. cbn. unfold sum_of in C. lia.
Qed.

Lemma scan_node fuel m s : reached document (enter m) → runs s nothing [m] true (scanSchema fuel m s).
Proof.
  revert m s. induction fuel as [|fuel IH]; intros m s Hm; [by intros ?|]. cbn [scanSchema].
  destruct (bad_identifier m) eqn:Hi.
  { intros _. right; left. exists (enter m). split; [done|]. unfold allowed. by rewrite identifier_entered, Hi. }
  case_bool_decide as Hk.
  { intros Hf. split; [done|]. exists []. split_and!; try done; [|by apply Forall_singleton]. intros b. unfold nothing. cbn. lia. }
  set (o := match sn_value (enter m) with JBool _ => _ | _ => _ end). intros Hf.
  assert (runs (mark (schemaScanKey (enter m)) s) (λ b, weight b (enter m)) (successors (enter m)) (allowed (enter m)) o) as Ho.
  { subst o. unfold allowed. rewrite identifier_entered, Hi. cbn [negb andb].
    destruct (sn_value (enter m)) as [|value| | | |members] eqn:E; try by apply runs_refuses.
    - eapply runs_ext; [| | |by apply runs_returns]; [|by unfold successors; rewrite E|done].
      intros b. unfold weight. by rewrite E.
    - eapply runs_ext; [done| |done|by apply (runs_members (scanSchema fuel))]. unfold successors. by rewrite E. }
  apply runs_marked in Ho; [|done|by rewrite identifier_entered|done|done].
  destruct o as [[s'|e]|]; [|by right|done]. destruct Ho as [Hs (new & A & B & C & _ & F)].
  split; [done|]. exists new. split_and!; try done. by apply Forall_singleton.
Qed.
End exact.

(** *** A location names one value *)

Lemma decode_escape_token token : decodeJSONPointerToken (escape_token token) = Some token.
Proof.
  induction token as [|c token IH]; [done|]. cbn [escape_token]. unfold escape_token_byte.
  destruct (Ascii.eqb_spec c "~") as [->|Htilde].
  { change (option_map (String "~") (decodeJSONPointerToken (escape_token token)) = Some (String "~" token)). by rewrite IH. }
  destruct (Ascii.eqb_spec c "/") as [->|_].
  { change (option_map (String "/") (decodeJSONPointerToken (escape_token token)) = Some (String "/" token)). by rewrite IH. }
  rewrite app_string_cons, app_string_nil_l. cbn [decodeJSONPointerToken].
  rewrite (proj2 (Ascii.eqb_neq c "~") Htilde). by rewrite IH.
Qed.

Lemma escape_token_no_sep token : no_sep "/" (escape_token token) = true.
Proof.
  induction token as [|c token IH]; [done|]. cbn [escape_token]. unfold escape_token_byte.
  destruct (Ascii.eqb_spec c "~") as [->|_]; [exact IH|]. destruct (Ascii.eqb c "/") eqn:E; [exact IH|].
  unfold no_sep in *. rewrite app_string_cons, app_string_nil_l. cbn [string_forallb]. by rewrite E.
Qed.

Definition location_text (tokens : list string) : string :=
  match tokens with [] => "" | _ => String "/" (join_with "/" (List.map escape_token tokens)) end.

Lemma location_app l ts ts' : appendSchemaLocation l (ts ++ ts') = appendSchemaLocation (appendSchemaLocation l ts) ts'.
Proof. revert l. induction ts as [|t ts IH]; intros l; [done|]. cbn [app appendSchemaLocation]. apply IH. Qed.

Lemma location_spec l ts : appendSchemaLocation l ts = l +:+ location_text ts.
Proof.
  revert l. induction ts as [|t ts IH]; intros l; cbn [appendSchemaLocation]; [by rewrite app_string_nil_r|].
  rewrite IH, app_string_assoc. f_equal. destruct ts as [|t' ts]; [cbn; by rewrite app_string_nil_r|]. reflexivity.
Qed.

Lemma location_inj ts ts' : appendSchemaLocation "#" ts = appendSchemaLocation "#" ts' → ts = ts'.
Proof.
  rewrite !location_spec. intros H. apply (f_equal (λ s, match s with String _ r => r | EmptyString => "" end)) in H.
  change (location_text ts = location_text ts') in H.
  assert (∀ l : list string, Forall (λ part, no_sep "/" part = true) (List.map escape_token l)) as Hno.
  { intros l. induction l; constructor; [apply escape_token_no_sep|done]. }
  assert (∀ l l', List.map escape_token l = List.map escape_token l' → l = l') as Hinj.
  { induction l as [|a l IH]; intros [|b l']; try done. cbn [map]. intros [= Ha Hl].
    apply (f_equal decodeJSONPointerToken) in Ha. rewrite !decode_escape_token in Ha. f_equal; [by injection Ha|by apply IH]. }
  destruct ts as [|t ts], ts' as [|t' ts']; cbn [location_text] in H; try done.
  apply (f_equal (λ s, match s with String _ r => split_on "/" r | EmptyString => [] end)) in H. cbv beta iota in H. rewrite !split_join in H by (done || apply (Hno (_ :: _))). by apply Hinj.
Qed.

Inductive at_token : json → string → json → Prop :=
  | at_member members token v : assoc token members = Some v → at_token (JObj members) token v
  | at_item items i v token :
      items !! i = Some v → token = dec_Z (Z.of_nat i) ∨ option_map Z.to_nat (parseJSONPointerIndex token) = Some i →
      at_token (JArr items) token v.

Inductive path_to (document : json) : list string → json → Prop :=
  | path_here : path_to document [] document
  | path_step ts v token v' : path_to document ts v → at_token v token v' → path_to document (ts ++ [token]) v'.

Lemma parse_int_digits s z : string_forallb is_digit s = true → parse_int 64 s = Some z → z = Z.of_N (digits_val 0 s).
Proof.
  intros Hd. unfold parse_int. destruct s as [|c r]; [done|]. pose proof Hd as Hc. cbn [string_forallb] in Hc. unfold is_digit, in_range in Hc. to_prop.
  repeat match goal with Hle : (_ <=? _)%N = true |- _ => apply N.leb_le in Hle end.
  rewrite (proj2 (N.eqb_neq (byte_val c) 45)), (proj2 (N.eqb_neq (byte_val c) 43)) by lia. rewrite Hd. cbn [negb orb String.eqb].
  case_match; [|done]. by intros [= <-].
Qed.

Lemma parse_dec_index i j : option_map Z.to_nat (parseJSONPointerIndex (dec_Z (Z.of_nat i))) = Some j → i = j.
Proof.
  assert (dec_Z (Z.of_nat i) = dec_N (N.of_nat i)) as -> by (by destruct i).
  unfold parseJSONPointerIndex. case_match; [done|]. case_match; [done|].
  destruct (parse_int 64 (dec_N (N.of_nat i))) as [z|] eqn:E; [|done]. intros [= <-].
  apply parse_int_digits in E; [|apply dec_N_digits]. rewrite digits_val_dec_N in E. lia.
Qed.

Lemma dec_index_inj i j : dec_Z (Z.of_nat i) = dec_Z (Z.of_nat j) → i = j.
Proof.
  assert (∀ k, dec_Z (Z.of_nat k) = dec_N (N.of_nat k)) as Hk by (by intros []). rewrite !Hk. intros H.
  apply (f_equal (digits_val 0)) in H. rewrite !digits_val_dec_N in H. lia.
Qed.

Lemma at_token_same v token a b : at_token v token a → at_token v token b → a = b.
Proof.
  intros Ha Hb. destruct Ha as [members token a Ha|items i a token Ha Hi]; inversion Hb as [? ? ? Hb'|? j ? ? Hb' Hj]; subst; [congruence|].
  assert (i = j) as ->; [|congruence].
  destruct Hi as [->|Hi], Hj as [Hj|Hj].
  - by apply dec_index_inj.
  - by apply parse_dec_index.
  - rewrite Hj in Hi. by apply parse_dec_index in Hi.
  - congruence.
Qed.

Lemma path_to_same document ts a b : path_to document ts a → path_to document ts b → a = b.
Proof.
  intros Ha. revert b. induction Ha as [|ts v token a Hv IH Ht]; intros b Hb; inversion Hb as [Hn|ts' v' token' b' Hv' Ht' Hn]; try done.
  - by destruct ts'.
  - by destruct ts.
  - apply app_inj_tail in Hn as [-> ->]. rewrite <- (IH _ Hv') in Ht'. by eapply at_token_same.
Qed.

Lemma path_distinct document ts v : distinct_keys document = true → path_to document ts v → distinct_keys v = true.
Proof.
  intros Hd. induction 1 as [|ts v token v' Hv IH Ht]; [done|].
  destruct Ht as [members token v' Ha|items i v' token Hi _]; cbn [distinct_keys] in IH.
  - to_prop. apply assoc_In, list_elem_of_In in Ha. match goal with H : forallb _ _ = true |- _ => rewrite forallb_forall in H; exact (H _ Ha) end.
  - rewrite forallb_forall in IH. apply IH, list_elem_of_In. by eapply list_elem_of_lookup_2.
Qed.

Definition located (document value : json) (location : string) : Prop :=
  ∃ ts, path_to document ts value ∧ location = appendSchemaLocation "#" ts.
Definition node_located (document : json) (n : schema_node) : Prop :=
  located document (sn_value n) (sn_location n) ∧ located document (sn_resource n) (sn_resourceLocation n).

Lemma located_step document v location token v' :
  located document v location → at_token v token v' → located document v' (appendSchemaLocation location [token]).
Proof. intros (ts & Hp & ->) Ht. exists (ts ++ [token]). split; [by eapply path_step|]. by rewrite location_app. Qed.

Lemma follow_located document current canonical tokens v l :
  located document current canonical → follow current canonical tokens = Some (v, l) → located document v l.
Proof.
  revert current canonical. induction tokens as [|t tokens IH]; cbn [follow]; intros current canonical Hl; [by intros [= <- <-]|].
  destruct (decodeJSONPointerToken t) as [token|]; [|done]. cbn [mbind option_bind].
  destruct (select current token) as [next|] eqn:E; [|done]. cbn [mbind option_bind]. apply IH. eapply located_step; [exact Hl|].
  destruct current as [| | | |items|members]; cbn [select] in E; try done; [|by constructor].
  destruct (parseJSONPointerIndex token) as [z|] eqn:Ez; [|done]. econstructor; [exact E|]. right. by rewrite Ez.
Qed.

Lemma child_located document n v tokens :
  node_located document n → located document v (appendSchemaLocation (sn_location n) tokens) → node_located document (child n v tokens).
Proof. by intros [_ Hr]. Qed.

Lemma target_located document n reference v l :
  located document (sn_resource n) (sn_resourceLocation n) →
  resolveLocalSchemaReference (sn_resource n) (sn_resourceLocation n) reference = Some (Some (v, l)) → located document v l.
Proof.
  intros Hr. unfold resolveLocalSchemaReference. destruct (unescape _ _) as [fragment|]; [|done]. cbn [mbind option_bind].
  destruct (fragment =s ""); [by intros [= <- <-]|]. destruct fragment as [|c pointer]; [done|].
  destruct (Ascii.eqb_spec c "/") as [->|Hc].
  - destruct (follow _ _ _) as [[v' l']|] eqn:E; [|done]. cbn [option_map]. intros [= -> ->]. by eapply follow_located.
  - destruct c as [[] [] [] [] [] [] [] []]; first [by intros [=]|by destruct Hc].
Qed.

Lemma successors_located document n m :
  distinct_keys document = true → node_located document n → m ∈ successors n → node_located document m.
Proof.
  intros Hd Hn. unfold successors. destruct (sn_value n) as [| | | | |members] eqn:E; try by intros ?%elem_of_nil.
  pose proof Hn as [Hv Hr]. rewrite E in Hv. unfold member_successors. rewrite !app_nil_l, !elem_of_app.
  assert (∀ f l, m ∈ flat_map f l → ∃ k : string, m ∈ f k) as Hf.
  { intros f l Hm. apply list_elem_of_In, in_flat_map in Hm as (k & _ & Hm). exists k. by apply list_elem_of_In. }
  assert (∀ k v, assoc k members = Some v → located document v (appendSchemaLocation (sn_location n) [k])) as Hstep.
  { intros k v Hk. eapply located_step; [exact Hv|by constructor]. }
  intros [H|[(k & H)%Hf|[(k & H)%Hf|(k & H)%Hf]]].
  - unfold reference_successors in H. destruct (assoc "$ref" members) as [[| | |value| |]|]; try by apply elem_of_nil in H.
    destruct (resolveLocalSchemaReference _ _ value) as [[[target location]|]|] eqn:Et; try by apply elem_of_nil in H.
    apply list_elem_of_singleton in H as ->. split; [|done]. by eapply target_located.
  - unfold array_successors, array_branches, array_children in H.
    destruct (assoc k members) as [[| | | |branches|]|] eqn:Ek; try by apply elem_of_nil in H.
    apply elem_of_lookup_imap in H as (i & v & -> & Hi). apply child_located; [done|].
    change [k; dec_Z (Z.of_nat i)] with ([k] ++ [dec_Z (Z.of_nat i)]). rewrite location_app.
    eapply located_step; [by apply Hstep|]. econstructor; [exact Hi|by left].
  - unfold map_successors, map_values, map_children in H.
    destruct (assoc k members) as [[| | | | |children]|] eqn:Ek; try by apply elem_of_nil in H.
    apply list_elem_of_In, in_map_iff in H as (x & <- & [Hx _]%filter_In). apply child_located; [done|].
    change [k; x.1] with ([k] ++ [x.1]). rewrite location_app. eapply located_step; [by apply Hstep|].
    constructor. destruct (Hstep k _ Ek) as (ts & Hp & _). apply (path_distinct _ _ _ Hd) in Hp. cbn [distinct_keys] in Hp. to_prop.
    apply assoc_NoDup; [done|]. destruct x. by apply list_elem_of_In.
  - unfold single_successors in H. destruct (assoc k members) as [v|] eqn:Ek; [|by apply elem_of_nil in H].
    apply list_elem_of_singleton in H as ->. apply child_located; [done|]. by apply Hstep.
Qed.

Lemma enter_located document n : node_located document n → node_located document (enter n).
Proof.
  intros Hn. unfold enter. destruct (sn_value n) as [| | | | |members] eqn:E; try done.
  destruct (has_key "$id" members); [|done]. destruct Hn as [Hv _]. rewrite <- E. by split.
Qed.

Lemma reached_located document n : distinct_keys document = true → reached document n → node_located document n.
Proof.
  intros Hd. induction 1 as [|n m Hn IH Hm]; apply enter_located.
  - split; exists []; (split; [constructor|done]).
  - by eapply successors_located.
Qed.

Lemma located_same document a b location : located document a location → located document b location → a = b.
Proof. intros (ts & Ha & ->) (ts' & Hb & H%location_inj). subst ts'. by eapply path_to_same. Qed.

Lemma key_names_node document n m :
  distinct_keys document = true → reached document n → reached document m → schemaScanKey n = schemaScanKey m → n = m.
Proof.
  intros Hd [Hv Hr]%reached_located [Hv' Hr']%reached_located H; try done. destruct n, m. cbn in *. injection H as -> ->.
  f_equal; by eapply located_same.
Qed.

(** *** The whole document *)

Lemma sum_subset {A} (f : A → Z) l k : (∀ x, 0 <= f x) → NoDup l → (∀ x, x ∈ l → x ∈ k) → sum_of f l <= sum_of f k.
Proof.
  intros Hf Hl Hk. destruct (submseteq_Permutation l k) as (r & Hr); [by apply NoDup_submseteq|].
  rewrite (sum_perm _ _ _ Hr), sum_app. pose proof (sum_nonneg f r Hf). lia.
Qed.

Lemma start_fine : fine start.
Proof. split; [constructor|]. by intros []. Qed.

Lemma inspect_returns document : ∃ r, inspectSchemaPolicy document = Some r.
Proof.
  unfold inspectSchemaPolicy.
  assert (terminates start (scanSchema (scan_fuel document) (whole document) start)) as Ht.
  { apply (scan_returns (nodes_of document)); [done|done|done|]. cbn [ps_references start whole sn_value]. unfold scan_fuel, MaxSchemaReferences.
    pose proof (nodes_of_pos document). nia. }
  unfold terminates in Ht. destruct (scanSchema _ _ _) as [[s|e]|]; [by eexists|by eexists|done].
Qed.

Lemma inspect_exact document :
  distinct_keys document = true → inspectSchemaPolicy document = Some (Ok tt) ↔ within_policy document.
Proof.
  intros Hd. destruct (inspect_returns document) as [r Hr]. pose proof Hr as Hr'. unfold inspectSchemaPolicy in Hr.
  pose proof (scan_node document (scan_fuel document) (whole document) start (reached_whole document) start_fine) as Hs.
  destruct (scanSchema _ _ _) as [[s|e]|]; [| |done]; injection Hr as <-; rewrite Hr'.
  - split; [intros _|done]. destruct Hs as [_ (new & A & B & C & D & F)]. rewrite app_nil_r in A. rewrite Forall_forall in C.
    assert (∀ n, reached document n → n ∈ new) as Hall.
    { assert (∀ n, reached document n → schemaScanKey n ∈ ps_scanned s → n ∈ new) as Hkey.
      { intros n Hn Hin. rewrite A in Hin. apply list_elem_of_In, in_map_iff in Hin as (m & E & Hm%list_elem_of_In).
        by rewrite <- (key_names_node document m n Hd (proj1 (C _ Hm)) Hn E). }
      intros n Hn. apply Hkey; [done|]. induction Hn as [|n m Hn IH Hm].
      - rewrite Forall_singleton in D. exact D.
      - apply (C n); [by apply Hkey|done]. }
    split; [intros n Hn; by apply (C n), Hall|]. intros b l Hl Hreach. rewrite Forall_forall in Hreach.
    etransitivity; [apply (sum_subset _ l new)|]; [apply weight_nonneg|done|intros n Hn; by apply Hall, Hreach|].
    destruct F as [_ F]. specialize (F b). rewrite B in F. unfold nothing in F. destruct b; cbn [spent start ps_branches ps_patterns ps_references] in F; lia.
  - split; [done|]. intros [Hp Hq]. exfalso. destruct Hs as [Hc|[(n & Hn & Ha)|(new & b & A & B & C)]]; [done|by rewrite (Hp n Hn) in Ha|].
    cbn [ps_scanned start] in B. rewrite app_nil_r in B. apply NoDup_fmap_1 in B. specialize (Hq b new B A). unfold nothing in C.
    destruct b; cbn [spent start ps_branches ps_patterns ps_references] in C; lia.
Qed.

Lemma structured_decoded_distinct raw limits document : Decode raw limits = Some (Ok document) → distinct_keys document = true.
Proof. intros H. by apply Decode_within in H as (_ & _ & _ & _ & _ & _ & H). Qed.

Section compile.
Context `{SchemaCompiler}.

(** The scan of a schema returns on every document, however its references
    loop, and so does the compilation of every text. *)
Theorem schema_scan_terminates document raw :
  (∃ r, inspectSchemaPolicy document = Some r) ∧ ∃ r, CompileSchema raw = Some r.
Proof.
  split; [apply inspect_returns|]. unfold CompileSchema. destruct (Decode_total raw schemaDecodeLimits) as [r ->].
  destruct r as [j|e]; [|by eexists]. destruct (inspect_returns j) as [r Hr]. destruct j; try by eexists.
  all: rewrite Hr; destruct r; by eexists.
Qed.

(** C40: A text is accepted as a schema exactly when it is a bounded document, a
    boolean or an object, that the library compiles and in which every
    subschema the keywords and the local references reach is allowed, and the
    branches, patterns and references of the reached subschemas stay within
    their totals. *)
Theorem schema_accepted_exact raw :
  CompileSchema raw = Some (Ok tt) ↔
  ∃ document, Decode raw schemaDecodeLimits = Some (Ok document)
    ∧ match document with JBool _ | JObj _ => True | _ => False end
    ∧ within_policy document ∧ compiles_schema document = true.
Proof.
  unfold CompileSchema. destruct (Decode raw schemaDecodeLimits) as [[document|e]|] eqn:E.
  - apply structured_decoded_distinct in E.
    assert (within_policy document ∧ compiles_schema document = true ↔
      match inspectSchemaPolicy document with
      | Some (Ok _) => Some (if compiles_schema document then Ok tt else Err ErrorSchemaCompile) | o => o end = Some (Ok tt)) as Hi.
    { rewrite <- (inspect_exact document E). destruct (inspectSchemaPolicy document) as [[[]|e]|]; [|naive_solver..].
      destruct (compiles_schema document); naive_solver. }
    split.
    + intros Ha. exists document. destruct document; try done; by rewrite Hi.
    + intros (d & [= <-] & Hd & Hp). apply Hi in Hp. by destruct document.
  - split; [done|]. by intros (d & ? & _).
  - split; [done|]. by intros (d & ? & _).
Qed.
End compile.
