(* ===== verification/SchemaInstance.v ===== *)
(** * Validating an instance (internal/structuredjson/schema.go)

    The shape test that precedes validation, and [ValidateJSON] on a compiled
    schema.  Which decoded documents satisfy a schema is the library's answer. *)

From S2P Require Import Prelude Json StructuredJson SemanticEqual JsonStrings GoValue SchemaPolicy.

Local Open Scope Z_scope.

(** The message of an error, [Error.Error] of errors.go. *)
Definition kind_message (kind : ErrorKind) : string :=
  match kind with
  | ErrorInvalidLimits => "structured JSON limits are invalid"
  | ErrorTooLarge => "structured JSON exceeds the byte limit"
  | ErrorInvalidUTF8 => "structured JSON is not valid UTF-8"
  | ErrorInvalidJSON => "structured JSON syntax is invalid"
  | ErrorDuplicateKey => "structured JSON contains a duplicate object key"
  | ErrorDepthLimit => "structured JSON exceeds the nesting-depth limit"
  | ErrorNodeLimit => "structured JSON exceeds the node limit"
  | ErrorNumberExponentLimit => "structured JSON number exceeds the exponent limit"
  | ErrorInvalidPath => "structured JSON path syntax is invalid"
  | ErrorPathLimit => "structured JSON path exceeds a safety limit"
  | ErrorUnsupportedValue => "value is not in the supported JSON data model"
  | ErrorSchemaPolicy => "JSON Schema uses a feature outside the bounded profile"
  | ErrorSchemaCompile => "JSON Schema could not be compiled"
  | ErrorSchemaEvaluation => "JSON Schema evaluation could not be completed"
  | ErrorSchemaNotSatisfied => "JSON instance does not satisfy the schema"
  end.

Section visit.
Variables (maximumDepth maximumNodes : Z).

Definition visit_all {A} (f : A → Z → result ErrorKind Z) : list A → Z → result ErrorKind Z :=
  fix go l nodes := match l with [] => Ok nodes | x :: l' => let! nodes := f x nodes in go l' nodes end.

(** The closure [visit] of [validateValueShape] on a decoded value; the counter is threaded. *)
Fixpoint visit (current : json) (depth nodes : Z) {struct current} : result ErrorKind Z :=
  let nodes := nodes + 1 in
  fail_if maximumNodes <? nodes with ErrorNodeLimit ;;
  match current with
  | JNull | JBool _ => Ok nodes
  | JStr s => fail_if negb (utf8_valid s) with ErrorUnsupportedValue ;; Ok nodes
  | JNum lexeme =>
      let '(withinLimit, valid) := jsonNumberWithinExponentLimit lexeme in
      fail_if negb valid with ErrorUnsupportedValue ;;
      fail_if negb withinLimit with ErrorNumberExponentLimit ;;
      Ok nodes
  | JArr items =>
      fail_if maximumDepth <? depth + 1 with ErrorDepthLimit ;;
      visit_all (λ item, visit item (depth + 1)) items nodes
  | JObj members =>
      fail_if maximumDepth <? depth + 1 with ErrorDepthLimit ;;
      visit_all (λ m nodes, fail_if negb (utf8_valid m.1) with ErrorUnsupportedValue ;; visit m.2 (depth + 1) nodes) members nodes
  end.
End visit.

Definition validateValueShape (value : json) (maximumDepth maximumNodes : Z) : result ErrorKind unit :=
  let! _ := visit maximumDepth maximumNodes value 0 0 in Ok tt.

(** The library's [Schema.Validate] behind [recover]. *)
Inductive library_verdict := Satisfied | NotSatisfied | Panics.
Definition validateCompiledSchema (satisfies : json → library_verdict) (instance : json) : result ErrorKind unit :=
  match satisfies instance with
  | Satisfied => Ok tt
  | NotSatisfied => Err ErrorSchemaNotSatisfied
  | Panics => Err ErrorSchemaEvaluation
  end.

(** A schema is [None] when its pointer is [nil]. *)
Definition Schema_Validate (schema : option (json → library_verdict)) (instance : json) : result ErrorKind unit :=
  match schema with
  | None => Err ErrorSchemaCompile
  | Some satisfies =>
      let limits := DefaultInstanceDecodeLimits in
      let! _ := validateValueShape instance (MaxDepth limits) (MaxNodes limits) in
      validateCompiledSchema satisfies instance
  end.

(** [None] is a decoder that does not return; [Decode_total] excludes it. *)
Definition ValidateJSON (schema : option (json → library_verdict)) (raw : string) (limits : DecodeLimits) : option (result ErrorKind unit) :=
  match Decode raw limits with
  | None => None
  | Some (Err e) => Some (Err e)
  | Some (Ok instance) => Some (Schema_Validate schema instance)
  end.

(** ** What is decoded within the limits has the shape *)

Section shape.
Variables (maximumDepth maximumNodes : Z).

Lemma visit_all_counts {A} (f : A → Z → result ErrorKind Z) (size : A → Z) l nodes :
  (∀ x, x ∈ l → 0 <= size x) →
  (∀ x nodes, x ∈ l → nodes + size x <= maximumNodes → f x nodes = Ok (nodes + size x)) →
  nodes + foldr (λ x n, size x + n) 0 l <= maximumNodes →
  visit_all f l nodes = Ok (nodes + foldr (λ x n, size x + n) 0 l).
Proof.
  revert nodes. induction l as [|x l IH]; intros nodes Hs Hf Hn; cbn [visit_all foldr] in *; [by rewrite Z.add_0_r|].
  assert (0 <= foldr (λ x n, size x + n) 0 l) as Hpos.
  { clear -Hs. assert (∀ y, y ∈ l → 0 <= size y) as Hl by (intros y Hy; by apply Hs, list_elem_of_further).
    induction l as [|y l IH]; cbn; [done|]. pose proof (Hl y (list_elem_of_here _ _)).
    assert (0 <= foldr (λ x n, size x + n) 0 l); [apply IH|lia].
    - intros z Hz. apply Hs. apply elem_of_cons in Hz as [->|Hz]; [apply list_elem_of_here|by do 2 apply list_elem_of_further].
    - intros z Hz. by apply Hl, list_elem_of_further. }
  rewrite Hf by (apply list_elem_of_here || lia). cbn [bind_result]. rewrite IH.
  - f_equal. lia.
  - intros y Hy. by apply Hs, list_elem_of_further.
  - intros y n Hy. by apply Hf, list_elem_of_further.
  - lia.
Qed.

Lemma visit_shape j : wf j = true → numbers_ok j = true →
  ∀ depth nodes, depth + depth_of j <= maximumDepth → nodes + nodes_of j <= maximumNodes →
  visit maximumDepth maximumNodes j depth nodes = Ok (nodes + nodes_of j).
Proof.
  induction j as [|b|lexeme|s|l IH|l IH] using json_nested_ind; intros Hw Hn depth nodes Hd Hc; cbn [visit nodes_of] in *;
    rewrite (proj2 (Z.ltb_ge maximumNodes (nodes + 1))) by
      (first [lia|assert (0 <= foldr (λ x n, nodes_of x + n) 0 l) by (clear; induction l as [|x l IHl]; cbn; [lia|pose proof (nodes_of_pos x); lia]); lia
             |assert (0 <= foldr (λ p n, nodes_of p.2 + n) 0 l) by (clear; induction l as [|x l IHl]; cbn; [lia|pose proof (nodes_of_pos x.2); lia]); lia]).
  - done.
  - done.
  - cbn [numbers_ok] in Hn. destruct (jsonNumberWithinExponentLimit lexeme) as [within valid]. to_prop. by subst.
  - cbn [wf] in Hw. by rewrite Hw.
  - cbn [depth_of] in Hd. cbn [wf numbers_ok] in Hw, Hn. rewrite forallb_forall in Hw, Hn. rewrite Forall_forall in IH.
    assert (∀ x, x ∈ l → depth_of x <= foldr (λ x n, Z.max (depth_of x) n) 0 l) as Hmax.
    { clear. induction l as [|x l IH]; intros y Hy; [by apply elem_of_nil in Hy|]. cbn. apply elem_of_cons in Hy as [->|Hy]; [lia|]. specialize (IH y Hy). lia. }
    assert (0 <= foldr (λ x n, Z.max (depth_of x) n) 0 l) by (clear; induction l; cbn; lia).
    rewrite (proj2 (Z.ltb_ge maximumDepth (depth + 1))) by lia.
    rewrite (visit_all_counts _ nodes_of); [f_equal; lia| | |lia].
    + intros x _. pose proof (nodes_of_pos x). lia.
    + intros x n Hx Hx'. apply IH; [done|by apply Hw, list_elem_of_In|by apply Hn, list_elem_of_In| |done]. specialize (Hmax x Hx). lia.
  - cbn [depth_of] in Hd. cbn [wf numbers_ok] in Hw, Hn. apply andb_prop in Hw as [_ Hw].
    rewrite forallb_forall in Hw, Hn. rewrite Forall_forall in IH.
    assert (∀ x, x ∈ l → depth_of x.2 <= foldr (λ x n, Z.max (depth_of x.2) n) 0 l) as Hmax.
    { clear. induction l as [|x l IH]; intros y Hy; [by apply elem_of_nil in Hy|]. cbn. apply elem_of_cons in Hy as [->|Hy]; [lia|]. specialize (IH y Hy). lia. }
    assert (0 <= foldr (λ x n, Z.max (depth_of x.2) n) 0 l) by (clear; induction l; cbn; lia).
    rewrite (proj2 (Z.ltb_ge maximumDepth (depth + 1))) by lia.
    rewrite (visit_all_counts _ (λ m, nodes_of m.2)); [f_equal; lia| | |lia].
    + intros x _. pose proof (nodes_of_pos x.2). lia.
    + intros x n Hx Hx'. pose proof (Hw x (proj1 (list_elem_of_In _ _) Hx)) as Hwx. to_prop. match goal with H : utf8_valid _ = true |- _ => rewrite H end.
      cbn [negb]. apply IH; [done|done|by apply Hn, list_elem_of_In| |done]. specialize (Hmax x Hx). lia.
Qed.
End shape.

(** A text is valid against a compiled schema exactly when it decodes within
    the limits it is read under and the library is satisfied with the decoded
    document: the shape test never refuses what was decoded within the default
    limits. *)
Theorem instance_validation_exact satisfies raw limits :
  MaxDepth limits <= MaxDepth DefaultInstanceDecodeLimits → MaxNodes limits <= MaxNodes DefaultInstanceDecodeLimits →
  ValidateJSON (Some satisfies) raw limits
    = match Decode raw limits with
      | None => None
      | Some (Err e) => Some (Err e)
      | Some (Ok instance) => Some (validateCompiledSchema satisfies instance)
      end.
Proof.
  intros Hdepth Hnodes. unfold ValidateJSON. destruct (Decode raw limits) as [[instance|e]|] eqn:E; [|done..].
  pose proof (Decode_wf _ _ _ E) as Hw. apply Decode_within in E as (_ & _ & _ & Hd & Hn & Hnum & _).
  cbn [Schema_Validate]. unfold validateValueShape. rewrite (visit_shape _ _ _ Hw Hnum); [done|lia|lia].
Qed.

Definition only_true (j : json) : library_verdict := match j with JArr [JBool true] => Satisfied | _ => NotSatisfied end.

Lemma instance_validation_exact_witness : ValidateJSON (Some only_true) "[true]" DefaultInstanceDecodeLimits = Some (Ok tt).
Proof.
  rewrite (instance_validation_exact only_true "[true]" DefaultInstanceDecodeLimits); [vm_compute; reflexivity|reflexivity|reflexivity].
Defined.
