(* ===== verification/RuntimePolicy.v ===== *)
(** * The approved runtime images (internal/runtimepolicy/policy.go) *)

From S2P Require Import Prelude Json GoValue Domain GoStrings.

Definition PolicyVersion := "baseline-v1-runtime-images-1".
Definition NodeReference :=
  "docker.io/library/node:22.23.1-bookworm-slim@sha256:6c74791e557ce11fc957704f6d4fe134a7bc8d6f5ca4403205b2966bd488f6b3".
Definition NodeDigest := "sha256:6c74791e557ce11fc957704f6d4fe134a7bc8d6f5ca4403205b2966bd488f6b3".
Definition NodeVersion := "22.23.1".
Definition PythonReference :=
  "docker.io/library/python:3.12.13-slim@sha256:57cd7c3a7a273101a6485ba99423ee568157882804b1124b4dd04266317710de".
Definition PythonDigest := "sha256:57cd7c3a7a273101a6485ba99423ee568157882804b1124b4dd04266317710de".
Definition PythonVersion := "3.12.13".
Definition approvedPlatform := "linux/amd64".

(** [approvedRuntime], and [BindingEntry] with the same fields. *)
Record approvedRuntime := { ap_adapter : string; ap_version : string; ap_reference : string; ap_digest : string; ap_platform : string }.
Definition approvedRuntimes : list approvedRuntime :=
  [{| ap_adapter := "node"; ap_version := NodeVersion; ap_reference := NodeReference; ap_digest := NodeDigest; ap_platform := approvedPlatform |};
   {| ap_adapter := "python"; ap_version := PythonVersion; ap_reference := PythonReference; ap_digest := PythonDigest; ap_platform := approvedPlatform |}].

Definition BindingEntry_json (a : approvedRuntime) : json :=
  JObj [("adapter", JStr (ap_adapter a)); ("version", JStr (ap_version a)); ("reference", JStr (ap_reference a));
        ("digest", JStr (ap_digest a)); ("platform", JStr (ap_platform a))].
(** The document of [Binding()]. *)
Definition Binding : json := JObj [("version", JStr PolicyVersion); ("images", JArr (List.map BindingEntry_json approvedRuntimes))].

(** Letters beyond ASCII that lower-case to ASCII are k and i, which no adapter has. *)
Definition Validate (adapter version reference digest platform : string) : result Error unit :=
  let normalizedAdapter := to_lower (trim_space adapter) in
  if existsb (λ approved, (normalizedAdapter =s ap_adapter approved) && (version =s ap_version approved)
       && (reference =s ap_reference approved) && (digest =s ap_digest approved) && (platform =s ap_platform approved)) approvedRuntimes
  then Ok tt
  else Err (with_details
    (NewError CodeRunnerFeatureUnavailable SeverityCritical
       "Runtime image tuple is not approved by the built-in baseline-v1 execution policy.")
    [("feature", VStr "operator-approved-runtime-image"); ("runtimeAdapter", VStr normalizedAdapter); ("runtimeVersion", VStr version);
     ("imageReference", VStr reference); ("imageDigest", VStr digest); ("platform", VStr platform); ("approvedPlatform", VStr approvedPlatform)]).

Lemma approved_tuple adapter version reference digest platform :
  Validate adapter version reference digest platform = Ok tt →
  ∃ a, a ∈ approvedRuntimes ∧ to_lower (trim_space adapter) = ap_adapter a
    ∧ (version, reference, digest, platform) = (ap_version a, ap_reference a, ap_digest a, ap_platform a).
Proof.
  unfold Validate. destruct (existsb _ _) eqn:E; [|done]. intros _. apply existsb_exists in E as (a & Ha & H). to_prop. subst.
  exists a. split_and!; [by apply list_elem_of_In|done|done].
Qed.
