(* ===== verification/SchemaFeatures.v ===== *)
(** * Features the runner does not have (internal/planner/schema_features.go)

    Declarations a manifest may make and a plan refuses, first found first. *)

From S2P Require Import Prelude Json SemanticEqual GoValue Domain GoStrings PlanTypes Manifest ManifestValidate.

Local Open Scope Z_scope.

(** The closure [unavailable]. *)
Definition unavailable (scenarioName feature field : string) : Error :=
  with_details
    (NewError CodeRunnerFeatureUnavailable SeverityHigh
       ("Manifest feature " +:+ String dquote (feature +:+ String dquote " is recognized but unavailable in the v0.1 local runner.")))
    [("scenario", VStr scenarioName); ("feature", VStr feature); ("field", VStr field)].

Definition pathWithinOutputs (value : string) : bool := (value =s "/outputs") || has_prefix "/outputs/" value.

Record phaseFeatures := {
  pf_name : string; pf_steps : list PhaseStep; pf_observerRequirements : slice ObserverRequirement; pf_outputs : slice string }.

(** The closure [appendCommandPhase]. *)
Definition command_features (name : string) (phase : option CommandPhase) : list phaseFeatures :=
  match phase with
  | None => []
  | Some phase =>
      [{| pf_name := name; pf_steps := cp_Steps phase; pf_observerRequirements := cp_ObserverRequirements phase; pf_outputs := cp_Outputs phase |}]
  end.
Definition run_features (phases : PhaseSet) : list phaseFeatures :=
  match ph_Run phases with
  | None => []
  | Some phase =>
      [{| pf_name := PhaseRun; pf_steps := rn_Steps phase; pf_observerRequirements := rn_ObserverRequirements phase; pf_outputs := rn_Outputs phase |}]
  end.
Definition exercise_features (phases : PhaseSet) : list phaseFeatures :=
  match ph_Exercise phases with
  | None => []
  | Some phase =>
      [{| pf_name := PhaseExercise; pf_steps := []; pf_observerRequirements := ex_ObserverRequirements phase; pf_outputs := ex_Outputs phase |}]
  end.
Definition phase_features (phases : PhaseSet) : list phaseFeatures :=
  command_features PhasePrepare (ph_Prepare phases) ++ command_features PhaseSetup (ph_Setup phases)
  ++ command_features PhaseBuild (ph_Build phases) ++ run_features phases ++ exercise_features phases
  ++ command_features PhaseCleanup (ph_Cleanup phases).

Definition httpServiceID (phases : PhaseSet) : string :=
  match ph_Exercise phases, ph_Run phases with
  | Some exercise, Some run =>
      if dv_Type (ex_Driver exercise) =s "http" then match rn_Service run with Some service => sv_ID service | None => "" end else ""
  | _, _ => ""
  end.

Section features.
Variables (scenarioName : string) (serviceID : string).
Abbreviation refuse := (unavailable scenarioName).

Definition service_available (phases : PhaseSet) : result Error unit :=
  match ph_Run phases with
  | Some run =>
      match rn_Service run with
      | Some service =>
          let base := "spec.scenarios." +:+ scenarioName +:+ ".phases.run.service" in
          fail_if serviceID =s "" with refuse "background-service" base ;;
          fail_if sv_WorkingDirectory service !=s "" with refuse "service-working-directory" (base +:+ ".workingDirectory") ;;
          fail_if is_some (sv_Environment service) with refuse "service-environment" (base +:+ ".environment") ;;
          Ok tt
      | None => Ok tt
      end
  | None => Ok tt
  end.

Definition run_available (stepBase : string) (run : RunAction) : result Error unit :=
  fail_if is_some (ra_Shell run) with refuse "shell-command" (stepBase +:+ ".run.shell") ;;
  fail_if ra_WorkingDirectory run !=s "" with refuse "command-working-directory" (stepBase +:+ ".run.workingDirectory") ;;
  fail_if is_some (ra_Environment run) with refuse "command-environment" (stepBase +:+ ".run.environment") ;;
  fail_if ra_Timeout run !=s "" with refuse "command-timeout" (stepBase +:+ ".run.timeout") ;;
  fail_if is_some (ra_AllowedExitCodes run) with refuse "allowed-exit-codes" (stepBase +:+ ".run.allowedExitCodes") ;;
  fail_if ra_OutputMode run !=s "" with refuse "command-output-mode" (stepBase +:+ ".run.outputMode") ;;
  Ok tt.

Definition step_available (phase base : string) (index : nat) (step : PhaseStep) : result Error unit :=
  let stepBase := base +:+ ".steps" +:+ index_text index in
  match st_Signal step with
  | Some signal =>
      if (serviceID !=s "") && (phase =s PhaseCleanup) && (sa_Target signal =s serviceID) then Ok tt
      else Err (refuse "signal-step" (stepBase +:+ ".signal"))
  | None => match st_Run step with Some run => run_available stepBase run | None => Ok tt end
  end.

Definition phase_available (_ : nat) (phase : phaseFeatures) : result Error unit :=
  let base := "spec.scenarios." +:+ scenarioName +:+ ".phases." +:+ pf_name phase in
  fail_if is_some (pf_observerRequirements phase) with refuse "phase-observer-requirements" (base +:+ ".observerRequirements") ;;
  fail_if is_some (pf_outputs phase) with refuse "phase-outputs" (base +:+ ".outputs") ;;
  check_each (step_available (pf_name phase) base) (pf_steps phase).

Definition is_text (o : option string) (text : string) : bool := match o with Some t => t =s text | None => false end.
Definition assertion_available (index : nat) (assertion : DriverAssertion) : result Error unit :=
  let field := "spec.scenarios." +:+ scenarioName +:+ ".phases.exercise.driver.assertions" +:+ index_text index in
  fail_if is_some (da_StderrRegex assertion) with refuse "stderr-regex-assertion" (field +:+ ".stderrRegex") ;;
  fail_if is_text (da_StdoutContains assertion) "" with refuse "empty-string-assertion" (field +:+ ".stdoutContains") ;;
  fail_if is_text (da_StderrContains assertion) "" with refuse "empty-string-assertion" (field +:+ ".stderrContains") ;;
  fail_if is_text (da_StdoutRegex assertion) "" with refuse "empty-regex-assertion" (field +:+ ".stdoutRegex") ;;
  Ok tt.
Definition driver_available (exercise : option ExercisePhase) : result Error unit :=
  match exercise with
  | None => Ok tt
  | Some exercise =>
      let driver := ex_Driver exercise in
      fail_if dv_Timeout driver !=s ""
        with refuse "journey-driver-timeout" ("spec.scenarios." +:+ scenarioName +:+ ".phases.exercise.driver.timeout") ;;
      check_each assertion_available (dv_Assertions driver)
  end.

Definition destination_available (base : string) (index : nat) (destination : NetworkDestination) : result Error unit :=
  fail_if nd_Protocol destination !=s "" with refuse "network-protocol" (base +:+ ".network.allow" +:+ index_text index +:+ ".protocol") ;;
  Ok tt.
Definition write_available (base : string) (index : nat) (writablePath : string) : result Error unit :=
  fail_if negb (pathWithinOutputs writablePath)
    with refuse "filesystem-write-outside-outputs" (base +:+ ".filesystem.write" +:+ index_text index) ;;
  Ok tt.
Definition listen_available (phase base : string) (index : nat) (binding : PortBinding) : result Error unit :=
  if pb_Protocol binding =s "" then Ok tt
  else if (serviceID !=s "") && (phase =s PhaseRun) && (pb_Protocol binding =s "tcp") then Ok tt
  else Err (refuse "listen-protocol" (base +:+ ".ports.listen" +:+ index_text index +:+ ".protocol")).

Definition filesystem_available (base : string) (c : FilesystemCapability) : result Error unit :=
  fail_if is_some (fc_Create c) with refuse "filesystem-create-capability" (base +:+ ".filesystem.create") ;;
  fail_if is_some (fc_Delete c) with refuse "filesystem-delete-capability" (base +:+ ".filesystem.delete") ;;
  fail_if is_some (fc_Rename c) with refuse "filesystem-rename-capability" (base +:+ ".filesystem.rename") ;;
  fail_if is_some (fc_Chmod c) with refuse "filesystem-chmod-capability" (base +:+ ".filesystem.chmod") ;;
  fail_if is_some (fc_Symlink c) with refuse "filesystem-symlink-capability" (base +:+ ".filesystem.symlink") ;;
  Ok tt.
Definition process_available (base : string) (c : CapabilitySet) : result Error unit :=
  fail_if is_some (pr_ChildProcesses (cs_Process c)) with refuse "child-process-capability" (base +:+ ".process.childProcesses") ;;
  fail_if is_some (pr_Shell (cs_Process c)) with refuse "process-shell-capability" (base +:+ ".process.shell") ;;
  fail_if is_some (pr_BackgroundProcesses (cs_Process c)) with refuse "background-process-capability" (base +:+ ".process.backgroundProcesses") ;;
  fail_if is_some (cs_Environment c) with refuse "environment-capability" (base +:+ ".environment") ;;
  fail_if is_some (cs_Secrets c) with refuse "secret-capability" (base +:+ ".secrets") ;;
  fail_if is_some (cs_Resources c) with refuse "phase-resource-limits" (base +:+ ".resources") ;;
  fail_if is_some (cs_Devices c) with refuse "device-capability" (base +:+ ".devices") ;;
  fail_if is_some (cs_HostIntegration c) with refuse "host-integration-capability" (base +:+ ".hostIntegration") ;;
  Ok tt.

Definition capability_available (capabilities : list (string * CapabilitySet)) (_ : nat) (phase : string) : result Error unit :=
  match assoc phase capabilities with
  | None => Ok tt
  | Some capability =>
      let base := "spec.scenarios." +:+ scenarioName +:+ ".capabilities." +:+ phase in
      fail_if negb (is_empty (elems (nc_Allow (cs_Network capability)))) with refuse "network-allowlist" (base +:+ ".network.allow") ;;
      let! _ := check_each (destination_available base) (elems (nc_Allow (cs_Network capability))) in
      let! _ := check_each (write_available base) (elems (fc_Write (cs_Filesystem capability))) in
      let! _ := filesystem_available base (cs_Filesystem capability) in
      let! _ := check_each (listen_available phase base) (elems (pc_Listen (cs_Ports capability))) in
      process_available base capability
  end.

Definition verification_available (v : VerificationSpec) : result Error unit :=
  let base := "spec.scenarios." +:+ scenarioName +:+ ".verification" in
  fail_if vs_SuccessThreshold v <? vs_Repeats v with refuse "threshold-success-policy" (base +:+ ".successThreshold") ;;
  fail_if vs_StabilityRule v !=s "" with refuse "stability-rule" (base +:+ ".stabilityRule") ;;
  fail_if is_some (vs_ResourceVariancePercent v) with refuse "resource-variance" (base +:+ ".resourceVariancePercent") ;;
  fail_if match cl_AllowedResidue (vs_Cleanup v) with [] => false | [residue] => residue !=s "/outputs/**" | _ => true end
    with refuse "custom-cleanup-residue" (base +:+ ".cleanup.allowedResidue") ;;
  Ok tt.
End features.

Definition environment_available (scenarioName environmentName : string) (environment : EnvironmentSpec) : result Error unit :=
  let base := "spec.environments." +:+ environmentName in
  fail_if is_some (en_RequiredServices environment)
    with unavailable scenarioName "environment-required-services" (base +:+ ".requiredServices") ;;
  fail_if is_some (en_RequiredRunnerFeatures environment)
    with unavailable scenarioName "environment-required-runner-features" (base +:+ ".requiredRunnerFeatures") ;;
  fail_if rs_Time (en_Resources environment) !=s "" with unavailable scenarioName "environment-time-limit" (base +:+ ".resources.time") ;;
  fail_if is_some (rs_LogBytes (en_Resources environment)) with unavailable scenarioName "environment-log-byte-limit" (base +:+ ".resources.logBytes") ;;
  Ok tt.

Definition validateSchemaExecutionFeatures (scenarioName : string) (environment : EnvironmentSpec) (scenario : ScenarioSpec) : result Error unit :=
  let serviceID := httpServiceID (sn_Phases scenario) in
  let! _ := environment_available scenarioName (sn_Environment scenario) environment in
  let! _ := service_available scenarioName serviceID (sn_Phases scenario) in
  let! _ := check_each (phase_available scenarioName serviceID) (phase_features (sn_Phases scenario)) in
  let! _ := driver_available scenarioName (ph_Exercise (sn_Phases scenario)) in
  let! _ := check_each (capability_available scenarioName serviceID (sn_Capabilities scenario)) OrderedPhases in
  verification_available scenarioName (sn_Verification scenario).
