(* ===== verification/SchemaSource.v ===== *)
(** * Reading a schema from the source snapshot (internal/planner/structured_json.go)

    The host is an argument: at every call it may answer anything, so the
    theorems hold whatever happens to the files between two calls.  A task
    counts its calls; paths are those of the unix build, where
    [pathsecurity.Resolve] is [filepath.EvalSymlinks]. *)

From S2P Require Import Prelude Json Sha256 StructuredJson CanonicalJson GoValue Domain GoPath GoStrings PlanTypes ManifestValidate SchemaPolicy.

Local Open Scope Z_scope.

Definition AlphaJSONSchemaMaxBytes := 256 * 2 ^ 10.
Definition AlphaJSONSchemaDialect := "https://json-schema.org/draft/2020-12/schema".
Definition AlphaJSONValidatorVersion := "github.com/santhosh-tekuri/jsonschema/v6@v6.0.2".
Definition AlphaJSONSchemaDigestPrefix := "sha256:".

(** ** The host *)

Inductive file_kind := KindDirectory | KindRegular | KindSymlink | KindOther.
(** [fi_id] is what [os.SameFile] compares. *)
Record FileInfo := { fi_kind : file_kind; fi_size : Z; fi_id : Z }.
#[export] Instance file_kind_eq_dec : EqDecision file_kind.
Proof. solve_decision. Defined.

(** The answer to the call of that number; [None] is an error.  [host_read] is
    what [io.ReadAll] reads when nothing limits it. *)
Class Host := {
  host_abs : nat → string → option string;
  host_lstat : nat → string → option FileInfo;
  host_resolve : nat → string → option string;
  host_open : nat → string → option Z;
  host_stat : nat → Z → option FileInfo;
  host_read : nat → Z → option string }.

(** ** Tasks: computations that call the host and may fail *)

Definition task (A : Type) : Type := nat → result Error A * nat.
Definition finish {A} (a : A) : task A := λ t, (Ok a, t).
Definition stop {A} (e : Error) : task A := λ t, (Err e, t).
Definition call {A} (f : nat → option A) (e : Error) : task A := λ t, (of_option e (f t), S t).
Definition bind_task {A B} (m : task A) (k : A → task B) : task B :=
  λ t, match m t with (Ok a, t) => k a t | (Err e, t) => (Err e, t) end.
Definition lift {A} (r : result Error A) : task A := λ t, (r, t).
Notation "'task!' x ':=' m 'in' k" := (bind_task m (λ x, k)) (at level 10, x pattern, m at level 100, k at level 200) : go_scope.
Notation "'stop_if' b 'with' e ';;' k" := (if b then stop e else k) (at level 10, b at level 99, e at level 99, k at level 200) : go_scope.

Lemma bind_task_ok {A B} (m : task A) (k : A → task B) t b t' :
  bind_task m k t = (Ok b, t') → ∃ a t1, m t = (Ok a, t1) ∧ k a t1 = (Ok b, t').
Proof. unfold bind_task. destruct (m t) as [[a|e] t1]; [|done]. by exists a, t1. Qed.
Lemma call_ok {A} (f : nat → option A) e t a t' : call f e t = (Ok a, t') → f t = Some a ∧ t' = S t.
Proof. unfold call. destruct (f t); [|done]. by intros [= -> ->]. Qed.

Lemma finish_ok {A} (a b : A) t t' : finish a t = (Ok b, t') → b = a ∧ t' = t.
Proof. by intros [= -> ->]. Qed.

(** ** Paths of the host *)

Definition Join (a b : string) : string := Clean (a +:+ String "/" b).

Fixpoint strip_common (base target : list string) : list string * list string :=
  match base, target with
  | b :: base', c :: target' => if b =s c then strip_common base' target' else (base, target)
  | _, _ => (base, target)
  end.
(** [filepath.Rel] on unix; [None] is an error. *)
Definition Rel (base target : string) : option string :=
  if Clean base =s Clean target then Some "."
  else if negb (Bool.eqb (is_rooted base) (is_rooted target)) then None
  else
    match strip_common (clean_elements base) (clean_elements target) with
    | (".." :: _, _) => None
    | (up, rest) => Some (join_with "/" (List.map (λ _, "..") up ++ rest))
    end.
Definition escapes (relative : option string) : bool :=
  match relative with
  | None => true
  | Some relative => (relative =s "..") || has_prefix "../" relative || is_rooted relative
  end.

(** ** Names and digests *)

Definition portableSchemaWindowsDeviceName (segment : string) : bool :=
  let base := string_map upper_byte (before_dot segment) in
  if one_of base ["CON"; "PRN"; "AUX"; "NUL"; "CONIN$"; "CONOUT$"; "CLOCK$"] then true
  else if negb (slen base =? 4)%nat then false
  else (has_prefix "COM" base || has_prefix "LPT" base) && byte_is (in_range 49 57) (last_byte base).

Definition schema_segment (segment : string) : bool :=
  negb ((segment =s "") || (255 <? zlen segment) || (segment =s ".") || (segment =s "..")
        || has_suffix "." segment || has_suffix " " segment || portableSchemaWindowsDeviceName segment)
  && string_forallb portable_path_byte segment.
Definition validSchemaRepositoryPath (value : string) : bool :=
  if (value =s "") || (4096 <? zlen value) || string_contains_byte backslash value || has_prefix "/" value
     || (Clean value !=s value) || (value =s ".") then false
  else forallb schema_segment (split_on "/" value).

Definition validSchemaDigest (value : string) : bool :=
  (slen value =? slen AlphaJSONSchemaDigestPrefix + 64)%nat && has_prefix AlphaJSONSchemaDigestPrefix value
  && string_forallb is_lower_hex (drop_string (slen AlphaJSONSchemaDigestPrefix) value).

Definition schemaSourceError (code message portablePath : string) : Error :=
  with_details (NewError code SeverityHigh message) [("path", VStr portablePath)].
Definition add_details (e : Error) (more : list (string * any)) : Error := with_details e (er_Details e ++ more).

Fixpoint find_entry (inventory : list FileEntry) (portablePath : string) (found : option FileEntry) : result Error (option FileEntry) :=
  match inventory with
  | [] => Ok found
  | entry :: rest =>
      if fe_Path entry !=s portablePath then find_entry rest portablePath found
      else
        match found with
        | Some _ => Err (schemaSourceError CodeSourceDigestMismatch "JSON Schema appears more than once in the immutable source inventory." portablePath)
        | None => find_entry rest portablePath (Some entry)
        end
  end.
Definition schemaInventoryEntry (inventory : list FileEntry) (portablePath : string) : result Error FileEntry :=
  let! found := find_entry inventory portablePath None in
  of_option (schemaSourceError CodeSourceNotFound "JSON Schema is absent from the immutable source inventory." portablePath) found.

Definition verifySchemaSnapshotBytes (raw : string) (entry : FileEntry) (portablePath : string) : result Error unit :=
  fail_if negb (zlen raw =? fe_Size entry)
    with schemaSourceError CodeSourceDigestMismatch "JSON Schema source size does not match the immutable inventory." portablePath ;;
  let actual := digest_text raw in
  fail_if actual !=s fe_Digest entry
    with add_details (schemaSourceError CodeSourceDigestMismatch "JSON Schema source digest does not match the immutable inventory." portablePath)
           [("expected", VStr (fe_Digest entry)); ("actual", VStr actual)] ;;
  Ok tt.

(** ** Reading *)

Section read.
Context `{Host}.
Variable portablePath : string.
Abbreviation source_error code message := (schemaSourceError code message portablePath).

Fixpoint validateSchemaPathComponents (current : string) (segments : list string) : task unit :=
  match segments with
  | [] => finish tt
  | segment :: rest =>
      let current := Join current segment in
      task! info := call (λ t, host_lstat t current) (source_error CodeSourceNotFound "JSON Schema source path does not exist.") in
      stop_if bool_decide (fi_kind info = KindSymlink)
        with source_error CodeSourceSymlinkEscape "JSON Schema source path must not contain symbolic links." ;;
      stop_if negb (is_empty rest) && negb (bool_decide (fi_kind info = KindDirectory))
        with source_error CodeSourcePathTraversal "JSON Schema source parent is not a directory." ;;
      stop_if is_empty rest && negb (bool_decide (fi_kind info = KindRegular))
        with source_error CodeSourcePathTraversal "JSON Schema source is not a regular file." ;;
      validateSchemaPathComponents current rest
  end.

(** The part of [readSnapshotSchema] from the first [Lstat] of the candidate on. *)
Definition read_candidate (candidate : string) (maximumBytes : Z) : task string :=
  task! beforeInfo := call (λ t, host_lstat t candidate) (source_error CodeSourceNotFound "JSON Schema source file could not be opened.") in
  stop_if bool_decide (fi_kind beforeInfo = KindSymlink)
    with source_error CodeSourceSymlinkEscape "JSON Schema source file must not be a symbolic link." ;;
  stop_if negb (bool_decide (fi_kind beforeInfo = KindRegular))
    with source_error CodeSourcePathTraversal "JSON Schema source is not a regular file." ;;
  task! file := call (λ t, host_open t candidate) (source_error CodeSourceNotFound "JSON Schema source file could not be opened.") in
  let changed := source_error CodeSourceDigestMismatch "JSON Schema source changed before it could be read." in
  task! openInfo := call (λ t, host_stat t file) changed in
  stop_if negb (bool_decide (fi_kind openInfo = KindRegular)) || negb (fi_id beforeInfo =? fi_id openInfo) with changed ;;
  task! content := call (λ t, host_read t file) (source_error CodeSourceDigestMismatch "JSON Schema source could not be read consistently.") in
  let raw := take_string (Z.to_nat (maximumBytes + 1)) content in
  stop_if maximumBytes <? zlen raw with source_error CodeSourceTooLarge "JSON Schema exceeds the alpha byte limit." ;;
  let changed := source_error CodeSourceDigestMismatch "JSON Schema source changed while it was being read." in
  task! afterInfo := call (λ t, host_stat t file) changed in
  stop_if negb (fi_id openInfo =? fi_id afterInfo) || negb (fi_size openInfo =? fi_size afterInfo) with changed ;;
  finish raw.

Definition readSnapshotSchema (root : string) (maximumBytes : Z) : task string :=
  stop_if root =s "" with source_error CodeSourceNotFound "JSON Schema snapshot root is unavailable." ;;
  task! absoluteRoot := call (λ t, host_abs t root) (source_error CodeSourceNotFound "JSON Schema snapshot root could not be resolved.") in
  task! rootInfo := call (λ t, host_lstat t absoluteRoot) (source_error CodeSourceNotFound "JSON Schema snapshot root could not be opened.") in
  stop_if bool_decide (fi_kind rootInfo = KindSymlink)
    with source_error CodeSourceSymlinkEscape "JSON Schema snapshot root must not be a symbolic link." ;;
  stop_if negb (bool_decide (fi_kind rootInfo = KindDirectory))
    with source_error CodeSourcePathTraversal "JSON Schema snapshot root is not a directory." ;;
  let candidate := Join absoluteRoot portablePath in
  stop_if escapes (Rel absoluteRoot candidate) with source_error CodeSourcePathTraversal "JSON Schema path escaped the source snapshot." ;;
  task! _ := validateSchemaPathComponents absoluteRoot (split_on "/" portablePath) in
  task! resolvedRoot := call (λ t, host_resolve t absoluteRoot) (source_error CodeSourceNotFound "JSON Schema snapshot root could not be resolved.") in
  task! resolvedCandidate := call (λ t, host_resolve t candidate) (source_error CodeSourceNotFound "JSON Schema source file could not be resolved.") in
  stop_if escapes (Rel resolvedRoot resolvedCandidate) || (Clean resolvedCandidate !=s Clean candidate)
    with source_error CodeSourceSymlinkEscape "JSON Schema source path resolved through a symbolic link." ;;
  read_candidate candidate maximumBytes.
End read.

(** ** Resolving *)

Abbreviation schema_cache := (list (string * PlanJSONSchemaRef)).

Section resolve.
Context `{Host} `{SchemaCompiler}.
Variable snapshot : SourceSnapshot.

Definition read_verified (entry : FileEntry) (portablePath : string) : task string :=
  task! raw := readSnapshotSchema portablePath (ss_Root snapshot) AlphaJSONSchemaMaxBytes in
  task! _ := lift (verifySchemaSnapshotBytes raw entry portablePath) in
  finish raw.

Definition compiles_text (raw : string) : bool := match CompileSchema raw with Some (Ok _) => true | _ => false end.

Definition schema_ref (portablePath : string) (entry : FileEntry) : PlanJSONSchemaRef :=
  {| pjs_Path := portablePath; pjs_Digest := fe_Digest entry; pjs_Dialect := AlphaJSONSchemaDialect;
     pjs_ValidatorVersion := AlphaJSONValidatorVersion |}.

(** [schemaResolver.resolve]: the cache is threaded. *)
Definition resolve (cache : schema_cache) (portablePath : string) : task (PlanJSONSchemaRef * schema_cache) :=
  let source_error code message := schemaSourceError code message portablePath in
  stop_if negb (validSchemaRepositoryPath portablePath)
    with source_error CodeSourcePathTraversal "JSON Schema path is not a portable normalized repository path." ;;
  task! entry := lift (schemaInventoryEntry (ss_Inventory snapshot) portablePath) in
  stop_if (fe_Mode entry !=s "0644") && (fe_Mode entry !=s "0755")
    with source_error CodeSourcePathTraversal "JSON Schema inventory entry is not a regular source file." ;;
  stop_if (fe_Size entry <? 0) || (AlphaJSONSchemaMaxBytes <? fe_Size entry)
    with add_details (source_error CodeSourceTooLarge "JSON Schema exceeds the alpha byte limit.")
           [("limit", VInt AlphaJSONSchemaMaxBytes); ("size", VInt (fe_Size entry))] ;;
  stop_if negb (validSchemaDigest (fe_Digest entry)) with source_error CodeSourceDigestMismatch "JSON Schema inventory digest is invalid." ;;
  task! before := read_verified entry portablePath in
  task! after := read_verified entry portablePath in
  stop_if before !=s after with source_error CodeSourceDigestMismatch "JSON Schema source changed while the plan was being resolved." ;;
  match assoc portablePath cache with
  | Some cached => finish (cached, cache)
  | None =>
      stop_if negb (compiles_text before)
        with source_error CodePlanUnresolved "JSON Schema is invalid or uses a feature outside the bounded offline profile." ;;
      let resolved := schema_ref portablePath entry in
      finish (resolved, assoc_set portablePath resolved cache)
  end.
End resolve.

(** ** What a resolved schema is bound to *)

Ltac inv_task :=
  repeat match goal with
  | H : bind_task _ _ _ = (Ok _, _) |- _ => apply bind_task_ok in H; destruct H as (? & ? & ? & H)
  | H : call _ _ _ = (Ok _, _) |- _ => apply call_ok in H; destruct H as [? ->]
  | H : (if ?b then stop _ else _) _ = (Ok _, _) |- _ => destruct b eqn:?; [discriminate H|]
  | H : lift ?r _ = (Ok _, _) |- _ => apply (f_equal fst) in H as ?; apply (f_equal snd) in H; cbn [lift fst snd] in *; subst
  | H : finish _ _ = (Ok _, _) |- _ => apply finish_ok in H; destruct H as [-> ->]
  end.

Section bound.
Context `{Host} `{SchemaCompiler}.
Variable snapshot : SourceSnapshot.

(** The text was read from the path below the root, through no link, between the calls. *)
Definition read_below_root (portablePath raw : string) (t t' : nat) : Prop :=
  ∃ root candidate resolvedRoot resolved file content t0 t1 t2 t3 t4,
    (t <= t0 < t1 ∧ t1 < t2 < t3 ∧ t3 < t4 < t')%nat
    ∧ host_abs t0 (ss_Root snapshot) = Some root ∧ candidate = Join root portablePath ∧ escapes (Rel root candidate) = false
    ∧ host_resolve t1 root = Some resolvedRoot ∧ host_resolve t2 candidate = Some resolved
    ∧ escapes (Rel resolvedRoot resolved) = false ∧ Clean resolved = Clean candidate
    ∧ host_open t3 candidate = Some file ∧ host_read t4 file = Some content
    ∧ raw = take_string (Z.to_nat (AlphaJSONSchemaMaxBytes + 1)) content.

Lemma components_later portablePath current segments t u t' :
  validateSchemaPathComponents portablePath current segments t = (Ok u, t') → (t <= t')%nat.
Proof.
  revert current t. induction segments as [|segment segments IH]; intros current t; cbn [validateSchemaPathComponents]; intros Hr; inv_task; [lia|].
  apply IH in Hr. lia.
Qed.

Lemma candidate_read portablePath candidate raw t t' :
  read_candidate portablePath candidate AlphaJSONSchemaMaxBytes t = (Ok raw, t') →
  ∃ file content t3 t4, (t < t3 < t4 ∧ t4 < t')%nat ∧ host_open t3 candidate = Some file ∧ host_read t4 file = Some content
    ∧ raw = take_string (Z.to_nat (AlphaJSONSchemaMaxBytes + 1)) content.
Proof.
  unfold read_candidate. intros (beforeInfo & ? & [_ ->]%call_ok & Hr)%bind_task_ok.
  destruct (bool_decide (fi_kind beforeInfo = KindSymlink)); [done|]. destruct (negb (bool_decide (fi_kind beforeInfo = KindRegular))); [done|].
  apply bind_task_ok in Hr as (file & ? & [Hopen ->]%call_ok & Hr). apply bind_task_ok in Hr as (openInfo & ? & [_ ->]%call_ok & Hr).
  destruct (_ || _); [done|]. apply bind_task_ok in Hr as (content & ? & [Hread ->]%call_ok & Hr).
  destruct (AlphaJSONSchemaMaxBytes <? _); [done|]. apply bind_task_ok in Hr as (afterInfo & ? & [_ ->]%call_ok & Hr).
  destruct (_ || _); [done|]. apply finish_ok in Hr as [-> ->]. exists file, content, (S t), (S (S (S t))). split_and!; done || lia.
Qed.

Lemma read_snapshot_below portablePath raw t t' :
  readSnapshotSchema portablePath (ss_Root snapshot) AlphaJSONSchemaMaxBytes t = (Ok raw, t') →
  read_below_root portablePath raw t t' ∧ (t < t')%nat.
Proof.
  unfold readSnapshotSchema. destruct (ss_Root snapshot =s ""); [done|].
  intros (root & ? & [Habs ->]%call_ok & Hr)%bind_task_ok. apply bind_task_ok in Hr as (rootInfo & ? & [_ ->]%call_ok & Hr).
  destruct (bool_decide (fi_kind rootInfo = KindSymlink)); [done|]. destruct (negb (bool_decide (fi_kind rootInfo = KindDirectory))); [done|].
  destruct (escapes (Rel root _)) eqn:Hrel; [done|].
  apply bind_task_ok in Hr as (? & t1 & Hc%components_later & Hr). apply bind_task_ok in Hr as (resolvedRoot & ? & [Hroot ->]%call_ok & Hr).
  apply bind_task_ok in Hr as (resolved & ? & [Hres ->]%call_ok & Hr).
  destruct (escapes (Rel resolvedRoot resolved)) eqn:Hrel'; [done|]. cbn [orb] in Hr.
  destruct (String.eqb_spec (Clean resolved) (Clean (Join root portablePath))) as [Hclean|]; [|done]. cbn [negb] in Hr.
  apply candidate_read in Hr as (file & content & t3 & t4 & ? & Hopen & Hread & ->). split; [|lia].
  exists root, (Join root portablePath), resolvedRoot, resolved, file, content, t, t1, (S t1), t3, t4. split_and!; done || lia.
Qed.

Lemma verify_bytes raw entry portablePath :
  verifySchemaSnapshotBytes raw entry portablePath = Ok tt → zlen raw = fe_Size entry ∧ digest_text raw = fe_Digest entry.
Proof.
  unfold verifySchemaSnapshotBytes. destruct (zlen raw =? fe_Size entry) eqn:E1; [|done]. cbn [negb].
  destruct (String.eqb (digest_text raw) (fe_Digest entry)) eqn:E2; [|done]. intros _. to_prop. done.
Qed.

Lemma read_verified_sound entry portablePath raw t t' :
  read_verified snapshot entry portablePath t = (Ok raw, t') →
  read_below_root portablePath raw t t' ∧ (t < t')%nat ∧ zlen raw = fe_Size entry ∧ digest_text raw = fe_Digest entry.
Proof.
  unfold read_verified. intros Hr. inv_task.
  match goal with Hr : readSnapshotSchema _ _ _ _ = _ |- _ => apply read_snapshot_below in Hr as [? ?] end.
  match goal with Hv : verifySchemaSnapshotBytes _ _ _ = Ok ?u |- _ => destruct u; apply verify_bytes in Hv as [? ?] end. done.
Qed.

Lemma find_entry_only inventory portablePath found entry :
  find_entry inventory portablePath found = Ok (Some entry) →
  match found with
  | Some e => entry = e ∧ List.filter (λ e, fe_Path e =s portablePath) inventory = []
  | None => List.filter (λ e, fe_Path e =s portablePath) inventory = [entry]
  end.
Proof.
  revert found. induction inventory as [|e inventory IH]; intros found; cbn [find_entry List.filter].
  { intros [= ->]. done. }
  destruct (fe_Path e =s portablePath); cbn [negb]; [|by apply IH].
  destruct found; [done|]. intros [-> ->]%IH. done.
Qed.
Lemma inventory_entry_only inventory portablePath entry :
  schemaInventoryEntry inventory portablePath = Ok entry → List.filter (λ e, fe_Path e =s portablePath) inventory = [entry].
Proof.
  unfold schemaInventoryEntry. destruct (find_entry inventory portablePath None) as [[e|]|e] eqn:E; [|done|done]. intros [= ->].
  by apply find_entry_only in E.
Qed.

(** The only inventory entry of its path, with the digest of a text that is a schema. *)
Definition bound_schema (ref : PlanJSONSchemaRef) : Prop :=
  ∃ entry raw,
    List.filter (λ e, fe_Path e =s pjs_Path ref) (ss_Inventory snapshot) = [entry]
    ∧ ref = schema_ref (pjs_Path ref) entry ∧ validSchemaRepositoryPath (pjs_Path ref) = true
    ∧ digest_text raw = pjs_Digest ref ∧ zlen raw = fe_Size entry ∧ zlen raw <= AlphaJSONSchemaMaxBytes
    ∧ CompileSchema raw = Some (Ok tt).
Definition bound_cache (cache : schema_cache) : Prop := Forall (λ p, pjs_Path p.2 = p.1 ∧ bound_schema p.2) cache.

Lemma bound_cache_set cache ref :
  bound_cache cache → bound_schema ref → bound_cache (assoc_set (pjs_Path ref) ref cache).
Proof. intros Hc Hb. by apply assoc_set_forall. Qed.

Lemma resolve_bound cache portablePath t ref cache' t' :
  bound_cache cache → resolve snapshot cache portablePath t = (Ok (ref, cache'), t') →
  bound_schema ref ∧ bound_cache cache' ∧ pjs_Path ref = portablePath
  ∧ ∃ raw t1, digest_text raw = pjs_Digest ref ∧ read_below_root portablePath raw t t1 ∧ read_below_root portablePath raw t1 t'.
Proof.
  intros Hcache. unfold resolve. destruct (validSchemaRepositoryPath portablePath) eqn:Hvalid; [cbn [negb]|done]. intros Hr.
  apply bind_task_ok in Hr as (entry & ? & Hentry & Hr). injection Hentry as Hentry <-. apply inventory_entry_only in Hentry.
  destruct (_ && _); [done|]. destruct ((fe_Size entry <? 0) || (AlphaJSONSchemaMaxBytes <? fe_Size entry)) eqn:Hsize; [done|].
  apply orb_false_elim in Hsize as [_ Hsize%Z.ltb_ge]. destruct (negb (validSchemaDigest (fe_Digest entry))); [done|].
  apply bind_task_ok in Hr as (before & t1 & (Hb & _ & Hlen & Hdigest)%read_verified_sound & Hr).
  apply bind_task_ok in Hr as (after & t2 & (Ha & _)%read_verified_sound & Hr).
  destruct (String.eqb_spec before after) as [<-|]; [cbn [negb] in Hr|done].
  assert (∃ raw t1, digest_text raw = fe_Digest entry ∧ read_below_root portablePath raw t t1 ∧ read_below_root portablePath raw t1 t2) as Hread.
  { by exists before, t1. }
  destruct (assoc portablePath cache) as [cached|] eqn:Ecache.
  - apply finish_ok in Hr as [[= -> ->] ->]. apply assoc_In in Ecache. unfold bound_cache in Hcache. pose proof Hcache as Hall.
    rewrite Forall_forall in Hall. destruct (Hall _ Ecache) as [Hp Hbound]. cbn [fst snd] in Hp, Hbound.
    split_and!; [done|done|done|]. destruct Hbound as (e & raw & He & Href & _). rewrite Hp, Hentry in He. injection He as ->.
    by rewrite Href.
  - destruct (compiles_text before) eqn:Hcompiles; [cbn [negb] in Hr|done]. apply finish_ok in Hr as [[= -> ->] ->].
    assert (bound_schema (schema_ref portablePath entry)) as Hbound.
    { exists entry, before. split_and!; try done; [lia|]. unfold compiles_text in Hcompiles. by destruct (CompileSchema before) as [[[]|]|]. }
    split_and!; [done| |done|done]. by apply (bound_cache_set cache (schema_ref portablePath entry)).
Qed.

(** C39: Whatever the host answers at each call, a schema a plan refers to is the
    only inventory entry of its path, the text with the entry's digest and size
    compiles within the policy, and it was read twice from that path below the
    snapshot's root, outside of which no link led. *)
Theorem schema_binding_sound portablePath t ref cache' t' :
  resolve snapshot [] portablePath t = (Ok (ref, cache'), t') →
  pjs_Path ref = portablePath ∧ bound_schema ref
  ∧ (∃ raw t1, digest_text raw = pjs_Digest ref ∧ read_below_root portablePath raw t t1 ∧ read_below_root portablePath raw t1 t')
  ∧ ∀ next t2 ref' cache'' t3, resolve snapshot cache' next t2 = (Ok (ref', cache''), t3) → bound_schema ref' ∧ pjs_Path ref' = next.
Proof.
  intros (Hb & Hc & Hp & Hread)%resolve_bound; [|constructor]. split_and!; try done.
  intros next t2 ref' cache'' t3 (? & _ & ? & _)%resolve_bound; done.
Qed.
End bound.

(** ** A host with one file *)

Definition static_file (root relative content : string) : Host :=
  let candidate := Join root relative in
  let info p :=
    if p =s candidate then Some {| fi_kind := KindRegular; fi_size := zlen content; fi_id := 1 |}
    else if has_prefix (p +:+ "/") candidate then Some {| fi_kind := KindDirectory; fi_size := 0; fi_id := 0 |} else None in
  {| host_abs := λ _ p, Some p; host_lstat := λ _, info; host_resolve := λ _ p, Some p;
     host_open := λ _ p, if p =s candidate then Some 1 else None;
     host_stat := λ _ _, Some {| fi_kind := KindRegular; fi_size := zlen content; fi_id := 1 |};
     host_read := λ _ _, Some content |}.
Definition example_content : string := "true".
Definition example_entry : FileEntry :=
  {| fe_Path := "schemas/any.json"; fe_Mode := "0644"; fe_Size := 4; fe_Digest := digest_text example_content |}.
Definition example_snapshot : SourceSnapshot :=
  {| ss_Identity := "local"; ss_Commit := ""; ss_TreeDigest := "sha256:tree"; ss_Root := "/repo"; ss_Inventory := [example_entry];
     ss_TotalSize := 4; ss_FileCount := 1 |}.
#[export] Instance compiles_all : SchemaCompiler := {| compiles_schema := λ _, true |}.

Lemma schema_binding_sound_witness :
  ∃ cache' t', @resolve (static_file "/repo" "schemas/any.json" example_content) compiles_all example_snapshot [] "schemas/any.json" 0%nat
                 = (Ok (schema_ref "schemas/any.json" example_entry, cache'), t')
    ∧ pjs_Path (schema_ref "schemas/any.json" example_entry) = "schemas/any.json".
Proof.
  eexists _, _. split; [vm_compute; reflexivity|].
  refine (proj1 (@schema_binding_sound (static_file "/repo" "schemas/any.json" example_content) compiles_all example_snapshot
    "schemas/any.json" 0%nat (schema_ref "schemas/any.json" example_entry) _ _ _)).
  vm_compute. reflexivity.
Defined.
