(* ===== verification/PlanDocument.v ===== *)
(** * The document of a plan (internal/domain/types.go) and its digest (planner.go)

    What [json.Marshal] writes for a resolved plan, the digest that binds it,
    and [OverrideRepeats], which rebinds a plan to more repetitions. *)

From S2P Require Import Prelude Sha256 Json JsonUnmarshal SemanticEqual GoValue CanonicalJson GoStruct Domain PlanTypes ManifestValidate.

Local Open Scope Z_scope.

(** ** Documents *)

Definition omit_slice {A} (f : A → doc) (s : slice A) : option doc := omit_list f (elems s).
Definition omit_ptr {A} (f : A → doc) (o : option A) : option doc := option_map f o.
(** A [map[string]string]. *)
Definition texts_doc (m : list (string * string)) : doc := Ok (JObj (object_of (List.map (λ p, (p.1, JStr (sanitize p.2))) m))).
Definition omit_texts (m : list (string * string)) : option doc := match m with [] => None | _ => Some (texts_doc m) end.
(** A [json.RawMessage]. *)
Definition raw_doc (text : string) : doc := of_option "json: error calling MarshalJSON for type json.RawMessage" (read_document text).

Definition NetworkDestination_json (d : NetworkDestination) : doc :=
  object [("host", Some (str (nd_Host d))); ("port", Some (int (nd_Port d))); ("protocol", omit_str (nd_Protocol d))].
Definition NetworkCapability_json (c : NetworkCapability) : doc :=
  object [("deny", Some (bool_doc (nc_Deny c))); ("allow", omit_slice NetworkDestination_json (nc_Allow c))].
Definition FilesystemCapability_json (c : FilesystemCapability) : doc :=
  object [("read", omit_slice str (fc_Read c)); ("write", omit_slice str (fc_Write c)); ("create", omit_slice str (fc_Create c));
          ("delete", omit_slice str (fc_Delete c)); ("rename", omit_slice str (fc_Rename c)); ("chmod", omit_slice str (fc_Chmod c));
          ("symlink", omit_slice str (fc_Symlink c))].
Definition PortBinding_json (b : PortBinding) : doc :=
  object [("host", Some (str (pb_Host b))); ("port", Some (int (pb_Port b))); ("protocol", omit_str (pb_Protocol b))].
Definition PortCapability_json (c : PortCapability) : doc := object [("listen", omit_slice PortBinding_json (pc_Listen c))].
Definition ProcessCapability_json (c : ProcessCapability) : doc :=
  object [("exec", omit_slice str (pr_Exec c)); ("background", omit_bool (pr_Background c));
          ("childProcesses", omit_ptr bool_doc (pr_ChildProcesses c)); ("shell", omit_ptr bool_doc (pr_Shell c));
          ("backgroundProcesses", omit_ptr bool_doc (pr_BackgroundProcesses c))].
Definition EnvironmentCapability_json (c : EnvironmentCapability) : doc :=
  object [("read", omit_slice str (ec_Read c)); ("write", omit_slice str (ec_Write c)); ("locale", omit_str (ec_Locale c));
          ("timezone", omit_str (ec_Timezone c))].
Definition DeclaredResourceLimits_json (r : DeclaredResourceLimits) : doc :=
  object [("cpu", Some (to_json (dr_CPU r))); ("memory", Some (str (dr_Memory r))); ("disk", Some (str (dr_Disk r)));
          ("pids", Some (int (dr_PIDs r))); ("time", omit_str (dr_Time r)); ("logBytes", omit_ptr int (dr_LogBytes r))].
Definition CapabilitySet_json (c : CapabilitySet) : doc :=
  object [("network", Some (NetworkCapability_json (cs_Network c))); ("filesystem", Some (FilesystemCapability_json (cs_Filesystem c)));
          ("ports", Some (PortCapability_json (cs_Ports c))); ("process", Some (ProcessCapability_json (cs_Process c)));
          ("environment", omit_ptr EnvironmentCapability_json (cs_Environment c)); ("secrets", omit_slice str (cs_Secrets c));
          ("resources", omit_ptr DeclaredResourceLimits_json (cs_Resources c)); ("devices", omit_ptr bool_doc (cs_Devices c));
          ("hostIntegration", omit_ptr bool_doc (cs_HostIntegration c))].
Definition capabilities_doc (m : list (string * CapabilitySet)) : doc :=
  let! members := bind_all (λ p, let! d := CapabilitySet_json p.2 in Ok (p.1, d)) m in Ok (JObj (object_of members)).

Definition PlanSignal_json (s : PlanSignal) : doc :=
  object [("target", Some (str (psg_Target s))); ("type", Some (str (psg_Type s))); ("gracePeriod", omit_str (psg_GracePeriod s))].
Definition PlanHTTPReadiness_json (r : PlanHTTPReadiness) : doc :=
  object [("url", Some (str (prd_URL r))); ("status", Some (int (prd_Status r))); ("timeout", Some (str (prd_Timeout r)))].
Definition PlanCommand_json (c : PlanCommand) : doc :=
  object [("phase", Some (str (pcm_Phase c))); ("id", Some (str (pcm_ID c))); ("argv", omit_slice str (pcm_Argv c));
          ("signal", omit_ptr PlanSignal_json (pcm_Signal c)); ("readiness", omit_ptr PlanHTTPReadiness_json (pcm_Readiness c));
          ("timeout", Some (str (pcm_Timeout c))); ("role", Some (str (pcm_Role c)))].
Definition PlanHTTPRequest_json (r : PlanHTTPRequest) : doc :=
  object [("id", Some (str (prq_ID r))); ("method", Some (str (prq_Method r))); ("url", Some (str (prq_URL r)));
          ("headers", omit_texts (prq_Headers r)); ("body", omit_ptr str (prq_Body r)); ("json", omit_ptr raw_doc (prq_JSON r));
          ("timeout", Some (str (prq_Timeout r)))].
Definition PlanHTTPDriverStep_json (s : PlanHTTPDriverStep) : doc :=
  object [("request", omit_ptr PlanHTTPRequest_json (pds_Request s)); ("assertionId", omit_str (pds_AssertionID s))].
Definition PlanHTTPJourney_json (j : PlanHTTPJourney) : doc :=
  object [("serviceId", Some (str (phj_ServiceID j))); ("steps", Some (array PlanHTTPDriverStep_json (phj_Steps j)))].
Definition PlanHTTPHeaderAssertion_json (h : PlanHTTPHeaderAssertion) : doc :=
  object [("name", Some (str (pha_Name h))); ("contains", Some (str (pha_Contains h)))].
Definition PlanJSONPathAssertion_json (p : PlanJSONPathAssertion) : doc :=
  object [("path", Some (str (pja_Path p))); ("equals", Some (raw_doc (pja_Equals p)))].
Definition PlanJSONSchemaRef_json (s : PlanJSONSchemaRef) : doc :=
  object [("path", Some (str (pjs_Path s))); ("digest", Some (str (pjs_Digest s))); ("dialect", Some (str (pjs_Dialect s)));
          ("validatorVersion", Some (str (pjs_ValidatorVersion s)))].
Definition PlanHTTPResponseAssertion_json (a : PlanHTTPResponseAssertion) : doc :=
  object [("requestId", Some (str (pra_RequestID a))); ("status", omit_ptr int (pra_Status a));
          ("header", omit_ptr PlanHTTPHeaderAssertion_json (pra_Header a)); ("bodyContains", omit_ptr str (pra_BodyContains a));
          ("jsonPath", omit_ptr PlanJSONPathAssertion_json (pra_JSONPath a)); ("jsonSchema", omit_ptr PlanJSONSchemaRef_json (pra_JSONSchema a))].
Definition PlanJSONFileAssertion_json (f : PlanJSONFileAssertion) : doc :=
  object [("path", Some (str (pjf_Path f))); ("schema", Some (PlanJSONSchemaRef_json (pjf_Schema f)))].
Definition PlanAssertion_json (a : PlanAssertion) : doc :=
  object [("id", Some (str (pa_ID a))); ("exitCode", omit_ptr int (pa_ExitCode a)); ("stdoutContains", omit_str (pa_StdoutContains a));
          ("stderrContains", omit_str (pa_StderrContains a)); ("stdoutRegex", omit_str (pa_StdoutRegex a));
          ("stdoutJsonSchema", omit_ptr PlanJSONSchemaRef_json (pa_StdoutJSONSchema a)); ("fileExists", omit_str (pa_FileExists a));
          ("response", omit_ptr PlanHTTPResponseAssertion_json (pa_Response a)); ("jsonFile", omit_ptr PlanJSONFileAssertion_json (pa_JSONFile a))].
Definition PlanCleanup_json (c : PlanCleanup) : doc :=
  object [("classifierVersion", Some (str (pcl_ClassifierVersion c))); ("allowedResidue", Some (array str (pcl_AllowedResidue c)))].
Definition ResourceLimits_json (r : ResourceLimits) : doc :=
  object [("cpuMillis", Some (int (rl_CPUMillis r))); ("memoryBytes", Some (int (rl_MemoryBytes r))); ("diskBytes", Some (int (rl_DiskBytes r)));
          ("pids", Some (int (rl_PIDs r)))].
Definition PlanInput_json (i : PlanInput) : doc :=
  object [("name", Some (str (pin_Name i))); ("type", Some (str (pin_Type i))); ("fixture", Some (str (pin_Fixture i)));
          ("mountPath", Some (str (pin_MountPath i))); ("readOnly", Some (bool_doc (pin_ReadOnly i)))].

(** The members of a plan but for its digest, which is the last. *)
Definition plan_members (p : FullPlan) : list (string * option doc) :=
  [("schemaVersion", Some (str (fp_SchemaVersion p))); ("source", Some (PlanSource_json (fp_Source p)));
   ("manifestDigest", Some (str (fp_ManifestDigest p))); ("scenario", Some (str (fp_Scenario p))); ("environment", Some (str (fp_Environment p)));
   ("runtimeAdapter", Some (str (fp_RuntimeAdapter p))); ("runtimeVersion", Some (str (fp_RuntimeVersion p)));
   ("baseImageReference", Some (str (fp_BaseImageReference p))); ("baseImageDigest", Some (str (fp_BaseImageDigest p)));
   ("resources", Some (ResourceLimits_json (fp_Resources p))); ("inputs", Some (array PlanInput_json (fp_Inputs p)));
   ("adapterVersions", Some (texts_doc (fp_AdapterVersions p))); ("observerVersions", Some (texts_doc (fp_ObserverVersions p)));
   ("journeyDriver", Some (str (fp_JourneyDriver p))); ("journeyDriverVersion", Some (str (fp_JourneyDriverVersion p)));
   ("commands", Some (array PlanCommand_json (fp_Commands p))); ("journeyAssertions", Some (array PlanAssertion_json (fp_JourneyAssertions p)));
   ("httpJourney", omit_ptr PlanHTTPJourney_json (fp_HTTPJourney p)); ("cleanup", Some (PlanCleanup_json (fp_Cleanup p)));
   ("evidence", Some (PlanEvidence_json (fp_Evidence p))); ("capabilities", Some (capabilities_doc (fp_Capabilities p)));
   ("requiredRunnerFeatures", Some (array str (fp_RequiredRunnerFeatures p))); ("observerSet", Some (array str (fp_ObserverSet p)));
   ("repeatCount", Some (int (fp_RepeatCount p))); ("successThreshold", Some (int (fp_SuccessThreshold p)));
   ("policyBundleDigest", Some (str (fp_PolicyBundleDigest p)))].
Definition FullPlan_members (p : FullPlan) : result string (list (string * json)) :=
  struct (plan_members p ++ [("planDigest", Some (str (fp_PlanDigest p)))]).

(** ** [digestPlan] *)

Definition semantic_plan (plan : FullPlan) : doc := let! members := FullPlan_members plan in Ok (JObj (assoc_delete "planDigest" members)).
Definition digestPlan (plan : FullPlan) : result string string := Digest (semantic_plan plan).

Definition with_digest (plan : FullPlan) (digest : string) : FullPlan :=
  {| fp_SchemaVersion := fp_SchemaVersion plan; fp_Source := fp_Source plan; fp_ManifestDigest := fp_ManifestDigest plan;
     fp_Scenario := fp_Scenario plan; fp_Environment := fp_Environment plan; fp_RuntimeAdapter := fp_RuntimeAdapter plan;
     fp_RuntimeVersion := fp_RuntimeVersion plan; fp_BaseImageReference := fp_BaseImageReference plan;
     fp_BaseImageDigest := fp_BaseImageDigest plan; fp_Resources := fp_Resources plan; fp_Inputs := fp_Inputs plan;
     fp_AdapterVersions := fp_AdapterVersions plan; fp_ObserverVersions := fp_ObserverVersions plan;
     fp_JourneyDriver := fp_JourneyDriver plan; fp_JourneyDriverVersion := fp_JourneyDriverVersion plan; fp_Commands := fp_Commands plan;
     fp_JourneyAssertions := fp_JourneyAssertions plan; fp_HTTPJourney := fp_HTTPJourney plan; fp_Cleanup := fp_Cleanup plan;
     fp_Evidence := fp_Evidence plan; fp_Capabilities := fp_Capabilities plan;
     fp_RequiredRunnerFeatures := fp_RequiredRunnerFeatures plan; fp_ObserverSet := fp_ObserverSet plan;
     fp_RepeatCount := fp_RepeatCount plan; fp_SuccessThreshold := fp_SuccessThreshold plan;
     fp_PolicyBundleDigest := fp_PolicyBundleDigest plan; fp_PlanDigest := digest |}.
Definition with_repeats (plan : FullPlan) (repeats threshold : Z) : FullPlan :=
  {| fp_SchemaVersion := fp_SchemaVersion plan; fp_Source := fp_Source plan; fp_ManifestDigest := fp_ManifestDigest plan;
     fp_Scenario := fp_Scenario plan; fp_Environment := fp_Environment plan; fp_RuntimeAdapter := fp_RuntimeAdapter plan;
     fp_RuntimeVersion := fp_RuntimeVersion plan; fp_BaseImageReference := fp_BaseImageReference plan;
     fp_BaseImageDigest := fp_BaseImageDigest plan; fp_Resources := fp_Resources plan; fp_Inputs := fp_Inputs plan;
     fp_AdapterVersions := fp_AdapterVersions plan; fp_ObserverVersions := fp_ObserverVersions plan;
     fp_JourneyDriver := fp_JourneyDriver plan; fp_JourneyDriverVersion := fp_JourneyDriverVersion plan; fp_Commands := fp_Commands plan;
     fp_JourneyAssertions := fp_JourneyAssertions plan; fp_HTTPJourney := fp_HTTPJourney plan; fp_Cleanup := fp_Cleanup plan;
     fp_Evidence := fp_Evidence plan; fp_Capabilities := fp_Capabilities plan;
     fp_RequiredRunnerFeatures := fp_RequiredRunnerFeatures plan; fp_ObserverSet := fp_ObserverSet plan;
     fp_RepeatCount := repeats; fp_SuccessThreshold := threshold;
     fp_PolicyBundleDigest := fp_PolicyBundleDigest plan; fp_PlanDigest := fp_PlanDigest plan |}.

Definition OverrideRepeats (plan : FullPlan) (requested : Z) : result Error FullPlan :=
  fail_if requested <? fp_RepeatCount plan
    with with_details (NewError CodeManifestInvalid SeverityHigh "--repeats cannot weaken the manifest repeat policy.")
           [("manifestRepeats", VInt (fp_RepeatCount plan)); ("requested", VInt requested)] ;;
  fail_if 10 <? requested with NewError CodeManifestInvalid SeverityHigh "--repeats must not exceed 10." ;;
  if requested =? fp_RepeatCount plan then Ok plan
  else
    let allowedFailures := wrap64 (fp_RepeatCount plan - fp_SuccessThreshold plan) in
    let plan := with_repeats plan requested (wrap64 (requested - allowedFailures)) in
    let! digest := map_err (λ cause, WrapError CodePlanUnresolved SeverityHigh
                     "Effective repeat policy could not be bound into the plan digest." cause) (digestPlan plan) in
    Ok (with_digest plan digest).

(** ** The documents are well formed *)

Lemma omit_ptr_wf {A} (f : A → doc) o : (∀ x, doc_wf (f x)) → member_wf ("", omit_ptr f o).
Proof. intros Hf. destruct o; [apply Hf|done]. Qed.
Lemma omit_slice_wf {A} (f : A → doc) s : (∀ x, doc_wf (f x)) → member_wf ("", omit_slice f s).
Proof. intros Hf. by apply omit_list_wf. Qed.
Lemma texts_doc_wf m : doc_wf (texts_doc m).
Proof.
  intros j [= <-]. apply object_of_wf, List.Forall_map, Forall_true. intros p. cbn [snd wf]. apply sanitize_is_valid.
Qed.
Lemma omit_texts_wf m : member_wf ("", omit_texts m).
Proof. destruct m; [done|]. apply texts_doc_wf. Qed.
Lemma array_wf_forall {A} (f : A → doc) l : Forall (λ x, doc_wf (f x)) l → doc_wf (array f l).
Proof.
  intros Hf j H. apply bind_Ok in H as (r & Hr & [= <-]). cbn [wf]. apply forallb_forall, List.Forall_forall.
  eapply (bind_all_forall f (λ x, doc_wf (f x))); [|exact Hf|exact Hr]. intros x y Hx. apply Hx.
Qed.
#[export] Hint Resolve texts_doc_wf omit_texts_wf : docs.
#[export] Hint Extern 1 (member_wf (?k, omit_ptr _ _)) => apply (omit_ptr_wf _ _) : docs.
#[export] Hint Extern 1 (member_wf (?k, omit_slice _ _)) => apply (omit_slice_wf _ _) : docs.

Lemma NetworkDestination_wf d : doc_wf (NetworkDestination_json d).
Proof. object_doc. Qed.
Lemma PortBinding_wf d : doc_wf (PortBinding_json d).
Proof. object_doc. Qed.
Lemma EnvironmentCapability_wf d : doc_wf (EnvironmentCapability_json d).
Proof. object_doc. Qed.
Lemma DeclaredResourceLimits_wf d : doc_wf (DeclaredResourceLimits_json d).
Proof. object_doc. Qed.
Lemma FilesystemCapability_wf d : doc_wf (FilesystemCapability_json d).
Proof. object_doc. Qed.
Lemma ProcessCapability_wf d : doc_wf (ProcessCapability_json d).
Proof. object_doc. Qed.
#[export] Hint Resolve NetworkDestination_wf PortBinding_wf EnvironmentCapability_wf DeclaredResourceLimits_wf FilesystemCapability_wf
  ProcessCapability_wf : docs.
Lemma NetworkCapability_wf d : doc_wf (NetworkCapability_json d).
Proof. object_doc. Qed.
Lemma PortCapability_wf d : doc_wf (PortCapability_json d).
Proof. object_doc. Qed.
#[export] Hint Resolve NetworkCapability_wf PortCapability_wf : docs.
Lemma CapabilitySet_wf d : doc_wf (CapabilitySet_json d).
Proof. object_doc. Qed.
Lemma capabilities_wf m : doc_wf (capabilities_doc m).
Proof.
  intros j H. apply bind_Ok in H as (members & Hm & [= <-]). apply object_of_wf.
  eapply (bind_all_forall _ (λ _, True)); [|by apply Forall_true|exact Hm]. intros p q _ H. apply bind_Ok in H as (d & Hd & [= <-]).
  by apply (CapabilitySet_wf p.2).
Qed.
Lemma PlanSignal_wf d : doc_wf (PlanSignal_json d).
Proof. object_doc. Qed.
Lemma PlanHTTPReadiness_wf d : doc_wf (PlanHTTPReadiness_json d).
Proof. object_doc. Qed.
Lemma PlanHTTPHeaderAssertion_wf d : doc_wf (PlanHTTPHeaderAssertion_json d).
Proof. object_doc. Qed.
Lemma PlanJSONSchemaRef_wf d : doc_wf (PlanJSONSchemaRef_json d).
Proof. object_doc. Qed.
#[export] Hint Resolve capabilities_wf PlanSignal_wf PlanHTTPReadiness_wf PlanHTTPHeaderAssertion_wf PlanJSONSchemaRef_wf : docs.
Lemma PlanCommand_wf d : doc_wf (PlanCommand_json d).
Proof. object_doc. Qed.
Lemma PlanJSONFileAssertion_wf d : doc_wf (PlanJSONFileAssertion_json d).
Proof. object_doc. Qed.
Lemma PlanCleanup_wf d : doc_wf (PlanCleanup_json d).
Proof. object_doc. Qed.
Lemma ResourceLimits_wf d : doc_wf (ResourceLimits_json d).
Proof. object_doc. Qed.
Lemma PlanInput_wf d : doc_wf (PlanInput_json d).
Proof. object_doc. Qed.
#[export] Hint Resolve PlanCommand_wf PlanJSONFileAssertion_wf PlanCleanup_wf ResourceLimits_wf PlanInput_wf : docs.

(** *** The raw texts of a plan

    The planner writes them canonically, without a repeated key; a text with one
    would be read into a document the encoder never writes. *)
Definition raw_wf (text : string) : Prop := doc_wf (raw_doc text).
Definition request_raw_wf (r : PlanHTTPRequest) : Prop := ∀ text, prq_JSON r = Some text → raw_wf text.
Definition step_raw_wf (s : PlanHTTPDriverStep) : Prop := ∀ r, pds_Request s = Some r → request_raw_wf r.
Definition assertion_raw_wf (a : PlanAssertion) : Prop :=
  ∀ r p, pa_Response a = Some r → pra_JSONPath r = Some p → raw_wf (pja_Equals p).
Definition plan_raw_wf (p : FullPlan) : Prop :=
  Forall assertion_raw_wf (fp_JourneyAssertions p)
  ∧ ∀ journey, fp_HTTPJourney p = Some journey → Forall step_raw_wf (phj_Steps journey).

Lemma omit_ptr_wf_some {A} (f : A → doc) o k : (∀ x, o = Some x → doc_wf (f x)) → member_wf (k, omit_ptr f o).
Proof. intros Hf. destruct o; [by apply Hf|done]. Qed.

(** As [object_doc], for records with optional parts that need a hypothesis. *)
Ltac object_doc_with tac :=
  apply object_wf; [vm_compute; reflexivity|];
  repeat (first [apply Forall_nil | apply Forall_cons; split]);
  first [solve [eauto with docs] | apply omit_ptr_wf_some; intros; tac].

Lemma PlanHTTPRequest_wf r : request_raw_wf r → doc_wf (PlanHTTPRequest_json r).
Proof. intros H. object_doc_with ltac:(by apply H). Qed.
Lemma PlanHTTPDriverStep_wf s : step_raw_wf s → doc_wf (PlanHTTPDriverStep_json s).
Proof. intros H. object_doc_with ltac:(by apply PlanHTTPRequest_wf, H). Qed.
Lemma PlanHTTPJourney_wf j : Forall step_raw_wf (phj_Steps j) → doc_wf (PlanHTTPJourney_json j).
Proof.
  intros H. apply object_wf; [vm_compute; reflexivity|]. repeat (first [apply Forall_nil | apply Forall_cons; split]); try solve [eauto with docs].
  apply member_wf_some, array_wf_forall. eapply Forall_impl; [exact H|]. apply PlanHTTPDriverStep_wf.
Qed.
Lemma PlanJSONPathAssertion_wf p : raw_wf (pja_Equals p) → doc_wf (PlanJSONPathAssertion_json p).
Proof. intros H. object_doc. Qed.
Lemma PlanHTTPResponseAssertion_wf a : (∀ p, pra_JSONPath a = Some p → raw_wf (pja_Equals p)) → doc_wf (PlanHTTPResponseAssertion_json a).
Proof. intros H. object_doc_with ltac:(by apply PlanJSONPathAssertion_wf, H). Qed.
Lemma PlanAssertion_wf a : assertion_raw_wf a → doc_wf (PlanAssertion_json a).
Proof. intros H. object_doc_with ltac:(apply PlanHTTPResponseAssertion_wf; intros; by eapply H). Qed.

Lemma plan_members_wf p : plan_raw_wf p → Forall member_wf (plan_members p).
Proof.
  intros [Ha Hj]. unfold plan_members. repeat (first [apply Forall_nil | apply Forall_cons; split]); try solve [eauto with docs].
  - apply member_wf_some, array_wf_forall. eapply Forall_impl; [exact Ha|]. apply PlanAssertion_wf.
  - apply omit_ptr_wf_some. intros j E. apply PlanHTTPJourney_wf. by apply Hj.
Qed.

(** ** What a digest binds *)

Lemma struct_appended a b : struct (a ++ b) = (let! l := struct a in let! m := struct b in Ok (l ++ m)).
Proof.
  induction a as [|[k [d|]] a IH]; cbn [app struct bind_result].
  - by destruct (struct b).
  - destruct d as [j|e]; [|done]. cbn [bind_result]. rewrite IH. destruct (struct a); [|done]. cbn [bind_result]. by destruct (struct b).
  - apply IH.
Qed.

Lemma delete_absent {A} k (l : list (string * A)) : k ∉ l.*1 → assoc_delete k l = l.
Proof.
  induction l as [|[j v] l IH]; [done|]. rewrite fmap_cons. intros [Hne Hk]%not_elem_of_cons. cbn [fst] in Hne. unfold assoc_delete in *.
  cbn [List.filter fst]. destruct (String.eqb_spec j k); [congruence|]. cbn [negb]. by rewrite IH.
Qed.

(** The document a digest is taken of: every member but the digest. *)
Lemma semantic_members p : semantic_plan p = (let! members := struct (plan_members p) in Ok (JObj members)).
Proof.
  unfold semantic_plan, FullPlan_members. rewrite struct_appended. destruct (struct (plan_members p)) as [l|e] eqn:E; [|done].
  cbn [bind_result struct str]. f_equal. f_equal. unfold assoc_delete. rewrite List.filter_app. cbn [List.filter fst]. rewrite app_nil_r.
  apply (delete_absent "planDigest"). intros Hin. apply (struct_keys _ _ E), list_elem_of_In in Hin. clear E. cbn in Hin. intuition discriminate.
Qed.

Lemma digest_of_plan_members p : digestPlan p = Digest (let! members := struct (plan_members p) in Ok (JObj members)).
Proof. unfold digestPlan. by rewrite semantic_members. Qed.
Lemma digest_ignored p d : digestPlan (with_digest p d) = digestPlan p.
Proof. by rewrite !digest_of_plan_members. Qed.

Lemma semantic_wf p : plan_raw_wf p → doc_wf (semantic_plan p).
Proof.
  intros H. rewrite semantic_members. apply (object_wf (plan_members p)); [vm_compute; reflexivity|]. by apply plan_members_wf.
Qed.

Lemma struct_lookup members l k :
  struct members = Ok l → NoDup members.*1 →
  assoc k l = match assoc k members with Some (Some (Ok j)) => Some j | _ => None end.
Proof.
  revert l. induction members as [|[n o] members IH]; intros l; [by intros [= <-]|]. rewrite fmap_cons, NoDup_cons. cbn [fst assoc].
  destruct o as [[j|e]|]; cbn [struct bind_result]; [|done|].
  - destruct (struct members) as [r|] eqn:E; [|done]. cbn [bind_result]. intros [= <-] [_ Hd]. cbn [assoc].
    destruct (n =s k); [done|]. by apply IH.
  - intros E [Hn Hd]. rewrite (IH _ E Hd). destruct (String.eqb_spec n k) as [->|]; [|done].
    by rewrite (proj2 (assoc_None_iff _ _) Hn).
Qed.

Lemma assoc_mapped {A B} (f : A → B) k (l : list (string * A)) : assoc k (List.map (λ p, (p.1, f p.2)) l) = option_map f (assoc k l).
Proof. induction l as [|[n v] l IH]; [done|]. cbn [map assoc fst snd]. destruct (n =s k); [done|]. apply IH. Qed.

Lemma assoc_permuted {A} k (l l' : list (string * A)) : NoDup l.*1 → l ≡ₚ l' → assoc k l = assoc k l'.
Proof.
  intros Hd Hp. assert (NoDup l'.*1) as Hd' by (by rewrite <- Hp). destruct (assoc k l) as [v|] eqn:E.
  - symmetry. apply assoc_NoDup; [done|]. rewrite <- Hp. by apply assoc_In.
  - symmetry. apply assoc_None_iff. rewrite <- Hp. by apply assoc_None_iff.
Qed.

(** The members of one document, whatever their order. *)
Lemma same_members l l' k :
  wf (JObj l) = true → wf (JObj l') = true → same_document (JObj l) (JObj l') →
  option_map canon (assoc k l) = option_map canon (assoc k l').
Proof.
  unfold same_document. cbn [wf canon]. intros [Hd%bool_decide_eq_true _]%andb_prop [Hd'%bool_decide_eq_true _]%andb_prop [= Hs].
  rewrite <- !assoc_mapped. apply assoc_permuted; [by rewrite mapped_keys|].
  rewrite <- (sort_keys_same (List.map _ l)), <- (sort_keys_same (List.map _ l')). by rewrite Hs.
Qed.

Lemma dec_Z_injective a b : dec_Z a = dec_Z b → a = b.
Proof.
  assert (∀ z, 0 <= z → dec_Z z = dec_N (Z.to_N z)) as Hpos by (intros [|q|q] ?; done || lia).
  assert (∀ q, dec_Z (Z.neg q) = String "-" (dec_N (N.pos q))) as Hneg by done.
  assert (∀ z q, 0 <= z → dec_Z z ≠ dec_Z (Z.neg q)) as Hsign.
  { intros z q Hz H. rewrite (Hpos z Hz), Hneg in H. pose proof (dec_N_not_minus (Z.to_N z)) as Hm. by rewrite H in Hm. }
  intros H. destruct (Z.le_gt_cases 0 a), (Z.le_gt_cases 0 b).
  - rewrite !Hpos in H by done. apply (f_equal (digits_val 0)) in H. rewrite !digits_val_dec_N in H. lia.
  - destruct b; try lia. by apply Hsign in H.
  - destruct a; try lia. symmetry in H. by apply Hsign in H.
  - destruct a, b; try lia. rewrite !Hneg in H. apply (f_equal (λ s, match s with String _ r => digits_val 0 r | EmptyString => 0%N end)) in H.
    cbv beta iota in H. rewrite !digits_val_dec_N in H. congruence.
Qed.

Lemma plan_members_distinct p : NoDup (plan_members p).*1.
Proof. refine (bool_decide_unpack (NoDup ((plan_members p).*1)) _). vm_compute. exact I. Qed.

(** The document of one member of a plan, [None] where it is omitted. *)
Definition member_document (p : FullPlan) (k : string) : option json :=
  match assoc k (plan_members p) with Some (Some (Ok j)) => Some (canon j) | _ => None end.

(** C38: The digest of a plan binds it: two plans with one digest have the same
    document for every member but the digest, in particular the same commands,
    capabilities, assertions and repetitions, or their canonical texts are a
    SHA-256 collision. *)
Theorem plan_digest_binds p q d :
  plan_raw_wf p → plan_raw_wf q → digestPlan p = Ok d → digestPlan q = Ok d →
  ∃ a b, semantic_plan p = Ok a ∧ semantic_plan q = Ok b
    ∧ (digest_collision (encode a) (encode b)
       ∨ (∀ k, member_document p k = member_document q k)
         ∧ fp_RepeatCount p = fp_RepeatCount q ∧ fp_SuccessThreshold p = fp_SuccessThreshold q
         ∧ sanitize (fp_Scenario p) = sanitize (fp_Scenario q)).
Proof.
  intros Hp Hq (a & Ea & Ha)%Digest_inv (b & Eb & Hb)%Digest_inv. exists a, b. split_and!; [done|done|].
  pose proof (semantic_wf p Hp a Ea) as Wa. pose proof (semantic_wf q Hq b Eb) as Wb.
  destruct (same_digest a b Wa Wb) as [Hs|]; [congruence| |by left]. right.
  rewrite semantic_members in Ea, Eb. apply bind_Ok in Ea as (l & El & [= <-]). apply bind_Ok in Eb as (m & Em & [= <-]).
  assert (∀ r l k, struct (plan_members r) = Ok l → option_map canon (assoc k l) = member_document r k) as Hmember.
  { intros r l' k E. rewrite (struct_lookup _ _ k E) by apply plan_members_distinct.
    unfold member_document. by destruct (assoc k (plan_members r)) as [[[j|e]|]|]. }
  assert (∀ k, member_document p k = member_document q k) as Hall.
  { intros k. rewrite <- (Hmember p l k El), <- (Hmember q m k Em). by apply same_members. }
  split_and!; [done| | |].
  - pose proof (Hall "repeatCount") as H. injection H as H. by apply dec_Z_injective.
  - pose proof (Hall "successThreshold") as H. injection H as H. by apply dec_Z_injective.
  - pose proof (Hall "scenario") as H. by injection H.
Qed.

(** More repetitions never weaken a plan: an override succeeds only for a
    count from the manifest's up to ten, keeps the number of failures the plan
    allows and everything else, and binds the new counts into the digest. *)
Theorem override_repeats_exact plan requested plan' :
  is_int64 requested = true → 0 <= fp_SuccessThreshold plan <= fp_RepeatCount plan →
  OverrideRepeats plan requested = Ok plan' →
  fp_RepeatCount plan <= requested <= 10
  ∧ fp_RepeatCount plan' = requested
  ∧ fp_RepeatCount plan' - fp_SuccessThreshold plan' = fp_RepeatCount plan - fp_SuccessThreshold plan
  ∧ plan' = with_digest (with_repeats plan requested (fp_SuccessThreshold plan')) (fp_PlanDigest plan')
  ∧ (plan' = plan ∨ digestPlan plan' = Ok (fp_PlanDigest plan')).
Proof.
  intros Hi Ht. unfold OverrideRepeats. destruct (Z.ltb_spec requested (fp_RepeatCount plan)); [done|].
  destruct (Z.ltb_spec 10 requested); [done|]. destruct (Z.eqb_spec requested (fp_RepeatCount plan)) as [->|Hne].
  { intros [= <-]. split_and!; try lia; [by destruct plan|by left]. }
  assert (∀ z, 0 <= z <= 10 → wrap64 z = z) as Hsmall.
  { intros z Hz. apply wrap64_small. unfold is_int64, int_min, int_max. apply andb_true_intro. split; apply Z.leb_le; lia. }
  rewrite (Hsmall (fp_RepeatCount plan - fp_SuccessThreshold plan)) by lia. rewrite Hsmall by lia. intros Hok. apply bind_Ok in Hok as (d & Hd & [= <-]).
  cbn [fp_RepeatCount fp_SuccessThreshold with_digest with_repeats fp_PlanDigest]. split_and!; try lia; [done|].
  right. rewrite digest_ignored. by destruct (digestPlan _); [injection Hd as ->|].
Qed.

(** ** A plan *)

Definition example_plan (repeats threshold : Z) : FullPlan :=
  {| fp_SchemaVersion := "4"; fp_Source := {| ps_Identity := "local"; ps_Commit := ""; ps_TreeDigest := "sha256:tree" |};
     fp_ManifestDigest := "sha256:manifest"; fp_Scenario := "quickstart"; fp_Environment := "node"; fp_RuntimeAdapter := "node";
     fp_RuntimeVersion := "22.23.1"; fp_BaseImageReference := "node@sha256:image"; fp_BaseImageDigest := "sha256:image";
     fp_Resources := {| rl_CPUMillis := 1000; rl_MemoryBytes := 2 ^ 30; rl_DiskBytes := 2 ^ 30; rl_PIDs := 64 |};
     fp_Inputs := []; fp_AdapterVersions := [("node", "0.1.0")]; fp_ObserverVersions := [("port-listen", "0.3.0")];
     fp_JourneyDriver := "cli"; fp_JourneyDriverVersion := "0.2.0";
     fp_Commands := [{| pcm_Phase := PhaseExercise; pcm_ID := "journey-cli"; pcm_Argv := Some ["node"; "cli.js"]; pcm_Signal := None;
                        pcm_Readiness := None; pcm_Timeout := "1m0s"; pcm_Role := "journey" |}];
     fp_JourneyAssertions :=
       [{| pa_ID := "answers"; pa_ExitCode := None; pa_StdoutContains := ""; pa_StderrContains := ""; pa_StdoutRegex := "";
           pa_StdoutJSONSchema := None; pa_FileExists := "";
           pa_Response := Some {| pra_RequestID := "get"; pra_Status := Some 200; pra_Header := None; pra_BodyContains := None;
                                  pra_JSONPath := Some {| pja_Path := "$.ok"; pja_Equals := "[true]" |}; pra_JSONSchema := None |};
           pa_JSONFile := None |}];
     fp_HTTPJourney := None; fp_Cleanup := {| pcl_ClassifierVersion := "0.1.0"; pcl_AllowedResidue := [] |};
     fp_Evidence := {| pe_Profile := "minimal-public"; pe_Include := Some []; pe_Exclude := Some [] |};
     fp_Capabilities := [(PhaseRun, zero_capabilities)]; fp_RequiredRunnerFeatures := ["linux-container"]; fp_ObserverSet := ["port-listen"];
     fp_RepeatCount := repeats; fp_SuccessThreshold := threshold; fp_PolicyBundleDigest := "sha256:policy"; fp_PlanDigest := "" |}.

Lemma example_plan_raw_wf repeats threshold : plan_raw_wf (example_plan repeats threshold).
Proof.
  split; [|done]. apply Forall_singleton. intros r p [= <-] [= <-]. unfold raw_wf. cbn [pja_Equals]. intros j H. vm_compute in H.
  injection H as <-. reflexivity.
Qed.

Lemma plan_digest_binds_witness :
  ∃ a b, semantic_plan (example_plan 3 3) = Ok a ∧ semantic_plan (with_digest (example_plan 3 3) "sha256:x") = Ok b
    ∧ (digest_collision (encode a) (encode b)
       ∨ (∀ k, member_document (example_plan 3 3) k = member_document (with_digest (example_plan 3 3) "sha256:x") k)
         ∧ 3 = 3 ∧ 3 = 3 ∧ sanitize "quickstart" = sanitize "quickstart").
Proof.
  eapply (plan_digest_binds (example_plan 3 3) (with_digest (example_plan 3 3) "sha256:x"));
    [apply example_plan_raw_wf|exact (example_plan_raw_wf 3 3)|vm_compute; reflexivity|vm_compute; reflexivity].
Defined.

Lemma override_repeats_exact_witness :
  ∃ plan', OverrideRepeats (example_plan 3 2) 5 = Ok plan' ∧ fp_RepeatCount plan' = 5.
Proof.
  eexists. split; [vm_compute; reflexivity|]. eapply (override_repeats_exact (example_plan 3 2) 5); [reflexivity|split; discriminate|vm_compute; reflexivity].
Defined.
