(* ===== verification/PlanContract.v ===== *)
(** * What a plan requires of a scenario (internal/planner/planner.go)

    The checks [Resolve] makes before it builds anything: the executable
    profile, the HTTP execution contract, the evidence profile and the inputs. *)

From S2P Require Import Prelude Json SemanticEqual GoValue Durations CanonicalJson Domain GoPath GoStrings Url HttpContract PlanTypes Manifest ManifestValidate.

Local Open Scope Z_scope.

Definition with_suggestion (e : Error) (suggestion : string) : Error :=
  {| er_SchemaVersion := er_SchemaVersion e; er_Code := er_Code e; er_Phase := er_Phase e; er_Severity := er_Severity e;
     er_Message := er_Message e; er_Details := er_Details e; er_EvidenceRefs := er_EvidenceRefs e; er_Suggestion := suggestion;
     er_Retryable := er_Retryable e; er_Cause := er_Cause e |}.

(** ** [validateHTTPAlphaExecutionContract] *)

Definition has_error {E A} (r : result E A) : bool := match r with Ok _ => false | Err _ => true end.

Section contract.
Variable scenarioName : string.

(** The closure [fail]. *)
Definition contract_error (message field : string) : Error :=
  with_details (NewError CodePlanUnresolved SeverityHigh message) [("scenario", VStr scenarioName); ("field", VStr field)].

Definition bad_url (url : string) (declaredPort : Z) : bool :=
  match ParseAlphaHTTPURL url with Ok (_, port) => negb (port =? declaredPort) | Err _ => true end.

Definition declared_port (scenario : ScenarioSpec) : Z :=
  match elems (pc_Listen (cs_Ports (capability_of scenario PhaseRun))) with [listener] => pb_Port listener | _ => 0 end.

Definition readiness_contract (readiness : option HTTPReadiness) (declaredPort : Z) : result Error unit :=
  let base := "phases.run.service.readiness.http" in
  match readiness with
  | None => Err (contract_error "HTTP execution contract has no readiness probe." base)
  | Some readiness =>
      fail_if bad_url (hr_URL readiness) declaredPort || (declaredPort =? 0)
        with contract_error "HTTP readiness URL must use the canonical declared loopback port." (base +:+ ".url") ;;
      fail_if status_out_of_range (hr_Status readiness)
        with contract_error "HTTP readiness status must be between 200 and 599." (base +:+ ".status") ;;
      fail_if has_error (ParseAlphaHTTPDuration (hr_Timeout readiness) AlphaHTTPMaxReadinessTime)
        with contract_error "HTTP readiness timeout must be a whole-millisecond value between 1ms and 2m." (base +:+ ".timeout") ;;
      Ok tt
  end.

Definition request_contract (declaredPort : Z) (requestFallback field : string) (request : HTTPRequest) : result Error unit :=
  fail_if bad_url (rq_URL request) declaredPort
    with contract_error "HTTP request URL must use the canonical declared loopback port." (field +:+ ".url") ;;
  let requestTimeout := if rq_Timeout request =s "" then requestFallback else rq_Timeout request in
  fail_if has_error (ParseAlphaHTTPDuration requestTimeout AlphaHTTPMaxRequestTime)
    with contract_error "HTTP request timeout must use whole milliseconds." (field +:+ ".timeout") ;;
  fail_if has_error (ValidateAlphaHTTPHeaders (rq_Headers request) (HasJSON request))
    with contract_error "HTTP effective headers exceed the alpha limits." (field +:+ ".headers") ;;
  fail_if HasBody request && HasJSON request with contract_error "HTTP request body and JSON are mutually exclusive." field ;;
  fail_if AlphaHTTPMaxRequestBodyBytes <? zlen (rq_Body request)
    with contract_error "HTTP request body exceeds the 1 MiB byte limit." (field +:+ ".body") ;;
  fail_if HasJSON request
      && match CanonicalJson.Marshal (to_json (rq_JSON request)) with Ok encoded => AlphaHTTPMaxRequestBodyBytes <? zlen encoded | Err _ => true end
    with contract_error "HTTP request JSON exceeds the canonical 1 MiB byte limit." (field +:+ ".json") ;;
  Ok tt.

Definition assertion_contract (field : string) (assertion : DriverAssertion) : result Error unit :=
  fail_if (da_FileExists assertion !=s "") && has_error (ValidateAlphaHTTPOutputPath (da_FileExists assertion))
    with contract_error "HTTP file assertions must remain within bounded normalized /outputs paths." (field +:+ ".fileExists") ;;
  match da_Response assertion with
  | None => Ok tt
  | Some response =>
      fail_if negb (rs_Status response =? 0) && status_out_of_range (rs_Status response)
        with contract_error "HTTP response status must be between 200 and 599." (field +:+ ".response.status") ;;
      fail_if match rs_BodyContains response with Some text => (text =s "") || (AlphaHTTPMaxResponseMatchBytes <? zlen text) | None => false end
        with contract_error "HTTP response bodyContains is empty or exceeds the 1 MiB byte limit." (field +:+ ".response.bodyContains") ;;
      fail_if match rs_Header response with
              | Some header => contains_any newline_set (ha_Contains header) || (AlphaHTTPMaxHeaderValueBytes <? zlen (ha_Contains header))
              | None => false
              end
        with contract_error "HTTP response header match exceeds the alpha limits." (field +:+ ".response.header.contains") ;;
      Ok tt
  end.

Definition step_contract (declaredPort : Z) (requestFallback : string) (index : nat) (step : DriverStep) : result Error unit :=
  let field := "phases.exercise.driver.steps" +:+ index_text index in
  match ds_Request step, ds_Assert step with
  | Some request, _ => request_contract declaredPort requestFallback (field +:+ ".request") request
  | None, Some assertion => assertion_contract (field +:+ ".assert") assertion
  | None, None => Ok tt
  end.

(** The loop over the cleanup steps: the signal found so far, with its index. *)
Fixpoint find_signal (serviceID : string) (index : nat) (steps : list PhaseStep) (found : option (SignalAction * nat))
  : result Error (option (SignalAction * nat)) :=
  match steps with
  | [] => Ok found
  | step :: rest =>
      match st_Signal step with
      | Some signal =>
          if sa_Target signal =s serviceID then
            match found with
            | Some _ => Err (contract_error "HTTP execution contract has more than one service signal." "phases.cleanup.steps")
            | None => find_signal serviceID (S index) rest (Some (signal, index))
            end
          else find_signal serviceID (S index) rest found
      | None => find_signal serviceID (S index) rest found
      end
  end.

Definition signal_contract (serviceID : string) (steps : list PhaseStep) : result Error unit :=
  let! found := find_signal serviceID 0 steps None in
  match found with
  | Some (signal, signalIndex) =>
      fail_if negb (S signalIndex =? length steps)%nat
        with contract_error "HTTP service signal must be the final cleanup step." "phases.cleanup.steps" ;;
      fail_if has_error (ParseAlphaHTTPDuration (sa_GracePeriod signal) AlphaHTTPMaxSignalGrace)
        with contract_error "HTTP service signal gracePeriod is required and must be a whole-millisecond value between 1ms and 10s."
               ("phases.cleanup.steps" +:+ index_text signalIndex +:+ ".signal.gracePeriod") ;;
      Ok tt
  | None => Err (contract_error "HTTP service signal must be the final cleanup step." "phases.cleanup.steps")
  end.

Definition requests_of (steps : list DriverStep) : list HTTPRequest := omap ds_Request steps.
Definition http_service (phases : PhaseSet) : option ServiceSpec := match ph_Run phases with Some run => rn_Service run | None => None end.

Definition validateHTTPAlphaExecutionContract (scenario : ScenarioSpec) : result Error unit :=
  match ph_Exercise (sn_Phases scenario) with
  | Some exercise =>
      if dv_Type (ex_Driver exercise) !=s "http" then Ok tt
      else
        let steps := dv_Steps (ex_Driver exercise) in
        fail_if AlphaHTTPMaxJourneySteps <? Z.of_nat (length steps)
          with contract_error "HTTP execution contract exceeds 128 ordered steps." "phases.exercise.driver.steps" ;;
        match http_service (sn_Phases scenario), ph_Cleanup (sn_Phases scenario) with
        | Some service, Some cleanup =>
            let declaredPort := declared_port scenario in
            let! _ := readiness_contract (rd_HTTP (sv_Readiness service)) declaredPort in
            let requestFallback := if ex_Timeout exercise =s "" then Duration_String Minute else ex_Timeout exercise in
            fail_if has_error (ParseAlphaHTTPDuration requestFallback AlphaHTTPMaxRequestTime)
              with contract_error "HTTP request timeout fallback must use whole milliseconds." "phases.exercise.timeout" ;;
            let! _ := check_each (step_contract declaredPort requestFallback) steps in
            fail_if AlphaHTTPMaxRequestSteps <? Z.of_nat (length (requests_of steps))
              with contract_error "HTTP execution contract exceeds 32 request steps." "phases.exercise.driver.steps" ;;
            signal_contract (sv_ID service) (cp_Steps cleanup)
        | _, _ => Err (contract_error "HTTP execution contract has no service cleanup signal." "phases.cleanup.steps")
        end
  | None => Ok tt
  end.

(** ** [validateExecutableProfile] *)

Definition feature_error (message : string) (details : list (string * any)) : Error :=
  with_details (NewError CodeRunnerFeatureUnavailable SeverityHigh message) (("scenario", VStr scenarioName) :: details).

Definition input_executable (_ : nat) (entry : string * InputSpec) : result Error unit :=
  let '(inputName, input) := entry in
  fail_if path_input input && is_some (in_Choices input)
    with feature_error "Input choices are recognized but unavailable for executable file and directory inputs."
           [("input", VStr inputName); ("feature", VStr "executable-input-choices");
            ("choiceCount", VInt (Z.of_nat (length (elems (in_Choices input)))))] ;;
  fail_if negb (in_Required input)
    with feature_error "Optional inputs are recognized but unavailable in the v0.1 local runner."
           [("input", VStr inputName); ("feature", VStr "optional-input")] ;;
  Ok tt.

Definition optional_assertion (a : DriverAssertion) : bool := match da_Required a with Some false => true | _ => false end.
Definition http_assertion_executable (_ : nat) (step : DriverStep) : result Error unit :=
  match ds_Assert step with
  | Some a =>
      fail_if optional_assertion a
        with feature_error "Optional HTTP assertions are recognized but unavailable in the alpha runner."
               [("assertion", VStr (da_ID a)); ("feature", VStr "optional-http-assertion")] ;;
      Ok tt
  | None => Ok tt
  end.
Definition cli_assertion_executable (_ : nat) (a : DriverAssertion) : result Error unit :=
  fail_if optional_assertion a
    with feature_error "Optional CLI assertions are recognized but unavailable in the v0.1 local runner."
           [("assertion", VStr (da_ID a)); ("feature", VStr "optional-cli-assertion")] ;;
  fail_if is_some (da_JSONFile a) || is_some (da_Response a)
    with feature_error "Schema-backed CLI assertions are recognized but unavailable in the v0.1 local runner."
           [("assertion", VStr (da_ID a)); ("feature", VStr "schema-backed-cli-assertion")] ;;
  Ok tt.

Definition validateExecutableProfile (scenario : ScenarioSpec) : result Error unit :=
  let! _ := check_each input_executable (sn_Inputs scenario) in
  match ph_Exercise (sn_Phases scenario) with
  | None => Ok tt
  | Some exercise =>
      let driver := ex_Driver exercise in
      if dv_Type driver =s "http" then
        let! _ := validateHTTPAlphaExecutionContract scenario in
        check_each http_assertion_executable (dv_Steps driver)
      else if dv_Type driver !=s "cli" then Ok tt
      else
        fail_if dv_StdinFixture driver !=s ""
          with feature_error "CLI stdin fixtures are recognized by the public schema but unavailable in the v0.1 local runner."
                 [("feature", VStr "cli-stdin-fixture")] ;;
        check_each cli_assertion_executable (dv_Assertions driver)
  end.
End contract.

(** ** [validateEvidenceProfile] *)

(** [counts] is a map from a text to the times it occurs. *)
Fixpoint count_values (values : list string) (counts : gmap string Z) : gmap string Z :=
  match values with
  | [] => counts
  | value :: rest => count_values rest (<[value := default 0 (counts !! value) + 1]> counts)
  end.
Fixpoint remove_values (values : list string) (counts : gmap string Z) : option (gmap string Z) :=
  match values with
  | [] => Some counts
  | value :: rest => if default 0 (counts !! value) =? 1 then remove_values rest (delete value counts) else None
  end.
Definition exactStringSet (actual expected : list string) : bool :=
  (length actual =? length expected)%nat
  && match remove_values expected (count_values actual ∅) with Some counts => bool_decide (counts = ∅) | None => false end.

Definition expectedInclude : list string := ["normalized-observations"; "verification-summary"].
Definition expectedSBOMInclude : list string := ["normalized-observations"; "sbom"; "verification-summary"].
Definition expectedExclude : list string := ["raw-stderr"; "raw-stdout"; "raw-syscall-trace"].
Definition texts_value (s : slice string) : any := match s with Some l => VArr (List.map VStr l) | None => VNil end.

Definition validateEvidenceProfile (evidence : EvidenceSpec) : result Error unit :=
  if (ev_Profile evidence =s "minimal-public")
     && (exactStringSet (elems (ev_Include evidence)) expectedInclude || exactStringSet (elems (ev_Include evidence)) expectedSBOMInclude)
     && exactStringSet (elems (ev_Exclude evidence)) expectedExclude
  then Ok tt
  else Err (with_details
    (NewError CodeRunnerFeatureUnavailable SeverityHigh
       "Custom evidence profiles and attachment selection are recognized but unavailable in the v0.1 local runner.")
    [("feature", VStr "evidence-profile-selection"); ("profile", VStr (ev_Profile evidence)); ("include", texts_value (ev_Include evidence));
     ("exclude", texts_value (ev_Exclude evidence)); ("supportedProfile", VStr "minimal-public");
     ("supportedInclude", VArr [texts_value (Some expectedInclude); texts_value (Some expectedSBOMInclude)]);
     ("supportedExclude", texts_value (Some expectedExclude))]).

(** ** [validateResolvedInputs] *)

(** [strings.ReplaceAll(s, "\\", "/")]. *)
Definition forward_slash (c : ascii) : ascii := if Ascii.eqb c backslash then "/"%char else c.
Definition normal_fixture (fixture : string) : string := trim_prefix "./" (string_map forward_slash fixture).

Definition mount_path (name : string) (input : InputSpec) : string :=
  if mt_Path (in_Mount input) =s "" then "/inputs/" +:+ name else mt_Path (in_Mount input).
Definition overlapping (mountPath existingMount : string) : bool :=
  (mountPath =s existingMount) || has_prefix (trim_suffix "/" existingMount +:+ "/") mountPath
  || has_prefix (trim_suffix "/" mountPath +:+ "/") existingMount.
Definition fixture_found (files : list string) (input : InputSpec) : bool :=
  let fixture := normal_fixture (in_Fixture input) in
  if in_Type input =s "file" then one_of fixture files
  else existsb (has_prefix (trim_suffix "/" fixture +:+ "/")) files.

(** [mounts] maps the paths seen to the names of their inputs. *)
Fixpoint resolve_inputs (files : list string) (inputs : list (string * InputSpec)) (mounts : list (string * string)) : result Error unit :=
  match inputs with
  | [] => Ok tt
  | (name, input) :: rest =>
      fail_if (in_Type input !=s "file") && (in_Type input !=s "directory")
        with with_details
               (NewError CodeRunnerFeatureUnavailable SeverityHigh "The v0.1 local plan resolver supports only file and directory inputs.")
               [("input", VStr name); ("type", VStr (in_Type input))] ;;
      fail_if negb (fixture_found files input)
        with with_details (NewError CodeSourceNotFound SeverityHigh "Declared verification fixture was not found in the source snapshot.")
               [("input", VStr name); ("fixture", VStr (normal_fixture (in_Fixture input)))] ;;
      let mountPath := mount_path name input in
      match List.filter (λ m, overlapping mountPath m.1) mounts with
      | (existingMount, previous) :: _ =>
          Err (with_details (NewError CodePlanUnresolved SeverityHigh "Two inputs resolve to overlapping sandbox mount paths.")
            [("first", VStr previous); ("second", VStr name); ("firstMountPath", VStr existingMount); ("secondMountPath", VStr mountPath)])
      | [] => resolve_inputs files rest (assoc_set mountPath name mounts)
      end
  end.
Definition validateResolvedInputs (snapshot : SourceSnapshot) (scenario : ScenarioSpec) : result Error unit :=
  resolve_inputs (List.map fe_Path (ss_Inventory snapshot)) (sn_Inputs scenario) [].
