(* ===== verification/Planner.v ===== *)
(** * Resolving a plan (internal/planner/planner.go)

    [Resolve] on a validated manifest, a source snapshot and a scenario's name.
    It is a task: only the schemas of assertions are read from the host. *)

From S2P Require Import Prelude Json SemanticEqual StructuredJson JsonStrings GoValue Durations CanonicalJson JsonUnmarshal GoStruct Domain GoPath GoStrings HttpContract PlanTypes Manifest ManifestValidate SchemaPolicy SchemaInstance RuntimePolicy SchemaFeatures SchemaSource PlanDocument PlanContract.

Local Open Scope Z_scope.

Definition NodeAdapterVersion := "0.1.0".
Definition PythonAdapterVersion := "0.1.0".
Definition ObserverVersion := "0.1.0".
Definition FilesystemObserverVersion := "0.6.0".
Definition ResourceObserverVersion := "0.2.0".
Definition PortObserverVersion := "0.3.0".
Definition CLIJourneyDriverVersion := "0.2.0".
Definition HTTPJourneyDriverVersion := "0.1.0".
Definition ResolvedPlanSchemaVersion := "4".
Definition CleanupClassifierVersion := "0.1.0".

Definition JourneyDriverVersion (driver : string) : string :=
  if driver =s "cli" then CLIJourneyDriverVersion else if driver =s "http" then HTTPJourneyDriverVersion else "".

(** ** Normal forms *)

Definition normalizedTimeout (value : string) (fallback : Z) : string :=
  if value =s "" then Duration_String fallback
  else match ParseDuration value with Some duration => Duration_String duration | None => Duration_String fallback end.

Definition set_all {A} (l : list (string * A)) (acc : list (string * A)) : list (string * A) :=
  foldl (λ acc p, assoc_set p.1 p.2 acc) acc l.
Definition mergeDetails (left right : list (string * any)) : list (string * any) := set_all right (set_all left []).
Definition normalizedHTTPHeaders (headers : list (string * string)) : list (string * string) :=
  set_all (List.map (λ p, (to_lower p.1, p.2)) headers) [].

Definition sort_texts (l : list string) : list string := (sort_keys (List.map (λ s, (s, tt)) l)).*1.
Definition sortedUnique (values : list string) : list string := sort_texts (remove_dups (List.filter (λ s, s !=s "") values)).
Definition sorted_slice (values : slice string) : slice string := Some (sortedUnique (elems values)).

Definition stringValue (o : option string) : string := default "" o.

(** A text [ParseFloat] refuses, an amount over the range of an int64 and a NaN
    are refused by [validCPU] before; the language does not say what the last
    two convert to. *)
Definition float_positive (f : float64) : bool := match f with FNaN => true | _ => int_lt_float 0 f end.
Definition cpu_amount (value : any) : float64 :=
  match value with
  | VInt z | VUint z => int_to_float z
  | VFloat f => f
  | VStr s => default (FFin false 0 0) (ParseFloat s)
  | _ => FFin false 0 0
  end.
Definition parseCPU (value : any) : Z :=
  let amount := cpu_amount value in
  if float_positive amount then float_to_int (float_mul amount (int_to_float 1000)) else 1000.

Definition size_units : list (string * Z) := [("KiB", 2 ^ 10); ("MiB", 2 ^ 20); ("GiB", 2 ^ 30)].
(** A text ends in at most one of the units, so their order is free. *)
Fixpoint parse_size (units : list (string * Z)) (value : string) : Z :=
  match units with
  | [] => 0
  | (suffix, multiplier) :: rest =>
      if has_suffix suffix value then
        match parse_int 64 (trim_suffix suffix value) with
        | Some number => if 0 <? number then wrap64 (number * multiplier) else parse_size rest value
        | None => parse_size rest value
        end
      else parse_size rest value
  end.
Definition parseSize (value : string) : Z := parse_size size_units value.

(** ** Capabilities *)

(** [fmt.Sprintf("%s:%05d", host, port)]. *)
Definition address_text (host : string) (port : Z) : string :=
  host +:+ ":" +:+ (if port <? 0 then "-" +:+ pad 4 (- port) else pad 5 port).
Definition by_address {A} (host : A → string) (port : A → Z) (l : list A) : list A :=
  (sort_keys (List.map (λ x, (address_text (host x) (port x), x)) l)).*2.

Definition with_tcp (binding : PortBinding) : PortBinding :=
  if pb_Protocol binding =s "" then {| pb_Host := pb_Host binding; pb_Port := pb_Port binding; pb_Protocol := "tcp" |} else binding.

Definition undeclared_capabilities : CapabilitySet :=
  {| cs_Network := {| nc_Deny := true; nc_Allow := None |}; cs_Filesystem := cs_Filesystem zero_capabilities;
     cs_Ports := cs_Ports zero_capabilities; cs_Process := cs_Process zero_capabilities; cs_Environment := None; cs_Secrets := None;
     cs_Resources := None; cs_Devices := None; cs_HostIntegration := None |}.

(** Destinations of one address keep their order, as [sort.Slice] keeps it up
    to twelve of them.  The sort and the protocol are also written into the
    arrays of the manifest, which [Resolve] does not read again. *)
Definition normal_capability (http_run : bool) (c : CapabilitySet) : CapabilitySet :=
  let fs := cs_Filesystem c in
  let process := cs_Process c in
  let listeners := option_map (by_address pb_Host pb_Port) (pc_Listen (cs_Ports c)) in
  {| cs_Network := {| nc_Deny := nc_Deny (cs_Network c); nc_Allow := option_map (by_address nd_Host nd_Port) (nc_Allow (cs_Network c)) |};
     cs_Filesystem :=
       {| fc_Read := sorted_slice (fc_Read fs); fc_Write := sorted_slice (fc_Write fs); fc_Create := fc_Create fs; fc_Delete := fc_Delete fs;
          fc_Rename := fc_Rename fs; fc_Chmod := fc_Chmod fs; fc_Symlink := fc_Symlink fs |};
     cs_Ports := {| pc_Listen := if http_run then option_map (List.map with_tcp) listeners else listeners |};
     cs_Process :=
       {| pr_Exec := sorted_slice (pr_Exec process); pr_Background := pr_Background process; pr_ChildProcesses := pr_ChildProcesses process;
          pr_Shell := pr_Shell process; pr_BackgroundProcesses := pr_BackgroundProcesses process |};
     cs_Environment := cs_Environment c; cs_Secrets := cs_Secrets c; cs_Resources := cs_Resources c; cs_Devices := cs_Devices c;
     cs_HostIntegration := cs_HostIntegration c |}.

Definition http_driver (phases : PhaseSet) : bool :=
  match ph_Exercise phases with Some exercise => dv_Type (ex_Driver exercise) =s "http" | None => false end.
Definition resolvedCapabilities (scenario : ScenarioSpec) : list (string * CapabilitySet) :=
  List.map
    (λ phase, (phase, normal_capability (http_driver (sn_Phases scenario) && (phase =s PhaseRun))
                        (default undeclared_capabilities (assoc phase (sn_Capabilities scenario)))))
    OrderedPhases.

(** ** Inputs and observers *)

Definition plan_input (entry : string * InputSpec) : PlanInput :=
  let '(name, input) := entry in
  {| pin_Name := name; pin_Type := in_Type input; pin_Fixture := in_Fixture input; pin_MountPath := mount_path name input;
     pin_ReadOnly := mt_ReadOnly (in_Mount input) |}.
Definition resolvedInputs (scenario : ScenarioSpec) : list PlanInput := List.map plan_input (sort_keys (sn_Inputs scenario)).

Definition observer_version (observer : string) : string :=
  if observer =s "filesystem-write" then FilesystemObserverVersion
  else if observer =s "resource-usage" then ResourceObserverVersion
  else if observer =s "port-listen" then PortObserverVersion
  else ObserverVersion.
Definition resolvedObserverVersions (observers : list string) : list (string * string) :=
  set_all (List.map (λ observer, (observer, observer_version observer)) observers) [].

(** ** Commands *)

Definition foreground (phase timeout : string) (step : PhaseStep) (argv : list string) : PlanCommand :=
  {| pcm_Phase := phase; pcm_ID := st_ID step; pcm_Argv := Some argv; pcm_Signal := None; pcm_Readiness := None; pcm_Timeout := timeout;
     pcm_Role := "foreground" |}.
Definition signal_command (phase timeout : string) (step : PhaseStep) (signal : SignalAction) : PlanCommand :=
  {| pcm_Phase := phase; pcm_ID := st_ID step; pcm_Argv := None;
     pcm_Signal := Some {| psg_Target := sa_Target signal; psg_Type := sa_Type signal; psg_GracePeriod := sa_GracePeriod signal |};
     pcm_Readiness := None; pcm_Timeout := timeout; pcm_Role := "signal" |}.
Definition signal_step (phase timeout : string) (step : PhaseStep) : list PlanCommand :=
  match st_Signal step with Some signal => [signal_command phase timeout step signal] | None => [] end.
Definition step_commands (phase timeout : string) (step : PhaseStep) : list PlanCommand :=
  match st_Run step with
  | Some run => if is_empty (ra_Command run) then signal_step phase timeout step else [foreground phase timeout step (ra_Command run)]
  | None => signal_step phase timeout step
  end.

(** The closure [appendCommandPhase]. *)
Definition command_phase (phase : string) (value : option CommandPhase) (fallback : Z) : list PlanCommand :=
  match value with
  | None => []
  | Some value => flat_map (step_commands phase (normalizedTimeout (cp_Timeout value) fallback)) (cp_Steps value)
  end.

Definition plan_readiness (readiness : HTTPReadiness) : PlanHTTPReadiness :=
  {| prd_URL := hr_URL readiness; prd_Status := hr_Status readiness; prd_Timeout := normalizedTimeout (hr_Timeout readiness) (30 * Second) |}.
Definition service_command (timeout : string) (service : ServiceSpec) : PlanCommand :=
  {| pcm_Phase := PhaseRun; pcm_ID := sv_ID service; pcm_Argv := Some (sv_Command service); pcm_Signal := None;
     pcm_Readiness := option_map plan_readiness (rd_HTTP (sv_Readiness service)); pcm_Timeout := timeout; pcm_Role := "service" |}.
Definition run_commands (run : option RunPhase) : list PlanCommand :=
  match run with
  | None => []
  | Some run =>
      let timeout := normalizedTimeout (rn_Timeout run) (2 * Minute) in
      flat_map (step_commands PhaseRun timeout) (rn_Steps run)
      ++ match rn_Service run with Some service => [service_command timeout service] | None => [] end
  end.
Definition journey_command (exercise : option ExercisePhase) : list PlanCommand :=
  match exercise with
  | None => []
  | Some exercise =>
      if is_empty (dv_Command (ex_Driver exercise)) then []
      else [{| pcm_Phase := PhaseExercise; pcm_ID := "journey-cli"; pcm_Argv := Some (dv_Command (ex_Driver exercise)); pcm_Signal := None;
               pcm_Readiness := None; pcm_Timeout := normalizedTimeout (ex_Timeout exercise) Minute; pcm_Role := "journey" |}]
  end.
Definition resolvedCommands (scenario : ScenarioSpec) : list PlanCommand :=
  let phases := sn_Phases scenario in
  command_phase PhasePrepare (ph_Prepare phases) (2 * Minute) ++ command_phase PhaseSetup (ph_Setup phases) (5 * Minute)
  ++ command_phase PhaseBuild (ph_Build phases) (5 * Minute) ++ run_commands (ph_Run phases) ++ journey_command (ph_Exercise phases)
  ++ command_phase PhaseCleanup (ph_Cleanup phases) (30 * Second).

(** ** The HTTP journey *)

Definition plan_request (fallback : Z) (request : HTTPRequest) : result string PlanHTTPRequest :=
  let resolved body json :=
    {| prq_ID := rq_ID request; prq_Method := rq_Method request; prq_URL := rq_URL request;
       prq_Headers := normalizedHTTPHeaders (rq_Headers request); prq_Body := body; prq_JSON := json;
       prq_Timeout := normalizedTimeout (rq_Timeout request) fallback |} in
  let body := if HasBody request then Some (rq_Body request) else None in
  if HasJSON request then let! encoded := Marshal (to_json (rq_JSON request)) in Ok (resolved body (Some encoded))
  else Ok (resolved body None).

Definition plan_step (fallback : Z) (step : DriverStep) : result string PlanHTTPDriverStep :=
  match ds_Request step, ds_Assert step with
  | Some request, _ => let! resolved := plan_request fallback request in Ok {| pds_Request := Some resolved; pds_AssertionID := "" |}
  | None, Some assertion => Ok {| pds_Request := None; pds_AssertionID := da_ID assertion |}
  | None, None => Err "HTTP journey contains an empty driver step"
  end.

Definition request_fallback (exercise : ExercisePhase) : Z :=
  match ParseDuration (ex_Timeout exercise) with Some duration => if duration <=? 0 then Minute else duration | None => Minute end.

Definition resolvedHTTPJourney (scenario : ScenarioSpec) : result string (option PlanHTTPJourney) :=
  match ph_Exercise (sn_Phases scenario) with
  | Some exercise =>
      if dv_Type (ex_Driver exercise) !=s "http" then Ok None
      else
        let! service := of_option "HTTP journey has no resolved service" (http_service (sn_Phases scenario)) in
        let! steps := bind_all (plan_step (request_fallback exercise)) (dv_Steps (ex_Driver exercise)) in
        Ok (Some {| phj_ServiceID := sv_ID service; phj_Steps := steps |})
  | None => Ok None
  end.

(** ** Assertions *)

Section planner.
Context `{RegexpSyntax} `{Host} `{SchemaCompiler}.

Section assertions.
Variable snapshot : SourceSnapshot.

(** The path assertion of a response; [Decode] returns ([Decode_total]). *)
Definition plan_path (a : JSONPathAssertion) : result Error PlanJSONPathAssertion :=
  let! equals := map_err (λ cause, WrapError CodePlanUnresolved SeverityHigh "HTTP JSONPath equality value could not be canonicalized." cause)
                   (Marshal (to_json (jp_Equals a))) in
  let outside cause := WrapError CodePlanUnresolved SeverityHigh "HTTP JSONPath equality value is outside the bounded strict JSON profile." cause in
  match Decode equals DefaultInstanceDecodeLimits with
  | Some (Ok _) => Ok {| pja_Path := jp_Path a; pja_Equals := equals |}
  | Some (Err e) => Err (outside (kind_message e))
  | None => Err (outside "")
  end.
Definition plan_path_option (o : option JSONPathAssertion) : result Error (option PlanJSONPathAssertion) :=
  match o with Some a => let! p := plan_path a in Ok (Some p) | None => Ok None end.

Definition schema_option (cache : schema_cache) (path : string) : task (option PlanJSONSchemaRef * schema_cache) :=
  if path =s "" then finish (None, cache)
  else task! (schema, cache) := resolve snapshot cache path in finish (Some schema, cache).

Definition plan_header (h : HeaderAssertion) : PlanHTTPHeaderAssertion := {| pha_Name := ha_Name h; pha_Contains := ha_Contains h |}.
Definition plan_response (cache : schema_cache) (response : ResponseAssertion) : task (PlanHTTPResponseAssertion * schema_cache) :=
  task! jsonPath := lift (plan_path_option (rs_JSONPath response)) in
  task! (jsonSchema, cache) := schema_option cache (rs_JSONSchema response) in
  finish ({| pra_RequestID := rs_RequestID response; pra_Status := if rs_Status response =? 0 then None else Some (rs_Status response);
             pra_Header := option_map plan_header (rs_Header response); pra_BodyContains := rs_BodyContains response;
             pra_JSONPath := jsonPath; pra_JSONSchema := jsonSchema |}, cache).
Definition plan_response_option (cache : schema_cache) (o : option ResponseAssertion) : task (option PlanHTTPResponseAssertion * schema_cache) :=
  match o with
  | Some response => task! (resolved, cache) := plan_response cache response in finish (Some resolved, cache)
  | None => finish (None, cache)
  end.
Definition plan_file (cache : schema_cache) (o : option JSONFileAssertion) : task (option PlanJSONFileAssertion * schema_cache) :=
  match o with
  | Some file =>
      task! (schema, cache) := resolve snapshot cache (jf_Schema file) in
      finish (Some {| pjf_Path := jf_Path file; pjf_Schema := schema |}, cache)
  | None => finish (None, cache)
  end.

Definition http_assertion (cache : schema_cache) (assertion : DriverAssertion) : task (PlanAssertion * schema_cache) :=
  task! (response, cache) := plan_response_option cache (da_Response assertion) in
  task! (file, cache) := plan_file cache (da_JSONFile assertion) in
  finish ({| pa_ID := da_ID assertion; pa_ExitCode := None; pa_StdoutContains := ""; pa_StderrContains := ""; pa_StdoutRegex := "";
             pa_StdoutJSONSchema := None; pa_FileExists := da_FileExists assertion; pa_Response := response; pa_JSONFile := file |}, cache).
Definition cli_assertion (index : nat) (cache : schema_cache) (assertion : DriverAssertion) : task (PlanAssertion * schema_cache) :=
  let id := if da_ID assertion =s "" then "assertion-" +:+ dec_Z (Z.of_nat (S index)) else da_ID assertion in
  task! (schema, cache) := schema_option cache (da_StdoutJSONSchema assertion) in
  finish ({| pa_ID := id; pa_ExitCode := da_ExitCode assertion; pa_StdoutContains := stringValue (da_StdoutContains assertion);
             pa_StderrContains := stringValue (da_StderrContains assertion); pa_StdoutRegex := stringValue (da_StdoutRegex assertion);
             pa_StdoutJSONSchema := schema; pa_FileExists := da_FileExists assertion; pa_Response := None; pa_JSONFile := None |}, cache).

Fixpoint resolve_each {A} (f : nat → schema_cache → A → task (PlanAssertion * schema_cache)) (index : nat) (cache : schema_cache) (l : list A)
  : task (list PlanAssertion) :=
  match l with
  | [] => finish []
  | x :: rest =>
      task! (resolved, cache) := f index cache x in
      task! more := resolve_each f (S index) cache rest in
      finish (resolved :: more)
  end.

Definition asserted_steps (steps : list DriverStep) : list DriverAssertion := omap ds_Assert steps.
Definition resolvedAssertions (scenario : ScenarioSpec) : task (list PlanAssertion) :=
  match ph_Exercise (sn_Phases scenario) with
  | None => finish []
  | Some exercise =>
      if dv_Type (ex_Driver exercise) =s "http" then resolve_each (λ _, http_assertion) 0 [] (asserted_steps (dv_Steps (ex_Driver exercise)))
      else resolve_each cli_assertion 0 [] (dv_Assertions (ex_Driver exercise))
  end.
End assertions.

(** ** [Resolve] *)

Definition policy_document : doc :=
  Ok (JObj [("id", JStr "baseline-v1"); ("version", JStr "1");
    ("rules", JArr (List.map JStr ["runtime-network-deny"; "read-only-source"; "no-host-secrets"; "required-observer-coverage";
                                   "resource-limit-enforcement"]));
    ("runtimePolicy", Binding)]).

Definition image_digest (reference : string) : string := match cut_last "@"%char reference with Some (_, digest) => digest | None => reference end.

Definition always_observed : list string := ["filesystem-write"; "network-enforcement"; "port-listen"; "process-exec"].
Definition plan_observers (scenario : ScenarioSpec) : list string :=
  sortedUnique (vs_RequiredObservers (sn_Verification scenario) ++ always_observed).

Definition allowlist_features (capabilities : list (string * CapabilitySet)) : list string :=
  flat_map (λ p, when (negb (is_empty (elems (nc_Allow (cs_Network p.2))))) ["network-allowlist:" +:+ p.1]) capabilities.
Definition plan_features (architecture : string) (observers : list string) (capabilities : list (string * CapabilitySet)) (http : bool) : list string :=
  sortedUnique
    (["linux-container"; "platform:linux/" +:+ architecture; "read-only-source"; "isolated-workspace"; "network-deny"; "bounded-logs";
      "process-cleanup"; "cleanup-residue-classification"]
     ++ List.map (λ observer, "observer:" +:+ observer) observers ++ allowlist_features capabilities
     ++ when http ["background-service"; "loopback-http-driver"; "service-signal"]).

(** What [Validate] requires: an exercise ([PlannerSafety.resolve_driver]). *)
Definition driver_type (scenario : ScenarioSpec) : string :=
  match ph_Exercise (sn_Phases scenario) with Some exercise => dv_Type (ex_Driver exercise) | None => "" end.

(** The lookup of an absent environment. *)
Definition zero_environment : EnvironmentSpec :=
  {| en_Platform := {| pl_OS := ""; pl_Architecture := "" |}; en_Runtime := {| rt_Adapter := ""; rt_Version := "" |};
     en_BaseImage := {| bi_Reference := "" |};
     en_Resources := {| rs_CPU := VNil; rs_Memory := ""; rs_Disk := ""; rs_PIDs := 0; rs_Time := ""; rs_LogBytes := None |};
     en_RequiredServices := None; en_RequiredRunnerFeatures := None |}.

Section resolve_plan.
Variables (doc : Document) (spec : Spec) (snapshot : SourceSnapshot) (scenarioName : string).

(** The checks before anything is resolved, in the order of the code. *)
Definition plan_admitted (scenario : ScenarioSpec) (environment : EnvironmentSpec) : result Error unit :=
  let! _ := validateExecutableProfile scenarioName scenario in
  let! _ := validateEvidenceProfile (sp_Evidence spec) in
  let! _ := validateSchemaExecutionFeatures scenarioName environment scenario in
  fail_if negb (is_empty (sn_Secrets scenario))
    with with_details (NewError CodeRunnerFeatureUnavailable SeverityHigh
                         "Synthetic secret injection is recognized but not implemented by the v0.1 local runner.")
           [("scenario", VStr scenarioName); ("secretCount", VInt (Z.of_nat (length (sn_Secrets scenario))))] ;;
  let! _ := validateResolvedInputs snapshot scenario in
  let reference := bi_Reference (en_BaseImage environment) in
  fail_if negb (IsPinnedImage reference)
    with with_suggestion
           (with_details (NewError CodeMutableBaseImage SeverityHigh "Plan requires a digest-pinned base image.") [("reference", VStr reference)])
           "Replace the mutable tag with registry/repository@sha256:<64 hex>." ;;
  let version := rt_Version (en_Runtime environment) in
  fail_if negb (IsExactRuntimeVersion version)
    with with_suggestion
           (with_details (NewError CodeRuntimeVersionUnresolved SeverityHigh "Plan requires an exact runtime version.") [("version", VStr version)])
           "Resolve the version range to an exact version before planning." ;;
  let! _ := map_err (λ e, with_details e (set_all [("scenario", VStr scenarioName); ("environment", VStr (sn_Environment scenario))] (er_Details e)))
              (RuntimePolicy.Validate (rt_Adapter (en_Runtime environment)) version reference (image_digest reference)
                 ("linux/" +:+ pl_Architecture (en_Platform environment))) in
  let profile := po_Profile (sp_Policies spec) in
  fail_if profile !=s "baseline-v1"
    with with_details (NewError CodePolicyBundleUnresolved SeverityHigh "Only the built-in baseline-v1 policy is pinned in this release.")
           [("profile", VStr profile)] ;;
  Ok tt.

(** The plan without its digest. *)
Definition resolved_plan (scenario : ScenarioSpec) (environment : EnvironmentSpec) (policyDigest : string) (journey : option PlanHTTPJourney)
    (assertions : list PlanAssertion) : FullPlan :=
  let capabilities := resolvedCapabilities scenario in
  let observers := plan_observers scenario in
  let adapter := rt_Adapter (en_Runtime environment) in
  let reference := bi_Reference (en_BaseImage environment) in
  {| fp_SchemaVersion := ResolvedPlanSchemaVersion;
     fp_Source := {| ps_Identity := ss_Identity snapshot; ps_Commit := ss_Commit snapshot; ps_TreeDigest := ss_TreeDigest snapshot |};
     fp_ManifestDigest := dc_Digest doc; fp_Scenario := scenarioName; fp_Environment := sn_Environment scenario; fp_RuntimeAdapter := adapter;
     fp_RuntimeVersion := rt_Version (en_Runtime environment); fp_BaseImageReference := reference; fp_BaseImageDigest := image_digest reference;
     fp_Resources :=
       {| rl_CPUMillis := parseCPU (rs_CPU (en_Resources environment)); rl_MemoryBytes := parseSize (rs_Memory (en_Resources environment));
          rl_DiskBytes := parseSize (rs_Disk (en_Resources environment)); rl_PIDs := rs_PIDs (en_Resources environment) |};
     fp_Inputs := resolvedInputs scenario;
     fp_AdapterVersions := [(adapter, if adapter =s "python" then PythonAdapterVersion else NodeAdapterVersion)];
     fp_ObserverVersions := resolvedObserverVersions observers; fp_JourneyDriver := driver_type scenario;
     fp_JourneyDriverVersion := JourneyDriverVersion (driver_type scenario); fp_Commands := resolvedCommands scenario;
     fp_JourneyAssertions := assertions; fp_HTTPJourney := journey;
     fp_Cleanup := {| pcl_ClassifierVersion := CleanupClassifierVersion;
                      pcl_AllowedResidue := cl_AllowedResidue (vs_Cleanup (sn_Verification scenario)) |};
     fp_Evidence := {| pe_Profile := ev_Profile (sp_Evidence spec); pe_Include := sorted_slice (ev_Include (sp_Evidence spec));
                       pe_Exclude := sorted_slice (ev_Exclude (sp_Evidence spec)) |};
     fp_Capabilities := capabilities;
     fp_RequiredRunnerFeatures := plan_features (pl_Architecture (en_Platform environment)) observers capabilities (is_some journey);
     fp_ObserverSet := observers; fp_RepeatCount := vs_Repeats (sn_Verification scenario);
     fp_SuccessThreshold := vs_SuccessThreshold (sn_Verification scenario); fp_PolicyBundleDigest := policyDigest; fp_PlanDigest := "" |}.

(** [Resolve] from the policy digest on. *)
Definition build_plan (scenario : ScenarioSpec) (environment : EnvironmentSpec) : task FullPlan :=
  let failed code message cause := WrapError code SeverityHigh message cause in
  task! policyDigest := lift (map_err (failed CodePolicyBundleUnresolved "Policy bundle could not be canonicalized.") (Digest policy_document)) in
  task! journey := lift (map_err (failed CodePlanUnresolved "HTTP journey could not be materialized.") (resolvedHTTPJourney scenario)) in
  task! assertions := resolvedAssertions snapshot scenario in
  let plan := resolved_plan scenario environment policyDigest journey assertions in
  task! digest := lift (map_err (failed CodePlanUnresolved "Plan digest could not be computed.") (digestPlan plan)) in
  finish (PlanDocument.with_digest plan digest).

Definition resolve_scenario : task FullPlan :=
  match assoc scenarioName (sp_Scenarios spec) with
  | None => stop (with_details (NewError CodePlanUnresolved SeverityHigh "Requested scenario was not found.") [("scenario", VStr scenarioName)])
  | Some scenario =>
      let environment := default zero_environment (assoc (sn_Environment scenario) (sp_Environments spec)) in
      task! _ := lift (plan_admitted scenario environment) in
      build_plan scenario environment
  end.
End resolve_plan.

(** A document without a manifest has an issue, so the last case is not reached. *)
Definition Resolve (doc : Document) (snapshot : SourceSnapshot) (scenarioName : string) : task FullPlan :=
  match ManifestValidate.Validate doc, dc_Manifest doc with
  | first :: _ as validationErrors, _ =>
      stop (with_details first (mergeDetails (er_Details first) [("validationErrorCount", VInt (Z.of_nat (length validationErrors)))]))
  | [], Some m => resolve_scenario doc (mf_Spec m) snapshot scenarioName
  | [], None => stop (NewError CodeManifestInvalid SeverityHigh "Manifest is empty.")
  end.
End planner.

Example normal_forms :
  (normalizedTimeout "90s" Minute, normalizedTimeout "x" Minute, sortedUnique ["b"; ""; "a"; "b"], parseCPU (VStr "0.5"), parseCPU (VInt 2),
   parseCPU VNil, parseSize "512MiB", parseSize "0GiB", address_text "a" 80)
  = ("1m30s", "1m0s", ["a"; "b"], 500, 2000, 1000, 512 * 2 ^ 20, 0, "a:00080").
Proof. vm_compute. reflexivity. Qed.
