(* ===== verification/PlannerSafety.v ===== *)
(** * What a resolved plan guarantees

    The theorems about [Resolve] (Planner): what a runner may rely on when it is
    handed a plan, whatever the manifest says and whatever the host answers. *)

From S2P Require Import Prelude Json Sha256 SemanticEqual StructuredJson JsonStrings GoValue Durations CanonicalJson JsonUnmarshal GoStruct Domain GoPath GoStrings Regex HttpContract PlanTypes Manifest ManifestValidate ManifestSafety SchemaPolicy SchemaInstance RuntimePolicy SchemaFeatures SchemaSource PlanDocument PlanContract Planner.

Local Open Scope Z_scope.

(** ** Sets of texts *)

Lemma count_values_lookup l m v :
  NoDup l → (∀ w, w ∈ l → m !! w = None) → count_values l m !! v = if bool_decide (v ∈ l) then Some 1 else m !! v.
Proof.
  revert m. induction l as [|x l IH]; intros m; [done|]. intros [Hx Hd]%NoDup_cons Hm. cbn [count_values].
  rewrite (Hm x) by apply list_elem_of_here. rewrite IH; [|done|].
  - destruct (decide (v = x)) as [->|Hne].
    + rewrite lookup_insert_eq, bool_decide_false, bool_decide_true by (done || apply list_elem_of_here). done.
    + rewrite lookup_insert_ne by done. destruct (decide (v ∈ l)).
      * rewrite !bool_decide_true by (done || by apply list_elem_of_further). done.
      * rewrite !bool_decide_false by (done || set_solver). done.
  - intros w Hw. rewrite lookup_insert_ne by (intros ->; done). apply Hm. by apply list_elem_of_further.
Qed.
Lemma count_values_some l m v z : count_values l m !! v = Some z → v ∈ l ∨ m !! v = Some z.
Proof.
  revert m. induction l as [|x l IH]; intros m; cbn [count_values]; [by right|]. intros [Hv|Hv]%IH; [left; by apply list_elem_of_further|].
  destruct (decide (v = x)) as [->|Hne]; [left; apply list_elem_of_here|right]. by rewrite lookup_insert_ne in Hv.
Qed.

Lemma remove_values_some l counts counts' :
  remove_values l counts = Some counts' → ∀ v, v ∈ l → is_Some (counts !! v).
Proof.
  revert counts. induction l as [|x l IH]; intros counts; cbn [remove_values]; [by intros _ v ?%elem_of_nil|].
  destruct (Z.eqb_spec (default 0 (counts !! x)) 1) as [Hx|]; [|done]. intros Hl v [->|Hv]%elem_of_cons.
  - destruct (counts !! x); [done|discriminate Hx].
  - destruct (IH _ Hl v Hv) as [z Hz]. apply lookup_delete_Some in Hz as [_ Hz]. by exists z.
Qed.
Lemma remove_values_all l counts :
  NoDup l → (∀ v, v ∈ l → counts !! v = Some 1) →
  ∃ counts', remove_values l counts = Some counts' ∧ ∀ v, counts' !! v = if bool_decide (v ∈ l) then None else counts !! v.
Proof.
  revert counts. induction l as [|x l IH]; intros counts; cbn [remove_values]; [by intros _ _; exists counts|].
  intros [Hx Hd]%NoDup_cons Hc. rewrite (Hc x) by apply list_elem_of_here. cbn [default Z.eqb Pos.eqb].
  destruct (IH (delete x counts) Hd) as (counts' & -> & Hl).
  { intros v Hv. rewrite lookup_delete_ne by (intros ->; done). apply Hc. by apply list_elem_of_further. }
  exists counts'. split; [done|]. intros v. rewrite Hl. destruct (decide (v = x)) as [->|Hne].
  - rewrite lookup_delete_eq, (bool_decide_true (x ∈ x :: l)) by apply list_elem_of_here. by destruct (bool_decide (x ∈ l)).
  - rewrite lookup_delete_ne by done. destruct (decide (v ∈ l)).
    + rewrite !bool_decide_true by (done || by apply list_elem_of_further). done.
    + rewrite !bool_decide_false by (done || set_solver). done.
Qed.

(** [exactStringSet] compares a list with a set, whatever its order. *)
Lemma exact_string_set actual expected : NoDup expected → exactStringSet actual expected = true ↔ actual ≡ₚ expected.
Proof.
  intros Hd. unfold exactStringSet. split.
  - intros [Hlen%Nat.eqb_eq Hr]%andb_prop. destruct (remove_values _ _) as [counts|] eqn:E; [|done].
    symmetry. apply submseteq_length_Permutation; [|lia]. apply NoDup_submseteq; [done|]. intros v Hv.
    destruct (remove_values_some _ _ _ E v Hv) as [z [?|Hz]%count_values_some]; [done|]. by rewrite lookup_empty in Hz.
  - intros Hp. assert (NoDup actual) as Ha by (by rewrite Hp). rewrite (Permutation_length Hp), Nat.eqb_refl. cbn [andb].
    assert (∀ v, count_values actual ∅ !! v = if bool_decide (v ∈ expected) then Some 1 else None) as Hc.
    { intros v. rewrite count_values_lookup by (done || (intros; apply lookup_empty)). rewrite lookup_empty.
      by rewrite (bool_decide_ext _ _ (elem_of_Permutation_proper v _ _ Hp)). }
    destruct (remove_values_all expected (count_values actual ∅) Hd) as (counts & -> & Hl).
    { intros v Hv. by rewrite Hc, bool_decide_true. }
    apply bool_decide_eq_true, map_eq. intros v. rewrite Hl, lookup_empty. destruct (bool_decide (v ∈ expected)) eqn:Ev; [done|].
    by rewrite Hc, Ev.
Qed.

(** ** Inputs *)

Lemma overlapping_sym a b : overlapping a b = overlapping b a.
Proof.
  unfold overlapping. rewrite (String.eqb_sym a b). generalize (has_prefix (trim_suffix "/" b +:+ "/") a) (has_prefix (trim_suffix "/" a +:+ "/") b).
  intros [] []; by destruct (b =s a).
Qed.
Lemma overlapping_self a : overlapping a a = true.
Proof. unfold overlapping. by rewrite string_eqb_refl. Qed.

Definition entry_mount (e : string * InputSpec) : string := mount_path e.1 e.2.
(** No two mounts are one path, or one below the other. *)
Definition apart (mounts : list string) : Prop :=
  ∀ i j a b, mounts !! i = Some a → mounts !! j = Some b → i ≠ j → overlapping a b = false.
Definition input_available (files : list string) (e : string * InputSpec) : Prop := path_input e.2 = true ∧ fixture_found files e.2 = true.

Lemma apart_cons a l : apart (a :: l) ↔ Forall (λ b, overlapping a b = false) l ∧ apart l.
Proof.
  split.
  - intros H. split.
    + apply Forall_lookup. intros j b Hj. by apply (H 0%nat (S j)).
    + intros i j x y Hi Hj Hne. apply (H (S i) (S j)); [done|done|congruence].
  - intros [Ha Hl] [|i] [|j] x y; cbn [lookup]; intros Hx Hy Hne; [done| | |].
    + injection Hx as <-. rewrite Forall_lookup in Ha. by eapply Ha.
    + injection Hy as <-. rewrite Forall_lookup in Ha. rewrite overlapping_sym. by eapply Ha.
    + eapply Hl; [exact Hx|exact Hy|congruence].
Qed.
Lemma apart_perm l l' : l ≡ₚ l' → apart l → apart l'.
Proof.
  induction 1 as [|x l l' Hp IH|x y l|l l1 l2 _ IH1 _ IH2]; [done| | |auto].
  - rewrite !apart_cons. intros [Hx Hl]. split; [by rewrite <- Hp|by apply IH].
  - rewrite !apart_cons, !Forall_cons. intros [[Hxy Hx] [Hy Hl]]. rewrite overlapping_sym in Hxy. done.
Qed.

Lemma path_input_types input : (in_Type input !=s "file") && (in_Type input !=s "directory") = negb (path_input input).
Proof. unfold path_input. by rewrite negb_orb. Qed.

Lemma no_overlap mount (mounts : list (string * string)) :
  List.filter (λ m, overlapping mount m.1) mounts = [] ↔ Forall (λ a, overlapping mount a = false) mounts.*1.
Proof.
  rewrite Forall_fmap. induction mounts as [|m mounts IH]; cbn [List.filter]; [by split|].
  destruct (overlapping mount m.1) eqn:E.
  - split; [done|]. by intros [Hm _]%Forall_cons; cbn [compose] in Hm; rewrite E in Hm.
  - rewrite IH, Forall_cons. by split; [|intros [_ ?]].
Qed.

Lemma resolve_inputs_exact files inputs mounts :
  resolve_inputs files inputs mounts = Ok tt ↔
  Forall (input_available files) inputs ∧ apart (List.map entry_mount inputs)
  ∧ Forall (λ e, Forall (λ a, overlapping (entry_mount e) a = false) mounts.*1) inputs.
Proof.
  revert mounts. induction inputs as [|[name input] inputs IH]; intros mounts; cbn [resolve_inputs List.map].
  { split; [|done]. intros _. split_and!; [constructor| |constructor]. by intros i j a b; rewrite lookup_nil. }
  rewrite path_input_types, !Forall_cons, apart_cons, List.Forall_map. unfold input_available at 1. cbn [fst snd].
  destruct (path_input input); cbn [negb]; [|by split; [|intros [[[??]]]]].
  destruct (fixture_found files input); cbn [negb]; [|by split; [|intros [[[??]]]]].
  change (mount_path name input) with (entry_mount (name, input)). set (mount := entry_mount (name, input)).
  destruct (List.filter (λ m, overlapping mount m.1) mounts) as [|[existing previous] rest] eqn:E.
  - apply no_overlap in E. rewrite IH.
    assert ((assoc_set mount name mounts).*1 = mounts.*1 ++ [mount]) as ->.
    { apply assoc_set_appends. intros Hin. rewrite Forall_forall in E. specialize (E _ Hin). by rewrite overlapping_self in E. }
    assert (∀ l, Forall (λ e, Forall (λ a, overlapping (entry_mount e) a = false) (mounts.*1 ++ [mount])) l
      ↔ Forall (λ e, Forall (λ a, overlapping (entry_mount e) a = false) mounts.*1) l ∧ Forall (λ e, overlapping mount (entry_mount e) = false) l) as Hl.
    { intros l. rewrite <- Forall_and. apply Forall_iff. intros e. rewrite Forall_app, Forall_singleton. by rewrite (overlapping_sym mount). }
    rewrite Hl. tauto.
  - split; [done|]. intros (_ & _ & Hm & _). apply no_overlap in Hm. by rewrite Hm in E.
Qed.

(** A plan's inputs are admitted exactly when each is a file or a directory
    whose fixture is in the snapshot's inventory and no two are mounted at one
    path or one below the other, in whatever order Go visits them. *)
Theorem input_admission_exact snapshot scenario inputs :
  inputs ≡ₚ sn_Inputs scenario →
  (validateResolvedInputs snapshot scenario = Ok tt ↔
   Forall (input_available (List.map fe_Path (ss_Inventory snapshot))) inputs ∧ apart (List.map entry_mount inputs)).
Proof.
  intros Hp. unfold validateResolvedInputs. rewrite resolve_inputs_exact. split.
  - intros (Ha & Hm & _). split; [by rewrite Hp|]. eapply apart_perm; [|exact Hm]. apply Permutation_map. by symmetry.
  - intros (Ha & Hm). split_and!; [by rewrite <- Hp| |apply Forall_true; intros; constructor].
    eapply apart_perm; [|exact Hm]. by apply Permutation_map.
Qed.

(** ** Normal forms *)

Lemma sort_texts_elem x l : x ∈ sort_texts l ↔ x ∈ l.
Proof.
  unfold sort_texts. rewrite sort_keys_keys, list_elem_of_fmap. split; [intros (p & -> & (y & -> & Hy)%Regex.elem_of_map); done|].
  intros Hx. exists (x, tt). split; [done|]. apply Regex.elem_of_map. by exists x.
Qed.
Lemma sorted_unique_elem x l : x ∈ sortedUnique l ↔ x ∈ l ∧ x ≠ "".
Proof.
  unfold sortedUnique. rewrite sort_texts_elem, elem_of_remove_dups, !list_elem_of_In, List.filter_In. rewrite negb_true_iff, String.eqb_neq. done.
Qed.
Lemma by_address_elem {A} host port (x : A) l : x ∈ by_address host port l ↔ x ∈ l.
Proof.
  unfold by_address. rewrite list_elem_of_fmap. split.
  - intros ([k y] & -> & Hp). rewrite sort_keys_elem in Hp. apply Regex.elem_of_map in Hp as (z & E & Hz). by injection E as _ ->.
  - intros Hx. exists (address_text (host x) (port x), x). split; [done|]. rewrite sort_keys_elem. apply Regex.elem_of_map. by exists x.
Qed.

Lemma with_tcp_address b : pb_Host (with_tcp b) = pb_Host b ∧ pb_Port (with_tcp b) = pb_Port b.
Proof. unfold with_tcp. by destruct (pb_Protocol b =s ""). Qed.

(** ** Inversion of [Resolve] *)

Section planner.
Context `{RegexpSyntax} `{Host} `{SchemaCompiler}.

Section resolved.
Variables (doc : Document) (m : Manifest) (snapshot : SourceSnapshot) (name : string).

(** What an accepted plan was built from. *)
Record resolution (t : nat) (plan : FullPlan) (t' : nat) (scenario : ScenarioSpec) (environment : EnvironmentSpec)
    (journey : option PlanHTTPJourney) (assertions : list PlanAssertion) : Prop := {
  rv_manifest : dc_Manifest doc = Some m;
  rv_valid : ManifestValidate.Validate doc = [];
  rv_scenario : (name, scenario) ∈ sp_Scenarios (mf_Spec m);
  rv_environment : (sn_Environment scenario, environment) ∈ sp_Environments (mf_Spec m);
  rv_admitted : plan_admitted (mf_Spec m) snapshot name scenario environment = Ok tt;
  rv_journey : resolvedHTTPJourney scenario = Ok journey;
  rv_assertions : resolvedAssertions snapshot scenario t = (Ok assertions, t');
  rv_plan : ∃ policy digest, plan = PlanDocument.with_digest (resolved_plan doc (mf_Spec m) snapshot name scenario environment policy journey assertions) digest;
  rv_digest : digestPlan plan = Ok (fp_PlanDigest plan) }.
End resolved.

Lemma map_err_ok {E F A} (f : E → F) (r : result E A) a : map_err f r = Ok a ↔ r = Ok a.
Proof. destruct r; cbn; split; congruence. Qed.
Lemma lift_ok {A} (r : result Error A) t a t' : lift r t = (Ok a, t') ↔ r = Ok a ∧ t' = t.
Proof. unfold lift. split; [by intros [= -> ->]|by intros [-> ->]]. Qed.

Lemma resolve_inv doc snapshot name t plan t' :
  Resolve doc snapshot name t = (Ok plan, t') →
  ∃ m scenario environment journey assertions, resolution doc m snapshot name t plan t' scenario environment journey assertions.
Proof.
  unfold Resolve. destruct (ManifestValidate.Validate doc) as [|first rest] eqn:Ev; [|destruct (dc_Manifest doc); discriminate].
  destruct (dc_Manifest doc) as [m|] eqn:Em; [|done]. unfold resolve_scenario.
  destruct (assoc name (sp_Scenarios (mf_Spec m))) as [scenario|] eqn:Es; [|done]. apply assoc_In in Es.
  set (environment := default zero_environment _). intros Hr. apply bind_task_ok in Hr as ([] & t0 & [Hadmitted ->]%lift_ok & Hr).
  unfold build_plan in Hr. apply bind_task_ok in Hr as (policy & t0 & [_ ->]%lift_ok & Hr).
  apply bind_task_ok in Hr as (journey & t0 & [Hj%map_err_ok ->]%lift_ok & Hr). apply bind_task_ok in Hr as (assertions & t1 & Ha & Hr).
  apply bind_task_ok in Hr as (digest & t2 & [Hd%map_err_ok ->]%lift_ok & Hr). apply finish_ok in Hr as [-> ->].
  destruct (manifest_accepted_parts doc m Em Ev) as (_ & _ & Hsc). rewrite Forall_forall in Hsc.
  specialize (Hsc _ Es). apply scenario_accepted in Hsc. cbn [snd] in Hsc. apply ok_environment in Hsc.
  assert ((sn_Environment scenario, environment) ∈ sp_Environments (mf_Spec m)) as Henv.
  { subst environment. unfold has_key in Hsc. destruct (assoc (sn_Environment scenario) (sp_Environments (mf_Spec m))) as [e|] eqn:Ee; [|discriminate Hsc].
    apply assoc_In. exact Ee. }
  exists m, scenario, environment, journey, assertions.
  split; [exact Em|exact Ev|exact Es|exact Henv|exact Hadmitted|exact Hj|exact Ha|eexists _, _; reflexivity|].
  rewrite digest_ignored. exact Hd.
Qed.

(** ** What admission requires *)

Record admitted (spec : Spec) (snapshot : SourceSnapshot) (scenario : ScenarioSpec) (environment : EnvironmentSpec) : Prop := {
  ad_executable : ∃ name, validateExecutableProfile name scenario = Ok tt;
  ad_evidence : validateEvidenceProfile (sp_Evidence spec) = Ok tt;
  ad_features : ∃ name, validateSchemaExecutionFeatures name environment scenario = Ok tt;
  ad_secrets : sn_Secrets scenario = [];
  ad_inputs : validateResolvedInputs snapshot scenario = Ok tt;
  ad_pinned : IsPinnedImage (bi_Reference (en_BaseImage environment)) = true;
  ad_runtime : RuntimePolicy.Validate (rt_Adapter (en_Runtime environment)) (rt_Version (en_Runtime environment))
      (bi_Reference (en_BaseImage environment)) (image_digest (bi_Reference (en_BaseImage environment)))
      ("linux/" +:+ pl_Architecture (en_Platform environment)) = Ok tt;
  ad_policy : po_Profile (sp_Policies spec) = "baseline-v1" }.

Lemma fail_if_ok {E A} (b : bool) (e : E) (k : result E A) a : (if b then Err e else k) = Ok a → b = false ∧ k = Ok a.
Proof. by destruct b. Qed.
Ltac inv_ok H :=
  repeat first
    [ apply fail_if_ok in H as [? H]
    | let u := fresh "u" in let Hu := fresh "Hu" in apply bind_Ok in H as (u & Hu & H); destruct u ].

Lemma plan_admitted_parts spec snapshot name scenario environment :
  plan_admitted spec snapshot name scenario environment = Ok tt → admitted spec snapshot scenario environment.
Proof.
  unfold plan_admitted. intros Ha.
  apply bind_Ok in Ha as ([] & He & Ha). apply bind_Ok in Ha as ([] & Hv & Ha). apply bind_Ok in Ha as ([] & Hf & Ha).
  apply fail_if_ok in Ha as [Hs Ha]. apply bind_Ok in Ha as ([] & Hi & Ha). apply fail_if_ok in Ha as [Hp Ha]. apply fail_if_ok in Ha as [_ Ha].
  apply bind_Ok in Ha as ([] & Hr & Ha). rewrite map_err_ok in Hr. apply fail_if_ok in Ha as [Hb _].
  split; [by eexists|exact Hv|by eexists| |exact Hi| |exact Hr|].
  - destruct (sn_Secrets scenario); [done|discriminate Hs].
  - apply negb_false_iff. exact Hp.
  - apply String.eqb_eq, negb_false_iff. exact Hb.
Qed.

(** The runtime of an admitted environment is one of the approved ones. *)
Lemma admitted_runtime spec snapshot scenario environment e :
  admitted spec snapshot scenario environment → environment_ok (e, environment) →
  ∃ a, a ∈ approvedRuntimes
    ∧ (rt_Adapter (en_Runtime environment), rt_Version (en_Runtime environment), bi_Reference (en_BaseImage environment),
       image_digest (bi_Reference (en_BaseImage environment))) = (ap_adapter a, ap_version a, ap_reference a, ap_digest a)
    ∧ pl_Architecture (en_Platform environment) = "amd64".
Proof.
  intros Ha (_ & Harch & Hadapter & _). cbn [snd] in *. destruct (approved_tuple _ _ _ _ _ (ad_runtime _ _ _ _ Ha)) as (a & Hin & Hada & E).
  apply pair_equal_spec in E as [[[Hv Hr]%pair_equal_spec Hd]%pair_equal_spec Hplat].
  exists a. split; [done|].
  assert (to_lower (trim_space (rt_Adapter (en_Runtime environment))) = rt_Adapter (en_Runtime environment)) as Hsame.
  { unfold supportedAdapters in Hadapter. rewrite !elem_of_cons, elem_of_nil in Hadapter. destruct Hadapter as [->|[->|[]]]; reflexivity. }
  split; [by rewrite <- Hsame, Hada, Hd, Hv, Hr|].
  assert (ap_platform a = approvedPlatform) as Hap.
  { unfold approvedRuntimes in Hin. rewrite !elem_of_cons, elem_of_nil in Hin. by destruct Hin as [->|[->|[]]]. }
  rewrite Hap in Hplat. rewrite !elem_of_cons, elem_of_nil in Harch. destruct Harch as [Harch|[Harch|[]]]; [done|]. rewrite Harch in Hplat. discriminate Hplat.
Qed.

(** ** What the feature checks require *)

Lemma checked {E A} (f : nat → A → result E unit) l x : check_each f l = Ok tt → x ∈ l → ∃ j, f j x = Ok tt.
Proof. rewrite check_each_ok. intros H' [j Hj]%list_elem_of_lookup. exists j. by apply H'. Qed.

Record features_ok (scenario : ScenarioSpec) : Prop := {
  fo_network : ∀ phase c, phase ∈ OrderedPhases → assoc phase (sn_Capabilities scenario) = Some c → elems (nc_Allow (cs_Network c)) = [];
  fo_writes : ∀ phase c, phase ∈ OrderedPhases → assoc phase (sn_Capabilities scenario) = Some c →
    Forall (λ w, pathWithinOutputs w = true) (elems (fc_Write (cs_Filesystem c)));
  fo_integration : ∀ phase c, phase ∈ OrderedPhases → assoc phase (sn_Capabilities scenario) = Some c →
    cs_Devices c = None ∧ cs_HostIntegration c = None ∧ pr_Shell (cs_Process c) = None ∧ cs_Secrets c = None;
  fo_threshold : vs_Repeats (sn_Verification scenario) <= vs_SuccessThreshold (sn_Verification scenario);
  fo_residue : cl_AllowedResidue (vs_Cleanup (sn_Verification scenario)) = [] ∨ cl_AllowedResidue (vs_Cleanup (sn_Verification scenario)) = ["/outputs/**"] }.

Lemma is_some_false {A} (o : option A) : is_some o = false → o = None.
Proof. by destruct o. Qed.

Lemma capability_features name serviceID caps j phase c :
  capability_available name serviceID caps j phase = Ok tt → assoc phase caps = Some c →
  elems (nc_Allow (cs_Network c)) = [] ∧ Forall (λ w, pathWithinOutputs w = true) (elems (fc_Write (cs_Filesystem c)))
  ∧ cs_Devices c = None ∧ cs_HostIntegration c = None ∧ pr_Shell (cs_Process c) = None ∧ cs_Secrets c = None.
Proof.
  unfold capability_available. intros Ha Ec. rewrite Ec in Ha. apply fail_if_ok in Ha as [Hn Ha]. apply bind_Ok in Ha as ([] & _ & Ha).
  apply bind_Ok in Ha as ([] & Hw & Ha). apply bind_Ok in Ha as ([] & _ & Ha). apply bind_Ok in Ha as ([] & _ & Ha).
  unfold process_available in Ha. repeat (let Hx := fresh "Hx" in apply fail_if_ok in Ha as [Hx Ha]; apply is_some_false in Hx).
  split; [by destruct (elems (nc_Allow (cs_Network c)))|]. split; [|done].
  apply Forall_forall. intros w Hin. destruct (checked _ _ _ Hw Hin) as [k Hk]. unfold write_available in Hk.
  apply fail_if_ok in Hk as [Hk _]. by apply negb_false_iff in Hk.
Qed.

Lemma features_accepted name environment scenario : validateSchemaExecutionFeatures name environment scenario = Ok tt → features_ok scenario.
Proof.
  unfold validateSchemaExecutionFeatures. intros Hf. do 5 (let Hx := fresh "Hx" in apply bind_Ok in Hf as ([] & Hx & Hf)).
  match goal with Hx : check_each _ OrderedPhases = _ |- _ => rename Hx into Hc end. unfold verification_available in Hf.
  apply fail_if_ok in Hf as [Ht Hf]. apply Z.ltb_ge in Ht. do 2 apply fail_if_ok in Hf as [_ Hf]. apply fail_if_ok in Hf as [Hres _].
  split; [| | |done|].
  1-3: intros phase c Hin Hcap; destruct (checked _ _ _ Hc Hin) as [k Hk]; by apply (capability_features _ _ _ _ _ _ Hk).
  destruct (cl_AllowedResidue _) as [|residue [|? ?]]; [by left|right|done]. apply negb_false_iff, String.eqb_eq in Hres. by rewrite Hres.
Qed.

(** ** Commands *)

Definition bounded_timeout (text : string) : Prop := ∃ d, ParseDuration text = Some d ∧ 0 < d <= 30 * Minute.

Lemma format_bounded d : 0 < d <= 30 * Minute → bounded_timeout (Duration_String d).
Proof.
  intros Hd. exists d. split; [|done]. apply duration_string_roundtrip. unfold is_int64, int_min, int_max, Minute, Second, Millisecond, Microsecond, Nanosecond in *.
  apply andb_true_intro. split; apply Z.leb_le; lia.
Qed.
Lemma normalized_bounded value fallback : timeout_ok value → 0 < fallback <= 30 * Minute → bounded_timeout (normalizedTimeout value fallback).
Proof.
  unfold normalizedTimeout. intros [->|(d & Hp & Hd)] Hf; [by apply format_bounded|].
  destruct (value =s ""); [by apply format_bounded|]. rewrite Hp. by apply format_bounded.
Qed.
(** Normalizing a timeout does not change what it parses to. *)
Lemma normalized_same value fallback d : ParseDuration value = Some d → ParseDuration (normalizedTimeout value fallback) = Some d.
Proof.
  intros Hp. unfold normalizedTimeout. destruct (String.eqb_spec value "") as [->|]; [by vm_compute in Hp|]. rewrite Hp.
  apply duration_string_roundtrip. by eapply parse_duration_bound.
Qed.

Definition phase_timeout (p : option CommandPhase) : Prop := ∀ phase, p = Some phase → timeout_ok (cp_Timeout phase).
Definition timeouts_ok (phases : PhaseSet) : Prop :=
  phase_timeout (ph_Prepare phases) ∧ phase_timeout (ph_Setup phases) ∧ phase_timeout (ph_Build phases) ∧ phase_timeout (ph_Cleanup phases)
  ∧ ∀ run, ph_Run phases = Some run → timeout_ok (rn_Timeout run).

Lemma command_phase_timeout prefix phase p seen seen' : validateCommandPhase prefix phase p seen = ([], seen') → phase_timeout p.
Proof.
  unfold validateCommandPhase. destruct p as [p|]; [|done]. destruct (validateSteps _ (cp_Steps p) seen) as [issues s].
  intros [= Hi _] q [= <-]. no_issues. by eapply timeout_accepted.
Qed.
Lemma run_phase_timeout prefix p seen seen' run : validate_run_phase prefix p seen = ([], seen') → p = Some run → timeout_ok (rn_Timeout run).
Proof.
  unfold validate_run_phase. intros Hv ->. destruct (validateSteps _ (rn_Steps run) seen) as [step_issues s].
  destruct (match rn_Service run with Some _ => _ | None => _ end) as [service_issues s']. injection Hv as Hv _. no_issues. by eapply timeout_accepted.
Qed.
Lemma phases_timeouts prefix phases : validate_phases prefix phases = [] → timeouts_ok phases.
Proof.
  unfold validate_phases, timeouts_ok.
  destruct (validateCommandPhase prefix PhasePrepare _ _) as [i1 s1] eqn:E1.
  destruct (validateCommandPhase prefix PhaseSetup _ _) as [i2 s2] eqn:E2.
  destruct (validateCommandPhase prefix PhaseBuild _ _) as [i3 s3] eqn:E3.
  destruct (validate_run_phase prefix _ _) as [i4 s4] eqn:E4.
  destruct (validateCommandPhase prefix PhaseCleanup _ _) as [i5 s5] eqn:E5.
  intros Hi. no_issues. subst.
  apply command_phase_timeout in E1, E2, E3, E5. split_and!; try done. intros run Hr. by eapply run_phase_timeout.
Qed.

(** A command runs a non-empty argument list without NUL bytes, or stops the
    service during cleanup; it is bounded in time. *)
Definition command_ok (serviceID : string) (c : PlanCommand) : Prop :=
  bounded_timeout (pcm_Timeout c)
  ∧ ((∃ argv, pcm_Argv c = Some argv ∧ good_argv argv ∧ pcm_Signal c = None)
     ∨ (∃ signal, pcm_Argv c = None ∧ pcm_Signal c = Some signal ∧ pcm_Phase c = PhaseCleanup ∧ psg_Target signal = serviceID ∧ serviceID ≠ "")).

Definition step_confined (phase serviceID : string) (step : PhaseStep) : Prop :=
  ∀ signal, st_Signal step = Some signal → phase = PhaseCleanup ∧ sa_Target signal = serviceID ∧ serviceID ≠ "".

Lemma step_commands_ok phase serviceID timeout step :
  step_ok step → step_confined phase serviceID step → bounded_timeout timeout → Forall (command_ok serviceID) (step_commands phase timeout step).
Proof.
  intros [_ [(run & Er & Es & _ & Hargv)|(signal & Er & Es & _)]] Hc Ht; unfold step_commands, signal_step; rewrite Er.
  - destruct Hargv as [Hne Hargs]. destruct (is_empty (ra_Command run)) eqn:E; [by destruct (ra_Command run)|].
    apply Forall_singleton. split; [done|]. left. by exists (ra_Command run).
  - rewrite Es. apply Forall_singleton. split; [done|]. right. destruct (Hc _ Es) as (-> & Ht' & Hne). by eexists.
Qed.

Lemma steps_commands_ok phase serviceID timeout steps :
  Forall step_ok steps → Forall (step_confined phase serviceID) steps → bounded_timeout timeout →
  Forall (command_ok serviceID) (flat_map (step_commands phase timeout) steps).
Proof.
  intros Hs Hc Ht. apply Forall_flat_map, Forall_forall. rewrite Forall_forall in Hs, Hc. intros step Hin. apply step_commands_ok; auto.
Qed.

Lemma command_phase_ok phase serviceID p fallback :
  Forall step_ok (command_steps p) → Forall (step_confined phase serviceID) (command_steps p) → phase_timeout p → 0 < fallback <= 30 * Minute →
  Forall (command_ok serviceID) (command_phase phase p fallback).
Proof.
  unfold command_phase, command_steps. destruct p as [p|]; [|constructor]. intros Hs Hc Ht Hf. apply steps_commands_ok; [done|done|].
  apply normalized_bounded; [by apply Ht|done].
Qed.

Lemma unsignalled_confined phase serviceID steps :
  Forall (λ step, st_Signal step = None) steps → Forall (step_confined phase serviceID) steps.
Proof. intros Hn. eapply Forall_impl; [exact Hn|]. intros step E signal Es. cbn beta in E. congruence. Qed.

Lemma minutes_bounded k : 0 < k <= 30 → 0 < k * Minute <= 30 * Minute.
Proof. unfold Minute, Second, Millisecond, Microsecond, Nanosecond. lia. Qed.

Lemma resolved_commands_ok environments scenario prefix :
  scenario_ok environments scenario → validate_phases prefix (sn_Phases scenario) = [] →
  Forall (command_ok (service_id scenario)) (resolvedCommands scenario).
Proof.
  intros [_ Hsteps Hservice _ [Hnone Hcleanup] _ _ _ Hex _] (T1 & T2 & T3 & T5 & T4)%phases_timeouts. unfold resolvedCommands, scenario_steps in *.
  apply Forall_app in Hsteps as [S1 [S2 [S3 [S4 S5]%Forall_app]%Forall_app]%Forall_app].
  apply Forall_app in Hnone as [N1 [N2 [N3 N4]%Forall_app]%Forall_app].
  assert (0 < 30 * Second <= 30 * Minute) as Hclean by (unfold Minute, Second, Millisecond, Microsecond, Nanosecond; lia).
  rewrite !Forall_app. split_and!.
  - apply command_phase_ok; [done|by apply unsignalled_confined|done|by apply minutes_bounded].
  - apply command_phase_ok; [done|by apply unsignalled_confined|done|by apply minutes_bounded].
  - apply command_phase_ok; [done|by apply unsignalled_confined|done|by apply minutes_bounded].
  - unfold run_commands, phases_service, run_steps in *. destruct (ph_Run (sn_Phases scenario)) as [run|]; [|constructor].
    assert (bounded_timeout (normalizedTimeout (rn_Timeout run) (2 * Minute))) as Ht by (apply normalized_bounded; [by apply T4|by apply minutes_bounded]).
    apply Forall_app. split; [apply steps_commands_ok; [done|by apply unsignalled_confined|done]|].
    destruct (rn_Service run) as [service|]; [|constructor]. apply Forall_singleton. split; [done|]. left. exists (sv_Command service).
    destruct (Hservice service eq_refl) as (_ & _ & Hargv & _). done.
  - destruct Hex as (exercise & Ee & Ht & Hkind). unfold journey_command. rewrite Ee. destruct Hkind as [(_ & Hargv & _)|(_ & -> & _)]; [|constructor].
    destruct (is_empty (dv_Command (ex_Driver exercise))); [constructor|]. apply Forall_singleton. split.
    + apply normalized_bounded; [done|]. apply (minutes_bounded 1). lia.
    + left. by exists (dv_Command (ex_Driver exercise)).
  - apply command_phase_ok; [done| |done|done]. eapply Forall_impl; [exact Hcleanup|]. intros step Hs signal Es. by destruct (Hs _ Es).
Qed.

(** ** Capabilities *)

(** No destination may be reached, nothing is written outside /outputs, and
    neither devices nor the host's integration are granted; while the scenario
    runs, all network is denied. *)
Definition capability_closed (entry : string * CapabilitySet) : Prop :=
  let '(phase, c) := entry in
  elems (nc_Allow (cs_Network c)) = [] ∧ (phase = PhaseRun ∨ phase = PhaseExercise → nc_Deny (cs_Network c) = true)
  ∧ Forall (λ w, pathWithinOutputs w = true) (elems (fc_Write (cs_Filesystem c)))
  ∧ cs_Devices c = None ∧ cs_HostIntegration c = None ∧ pr_Shell (cs_Process c) = None ∧ cs_Secrets c = None.

Lemma normal_closed http_run phase c :
  capability_closed (phase, c) → capability_closed (phase, normal_capability http_run c).
Proof.
  intros (Hn & Hd & Hw & Hrest). unfold capability_closed, normal_capability. cbn [cs_Network nc_Allow nc_Deny cs_Filesystem fc_Write cs_Devices cs_HostIntegration cs_Process pr_Shell cs_Secrets].
  split; [|split; [exact Hd|split; [|exact Hrest]]].
  - destruct (nc_Allow (cs_Network c)) as [l|]; [|done]. cbn [elems default option_map] in *. by rewrite Hn.
  - unfold sorted_slice. cbn [elems default]. apply Forall_forall. intros w [Hin _]%sorted_unique_elem. rewrite Forall_forall in Hw. by apply Hw.
Qed.

Lemma resolved_capabilities_closed environments scenario :
  scenario_ok environments scenario → features_ok scenario →
  (resolvedCapabilities scenario).*1 = OrderedPhases ∧ Forall capability_closed (resolvedCapabilities scenario).
Proof.
  intros Hs [Fn Fw Fi _ _]. split; [done|]. unfold resolvedCapabilities. apply List.Forall_map, Forall_forall. intros phase Hin.
  apply normal_closed. destruct (assoc phase (sn_Capabilities scenario)) as [c|] eqn:Ec.
  - cbn [default]. split; [by eapply Fn|]. split; [|split; [by eapply Fw|by eapply Fi]]. intros Hrun.
    pose proof (ok_capabilities _ _ Hs) as Hall. rewrite Forall_forall in Hall. destruct (Hall _ (assoc_In _ _ _ Ec)) as [Hdeny _].
    by destruct (Hdeny Hrun).
  - cbn [default]. split; [done|]. split; [done|]. split; [constructor|done].
Qed.

(** ** Inputs of a plan *)

Definition plan_input_ok (files : list string) (i : PlanInput) : Prop :=
  pin_ReadOnly i = true ∧ has_prefix "/inputs/" (pin_MountPath i) = true
  ∧ (pin_Type i = "file" ∧ normal_fixture (pin_Fixture i) ∈ files
     ∨ pin_Type i = "directory" ∧ ∃ file, file ∈ files ∧ has_prefix (trim_suffix "/" (normal_fixture (pin_Fixture i)) +:+ "/") file = true).

Lemma fixture_available files input :
  path_input input = true → fixture_found files input = true →
  in_Type input = "file" ∧ normal_fixture (in_Fixture input) ∈ files
  ∨ in_Type input = "directory" ∧ ∃ file, file ∈ files ∧ has_prefix (trim_suffix "/" (normal_fixture (in_Fixture input)) +:+ "/") file = true.
Proof.
  unfold path_input, fixture_found. destruct (String.eqb_spec (in_Type input) "file") as [->|_].
  - intros _ Hf%one_of_In. by left.
  - cbn [orb]. intros Ht%String.eqb_eq (file & Hin%list_elem_of_In & Hp)%existsb_exists. right. eauto.
Qed.

Lemma input_placed prefix e :
  validate_input prefix e = [] → path_input e.2 = true →
  mt_ReadOnly (in_Mount e.2) = true ∧ has_prefix "/inputs/" (entry_mount e) = true.
Proof.
  destruct e as [name input]. unfold validate_input, entry_mount, mount_path. cbn [fst snd]. intros Hv Hp. rewrite Hp in Hv. no_issues. cbn [andb] in *.
  match goal with Hr : negb (mt_ReadOnly _) = false |- _ => apply negb_false_iff in Hr; split; [exact Hr|] end.
  destruct (String.eqb_spec (mt_Path (in_Mount input)) "") as [_|_]; [by apply has_prefix_self|].
  match goal with Hm : _ && (_ || negb (has_prefix _ _)) = false |- _ => apply orb_false_elim in Hm as [_ Hm]; by apply negb_false_iff in Hm end.
Qed.

Lemma resolved_inputs_sound snapshot scenario prefix :
  validateResolvedInputs snapshot scenario = Ok tt → Forall (λ e, validate_input prefix e = []) (sn_Inputs scenario) →
  Forall (plan_input_ok (List.map fe_Path (ss_Inventory snapshot))) (resolvedInputs scenario)
  ∧ apart (List.map pin_MountPath (resolvedInputs scenario)).
Proof.
  unfold validateResolvedInputs, resolvedInputs. intros (Ha & Hm & _)%resolve_inputs_exact Hv.
  assert (List.map pin_MountPath (List.map plan_input (sort_keys (sn_Inputs scenario))) = List.map entry_mount (sort_keys (sn_Inputs scenario))) as ->.
  { rewrite List.map_map. apply List.map_ext. by intros [name input]. }
  split; [|eapply apart_perm; [|exact Hm]; apply Permutation_map; symmetry; apply sort_keys_same].
  apply List.Forall_map, Forall_forall. intros [name input] Hin. rewrite sort_keys_elem in Hin. rewrite Forall_forall in Ha, Hv.
  destruct (Ha _ Hin) as [Hp Hf]. destruct (input_placed _ _ (Hv _ Hin) Hp) as [Hr Hmount]. cbn [fst snd] in *.
  unfold plan_input_ok, plan_input. cbn [pin_ReadOnly pin_MountPath pin_Type pin_Fixture].
  split; [done|]. split; [exact Hmount|]. by apply fixture_available.
Qed.

(** ** Schemas of assertions *)

Section schemas.
Variable snapshot : SourceSnapshot.

Definition response_bound (r : PlanHTTPResponseAssertion) : Prop := ∀ schema, pra_JSONSchema r = Some schema → bound_schema snapshot schema.
Definition assertion_bound (a : PlanAssertion) : Prop :=
  (∀ schema, pa_StdoutJSONSchema a = Some schema → bound_schema snapshot schema)
  ∧ (∀ r, pa_Response a = Some r → response_bound r)
  ∧ (∀ f, pa_JSONFile a = Some f → bound_schema snapshot (pjf_Schema f)).

Lemma schema_option_bound cache path t o cache' t' :
  bound_cache snapshot cache → schema_option snapshot cache path t = (Ok (o, cache'), t') →
  (∀ schema, o = Some schema → bound_schema snapshot schema) ∧ bound_cache snapshot cache'.
Proof.
  unfold schema_option. intros Hc. destruct (path =s ""); [by intros [[= -> ->] _]%finish_ok|].
  intros ([schema c] & t1 & Hr & Hf)%bind_task_ok. apply finish_ok in Hf as [[= -> ->] _].
  apply (resolve_bound snapshot) in Hr as (Hb & Hc' & _); [|done]. split; [by intros s [= <-]|done].
Qed.

Lemma plan_response_bound cache o t r cache' t' :
  bound_cache snapshot cache → plan_response_option snapshot cache o t = (Ok (r, cache'), t') →
  (∀ x, r = Some x → response_bound x) ∧ bound_cache snapshot cache'.
Proof.
  intros Hc. destruct o as [response|]; cbn [plan_response_option]; [|by intros [[= -> ->] _]%finish_ok].
  intros ([x c] & t1 & Hr & [[= -> ->] _]%finish_ok)%bind_task_ok. unfold plan_response in Hr.
  apply bind_task_ok in Hr as (path & t2 & _ & Hr). apply bind_task_ok in Hr as ([schema c'] & t3 & Hs & Hr).
  apply schema_option_bound in Hs as [Hs Hc']; [|done]. apply finish_ok in Hr as [[= -> ->] _]. split; [|done]. by intros y [= <-].
Qed.

Lemma plan_file_bound cache o t r cache' t' :
  bound_cache snapshot cache → plan_file snapshot cache o t = (Ok (r, cache'), t') →
  (∀ f, r = Some f → bound_schema snapshot (pjf_Schema f)) ∧ bound_cache snapshot cache'.
Proof.
  intros Hc. destruct o as [file|]; cbn [plan_file]; [|by intros [[= -> ->] _]%finish_ok].
  intros ([schema c] & t1 & Hr & [[= -> ->] _]%finish_ok)%bind_task_ok.
  apply (resolve_bound snapshot) in Hr as (Hb & Hc' & _); [|done]. split; [by intros f [= <-]|done].
Qed.

(** What one assertion resolves to. *)
Definition keeps_bound {A} (f : nat → schema_cache → A → task (PlanAssertion * schema_cache)) : Prop :=
  ∀ index cache x t a cache' t', bound_cache snapshot cache → f index cache x t = (Ok (a, cache'), t') → assertion_bound a ∧ bound_cache snapshot cache'.

Lemma http_assertion_bound : keeps_bound (λ _, http_assertion snapshot).
Proof.
  intros index cache x t a cache' t' Hc. unfold http_assertion. intros ([response c] & t1 & Hr & Hf)%bind_task_ok.
  apply plan_response_bound in Hr as [Hr Hc1]; [|done]. apply bind_task_ok in Hf as ([file c2] & t2 & Hfile & Hf).
  apply plan_file_bound in Hfile as [Hfile Hc2]; [|done]. apply finish_ok in Hf as [[= -> ->] _]. split; [|done]. by split_and!.
Qed.
Lemma cli_assertion_bound : keeps_bound (cli_assertion snapshot).
Proof.
  intros index cache x t a cache' t' Hc. unfold cli_assertion. intros ([schema c] & t1 & Hr & Hf)%bind_task_ok.
  apply schema_option_bound in Hr as [Hr Hc1]; [|done]. apply finish_ok in Hf as [[= -> ->] _]. split; [|done]. by split_and!.
Qed.

Lemma resolve_each_bound {A} (f : nat → schema_cache → A → task (PlanAssertion * schema_cache)) index cache l t r t' :
  keeps_bound f → bound_cache snapshot cache → resolve_each f index cache l t = (Ok r, t') → Forall assertion_bound r.
Proof.
  intros Hf. revert index cache t r. induction l as [|x l IH]; intros index cache t r Hc; cbn [resolve_each].
  - intros [-> _]%finish_ok. constructor.
  - intros ([a c] & t1 & Ha & Hr)%bind_task_ok. apply Hf in Ha as [Hb Hc']; [|done].
    apply bind_task_ok in Hr as (more & t2 & Hm & Hr). apply finish_ok in Hr as [-> ->]. constructor; [done|by eapply IH].
Qed.

Lemma resolved_assertions_bound scenario t assertions t' :
  resolvedAssertions snapshot scenario t = (Ok assertions, t') → Forall assertion_bound assertions.
Proof.
  unfold resolvedAssertions. destruct (ph_Exercise (sn_Phases scenario)) as [exercise|]; [|by intros [-> _]%finish_ok].
  destruct (dv_Type (ex_Driver exercise) =s "http"); apply resolve_each_bound; [apply http_assertion_bound|constructor|apply cli_assertion_bound|constructor].
Qed.
End schemas.

(** ** The plan *)

(** What a runner may rely on. *)
Record plan_sound (snapshot : SourceSnapshot) (plan : FullPlan) : Prop := {
  pd_runtime : ∃ a, a ∈ approvedRuntimes
    ∧ (fp_RuntimeAdapter plan, fp_RuntimeVersion plan, fp_BaseImageReference plan, fp_BaseImageDigest plan)
      = (ap_adapter a, ap_version a, ap_reference a, ap_digest a);
  pd_capabilities : (fp_Capabilities plan).*1 = OrderedPhases ∧ Forall capability_closed (fp_Capabilities plan);
  pd_inputs : Forall (plan_input_ok (List.map fe_Path (ss_Inventory snapshot))) (fp_Inputs plan) ∧ apart (List.map pin_MountPath (fp_Inputs plan));
  pd_commands : ∃ serviceID, Forall (command_ok serviceID) (fp_Commands plan);
  pd_schemas : Forall (assertion_bound snapshot) (fp_JourneyAssertions plan);
  pd_observers : Forall (λ o, o ∈ fp_ObserverSet plan) always_observed;
  pd_repeats : 1 <= fp_RepeatCount plan ∧ fp_SuccessThreshold plan = fp_RepeatCount plan;
  pd_residue : pcl_AllowedResidue (fp_Cleanup plan) = [] ∨ pcl_AllowedResidue (fp_Cleanup plan) = ["/outputs/**"];
  pd_source : fp_Source plan = {| ps_Identity := ss_Identity snapshot; ps_Commit := ss_Commit snapshot; ps_TreeDigest := ss_TreeDigest snapshot |};
  pd_digest : digestPlan plan = Ok (fp_PlanDigest plan) }.

Lemma observers_always scenario : Forall (λ o, o ∈ plan_observers scenario) always_observed.
Proof.
  apply Forall_forall. intros o Ho. unfold plan_observers. apply sorted_unique_elem. split; [apply elem_of_app; by right|].
  intros ->. revert Ho. apply one_of_false. reflexivity.
Qed.

(** A resolution's scenario and environment are those of an accepted manifest. *)
Lemma resolution_valid doc m snapshot name t plan t' scenario environment journey assertions :
  resolution doc m snapshot name t plan t' scenario environment journey assertions →
  validate_scenario (sp_Environments (mf_Spec m)) (name, scenario) = []
  ∧ validate_environment (sn_Environment scenario, environment) = []
  ∧ scenario_ok (sp_Environments (mf_Spec m)) scenario ∧ admitted (mf_Spec m) snapshot scenario environment.
Proof.
  intros R. destruct (manifest_accepted_parts doc m (rv_manifest _ _ _ _ _ _ _ _ _ _ _ R) (rv_valid _ _ _ _ _ _ _ _ _ _ _ R)) as (_ & He & Hs).
  rewrite Forall_forall in He. rewrite Forall_forall in Hs. pose proof (Hs _ (rv_scenario _ _ _ _ _ _ _ _ _ _ _ R)) as Hv.
  split; [exact Hv|]. split; [exact (He _ (rv_environment _ _ _ _ _ _ _ _ _ _ _ R))|].
  split; [exact (scenario_accepted _ _ Hv)|]. eapply plan_admitted_parts. exact (rv_admitted _ _ _ _ _ _ _ _ _ _ _ R).
Qed.

Lemma scenario_parts environments name scenario :
  validate_scenario environments (name, scenario) = [] →
  validate_phases ("spec.scenarios." +:+ name) (sn_Phases scenario) = []
  ∧ Forall (λ e, validate_input ("spec.scenarios." +:+ name) e = []) (sn_Inputs scenario).
Proof.
  unfold validate_scenario. intros Hv. no_issues. split; [assumption|]. by apply flat_map_none.
Qed.

(** C28: Every plan that resolves is safe to run, whatever the manifest says and
    whatever the host answers: its image is one of the approved ones by digest;
    no phase may reach the network, write outside /outputs or use devices, and
    run and exercise deny all network; its inputs are read-only, found in the
    snapshot and mounted apart below /inputs; every command runs a proper
    argument list or stops the service in cleanup, within 30 minutes; its
    schemas are bound to the snapshot; the mandatory observers are on; every
    repetition must succeed; and its digest is that of the plan itself. *)
Theorem resolved_plan_sound doc snapshot name t plan t' :
  Resolve doc snapshot name t = (Ok plan, t') → plan_sound snapshot plan.
Proof.
  intros (m & scenario & environment & journey & assertions & R)%resolve_inv.
  destruct (resolution_valid _ _ _ _ _ _ _ _ _ _ _ R) as (Hv & He%environment_accepted & Hs & Ha).
  destruct (scenario_parts _ _ _ Hv) as [Hphases Hinputs]. destruct (ad_features _ _ _ _ Ha) as [n Hf%features_accepted].
  destruct R as [_ _ _ _ _ _ Hassert (policy & digest & ->) Hdigest].
  destruct (ok_verification _ _ Hs) as ([Hlow Hhigh] & _ & _). pose proof (fo_threshold _ Hf) as Ht.
  split; cbn [fp_RuntimeAdapter fp_RuntimeVersion fp_BaseImageReference fp_BaseImageDigest fp_Capabilities fp_Inputs fp_Commands fp_JourneyAssertions
    fp_ObserverSet fp_RepeatCount fp_SuccessThreshold fp_Cleanup pcl_AllowedResidue fp_Source PlanDocument.with_digest resolved_plan].
  - destruct (admitted_runtime _ _ _ _ _ Ha He) as (a & Hin & E & _). by exists a.
  - by apply (resolved_capabilities_closed (sp_Environments (mf_Spec m))).
  - exact (resolved_inputs_sound _ _ _ (ad_inputs _ _ _ _ Ha) Hinputs).
  - exists (service_id scenario). exact (resolved_commands_ok _ _ _ Hs Hphases).
  - by eapply resolved_assertions_bound.
  - apply observers_always.
  - lia.
  - exact (fo_residue _ Hf).
  - reflexivity.
  - exact Hdigest.
Qed.

(** ** HTTP plans *)

Lemma contract_port name scenario exercise :
  validateHTTPAlphaExecutionContract name scenario = Ok tt → ph_Exercise (sn_Phases scenario) = Some exercise →
  dv_Type (ex_Driver exercise) = "http" →
  declared_port scenario ≠ 0
  ∧ ∃ d, ParseAlphaHTTPDuration (if ex_Timeout exercise =s "" then Duration_String Minute else ex_Timeout exercise) AlphaHTTPMaxRequestTime = Ok d.
Proof.
  unfold validateHTTPAlphaExecutionContract. intros Hc Hex Htype. rewrite Hex, Htype in Hc. cbn [negb String.eqb Ascii.eqb Bool.eqb] in Hc.
  apply fail_if_ok in Hc as [_ Hc]. destruct (http_service (sn_Phases scenario)) as [service|]; [|discriminate Hc].
  destruct (ph_Cleanup (sn_Phases scenario)) as [cleanup|]; [|discriminate Hc]. apply bind_Ok in Hc as ([] & Hr & Hc). apply fail_if_ok in Hc as [Hfb _].
  split.
  - unfold readiness_contract in Hr. destruct (rd_HTTP (sv_Readiness service)); [|discriminate Hr]. apply fail_if_ok in Hr as [Hr _].
    apply orb_false_elim in Hr as [_ Hr]. by apply Z.eqb_neq.
  - destruct (ParseAlphaHTTPDuration _ _) as [d|]; [by exists d|discriminate Hfb].
Qed.

Lemma alpha_duration_parse value maximum d :
  ParseAlphaHTTPDuration value maximum = Ok d → ParseDuration value = Some d ∧ AlphaHTTPMinimumDuration <= d.
Proof.
  unfold ParseAlphaHTTPDuration. destruct (ParseDuration value) as [x|]; cbn [of_option bind_result]; [|discriminate].
  intros Hd. apply fail_if_ok in Hd as [Ht [= <-]]. apply orb_false_elim in Ht as [[Ht _]%orb_false_elim _]. apply Z.ltb_ge in Ht. done.
Qed.
Lemma alpha_duration_same a b maximum : ParseDuration a = ParseDuration b → ParseAlphaHTTPDuration a maximum = ParseAlphaHTTPDuration b maximum.
Proof. unfold ParseAlphaHTTPDuration. by intros ->. Qed.

Definition alpha_timeout (text : string) : Prop := ∃ d, ParseAlphaHTTPDuration text AlphaHTTPMaxRequestTime = Ok d.

Lemma minimum_positive : 0 < AlphaHTTPMinimumDuration.
Proof. by vm_compute. Qed.

Lemma fallback_timeout exercise :
  alpha_timeout (if ex_Timeout exercise =s "" then Duration_String Minute else ex_Timeout exercise) →
  alpha_timeout (Duration_String (request_fallback exercise)).
Proof.
  intros [d Hd]. exists d. rewrite <- Hd. apply alpha_duration_same. apply alpha_duration_parse in Hd as [Hp Hpos]. unfold request_fallback.
  pose proof minimum_positive. destruct (String.eqb_spec (ex_Timeout exercise) "") as [E|_].
  - rewrite E. by vm_compute.
  - rewrite Hp. rewrite (proj2 (Z.leb_gt d 0)) by lia. apply duration_string_roundtrip. by eapply parse_duration_bound.
Qed.

(** The timeout of a request stays within the contract. *)
Lemma request_timeout value exercise :
  value = "" ∨ alpha_timeout value → alpha_timeout (Duration_String (request_fallback exercise)) →
  alpha_timeout (normalizedTimeout value (request_fallback exercise)).
Proof.
  intros [->|[d Hd]] Hf; [exact Hf|]. exists d. rewrite <- Hd. apply alpha_duration_same. apply alpha_duration_parse in Hd as [Hp _].
  rewrite Hp. by apply normalized_same.
Qed.

(** A request of a plan goes to the service's port, within the contract. *)
Definition plan_request_ok (port : Z) (r : PlanHTTPRequest) : Prop :=
  (∃ u, contract_url (prq_URL r) u port) ∧ alpha_timeout (prq_Timeout r)
  ∧ (prq_Body r = None ∨ prq_JSON r = None) ∧ NoDup (prq_Headers r).*1
  ∧ ∀ json, prq_JSON r = Some json → zlen json <= AlphaHTTPMaxRequestBodyBytes.

Lemma set_all_keys {A} (l acc : list (string * A)) : NoDup acc.*1 → NoDup (set_all l acc).*1.
Proof.
  unfold set_all. revert acc. induction l as [|p l IH]; intros acc Hd; [done|]. cbn [foldl]. apply IH. by apply assoc_set_NoDup.
Qed.

Lemma plan_request_accepted declaredPort exercise request r :
  declaredPort ≠ 0 → request_ok declaredPort request → alpha_timeout (Duration_String (request_fallback exercise)) →
  plan_request (request_fallback exercise) request = Ok r → plan_request_ok declaredPort r.
Proof.
  intros Hport (_ & _ & (u & port & Hu & Hsame) & Ht & _ & _ & Hone & _ & Hjson) Hfb. unfold plan_request.
  assert (port = declaredPort) as -> by (by destruct Hsame).
  assert (alpha_timeout (normalizedTimeout (rq_Timeout request) (request_fallback exercise))) as Htimeout by (by apply request_timeout).
  assert (NoDup (normalizedHTTPHeaders (rq_Headers request)).*1) as Hn by (apply set_all_keys; constructor).
  destruct (HasJSON request) eqn:Ej; cbn [bind_result].
  - destruct (Hjson eq_refl) as (encoded & Em & Hlen). rewrite Em. cbn [bind_result]. intros [= <-]. destruct Hone as [Hb|]; [|done].
    rewrite Hb. split_and!; cbn [prq_URL prq_Timeout prq_Body prq_JSON prq_Headers]; [by exists u|exact Htimeout|by left|exact Hn|by intros json [= <-]].
  - intros [= <-]. split_and!; cbn [prq_URL prq_Timeout prq_Body prq_JSON prq_Headers]; [by exists u|exact Htimeout|by right|exact Hn|done].
Qed.

(** *** Steps and assertions *)

Definition asserted_ids (steps : list PlanHTTPDriverStep) : list string :=
  omap (λ s, match pds_Request s with None => Some (pds_AssertionID s) | Some _ => None end) steps.

Lemma plan_steps_ids fallback steps resolved :
  Forall (λ s, ds_Request s = None ∨ ds_Assert s = None) steps → bind_all (plan_step fallback) steps = Ok resolved →
  asserted_ids resolved = List.map da_ID (asserted_steps steps).
Proof.
  intros Hs. revert resolved. induction Hs as [|step steps Hone _ IH]; intros resolved; cbn [bind_all]; [by intros [= <-]|].
  intros Hr. apply bind_Ok in Hr as (s & Hstep & Hr). apply bind_Ok in Hr as (rest & Hrest & [= <-]). specialize (IH _ Hrest).
  unfold plan_step in Hstep. unfold asserted_ids, asserted_steps in *. cbn [omap list_omap]. rewrite IH.
  destruct (ds_Request step) as [request|].
  - destruct Hone as [|Hone]; [discriminate|]. rewrite Hone. apply bind_Ok in Hstep as (r & _ & [= <-]). reflexivity.
  - destruct (ds_Assert step) as [a|]; [|discriminate Hstep]. injection Hstep as <-. reflexivity.
Qed.

Lemma resolved_ids snapshot index cache l t r t' :
  resolve_each (λ _, http_assertion snapshot) index cache l t = (Ok r, t') → List.map pa_ID r = List.map da_ID l.
Proof.
  revert index cache t r. induction l as [|x l IH]; intros index cache t r; cbn [resolve_each]; [by intros [-> _]%finish_ok|].
  intros ([a c] & t1 & Ha & Hr)%bind_task_ok. apply bind_task_ok in Hr as (more & t2 & Hm & Hr). apply finish_ok in Hr as [-> ->].
  cbn [List.map]. rewrite (IH _ _ _ _ Hm). f_equal. unfold http_assertion in Ha. apply bind_task_ok in Ha as ([? ?] & ? & _ & Ha).
  apply bind_task_ok in Ha as ([? ?] & ? & _ & Ha). by apply finish_ok in Ha as [[= -> _] _].
Qed.

(** *** The whole plan of a service *)

Definition service_commanded (port : Z) (serviceID : string) (commands : list PlanCommand) : Prop :=
  ∃ c r u, c ∈ commands ∧ pcm_Role c = "service" ∧ pcm_ID c = serviceID ∧ pcm_Readiness c = Some r ∧ contract_url (prd_URL r) u port.
Definition service_stopped_last (serviceID : string) (commands : list PlanCommand) : Prop :=
  ∃ before c signal, commands = before ++ [c] ∧ pcm_Signal c = Some signal ∧ psg_Target signal = serviceID.

Lemma cleanup_stops_last serviceID scenario :
  Forall step_ok (command_steps (ph_Cleanup (sn_Phases scenario))) →
  cleanup_ends_service serviceID (command_steps (ph_Cleanup (sn_Phases scenario))) →
  service_stopped_last serviceID (resolvedCommands scenario).
Proof.
  intros Hok (before & step & signal & grace & E & Es & Et & _). unfold resolvedCommands, command_phase, command_steps in *.
  destruct (ph_Cleanup (sn_Phases scenario)) as [p|]; [|by destruct before]. rewrite E in *. apply Forall_app in Hok as [_ Hok]. apply Forall_inv in Hok.
  rewrite flat_map_app. cbn [flat_map]. rewrite app_nil_r.
  assert (st_Run step = None) as Er by (destruct Hok as [_ [(run & _ & Hn & _)|(? & Hr & _)]]; [congruence|done]).
  assert (∀ timeout, step_commands PhaseCleanup timeout step = [signal_command PhaseCleanup timeout step signal]) as ->.
  { intros timeout. unfold step_commands, signal_step. by rewrite Er, Es. }
  rewrite !app_assoc.
  eexists _, _, _. split; [reflexivity|]. split; [reflexivity|]. exact Et.
Qed.

Lemma service_command_listed scenario service readiness u port :
  declared_service scenario = Some service → rd_HTTP (sv_Readiness service) = Some readiness → contract_url (hr_URL readiness) u port →
  service_commanded port (sv_ID service) (resolvedCommands scenario).
Proof.
  unfold declared_service. intros Hs Hr Hu. destruct (ph_Run (sn_Phases scenario)) as [run|] eqn:Erun; [|done].
  exists (service_command (normalizedTimeout (rn_Timeout run) (2 * Minute)) service), (plan_readiness readiness), u.
  split; [|split_and!; [done|done|by unfold service_command; cbn [pcm_Readiness]; rewrite Hr|exact Hu]].
  unfold resolvedCommands. rewrite !elem_of_app. do 3 right. left. unfold run_commands. rewrite Erun, Hs. apply elem_of_app. right. apply list_elem_of_here.
Qed.

Definition http_plan_closed (plan : FullPlan) (journey : PlanHTTPJourney) (port : Z) : Prop :=
  1 <= port <= 65535
  ∧ (∃ c, assoc PhaseRun (fp_Capabilities plan) = Some c
       ∧ elems (pc_Listen (cs_Ports c)) = [{| pb_Host := "127.0.0.1"; pb_Port := port; pb_Protocol := "tcp" |}])
  ∧ Forall (λ s, ∀ r, pds_Request s = Some r → plan_request_ok port r) (phj_Steps journey)
  ∧ asserted_ids (phj_Steps journey) = List.map pa_ID (fp_JourneyAssertions plan)
  ∧ service_commanded port (phj_ServiceID journey) (fp_Commands plan)
  ∧ service_stopped_last (phj_ServiceID journey) (fp_Commands plan).

Lemma run_listener scenario listener :
  http_driver (sn_Phases scenario) = true → elems (pc_Listen (cs_Ports (capability_of scenario PhaseRun))) = [listener] →
  pb_Host listener = "127.0.0.1" → pb_Protocol listener = "" ∨ pb_Protocol listener = "tcp" →
  ∃ c, assoc PhaseRun (resolvedCapabilities scenario) = Some c
    ∧ elems (pc_Listen (cs_Ports c)) = [{| pb_Host := "127.0.0.1"; pb_Port := pb_Port listener; pb_Protocol := "tcp" |}].
Proof.
  intros Hd Hl Hh Hp. unfold capability_of in Hl. destruct (assoc PhaseRun (sn_Capabilities scenario)) as [c|] eqn:Ec; [|done]. change (default zero_capabilities (Some c)) with c in Hl.
  exists (normal_capability true c). split.
  { unfold resolvedCapabilities, OrderedPhases. cbn [List.map assoc]. change (PhaseRun =s PhaseRun) with true. rewrite Ec, Hd. reflexivity. }
  unfold normal_capability. cbn [cs_Ports pc_Listen]. destruct (pc_Listen (cs_Ports c)) as [l|]; [|done]. cbn [elems default option_map] in *. subst l.
  unfold by_address. cbn [List.map sort_keys foldr insert_key fmap list_fmap snd]. unfold with_tcp.
  destruct listener as [host port protocol]. cbn [pb_Host pb_Port pb_Protocol] in *. subst host. by destruct Hp as [->| ->].
Qed.

(** C29: In a plan of an HTTP journey everything meets on one port that the plan
    declares: the only listener is TCP on 127.0.0.1, the service is probed and
    every request is sent at a canonical URL of that port, with a timeout of the
    contract, a body or JSON of at most 1 MiB and header names that differ; the
    steps name exactly the plan's assertions, in order; and the last command of
    the plan stops the service. *)
Theorem resolved_http_closed doc snapshot name t plan t' journey :
  Resolve doc snapshot name t = (Ok plan, t') → fp_HTTPJourney plan = Some journey → ∃ port, http_plan_closed plan journey port.
Proof.
  intros (m & scenario & environment & journey' & assertions & R)%resolve_inv Hj.
  destruct (resolution_valid _ _ _ _ _ _ _ _ _ _ _ R) as (_ & _ & Hs & Ha). destruct (ad_executable _ _ _ _ Ha) as [n Hexec].
  destruct R as [_ _ _ _ _ Hjourney Hassert (policy & digest & ->) _]. cbn [fp_HTTPJourney PlanDocument.with_digest resolved_plan] in Hj. subst journey'.
  destruct (ok_exercise _ _ Hs) as (exercise & Ex & _ & Hkind). unfold resolvedHTTPJourney in Hjourney. rewrite Ex in Hjourney.
  destruct Hkind as [(Ht & _)|(Ht & _ & _ & prefix & Hprofile)]; rewrite Ht in Hjourney; cbn [String.eqb Ascii.eqb Bool.eqb negb] in Hjourney; [discriminate|].
  apply profile_accepted in Hprofile; [|apply (ok_service _ _ Hs)].
  destruct Hprofile as (service & readiness & listener & Hserv & Hread & Hlisten & Hhost & Hprot & (u & port & Hu & Hport) & Hsteps & _ & _ & _ & _ & Hclean).
  unfold validateExecutableProfile in Hexec. apply bind_Ok in Hexec as ([] & _ & Hexec). rewrite Ex, Ht in Hexec. cbn [String.eqb Ascii.eqb Bool.eqb] in Hexec.
  apply bind_Ok in Hexec as ([] & Hcontract & _). destruct (contract_port _ _ _ Hcontract Ex Ht) as [Hnz Hfb%fallback_timeout].
  unfold declared_port in Hnz. rewrite Hlisten in Hnz. assert (port = pb_Port listener) as -> by (by destruct Hport).
  apply bind_Ok in Hjourney as (service' & Hs' & Hjourney). apply bind_Ok in Hjourney as (steps & Hsteps' & [= <-]).
  assert (service' = service) as ->.
  { unfold http_service, declared_service in *. rewrite Hserv in Hs'. by injection Hs'. }
  exists (pb_Port listener). unfold http_plan_closed. cbn [fp_Capabilities fp_Commands fp_JourneyAssertions PlanDocument.with_digest resolved_plan phj_Steps phj_ServiceID].
  split_and!.
  - by destruct Hu as (? & ? & _ & _ & [? _] & _).
  - by destruct Hu as (? & ? & _ & _ & [_ ?] & _).
  - apply run_listener; [|done|done|done]. unfold http_driver. by rewrite Ex, Ht.
  - eapply (bind_all_forall _ (λ s, ∀ request, ds_Request s = Some request → request_ok (pb_Port listener) request)); [| |exact Hsteps'].
    + intros x y Hx Hy r Hr. unfold plan_step in Hy. destruct (ds_Request x) as [request|]; [|by destruct (ds_Assert x); [injection Hy as <-|]].
      apply bind_Ok in Hy as (r' & Hr' & [= <-]). injection Hr as ->. by eapply plan_request_accepted; [done|by apply Hx|done|].
    + apply Forall_lookup. intros j step Hjs request Hr. destruct (Hsteps j step Hjs) as [(r & Er & _ & Hok)|(a & Er & _)]; congruence.
  - assert (Forall (λ s, ds_Request s = None ∨ ds_Assert s = None) (dv_Steps (ex_Driver exercise))) as Hone.
    { apply Forall_lookup. intros j step Hjs. destruct (Hsteps j step Hjs) as [(r & _ & En & _)|(a & En & _)]; [by right|by left]. }
    rewrite (plan_steps_ids _ _ _ Hone Hsteps').
    unfold resolvedAssertions in Hassert. rewrite Ex, Ht in Hassert. cbn [String.eqb Ascii.eqb Bool.eqb] in Hassert. symmetry. by eapply resolved_ids.
  - by eapply service_command_listed.
  - apply cleanup_stops_last; [|done]. pose proof (ok_steps _ _ Hs) as Hall. unfold scenario_steps in Hall.
    by repeat (apply Forall_app in Hall as [_ Hall]).
Qed.
End planner.

(** ** Resources *)

Lemma div_half_even_between x b k : 0 < b → 0 <= x →
  (k * b <= x → k <= div_half_even x b) ∧ (x <= k * b → div_half_even x b <= k).
Proof.
  intros Hb Hx. unfold div_half_even. pose proof (Z.div_mod x b) as Hdm. pose proof (Z.mod_pos_bound x b Hb) as Hm.
  set (q := x / b) in *. set (r := x mod b) in *. split; intros Hk.
  - assert (k <= q) by (apply Z.div_le_lower_bound; lia). destruct (b <? 2 * r); [lia|]. destruct (2 * r <? b); [lia|]. destruct (Z.even q); lia.
  - assert (q < k ∨ q = k ∧ r = 0) as [Hq|[-> Hr]] by nia.
    + destruct (b <? 2 * r); [lia|]. destruct (2 * r <? b); [lia|]. destruct (Z.even q); lia.
    + rewrite Hr. rewrite (proj2 (Z.ltb_ge b (2 * 0))), (proj2 (Z.ltb_lt (2 * 0) b)) by lia. done.
Qed.

(** Rounding to a float crosses no integer below 2^17. *)
Lemma round_float_between num den lo hi :
  0 < num → 0 < den → 0 <= lo → hi <= 2 ^ 17 → lo * den <= num <= hi * den →
  lo <= float_to_int (round_float false num den) <= hi.
Proof.
  intros Hn Hd Hlo Hhi [Hl Hh]. assert (num < den * 2 ^ 18) as Hlt by (change (2 ^ 18) with (2 * 2 ^ 17); nia).
  assert (Z.log2 num - Z.log2 den <= 18) as Hlog.
  { assert (Z.log2 num <= Z.log2 (den * 2 ^ 18)) as Hle by (apply Z.log2_le_mono; lia). rewrite Z.log2_mul_pow2 in Hle by lia. lia. }
  unfold round_float. rewrite (proj2 (Z.eqb_neq num 0)) by lia.
  set (e0 := Z.max (Z.log2 num - Z.log2 den - 53) (- 1074)). assert (e0 <= - 35) as He0 by lia.
  set (e := let '(a, b) := if 0 <=? e0 then _ else _ in if 2 ^ 53 <=? a / b then e0 + 1 else e0). assert (e < 0) as He.
  { subst e. destruct (if 0 <=? e0 then _ else _) as [a b]. destruct (2 ^ 53 <=? a / b); lia. }
  clearbody e. rewrite (proj2 (Z.leb_gt 0 e)) by lia. cbn [andb]. unfold float_to_int, magnitude. rewrite (proj2 (Z.leb_gt 0 e)) by lia. cbn iota.
  assert (0 < 2 ^ (- e)) as Hp by (apply Z.pow_pos_nonneg; lia).
  destruct (div_half_even_between (num * 2 ^ (- e)) den (lo * 2 ^ (- e)) Hd) as [Hge _]; [nia|].
  destruct (div_half_even_between (num * 2 ^ (- e)) den (hi * 2 ^ (- e)) Hd) as [_ Hle]; [nia|].
  specialize (Hge ltac:(nia)). specialize (Hle ltac:(nia)). split.
  - apply Z.div_le_lower_bound; lia.
  - transitivity (hi * 2 ^ (- e) / 2 ^ (- e)); [apply Z.div_le_mono; lia|]. by rewrite Z.div_mul by lia.
Qed.

Definition natural_mantissa (f : float64) : Prop := match f with FFin _ m _ => 0 <= m | _ => True end.
(** As every float the decoder makes. *)
Definition real_amount (value : any) : Prop := ∀ f, value = VFloat f → natural_mantissa f.

Lemma round_float_sign neg num den :
  round_float neg num den = match round_float false num den with FFin _ m e => FFin neg m e | FInf _ => FInf neg | FNaN => FNaN end.
Proof.
  unfold round_float. destruct (num =? 0); [done|]. cbv zeta. match goal with |- (let '(a, b) := ?x in _) = _ => destruct x as [a b] end.
  match goal with |- (if ?t then _ else _) = _ => by destruct t end.
Qed.
Lemma round_float_mantissa neg num den : 0 <= num → 0 < den → natural_mantissa (round_float neg num den).
Proof.
  intros Hn Hd. pose proof (round_float_nonneg num den Hn Hd) as Hr. rewrite round_float_sign. destruct (round_float false num den); [done|done|].
  by destruct Hr.
Qed.
Lemma int_mantissa z : natural_mantissa (int_to_float z).
Proof. apply round_float_mantissa; lia. Qed.

Lemma float_digit_nonneg hex c v : float_digit hex c = Some v → 0 <= v.
Proof.
  unfold float_digit. destruct (is_digit c) eqn:E; [|destruct hex; [|done]; destruct (hex_val c); [|done]; intros [= <-]; lia].
  intros [= <-]. apply digit_val_N in E as [_ E]. unfold digit_val in E. lia.
Qed.
Lemma scan_mantissa_nonneg hex acc frac dot digits under s :
  0 <= acc → 0 <= frac →
  0 <= sc_mantissa (scan_mantissa hex acc frac dot digits under s) ∧ 0 <= sc_fraction (scan_mantissa hex acc frac dot digits under s).
Proof.
  revert acc frac dot digits under. induction s as [|c s IH]; intros acc frac dot digits under Ha Hf; cbn [scan_mantissa]; [done|].
  destruct (Ascii.eqb c "_"); [by apply IH|]. destruct (Ascii.eqb c "."); [destruct dot; [done|by apply IH]|].
  destruct (float_digit hex c) as [v|] eqn:E; [|done]. apply float_digit_nonneg in E. apply IH; [destruct hex; lia|destruct dot; lia].
Qed.
Lemma finite_mantissa neg hex m frac e : 0 <= m → 0 <= frac → natural_mantissa (finite_value neg hex m frac e).
Proof.
  intros Hm Hf. unfold finite_value. assert (0 < (if hex then 16 else 10) ^ frac) by (apply Z.pow_pos_nonneg; destruct hex; lia).
  assert (∀ k, 0 <= k → 0 < (if hex then 2 else 10) ^ k) as Hb by (intros k Hk; apply Z.pow_pos_nonneg; destruct hex; lia).
  destruct (Z.leb_spec 0 e); (apply round_float_mantissa; [|]); try done.
  - pose proof (Hb e). nia.
  - pose proof (Hb (- e)). nia.
Qed.
Lemma parsed_mantissa s f : ParseFloat s = Some f → natural_mantissa f.
Proof.
  unfold ParseFloat. destruct (unsigned_text s) as [neg body]. destruct (_ || _); [by intros [= <-]|]. destruct (to_lower s =s "nan"); [by intros [= <-]|].
  destruct (match hex_prefix body with Some (String c r) => _ | _ => _ end) as [hex digits].
  destruct (scan_mantissa_nonneg hex 0 0 false false false digits) as [Hm Hf]; [lia|lia|].
  destruct (negb (sc_digits _)); [done|]. destruct (scan_float_exponent hex _) as [[[e under] rest]|]; [|done]. cbn [mbind option_bind].
  destruct (_ || _); [done|]. pose proof (finite_mantissa neg hex _ _ e Hm Hf) as Hr.
  destruct (finite_value neg hex _ _ e); [done|done|]. by intros [= <-].
Qed.

Lemma amount_in_range neg m e : 0 <= m → cpu_in_range (FFin neg m e) = true →
  neg = false ∧ let '(a, b) := magnitude m e in 0 < a ∧ 0 < b ∧ b <= 1000 * a <= 64000 * b.
Proof.
  intros Hm. unfold cpu_in_range, float_between. pose proof (magnitude_nonneg m e Hm) as [Ha Hb]. destruct (magnitude m e) as [a b]. cbn [fst snd] in *.
  intros [Hl%Z.leb_le Hh%Z.leb_le]%andb_prop. destruct neg; [lia|]. split; [done|]. lia.
Qed.

Lemma thousand : holds_nat (int_to_float 1000) 1000.
Proof. apply int_to_float_exact. lia. Qed.

Lemma scaled_amount neg m e : 0 <= m → cpu_in_range (FFin neg m e) = true →
  float_positive (FFin neg m e) = true ∧ 1 <= float_to_int (float_mul (FFin neg m e) (int_to_float 1000)) <= 64000.
Proof.
  intros Hm Hr. destruct (amount_in_range neg m e Hm Hr) as [-> Hab]. destruct thousand as (m' & e' & -> & H1 & H2 & _).
  unfold float_positive, int_lt_float, float_mul. destruct (magnitude m e) as [a b], (magnitude m' e') as [a' b']. cbn [fst snd xorb] in *. subst a'.
  destruct Hab as (Ha & Hb & Hlo & Hhi). split; [apply Z.ltb_lt; lia|]. apply round_float_between; [nia|nia|lia|by vm_compute|split; nia].
Qed.

Lemma in_range_finite f : cpu_in_range f = true → natural_mantissa f → float_positive f = true ∧ 1 <= float_to_int (float_mul f (int_to_float 1000)) <= 64000.
Proof. destruct f as [| |neg m e]; [discriminate|discriminate|]. intros Hr Hm. by apply scaled_amount. Qed.

(** What [validCPU] accepts is between 1 and 64000 thousandths of a core. *)
Lemma cpu_bounded value : real_amount value → validCPU value = true → 1 <= parseCPU value <= 64000.
Proof.
  intros Hreal Hv. assert (cpu_in_range (cpu_amount value) = true ∧ natural_mantissa (cpu_amount value)) as [Hr Hm].
  { destruct value; cbn [validCPU cpu_amount] in *; try discriminate Hv; try (split; [exact Hv|]; first [apply int_mantissa|by apply Hreal]).
    destruct (ParseFloat s) as [f|] eqn:E; [|discriminate Hv]. split; [exact Hv|]. by eapply parsed_mantissa. }
  unfold parseCPU. cbv zeta. destruct (in_range_finite _ Hr Hm) as [-> Hb]. exact Hb.
Qed.

(** *** Sizes *)

Lemma class_rune P x : in_class P x = true → ∃ c, x = Some (String c "") ∧ P c = true.
Proof. destruct x as [[|c [|d s]]|]; try done. intros Hp. by exists c. Qed.

Ltac inv_match :=
  repeat match goal with
  | H : matches (RCat _ _) _ _ |- _ => inversion H; clear H; subst
  | H : matches (RAlt _ _) _ _ |- _ => inversion H; clear H; subst
  | H : matches (RGroup _) _ _ |- _ => inversion H; clear H; subst
  | H : matches RBegin _ _ |- _ => inversion H; clear H; subst
  | H : matches REnd _ _ |- _ => inversion H; clear H; subst
  | H : matches REps _ _ |- _ => inversion H; clear H; subst
  | H : matches (RSet _) _ _ |- _ => inversion H; clear H; subst
  | H : matches (RRep _ _ _) _ _ |- _ => inversion H; clear H; subst
  end.

Fixpoint byte_runes (s : string) : list rune := match s with EmptyString => [] | String c s' => Some (String c "") :: byte_runes s' end.
Lemma byte_runes_text s : runes_text (byte_runes s) = s.
Proof. unfold runes_text. induction s as [|c s IH]; [done|]. cbn in *. by rewrite IH. Qed.
Lemma byte_runes_app a b : byte_runes (a +:+ b) = byte_runes a ++ byte_runes b.
Proof. induction a as [|c a IH]; [done|]. rewrite app_string_cons. cbn [byte_runes app]. by rewrite IH. Qed.
Lemma byte_runes_of s t : runes s = byte_runes t → s = t.
Proof.
  intros E. assert (utf8_valid s = true) as Hv.
  { unfold utf8_valid. rewrite E. clear E. by induction t. }
  rewrite <- (sanitize_valid s Hv), <- (byte_runes_text t), <- E. reflexivity.
Qed.

Lemma digit_runes xs : Forall (λ x, in_class is_digit x = true) xs → ∃ ds, xs = byte_runes ds ∧ string_forallb is_digit ds = true.
Proof.
  induction 1 as [|x xs Hx _ (ds & -> & Hd)]; [by exists ""|]. apply class_rune in Hx as (c & -> & Hc).
  exists (String c ds). split; [done|]. cbn. by rewrite Hc.
Qed.

Definition size_shape (to : mstate) (l : list rune) : Prop :=
  ∃ c ds unit, l = byte_runes (String c (ds +:+ unit)) ∧ m_groups to = [byte_runes (String c ds); byte_runes unit]
    ∧ in_range 49 57 c = true ∧ string_forallb is_digit ds = true ∧ unit ∈ ["KiB"; "MiB"; "GiB"].

Lemma unit_matches st st' :
  matches (ROneOf [RLit false "KiB"; RLit false "MiB"; RLit false "GiB"]) st st' →
  ∃ unit, unit ∈ ["KiB"; "MiB"; "GiB"] ∧ m_rest st = byte_runes unit ++ m_rest st' ∧ m_pos st' = (m_pos st + 3)%nat ∧ m_groups st' = m_groups st.
Proof.
  cbn [ROneOf RLit]. intros Hm. inv_match;
    repeat match goal with H : in_class _ _ = true |- _ => apply class_rune in H as (? & -> & ?%Ascii.eqb_eq); subst end;
    [exists "KiB"|exists "MiB"|exists "GiB"]; (split; [set_solver|]); cbn [m_rest m_pos m_groups]; split_and!; first [reflexivity|lia].
Qed.

Lemma cat_inv r1 r2 st st' : matches (RCat r1 r2) st st' → ∃ mid, matches r1 st mid ∧ matches r2 mid st'.
Proof. inversion 1; subst. eauto. Qed.
Lemma group_inv r st st' : matches (RGroup r) st st' → ∃ mid, matches r st mid ∧ st' = capture st mid.
Proof. inversion 1; subst. eauto. Qed.

Lemma digits_match st st' :
  matches (RSeq [class (in_range 49 57); RMany (in_class is_digit)]) st st' →
  ∃ c ds, in_range 49 57 c = true ∧ string_forallb is_digit ds = true ∧ m_rest st = byte_runes (String c ds) ++ m_rest st'
    ∧ m_pos st' = (m_pos st + length (byte_runes (String c ds)))%nat ∧ m_groups st' = m_groups st.
Proof.
  cbn [RSeq]. intros (mid & H1 & H2)%cat_inv. unfold class in H1. inversion H1 as [P x l pos gs Hx| | | | | | | | | |]; subst.
  unfold RMany in H2. inversion H2 as [| | | | | | | | |P lo hi xs l' pos' gs' Hxs Hlo Hhi|]; subst.
  apply class_rune in Hx as (c & -> & Hc). apply digit_runes in Hxs as (ds & -> & Hd). exists c, ds.
  cbn [m_rest m_pos m_groups byte_runes]. split_and!; [done|done|done| |done]. cbn [length]. lia.
Qed.

Lemma size_matches from to : matches sizePattern from to → m_pos from = 0%nat ∧ (m_groups from = [] → size_shape to (m_rest from)).
Proof.
  unfold sizePattern. cbn [RSeq]. intros (s1 & H1 & H2)%cat_inv. inversion H1 as [|l gs| | | | | | | | |]; subst. cbn [m_pos m_groups m_rest]. split; [done|].
  intros ->. apply cat_inv in H2 as (s2 & H2 & H3). apply group_inv in H2 as (s2' & H2 & ->). apply digits_match in H2 as (c & ds & Hc & Hd & Hr & Hp & Hg).
  apply cat_inv in H3 as (s3 & H3 & H4). apply group_inv in H3 as (s3' & H3 & ->). apply unit_matches in H3 as (unit & Hu & Hr' & Hp' & Hg').
  unfold capture in *. cbn [m_pos m_rest m_groups] in *. revert Hr.
  inversion H4 as [| |pos gs| | | | | | | |]; subst. intros Hr. cbn [m_groups].
  exists c, ds, unit.
  assert (m_rest s3' = []) as Hend by congruence. rewrite Hend, app_nil_r in Hr'. rewrite Hr' in Hr.
  split_and!; [| |done|done|done].
  - rewrite Hr. change (String c (ds +:+ unit)) with (String c ds +:+ unit). by rewrite byte_runes_app.
  - cbn [m_groups]. rewrite Hg', Hg, Hr', Hp', Hr, Hp. cbn [app].
    assert (∀ a n, take (a + n - a) (byte_runes unit) = take n (byte_runes unit)) as -> by (intros a n; f_equal; lia).
    rewrite Nat.add_0_l, Nat.sub_0_r, take_app_length.
    rewrite !elem_of_cons, elem_of_nil in Hu. destruct Hu as [->|[->|[->|[]]]]; reflexivity.
Qed.

Lemma first_match_elem r candidates from to : first_match r candidates = Some (from, to) → from ∈ candidates ∧ matches r from to.
Proof.
  induction candidates as [|st rest IH]; cbn [first_match]; [done|]. destruct (results r st) as [|x l] eqn:E.
  - intros [? ?]%IH. split; [by apply list_elem_of_further|done].
  - intros [= <- <-]. split; [apply list_elem_of_here|]. apply results_exact. rewrite E. apply list_elem_of_here.
Qed.

(** What [validSize] accepts: a number without a leading zero, and a unit. *)
Lemma size_submatch value w digits unit :
  FindStringSubmatch sizePattern value = [w; digits; unit] →
  value = digits +:+ unit ∧ unit ∈ ["KiB"; "MiB"; "GiB"] ∧ ∃ c ds, digits = String c ds ∧ in_range 49 57 c = true ∧ string_forallb is_digit ds = true.
Proof.
  unfold FindStringSubmatch. destruct (first_match sizePattern _) as [[from to]|] eqn:E; [|discriminate].
  apply first_match_elem in E as [Hin Hm]. apply starts_elem in Hin as (before & after & Hl & ->). apply size_matches in Hm as [Hpos Hshape].
  cbn [m_pos m_groups m_rest] in *. assert (before = []) as -> by (by destruct before). cbn [app] in Hl. subst after.
  destruct (Hshape eq_refl) as (c & ds & u & Hr & Hg & Hc & Hd & Hu). rewrite Hg. cbn [List.map]. rewrite !byte_runes_text. intros [= _ <- <-].
  split_and!; [by apply byte_runes_of|done|]. by exists c, ds.
Qed.

Lemma substring_prefix a b : String.substring 0 (slen a) (a +:+ b) = a.
Proof. induction a as [|c a IH]; [by destruct b|]. rewrite app_string_cons. cbn [String.length String.substring]. by rewrite IH. Qed.

Lemma has_suffix_same d u v : slen u = slen v → has_suffix u (d +:+ v) = (v =s u).
Proof.
  intros Hl. unfold has_suffix. rewrite slen_app, Hl. rewrite (proj2 (Nat.leb_le _ _)) by lia.
  replace (slen d + slen v - slen v)%nat with (slen d) by lia. by rewrite drop_string_app.
Qed.
Lemma trim_suffix_app d u : trim_suffix u (d +:+ u) = d.
Proof.
  unfold trim_suffix. rewrite has_suffix_same, string_eqb_refl by done. rewrite slen_app. replace (slen d + slen u - slen u)%nat with (slen d) by lia.
  apply substring_prefix.
Qed.

Lemma leading_positive c ds amount : in_range 49 57 c = true → parse_int 64 (String c ds) = Some amount → 0 < amount.
Proof.
  unfold in_range. intros [Hc%N.leb_le _]%andb_prop. unfold parse_int. rewrite (proj2 (N.eqb_neq (byte_val c) 45)), (proj2 (N.eqb_neq (byte_val c) 43)) by lia.
  destruct (_ || _); [done|]. destruct (_ && _); [|done]. intros [= <-]. cbn [digits_val].
  pose proof (digits_val_ge (0 * 10 + (byte_val c - 48)) ds). lia.
Qed.

Lemma wrap64_bounded z : 0 <= z <= 2 ^ 50 → wrap64 z = z.
Proof. intros Hz. apply wrap64_small. unfold is_int64, int_min, int_max. apply andb_true_intro. split; apply Z.leb_le; lia. Qed.

(** A size the validator accepts does not overflow: at most 2^50 bytes. *)
Lemma size_bounded value : validSize value = true → 1 <= parseSize value <= 2 ^ 50.
Proof.
  unfold validSize. destruct (FindStringSubmatch sizePattern value) as [|w [|digits [|unit [|? ?]]]] eqn:E; try discriminate.
  apply size_submatch in E as (-> & Hu & c & ds & -> & Hc & _). destruct (parse_int 64 (String c ds)) as [amount|] eqn:Ep; [|discriminate].
  pose proof (leading_positive _ _ _ Hc Ep) as Hpos. intros Hle%Z.leb_le.
  assert (parseSize (String c ds +:+ unit) = wrap64 (amount * size_multiplier unit)) as ->.
  { unfold parseSize, size_units. cbn [parse_size]. rewrite !elem_of_cons, elem_of_nil in Hu.
    destruct Hu as [->|[->|[->|[]]]]; rewrite !has_suffix_same by done; cbn [String.eqb Ascii.eqb Bool.eqb];
      rewrite trim_suffix_app, Ep, (proj2 (Z.ltb_lt 0 amount) Hpos); reflexivity. }
  assert (1 <= size_multiplier unit) as Hm by (unfold size_multiplier; destruct (unit =s "MiB"), (unit =s "GiB"); done).
  assert (amount * size_multiplier unit <= 2 ^ 50) as Hb.
  { transitivity (2 ^ 50 / size_multiplier unit * size_multiplier unit); [nia|]. rewrite Z.mul_comm. apply Z.mul_div_le. lia. }
  rewrite wrap64_bounded; nia.
Qed.

Section bounded.
Context `{RegexpSyntax} `{Host} `{SchemaCompiler}.

(** C30: The limits of a resolved plan are positive and bounded, without overflow
    on the way from the manifest's texts: 1 to 64000 thousandths of a core, 1 to
    2^50 bytes of memory and of disk, 1 to 4096 processes, and 1 to 30 minutes
    at most for every command. *)
Theorem resolved_limits_bounded doc m snapshot name t plan t' :
  dc_Manifest doc = Some m → Forall (λ e, real_amount (rs_CPU (en_Resources e.2))) (sp_Environments (mf_Spec m)) →
  Resolve doc snapshot name t = (Ok plan, t') →
  1 <= rl_CPUMillis (fp_Resources plan) <= 64000
  ∧ 1 <= rl_MemoryBytes (fp_Resources plan) <= 2 ^ 50 ∧ 1 <= rl_DiskBytes (fp_Resources plan) <= 2 ^ 50
  ∧ 1 <= rl_PIDs (fp_Resources plan) <= 4096
  ∧ Forall (λ c, bounded_timeout (pcm_Timeout c)) (fp_Commands plan).
Proof.
  intros Hm Hreal (m' & scenario & environment & journey & assertions & R)%resolve_inv.
  destruct (resolution_valid _ _ _ _ _ _ _ _ _ _ _ R) as (Hv & (_ & _ & _ & _ & Hpids & Hcpu & Hmem & Hdisk)%environment_accepted & Hs & _).
  destruct (scenario_parts _ _ _ Hv) as [Hphases _]. pose proof (rv_environment _ _ _ _ _ _ _ _ _ _ _ R) as Henv.
  destruct R as [Hm' _ _ _ _ _ _ (policy & digest & ->) _]. assert (m' = m) as -> by congruence. rewrite Forall_forall in Hreal.
  cbn [snd fp_Resources fp_Commands PlanDocument.with_digest resolved_plan rl_CPUMillis rl_MemoryBytes rl_DiskBytes rl_PIDs] in *.
  split; [apply cpu_bounded; [exact (Hreal _ Henv)|exact Hcpu]|]. split; [by apply size_bounded|]. split; [by apply size_bounded|]. split; [exact Hpids|].
  eapply Forall_impl; [exact (resolved_commands_ok _ _ _ Hs Hphases)|]. by intros c [Hc _].
Qed.
End bounded.

(** ** Plans that resolve *)

#[local] Instance any_expression : RegexpSyntax := {| compiles := λ _, true |}.
Definition approved_environment : EnvironmentSpec :=
  {| en_Platform := {| pl_OS := "linux"; pl_Architecture := "amd64" |}; en_Runtime := {| rt_Adapter := "node"; rt_Version := NodeVersion |};
     en_BaseImage := {| bi_Reference := NodeReference |}; en_Resources := en_Resources example_environment; en_RequiredServices := None;
     en_RequiredRunnerFeatures := None |}.
Definition strict (s : ScenarioSpec) : ScenarioSpec :=
  {| sn_Title := ""; sn_Description := ""; sn_Purpose := ""; sn_Audience := ""; sn_Environment := "node"; sn_Inputs := sn_Inputs s;
     sn_Phases := sn_Phases s; sn_Capabilities := sn_Capabilities s; sn_Secrets := [];
     sn_Verification := {| vs_Repeats := 3; vs_SuccessThreshold := 3; vs_RequiredObservers := ["process-exec"];
                           vs_Cleanup := {| cl_AllowedResidue := ["/outputs/**"] |}; vs_StabilityRule := ""; vs_ResourceVariancePercent := None |} |}.
Definition planned_manifest : Manifest :=
  {| mf_APIVersion := APIVersion; mf_Kind := Kind; mf_Metadata := mf_Metadata example_manifest;
     mf_Spec :=
       {| sp_Project := sp_Project (mf_Spec example_manifest); sp_Environments := [("node", approved_environment)];
          sp_Scenarios := [("quickstart", strict quickstart.2); ("serve", strict serve.2)]; sp_Policies := {| po_Profile := "baseline-v1" |};
          sp_Evidence := {| ev_Profile := "minimal-public"; ev_Include := Some ["verification-summary"; "normalized-observations"];
                            ev_Exclude := Some ["raw-stdout"; "raw-stderr"; "raw-syscall-trace"] |} |} |}.
Definition planned_document : Document := {| dc_Manifest := Some planned_manifest; dc_Digest := "sha256:manifest"; dc_Path := "" |}.
Definition planned_snapshot : SourceSnapshot :=
  {| ss_Identity := "local"; ss_Commit := ""; ss_TreeDigest := "sha256:tree"; ss_Root := "/repo";
     ss_Inventory := [{| fe_Path := "fixtures/data.json"; fe_Mode := "0644"; fe_Size := 4; fe_Digest := digest_text example_content |}];
     ss_TotalSize := 4; ss_FileCount := 1 |}.
#[local] Instance one_file : Host := static_file "/repo" "schemas/any.json" example_content.

Example both_resolve :
  (match (Resolve planned_document planned_snapshot "quickstart" 0%nat).1 with Ok p => "" | Err e => er_Message e end,
   match (Resolve planned_document planned_snapshot "serve" 0%nat).1 with Ok p => "" | Err e => er_Message e end) = ("", "").
Proof. vm_compute. reflexivity. Qed.

Definition planned (name : string) : FullPlan :=
  match (Resolve planned_document planned_snapshot name 0%nat).1 with Ok p => p | Err _ => example_plan 1 1 end.
Lemma served : Resolve planned_document planned_snapshot "serve" 0%nat = (Ok (planned "serve"), 0%nat).
Proof. vm_compute. reflexivity. Qed.

Lemma resolved_plan_sound_witness : plan_sound planned_snapshot (planned "serve").
Proof. apply (resolved_plan_sound planned_document planned_snapshot "serve" 0%nat (planned "serve") 0%nat). exact served. Defined.

Lemma resolved_http_closed_witness : ∃ journey port, fp_HTTPJourney (planned "serve") = Some journey ∧ http_plan_closed (planned "serve") journey port.
Proof.
  assert (∃ journey, fp_HTTPJourney (planned "serve") = Some journey) as [journey Hj] by (eexists; vm_compute; reflexivity).
  destruct (resolved_http_closed planned_document planned_snapshot "serve" 0%nat (planned "serve") 0%nat journey served Hj) as [port Hp].
  exists journey, port. split; [exact Hj|exact Hp].
Defined.

Lemma resolved_limits_bounded_witness :
  1 <= rl_CPUMillis (fp_Resources (planned "serve")) <= 64000 ∧ fp_Resources (planned "serve")
    = {| rl_CPUMillis := 500; rl_MemoryBytes := 2 ^ 29; rl_DiskBytes := 2 ^ 30; rl_PIDs := 128 |}.
Proof.
  split; [|vm_compute; reflexivity].
  apply (resolved_limits_bounded planned_document planned_manifest planned_snapshot "serve" 0%nat (planned "serve") 0%nat);
    [reflexivity|repeat constructor; discriminate|exact served].
Defined.

Lemma input_admission_exact_witness : validateResolvedInputs planned_snapshot (strict quickstart.2) = Ok tt.
Proof.
  apply (input_admission_exact planned_snapshot (strict quickstart.2) [example_input] (reflexivity _)). split.
  - apply Forall_singleton. split; vm_compute; reflexivity.
  - intros [|i] [|j] a b Ha Hb Hne; try done.
Defined.
