(* ===== verification/ExecutionPlan.v ===== *)
(** * The plan as the runner checks it (internal/execution: runner.go, http_plan.go)

    [validatePlan] and [validateHTTPPlan]: what the runner requires of a plan
    before it prepares anything, whoever wrote the plan.  A plan whose list of
    allowed residue is [nil] is refused by the code; the type of plans has no
    such list.  The maps of a plan are visited in an unspecified order, here in
    the order of their association lists. *)

From S2P Require Import Prelude Json StructuredJson SemanticEqual JsonPath JsonUnmarshal GoValue Durations Domain GoPath GoStrings CleanupInventory Url Regex HttpContract PlanTypes ManifestValidate PlanContract RuntimePolicy SchemaSource.

Local Open Scope Z_scope.

Definition CodeResourceLimitExceeded := "RESOURCE_LIMIT_EXCEEDED".

(** ** The configuration of a runner *)

Record Config := {
  cf_DoctorTimeout : Z; cf_DoctorOutputBytes : Z; cf_PrepareTimeout : Z; cf_CreateTimeout : Z; cf_CleanupTimeout : Z; cf_ExportTimeout : Z;
  cf_DefaultStepTimeout : Z; cf_MaxStepTimeout : Z; cf_MaxLogBytes : Z; cf_MaxHTTPControlBytes : Z; cf_MaxHTTPRequestBytes : Z;
  cf_MaxHTTPResponseBytes : Z; cf_MaxHTTPHeaderBytes : Z; cf_MaxSourceFiles : Z; cf_MaxSourceBytes : Z; cf_MaxDiskBytes : Z;
  cf_MaxPIDs : Z; cf_MaxMemoryBytes : Z; cf_MaxCPUMillis : Z; cf_TemporaryBytes : Z }.

Definition DefaultConfig : Config :=
  {| cf_DoctorTimeout := 15 * Second; cf_DoctorOutputBytes := 2 ^ 20; cf_PrepareTimeout := 2 * Minute; cf_CreateTimeout := 30 * Second;
     cf_CleanupTimeout := 15 * Second; cf_ExportTimeout := 2 * Minute; cf_DefaultStepTimeout := 5 * Minute; cf_MaxStepTimeout := 30 * Minute;
     cf_MaxLogBytes := 4 * 2 ^ 20; cf_MaxHTTPControlBytes := 2 * 2 ^ 20; cf_MaxHTTPRequestBytes := 2 ^ 20; cf_MaxHTTPResponseBytes := 2 ^ 20;
     cf_MaxHTTPHeaderBytes := 64 * 2 ^ 10; cf_MaxSourceFiles := 100000; cf_MaxSourceBytes := 2 * 2 ^ 30; cf_MaxDiskBytes := 2 * 2 ^ 30;
     cf_MaxPIDs := 4096; cf_MaxMemoryBytes := 64 * 2 ^ 30; cf_MaxCPUMillis := 64000; cf_TemporaryBytes := 64 * 2 ^ 20 |}.

Definition positive_or (value fallback : Z) : Z := if value <=? 0 then fallback else value.
Definition normalizedConfig (c : Config) : Config :=
  let d := DefaultConfig in
  {| cf_DoctorTimeout := positive_or (cf_DoctorTimeout c) (cf_DoctorTimeout d);
     cf_DoctorOutputBytes := positive_or (cf_DoctorOutputBytes c) (cf_DoctorOutputBytes d);
     cf_PrepareTimeout := positive_or (cf_PrepareTimeout c) (cf_PrepareTimeout d);
     cf_CreateTimeout := positive_or (cf_CreateTimeout c) (cf_CreateTimeout d);
     cf_CleanupTimeout := positive_or (cf_CleanupTimeout c) (cf_CleanupTimeout d);
     cf_ExportTimeout := positive_or (cf_ExportTimeout c) (cf_ExportTimeout d);
     cf_DefaultStepTimeout := positive_or (cf_DefaultStepTimeout c) (cf_DefaultStepTimeout d);
     cf_MaxStepTimeout := positive_or (cf_MaxStepTimeout c) (cf_MaxStepTimeout d);
     cf_MaxLogBytes := positive_or (cf_MaxLogBytes c) (cf_MaxLogBytes d);
     cf_MaxHTTPControlBytes := positive_or (cf_MaxHTTPControlBytes c) (cf_MaxHTTPControlBytes d);
     cf_MaxHTTPRequestBytes := positive_or (cf_MaxHTTPRequestBytes c) (cf_MaxHTTPRequestBytes d);
     cf_MaxHTTPResponseBytes := positive_or (cf_MaxHTTPResponseBytes c) (cf_MaxHTTPResponseBytes d);
     cf_MaxHTTPHeaderBytes := positive_or (cf_MaxHTTPHeaderBytes c) (cf_MaxHTTPHeaderBytes d);
     cf_MaxSourceFiles := positive_or (cf_MaxSourceFiles c) (cf_MaxSourceFiles d);
     cf_MaxSourceBytes := positive_or (cf_MaxSourceBytes c) (cf_MaxSourceBytes d);
     cf_MaxDiskBytes := positive_or (cf_MaxDiskBytes c) (cf_MaxDiskBytes d);
     cf_MaxPIDs := positive_or (cf_MaxPIDs c) (cf_MaxPIDs d);
     cf_MaxMemoryBytes := positive_or (cf_MaxMemoryBytes c) (cf_MaxMemoryBytes d);
     cf_MaxCPUMillis := positive_or (cf_MaxCPUMillis c) (cf_MaxCPUMillis d);
     cf_TemporaryBytes := positive_or (cf_TemporaryBytes c) (cf_TemporaryBytes d) |}.

(** ** Errors *)

Definition with_phase (e : Error) (phase : string) : Error :=
  {| er_SchemaVersion := er_SchemaVersion e; er_Code := er_Code e; er_Phase := phase; er_Severity := er_Severity e;
     er_Message := er_Message e; er_Details := er_Details e; er_EvidenceRefs := er_EvidenceRefs e; er_Suggestion := er_Suggestion e;
     er_Retryable := er_Retryable e; er_Cause := er_Cause e |}.
Definition planError (message : string) : Error := NewError CodePlanUnresolved SeverityHigh message.
Definition commandError (phase message : string) : Error := with_phase (NewError CodePlanUnresolved SeverityHigh message) phase.

(** ** Tests on texts *)

(** [strings.ToLower] and [strings.ToUpper] as far as ASCII shows: U+0130 and
    U+212A lower to i and k, U+0131 and U+017F raise to I and S, and a byte that
    is not UTF-8 becomes U+FFFD; other letters beyond ASCII are kept. *)
Definition lower_rune (r : option string) : option string :=
  match r with
  | Some b => if b =s utf8_encode 304 then Some "i" else if b =s utf8_encode 8490 then Some "k" else Some (to_lower b)
  | None => None
  end.
Definition upper_rune (r : option string) : option string :=
  match r with
  | Some b => if b =s utf8_encode 305 then Some "I" else if b =s utf8_encode 383 then Some "S" else Some (string_map upper_byte b)
  | None => None
  end.
Definition lower_text (s : string) : string := runes_text (List.map lower_rune (runes s)).
Definition upper_text (s : string) : string := runes_text (List.map upper_rune (runes s)).

Definition is_identifier (s : string) : bool := MatchString identifierPattern s.
Definition digits_pattern : re := RPlus (in_class is_digit).
Definition exactRuntimeVersionPattern : re :=
  RSeq [RBegin; digits_pattern; RLit false "."; digits_pattern; RLit false "."; digits_pattern; REnd].

(** [hex.DecodeString] of 64 characters succeeds on hexadecimal digits of both cases. *)
Definition validDigest (value : string) : bool :=
  if negb (has_prefix "sha256:" value) || negb (slen value =? slen "sha256:" + 64)%nat then false
  else string_forallb is_hex (trim_prefix "sha256:" value).

Definition reference_breaks : string :=
  String " " (String (byte_of 9) (String (byte_of 13) (String (byte_of 10) (String (byte_of 0) ",")))).
Definition validPinnedImageReference (reference digest : string) : bool :=
  if (reference =s "") || has_prefix "-" reference || contains_any reference_breaks reference then false
  else has_suffix ("@" +:+ digest) reference && (slen ("@" +:+ digest) <? slen reference)%nat.

(** No letter beyond ASCII lower-cases to one of "platform:". *)
Definition platform_features (features : list string) : list string :=
  List.filter (λ feature, has_prefix "platform:" (to_lower (trim_space feature))) features.
Definition requiredPlanPlatform (features : list string) : result Error string :=
  match platform_features features with
  | [feature] =>
      if feature =s "platform:linux/amd64" then Ok "linux/amd64"
      else if feature =s "platform:linux/arm64" then Ok "linux/arm64"
      else Err (with_details (NewError CodeRunnerFeatureUnavailable SeverityHigh "Resolved plan requires an unsupported workload platform.")
                  [("feature", VStr feature)])
  | l => Err (with_details (NewError CodePlanUnresolved SeverityHigh "Resolved plan must require exactly one workload platform.")
                [("platformFeatureCount", VInt (Z.of_nat (length l)))])
  end.

Definition validPhase (phase : string) : bool := one_of phase OrderedPhases.
Definition containsExact (values : list string) (wanted : string) : bool := one_of wanted values.

Fixpoint equalStringSlices (l r : list string) : bool :=
  match l, r with
  | [], [] => true
  | a :: l, b :: r => (a =s b) && equalStringSlices l r
  | _, _ => false
  end.
Definition validResolvedEvidence (value : PlanEvidence) : bool :=
  if (pe_Profile value !=s "minimal-public")
     || negb (equalStringSlices (elems (pe_Exclude value)) ["raw-stderr"; "raw-stdout"; "raw-syscall-trace"]) then false
  else equalStringSlices (elems (pe_Include value)) ["normalized-observations"; "verification-summary"]
       || equalStringSlices (elems (pe_Include value)) ["normalized-observations"; "sbom"; "verification-summary"].

(** *** References to schemas (structured_json.go) *)

(** A letter beyond ASCII that upper-cases to ASCII is refused by the next test
    of the one caller. *)
Definition portableSchemaDevice (segment : string) : bool :=
  let base := string_map upper_byte (before_dot segment) in
  if one_of base ["CON"; "PRN"; "AUX"; "NUL"; "CONIN$"; "CONOUT$"; "CLOCK$"] then true
  else if negb (slen base =? 4)%nat then false
  else (has_prefix "COM" base || has_prefix "LPT" base) && byte_is (in_range 49 57) (last_byte base).
Definition portable_schema_segment (segment : string) : bool :=
  negb ((segment =s "") || (segment =s ".") || (segment =s "..") || (255 <? zlen segment)
        || has_suffix "." segment || has_suffix " " segment || portableSchemaDevice segment)
  && string_forallb portable_path_byte segment.
Definition validPortableSchemaPath (value : string) : bool :=
  if (value =s "") || (4096 <? zlen value) || string_contains_byte backslash value || contains_any newline_set value
     || has_prefix "/" value || (Clean value !=s value) || (value =s ".") || (value =s "..") || has_prefix "../" value then false
  else forallb portable_schema_segment (split_on "/" value).
Definition validateStructuredJSONSchemaRef (reference : PlanJSONSchemaRef) : result Error unit :=
  fail_if (pjs_Dialect reference !=s AlphaJSONSchemaDialect) || (pjs_ValidatorVersion reference !=s AlphaJSONValidatorVersion)
    || negb (validDigest (pjs_Digest reference)) || negb (validPortableSchemaPath (pjs_Path reference))
    with planError "Resolved JSON Schema reference is not canonical or is outside the alpha profile." ;;
  Ok tt.
Definition check_schema (o : option PlanJSONSchemaRef) : result Error unit :=
  match o with Some reference => validateStructuredJSONSchemaRef reference | None => Ok tt end.

(** ** Trusted requests (http_driver.go) *)

Record trustedHTTPRequest := {
  tr_ID : string; tr_Method : string; tr_URL : string; tr_Headers : list (string * string); tr_Body : string; tr_Timeout : Z }.

Definition isWholeMillisecondDuration (value : Z) : bool := (AlphaHTTPMinimumDuration <=? value) && (Z.rem value Millisecond =? 0).
Definition validateLoopbackHTTPURL (value : string) : result string unit := let! _ := ParseAlphaHTTPURL value in Ok tt.
Definition sameHTTPOrigin (first second : string) : bool :=
  match Parse first, Parse second with
  | Some a, Some b => (u_Scheme a =s u_Scheme b) && (u_Host a =s u_Host b)
  | _, _ => false
  end.
Definition allowedHTTPMethod (value : string) : bool := one_of value ["GET"; "HEAD"; "POST"; "PUT"; "PATCH"; "DELETE"; "OPTIONS"].
Definition trusted_name_byte (c : ascii) : bool := in_range 97 122 c || in_range 48 57 c || bytes_in "!#$%&'*+-.^_`|~" c.
Definition validHTTPHeaderName (value : string) : bool := (value !=s "") && string_forallb trusted_name_byte value.
Definition canonical_text (s : string) : string := lower_text (trim_space s).
(** [json.Valid]: one value of at most 10000 levels and nothing after it. *)
Definition json_valid (raw : string) : bool := is_some (read_document raw).

(** The loop over the headers; the names seen are those of [acc]. *)
Fixpoint trusted_headers (headers acc : list (string * string)) (total : Z) : result string (list (string * string) * Z) :=
  match headers with
  | [] => Ok (acc, total)
  | (name, value) :: rest =>
      let canonicalName := canonical_text name in
      fail_if name !=s canonicalName with "HTTP request header name is not canonical" ;;
      fail_if negb (validHTTPHeaderName canonicalName) || negb (isPrintableASCII value) with "invalid HTTP request header" ;;
      fail_if AlphaHTTPMaxHeaderValueBytes <? zlen value with "oversized HTTP request header" ;;
      fail_if has_key canonicalName acc with "duplicate HTTP request header" ;;
      fail_if one_of canonicalName forbiddenHTTPRequestHeaders with "forbidden HTTP request header" ;;
      trusted_headers rest (acc ++ [(canonicalName, value)]) (total + (zlen canonicalName + zlen value + 4))
  end.
Definition effective_limit (limit maximum : Z) : Z := if (limit <=? 0) || (maximum <? limit) then maximum else limit.
Definition content_type : string * string := (AlphaHTTPContentTypeName, AlphaHTTPJSONContentType).

(** The body, and the headers with the content type of a JSON body. *)
Definition trusted_body (request : PlanHTTPRequest) (headers : list (string * string)) (total : Z)
  : result string (string * list (string * string) * Z) :=
  match prq_Body request, prq_JSON request with
  | Some _, Some _ => Err "HTTP request has both text and JSON bodies"
  | Some body, None => Ok (body, headers, total)
  | None, Some json =>
      fail_if negb (json_valid json) with "HTTP request JSON is invalid" ;;
      if has_key AlphaHTTPContentTypeName headers then Ok (json, headers, total)
      else Ok (json, headers ++ [content_type], total + (zlen AlphaHTTPContentTypeName + zlen AlphaHTTPJSONContentType + 4))
  | None, None => Ok ("", headers, total)
  end.

Definition trustedHTTPRequestFromPlan (request : PlanHTTPRequest) (defaultTimeout maxBodyBytes maxHeaderBytes : Z)
  : result string trustedHTTPRequest :=
  let! timeout :=
    if prq_Timeout request !=s ""
    then map_err (λ _, "invalid HTTP request timeout") (ParseAlphaHTTPDuration (prq_Timeout request) AlphaHTTPMaxRequestTime)
    else Ok defaultTimeout in
  fail_if negb (isWholeMillisecondDuration timeout) || (AlphaHTTPMaxRequestTime <? timeout) with "invalid HTTP request timeout" ;;
  fail_if prq_Method request !=s canonical_text (prq_Method request) with "HTTP request method is not canonical" ;;
  let! _ := ValidateAlphaHTTPHeaders (prq_Headers request) (is_some (prq_JSON request)) in
  let method := upper_text (trim_space (prq_Method request)) in
  let! (headers, total) := trusted_headers (prq_Headers request) [] 0 in
  let! (body, headers, total) := trusted_body request headers total in
  fail_if AlphaHTTPMaxHeaders <? Z.of_nat (length headers) with "too many HTTP request headers" ;;
  fail_if effective_limit maxHeaderBytes AlphaHTTPMaxHeaderAggregateBytes <? total with "HTTP request headers exceed runner limit" ;;
  fail_if effective_limit maxBodyBytes AlphaHTTPMaxRequestBodyBytes <? zlen body with "HTTP request body exceeds runner limit" ;;
  let! _ := validateLoopbackHTTPURL (prq_URL request) in
  fail_if negb (allowedHTTPMethod method) with "HTTP request method is unsupported" ;;
  Ok {| tr_ID := prq_ID request; tr_Method := method; tr_URL := prq_URL request; tr_Headers := sort_keys headers; tr_Body := body;
        tr_Timeout := timeout |}.

(** ** HTTP plans (http_plan.go) *)

Definition serviceSignalHelperSlack := 750 * Millisecond.

Definition service_action (command : PlanCommand) : bool :=
  (pcm_Role command =s "service") || (pcm_Role command =s "signal") || is_some (pcm_Readiness command).
Definition http_only_assertion (a : PlanAssertion) : bool := is_some (pa_Response a) || is_some (pa_JSONFile a).

(** The plan of a command-line journey. *)
Definition plan_without_http (plan : FullPlan) : result Error unit :=
  fail_if fp_JourneyDriver plan =s "http" with planError "journeyDriver=http requires a resolved HTTP journey." ;;
  fail_if existsb service_action (fp_Commands plan) with planError "Service lifecycle commands require a resolved HTTP journey." ;;
  fail_if existsb http_only_assertion (fp_JourneyAssertions plan)
    with planError "HTTP response and JSON file assertions require a resolved HTTP journey." ;;
  Ok tt.

Definition feature_required (plan : FullPlan) (_ : nat) (required : string) : result Error unit :=
  fail_if negb (containsExact (fp_RequiredRunnerFeatures plan) required)
    with planError ("Resolved HTTP journey omitted required feature " +:+ String dquote (required +:+ String dquote ".")) ;;
  Ok tt.

(** The loop over the commands: the service and the signal with its index. *)
Fixpoint http_commands (commands : list PlanCommand) (index : nat) (service : option PlanCommand) (signal : option (PlanCommand * nat))
  : result Error (option PlanCommand * option (PlanCommand * nat)) :=
  match commands with
  | [] => Ok (service, signal)
  | command :: rest =>
      if pcm_Role command =s "service" then
        match service with
        | Some _ => Err (planError "Resolved HTTP journey contains more than one service.")
        | None => http_commands rest (S index) (Some command) signal
        end
      else if pcm_Role command =s "signal" then
        match signal with
        | Some _ => Err (planError "Resolved HTTP journey contains more than one service signal.")
        | None => http_commands rest (S index) service (Some (command, index))
        end
      else if pcm_Role command =s "journey" then Err (planError "Resolved HTTP journey must not contain a CLI journey command.")
      else http_commands rest (S index) service signal
  end.

Definition ready_service (plan : FullPlan) (journey : PlanHTTPJourney) (service : option PlanCommand) : result Error (PlanCommand * PlanHTTPReadiness) :=
  let unbound := planError "Resolved HTTP journey is not bound to exactly one ready service." in
  match service with
  | Some service =>
      fail_if pcm_ID service !=s phj_ServiceID journey with unbound ;;
      match pcm_Readiness service with Some readiness => Ok (service, readiness) | None => Err unbound end
  | None => Err unbound
  end.
Definition matching_signal (service : PlanCommand) (signal : option (PlanCommand * nat)) : result Error (PlanCommand * PlanSignal * nat) :=
  let missing := planError "Resolved HTTP service requires one matching cleanup signal." in
  match signal with
  | Some (command, index) =>
      match pcm_Signal command with
      | Some s => fail_if psg_Target s !=s pcm_ID service with missing ;; Ok (command, s, index)
      | None => Err missing
      end
  | None => Err missing
  end.

Definition validateSignal (signal : PlanSignal) (maximum : Z) : result string unit :=
  fail_if negb (one_of (psg_Type signal) ["term"; "kill"; "int"; "hup"]) with "resolved service signal type is invalid" ;;
  fail_if psg_GracePeriod signal =s "" with "resolved service signal has no grace period" ;;
  match ParseAlphaHTTPDuration (psg_GracePeriod signal) AlphaHTTPMaxSignalGrace with
  | Ok grace => fail_if maximum <? grace with "resolved service signal grace period is invalid" ;; Ok tt
  | Err _ => Err "resolved service signal grace period is invalid"
  end.

(** The window the runner has for the signal and the helper that sends it. *)
Definition maximum_grace (cfg : Config) (signalCommandTimeout : Z) : Z :=
  let maximum := cf_CleanupTimeout cfg - serviceSignalHelperSlack in
  let maximum := if AlphaHTTPMaxSignalGrace <? maximum then AlphaHTTPMaxSignalGrace else maximum in
  let window := signalCommandTimeout - serviceSignalHelperSlack in
  if window <? maximum then window else maximum.
Definition signal_window (cfg : Config) (timeout : string) (signal : PlanSignal) : result Error unit :=
  let invalid_timeout := planError "Resolved HTTP service signal timeout is invalid." in
  match ParseDuration timeout with
  | Some signalCommandTimeout =>
      fail_if (signalCommandTimeout <=? serviceSignalHelperSlack) || (cf_MaxStepTimeout cfg <? signalCommandTimeout) with invalid_timeout ;;
      fail_if cf_CleanupTimeout cfg <=? serviceSignalHelperSlack
        with planError "Runner cleanup timeout leaves no bounded service signal window." ;;
      map_err planError (validateSignal signal (maximum_grace cfg signalCommandTimeout))
  | None => Err invalid_timeout
  end.

(** *** Readiness, listener and network *)

Definition declared_listener (port : Z) (binding : PortBinding) : bool :=
  (pb_Host binding =s "127.0.0.1") && (pb_Port binding =? port) && ((pb_Protocol binding =s "") || (pb_Protocol binding =s "tcp")).
Definition validateDeclaredServicePort (plan : FullPlan) (readinessURL : string) : result string unit :=
  let! (_, port) := map_err (λ _, "resolved readiness URL is invalid") (ParseAlphaHTTPURL readinessURL) in
  let! capability := of_option "resolved HTTP service has no run capability" (assoc PhaseRun (fp_Capabilities plan)) in
  let listeners := elems (pc_Listen (cs_Ports capability)) in
  fail_if negb (length listeners =? 1)%nat with "resolved HTTP service must declare exactly one run TCP listener" ;;
  fail_if negb (length (List.filter (declared_listener port) listeners) =? 1)%nat
    with "resolved HTTP service origin is not bound to one declared TCP listener" ;;
  Ok tt.

Definition least (a b : Z) : Z := if b <? a then b else a.
Definition readiness_valid (cfg : Config) (plan : FullPlan) (readiness : PlanHTTPReadiness) : result Error unit :=
  fail_if status_out_of_range (prd_Status readiness) with planError "Resolved HTTP readiness status is invalid." ;;
  let! _ := map_err (λ _, planError "Resolved HTTP readiness URL is unsafe.") (validateLoopbackHTTPURL (prd_URL readiness)) in
  let! _ := map_err (λ _, planError "Resolved HTTP readiness timeout is invalid.")
              (ParseAlphaHTTPDuration (prd_Timeout readiness) (least (cf_MaxStepTimeout cfg) AlphaHTTPMaxReadinessTime)) in
  map_err planError (validateDeclaredServicePort plan (prd_URL readiness)).

Definition network_denied (plan : FullPlan) (_ : nat) (phase : string) : result Error unit :=
  fail_if match assoc phase (fp_Capabilities plan) with
          | Some capability => negb (nc_Deny (cs_Network capability)) || negb (is_empty (elems (nc_Allow (cs_Network capability))))
          | None => true
          end
    with planError "HTTP run and exercise phases require enforced network deny." ;;
  Ok tt.

(** *** Assertions *)

Definition response_status_valid (status : option Z) : result Error unit :=
  fail_if match status with Some s => status_out_of_range s | None => false end
    with planError "Resolved HTTP response assertion status is invalid." ;;
  Ok tt.
Definition response_body_valid (cfg : Config) (body : option string) : result Error unit :=
  match body with
  | None => Ok tt
  | Some text =>
      fail_if text =s "" with planError "Resolved HTTP response body assertion is empty." ;;
      fail_if AlphaHTTPMaxResponseMatchBytes <? zlen text
        with planError "Resolved HTTP response body assertion exceeds the alpha profile limit." ;;
      fail_if cf_MaxHTTPResponseBytes cfg <? zlen text with planError "Resolved HTTP response body assertion exceeds the runner limit." ;;
      Ok tt
  end.
Definition response_header_valid (header : option PlanHTTPHeaderAssertion) : result Error unit :=
  match header with
  | None => Ok tt
  | Some h =>
      fail_if negb (validHTTPHeaderName (lower_text (pha_Name h))) || contains_any newline_set (pha_Contains h)
        || (AlphaHTTPMaxHeaderValueBytes <? zlen (pha_Contains h)) with planError "Resolved HTTP header assertion is invalid." ;;
      Ok tt
  end.
Definition response_path_valid (path : option PlanJSONPathAssertion) : result Error unit :=
  match path with
  | None => Ok tt
  | Some p =>
      fail_if negb (path_compiles (pja_Path p)) with planError "Resolved HTTP JSONPath assertion is outside the bounded singular profile." ;;
      fail_if pja_Equals p =s "" with planError "Resolved HTTP JSONPath assertion has no expected JSON value." ;;
      match Decode (pja_Equals p) DefaultInstanceDecodeLimits with
      | Some (Ok _) => Ok tt
      | _ => Err (planError "Resolved HTTP JSONPath expected value is not bounded strict JSON.")
      end
  end.

Definition no_predicate (r : PlanHTTPResponseAssertion) : bool :=
  negb (is_some (pra_Status r)) && negb (is_some (pra_Header r)) && negb (is_some (pra_BodyContains r))
  && negb (is_some (pra_JSONPath r)) && negb (is_some (pra_JSONSchema r)).
Definition response_valid (cfg : Config) (r : PlanHTTPResponseAssertion) : result Error unit :=
  fail_if (pra_RequestID r =s "") || no_predicate r with planError "Resolved HTTP response assertion has no predicate." ;;
  let! _ := response_status_valid (pra_Status r) in
  let! _ := response_body_valid cfg (pra_BodyContains r) in
  let! _ := response_header_valid (pra_Header r) in
  let! _ := response_path_valid (pra_JSONPath r) in
  check_schema (pra_JSONSchema r).

Definition validateHTTPOutputAssertionPath (value : string) : result string unit :=
  map_err (λ _, "HTTP file assertion must be a normalized /outputs path") (ValidateAlphaHTTPOutputPath value).
Definition http_assertion_valid (cfg : Config) (assertion : PlanAssertion) : result Error unit :=
  match pa_Response assertion, pa_JSONFile assertion with
  | Some response, _ => response_valid cfg response
  | None, Some file =>
      let! _ := map_err planError (validateHTTPOutputAssertionPath (pjf_Path file)) in
      fail_if pjf_Path file =s "/outputs" with planError "Resolved HTTP JSON file assertion must target a file below /outputs." ;;
      validateStructuredJSONSchemaRef (pjf_Schema file)
  | None, None =>
      if pa_FileExists assertion !=s "" then map_err planError (validateHTTPOutputAssertionPath (pa_FileExists assertion))
      else Err (planError "HTTP journey contains a non-HTTP assertion operation.")
  end.

(** *** Steps: the ids of the requests and of the assertions met so far *)

Record journey_state := { js_requests : list string; js_referenced : list string }.

Definition request_valid (cfg : Config) (assertions : list (string * PlanAssertion)) (origin : string) (request : PlanHTTPRequest) (st : journey_state)
  : result Error journey_state :=
  fail_if negb (is_identifier (prq_ID request)) with planError "Resolved HTTP request ID is not schema-compatible." ;;
  fail_if one_of (prq_ID request) (js_requests st) with planError "Resolved HTTP request IDs must be unique." ;;
  fail_if has_key (prq_ID request) assertions with planError "Resolved HTTP request and assertion IDs must be distinct." ;;
  let requests := js_requests st ++ [prq_ID request] in
  fail_if AlphaHTTPMaxRequestSteps <? Z.of_nat (length requests) with planError "Resolved HTTP request count exceeds the runner limit." ;;
  fail_if negb (sameHTTPOrigin origin (prq_URL request)) with planError "Resolved HTTP request crosses the declared service origin." ;;
  fail_if prq_Method request !=s canonical_text (prq_Method request) with planError "Resolved HTTP request method is not canonical." ;;
  fail_if existsb (λ h, h.1 !=s canonical_text h.1) (prq_Headers request)
    with planError "Resolved HTTP request header name is not canonical." ;;
  let! parsedTimeout := map_err (λ _, planError "Resolved HTTP request timeout is invalid.")
    (ParseAlphaHTTPDuration (prq_Timeout request) (least (cf_MaxStepTimeout cfg) AlphaHTTPMaxRequestTime)) in
  let! _ := map_err (λ e, planError ("Resolved HTTP request is unsafe: " +:+ e))
    (trustedHTTPRequestFromPlan request parsedTimeout (cf_MaxHTTPRequestBytes cfg) (cf_MaxHTTPHeaderBytes cfg)) in
  Ok {| js_requests := requests; js_referenced := js_referenced st |}.

Definition reference_valid (assertions : list (string * PlanAssertion)) (id : string) (st : journey_state) : result Error journey_state :=
  let! assertion := of_option (planError "Resolved HTTP step references an unknown assertion.") (assoc id assertions) in
  fail_if one_of id (js_referenced st) with planError "Resolved HTTP assertion is referenced more than once." ;;
  fail_if match pa_Response assertion with Some response => negb (one_of (pra_RequestID response) (js_requests st)) | None => false end
    with planError "Resolved HTTP assertion must reference an earlier request." ;;
  Ok {| js_requests := js_requests st; js_referenced := js_referenced st ++ [id] |}.

Definition step_valid (cfg : Config) (assertions : list (string * PlanAssertion)) (origin : string) (step : PlanHTTPDriverStep) (st : journey_state)
  : result Error journey_state :=
  fail_if Bool.eqb (negb (is_some (pds_Request step))) (pds_AssertionID step =s "")
    with planError "Resolved HTTP step must contain exactly one operation." ;;
  match pds_Request step with
  | Some request => request_valid cfg assertions origin request st
  | None => reference_valid assertions (pds_AssertionID step) st
  end.
Fixpoint steps_valid (cfg : Config) (assertions : list (string * PlanAssertion)) (origin : string) (steps : list PlanHTTPDriverStep) (st : journey_state)
  : result Error journey_state :=
  match steps with
  | [] => Ok st
  | step :: rest => let! st := step_valid cfg assertions origin step st in steps_valid cfg assertions origin rest st
  end.

Definition assertion_map (l : list PlanAssertion) : list (string * PlanAssertion) := foldl (λ acc a, assoc_set (pa_ID a) a acc) [] l.
Definition journey_valid (cfg : Config) (plan : FullPlan) (journey : PlanHTTPJourney) (origin : string) : result Error unit :=
  let assertions := assertion_map (fp_JourneyAssertions plan) in
  let! st := steps_valid cfg assertions origin (phj_Steps journey) {| js_requests := []; js_referenced := [] |} in
  fail_if is_empty (js_requests st) with planError "Resolved HTTP journey contains no request." ;;
  fail_if is_empty (js_referenced st) with planError "Resolved HTTP journey contains no assertion step." ;;
  fail_if negb (length (js_referenced st) =? length assertions)%nat
    with planError "Every resolved HTTP assertion must appear exactly once in journey order." ;;
  Ok tt.

Definition validateHTTPPlan (cfg : Config) (plan : FullPlan) : result Error unit :=
  match fp_HTTPJourney plan with
  | None => plan_without_http plan
  | Some journey =>
      fail_if fp_JourneyDriver plan !=s "http" with planError "Resolved HTTP journey requires journeyDriver=http." ;;
      let! _ := check_each (feature_required plan) ["background-service"; "service-signal"; "loopback-http-driver"] in
      let! (service, signal) := http_commands (fp_Commands plan) 0 None None in
      let! (service, readiness) := ready_service plan journey service in
      let! (command, signal, index) := matching_signal service signal in
      fail_if negb (S index =? length (fp_Commands plan))%nat with planError "Resolved HTTP service signal must be the final command." ;;
      let! _ := signal_window cfg (pcm_Timeout command) signal in
      let! _ := readiness_valid cfg plan readiness in
      let! _ := check_each (network_denied plan) [PhaseRun; PhaseExercise] in
      fail_if is_empty (fp_JourneyAssertions plan) with planError "Resolved HTTP journey requires at least one assertion." ;;
      fail_if (length (phj_Steps journey) <? 2)%nat || (AlphaHTTPMaxJourneySteps <? Z.of_nat (length (phj_Steps journey)))
        with planError "Resolved HTTP journey step count is outside the runner limit." ;;
      let! _ := check_each (λ _, http_assertion_valid cfg) (fp_JourneyAssertions plan) in
      journey_valid cfg plan journey (prd_URL readiness)
  end.

(** ** [validatePlan] *)

Record preparedStep := { stp_command : PlanCommand; stp_timeout : Z; stp_position : nat }.

Definition driver_version_valid (plan : FullPlan) : result Error unit :=
  let refused message := NewError CodePlanUnresolved SeverityHigh message in
  if fp_JourneyDriver plan =s "cli" then
    fail_if fp_JourneyDriverVersion plan !=s "0.2.0" with refused "Execution requires CLI journey driver version 0.2.0." ;; Ok tt
  else if fp_JourneyDriver plan =s "http" then
    fail_if fp_JourneyDriverVersion plan !=s "0.1.0" with refused "Execution requires HTTP journey driver version 0.1.0." ;; Ok tt
  else Err (refused "Execution requires a supported journey driver.").

Definition residue_refused (cleanup : PlanCleanup) : bool :=
  (pcl_ClassifierVersion cleanup !=s cleanupClassifierVersion)
  || match pcl_AllowedResidue cleanup with [] => false | [residue] => residue !=s "/outputs/**" | _ => true end.
Definition count_text (text : string) (l : list string) : nat := length (List.filter (String.eqb text) l).

Definition out_of_bounds (value maximum : Z) : bool := (value <=? 0) || (maximum <? value).
Definition resources_valid (cfg : Config) (r : ResourceLimits) : result Error unit :=
  fail_if out_of_bounds (rl_CPUMillis r) (cf_MaxCPUMillis cfg) || out_of_bounds (rl_MemoryBytes r) (cf_MaxMemoryBytes cfg)
    || out_of_bounds (rl_PIDs r) (cf_MaxPIDs cfg) || out_of_bounds (rl_DiskBytes r) (cf_MaxDiskBytes cfg)
    with with_details
           (NewError CodeResourceLimitExceeded SeverityHigh
              "Resolved resource limits are missing or exceed the local runner safety ceiling.")
           [("cpuMillis", VInt (rl_CPUMillis r)); ("memoryBytes", VInt (rl_MemoryBytes r)); ("diskBytes", VInt (rl_DiskBytes r));
            ("maxDiskBytes", VInt (cf_MaxDiskBytes cfg)); ("pids", VInt (rl_PIDs r))] ;;
  Ok tt.
Definition allowlist_absent (_ : nat) (entry : string * CapabilitySet) : result Error unit :=
  let '(phase, capabilities) := entry in
  fail_if negb (is_empty (elems (nc_Allow (cs_Network capabilities))))
    with with_details
           (with_phase
              (NewError CodeRunnerFeatureUnavailable SeverityHigh
                 "Setup network allowlists are recognized but not enforced by the local CLI runner.") phase)
           [("feature", VStr ("network-allowlist:" +:+ phase))] ;;
  Ok tt.

Definition role_valid (command : PlanCommand) : result Error unit :=
  let refused := commandError (pcm_Phase command) in
  if pcm_Role command =s "service" then
    fail_if (pcm_Phase command !=s PhaseRun) || negb (is_some (pcm_Readiness command)) || is_some (pcm_Signal command)
      with refused "Resolved service command requires run-phase HTTP readiness." ;; Ok tt
  else if pcm_Role command =s "signal" then
    fail_if (pcm_Phase command !=s PhaseCleanup) || negb (is_some (pcm_Signal command)) || is_some (pcm_Readiness command)
      || negb (is_empty (elems (pcm_Argv command)))
      with refused "Resolved signal command is not a cleanup service signal." ;; Ok tt
  else
    fail_if is_some (pcm_Signal command) || is_some (pcm_Readiness command)
      with refused "Foreground and journey commands cannot contain service actions." ;; Ok tt.
Definition step_timeout (cfg : Config) (command : PlanCommand) : result Error Z :=
  if pcm_Timeout command =s "" then Ok (cf_DefaultStepTimeout cfg)
  else
    let refused := commandError (pcm_Phase command) "Resolved command timeout is invalid or exceeds the runner maximum." in
    match ParseDuration (pcm_Timeout command) with
    | Some parsed => fail_if (parsed <=? 0) || (cf_MaxStepTimeout cfg <? parsed) with refused ;; Ok parsed
    | None => Err refused
    end.
(** [ids] are the ids of the commands before. *)
Definition command_valid (cfg : Config) (index : nat) (ids : list string) (command : PlanCommand) : result Error preparedStep :=
  let refused := commandError (pcm_Phase command) in
  fail_if negb (validPhase (pcm_Phase command))
    with NewError CodePlanUnresolved SeverityHigh "Resolved command contains an unsupported phase." ;;
  fail_if negb (is_identifier (pcm_ID command)) with refused "Resolved command ID is not schema-compatible." ;;
  fail_if one_of (pcm_ID command) ids with refused "Resolved command IDs must be unique." ;;
  fail_if negb (one_of (pcm_Role command) [""; "foreground"; "journey"; "service"; "signal"]) with refused "Resolved command role is unsupported." ;;
  let! _ := role_valid command in
  fail_if (pcm_Role command !=s "signal") && is_empty (elems (pcm_Argv command)) with refused "Resolved command argv must not be empty." ;;
  fail_if existsb bad_argument (elems (pcm_Argv command))
    with refused "Resolved command arguments must be non-empty and contain no NUL bytes." ;;
  let! timeout := step_timeout cfg command in
  Ok {| stp_command := command; stp_timeout := timeout; stp_position := index |}.
Fixpoint commands_valid (cfg : Config) (index : nat) (ids : list string) (commands : list PlanCommand) : result Error (list preparedStep) :=
  match commands with
  | [] => Ok []
  | command :: rest =>
      let! step := command_valid cfg index ids command in
      let! steps := commands_valid cfg (S index) (ids ++ [pcm_ID command]) rest in
      Ok (step :: steps)
  end.

Section validate.
Context `{RegexpSyntax}.

Definition assertion_operations (a : PlanAssertion) : nat :=
  count_true
    [is_some (pa_ExitCode a); pa_StdoutContains a !=s ""; pa_StderrContains a !=s ""; pa_StdoutRegex a !=s ""; is_some (pa_StdoutJSONSchema a);
     pa_FileExists a !=s ""; is_some (pa_Response a); is_some (pa_JSONFile a)].
Definition plan_assertion_valid (ids : list string) (a : PlanAssertion) : result Error unit :=
  let refused message := NewError CodePlanUnresolved SeverityHigh message in
  fail_if negb (is_identifier (pa_ID a)) with refused "Resolved journey assertion ID is not schema-compatible." ;;
  fail_if one_of (pa_ID a) ids with refused "Resolved journey assertion IDs must be unique." ;;
  fail_if (pa_StdoutRegex a !=s "") && negb (compiles (pa_StdoutRegex a)) with refused "Resolved journey stdout regex is invalid." ;;
  let! _ := check_schema (pa_StdoutJSONSchema a) in
  fail_if negb (assertion_operations a =? 1)%nat with refused "Each resolved journey assertion must contain exactly one operation." ;;
  Ok tt.
Fixpoint assertions_valid (ids : list string) (l : list PlanAssertion) : result Error unit :=
  match l with
  | [] => Ok tt
  | a :: rest => let! _ := plan_assertion_valid ids a in assertions_valid (ids ++ [pa_ID a]) rest
  end.

(** What is required of a plan before its commands are looked at, and its platform. *)
Definition plan_contract (cfg : Config) (plan : FullPlan) : result Error string :=
  let refused message := NewError CodePlanUnresolved SeverityHigh message in
  fail_if fp_SchemaVersion plan !=s "4" with refused "Execution requires resolved-plan schema version 4." ;;
  fail_if negb (validResolvedEvidence (fp_Evidence plan)) with refused "Execution requires the exact resolved minimal-public evidence contract." ;;
  fail_if residue_refused (fp_Cleanup plan)
    with refused "Execution requires the resolved cleanup classifier and exact allowed-residue contract." ;;
  fail_if negb (count_text "cleanup-residue-classification" (fp_RequiredRunnerFeatures plan) =? 1)%nat
    with refused "Execution requires exactly one cleanup-residue-classification runner feature." ;;
  let! _ := driver_version_valid plan in
  fail_if negb (validDigest (fp_BaseImageDigest plan)) || negb (validPinnedImageReference (fp_BaseImageReference plan) (fp_BaseImageDigest plan))
    with with_details (NewError CodeMutableBaseImage SeverityCritical "Execution requires a full digest-pinned image reference.")
           [("reference", VStr (fp_BaseImageReference plan)); ("digest", VStr (fp_BaseImageDigest plan))] ;;
  fail_if negb (not_blank (fp_PlanDigest plan)) || negb (not_blank (ps_TreeDigest (fp_Source plan)))
    with refused "Execution requires resolved plan and source tree digests." ;;
  fail_if negb (MatchString exactRuntimeVersionPattern (fp_RuntimeVersion plan))
    with NewError CodeRuntimeVersionUnresolved SeverityHigh "Execution requires an exact runtime version bound into the resolved plan." ;;
  fail_if negb (is_some (runtimeExecutable (fp_RuntimeAdapter plan)))
    with with_details (NewError CodeRunnerFeatureUnavailable SeverityHigh "Resolved runtime adapter has no trusted local runner implementation.")
           [("runtimeAdapter", VStr (fp_RuntimeAdapter plan))] ;;
  let! platform := requiredPlanPlatform (fp_RequiredRunnerFeatures plan) in
  let! _ := RuntimePolicy.Validate (fp_RuntimeAdapter plan) (fp_RuntimeVersion plan) (fp_BaseImageReference plan) (fp_BaseImageDigest plan) platform in
  let! _ := resources_valid cfg (fp_Resources plan) in
  let! _ := check_each allowlist_absent (fp_Capabilities plan) in
  fail_if is_empty (fp_Commands plan) with refused "Resolved plan contains no executable foreground commands." ;;
  Ok platform.

Definition validatePlan (cfg : Config) (plan : FullPlan) : result Error (list preparedStep * string) :=
  let! platform := plan_contract cfg plan in
  let! steps := commands_valid cfg 0 [] (fp_Commands plan) in
  let! _ := assertions_valid [] (fp_JourneyAssertions plan) in
  let! _ := validateHTTPPlan cfg plan in
  Ok (steps, platform).
End validate.
