(* ===== verification/ExecutionTexts.v ===== *)
(** * Texts the runner and the manifest's validator read alike

    The runner tests texts byte by byte where the validator uses regular
    expressions: identifiers, header names, digests and the portable paths of
    schemas.  Here is why what one accepts the other accepts. *)

From S2P Require Import Prelude Json Sha256 SemanticEqual CanonicalJson GoValue Domain GoPath GoStrings Regex Url HttpContract PlanTypes Manifest ManifestValidate ManifestSafety SchemaPolicy SchemaSource PlannerSafety ExecutionPlan.

Local Open Scope Z_scope.

(** ** ASCII texts *)

Lemma forallb_elem {A} (P : A → bool) l x : forallb P l = true → x ∈ l → P x = true.
Proof. rewrite forallb_forall, list_elem_of_In. auto. Qed.

Lemma runes_ascii s : string_forallb ascii7 s = true → runes s = byte_runes s.
Proof. induction s as [|c s IH]; [done|]. cbn [string_forallb runes byte_runes]. intros [Hc Hs]%andb_prop. by rewrite Hc, IH. Qed.

Lemma visible_ascii c : in_range 33 126 c = true → ascii7 c = true.
Proof. unfold in_range, ascii7. intros [_ H%N.leb_le]%andb_prop. apply N.ltb_lt. lia. Qed.

Lemma class_ascii (P : ascii → bool) s :
  forallb (λ c, negb (P c) || ascii7 c) all_ascii = true → string_forallb P s = true → string_forallb ascii7 s = true.
Proof.
  intros Hall. apply string_forallb_impl. intros c Hc. pose proof (ascii_all (λ c, negb (P c) || ascii7 c) Hall c) as H. cbn beta in H.
  by rewrite Hc in H.
Qed.

Lemma lower_ascii_rune c : ascii7 c = true → lower_rune (Some (String c "")) = Some (String (lower_byte c) "").
Proof.
  intros Hc. unfold lower_rune. destruct (String.eqb_spec (String c "") (utf8_encode 304)) as [E|_]; [discriminate E|].
  destruct (String.eqb_spec (String c "") (utf8_encode 8490)) as [E|_]; [discriminate E|]. reflexivity.
Qed.
Lemma lower_text_ascii s : string_forallb ascii7 s = true → lower_text s = to_lower s.
Proof.
  intros Hs. unfold lower_text. rewrite runes_ascii by done. induction s as [|c s IH]; [done|]. cbn [string_forallb] in Hs.
  apply andb_prop in Hs as [Hc Hs]. cbn [byte_runes List.map]. rewrite lower_ascii_rune by done. unfold runes_text in *.
  cbn [List.map rune_text string_concat]. rewrite IH by done. reflexivity.
Qed.

(** *** Nothing to trim *)

Lemma drop_class P n s : string_forallb P s = true → string_forallb P (drop_string n s) = true.
Proof. revert n. induction s as [|c s IH]; intros [|n]; cbn; [done..|]. intros [_ Hs]%andb_prop. by apply IH. Qed.

Lemma space_texts_blank : forallb (λ space, negb (string_forallb (in_range 33 126) space)) space_texts = true.
Proof. by vm_compute. Qed.
Lemma no_space_text (P : string → bool) :
  (∀ space, P space = true → string_forallb (in_range 33 126) space = true) → List.filter P space_texts = [].
Proof.
  intros HP. pose proof space_texts_blank as H. rewrite forallb_forall in H. induction space_texts as [|t l IH]; [done|].
  cbn [List.filter]. destruct (P t) eqn:E.
  - apply HP in E. specialize (H t (or_introl eq_refl)). rewrite E in H. discriminate H.
  - apply IH. intros x Hx. apply H. by right.
Qed.

Lemma trim_while_none fuel cut s : cut s = None → trim_while fuel cut s = s.
Proof. destruct fuel; cbn; [done|]. by intros ->. Qed.

(** A text of visible ASCII has no white space at its ends. *)
Lemma trim_visible s : string_forallb (in_range 33 126) s = true → trim_space s = s.
Proof.
  intros Hs. unfold trim_space. rewrite (trim_while_none _ (cut_space has_prefix trim_prefix)).
  - apply trim_while_none. unfold cut_space. rewrite no_space_text; [done|]. intros space Hsp. unfold has_suffix in Hsp.
    apply andb_prop in Hsp as [_ E%String.eqb_eq]. rewrite <- E. by apply drop_class.
  - unfold cut_space. rewrite no_space_text; [done|]. intros space [r E]%has_prefix_app. rewrite E, string_forallb_app in Hs.
    by apply andb_prop in Hs as [Hs _].
Qed.

Lemma lower_visible s : string_forallb (in_range 33 126) s = true → string_forallb (in_range 33 126) (to_lower s) = true.
Proof.
  induction s as [|c s IH]; [done|]. cbn [string_forallb]. intros [Hc Hs]%andb_prop. unfold to_lower in *. cbn [string_map string_forallb].
  rewrite IH by done. rewrite andb_true_r. pose proof (ascii_all (λ c, negb (in_range 33 126 c) || in_range 33 126 (lower_byte c)) eq_refl c) as H.
  cbn beta in H. by rewrite Hc in H.
Qed.
Lemma lower_twice s : to_lower (to_lower s) = to_lower s.
Proof.
  induction s as [|c s IH]; [done|]. unfold to_lower in *. cbn [string_map]. rewrite IH. f_equal.
  apply Ascii.eqb_eq. exact (ascii_all (λ c, Ascii.eqb (lower_byte (lower_byte c)) (lower_byte c)) eq_refl c).
Qed.
Lemma class_visible (P : ascii → bool) s :
  forallb (λ c, negb (P c) || in_range 33 126 c) all_ascii = true → string_forallb P s = true → string_forallb (in_range 33 126) s = true.
Proof.
  intros Hall. apply string_forallb_impl. intros c Hc. pose proof (ascii_all (λ c, negb (P c) || in_range 33 126 c) Hall c) as H. cbn beta in H.
  by rewrite Hc in H.
Qed.
Lemma visible_string_ascii s : string_forallb (in_range 33 126) s = true → string_forallb ascii7 s = true.
Proof. apply string_forallb_impl. apply visible_ascii. Qed.
Lemma lower_canonical s : string_forallb (in_range 33 126) s = true → canonical_text (to_lower s) = to_lower s.
Proof.
  intros Hs%lower_visible. unfold canonical_text. rewrite trim_visible by done. rewrite lower_text_ascii by (by apply visible_string_ascii).
  apply lower_twice.
Qed.

(** ** Header names *)

Lemma class_runes P xs : Forall (λ x, in_class P x = true) xs → ∃ s, xs = byte_runes s ∧ string_forallb P s = true.
Proof.
  induction 1 as [|x xs Hx _ (s & -> & Hs)]; [by exists ""|]. apply class_rune in Hx as (c & -> & Hc). exists (String c s).
  split; [done|]. cbn. by rewrite Hc.
Qed.

Lemma begin_inv st st' : matches RBegin st st' → m_pos st = 0%nat ∧ st' = st.
Proof. by inversion 1. Qed.
Lemma header_name_pattern s : MatchString httpHeaderNamePattern s = true → s ≠ "" ∧ string_forallb header_name_byte s = true.
Proof.
  rewrite match_string_exact. intros (before & after & st & E & Hm). unfold httpHeaderNamePattern in Hm. cbn [RSeq] in Hm.
  apply cat_inv in Hm as (s1 & H1 & H2). apply begin_inv in H1 as [Hb ->]. cbn [m_pos] in Hb. destruct before; [|done]. cbn [app length] in *. subst after.
  apply cat_inv in H2 as (s2 & H2 & H3). unfold RPlus in H2. inversion H2 as [| | | | | | | | |P lo hi xs l pos gs Hxs Hlo|]; subst.
  inversion H3; subst. apply class_runes in Hxs as (t & -> & Ht).
  match goal with E : _ = runes s |- _ => symmetry in E; rewrite app_nil_r in E; apply byte_runes_of in E as -> end. split; [|done].
  intros ->. cbn in Hlo. lia.
Qed.
Lemma header_name_accepted s : MatchString httpHeaderNamePattern s = true →
  canonical_text (to_lower s) = to_lower s ∧ validHTTPHeaderName (to_lower s) = true ∧ lower_text s = to_lower s.
Proof.
  intros [Hne Hs]%header_name_pattern. assert (string_forallb (in_range 33 126) s = true) as Hv by (by apply (class_visible header_name_byte)).
  split; [by apply lower_canonical|]. split; [|by apply lower_text_ascii, visible_string_ascii].
  unfold validHTTPHeaderName. destruct s as [|c s]; [done|]. apply andb_true_intro. split; [done|]. clear Hne Hv.
  revert Hs. generalize (String c s). clear c s. induction s as [|c s IH]; [done|]. cbn [string_forallb]. intros [Hc Hs]%andb_prop.
  unfold to_lower in *. cbn [string_map string_forallb]. rewrite IH, andb_true_r by done.
  pose proof (ascii_all (λ c, negb (header_name_byte c) || trusted_name_byte (lower_byte c)) eq_refl c) as H. cbn beta in H. by rewrite Hc in H.
Qed.

(** ** Identifiers *)

Lemma identifier_intro c s :
  lowercase c = true → string_forallb identifier_rest s = true → (slen s <= 62)%nat → identifier (String c s).
Proof.
  intros Hc Hs Hlen. unfold identifier. rewrite match_string_exact.
  assert (string_forallb ascii7 (String c s) = true) as Ha.
  { cbn [string_forallb]. apply andb_true_intro. split; [|by apply (class_ascii identifier_rest)].
    pose proof (ascii_all (λ c, negb (lowercase c) || ascii7 c) eq_refl c) as H. cbn beta in H. by rewrite Hc in H. }
  exists [], (byte_runes (String c s)), {| m_pos := S (length (byte_runes s)); m_rest := []; m_groups := [] |}.
  split; [by apply runes_ascii|]. unfold identifierPattern. cbn [RSeq byte_runes length].
  eapply match_cat; [apply match_begin|]. eapply match_cat; [apply match_set; exact Hc|].
  eapply match_cat; [|apply match_end]. rewrite <- (app_nil_r (byte_runes s)) at 1.
  assert (∀ t, length (byte_runes t) = slen t) as Hb by (induction t; cbn; congruence).
  apply match_rep; [|lia|intros h [= <-]; rewrite Hb; lia].
  clear -Hs. induction s as [|d s IH]; [constructor|]. cbn [string_forallb] in Hs. apply andb_prop in Hs as [Hd Hs]. constructor; [exact Hd|by apply IH].
Qed.

Lemma dec_digits_length fuel n acc k : (n < 10 ^ N.of_nat (S k))%N → (slen (dec_digits fuel n acc) <= slen acc + S k)%nat.
Proof.
  revert n acc k. induction fuel as [|fuel IH]; intros n acc k Hn; cbn [dec_digits]; [lia|]. destruct (N.ltb_spec n 10); [cbn; lia|].
  destruct k as [|k]; [cbn in Hn; lia|]. specialize (IH (n / 10)%N (String (byte_of (48 + n mod 10)) acc) k). cbn [String.length] in IH.
  assert (n / 10 < 10 ^ N.of_nat (S k))%N as Hd.
  { apply N.Div0.div_lt_upper_bound. rewrite (Nat2N.inj_succ (S k)), N.pow_succ_r' in Hn. exact Hn. }
  specialize (IH Hd). lia.
Qed.

(** The ids the planner gives to assertions without one. *)
Lemma default_id_identifier k : Z.of_nat k < 2 ^ 63 → identifier ("assertion-" +:+ dec_Z (Z.of_nat k)).
Proof.
  intros Hk. change ("assertion-" +:+ dec_Z (Z.of_nat k)) with (String "a" ("ssertion-" +:+ dec_Z (Z.of_nat k))).
  assert (dec_Z (Z.of_nat k) = dec_N (Z.to_N (Z.of_nat k))) as -> by (by destruct k). apply identifier_intro; [done| |].
  - rewrite string_forallb_app. apply andb_true_intro. split; [done|]. eapply string_forallb_impl; [|apply dec_N_digits].
    intros c Hc. unfold identifier_rest, lower_alnum. unfold is_digit in Hc. by rewrite Hc.
  - rewrite slen_app. unfold dec_N.
    pose proof (dec_digits_length (S (N.size_nat (Z.to_N (Z.of_nat k)))) (Z.to_N (Z.of_nat k)) "" 19) as Hd.
    cbn [String.length] in *. assert (Z.to_N (Z.of_nat k) < 10 ^ N.of_nat 20)%N as Hlt by (change (10 ^ N.of_nat 20)%N with 100000000000000000000%N; lia).
    specialize (Hd Hlt). lia.
Qed.

(** ** Digests and references to schemas *)

Lemma digest_text_valid raw : validDigest (digest_text raw) = true ∧ not_blank (digest_text raw) = true.
Proof.
  destruct (sha256_hex_shape raw) as [Hl Hh]. unfold digest_text. split; [|reflexivity].
  unfold validDigest, trim_prefix. rewrite has_prefix_self, slen_app, Hl, drop_string_app. cbn [negb Nat.eqb orb String.length Nat.add].
  eapply string_forallb_impl; [|exact Hh]. intros c Hc. unfold is_hex. by rewrite Hc.
Qed.

Lemma join_class P parts : P "/"%char = true → Forall (λ part, string_forallb P part = true) parts → string_forallb P (join_with "/" parts) = true.
Proof.
  intros Hsep. induction 1 as [|part parts Hp _ IH]; [done|]. destruct parts as [|q parts]; [done|]. cbn [join_with] in *.
  rewrite string_forallb_app. cbn [string_forallb]. by rewrite Hp, Hsep, IH.
Qed.

(** The runner accepts the schema paths that the planner accepts. *)
Lemma schema_path_accepted value : validSchemaRepositoryPath value = true → validPortableSchemaPath value = true.
Proof.
  unfold validSchemaRepositoryPath, validPortableSchemaPath. intros H.
  destruct ((value =s "") || (4096 <? zlen value) || string_contains_byte backslash value || has_prefix "/" value
     || (Clean value !=s value) || (value =s ".")) eqn:E; [discriminate H|].
  repeat (apply orb_false_elim in E as [E ?]).
  assert (Forall (λ part, schema_segment part = true) (split_on "/" value)) as Hseg.
  { apply Forall_forall. intros part Hp. rewrite forallb_forall in H. by apply H, list_elem_of_In. }
  assert (string_forallb portable_path_byte value = true) as Hbytes.
  { rewrite <- (join_split "/" value). apply join_class; [done|]. eapply Forall_impl; [exact Hseg|]. intros part Hp. by apply andb_prop in Hp as [_ Hp]. }
  assert (contains_any newline_set value = false) as ->.
  { unfold contains_any. apply negb_false_iff. eapply string_forallb_impl; [|exact Hbytes].
    intros c Hc. pose proof (ascii_all (λ c, negb (portable_path_byte c) || negb (bytes_in newline_set c)) eq_refl c) as Hb. cbn beta in Hb. by rewrite Hc in Hb. }
  assert (∀ rest, Forall (λ part, schema_segment part = true) (".." :: rest) → False) as Hdots.
  { intros rest Hr. apply Forall_inv in Hr. by vm_compute in Hr. }
  assert ((value =s "..") = false) as ->.
  { destruct (String.eqb_spec value "..") as [->|]; [|done]. by destruct (Hdots []). }
  assert (has_prefix "../" value = false) as ->.
  { destruct (has_prefix "../" value) eqn:Ep; [|done]. apply has_prefix_app in Ep as [r ->].
    change ("../" +:+ r) with (".." +:+ String "/" r) in Hseg. rewrite split_part in Hseg by done. by destruct (Hdots _ Hseg). }
  repeat match goal with Hx : _ = false |- _ => rewrite Hx; clear Hx end. cbn [orb]. rewrite forallb_forall. intros part Hp.
  rewrite forallb_forall in H. specialize (H part Hp). apply andb_prop in H as [Hn Hb]. apply andb_true_intro. split; [|exact Hb].
  apply negb_true_iff. apply negb_true_iff in Hn. repeat (apply orb_false_elim in Hn as [Hn ?]).
  unfold portableSchemaDevice. fold (portableSchemaWindowsDeviceName part).
  repeat match goal with Hx : _ = false |- _ => rewrite Hx; clear Hx end. reflexivity.
Qed.

Lemma resolved_schema_valid `{SchemaCompiler} snapshot ref : bound_schema snapshot ref → validateStructuredJSONSchemaRef ref = Ok tt.
Proof.
  intros (entry & raw & _ & Href & Hpath & Hdigest & _). unfold validateStructuredJSONSchemaRef. rewrite <- Hdigest.
  destruct (digest_text_valid raw) as [-> _]. rewrite (schema_path_accepted _ Hpath), Href. reflexivity.
Qed.
