(* ===== verification/ExecutionAccept.v ===== *)
(** * The plans the planner resolves are the plans the runner runs

    The runner checks a plan again before it runs it (ExecutionPlan).  Here is
    which of the plans that [Resolve] yields it accepts: all of them but those
    that exceed a limit only the runner knows, or whose ids the planner makes
    ambiguous. *)

From S2P Require Import Prelude Json Sha256 SemanticEqual StructuredJson JsonPath JsonStrings GoValue Durations CanonicalJson JsonUnmarshal GoStruct Domain GoPath GoStrings CleanupInventory Regex Url HttpContract PlanTypes Manifest ManifestValidate ManifestSafety SchemaPolicy SchemaInstance RuntimePolicy SchemaFeatures SchemaSource PlanDocument PlanContract Planner PlannerSafety ExecutionPlan ExecutionTexts.

Local Open Scope Z_scope.

(** ** Commands *)

(** The parts of [command_valid] that do not depend on the other commands. *)
Record command_runs (c : PlanCommand) : Prop := {
  cr_phase : validPhase (pcm_Phase c) = true;
  cr_id : is_identifier (pcm_ID c) = true;
  cr_known : one_of (pcm_Role c) [""; "foreground"; "journey"; "service"; "signal"] = true;
  cr_role : role_valid c = Ok tt;
  cr_argv : (pcm_Role c !=s "signal") && is_empty (elems (pcm_Argv c)) = false;
  cr_arguments : existsb bad_argument (elems (pcm_Argv c)) = false;
  cr_timeout : bounded_timeout (pcm_Timeout c) }.

Lemma step_timeout_bounded cfg c :
  30 * Minute <= cf_MaxStepTimeout cfg → bounded_timeout (pcm_Timeout c) → ∃ d, step_timeout cfg c = Ok d ∧ ParseDuration (pcm_Timeout c) = Some d.
Proof.
  intros Hcfg (d & Hp & Hd). exists d. unfold step_timeout. destruct (String.eqb_spec (pcm_Timeout c) "") as [E|_]; [rewrite E in Hp; by vm_compute in Hp|].
  rewrite Hp. rewrite (proj2 (Z.leb_gt d 0)), (proj2 (Z.ltb_ge (cf_MaxStepTimeout cfg) d)) by lia. done.
Qed.

Lemma command_accepted cfg index ids c :
  30 * Minute <= cf_MaxStepTimeout cfg → command_runs c → pcm_ID c ∉ ids →
  ∃ d, command_valid cfg index ids c = Ok {| stp_command := c; stp_timeout := d; stp_position := index |} ∧ ParseDuration (pcm_Timeout c) = Some d.
Proof.
  intros Hcfg [Hphase Hid Hknown Hrole Hargv Hargs Ht] Hnew. destruct (step_timeout_bounded cfg c Hcfg Ht) as (d & Hd & Hp). exists d. split; [|exact Hp].
  unfold command_valid. rewrite Hphase, Hid, Hknown, Hrole, Hargv, Hargs, Hd. apply one_of_false in Hnew. by rewrite Hnew.
Qed.

Lemma commands_accepted cfg index ids commands :
  30 * Minute <= cf_MaxStepTimeout cfg → Forall command_runs commands → NoDup (ids ++ List.map pcm_ID commands) →
  ∃ steps, commands_valid cfg index ids commands = Ok steps ∧ List.map stp_command steps = commands.
Proof.
  intros Hcfg Hall. revert index ids. induction Hall as [|c commands Hc _ IH]; intros index ids Hd; cbn [commands_valid]; [by exists []|].
  cbn [List.map] in Hd. pose proof Hd as (_ & Hnew & _)%NoDup_app.
  destruct (command_accepted cfg index ids c Hcfg Hc) as (d & -> & _); [intros Hin; apply (Hnew _ Hin); left|]. cbn [bind_result].
  destruct (IH (S index) (ids ++ [pcm_ID c])) as (steps & -> & Hs); [by rewrite <- app_assoc|]. cbn [bind_result].
  eexists. split; [reflexivity|]. cbn [List.map stp_command]. by rewrite Hs.
Qed.

(** What acceptance says of the ids. *)
Lemma commands_valid_ids cfg index ids commands steps :
  commands_valid cfg index ids commands = Ok steps → NoDup ids → NoDup (ids ++ List.map pcm_ID commands).
Proof.
  revert index ids steps. induction commands as [|c commands IH]; intros index ids steps; cbn [commands_valid List.map]; [by rewrite app_nil_r|].
  intros (step & Hc & Hr)%bind_Ok Hd. apply bind_Ok in Hr as (rest & Hr & _). apply IH in Hr; [by rewrite <- app_assoc in Hr|].
  unfold command_valid in Hc. do 2 apply fail_if_ok in Hc as [_ Hc]. apply fail_if_ok in Hc as [Hnew _]. apply one_of_false in Hnew.
  apply NoDup_app. split; [done|]. split; [|apply NoDup_singleton]. intros x Hx ->%list_elem_of_singleton. done.
Qed.

(** *** The commands of a scenario *)

Lemma good_arguments argv : good_argv argv → is_empty argv = false ∧ existsb bad_argument argv = false.
Proof.
  intros [Hne Hall]. split; [by destruct argv|]. apply not_true_iff_false. intros (x & Hx & Hb)%existsb_exists.
  rewrite Forall_forall in Hall. destruct (Hall x) as [Hx1 Hx2]; [by apply list_elem_of_In|]. unfold bad_argument in Hb.
  apply orb_prop in Hb as [Hb|Hb]; [by apply String.eqb_eq in Hb|congruence].
Qed.

Lemma foreground_runs phase timeout step argv :
  validPhase phase = true → identifier (st_ID step) → bounded_timeout timeout → good_argv argv → command_runs (foreground phase timeout step argv).
Proof. intros Hp Hid Ht Hargv. destruct (good_arguments _ Hargv) as [He Hb]. split; try done. Qed.
Lemma signal_runs timeout step signal :
  identifier (st_ID step) → bounded_timeout timeout → command_runs (signal_command PhaseCleanup timeout step signal).
Proof. intros Hid Ht. by split. Qed.

Lemma step_commands_run phase serviceID timeout step :
  validPhase phase = true → step_ok step → step_confined phase serviceID step → bounded_timeout timeout →
  Forall command_runs (step_commands phase timeout step) ∧ List.map pcm_ID (step_commands phase timeout step) = [st_ID step].
Proof.
  intros Hphase [Hid [(run & Er & Es & _ & Hargv)|(signal & Er & Es & _)]] Hc Ht; unfold step_commands, signal_step; rewrite Er.
  - destruct (good_arguments _ Hargv) as [-> _]. split; [|done]. apply Forall_singleton. by apply foreground_runs.
  - rewrite Es. destruct (Hc _ Es) as (-> & _). split; [|done]. apply Forall_singleton. by apply signal_runs.
Qed.
Lemma steps_commands_run phase serviceID timeout steps :
  validPhase phase = true → Forall step_ok steps → Forall (step_confined phase serviceID) steps → bounded_timeout timeout →
  Forall command_runs (flat_map (step_commands phase timeout) steps)
  ∧ List.map pcm_ID (flat_map (step_commands phase timeout) steps) = List.map st_ID steps.
Proof.
  intros Hphase Hs Hc Ht. induction Hs as [|step steps Hstep _ IH]; [done|]. apply Forall_cons in Hc as [Hc1 Hc]. cbn [flat_map List.map].
  destruct (IH Hc) as [IH1 IH2]. destruct (step_commands_run phase serviceID timeout step Hphase Hstep Hc1 Ht) as [H1 H2].
  rewrite List.map_app, H2, IH2. split; [by apply Forall_app|done].
Qed.
Lemma command_phase_run phase serviceID p fallback :
  validPhase phase = true → Forall step_ok (command_steps p) → Forall (step_confined phase serviceID) (command_steps p) → phase_timeout p →
  0 < fallback <= 30 * Minute →
  Forall command_runs (command_phase phase p fallback) ∧ List.map pcm_ID (command_phase phase p fallback) = List.map st_ID (command_steps p).
Proof.
  unfold command_phase, command_steps. destruct p as [p|]; [|done]. intros Hphase Hs Hc Ht Hf.
  apply (steps_commands_run phase serviceID); [done..|]. apply normalized_bounded; [by apply Ht|done].
Qed.

(** The ids of the commands of a plan, in order. *)
Definition journey_id (scenario : ScenarioSpec) : list string := List.map pcm_ID (journey_command (ph_Exercise (sn_Phases scenario))).
Definition command_ids (scenario : ScenarioSpec) : list string :=
  let phases := sn_Phases scenario in
  List.map st_ID (command_steps (ph_Prepare phases)) ++ List.map st_ID (command_steps (ph_Setup phases))
  ++ List.map st_ID (command_steps (ph_Build phases))
  ++ (List.map st_ID (run_steps (ph_Run phases)) ++ optional_ids (phases_service phases))
  ++ journey_id scenario ++ List.map st_ID (command_steps (ph_Cleanup phases)).

Lemma service_runs timeout service :
  bounded_timeout timeout → service_ok service → command_runs (service_command timeout service).
Proof.
  intros Ht (Hid & _ & Hargv & readiness & Er & _). destruct (good_arguments _ Hargv) as [He Hb].
  split; try done; unfold role_valid, service_command; cbn [pcm_Role pcm_Phase pcm_Readiness pcm_Signal]; by rewrite Er.
Qed.

Lemma run_commands_run serviceID phases :
  Forall step_ok (run_steps (ph_Run phases)) → Forall (step_confined PhaseRun serviceID) (run_steps (ph_Run phases)) →
  (∀ run, ph_Run phases = Some run → timeout_ok (rn_Timeout run)) → (∀ service, phases_service phases = Some service → service_ok service) →
  Forall command_runs (run_commands (ph_Run phases))
  ∧ List.map pcm_ID (run_commands (ph_Run phases)) = List.map st_ID (run_steps (ph_Run phases)) ++ optional_ids (phases_service phases).
Proof.
  unfold run_commands, run_steps, phases_service. destruct (ph_Run phases) as [run|]; [|done]. intros Hs Hc Ht Hservice.
  assert (bounded_timeout (normalizedTimeout (rn_Timeout run) (2 * Minute))) as Hb by (apply normalized_bounded; [by apply Ht|by apply minutes_bounded]).
  destruct (steps_commands_run PhaseRun serviceID _ _ eq_refl Hs Hc Hb) as [H1 H2]. rewrite List.map_app, H2.
  destruct (rn_Service run) as [service|]; [|by rewrite !app_nil_r]. split; [|done].
  apply Forall_app. split; [done|]. apply Forall_singleton. apply service_runs; [done|]. by apply Hservice.
Qed.

Section accept.
Context `{RegexpSyntax} `{Host} `{SchemaCompiler}.

Lemma journey_command_run scenario : exercise_ok scenario → Forall command_runs (journey_command (ph_Exercise (sn_Phases scenario))).
Proof.
  intros (exercise & -> & Ht & Hkind). unfold journey_command. destruct Hkind as [(_ & Hargv & _)|(_ & -> & _)]; [|constructor].
  destruct (good_arguments _ Hargv) as [He Hb]. rewrite He. apply Forall_singleton.
  assert (bounded_timeout (normalizedTimeout (ex_Timeout exercise) Minute)) as Hbt by (apply normalized_bounded; [done|apply (minutes_bounded 1); lia]).
  by split.
Qed.

Lemma resolved_commands_run environments scenario prefix :
  scenario_ok environments scenario → validate_phases prefix (sn_Phases scenario) = [] →
  Forall command_runs (resolvedCommands scenario) ∧ List.map pcm_ID (resolvedCommands scenario) = command_ids scenario.
Proof.
  intros [_ Hsteps Hservice _ [Hnone Hcleanup] _ _ _ Hex _] (T1 & T2 & T3 & T5 & T4)%phases_timeouts.
  unfold resolvedCommands, command_ids, journey_id, scenario_steps in *.
  apply Forall_app in Hsteps as [S1 [S2 [S3 [S4 S5]%Forall_app]%Forall_app]%Forall_app].
  apply Forall_app in Hnone as [N1 [N2 [N3 N4]%Forall_app]%Forall_app].
  assert (0 < 30 * Second <= 30 * Minute) as Hclean by (unfold Minute, Second, Millisecond, Microsecond, Nanosecond; lia).
  set (id := service_id scenario).
  destruct (command_phase_run PhasePrepare id (ph_Prepare (sn_Phases scenario)) (2 * Minute)) as [C1 I1]; [done|done|by apply unsignalled_confined|done|by apply minutes_bounded|].
  destruct (command_phase_run PhaseSetup id (ph_Setup (sn_Phases scenario)) (5 * Minute)) as [C2 I2]; [done|done|by apply unsignalled_confined|done|by apply minutes_bounded|].
  destruct (command_phase_run PhaseBuild id (ph_Build (sn_Phases scenario)) (5 * Minute)) as [C3 I3]; [done|done|by apply unsignalled_confined|done|by apply minutes_bounded|].
  destruct (run_commands_run id (sn_Phases scenario)) as [C4 I4]; [done|by apply unsignalled_confined|done|done|].
  destruct (command_phase_run PhaseCleanup id (ph_Cleanup (sn_Phases scenario)) (30 * Second)) as [C5 I5]; [done|done| |done|done|].
  { eapply Forall_impl; [exact Hcleanup|]. intros step Hs signal Es. by destruct (Hs _ Es). }
  rewrite !List.map_app, I1, I2, I3, I4, I5. split; [|done]. repeat (apply Forall_app; split); try done. by apply journey_command_run.
Qed.

(** ** Assertions *)

Record assertion_runs (a : PlanAssertion) : Prop := {
  sr_id : is_identifier (pa_ID a) = true;
  sr_regex : (pa_StdoutRegex a !=s "") && negb (compiles (pa_StdoutRegex a)) = false;
  sr_schema : check_schema (pa_StdoutJSONSchema a) = Ok tt;
  sr_one : assertion_operations a = 1%nat }.

Lemma assertions_accepted ids l : Forall assertion_runs l → NoDup (ids ++ List.map pa_ID l) → assertions_valid ids l = Ok tt.
Proof.
  intros Hall. revert ids. induction Hall as [|a l [Hid Hr Hs Hone] _ IH]; intros ids Hd; cbn [assertions_valid]; [done|].
  cbn [List.map] in Hd. pose proof Hd as (_ & Hnew & _)%NoDup_app.
  assert (one_of (pa_ID a) ids = false) as Ho by (apply one_of_false; intros Hin; apply (Hnew _ Hin); left).
  unfold plan_assertion_valid. rewrite Hid, Ho, Hr, Hs, Hone. cbn [negb bind_result Nat.eqb]. apply IH. by rewrite <- app_assoc.
Qed.
Lemma assertions_valid_ids ids l : assertions_valid ids l = Ok tt → NoDup ids → NoDup (ids ++ List.map pa_ID l).
Proof.
  revert ids. induction l as [|a l IH]; intros ids; cbn [assertions_valid List.map]; [by rewrite app_nil_r|].
  intros (u & Ha & Hr)%bind_Ok Hd. apply IH in Hr; [by rewrite <- app_assoc in Hr|].
  unfold plan_assertion_valid in Ha. apply fail_if_ok in Ha as [_ Ha]. apply fail_if_ok in Ha as [Hnew _]. apply one_of_false in Hnew.
  apply NoDup_app. split; [done|]. split; [|apply NoDup_singleton]. intros x Hx ->%list_elem_of_singleton. done.
Qed.

(** *** Assertions of a command line *)

Lemma cli_assertions_accepted prefix index l seen :
  validate_cli_assertions prefix index l seen = [] → Forall (λ a, ∃ field, validateAssertion field a = []) l.
Proof.
  revert index seen. induction l as [|a l IH]; intros index seen; cbn [validate_cli_assertions]; [constructor|].
  destruct (if MatchString identifierPattern (da_ID a) then _ else _) as [issues s]. intros Hall. no_issues. constructor; [by eexists|]. by eapply IH.
Qed.

(** What the planner's checks leave of an assertion of a command line. *)
Record cli_ok (a : DriverAssertion) : Prop := {
  co_valid : ∃ field, validateAssertion field a = [];
  co_stderr : da_StderrRegex a = None;
  co_texts : da_StdoutContains a ≠ Some "" ∧ da_StderrContains a ≠ Some "" ∧ da_StdoutRegex a ≠ Some "";
  co_http : da_JSONFile a = None ∧ da_Response a = None }.

Lemma text_not_empty o : is_text o "" = false → o ≠ Some "".
Proof. by intros Hx ->. Qed.

Lemma cli_accepted name name' prefix scenario exercise :
  validate_exercise prefix scenario = [] → ph_Exercise (sn_Phases scenario) = Some exercise → dv_Type (ex_Driver exercise) = "cli" →
  validateExecutableProfile name scenario = Ok tt → driver_available name' (Some exercise) = Ok tt → Forall cli_ok (dv_Assertions (ex_Driver exercise)).
Proof.
  intros Hv Hex Ht Hprofile Hdriver. unfold validate_exercise in Hv. rewrite Hex in Hv. no_issues.
  match goal with Hc : validate_cli_assertions _ _ _ _ = [] |- _ => apply cli_assertions_accepted in Hc; rename Hc into Hvalid end.
  unfold validateExecutableProfile in Hprofile. apply bind_Ok in Hprofile as ([] & _ & Hprofile). rewrite Hex, Ht in Hprofile.
  cbn [String.eqb Ascii.eqb Bool.eqb negb] in Hprofile. apply fail_if_ok in Hprofile as [_ Hprofile].
  unfold driver_available in Hdriver. apply fail_if_ok in Hdriver as [_ Hdriver].
  apply Forall_forall. intros a Ha. rewrite Forall_forall in Hvalid. destruct (checked _ _ _ Hprofile Ha) as [j Hj]. destruct (checked _ _ _ Hdriver Ha) as [k Hk].
  unfold cli_assertion_executable in Hj. apply fail_if_ok in Hj as [_ Hj]. apply fail_if_ok in Hj as [Hhttp _]. apply orb_false_elim in Hhttp as [Hf Hr].
  unfold assertion_available in Hk. apply fail_if_ok in Hk as [F1 Hk]. apply fail_if_ok in Hk as [F2 Hk]. apply fail_if_ok in Hk as [F3 Hk].
  apply fail_if_ok in Hk as [F4 _].
  split; [by apply Hvalid|by apply is_some_false|split_and!; by apply text_not_empty|split; by apply is_some_false].
Qed.

Section resolved_assertions.
Variable snapshot : SourceSnapshot.

Lemma schema_option_runs cache path t o cache' t' :
  bound_cache snapshot cache → schema_option snapshot cache path t = (Ok (o, cache'), t') →
  check_schema o = Ok tt ∧ is_some o = (path !=s "") ∧ bound_cache snapshot cache'.
Proof.
  intros Hc Hr. destruct (schema_option_bound _ _ _ _ _ _ _ Hc Hr) as [Hb Hc']. unfold schema_option in Hr.
  destruct (path =s ""); [by apply finish_ok in Hr as [[= -> ->] _]|]. apply bind_task_ok in Hr as ([schema c] & t1 & _ & Hr).
  apply finish_ok in Hr as [[= -> ->] _]. split_and!; [|done|done]. exact (resolved_schema_valid snapshot schema (Hb schema eq_refl)).
Qed.

Lemma count_true_cons b l : count_true (b :: l) = ((if b then 1 else 0) + count_true l)%nat.
Proof. unfold count_true. cbn [List.filter]. by destruct b. Qed.
Lemma given_text o : o ≠ Some "" → (stringValue o !=s "") = is_some o.
Proof. destruct o as [s|]; [|done]. intros Hne. cbn. destruct (String.eqb_spec s "") as [->|]; [done|done]. Qed.

(** The id an assertion has in the plan. *)
Definition cli_id (index : nat) (a : DriverAssertion) : string :=
  if da_ID a =s "" then "assertion-" +:+ dec_Z (Z.of_nat (S index)) else da_ID a.

(** What [validateAssertion] accepts. *)
Lemma assertion_parts field x :
  validateAssertion field x = [] →
  (da_ID x = "" ∨ identifier (da_ID x)) ∧ (∀ r, da_StdoutRegex x = Some r → compiles r = true)
  ∧ count_true
      [is_some (da_ExitCode x); is_some (da_StdoutContains x); is_some (da_StderrContains x); is_some (da_StdoutRegex x);
       da_StdoutJSONSchema x !=s ""; is_some (da_StderrRegex x); da_FileExists x !=s ""; is_some (da_Response x); is_some (da_JSONFile x)] = 1%nat.
Proof.
  unfold validateAssertion. intros Hvalid. no_issues. split_and!.
  - match goal with Hid : _ && negb (MatchString _ _) = false |- _ => apply andb_false_iff in Hid as [Hid|Hid] end; to_prop; [by left|by right].
  - intros r Er. rewrite Er in *. cbn [from_option] in *. no_issues. by to_prop.
  - match goal with Hn : negb (count_true _ =? 1)%nat = false |- _ => apply negb_false_iff, Nat.eqb_eq in Hn; exact Hn end.
Qed.

Lemma cli_assertion_runs index cache x t a cache' t' :
  bound_cache snapshot cache → cli_ok x → Z.of_nat (S index) < 2 ^ 63 → cli_assertion snapshot index cache x t = (Ok (a, cache'), t') →
  assertion_runs a ∧ pa_JSONFile a = None ∧ pa_Response a = None ∧ bound_cache snapshot cache'.
Proof.
  intros Hc [[field (Hid & Hregex & Hone)%assertion_parts] Hstderr (T1 & T2 & T3) [Hf Hr]] Hindex. unfold cli_assertion.
  intros ([schema c] & t1 & Hs & Hfin)%bind_task_ok.
  apply schema_option_runs in Hs as (Hschema & Hsome & Hc'); [|exact Hc]. apply finish_ok in Hfin as [Hfin _]. apply pair_equal_spec in Hfin as [-> ->].
  split; [|split; [reflexivity|split; [reflexivity|exact Hc']]]. split; cbn [pa_ID pa_StdoutRegex pa_StdoutJSONSchema].
  - destruct (String.eqb_spec (da_ID x) "") as [_|Hne]; [exact (default_id_identifier _ Hindex)|]. destruct Hid as [Hid|Hid]; [by destruct Hne|exact Hid].
  - rewrite given_text by exact T3. destruct (da_StdoutRegex x) as [r|]; [|reflexivity]. cbn [is_some andb stringValue default from_option].
    unfold id. by rewrite (Hregex r eq_refl).
  - exact Hschema.
  - unfold assertion_operations. cbn [pa_ExitCode pa_StdoutContains pa_StderrContains pa_StdoutRegex pa_StdoutJSONSchema pa_FileExists pa_Response pa_JSONFile].
    rewrite (given_text _ T1), (given_text _ T2), (given_text _ T3), Hsome, <- Hone, Hstderr, Hf, Hr, !count_true_cons. cbn [is_some]. lia.
Qed.

Lemma cli_assertions_run index cache l t r t' :
  bound_cache snapshot cache → Forall cli_ok l → Z.of_nat (index + length l) < 2 ^ 63 →
  resolve_each (cli_assertion snapshot) index cache l t = (Ok r, t') →
  Forall (λ a, assertion_runs a ∧ pa_JSONFile a = None ∧ pa_Response a = None) r.
Proof.
  intros Hc Hall. revert index cache t r Hc. induction Hall as [|x l Hx _ IH]; intros index cache t r Hc Hlen; cbn [resolve_each].
  { intros [-> _]%finish_ok. constructor. }
  cbn [length] in Hlen. intros ([a c] & t1 & Ha & Hr)%bind_task_ok. apply cli_assertion_runs in Ha as (A1 & A2 & A3 & Hc'); [|done|done|lia].
  apply bind_task_ok in Hr as (more & t2 & Hm & Hr). apply finish_ok in Hr as [-> ->]. constructor; [done|]. eapply IH; [exact Hc'| |exact Hm]. lia.
Qed.
End resolved_assertions.
End accept.
