(* ===== verification/ExecutionContract.v ===== *)
(** * The contract of a resolved plan, as the runner reads it

    The first part of [validatePlan]: the evidence, the features, the image and
    the limits of a plan that [Resolve] yields are those the runner requires. *)

From S2P Require Import Prelude Json Sha256 SemanticEqual StructuredJson JsonPath JsonStrings GoValue Durations CanonicalJson JsonUnmarshal GoStruct Domain GoPath GoStrings CleanupInventory Regex Url HttpContract PlanTypes Manifest ManifestValidate ManifestSafety SchemaPolicy SchemaInstance RuntimePolicy SchemaFeatures SchemaSource PlanDocument PlanContract Planner PlannerSafety ExecutionPlan ExecutionTexts.

Local Open Scope Z_scope.

(** ** Sets of texts in their normal form *)

Lemma tagged_texts (l : list string) : (List.map (λ s, (s, tt)) l).*1 = l.
Proof. induction l as [|x l IH]; [done|]. cbn [List.map]. by rewrite fmap_cons, IH. Qed.
Lemma sort_texts_perm l l' : NoDup l → l ≡ₚ l' → sort_texts l = sort_texts l'.
Proof.
  intros Hd Hp. unfold sort_texts. by rewrite (sort_keys_perm _ (List.map (λ s, (s, tt)) l')); [|rewrite tagged_texts|apply Permutation_map].
Qed.
Lemma sort_texts_same l : sort_texts l ≡ₚ l.
Proof. unfold sort_texts. by rewrite sort_keys_same, tagged_texts. Qed.
Lemma sorted_unique_NoDup l : NoDup (sortedUnique l).
Proof. unfold sortedUnique. rewrite sort_texts_same. apply NoDup_remove_dups. Qed.

(** The normal form depends on the set only. *)
Lemma sorted_unique_set l l' : (∀ x, x ∈ l ↔ x ∈ l') → sortedUnique l = sortedUnique l'.
Proof.
  intros Hset. unfold sortedUnique. apply sort_texts_perm; [apply NoDup_remove_dups|].
  apply NoDup_Permutation; [apply NoDup_remove_dups..|]. intros x.
  by rewrite !elem_of_remove_dups, !list_elem_of_In, !List.filter_In, <- !list_elem_of_In, Hset.
Qed.

Lemma equal_slices_self l : equalStringSlices l l = true.
Proof. induction l as [|x l IH]; [done|]. cbn [equalStringSlices]. by rewrite string_eqb_refl, IH. Qed.

Lemma evidence_runs evidence :
  validateEvidenceProfile evidence = Ok tt →
  validResolvedEvidence
    {| pe_Profile := ev_Profile evidence; pe_Include := sorted_slice (ev_Include evidence); pe_Exclude := sorted_slice (ev_Exclude evidence) |} = true.
Proof.
  unfold validateEvidenceProfile. destruct (_ && _) eqn:E; [|done]. intros _. apply andb_prop in E as [[Hp Hi]%andb_prop He].
  assert (∀ (l : slice string) expected, NoDup expected → exactStringSet (elems l) expected = true → sortedUnique expected = expected →
    equalStringSlices (elems (sorted_slice l)) expected = true) as Hslice.
  { intros l expected Hd Hx Hs. apply exact_string_set in Hx; [|exact Hd]. cbn [sorted_slice elems default].
    rewrite (sorted_unique_set _ expected), Hs; [apply equal_slices_self|]. intros x. by rewrite Hx. }
  assert (NoDup expectedInclude ∧ NoDup expectedSBOMInclude ∧ NoDup expectedExclude) as (D1 & D2 & D3) by (split_and!; by apply (bool_decide_unpack _)).
  unfold validResolvedEvidence. cbn [pe_Profile pe_Include pe_Exclude].
  change ["raw-stderr"; "raw-stdout"; "raw-syscall-trace"] with expectedExclude. change ["normalized-observations"; "verification-summary"] with expectedInclude.
  change ["normalized-observations"; "sbom"; "verification-summary"] with expectedSBOMInclude.
  rewrite Hp, (Hslice _ _ D3 He eq_refl). cbn [negb orb].
  apply orb_prop in Hi as [Hi|Hi]; [by rewrite (Hslice _ _ D1 Hi eq_refl)|rewrite (Hslice _ _ D2 Hi eq_refl); apply orb_true_r].
Qed.

(** ** Features *)

Lemma filter_single (P : string → bool) x l :
  NoDup l → x ∈ l → P x = true → (∀ y, y ∈ l → P y = true → y = x) → List.filter P l = [x].
Proof.
  induction 1 as [|y l Hy Hd IH]; [by intros ?%elem_of_nil|]. intros Hx HP Hall. cbn [List.filter].
  assert (∀ l', (∀ z, z ∈ l' → P z = true → z = x) → x ∉ l' → List.filter P l' = []) as Hnone.
  { induction l' as [|z l' IH']; [done|]. intros H1 H2. cbn [List.filter]. destruct (P z) eqn:Ez.
    - destruct H2. rewrite (H1 z (list_elem_of_here _ _) Ez). apply list_elem_of_here.
    - apply IH'; set_solver. }
  destruct (P y) eqn:Ey.
  - assert (y = x) as -> by (apply Hall; [apply list_elem_of_here|done]). f_equal. apply Hnone; [set_solver|done].
  - apply IH; [|done|set_solver]. apply elem_of_cons in Hx as [->|]; [congruence|done].
Qed.

Definition platform_feature (feature : string) : bool := has_prefix "platform:" (to_lower (trim_space feature)).
Definition common_features : list string :=
  ["linux-container"; "read-only-source"; "isolated-workspace"; "network-deny"; "bounded-logs"; "process-cleanup";
   "cleanup-residue-classification"; "background-service"; "loopback-http-driver"; "service-signal"].

Lemma no_allowlists capabilities : Forall capability_closed capabilities → allowlist_features capabilities = [].
Proof.
  intros Hc. unfold allowlist_features. induction Hc as [|[phase c] l [Hn _] _ IH]; [done|]. cbn [flat_map snd]. by rewrite Hn, IH.
Qed.

Lemma plan_features_elem architecture observers capabilities http x :
  Forall capability_closed capabilities →
  x ∈ plan_features architecture observers capabilities http →
  x = "platform:linux/" +:+ architecture ∨ x ∈ common_features ∨ ∃ o, o ∈ observers ∧ x = "observer:" +:+ o.
Proof.
  intros Hc [Hx _]%sorted_unique_elem. rewrite (no_allowlists _ Hc) in Hx. cbn [app] in Hx.
  rewrite !elem_of_cons, elem_of_app in Hx. unfold common_features.
  destruct Hx as [->|[->|[->|[->|[->|[->|[->|[->|[Hx|Hx]]]]]]]]]; try (right; left; set_solver).
  - by left.
  - right. right. apply list_elem_of_In, in_map_iff in Hx as (o & <- & Ho). exists o. by rewrite list_elem_of_In.
  - right. left. destruct http; [|by apply elem_of_nil in Hx]. set_solver.
Qed.

Lemma only_platform :
  forallb (λ f, negb (platform_feature f)) common_features && forallb (λ o, negb (platform_feature ("observer:" +:+ o))) supportedObservers
  && platform_feature "platform:linux/amd64" = true.
Proof. by vm_compute. Qed.

Lemma platform_runs architecture observers capabilities http :
  architecture = "amd64" → Forall capability_closed capabilities → Forall (λ o, o ∈ supportedObservers) observers →
  requiredPlanPlatform (plan_features architecture observers capabilities http) = Ok "linux/amd64".
Proof.
  intros -> Hc Ho. pose proof only_platform as [[Hcommon Hobserver]%andb_prop Hplatform]%andb_prop. unfold requiredPlanPlatform, platform_features.
  rewrite (filter_single _ "platform:linux/amd64"); [reflexivity|apply sorted_unique_NoDup| |exact Hplatform|].
  - apply sorted_unique_elem. split; [|discriminate]. apply list_elem_of_further, list_elem_of_here.
  - intros y Hy Hp. change (platform_feature y = true) in Hp. destruct (plan_features_elem _ _ _ _ _ Hc Hy) as [->|[Hin|(o & Hin & ->)]]; [reflexivity| |].
    + pose proof (forallb_elem _ _ _ Hcommon Hin) as Hf. cbn beta in Hf. by rewrite Hp in Hf.
    + rewrite Forall_forall in Ho. pose proof (forallb_elem _ _ _ Hobserver (Ho _ Hin)) as Hf. cbn beta in Hf. by rewrite Hp in Hf.
Qed.

Lemma feature_counted feature architecture observers capabilities http :
  feature ≠ "" → feature ∈ ["linux-container"; "cleanup-residue-classification"] ∨ http = true ∧ feature ∈ ["background-service"; "loopback-http-driver"; "service-signal"] →
  count_text feature (plan_features architecture observers capabilities http) = 1%nat
  ∧ one_of feature (plan_features architecture observers capabilities http) = true.
Proof.
  intros Hne Hf. assert (feature ∈ plan_features architecture observers capabilities http) as Hin.
  { apply sorted_unique_elem. split; [|exact Hne]. destruct Hf as [Hf|[-> Hf]].
    - apply elem_of_app. left. set_solver.
    - do 3 (apply elem_of_app; right). exact Hf. }
  split; [|by apply one_of_In]. unfold count_text. rewrite (filter_single _ feature); [done|apply sorted_unique_NoDup|done|apply string_eqb_refl|].
  intros y _ Hy. by apply String.eqb_eq in Hy.
Qed.

(** ** The contract *)

(** What only the runner knows: the tree is named, and the memory and the disk
    are within its ceilings. *)
Definition within_ceilings (cfg : Config) (plan : FullPlan) : Prop :=
  not_blank (ps_TreeDigest (fp_Source plan)) = true
  ∧ rl_MemoryBytes (fp_Resources plan) <= cf_MaxMemoryBytes cfg ∧ rl_DiskBytes (fp_Resources plan) <= cf_MaxDiskBytes cfg.

Lemma bounds_kept value maximum : 1 <= value <= maximum → out_of_bounds value maximum = false.
Proof. intros H. unfold out_of_bounds. by rewrite (proj2 (Z.leb_gt value 0)), (proj2 (Z.ltb_ge maximum value)) by lia. Qed.
Lemma bounds_kept_inv value maximum : out_of_bounds value maximum = false → value <= maximum.
Proof. unfold out_of_bounds. intros [_ H%Z.ltb_ge]%orb_false_elim. exact H. Qed.

Lemma resources_run cfg plan :
  cf_MaxCPUMillis cfg = 64000 → cf_MaxPIDs cfg = 4096 → within_ceilings cfg plan →
  1 <= rl_CPUMillis (fp_Resources plan) <= 64000 → 1 <= rl_MemoryBytes (fp_Resources plan) → 1 <= rl_DiskBytes (fp_Resources plan) →
  1 <= rl_PIDs (fp_Resources plan) <= 4096 → resources_valid cfg (fp_Resources plan) = Ok tt.
Proof.
  intros Ecpu Epids (_ & Hm & Hd) H1 H2 H3 H4. unfold resources_valid. rewrite Ecpu, Epids, !bounds_kept; [reflexivity|lia..].
Qed.

Lemma allowlists_run capabilities : Forall capability_closed capabilities → check_each allowlist_absent capabilities = Ok tt.
Proof.
  intros Hc. apply check_each_ok. intros j [phase c] Hj. rewrite Forall_lookup in Hc. destruct (Hc _ _ Hj) as [Hn _].
  unfold allowlist_absent. by rewrite Hn.
Qed.

(** The approved images pass the tests of the runner. *)
Definition image_runs (a : approvedRuntime) : bool :=
  validDigest (ap_digest a) && validPinnedImageReference (ap_reference a) (ap_digest a) && MatchString exactRuntimeVersionPattern (ap_version a)
  && is_some (runtimeExecutable (ap_adapter a))
  && match RuntimePolicy.Validate (ap_adapter a) (ap_version a) (ap_reference a) (ap_digest a) "linux/amd64" with Ok _ => true | Err _ => false end.
Lemma approved_run : forallb image_runs approvedRuntimes = true.
Proof. by vm_compute. Qed.

Section contract.
Context `{RegexpSyntax} `{Host} `{SchemaCompiler}.

Lemma driver_runs plan : fp_JourneyDriver plan = "cli" ∨ fp_JourneyDriver plan = "http" →
  fp_JourneyDriverVersion plan = JourneyDriverVersion (fp_JourneyDriver plan) → driver_version_valid plan = Ok tt.
Proof. unfold driver_version_valid. by intros [->| ->] ->. Qed.

Lemma observers_known scenario : verification_ok (sn_Verification scenario) → Forall (λ o, o ∈ supportedObservers) (plan_observers scenario).
Proof.
  intros (_ & Ho & _). apply Forall_forall. intros o Hin. unfold plan_observers in Hin. apply sorted_unique_elem in Hin as [Hin _].
  apply elem_of_app in Hin as [Hin|Hin]; [rewrite Forall_forall in Ho; by apply Ho|]. unfold always_observed in Hin. unfold supportedObservers. set_solver.
Qed.

Lemma driver_type_known environments scenario : scenario_ok environments scenario → driver_type scenario = "cli" ∨ driver_type scenario = "http".
Proof.
  intros Hs. destruct (ok_exercise _ _ Hs) as (exercise & Ex & _ & Hkind). unfold driver_type. rewrite Ex. by destruct Hkind as [[-> _]|[-> _]]; [left|right].
Qed.

Lemma plan_commanded environments scenario : scenario_ok environments scenario → resolvedCommands scenario ≠ [].
Proof.
  intros Hs. destruct (ok_exercise _ _ Hs) as (exercise & Ex & _ & [(_ & Hargv & _)|(_ & _ & _ & prefix & Hp)]).
  - destruct (is_empty (dv_Command (ex_Driver exercise))) eqn:E; [by destruct Hargv as [Hne _], (dv_Command (ex_Driver exercise))|].
    unfold resolvedCommands, journey_command. rewrite Ex, E. intros (_ & (_ & (_ & (_ & [He _]%app_nil)%app_nil)%app_nil)%app_nil)%app_nil. discriminate He.
  - apply profile_accepted in Hp; [|apply (ok_service _ _ Hs)].
    destruct Hp as (service & readiness & listener & Hserv & Hread & _ & _ & _ & (u & port & Hu & _) & _).
    destruct (service_command_listed _ _ _ _ _ Hserv Hread Hu) as (c & r & u' & Hin & _). intros E. rewrite E in Hin. by apply elem_of_nil in Hin.
Qed.

Lemma digest_not_blank plan : digestPlan plan = Ok (fp_PlanDigest plan) → not_blank (fp_PlanDigest plan) = true.
Proof. intros (j & _ & ->)%Digest_inv. by destruct (digest_text_valid (encode j)). Qed.

(** Every plan that resolves meets the contract, within the ceilings. *)
Lemma contract_runs doc m snapshot name t plan t' scenario environment journey assertions cfg :
  Forall (λ e, real_amount (rs_CPU (en_Resources e.2))) (sp_Environments (mf_Spec m)) →
  resolution doc m snapshot name t plan t' scenario environment journey assertions →
  cf_MaxCPUMillis cfg = 64000 → cf_MaxPIDs cfg = 4096 → within_ceilings cfg plan → plan_contract cfg plan = Ok "linux/amd64".
Proof.
  intros Hreal R Ecpu Epids Hceil.
  destruct (resolution_valid _ _ _ _ _ _ _ _ _ _ _ R) as (Hv & Henv%environment_accepted & Hs & Ha).
  destruct (ad_features _ _ _ _ Ha) as [n Hf%features_accepted]. destruct (admitted_runtime _ _ _ _ _ Ha Henv) as (a & Hin & Ea & Harch).
  pose proof (forallb_elem _ _ _ approved_run Hin) as Himage. unfold image_runs in Himage.
  apply andb_prop in Himage as [[[[I1 I2]%andb_prop I3]%andb_prop I4]%andb_prop I5].
  destruct (RuntimePolicy.Validate _ _ _ _ _) as [[]|] eqn:I6 in I5; [|discriminate I5]. clear I5.
  destruct (resolved_capabilities_closed _ _ Hs Hf) as [_ Hclosed].
  pose proof (digest_not_blank _ (rv_digest _ _ _ _ _ _ _ _ _ _ _ R)) as Hdigest.
  pose proof (rv_environment _ _ _ _ _ _ _ _ _ _ _ R) as Hlisted. rewrite Forall_forall in Hreal. specialize (Hreal _ Hlisted).
  destruct Henv as (_ & _ & _ & _ & Hpids & Hcpu & Hmem & Hdisk). cbn [snd] in *.
  destruct (rv_plan _ _ _ _ _ _ _ _ _ _ _ R) as (policy & digest & Eplan).
  apply pair_equal_spec in Ea as [[[Ea1 Ea2]%pair_equal_spec Ea3]%pair_equal_spec Ea4].
  assert (resources_valid cfg (fp_Resources plan) = Ok tt) as Hres.
  { apply resources_run; [exact Ecpu|exact Epids|exact Hceil|..]; rewrite Eplan; cbn [fp_Resources PlanDocument.with_digest resolved_plan rl_CPUMillis rl_MemoryBytes rl_DiskBytes rl_PIDs];
      [by apply cpu_bounded|by destruct (size_bounded _ Hmem)|by destruct (size_bounded _ Hdisk)|exact Hpids]. }
  destruct Hceil as (Htree & _). unfold plan_contract. rewrite Hdigest, Htree, Hres. rewrite Eplan.
  cbn [fp_SchemaVersion fp_Evidence fp_Cleanup fp_RequiredRunnerFeatures fp_BaseImageDigest fp_BaseImageReference fp_RuntimeVersion fp_RuntimeAdapter
       fp_Capabilities fp_Commands PlanDocument.with_digest resolved_plan].
  rewrite Ea1, Ea2, Ea4, Ea3, I1, I2, I3, I4, (evidence_runs _ (ad_evidence _ _ _ _ Ha)), (allowlists_run _ Hclosed).
  rewrite (platform_runs _ _ _ _ Harch Hclosed (observers_known _ (ok_verification _ _ Hs))).
  destruct (feature_counted "cleanup-residue-classification" (pl_Architecture (en_Platform environment)) (plan_observers scenario) (resolvedCapabilities scenario)
    (is_some journey)) as [-> _]; [discriminate|left; set_solver|].
  rewrite driver_runs; [|exact (driver_type_known _ _ Hs)|reflexivity].
  assert (residue_refused {| pcl_ClassifierVersion := CleanupClassifierVersion; pcl_AllowedResidue := cl_AllowedResidue (vs_Cleanup (sn_Verification scenario)) |} = false) as ->.
  { unfold residue_refused. cbn [pcl_AllowedResidue]. by destruct (fo_residue _ Hf) as [->| ->]. }
  destruct (resolvedCommands scenario) as [|c l] eqn:Ec; [by destruct (plan_commanded _ _ Hs)|]. cbn [bind_result negb String.eqb Ascii.eqb Bool.eqb orb Nat.eqb].
  rewrite I6. reflexivity.
Qed.
(** What acceptance says of the limits. *)
Lemma contract_ceilings cfg plan platform : plan_contract cfg plan = Ok platform → within_ceilings cfg plan.
Proof.
  unfold plan_contract. intros Hp. do 4 apply fail_if_ok in Hp as [_ Hp]. apply bind_Ok in Hp as ([] & _ & Hp).
  apply fail_if_ok in Hp as [_ Hp]. apply fail_if_ok in Hp as [Hd Hp]. do 2 apply fail_if_ok in Hp as [_ Hp].
  apply bind_Ok in Hp as (p & _ & Hp). apply bind_Ok in Hp as ([] & _ & Hp). apply bind_Ok in Hp as ([] & Hr & _).
  apply orb_false_elim in Hd as [_ Hd%negb_false_iff]. unfold resources_valid in Hr. apply fail_if_ok in Hr as [Hr _].
  apply orb_false_elim in Hr as [[[_ Hm]%orb_false_elim _]%orb_false_elim Hdisk]. split; [exact Hd|]. by split; apply bounds_kept_inv.
Qed.
End contract.
