(* ===== verification/ExecutionRequests.v ===== *)
(** * The requests of a resolved plan, as the runner reads them

    [trustedHTTPRequestFromPlan] accepts every request that [Resolve] writes
    into a plan: the names of its headers are lower-cased once, by the planner,
    and nothing the driver controls is among them. *)

From S2P Require Import Prelude Json Sha256 SemanticEqual StructuredJson JsonPath JsonStrings GoValue Durations CanonicalJson JsonUnmarshal GoStruct Domain GoPath GoStrings CleanupInventory Regex Url HttpContract PlanTypes Manifest ManifestValidate ManifestSafety SchemaPolicy SchemaInstance RuntimePolicy SchemaFeatures SchemaSource PlanDocument PlanContract Planner PlannerSafety ExecutionPlan ExecutionTexts.

Local Open Scope Z_scope.

(** ** The headers in lower case *)

Definition lower_header (p : string * string) : string * string := (to_lower p.1, p.2).

Lemma lower_header_names headers : (List.map lower_header headers).*1 = List.map (λ h, to_lower h.1) headers.
Proof. induction headers as [|h l IH]; [done|]. cbn [List.map]. by rewrite fmap_cons, IH. Qed.

Lemma assoc_set_end {A} k (v : A) l : k ∉ l.*1 → assoc_set k v l = l ++ [(k, v)].
Proof.
  induction l as [|[j w] l IH]; [done|]. cbn [assoc_set]. intros Hk. rewrite fmap_cons in Hk. apply not_elem_of_cons in Hk as [Hne Hk].
  cbn [fst] in Hne. destruct (String.eqb_spec j k) as [->|_]; [done|]. by rewrite IH.
Qed.
Lemma set_all_distinct {A} (l acc : list (string * A)) : NoDup (acc ++ l).*1 → set_all l acc = acc ++ l.
Proof.
  unfold set_all. revert acc. induction l as [|[k v] l IH]; intros acc Hd; cbn [foldl]; [by rewrite app_nil_r|].
  cbn [fst snd]. assert (k ∉ acc.*1) as Hk.
  { rewrite fmap_app, fmap_cons in Hd. apply NoDup_app in Hd as (_ & Hd & _). intros Hin. apply (Hd _ Hin). left. }
  rewrite assoc_set_end by exact Hk. rewrite IH; rewrite <- app_assoc; [done|exact Hd].
Qed.
Lemma normalized_headers headers : NoDup (List.map (λ h, to_lower h.1) headers) → normalizedHTTPHeaders headers = List.map lower_header headers.
Proof.
  intros Hd. unfold normalizedHTTPHeaders. change (λ p : string * string, (to_lower p.1, p.2)) with lower_header.
  rewrite set_all_distinct; [done|]. cbn [app]. by rewrite lower_header_names.
Qed.

(** A header of a plan, as the runner accepts it. *)
Record header_trusted (h : string * string) : Prop := {
  ht_canonical : canonical_text h.1 = h.1;
  ht_name : validHTTPHeaderName h.1 = true;
  ht_lower : to_lower h.1 = h.1;
  ht_allowed : one_of h.1 forbiddenHTTPRequestHeaders = false;
  ht_value : isPrintableASCII h.2 = true;
  ht_size : zlen h.2 <= AlphaHTTPMaxHeaderValueBytes }.

Lemma safe_trusted headers : headers_safe headers → Forall header_trusted (List.map lower_header headers) ∧ NoDup (List.map lower_header headers).*1.
Proof.
  intros [Hs Hd]. split.
  - apply List.Forall_map. eapply Forall_impl; [exact Hs|]. intros h (Hn & Hf & Hp & _ & Hl). destruct (header_name_accepted _ Hn) as (C1 & C2 & _).
    split; cbn [lower_header fst snd]; [exact C1|exact C2|apply lower_twice|by apply one_of_false|exact Hp|exact Hl].
  - by rewrite lower_header_names.
Qed.

Lemma trusted_headers_accepted headers acc total :
  Forall header_trusted headers → NoDup (acc ++ headers).*1 →
  trusted_headers headers acc total = Ok (acc ++ headers, total + headers_bytes headers).
Proof.
  intros Ht. revert acc total. induction Ht as [|[name value] headers [H1 H2 _ H4 H5 H6] _ IH]; intros acc total Hd; cbn [trusted_headers].
  { rewrite app_nil_r. unfold headers_bytes. cbn [foldr]. by rewrite Z.add_0_r. }
  cbn [fst snd] in *. rewrite H1, H2, H4, H5, string_eqb_refl, (proj2 (Z.ltb_ge _ _) H6). cbn [negb orb].
  assert (has_key name acc = false) as ->.
  { rewrite fmap_app, fmap_cons in Hd. apply NoDup_app in Hd as (_ & Hd & _). destruct (has_key name acc) eqn:E; [|done].
    apply has_key_In in E. destruct (Hd _ E). left. }
  rewrite IH by (by rewrite <- app_assoc). rewrite <- app_assoc. cbn [app]. f_equal. f_equal. unfold headers_bytes, header_bytes. cbn [foldr fst snd]. lia.
Qed.

(** *** The limits of the contract are those of the runner *)

Lemma zlen_lower s : zlen (to_lower s) = zlen s.
Proof. unfold zlen. f_equal. unfold to_lower. induction s as [|c s IH]; [done|]. cbn. by rewrite IH. Qed.
Lemma lower_within headers hasJSON : headers_within_limits headers hasJSON → headers_within_limits (List.map lower_header headers) hasJSON.
Proof.
  intros (H1 & H2 & H3). unfold headers_within_limits.
  assert (existsb names_content_type (List.map lower_header headers) = existsb names_content_type headers) as ->.
  { clear. induction headers as [|h l IH]; [done|]. cbn [List.map existsb]. rewrite IH. f_equal. unfold names_content_type, equal_fold, lower_header. cbn [fst].
    by rewrite lower_twice. }
  assert (headers_bytes (List.map lower_header headers) = headers_bytes headers) as ->.
  { clear. unfold headers_bytes. induction headers as [|h l IH]; [done|]. cbn [List.map foldr]. rewrite IH. f_equal. unfold header_bytes, lower_header.
    cbn [fst snd]. by rewrite zlen_lower. }
  rewrite List.length_map. split; [|done]. apply List.Forall_map. eapply Forall_impl; [exact H1|]. done.
Qed.
Lemma content_type_key headers : Forall header_trusted headers → has_key AlphaHTTPContentTypeName headers = existsb names_content_type headers.
Proof.
  induction 1 as [|[name value] l [_ _ H3 _ _ _] _ IH]; [done|]. cbn [existsb]. rewrite <- IH. unfold names_content_type at 1, equal_fold. cbn [fst].
  cbn [fst] in H3. rewrite H3. change (to_lower AlphaHTTPContentTypeName) with AlphaHTTPContentTypeName. unfold has_key. cbn [assoc].
  destruct (name =s AlphaHTTPContentTypeName); done.
Qed.

(** ** The request *)

Definition method_runs (method : string) : bool :=
  (method =s canonical_text method) && allowedHTTPMethod (upper_text (trim_space method)).
Lemma methods_run : forallb method_runs supportedHTTPMethods = true.
Proof. by vm_compute. Qed.

(** What the planner writes for a request. *)
Record request_planned (port : Z) (r : PlanHTTPRequest) : Prop := {
  rp_id : identifier (prq_ID r);
  rp_method : prq_Method r ∈ supportedHTTPMethods;
  rp_url : ∃ u, contract_url (prq_URL r) u port;
  rp_timeout : alpha_timeout (prq_Timeout r);
  rp_headers : Forall header_trusted (prq_Headers r) ∧ NoDup (prq_Headers r).*1;
  rp_limits : headers_within_limits (prq_Headers r) (is_some (prq_JSON r));
  rp_one : prq_Body r = None ∨ prq_JSON r = None;
  rp_body : ∀ body, prq_Body r = Some body → zlen body <= AlphaHTTPMaxRequestBodyBytes;
  rp_json : ∀ json, prq_JSON r = Some json → zlen json <= AlphaHTTPMaxRequestBodyBytes }.

Lemma whole_milliseconds value maximum d : ParseAlphaHTTPDuration value maximum = Ok d → isWholeMillisecondDuration d = true.
Proof.
  unfold ParseAlphaHTTPDuration. destruct (ParseDuration value) as [x|]; cbn [of_option bind_result]; [|discriminate].
  intros Hd. apply fail_if_ok in Hd as [Ht [= <-]]. apply orb_false_elim in Ht as [[Ht Hw]%orb_false_elim _]. apply Z.ltb_ge in Ht.
  apply negb_false_iff in Hw. unfold isWholeMillisecondDuration. rewrite Hw, andb_true_r. by apply Z.leb_le.
Qed.
Lemma alpha_within value maximum d : 0 < maximum → ParseAlphaHTTPDuration value maximum = Ok d → d <= maximum.
Proof.
  intros Hm. unfold ParseAlphaHTTPDuration. destruct (ParseDuration value) as [x|]; cbn [of_option bind_result]; [|discriminate].
  intros Hd. apply fail_if_ok in Hd as [Ht [= <-]]. apply orb_false_elim in Ht as [_ Ht]. rewrite (proj2 (Z.ltb_lt 0 maximum) Hm) in Ht. by apply Z.ltb_ge in Ht.
Qed.
Lemma alpha_not_empty value maximum d : ParseAlphaHTTPDuration value maximum = Ok d → value ≠ "".
Proof. intros [Hp _]%alpha_duration_parse ->. by vm_compute in Hp. Qed.

Lemma request_time_positive : 0 < AlphaHTTPMaxRequestTime.
Proof. by vm_compute. Qed.

Lemma trusted_body_accepted port r :
  request_planned port r → (∀ json, prq_JSON r = Some json → json_valid json = true) →
  ∃ body headers total, trusted_body r (prq_Headers r) (headers_bytes (prq_Headers r)) = Ok (body, headers, total)
    ∧ zlen body <= AlphaHTTPMaxRequestBodyBytes ∧ Z.of_nat (length headers) <= AlphaHTTPMaxHeaders ∧ total <= AlphaHTTPMaxHeaderAggregateBytes.
Proof.
  intros [_ _ _ _ [Hh _] (_ & Hcount & Hbytes) Hone Hbody Hjson] Hvalid. rewrite <- (content_type_key _ Hh) in Hcount, Hbytes.
  unfold trusted_body. destruct (prq_JSON r) as [json|], (prq_Body r) as [body|]; cbn [is_some andb] in *.
  - by destruct Hone.
  - rewrite (Hvalid json eq_refl). cbn [negb] in *. destruct (has_key AlphaHTTPContentTypeName (prq_Headers r)); cbn [negb] in *;
      eexists _, _, _; (split; [reflexivity|]); (split; [by apply Hjson|]); [split; lia|].
    rewrite length_app. cbn [length]. change (zlen AlphaHTTPContentTypeName + zlen AlphaHTTPJSONContentType + 4) with 32. split; lia.
  - eexists _, _, _. split; [reflexivity|]. split; [by apply Hbody|split; lia].
  - eexists _, _, _. split; [reflexivity|]. split; [by vm_compute|split; lia].
Qed.

Lemma request_trusted port r defaultTimeout maxBody maxHeader :
  request_planned port r → (∀ json, prq_JSON r = Some json → json_valid json = true) →
  effective_limit maxBody AlphaHTTPMaxRequestBodyBytes = AlphaHTTPMaxRequestBodyBytes →
  effective_limit maxHeader AlphaHTTPMaxHeaderAggregateBytes = AlphaHTTPMaxHeaderAggregateBytes →
  ∃ q, trustedHTTPRequestFromPlan r defaultTimeout maxBody maxHeader = Ok q ∧ tr_ID q = prq_ID r ∧ tr_URL q = prq_URL r.
Proof.
  intros Hr Hvalid Emax Ehead. destruct (trusted_body_accepted port r Hr Hvalid) as (body & headers & total & Hb & Hbody & Hcount & Htotal).
  destruct Hr as [_ Hm (u & Hu) (d & Hd) [Hh Hn] Hl _ _ _]. unfold trustedHTTPRequestFromPlan.
  rewrite (proj2 (String.eqb_neq _ _) (alpha_not_empty _ _ _ Hd)), Hd. cbn [negb map_err bind_result].
  rewrite (whole_milliseconds _ _ _ Hd), (proj2 (Z.ltb_ge _ _) (alpha_within _ _ _ request_time_positive Hd)). cbn [negb orb].
  pose proof (forallb_elem _ _ _ methods_run Hm) as [Hc%String.eqb_eq Ha]%andb_prop.
  rewrite <- Hc, string_eqb_refl. cbn [negb]. rewrite (proj2 (headers_exact _ _) Hl). cbn [bind_result].
  rewrite (trusted_headers_accepted _ [] 0 Hh Hn). cbn [bind_result app]. rewrite (Z.add_0_l (headers_bytes (prq_Headers r))), Hb. cbn [bind_result].
  rewrite (proj2 (Z.ltb_ge _ _) Hcount), Emax, Ehead, (proj2 (Z.ltb_ge _ _) Htotal), (proj2 (Z.ltb_ge _ _) Hbody).
  unfold validateLoopbackHTTPURL. rewrite (contract_url_accepted _ _ _ Hu). cbn [bind_result]. rewrite Ha. cbn [negb]. eexists. split; [reflexivity|]. done.
Qed.

(** [plan_request] writes such requests. *)
Lemma request_resolves declaredPort exercise request r :
  declaredPort ≠ 0 → request_ok declaredPort request → alpha_timeout (Duration_String (request_fallback exercise)) →
  plan_request (request_fallback exercise) request = Ok r → request_planned declaredPort r ∧ prq_ID r = rq_ID request.
Proof.
  intros Hport (Hid & Hm & (u & port & Hu & Hsame) & Ht & Hh & Hl & Hone & Hbody & Hjson) Hfb. unfold plan_request.
  assert (port = declaredPort) as -> by (by destruct Hsame).
  assert (alpha_timeout (normalizedTimeout (rq_Timeout request) (request_fallback exercise))) as Htimeout by (by apply request_timeout).
  rewrite (normalized_headers _ (proj2 Hh)). pose proof (safe_trusted _ Hh) as Htrusted. pose proof (lower_within _ _ Hl) as Hlower.
  destruct (HasJSON request) eqn:Ej; cbn [bind_result].
  - destruct (Hjson eq_refl) as (encoded & Em & Hlen). rewrite Em. cbn [bind_result]. intros [= <-]. destruct Hone as [Hb|]; [|done].
    rewrite Hb. split; [|done]. split; cbn [prq_ID prq_Method prq_URL prq_Timeout prq_Body prq_JSON prq_Headers]; try done; [by exists u|by left|by intros json [= <-]].
  - intros [= <-]. split; [|done].
    split; cbn [prq_ID prq_Method prq_URL prq_Timeout prq_Body prq_JSON prq_Headers]; try done; [by exists u|by right|].
    intros body. destruct (HasBody request); [|done]. by intros [= <-].
Qed.

Lemma same_origin port a b u v : contract_url a u port → contract_url b v port → sameHTTPOrigin a b = true.
Proof.
  intros (p & q & -> & _ & [Hp _] & _ & H1 & _ & H2) (p' & q' & -> & _ & _ & _ & H1' & _ & H2'). unfold sameHTTPOrigin.
  rewrite (parse_canonical port p q ltac:(lia) H1 H2), (parse_canonical port p' q' ltac:(lia) H1' H2'). cbn [u_Scheme u_Host canonical_url].
  by rewrite !string_eqb_refl.
Qed.
