(* ===== verification/ExecutionHttp.v ===== *)
(** * The HTTP journey of a resolved plan, as the runner reads it

    [validateHTTPPlan] on the plans [Resolve] yields: one service, probed on the
    declared listener and stopped by the last command, requests on its origin,
    and every assertion once and after its request. *)

From S2P Require Import Prelude Json Sha256 SemanticEqual StructuredJson JsonPath JsonStrings GoValue Durations CanonicalJson JsonUnmarshal GoStruct Domain GoPath GoStrings CleanupInventory Regex Url HttpContract PlanTypes Manifest ManifestValidate ManifestSafety SchemaPolicy SchemaInstance RuntimePolicy SchemaFeatures SchemaSource PlanDocument PlanContract Planner PlannerSafety ExecutionPlan ExecutionTexts ExecutionRequests ExecutionAccept.

Local Open Scope Z_scope.

(** ** Documents: a member that is written could be written *)

Lemma struct_member members l k d : struct members = Ok l → (k, Some d) ∈ members → ∃ j, d = Ok j.
Proof.
  revert l. induction members as [|[k' [d'|]] members IH]; intros l; cbn [struct]; [by intros _ ?%elem_of_nil| |].
  - intros (j & Hj & Hr)%bind_Ok. apply bind_Ok in Hr as (r & Hr & _). intros [E|Hin]%elem_of_cons; [injection E as _ ->; by exists j|by eapply IH].
  - intros Hl [E|Hin]%elem_of_cons; [discriminate E|by eapply IH].
Qed.
Lemma object_member members j k d : object members = Ok j → (k, Some d) ∈ members → ∃ i, d = Ok i.
Proof. unfold object. intros (l & Hl & _)%bind_Ok. by eapply struct_member. Qed.
Lemma bind_all_member {A B} (f : A → result string B) l r x : bind_all f l = Ok r → x ∈ l → ∃ y, f x = Ok y.
Proof.
  revert r. induction l as [|a l IH]; intros r; cbn [bind_all]; [by intros _ ?%elem_of_nil|].
  intros (y & Hy & Hr)%bind_Ok. apply bind_Ok in Hr as (ys & Hr & _). intros [->|Hin]%elem_of_cons; [by exists y|by eapply IH].
Qed.
Lemma array_member {A} (f : A → doc) l j x : array f l = Ok j → x ∈ l → ∃ i, f x = Ok i.
Proof. unfold array. intros (r & Hr & _)%bind_Ok. by eapply bind_all_member. Qed.

(** The JSON bodies of a plan with a digest are documents. *)
Lemma plan_bodies_valid plan digest journey step request json :
  digestPlan plan = Ok digest → fp_HTTPJourney plan = Some journey → step ∈ phj_Steps journey → pds_Request step = Some request →
  prq_JSON request = Some json → json_valid json = true.
Proof.
  rewrite digest_of_plan_members. intros (j & Hj & _)%Digest_inv Ejourney Hin Er Ej.
  apply bind_Ok in Hj as (members & Hm & _).
  assert (("httpJourney", Some (PlanHTTPJourney_json journey)) ∈ plan_members plan) as H1.
  { unfold plan_members. rewrite Ejourney. cbn [omit_ptr option_map]. do 17 apply list_elem_of_further. apply list_elem_of_here. }
  destruct (struct_member _ _ _ _ Hm H1) as [j1 E1]. unfold PlanHTTPJourney_json in E1.
  destruct (object_member _ _ "steps" (array PlanHTTPDriverStep_json (phj_Steps journey)) E1) as [j2 E2]; [apply list_elem_of_further, list_elem_of_here|].
  destruct (array_member _ _ _ _ E2 Hin) as [j3 E3]. unfold PlanHTTPDriverStep_json in E3. rewrite Er in E3.
  destruct (object_member _ _ "request" (PlanHTTPRequest_json request) E3) as [j4 E4]; [apply list_elem_of_here|].
  unfold PlanHTTPRequest_json in E4. rewrite Ej in E4.
  destruct (object_member _ _ "json" (raw_doc json) E4) as [j5 E5]; [do 5 apply list_elem_of_further; apply list_elem_of_here|].
  unfold raw_doc in E5. unfold json_valid. by destruct (read_document json).
Qed.

(** ** Command lines *)

Section http.
Context `{RegexpSyntax} `{Host} `{SchemaCompiler}.

Lemma no_service scenario : (∀ service, phases_service (sn_Phases scenario) = Some service → service_ok service) → service_id scenario = "" →
  phases_service (sn_Phases scenario) = None.
Proof.
  intros Hs Hid. unfold service_id, declared_service, phases_service in *. destruct (ph_Run (sn_Phases scenario)) as [run|]; [|done].
  destruct (rn_Service run) as [service|] eqn:E; [|done]. destruct (Hs service eq_refl) as (Hi & _). by destruct (identifier_not_empty _ Hi).
Qed.

(** A command that neither starts nor stops a service. *)
Definition plain_command (c : PlanCommand) : Prop := pcm_Role c = "foreground" ∧ pcm_Readiness c = None ∧ pcm_Signal c = None.
Lemma steps_plain phase timeout steps :
  Forall step_ok steps → Forall (λ s, st_Signal s = None) steps → Forall plain_command (flat_map (step_commands phase timeout) steps).
Proof.
  intros Hs Hn. apply Forall_flat_map, Forall_forall. rewrite Forall_forall in Hs, Hn. intros step Hin.
  destruct (Hs _ Hin) as [_ [(run & Er & _ & _ & Hargv)|(signal & _ & Es & _)]]; [|by rewrite (Hn _ Hin) in Es].
  unfold step_commands. rewrite Er. destruct (good_arguments _ Hargv) as [-> _]. by apply Forall_singleton.
Qed.
Lemma phase_plain phase p fallback :
  Forall step_ok (command_steps p) → Forall (λ s, st_Signal s = None) (command_steps p) → Forall plain_command (command_phase phase p fallback).
Proof. destruct p as [p|]; [|constructor]. apply steps_plain. Qed.

(** The commands before the run phase. *)
Definition early_commands (phases : PhaseSet) : list PlanCommand :=
  command_phase PhasePrepare (ph_Prepare phases) (2 * Minute) ++ command_phase PhaseSetup (ph_Setup phases) (5 * Minute)
  ++ command_phase PhaseBuild (ph_Build phases) (5 * Minute).
Definition cleanup_commands (phases : PhaseSet) : list PlanCommand := command_phase PhaseCleanup (ph_Cleanup phases) (30 * Second).

Lemma resolved_layout scenario :
  let phases := sn_Phases scenario in
  resolvedCommands scenario = early_commands phases ++ run_commands (ph_Run phases) ++ journey_command (ph_Exercise phases) ++ cleanup_commands phases.
Proof. unfold resolvedCommands, early_commands, cleanup_commands. by rewrite <- !app_assoc. Qed.

Lemma early_plain environments scenario :
  scenario_ok environments scenario →
  Forall plain_command (early_commands (sn_Phases scenario))
  ∧ ∀ timeout, Forall plain_command (flat_map (step_commands PhaseRun timeout) (run_steps (ph_Run (sn_Phases scenario)))).
Proof.
  intros [_ Hsteps _ _ [Hnone _] _ _ _ _ _]. unfold scenario_steps in *.
  apply Forall_app in Hsteps as [S1 [S2 [S3 [S4 S5]%Forall_app]%Forall_app]%Forall_app].
  apply Forall_app in Hnone as [N1 [N2 [N3 N4]%Forall_app]%Forall_app].
  split; [unfold early_commands; rewrite !Forall_app; split_and!; by apply phase_plain|]. intros timeout. by apply steps_plain.
Qed.
Lemma plain_no_action c : plain_command c → service_action c = false.
Proof. intros (E1 & E2 & _). unfold service_action. by rewrite E1, E2. Qed.

Lemma cli_commands_plain environments scenario exercise :
  scenario_ok environments scenario → ph_Exercise (sn_Phases scenario) = Some exercise → dv_Type (ex_Driver exercise) = "cli" →
  existsb service_action (resolvedCommands scenario) = false.
Proof.
  intros Hs Ex Ht. destruct (early_plain _ _ Hs) as [Hearly Hrun]. destruct Hs as [_ Hsteps Hservice _ [_ Hcleanup] _ _ _ (exercise' & Ex' & _ & Hkind) _].
  assert (exercise' = exercise) as -> by congruence. destruct Hkind as [(_ & Hargv & _ & _ & Hid)|(Ht' & _)]; [|congruence].
  pose proof (no_service _ Hservice Hid) as Hno. rewrite Hid in Hcleanup.
  assert (Forall (λ c, service_action c = false) (resolvedCommands scenario)) as Hall.
  2: { apply not_true_iff_false. intros (c & Hc & Ht'')%existsb_exists. rewrite Forall_forall in Hall. rewrite (Hall c) in Ht''; [done|by apply list_elem_of_In]. }
  assert (Forall (λ s, st_Signal s = None) (command_steps (ph_Cleanup (sn_Phases scenario)))) as Hquiet.
  { eapply Forall_impl; [exact Hcleanup|]. intros step Hstep. destruct (st_Signal step) as [signal|] eqn:Es; [|done]. by destruct (Hstep signal Es). }
  unfold scenario_steps in Hsteps. do 4 apply Forall_app in Hsteps as [_ Hsteps].
  rewrite resolved_layout, !Forall_app. split_and!.
  - eapply Forall_impl; [exact Hearly|apply plain_no_action].
  - unfold run_commands, phases_service, run_steps in *. destruct (ph_Run (sn_Phases scenario)) as [run|]; [|constructor]. rewrite Hno, app_nil_r.
    eapply Forall_impl; [exact (Hrun _)|apply plain_no_action].
  - unfold journey_command. rewrite Ex. destruct (good_arguments _ Hargv) as [-> _]. by apply Forall_singleton.
  - eapply Forall_impl; [by apply phase_plain|apply plain_no_action].
Qed.

(** ** The commands of a service *)

Lemma commands_skip plain rest index service signal :
  Forall plain_command plain → http_commands (plain ++ rest) index service signal = http_commands rest (index + length plain) service signal.
Proof.
  intros Hp. revert index. induction Hp as [|c l (E1 & _) _ IH]; intros index; cbn [app length http_commands]; [by rewrite Nat.add_0_r|].
  rewrite E1. cbn [String.eqb Ascii.eqb Bool.eqb]. by rewrite IH, Nat.add_succ_comm.
Qed.

(** A plan of a service: plain commands, the service, and more of them up to the signal. *)
Lemma http_commands_layout before serviceCommand between signalCommand :
  Forall plain_command before → Forall plain_command between → pcm_Role serviceCommand = "service" → pcm_Role signalCommand = "signal" →
  let commands := before ++ serviceCommand :: between ++ [signalCommand] in
  http_commands commands 0 None None = Ok (Some serviceCommand, Some (signalCommand, length commands - 1)%nat).
Proof.
  intros Hb Hm Es Eg. cbn zeta. rewrite commands_skip by exact Hb. cbn [http_commands]. rewrite Es. cbn [String.eqb Ascii.eqb Bool.eqb].
  rewrite commands_skip by exact Hm. cbn [http_commands]. rewrite Eg. cbn [String.eqb Ascii.eqb Bool.eqb].
  do 4 f_equal. rewrite length_app. cbn [length]. rewrite length_app. cbn [length]. lia.
Qed.

(** The command that stops the service. *)
Definition stop_command (scenario : ScenarioSpec) (step : PhaseStep) (signal : SignalAction) : PlanCommand :=
  signal_command PhaseCleanup
    (normalizedTimeout (match ph_Cleanup (sn_Phases scenario) with Some p => cp_Timeout p | None => "" end) (30 * Second)) step signal.

Lemma service_layout environments scenario service readiness u port :
  scenario_ok environments scenario → declared_service scenario = Some service → rd_HTTP (sv_Readiness service) = Some readiness →
  contract_url (hr_URL readiness) u port → journey_command (ph_Exercise (sn_Phases scenario)) = [] →
  cleanup_ends_service (sv_ID service) (command_steps (ph_Cleanup (sn_Phases scenario))) →
  ∃ before timeout between step signal grace,
    resolvedCommands scenario = before ++ service_command timeout service :: between ++ [stop_command scenario step signal]
    ∧ Forall plain_command before ∧ Forall plain_command between ∧ st_Signal step = Some signal ∧ sa_Target signal = sv_ID service
    ∧ ParseAlphaHTTPDuration (sa_GracePeriod signal) maxHTTPServiceSignalGrace = Ok grace ∧ signal_ok signal.
Proof.
  intros Hs Hserv Hread Hu Hj (before & step & signal & grace & E & Es & Et & Eg & Hquiet). destruct (early_plain _ _ Hs) as [Hearly Hrun].
  destruct Hs as [_ Hsteps Hservice _ [_ Hcleanup] _ _ _ _ _]. unfold scenario_steps in Hsteps. do 4 apply Forall_app in Hsteps as [_ Hsteps].
  assert (service_id scenario = sv_ID service) as Hid.
  { unfold service_id, declared_service in *. destruct (ph_Run (sn_Phases scenario)); [|done]. by rewrite Hserv. }
  rewrite Hid in Hcleanup. rewrite E in Hsteps, Hcleanup. apply Forall_app in Hsteps as [Hb Hlast]. apply Forall_inv in Hlast.
  apply Forall_app in Hcleanup as [Hcb _].
  assert (st_Run step = None ∧ signal_ok signal) as [Er Hsig].
  { destruct Hlast as [_ [(run & _ & Hn & _)|(signal' & Hr & Hn & Hok)]]; [congruence|]. rewrite Es in Hn. injection Hn as <-. done. }
  assert (Forall (λ s, st_Signal s = None) before) as Hnone.
  { apply Forall_forall. intros s Hin. rewrite Forall_forall in Hquiet, Hcb. destruct (st_Signal s) as [x|] eqn:Ex; [|done].
    destruct (Hcb _ Hin _ Ex) as [Hx _]. specialize (Hquiet _ Hin). unfold signals in Hquiet. rewrite Ex, Hx, string_eqb_refl in Hquiet. discriminate Hquiet. }
  rewrite resolved_layout, Hj. unfold declared_service, cleanup_commands, command_phase, stop_command, run_commands, run_steps in *.
  destruct (ph_Run (sn_Phases scenario)) as [run|]; [|discriminate Hserv]. rewrite Hserv. unfold command_steps in E.
  destruct (ph_Cleanup (sn_Phases scenario)) as [cleanup|]; [|by destruct before]. rewrite E, flat_map_app. cbn [flat_map app].
  assert (∀ timeout, step_commands PhaseCleanup timeout step = [signal_command PhaseCleanup timeout step signal]) as ->.
  { intros timeout. unfold step_commands, signal_step. by rewrite Er, Es. }
  rewrite app_nil_r, <- !app_assoc, app_assoc. cbn [app].
  eexists _, _, _, step, signal, grace. split; [reflexivity|]. split; [by apply Forall_app|]. split; [by apply steps_plain|]. done.
Qed.
End http.
