(* ===== verification/ExecutionJourney.v ===== *)
(** * The assertions and steps of a resolved journey, as the runner reads them

    Every assertion of an accepted journey resolves to one the runner accepts,
    unless it asks for the directory /outputs itself as a JSON file; and the
    steps name each assertion once, after the request it is about. *)

From S2P Require Import Prelude Json Sha256 SemanticEqual StructuredJson JsonPath JsonStrings GoValue Durations CanonicalJson JsonUnmarshal GoStruct Domain GoPath GoStrings CleanupInventory Regex Url HttpContract PlanTypes Manifest ManifestValidate ManifestSafety SchemaPolicy SchemaInstance RuntimePolicy SchemaFeatures SchemaSource PlanDocument PlanContract Planner PlannerSafety ExecutionPlan ExecutionTexts ExecutionRequests ExecutionAccept ExecutionHttp.

Local Open Scope Z_scope.

Section journey.
Context `{RegexpSyntax} `{Host} `{SchemaCompiler}.

(** ** What the validator checked *)

Definition response_checked (r : ResponseAssertion) : Prop :=
  ∃ field index requests, validateHTTPResponseAssertion field r index requests = [].
Record http_checked (x : DriverAssertion) : Prop := {
  hc_id : identifier (da_ID x);
  hc_kind :
    (∃ r, da_Response x = Some r ∧ da_FileExists x = "" ∧ da_JSONFile x = None ∧ response_checked r)
    ∨ (da_Response x = None ∧ da_FileExists x ≠ "" ∧ da_JSONFile x = None ∧ validHTTPOutputPath (da_FileExists x) = true)
    ∨ (∃ f, da_Response x = None ∧ da_FileExists x = "" ∧ da_JSONFile x = Some f ∧ validHTTPOutputPath (jf_Path f) = true) }.

Lemma assertion_checked path x index st st' : validate_journey_assertion path x index st = ([], st') → http_checked x.
Proof.
  unfold validate_journey_assertion. destruct (validateHTTPAssertionID path (da_ID x) st) as [id_issues s] eqn:Eid. intros [= Hall _].
  no_issues. subst id_issues. unfold validateHTTPAssertionID in Eid. destruct (MatchString identifierPattern (da_ID x)) eqn:Em; [|discriminate Eid].
  match goal with Hx : negb (http_only x) = false |- _ => apply negb_false_iff in Hx; rename Hx into Honly end.
  match goal with Hx : validateAssertion _ _ = [] |- _ => pose proof (assertion_operation _ _ Hx Honly) as Hop end.
  split; [exact Em|]. destruct Hop as [(r & Er & Ef & Ej)|[(Er & Ef & Ej)|(f & Er & Ef & Ej & _)]].
  - left. exists r. rewrite Er in *. cbn [from_option] in *. split_and!; [done..|]. by eexists _, _, _.
  - right. left. rewrite (proj2 (String.eqb_neq _ _) Ef) in *. cbn [negb andb] in *. split_and!; try done.
    match goal with Hx : negb (validHTTPOutputPath _) = false |- _ => by apply negb_false_iff in Hx end.
  - right. right. exists f. rewrite Ej in *. cbn [from_option] in *. no_issues. split_and!; try done.
    match goal with Hx : negb (validHTTPOutputPath (jf_Path f)) = false |- _ => by apply negb_false_iff in Hx end.
Qed.

Lemma steps_checked prefix port index steps st :
  validate_journey_steps prefix port index steps st = [] → Forall http_checked (asserted_steps steps).
Proof.
  revert index st. induction steps as [|step steps IH]; intros index st; cbn [validate_journey_steps]; [constructor|].
  destruct (validate_journey_step prefix port index step st) as [issues s] eqn:E. intros Hall. no_issues. subst issues.
  unfold asserted_steps in *. cbn [omap list_omap]. unfold validate_journey_step in E.
  match goal with Hx : validate_journey_steps _ _ _ _ _ = [] |- _ => pose proof (IH _ _ Hx) as Hrest end.
  destruct (ds_Assert step) as [x|] eqn:Ea; [|exact Hrest]. destruct (ds_Request step) as [request|]; [discriminate E|].
  constructor; [by eapply assertion_checked|exact Hrest].
Qed.

Lemma profile_checked prefix scenario exercise :
  validateHTTPProfile prefix scenario exercise = [] → Forall http_checked (asserted_steps (dv_Steps (ex_Driver exercise))).
Proof.
  unfold validateHTTPProfile. destruct (validate_listener prefix _) as [listener_issues declaredPort]. intros Hall. no_issues.
  match goal with Hx : validate_journey _ _ _ = [] |- _ => unfold validate_journey in Hx; rename Hx into Hj end.
  destruct (dv_Steps (ex_Driver exercise)) as [|step steps]; [constructor|]. no_issues. by eapply steps_checked.
Qed.

(** ** Responses *)

Definition empty_decodes : bool := match Decode "" DefaultInstanceDecodeLimits with Some (Ok _) => true | _ => false end.
Lemma nothing_decoded : empty_decodes = false.
Proof. by vm_compute. Qed.

Lemma path_runs a p : path_compiles (jp_Path a) = true → plan_path a = Ok p → response_path_valid (Some p) = Ok tt.
Proof.
  intros Hc. unfold plan_path. intros (equals & _ & Hr)%bind_Ok. destruct (Decode equals DefaultInstanceDecodeLimits) as [[v|e]|] eqn:Ed; [|discriminate Hr..].
  injection Hr as <-. unfold response_path_valid. cbn [pja_Path pja_Equals]. rewrite Hc, Ed. cbn [negb].
  destruct (String.eqb_spec equals "") as [->|_]; [|reflexivity]. pose proof nothing_decoded as Hn. unfold empty_decodes in Hn. by rewrite Ed in Hn.
Qed.
Lemma header_runs field h : validate_header_assertion field h = [] → response_header_valid (Some (plan_header h)) = Ok tt.
Proof.
  unfold validate_header_assertion. intros Hall. no_issues. unfold response_header_valid, plan_header. cbn [pha_Name pha_Contains].
  match goal with Hx : negb (MatchString _ _) = false |- _ => apply negb_false_iff in Hx; destruct (header_name_accepted _ Hx) as (_ & Hn & ->) end.
  match goal with Hx : _ || _ = false |- _ => apply orb_false_elim in Hx as [Hx1 Hx2] end. rewrite Hn, Hx1. cbn [negb orb].
  change AlphaHTTPMaxHeaderValueBytes with maxHTTPHeaderValueBytes. by rewrite Hx2.
Qed.
Lemma body_runs field text : validate_body_contains field text = [] → response_body_valid DefaultConfig (Some text) = Ok tt.
Proof.
  unfold validate_body_contains, response_body_valid. destruct (text =s ""); [discriminate|]. intros Hall. no_issues.
  change AlphaHTTPMaxResponseMatchBytes with maxHTTPResponseMatchBytes. change (cf_MaxHTTPResponseBytes DefaultConfig) with maxHTTPResponseMatchBytes.
  match goal with Hx : (_ <? _) = false |- _ => by rewrite Hx end.
Qed.

Variable snapshot : SourceSnapshot.

Lemma response_runs cache response t x cache' t' :
  bound_cache snapshot cache → response_checked response → rs_RequestID response ≠ "" →
  plan_response snapshot cache response t = (Ok (x, cache'), t') →
  response_valid DefaultConfig x = Ok tt ∧ pra_RequestID x = rs_RequestID response ∧ bound_cache snapshot cache'.
Proof.
  intros Hc (field & index & requests & Hv) Hid. unfold plan_response. intros (path & t1 & [Hpath _]%lift_ok & Hr)%bind_task_ok.
  apply bind_task_ok in Hr as ([schema c] & t2 & Hs & Hr). apply schema_option_runs in Hs as (Hschema & Hsome & Hc'); [|exact Hc].
  apply finish_ok in Hr as [Hr _]. apply pair_equal_spec in Hr as [-> ->]. split; [|split; [reflexivity|exact Hc']].
  unfold validateHTTPResponseAssertion in Hv. no_issues. unfold response_valid.
  cbn [pra_RequestID pra_Status pra_BodyContains pra_Header pra_JSONPath pra_JSONSchema]. rewrite (proj2 (String.eqb_neq _ _) Hid). cbn [orb].
  assert (is_some path = is_some (rs_JSONPath response) ∧ response_path_valid path = Ok tt) as [Ep Hp].
  { unfold plan_path_option in Hpath. destruct (rs_JSONPath response) as [a|]; [|by injection Hpath as <-].
    apply bind_Ok in Hpath as (p & Hp & [= <-]). split; [reflexivity|]. cbn [from_option] in *. no_issues.
    match goal with Hx : negb (path_compiles _) = false |- _ => apply negb_false_iff in Hx end. by eapply path_runs. }
  assert (response_status_valid (if rs_Status response =? 0 then None else Some (rs_Status response)) = Ok tt) as ->.
  { unfold response_status_valid. destruct (rs_Status response =? 0); [reflexivity|]. cbn [negb andb] in *.
    match goal with Hx : status_out_of_range _ = false |- _ => by rewrite Hx end. }
  assert (response_body_valid DefaultConfig (rs_BodyContains response) = Ok tt) as ->.
  { destruct (rs_BodyContains response) as [text|]; [|reflexivity]. cbn [from_option] in *. by eapply body_runs. }
  assert (response_header_valid (option_map plan_header (rs_Header response)) = Ok tt) as ->.
  { destruct (rs_Header response) as [h|]; [|reflexivity]. cbn [from_option option_map] in *. by eapply header_runs. }
  rewrite Hp, Hschema. cbn [bind_result].
  match goal with Hx : (count_true _ =? 0)%nat = false |- _ => apply Nat.eqb_neq in Hx; rename Hx into Hn end.
  unfold no_predicate. cbn [pra_Status pra_BodyContains pra_Header pra_JSONPath pra_JSONSchema]. rewrite Ep, Hsome.
  rewrite !count_true_cons in Hn. destruct (rs_Status response =? 0), (rs_Header response), (rs_BodyContains response), (rs_JSONPath response),
    (rs_JSONSchema response =s ""); cbn [negb is_some option_map andb] in *; first [reflexivity|by destruct Hn].
Qed.
(** ** Assertions *)

(** What only the runner refuses: the directory itself as a JSON file. *)
Definition below_outputs (a : PlanAssertion) : Prop := ∀ f, pa_JSONFile a = Some f → pjf_Path f ≠ "/outputs".

(** The assertion [a] of a plan stands for [x]. *)
Record stands_for (x : DriverAssertion) (a : PlanAssertion) : Prop := {
  sf_id : pa_ID a = da_ID x;
  sf_runs : assertion_runs a;
  sf_valid : below_outputs a → http_assertion_valid DefaultConfig a = Ok tt;
  sf_response : ∀ p, pa_Response a = Some p → ∃ r, da_Response x = Some r ∧ pra_RequestID p = rs_RequestID r }.

Lemma output_path_runs value : validHTTPOutputPath value = true → validateHTTPOutputAssertionPath value = Ok tt.
Proof.
  unfold validHTTPOutputPath, validateHTTPOutputAssertionPath. by destruct (ValidateAlphaHTTPOutputPath value) as [[]|].
Qed.

Lemma http_assertion_runs cache x t a cache' t' :
  bound_cache snapshot cache → http_checked x → (∀ r, da_Response x = Some r → rs_RequestID r ≠ "") →
  http_assertion snapshot cache x t = (Ok (a, cache'), t') → stands_for x a ∧ bound_cache snapshot cache'.
Proof.
  intros Hc [Hid Hkind] Hreq. unfold http_assertion. intros ([response c1] & t1 & Hr & Hf)%bind_task_ok.
  apply bind_task_ok in Hf as ([file c2] & t2 & Hfile & Hf). apply finish_ok in Hf as [Hf _]. apply pair_equal_spec in Hf as [-> ->].
  destruct Hkind as [(r & Er & Ef & Ej & Hchecked)|[(Er & Ef & Ej & Hout)|(f & Er & Ef & Ej & Hout)]]; rewrite Er in Hr; rewrite Ej in Hfile.
  - cbn [plan_response_option plan_file] in *. apply bind_task_ok in Hr as ([p c] & t3 & Hr & Hfin). apply finish_ok in Hfin as [Hfin _].
    apply pair_equal_spec in Hfin as [-> ->]. apply finish_ok in Hfile as [Hfile _]. apply pair_equal_spec in Hfile as [-> ->].
    apply response_runs in Hr as (Hv & Ep & Hc'); [|exact Hc|exact Hchecked|by apply Hreq]. split; [|exact Hc']. rewrite Ef.
    split; cbn [pa_ID pa_Response]; [reflexivity|by split|by intros _|]. intros p' [= <-]. by exists r.
  - cbn [plan_response_option plan_file] in *. apply finish_ok in Hr as [Hr _]. apply pair_equal_spec in Hr as [-> ->].
    apply finish_ok in Hfile as [Hfile _]. apply pair_equal_spec in Hfile as [-> ->]. split; [|exact Hc].
    apply String.eqb_neq in Ef. split; cbn [pa_ID pa_Response]; [reflexivity| | |discriminate].
    + split; try done. unfold assertion_operations. cbn [pa_ExitCode pa_StdoutContains pa_StderrContains pa_StdoutRegex pa_StdoutJSONSchema pa_FileExists pa_Response pa_JSONFile].
      by rewrite Ef.
    + intros _. unfold http_assertion_valid. cbn [pa_Response pa_JSONFile pa_FileExists]. rewrite Ef. cbn [negb]. by rewrite (output_path_runs _ Hout).
  - cbn [plan_response_option plan_file] in *. apply finish_ok in Hr as [Hr _]. apply pair_equal_spec in Hr as [-> ->].
    apply bind_task_ok in Hfile as ([schema c] & t3 & Hs & Hfin). apply finish_ok in Hfin as [Hfin _]. apply pair_equal_spec in Hfin as [-> ->].
    apply (resolve_bound snapshot) in Hs as (Hb & Hc' & _); [|exact Hc]. split; [|exact Hc']. rewrite Ef.
    split; cbn [pa_ID pa_Response]; [reflexivity|by split| |discriminate].
    intros Hbelow. specialize (Hbelow _ eq_refl). cbn [pjf_Path] in Hbelow. unfold http_assertion_valid. cbn [pa_Response pa_JSONFile pjf_Path pjf_Schema].
    rewrite (output_path_runs _ Hout), (proj2 (String.eqb_neq _ _) Hbelow). cbn [map_err bind_result]. exact (resolved_schema_valid snapshot schema Hb).
Qed.

Lemma http_assertions_run index cache l t r t' :
  bound_cache snapshot cache → Forall (λ x, http_checked x ∧ ∀ y, da_Response x = Some y → rs_RequestID y ≠ "") l →
  resolve_each (λ _, http_assertion snapshot) index cache l t = (Ok r, t') → Forall2 stands_for l r.
Proof.
  intros Hc Hall. revert index cache t r Hc. induction Hall as [|x l [Hx Hy] _ IH]; intros index cache t r Hc; cbn [resolve_each].
  { intros [-> _]%finish_ok. constructor. }
  intros ([a c] & t1 & Ha & Hr)%bind_task_ok. apply http_assertion_runs in Ha as (Hs & Hc'); [|done..].
  apply bind_task_ok in Hr as (more & t2 & Hm & Hr). apply finish_ok in Hr as [-> ->]. constructor; [exact Hs|]. by eapply IH.
Qed.

(** ** Steps *)

Definition request_ids (steps : list DriverStep) : list string := List.map rq_ID (requests_of steps).
Definition assertion_ids (steps : list DriverStep) : list string := List.map da_ID (asserted_steps steps).

Lemma assertion_map_distinct l : NoDup (List.map pa_ID l) → assertion_map l = List.map (λ a, (pa_ID a, a)) l.
Proof.
  unfold assertion_map. intros Hd. assert (∀ acc, NoDup (acc.*1 ++ List.map pa_ID l) →
    foldl (λ acc a, assoc_set (pa_ID a) a acc) acc l = acc ++ List.map (λ a, (pa_ID a, a)) l) as Hacc.
  { clear Hd. induction l as [|a l IH]; intros acc Hd; cbn [foldl List.map]; [by rewrite app_nil_r|].
    cbn [List.map] in Hd. rewrite assoc_set_end; [|apply NoDup_app in Hd as (_ & Hd & _); intros Hin; apply (Hd _ Hin); left].
    rewrite IH; [by rewrite <- app_assoc|]. rewrite fmap_app. cbn [fmap list_fmap fst]. by rewrite <- app_assoc. }
  by rewrite Hacc.
Qed.
Lemma assertion_map_keys l : (List.map (λ a, (pa_ID a, a)) l).*1 = List.map pa_ID l.
Proof. induction l as [|a l IH]; [done|]. cbn [List.map]. by rewrite fmap_cons, IH. Qed.

Lemma stands_ids xs l : Forall2 stands_for xs l → List.map pa_ID l = List.map da_ID xs.
Proof. induction 1 as [|x a xs l [E _ _ _] _ IH]; [done|]. cbn [List.map]. by rewrite E, IH. Qed.
Lemma stands_assoc xs l x :
  Forall2 stands_for xs l → NoDup (List.map pa_ID l) → x ∈ xs → ∃ a, assoc (da_ID x) (List.map (λ a, (pa_ID a, a)) l) = Some a ∧ stands_for x a.
Proof.
  induction 1 as [|y a xs l Hy _ IH]; [by intros _ ?%elem_of_nil|]. cbn [List.map assoc]. intros Hd [->|Hin]%elem_of_cons.
  - rewrite (sf_id _ _ Hy), string_eqb_refl. by exists a.
  - apply NoDup_cons in Hd as [Ha Hd]. destruct (IH Hd Hin) as (b & Hb & Hs). exists b. split; [|exact Hs].
    destruct (String.eqb_spec (pa_ID a) (da_ID x)) as [E|_]; [|exact Hb]. destruct Ha. rewrite E, <- (sf_id _ _ Hs).
    apply assoc_In in Hb. apply list_elem_of_In, in_map_iff in Hb as (b' & [= Hb' ->] & Hin'). apply list_elem_of_In, in_map. exact Hin'.
Qed.
End journey.

(** ** The walk over the steps *)

Definition one_action (step : DriverStep) : Prop :=
  (∃ r, ds_Request step = Some r ∧ ds_Assert step = None) ∨ (∃ a, ds_Request step = None ∧ ds_Assert step = Some a).

Lemma request_ids_app a b : request_ids (a ++ b) = request_ids a ++ request_ids b.
Proof. unfold request_ids, requests_of. by rewrite omap_app, List.map_app. Qed.
Lemma assertion_ids_app a b : assertion_ids (a ++ b) = assertion_ids a ++ assertion_ids b.
Proof. unfold assertion_ids, asserted_steps. by rewrite omap_app, List.map_app. Qed.
Lemma request_ids_one step r : ds_Request step = Some r → request_ids [step] = [rq_ID r].
Proof. intros E. unfold request_ids, requests_of. cbn. by rewrite E. Qed.
Lemma assertion_ids_none step : ds_Assert step = None → assertion_ids [step] = [].
Proof. intros E. unfold assertion_ids, asserted_steps. cbn. by rewrite E. Qed.
Lemma request_ids_none step : ds_Request step = None → request_ids [step] = [].
Proof. intros E. unfold request_ids, requests_of. cbn. by rewrite E. Qed.
Lemma assertion_ids_one step a : ds_Assert step = Some a → assertion_ids [step] = [da_ID a].
Proof. intros E. unfold assertion_ids, asserted_steps. cbn. by rewrite E. Qed.

Lemma ids_split steps : Forall one_action steps → List.map journey_step_id steps ≡ₚ request_ids steps ++ assertion_ids steps.
Proof.
  induction 1 as [|step steps Hone _ IH]; [done|]. cbn [List.map]. rewrite IH. change (step :: steps) with ([step] ++ steps).
  rewrite request_ids_app, assertion_ids_app. destruct Hone as [(r & Er & Ea)|(a & Er & Ea)].
  - rewrite (request_ids_one _ _ Er), (assertion_ids_none _ Ea). unfold journey_step_id. by rewrite Er.
  - rewrite (request_ids_none _ Er), (assertion_ids_one _ _ Ea). unfold journey_step_id. rewrite Er, Ea. cbn [app]. apply Permutation_middle.
Qed.

Section walk.
Context `{RegexpSyntax} `{Host} `{SchemaCompiler}.
Variables (port : Z) (exercise : ExercisePhase) (all : list DriverStep) (assertions : list PlanAssertion) (origin : string) (service_url : URL).
Hypothesis Hport : port ≠ 0.
Hypothesis Hfallback : alpha_timeout (Duration_String (request_fallback exercise)).
Hypothesis Horigin : contract_url origin service_url port.
Hypothesis Hsteps : ∀ j step, all !! j = Some step → journey_step_ok port all j step.
Hypothesis Hids : NoDup (List.map journey_step_id all).
Hypothesis Hcount : Z.of_nat (length (request_ids all)) <= AlphaHTTPMaxRequestSteps.
Hypothesis Hstands : Forall2 stands_for (asserted_steps all) assertions.

Lemma all_one : Forall one_action all.
Proof.
  apply Forall_lookup. intros j step Hj. destruct (Hsteps j step Hj) as [(r & Er & Ea & _)|(a & Er & Ea & _)]; [left; by exists r|right; by exists a].
Qed.
Lemma ids_distinct : NoDup (request_ids all ++ assertion_ids all).
Proof. rewrite <- ids_split by apply all_one. exact Hids. Qed.
Lemma plan_ids : List.map pa_ID assertions = assertion_ids all.
Proof. exact (stands_ids _ _ Hstands). Qed.
Lemma plan_ids_distinct : NoDup (List.map pa_ID assertions).
Proof. rewrite plan_ids. pose proof ids_distinct as (_ & _ & Hd)%NoDup_app. exact Hd. Qed.

Lemma new_request past step rest r :
  all = past ++ step :: rest → ds_Request step = Some r → ds_Assert step = None →
  rq_ID r ∉ request_ids past ∧ rq_ID r ∉ assertion_ids all ∧ (length (request_ids past) < length (request_ids all))%nat.
Proof.
  intros E Er Ea. pose proof ids_distinct as (Hr & Hd & _)%NoDup_app. assert (request_ids all = request_ids past ++ rq_ID r :: request_ids rest) as Eids.
  { rewrite E. change (step :: rest) with ([step] ++ rest). by rewrite !request_ids_app, (request_ids_one _ _ Er). }
  rewrite Eids in Hr, Hd. rewrite Eids, length_app. cbn [length]. apply NoDup_app in Hr as (_ & Hr & _). split_and!; [|apply Hd; set_solver|lia].
  intros Hin. apply (Hr _ Hin). left.
Qed.
Lemma new_assertion past step rest a :
  all = past ++ step :: rest → ds_Request step = None → ds_Assert step = Some a → da_ID a ∉ assertion_ids past.
Proof.
  intros E Er Ea. pose proof ids_distinct as (_ & _ & Ha)%NoDup_app. rewrite E in Ha. change (step :: rest) with ([step] ++ rest) in Ha.
  rewrite !assertion_ids_app, (assertion_ids_one _ _ Ea) in Ha. apply NoDup_app in Ha as (_ & Ha & _). intros Hin. apply (Ha _ Hin). left.
Qed.

Lemma effective_defaults :
  effective_limit (cf_MaxHTTPRequestBytes DefaultConfig) AlphaHTTPMaxRequestBodyBytes = AlphaHTTPMaxRequestBodyBytes
  ∧ effective_limit (cf_MaxHTTPHeaderBytes DefaultConfig) AlphaHTTPMaxHeaderAggregateBytes = AlphaHTTPMaxHeaderAggregateBytes
  ∧ least (cf_MaxStepTimeout DefaultConfig) AlphaHTTPMaxRequestTime = AlphaHTTPMaxRequestTime
  ∧ least (cf_MaxStepTimeout DefaultConfig) AlphaHTTPMaxReadinessTime = AlphaHTTPMaxReadinessTime.
Proof. by vm_compute. Qed.

Lemma no_key id : id ∉ assertion_ids all → has_key id (assertion_map assertions) = false.
Proof.
  intros Hid. rewrite (assertion_map_distinct _ plan_ids_distinct). destruct (has_key _ _) eqn:E; [|done]. apply has_key_In in E.
  by rewrite assertion_map_keys, plan_ids in E.
Qed.

Lemma request_accepted past step rest r planned_request :
  all = past ++ step :: rest → ds_Request step = Some r → ds_Assert step = None → request_ok port r →
  plan_request (request_fallback exercise) r = Ok planned_request → (∀ json, prq_JSON planned_request = Some json → json_valid json = true) →
  request_valid DefaultConfig (assertion_map assertions) origin planned_request {| js_requests := request_ids past; js_referenced := assertion_ids past |}
  = Ok {| js_requests := request_ids (past ++ [step]); js_referenced := assertion_ids (past ++ [step]) |}.
Proof.
  intros Eall Er Ea Hok Hplan Hjson. destruct (request_resolves _ _ _ _ Hport Hok Hfallback Hplan) as [Hr Hid].
  destruct (new_request _ _ _ _ Eall Er Ea) as (Hnew & Hkey & Hlen). rewrite <- Hid in Hnew, Hkey.
  destruct effective_defaults as (Ebody & Ehead & Etime & _).
  assert (∀ d, ∃ q, trustedHTTPRequestFromPlan planned_request d (cf_MaxHTTPRequestBytes DefaultConfig) (cf_MaxHTTPHeaderBytes DefaultConfig) = Ok q) as Htrusted.
  { intros d. destruct (request_trusted port planned_request d _ _ Hr Hjson Ebody Ehead) as (q' & Hq & _). by exists q'. }
  rewrite request_ids_app, assertion_ids_app, (request_ids_one _ _ Er), (assertion_ids_none _ Ea), app_nil_r, <- Hid.
  destruct Hr as [Hident Hm (v & Hv) (d & Ht) [Hh _] _ _ _ _]. unfold request_valid. cbn [js_requests js_referenced].
  unfold identifier in Hident. unfold is_identifier. rewrite Hident, (proj2 (one_of_false _ _) Hnew), (no_key _ Hkey). cbn [negb].
  rewrite (proj2 (Z.ltb_ge _ _)) by (rewrite length_app; cbn [length]; lia).
  rewrite (same_origin _ _ _ _ _ Horigin Hv). cbn [negb].
  pose proof (forallb_elem _ _ _ methods_run Hm) as [Hc _]%andb_prop. rewrite Hc. cbn [negb].
  assert (existsb (λ h : string * string, h.1 !=s canonical_text h.1) (prq_Headers planned_request) = false) as ->.
  { apply not_true_iff_false. intros (h & Hin%list_elem_of_In & Hne)%existsb_exists. rewrite Forall_forall in Hh. destruct (Hh _ Hin) as [Hcan _ _ _ _ _].
    rewrite Hcan, string_eqb_refl in Hne. discriminate Hne. }
  rewrite Etime, Ht. cbn [map_err bind_result]. destruct (Htrusted d) as [q ->]. reflexivity.
Qed.

Lemma reference_accepted past step rest a :
  all = past ++ step :: rest → ds_Request step = None → ds_Assert step = Some a → journey_assertion_ok all (length past) a →
  reference_valid (assertion_map assertions) (da_ID a) {| js_requests := request_ids past; js_referenced := assertion_ids past |}
  = Ok {| js_requests := request_ids (past ++ [step]); js_referenced := assertion_ids (past ++ [step]) |}.
Proof.
  intros Eall Er Ea [_ Hkind]. assert (a ∈ asserted_steps all) as Hin.
  { rewrite Eall. unfold asserted_steps. rewrite omap_app. apply elem_of_app. right. cbn [omap list_omap]. rewrite Ea. left. }
  destruct (stands_assoc _ _ _ Hstands plan_ids_distinct Hin) as (p & Hp & Hs). unfold reference_valid.
  rewrite (assertion_map_distinct _ plan_ids_distinct), Hp. cbn [of_option bind_result js_referenced js_requests].
  rewrite (proj2 (one_of_false _ _) (new_assertion _ _ _ _ Eall Er Ea)).
  rewrite request_ids_app, assertion_ids_app, (request_ids_none _ Er), (assertion_ids_one _ _ Ea), app_nil_r.
  destruct (pa_Response p) as [response|] eqn:Eresp; [|reflexivity]. destruct (sf_response _ _ Hs _ Eresp) as (x & Ex & ->).
  destruct Hkind as [(y & Ey & _ & _ & (k & before & request & Hk & Hlook & Hreq & _ & Eid))|[(En & _)|(f & En & _)]]; [|congruence..].
  assert (y = x) as -> by congruence. rewrite <- Eid. assert (one_of (rq_ID request) (request_ids past) = true) as ->; [|reflexivity].
  apply one_of_In. unfold request_ids. apply list_elem_of_In, in_map, list_elem_of_In. unfold requests_of. apply list_elem_of_omap. exists before.
  split; [|exact Hreq]. rewrite Eall, lookup_app_l in Hlook by exact Hk. by eapply list_elem_of_lookup_2.
Qed.

Lemma journey_steps_run past steps resolved :
  all = past ++ steps → bind_all (plan_step (request_fallback exercise)) steps = Ok resolved →
  (∀ step request json, step ∈ resolved → pds_Request step = Some request → prq_JSON request = Some json → json_valid json = true) →
  steps_valid DefaultConfig (assertion_map assertions) origin resolved {| js_requests := request_ids past; js_referenced := assertion_ids past |}
  = Ok {| js_requests := request_ids all; js_referenced := assertion_ids all |}.
Proof.
  revert past resolved. induction steps as [|step steps IH]; intros past resolved Eall; cbn [bind_all].
  { intros [= <-] _. cbn [steps_valid]. by rewrite Eall, app_nil_r. }
  intros (first & Hfirst & Hr)%bind_Ok Hjson. apply bind_Ok in Hr as (more & Hmore & [= <-]). cbn [steps_valid].
  assert (all !! length past = Some step) as Hlook by (by rewrite Eall, lookup_app_r, Nat.sub_diag by lia).
  assert (step_valid DefaultConfig (assertion_map assertions) origin first {| js_requests := request_ids past; js_referenced := assertion_ids past |}
    = Ok {| js_requests := request_ids (past ++ [step]); js_referenced := assertion_ids (past ++ [step]) |}) as ->.
  { destruct (Hsteps _ _ Hlook) as [(r & Er & Ea & Hok)|(a & Er & Ea & Hok)]; unfold plan_step in Hfirst; rewrite Er in Hfirst.
    - apply bind_Ok in Hfirst as (p & Hp & [= <-]). unfold step_valid. cbn [pds_Request pds_AssertionID is_some negb Bool.eqb String.eqb].
      eapply request_accepted; [exact Eall|exact Er|exact Ea|exact Hok|exact Hp|]. intros json. apply (Hjson _ p json (list_elem_of_here _ _) eq_refl).
    - rewrite Ea in Hfirst. injection Hfirst as <-. unfold step_valid. cbn [pds_Request pds_AssertionID is_some negb].
      destruct Hok as [Hid Hkind]. rewrite (proj2 (String.eqb_neq _ _) (identifier_not_empty _ Hid)). cbn [Bool.eqb].
      by eapply reference_accepted. }
  cbn [bind_result]. apply IH; [by rewrite <- app_assoc|exact Hmore|]. intros s q j Hs. apply Hjson. by apply list_elem_of_further.
Qed.
End walk.
