(* ===== verification/ExecutionRuns.v ===== *)
(** * Which of the plans that resolve the runner runs

    [Resolve] and [validatePlan] are written apart and check the same plan.
    They agree: the runner accepts exactly the resolved plans within its own
    ceilings whose command ids and assertion ids differ, whose signals leave
    the helper time, and which do not read /outputs itself as a JSON file. *)

From S2P Require Import Prelude Json Sha256 SemanticEqual StructuredJson JsonPath JsonStrings GoValue Durations CanonicalJson JsonUnmarshal GoStruct Domain GoPath GoStrings CleanupInventory Regex Url HttpContract PlanTypes Manifest ManifestValidate ManifestSafety SchemaPolicy SchemaInstance RuntimePolicy SchemaFeatures SchemaSource PlanDocument PlanContract Planner PlannerSafety ExecutionPlan ExecutionTexts ExecutionAccept ExecutionContract ExecutionRequests ExecutionHttp ExecutionJourney.

Local Open Scope Z_scope.

(** ** The window of a signal *)

(** The grace period and the time of the helper fit into the command's. *)
Definition signal_in_time (c : PlanCommand) : Prop :=
  ∀ s timeout grace, pcm_Signal c = Some s → ParseDuration (pcm_Timeout c) = Some timeout → ParseDuration (psg_GracePeriod s) = Some grace →
    grace + serviceSignalHelperSlack <= timeout.

Lemma default_grace timeout : timeout <= 30 * Minute →
  maximum_grace DefaultConfig timeout = Z.min AlphaHTTPMaxSignalGrace (timeout - serviceSignalHelperSlack).
Proof.
  intros _. unfold maximum_grace. change (AlphaHTTPMaxSignalGrace <? cf_CleanupTimeout DefaultConfig - serviceSignalHelperSlack) with true. cbn iota.
  destruct (Z.ltb_spec (timeout - serviceSignalHelperSlack) AlphaHTTPMaxSignalGrace); lia.
Qed.

Lemma signal_window_exact text signal timeout grace :
  ParseDuration text = Some timeout → timeout <= 30 * Minute → psg_Type signal ∈ ["term"; "kill"; "int"; "hup"] →
  ParseAlphaHTTPDuration (psg_GracePeriod signal) AlphaHTTPMaxSignalGrace = Ok grace →
  (signal_window DefaultConfig text signal = Ok tt ↔ grace + serviceSignalHelperSlack <= timeout).
Proof.
  intros Ht Hmax Hkind Hg. unfold signal_window. rewrite Ht. change (cf_MaxStepTimeout DefaultConfig) with (30 * Minute).
  change (cf_CleanupTimeout DefaultConfig <=? serviceSignalHelperSlack) with false. rewrite (proj2 (Z.ltb_ge (30 * Minute) timeout)) by lia. rewrite orb_false_r.
  rewrite (default_grace _ Hmax). pose proof (alpha_duration_parse _ _ _ Hg) as [_ Hlow]. pose proof minimum_positive as Hpos.
  assert (grace <= AlphaHTTPMaxSignalGrace) as Hhigh by (eapply alpha_within; [|exact Hg]; by vm_compute).
  destruct (Z.leb_spec timeout serviceSignalHelperSlack) as [Hle|Hgt]; [split; [discriminate|lia]|].
  unfold validateSignal. rewrite (proj2 (one_of_In _ _) Hkind), (proj2 (String.eqb_neq _ _) (alpha_not_empty _ _ _ Hg)), Hg. cbn [negb].
  destruct (Z.ltb_spec (Z.min AlphaHTTPMaxSignalGrace (timeout - serviceSignalHelperSlack)) grace); cbn [map_err]; split; try discriminate; try reflexivity; lia.
Qed.

(** ** The journey of a command line *)

Section runs.
Context `{RegexpSyntax} `{Host} `{SchemaCompiler}.

(** What is left for the runner to find in a resolved plan. *)
Record runnable (plan : FullPlan) : Prop := {
  ru_ceilings : within_ceilings DefaultConfig plan;
  ru_commands : NoDup (List.map pcm_ID (fp_Commands plan));
  ru_assertions : NoDup (List.map pa_ID (fp_JourneyAssertions plan));
  ru_files : Forall below_outputs (fp_JourneyAssertions plan);
  ru_signals : Forall signal_in_time (fp_Commands plan) }.

Lemma no_bound_cache snapshot : bound_cache snapshot [].
Proof. constructor. Qed.

Lemma no_signal_in_time c : pcm_Signal c = None → signal_in_time c.
Proof. intros E s timeout grace Es. congruence. Qed.
Lemma plain_in_time l : Forall plain_command l → Forall signal_in_time l.
Proof. intros Hl. eapply Forall_impl; [exact Hl|]. intros c (_ & _ & E). by apply no_signal_in_time. Qed.

Lemma unsignalled commands : Forall command_runs commands → existsb service_action commands = false → Forall signal_in_time commands.
Proof.
  intros Hr Hs. apply Forall_forall. intros c Hc. rewrite Forall_forall in Hr. destruct (Hr _ Hc) as [_ _ _ Hrole _ _ _].
  assert (service_action c = false) as Ha.
  { destruct (service_action c) eqn:E; [|done]. assert (existsb service_action commands = true); [|congruence].
    apply existsb_exists. exists c. split; [by apply list_elem_of_In|done]. }
  unfold service_action in Ha. apply orb_false_elim in Ha as [[H1' H2']%orb_false_elim _]. unfold role_valid in Hrole. rewrite H1', H2' in Hrole.
  apply fail_if_ok in Hrole as [Hn _]. apply orb_false_elim in Hn as [Hn _]. apply no_signal_in_time. by apply is_some_false.
Qed.

Lemma resolved_length {A} (f : nat → schema_cache → A → task (PlanAssertion * schema_cache)) index cache l t r t' :
  resolve_each f index cache l t = (Ok r, t') → length r = length l.
Proof.
  revert index cache t r. induction l as [|x l IH]; intros index cache t r; cbn [resolve_each]; [by intros [-> _]%finish_ok|].
  intros ([a c] & t1 & _ & Hr)%bind_task_ok. apply bind_task_ok in Hr as (more & t2 & Hm & Hr). apply finish_ok in Hr as [-> ->].
  cbn [length]. f_equal. by eapply IH.
Qed.
Lemma scenario_exercised environments name scenario :
  validate_scenario environments (name, scenario) = [] → validate_exercise ("spec.scenarios." +:+ name) scenario = [].
Proof. unfold validate_scenario. intros Hv. no_issues. assumption. Qed.

(** The plan of a command line, whatever is left. *)
Lemma cli_plan_runs doc m snapshot name t plan t' scenario environment journey assertions exercise :
  resolution doc m snapshot name t plan t' scenario environment journey assertions →
  ph_Exercise (sn_Phases scenario) = Some exercise → dv_Type (ex_Driver exercise) = "cli" → Z.of_nat (length (fp_JourneyAssertions plan)) < 2 ^ 63 →
  validateHTTPPlan DefaultConfig plan = Ok tt ∧ Forall assertion_runs (fp_JourneyAssertions plan)
  ∧ Forall below_outputs (fp_JourneyAssertions plan) ∧ Forall signal_in_time (fp_Commands plan).
Proof.
  intros R Ex Ht Hlen. destruct (resolution_valid _ _ _ _ _ _ _ _ _ _ _ R) as (Hv & _ & Hs & Ha). destruct (scenario_parts _ _ _ Hv) as [Hphases _].
  destruct (resolved_commands_run _ _ _ Hs Hphases) as [Hruns _]. pose proof (cli_commands_plain _ _ _ Hs Ex Ht) as Hplain.
  destruct (ad_executable _ _ _ _ Ha) as [n1 Hexec]. destruct (ad_features _ _ _ _ Ha) as [n2 Hfeat].
  unfold validateSchemaExecutionFeatures in Hfeat. do 3 apply bind_Ok in Hfeat as ([] & _ & Hfeat). apply bind_Ok in Hfeat as ([] & Hdriver & _).
  rewrite Ex in Hdriver. pose proof (cli_accepted _ _ _ _ _ (scenario_exercised _ _ _ Hv) Ex Ht Hexec Hdriver) as Hcli.
  pose proof (rv_journey _ _ _ _ _ _ _ _ _ _ _ R) as Hjourney. unfold resolvedHTTPJourney in Hjourney. rewrite Ex, Ht in Hjourney.
  cbn [String.eqb Ascii.eqb Bool.eqb negb] in Hjourney. injection Hjourney as <-.
  pose proof (rv_assertions _ _ _ _ _ _ _ _ _ _ _ R) as Hassert. unfold resolvedAssertions in Hassert. rewrite Ex, Ht in Hassert. cbn [String.eqb Ascii.eqb Bool.eqb] in Hassert.
  destruct (rv_plan _ _ _ _ _ _ _ _ _ _ _ R) as (policy & digest & ->).
  cbn [fp_JourneyAssertions fp_Commands PlanDocument.with_digest resolved_plan] in *.
  assert (length assertions = length (dv_Assertions (ex_Driver exercise))) as Hl by (by eapply resolved_length).
  rewrite Hl in Hlen. apply cli_assertions_run in Hassert; [|apply no_bound_cache|exact Hcli|exact Hlen].
  split_and!.
  - unfold validateHTTPPlan, plan_without_http. cbn [fp_HTTPJourney fp_JourneyDriver fp_Commands fp_JourneyAssertions PlanDocument.with_digest resolved_plan].
    unfold driver_type. rewrite Ex, Ht, Hplain. cbn [String.eqb Ascii.eqb Bool.eqb].
    assert (existsb http_only_assertion assertions = false) as ->; [|reflexivity].
    apply not_true_iff_false. intros (a & Hin%list_elem_of_In & Hx)%existsb_exists. rewrite Forall_forall in Hassert. destruct (Hassert _ Hin) as (_ & E1 & E2).
    unfold http_only_assertion in Hx. by rewrite E1, E2 in Hx.
  - eapply Forall_impl; [exact Hassert|]. by intros a [? _].
  - eapply Forall_impl; [exact Hassert|]. intros a (_ & E & _) f Ef. congruence.
  - by apply unsignalled.
Qed.
(** ** The journey of a service *)

(** What an HTTP scenario that resolves consists of. *)
Record http_resolution (plan : FullPlan) (scenario : ScenarioSpec) (exercise : ExercisePhase) (journey : PlanHTTPJourney) (service : ServiceSpec)
    (readiness : HTTPReadiness) (listener : PortBinding) (u : URL) : Prop := {
  hr_service : declared_service scenario = Some service;
  hr_readiness : rd_HTTP (sv_Readiness service) = Some readiness ∧ readiness_ok readiness;
  hr_listener : elems (pc_Listen (cs_Ports (capability_of scenario PhaseRun))) = [listener] ∧ pb_Host listener = "127.0.0.1"
    ∧ (pb_Protocol listener = "" ∨ pb_Protocol listener = "tcp");
  hr_port : pb_Port listener ≠ 0;
  hr_url : contract_url (hr_URL readiness) u (pb_Port listener);
  hr_fallback : alpha_timeout (Duration_String (request_fallback exercise));
  hr_steps : ∀ j step, dv_Steps (ex_Driver exercise) !! j = Some step → journey_step_ok (pb_Port listener) (dv_Steps (ex_Driver exercise)) j step;
  hr_ids : NoDup (List.map journey_step_id (dv_Steps (ex_Driver exercise)));
  hr_counts : Z.of_nat (length (dv_Steps (ex_Driver exercise))) <= AlphaHTTPMaxJourneySteps
    ∧ 1 <= count_steps is_request (dv_Steps (ex_Driver exercise)) <= AlphaHTTPMaxRequestSteps ∧ 1 <= count_steps is_assert (dv_Steps (ex_Driver exercise));
  hr_cleanup : cleanup_ends_service (sv_ID service) (command_steps (ph_Cleanup (sn_Phases scenario)));
  hr_command : dv_Command (ex_Driver exercise) = [];
  hr_stands : Forall2 stands_for (asserted_steps (dv_Steps (ex_Driver exercise))) (fp_JourneyAssertions plan);
  hr_journey : phj_ServiceID journey = sv_ID service;
  hr_resolved : bind_all (plan_step (request_fallback exercise)) (dv_Steps (ex_Driver exercise)) = Ok (phj_Steps journey) }.

Lemma answered_ids port all : (∀ j step, all !! j = Some step → journey_step_ok port all j step) →
  Forall (λ x, ∀ y, da_Response x = Some y → rs_RequestID y ≠ "") (asserted_steps all).
Proof.
  intros Hall. apply Forall_forall. intros x Hx y Ey. unfold asserted_steps in Hx. apply list_elem_of_omap in Hx as (step & Hin & Ea).
  apply list_elem_of_lookup in Hin as [j Hj]. destruct (Hall j step Hj) as [(r & _ & En & _)|(a & Er & Ea' & [_ Hkind])]; [congruence|].
  assert (a = x) as -> by congruence. destruct Hkind as [(z & Ez & _ & _ & (k & before & request & _ & Hlook & Hreq & _ & Eid))|[(En & _)|(f & En & _)]]; [|congruence..].
  assert (z = y) as -> by congruence. rewrite <- Eid. destruct (Hall k before Hlook) as [(r & Er' & _ & (Hid & _))|(b & Er' & _)]; [|congruence].
  assert (r = request) as -> by congruence. by apply identifier_not_empty.
Qed.

Lemma http_resolved doc m snapshot name t plan t' scenario environment journey assertions exercise :
  resolution doc m snapshot name t plan t' scenario environment journey assertions →
  ph_Exercise (sn_Phases scenario) = Some exercise → dv_Type (ex_Driver exercise) = "http" →
  ∃ j service readiness listener u, fp_HTTPJourney plan = Some j ∧ http_resolution plan scenario exercise j service readiness listener u.
Proof.
  intros R Ex Ht. destruct (resolution_valid _ _ _ _ _ _ _ _ _ _ _ R) as (Hv & _ & Hs & Ha).
  destruct (ad_executable _ _ _ _ Ha) as [n Hexec]. destruct (ok_exercise _ _ Hs) as (exercise' & Ex' & _ & Hkind).
  assert (exercise' = exercise) as -> by congruence. clear Ex'. destruct Hkind as [(Ht' & _)|(_ & Hcommand & _ & prefix & Hprofile)]; [congruence|].
  pose proof (profile_checked _ _ _ Hprofile) as Hchecked. apply profile_accepted in Hprofile; [|apply (ok_service _ _ Hs)].
  destruct Hprofile as (service & readiness & listener & Hserv & Hread & Hlisten & Hhost & Hprot & (u & port & Hu & Hport) & Hsteps & Hids & Hlen & Hreq & Hass & Hclean).
  unfold validateExecutableProfile in Hexec. apply bind_Ok in Hexec as ([] & _ & Hexec). rewrite Ex, Ht in Hexec. cbn [String.eqb Ascii.eqb Bool.eqb] in Hexec.
  apply bind_Ok in Hexec as ([] & Hcontract & _). destruct (contract_port _ _ _ Hcontract Ex Ht) as [Hnz Hfb%fallback_timeout].
  unfold declared_port in Hnz. rewrite Hlisten in Hnz. assert (port = pb_Port listener) as -> by (by destruct Hport).
  pose proof (rv_journey _ _ _ _ _ _ _ _ _ _ _ R) as Hjourney. unfold resolvedHTTPJourney in Hjourney. rewrite Ex, Ht in Hjourney.
  cbn [String.eqb Ascii.eqb Bool.eqb negb] in Hjourney. apply bind_Ok in Hjourney as (service' & Hs' & Hjourney). apply bind_Ok in Hjourney as (steps & Hresolved & [= <-]).
  assert (service' = service) as -> by (unfold http_service, declared_service in *; rewrite Hserv in Hs'; by injection Hs').
  pose proof (rv_assertions _ _ _ _ _ _ _ _ _ _ _ R) as Hassert. unfold resolvedAssertions in Hassert. rewrite Ex, Ht in Hassert. cbn [String.eqb Ascii.eqb Bool.eqb] in Hassert.
  apply http_assertions_run in Hassert; [|apply no_bound_cache|apply Forall_and; split; [exact Hchecked|by eapply answered_ids]].
  assert (readiness_ok readiness) as Hready.
  { destruct (ok_service _ _ Hs service) as (_ & _ & _ & r & Er & Hr); [exact Hserv|]. by assert (r = readiness) as <- by congruence. }
  destruct (rv_plan _ _ _ _ _ _ _ _ _ _ _ R) as (policy & digest & ->).
  eexists _, service, readiness, listener, u. split; [reflexivity|]. by split.
Qed.

Lemma counted_steps steps : Forall one_action steps →
  count_steps is_request steps = Z.of_nat (length (request_ids steps)) ∧ count_steps is_assert steps = Z.of_nat (length (assertion_ids steps))
  ∧ (length steps = length (request_ids steps) + length (assertion_ids steps))%nat.
Proof.
  unfold count_steps, request_ids, assertion_ids, requests_of, asserted_steps. rewrite !List.length_map.
  induction 1 as [|step steps Hone _ (IH1 & IH2 & IH3)]; [done|]. cbn [List.filter omap list_omap length]. unfold is_request at 1, is_assert at 1.
  destruct Hone as [(r & -> & ->)|(a & -> & ->)]; cbn [is_some negb andb length]; lia.
Qed.
Lemma bind_all_length {A B} (f : A → result string B) l r : bind_all f l = Ok r → length r = length l.
Proof.
  revert r. induction l as [|x l IH]; intros r; cbn [bind_all]; [by intros [= <-]|]. intros (y & _ & Hr)%bind_Ok.
  apply bind_Ok in Hr as (ys & Hr & [= <-]). cbn [length]. f_equal. by apply IH.
Qed.
Section one_plan.
Variables (plan : FullPlan) (scenario : ScenarioSpec) (exercise : ExercisePhase) (journey : PlanHTTPJourney) (service : ServiceSpec)
  (readiness : HTTPReadiness) (listener : PortBinding) (u : URL).
Hypothesis Hhttp : http_resolution plan scenario exercise journey service readiness listener u.
Hypothesis Hexercise : ph_Exercise (sn_Phases scenario) = Some exercise.
Hypothesis Htype : dv_Type (ex_Driver exercise) = "http".
Hypothesis Hcapabilities : fp_Capabilities plan = resolvedCapabilities scenario.

Lemma readiness_runs : readiness_valid DefaultConfig plan (plan_readiness readiness) = Ok tt.
Proof.
  destruct Hhttp as [_ [_ (_ & [Hlow Hhigh] & (d & Hd))] (Hlisten & Hhost & Hprot) _ Hu _ _ _ _ _ _ _ _ _]. unfold readiness_valid, plan_readiness.
  cbn [prd_Status prd_URL prd_Timeout]. unfold status_out_of_range. rewrite (proj2 (Z.ltb_ge _ _) Hlow), (proj2 (Z.ltb_ge _ _) Hhigh). cbn [orb].
  unfold validateLoopbackHTTPURL. rewrite (contract_url_accepted _ _ _ Hu). cbn [bind_result map_err].
  destruct effective_defaults as (_ & _ & _ & ->).
  rewrite (alpha_duration_same _ (hr_Timeout readiness)).
  2: { pose proof (alpha_duration_parse _ _ _ Hd) as [Hp _]. rewrite Hp. by apply normalized_same. }
  rewrite Hd. cbn [bind_result map_err]. unfold validateDeclaredServicePort. rewrite (contract_url_accepted _ _ _ Hu). cbn [bind_result map_err].
  destruct (run_listener scenario listener) as (c & Ec & El); [unfold http_driver; by rewrite Hexercise, Htype|exact Hlisten|exact Hhost|exact Hprot|].
  rewrite Hcapabilities, Ec. cbn [of_option bind_result]. rewrite El. cbn [length Nat.eqb negb List.filter]. unfold declared_listener. cbn [pb_Host pb_Port pb_Protocol].
  rewrite Z.eqb_refl. reflexivity.
Qed.

Lemma network_runs environments : scenario_ok environments scenario → features_ok scenario →
  check_each (network_denied plan) [PhaseRun; PhaseExercise] = Ok tt.
Proof.
  intros Hs Hf. destruct (resolved_capabilities_closed _ _ Hs Hf) as [_ Hclosed].
  assert (∀ j phase, phase = PhaseRun ∨ phase = PhaseExercise → network_denied plan j phase = Ok tt) as Hphase.
  { intros j phase Hp. unfold network_denied. rewrite Hcapabilities.
    assert (∃ c, assoc phase (resolvedCapabilities scenario) = Some c) as [c Ec] by (destruct Hp as [->| ->]; by eexists). rewrite Ec.
    apply assoc_In in Ec. rewrite Forall_forall in Hclosed. destruct (Hclosed _ Ec) as (-> & Hd & _). by rewrite (Hd Hp). }
  apply check_each_ok. intros [|[|j]] phase; cbn [lookup]; [intros [= <-]; apply Hphase; by left|intros [= <-]; apply Hphase; by right|].
  by destruct j.
Qed.

Lemma journey_runs : digestPlan plan = Ok (fp_PlanDigest plan) → fp_HTTPJourney plan = Some journey →
  journey_valid DefaultConfig plan journey (hr_URL readiness) = Ok tt.
Proof.
  intros Hdigest Hj. destruct Hhttp as [_ _ _ Hport Hu Hfb Hsteps Hids (_ & [Hreq Hmax] & Hass) _ _ Hstands _ Hres].
  pose proof (all_one _ _ Hsteps) as Hone. destruct (counted_steps _ Hone) as (C1 & C2 & _). unfold journey_valid.
  rewrite (journey_steps_run _ exercise (dv_Steps (ex_Driver exercise)) _ _ u Hport Hfb Hu Hsteps Hids ltac:(lia) Hstands [] (dv_Steps (ex_Driver exercise))); [|reflexivity|exact Hres|].
  2: { intros step request json Hin Er Ej. exact (plan_bodies_valid _ _ _ _ _ _ Hdigest Hj Hin Er Ej). }
  cbn [bind_result js_requests js_referenced].
  destruct (request_ids (dv_Steps (ex_Driver exercise))) eqn:E1; [cbn [length] in C1; lia|]. destruct (assertion_ids (dv_Steps (ex_Driver exercise))) eqn:E2; [cbn [length] in C2; lia|].
  cbn [is_empty]. rewrite <- E2.
  rewrite (assertion_map_distinct _ (plan_ids_distinct _ _ _ Hsteps Hids Hstands)), List.length_map, <- (List.length_map pa_ID), (stands_ids _ _ Hstands).
  unfold assertion_ids. by rewrite Nat.eqb_refl.
Qed.

Lemma assertions_counted : fp_JourneyAssertions plan ≠ [] ∧ (2 <= length (phj_Steps journey))%nat ∧ Z.of_nat (length (phj_Steps journey)) <= AlphaHTTPMaxJourneySteps.
Proof.
  destruct Hhttp as [_ _ _ _ _ _ Hsteps _ (Hlen & [Hreq _] & Hass) _ _ Hstands _ Hres]. pose proof (all_one _ _ Hsteps) as Hone.
  destruct (counted_steps _ Hone) as (C1 & C2 & C3). rewrite (bind_all_length _ _ _ Hres). split; [|lia].
  intros E. rewrite E in Hstands. inversion Hstands as [E'|]. unfold assertion_ids in C2. rewrite <- E' in C2. cbn in C2. lia.
Qed.

Lemma files_exact : check_each (λ _, http_assertion_valid DefaultConfig) (fp_JourneyAssertions plan) = Ok tt ↔ Forall below_outputs (fp_JourneyAssertions plan).
Proof.
  destruct Hhttp as [_ _ _ _ _ _ _ _ _ _ _ Hstands _ _]. rewrite check_each_ok, Forall_lookup. split.
  - intros Hall j a Hj f Ef Eout. specialize (Hall j a Hj). unfold http_assertion_valid in Hall. rewrite Ef in Hall.
    destruct (Forall2_lookup_r _ _ _ _ _ Hstands Hj) as (x & _ & [_ [_ _ _ Hone] _ _]).
    destruct (pa_Response a) as [r|] eqn:Er; [unfold assertion_operations in Hone; rewrite Er, Ef, !count_true_cons in Hone; cbn [is_some] in Hone; lia|].
    apply bind_Ok in Hall as ([] & _ & Hall). apply fail_if_ok in Hall as [Hall _]. by rewrite Eout in Hall.
  - intros Hall j a Hj. destruct (Forall2_lookup_r _ _ _ _ _ Hstands Hj) as (x & _ & [_ _ Hv _]). apply Hv. by eapply Hall.
Qed.

(** All other checks pass: what is left is the window of the signal and the files. *)
Lemma http_plan_reduced before timeout between step signal :
  fp_HTTPJourney plan = Some journey → fp_JourneyDriver plan = "http" → digestPlan plan = Ok (fp_PlanDigest plan) →
  check_each (feature_required plan) ["background-service"; "service-signal"; "loopback-http-driver"] = Ok tt →
  check_each (network_denied plan) [PhaseRun; PhaseExercise] = Ok tt →
  fp_Commands plan = before ++ service_command timeout service :: between ++ [stop_command scenario step signal] →
  Forall plain_command before → Forall plain_command between → sa_Target signal = sv_ID service →
  validateHTTPPlan DefaultConfig plan
  = let! _ := signal_window DefaultConfig (pcm_Timeout (stop_command scenario step signal))
                {| psg_Target := sa_Target signal; psg_Type := sa_Type signal; psg_GracePeriod := sa_GracePeriod signal |} in
    check_each (λ _, http_assertion_valid DefaultConfig) (fp_JourneyAssertions plan).
Proof.
  intros Ej Edriver Hdigest Hfeat Hnet Elayout Hb Hm Etarget. destruct assertions_counted as (Hne & Hlow & Hhigh).
  unfold validateHTTPPlan. rewrite Ej, Edriver, string_eqb_refl, Hfeat. cbn [negb bind_result].
  rewrite Elayout, http_commands_layout by done. cbn [bind_result].
  unfold ready_service, service_command. cbn [pcm_ID pcm_Readiness].
  rewrite (hr_journey _ _ _ _ _ _ _ _ Hhttp), string_eqb_refl, (proj1 (hr_readiness _ _ _ _ _ _ _ _ Hhttp)). cbn [negb option_map bind_result].
  unfold matching_signal. cbn [stop_command signal_command pcm_Signal psg_Target pcm_ID]. rewrite Etarget, string_eqb_refl. cbn [negb bind_result].
  rewrite !length_app. cbn [length]. rewrite !length_app. cbn [length]. rewrite (proj2 (Nat.eqb_eq _ _)) by lia. cbn [negb].
  match goal with |- _ = bind_result ?w _ => destruct w as [[]|e]; cbn [bind_result]; [|reflexivity] end.
  rewrite readiness_runs, Hnet. cbn [bind_result]. destruct (fp_JourneyAssertions plan) as [|a l] eqn:El; [done|]. cbn [is_empty].
  rewrite (proj2 (Nat.ltb_ge _ _) Hlow), (proj2 (Z.ltb_ge _ _) Hhigh). cbn [orb].
  change (prd_URL (plan_readiness readiness)) with (hr_URL readiness). rewrite (journey_runs Hdigest Ej).
  match goal with |- _ = ?r => destruct r as [[]|e]; reflexivity end.
Qed.
End one_plan.
Lemma stop_in_time scenario step signal timeout grace :
  ParseDuration (pcm_Timeout (stop_command scenario step signal)) = Some timeout → ParseDuration (sa_GracePeriod signal) = Some grace →
  (signal_in_time (stop_command scenario step signal) ↔ grace + serviceSignalHelperSlack <= timeout).
Proof.
  intros Ht Hg. split.
  - intros Hs. exact (Hs _ timeout grace eq_refl Ht Hg).
  - intros Hle s timeout' grace' [= <-] Ht' Hg'. cbn [psg_GracePeriod] in Hg'. assert (timeout' = timeout) as -> by congruence. by assert (grace' = grace) as -> by congruence.
Qed.

Lemma features_run plan scenario architecture observers :
  fp_RequiredRunnerFeatures plan = plan_features architecture observers (resolvedCapabilities scenario) true →
  check_each (feature_required plan) ["background-service"; "service-signal"; "loopback-http-driver"] = Ok tt.
Proof.
  intros E. apply check_each_ok. intros j feature Hj. unfold feature_required, containsExact. rewrite E.
  assert (feature ∈ ["background-service"; "loopback-http-driver"; "service-signal"] ∧ feature ≠ "") as [Hin Hne].
  { apply list_elem_of_lookup_2 in Hj. rewrite !elem_of_cons, elem_of_nil in Hj. by destruct Hj as [->|[->|[->|[]]]]; (split; [set_solver|]). }
  destruct (feature_counted feature architecture observers (resolvedCapabilities scenario) true) as [_ ->]; [exact Hne|by right|reflexivity].
Qed.

(** The plan of a service, up to what is left. *)
Lemma http_plan_exact doc m snapshot name t plan t' scenario environment journey assertions exercise :
  resolution doc m snapshot name t plan t' scenario environment journey assertions →
  ph_Exercise (sn_Phases scenario) = Some exercise → dv_Type (ex_Driver exercise) = "http" →
  Forall assertion_runs (fp_JourneyAssertions plan)
  ∧ (validateHTTPPlan DefaultConfig plan = Ok tt ↔ Forall below_outputs (fp_JourneyAssertions plan) ∧ Forall signal_in_time (fp_Commands plan)).
Proof.
  intros R Ex Ht. destruct (http_resolved _ _ _ _ _ _ _ _ _ _ _ _ R Ex Ht) as (j & service & readiness & listener & u & Ej & Hhttp).
  destruct (resolution_valid _ _ _ _ _ _ _ _ _ _ _ R) as (Hv & _ & Hs & Ha). destruct (scenario_parts _ _ _ Hv) as [Hphases _].
  destruct (ad_features _ _ _ _ Ha) as [n Hf%features_accepted]. destruct (resolved_commands_run _ _ _ Hs Hphases) as [Hruns _].
  pose proof (rv_digest _ _ _ _ _ _ _ _ _ _ _ R) as Hdigest. destruct (rv_plan _ _ _ _ _ _ _ _ _ _ _ R) as (policy & digest & Eplan).
  assert (fp_Capabilities plan = resolvedCapabilities scenario ∧ fp_Commands plan = resolvedCommands scenario ∧ fp_JourneyDriver plan = "http"
    ∧ fp_RequiredRunnerFeatures plan = plan_features (pl_Architecture (en_Platform environment)) (plan_observers scenario) (resolvedCapabilities scenario) true)
    as (Ecap & Ecmd & Edriver & Efeat).
  { rewrite Eplan in Ej |- *. cbn [fp_HTTPJourney fp_Capabilities fp_Commands fp_JourneyDriver fp_RequiredRunnerFeatures PlanDocument.with_digest resolved_plan] in *.
    rewrite Ej. unfold driver_type. by rewrite Ex, Ht. }
  split. { apply Forall_lookup. intros i a Hi. destruct (Forall2_lookup_r _ _ _ _ _ (hr_stands _ _ _ _ _ _ _ _ Hhttp) Hi) as (x & _ & Hx). exact (sf_runs _ _ Hx). }
  destruct (service_layout _ _ _ _ _ _ Hs (hr_service _ _ _ _ _ _ _ _ Hhttp) (proj1 (hr_readiness _ _ _ _ _ _ _ _ Hhttp)) (hr_url _ _ _ _ _ _ _ _ Hhttp))
    as (before & timeout & between & step & signal & grace & Elayout & Hb & Hm & _ & Etarget & Hg & (_ & Hkind & _));
    [unfold journey_command; by rewrite Ex, (hr_command _ _ _ _ _ _ _ _ Hhttp)|exact (hr_cleanup _ _ _ _ _ _ _ _ Hhttp)|].
  rewrite Elayout in Hruns. apply Forall_app in Hruns as [_ [_ [_ Hstop%Forall_inv]%Forall_app]%Forall_cons].
  destruct (cr_timeout _ Hstop) as (time & Htime & _ & Hbound).
  rewrite (http_plan_reduced _ _ _ _ _ _ _ _ Hhttp Ex Ht Ecap _ _ _ _ _ Ej Edriver Hdigest (features_run _ _ _ _ Efeat) (network_runs _ _ Ecap _ Hs Hf)
    (eq_trans Ecmd Elayout) Hb Hm Etarget).
  rewrite Ecmd, Elayout, Forall_app, Forall_cons, Forall_app, Forall_singleton.
  rewrite (stop_in_time _ _ _ _ _ Htime (proj1 (alpha_duration_parse _ _ _ Hg))), <- (signal_window_exact _ {| psg_Target := sa_Target signal; psg_Type := sa_Type signal; psg_GracePeriod := sa_GracePeriod signal |} _ _ Htime Hbound Hkind Hg).
  rewrite <- (files_exact _ _ _ _ _ _ _ _ Hhttp).
  assert (signal_in_time (service_command timeout service)) as Hserv by (by apply no_signal_in_time).
  pose proof (plain_in_time _ Hb) as Hbt. pose proof (plain_in_time _ Hm) as Hmt. split.
  - intros ([] & Hw & Hc)%bind_Ok. done.
  - intros (Hc & _ & _ & _ & Hw). rewrite Hw. exact Hc.
Qed.
(** ** The theorem *)

(** The two checks of a plan agree.  A plan that resolves, from an amount of
    cores a decoder can make and with fewer than 2^63 assertions, is accepted by
    the runner exactly when its tree is named, its memory is at most 64 GiB and
    its disk at most 2 GiB, the ids of its commands differ and those of its
    assertions differ, no assertion reads /outputs itself as a JSON file, and the
    command that stops the service has 750ms more than the grace period; the
    runner then runs the plan's commands in order on linux/amd64. *)
Theorem resolved_plan_runs doc m snapshot name t plan t' :
  dc_Manifest doc = Some m → Forall (λ e, real_amount (rs_CPU (en_Resources e.2))) (sp_Environments (mf_Spec m)) →
  Resolve doc snapshot name t = (Ok plan, t') → Z.of_nat (length (fp_JourneyAssertions plan)) < 2 ^ 63 →
  (runnable plan ↔ ∃ steps, validatePlan DefaultConfig plan = Ok (steps, "linux/amd64") ∧ List.map stp_command steps = fp_Commands plan).
Proof.
  intros Hm Hreal (m' & scenario & environment & journey & assertions & R)%resolve_inv Hlen.
  assert (m' = m) as -> by (pose proof (rv_manifest _ _ _ _ _ _ _ _ _ _ _ R); congruence).
  destruct (resolution_valid _ _ _ _ _ _ _ _ _ _ _ R) as (Hv & _ & Hs & _). destruct (scenario_parts _ _ _ Hv) as [Hphases _].
  assert (Forall command_runs (fp_Commands plan)) as Hruns.
  { destruct (rv_plan _ _ _ _ _ _ _ _ _ _ _ R) as (policy & digest & ->). by destruct (resolved_commands_run _ _ _ Hs Hphases). }
  assert (Forall assertion_runs (fp_JourneyAssertions plan)
    ∧ (validateHTTPPlan DefaultConfig plan = Ok tt ↔ Forall below_outputs (fp_JourneyAssertions plan) ∧ Forall signal_in_time (fp_Commands plan))) as [Hassert Hhttp].
  { destruct (ok_exercise _ _ Hs) as (exercise & Ex & _ & [(Ht & _)|(Ht & _)]).
    - destruct (cli_plan_runs _ _ _ _ _ _ _ _ _ _ _ _ R Ex Ht Hlen) as (H1' & H2' & H3' & H4'). by split.
    - exact (http_plan_exact _ _ _ _ _ _ _ _ _ _ _ _ R Ex Ht). }
  unfold validatePlan. split.
  - intros [Hceil Hcommands Hids Hfiles Hsignals]. rewrite (contract_runs _ _ _ _ _ _ _ _ _ _ _ DefaultConfig Hreal R eq_refl eq_refl Hceil). cbn [bind_result].
    destruct (commands_accepted DefaultConfig 0 [] _ ltac:(by vm_compute) Hruns Hcommands) as (steps & -> & Esteps). cbn [bind_result].
    rewrite (assertions_accepted [] _ Hassert Hids), (proj2 Hhttp (conj Hfiles Hsignals)). cbn [bind_result]. by exists steps.
  - intros (steps & Hr & _). apply bind_Ok in Hr as (platform & Hcontract & Hr). apply bind_Ok in Hr as (prepared & Hcommands & Hr).
    apply bind_Ok in Hr as ([] & Hids & Hr). apply bind_Ok in Hr as ([] & Hplan & _). apply Hhttp in Hplan as [Hfiles Hsignals].
    split; [by eapply contract_ceilings|exact (commands_valid_ids _ _ _ _ _ Hcommands (NoDup_nil_2))|exact (assertions_valid_ids _ _ Hids (NoDup_nil_2))|done|done].
Qed.
End runs.

#[local] Existing Instance any_expression.
#[local] Existing Instance one_file.

Lemma resolved_plan_runs_witness : runnable (planned "serve").
Proof.
  apply (resolved_plan_runs planned_document planned_manifest planned_snapshot "serve" 0%nat (planned "serve") 0%nat);
    [reflexivity|repeat constructor; discriminate|exact served|by vm_compute|].
  eexists. split; vm_compute; reflexivity.
Defined.

(** ** Plans that resolve and do not run *)

Definition limited (disk : string) : EnvironmentSpec :=
  {| en_Platform := en_Platform approved_environment; en_Runtime := en_Runtime approved_environment; en_BaseImage := en_BaseImage approved_environment;
     en_Resources := {| rs_CPU := VStr "0.5"; rs_Memory := "512MiB"; rs_Disk := disk; rs_PIDs := 128; rs_Time := ""; rs_LogBytes := None |};
     en_RequiredServices := None; en_RequiredRunnerFeatures := None |}.
Definition document_of (disk : string) (scenario : ScenarioSpec) : Document :=
  {| dc_Manifest := Some
       {| mf_APIVersion := APIVersion; mf_Kind := Kind; mf_Metadata := mf_Metadata example_manifest;
          mf_Spec :=
            {| sp_Project := sp_Project (mf_Spec example_manifest); sp_Environments := [("node", limited disk)];
               sp_Scenarios := [("quickstart", strict scenario)]; sp_Policies := sp_Policies (mf_Spec planned_manifest);
               sp_Evidence := sp_Evidence (mf_Spec planned_manifest) |} |};
     dc_Digest := "sha256:manifest"; dc_Path := "" |}.
Definition schema_snapshot : SourceSnapshot :=
  {| ss_Identity := "local"; ss_Commit := ""; ss_TreeDigest := "sha256:tree"; ss_Root := "/repo";
     ss_Inventory := ss_Inventory planned_snapshot
       ++ [{| fe_Path := "schemas/any.json"; fe_Mode := "0644"; fe_Size := zlen example_content; fe_Digest := digest_text example_content |}];
     ss_TotalSize := 4 + zlen example_content; ss_FileCount := 2 |}.
(** Whether the plan resolves, and why the runner refuses it. *)
Definition resolved_and_refused (doc : Document) : bool * string :=
  match (Resolve doc schema_snapshot "quickstart" 0%nat).1 with
  | Ok plan => (true, match validatePlan DefaultConfig plan with Ok _ => "" | Err e => er_Message e end)
  | Err e => (false, er_Message e)
  end.

Definition cli_with (step : string) (assertions : list DriverAssertion) : ScenarioSpec :=
  example_scenario [example_input]
    {| ph_Prepare := None; ph_Setup := ManifestSafety.command_phase [run_command step ["npm"; "ci"]]; ph_Build := None; ph_Run := None;
       ph_Exercise := Some (driver "cli" ["node"; "cli.js"] assertions []); ph_Cleanup := None |} None.
Definition exits_as (id : string) : DriverAssertion :=
  {| da_ID := id; da_Required := None; da_ExitCode := Some 0; da_StdoutContains := None; da_StderrContains := None; da_StdoutRegex := None;
     da_StdoutJSONSchema := ""; da_StderrRegex := None; da_FileExists := ""; da_Response := None; da_JSONFile := None |}.
Definition output_assertion (path : string) : DriverAssertion :=
  {| da_ID := "writes"; da_Required := None; da_ExitCode := None; da_StdoutContains := None; da_StderrContains := None; da_StdoutRegex := None;
     da_StdoutJSONSchema := ""; da_StderrRegex := None; da_FileExists := ""; da_Response := None;
     da_JSONFile := Some {| jf_Path := path; jf_Schema := "schemas/any.json" |} |}.
Definition http_with (assertions : list DriverAssertion) (cleanup : string) : ScenarioSpec :=
  example_scenario []
    {| ph_Prepare := None; ph_Setup := None; ph_Build := None; ph_Run := ph_Run http_phases;
       ph_Exercise := Some (driver "http" [] [] ({| ds_Request := Some example_request; ds_Assert := None |}
         :: List.map (λ a, {| ds_Request := None; ds_Assert := Some a |}) assertions));
       ph_Cleanup := Some {| cp_Timeout := cleanup; cp_Steps := [stop_service "stop" "web"]; cp_ObserverRequirements := None; cp_Outputs := None |} |} listens.

(** A step named as the journey, two assertions of one id, a disk over the
    runner's 2 GiB, a JSON file that is /outputs itself, and a cleanup that ends
    with the grace period: each resolves, and none runs. *)
Example resolve_and_refuse :
  List.map resolved_and_refused
    [document_of "1GiB" (cli_with "install" [exits_as "exits"]);
     document_of "1GiB" (cli_with "journey-cli" [exits_as "exits"]);
     document_of "1GiB" (cli_with "install" [exits_as "assertion-2"; exits_as ""]);
     document_of "3GiB" (cli_with "install" [exits_as "exits"]);
     document_of "1GiB" (http_with [response_assertion] "6s");
     document_of "1GiB" (http_with [response_assertion] "5s");
     document_of "1GiB" (http_with [output_assertion "/outputs/report.json"] "6s");
     document_of "1GiB" (http_with [output_assertion "/outputs"] "6s")]
  = [(true, ""); (true, "Resolved command IDs must be unique."); (true, "Resolved journey assertion IDs must be unique.");
     (true, "Resolved resource limits are missing or exceed the local runner safety ceiling."); (true, "");
     (true, "resolved service signal grace period is invalid"); (true, "");
     (true, "Resolved HTTP JSON file assertion must target a file below /outputs.")].
Proof. vm_compute. reflexivity. Qed.
