(* ===== verification/Engine.v ===== *)
(** * The engine and the clock, as the runner calls them

    What the container engine answers to a command, what a context and the clock
    say at a call, and computations that ask them (internal/execution: the
    interfaces of backend.go).  Nothing is assumed of the answers: a theorem
    holds for every engine, whatever changes between two calls. *)

From S2P Require Import Prelude GoValue Domain.

Local Open Scope Z_scope.

(** ** Errors

    Of an error the code asks its text and which sentinels [errors.Is] finds in it. *)

Inductive sentinel := Canceled | DeadlineExceeded | HTTPDriverResidue | TrustedHTTPTimeout.
#[export] Instance sentinel_eq_dec : EqDecision sentinel.
Proof. solve_decision. Defined.
Record go_error := { ge_text : string; ge_is : list sentinel }.

Definition plain_error (text : string) : go_error := {| ge_text := text; ge_is := [] |}.
Definition errors_is (s : sentinel) (e : option go_error) : bool :=
  match e with Some e => bool_decide (s ∈ ge_is e) | None => false end.
(** [domain.WrapError] with an error that may be [nil]. *)
Definition wrap_error (code severity message : string) (cause : option go_error) : Error :=
  match cause with Some cause => WrapError code severity message (ge_text cause) | None => NewError code severity message end.

(** ** Contexts *)

(** What [Err] of a context reports once the context is done. *)
Inductive context_state := ContextCanceled | ContextDeadline.
Definition context_error (s : context_state) : go_error :=
  match s with
  | ContextCanceled => {| ge_text := "context canceled"; ge_is := [Canceled] |}
  | ContextDeadline => {| ge_text := "context deadline exceeded"; ge_is := [DeadlineExceeded] |}
  end.

(** The context of the run, [context.Background], and one with a timeout. *)
Inductive context := RunContext | Background | WithTimeout (parent : context) (timeout : Z).

(** ** The engine *)

(** The exit code, the error of running the command, and the writes to both streams. *)
Record answer := { an_exitCode : Z; an_error : option go_error; an_stdout : list string; an_stderr : list string }.

(** How the attached service ended. *)
Record service_exit := { sx_error : option Error; sx_exitCode : Z }.

(** The answer to the call of that number.  [en_input] is [None] when the
    executor cannot give a command its standard input. *)
Class Engine := {
  en_goos : string;
  en_now : nat → Time;
  en_context : nat → context → option context_state;
  en_run : nat → context → string → list string → answer;
  en_input : option (nat → context → string → list string → string → answer);
  en_service : nat → option service_exit }.

(** ** Computations that call the engine: they count the calls *)

Definition io (A : Type) : Type := nat → A * nat.
Definition give {A} (a : A) : io A := λ t, (a, t).
Definition ask {A} (f : nat → A) : io A := λ t, (f t, S t).
Definition bind_io {A B} (m : io A) (k : A → io B) : io B := λ t, let (a, t1) := m t in k a t1.
Notation "'do!' x ':=' m 'in' k" := (bind_io m (λ x, k)) (at level 10, x pattern, m at level 100, k at level 200) : go_scope.

Lemma bind_io_done {A B} (m : io A) (k : A → io B) t b t' :
  bind_io m k t = (b, t') → ∃ a t1, m t = (a, t1) ∧ k a t1 = (b, t').
Proof. unfold bind_io. destruct (m t) as [a t1]. by exists a, t1. Qed.
Lemma ask_done {A} (f : nat → A) t a t' : ask f t = (a, t') → f t = a ∧ t' = S t.
Proof. by intros [= <- <-]. Qed.
Lemma give_done {A} (a b : A) t t' : give a t = (b, t') → b = a ∧ t' = t.
Proof. by intros [= -> ->]. Qed.

Section engine.
Context `{Engine}.
Definition now : io Time := ask en_now.
Definition context_err (c : context) : io (option context_state) := ask (λ t, en_context t c).
Definition run_command (c : context) (name : string) (args : list string) : io answer := ask (λ t, en_run t c name args).
End engine.
