(* ===== verification/Backend.v ===== *)
(** * The runner's features (internal/execution: backend.go, features.go)

    [Doctor] asks the container engine what it is, and [NegotiateFeatures]
    compares what a plan requires with what the runner then offers.  A JSON
    object is decoded into a Go map, whose members the code visits in an
    unspecified order: here it is the order of the document. *)

From S2P Require Import Prelude Json StructuredJson JsonUnmarshal SemanticEqual GoValue Domain GoStrings CleanupInventory Url Regex HttpContract PlanTypes ManifestValidate ExecutionPlan Engine.

Local Open Scope Z_scope.

Definition coverageFull := "full".
Definition coverageBestEffort := "best-effort".

(** [strings.EqualFold] when one of the texts is ASCII. *)
Definition EqualFold (a b : string) : bool := fold_name a =s fold_name b.

(** ** The information document of the engine *)

(** What a value is in a Go map: the last of two members of a name. *)
Fixpoint interface_value (j : json) : json :=
  match j with
  | JArr l => JArr (List.map interface_value l)
  | JObj l => JObj (foldl (λ acc p, assoc_set p.1 p.2 acc) [] (List.map (λ p, (p.1, interface_value p.2)) l))
  | _ => j
  end.

Fixpoint from_first (c : ascii) (s : string) : option string :=
  match s with String x s' => if Ascii.eqb x c then Some s else from_first c s' | EmptyString => None end.
Fixpoint to_last (c : ascii) (s : string) : option string :=
  match s with
  | String x s' =>
      match to_last c s' with
      | Some r => Some (String x r)
      | None => if Ascii.eqb x c then Some (String x "") else None
      end
  | EmptyString => None
  end.
Definition object_members (j : json) : option (list (string * json)) :=
  match interface_value j with JObj l => Some l | _ => None end.
Definition decodeJSONObject (raw : string) : option (list (string * json)) :=
  let? start := from_first "{" raw in
  let? text := to_last "}" start in
  let? (document, _) := read_first text in
  object_members document.

Definition member_fold (key : string) (document : list (string * json)) : option json :=
  snd <$> List.find (λ p, EqualFold p.1 key) document.
Definition mapObject (document : option (list (string * json))) (key : string) : option (list (string * json)) :=
  let? members := document in
  let? value := match assoc key members with Some value => Some value | None => member_fold key members end in
  match value with JObj l => Some l | _ => None end.
Definition mapString (document : option (list (string * json))) (key : string) : string :=
  match document ≫= member_fold key with Some (JStr s) => s | _ => "" end.
Definition mapBool (document : option (list (string * json))) (key : string) : option bool :=
  match document ≫= member_fold key with Some (JBool b) => Some b | _ => None end.

Fixpoint firstNonEmpty (values : list string) : string :=
  match values with value :: values' => if value !=s "" then value else firstNonEmpty values' | [] => "" end.
Definition wanted_text (keys : list string) (p : string * json) : list string :=
  match p.2 with JStr s => List.map (λ _, s) (List.filter (EqualFold p.1) keys) | _ => [] end.
Fixpoint recursiveString (keys : list string) (value : json) : string :=
  match value with
  | JObj l =>
      let result := firstNonEmpty (flat_map (wanted_text keys) l) in
      if result !=s "" then result else firstNonEmpty (List.map (λ p, recursiveString keys p.2) l)
  | JArr l => firstNonEmpty (List.map (recursiveString keys) l)
  | _ => ""
  end.
Fixpoint first_bool (values : list (option bool)) : option bool :=
  match values with Some b :: _ => Some b | None :: values' => first_bool values' | [] => None end.
Definition wanted_bool (key : string) (p : string * json) : option bool :=
  match p.2 with JBool b => if EqualFold p.1 key then Some b else None | _ => None end.
Fixpoint recursiveBool (key : string) (value : json) : option bool :=
  match value with
  | JObj l =>
      match first_bool (List.map (wanted_bool key) l) with
      | Some b => Some b
      | None => first_bool (List.map (λ p, recursiveBool key p.2) l)
      end
  | JArr l => first_bool (List.map (recursiveBool key) l)
  | _ => None
  end.

Definition yes_no (b : bool) : string := if b then "yes" else "no".
Fixpoint rootless_options (options : list json) (rootless : bool) : string :=
  match options with
  | JStr value :: rest => rootless_options rest (rootless || EqualFold (trim_space value) "name=rootless")
  | _ :: _ => "unknown"
  | [] => yes_no rootless
  end.
Definition dockerRootlessStatus (document : list (string * json)) : string :=
  match assoc "SecurityOptions" document with Some (JArr options) => rootless_options options false | _ => "unknown" end.

Record parsedBackendInfo := { bi_workloadOS : string; bi_engineVersion : string; bi_rootless : string }.

Definition docker_info (document : list (string * json)) : parsedBackendInfo :=
  {| bi_workloadOS := mapString (Some document) "OSType"; bi_engineVersion := mapString (Some document) "ServerVersion";
     bi_rootless := dockerRootlessStatus document |}.
Definition podman_info (document : list (string * json)) : parsedBackendInfo :=
  let host := mapObject (Some document) "host" in
  let version := mapObject (Some document) "version" in
  {| bi_workloadOS := mapString host "os"; bi_engineVersion := firstNonEmpty [mapString version "Version"; mapString version "version"];
     bi_rootless := match mapBool (mapObject host "security") "rootless" with Some rootless => yes_no rootless | None => "unknown" end |}.

(** The text of a decoder's error is not modelled. *)
Definition parseBackendInfo (backend raw : string) : result go_error parsedBackendInfo :=
  let! document := of_option (plain_error "engine info is not a JSON object") (decodeJSONObject raw) in
  let info :=
    if backend =s "docker" then docker_info document
    else if backend =s "podman" then podman_info document
    else {| bi_workloadOS := ""; bi_engineVersion := ""; bi_rootless := "unknown" |} in
  let workloadOS := if bi_workloadOS info =s "" then recursiveString ["ostype"; "os"] (JObj document) else bi_workloadOS info in
  let engineVersion := if bi_engineVersion info =s "" then recursiveString ["serverversion"] (JObj document) else bi_engineVersion info in
  let rootless :=
    if (backend !=s "docker") && (bi_rootless info =s "unknown")
    then match recursiveBool "rootless" (JObj document) with Some value => yes_no value | None => "unknown" end
    else bi_rootless info in
  fail_if workloadOS =s "" with plain_error "engine operating system is absent" ;;
  Ok {| bi_workloadOS := workloadOS; bi_engineVersion := engineVersion; bi_rootless := rootless |}.

(** ** Doctor *)

Definition lookupBackend (name : string) : option (string * list string) :=
  let name := canonical_text name in
  if name =s "docker" then Some ("docker", ["info"; "--format"; "{{json .}}"])
  else if name =s "podman" then Some ("podman", ["info"; "--format"; "json"])
  else None.

Section doctor.
Context `{Engine}.

Definition unavailableRunnerFeatures (backend workloadOS reason : string) : RunnerFeatures :=
  {| rf_Backend := backend; rf_Available := false; rf_ControllerOS := en_goos; rf_WorkloadOS := workloadOS; rf_Rootless := "unknown";
     rf_NetworkDeny := false; rf_NetworkAttemptObservation := coverageUnavailable; rf_ProcessExecObservation := coverageUnavailable;
     rf_FilesystemWriteObservation := coverageUnavailable; rf_FilesystemReadObservation := coverageUnavailable;
     rf_PortObservation := coverageUnavailable; rf_ResourceUsage := coverageUnavailable; rf_ResourceLimitEnforcement := false;
     rf_EngineVersion := ""; rf_Reason := reason |}.
Definition available_features (backend : string) (info : parsedBackendInfo) : RunnerFeatures :=
  {| rf_Backend := backend; rf_Available := true; rf_ControllerOS := en_goos; rf_WorkloadOS := lower_text (bi_workloadOS info);
     rf_Rootless := bi_rootless info; rf_NetworkDeny := true; rf_NetworkAttemptObservation := coverageUnavailable;
     rf_ProcessExecObservation := coverageBestEffort; rf_FilesystemWriteObservation := coverageUnavailable;
     rf_FilesystemReadObservation := coverageUnavailable; rf_PortObservation := coverageUnavailable;
     rf_ResourceUsage := coverageUnavailable; rf_ResourceLimitEnforcement := false; rf_EngineVersion := bi_engineVersion info;
     rf_Reason := "Controller and workload platforms are reported separately." |}.
(** The features of an engine that serves no Linux containers. *)
Definition foreign_features (backend : string) (info : parsedBackendInfo) : RunnerFeatures :=
  {| rf_Backend := backend; rf_Available := false; rf_ControllerOS := en_goos; rf_WorkloadOS := lower_text (bi_workloadOS info);
     rf_Rootless := bi_rootless info; rf_NetworkDeny := false; rf_NetworkAttemptObservation := coverageUnavailable;
     rf_ProcessExecObservation := coverageUnavailable; rf_FilesystemWriteObservation := coverageUnavailable;
     rf_FilesystemReadObservation := coverageUnavailable; rf_PortObservation := coverageUnavailable;
     rf_ResourceUsage := coverageUnavailable; rf_ResourceLimitEnforcement := false; rf_EngineVersion := bi_engineVersion info;
     rf_Reason := "The selected engine does not serve Linux containers." |}.

Definition Doctor (cfg : Config) (backendName : string) : io (RunnerFeatures * option Error) :=
  match lookupBackend backendName with
  | None =>
      let err := with_details (NewError CodeRunnerUnavailable SeverityHigh "Runner backend must be docker or podman.")
        [("backend", VStr backendName)] in
      give (unavailableRunnerFeatures backendName "unknown" (er_Message err), Some err)
  | Some (name, infoArgs) =>
      do! run := run_command (WithTimeout RunContext (cf_DoctorTimeout cfg)) name infoArgs in
      if is_some (an_error run) || negb (an_exitCode run =? 0) then
        let err := with_details (wrap_error CodeRunnerUnavailable SeverityHigh (name +:+ " CLI or engine is unavailable.") (an_error run))
          [("backend", VStr name); ("exitCode", VInt (an_exitCode run))] in
        give (unavailableRunnerFeatures name "unknown" (er_Message err), Some err)
      else
        match parseBackendInfo name (cb_bytes (CleanupInventory.capture (cf_DoctorOutputBytes cfg) (an_stdout run))) with
        | Err cause =>
            let wrapped := with_details
              (wrap_error CodeRunnerUnavailable SeverityHigh "Runner returned an unreadable engine information document." (Some cause))
              [("backend", VStr name)] in
            give (unavailableRunnerFeatures name "unknown" (er_Message wrapped), Some wrapped)
        | Ok info =>
            let features := available_features name info in
            if rf_WorkloadOS features !=s "linux" then
              let features := foreign_features name info in
              give (features,
                Some (with_details (NewError CodeRunnerFeatureUnavailable SeverityHigh "RepoPassport v0.1 requires a Linux container engine.")
                  [("backend", VStr name); ("controllerOS", VStr en_goos); ("workloadOS", VStr (rf_WorkloadOS features))]))
            else give (features, None)
        end
  end.

(** Every error of [Doctor] is a [domain.Error], whose message is safe. *)
Definition detected (cfg : Config) (name : string) : io RunnerFeatures :=
  do! (features, err) := Doctor cfg name in
  give match err with Some err => unavailableRunnerFeatures name "unknown" (er_Message err) | None => features end.
Definition DetectBackends (cfg : Config) : io (list RunnerFeatures) :=
  do! docker := detected cfg "docker" in
  do! podman := detected cfg "podman" in
  give [docker; podman].
End doctor.

(** ** Negotiation (features.go) *)

Definition coverageIsFull (value : string) : bool := EqualFold value coverageFull.
Definition resourceCoverageIsAdequate (value : string) : bool := coverageIsFull value || EqualFold value "high".
Definition filesystemCoverageIsAdequate (value : string) : bool := coverageIsFull value || EqualFold value "high".

(** The name between quotes is that of [%q] for a text of printable ASCII
    without quotes and backslashes. *)
Definition unavailableFeature (feature : string) : Error :=
  with_details
    (NewError CodeRunnerFeatureUnavailable SeverityHigh
       ("Runner feature " +:+ String dquote (feature +:+ String dquote " is unavailable.")))
    [("feature", VStr feature)].
Definition appendUnique (values : list string) (value : string) : list string :=
  if one_of value values then values else values ++ [value].

Definition observerIncomplete (observer : string) (features : RunnerFeatures) : bool :=
  if observer =s "process-exec" then negb (coverageIsFull (rf_ProcessExecObservation features))
  else if observer =s "filesystem-write" then negb (filesystemCoverageIsAdequate (rf_FilesystemWriteObservation features))
  else if observer =s "port-listen" then negb (coverageIsFull (rf_PortObservation features))
  else if observer =s "resource-usage" then negb (resourceCoverageIsAdequate (rf_ResourceUsage features))
  else false.

(** What one feature comes to: available, incomplete, or not available. *)
Inductive negotiated := Provided | Incomplete | Unavailable.
Definition require (b : bool) : negotiated := if b then Provided else Unavailable.
Definition observe (b : bool) : negotiated := if b then Provided else Incomplete.

Definition negotiate_observer (observer : string) (features : RunnerFeatures) : negotiated :=
  if observerIncomplete observer features then Incomplete
  else if (observer =s "network-enforcement") && rf_NetworkDeny features then Provided
  else if (observer =s "filesystem-write") && filesystemCoverageIsAdequate (rf_FilesystemWriteObservation features) then Provided
  else if (observer =s "resource-usage") && resourceCoverageIsAdequate (rf_ResourceUsage features) then Provided
  else Unavailable.

Definition container_features : list string :=
  ["read-only-source"; "isolated-workspace"; "bounded-logs"; "process-cleanup"; "process-tree-cleanup"; "cleanup-residue-classification";
   "read-only-root"; "non-root"; "background-service"; "service-signal"; "loopback-http-driver"].

Definition negotiate_feature (feature : string) (features : RunnerFeatures) : negotiated :=
  if feature =s "" then Provided
  else if one_of feature ["linux-container"; "platform:linux/amd64"; "platform:linux/arm64"]
  then require (rf_Available features && (rf_WorkloadOS features =s "linux"))
  else if one_of feature container_features then require (rf_Available features)
  else if one_of feature ["network-deny"; "network-enforcement"] then require (rf_NetworkDeny features)
  else if feature =s "setup-egress-allowlist" then Unavailable
  else if feature =s "process-exec-observation" then observe (coverageIsFull (rf_ProcessExecObservation features))
  else if feature =s "filesystem-write-observation" then observe (filesystemCoverageIsAdequate (rf_FilesystemWriteObservation features))
  else if feature =s "port-listen-observation" then observe (coverageIsFull (rf_PortObservation features))
  else if feature =s "resource-usage-observation" then observe (resourceCoverageIsAdequate (rf_ResourceUsage features))
  else if has_prefix "network-allowlist:" feature then Unavailable
  else if has_prefix "observer:" feature then negotiate_observer (trim_prefix "observer:" feature) features
  else Unavailable.

Fixpoint negotiate (required : list string) (features : RunnerFeatures) (incomplete : list string) : list string * option Error :=
  match required with
  | [] => (incomplete, None)
  | raw :: rest =>
      let feature := canonical_text raw in
      match negotiate_feature feature features with
      | Provided => negotiate rest features incomplete
      | Incomplete => negotiate rest features (appendUnique incomplete feature)
      | Unavailable => (incomplete, Some (unavailableFeature feature))
      end
  end.
Definition NegotiateFeatures (required : list string) (features : RunnerFeatures) : list string * option Error :=
  negotiate required features [].

(** ** Examples *)

Definition info_engine (stdout : string) : Engine :=
  {| en_goos := "linux"; en_now := λ _, zeroTime; en_context := λ _ _, None;
     en_run := λ _ _ _ _, {| an_exitCode := 0; an_error := None; an_stdout := [stdout]; an_stderr := [] |};
     en_input := None; en_service := λ _, None |}.
Definition quoted_json (s : string) : string := string_map (λ c, if Ascii.eqb c "'" then dquote else c) s.
Definition docker_stdout : string := quoted_json "{'OSType':'linux','ServerVersion':'28.0','SecurityOptions':['name=seccomp','name=rootless']}".
Definition podman_stdout : string := quoted_json "{'host':{'os':'Linux','security':{'rootless':false}},'version':{'Version':'5.0'}}".

Example doctor_reads_docker :
  fst (@Doctor (info_engine docker_stdout) DefaultConfig " Docker" 0%nat)
  = (@available_features (info_engine docker_stdout) "docker" {| bi_workloadOS := "linux"; bi_engineVersion := "28.0"; bi_rootless := "yes" |}, None).
Proof. vm_compute. reflexivity. Qed.
Example doctor_reads_podman :
  fst (@Doctor (info_engine podman_stdout) DefaultConfig "podman" 0%nat)
  = (@available_features (info_engine podman_stdout) "podman" {| bi_workloadOS := "Linux"; bi_engineVersion := "5.0"; bi_rootless := "no" |}, None).
Proof. vm_compute. reflexivity. Qed.

(** An observer that covers less than all of it is noted as incomplete; the same
    observer with full coverage is refused as unavailable. *)
Definition process_coverage (coverage : string) : RunnerFeatures :=
  {| rf_Backend := "docker"; rf_Available := true; rf_ControllerOS := "linux"; rf_WorkloadOS := "linux"; rf_Rootless := "no"; rf_NetworkDeny := true;
     rf_NetworkAttemptObservation := ""; rf_ProcessExecObservation := coverage; rf_FilesystemWriteObservation := ""; rf_FilesystemReadObservation := "";
     rf_PortObservation := ""; rf_ResourceUsage := ""; rf_ResourceLimitEnforcement := false; rf_EngineVersion := ""; rf_Reason := "" |}.
Example full_observer_unavailable :
  NegotiateFeatures ["observer:process-exec"] (process_coverage coverageBestEffort) = (["observer:process-exec"], None)
  ∧ NegotiateFeatures ["observer:process-exec"] (process_coverage coverageFull) = ([], Some (unavailableFeature "observer:process-exec")).
Proof. by vm_compute. Qed.
