(* ===== verification/Negotiation.v ===== *)
(** * A resolved plan against the runner's features

    Every plan the planner resolves asks only for features that an engine
    [Doctor] accepts has; what is left incomplete are the observers. *)

From S2P Require Import Prelude Json Sha256 SemanticEqual StructuredJson JsonPath JsonStrings GoValue Durations CanonicalJson JsonUnmarshal GoStruct Domain GoPath GoStrings CleanupInventory Regex Url HttpContract PlanTypes Manifest ManifestValidate ManifestSafety SchemaPolicy SchemaInstance RuntimePolicy SchemaFeatures SchemaSource PlanDocument PlanContract Planner PlannerSafety ExecutionPlan ExecutionTexts ExecutionContract Engine Backend.

Local Open Scope Z_scope.

(** The observers whose coverage only a run can establish. *)
Definition run_observers : list string :=
  ["observer:process-exec"; "observer:filesystem-write"; "observer:port-listen"; "observer:resource-usage"].

(** What [Doctor] says of an engine it accepts. *)
Record doctored (f : RunnerFeatures) : Prop := {
  dr_available : rf_Available f = true;
  dr_linux : rf_WorkloadOS f = "linux";
  dr_deny : rf_NetworkDeny f = true;
  dr_process : rf_ProcessExecObservation f = coverageBestEffort;
  dr_filesystem : rf_FilesystemWriteObservation f = coverageUnavailable;
  dr_port : rf_PortObservation f = coverageUnavailable;
  dr_resource : rf_ResourceUsage f = coverageUnavailable }.

Lemma doctor_accepts `{Engine} cfg backend u features u' : Doctor cfg backend u = ((features, None), u') → doctored features.
Proof.
  unfold Doctor. destruct (lookupBackend backend) as [[name args]|]; [|discriminate].
  intros (run & u1 & _ & Hr)%bind_io_done. destruct (is_some (an_error run) || negb (an_exitCode run =? 0)); [discriminate Hr|].
  destruct (parseBackendInfo _ _) as [info|cause]; [|discriminate Hr].
  destruct (String.eqb_spec (rf_WorkloadOS (available_features name info)) "linux") as [E|]; cbn [negb] in Hr; [|discriminate Hr].
  apply give_done in Hr as [[= ->] _]. split; done.
Qed.

(** ** One feature *)

Definition resolved_names : list string :=
  "platform:linux/amd64" :: common_features ++ List.map (λ o, "observer:" +:+ o) supportedObservers.
Definition expected_negotiation (feature : string) : negotiated := if one_of feature run_observers then Incomplete else Provided.

Lemma names_canonical : forallb (λ f, canonical_text f =s f) resolved_names = true.
Proof. by vm_compute. Qed.
Lemma names_negotiated f : doctored f → List.map (λ n, negotiate_feature n f) resolved_names = List.map expected_negotiation resolved_names.
Proof. destruct f. intros [Ea El Ed Ep Ef Eo Er]. cbn in *. subst. vm_compute. reflexivity. Qed.

Lemma name_negotiated f feature : doctored f → feature ∈ resolved_names →
  canonical_text feature = feature ∧ negotiate_feature feature f = expected_negotiation feature.
Proof.
  intros Hf Hin. split.
  - by apply String.eqb_eq, (forallb_elem _ _ _ names_canonical Hin).
  - pose proof (names_negotiated f Hf) as Hall. apply list_elem_of_lookup in Hin as [i Hi].
    assert (List.map (λ n, negotiate_feature n f) resolved_names !! i = List.map expected_negotiation resolved_names !! i) as E by by rewrite Hall.
    rewrite !list_lookup_fmap, Hi in E. cbn [fmap option_fmap option_map] in E. by injection E.
Qed.

(** ** The loop *)

Lemma append_unique_elem values value x : x ∈ appendUnique values value ↔ x ∈ values ∨ x = value.
Proof.
  unfold appendUnique. destruct (one_of value values) eqn:E.
  - apply one_of_In in E. split; [by left|by intros [| ->]].
  - by rewrite elem_of_app, list_elem_of_singleton.
Qed.
Lemma append_unique_NoDup values value : NoDup values → NoDup (appendUnique values value).
Proof.
  unfold appendUnique. destruct (one_of value values) eqn:E; [done|]. intros Hd. apply NoDup_app. split_and!; [done| |apply NoDup_singleton].
  intros x Hx ->%list_elem_of_singleton. apply one_of_In in Hx. by rewrite Hx in E.
Qed.

Lemma negotiate_names f required : doctored f → Forall (λ n, n ∈ resolved_names) required → ∀ incomplete, NoDup incomplete →
  ∃ out, negotiate required f incomplete = (out, None) ∧ NoDup out
    ∧ ∀ x, x ∈ out ↔ x ∈ incomplete ∨ x ∈ required ∧ x ∈ run_observers.
Proof.
  intros Hf Hall. induction Hall as [|n rest Hn _ IH]; intros incomplete Hd; cbn [negotiate].
  - exists incomplete. split_and!; [done|done|]. intros x. rewrite elem_of_nil. tauto.
  - destruct (name_negotiated f n Hf Hn) as [-> ->]. unfold expected_negotiation. destruct (one_of n run_observers) eqn:Eo.
    + destruct (IH (appendUnique incomplete n) (append_unique_NoDup _ _ Hd)) as (out & -> & Hout & Hx). exists out. split_and!; [done|done|].
      intros x. rewrite Hx, append_unique_elem, elem_of_cons. apply one_of_In in Eo. split; [intros [[?| ->]|[? ?]]; tauto|intros [?|[[-> |?] ?]]; tauto].
    + destruct (IH incomplete Hd) as (out & -> & Hout & Hx). exists out. split_and!; [done|done|].
      intros x. rewrite Hx, elem_of_cons. assert (x = n → x ∉ run_observers) as Hno by (intros -> Hin; apply one_of_In in Hin; by rewrite Hin in Eo). tauto.
Qed.

Section resolved.
Context `{RegexpSyntax} `{Host} `{SchemaCompiler} `{Engine}.

Lemma resolved_names_required doc snapshot name t plan t' :
  Resolve doc snapshot name t = (Ok plan, t') → Forall (λ n, n ∈ resolved_names) (fp_RequiredRunnerFeatures plan).
Proof.
  intros (m & scenario & environment & journey & assertions & R)%resolve_inv.
  destruct (resolution_valid _ _ _ _ _ _ _ _ _ _ _ R) as (Hv & Henv%environment_accepted & Hs & Ha).
  destruct (ad_features _ _ _ _ Ha) as [n Hf%features_accepted]. destruct (admitted_runtime _ _ _ _ _ Ha Henv) as (a & _ & _ & Harch).
  destruct (resolved_capabilities_closed _ _ Hs Hf) as [_ Hclosed]. destruct (rv_plan _ _ _ _ _ _ _ _ _ _ _ R) as (policy & digest & ->).
  cbn [fp_RequiredRunnerFeatures PlanDocument.with_digest resolved_plan]. apply Forall_forall. intros x Hx. unfold resolved_names.
  destruct (plan_features_elem _ _ _ _ _ Hclosed Hx) as [->|[Hin|(o & Ho & ->)]].
  - rewrite Harch. apply list_elem_of_here.
  - apply list_elem_of_further, elem_of_app. by left.
  - pose proof (observers_known _ (ok_verification _ _ Hs)) as Hall. rewrite Forall_forall in Hall.
    apply list_elem_of_further, elem_of_app. right. apply list_elem_of_In, in_map. by apply list_elem_of_In, Hall.
Qed.

(** C37: whatever engine [Doctor] accepts, the features of every resolved plan are
    negotiated with it without an error, and what is reported as incomplete are
    exactly the observers of the plan that only a run can establish, each once. *)
Theorem resolved_features_negotiated doc snapshot name t plan t' cfg backend u features u' :
  Resolve doc snapshot name t = (Ok plan, t') → Doctor cfg backend u = ((features, None), u') →
  ∃ incomplete, NegotiateFeatures (fp_RequiredRunnerFeatures plan) features = (incomplete, None) ∧ NoDup incomplete
    ∧ ∀ x, x ∈ incomplete ↔ x ∈ fp_RequiredRunnerFeatures plan ∧ x ∈ run_observers.
Proof.
  intros Hr Hd%doctor_accepts. pose proof (resolved_names_required _ _ _ _ _ _ Hr) as Hall.
  destruct (negotiate_names _ _ Hd Hall [] (NoDup_nil_2)) as (out & Hn & Hout & Hx). exists out. split_and!; [exact Hn|exact Hout|].
  intros x. rewrite Hx, elem_of_nil. tauto.
Qed.
End resolved.

#[local] Existing Instance any_expression.
#[local] Existing Instance one_file.

Lemma resolved_features_negotiated_witness :
  ∃ incomplete, @NegotiateFeatures (fp_RequiredRunnerFeatures (planned "serve")) (fst (fst (@Doctor (info_engine docker_stdout) DefaultConfig "docker" 0%nat)))
    = (incomplete, None) ∧ NoDup incomplete ∧ ∀ x, x ∈ incomplete ↔ x ∈ fp_RequiredRunnerFeatures (planned "serve") ∧ x ∈ run_observers.
Proof.
  apply (resolved_features_negotiated (H2 := info_engine docker_stdout) planned_document planned_snapshot "serve" 0%nat (planned "serve") 0%nat
    DefaultConfig "docker" 0%nat _ 1%nat); [exact served|by vm_compute].
Defined.
