(* ===== verification/HelperControl.v ===== *)
(** * What the helpers answer (internal/execution: http_driver.go, http_file_assertion.go)

    The helper processes in the container answer on their standard output with
    one JSON object.  The runner reads it token by token, refusing unknown,
    repeated, [null] and missing members; here is that reader, with the decoding
    of the HTTP response and of the JSON file snapshot built on it. *)

From S2P Require Import Prelude Json Sha256 StructuredJson JsonUnmarshal Base64 GoStrings HttpContract ManifestValidate.

Local Open Scope Z_scope.

(** ** One value inside an object or array *)

(** [dec.Decode] between tokens: the value the next token begins. *)
Definition decode_next (d : decoder) : option (json * decoder) :=
  let? (tok, d1) := next_token d in read_value (decode_fuel (d_input d)) d1 tok 0.

(** [Decode] into a pointer to a bool, a string or an int64; [null] leaves it nil. *)
Definition as_bool (j : json) : option bool := match j with JBool b => Some b | _ => None end.
Definition as_text (j : json) : option string := match j with JStr s => Some s | _ => None end.
Definition as_int (j : json) : option Z := match j with JNum lexeme => parse_int 64 lexeme | _ => None end.
Definition decode_as {A} (f : json → option A) (message : string) (d : decoder) : result string (A * decoder) :=
  of_option message (let? (j, d1) := decode_next d in let? a := f j in Some (a, d1)).

(** ** One object *)

(** What is said of a key that is no key, is no string or is repeated, and of an
    object that is not closed. *)
Record object_messages := { om_invalid : string; om_text : string; om_duplicate : string; om_closed : string }.

Section object.
Context {R : Type} (messages : object_messages) (known : list string).
(** What a member of that name makes of the values read so far. *)
Variable field : string → R → decoder → result string (R * decoder).

(** The loop over the members, with the names seen.  A name that is not known
    or is repeated is an error, so one round more than there are known names is
    enough. *)
Fixpoint read_fields (fuel : nat) (d : decoder) (seen : list string) (response : R) : result string (R * list string * decoder) :=
  match fuel with
  | O => Err (om_closed messages)
  | S n =>
      if more d then
        match next_token d with
        | None => Err (om_invalid messages)
        | Some (TStr key, d1) =>
            fail_if one_of key seen with om_duplicate messages ;;
            let! (response, d2) := field key response d1 in
            read_fields n d2 (seen ++ [key]) response
        | Some _ => Err (om_text messages)
        end
      else
        match next_token d with
        | Some (TDelim c, d1) => if Ascii.eqb c "}" then Ok (response, seen, d1) else Err (om_closed messages)
        | _ => Err (om_closed messages)
        end
  end.
Definition read_object (open : string) (d : decoder) (response : R) : result string (R * list string * decoder) :=
  match next_token d with
  | Some (TDelim c, d1) => if Ascii.eqb c "{" then read_fields (S (length known)) d1 [] response else Err open
  | _ => Err open
  end.
End object.

(** [len(seen) != len(required) || !containsEvery...(seen, required)]. *)
Definition exact_fields (seen required : list string) : bool :=
  (length seen =? length required)%nat && forallb (λ field, one_of field seen) required.

(** ** The answer of the HTTP helper *)

Record httpHelperResponse := mk_response {
  hr_OK : bool; hr_Error : string; hr_Status : Z; hr_Headers : list (string * string); hr_BodyBase64 : string; hr_BodyBytes : Z;
  hr_BodyTruncated : bool; hr_DurationMillis : Z }.
Definition no_response : httpHelperResponse := mk_response false "" 0 [] "" 0 false 0.

Definition header_field (key : string) (header : string * string) (d : decoder) : result string ((string * string) * decoder) :=
  if key =s "name" then let! (value, d) := decode_as as_text "trusted HTTP helper control header name is invalid" d in Ok ((value, header.2), d)
  else if key =s "value" then let! (value, d) := decode_as as_text "trusted HTTP helper control header value is invalid" d in Ok ((header.1, value), d)
  else Err "trusted HTTP helper control header has an unknown object key".
Definition header_messages : object_messages :=
  {| om_invalid := "trusted HTTP helper control header has an invalid object key";
     om_text := "trusted HTTP helper control header has a non-string object key";
     om_duplicate := "trusted HTTP helper control header has a duplicate object key";
     om_closed := "trusted HTTP helper control header object is not closed" |}.
Definition decodeHTTPHelperHeader (d : decoder) : result string ((string * string) * decoder) :=
  let! (header, seen, d) :=
    read_object header_messages ["name"; "value"] header_field "trusted HTTP helper control header must be an object" d ("", "") in
  fail_if negb (length seen =? 2)%nat with "trusted HTTP helper control header is missing a field" ;;
  Ok (header, d).

(** The loop over the headers: how many more there may be. *)
Fixpoint helper_headers (left : nat) (d : decoder) : result string (list (string * string) * decoder) :=
  if more d then
    match left with
    | O => Err "trusted HTTP helper returned too many headers"
    | S n =>
        let! (header, d) := decodeHTTPHelperHeader d in
        let! (headers, d) := helper_headers n d in
        Ok (header :: headers, d)
    end
  else
    match next_token d with
    | Some (TDelim c, d1) => if Ascii.eqb c "]" then Ok ([], d1) else Err "trusted HTTP helper control headers array is not closed"
    | _ => Err "trusted HTTP helper control headers array is not closed"
    end.
Definition decodeHTTPHelperHeaders (d : decoder) : result string (list (string * string) * decoder) :=
  match next_token d with
  | Some (TDelim c, d1) =>
      if Ascii.eqb c "[" then helper_headers (Z.to_nat AlphaHTTPMaxHeaders) d1 else Err "trusted HTTP helper control headers field is invalid"
  | _ => Err "trusted HTTP helper control headers field is invalid"
  end.

Definition response_keys : list string :=
  ["ok"; "error"; "status"; "headers"; "bodyBase64"; "bodyBytes"; "bodyTruncated"; "durationMillis"].
Definition response_field (key : string) (response : httpHelperResponse) (d : decoder) : result string (httpHelperResponse * decoder) :=
  let '(mk_response ok error status headers body bytes truncated duration) := response in
  if key =s "ok" then let! (value, d) := decode_as as_bool "trusted HTTP helper control ok field is invalid" d in
    Ok (mk_response value error status headers body bytes truncated duration, d)
  else if key =s "error" then let! (value, d) := decode_as as_text "trusted HTTP helper control error field is invalid" d in
    Ok (mk_response ok value status headers body bytes truncated duration, d)
  else if key =s "status" then let! (value, d) := decode_as as_int "trusted HTTP helper control status field is invalid" d in
    Ok (mk_response ok error value headers body bytes truncated duration, d)
  else if key =s "headers" then let! (value, d) := decodeHTTPHelperHeaders d in
    Ok (mk_response ok error status value body bytes truncated duration, d)
  else if key =s "bodyBase64" then let! (value, d) := decode_as as_text "trusted HTTP helper control body field is invalid" d in
    Ok (mk_response ok error status headers value bytes truncated duration, d)
  else if key =s "bodyBytes" then let! (value, d) := decode_as as_int "trusted HTTP helper control body size field is invalid" d in
    Ok (mk_response ok error status headers body value truncated duration, d)
  else if key =s "bodyTruncated" then let! (value, d) := decode_as as_bool "trusted HTTP helper control truncation field is invalid" d in
    Ok (mk_response ok error status headers body bytes value duration, d)
  else if key =s "durationMillis" then let! (value, d) := decode_as as_int "trusted HTTP helper control duration field is invalid" d in
    Ok (mk_response ok error status headers body bytes truncated value, d)
  else Err "trusted HTTP helper control contains an unknown object key".
Definition response_messages : object_messages :=
  {| om_invalid := "trusted HTTP helper control contains an invalid object key";
     om_text := "trusted HTTP helper control contains a non-string object key";
     om_duplicate := "trusted HTTP helper control contains a duplicate object key";
     om_closed := "trusted HTTP helper control object is not closed" |}.
Definition success_keys : list string := ["ok"; "status"; "headers"; "bodyBase64"; "bodyBytes"; "bodyTruncated"; "durationMillis"].
Definition failure_keys : list string := ["ok"; "error"].

Definition decodeHTTPHelperResponse (raw : string) : result string httpHelperResponse :=
  let! (response, seen, d) :=
    read_object response_messages response_keys response_field "trusted HTTP helper control must be one JSON object" (new_decoder raw) no_response in
  fail_if negb (at_eof d) with "trusted HTTP helper control must contain exactly one JSON object" ;;
  fail_if negb (one_of "ok" seen) with "trusted HTTP helper control is missing ok" ;;
  if hr_OK response then
    fail_if negb (exact_fields seen success_keys) with "trusted HTTP helper returned an invalid success envelope" ;;
    Ok response
  else
    fail_if negb (exact_fields seen failure_keys) with "trusted HTTP helper returned an invalid failure envelope" ;;
    Ok response.

(** ** The snapshot of a JSON file *)

Definition httpJSONFileMaxBytes := 2 ^ 20.
Definition httpJSONFileMaxBase64Bytes := (httpJSONFileMaxBytes + 2) / 3 * 4.
Definition httpJSONFileMaxControlBytes := httpJSONFileMaxBase64Bytes + 4096.

Inductive httpJSONFileReadFailure :=
  | httpJSONFileInvalidPath | httpJSONFileUnsupportedRuntime | httpJSONFileMissing | httpJSONFileSymlink | httpJSONFileDirectory
  | httpJSONFileSpecial | httpJSONFileTooLarge | httpJSONFileChanged | httpJSONFileHelperTimeout | httpJSONFileHelperExecution
  | httpJSONFileControlLimit | httpJSONFileInvalidControl | httpJSONFileIntegrity.
Definition failure_text (f : httpJSONFileReadFailure) : string :=
  match f with
  | httpJSONFileInvalidPath => "invalid-path" | httpJSONFileUnsupportedRuntime => "unsupported-runtime" | httpJSONFileMissing => "missing"
  | httpJSONFileSymlink => "symlink" | httpJSONFileDirectory => "directory" | httpJSONFileSpecial => "special" | httpJSONFileTooLarge => "too-large"
  | httpJSONFileChanged => "changed" | httpJSONFileHelperTimeout => "helper-timeout" | httpJSONFileHelperExecution => "helper-execution"
  | httpJSONFileControlLimit => "control-limit" | httpJSONFileInvalidControl => "invalid-control" | httpJSONFileIntegrity => "integrity"
  end.

Record httpJSONFileSnapshot := { sn_content : string; sn_size : Z; sn_sha256 : string }.
Record httpJSONFileReadResponse := mk_read { rr_Status : string; rr_Size : option Z; rr_ContentBase64 : option string; rr_SHA256 : option string }.

Definition control_keys : list string := ["status"; "size"; "contentBase64"; "sha256"].
Definition control_field (key : string) (response : httpJSONFileReadResponse) (d : decoder) : result string (httpJSONFileReadResponse * decoder) :=
  let '(mk_read status size content digest) := response in
  if key =s "status" then let! (value, d) := decode_as as_text "helper control status is invalid" d in Ok (mk_read value size content digest, d)
  else if key =s "size" then let! (value, d) := decode_as as_int "helper control size is invalid" d in Ok (mk_read status (Some value) content digest, d)
  else if key =s "contentBase64" then let! (value, d) := decode_as as_text "helper control payload is invalid" d in
    Ok (mk_read status size (Some value) digest, d)
  else if key =s "sha256" then let! (value, d) := decode_as as_text "helper control digest is invalid" d in
    Ok (mk_read status size content (Some value), d)
  else Err "helper control contains an unknown object key".
Definition control_messages : object_messages :=
  {| om_invalid := "helper control contains an invalid object key"; om_text := "helper control contains a non-string object key";
     om_duplicate := "helper control contains a duplicate object key"; om_closed := "helper control object is not closed" |}.
Definition decodeHTTPJSONFileReadControl (raw : string) : result string httpJSONFileReadResponse :=
  let! (response, _, d) :=
    read_object control_messages control_keys control_field "helper control must be one JSON object" (new_decoder raw) (mk_read "" None None None) in
  fail_if negb (at_eof d) with "helper control must contain exactly one JSON object" ;;
  Ok response.

Definition status_failure (status : string) : httpJSONFileReadFailure :=
  if status =s "missing" then httpJSONFileMissing
  else if status =s "symlink" then httpJSONFileSymlink
  else if status =s "directory" then httpJSONFileDirectory
  else if status =s "special" then httpJSONFileSpecial
  else if status =s "too-large" then httpJSONFileTooLarge
  else if status =s "changed" then httpJSONFileChanged
  else if status =s "error" then httpJSONFileHelperExecution
  else httpJSONFileInvalidControl.
(** A success without a size, a payload or a digest is invalid. *)
Definition read_snapshot_fields (size : Z) (payload digest : string) : result httpJSONFileReadFailure httpJSONFileSnapshot :=
  fail_if (size <? 0) || (httpJSONFileMaxBytes <? size) || (httpJSONFileMaxBase64Bytes <? zlen payload)
    || negb (zlen payload =? EncodedLen size) with httpJSONFileInvalidControl ;;
  let! content := of_option httpJSONFileInvalidControl (DecodeLenient payload) in
  fail_if negb (zlen content =? size) || (httpJSONFileMaxBytes <? zlen content) with httpJSONFileInvalidControl ;;
  fail_if digest !=s digest_text content with httpJSONFileIntegrity ;;
  Ok {| sn_content := content; sn_size := zlen content; sn_sha256 := digest_text content |}.
Definition decodeHTTPJSONFileReadResponse (raw : string) : result httpJSONFileReadFailure httpJSONFileSnapshot :=
  fail_if httpJSONFileMaxControlBytes <? zlen raw with httpJSONFileControlLimit ;;
  let! response := map_err (λ _, httpJSONFileInvalidControl) (decodeHTTPJSONFileReadControl raw) in
  if rr_Status response !=s "ok" then
    fail_if is_some (rr_Size response) || is_some (rr_ContentBase64 response) || is_some (rr_SHA256 response) with httpJSONFileInvalidControl ;;
    Err (status_failure (rr_Status response))
  else
    match rr_Size response, rr_ContentBase64 response, rr_SHA256 response with
    | Some size, Some payload, Some digest => read_snapshot_fields size payload digest
    | _, _, _ => Err httpJSONFileInvalidControl
    end.

(** ** Examples *)

Definition from_quotes (s : string) : string := string_map (λ c, if Ascii.eqb c "'" then dquote else c) s.
Definition success_control : string :=
  from_quotes "{'ok':true,'status':200,'headers':[{'value':'text/plain','name':'content-type'}],'bodyBase64':'b2s=','bodyBytes':2,'bodyTruncated':false,'durationMillis':7}".

Example response_read :
  decodeHTTPHelperResponse success_control = Ok (mk_response true "" 200 [("content-type", "text/plain")] "b2s=" 2 false 7).
Proof. by vm_compute. Qed.
Example responses_refused :
  List.map (λ s, match decodeHTTPHelperResponse (from_quotes s) with Ok _ => "" | Err e => e end)
    ["{'ok':false,'error':'timeout','ok':true}"; "{'ok':null,'error':''}"; "{'ok':false}"; "{'ok':false,'error':'timeout'} x";
     "{'ok':false,'error':'timeout','Error':''}"; "[]"]
  = ["trusted HTTP helper control contains a duplicate object key"; "trusted HTTP helper control ok field is invalid";
     "trusted HTTP helper returned an invalid failure envelope"; "trusted HTTP helper control must contain exactly one JSON object";
     "trusted HTTP helper control contains an unknown object key"; "trusted HTTP helper control must be one JSON object"].
Proof. by vm_compute. Qed.

(** ** Reading token by token is reading the document

    A value is read alike at every depth that leaves room for its own. *)

Lemma read_depth fuel :
  (∀ d tok depth j d', read_value fuel d tok depth = Some (j, d') → ∀ depth', depth' + depth_of j <= maxNestingDepth →
     read_value fuel d tok depth' = Some (j, d'))
  ∧ (∀ d depth l d', read_members fuel d depth = Some (l, d') → ∀ depth', depth' + object_depth l <= maxNestingDepth →
     read_members fuel d depth' = Some (l, d'))
  ∧ (∀ d depth l d', read_elements fuel d depth = Some (l, d') → ∀ depth', depth' + array_depth l <= maxNestingDepth →
     read_elements fuel d depth' = Some (l, d')).
Proof.
  induction fuel as [|n (IHv & IHm & IHe)]; [done|]. split_and!; intros d.
  - intros tok depth j d'. cbn [read_value]. destruct tok as [c| | | |]; [|done..]. destruct (maxNestingDepth <? depth + 1); [done|].
    destruct (Ascii.eqb c "{").
    + intros ([l d1] & Hl & [= <- <-])%bind_Some depth' Hd. change (depth_of (JObj l)) with (1 + object_depth l) in Hd.
      pose proof (object_depth_nonneg l). destruct (Z.ltb_spec maxNestingDepth (depth' + 1)); [lia|]. by rewrite (IHm _ _ _ _ Hl) by lia.
    + destruct (Ascii.eqb c "["); [|done].
      intros ([l d1] & Hl & [= <- <-])%bind_Some depth' Hd. change (depth_of (JArr l)) with (1 + array_depth l) in Hd.
      pose proof (array_depth_nonneg l). destruct (Z.ltb_spec maxNestingDepth (depth' + 1)); [lia|]. by rewrite (IHe _ _ _ _ Hl) by lia.
  - intros depth l d'. cbn [read_members]. destruct (more d); [|done]. destruct (next_token d) as [[tok d1]|]; [|done].
    destruct tok as [| | |key|]; try done. intros ([tok d2] & Ht & ([j d3] & Hj & ([l' d4] & Hl & [= <- <-])%bind_Some)%bind_Some)%bind_Some depth' Hd.
    rewrite Ht. cbn [mbind option_bind]. rewrite object_depth_cons in Hd. cbn [snd] in Hd.
    rewrite (IHv _ _ _ _ _ Hj) by lia. cbn [mbind option_bind]. by rewrite (IHm _ _ _ _ Hl) by lia.
  - intros depth l d'. cbn [read_elements]. destruct (more d); [|done].
    intros ([tok d2] & Ht & ([j d3] & Hj & ([l' d4] & Hl & [= <- <-])%bind_Some)%bind_Some)%bind_Some depth' Hd.
    rewrite Ht. cbn [mbind option_bind]. rewrite array_depth_cons in Hd.
    rewrite (IHv _ _ _ _ _ Hj) by lia. cbn [mbind option_bind]. by rewrite (IHe _ _ _ _ Hl) by lia.
Qed.

Lemma decode_next_read d j d' depth : decode_next d = Some (j, d') → depth + depth_of j <= maxNestingDepth →
  ∃ tok d1, next_token d = Some (tok, d1) ∧ ∀ m, (2 * remaining d1 + 2 <= m)%nat → read_value m d1 tok depth = Some (j, d').
Proof.
  intros ([tok d1] & Ht & Hv)%bind_Some Hd. exists tok, d1. split; [done|]. intros m Hm. pose proof (next_token_shorter _ _ _ Ht) as Hs.
  rewrite (proj1 (read_fuel m (decode_fuel (d_input d))) d1 tok depth) by (unfold decode_fuel; fold (remaining d); lia).
  exact (proj1 (read_depth _) _ _ _ _ _ Hv depth Hd).
Qed.
Lemma read_decode_next d tok d1 m j d' depth :
  next_token d = Some (tok, d1) → (2 * remaining d1 + 2 <= m)%nat → read_value m d1 tok depth = Some (j, d') → depth_of j <= maxNestingDepth →
  decode_next d = Some (j, d').
Proof.
  intros Ht Hm Hv Hd. unfold decode_next. rewrite Ht. cbn [mbind option_bind]. pose proof (next_token_shorter _ _ _ Ht) as Hs.
  rewrite (proj1 (read_fuel (decode_fuel (d_input d)) m) d1 tok 0) by (unfold decode_fuel; fold (remaining d); lia).
  exact (proj1 (read_depth _) _ _ _ _ _ Hv 0 Hd).
Qed.
Lemma read_value_shorter m d tok depth j d' : read_value m d tok depth = Some (j, d') → (remaining d' <= remaining d)%nat.
Proof. intros Hv. pose proof (proj1 (read_shorter m) d tok depth) as Hs. by rewrite Hv in Hs. Qed.

Lemma decode_as_ok {A} (f : json → option A) message d a d' :
  decode_as f message d = Ok (a, d') ↔ ∃ j, decode_next d = Some (j, d') ∧ f j = Some a.
Proof.
  unfold decode_as. destruct (decode_next d) as [[j d1]|]; cbn [mbind option_bind of_option].
  - destruct (f j) as [b|] eqn:E; cbn [mbind option_bind of_option]; split.
    + intros [= -> ->]. by exists j.
    + intros (i & [= -> ->] & Hf). by rewrite E in Hf; injection Hf as ->.
    + done.
    + intros (i & [= -> ->] & Hf). by rewrite E in Hf.
  - split; [done|by intros (j & ? & _)].
Qed.

Section members.
Context {R : Type} (messages : object_messages) (known : list string).
Variables (field : string → R → decoder → result string (R * decoder)) (set : string → json → R → option R).
Hypothesis field_set : ∀ key r d r' d', field key r d = Ok (r', d') ↔ ∃ j, decode_next d = Some (j, d') ∧ set key j r = Some r'.
Hypothesis set_known : ∀ key j r r', set key j r = Some r' → key ∈ known ∧ depth_of j <= 2.

Fixpoint set_members (l : list (string * json)) (r : R) : option R :=
  match l with (key, j) :: l' => let? r := set key j r in set_members l' r | [] => Some r end.

Lemma fields_members n : ∀ d seen r r' seen' d', read_fields messages field n d seen r = Ok (r', seen', d') →
  ∀ m, (2 * remaining d + 1 <= m)%nat →
  ∃ l, read_members m d 1 = Some (l, d') ∧ seen' = seen ++ l.*1 ∧ NoDup l.*1 ∧ (∀ k, k ∈ l.*1 → k ∉ seen)
    ∧ set_members l r = Some r' ∧ object_depth l <= 2.
Proof.
  induction n as [|n IH]; intros d seen r r' seen' d'; [done|]. cbn [read_fields]. intros Hr m Hm. destruct m as [|m]; [lia|]. cbn [read_members].
  destruct (more d).
  - destruct (next_token d) as [[tok d1]|] eqn:E1; [|done]. destruct tok as [| | |key|]; try done.
    apply next_token_shorter in E1. destruct (one_of key seen) eqn:Eseen; [done|]. apply bind_Ok in Hr as ([r1 d3] & Hf & Hr).
    apply field_set in Hf as (j & Hj & Hset). destruct (set_known _ _ _ _ Hset) as [_ Hdepth].
    destruct (decode_next_read _ _ _ 1 Hj) as (itok & d2 & E2 & Hv); [unfold maxNestingDepth; lia|]. rewrite E2. cbn [mbind option_bind].
    apply next_token_shorter in E2. rewrite Hv by lia. cbn [mbind option_bind]. pose proof (read_value_shorter _ _ _ _ _ _ (Hv _ (le_n _))) as E3.
    destruct (IH _ _ _ _ _ _ Hr m) as (l & -> & -> & Hd & Hout & Hl & Hdl); [lia|]. cbn [mbind option_bind].
    assert (key ∉ l.*1) as Hkey by (intros Hin; apply (Hout _ Hin), elem_of_app; right; apply list_elem_of_here).
    exists ((key, j) :: l). split_and!; [done|by rewrite fmap_cons, <- app_assoc|by rewrite fmap_cons; constructor| | |].
    + intros k. rewrite fmap_cons, elem_of_cons. intros [->|Hin] Hs; [|by apply (Hout _ Hin), elem_of_app; left].
      cbn [fst] in Hs. apply one_of_In in Hs. by rewrite Hs in Eseen.
    + cbn [set_members]. by rewrite Hset.
    + rewrite object_depth_cons. cbn [snd]. lia.
  - destruct (next_token d) as [[tok d1]|]; [|done]. destruct tok as [c| | | |]; try done. destruct (Ascii.eqb c "}"); [|done].
    injection Hr as -> <- ->. exists []. split_and!; [done|by rewrite app_nil_r|constructor|by intros k ?%elem_of_nil|done|done].
Qed.

Lemma members_fields m : ∀ d l d', read_members m d 1 = Some (l, d') → (2 * remaining d + 1 <= m)%nat →
  ∀ n seen r r', (length l < n)%nat → NoDup l.*1 → (∀ k, k ∈ l.*1 → k ∉ seen) → set_members l r = Some r' →
  read_fields messages field n d seen r = Ok (r', seen ++ l.*1, d').
Proof.
  induction m as [|m IH]; intros d l d'; [done|]. cbn [read_members]. intros Hl Hm n seen r r' Hn Hd Hout Hset. destruct n as [|n]; [lia|].
  cbn [read_fields]. destruct (more d).
  - destruct (next_token d) as [[tok d1]|] eqn:E1; [|done]. destruct tok as [| | |key|]; try done. apply next_token_shorter in E1.
    apply bind_Some in Hl as ([itok d2] & E2 & ([j d3] & Hj & ([l' d4] & Hl & [= <- <-])%bind_Some)%bind_Some). pose proof (next_token_shorter _ _ _ E2) as Hs2.
    cbn [set_members] in Hset. apply bind_Some in Hset as (r1 & Hk & Hset). rewrite fmap_cons in Hd, Hout. cbn [fst length] in *.
    apply NoDup_cons in Hd as [Hkey Hd].
    assert (one_of key seen = false) as -> by (apply not_true_iff_false; rewrite one_of_In; apply Hout, list_elem_of_here).
    rewrite (proj2 (field_set key r d1 r1 d3)); [cbn [bind_result]|].
    + pose proof (read_value_shorter _ _ _ _ _ _ Hj) as E3. rewrite (IH _ _ _ Hl) with (r' := r'); [by rewrite <- app_assoc, fmap_cons|lia|lia|done| |done].
      intros k Hin [Hs| ->%list_elem_of_singleton]%elem_of_app; [by apply (Hout k); [apply list_elem_of_further|]|done].
    + exists j. split; [|done]. destruct (set_known _ _ _ _ Hk) as [_ Hdepth].
      apply (read_decode_next _ _ _ m _ _ 1 E2); [lia|done|unfold maxNestingDepth; lia].
  - destruct (next_token d) as [[tok d1]|]; [|done]. destruct tok as [c| | | |]; try done. destruct (Ascii.eqb c "}"); [|done].
    injection Hl as <- <-. injection Hset as <-. by rewrite app_nil_r.
Qed.

(** The members are few enough for the rounds. *)
Lemma set_members_known l r r' : set_members l r = Some r' → ∀ k, k ∈ l.*1 → k ∈ known.
Proof.
  revert r. induction l as [|[key j] l IH]; intros r; cbn [set_members]; [by intros _ k ?%elem_of_nil|].
  intros (r1 & Hk & Hset)%bind_Some k. rewrite fmap_cons, elem_of_cons. intros [->|Hin]; [by apply set_known in Hk as [? _]|by eapply IH].
Qed.
Lemma members_few l r r' : set_members l r = Some r' → NoDup l.*1 → (length l < S (length known))%nat.
Proof.
  intros Hset Hd. rewrite <- (length_fmap fst l). apply Nat.lt_succ_r, (submseteq_length l.*1 known), NoDup_submseteq; [done|].
  by eapply set_members_known.
Qed.

(** An object read by its tokens is the object of the document. *)
Lemma read_object_exact open d r0 r seen d' :
  read_object messages known field open d r0 = Ok (r, seen, d')
  ↔ ∃ l, decode_next d = Some (JObj l, d') ∧ seen = l.*1 ∧ NoDup l.*1 ∧ set_members l r0 = Some r.
Proof.
  unfold read_object. split.
  - destruct (next_token d) as [[tok d1]|] eqn:E; [|done]. destruct tok as [c| | | |]; try done. destruct (Ascii.eqb c "{") eqn:Ec; [|done]. intros Hr.
    destruct (fields_members _ _ _ _ _ _ _ Hr (2 * remaining d1 + 1) (le_n _)) as (l & Hl & -> & Hd & _ & Hset & Hdepth).
    exists l. split_and!; [|done|done|done]. apply (read_decode_next _ _ _ (S (2 * remaining d1 + 1)) _ _ 0 E); [lia| |].
    + cbn [read_value]. change (maxNestingDepth <? 0 + 1) with false. rewrite Ec. change (0 + 1) with 1. by rewrite Hl.
    + change (depth_of (JObj l)) with (1 + object_depth l). unfold maxNestingDepth. lia.
  - intros (l & Hl & -> & Hd & Hset). pose proof Hl as ([tok d1] & Ht & Hv)%bind_Some. rewrite Ht. pose proof (next_token_shorter _ _ _ Ht) as Hs.
    unfold decode_fuel in Hv. destruct (2 * slen (d_input d) + 2)%nat as [|m] eqn:Em; [lia|]. cbn [read_value] in Hv. destruct tok as [c| | | |]; try discriminate Hv.
    destruct (maxNestingDepth <? 0 + 1); [discriminate Hv|]. destruct (Ascii.eqb c "{").
    + apply bind_Some in Hv as ([l' d2] & Hm & [= <- <-]).
      rewrite (members_fields m _ _ _ Hm) with (r' := r); [done|unfold remaining in *; lia|by eapply members_few|done|by intros k _ ?%elem_of_nil|done].
    + destruct (Ascii.eqb c "["); [|discriminate Hv]. apply bind_Some in Hv as ([l' d2] & _ & Hv). discriminate Hv.
Qed.
End members.

(** ** The documents the decoders accept *)

Definition member {A} (f : json → option A) (l : list (string * json)) (key : string) : option A := assoc key l ≫= f.

(** One header: an object of a name and a value. *)
Definition document_header (j : json) : option (string * string) :=
  match j with
  | JObj l =>
      if exact_fields l.*1 ["name"; "value"] then
        let? name := member as_text l "name" in let? value := member as_text l "value" in Some (name, value)
      else None
  | _ => None
  end.
Definition document_headers (j : json) : option (list (string * string)) :=
  match j with JArr l => if Z.of_nat (length l) <=? AlphaHTTPMaxHeaders then mapM document_header l else None | _ => None end.

(** The answer of the helper: seven members of a success, two of a failure. *)
Definition document_response (j : json) : option httpHelperResponse :=
  match j with
  | JObj l =>
      let? ok := member as_bool l "ok" in
      if (ok : bool) then
        if exact_fields l.*1 success_keys then
          let? status := member as_int l "status" in let? headers := member document_headers l "headers" in
          let? body := member as_text l "bodyBase64" in let? bytes := member as_int l "bodyBytes" in
          let? truncated := member as_bool l "bodyTruncated" in let? duration := member as_int l "durationMillis" in
          Some (mk_response true "" status headers body bytes truncated duration)
        else None
      else if exact_fields l.*1 failure_keys then
        let? error := member as_text l "error" in Some (mk_response false error 0 [] "" 0 false 0)
      else None
  | _ => None
  end.

Lemma as_text_flat j s : as_text j = Some s → depth_of j = 0. Proof. by destruct j. Qed.
Lemma as_bool_flat j b : as_bool j = Some b → depth_of j = 0. Proof. by destruct j. Qed.
Lemma as_int_flat j z : as_int j = Some z → depth_of j = 0. Proof. by destruct j. Qed.

(** A member read with [decode_as] and put into the values read so far. *)
Lemma decode_put {A R} (f : json → option A) message (put : A → R) d r d' :
  (let! (value, d) := decode_as f message d in Ok (put value, d)) = Ok (r, d')
  ↔ ∃ j, decode_next d = Some (j, d') ∧ (let? a := f j in Some (put a)) = Some r.
Proof.
  split.
  - intros ([a d1] & (j & Hj & Ha)%decode_as_ok & [= <- <-])%bind_Ok. exists j. split; [done|by rewrite Ha].
  - intros (j & Hj & (a & Ha & [= <-])%bind_Some). rewrite (proj2 (decode_as_ok f message d a d')); [done|]. by exists j.
Qed.

(** *** Headers *)

Definition header_set (key : string) (j : json) (header : string * string) : option (string * string) :=
  if key =s "name" then let? value := as_text j in Some (value, header.2)
  else if key =s "value" then let? value := as_text j in Some (header.1, value)
  else None.
Lemma header_field_set key h d h' d' :
  header_field key h d = Ok (h', d') ↔ ∃ j, decode_next d = Some (j, d') ∧ header_set key j h = Some h'.
Proof.
  unfold header_field, header_set. destruct (key =s "name"); [exact (decode_put as_text _ (λ v, (v, h.2)) d h' d')|].
  destruct (key =s "value"); [exact (decode_put as_text _ (λ v, (h.1, v)) d h' d')|]. split; [done|by intros (j & _ & ?)].
Qed.
Lemma header_set_known key j h h' : header_set key j h = Some h' → key ∈ ["name"; "value"] ∧ depth_of j <= 2.
Proof.
  unfold header_set. destruct (String.eqb_spec key "name") as [->|].
  { intros (v & Hv%as_text_flat & _)%bind_Some. split; [set_solver|lia]. }
  destruct (String.eqb_spec key "value") as [->|]; [|done]. intros (v & Hv%as_text_flat & _)%bind_Some. split; [set_solver|lia].
Qed.

Lemma header_members l h :
  NoDup l.*1 ∧ set_members header_set l ("", "") = Some h ∧ length l.*1 = 2%nat ↔ document_header (JObj l) = Some h.
Proof.
  unfold document_header, exact_fields. destruct l as [|[k1 j1] [|[k2 j2] [|p l]]]; [by split; [intros (_ & _ & ?)|]..| |by split; [intros (_ & _ & ?)|]].
  cbn [fmap list_fmap fst length Nat.eqb andb forallb set_members]. unfold one_of, member, header_set. cbn [existsb assoc].
  rewrite NoDup_cons, list_elem_of_singleton, !orb_false_r, (String.eqb_sym "name" k1), (String.eqb_sym "name" k2), (String.eqb_sym "value" k1), (String.eqb_sym "value" k2).
  destruct (k1 =s "name") eqn:E1, (k2 =s "name") eqn:E2, (k1 =s "value") eqn:E3, (k2 =s "value") eqn:E4;
    repeat match goal with H : String.eqb _ _ = true |- _ => apply String.eqb_eq in H end; subst; try discriminate; cbn [orb andb mbind option_bind];
    try (destruct (as_text j1); cbn [mbind option_bind fst snd]); try (destruct (as_text j2); cbn [mbind option_bind fst snd]);
    (split; [intros ([Hn _] & Hs & _); first [exact Hs|discriminate Hs|by destruct Hn]
            |intros Hs; try discriminate Hs; split_and!; first [exact Hs|apply NoDup_singleton|done]]).
Qed.

Lemma header_exact d h d' :
  decodeHTTPHelperHeader d = Ok (h, d') ↔ ∃ j, decode_next d = Some (j, d') ∧ document_header j = Some h.
Proof.
  pose proof (read_object_exact header_messages ["name"; "value"] header_field header_set header_field_set header_set_known
    "trusted HTTP helper control header must be an object" d ("", "")) as Hobject.
  unfold decodeHTTPHelperHeader. split.
  - intros ([[h1 seen] d1] & Ho & Hr)%bind_Ok. apply Hobject in Ho as (l & Hl & -> & Hd & Hset).
    destruct (Nat.eqb_spec (length l.*1) 2) as [Hlen|]; [|discriminate Hr]. injection Hr as -> ->. exists (JObj l). split; [done|]. by apply header_members.
  - intros (j & Hj & Hh). destruct j as [| | | | |l]; try discriminate Hh. pose proof (proj2 (header_members l h) Hh) as (Hd & Hset & Hlen).
    rewrite (proj2 (Hobject h l.*1 d')); [|by exists l]. cbn [bind_result]. by rewrite Hlen.
Qed.

Lemma document_header_shallow j h : document_header j = Some h → depth_of j <= 1.
Proof.
  intros Hh. destruct j as [| | | | |l]; try discriminate Hh. pose proof (proj2 (header_members l h) Hh) as (_ & Hset & _). clear Hh.
  change (depth_of (JObj l)) with (1 + object_depth l). enough (object_depth l <= 0) by lia. revert Hset. generalize ("", ""). clear.
  induction l as [|[k j] l IH]; intros h0; [done|]. cbn [set_members]. intros (h1 & Hk & Hset)%bind_Some. rewrite object_depth_cons. cbn [snd].
  specialize (IH _ Hset). enough (depth_of j <= 0) by lia. unfold header_set in Hk.
  destruct (k =s "name"); [|destruct (k =s "value"); [|done]]; apply bind_Some in Hk as (v & Hv%as_text_flat & _); lia.
Qed.

(** *** The array of headers *)

Lemma headers_elements n : ∀ d hs d', helper_headers n d = Ok (hs, d') → ∀ m, (2 * remaining d + 1 <= m)%nat →
  ∃ l, read_elements m d 1 = Some (l, d') ∧ mapM document_header l = Some hs ∧ (length l <= n)%nat ∧ array_depth l <= 1.
Proof.
  induction n as [|n IH]; intros d hs d' Hr m Hm; (destruct m as [|m]; [lia|]); cbn [helper_headers] in Hr; cbn [read_elements]; destruct (more d); try discriminate Hr.
  1, 3: destruct (next_token d) as [[[c| | | |] d1]|]; try discriminate Hr; destruct (Ascii.eqb c "]"); [|discriminate Hr];
    injection Hr as <- ->; exists []; split_and!; [done|done|cbn; lia|done].
  apply bind_Ok in Hr as ([h d1] & (j & Hj & Hh)%header_exact & Hr). apply bind_Ok in Hr as ([hs' d2] & Hr & [= <- <-]).
  pose proof (document_header_shallow _ _ Hh) as Hdepth.
  destruct (decode_next_read _ _ _ 1 Hj) as (tok & d3 & Ht & Hv); [unfold maxNestingDepth; lia|]. rewrite Ht. cbn [mbind option_bind].
  apply next_token_shorter in Ht. rewrite Hv by lia. cbn [mbind option_bind]. pose proof (read_value_shorter _ _ _ _ _ _ (Hv _ (le_n _))) as Hs.
  destruct (IH _ _ _ Hr m) as (l & -> & Hl & Hlen & Hdl); [lia|]. cbn [mbind option_bind]. exists (j :: l). split_and!; [done| |cbn; lia|rewrite array_depth_cons; lia].
  cbn [mapM]. by rewrite Hh, Hl.
Qed.
Lemma elements_headers m : ∀ d l d', read_elements m d 1 = Some (l, d') → (2 * remaining d + 1 <= m)%nat →
  ∀ n hs, (length l <= n)%nat → mapM document_header l = Some hs → helper_headers n d = Ok (hs, d').
Proof.
  induction m as [|m IH]; intros d l d'; [done|]. cbn [read_elements]. intros Hl Hm n hs Hn Hh.
  destruct (more d) eqn:Em; [|by destruct n; cbn [helper_headers]; rewrite Em; destruct (next_token d) as [[[c| | | |] d1]|]; try discriminate Hl;
    destruct (Ascii.eqb c "]"); try discriminate Hl; injection Hl as <- <-; injection Hh as <-].
  apply bind_Some in Hl as ([tok d1] & Ht & ([j d2] & Hj & ([l' d3] & Hl & [= <- <-])%bind_Some)%bind_Some). pose proof (next_token_shorter _ _ _ Ht) as Hs.
  destruct n as [|n]; [cbn in Hn; lia|]. cbn [helper_headers length] in *. rewrite Em. cbn [mapM] in Hh. apply bind_Some in Hh as (h & Hh & (hs' & Hhs & [= <-])%bind_Some).
  pose proof (document_header_shallow _ _ Hh) as Hdepth. pose proof (read_value_shorter _ _ _ _ _ _ Hj) as Hs2.
  rewrite (proj2 (header_exact d h d2)); [cbn [bind_result]|].
  - by rewrite (IH _ _ _ Hl) with (hs := hs'); [|lia|lia|].
  - exists j. split; [|done]. apply (read_decode_next _ _ _ m _ _ 1 Ht); [lia|done|unfold maxNestingDepth; lia].
Qed.

Lemma helper_headers_exact d hs d' :
  decodeHTTPHelperHeaders d = Ok (hs, d') ↔ ∃ j, decode_next d = Some (j, d') ∧ document_headers j = Some hs.
Proof.
  unfold decodeHTTPHelperHeaders, document_headers. split.
  - destruct (next_token d) as [[[c| | | |] d1]|] eqn:E; try done. destruct (Ascii.eqb c "[") eqn:Ec; [|done]. intros Hr.
    destruct (headers_elements _ _ _ _ Hr (2 * remaining d1 + 1) (le_n _)) as (l & Hl & Hh & Hlen & Hdepth). exists (JArr l). split.
    + apply (read_decode_next _ _ _ (S (2 * remaining d1 + 1)) _ _ 0 E); [lia| |].
      * cbn [read_value]. change (maxNestingDepth <? 0 + 1) with false. rewrite Ec. apply Ascii.eqb_eq in Ec as ->. cbn [Ascii.eqb Bool.eqb].
        change (0 + 1) with 1. by rewrite Hl.
      * change (depth_of (JArr l)) with (1 + array_depth l). unfold maxNestingDepth. lia.
    + by destruct (Z.leb_spec (Z.of_nat (length l)) AlphaHTTPMaxHeaders); [|unfold AlphaHTTPMaxHeaders in *; lia].
  - intros (j & Hj & Hh). destruct j as [| | | |l|]; try discriminate Hh. destruct (Z.leb_spec (Z.of_nat (length l)) AlphaHTTPMaxHeaders); [|discriminate Hh].
    apply bind_Some in Hj as ([tok d1] & Ht & Hv). rewrite Ht. pose proof (next_token_shorter _ _ _ Ht) as Hs.
    unfold decode_fuel in Hv. destruct (2 * slen (d_input d) + 2)%nat as [|m] eqn:Em; [lia|]. cbn [read_value] in Hv. destruct tok as [c| | | |]; try discriminate Hv.
    destruct (maxNestingDepth <? 0 + 1); [discriminate Hv|]. destruct (Ascii.eqb c "{"); [by apply bind_Some in Hv as ([? ?] & _ & Hv)|].
    destruct (Ascii.eqb c "["); [|discriminate Hv]. apply bind_Some in Hv as ([l' d2] & Hm & [= <- <-]).
    apply (elements_headers m _ _ _ Hm); [unfold remaining in *; lia|lia|done].
Qed.
Lemma document_headers_shallow j hs : document_headers j = Some hs → depth_of j <= 2.
Proof.
  unfold document_headers. destruct j as [| | | |l|]; try done. destruct (_ <=? _); [|done]. change (depth_of (JArr l)) with (1 + array_depth l).
  revert hs. induction l as [|j l IH]; intros hs; [done|]. cbn [mapM]. intros (h & Hh%document_header_shallow & (hs' & Hl%IH & _)%bind_Some)%bind_Some.
  rewrite array_depth_cons. lia.
Qed.

(** *** The response *)

Definition response_set (key : string) (j : json) (response : httpHelperResponse) : option httpHelperResponse :=
  let '(mk_response ok error status headers body bytes truncated duration) := response in
  if key =s "ok" then let? v := as_bool j in Some (mk_response v error status headers body bytes truncated duration)
  else if key =s "error" then let? v := as_text j in Some (mk_response ok v status headers body bytes truncated duration)
  else if key =s "status" then let? v := as_int j in Some (mk_response ok error v headers body bytes truncated duration)
  else if key =s "headers" then let? v := document_headers j in Some (mk_response ok error status v body bytes truncated duration)
  else if key =s "bodyBase64" then let? v := as_text j in Some (mk_response ok error status headers v bytes truncated duration)
  else if key =s "bodyBytes" then let? v := as_int j in Some (mk_response ok error status headers body v truncated duration)
  else if key =s "bodyTruncated" then let? v := as_bool j in Some (mk_response ok error status headers body bytes v duration)
  else if key =s "durationMillis" then let? v := as_int j in Some (mk_response ok error status headers body bytes truncated v)
  else None.

Lemma response_field_set key r d r' d' :
  response_field key r d = Ok (r', d') ↔ ∃ j, decode_next d = Some (j, d') ∧ response_set key j r = Some r'.
Proof.
  unfold response_field, response_set. destruct r as [ok error status headers body bytes truncated duration].
  destruct (key =s "ok"); [apply (decode_put as_bool _ (λ v, mk_response v _ _ _ _ _ _ _))|].
  destruct (key =s "error"); [apply (decode_put as_text _ (λ v, mk_response _ v _ _ _ _ _ _))|].
  destruct (key =s "status"); [apply (decode_put as_int _ (λ v, mk_response _ _ v _ _ _ _ _))|].
  destruct (key =s "headers").
  { split.
    - intros ([v d1] & (j & Hj & Hv)%helper_headers_exact & [= <- <-])%bind_Ok. exists j. split; [done|by rewrite Hv].
    - intros (j & Hj & (v & Hv & [= <-])%bind_Some). rewrite (proj2 (helper_headers_exact d v d')); [done|]. by exists j. }
  destruct (key =s "bodyBase64"); [apply (decode_put as_text _ (λ v, mk_response _ _ _ _ v _ _ _))|].
  destruct (key =s "bodyBytes"); [apply (decode_put as_int _ (λ v, mk_response _ _ _ _ _ v _ _))|].
  destruct (key =s "bodyTruncated"); [apply (decode_put as_bool _ (λ v, mk_response _ _ _ _ _ _ v _))|].
  destruct (key =s "durationMillis"); [apply (decode_put as_int _ (λ v, mk_response _ _ _ _ _ _ _ v))|].
  split; [done|by intros (j & _ & ?)].
Qed.

(** Which value a member of that name must have. *)
Definition response_value (key : string) (j : json) : Prop :=
  (key ∈ ["ok"; "bodyTruncated"] ∧ is_Some (as_bool j)) ∨ (key ∈ ["error"; "bodyBase64"] ∧ is_Some (as_text j))
  ∨ (key ∈ ["status"; "bodyBytes"; "durationMillis"] ∧ is_Some (as_int j)) ∨ (key = "headers" ∧ is_Some (document_headers j)).
Lemma response_set_value key j r : is_Some (response_set key j r) ↔ response_value key j.
Proof.
  unfold response_set, response_value. destruct r as [ok error status headers body bytes truncated duration]. rewrite !elem_of_cons, !elem_of_nil. unfold is_Some.
  repeat match goal with |- context [key =s ?k] => destruct (String.eqb_spec key k) as [->|] end;
    (split; [intros (r & Hr); try (apply bind_Some in Hr as (v & Hv & _)); try discriminate Hr; eauto 12
            |intros [[Hk (v & Hv)]|[[Hk (v & Hv)]|[[Hk (v & Hv)]|[Hk (v & Hv)]]]]; try (rewrite Hv; eexists; reflexivity); naive_solver]).
Qed.
Lemma response_set_known key j r r' : response_set key j r = Some r' → key ∈ response_keys ∧ depth_of j <= 2.
Proof.
  intros Hr. assert (is_Some (response_set key j r)) as Hv by by exists r'. apply response_set_value in Hv.
  destruct Hv as [[Hk (v & Hv%as_bool_flat)]|[[Hk (v & Hv%as_text_flat)]|[[Hk (v & Hv%as_int_flat)]|[-> (v & Hv%document_headers_shallow)]]]];
    (split; [unfold response_keys; set_solver|lia]).
Qed.

(** What a field holds after the members: the value of the member of its name. *)
Lemma set_member {R A} (set : string → json → R → option R) (f : json → option A) (proj : R → A) key :
  (∀ k j r r', set k j r = Some r' → if k =s key then f j = Some (proj r') else proj r' = proj r) →
  ∀ l r r', NoDup l.*1 → set_members set l r = Some r' →
  match assoc key l with Some j => f j = Some (proj r') | None => proj r' = proj r end.
Proof.
  intros Hset. induction l as [|[k j] l IH]; intros r r'; cbn [set_members assoc]; [by intros _ [= ->]|].
  rewrite fmap_cons. intros [Hk Hd]%NoDup_cons (r1 & H1 & Hl)%bind_Some. specialize (Hset _ _ _ _ H1). specialize (IH _ _ Hd Hl).
  destruct (String.eqb_spec k key) as [->|]; [|destruct (assoc key l); [exact IH|by rewrite IH]].
  cbn [fst] in Hk. destruct (assoc key l) as [i|] eqn:E; [|by rewrite IH].
  apply assoc_In in E. destruct Hk. apply list_elem_of_fmap. by exists (key, i).
Qed.

Definition member_or {A} (f : json → option A) (l : list (string * json)) (key : string) (v v0 : A) : Prop :=
  match assoc key l with Some j => f j = Some v | None => v = v0 end.
Lemma member_in {A} (f : json → option A) l key v v0 : member_or f l key v v0 → key ∈ l.*1 → member f l key = Some v.
Proof. unfold member_or, member. destruct (assoc key l) eqn:E; [done|]. by intros _ Hin; apply assoc_None_iff in E. Qed.
Lemma member_out {A} (f : json → option A) l key v v0 : member_or f l key v v0 → key ∉ l.*1 → v = v0.
Proof. unfold member_or. intros Hm Hout. by rewrite (proj2 (assoc_None_iff key l) Hout) in Hm. Qed.

Ltac response_projection :=
  intros k j [ok error status headers body bytes truncated duration] r'; unfold response_set;
  repeat match goal with |- context [k =s ?key] => destruct (String.eqb_spec k key) as [->|] end;
  try done; intros (v & Hv & [= <-])%bind_Some; (exact Hv || reflexivity).
Lemma response_members l r : NoDup l.*1 → set_members response_set l no_response = Some r →
  (member_or as_bool l "ok" (hr_OK r) false ∧ member_or as_text l "error" (hr_Error r) "" ∧ member_or as_int l "status" (hr_Status r) 0
   ∧ member_or document_headers l "headers" (hr_Headers r) [])
  ∧ member_or as_text l "bodyBase64" (hr_BodyBase64 r) "" ∧ member_or as_int l "bodyBytes" (hr_BodyBytes r) 0
    ∧ member_or as_bool l "bodyTruncated" (hr_BodyTruncated r) false ∧ member_or as_int l "durationMillis" (hr_DurationMillis r) 0.
Proof.
  intros Hd Hs. split_and!.
  - apply (set_member response_set as_bool hr_OK "ok") in Hs; [exact Hs|response_projection|exact Hd].
  - apply (set_member response_set as_text hr_Error "error") in Hs; [exact Hs|response_projection|exact Hd].
  - apply (set_member response_set as_int hr_Status "status") in Hs; [exact Hs|response_projection|exact Hd].
  - apply (set_member response_set document_headers hr_Headers "headers") in Hs; [exact Hs|response_projection|exact Hd].
  - apply (set_member response_set as_text hr_BodyBase64 "bodyBase64") in Hs; [exact Hs|response_projection|exact Hd].
  - apply (set_member response_set as_int hr_BodyBytes "bodyBytes") in Hs; [exact Hs|response_projection|exact Hd].
  - apply (set_member response_set as_bool hr_BodyTruncated "bodyTruncated") in Hs; [exact Hs|response_projection|exact Hd].
  - apply (set_member response_set as_int hr_DurationMillis "durationMillis") in Hs; [exact Hs|response_projection|exact Hd].
Qed.

(** Exactly the required names, each once. *)
Lemma exact_fields_perm seen required : NoDup required → exact_fields seen required = true ↔ seen ≡ₚ required.
Proof.
  unfold exact_fields. intros Hd. split.
  - intros [Hlen%Nat.eqb_eq Hall]%andb_prop. symmetry. apply submseteq_length_Permutation; [|lia]. apply NoDup_submseteq; [done|].
    intros x Hx. rewrite forallb_forall in Hall. by apply one_of_In, Hall, list_elem_of_In.
  - intros Hp. rewrite (Permutation_length Hp), Nat.eqb_refl. apply forallb_forall. intros x Hx%list_elem_of_In. apply one_of_In. by rewrite Hp.
Qed.
Lemma success_distinct : NoDup success_keys. Proof. by apply (bool_decide_unpack _). Qed.
Lemma failure_distinct : NoDup failure_keys. Proof. by apply (bool_decide_unpack _). Qed.

Lemma document_of_members l r : NoDup l.*1 → set_members response_set l no_response = Some r → "ok" ∈ l.*1 →
  exact_fields l.*1 (if hr_OK r then success_keys else failure_keys) = true → document_response (JObj l) = Some r.
Proof.
  intros Hd Hs Hok Hx. destruct (response_members _ _ Hd Hs) as ((H1 & H2 & H3 & H4) & H5 & H6 & H7 & H8). unfold document_response.
  rewrite (member_in _ _ _ _ _ H1 Hok). cbn [mbind option_bind]. destruct r as [ok error status headers body bytes truncated duration]. cbn in *.
  destruct ok; rewrite Hx.
  - apply exact_fields_perm in Hx; [|exact success_distinct].
    rewrite (member_in _ _ _ _ _ H3), (member_in _ _ _ _ _ H4), (member_in _ _ _ _ _ H5), (member_in _ _ _ _ _ H6), (member_in _ _ _ _ _ H7), (member_in _ _ _ _ _ H8)
      by (rewrite Hx; unfold success_keys; set_solver). cbn [mbind option_bind].
    by rewrite (member_out _ _ _ _ _ H2) by (rewrite Hx; unfold success_keys; set_solver).
  - apply exact_fields_perm in Hx; [|exact failure_distinct]. rewrite (member_in _ _ _ _ _ H2) by (rewrite Hx; unfold failure_keys; set_solver). cbn [mbind option_bind].
    rewrite (member_out _ _ _ _ _ H3), (member_out _ _ _ _ _ H4), (member_out _ _ _ _ _ H5), (member_out _ _ _ _ _ H6), (member_out _ _ _ _ _ H7), (member_out _ _ _ _ _ H8)
      by (rewrite Hx; unfold failure_keys; set_solver). done.
Qed.

Lemma members_settable l : (∀ k j, (k, j) ∈ l → response_value k j) → ∀ r, ∃ r', set_members response_set l r = Some r'.
Proof.
  induction l as [|[k j] l IH]; intros Hv r; cbn [set_members]; [by exists r|].
  destruct (proj2 (response_set_value k j r) (Hv _ _ (list_elem_of_here _ _))) as [r1 ->]. cbn [mbind option_bind].
  apply IH. intros k' j' Hin. apply Hv. by apply list_elem_of_further.
Qed.
Lemma member_value {A} (f : json → option A) l k j v : NoDup l.*1 → (k, j) ∈ l → member f l k = Some v → f j = Some v.
Proof. unfold member. intros Hd Hin. by rewrite (assoc_NoDup _ _ _ Hd Hin). Qed.

Lemma members_of_document l r : document_response (JObj l) = Some r →
  NoDup l.*1 ∧ set_members response_set l no_response = Some r ∧ "ok" ∈ l.*1
  ∧ exact_fields l.*1 (if hr_OK r then success_keys else failure_keys) = true.
Proof.
  intros Hr. pose proof Hr as Hdoc. unfold document_response in Hr. apply bind_Some in Hr as (ok & Hok & Hr).
  assert (NoDup l.*1 ∧ "ok" ∈ l.*1 ∧ exact_fields l.*1 (if ok then success_keys else failure_keys) = true ∧ ∀ k j, (k, j) ∈ l → response_value k j)
    as (Hd & Hin & Hx & Hvalues).
  { destruct ok.
    - destruct (exact_fields l.*1 success_keys) eqn:Hx; [|done]. pose proof Hx as Hp. apply exact_fields_perm in Hp; [|exact success_distinct].
      assert (NoDup l.*1) as Hd by (rewrite Hp; exact success_distinct).
      apply bind_Some in Hr as (v1 & H1 & (v2 & H2 & (v3 & H3 & (v4 & H4 & (v5 & H5 & (v6 & H6 & _)%bind_Some)%bind_Some)%bind_Some)%bind_Some)%bind_Some).
      split_and!; [done|rewrite Hp; unfold success_keys; set_solver|done|]. intros k j Hk.
      assert (k ∈ success_keys) as Hkey by (rewrite <- Hp; apply list_elem_of_fmap; by exists (k, j)). unfold response_value, is_Some.
      unfold success_keys in Hkey. rewrite !elem_of_cons, elem_of_nil in Hkey.
      destruct Hkey as [->|[->|[->|[->|[->|[->|[->|[]]]]]]]];
        [left|right; right; left|right; right; right|right; left|right; right; left|left|right; right; left];
        (split; [first [done|set_solver]|eexists; eapply member_value; eassumption]).
    - destruct (exact_fields l.*1 failure_keys) eqn:Hx; [|done]. pose proof Hx as Hp. apply exact_fields_perm in Hp; [|exact failure_distinct].
      assert (NoDup l.*1) as Hd by (rewrite Hp; exact failure_distinct). apply bind_Some in Hr as (v1 & H1 & _).
      split_and!; [done|rewrite Hp; unfold failure_keys; set_solver|done|]. intros k j Hk.
      assert (k ∈ failure_keys) as Hkey by (rewrite <- Hp; apply list_elem_of_fmap; by exists (k, j)). unfold response_value, is_Some.
      unfold failure_keys in Hkey. rewrite !elem_of_cons, elem_of_nil in Hkey.
      destruct Hkey as [->|[->|[]]]; [left|right; left]; (split; [set_solver|eexists; eapply member_value; eassumption]). }
  destruct (members_settable l Hvalues no_response) as [r' Hset]. destruct (response_members _ _ Hd Hset) as ((H1 & _) & _).
  pose proof (member_in _ _ _ _ _ H1 Hin) as Hok'. rewrite Hok in Hok'. injection Hok' as ->.
  pose proof (document_of_members _ _ Hd Hset Hin Hx) as Hdoc'. rewrite Hdoc in Hdoc'. by injection Hdoc' as ->.
Qed.

(** C36: the runner accepts an answer of the HTTP helper exactly when the answer
    is one JSON document, an object of exactly the members of a success or of a
    failure, each once and of its type; and what it reads is that document. *)
Theorem helper_response_exact raw r :
  decodeHTTPHelperResponse raw = Ok r ↔ ∃ j, read_document raw = Some j ∧ document_response j = Some r.
Proof.
  pose proof (read_object_exact response_messages response_keys response_field response_set response_field_set response_set_known
    "trusted HTTP helper control must be one JSON object" (new_decoder raw) no_response) as Hobject.
  unfold decodeHTTPHelperResponse, read_document. change (read_first raw) with (decode_next (new_decoder raw)). split.
  - intros ([[r1 seen] d] & Ho & Hr)%bind_Ok. apply Hobject in Ho as (l & Hl & -> & Hd & Hset). exists (JObj l). rewrite Hl. cbn [mbind option_bind].
    destruct (at_eof d); [|discriminate Hr]. split; [done|]. destruct (one_of "ok" l.*1) eqn:Hok; [|discriminate Hr]. apply one_of_In in Hok. cbn [negb] in Hr.
    destruct (hr_OK r1) eqn:E; (destruct (exact_fields l.*1 _) eqn:Hx in Hr; [|discriminate Hr]); injection Hr as <-;
      (apply document_of_members; [exact Hd|exact Hset|exact Hok|by rewrite E]).
  - intros (j & Hj & Hdoc). destruct j as [| | | | |l]; try discriminate Hdoc. apply bind_Some in Hj as ([j d] & Hl & Heof).
    destruct (at_eof d) eqn:Ed; [|discriminate Heof]. injection Heof as ->. destruct (members_of_document _ _ Hdoc) as (Hd & Hset & Hok & Hx).
    rewrite (proj2 (Hobject r l.*1 d)); [|by exists l]. cbn [bind_result]. rewrite Ed, (proj2 (one_of_In _ _) Hok). cbn [negb].
    destruct (hr_OK r); by rewrite Hx.
Qed.
