(* ===== verification/JourneyAssertions.v ===== *)
(** * Evaluating the assertions of a journey (internal/execution: http_assertions.go, assertions.go, structured_json.go)

    The result of a response assertion on what the trusted driver recorded, the
    schemas a prepared run holds, the list of results of an HTTP journey, and
    the error a list of results amounts to. *)

From S2P Require Import Prelude Json StructuredJson SemanticEqual JsonPath JsonUnmarshal GoValue Durations Domain GoPath GoStrings CleanupInventory HttpContract PlanTypes ManifestValidate SchemaPolicy SchemaInstance SchemaSource PlanDocument ExecutionPlan Engine Backend.

Local Open Scope Z_scope.

Definition SeverityWarning := "warning".
Definition CodeCancelled := "CANCELLED".

(** ** A prepared run *)

Definition schema := json → library_verdict.
Record structuredJSONSchemaBinding := { sb_path : string; sb_digest : string; sb_dialect : string; sb_validatorVersion : string }.
#[export] Instance binding_eq_dec : EqDecision structuredJSONSchemaBinding.
Proof. solve_decision. Defined.
Record InputMount := { im_Name : string; im_SourcePath : string; im_ContainerPath : string; im_Type : string; im_ReadOnly : bool }.

(** The fields the journey reads.  [pr_schemas] is [None] for a nil map, and a
    schema is [None] when its pointer is nil. *)
Record PreparedRun := {
  pr_Backend : string; pr_RunID : string; pr_SourceSnapshotDir : string; pr_WorkspaceDir : string; pr_OutputsDir : string;
  pr_Inputs : list InputMount; pr_executionPlan : FullPlan; pr_sealed : bool;
  pr_schemas : option (list (structuredJSONSchemaBinding * option schema)) }.

Definition structuredJSONSchemaBindingFor (reference : PlanJSONSchemaRef) : result Error structuredJSONSchemaBinding :=
  let! _ := validateStructuredJSONSchemaRef reference in
  Ok {| sb_path := pjs_Path reference; sb_digest := pjs_Digest reference; sb_dialect := pjs_Dialect reference;
        sb_validatorVersion := pjs_ValidatorVersion reference |}.
Fixpoint lookup_binding (b : structuredJSONSchemaBinding) (l : list (structuredJSONSchemaBinding * option schema)) : option (option schema) :=
  match l with (k, s) :: l' => if bool_decide (k = b) then Some s else lookup_binding b l' | [] => None end.
Definition structuredJSONSchema (prepared : PreparedRun) (reference : PlanJSONSchemaRef) : option schema :=
  if negb (pr_sealed prepared) then None
  else
    match pr_schemas prepared, structuredJSONSchemaBindingFor reference with
    | Some schemas, Ok binding => mjoin (lookup_binding binding schemas)
    | _, _ => None
    end.

(** The texts of the kinds. *)
Definition kind_text (kind : ErrorKind) : string :=
  match kind with
  | ErrorInvalidLimits => "invalid-limits" | ErrorTooLarge => "too-large" | ErrorInvalidUTF8 => "invalid-utf8" | ErrorInvalidJSON => "invalid-json"
  | ErrorDuplicateKey => "duplicate-key" | ErrorDepthLimit => "depth-limit" | ErrorNodeLimit => "node-limit"
  | ErrorNumberExponentLimit => "number-exponent-limit" | ErrorInvalidPath => "invalid-path" | ErrorPathLimit => "path-limit"
  | ErrorUnsupportedValue => "unsupported-value" | ErrorSchemaPolicy => "schema-policy" | ErrorSchemaCompile => "schema-compile"
  | ErrorSchemaEvaluation => "schema-evaluation" | ErrorSchemaNotSatisfied => "schema-not-satisfied"
  end.

(** [Decode] and [CompilePath] always return ([StructuredJson.Decode_total],
    [JsonPath.compile_fuel]). *)
Definition decoded (raw : string) : result ErrorKind json := default (Err ErrorInvalidJSON) (Decode raw DefaultInstanceDecodeLimits).
Definition compiled (expression : string) : result ErrorKind Path := default (Err ErrorInvalidPath) (CompilePath expression).

(** ** Results *)

Definition blocked_result (id kind message : string) : AssertionResult :=
  {| ar_SchemaVersion := "1"; ar_ID := id; ar_Type := kind; ar_Required := true; ar_Expected := VNil; ar_Actual := VNil;
     ar_Status := "blocked"; ar_EvidenceRefs := Some []; ar_Message := message; ar_Repeat := 0; ar_DurationMillis := 0 |}.
Definition blockedOrderedHTTPAssertion (id assertionType : string) : AssertionResult :=
  blocked_result id assertionType "Ordered HTTP assertion step was not reached.".

(** What the driver recorded of a request. *)
Record trustedHTTPResponse := {
  rp_Status : Z; rp_Headers : list (string * string); rp_Body : string; rp_BodyBytes : Z; rp_BodyTruncated : bool; rp_DurationMillis : Z }.
Record httpExchange := { hx_Request : trustedHTTPRequest; hx_Response : trustedHTTPResponse }.

(** ** One response assertion

    The evaluation goes through the predicates in the order of the code, with
    the status, the message and the two maps so far. *)

Record evaluation := { ev_status : string; ev_message : string; ev_expected : list (string * any); ev_actual : list (string * any) }.
Definition expect (key : string) (v : any) (e : evaluation) : evaluation :=
  {| ev_status := ev_status e; ev_message := ev_message e; ev_expected := ev_expected e ++ [(key, v)]; ev_actual := ev_actual e |}.
Definition observed (key : string) (v : any) (e : evaluation) : evaluation :=
  {| ev_status := ev_status e; ev_message := ev_message e; ev_expected := ev_expected e; ev_actual := ev_actual e ++ [(key, v)] |}.
Definition judge (status message : string) (e : evaluation) : evaluation :=
  {| ev_status := status; ev_message := message; ev_expected := ev_expected e; ev_actual := ev_actual e |}.
Definition judge_unless_failed (status message : string) (e : evaluation) : evaluation :=
  if ev_status e =s "failed" then e else judge status message e.

Definition status_predicate (response : trustedHTTPResponse) (o : option Z) (e : evaluation) : evaluation :=
  match o with
  | None => e
  | Some status =>
      let e := observed "status" (VInt (rp_Status response)) (expect "status" (VInt status) e) in
      if negb (rp_Status response =? status) then judge "failed" "Trusted HTTP response status did not match." e else e
  end.
Definition header_matches (h : PlanHTTPHeaderAssertion) (header : string * string) : bool :=
  EqualFold header.1 (pha_Name h) && contains header.2 (pha_Contains h).
Definition header_predicate (response : trustedHTTPResponse) (o : option PlanHTTPHeaderAssertion) (e : evaluation) : evaluation :=
  match o with
  | None => e
  | Some h =>
      let e := expect "header" (VMap [("name", VStr (pha_Name h)); ("contains", VStr (pha_Contains h))]) e in
      let headerMatched := existsb (header_matches h) (rp_Headers response) in
      let e := observed "headerMatched" (VBool headerMatched) e in
      if negb headerMatched then judge "failed" "Trusted HTTP response headers did not match." e else e
  end.
Definition body_predicate (response : trustedHTTPResponse) (o : option string) (e : evaluation) : evaluation :=
  match o with
  | None => e
  | Some text =>
      let e := expect "substringCheck" (VMap [("configured", VBool true); ("valuePublished", VBool false)]) e in
      let bodyMatched := contains (rp_Body response) text in
      let e := observed "bodyTruncated" (VBool (rp_BodyTruncated response)) (observed "bodyContainsMatched" (VBool bodyMatched) e) in
      if bodyMatched then e
      else if rp_BodyTruncated response && (ev_status e !=s "failed")
      then judge "inconclusive" "Bounded HTTP body was truncated before absence could be established." e
      else judge "failed" "Trusted bounded HTTP response body did not match." e
  end.
Definition path_predicate (document : json) (o : option PlanJSONPathAssertion) (e : evaluation) : evaluation :=
  match o with
  | None => e
  | Some p =>
      let e := expect "jsonPath" (VMap [("path", VStr (pja_Path p))]) e in
      match compiled (pja_Path p), decoded (pja_Equals p) with
      | Ok path, Ok expectedValue =>
          let actualValue := Lookup path document in
          let found := is_some actualValue in
          let matched := match actualValue with Some v => SemanticEqual v expectedValue | None => false end in
          let e := observed "jsonPathMatched" (VBool matched) (observed "jsonPathFound" (VBool found) e) in
          if matched then e
          else judge "failed" (if found then "Trusted HTTP JSONPath value did not match." else "Trusted HTTP JSONPath did not resolve to a value.") e
      | _, _ =>
          judge_unless_failed "blocked" "Resolved HTTP JSONPath assertion could not be revalidated." (observed "jsonPathEvaluated" (VBool false) e)
      end
  end.
Definition schema_predicate (prepared : PreparedRun) (document : json) (o : option PlanJSONSchemaRef) (e : evaluation) : evaluation :=
  match o with
  | None => e
  | Some reference =>
      let e := expect "jsonSchema"
        (VMap [("path", VStr (pjs_Path reference)); ("digest", VStr (pjs_Digest reference)); ("dialect", VStr (pjs_Dialect reference))]) e in
      match structuredJSONSchema prepared reference with
      | None => judge_unless_failed "blocked" "Plan-bound JSON Schema was unavailable to the controller." (observed "jsonSchemaEvaluated" (VBool false) e)
      | Some s =>
          match Schema_Validate (Some s) document with
          | Ok _ => observed "jsonSchemaMatched" (VBool true) e
          | Err kind =>
              let e := observed "jsonSchemaMatched" (VBool false) e in
              if bool_decide (kind = ErrorSchemaNotSatisfied)
              then judge "failed" "Trusted HTTP response JSON did not satisfy the plan-bound schema." e
              else judge_unless_failed "inconclusive" "Controller-owned JSON Schema evaluation could not complete." e
          end
      end
  end.
Definition structured_predicate (prepared : PreparedRun) (response : trustedHTTPResponse) (spec : PlanHTTPResponseAssertion) (e : evaluation) : evaluation :=
  if negb (is_some (pra_JSONPath spec) || is_some (pra_JSONSchema spec)) then e
  else if rp_BodyTruncated response then
    judge_unless_failed "inconclusive" "Bounded HTTP body was truncated before structured JSON assertions could be evaluated."
      (observed "structuredJSONBodyTruncated" (VBool true) e)
  else
    match decoded (rp_Body response) with
    | Err _ => judge "failed" "Trusted complete HTTP response body is not bounded strict JSON." (observed "structuredJSONValid" (VBool false) e)
    | Ok document =>
        schema_predicate prepared document (pra_JSONSchema spec)
          (path_predicate document (pra_JSONPath spec) (observed "structuredJSONValid" (VBool true) e))
    end.

Definition evaluate_response (prepared : PreparedRun) (spec : PlanHTTPResponseAssertion) (response : trustedHTTPResponse) : evaluation :=
  structured_predicate prepared response spec
    (body_predicate response (pra_BodyContains spec)
       (header_predicate response (pra_Header spec)
          (status_predicate response (pra_Status spec)
             {| ev_status := "passed"; ev_message := "Trusted bounded HTTP response matched every declared predicate.";
                ev_expected := [("requestId", VStr (pra_RequestID spec))]; ev_actual := [("requestId", VStr (pra_RequestID spec))] |}))).

Definition evaluateHTTPResponseAssertion (prepared : PreparedRun) (assertion : PlanAssertion) (exchanges : gmap string httpExchange) : AssertionResult :=
  match pa_Response assertion with
  | None => blocked_result (pa_ID assertion) "http-response" "Resolved HTTP assertion has no response operation."
  | Some spec =>
      let base status message expected actual duration :=
        {| ar_SchemaVersion := "1"; ar_ID := pa_ID assertion; ar_Type := "http-response"; ar_Required := true; ar_Expected := VMap expected;
           ar_Actual := VMap actual; ar_Status := status; ar_EvidenceRefs := Some ["http-request:" +:+ pra_RequestID spec]; ar_Message := message;
           ar_Repeat := 0; ar_DurationMillis := duration |} in
      match exchanges !! pra_RequestID spec with
      | None =>
          let names := [("requestId", VStr (pra_RequestID spec))] in
          base "blocked" "The referenced HTTP request did not produce a trusted response." names names 0
      | Some exchange =>
          let e := evaluate_response prepared spec (hx_Response exchange) in
          base (ev_status e) (ev_message e) (ev_expected e) (ev_actual e) (rp_DurationMillis (hx_Response exchange))
      end
  end.

(** ** The results of an HTTP journey *)

(** The type of the result of an assertion that was not reached. *)
Definition ordered_type (assertion : PlanAssertion) : option string :=
  if is_some (pa_Response assertion) then Some "http-response"
  else if (pa_FileExists assertion !=s "") || is_some (pa_JSONFile assertion)
  then Some (if is_some (pa_JSONFile assertion) then "json-file" else "file-exists")
  else None.
Definition step_result (assertions : list (string * PlanAssertion)) (results : gmap string AssertionResult) (step : PlanHTTPDriverStep) : list AssertionResult :=
  if pds_AssertionID step =s "" then []
  else
    match assoc (pds_AssertionID step) assertions with
    | None => []
    | Some assertion =>
        match ordered_type assertion with
        | None => []
        | Some kind =>
            [match results !! pa_ID assertion with Some snapshot => snapshot | None => blockedOrderedHTTPAssertion (pa_ID assertion) kind end]
        end
    end.
Definition evaluateHTTPJourneyAssertions (prepared : PreparedRun) (assertionResults : gmap string AssertionResult) : list AssertionResult :=
  let plan := pr_executionPlan prepared in
  match fp_HTTPJourney plan with
  | None => []
  | Some journey => flat_map (step_result (assertion_map (fp_JourneyAssertions plan)) assertionResults) (phj_Steps journey)
  end.

(** ** The error of a list of results *)

Definition with_evidence (e : Error) (refs : slice string) : Error :=
  {| er_SchemaVersion := er_SchemaVersion e; er_Code := er_Code e; er_Phase := er_Phase e; er_Severity := er_Severity e; er_Message := er_Message e;
     er_Details := er_Details e; er_EvidenceRefs := refs; er_Suggestion := er_Suggestion e; er_Retryable := er_Retryable e; er_Cause := er_Cause e |}.
(** [cloneStrings]: no elements become a nil slice. *)
Definition cloneStrings (values : slice string) : slice string := match values with Some (v :: l) => Some (v :: l) | _ => None end.
Definition assertion_error (code message : string) (assertion : AssertionResult) : Error :=
  with_details (with_evidence (NewError code SeverityHigh message) (cloneStrings (ar_EvidenceRefs assertion))) [("assertionId", VStr (ar_ID assertion))].
Definition has_status (statuses : list string) (assertion : AssertionResult) : bool := one_of (ar_Status assertion) statuses.
Definition assertionFailure (assertions : list AssertionResult) : option Error :=
  match List.find (has_status ["failed"]) assertions with
  | Some assertion => Some (assertion_error CodeJourneyAssertionFailed "One or more required journey assertions failed." assertion)
  | None =>
      match List.find (has_status ["blocked"; "inconclusive"]) assertions with
      | Some assertion => Some (assertion_error CodeObserverIncomplete "One or more required journey assertions are inconclusive." assertion)
      | None => None
      end
  end.

(** ** What a response assertion means

    A predicate holds of a response, or is refuted by it, or neither: what is
    missing from a truncated body, a schema the run does not have and an
    evaluation that could not be completed decide nothing. *)

Section meaning.
Variables (prepared : PreparedRun) (response : trustedHTTPResponse).

Definition whole_body_decodes (document : json) : Prop := rp_BodyTruncated response = false ∧ decoded (rp_Body response) = Ok document.
Definition path_selects (document : json) (p : PlanJSONPathAssertion) : Prop :=
  ∃ path expected actual, compiled (pja_Path p) = Ok path ∧ decoded (pja_Equals p) = Ok expected ∧ Lookup path document = Some actual
    ∧ SemanticEqual actual expected = true.
Definition path_misses (document : json) (p : PlanJSONPathAssertion) : Prop :=
  ∃ path expected, compiled (pja_Path p) = Ok path ∧ decoded (pja_Equals p) = Ok expected
    ∧ match Lookup path document with Some actual => SemanticEqual actual expected = false | None => True end.
Definition schema_accepts (document : json) (reference : PlanJSONSchemaRef) : Prop :=
  ∃ s, structuredJSONSchema prepared reference = Some s ∧ Schema_Validate (Some s) document = Ok tt.
Definition schema_rejects (document : json) (reference : PlanJSONSchemaRef) : Prop :=
  ∃ s, structuredJSONSchema prepared reference = Some s ∧ Schema_Validate (Some s) document = Err ErrorSchemaNotSatisfied.

Record response_holds (spec : PlanHTTPResponseAssertion) : Prop := {
  ho_status : ∀ status, pra_Status spec = Some status → rp_Status response = status;
  ho_header : ∀ h, pra_Header spec = Some h → ∃ header, header ∈ rp_Headers response ∧ header_matches h header = true;
  ho_body : ∀ text, pra_BodyContains spec = Some text → contains (rp_Body response) text = true;
  ho_json : is_some (pra_JSONPath spec) || is_some (pra_JSONSchema spec) = true → ∃ document, whole_body_decodes document
    ∧ (∀ p, pra_JSONPath spec = Some p → path_selects document p) ∧ (∀ r, pra_JSONSchema spec = Some r → schema_accepts document r) }.

Inductive response_refuted (spec : PlanHTTPResponseAssertion) : Prop :=
  | refuted_status status : pra_Status spec = Some status → rp_Status response ≠ status → response_refuted spec
  | refuted_header h : pra_Header spec = Some h → Forall (λ header, header_matches h header = false) (rp_Headers response) → response_refuted spec
  | refuted_body text : pra_BodyContains spec = Some text → contains (rp_Body response) text = false → rp_BodyTruncated response = false →
      response_refuted spec
  | refuted_json kind : is_some (pra_JSONPath spec) || is_some (pra_JSONSchema spec) = true → rp_BodyTruncated response = false →
      decoded (rp_Body response) = Err kind → response_refuted spec
  | refuted_path p document : pra_JSONPath spec = Some p → whole_body_decodes document → path_misses document p → response_refuted spec
  | refuted_schema r document : pra_JSONSchema spec = Some r → whole_body_decodes document → schema_rejects document r → response_refuted spec.

(** *** One predicate after the other *)

Lemma absent_predicate {A} (e : evaluation) (holds refuted : A → Prop) :
  (ev_status e = "passed" ↔ ev_status e = "passed" ∧ ∀ a, None = Some a → holds a)
  ∧ (ev_status e = "failed" ↔ ev_status e = "failed" ∨ ∃ a, None = Some a ∧ refuted a).
Proof. split; [by split; [intros ?; split|intros [? _]]|by split; [left|intros [?|(a & ? & _)]]]. Qed.
Lemma present_all {A} (a : A) (P : A → Prop) : (∀ b, Some a = Some b → P b) ↔ P a.
Proof. split; [by intros Hp; apply Hp|by intros Hp b [= <-]]. Qed.
Lemma present_some {A} (a : A) (P : A → Prop) : (∃ b, Some a = Some b ∧ P b) ↔ P a.
Proof. split; [by intros (b & [= <-] & Hp)|by intros Hp; exists a]. Qed.
Lemma status_step o e :
  (ev_status (status_predicate response o e) = "passed" ↔ ev_status e = "passed" ∧ ∀ status, o = Some status → rp_Status response = status)
  ∧ (ev_status (status_predicate response o e) = "failed" ↔ ev_status e = "failed" ∨ ∃ status, o = Some status ∧ rp_Status response ≠ status).
Proof.
  destruct o as [status|]; cbn [status_predicate]; [|exact (absent_predicate _ _ _)].
  rewrite present_all, present_some.
  destruct (Z.eqb_spec (rp_Status response) status); cbn [negb judge observed expect ev_status]; intuition congruence.
Qed.
Lemma header_step o e :
  (ev_status (header_predicate response o e) = "passed"
   ↔ ev_status e = "passed" ∧ ∀ h, o = Some h → ∃ header, header ∈ rp_Headers response ∧ header_matches h header = true)
  ∧ (ev_status (header_predicate response o e) = "failed"
     ↔ ev_status e = "failed" ∨ ∃ h, o = Some h ∧ Forall (λ header, header_matches h header = false) (rp_Headers response)).
Proof.
  destruct o as [h|]; cbn [header_predicate]; [|exact (absent_predicate _ _ _)].
  assert (existsb (header_matches h) (rp_Headers response) = true ↔ ∃ header, header ∈ rp_Headers response ∧ header_matches h header = true) as Hyes.
  { rewrite existsb_exists. by setoid_rewrite list_elem_of_In. }
  assert (existsb (header_matches h) (rp_Headers response) = false ↔ Forall (λ header, header_matches h header = false) (rp_Headers response)) as Hno.
  { rewrite Forall_forall. setoid_rewrite list_elem_of_In. split.
    - intros Hf x Hx. apply not_true_iff_false. intros Ht. apply not_true_iff_false in Hf. apply Hf, existsb_exists. by exists x.
    - intros Hall. apply not_true_iff_false. rewrite existsb_exists. intros (x & Hx & Ht). by rewrite Hall in Ht. }
  rewrite present_all, present_some, <- Hyes, <- Hno.
  destruct (existsb (header_matches h) (rp_Headers response)); cbn [negb judge observed expect ev_status]; intuition congruence.
Qed.
Lemma body_step o e :
  (ev_status (body_predicate response o e) = "passed" ↔ ev_status e = "passed" ∧ ∀ text, o = Some text → contains (rp_Body response) text = true)
  ∧ (ev_status (body_predicate response o e) = "failed"
     ↔ ev_status e = "failed" ∨ ∃ text, o = Some text ∧ contains (rp_Body response) text = false ∧ rp_BodyTruncated response = false).
Proof.
  destruct o as [text|]; cbn [body_predicate]; [|exact (absent_predicate _ _ _)].
  rewrite present_all, present_some.
  destruct (contains (rp_Body response) text); cbn [judge observed expect ev_status]; [intuition congruence|].
  destruct (rp_BodyTruncated response); destruct (String.eqb_spec (ev_status e) "failed") as [Ef|Ef]; cbn [andb negb judge observed expect ev_status];
    intuition congruence.
Qed.
Lemma unless_failed status message e : status ≠ "passed" → status ≠ "failed" →
  ev_status (judge_unless_failed status message e) ≠ "passed" ∧ (ev_status (judge_unless_failed status message e) = "failed" ↔ ev_status e = "failed").
Proof. intros Hp Hf. unfold judge_unless_failed. destruct (String.eqb_spec (ev_status e) "failed") as [->|]; cbn [judge ev_status]; naive_solver. Qed.

Lemma path_decided document p path expected : compiled (pja_Path p) = Ok path → decoded (pja_Equals p) = Ok expected →
  let matched := match Lookup path document with Some actual => SemanticEqual actual expected | None => false end in
  (path_selects document p ↔ matched = true) ∧ (path_misses document p ↔ matched = false).
Proof.
  intros Hc Hd. cbn zeta. unfold path_selects, path_misses. rewrite Hc, Hd. split; split.
  - intros (q & x & actual & [= <-] & [= <-] & -> & Hs). exact Hs.
  - destruct (Lookup path document) as [actual|] eqn:E; [|done]. intros Hs. by exists path, expected, actual.
  - intros (q & x & [= <-] & [= <-] & Hm). by destruct (Lookup path document).
  - intros Hm. exists path, expected. by destruct (Lookup path document).
Qed.
Lemma path_undecided document p : (∀ path expected, compiled (pja_Path p) = Ok path → decoded (pja_Equals p) ≠ Ok expected) →
  ¬ path_selects document p ∧ ¬ path_misses document p.
Proof. intros Hn. split; [intros (q & x & _ & Hc & Hd & _)|intros (q & x & Hc & Hd & _)]; by apply (Hn q x Hc). Qed.

Lemma path_step document o e :
  (ev_status (path_predicate document o e) = "passed" ↔ ev_status e = "passed" ∧ ∀ p, o = Some p → path_selects document p)
  ∧ (ev_status (path_predicate document o e) = "failed" ↔ ev_status e = "failed" ∨ ∃ p, o = Some p ∧ path_misses document p).
Proof.
  destruct o as [p|]; cbn [path_predicate]; [|exact (absent_predicate _ _ _)]. rewrite present_all, present_some.
  destruct (compiled (pja_Path p)) as [path|] eqn:Ec; [destruct (decoded (pja_Equals p)) as [expected|] eqn:Ed|].
  - destruct (path_decided document p path expected Ec Ed) as [-> ->].
    destruct (match Lookup path document with Some actual => SemanticEqual actual expected | None => false end);
      cbn [judge observed expect ev_status]; intuition congruence.
  - destruct (path_undecided document p) as [Hs Hm]; [congruence|].
    match goal with |- context [judge_unless_failed ?s ?m ?e'] => destruct (unless_failed s m e') as [Hp Hf]; [done|done|] end.
    rewrite Hf; cbn [observed expect ev_status]; tauto.
  - destruct (path_undecided document p) as [Hs Hm]; [congruence|].
    match goal with |- context [judge_unless_failed ?s ?m ?e'] => destruct (unless_failed s m e') as [Hp Hf]; [done|done|] end.
    rewrite Hf; cbn [observed expect ev_status]; tauto.
Qed.
Lemma schema_decided document r s : structuredJSONSchema prepared r = Some s →
  (schema_accepts document r ↔ Schema_Validate (Some s) document = Ok tt)
  ∧ (schema_rejects document r ↔ Schema_Validate (Some s) document = Err ErrorSchemaNotSatisfied).
Proof. intros Hs. unfold schema_accepts, schema_rejects. rewrite Hs. by rewrite !present_some. Qed.
Lemma schema_step document o e :
  (ev_status (schema_predicate prepared document o e) = "passed" ↔ ev_status e = "passed" ∧ ∀ r, o = Some r → schema_accepts document r)
  ∧ (ev_status (schema_predicate prepared document o e) = "failed" ↔ ev_status e = "failed" ∨ ∃ r, o = Some r ∧ schema_rejects document r).
Proof.
  destruct o as [r|]; cbn [schema_predicate]; [|exact (absent_predicate _ _ _)]. rewrite present_all, present_some.
  destruct (structuredJSONSchema prepared r) as [s|] eqn:Es.
  - destruct (schema_decided document r s Es) as [-> ->].
    destruct (Schema_Validate (Some s) document) as [[]|kind]; [cbn [observed expect ev_status]; intuition congruence|].
    case_bool_decide as Hk; [subst; cbn [judge observed expect ev_status]; intuition congruence|].
    match goal with |- context [judge_unless_failed ?s ?m ?e'] => destruct (unless_failed s m e') as [Hp Hf]; [done|done|] end.
    rewrite Hf; cbn [observed expect ev_status]; intuition congruence.
  - assert (¬ schema_accepts document r ∧ ¬ schema_rejects document r) as [Ha Hr] by (split; intros (s & Hs & _); congruence).
    match goal with |- context [judge_unless_failed ?s ?m ?e'] => destruct (unless_failed s m e') as [Hp Hf]; [done|done|] end.
    rewrite Hf; cbn [observed expect ev_status]; tauto.
Qed.

Definition needs_json (spec : PlanHTTPResponseAssertion) : bool := is_some (pra_JSONPath spec) || is_some (pra_JSONSchema spec).
Lemma structured_step spec e :
  (ev_status (structured_predicate prepared response spec e) = "passed"
   ↔ ev_status e = "passed" ∧ (needs_json spec = true → ∃ document, whole_body_decodes document
       ∧ (∀ p, pra_JSONPath spec = Some p → path_selects document p) ∧ (∀ r, pra_JSONSchema spec = Some r → schema_accepts document r)))
  ∧ (ev_status (structured_predicate prepared response spec e) = "failed"
     ↔ ev_status e = "failed" ∨ needs_json spec = true ∧ rp_BodyTruncated response = false ∧
         ((∃ kind, decoded (rp_Body response) = Err kind)
          ∨ ∃ document, decoded (rp_Body response) = Ok document
              ∧ ((∃ p, pra_JSONPath spec = Some p ∧ path_misses document p) ∨ ∃ r, pra_JSONSchema spec = Some r ∧ schema_rejects document r))).
Proof.
  unfold structured_predicate, whole_body_decodes. fold (needs_json spec). destruct (needs_json spec); cbn [negb]; [|intuition congruence].
  destruct (rp_BodyTruncated response).
  { match goal with |- context [judge_unless_failed ?s ?m ?e'] => destruct (unless_failed s m e') as [Hp Hf]; [done|done|] end.
    rewrite Hf. cbn [observed ev_status]. split; [|intuition congruence]. split; [done|]. intros [_ Hj]. by destruct (Hj eq_refl) as (document & [[=] _] & _). }
  destruct (decoded (rp_Body response)) as [document|kind].
  - match goal with |- context [path_predicate document ?o ?e'] => destruct (path_step document o e') as [Pp Pf] end.
    match goal with |- context [schema_predicate prepared document ?o ?e'] => destruct (schema_step document o e') as [Sp Sf] end.
    rewrite Sp, Sf, Pp, Pf. cbn [observed ev_status]. split.
    + split; [intros [[He Hp] Hs]; split; [done|]; intros _; exists document; by split_and!|].
      intros [He Hj]. destruct (Hj eq_refl) as (document' & [_ [= <-]] & Hp & Hs). by split_and!.
    + split.
      * intros [[He|Hp]|Hs]; [by left|right; split_and!; [done|done|right; exists document; split; [done|by left]]|].
        right. split_and!; [done|done|right; exists document; split; [done|by right]].
      * intros [He|(_ & _ & [(kind & [=])|(document' & [= <-] & [Hp|Hs])])]; [by left; left|left; by right|by right].
  - cbn [judge observed ev_status]. split.
    + split; [done|]. intros [_ Hj]. by destruct (Hj eq_refl) as (document & [_ [=]] & _).
    + split; [intros _; right; split_and!; [done|done|left; by exists kind]|done].
Qed.

Lemma response_evaluated spec :
  (ev_status (evaluate_response prepared spec response) = "passed" ↔ response_holds spec)
  ∧ (ev_status (evaluate_response prepared spec response) = "failed" ↔ response_refuted spec).
Proof.
  unfold evaluate_response.
  match goal with |- context [status_predicate response ?o ?e] => destruct (status_step o e) as [P1 F1] end.
  match goal with |- context [header_predicate response ?o ?e] => destruct (header_step o e) as [P2 F2] end.
  match goal with |- context [body_predicate response ?o ?e] => destruct (body_step o e) as [P3 F3] end.
  match goal with |- context [structured_predicate prepared response spec ?e] => destruct (structured_step spec e) as [P4 F4] end.
  rewrite P4, P3, P2, P1, F4, F3, F2, F1. clear. cbn [ev_status]. split; split.
  - by intros [[[[_ H1] H2] H3] H4].
  - by intros [H1 H2 H3 H4].
  - intros [[[[[=]|(status & Hs & Hne)]|(h & Hh & Hall)]|(text & Ht & Hc & Hw)]|(Hn & Hw & [(kind & Hk)|(document & Hd & [(p & Hp & Hm)|(r & Hr & Hm)])])].
    + by eapply refuted_status.
    + by eapply refuted_header.
    + by eapply refuted_body.
    + by eapply refuted_json.
    + by eapply refuted_path.
    + by eapply refuted_schema.
  - intros [status Hs Hne|h Hh Hall|text Ht Hc Hw|kind Hn Hw Hk|p document Hp [Hw Hd] Hm|r document Hr [Hw Hd] Hm].
    + left. left. left. right. by exists status.
    + left. left. right. by exists h.
    + left. right. by exists text.
    + right. split_and!; [done|done|left; by exists kind].
    + right. split_and!; [unfold needs_json; by rewrite Hp|done|right; exists document; split; [done|left; by exists p]].
    + right. split_and!; [unfold needs_json; rewrite Hr; apply orb_true_r|done|right; exists document; split; [done|right; by exists r]].
Qed.
End meaning.

(** C34: a response assertion passes exactly when the driver recorded a response
    for its request and every declared predicate holds of it, and fails exactly
    when what was recorded refutes a predicate; a truncated body, a missing
    schema or an evaluation that could not be completed never decides it. *)
Theorem response_assertion_exact prepared assertion spec exchanges :
  pa_Response assertion = Some spec →
  (ar_Status (evaluateHTTPResponseAssertion prepared assertion exchanges) = "passed"
   ↔ ∃ exchange, exchanges !! pra_RequestID spec = Some exchange ∧ response_holds prepared (hx_Response exchange) spec)
  ∧ (ar_Status (evaluateHTTPResponseAssertion prepared assertion exchanges) = "failed"
     ↔ ∃ exchange, exchanges !! pra_RequestID spec = Some exchange ∧ response_refuted prepared (hx_Response exchange) spec).
Proof.
  intros Hs. unfold evaluateHTTPResponseAssertion. rewrite Hs. destruct (exchanges !! pra_RequestID spec) as [exchange|]; cbn [ar_Status].
  - rewrite !present_some. exact (response_evaluated prepared (hx_Response exchange) spec).
  - split; (split; [done|by intros (x & ? & _)]).
Qed.

(** ** Examples *)

Definition quoted_text (s : string) : string := string_map (λ c, if Ascii.eqb c "'" then dquote else c) s.
Definition example_response : trustedHTTPResponse :=
  {| rp_Status := 200; rp_Headers := [("content-type", "application/json")]; rp_Body := quoted_text "{'state':['ready']}"; rp_BodyBytes := 19;
     rp_BodyTruncated := false; rp_DurationMillis := 3 |}.
Definition example_exchange (response : trustedHTTPResponse) : httpExchange :=
  {| hx_Request := {| tr_ID := "state"; tr_Method := "GET"; tr_URL := "http://127.0.0.1:8080/state"; tr_Headers := []; tr_Body := ""; tr_Timeout := Second |};
     hx_Response := response |}.
Definition example_spec (body path : option string) : PlanHTTPResponseAssertion :=
  {| pra_RequestID := "state"; pra_Status := Some 200; pra_Header := Some {| pha_Name := "Content-Type"; pha_Contains := "json" |};
     pra_BodyContains := body; pra_JSONPath := (λ p, {| pja_Path := p; pja_Equals := quoted_text "'ready'" |}) <$> path; pra_JSONSchema := None |}.
Definition response_assertion_of (spec : PlanHTTPResponseAssertion) : PlanAssertion :=
  {| pa_ID := "answers"; pa_ExitCode := None; pa_StdoutContains := ""; pa_StderrContains := ""; pa_StdoutRegex := ""; pa_StdoutJSONSchema := None;
     pa_FileExists := ""; pa_Response := Some spec; pa_JSONFile := None |}.
Definition empty_plan : FullPlan := example_plan 1 1.
Definition example_run : PreparedRun :=
  {| pr_Backend := "docker"; pr_RunID := "run"; pr_SourceSnapshotDir := "/s"; pr_WorkspaceDir := "/w"; pr_OutputsDir := "/o"; pr_Inputs := [];
     pr_executionPlan := empty_plan; pr_sealed := true; pr_schemas := Some [] |}.
Definition example_exchanges (truncated : bool) : gmap string httpExchange :=
  {[ "state" := example_exchange
       {| rp_Status := 200; rp_Headers := rp_Headers example_response; rp_Body := rp_Body example_response; rp_BodyBytes := 19;
          rp_BodyTruncated := truncated; rp_DurationMillis := 3 |} ]}.
Definition status_of (truncated : bool) (body path : option string) : string :=
  ar_Status (evaluateHTTPResponseAssertion example_run (response_assertion_of (example_spec body path)) (example_exchanges truncated)).

Example statuses :
  [status_of false (Some "ready") (Some "$.state[0]"); status_of false (Some "gone") None; status_of true (Some "gone") None;
   status_of true (Some "ready") None; status_of false None (Some "$.state[1]"); status_of true None (Some "$.state[1]"); status_of false None (Some "state")]
  = ["passed"; "failed"; "inconclusive"; "passed"; "failed"; "inconclusive"; "blocked"].
Proof. by vm_compute. Qed.

Lemma response_assertion_exact_witness :
  ∃ exchange, example_exchanges false !! "state" = Some exchange
    ∧ response_holds example_run (hx_Response exchange) (example_spec (Some "ready") (Some "$.state[0]")).
Proof.
  apply (proj1 (response_assertion_exact example_run (response_assertion_of (example_spec (Some "ready") (Some "$.state[0]")))
    (example_spec (Some "ready") (Some "$.state[0]")) (example_exchanges false) eq_refl)).
  vm_compute. reflexivity.
Defined.
