(* ===== verification/JourneyRun.v ===== *)
(** * Running an HTTP journey (internal/execution: http_driver.go, http_driver_cleanup.go, http_file_assertion.go, http_json_file_assertion.go)

    One request through the trusted helper, one look at an output file, and
    [executeHTTPJourney], which goes through the steps of the journey and stops
    at the first that does not hold.  The prepared run is there: [Run] reads it
    before.  The texts of the helper scripts are arguments, as the answers of
    the engine are any. *)

From S2P Require Import Prelude Json Sha256 StructuredJson SemanticEqual JsonPath JsonUnmarshal GoValue Durations Domain GoPath GoStrings CleanupInventory Base64 Url Regex HttpContract PlanTypes ManifestValidate SchemaPolicy SchemaInstance SchemaSource PlanDocument ExecutionPlan Engine Backend HelperControl JourneyAssertions.

Local Open Scope Z_scope.

Definition containerDriverUser := "65533:65533".
Definition trustedHelperWorkdir := "/".

Class HelperScripts := {
  nodeHTTPHelperScript : string; pythonHTTPHelperScript : string; nodeHTTPFileLstatScript : string; pythonHTTPFileLstatScript : string;
  nodeHTTPJSONFileReadScript : string; pythonHTTPJSONFileReadScript : string; nodeHTTPDriverQuiesceScript : string;
  pythonHTTPDriverQuiesceScript : string }.

(** [fmt.Errorf(text + "%w", err)]: it wraps an error that is not nil. *)
Definition wrapping (text : string) (e : option go_error) : go_error :=
  match e with
  | Some e => {| ge_text := text +:+ ge_text e; ge_is := ge_is e |}
  | None => plain_error (text +:+ "%!w(<nil>)")
  end.

(** ** A request before it is sent *)

Fixpoint trusted_header_loop (headers : list (string * string)) (seen : list string) (total : Z) : result string Z :=
  match headers with
  | [] => Ok total
  | (name, value) :: rest =>
      fail_if (name !=s canonical_text name) || negb (validHTTPHeaderName name) || negb (isPrintableASCII value)
        || (AlphaHTTPMaxHeaderValueBytes <? zlen value) with "trusted HTTP request header is invalid" ;;
      fail_if one_of name seen with "trusted HTTP request header is duplicated" ;;
      fail_if one_of name forbiddenHTTPRequestHeaders with "trusted HTTP request header is forbidden" ;;
      trusted_header_loop rest (seen ++ [name]) (total + (zlen name + zlen value + 4))
  end.
Definition validateTrustedHTTPRequest (cfg : Config) (request : trustedHTTPRequest) : result string unit :=
  fail_if negb (is_identifier (tr_ID request)) with "trusted HTTP request ID is invalid" ;;
  fail_if negb (allowedHTTPMethod (tr_Method request)) with "trusted HTTP request method is invalid" ;;
  let! _ := validateLoopbackHTTPURL (tr_URL request) in
  fail_if negb (isWholeMillisecondDuration (tr_Timeout request)) with "trusted HTTP request timeout is invalid" ;;
  fail_if AlphaHTTPMaxRequestTime <? tr_Timeout request with "trusted HTTP request timeout exceeds the alpha limit" ;;
  fail_if AlphaHTTPMaxHeaders <? Z.of_nat (length (tr_Headers request)) with "trusted HTTP request has too many headers" ;;
  let! total := trusted_header_loop (tr_Headers request) [] 0 in
  fail_if effective_limit (cf_MaxHTTPHeaderBytes cfg) AlphaHTTPMaxHeaderAggregateBytes <? total with "trusted HTTP request headers exceed runner limit" ;;
  fail_if effective_limit (cf_MaxHTTPRequestBytes cfg) AlphaHTTPMaxRequestBodyBytes <? zlen (tr_Body request)
    with "trusted HTTP request body exceeds runner limit" ;;
  Ok tt.

(** What the helper reads on its standard input. *)
Definition header_json (h : string * string) : json := JObj [("name", JStr (sanitize h.1)); ("value", JStr (sanitize h.2))].
Definition helper_input (cfg : Config) (request : trustedHTTPRequest) : string :=
  let port := match ParseAlphaHTTPURL (tr_URL request) with Ok (_, port) => port | Err _ => 0 end in
  let number z := JNum (dec_Z z) in
  encode (JObj
    [("method", JStr (sanitize (tr_Method request))); ("url", JStr (sanitize (tr_URL request))); ("port", number port);
     ("headers", JArr (List.map header_json (tr_Headers request))); ("bodyBase64", JStr (EncodeToString (tr_Body request)));
     ("timeoutMillis", number (Z.quot (tr_Timeout request) Millisecond)); ("maxResponseBytes", number (cf_MaxHTTPResponseBytes cfg));
     ("maxHeaderBytes", number (effective_limit (cf_MaxHTTPHeaderBytes cfg) AlphaHTTPMaxHeaderAggregateBytes))]).

(** ** The answer of the helper *)

Definition response_header_invalid (h : string * string) : bool :=
  (h.1 !=s canonical_text h.1) || negb (validHTTPHeaderName h.1) || (AlphaHTTPMaxHeaderValueBytes <? zlen h.2) || contains_any newline_set h.2.
Definition header_bytes (headers : list (string * string)) : Z := foldl (λ total h, total + (zlen h.1 + zlen h.2 + 4)) 0 headers.

Definition decoded_response (cfg : Config) (request : trustedHTTPRequest) (response : httpHelperResponse) : result string trustedHTTPResponse :=
  fail_if (hr_Status response <? AlphaHTTPMinimumStatus) || (AlphaHTTPMaximumStatus <? hr_Status response) || (hr_DurationMillis response <? 0)
    || (Z.quot (tr_Timeout request + 250 * Millisecond) Millisecond <? hr_DurationMillis response) || (hr_BodyBytes response <? 0)
    with "trusted HTTP helper returned invalid metadata" ;;
  let! body := of_option "trusted HTTP helper returned an invalid bounded body" (DecodeLenient (hr_BodyBase64 response)) in
  fail_if (EncodeToString body !=s hr_BodyBase64 response) || (cf_MaxHTTPResponseBytes cfg <? zlen body)
    || (negb (hr_BodyTruncated response) && negb (hr_BodyBytes response =? zlen body))
    || (hr_BodyTruncated response && (hr_BodyBytes response <=? zlen body)) with "trusted HTTP helper returned an invalid bounded body" ;;
  fail_if existsb response_header_invalid (hr_Headers response) with "trusted HTTP helper returned an invalid header" ;;
  fail_if effective_limit (cf_MaxHTTPHeaderBytes cfg) AlphaHTTPMaxHeaderAggregateBytes <? header_bytes (hr_Headers response)
    with "trusted HTTP helper returned oversized headers" ;;
  Ok {| rp_Status := hr_Status response; rp_Headers := hr_Headers response; rp_Body := body; rp_BodyBytes := hr_BodyBytes response;
        rp_BodyTruncated := hr_BodyTruncated response; rp_DurationMillis := hr_DurationMillis response |}.

Definition reported_failure (error : string) : go_error :=
  if error =s "timeout" then {| ge_text := "trusted HTTP helper exceeded its absolute deadline"; ge_is := [TrustedHTTPTimeout] |}
  else if one_of error ["transport"; "header-limit"; "invalid-spec"] then plain_error ("trusted HTTP helper reported " +:+ error)
  else plain_error "trusted HTTP helper returned an unknown failure".
(** The exit of the helper, [true] when it ended by itself with success. *)
Definition clean_exit (run : answer) : bool := negb (is_some (an_error run)) && (an_exitCode run =? 0).
Definition helper_answer (cfg : Config) (request : trustedHTTPRequest) (run : answer) : result go_error trustedHTTPResponse :=
  fail_if negb (clean_exit run) with wrapping ("trusted HTTP helper failed with exit " +:+ dec_Z (an_exitCode run) +:+ ": ") (an_error run) ;;
  let stdout := CleanupInventory.capture (cf_MaxHTTPControlBytes cfg) (an_stdout run) in
  fail_if cb_truncated stdout with plain_error "trusted HTTP helper control response exceeded its limit" ;;
  let! response := map_err plain_error (decodeHTTPHelperResponse (cb_bytes stdout)) in
  fail_if negb (hr_OK response) with reported_failure (hr_Error response) ;;
  map_err plain_error (decoded_response cfg request response).

(** ** Structs without unknown fields: the quiescence and the lstat helpers *)

Definition strict_struct (fields : list (string * field_kind)) (raw : string) : option (list (string * json)) :=
  let? j := read_document raw in
  let? members := struct_members j in
  match first_error fields members with None => Some members | Some _ => None end.
Definition quiesce_fields : list (string * field_kind) := [("ok", KBool); ("remaining", KInt); ("killed", KInt)].
Definition quiesced (members : list (string * json)) : bool :=
  decode_field quiesce_fields set_bool false members "ok" && (decode_field quiesce_fields set_int 0 members "remaining" =? 0)
  && (0 <=? decode_field quiesce_fields set_int 0 members "killed").
Definition lstat_fields : list (string * field_kind) := [("status", KString)].

(** ** Calls of the engine *)

Section run.
Context `{Engine} `{HelperScripts}.
Variables (cfg : Config) (prepared : PreparedRun) (containerName : string).

Definition adapter : string := fp_RuntimeAdapter (pr_executionPlan prepared).
(** The arguments that run a script, and a target, with the runtime. *)
Definition script_args (python : bool) (node_script python_script : string) (target : list string) : list string :=
  (if python then ["-I"; "-S"; "-c"; python_script] else ["-e"; node_script]) ++ target.
Definition root_exec (executable : string) (args : list string) : list string :=
  ["exec"; "--user"; "0:0"; "--workdir"; trustedHelperWorkdir; containerName; executable] ++ args.

(** The text of a decoder's error is not modelled. *)
Definition quiesceHTTPDriverProcesses (ctx : context) : io (option go_error) :=
  match runtimeExecutable adapter with
  | None => give (Some (plain_error "runtime adapter has no trusted HTTP driver quiescence helper"))
  | Some executable =>
      do! run := run_command ctx (pr_Backend prepared)
        (root_exec executable (script_args (adapter =s "python") nodeHTTPDriverQuiesceScript pythonHTTPDriverQuiesceScript [])) in
      let stdout := CleanupInventory.capture 4096 (an_stdout run) in
      let stderr := CleanupInventory.capture 4096 (an_stderr run) in
      give
        (if negb (clean_exit run) || cb_truncated stdout || cb_truncated stderr
         then Some (wrapping ("trusted HTTP driver quiescence helper failed with exit " +:+ dec_Z (an_exitCode run) +:+ ": ") (an_error run))
         else
           match strict_struct quiesce_fields (cb_bytes stdout) with
           | None => Some (plain_error "trusted HTTP driver quiescence helper returned trailing data")
           | Some members =>
               if negb (quiesced members) then Some (plain_error "trusted HTTP driver processes remain after quiescence") else None
           end)
  end.

(** [fmt.Errorf("%w: %v", errHTTPDriverResidue, err)] joined to the cause: the
    text of [err] stays, what it wraps does not. *)
Definition with_residue (cause err : go_error) : go_error :=
  {| ge_text := ge_text cause +:+ String (byte_of 10) ("trusted HTTP driver residue could not be quiesced: " +:+ ge_text err);
     ge_is := ge_is cause ++ [HTTPDriverResidue] |}.
Definition cleanupHTTPDriverAfterFailure (cause : go_error) : io go_error :=
  do! err := quiesceHTTPDriverProcesses (WithTimeout Background (Z.min (cf_CleanupTimeout cfg) (5 * Second))) in
  give match err with Some err => with_residue cause err | None => cause end.

(** The helper was started; what it answered; whether it may have left processes. *)
Record request_outcome := { ro_result : result go_error trustedHTTPResponse; ro_started : bool; ro_residueUncertain : bool }.
Definition not_started (e : go_error) : request_outcome := {| ro_result := Err e; ro_started := false; ro_residueUncertain := false |}.

Definition http_helper_args (executable : string) : list string :=
  ["exec"; "-i"; "--user"; containerDriverUser; "--workdir"; trustedHelperWorkdir; containerName; executable]
  ++ script_args (adapter =s "python") nodeHTTPHelperScript pythonHTTPHelperScript [].

(** The body of [runTrustedHTTPRequestWithStart], before its deferred cleanup. *)
Definition request_body (ctx : context) (request : trustedHTTPRequest) : io request_outcome :=
  match en_input with
  | None =>
      give (not_started (plain_error (CodeRunnerFeatureUnavailable +:+ ": Runner command executor cannot provide bounded stdin to the trusted HTTP helper.")))
  | Some input =>
      match validateTrustedHTTPRequest cfg request with
      | Err e => give (not_started (plain_error e))
      | Ok _ =>
          do! err := context_err ctx in
          match err with
          | Some s => give (not_started (context_error s))
          | None =>
              if cf_MaxStepTimeout cfg <? tr_Timeout request then give (not_started (plain_error "HTTP request timeout exceeds runner limit"))
              else
                match runtimeExecutable adapter with
                | None => give (not_started (plain_error "runtime adapter has no trusted HTTP helper"))
                | Some executable =>
                    do! run := ask (λ t, input t ctx (pr_Backend prepared) (http_helper_args executable) (helper_input cfg request)) in
                    give {| ro_result := helper_answer cfg request run; ro_started := true; ro_residueUncertain := negb (clean_exit run) |}
                end
          end
      end
  end.
Definition runTrustedHTTPRequestWithStart (ctx : context) (request : trustedHTTPRequest) : io (result go_error trustedHTTPResponse * bool) :=
  do! o := request_body ctx request in
  match ro_result o with
  | Err e =>
      if ro_residueUncertain o then do! e := cleanupHTTPDriverAfterFailure e in give (Err e, ro_started o)
      else give (Err e, ro_started o)
  | Ok response => give (Ok response, ro_started o)
  end.

(** ** Output files *)

Definition helper_timeout : Z := Z.min (cf_CreateTimeout cfg) (5 * Second).

Definition file_result (assertion : PlanAssertion) (actual : bool) (status message : string) (duration : Z) : AssertionResult :=
  {| ar_SchemaVersion := "1"; ar_ID := pa_ID assertion; ar_Type := "file-exists"; ar_Required := true; ar_Expected := VBool true;
     ar_Actual := VBool actual; ar_Status := status; ar_EvidenceRefs := Some ["http-assertion:" +:+ pa_ID assertion +:+ ":lstat"];
     ar_Message := message; ar_Repeat := 0; ar_DurationMillis := duration |}.
Definition lstat_uninspected := "Trusted in-container lstat could not inspect the declared output entry.".
Definition lstat_status (run : answer) : option string :=
  let stdout := CleanupInventory.capture 4096 (an_stdout run) in
  let stderr := CleanupInventory.capture 4096 (an_stderr run) in
  if negb (clean_exit run) || cb_truncated stdout || cb_truncated stderr then None
  else (λ members, decode_field lstat_fields set_str "" members "status") <$> strict_struct lstat_fields (cb_bytes stdout).
Definition lstat_result (assertion : PlanAssertion) (status : option string) (duration : Z) : AssertionResult :=
  match status with
  | Some "exists" =>
      file_result assertion true "passed" "Trusted in-container lstat observed the declared output entry at this journey step." duration
  | Some "missing" => file_result assertion false "failed" "The declared output entry did not exist at this journey step." duration
  | Some "symlink" => file_result assertion false "failed" "A symbolic link cannot satisfy the ordered file-exists assertion." duration
  | _ => file_result assertion false "inconclusive" lstat_uninspected duration
  end.

(** With whether the helper was started. *)
Definition inspectHTTPFileAssertionWithStart (ctx : context) (assertion : PlanAssertion) : io (AssertionResult * bool) :=
  match validateHTTPOutputAssertionPath (pa_FileExists assertion) with
  | Err _ => give (file_result assertion false "blocked" "Resolved HTTP file assertion path is unsafe." 0, false)
  | Ok _ =>
      match runtimeExecutable adapter with
      | None => give (file_result assertion false "blocked" "Runtime adapter has no trusted file assertion helper." 0, false)
      | Some executable =>
          do! startedAt := now in
          do! run := run_command (WithTimeout ctx helper_timeout) (pr_Backend prepared)
            (root_exec executable (script_args (adapter =s "python") nodeHTTPFileLstatScript pythonHTTPFileLstatScript [pa_FileExists assertion])) in
          do! finishedAt := now in
          give (lstat_result assertion (lstat_status run) (sub_millis finishedAt startedAt), true)
      end
  end.

Definition readHTTPOutputJSONFileWithStart (ctx : context) (targetPath : string) : io (result httpJSONFileReadFailure httpJSONFileSnapshot * bool) :=
  match validateHTTPOutputAssertionPath targetPath with
  | Err _ => give (Err httpJSONFileInvalidPath, false)
  | Ok _ =>
      match runtimeExecutable adapter with
      | None => give (Err httpJSONFileUnsupportedRuntime, false)
      | Some executable =>
          let helperCtx := WithTimeout ctx helper_timeout in
          do! run := run_command helperCtx (pr_Backend prepared)
            (root_exec executable (script_args (executable =s "python") nodeHTTPJSONFileReadScript pythonHTTPJSONFileReadScript [targetPath])) in
          let stdout := CleanupInventory.capture httpJSONFileMaxControlBytes (an_stdout run) in
          let stderr := CleanupInventory.capture 4096 (an_stderr run) in
          do! err := (if errors_is DeadlineExceeded (an_error run) then give (Some ContextDeadline) else context_err helperCtx) in
          give
            (if errors_is DeadlineExceeded (context_error <$> err) then Err httpJSONFileHelperTimeout
             else if cb_truncated stdout || cb_truncated stderr then Err httpJSONFileControlLimit
             else if negb (clean_exit run) || negb (zlen (cb_bytes stderr) =? 0) then Err httpJSONFileHelperExecution
             else decodeHTTPJSONFileReadResponse (cb_bytes stdout), true)
      end
  end.

(** *** The JSON file assertion *)

Definition read_status (failure : httpJSONFileReadFailure) : string * string :=
  match failure with
  | httpJSONFileInvalidPath | httpJSONFileUnsupportedRuntime => ("blocked", "Resolved HTTP JSON file assertion could not be executed safely.")
  | httpJSONFileMissing => ("failed", "Declared ordered JSON output file was missing.")
  | httpJSONFileSymlink => ("failed", "A symbolic link cannot satisfy an ordered JSON file assertion.")
  | httpJSONFileDirectory => ("failed", "A directory cannot satisfy an ordered JSON file assertion.")
  | httpJSONFileSpecial => ("failed", "A special file cannot satisfy an ordered JSON file assertion.")
  | httpJSONFileTooLarge => ("failed", "Declared ordered JSON output file exceeded the 1 MiB profile limit.")
  | _ => ("inconclusive", "Trusted ordered JSON file snapshot could not be established.")
  end.
(** The status, the message and what was found, of a snapshot that was read. *)
Definition snapshot_status (spec : PlanJSONFileAssertion) (snapshot : httpJSONFileSnapshot) : string * string * list (string * any) :=
  let found more := [("path", VStr (pjf_Path spec)); ("bytes", VInt (sn_size snapshot)); ("sha256", VStr (sn_sha256 snapshot))] ++ more in
  match decoded (sn_content snapshot) with
  | Err kind =>
      ("failed", "Trusted ordered output snapshot is not bounded strict JSON.", found [("strictJSON", VBool false); ("failure", VStr (kind_text kind))])
  | Ok document =>
      match structuredJSONSchema prepared (pjf_Schema spec) with
      | None =>
          ("blocked", "Plan-bound JSON Schema was unavailable to the controller.", found [("strictJSON", VBool true); ("jsonSchemaEvaluated", VBool false)])
      | Some s =>
          match Schema_Validate (Some s) document with
          | Err kind =>
              let actual := found [("strictJSON", VBool true); ("jsonSchemaMatched", VBool false); ("failure", VStr (kind_text kind))] in
              if bool_decide (kind = ErrorSchemaNotSatisfied)
              then ("failed", "Trusted ordered JSON file did not satisfy the plan-bound schema.", actual)
              else ("inconclusive", "Controller-owned JSON Schema evaluation could not complete.", actual)
          | Ok _ =>
              ("passed", "Trusted point-in-time JSON file snapshot satisfied the plan-bound schema.",
               found [("strictJSON", VBool true); ("jsonSchemaMatched", VBool true)])
          end
      end
  end.
Definition json_file_result (assertion : PlanAssertion) (spec : PlanJSONFileAssertion) (read : result httpJSONFileReadFailure httpJSONFileSnapshot)
    (duration : Z) : AssertionResult :=
  let '(status, message, actual) :=
    match read with
    | Err failure => (read_status failure, [("path", VStr (pjf_Path spec)); ("failure", VStr (failure_text failure))])
    | Ok snapshot => snapshot_status spec snapshot
    end in
  {| ar_SchemaVersion := "1"; ar_ID := pa_ID assertion; ar_Type := "json-file"; ar_Required := true;
     ar_Expected := VMap
       [("path", VStr (pjf_Path spec));
        ("schema", VMap [("path", VStr (pjs_Path (pjf_Schema spec))); ("digest", VStr (pjs_Digest (pjf_Schema spec)));
                         ("dialect", VStr (pjs_Dialect (pjf_Schema spec)))])];
     ar_Actual := VMap actual; ar_Status := status;
     ar_EvidenceRefs := Some ["http-assertion:" +:+ pa_ID assertion +:+ ":json-file-snapshot"; "json-schema:" +:+ pjs_Digest (pjf_Schema spec)];
     ar_Message := message; ar_Repeat := 0; ar_DurationMillis := duration |}.
(** For an assertion with a JSON file. *)
Definition inspectHTTPJSONFileAssertionWithStart (ctx : context) (assertion : PlanAssertion) (spec : PlanJSONFileAssertion) : io (AssertionResult * bool) :=
  do! startedAt := now in
  do! (read, started) := readHTTPOutputJSONFileWithStart ctx (pjf_Path spec) in
  do! finishedAt := now in
  give (json_file_result assertion spec read (sub_millis finishedAt startedAt), started).

(** ** The journey *)

Record journey := {
  jn_exchanges : gmap string httpExchange; jn_results : gmap string AssertionResult; jn_observations : list ObservationEvent; jn_started : bool }.
Definition no_journey : journey := {| jn_exchanges := ∅; jn_results := ∅; jn_observations := []; jn_started := false |}.

Definition httpJourneyContextError (s : context_state) : Error :=
  with_phase
    match s with
    | ContextCanceled => wrap_error CodeCancelled SeverityWarning "Trusted HTTP journey was cancelled." (Some (context_error s))
    | ContextDeadline => wrap_error CodeTimeout SeverityHigh "Trusted HTTP journey exceeded its run deadline." (Some (context_error s))
    end PhaseExercise.
Definition sanitizedHTTPResource (value : string) : string * bool :=
  match Parse value with
  | None => ("invalid-http-resource", false)
  | Some u => (u_Scheme u +:+ "://" +:+ u_Host u +:+ EscapedPath u, u_RawQuery u !=s "")
  end.
(** The error of a service that ended, and [serviceID] its command. *)
Definition service_ended (serviceID message : string) (exit : service_exit) : Error :=
  match sx_error exit with
  | Some e => e
  | None =>
      with_details (with_phase (NewError CodeServiceStartFailed SeverityHigh message) PhaseExercise)
        [("service", VStr serviceID); ("exitCode", VInt (sx_exitCode exit))]
  end.

Definition request_observation (request : trustedHTTPRequest) (response : result go_error trustedHTTPResponse) (timestamp : Time) : ObservationEvent :=
  let '(resource, queryPresent) := sanitizedHTTPResource (tr_URL request) in
  let names := [("requestId", VStr (tr_ID request)); ("method", VStr (tr_Method request)); ("queryPresent", VBool queryPresent)] in
  let '(outcome, details) :=
    match response with
    | Err _ => ("failed", names ++ [("failure", VStr "transport-or-helper")])
    | Ok r => ("succeeded", names ++ [("status", VInt (rp_Status r)); ("responseBytes", VInt (rp_BodyBytes r));
                                      ("bodyTruncated", VBool (rp_BodyTruncated r)); ("durationMillis", VInt (rp_DurationMillis r))])
    end in
  {| oe_SchemaVersion := "1"; oe_Sequence := 0; oe_Timestamp := UTC timestamp; oe_Phase := PhaseExercise; oe_Actor := "trusted-http-driver";
     oe_Operation := "http.request"; oe_Resource := resource; oe_Result := outcome; oe_Observer := pr_Backend prepared +:+ "-exec-http-helper";
     oe_Coverage := coverageFull; oe_Confidence := "high"; oe_Details := details |}.

(** The finding of a request that was not answered; [run] and [context] are the
    states of the context of the run and of the request. *)
Definition request_finding (request : trustedHTTPRequest) (e : go_error) (run context : option context_state) : Error :=
  let found s := errors_is s (Some e) in
  let '(code, severity, message) :=
    if found HTTPDriverResidue then (CodeProcessLeak, SeverityHigh, "Trusted HTTP driver residue could not be excluded.")
    else if errors_is Canceled (context_error <$> run) || errors_is Canceled (context_error <$> context) || found Canceled
    then (CodeCancelled, SeverityWarning, "Trusted HTTP journey request was cancelled.")
    else if found TrustedHTTPTimeout || errors_is DeadlineExceeded (context_error <$> context) || found DeadlineExceeded
    then (CodeTimeout, SeverityHigh, "Trusted HTTP journey request exceeded its deadline.")
    else (CodeJourneyAssertionFailed, SeverityHigh, "Trusted HTTP journey request could not be completed.") in
  with_evidence (with_phase (wrap_error code severity message (Some e)) PhaseExercise) (Some ["http-request:" +:+ tr_ID request]).

(** The request of a step: the journey after it, and the error that stops it. *)
Definition request_step (st : journey) (planned : PlanHTTPRequest) : io (journey * option Error) :=
  match trustedHTTPRequestFromPlan planned (10 * Second) (cf_MaxHTTPRequestBytes cfg) (cf_MaxHTTPHeaderBytes cfg) with
  | Err e =>
      give (st, Some (with_phase (wrap_error CodePlanUnresolved SeverityHigh "Resolved HTTP request failed runner revalidation." (Some (plain_error e)))
                        PhaseExercise))
  | Ok request =>
      let requestCtx := WithTimeout RunContext (tr_Timeout request + 250 * Millisecond) in
      do! (answered, started) := runTrustedHTTPRequestWithStart requestCtx request in
      do! contextErr := context_err requestCtx in
      let response := match answered, contextErr with Ok _, Some s => Err (context_error s) | r, _ => r end in
      do! timestamp := now in
      let st' :=
        {| jn_exchanges := match response with Ok r => <[tr_ID request := {| hx_Request := request; hx_Response := r |}]> (jn_exchanges st)
                           | Err _ => jn_exchanges st end;
           jn_results := jn_results st; jn_observations := jn_observations st ++ [request_observation request response timestamp];
           jn_started := jn_started st || started |} in
      match response with
      | Ok _ => give (st', None)
      | Err e =>
          do! run := (if errors_is HTTPDriverResidue (Some e) then give None else context_err RunContext) in
          give (st', Some (request_finding request e run contextErr))
      end
  end.

(** A result is recorded, and stops the journey unless it passed. *)
Definition step_error (code message : string) (result : AssertionResult) : Error :=
  with_details (with_evidence (with_phase (NewError code SeverityHigh message) PhaseExercise) (cloneStrings (ar_EvidenceRefs result)))
    [("assertionId", VStr (ar_ID result))].
Definition record_result (st : journey) (id : string) (result : AssertionResult) (started : bool) : journey :=
  {| jn_exchanges := jn_exchanges st; jn_results := <[id := result]> (jn_results st); jn_observations := jn_observations st;
     jn_started := jn_started st || started |}.
(** The error of a file assertion that did not pass. *)
Definition file_error (failed inconclusive : string) (result : AssertionResult) : option Error :=
  if ar_Status result =s "failed" then Some (step_error CodeJourneyAssertionFailed failed result)
  else if ar_Status result !=s "passed" then Some (step_error CodeObserverIncomplete inconclusive result)
  else None.
Definition response_error (result : AssertionResult) : option Error :=
  if ar_Status result =s "failed"
  then Some (step_error CodeJourneyAssertionFailed "One or more required HTTP response assertions failed." result)
  else if (ar_Status result =s "blocked") || (ar_Status result =s "inconclusive")
  then Some (step_error CodeObserverIncomplete "A required HTTP response assertion is inconclusive." result)
  else None.

Definition zero_assertion : PlanAssertion :=
  {| pa_ID := ""; pa_ExitCode := None; pa_StdoutContains := ""; pa_StderrContains := ""; pa_StdoutRegex := ""; pa_StdoutJSONSchema := None;
     pa_FileExists := ""; pa_Response := None; pa_JSONFile := None |}.
Definition assertion_step (st : journey) (assertion : PlanAssertion) : io (journey * option Error) :=
  match pa_JSONFile assertion with
  | Some spec =>
      do! (result, started) := inspectHTTPJSONFileAssertionWithStart RunContext assertion spec in
      give (record_result st (pa_ID assertion) result started,
            file_error "An ordered HTTP JSON file assertion failed." "An ordered HTTP JSON file assertion is inconclusive." result)
  | None =>
      if pa_FileExists assertion !=s "" then
        do! (result, started) := inspectHTTPFileAssertionWithStart RunContext assertion in
        give (record_result st (pa_ID assertion) result started,
              file_error "An ordered HTTP file assertion failed." "An ordered HTTP file assertion is inconclusive." result)
      else
        match pa_Response assertion with
        | None => give (st, None)
        | Some _ =>
            let result := evaluateHTTPResponseAssertion prepared assertion (jn_exchanges st) in
            give (record_result st (pa_ID assertion) result false, response_error result)
        end
  end.

Definition journey_step (assertions : list (string * PlanAssertion)) (serviceID : string) (st : journey) (step : PlanHTTPDriverStep)
    : io (journey * option Error) :=
  do! err := context_err RunContext in
  match err with
  | Some s => give (st, Some (httpJourneyContextError s))
  | None =>
      do! exit := ask en_service in
      match exit with
      | Some exit => give (st, Some (service_ended serviceID "HTTP service exited before its journey completed." exit))
      | None =>
          match pds_Request step with
          | Some planned => request_step st planned
          | None => assertion_step st (default zero_assertion (assoc (pds_AssertionID step) assertions))
          end
      end
  end.
Fixpoint journey_steps (assertions : list (string * PlanAssertion)) (serviceID : string) (st : journey) (steps : list PlanHTTPDriverStep)
    : io (journey * option Error) :=
  match steps with
  | [] =>
      do! exit := ask en_service in
      give (st, service_ended serviceID "HTTP service exited before its resolved cleanup signal." <$> exit)
  | step :: rest =>
      do! (st, err) := journey_step assertions serviceID st step in
      match err with Some e => give (st, Some e) | None => journey_steps assertions serviceID st rest end
  end.
Definition executeHTTPJourney (serviceID : string) : io (journey * option Error) :=
  let plan := pr_executionPlan prepared in
  match pr_sealed prepared, fp_HTTPJourney plan with
  | true, Some planned => journey_steps (assertion_map (fp_JourneyAssertions plan)) serviceID no_journey (phj_Steps planned)
  | _, _ => give (no_journey, Some (NewError CodePlanUnresolved SeverityCritical "Prepared HTTP journey has no sealed execution-plan snapshot."))
  end.
End run.
