(* ===== verification/JourneySafety.v ===== *)
(** * What a run of an HTTP journey establishes

    The steps of a plan the runner accepts are ordered: every assertion comes
    once and after its request.  [executeHTTPJourney] keeps an invariant along
    them, by rule induction over that order: at each step everything before it
    was answered and passed. *)

From S2P Require Import Prelude Json Sha256 StructuredJson SemanticEqual JsonPath JsonUnmarshal GoValue Durations Domain GoPath GoStrings CleanupInventory Base64 Url Regex HttpContract PlanTypes Manifest ManifestValidate ManifestSafety SchemaPolicy SchemaInstance SchemaSource PlanDocument PlanContract Planner PlannerSafety ExecutionPlan ExecutionTexts ExecutionAccept ExecutionContract ExecutionRequests ExecutionHttp ExecutionJourney Engine Backend HelperControl JourneyAssertions JourneyRun.

Local Open Scope Z_scope.

(** ** The order of the steps *)

Definition step_references (step : PlanHTTPDriverStep) : list string := if is_some (pds_Request step) then [] else [pds_AssertionID step].
Definition references (steps : list PlanHTTPDriverStep) : list string := flat_map step_references steps.

(** Seen from a step: the requests and the assertions before it. *)
Inductive ordered (assertions : list (string * PlanAssertion)) : list string → list string → list PlanHTTPDriverStep → Prop :=
  | ordered_nil reqs refs : ordered assertions reqs refs []
  | ordered_request reqs refs step r rest :
      pds_Request step = Some r → pds_AssertionID step = "" → prq_ID r ∉ reqs →
      ordered assertions (reqs ++ [prq_ID r]) refs rest → ordered assertions reqs refs (step :: rest)
  | ordered_assertion reqs refs step a rest :
      pds_Request step = None → pds_AssertionID step ≠ "" → assoc (pds_AssertionID step) assertions = Some a →
      pds_AssertionID step ∉ refs → (∀ spec, pa_Response a = Some spec → pra_RequestID spec ∈ reqs) →
      ordered assertions reqs (refs ++ [pds_AssertionID step]) rest → ordered assertions reqs refs (step :: rest).

(** One operation of an HTTP journey. *)
Definition single_operation (a : PlanAssertion) : Prop :=
  (is_Some (pa_Response a) ∧ pa_JSONFile a = None ∧ pa_FileExists a = "")
  ∨ (pa_Response a = None ∧ is_Some (pa_JSONFile a) ∧ pa_FileExists a = "")
  ∨ (pa_Response a = None ∧ pa_JSONFile a = None ∧ pa_FileExists a ≠ "").

(** What the runner's acceptance of a plan says of its journey. *)
Record accepted_journey (plan : FullPlan) (planned : PlanHTTPJourney) : Prop := {
  aj_distinct : NoDup (List.map pa_ID (fp_JourneyAssertions plan));
  aj_single : Forall single_operation (fp_JourneyAssertions plan);
  aj_ordered : ordered (assertion_map (fp_JourneyAssertions plan)) [] [] (phj_Steps planned);
  aj_all : references (phj_Steps planned) ≡ₚ List.map pa_ID (fp_JourneyAssertions plan) }.

Lemma one_of_not s l : one_of s l = false → s ∉ l.
Proof. intros Hf Hin. apply one_of_In in Hin. by rewrite Hin in Hf. Qed.

Lemma step_valid_ordered cfg assertions origin step rest st st' : step_valid cfg assertions origin step st = Ok st' →
  js_referenced st' = js_referenced st ++ step_references step
  ∧ (NoDup (js_referenced st) → NoDup (js_referenced st'))
  ∧ (ordered assertions (js_requests st') (js_referenced st') rest → ordered assertions (js_requests st) (js_referenced st) (step :: rest)).
Proof.
  unfold step_valid, step_references. intros [Hone Hr]%fail_if_ok. destruct (pds_Request step) as [r|] eqn:Er; cbn [is_some negb] in Hone |- *.
  - destruct (String.eqb_spec (pds_AssertionID step) "") as [Ea|]; [|discriminate Hone]. unfold request_valid in Hr.
    apply fail_if_ok in Hr as [_ Hr]. apply fail_if_ok in Hr as [Hnew%one_of_not Hr]. do 5 apply fail_if_ok in Hr as [_ Hr].
    apply bind_Ok in Hr as (d & _ & Hr). apply bind_Ok in Hr as (q & _ & [= <-]). cbn [js_requests js_referenced].
    rewrite app_nil_r. split_and!; [done|done|]. intros Ho. by eapply ordered_request.
  - destruct (String.eqb_spec (pds_AssertionID step) "") as [|Ea]; [discriminate Hone|]. unfold reference_valid in Hr.
    apply bind_Ok in Hr as (a & Ha & Hr). destruct (assoc (pds_AssertionID step) assertions) as [a'|] eqn:Eassoc; [|discriminate Ha]. injection Ha as ->.
    apply fail_if_ok in Hr as [Hnew%one_of_not Hr]. apply fail_if_ok in Hr as [Hearlier [= <-]]. cbn [js_requests js_referenced]. split_and!; [done| |].
    + intros Hd. apply NoDup_app. split_and!; [done| |apply NoDup_singleton]. by intros x Hx ->%list_elem_of_singleton.
    + intros Ho. eapply ordered_assertion; [done|done|done|done| |done]. intros spec Hs. rewrite Hs in Hearlier.
      apply one_of_In. by destruct (one_of _ _).
Qed.
Lemma steps_valid_ordered cfg assertions origin steps : ∀ st st', steps_valid cfg assertions origin steps st = Ok st' →
  js_referenced st' = js_referenced st ++ references steps ∧ (NoDup (js_referenced st) → NoDup (js_referenced st'))
  ∧ ordered assertions (js_requests st) (js_referenced st) steps.
Proof.
  induction steps as [|step steps IH]; intros st st'; cbn [steps_valid].
  - intros [= <-]. cbn. rewrite app_nil_r. split_and!; [done|done|constructor].
  - intros (st1 & Hs & Hr)%bind_Ok. destruct (IH _ _ Hr) as (Eref & Hd & Ho). destruct (step_valid_ordered _ _ _ _ steps _ _ Hs) as (Eref1 & Hd1 & Ho1).
    change (references (step :: steps)) with (step_references step ++ references steps). split_and!; [by rewrite Eref, Eref1, <- app_assoc|auto|auto].
Qed.

Lemma ordered_known assertions reqs refs steps : ordered assertions reqs refs steps → ∀ id, id ∈ references steps → id ∈ assertions.*1.
Proof.
  induction 1 as [|reqs refs step r rest Er _ _ _ IH|reqs refs step a rest Er _ Ha _ _ _ IH]; intros id; [by intros ?%elem_of_nil| |];
    change (references (step :: rest)) with (step_references step ++ references rest); unfold step_references; rewrite Er; cbn [is_some app]; [by apply IH|].
  intros [->|Hin]%elem_of_cons; [|by apply IH]. apply assoc_In in Ha. apply list_elem_of_fmap. by exists (pds_AssertionID step, a).
Qed.

Lemma operations_single `{RegexpSyntax} cfg ids a :
  plan_assertion_valid ids a = Ok tt → http_assertion_valid cfg a = Ok tt → single_operation a.
Proof.
  unfold plan_assertion_valid, http_assertion_valid, single_operation. intros Ha Hh.
  do 3 apply fail_if_ok in Ha as [_ Ha]. apply bind_Ok in Ha as (u & _ & Ha). apply fail_if_ok in Ha as [Hone _].
  unfold assertion_operations in Hone.
  destruct (pa_Response a) as [spec|]; [|destruct (pa_JSONFile a) as [file|]].
  - left. rewrite !count_true_cons in Hone.
    destruct (pa_JSONFile a); destruct (String.eqb_spec (pa_FileExists a) "") as [|]; cbn [is_some negb] in Hone |- *; try (split_and!; [by eexists|done|done]);
      apply negb_false_iff, Nat.eqb_eq in Hone; cbn in Hone; lia.
  - right. left. rewrite !count_true_cons in Hone.
    destruct (String.eqb_spec (pa_FileExists a) "") as [|]; cbn [is_some negb] in Hone |- *; [by split_and!; [|eexists|]|].
    apply negb_false_iff, Nat.eqb_eq in Hone; cbn in Hone; lia.
  - right. right. destruct (String.eqb_spec (pa_FileExists a) "") as [->|]; [discriminate Hh|done].
Qed.

Lemma assertions_valid_each `{RegexpSyntax} ids l : assertions_valid ids l = Ok tt → Forall (λ a, ∃ ids', plan_assertion_valid ids' a = Ok tt) l.
Proof.
  revert ids. induction l as [|a l IH]; intros ids; cbn [assertions_valid]; [constructor|]. intros ([] & Ha & Hr)%bind_Ok.
  constructor; [by exists ids|by eapply IH].
Qed.

Lemma plan_accepted_journey `{RegexpSyntax} cfg plan steps platform planned :
  validatePlan cfg plan = Ok (steps, platform) → fp_HTTPJourney plan = Some planned → accepted_journey plan planned.
Proof.
  unfold validatePlan. intros (p & _ & Hr)%bind_Ok Hj. apply bind_Ok in Hr as (s & _ & Hr). apply bind_Ok in Hr as ([] & Hids & Hr).
  apply bind_Ok in Hr as ([] & Hhttp & _). unfold validateHTTPPlan in Hhttp. rewrite Hj in Hhttp.
  apply fail_if_ok in Hhttp as [_ Hr]. apply bind_Ok in Hr as (u1 & _ & Hr). apply bind_Ok in Hr as ([service signal] & _ & Hr).
  apply bind_Ok in Hr as ([service' readiness] & _ & Hr). apply bind_Ok in Hr as ([[command signal'] index] & _ & Hr). apply fail_if_ok in Hr as [_ Hr].
  apply bind_Ok in Hr as (u2 & _ & Hr). apply bind_Ok in Hr as (u3 & _ & Hr). apply bind_Ok in Hr as (u4 & _ & Hr).
  do 2 apply fail_if_ok in Hr as [_ Hr]. apply bind_Ok in Hr as ([] & Hops & Hr). unfold journey_valid in Hr. apply bind_Ok in Hr as (st & Hsteps & Hr).
  do 2 apply fail_if_ok in Hr as [_ Hr]. apply fail_if_ok in Hr as [Hlen _].
  pose proof (assertions_valid_ids _ _ Hids NoDup_nil_2) as Hd. cbn [app] in Hd.
  destruct (steps_valid_ordered _ _ _ _ _ _ Hsteps) as (Eref & Hdref & Ho). cbn [js_requests js_referenced app] in Eref, Hdref, Ho. specialize (Hdref NoDup_nil_2).
  split; [exact Hd| |exact Ho|].
  - apply Forall_forall. intros a Ha. pose proof (assertions_valid_each _ _ Hids) as Hall. rewrite Forall_forall in Hall. destruct (Hall a Ha) as [ids Hvalid].
    apply (operations_single cfg ids a Hvalid). apply list_elem_of_lookup in Ha as [i Hi]. rewrite check_each_ok in Hops. exact (Hops i a Hi).
  - apply negb_false_iff, Nat.eqb_eq in Hlen. rewrite Eref in Hlen, Hdref. rewrite (assertion_map_distinct _ Hd) in Hlen, Ho.
    apply submseteq_length_Permutation; [|rewrite length_map in *; lia]. apply NoDup_submseteq; [done|]. intros id Hin.
    apply (ordered_known _ _ _ _ Ho) in Hin. by rewrite assertion_map_keys in Hin.
Qed.

(** ** Statuses *)

Definition passed (result : AssertionResult) : Prop := ar_Status result = "passed".
Definition statuses : list string := ["passed"; "failed"; "blocked"; "inconclusive"].

Lemma judged_status e status : status ∈ statuses → ∀ message, ev_status (judge status message e) ∈ statuses. Proof. done. Qed.
Lemma unless_status e status : status ∈ statuses → ev_status e ∈ statuses → ∀ message, ev_status (judge_unless_failed status message e) ∈ statuses.
Proof. intros Hs He message. unfold judge_unless_failed. by destruct (ev_status e =s "failed"). Qed.
Ltac one_status :=
  repeat first [assumption | apply unless_status | apply judged_status
               | match goal with
                 | |- ev_status (if ?b then _ else _) ∈ _ => destruct b
                 | |- ev_status (match ?x with _ => _ end) ∈ _ => destruct x
                 | |- _ ∈ statuses => progress cbn [ev_status observed expect judge]
                 end
               | solve [unfold statuses; set_solver]].

Lemma evaluation_status prepared spec response : ev_status (evaluate_response prepared spec response) ∈ statuses.
Proof.
  assert (∀ e, ev_status e ∈ statuses → ev_status (structured_predicate prepared response spec e) ∈ statuses) as H4.
  { intros e He. unfold structured_predicate.
    destruct (negb (is_some (pra_JSONPath spec) || is_some (pra_JSONSchema spec))); [done|]. destruct (rp_BodyTruncated response); [one_status|].
    destruct (decoded (rp_Body response)) as [document|]; [|one_status].
    assert (∀ e, ev_status e ∈ statuses → ev_status (path_predicate document (pra_JSONPath spec) e) ∈ statuses) as Hp by (intros e' He'; unfold path_predicate; one_status).
    assert (∀ e, ev_status e ∈ statuses → ev_status (schema_predicate prepared document (pra_JSONSchema spec) e) ∈ statuses) as Hs.
    { intros e' He'. unfold schema_predicate. destruct (pra_JSONSchema spec) as [reference|]; [|done].
      destruct (structuredJSONSchema prepared reference); [|one_status]. destruct (Schema_Validate _ document); [one_status|]. case_bool_decide; one_status. }
    apply Hs, Hp. exact He. }
  unfold evaluate_response. apply H4. unfold body_predicate, header_predicate, status_predicate. one_status.
Qed.

Lemma file_error_none failed inconclusive result : file_error failed inconclusive result = None ↔ passed result.
Proof.
  unfold file_error, passed. destruct (String.eqb_spec (ar_Status result) "failed") as [->|]; [done|].
  destruct (String.eqb_spec (ar_Status result) "passed"); by cbn.
Qed.
Lemma response_error_none result : ar_Status result ∈ statuses → (response_error result = None ↔ passed result).
Proof.
  unfold response_error, passed, statuses. rewrite !elem_of_cons, elem_of_nil. by intros [->|[->|[->|[->|[]]]]].
Qed.
Lemma response_status prepared a spec exchanges : pa_Response a = Some spec →
  ar_Status (evaluateHTTPResponseAssertion prepared a exchanges) ∈ statuses ∧ ar_ID (evaluateHTTPResponseAssertion prepared a exchanges) = pa_ID a.
Proof.
  intros E. unfold evaluateHTTPResponseAssertion. rewrite E. destruct (exchanges !! pra_RequestID spec) as [exchange|]; cbn [ar_Status ar_ID].
  - split; [apply evaluation_status|done].
  - split; [unfold statuses; set_solver|done].
Qed.

Lemma all_passed results : Forall passed results → assertionFailure results = None.
Proof.
  intros Hall. assert (∀ l, "passed" ∉ l → List.find (has_status l) results = None) as Hnone.
  { intros l Hl. induction Hall as [|r results Hr _ IH]; [done|]. cbn [List.find]. unfold has_status at 1. rewrite Hr.
    destruct (one_of "passed" l) eqn:E; [by apply one_of_In in E|exact IH]. }
  unfold assertionFailure. by rewrite !Hnone by set_solver.
Qed.

(** ** The requests *)

Section run.
Context `{Engine} `{HelperScripts}.
Variables (cfg : Config) (prepared : PreparedRun) (containerName : string).

(** What the runner requires of a response before it records it. *)
Record trusted_response (request : trustedHTTPRequest) (r : trustedHTTPResponse) : Prop := {
  tp_status : AlphaHTTPMinimumStatus <= rp_Status r <= AlphaHTTPMaximumStatus;
  tp_duration : 0 <= rp_DurationMillis r <= Z.quot (tr_Timeout request + 250 * Millisecond) Millisecond;
  tp_body : zlen (rp_Body r) <= cf_MaxHTTPResponseBytes cfg;
  tp_bytes : if rp_BodyTruncated r then zlen (rp_Body r) < rp_BodyBytes r else rp_BodyBytes r = zlen (rp_Body r);
  tp_headers : Forall (λ h, response_header_invalid h = false) (rp_Headers r);
  tp_aggregate : header_bytes (rp_Headers r) <= AlphaHTTPMaxHeaderAggregateBytes }.

Lemma effective_below limit maximum : effective_limit limit maximum <= maximum.
Proof. unfold effective_limit. destruct (Z.leb_spec limit 0), (Z.ltb_spec maximum limit); cbn; lia. Qed.

Lemma existsb_false {A} (P : A → bool) l : existsb P l = false → Forall (λ x, P x = false) l.
Proof.
  intros Hf. apply Forall_forall. intros x Hx. destruct (P x) eqn:E; [|done].
  assert (existsb P l = true) as Ht by (apply existsb_exists; exists x; by rewrite <- list_elem_of_In). by rewrite Ht in Hf.
Qed.
Lemma decoded_trusted request response r : decoded_response cfg request response = Ok r → trusted_response request r.
Proof.
  unfold decoded_response. intros [Hmeta Hr]%fail_if_ok. apply bind_Ok in Hr as (body & Hbody & Hr). apply fail_if_ok in Hr as [Hbounds Hr].
  apply fail_if_ok in Hr as [Hheaders Hr]. apply fail_if_ok in Hr as [Htotal [= <-]]. clear Hbody.
  apply orb_false_elim in Hmeta as [Hmeta H5]. apply orb_false_elim in Hmeta as [Hmeta H4]. apply orb_false_elim in Hmeta as [Hmeta H3].
  apply orb_false_elim in Hmeta as [H1 H2]. apply orb_false_elim in Hbounds as [Hbounds B4]. apply orb_false_elim in Hbounds as [Hbounds B3].
  apply orb_false_elim in Hbounds as [_ B2]. pose proof (effective_below (cf_MaxHTTPHeaderBytes cfg) AlphaHTTPMaxHeaderAggregateBytes).
  split; cbn [rp_Status rp_Headers rp_Body rp_BodyBytes rp_BodyTruncated rp_DurationMillis]; [lia|lia|lia| |by apply existsb_false|lia].
  destruct (hr_BodyTruncated response); cbn [negb andb] in B3, B4; [lia|]. apply negb_false_iff in B3. lia.
Qed.
Lemma helper_trusted request run r : helper_answer cfg request run = Ok r → clean_exit run = true ∧ trusted_response request r.
Proof.
  unfold helper_answer. intros [Hexit Hr]%fail_if_ok. apply negb_false_iff in Hexit. apply fail_if_ok in Hr as [_ Hr].
  apply bind_Ok in Hr as (response & _ & Hr). apply fail_if_ok in Hr as [_ Hr]. rewrite map_err_ok in Hr. split; [done|by eapply decoded_trusted].
Qed.
Lemma body_trusted ctx request t o t' : request_body cfg prepared containerName ctx request t = (o, t') →
  match ro_result o with
  | Ok r => trusted_response request r ∧ ro_started o = true ∧ ro_residueUncertain o = false
  | Err _ => True
  end.
Proof.
  unfold request_body. destruct en_input as [input|]; [|by intros [-> _]%give_done].
  destruct (validateTrustedHTTPRequest cfg request); [|by intros [-> _]%give_done].
  intros (s & t1 & _ & Hr)%bind_io_done. destruct s; [by apply give_done in Hr as [-> _]|].
  destruct (cf_MaxStepTimeout cfg <? tr_Timeout request); [by apply give_done in Hr as [-> _]|].
  destruct (runtimeExecutable (adapter prepared)); [|by apply give_done in Hr as [-> _]].
  apply bind_io_done in Hr as (run & t2 & _ & Hr). apply give_done in Hr as [-> _]. cbn [ro_result ro_started ro_residueUncertain].
  destruct (helper_answer cfg request run) as [r|] eqn:E; [|done]. apply helper_trusted in E as [Hc Hr]. by rewrite Hc.
Qed.
Lemma request_trusted_run ctx request t r started t' :
  runTrustedHTTPRequestWithStart cfg prepared containerName ctx request t = ((Ok r, started), t') → trusted_response request r.
Proof.
  unfold runTrustedHTTPRequestWithStart. intros (o & t1 & Ho & Hr)%bind_io_done. pose proof (body_trusted _ _ _ _ _ Ho) as Hb.
  destruct (ro_result o) as [r'|e]; [apply give_done in Hr as [[= <- _] _]; apply Hb|].
  destruct (ro_residueUncertain o); [apply bind_io_done in Hr as (e' & t2 & _ & Hr)|]; apply give_done in Hr as [[=] _].
Qed.

(** ** The assertions *)

(** What is established of an assertion whose result passed: the recorded
    response satisfies it, a snapshot of the digest in the result satisfied the
    schema, or the helper saw the file. *)
Record evident (a : PlanAssertion) (result : AssertionResult) (exchanges : gmap string httpExchange) : Prop := {
  et_response : ∀ spec, pa_Response a = Some spec →
    ∃ exchange, exchanges !! pra_RequestID spec = Some exchange ∧ response_holds prepared (hx_Response exchange) spec;
  et_json : ∀ file, pa_JSONFile a = Some file → ∃ content document s, decoded content = Ok document
    ∧ structuredJSONSchema prepared (pjf_Schema file) = Some s ∧ Schema_Validate (Some s) document = Ok tt
    ∧ ar_Actual result = VMap [("path", VStr (pjf_Path file)); ("bytes", VInt (zlen content)); ("sha256", VStr (digest_text content));
                               ("strictJSON", VBool true); ("jsonSchemaMatched", VBool true)];
  et_file : pa_FileExists a ≠ "" → ∃ t context args,
    lstat_status (en_run t context (pr_Backend prepared) args) = Some "exists" ∧ last args = Some (pa_FileExists a) }.

Lemma snapshot_read raw snapshot : decodeHTTPJSONFileReadResponse raw = Ok snapshot →
  sn_size snapshot = zlen (sn_content snapshot) ∧ sn_sha256 snapshot = digest_text (sn_content snapshot).
Proof.
  unfold decodeHTTPJSONFileReadResponse. intros [_ Hr]%fail_if_ok. apply bind_Ok in Hr as (response & _ & Hr).
  destruct (rr_Status response !=s "ok"); [by apply fail_if_ok in Hr as [_ Hr]|].
  destruct (rr_Size response), (rr_ContentBase64 response), (rr_SHA256 response); try discriminate Hr. unfold read_snapshot_fields in Hr.
  apply fail_if_ok in Hr as [_ Hr]. apply bind_Ok in Hr as (content & _ & Hr). apply fail_if_ok in Hr as [_ Hr]. by apply fail_if_ok in Hr as [_ [= <-]].
Qed.
Lemma json_file_read ctx path t snapshot started t' :
  readHTTPOutputJSONFileWithStart cfg prepared containerName ctx path t = ((Ok snapshot, started), t') →
  sn_size snapshot = zlen (sn_content snapshot) ∧ sn_sha256 snapshot = digest_text (sn_content snapshot).
Proof.
  unfold readHTTPOutputJSONFileWithStart. destruct (validateHTTPOutputAssertionPath path); [|by intros [[=] _]%give_done].
  destruct (runtimeExecutable (adapter prepared)); [|by intros [[=] _]%give_done].
  intros (run & t1 & _ & Hr)%bind_io_done. apply bind_io_done in Hr as (err & t2 & _ & Hr). apply give_done in Hr as [Hr _]. apply pair_equal_spec in Hr as [Hr _].
  symmetry in Hr. do 3 (apply fail_if_ok in Hr as [_ Hr]). by eapply snapshot_read.
Qed.
Lemma read_status_unpassed failure : (read_status failure).1 ≠ "passed". Proof. by destruct failure. Qed.

Lemma json_result_passed a file read duration :
  (∀ snapshot, read = Ok snapshot → sn_size snapshot = zlen (sn_content snapshot) ∧ sn_sha256 snapshot = digest_text (sn_content snapshot)) →
  passed (json_file_result prepared a file read duration) →
  ∃ content document s, decoded content = Ok document ∧ structuredJSONSchema prepared (pjf_Schema file) = Some s
    ∧ Schema_Validate (Some s) document = Ok tt
    ∧ ar_Actual (json_file_result prepared a file read duration)
      = VMap [("path", VStr (pjf_Path file)); ("bytes", VInt (zlen content)); ("sha256", VStr (digest_text content));
              ("strictJSON", VBool true); ("jsonSchemaMatched", VBool true)].
Proof.
  intros Hread. unfold passed, json_file_result. destruct read as [snapshot|failure].
  - destruct (Hread snapshot eq_refl) as [Esize Edigest]. unfold snapshot_status. destruct (decoded (sn_content snapshot)) as [document|] eqn:Ed; [|done].
    destruct (structuredJSONSchema prepared (pjf_Schema file)) as [s|] eqn:Es; [|done]. destruct (Schema_Validate (Some s) document) as [[]|kind] eqn:Ev.
    + intros _. exists (sn_content snapshot), document, s. split_and!; [done|done|done|]. cbn [ar_Actual]. by rewrite Esize, Edigest.
    + by case_bool_decide.
  - destruct (read_status failure) as [status message] eqn:E. intros Hp. destruct (read_status_unpassed failure). by rewrite E.
Qed.

(** One assertion: its result is recorded under its id, and stops the journey
    unless it is evident. *)
Lemma assertion_step_run st a t st' err t' : single_operation a →
  assertion_step cfg prepared containerName st a t = ((st', err), t') →
  ∃ result, jn_results st' = <[pa_ID a := result]> (jn_results st) ∧ jn_exchanges st' = jn_exchanges st ∧ ar_ID result = pa_ID a
    ∧ (err = None ↔ passed result) ∧ (passed result → evident a result (jn_exchanges st)).
Proof.
  intros Hone. unfold assertion_step. destruct (pa_JSONFile a) as [file|] eqn:Ej.
  - assert (pa_Response a = None ∧ pa_FileExists a = "") as [Er Ef] by (destruct Hone as [(_ & E & _)|[(? & _ & ?)|(_ & E & _)]]; [congruence|done|congruence]).
    intros ([result started] & t1 & Hi & Hr)%bind_io_done. apply give_done in Hr as [[= -> ->] _].
    unfold inspectHTTPJSONFileAssertionWithStart in Hi. apply bind_io_done in Hi as (t0 & t2 & _ & Hi). apply bind_io_done in Hi as ([read started'] & t3 & Hread & Hi).
    apply bind_io_done in Hi as (t4 & t5 & _ & Hi). apply give_done in Hi as [[= -> ->] _]. eexists. split; [done|]. split; [done|].
    assert (∀ snapshot, read = Ok snapshot → sn_size snapshot = zlen (sn_content snapshot) ∧ sn_sha256 snapshot = digest_text (sn_content snapshot)) as Hsnap
      by (intros snapshot ->; by eapply json_file_read).
    split; [unfold json_file_result; by destruct (match read with Ok _ => _ | Err _ => _ end) as [[? ?] ?]|]. split; [apply file_error_none|].
    intros Hp. split; [by rewrite Er|rewrite Ej; intros file' [= <-]; by apply json_result_passed|by rewrite Ef].
  - destruct (String.eqb_spec (pa_FileExists a) "") as [Ef|Ef]; cbn [negb].
    + destruct (pa_Response a) as [spec|] eqn:Er; [|destruct Hone as [([? E] & _)|[(_ & [? E] & _)|(_ & _ & ?)]]; congruence].
      intros [[= -> ->] _]%give_done. destruct (response_status prepared a spec (jn_exchanges st) Er) as [Hs Eid]. eexists. split; [done|]. split; [done|].
      split; [exact Eid|]. split; [by apply response_error_none|]. intros Hp. split; [|by rewrite Ej|by rewrite Ef].
      intros spec' Hspec. rewrite Er in Hspec. injection Hspec as <-. unfold passed, evaluateHTTPResponseAssertion in Hp. rewrite Er in Hp.
      destruct (jn_exchanges st !! pra_RequestID spec) as [exchange|]; [|done]. exists exchange. split; [done|]. by apply response_evaluated.
    + assert (pa_Response a = None) as Er by (destruct Hone as [(_ & _ & ?)|[(? & _)|(? & _)]]; congruence).
      intros ([result started] & t1 & Hi & Hr)%bind_io_done. apply give_done in Hr as [[= -> ->] _]. eexists. split; [done|]. split; [done|].
      unfold inspectHTTPFileAssertionWithStart in Hi. destruct (validateHTTPOutputAssertionPath (pa_FileExists a)).
      2: { apply give_done in Hi as [[= -> ->] _]. split; [done|]. split; [apply file_error_none|done]. }
      destruct (runtimeExecutable (adapter prepared)) as [executable|].
      2: { apply give_done in Hi as [[= -> ->] _]. split; [done|]. split; [apply file_error_none|done]. }
      apply bind_io_done in Hi as (t0 & t2 & _ & Hi). apply bind_io_done in Hi as (run & t3 & Hrun & Hi). apply ask_done in Hrun as [Hrun _].
      apply bind_io_done in Hi as (t4 & t5 & _ & Hi). apply give_done in Hi as [[= -> ->] _].
      split; [unfold lstat_result; by repeat case_match|]. split; [apply file_error_none|]. intros Hp. split; [by rewrite Er|by rewrite Ej|]. intros _.
      exists t2, (WithTimeout RunContext (helper_timeout cfg)), (root_exec containerName executable
        (script_args (adapter prepared =s "python") nodeHTTPFileLstatScript pythonHTTPFileLstatScript [pa_FileExists a])).
      rewrite Hrun. split; [|unfold root_exec, script_args; by rewrite last_app, last_app]. revert Hp. unfold passed, lstat_result. by repeat case_match.
Qed.
End run.

(** ** The invariant of the journey *)

Section journey.
Context `{Engine} `{HelperScripts}.
Variables (cfg : Config) (prepared : PreparedRun) (containerName serviceID : string) (assertions : list (string * PlanAssertion)).
Hypothesis Hassertions : ∀ id a, assoc id assertions = Some a → pa_ID a = id ∧ single_operation a.

Record invariant (reqs refs : list string) (st : journey) : Prop := {
  iv_requests : ∀ id, id ∈ reqs → ∃ x, jn_exchanges st !! id = Some x ∧ trusted_response cfg (hx_Request x) (hx_Response x);
  iv_exchanges : ∀ id x, jn_exchanges st !! id = Some x → id ∈ reqs;
  iv_results : ∀ id, id ∈ refs → ∃ result, jn_results st !! id = Some result ∧ passed result ∧ ar_ID result = id
    ∧ ∀ a, assoc id assertions = Some a → evident prepared a result (jn_exchanges st);
  iv_only : ∀ id result, jn_results st !! id = Some result → id ∈ refs }.

Lemma invariant_start : invariant [] [] no_journey.
Proof.
  split; [by intros id ?%elem_of_nil| |by intros id ?%elem_of_nil|]; intros id x; cbn [no_journey jn_exchanges jn_results]; by rewrite lookup_empty.
Qed.

(** Later requests leave the evidence of an assertion in place. *)
Lemma evident_grows a result exchanges id x : evident prepared a result exchanges → exchanges !! id = None → evident prepared a result (<[id := x]> exchanges).
Proof.
  intros [Hr Hj Hf] Hnew. split; [|exact Hj|exact Hf]. intros spec Hs. destruct (Hr spec Hs) as (exchange & He & Hh). exists exchange. split; [|exact Hh].
  rewrite lookup_insert_ne; [exact He|]. intros ->. by rewrite He in Hnew.
Qed.

Lemma request_id planned timeout body header request :
  trustedHTTPRequestFromPlan planned timeout body header = Ok request → tr_ID request = prq_ID planned.
Proof.
  unfold trustedHTTPRequestFromPlan. intros (t & _ & Hr)%bind_Ok. do 2 apply fail_if_ok in Hr as [_ Hr]. apply bind_Ok in Hr as (u & _ & Hr).
  apply bind_Ok in Hr as ([headers total] & _ & Hr). apply bind_Ok in Hr as ([[b hs] total'] & _ & Hr). do 3 apply fail_if_ok in Hr as [_ Hr].
  apply bind_Ok in Hr as (v & _ & Hr). by apply fail_if_ok in Hr as [_ [= <-]].
Qed.

Lemma request_step_run reqs refs st planned t st' err t' : prq_ID planned ∉ reqs → invariant reqs refs st →
  request_step cfg prepared containerName st planned t = ((st', err), t') →
  jn_results st' = jn_results st ∧ (err = None → invariant (reqs ++ [prq_ID planned]) refs st').
Proof.
  intros Hnew [Hreq Hex Hres Honly]. unfold request_step. destruct (trustedHTTPRequestFromPlan _ _ _ _) as [request|] eqn:Erequest; [|by intros [[= -> ->] _]%give_done].
  apply request_id in Erequest. intros ([answered started] & t1 & Hrun & Hr)%bind_io_done. apply bind_io_done in Hr as (contextErr & t2 & _ & Hr).
  apply bind_io_done in Hr as (timestamp & t3 & _ & Hr).
  destruct answered as [r|e]; [destruct contextErr as [s|]|]; cbn iota beta in Hr;
    try (apply bind_io_done in Hr as (run & t4 & _ & Hr)); apply give_done in Hr as [[= -> ->] _]; (split; [done|]); [done| |done].
  intros _. apply request_trusted_run in Hrun.
  assert (jn_exchanges st !! tr_ID request = None) as Hnone by (apply eq_None_not_Some; intros [x Hx]; apply Hnew; rewrite <- Erequest; by eapply Hex).
  split; cbn [jn_exchanges jn_results].
  - rewrite <- Erequest. intros id [Hin| ->%list_elem_of_singleton]%elem_of_app.
    + destruct (Hreq id Hin) as (x & Hx & Ht). exists x. split; [|done]. rewrite lookup_insert_ne; [done|]. intros <-. by rewrite Hx in Hnone.
    + eexists. split; [apply lookup_insert_eq|done].
  - rewrite <- Erequest. intros id x. destruct (decide (tr_ID request = id)) as [<-|Hne]; [intros _; apply elem_of_app; right; by apply list_elem_of_singleton|].
    rewrite lookup_insert_ne by done. intros Hx. apply elem_of_app. left. by eapply Hex.
  - intros id Hin. destruct (Hres id Hin) as (result & Hr & Hp & Hid & He). exists result. split_and!; [done|done|done|].
    intros a Ha. by apply evident_grows; [apply He|].
  - exact Honly.
Qed.

(** What a step leaves: everything before it and itself, or the error that stops
    the journey with at most its own result. *)
Lemma journey_step_run reqs refs st step t st' err t' : invariant reqs refs st →
  journey_step cfg prepared containerName assertions serviceID st step t = ((st', err), t') →
  (∀ r, pds_Request step = Some r → prq_ID r ∉ reqs →
     jn_results st' = jn_results st ∧ (err = None → invariant (reqs ++ [prq_ID r]) refs st'))
  ∧ (∀ a, pds_Request step = None → assoc (pds_AssertionID step) assertions = Some a → pds_AssertionID step ∉ refs →
     (err = None → invariant reqs (refs ++ [pds_AssertionID step]) st')
     ∧ (jn_results st' = jn_results st ∨ ∃ result, jn_results st' = <[pds_AssertionID step := result]> (jn_results st) ∧ ar_ID result = pds_AssertionID step)).
Proof.
  intros Hinv. unfold journey_step. intros (s & t1 & _ & Hr)%bind_io_done.
  destruct s as [s|]; [apply give_done in Hr as [[= -> ->] _]; split; [done|intros a _ _ _; split; [done|by left]]|].
  apply bind_io_done in Hr as (exit & t2 & _ & Hr).
  destruct exit as [exit|]; [apply give_done in Hr as [[= -> ->] _]; split; [done|intros a _ _ _; split; [done|by left]]|].
  split.
  - intros r Er Hnew. rewrite Er in Hr. by eapply request_step_run.
  - intros a Er Ha Hnew. rewrite Er, Ha in Hr. cbn [default] in Hr. destruct (Hassertions _ _ Ha) as [Eid Hone].
    destruct (assertion_step_run _ _ _ _ _ _ _ _ _ Hone Hr) as (result & Eres & Eex & Hid & Herr & Hev). rewrite Eid in *.
    split; [|right; by exists result]. intros Hnone. apply Herr in Hnone. destruct Hinv as [Hreq Hex Hres Honly]. split; rewrite ?Eex, ?Eres; [done|done| |].
    + intros id [Hin| ->%list_elem_of_singleton]%elem_of_app.
      * destruct (Hres id Hin) as (old & Hold & Hrest). exists old. split; [|exact Hrest]. rewrite lookup_insert_ne; [exact Hold|]. by intros <-.
      * exists result. split_and!; [apply lookup_insert_eq|done|done|]. intros a' Ha'. rewrite Ha in Ha'. injection Ha' as <-. by apply Hev.
    + intros id old. destruct (decide (pds_AssertionID step = id)) as [<-|Hne]; [intros _; apply elem_of_app; right; by apply list_elem_of_singleton|].
      rewrite lookup_insert_ne by done. intros Hold. apply elem_of_app. left. by eapply Honly.
Qed.

Definition step_requests (step : PlanHTTPDriverStep) : list string := match pds_Request step with Some r => [prq_ID r] | None => [] end.

Lemma ordered_fresh reqs refs steps : ordered assertions reqs refs steps → ∀ id, id ∈ references steps → id ∉ refs.
Proof.
  induction 1 as [|reqs refs step r rest Er _ _ _ IH|reqs refs step a rest Er _ _ Hnew _ _ IH]; intros id; [by intros ?%elem_of_nil| |];
    change (references (step :: rest)) with (step_references step ++ references rest); unfold step_references; rewrite Er; cbn [is_some app]; [by apply IH|].
  intros [->|Hin]%elem_of_cons; [done|]. specialize (IH id Hin). rewrite elem_of_app in IH. tauto.
Qed.
(** What the invariant says of the results once the journey has stopped. *)
Lemma stopped_results reqs refs st st' id result (rest : list string) : invariant reqs refs st →
  jn_results st' = jn_results st ∨ jn_results st' = <[id := result]> (jn_results st) → id ∉ refs → (∀ x, x ∈ rest → x ∉ refs ++ [id]) →
  (∀ x, x ∈ refs → ∃ result, jn_results st' !! x = Some result ∧ passed result) ∧ ∀ x, x ∈ rest → jn_results st' !! x = None.
Proof.
  intros Hinv Hst Hid Hrest. split.
  - intros x Hx. destruct (iv_results _ _ _ Hinv x Hx) as (old & Hold & Hp & _). exists old. split; [|done].
    destruct Hst as [-> | ->]; [done|]. rewrite lookup_insert_ne; [done|]. by intros ->.
  - intros x Hx%Hrest. rewrite elem_of_app, list_elem_of_singleton in Hx. assert (jn_results st !! x = None) as Hnone.
    { apply eq_None_not_Some. intros [old Hold]. apply Hx. left. by eapply iv_only. }
    destruct Hst as [-> | ->]; [done|]. rewrite lookup_insert_ne; [done|]. intros ->. apply Hx. by right.
Qed.

(** The whole journey: all of it, or a part of it and at most one result more. *)
Lemma journey_run reqs refs steps : ordered assertions reqs refs steps → ∀ st t st' err t', invariant reqs refs st →
  journey_steps cfg prepared containerName assertions serviceID st steps t = ((st', err), t') →
  (err = None → invariant (reqs ++ flat_map step_requests steps) (refs ++ references steps) st')
  ∧ (is_Some err → ∃ past rest, refs ++ references steps = past ++ rest
       ∧ (∀ id, id ∈ past → ∃ result, jn_results st' !! id = Some result ∧ passed result)
       ∧ ∀ id, id ∈ tl rest → jn_results st' !! id = None).
Proof.
  induction 1 as [reqs refs|reqs refs step r rest Er Ea Hnew Hord IH|reqs refs step a rest Er Ea Ha Hnew Hearlier Hord IH];
    intros st t st' err t' Hinv; cbn [journey_steps].
  - intros (exit & t1 & _ & Hr)%bind_io_done. apply give_done in Hr as [[= -> ->] _]. cbn [flat_map references]. rewrite !app_nil_r. split; [done|].
    intros _. exists refs, []. rewrite app_nil_r. split_and!; [done| |by intros id ?%elem_of_nil].
    intros id Hin. destruct (iv_results _ _ _ Hinv id Hin) as (result & Hr & Hp & _). by exists result.
  - intros ([st1 err1] & t1 & Hstep & Hr)%bind_io_done. destruct (journey_step_run _ _ _ _ _ _ _ _ Hinv Hstep) as [Hrun _].
    destruct (Hrun r Er Hnew) as [Eres Hnext].
    change (references (step :: rest)) with (step_references step ++ references rest). change (flat_map step_requests (step :: rest)) with (step_requests step ++ flat_map step_requests rest).
    unfold step_references, step_requests at 1. rewrite Er. cbn [is_some app]. destruct err1 as [e|].
    + apply give_done in Hr as [[= -> ->] _]. split; [done|]. intros _. exists refs, (references rest). rewrite Eres.
      assert (∀ x, x ∈ references rest → jn_results st !! x = None) as Hnone.
      { intros x Hx. apply eq_None_not_Some. intros [old Hold]. apply (ordered_fresh _ _ _ Hord x Hx). by eapply iv_only. }
      split_and!; [done| |].
      * intros id Hin. destruct (iv_results _ _ _ Hinv id Hin) as (result & Hr & Hp & _). by exists result.
      * intros id Hin. apply Hnone. destruct (references rest); [done|by apply list_elem_of_further].
    + destruct (IH _ _ _ _ _ (Hnext eq_refl) Hr) as [Hall Hsome]. split; [|exact Hsome]. intros Hnone. specialize (Hall Hnone). by rewrite <- app_assoc in Hall.
  - intros ([st1 err1] & t1 & Hstep & Hr)%bind_io_done. destruct (journey_step_run _ _ _ _ _ _ _ _ Hinv Hstep) as [_ Hrun].
    destruct (Hrun a Er Ha Hnew) as [Hnext Hst].
    change (references (step :: rest)) with (step_references step ++ references rest). change (flat_map step_requests (step :: rest)) with (step_requests step ++ flat_map step_requests rest).
    unfold step_references, step_requests at 1. rewrite Er. cbn [is_some app]. destruct err1 as [e|].
    + apply give_done in Hr as [[= -> ->] _]. split; [done|]. intros _. exists refs, (pds_AssertionID step :: references rest). split; [done|]. cbn [tl].
      assert (∃ result, jn_results st1 = jn_results st ∨ jn_results st1 = <[pds_AssertionID step := result]> (jn_results st)) as [result Hone].
      { destruct Hst as [E|(result & E & _)]; [exists (blockedOrderedHTTPAssertion "" ""); by left|exists result; by right]. }
      exact (stopped_results _ _ _ _ _ _ _ Hinv Hone Hnew (ordered_fresh _ _ _ Hord)).
    + destruct (IH _ _ _ _ _ (Hnext eq_refl) Hr) as [Hall Hsome]. rewrite <- app_assoc in Hall, Hsome. split; [|exact Hsome]. exact Hall.
Qed.
End journey.

(** ** The results of a journey *)

(** What the list of results has for an assertion. *)
Definition ordered_result (assertions : list (string * PlanAssertion)) (results : gmap string AssertionResult) (id : string) : AssertionResult :=
  default (blockedOrderedHTTPAssertion id (default "" (assoc id assertions ≫= ordered_type))) (results !! id).

Lemma single_ordered_type a : single_operation a → is_Some (ordered_type a).
Proof.
  unfold ordered_type. intros [([spec Hr] & Hj & Hf)|[(Hr & [file Hj] & Hf)|(Hr & Hj & Hf)]]; rewrite Hr, ?Hj; cbn [is_some]; rewrite ?orb_true_r; [done|done|].
  by destruct (String.eqb_spec (pa_FileExists a) "").
Qed.

Lemma ordered_results assertions results reqs refs steps : (∀ id a, assoc id assertions = Some a → pa_ID a = id ∧ single_operation a) →
  ordered assertions reqs refs steps → flat_map (step_result assertions results) steps = List.map (ordered_result assertions results) (references steps).
Proof.
  intros Hone. induction 1 as [|reqs refs step r rest Er Ea _ _ IH|reqs refs step a rest Er Ea Ha _ _ _ IH]; [done| |];
    change (references (step :: rest)) with (step_references step ++ references rest); cbn [flat_map]; rewrite IH, map_app;
    (f_equal; []); unfold step_result, step_references; rewrite Er; cbn [is_some List.map].
  - by rewrite Ea.
  - destruct (String.eqb_spec (pds_AssertionID step) ""); [done|]. destruct (Hone _ _ Ha) as [Eid [kind Hk]%single_ordered_type]. unfold ordered_result.
    rewrite Ha, Hk, Eid. cbn [mbind option_bind]. by rewrite Hk.
Qed.

Lemma plan_assertions_single l : NoDup (List.map pa_ID l) → Forall single_operation l →
  ∀ id a, assoc id (assertion_map l) = Some a ↔ a ∈ l ∧ pa_ID a = id.
Proof.
  intros Hd Hall id a. rewrite (assertion_map_distinct _ Hd). split.
  - intros Ha%assoc_In. apply list_elem_of_In, in_map_iff in Ha as (b & [= <- <-] & Hb). by rewrite list_elem_of_In.
  - intros [Hin <-]. apply assoc_NoDup; [by rewrite assertion_map_keys|]. apply list_elem_of_In, in_map_iff. exists a. by rewrite <- list_elem_of_In.
Qed.

(** What a journey that ended without an error establishes: every request was
    answered with a response the runner trusts, and every assertion of the plan
    has one result, which passed on evidence. *)
Record journey_established `{Engine} (cfg : Config) (prepared : PreparedRun) (plan : FullPlan) (steps : list PlanHTTPDriverStep)
    (exchanges : gmap string httpExchange) (results : list AssertionResult) : Prop := {
  je_answered : ∀ id, id ∈ flat_map step_requests steps → is_Some (exchanges !! id);
  je_trusted : ∀ id exchange, exchanges !! id = Some exchange → trusted_response cfg (hx_Request exchange) (hx_Response exchange);
  je_complete : List.map ar_ID results ≡ₚ List.map pa_ID (fp_JourneyAssertions plan);
  je_passed : Forall passed results;
  je_evident : ∀ a, a ∈ fp_JourneyAssertions plan → ∃ result, result ∈ results ∧ ar_ID result = pa_ID a ∧ evident prepared a result exchanges;
  je_no_failure : assertionFailure results = None }.

Section results.
Variables (prepared : PreparedRun) (plan : FullPlan) (planned : PlanHTTPJourney).
Hypotheses (Haccepted : accepted_journey plan planned) (Hplan : pr_executionPlan prepared = plan) (Hjourney : fp_HTTPJourney plan = Some planned).
Abbreviation assertions := (assertion_map (fp_JourneyAssertions plan)).

Lemma plan_assertion id a : assoc id assertions = Some a ↔ a ∈ fp_JourneyAssertions plan ∧ pa_ID a = id.
Proof. destruct Haccepted as [Hd Hsingle _ _]. by apply plan_assertions_single. Qed.
Lemma plan_assertion_single id a : assoc id assertions = Some a → pa_ID a = id ∧ single_operation a.
Proof. intros [Hin <-]%plan_assertion. destruct Haccepted as [_ Hsingle _ _]. rewrite Forall_forall in Hsingle. auto. Qed.
Lemma results_of_plan results :
  evaluateHTTPJourneyAssertions prepared results = List.map (ordered_result assertions results) (references (phj_Steps planned)).
Proof. unfold evaluateHTTPJourneyAssertions. rewrite Hplan, Hjourney. eapply ordered_results; [exact plan_assertion_single|apply Haccepted]. Qed.

Lemma ordered_recorded results id result : results !! id = Some result → ordered_result assertions results id = result.
Proof. unfold ordered_result. by intros ->. Qed.
Lemma ordered_blocked results ids : (∀ id, id ∈ ids → results !! id = None) →
  List.map (ordered_result assertions results) ids
  = List.map (λ id, blockedOrderedHTTPAssertion id (default "" (assoc id assertions ≫= ordered_type))) ids.
Proof. intros Hnone. apply map_ext_in. intros id Hin%list_elem_of_In. unfold ordered_result. by rewrite Hnone. Qed.
Lemma ordered_passed results ids : (∀ id, id ∈ ids → ∃ result, results !! id = Some result ∧ passed result) →
  Forall passed (List.map (ordered_result assertions results) ids).
Proof.
  intros Hall. apply List.Forall_map, Forall_forall. intros id Hin. destruct (Hall id Hin) as (result & Hr & Hp). by rewrite (ordered_recorded _ _ _ Hr).
Qed.

Context `{Engine} `{HelperScripts}.
Variables (cfg : Config) (containerName serviceID : string).

(** The invariant at the last step is what the journey establishes. *)
Lemma established st :
  invariant cfg prepared assertions (flat_map step_requests (phj_Steps planned)) (references (phj_Steps planned)) st →
  journey_established cfg prepared plan (phj_Steps planned) (jn_exchanges st) (evaluateHTTPJourneyAssertions prepared (jn_results st)).
Proof.
  intros [Hreq Hex Hres Honly]. rewrite results_of_plan.
  assert (Forall passed (List.map (ordered_result assertions (jn_results st)) (references (phj_Steps planned)))) as Hpassed.
  { apply ordered_passed. intros id Hin. destruct (Hres id Hin) as (result & Hr & Hp & _). by exists result. }
  split; [| | |exact Hpassed| |by apply all_passed].
  - intros id Hin. destruct (Hreq id Hin) as (x & Hx & _). by exists x.
  - intros id x Hx. destruct (Hreq id (Hex id x Hx)) as (x' & Hx' & Ht). rewrite Hx in Hx'. by injection Hx' as <-.
  - rewrite <- (aj_all _ _ Haccepted), map_map. etransitivity; [apply Permutation_refl', (map_ext_in _ (λ id, id))|by rewrite map_id].
    intros id Hin%list_elem_of_In. destruct (Hres id Hin) as (result & Hr & _ & Hid & _). by rewrite (ordered_recorded _ _ _ Hr).
  - intros a Ha. assert (pa_ID a ∈ references (phj_Steps planned)) as Hin.
    { rewrite (aj_all _ _ Haccepted). apply list_elem_of_In, in_map. by apply list_elem_of_In. }
    destruct (Hres _ Hin) as (result & Hr & _ & Hid & Hev). exists result. split_and!; [|exact Hid|].
    + rewrite <- (ordered_recorded _ _ _ Hr). apply list_elem_of_In, in_map. by apply list_elem_of_In.
    + apply Hev. by apply plan_assertion.
Qed.
End results.

Definition not_reached (result : AssertionResult) : Prop := ∃ id kind, result = blockedOrderedHTTPAssertion id kind.

Section theorems.
Context `{RegexpSyntax} `{Engine} `{HelperScripts}.

(** C32: when the runner accepts a plan and [executeHTTPJourney] ends without an
    error, every request of the journey was answered with a response within the
    runner's limits, every assertion of the plan has exactly one result, all of
    them passed, and each passed on evidence: the recorded response satisfies
    it, the digest in the result is that of a document the schema accepts, or
    the helper saw the file.  This holds for every engine and every timing. *)
Theorem journey_success_sound cfg plan steps platform planned prepared containerName serviceID t st t' :
  validatePlan cfg plan = Ok (steps, platform) → pr_executionPlan prepared = plan → fp_HTTPJourney plan = Some planned →
  executeHTTPJourney cfg prepared containerName serviceID t = ((st, None), t') →
  journey_established cfg prepared plan (phj_Steps planned) (jn_exchanges st) (evaluateHTTPJourneyAssertions prepared (jn_results st)).
Proof.
  intros Hvalid Hplan Hj. pose proof (plan_accepted_journey _ _ _ _ _ Hvalid Hj) as Hacc. unfold executeHTTPJourney. rewrite Hplan, Hj.
  destruct (pr_sealed prepared); [|by intros [[=] _]%give_done]. intros Hrun. apply established; [done..|].
  by apply (journey_run _ _ _ _ _ (plan_assertion_single _ _ Hacc) _ _ _ (aj_ordered _ _ Hacc) _ _ _ _ _ (invariant_start _ _ _)) in Hrun as [Hall _]; auto.
Qed.

(** C33: when the journey of an accepted plan stops with an error, its results
    are in the order of its steps one for each assertion of the plan: those
    before the step that stopped it passed, at most one has the result of that
    step, and every later one is blocked as not reached.  No assertion after
    the first that did not hold is ever reported as evaluated. *)
Theorem journey_stops_in_order cfg plan steps platform planned prepared containerName serviceID t st e t' :
  validatePlan cfg plan = Ok (steps, platform) → pr_executionPlan prepared = plan → fp_HTTPJourney plan = Some planned →
  executeHTTPJourney cfg prepared containerName serviceID t = ((st, Some e), t') →
  let results := evaluateHTTPJourneyAssertions prepared (jn_results st) in
  length results = length (fp_JourneyAssertions plan)
  ∧ ∃ before stopped after, results = before ++ stopped ++ after ∧ Forall passed before ∧ (length stopped <= 1)%nat ∧ Forall not_reached after.
Proof.
  intros Hvalid Hplan Hj. pose proof (plan_accepted_journey _ _ _ _ _ Hvalid Hj) as Hacc. intros Hrun. cbn zeta.
  rewrite (results_of_plan prepared plan planned Hacc Hplan Hj). split.
  { rewrite List.length_map, (Permutation_length (aj_all _ _ Hacc)). by rewrite List.length_map. }
  assert (∃ past rest, references (phj_Steps planned) = past ++ rest
    ∧ (∀ id, id ∈ past → ∃ result, jn_results st !! id = Some result ∧ passed result) ∧ ∀ id, id ∈ tl rest → jn_results st !! id = None)
    as (past & rest & -> & Hpast & Hrest).
  { unfold executeHTTPJourney in Hrun. rewrite Hplan, Hj in Hrun. destruct (pr_sealed prepared).
    - by apply (journey_run _ _ _ _ _ (plan_assertion_single _ _ Hacc) _ _ _ (aj_ordered _ _ Hacc) _ _ _ _ _ (invariant_start _ _ _)) in Hrun as [_ Hsome]; auto.
    - apply give_done in Hrun as [[= -> _] _]. exists [], (references (phj_Steps planned)). split_and!; [done|by intros id ?%elem_of_nil|].
      intros id _. apply lookup_empty. }
  pose proof (firstn_skipn 1 rest) as Hsplit. assert (skipn 1 rest = tl rest) as Hskip by (by destruct rest). rewrite Hskip in Hsplit.
  rewrite <- Hsplit, !map_app. eexists _, _, _. split; [reflexivity|]. split_and!.
  - by apply ordered_passed.
  - rewrite List.length_map, length_firstn. lia.
  - rewrite (ordered_blocked _ _ _ Hrest). apply List.Forall_map, Forall_forall. intros id _. by eexists _, _.
Qed.
End theorems.

(** ** A journey that holds and one that stops *)

#[local] Existing Instance any_expression.
#[local] Existing Instance one_file.
#[local] Instance no_scripts : HelperScripts :=
  {| nodeHTTPHelperScript := "node request"; pythonHTTPHelperScript := "python request"; nodeHTTPFileLstatScript := "node lstat";
     pythonHTTPFileLstatScript := "python lstat"; nodeHTTPJSONFileReadScript := "node read"; pythonHTTPJSONFileReadScript := "python read";
     nodeHTTPDriverQuiesceScript := "node quiesce"; pythonHTTPDriverQuiesceScript := "python quiesce" |}.

(** The helper answers the text; the service ends at the call of that number. *)
Definition answering (control : string) (service_ends : nat) : Engine :=
  {| en_goos := "linux"; en_now := λ _, {| t_ns := 0; t_offset := 0 |}; en_context := λ _ _, None;
     en_run := λ _ _ _ _, {| an_exitCode := 0; an_error := None; an_stdout := []; an_stderr := [] |};
     en_input := Some (λ _ _ _ _ _, {| an_exitCode := 0; an_error := None; an_stdout := [control]; an_stderr := [] |});
     en_service := λ t, if decide (t = service_ends) then Some {| sx_error := None; sx_exitCode := 1 |} else None |}.
Definition failure_control : string := from_quotes "{'ok':false,'error':'timeout'}".
Definition served_run : PreparedRun :=
  {| pr_Backend := "docker"; pr_RunID := "run"; pr_SourceSnapshotDir := "/s"; pr_WorkspaceDir := "/w"; pr_OutputsDir := "/o"; pr_Inputs := [];
     pr_executionPlan := planned "serve"; pr_sealed := true; pr_schemas := Some [] |}.
Definition journey_under (e : Engine) : list string * string :=
  let '(st, err, _) := @executeHTTPJourney e no_scripts DefaultConfig served_run "container" "web" 0%nat in
  (List.map ar_Status (evaluateHTTPJourneyAssertions served_run (jn_results st)), match err with Some e => er_Code e | None => "" end).

Example journeys :
  [journey_under (answering success_control 100%nat); journey_under (answering failure_control 100%nat); journey_under (answering success_control 1%nat);
   journey_under (answering success_control 8%nat)]
  = [(["passed"], ""); (["blocked"], CodeTimeout); (["blocked"], CodeServiceStartFailed); (["passed"], CodeServiceStartFailed)].
Proof. vm_compute. reflexivity. Qed.

Lemma served_accepted : ∃ steps platform planned', validatePlan DefaultConfig (planned "serve") = Ok (steps, platform)
  ∧ fp_HTTPJourney (planned "serve") = Some planned'.
Proof. eexists _, _, _. split; vm_compute; reflexivity. Qed.

Lemma journey_success_sound_witness : ∃ st : journey, assertionFailure (evaluateHTTPJourneyAssertions served_run (jn_results st)) = None
  ∧ List.map ar_Status (evaluateHTTPJourneyAssertions served_run (jn_results st)) = ["passed"].
Proof.
  destruct served_accepted as (steps & platform & planned' & Hv & Hj).
  set (run := @executeHTTPJourney (answering success_control 100) no_scripts DefaultConfig served_run "container" "web" 0%nat).
  assert (run = ((run.1.1, None), run.2)) as Hrun by (vm_compute; reflexivity). exists run.1.1. split; [|vm_compute; reflexivity].
  exact (je_no_failure _ _ _ _ _ _ (@journey_success_sound any_expression (answering success_control 100) no_scripts DefaultConfig (planned "serve")
    steps platform planned' served_run "container" "web" 0%nat run.1.1 run.2 Hv eq_refl Hj Hrun)).
Defined.

Lemma journey_stops_in_order_witness : ∃ st : journey, List.map ar_Status (evaluateHTTPJourneyAssertions served_run (jn_results st)) = ["blocked"]
  ∧ length (evaluateHTTPJourneyAssertions served_run (jn_results st)) = length (fp_JourneyAssertions (planned "serve")).
Proof.
  destruct served_accepted as (steps & platform & planned' & Hv & Hj).
  set (run := @executeHTTPJourney (answering failure_control 100) no_scripts DefaultConfig served_run "container" "web" 0%nat).
  assert (∃ e, run = ((run.1.1, Some e), run.2)) as [e Hrun] by (eexists; vm_compute; reflexivity). exists run.1.1. split; [vm_compute; reflexivity|].
  exact (proj1 (@journey_stops_in_order any_expression (answering failure_control 100) no_scripts DefaultConfig (planned "serve")
    steps platform planned' served_run "container" "web" 0%nat run.1.1 e run.2 Hv eq_refl Hj Hrun)).
Defined.
