(* ===== verification/CommandAssertions.v ===== *)
(** * Evaluating the assertions of a command journey (internal/execution: assertions.go)

    What [evaluateJourneyAssertions] makes of the steps of a run and of the files
    it left: exit codes, the two streams, JSON on stdout, and entries below the
    mounts of the run, which are reached through no symbolic link.  The host's
    answers and what a user's regular expression matches are arguments; paths
    are those of the unix build, where [pathsecurity.Resolve] is
    [filepath.EvalSymlinks]. *)

From S2P Require Import Prelude Json StructuredJson GoValue Durations Domain GoPath GoStrings CleanupInventory PlanTypes SchemaPolicy SchemaInstance SchemaSource PlanDocument Engine JourneyAssertions JourneySafety.

Local Open Scope Z_scope.

Definition containerSource := "/source".
Definition containerWorkspace := "/workspace".

(** [regexp.Compile] and [Match] of the expression; [None] is an error. *)
Class Expressions := { compile_regexp : string → option (string → bool) }.

(** The answers to [os.Lstat], and to [pathsecurity.Resolve], at the call of that
    number; of an entry the code asks whether it is a symbolic link. *)
Inductive lstat_answer := Entry (symlink : bool) | Missing | Unreadable (text : string).
Class RunFiles := { rf_lstat : nat → string → lstat_answer; rf_resolve : nat → string → option string }.

Record StepResult := {
  sr_ID : string; sr_Phase : string; sr_Role : string; sr_ExitCode : Z; sr_Stdout : string; sr_Stderr : string; sr_Duration : Z; sr_LogBytes : Z;
  sr_LogTruncated : bool; sr_TimedOut : bool; sr_ContainerName : string; sr_CleanupAttempted : bool; sr_CleanupSucceeded : bool;
  sr_ErrorCode : string }.

(** The last step of the role, and its index. *)
Fixpoint journey_from (index : Z) (steps : list StepResult) : option (StepResult * Z) :=
  match steps with
  | [] => None
  | step :: rest =>
      match journey_from (index + 1) rest with
      | Some found => Some found
      | None => if sr_Role step =s "journey" then Some (step, index) else None
      end
  end.
Definition journeyStep (steps : list StepResult) : option (StepResult * Z) := journey_from 0 steps.

(** ** The operation of an assertion: the first that is declared, in the order of the code *)

Inductive operation :=
  | ExitCodeIs (code : Z) | StdoutHas (text : string) | StderrHas (text : string) | StdoutMatches (expression : string)
  | StdoutSatisfies (reference : PlanJSONSchemaRef) | FileExists (path : string) | NoOperation.
Definition operation_of (assertion : PlanAssertion) : operation :=
  match pa_ExitCode assertion with
  | Some code => ExitCodeIs code
  | None =>
      if pa_StdoutContains assertion !=s "" then StdoutHas (pa_StdoutContains assertion)
      else if pa_StderrContains assertion !=s "" then StderrHas (pa_StderrContains assertion)
      else if pa_StdoutRegex assertion !=s "" then StdoutMatches (pa_StdoutRegex assertion)
      else
        match pa_StdoutJSONSchema assertion with
        | Some reference => StdoutSatisfies reference
        | None => if pa_FileExists assertion !=s "" then FileExists (pa_FileExists assertion) else NoOperation
        end
  end.

(** ** Paths of the run *)

(** [filepath.Join] of two elements, the empty ones left out. *)
Definition join_path (a b : string) : string :=
  if a =s "" then (if b =s "" then "" else Clean b) else Join a b.
Definition pathWithin (parent candidate : string) : bool := negb (escapes (Rel (Clean parent) (Clean candidate))).
Definition samePath (first second : string) : bool := Clean first =s Clean second.

Definition mappings (prepared : PreparedRun) : list (string * string) :=
  [(containerOutputs, pr_OutputsDir prepared); (containerWorkspace, pr_WorkspaceDir prepared); (containerSource, pr_SourceSnapshotDir prepared)]
  ++ List.map (λ input, (im_ContainerPath input, im_SourcePath input)) (pr_Inputs prepared).
Definition mapped (sandboxPath : string) (candidate : string * string) : bool :=
  (sandboxPath =s candidate.1) || has_prefix (trim_suffix "/" candidate.1 +:+ "/") sandboxPath.
Definition host_path (sandboxPath : string) (candidate : string * string) : string :=
  join_path candidate.2 (trim_prefix "/" (trim_prefix candidate.1 sandboxPath)).
Definition relative_segments (relative : string) : list string := if relative =s "." then [] else split_on "/" relative.

Section files.
Context `{RunFiles}.

(** [Some true] once all of them were seen, [Some false] at the first that is missing. *)
Fixpoint inspect_segments (current : string) (segments : list string) : io (result string bool) :=
  match segments with
  | [] => give (Ok true)
  | segment :: rest =>
      let current := join_path current segment in
      do! info := ask (λ t, rf_lstat t current) in
      match info with
      | Missing => give (Ok false)
      | Unreadable text => give (Err text)
      | Entry true => give (Err "assertion path traverses a symbolic link or reparse point")
      | Entry false => inspect_segments current rest
      end
  end.
Definition rejectSymlinkPath (root target : string) : io (result string unit) :=
  match Rel root target with
  | None => give (Err "assertion path escaped mount")
  | Some relative =>
      if escapes (Some relative) then give (Err "assertion path escaped mount")
      else
        do! inspected := inspect_segments root (relative_segments relative) in
        match inspected with
        | Err e => give (Err e)
        | Ok false => give (Ok tt)
        | Ok true =>
            do! resolved := ask (λ t, rf_resolve t target) in
            give
              match resolved with
              | Some resolved =>
                  fail_if negb (samePath resolved target) || negb (pathWithin root resolved)
                    with "assertion path resolves outside its runner-owned mount" ;;
                  Ok tt
              | None => Ok tt
              end
        end
  end.
Definition hostPathForAssertion (prepared : PreparedRun) (sandboxPath : string) : io (result string string) :=
  if negb (is_rooted sandboxPath) || (Clean sandboxPath !=s sandboxPath) then give (Err "assertion path is not normalized")
  else
    match List.find (mapped sandboxPath) (mappings prepared) with
    | None => give (Err "assertion path is outside runner-owned mounts")
    | Some candidate =>
        let hostPath := host_path sandboxPath candidate in
        if negb (pathWithin candidate.2 hostPath) then give (Err "assertion path escaped mount")
        else
          do! rejected := rejectSymlinkPath candidate.2 hostPath in
          give (let! _ := rejected in Ok hostPath)
    end.

Definition entry_status (info : lstat_answer) : string * string * bool :=
  match info with
  | Entry false => ("passed", "Trusted runner observed the declared file-system entry.", true)
  | Entry true => ("failed", "Symbolic links do not satisfy file-exists assertions.", false)
  | Missing => ("failed", "Trusted runner did not observe the declared file-system entry.", false)
  | Unreadable _ => ("inconclusive", "Trusted runner could not inspect the declared file-system entry.", false)
  end.
Definition entry_result (prepared : PreparedRun) (assertionID : string) (outcome : string * string * bool) : AssertionResult :=
  {| ar_SchemaVersion := "1"; ar_ID := assertionID; ar_Type := "file-exists"; ar_Required := true; ar_Expected := VBool true;
     ar_Actual := VBool outcome.2; ar_Status := outcome.1.1; ar_EvidenceRefs := Some ["run:" +:+ pr_RunID prepared +:+ ":filesystem"];
     ar_Message := outcome.1.2; ar_Repeat := 0; ar_DurationMillis := 0 |}.
Definition evaluateFileExistsAssertion (prepared : PreparedRun) (assertionID sandboxPath : string) : io AssertionResult :=
  do! hostPath := hostPathForAssertion prepared sandboxPath in
  match hostPath with
  | Err _ =>
      give (entry_result prepared assertionID
        ("inconclusive", "Resolved assertion path could not be inspected without crossing a trust boundary.", false))
  | Ok hostPath =>
      do! info := ask (λ t, rf_lstat t hostPath) in
      give (entry_result prepared assertionID (entry_status info))
  end.
End files.

(** ** The assertions *)

Definition stream_status (matched truncated : bool) : string * string :=
  if matched then ("passed", "Trusted bounded output matched the declared assertion.")
  else if truncated then ("inconclusive", "Bounded output was truncated before absence could be established.")
  else ("failed", "Trusted bounded output did not match the declared assertion.").
Definition step_reference (index : Z) : string := "step:" +:+ pad 3 (index + 1).
Definition step_millis (step : StepResult) : Z := Z.quot (sr_Duration step) Millisecond.

(** The status, what was found, and the message, of stdout against a schema. *)
Definition stdout_schema_outcome (prepared : PreparedRun) (reference : PlanJSONSchemaRef) (step : StepResult)
    : string * list (string * any) * string :=
  let found more := ("stdoutComplete", VBool true) :: more in
  if sr_LogTruncated step then
    ("inconclusive", [("stdoutComplete", VBool false); ("failure", VStr "log-capture-truncated")],
     "Shared bounded log capture was incomplete, so complete stdout could not be established.")
  else
    match decoded (sr_Stdout step) with
    | Err kind =>
        ("failed", found [("strictJSON", VBool false); ("failure", VStr (kind_text kind))], "Trusted complete stdout is not bounded strict JSON.")
    | Ok document =>
        match structuredJSONSchema prepared reference with
        | None =>
            ("blocked", found [("strictJSON", VBool true); ("failure", VStr "schema-binding-unavailable")],
             "Plan-bound JSON Schema was unavailable to the controller.")
        | Some s =>
            match Schema_Validate (Some s) document with
            | Ok _ => ("passed", found [("strictJSON", VBool true); ("jsonSchemaMatched", VBool true)],
                       "Trusted complete stdout satisfied the plan-bound schema.")
            | Err kind =>
                let unmatched failure := found [("strictJSON", VBool true); ("jsonSchemaMatched", VBool false); ("failure", VStr failure)] in
                if bool_decide (kind = ErrorSchemaNotSatisfied)
                then ("failed", unmatched "schema-not-satisfied", "Trusted complete stdout did not satisfy the plan-bound schema.")
                else ("inconclusive", unmatched "schema-evaluation-incomplete", "Controller-owned JSON Schema evaluation could not complete.")
            end
        end
    end.
Definition evaluateStdoutJSONSchemaAssertion (prepared : PreparedRun) (assertionID : string) (reference : PlanJSONSchemaRef)
    (journey : option (StepResult * Z)) : AssertionResult :=
  let result status actual refs message duration :=
    {| ar_SchemaVersion := "1"; ar_ID := assertionID; ar_Type := "stdout-json-schema"; ar_Required := true;
       ar_Expected := VMap [("path", VStr (pjs_Path reference)); ("digest", VStr (pjs_Digest reference)); ("dialect", VStr (pjs_Dialect reference));
                            ("validatorVersion", VStr (pjs_ValidatorVersion reference))];
       ar_Actual := VMap actual; ar_Status := status; ar_EvidenceRefs := Some (refs ++ ["json-schema:" +:+ pjs_Digest reference]);
       ar_Message := message; ar_Repeat := 0; ar_DurationMillis := duration |} in
  match journey with
  | None => result "blocked" [("failure", VStr "journey-unavailable")] [] "Journey command did not produce complete stdout for schema evaluation." 0
  | Some (step, index) =>
      let '(status, actual, message) := stdout_schema_outcome prepared reference step in
      result status actual [step_reference index] message (step_millis step)
  end.

Section evaluate.
Context `{RunFiles} `{Expressions}.

Definition no_input := "Journey command did not produce assertion input.".
(** A result with the duration and the reference of the journey's step. *)
Definition command_result (journey : option (StepResult * Z)) (assertionID kind : string) (expected actual : any) (status message : string)
    : AssertionResult :=
  {| ar_SchemaVersion := "1"; ar_ID := assertionID; ar_Type := kind; ar_Required := true; ar_Expected := expected; ar_Actual := actual;
     ar_Status := status; ar_EvidenceRefs := Some match journey with Some (_, index) => [step_reference index] | None => [] end;
     ar_Message := message; ar_Repeat := 0; ar_DurationMillis := match journey with Some (step, _) => step_millis step | None => 0 end |}.
Definition exit_code_result (journey : option (StepResult * Z)) (assertionID : string) (code : Z) : AssertionResult :=
  let result := command_result journey assertionID "exit-code" (VInt code) in
  match journey with
  | None => result VNil "blocked" no_input
  | Some (step, _) =>
      if sr_ExitCode step <? 0 then result VNil "inconclusive" no_input
      else if sr_ExitCode step =? code then result (VInt (sr_ExitCode step)) "passed" "Trusted runner observed the expected exit code."
      else result (VInt (sr_ExitCode step)) "failed" "Trusted runner observed a different exit code."
  end.
(** A stream against a text or an expression; [matches] is [None] for an expression that does not compile. *)
Definition stream_result (journey : option (StepResult * Z)) (assertionID kind expected : string) (stream : StepResult → string)
    (matches : option (string → bool)) : AssertionResult :=
  let result := command_result journey assertionID kind (VStr expected) in
  match journey with
  | None => result (VBool false) "blocked" no_input
  | Some (step, _) =>
      match matches with
      | None => result (VBool false) "blocked" "Resolved stdout regex is invalid."
      | Some matches =>
          let matched := matches (stream step) in
          let '(status, message) := stream_status matched (sr_LogTruncated step) in
          result (VBool matched) status message
      end
  end.

Definition command_assertion (prepared : PreparedRun) (journey : option (StepResult * Z)) (assertion : PlanAssertion) : io AssertionResult :=
  let id := pa_ID assertion in
  match operation_of assertion with
  | ExitCodeIs code => give (exit_code_result journey id code)
  | StdoutHas text => give (stream_result journey id "stdout-contains" text sr_Stdout (Some (λ s, contains s text)))
  | StderrHas text => give (stream_result journey id "stderr-contains" text sr_Stderr (Some (λ s, contains s text)))
  | StdoutMatches expression => give (stream_result journey id "stdout-regex" expression sr_Stdout (compile_regexp expression))
  | StdoutSatisfies reference => give (evaluateStdoutJSONSchemaAssertion prepared id reference journey)
  | FileExists path => evaluateFileExistsAssertion prepared id path
  | NoOperation => give (command_result journey id "exit-code" VNil VNil "blocked" "Resolved assertion has no supported operation.")
  end.
Fixpoint command_assertions (prepared : PreparedRun) (journey : option (StepResult * Z)) (assertions : list PlanAssertion) : io (list AssertionResult) :=
  match assertions with
  | [] => give []
  | assertion :: rest =>
      do! result := command_assertion prepared journey assertion in
      do! results := command_assertions prepared journey rest in
      give (result :: results)
  end.
Definition evaluateJourneyAssertions (prepared : PreparedRun) (steps : list StepResult) : io (list AssertionResult) :=
  command_assertions prepared (journeyStep steps) (fp_JourneyAssertions (pr_executionPlan prepared)).
End evaluate.

(** ** What an assertion establishes *)

Section meaning.
Context `{RunFiles} `{Expressions}.
Variables (prepared : PreparedRun) (steps : list StepResult).

(** The step the assertions are about: the last of the role of a journey. *)
Definition last_journey (step : StepResult) : Prop :=
  ∃ before after, steps = before ++ step :: after ∧ sr_Role step = "journey" ∧ Forall (λ s, sr_Role s ≠ "journey") after.

(** The entry was seen between the calls, below a mount of the run, and so was
    every directory above it, none a link; when one of them was missing, what
    lies below it was not looked at before the entry itself. *)
Definition file_seen (sandboxPath : string) (t t' : nat) : Prop :=
  ∃ mount relative checked unseen,
    mount ∈ mappings prepared ∧ mapped sandboxPath mount = true
    ∧ let hostPath := host_path sandboxPath mount in
      pathWithin mount.2 hostPath = true ∧ Rel mount.2 hostPath = Some relative ∧ escapes (Some relative) = false
      ∧ relative_segments relative = checked ++ unseen
      ∧ (∀ above segment below, checked = above ++ segment :: below →
           ∃ u, (t <= u < t')%nat ∧ rf_lstat u (foldl join_path mount.2 (above ++ [segment])) = Entry false)
      ∧ match unseen with
        | [] => ∃ u, (t <= u < t')%nat ∧ ∀ resolved, rf_resolve u hostPath = Some resolved →
                  samePath resolved hostPath = true ∧ pathWithin mount.2 resolved = true
        | segment :: _ => ∃ u, (t <= u < t')%nat ∧ rf_lstat u (foldl join_path mount.2 (checked ++ [segment])) = Missing
        end
      ∧ ∃ u, (t <= u < t')%nat ∧ rf_lstat u hostPath = Entry false.

Definition command_holds (op : operation) : Prop :=
  ∃ step, last_journey step ∧
    match op with
    | ExitCodeIs code => 0 <= sr_ExitCode step ∧ sr_ExitCode step = code
    | StdoutHas text => contains (sr_Stdout step) text = true
    | StderrHas text => contains (sr_Stderr step) text = true
    | StdoutMatches expression => ∃ matches, compile_regexp expression = Some matches ∧ matches (sr_Stdout step) = true
    | StdoutSatisfies reference => sr_LogTruncated step = false
        ∧ ∃ document, decoded (sr_Stdout step) = Ok document ∧ schema_accepts prepared document reference
    | FileExists _ | NoOperation => False
    end.
Definition command_refuted (op : operation) : Prop :=
  ∃ step, last_journey step ∧
    match op with
    | ExitCodeIs code => 0 <= sr_ExitCode step ∧ sr_ExitCode step ≠ code
    | StdoutHas text => contains (sr_Stdout step) text = false ∧ sr_LogTruncated step = false
    | StderrHas text => contains (sr_Stderr step) text = false ∧ sr_LogTruncated step = false
    | StdoutMatches expression =>
        ∃ matches, compile_regexp expression = Some matches ∧ matches (sr_Stdout step) = false ∧ sr_LogTruncated step = false
    | StdoutSatisfies reference => sr_LogTruncated step = false
        ∧ ((∃ kind, decoded (sr_Stdout step) = Err kind)
           ∨ ∃ document, decoded (sr_Stdout step) = Ok document ∧ schema_rejects prepared document reference)
    | FileExists _ | NoOperation => False
    end.
End meaning.

(** ** The step of the journey *)

Lemma journey_from_exact steps : ∀ index,
  (∀ step, (∃ n, journey_from index steps = Some (step, n)) ↔ last_journey steps step)
  ∧ (journey_from index steps = None ↔ Forall (λ s, sr_Role s ≠ "journey") steps).
Proof.
  induction steps as [|s steps IH]; intros index; cbn [journey_from].
  - split; [|by split]. intros step. split; [by intros [n [=]]|by intros (before & after & E & _); destruct before].
  - destruct (IH (index + 1)) as [Hsome Hnone]. destruct (journey_from (index + 1) steps) as [[found n]|] eqn:E.
    + assert (last_journey steps found) as Hlast by (apply Hsome; by exists n). split.
      * intros step. split.
        -- intros [n' [= <- _]]. destruct Hlast as (before & after & -> & Hrest). by exists (s :: before), after.
        -- intros (before & after & Eq & Hrole & Hafter). destruct before as [|s' before]; injection Eq as -> ->.
           ++ apply Hnone in Hafter. discriminate Hafter.
           ++ destruct (proj2 (Hsome step)) as [n' Hn]; [by exists before, after|]. by exists n'.
      * split; [done|]. intros Hall. apply Forall_cons in Hall as [_ Hall]. by apply Hnone in Hall.
    + pose proof (proj1 Hnone eq_refl) as Hall. destruct (String.eqb_spec (sr_Role s) "journey") as [Hrole|Hrole]; (split; [intros step|]).
      * split; [intros [n [= <- _]]; by exists [], steps|]. intros (before & after & Eq & Hr & _). destruct before as [|s' before]; injection Eq as -> ->; [by exists index|].
        rewrite Forall_app, Forall_cons in Hall. destruct Hall as (_ & ? & _). done.
      * split; [done|by intros [? _]%Forall_cons].
      * split; [by intros [n [=]]|]. intros (before & after & Eq & Hr & _). destruct before as [|s' before]; injection Eq as -> ->; [done|].
        rewrite Forall_app, Forall_cons in Hall. by destruct Hall as (_ & ? & _).
      * split; [by constructor|done].
Qed.
Lemma journey_found steps step index : journeyStep steps = Some (step, index) → ∀ s, last_journey steps s ↔ s = step.
Proof.
  intros E s. rewrite <- (proj1 (journey_from_exact steps 0) s). unfold journeyStep in E. rewrite E. split; [by intros [n [= <- _]]|intros ->; by exists index].
Qed.
Lemma journey_absent steps : journeyStep steps = None → ∀ s, ¬ last_journey steps s.
Proof. intros E s Hl. apply (proj1 (journey_from_exact steps 0)) in Hl as [n Hn]. unfold journeyStep in E. congruence. Qed.
Lemma about_journey steps step index (P : StepResult → Prop) : journeyStep steps = Some (step, index) → (∃ s, last_journey steps s ∧ P s) ↔ P step.
Proof. intros E. setoid_rewrite (journey_found _ _ _ E). split; [by intros (s & -> & Hp)|by intros Hp; exists step]. Qed.
Lemma about_no_journey steps (P : StepResult → Prop) : journeyStep steps = None → (∃ s, last_journey steps s ∧ P s) ↔ False.
Proof. intros E. split; [|done]. intros (s & Hl & _). by apply (journey_absent _ E s). Qed.

(** ** One assertion *)

Section exact.
Context `{RunFiles} `{Expressions}.
Variables (prepared : PreparedRun) (steps : list StepResult).

(** The result is that of the assertion: it passes exactly on what establishes
    it and fails exactly on what refutes it; an entry passes when it was seen. *)
Definition decides (t t' : nat) (a : PlanAssertion) (result : AssertionResult) : Prop :=
  ar_ID result = pa_ID a ∧ ar_Status result ∈ statuses
  ∧ match operation_of a with
    | FileExists path => passed result → file_seen prepared path t t'
    | op => (passed result ↔ command_holds prepared steps op) ∧ (ar_Status result = "failed" ↔ command_refuted prepared steps op)
    end.

Lemma exit_code_decided id code :
  let result := exit_code_result (journeyStep steps) id code in
  ar_ID result = id ∧ ar_Status result ∈ statuses
  ∧ (passed result ↔ command_holds prepared steps (ExitCodeIs code)) ∧ (ar_Status result = "failed" ↔ command_refuted prepared steps (ExitCodeIs code)).
Proof.
  cbn zeta. unfold command_holds, command_refuted, exit_code_result, passed, statuses. destruct (journeyStep steps) as [[step index]|] eqn:E.
  - rewrite !(about_journey _ _ _ _ E). destruct (Z.ltb_spec (sr_ExitCode step) 0); [cbn; split_and!; [done|set_solver| |]; (split; [done|lia])|].
    destruct (Z.eqb_spec (sr_ExitCode step) code); cbn; (split_and!; [done|set_solver| |]); (split; [intros|intros ?]); done || lia.
  - rewrite !(about_no_journey _ _ E). cbn. split_and!; [done|set_solver|by split|by split].
Qed.
Lemma stream_decided id kind expected stream matches holds refuted :
  (∀ step, holds step ↔ ∃ f, matches = Some f ∧ f (stream step) = true) →
  (∀ step, refuted step ↔ ∃ f, matches = Some f ∧ f (stream step) = false ∧ sr_LogTruncated step = false) →
  let result := stream_result (journeyStep steps) id kind expected stream matches in
  ar_ID result = id ∧ ar_Status result ∈ statuses
  ∧ (passed result ↔ ∃ step, last_journey steps step ∧ holds step) ∧ (ar_Status result = "failed" ↔ ∃ step, last_journey steps step ∧ refuted step).
Proof.
  intros Hholds Hrefuted. cbn zeta. unfold stream_result, passed, statuses. destruct (journeyStep steps) as [[step index]|] eqn:E.
  - rewrite !(about_journey _ _ _ _ E), Hholds, Hrefuted. destruct matches as [f|]; [rewrite !present_some|].
    + unfold stream_status. destruct (f (stream step)), (sr_LogTruncated step); cbn; (split_and!; [done|set_solver| |]); naive_solver.
    + cbn. split_and!; [done|set_solver| |]; naive_solver.
  - rewrite !(about_no_journey _ _ E). cbn. split_and!; [done|set_solver|by split|by split].
Qed.
Lemma stdout_schema_decided reference step :
  let '(status, _, _) := stdout_schema_outcome prepared reference step in
  status ∈ statuses
  ∧ (status = "passed" ↔ sr_LogTruncated step = false ∧ ∃ document, decoded (sr_Stdout step) = Ok document ∧ schema_accepts prepared document reference)
  ∧ (status = "failed" ↔ sr_LogTruncated step = false
       ∧ ((∃ kind, decoded (sr_Stdout step) = Err kind)
          ∨ ∃ document, decoded (sr_Stdout step) = Ok document ∧ schema_rejects prepared document reference)).
Proof.
  unfold stdout_schema_outcome, statuses. destruct (sr_LogTruncated step); [split_and!; [set_solver| |]; naive_solver|].
  destruct (decoded (sr_Stdout step)) as [document|kind]; [|split_and!; [set_solver| |]; naive_solver].
  destruct (structuredJSONSchema prepared reference) as [s|] eqn:Es.
  - destruct (schema_decided prepared document reference s Es) as [Ha Hr].
    assert (∀ P : json → Prop, (∃ d, Ok (E := ErrorKind) document = Ok d ∧ P d) ↔ P document) as Hd by (intros P; split; [by intros (d & [= <-] & Hp)|by exists document]).
    revert Ha Hr. destruct (Schema_Validate (Some s) document) as [[]|kind]; intros Ha Hr; [|case_bool_decide]; cbn iota beta; rewrite !Hd, Ha, Hr;
      (split_and!; [set_solver| |]); naive_solver.
  - unfold schema_accepts, schema_rejects. rewrite Es. split_and!; [set_solver| |]; naive_solver.
Qed.
Lemma schema_assertion_decided id reference :
  let result := evaluateStdoutJSONSchemaAssertion prepared id reference (journeyStep steps) in
  ar_ID result = id ∧ ar_Status result ∈ statuses
  ∧ (passed result ↔ command_holds prepared steps (StdoutSatisfies reference))
  ∧ (ar_Status result = "failed" ↔ command_refuted prepared steps (StdoutSatisfies reference)).
Proof.
  cbn zeta. unfold evaluateStdoutJSONSchemaAssertion, command_holds, command_refuted, passed. destruct (journeyStep steps) as [[step index]|] eqn:E.
  - rewrite !(about_journey _ _ _ _ E). pose proof (stdout_schema_decided reference step) as Hd.
    destruct (stdout_schema_outcome prepared reference step) as [[status actual] message]. by split.
  - rewrite !(about_no_journey _ _ E). cbn. unfold statuses. split_and!; [done|set_solver|by split|by split].
Qed.

(** *** Calls only go forward *)

Definition advances {A} (m : io A) : Prop := ∀ t a t', m t = (a, t') → (t <= t')%nat.
Lemma give_advances {A} (a : A) : advances (give a).
Proof. by intros t b t' [_ ->]%give_done. Qed.
Lemma ask_advances {A} (f : nat → A) : advances (ask f).
Proof. intros t b t' [_ ->]%ask_done. lia. Qed.
Lemma bind_advances {A B} (m : io A) (k : A → io B) : advances m → (∀ a, advances (k a)) → advances (bind_io m k).
Proof. intros Hm Hk t b t' (a & t1 & H1 & H2)%bind_io_done. apply Hm in H1. apply Hk in H2. lia. Qed.
Ltac advance :=
  repeat match goal with
  | |- advances (give _) => apply give_advances
  | |- advances (ask _) => apply ask_advances
  | |- advances (bind_io _ _) => apply bind_advances; [|intros ?]
  | |- advances (match ?x with _ => _ end) => destruct x
  | |- advances _ => assumption
  end.
Lemma segments_advance segments : ∀ current, advances (inspect_segments current segments).
Proof. induction segments as [|segment segments IH]; intros current; cbn [inspect_segments]; advance. apply IH. Qed.
Lemma entry_advances id path : advances (evaluateFileExistsAssertion prepared id path).
Proof.
  unfold evaluateFileExistsAssertion, hostPathForAssertion, rejectSymlinkPath. advance. apply segments_advance.
Qed.

(** *** Entries *)

Lemma segments_seen current segments : ∀ t r t', inspect_segments current segments t = (Ok r, t') →
  (t <= t')%nat ∧ ∃ checked unseen, segments = checked ++ unseen ∧ (r = true ↔ unseen = [])
    ∧ (∀ above segment below, checked = above ++ segment :: below →
         ∃ u, (t <= u < t')%nat ∧ rf_lstat u (foldl join_path current (above ++ [segment])) = Entry false)
    ∧ match unseen with
      | [] => True
      | segment :: _ => ∃ u, (t <= u < t')%nat ∧ rf_lstat u (foldl join_path current (checked ++ [segment])) = Missing
      end.
Proof.
  revert current. induction segments as [|segment segments IH]; intros current t r t'; cbn [inspect_segments].
  - intros [[= ->] ->]%give_done. split; [done|]. exists [], []. split_and!; [done|done| |done]. intros above segment below Eq. by destruct above.
  - intros (info & t1 & [Hinfo ->]%ask_done & Hr)%bind_io_done. destruct info as [[]| |text]; [by apply give_done in Hr as [[=] _]| | |by apply give_done in Hr as [[=] _]].
    + apply IH in Hr as (Hle & checked & unseen & -> & Hiff & Hseen & Hlast). split; [lia|]. exists (segment :: checked), unseen. split_and!; [done|done| |].
      * intros above s below Eq. destruct above as [|s' above]; injection Eq as <- Eq; [exists t; split; [lia|exact Hinfo]|].
        destruct (Hseen above s below Eq) as (u & Hu & Hl). exists u. split; [lia|exact Hl].
      * destruct unseen as [|s unseen]; [done|]. destruct Hlast as (u & Hu & Hl). exists u. split; [lia|exact Hl].
    + apply give_done in Hr as [[= ->] ->]. split; [lia|]. exists [], (segment :: segments). split_and!; [done|done|intros above s below Eq; by destruct above|].
      exists t. split; [lia|exact Hinfo].
Qed.

Lemma entry_decided id path t result t' :
  evaluateFileExistsAssertion prepared id path t = (result, t') →
  ar_ID result = id ∧ ar_Status result ∈ statuses ∧ (passed result → file_seen prepared path t t').
Proof.
  unfold evaluateFileExistsAssertion, passed, statuses. intros (hostPath & t1 & Hpath & Hr)%bind_io_done.
  destruct hostPath as [hostPath|]; [|apply give_done in Hr as [-> _]; cbn; split_and!; [done|set_solver|done]].
  apply bind_io_done in Hr as (info & t2 & [Hinfo ->]%ask_done & Hr). apply give_done in Hr as [-> ->].
  split; [done|]. split; [destruct info as [[]| |]; cbn; set_solver|]. intros Hp. assert (info = Entry false) as -> by (by destruct info as [[]| |]). clear Hp.
  unfold hostPathForAssertion in Hpath. destruct (_ || _); [by apply give_done in Hpath as [[=] _]|].
  destruct (List.find (mapped path) (mappings prepared)) as [mount|] eqn:Efind; [|by apply give_done in Hpath as [[=] _]].
  apply find_some in Efind as [Hin%list_elem_of_In Hmapped]. destruct (pathWithin mount.2 (host_path path mount)) eqn:Ewithin; [|by apply give_done in Hpath as [[=] _]].
  apply bind_io_done in Hpath as (rejected & t2 & Hreject & Hpath). apply give_done in Hpath as [Hpath ->].
  destruct rejected as [[]|e]; [|discriminate Hpath]. cbn [bind_result] in Hpath. injection Hpath as ->.
  unfold rejectSymlinkPath in Hreject. destruct (Rel mount.2 (host_path path mount)) as [relative|] eqn:Erel; [|by apply give_done in Hreject as [[=] _]].
  destruct (escapes (Some relative)) eqn:Eescapes; [by apply give_done in Hreject as [[=] _]|].
  apply bind_io_done in Hreject as (inspected & t3 & Hsegments & Hr). destruct inspected as [whole|]; [|by apply give_done in Hr as [[=] _]].
  apply segments_seen in Hsegments as (Hle & checked & unseen & Esegments & Hwhole & Hseen & Hlast).
  assert (t3 <= t2 ∧ (whole = true → t3 < t2 ∧ ∀ resolved, rf_resolve t3 (host_path path mount) = Some resolved →
    samePath resolved (host_path path mount) = true ∧ pathWithin mount.2 resolved = true))%nat as [Hlater Hresolved].
  { destruct whole; [|apply give_done in Hr as [_ ->]; split; [lia|done]]. apply bind_io_done in Hr as (resolved & t4 & [Hres ->]%ask_done & Hr).
    apply give_done in Hr as [Hr ->]. split; [lia|]. intros _. split; [lia|]. intros resolved' Hres'. subst resolved. rewrite Hres' in Hr.
    revert Hr. destruct (samePath resolved' _), (pathWithin mount.2 resolved'); by cbn. }
  exists mount, relative, checked, unseen. do 6 (split; [assumption|]). split; [|split].
  - intros above segment below Eq. destruct (Hseen above segment below Eq) as (u & Hu & Hl). exists u. split; [lia|exact Hl].
  - destruct unseen as [|segment unseen].
    + exists t3. destruct (Hresolved (proj2 Hwhole eq_refl)) as [Hlt Hres]. split; [lia|exact Hres].
    + destruct Hlast as (u & Hu & Hl). exists u. split; [lia|exact Hl].
  - exists t2. split; [lia|exact Hinfo].
Qed.

Lemma command_assertion_decided a t result t' :
  command_assertion prepared (journeyStep steps) a t = (result, t') → decides t t' a result ∧ (t <= t')%nat.
Proof.
  unfold command_assertion, decides. destruct (operation_of a) as [code|text|text|expression|reference|path|].
  - intros [-> ->]%give_done. split; [apply exit_code_decided|lia].
  - intros [-> ->]%give_done. split; [|lia]. apply stream_decided; intros step; by rewrite present_some.
  - intros [-> ->]%give_done. split; [|lia]. apply stream_decided; intros step; by rewrite present_some.
  - intros [-> ->]%give_done. split; [|lia]. by apply stream_decided.
  - intros [-> ->]%give_done. split; [apply schema_assertion_decided|lia].
  - intros Hr. split; [by apply entry_decided|by apply entry_advances in Hr].
  - intros [-> ->]%give_done. split; [|lia]. unfold passed, command_holds, command_refuted, statuses. cbn.
    split_and!; [done|set_solver|split; [done|by intros (s & _ & [])]|split; [done|by intros (s & _ & [])]].
Qed.

Lemma file_seen_wider path u t t' u' : (u <= t)%nat → (t' <= u')%nat → file_seen prepared path t t' → file_seen prepared path u u'.
Proof.
  intros Hlo Hhi (mount & relative & checked & unseen & Hin & Hmapped & Hseen). exists mount, relative, checked, unseen. split; [exact Hin|]. split; [exact Hmapped|].
  cbn zeta in *. destruct Hseen as (Hwithin & Hrel & Hesc & Hseg & Hchecked & Hunseen & v & Hv & Hentry). do 4 (split; [assumption|]). split; [|split].
  - intros above segment below Eq. destruct (Hchecked above segment below Eq) as (w & Hw & Hl). exists w. split; [lia|exact Hl].
  - destruct unseen; destruct Hunseen as (w & Hw & Hl); exists w; (split; [lia|exact Hl]).
  - exists v. split; [lia|exact Hentry].
Qed.
Lemma decides_wider u t t' u' a result : (u <= t)%nat → (t' <= u')%nat → decides t t' a result → decides u u' a result.
Proof.
  intros Hlo Hhi (Hid & Hs & Hd). split; [exact Hid|]. split; [exact Hs|]. destruct (operation_of a); try exact Hd.
  intros Hp. eapply file_seen_wider; [done..|by apply Hd].
Qed.
Lemma command_assertions_decided l : ∀ t results t', command_assertions prepared (journeyStep steps) l t = (results, t') →
  Forall2 (decides t t') l results ∧ (t <= t')%nat.
Proof.
  induction l as [|a l IH]; intros t results t'; cbn [command_assertions].
  - intros [-> ->]%give_done. split; [constructor|lia].
  - intros (result & t1 & [Ha Hle]%command_assertion_decided & Hr)%bind_io_done. apply bind_io_done in Hr as (rest & t2 & [Hl Hle']%IH & Hr).
    apply give_done in Hr as [-> ->]. split; [|lia]. constructor; [by apply (decides_wider t t t1); [lia| |]|].
    eapply Forall2_impl; [exact Hl|]. intros x y Hd. by apply (decides_wider t t1 t2).
Qed.
End exact.

Lemma no_failure_passed results : Forall (λ result, ar_Status result ∈ statuses) results → (assertionFailure results = None ↔ Forall passed results).
Proof.
  intros Hall. split; [|apply all_passed]. unfold assertionFailure. destruct (List.find (has_status ["failed"]) results) eqn:Ef; [done|].
  destruct (List.find (has_status ["blocked"; "inconclusive"]) results) eqn:Eb; [done|]. intros _. rewrite Forall_forall in Hall. apply Forall_forall. intros result Hin.
  pose proof (find_none _ _ Ef result (proj1 (list_elem_of_In _ _) Hin)) as H1. pose proof (find_none _ _ Eb result (proj1 (list_elem_of_In _ _) Hin)) as H2.
  specialize (Hall _ Hin). unfold has_status in H1, H2. unfold passed. unfold statuses in Hall. rewrite !elem_of_cons, elem_of_nil in Hall.
  by destruct Hall as [Hs|[Hs|[Hs|[Hs|[]]]]]; rewrite Hs in *.
Qed.

(** C35: the results of a command journey are those of the assertions of the plan,
    in their order, and the run has no assertion error exactly when all of them
    passed.  An assertion on the exit code or a stream passes exactly when the
    last step of the journey establishes it, and fails exactly when that step
    refutes it: output that was cut off never refutes a text, and never
    establishes a schema.  A file assertion passes only for an entry seen below
    a mount of the run, with no link on the way. *)
Theorem command_assertions_exact `{RunFiles} `{Expressions} prepared steps t results t' :
  evaluateJourneyAssertions prepared steps t = (results, t') →
  Forall2 (decides prepared steps t t') (fp_JourneyAssertions (pr_executionPlan prepared)) results
  ∧ (assertionFailure results = None ↔ Forall passed results).
Proof.
  unfold evaluateJourneyAssertions. intros [Hd _]%command_assertions_decided. split; [exact Hd|]. apply no_failure_passed.
  induction Hd as [|a result l results (_ & Hs & _) _ IH]; by constructor.
Qed.

(** ** Examples *)

Definition asserting (l : list PlanAssertion) : PreparedRun :=
  let p := empty_plan in
  {| pr_Backend := "docker"; pr_RunID := "run"; pr_SourceSnapshotDir := "/run/source"; pr_WorkspaceDir := "/run/workspace"; pr_OutputsDir := "/run/outputs";
     pr_Inputs := [];
     pr_executionPlan :=
       {| fp_SchemaVersion := fp_SchemaVersion p; fp_Source := fp_Source p; fp_ManifestDigest := fp_ManifestDigest p; fp_Scenario := fp_Scenario p;
          fp_Environment := fp_Environment p; fp_RuntimeAdapter := fp_RuntimeAdapter p; fp_RuntimeVersion := fp_RuntimeVersion p;
          fp_BaseImageReference := fp_BaseImageReference p; fp_BaseImageDigest := fp_BaseImageDigest p; fp_Resources := fp_Resources p;
          fp_Inputs := fp_Inputs p; fp_AdapterVersions := fp_AdapterVersions p; fp_ObserverVersions := fp_ObserverVersions p;
          fp_JourneyDriver := fp_JourneyDriver p; fp_JourneyDriverVersion := fp_JourneyDriverVersion p; fp_Commands := fp_Commands p;
          fp_JourneyAssertions := l; fp_HTTPJourney := None; fp_Cleanup := fp_Cleanup p; fp_Evidence := fp_Evidence p;
          fp_Capabilities := fp_Capabilities p; fp_RequiredRunnerFeatures := fp_RequiredRunnerFeatures p; fp_ObserverSet := fp_ObserverSet p;
          fp_RepeatCount := fp_RepeatCount p; fp_SuccessThreshold := fp_SuccessThreshold p; fp_PolicyBundleDigest := fp_PolicyBundleDigest p;
          fp_PlanDigest := fp_PlanDigest p |};
     pr_sealed := true; pr_schemas := Some [] |}.
Definition asserted (code : option Z) (stdout stderr regex file : string) : PlanAssertion :=
  {| pa_ID := "exits"; pa_ExitCode := code; pa_StdoutContains := stdout; pa_StderrContains := stderr; pa_StdoutRegex := regex;
     pa_StdoutJSONSchema := None; pa_FileExists := file; pa_Response := None; pa_JSONFile := None |}.
Definition ran (role stdout : string) (code : Z) (truncated : bool) : StepResult :=
  {| sr_ID := role; sr_Phase := PhaseExercise; sr_Role := role; sr_ExitCode := code; sr_Stdout := stdout; sr_Stderr := ""; sr_Duration := 7 * Millisecond;
     sr_LogBytes := 4; sr_LogTruncated := truncated; sr_TimedOut := false; sr_ContainerName := "c"; sr_CleanupAttempted := false;
     sr_CleanupSucceeded := false; sr_ErrorCode := "" |}.
(** Below the outputs: a report, a link, and nothing else. *)
Definition some_files : RunFiles :=
  {| rf_lstat := λ _ p, if one_of p ["/run/outputs/report"; "/run/outputs/report/a.txt"] then Entry false
                        else if p =s "/run/outputs/link" then Entry true else Missing;
     rf_resolve := λ _ p, Some p |}.
Definition literal_expressions : Expressions := {| compile_regexp := λ e, if e =s "(" then None else Some (λ s, contains s e) |}.
Definition command_statuses (steps : list StepResult) (l : list PlanAssertion) : list string :=
  List.map ar_Status (@evaluateJourneyAssertions some_files literal_expressions (asserting l) steps 0%nat).1.

Example command_results :
  (command_statuses [ran "setup" "done" 0 false; ran "journey" "ok" 0 true; ran "cleanup" "" 1 false]
     [asserted (Some 0) "" "" "" ""; asserted (Some 1) "" "" "" ""; asserted None "ok" "" "" ""; asserted None "done" "" "" "";
      asserted None "" "" "(" ""; asserted None "" "" "" "/outputs/report/a.txt"; asserted None "" "" "" "/outputs/link";
      asserted None "" "" "" "/outputs/link/a"; asserted None "" "" "" "/outputs/gone/a"; asserted None "" "" "" "/etc/passwd"],
   command_statuses [ran "journey" "ok" (-1) false] [asserted (Some 0) "" "" "" ""; asserted None "no" "" "" ""],
   command_statuses [] [asserted (Some 0) "" "" "" ""])
  = (["passed"; "failed"; "passed"; "inconclusive"; "blocked"; "passed"; "inconclusive"; "inconclusive"; "failed"; "inconclusive"],
     ["inconclusive"; "failed"], ["blocked"]).
Proof. vm_compute. reflexivity. Qed.

Lemma command_assertions_exact_witness :
  let results := (@evaluateJourneyAssertions some_files literal_expressions (asserting [asserted (Some 0) "" "" "" ""]) [ran "journey" "ok" 0 false] 0%nat).1 in
  List.map ar_Status results = ["passed"] ∧ (assertionFailure results = None ↔ Forall passed results).
Proof.
  cbn zeta. split; [vm_compute; reflexivity|].
  apply (@command_assertions_exact some_files literal_expressions (asserting [asserted (Some 0) "" "" "" ""]) [ran "journey" "ok" 0 false] 0%nat _ 0%nat).
  vm_compute. reflexivity.
Defined.
